(* ===== verification/_CoqProject ===== *)
-Q . S2P
Prelude.v
MarpaH.v
Avl.v
AvlTree.v
AvlProbe.v
AvlTheorems.v
AvlTraversal.v
Dstack.v
BitVector.v
BitVectorTheorems.v
BitScan.v
Matrix.v
MatrixTheorems.v
Cil.v
CilTheorems.v
MarpaGrammar.v
MarpaRules.v
MarpaGrammarTheorems.v
MarpaRuleTheorems.v
MarpaCalls.v
Census.v
CensusSpec.v
CensusLists.v
CensusClosure.v
CensusMarks.v
CensusRules.v
CensusBody.v
CensusTheorems.v
CensusProperties.v
Rewrite.v
RewriteSpec.v
RewriteSteps.v
RewriteLanguage.v
RewriteTheorems.v
RewriteProperties.v
RewriteShape.v
Items.v
Relations.v
ItemsSpec.v
ItemsCreate.v
ItemsTables.v
ItemsLists.v
ItemsTheorems.v
ItemsProperties.v
Recce.v
Earley.v
EarleyStage.v
EarleySteps.v
EarleyPostdot.v
EarleySet.v
EarleyCalls.v
EarleyStart.v
EarleyEngine.v
EarleyLanguage.v
EarleyRun.v
EarleyProperties.v
Types.v
External.v
Runtime.v
Demo.v
ManageBuf.v
GenericStack.v
StackSpec.v
StackTheorems.v
MessageBuilder.v
Logger.v
WrapperLog.v
LoggerTheorems.v
Wrapper.v
WrapperSpec.v
Events.v
Codes.v
Grammar.v
GrammarTheorems.v
RegistryTheorems.v
Recognizer.v
Value.v
RecognizerTheorems.v
Refs.v
ValueTheorems.v
