(* ===== verification/Prelude.v ===== *)
(** * marpaWrapper: a verification development

    marpaWrapper ([src/src/], [src/include/]) is a C library around libmarpa
    ([src/libmarpa-dist/]): it builds a grammar, feeds a recognizer from the callbacks of its
    user, and evaluates the parse through a stack of values.  This library models that code
    as executable definitions and proves what makes it correct; where the code does not do
    what it means to, the theorem states what it does.

    ** The parts of the program, and where they are

    - [Prelude]: C integers at their width (LP64), [qsort(3)], automation, shared lemmas.
    - [Avl], [AvlTree], [AvlProbe], [AvlTheorems], [AvlTraversal]: the balanced trees of
      libmarpa ([marpa_avl.c]).  [Avl] is the code on a store of nodes; [AvlTree] the trees
      such a store represents, with contexts, heights and rotations; [AvlProbe] what each
      piece of the insertion does to them; [AvlTheorems] insertion and search;
      [AvlTraversal] traversers.
    - [Dstack], [BitVector], [Matrix], [Cil]: the data structures of [marpa.c] that its
      grammars are computed with: dynamic stacks of integers, bit vectors on 32-bit words,
      bit matrices and their closure, hash-consed lists of ids.  [BitVectorTheorems],
      [BitScan], [MatrixTheorems], [CilTheorems]: a vector is a set of numbers, a matrix a
      relation, a list of the arena a finite set.  The lexicographic order
      that the trees of [marpa.c] use is in [AvlTraversal].
    - [MarpaH]: the codes of [marpa.h].  [MarpaGrammar], [MarpaRules]: the
      grammars of libmarpa as they are built: errors, references, events, symbols, BNF and
      sequence rules, zero-width assertions, with every test that opens a call, in order.
      [MarpaGrammarTheorems]: the well-formedness of a grammar; [MarpaRuleTheorems]: the
      creation of rules; [MarpaCalls]: sequences of calls.
    - [Census]: the first part of [marpa_g_precompute]: which rules mention a symbol,
      terminals, nullable, productive, accessible and nulling symbols, the flags of rules,
      nulled symbols, cycles; [precompute_census] composes them.  [CensusSpec]: the language
      of a grammar, as derivations, and the closure that [rhs_closure()] computes.
      [CensusLists], [CensusClosure], [CensusMarks], [CensusRules]: the loops of the census,
      each with the sets and relations it computes; [CensusBody] puts them together;
      [CensusTheorems] and [CensusProperties] say what a call has found, in terms of the
      language, and that the calls of the construction leave a grammar fit for it.
    - [Rewrite]: the second part of [marpa_g_precompute], the internal grammar: internal
      symbols and rules, sequences, the cutting of rules with nullable symbols into pieces
      (CHAF), the start rule; [precompute_internal] composes both parts.  [RewriteSpec]: the
      pieces of a right-hand side as a language.  [RewriteSteps]: what an internal grammar
      looks like, what one step adds to it, and the rules added for a piece and for a rule.
      [RewriteLanguage], [RewriteTheorems] and [RewriteProperties]: the language of the
      internal grammar is that of the grammar.
    - [Items]: the last part of [marpa_g_precompute], the items ([AHM]) and the tables of the
      Earley engine, and the whole call.  [Relations]: closures of relations and their
      matrices.  [RewriteShape]: what the items are made from, an internal grammar whose rules
      are complete.  [ItemsSpec]: the dotted rules of a right-hand side, and the relations
      between symbols.  [ItemsCreate] (the items), [ItemsTables] (predictions and right
      recursion), [ItemsLists] (the lists of an item, its events and assertions): the
      loops, each with what it writes; [ItemsTheorems] puts them together and
      [ItemsProperties] says what a call has made.
    - [Recce], [Earley]: the recognizer.  [Recce] has its objects, the Earley sets, the items
      with their links, the postdot and the Leo items, the tokens that end later; [Earley] the
      functions on them, [marpa_r_new], [marpa_r_start_input], [marpa_r_alternative] and
      [marpa_r_earleme_complete].  [EarleyStage]: the Earley items of a grammar and of a
      sequence of tokens, as an inductive relation, and what holds of a recognizer while a set
      is in the making.  [EarleySteps]: scanning, completion and prediction leave exactly the
      items of that relation, but those that a Leo item stands for.  [EarleyPostdot]: the
      postdot items, the Leo items and the expected symbols of a set.  [EarleySet]: a set is
      opened, filled and closed, and its events are told.  [EarleyCalls]: the calls, on every
      branch.  [EarleyStart]: the first set.  [EarleyEngine]: the tables that the
      precomputation leaves are those that the engine counts on.  [EarleyLanguage]: the items of
      the inductive relation are the derivations of the internal grammar.  [EarleyRun]: the
      sequences of calls on a new recognizer, and what they recognize.  [EarleyProperties]: the
      theorems, and a grammar on which the recognizer is run.
    - [Types]: the structures, enumerations and option records of the headers, and the
      objects of the heap.  [External]: libmarpa's interface and the callbacks of the user,
      as calls with their types.
    - [Runtime]: the state the code runs on and the monad it is written in.  A world is a
      heap of typed objects, [errno], a script of allocations that succeed or fail, the
      sequence of the calls made so far, and the inputs of the platform; a run returns,
      is undefined (out-of-bounds access, use after free, read of an indeterminate object,
      signed overflow), or lacks fuel.  It also gives [wp] and [wlp], the weakest
      preconditions the proofs use, the frame lemmas, and [keeps]: the actions that leave an
      observation of the calls made so far (the references taken, the callbacks called) as
      it was.  [Demo]: a concrete world, which
      the witnesses run on.
    - [ManageBuf]: [manageBuf.c].  [GenericStack]: [genericStack.c]; [StackSpec] and
      [StackTheorems] say what a stack in the heap contains and refine the operations to
      operations on lists.  [MessageBuilder]: [messageBuilder.c] and [dateBuilder.c].
      [Logger]: [genericLogger.c].
    - [marpaWrapper.c]: [WrapperLog] (log macros, error texts), [Wrapper] (getters and
      option defaults), [Events] ([_marpaWrapper_event]), [Grammar] (creation, destruction,
      symbols, rules, precomputation), [Recognizer] (start, alternatives, completion,
      expected terminals, progress report, lexing loop), [Value] ([marpaWrapper_vb]).
      [WrapperSpec] says which blocks a wrapper owns and what its registries contain.
      [LoggerTheorems], [GrammarTheorems], [RegistryTheorems], [RecognizerTheorems], [Refs]
      and [ValueTheorems] hold the theorems.
    - [Codes]: the tables of [marpa_codes.c].

    Definitions keep the names of the C functions, less a leading underscore; parts of a
    function that are loops or long blocks are definitions named after it ([vb_open],
    [recognize_round], [genericStack_growTo]).  [goto] to an end label is a result the
    caller tests.  An [out] parameter is a component of the result.

    ** How the parts interact

    The wrapper owns a grammar and a recognizer of libmarpa, counted references that
    [External.live] computes from the sequence of calls; two arrays of symbols and rules
    grown by [manageBuf_createp]; and an array of progress items.  [marpaWrapper_vb] owns a
    bocage, an order, a tree and a valuator, and a generic stack whose element callbacks are
    those of the user, adapted.  In the model of the wrapper, a call to libmarpa is an
    event, answered by an arbitrary function of the calls made before ([Env]), so that a
    theorem holds for any libmarpa that has the behaviour the theorem assumes.  The same
    goes for the callbacks of the user, which may change the heap; what a theorem needs of
    them is a class ([LogNeutral], [StackCallbacksNeutral], [UserKeepsRefs], [Unwatched]) with an
    instance for the witnesses, or a hypothesis that describes the callback.

    ** What the theorems show

    - Buffers: growth keeps the content, clears the new cells, terminates; a refused
      allocation is reported.
    - Stack: any sequence of operations refines the same on a list; each operation, on each
      branch; destruction releases every block once.
    - Trees: insertion keeps balance, order and count, and never overflows its arrays
      ([MARPA_AVL_MAX_HEIGHT] is enough for any tree of less than 2^64 nodes); searches find
      what is there; a traversal gives every item once in order, also when the tree was
      rebalanced under the traverser.
    - Bit vectors, matrices, lists of ids: what is set is what is read back, in order; the
      closure is that of the relation (Warshall); merging is union; equal lists are one
      object.
    - Grammars of libmarpa: any sequence of calls on a new grammar is safe and keeps the
      invariant (ids are positions, symbols of rules exist, no duplicate rule, the left-hand
      side of a sequence has no other rule), when the arguments that C cannot check are right
      (a right-hand side is as long as it is said to be, [readable_call]) and no stack of the
      grammar reaches the [2 ^ 30] objects at which its [int] capacity overflows
      ([DSTACK_MAX]: a push beyond is a fault of the model); the creation of a rule on every
      branch; a rule is read back as it was given.
    - Census: it ends, and with the error that the language of the grammar calls for; on
      success the flags of symbols and rules, the cycles and the nulled symbols are those of
      the language, for BNF rules and sequences.
    - Internal grammar: the precomputation ends; each internal symbol derives what its record
      says it stands for, no more and no less, and the start symbol the strings of the
      grammar but the empty one; the internal rules have the shape the engine counts on.
      The equivalence holds for grammars within the documented range of sequences, a minimum of 0 or 1, with
      separators that derive something ([plain_sequences]); [minimum_of_two_lost] shows what
      happens beyond.
    - Items: the whole precomputation ends, on any grammar that calls have built and that the
      machine has room for ([tables_fit], [placements]), without a failed assertion or a read
      of memory not written; the items are the dotted rules; the predictions are the closure
      of the left corners, the marks of right recursion that of the right corners; events and
      assertions are those that the rules of the grammar call for.
    - Recognizer of libmarpa: the calls that make it and feed it end, in any state that calls
      have led to and whatever their arguments, without a failed assertion, an access outside an
      array, through a null pointer or to a field not written, and each branch does what it
      says; the Earley sets are those of Earley's four rules, but for the items that Leo items
      stand for, which are right recursive completions only; a set has an item at the end of
      the start rule exactly when the tokens up to it spell a string of the grammar that was
      given, nullable symbols, sequences and right recursion included; the terminals that are
      expected are those that an item waits for, and a token refused as unexpected could not
      have led to a string.  The chain is the whole of it: grammar as built by calls, internal
      grammar, items and tables, sets.  What is asked: a grammar whose number of items can be
      multiplied by 3 ([recognizable]), sets of less than 65534 items ([roomy]; the code writes
      through a null pointer beyond), and, for the language, sequences as documented
      ([plain_sequences]) and no assertion that forbids a rule at the start ([unguarded]).
    - Messages and logs: the text built is the formatted one, or a static error; logging
      never changes what a caller can see.
    - Wrapper, grammar: construction and destruction are balanced in blocks and references on every
      branch; symbols and rules are registered under the ids libmarpa gives, with exactly
      the options asked for; malformed rule options are refused.
    - Wrapper, recognizer: the longest lexeme is found and exactly the terminals that have it are
      proposed, up to the first refusal of libmarpa or failure of the user, with as many calls of
      the value callback as the options call for; the progress report is sorted; the comparators are orders where they are.
    - Events: the subscribed events are delivered in one call of the user's callback, in the order
      of libmarpa, and no call is made when there is none to tell.
    - Valuation: every block and reference taken is given back on every branch.
    - Defects, each with a concrete run: see the theorems whose comment starts with "A
      defect".

    ** Bounds and fuel

    Loops that are not structural take fuel; [Runtime.fueled] tells a lack of it from the
    other results, and the theorems say that the fuel is enough: [manageBuf_fuel] is one
    more than the doublings of a 64-bit size, [messageBuilder_fuel] is two (the second
    round has the exact size), the trees need as many rounds as their height, the closure of
    the census visits each symbol once, the cutting of a rule takes one round for each nullable symbol at most, the assertions of
    an item one round for each in the tree; a set of the recognizer is completed in as many
    rounds as it may have items ([complete_rounds]), its tokens are read in as many as there
    are, a list of postdot items is followed in as many as there are items, and a chain of Leo
    items marks a symbol in each round.  The lexing loop and the valuation loops take their fuel as an argument, since their length is
    libmarpa's and the user's to decide.

    ** What is not modelled

    The evaluation of libmarpa ([marpa.c]: bocage, order, tree, valuator) and the other calls of
    its recognizer (the progress report, [marpa_r_clean], accessors, traces), the freeing of
    grammars, obstacks, threaded trees and the SLIF helper of libmarpa;
    trace macros (the build defines [MARPAWRAPPER_NTRACE]); the Windows branches; the test
    program, the build files and the bindings. *)
From Stdlib Require Export ZArith Lia Sorting.Sorted Sorting.Permutation.
From stdpp Require Export base tactics option list strings gmap numbers.
Export list_relations.list.
#[global] Open Scope Z_scope.

(** ** Machine integers (LP64: 32-bit [int], 64-bit [size_t], 8-byte pointers) *)

Definition SIZE_MOD : Z := 2 ^ 64.
Definition UINT_MOD : Z := 2 ^ 32.
Definition INT_MAX : Z := 2 ^ 31 - 1.
Definition INT_MIN : Z := - 2 ^ 31.
Definition sizeof_ptr : Z := 8.

(** Conversion of a mathematical integer to [size_t] and to [unsigned int]. *)
Definition to_size_t (z : Z) : Z := z mod SIZE_MOD.
Definition to_uint (z : Z) : Z := z mod UINT_MOD.
(** Conversion to [int] (two's complement). *)
Definition to_int (z : Z) : Z := (z + 2 ^ 31) mod 2 ^ 32 - 2 ^ 31.

(** Ranges of the C types, as decidable propositions. *)
Definition is_size_t (z : Z) : Prop := 0 <= z < SIZE_MOD.
Definition is_int (z : Z) : Prop := INT_MIN <= z <= INT_MAX.

(** An object of a C type that may still be indeterminate. *)
Inductive init (A : Type) : Type :=
| Uninit
| Init (a : A).
Arguments Uninit {A}.
Arguments Init {A} a.

(** ** [qsort(3)] with a C comparator (negative, zero, positive).

    The standard library promises, for a comparator that is consistent with a total
    preorder, a sorted permutation.  The executable model is insertion sort: one of the
    results the standard allows, whatever the comparator. *)
Section qsort_def.
Context {A : Type} (cmp : A -> A -> Z).

Fixpoint qsort_insert (x : A) (l : list A) : list A :=
  match l with
  | [] => [x]
  | y :: l' => if Z.leb (cmp x y) 0 then x :: y :: l' else y :: qsort_insert x l'
  end.

Fixpoint qsort (l : list A) : list A :=
  match l with
  | [] => []
  | x :: l' => qsort_insert x (qsort l')
  end.

(** What the C standard asks of a comparator. *)
Record cmp_consistent (P : A -> Prop) : Prop := {
  cmp_total : forall x y, P x -> P y -> cmp x y <= 0 \/ cmp y x <= 0;
  cmp_trans : forall x y z, P x -> P y -> P z -> cmp x y <= 0 -> cmp y z <= 0 -> cmp x z <= 0
}.
End qsort_def.

(** ** Automation shared by the development *)
Create HintDb marpa discriminated.

(** Rewrites boolean comparisons of [Z] into propositions in the whole context. *)
Ltac Zbool :=
  repeat match goal with
  | H : _ && _ = true |- _ => apply andb_prop in H; destruct H
  | H : _ || _ = false |- _ => apply orb_false_elim in H; destruct H
  | H : (_ <? _) = true |- _ => apply Z.ltb_lt in H
  | H : (_ <? _) = false |- _ => apply Z.ltb_ge in H
  | H : (_ <=? _) = true |- _ => apply Z.leb_le in H
  | H : (_ <=? _) = false |- _ => apply Z.leb_gt in H
  | H : (_ =? _) = true |- _ => apply Z.eqb_eq in H
  | H : (_ =? _) = false |- _ => apply Z.eqb_neq in H
  end.

(** ** Lemmas on machine integers *)

Lemma to_size_t_small z : is_size_t z -> to_size_t z = z.
Proof. intros. unfold to_size_t, to_uint, is_size_t in *. by apply Z.mod_small. Qed.

Lemma to_uint_small z : 0 <= z < UINT_MOD -> to_uint z = z.
Proof. intros. unfold to_size_t, to_uint, is_size_t in *. by apply Z.mod_small. Qed.

Lemma to_size_t_range z : is_size_t (to_size_t z).
Proof. apply Z.mod_pos_bound. reflexivity. Qed.

Lemma to_int_max z : to_int z <= INT_MAX.
Proof. unfold to_int, INT_MAX. pose proof (Z.mod_pos_bound (z + 2 ^ 31) (2 ^ 32)). lia. Qed.

Lemma to_int_add a b : to_int (to_int a + b) = to_int (a + b).
Proof.
  unfold to_int. f_equal. replace ((a + 2 ^ 31) mod 2 ^ 32 - 2 ^ 31 + b + 2 ^ 31) with ((a + 2 ^ 31) mod 2 ^ 32 + b) by lia.
  rewrite Zplus_mod_idemp_l. f_equal. lia.
Qed.

Lemma to_int_small z : is_int z -> to_int z = z.
Proof.
  unfold is_int, INT_MIN, INT_MAX, to_int. intros. rewrite Z.mod_small; lia.
Qed.

(** A bit flag tested as [(x & flag) == flag]. *)
Lemma land_pow2_eqb x k : 0 <= k -> (Z.land x (2 ^ k) =? 2 ^ k) = Z.testbit x k.
Proof.
  intros Hk. destruct (Z.testbit x k) eqn:E.
  - apply Z.eqb_eq, Z.bits_inj'. intros n Hn. rewrite Z.land_spec, Z.pow2_bits_eqb by done.
    destruct (Z.eqb_spec k n) as [<-|]; [by rewrite E|by rewrite andb_false_r].
  - apply Z.eqb_neq. intros Heq. apply (f_equal (fun z => Z.testbit z k)) in Heq.
    rewrite Z.land_spec, Z.pow2_bits_eqb, Z.eqb_refl, E in Heq by done. done.
Qed.

#[export] Hint Resolve to_size_t_range : marpa.

(** ** Lemmas on [qsort] *)
Section qsort_props.
Context {A : Type} (cmp : A -> A -> Z).

Lemma qsort_insert_perm x l : qsort_insert cmp x l ≡ₚ x :: l.
Proof.
  induction l as [|y l IH]; simpl; [done|]. case_match; [done|].
  rewrite IH. apply Permutation_swap.
Qed.

Lemma qsort_perm l : qsort cmp l ≡ₚ l.
Proof. induction l as [|x l IH]; simpl; [done|]. by rewrite qsort_insert_perm, IH. Qed.

Lemma qsort_length l : length (qsort cmp l) = length l.
Proof. by rewrite qsort_perm. Qed.

Lemma qsort_Forall (P : A -> Prop) l : Forall P l -> Forall P (qsort cmp l).
Proof. intros. by rewrite (qsort_perm l). Qed.

(** Any comparator under which no pair is out of order leaves the array as it is. *)
Lemma qsort_id l : StronglySorted (fun x y => cmp x y <= 0) l -> qsort cmp l = l.
Proof.
  induction 1 as [|x l Hs IH Hx]; simpl; [done|]. rewrite IH.
  destruct l as [|y l]; simpl; [done|]. apply Forall_cons_1 in Hx as [Hx _].
  apply Z.leb_le in Hx. by rewrite Hx.
Qed.

Lemma qsort_insert_sorted P x l :
  cmp_consistent cmp P -> P x -> Forall P l ->
  StronglySorted (fun x y => cmp x y <= 0) l ->
  StronglySorted (fun x y => cmp x y <= 0) (qsort_insert cmp x l).
Proof.
  intros [Htot Htr] Px. induction l as [|y l IH]; intros Pl Hs; simpl.
  { repeat constructor. }
  apply Forall_cons_1 in Pl as [Py Pl]. inversion Hs as [|?? Hs' Hy]; subst.
  case_match eqn:E; Zbool.
  - constructor; [done|]. constructor; [done|].
    apply Forall_forall. intros z Hz. rewrite Forall_forall in Hy, Pl. eauto.
  - constructor; [by apply IH|].
    rewrite qsort_insert_perm. constructor; [|done].
    destruct (Htot x y); auto; lia.
Qed.

Lemma qsort_sorted P l :
  cmp_consistent cmp P -> Forall P l ->
  StronglySorted (fun x y => cmp x y <= 0) (qsort cmp l).
Proof.
  intros Hc. induction l as [|x l IH]; intros Pl; simpl; [constructor|].
  apply Forall_cons_1 in Pl as [Px Pl]. eapply qsort_insert_sorted; eauto.
  by apply qsort_Forall.
Qed.
End qsort_props.

(** ** Code of libmarpa

    libmarpa aborts when it runs out of memory and has no error value of its own at this
    level: a call ends with a result, with an access out of bounds, a failed assertion or a
    null dereference, or with a loop that outlives the rounds granted to it. *)
Inductive res (A : Type) : Type :=
| Ok (a : A)
| Fault
| NoFuel.
Arguments Ok {A} a.
Arguments Fault {A}.
Arguments NoFuel {A}.

#[export] Instance res_ret : MRet res := fun A a => Ok a.
#[export] Instance res_bind : MBind res := fun A B f m =>
  match m with Ok a => f a | Fault => Fault | NoFuel => NoFuel end.

Lemma bind_Ok {A B} (m : res A) (f : A -> res B) y : m ≫= f = Ok y -> exists x, m = Ok x /\ f x = Ok y.
Proof. destruct m; [|done..]. eauto. Qed.

(** [for (i = i0; i < i0 + n; i++)] *)
Fixpoint for_res {A} (n : nat) (i : Z) (body : Z -> A -> res A) (acc : A) : res A :=
  match n with
  | O => Ok acc
  | S n => acc ← body i acc; for_res n (i + 1) body acc
  end.

(** An invariant indexed by the counter. *)
Lemma for_res_ok {A} (Q : Z -> A -> Prop) n i body (acc : A) :
  Q i acc ->
  (forall j acc, i <= j < i + Z.of_nat n -> Q j acc -> exists acc', body j acc = Ok acc' /\ Q (j + 1) acc') ->
  exists acc', for_res n i body acc = Ok acc' /\ Q (i + Z.of_nat n) acc'.
Proof.
  revert i acc. induction n as [|n IH]; intros i acc HQ Hb.
  { exists acc. split; [done|]. by rewrite Z.add_0_r. }
  destruct (Hb i acc) as (acc'&Hs&HQ'); [lia|done|]. simpl. rewrite Hs. simpl.
  destruct (IH (i + 1) acc' HQ') as (acc2&Hr&HQ2); [intros j a Hj; apply Hb; lia|].
  exists acc2. split; [done|]. by replace (i + Z.of_nat (S n)) with (i + 1 + Z.of_nat n) by lia.
Qed.

(** [body] at each element of the list, in order *)
Fixpoint each_res {A B} (l : list B) (body : B -> A -> res A) (acc : A) : res A :=
  match l with
  | [] => Ok acc
  | x :: l => acc ← body x acc; each_res l body acc
  end.

Lemma each_res_app {A B} (l1 l2 : list B) (body : B -> A -> res A) acc :
  each_res (l1 ++ l2) body acc = (acc ← each_res l1 body acc; each_res l2 body acc).
Proof. revert acc. induction l1 as [|x l1 IH]; intros acc; simpl; [done|]. destruct (body x acc); simpl; auto. Qed.

Lemma each_res_collect {A} (l : list A) acc : each_res l (fun i acc => Ok (acc ++ [i])) acc = Ok (acc ++ l).
Proof. revert acc. induction l as [|x l IH]; intros acc; simpl; [by rewrite app_nil_r|]. rewrite IH. by rewrite <- app_assoc. Qed.

(** An invariant over the part of the list already visited. *)
Lemma each_res_ok {A B} (Q : list B -> A -> Prop) (l : list B) body (acc : A) :
  Q [] acc ->
  (forall l1 x l2 acc, l = l1 ++ x :: l2 -> Q l1 acc -> exists acc', body x acc = Ok acc' /\ Q (l1 ++ [x]) acc') ->
  exists acc', each_res l body acc = Ok acc' /\ Q l acc'.
Proof.
  intros HQ Hb. assert (forall l2 l1 acc, l = l1 ++ l2 -> Q l1 acc -> exists acc', each_res l2 body acc = Ok acc' /\ Q l acc') as H.
  { induction l2 as [|x l2 IH]; intros l1 a Hl Ha; [exists a; split; [done|]; by rewrite Hl, app_nil_r|].
    destruct (Hb l1 x l2 a Hl Ha) as (a'&Hx&Ha'). simpl. rewrite Hx. simpl. apply (IH (l1 ++ [x])); [by rewrite <- app_assoc|done]. }
  by apply (H l []).
Qed.

(** ** How runs end *)

(** The result, when there is one, satisfies [Q]. *)
Definition post {A} (Q : A -> Prop) (r : res A) : Prop := forall a, r = Ok a -> Q a.

Lemma post_bind {A B} (Q : A -> Prop) (P : B -> Prop) (r : res A) (k : A -> res B) :
  post Q r -> (forall a, Q a -> post P (k a)) -> post P (a ← r; k a).
Proof. intros Hr Hk b Hb. apply bind_Ok in Hb as (a&Ha&Hb). by eapply Hk; [apply Hr|]. Qed.

Lemma post_Ok {A} (Q : A -> Prop) a : Q a -> post Q (Ok a).
Proof. by intros ? ? [= <-]. Qed.

Lemma post_any {A} (r : res A) : post (fun _ => True) r.
Proof. done. Qed.

(** Whatever is read. *)
Lemma post_read {A B} (Q : B -> Prop) (r : res A) (k : A -> res B) : (forall a, r = Ok a -> post Q (k a)) -> post Q (a ← r; k a).
Proof. intros Hk b (a&Ha&Hb)%bind_Ok. by eapply Hk. Qed.

Lemma post_for {A} (Q : A -> Prop) n i body (acc : A) : Q acc -> (forall j acc, Q acc -> post Q (body j acc)) -> post Q (for_res n i body acc).
Proof.
  intros HQ Hb. revert i acc HQ. induction n as [|n IH]; intros i acc HQ; [by apply post_Ok|]. simpl. eapply post_bind; [by apply Hb|]. intros a Ha. by apply IH.
Qed.

(** A run ends without an error, in a state that satisfies [Q]. *)
Definition ends_in {A} (m : res A) (Q : A -> Prop) : Prop := exists a, m = Ok a /\ Q a.

Lemma ends_bind {A B} (m : res A) (k : A -> res B) (P : A -> Prop) (Q : B -> Prop) :
  ends_in m P -> (forall a, P a -> ends_in (k a) Q) -> ends_in (m ≫= k) Q.
Proof. intros (a&->&Ha) Hk. apply Hk, Ha. Qed.

Lemma ends_Ok {A} (a : A) (Q : A -> Prop) : Q a -> ends_in (Ok a) Q.
Proof. intros ?. by exists a. Qed.

Lemma ends_mono {A} (m : res A) (P Q : A -> Prop) : ends_in m P -> (forall a, P a -> Q a) -> ends_in m Q.
Proof. intros (a&->&Ha) HPQ. apply ends_Ok, HPQ, Ha. Qed.

Lemma ends_for {A} (Q : Z -> A -> Prop) n body (acc : A) (P : A -> Prop) : Q 0 acc ->
  (forall j acc, 0 <= j < Z.of_nat n -> Q j acc -> ends_in (body j acc) (Q (j + 1))) -> (forall a, Q (Z.of_nat n) a -> P a) -> ends_in (for_res n 0 body acc) P.
Proof. intros H0 Hb HP. destruct (for_res_ok Q n 0 body acc H0) as (a&Hr&Ha); [intros j a Hj; apply Hb; lia|]. exists a. split; [done|]. by apply HP. Qed.

(** The same, the counter being that of a list. *)
Lemma ends_list {A B} (Q : nat -> A -> Prop) (l : list B) n body (acc : A) (P : A -> Prop) : n = length l -> Q 0%nat acc ->
  (forall i x acc, l !! i = Some x -> Q i acc -> ends_in (body (Z.of_nat i) acc) (Q (S i))) -> (forall a, Q (length l) a -> P a) -> ends_in (for_res n 0 body acc) P.
Proof.
  intros -> H0 Hb HP. apply (ends_for (fun j => Q (Z.to_nat j))); [done| |by rewrite Nat2Z.id]. intros j a Hj Ha.
  destruct (lookup_lt_is_Some_2 l (Z.to_nat j)) as [x Hx]; [lia|]. replace (Z.to_nat (j + 1)) with (S (Z.to_nat j)) by lia.
  rewrite <- (Z2Nat.id j) at 1 by lia. by eapply Hb.
Qed.

(** [p[i]] and [p[i] = w], [p] an array of integers. *)
Definition rd {A} (l : list A) (i : Z) : res A :=
  if decide (0 <= i) then match l !! Z.to_nat i with Some w => Ok w | None => Fault end else Fault.
Definition wr {A} (l : list A) (i : Z) (w : A) : res (list A) := _ ← rd l i; Ok (<[Z.to_nat i := w]> l).

Lemma alter_last {A} (f : A -> A) (l : list A) x : alter f (length l) (l ++ [x]) = l ++ [f x].
Proof. rewrite alter_app_r_alt by lia. by rewrite Nat.sub_diag. Qed.

Section arrays.
Context {A : Type}.
Implicit Types (l : list A) (w : A).

Lemma rd_Ok l i w : rd l i = Ok w <-> 0 <= i /\ l !! Z.to_nat i = Some w.
Proof. unfold rd. case_decide; [|naive_solver lia]. destruct (l !! Z.to_nat i); naive_solver. Qed.

Lemma rd_at l i w : l !! i = Some w -> rd l (Z.of_nat i) = Ok w.
Proof. intros Hl. apply rd_Ok. rewrite Nat2Z.id. split; [lia|done]. Qed.

Lemma rd_bound l i w : rd l i = Ok w -> 0 <= i < Z.of_nat (length l).
Proof. rewrite rd_Ok. intros [? ?%lookup_lt_Some]. lia. Qed.

Lemma rd_total l i : 0 <= i < Z.of_nat (length l) -> exists w, rd l i = Ok w.
Proof.
  intros Hi. destruct (lookup_lt_is_Some_2 l (Z.to_nat i)) as [w Hw]; [lia|]. exists w. apply rd_Ok. split; [lia|done].
Qed.

Lemma wr_total l i w : 0 <= i < Z.of_nat (length l) -> wr l i w = Ok (<[Z.to_nat i := w]> l).
Proof. intros Hi. unfold wr. destruct (rd_total l i Hi) as [w' ->]. done. Qed.

Lemma rd_wr_eq l i w : 0 <= i < Z.of_nat (length l) -> rd (<[Z.to_nat i := w]> l) i = Ok w.
Proof. intros Hi. apply rd_Ok. split; [lia|]. apply list_lookup_insert_eq. lia. Qed.

Lemma rd_wr_ne l i j w : i <> j -> 0 <= i -> rd (<[Z.to_nat i := w]> l) j = rd l j.
Proof. intros Hij Hi. unfold rd. case_decide; [|done]. by rewrite list_lookup_insert_ne by lia. Qed.
End arrays.
