(* ===== verification/MarpaH.v ===== *)
(** * The codes of [libmarpa-dist/marpa.h] that the sources name: errors, events, steps,
    flags of sequences. *)
From Stdlib Require Import ZArith.
Local Open Scope Z_scope.

Definition MARPA_ERR_BAD_SEPARATOR : Z := 6.
Definition MARPA_ERR_COUNTED_NULLABLE : Z := 8.
Definition MARPA_ERR_DUPLICATE_RULE : Z := 11.
Definition MARPA_ERR_DUPLICATE_TOKEN : Z := 12.
Definition MARPA_ERR_EVENT_IX_NEGATIVE : Z := 15.
Definition MARPA_ERR_EVENT_IX_OOB : Z := 16.
Definition MARPA_ERR_GRAMMAR_HAS_CYCLE : Z := 17.
Definition MARPA_ERR_HEADERS_DO_NOT_MATCH : Z := 98.
Definition MARPA_ERR_INACCESSIBLE_TOKEN : Z := 18.
Definition MARPA_ERR_INVALID_ASSERTION_ID : Z := 96.
Definition MARPA_ERR_INVALID_BOOLEAN : Z := 22.
Definition MARPA_ERR_INVALID_LOCATION : Z := 25.
Definition MARPA_ERR_INVALID_RULE_ID : Z := 26.
Definition MARPA_ERR_INVALID_START_SYMBOL : Z := 27.
Definition MARPA_ERR_INVALID_SYMBOL_ID : Z := 28.
Definition MARPA_ERR_I_AM_NOT_OK : Z := 29.
Definition MARPA_ERR_NONE : Z := 0.
Definition MARPA_ERR_NOT_PRECOMPUTED : Z := 34.
Definition MARPA_ERR_NO_EARLEY_SET_AT_LOCATION : Z := 39.
Definition MARPA_ERR_NO_RULES : Z := 42.
Definition MARPA_ERR_NO_START_SYMBOL : Z := 43.
Definition MARPA_ERR_NO_SUCH_ASSERTION_ID : Z := 97.
Definition MARPA_ERR_NO_SUCH_RULE_ID : Z := 89.
Definition MARPA_ERR_NO_SUCH_SYMBOL_ID : Z := 90.
Definition MARPA_ERR_NO_TOKEN_EXPECTED_HERE : Z := 44.
Definition MARPA_ERR_NULLING_TERMINAL : Z := 49.
Definition MARPA_ERR_PARSE_EXHAUSTED : Z := 53.
Definition MARPA_ERR_PARSE_TOO_LONG : Z := 54.
Definition MARPA_ERR_PRECOMPUTED : Z := 57.
Definition MARPA_ERR_RANK_TOO_HIGH : Z := 86.
Definition MARPA_ERR_RANK_TOO_LOW : Z := 85.
Definition MARPA_ERR_RECCE_IS_INCONSISTENT : Z := 95.
Definition MARPA_ERR_RECCE_NOT_ACCEPTING_INPUT : Z := 60.
Definition MARPA_ERR_RECCE_NOT_STARTED : Z := 61.
Definition MARPA_ERR_RECCE_STARTED : Z := 62.
Definition MARPA_ERR_RHS_IX_NEGATIVE : Z := 63.
Definition MARPA_ERR_RHS_IX_OOB : Z := 64.
Definition MARPA_ERR_RHS_TOO_LONG : Z := 65.
Definition MARPA_ERR_SEQUENCE_LHS_NOT_UNIQUE : Z := 66.
Definition MARPA_ERR_START_NOT_LHS : Z := 73.
Definition MARPA_ERR_SYMBOL_IS_NOT_COMPLETION_EVENT : Z := 92.
Definition MARPA_ERR_SYMBOL_IS_NOT_NULLED_EVENT : Z := 93.
Definition MARPA_ERR_SYMBOL_IS_NOT_PREDICTION_EVENT : Z := 94.
Definition MARPA_ERR_SYMBOL_IS_NULLING : Z := 87.
Definition MARPA_ERR_SYMBOL_IS_UNUSED : Z := 88.
Definition MARPA_ERR_SYMBOL_VALUED_CONFLICT : Z := 74.
Definition MARPA_ERR_TERMINAL_IS_LOCKED : Z := 75.
Definition MARPA_ERR_TOKEN_IS_NOT_TERMINAL : Z := 76.
Definition MARPA_ERR_TOKEN_LENGTH_LE_ZERO : Z := 77.
Definition MARPA_ERR_TOKEN_TOO_LONG : Z := 78.
Definition MARPA_ERR_UNEXPECTED_TOKEN_ID : Z := 81.
Definition MARPA_ERR_UNPRODUCTIVE_START : Z := 82.
Definition MARPA_ERR_VALUED_IS_LOCKED : Z := 84.
Definition MARPA_ERR_YIM_COUNT : Z := 13.

Definition MARPA_EVENT_NONE : Z := 0.
Definition MARPA_EVENT_COUNTED_NULLABLE : Z := 1.
Definition MARPA_EVENT_EARLEY_ITEM_THRESHOLD : Z := 2.
Definition MARPA_EVENT_EXHAUSTED : Z := 3.
Definition MARPA_EVENT_LOOP_RULES : Z := 4.
Definition MARPA_EVENT_NULLING_TERMINAL : Z := 5.
Definition MARPA_EVENT_SYMBOL_COMPLETED : Z := 6.
Definition MARPA_EVENT_SYMBOL_EXPECTED : Z := 7.
Definition MARPA_EVENT_SYMBOL_NULLED : Z := 8.
Definition MARPA_EVENT_SYMBOL_PREDICTED : Z := 9.

Definition MARPA_STEP_RULE : Z := 1.
Definition MARPA_STEP_TOKEN : Z := 2.
Definition MARPA_STEP_NULLING_SYMBOL : Z := 3.
Definition MARPA_STEP_INACTIVE : Z := 5.
Definition MARPA_STEP_INITIAL : Z := 7.

Definition MARPA_KEEP_SEPARATION : Z := 1.
Definition MARPA_PROPER_SEPARATION : Z := 2.
