(* ===== verification/Avl.v ===== *)
(** * The balanced trees of libmarpa: [libmarpa-dist/marpa_avl.c]

    libmarpa keeps its progress report (what [marpaWrapper_r_progressb] iterates over), its
    table of rules and its lists of ids in these trees.  Nodes live in an obstack: a store
    of their own, from which nothing is released before the tree is destroyed.  A tree is
    the structure [marpa_avl_table] together with that store; the data of a node is an
    opaque pointer, and the comparison function a parameter.

    A [void **] into a node is represented by the address of the node.  The source is
    compiled with its assertions: a failed one is [Fault], as is a null dereference. *)
From S2P Require Import Prelude.

Definition MARPA_AVL_MAX_HEIGHT : nat := 92.

Section avl.
Context {D : Type} `{EqDecision D}.
(** [avl_compare(a, b, avl_param)] *)
Variable avl_compare : D -> D -> Z.

(** [struct marpa_avl_node]; a link is an address or [NULL]. *)
Record avl_node : Type := AvlNode {
  avl_link0 : option positive;
  avl_link1 : option positive;
  avl_data : D;
  avl_balance : Z
}.

Definition avl_link (dir : bool) (n : avl_node) : option positive := if dir then avl_link1 n else avl_link0 n.
Definition set_link (dir : bool) (v : option positive) (n : avl_node) : avl_node :=
  if dir then AvlNode (avl_link0 n) v (avl_data n) (avl_balance n)
  else AvlNode v (avl_link1 n) (avl_data n) (avl_balance n).
Definition set_balance (b : Z) (n : avl_node) : avl_node := AvlNode (avl_link0 n) (avl_link1 n) (avl_data n) b.
Definition set_data (d : D) (n : avl_node) : avl_node := AvlNode (avl_link0 n) (avl_link1 n) d (avl_balance n).

(** [struct marpa_avl_table], with the nodes of its obstack. *)
Record avl_table : Type := AvlTable {
  avl_nodes : gmap positive avl_node;
  avl_root : option positive;
  avl_count : Z;
  avl_generation : Z
}.

Definition avl_create : avl_table := AvlTable ∅ None 0 0.

Definition set_nodes (ns : gmap positive avl_node) (t : avl_table) : avl_table :=
  AvlTable ns (avl_root t) (avl_count t) (avl_generation t).

(** [p->...], [*p = ...] *)
Definition get_node (ns : gmap positive avl_node) (p : option positive) : res avl_node :=
  match p with
  | Some a => match ns !! a with Some n => Ok n | None => Fault end
  | None => Fault
  end.
Definition upd_node (ns : gmap positive avl_node) (p : option positive) (f : avl_node -> avl_node) : res (gmap positive avl_node) :=
  n ← get_node ns p;
  match p with Some a => Ok (<[a := f n]> ns) | None => Fault end.

(** ** Searching *)
Fixpoint find_loop (fuel : nat) (ns : gmap positive avl_node) (p : option positive) (item : D) : res (option D) :=
  match p with
  | None => Ok None
  | Some _ =>
    match fuel with
    | O => NoFuel
    | S fuel =>
      n ← get_node ns p;
      let cmp := avl_compare item (avl_data n) in
      if cmp <? 0 then find_loop fuel ns (avl_link0 n) item
      else if cmp >? 0 then find_loop fuel ns (avl_link1 n) item
      else Ok (Some (avl_data n))
    end
  end.

Definition avl_find (fuel : nat) (t : avl_table) (item : D) : res (option D) :=
  find_loop fuel (avl_nodes t) (avl_root t) item.

(** [at_or_after] is the last node left on the way down. *)
Fixpoint at_or_after_loop (fuel : nat) (ns : gmap positive avl_node) (p at_or_after : option positive) (item : D) : res (option D) :=
  match p with
  | None =>
    match at_or_after with
    | None => Ok None
    | Some _ => n ← get_node ns at_or_after; Ok (Some (avl_data n))
    end
  | Some _ =>
    match fuel with
    | O => NoFuel
    | S fuel =>
      n ← get_node ns p;
      let cmp := avl_compare item (avl_data n) in
      if cmp <? 0 then at_or_after_loop fuel ns (avl_link0 n) p item
      else if cmp >? 0 then at_or_after_loop fuel ns (avl_link1 n) at_or_after item
      else Ok (Some (avl_data n))
    end
  end.

Definition avl_at_or_after (fuel : nat) (t : avl_table) (item : D) : res (option D) :=
  at_or_after_loop fuel (avl_nodes t) (avl_root t) None item.

(** ** Insertion *)

(** What [q] and [z] point to: [&tree->avl_root], taken for a node whose first link is the
    root, or a node. *)
Inductive holder : Type :=
| HRoot
| HNode (a : positive).

Definition write_link (t : avl_table) (h : holder) (dir : bool) (v : option positive) : res avl_table :=
  match h with
  | HRoot => if dir then Fault else Ok (AvlTable (avl_nodes t) v (avl_count t) (avl_generation t))
  | HNode a => ns ← upd_node (avl_nodes t) (Some a) (set_link dir v); Ok (set_nodes ns t)
  end.

Definition read_link (t : avl_table) (h : holder) (dir : bool) : res (option positive) :=
  match h with
  | HRoot => if dir then Fault else Ok (avl_root t)
  | HNode a => n ← get_node (avl_nodes t) (Some a); Ok (avl_link dir n)
  end.

(** The automatic variables of the descent; [da] is the first [k] cells of the array. *)
Record probe_vars : Type := ProbeVars {
  pv_z : holder;
  pv_y : option positive;
  pv_q : holder;
  pv_dir : bool;
  pv_da : list bool
}.

(** The descent: the node found, or the variables when it ran off the tree. *)
Fixpoint probe_loop (fuel : nat) (ns : gmap positive avl_node) (item : D) (v : probe_vars) (p : option positive)
    : res (positive + probe_vars) :=
  match p with
  | None => Ok (inr v)
  | Some a =>
    match fuel with
    | O => NoFuel
    | S fuel =>
      n ← get_node ns p;
      let cmp := avl_compare item (avl_data n) in
      if cmp =? 0 then Ok (inl a)
      else
        let '(z, y, da) := if negb (avl_balance n =? 0) then (pv_q v, p, []) else (pv_z v, pv_y v, pv_da v) in
        let dir := cmp >? 0 in
        if decide (length da < MARPA_AVL_MAX_HEIGHT)%nat then
          probe_loop fuel ns item (ProbeVars z y (HNode a) dir (da ++ [dir])) (avl_link dir n)
        else Fault
    end
  end.

(** [for (p = y, k = 0; p != n; p = p->avl_link[da[k]], k++)] *)
Fixpoint update_loop (da : list bool) (ns : gmap positive avl_node) (p : option positive) (n : positive) : res (gmap positive avl_node) :=
  if decide (p = Some n) then Ok ns
  else
    match da with
    | [] => Fault
    | d :: da =>
      ns ← upd_node ns p (fun x => set_balance (if d then avl_balance x + 1 else avl_balance x - 1) x);
      x ← get_node ns p;
      update_loop da ns (avl_link d x) n
    end.

(** The rotations: [dir] is the side of [y] that is too high.  The result is the store
    and the new root [w] of the subtree. *)
Definition rebalance (ns : gmap positive avl_node) (y : option positive) (dir : bool) : res (gmap positive avl_node * option positive) :=
  let sign := if dir then 1 else -1 in
  yn ← get_node ns y;
  let x := avl_link dir yn in
  xn ← get_node ns x;
  if avl_balance xn =? sign then
    (* single rotation *)
    ns ← upd_node ns y (set_link dir (avl_link (negb dir) xn));
    ns ← upd_node ns x (set_link (negb dir) y);
    ns ← upd_node ns x (set_balance 0);
    ns ← upd_node ns y (set_balance 0);
    Ok (ns, x)
  else if avl_balance xn =? - sign then
    (* double rotation *)
    let w := avl_link (negb dir) xn in
    wn ← get_node ns w;
    ns ← upd_node ns x (set_link (negb dir) (avl_link dir wn));
    ns ← upd_node ns w (set_link dir x);
    ns ← upd_node ns y (set_link dir (avl_link (negb dir) wn));
    ns ← upd_node ns w (set_link (negb dir) y);
    let '(xb, yb) := if avl_balance wn =? sign then (0, - sign) else if avl_balance wn =? 0 then (0, 0) else (sign, 0) in
    ns ← upd_node ns x (set_balance xb);
    ns ← upd_node ns y (set_balance yb);
    ns ← upd_node ns w (set_balance 0);
    Ok (ns, w)
  else Fault.

(** The end of the insertion, when there was a node to update: the subtree of [y] rebalanced
    if need be, and its new root stored in [z]. *)
Definition settle (t : avl_table) (z : holder) (y : option positive) : res avl_table :=
  yn ← get_node (avl_nodes t) y;
  if (avl_balance yn =? -2) || (avl_balance yn =? 2) then
    r ← rebalance (avl_nodes t) y (avl_balance yn =? 2);
    let t := set_nodes r.1 t in
    l ← read_link t z false;
    t ← write_link t z (negb (bool_decide (y = l))) r.2;
    Ok (AvlTable (avl_nodes t) (avl_root t) (avl_count t) (to_size_t (avl_generation t + 1)))
  else Ok t.

(** The node of the item, new or not. *)
Definition avl_probe (fuel : nat) (t : avl_table) (item : D) : res (positive * avl_table) :=
  r ← probe_loop fuel (avl_nodes t) item (ProbeVars HRoot (avl_root t) HRoot false []) (avl_root t);
  match r with
  | inl a => Ok (a, t)
  | inr v =>
    let n := fresh (dom (avl_nodes t)) in
    t ← write_link (set_nodes (<[n := AvlNode None None item 0]> (avl_nodes t)) t) (pv_q v) (pv_dir v) (Some n);
    let t := AvlTable (avl_nodes t) (avl_root t) (to_size_t (avl_count t + 1)) (avl_generation t) in
    match pv_y v with
    | None => Ok (n, t)
    | Some _ =>
      ns ← update_loop (pv_da v) (avl_nodes t) (pv_y v) n;
      t ← settle (set_nodes ns t) (pv_z v) (pv_y v);
      Ok (n, t)
    end
  end.

(** The duplicate item, if any. *)
Definition avl_insert (fuel : nat) (t : avl_table) (item : D) : res (option D * avl_table) :=
  r ← avl_probe fuel t item;
  n ← get_node (avl_nodes r.2) (Some r.1);
  Ok (if decide (avl_data n = item) then None else Some (avl_data n), r.2).

Definition avl_replace (fuel : nat) (t : avl_table) (item : D) : res (option D * avl_table) :=
  r ← avl_probe fuel t item;
  n ← get_node (avl_nodes r.2) (Some r.1);
  if decide (avl_data n = item) then Ok (None, r.2)
  else
    ns ← upd_node (avl_nodes r.2) (Some r.1) (set_data item);
    Ok (Some (avl_data n), set_nodes ns r.2).

(** ** Traversers

    [struct marpa_avl_traverser]: [at_stack] holds the first [avl_height] cells of
    [avl_stack], the last one first. *)
Record avl_traverser : Type := AvlTraverser {
  at_node : option positive;
  at_stack : list positive;
  at_generation : Z
}.

Definition push_stack (s : list positive) (a : positive) : res (list positive) :=
  if decide (length s < MARPA_AVL_MAX_HEIGHT)%nat then Ok (a :: s) else Fault.

Definition trav_reset (t : avl_table) : avl_traverser := AvlTraverser None [] (avl_generation t).
Definition avl_t_init (t : avl_table) : avl_traverser := trav_reset t.
Definition avl_t_reset (t : avl_table) (trav : avl_traverser) : avl_traverser := trav_reset t.

Fixpoint refresh_loop (fuel : nat) (ns : gmap positive avl_node) (i : option positive) (node : positive) (d : D) (s : list positive) : res (list positive) :=
  if decide (i = Some node) then Ok s
  else
    match fuel with
    | O => NoFuel
    | S fuel =>
      match i with
      | None => Fault
      | Some a =>
        s ← push_stack s a;
        n ← get_node ns i;
        refresh_loop fuel ns (avl_link (avl_compare d (avl_data n) >? 0) n) node d s
      end
    end.

Definition trav_refresh (fuel : nat) (t : avl_table) (trav : avl_traverser) : res avl_traverser :=
  match at_node trav with
  | None => Ok (AvlTraverser None (at_stack trav) (avl_generation t))
  | Some node =>
    n ← get_node (avl_nodes t) (Some node);
    s ← refresh_loop fuel (avl_nodes t) (avl_root t) node (avl_data n) [];
    Ok (AvlTraverser (Some node) s (avl_generation t))
  end.

(** [while (x->avl_link[dir] != NULL)], pushing what is left behind. *)
Fixpoint slide (fuel : nat) (ns : gmap positive avl_node) (dir : bool) (x : positive) (s : list positive) : res (positive * list positive) :=
  n ← get_node ns (Some x);
  match avl_link dir n with
  | None => Ok (x, s)
  | Some x' =>
    match fuel with
    | O => NoFuel
    | S fuel => s ← push_stack s x; slide fuel ns dir x' s
    end
  end.

(** The item selected. *)
Definition current (ns : gmap positive avl_node) (trav : avl_traverser) : res (option D * avl_traverser) :=
  match at_node trav with
  | None => Ok (None, trav)
  | Some a => n ← get_node ns (Some a); Ok (Some (avl_data n), trav)
  end.

(** [_marpa_avl_t_first] and [_marpa_avl_t_last]: the stack is not emptied first. *)
Definition t_end (fuel : nat) (t : avl_table) (dir : bool) (trav : avl_traverser) : res (option D * avl_traverser) :=
  match avl_root t with
  | None => Ok (None, AvlTraverser None (at_stack trav) (at_generation trav))
  | Some x =>
    r ← slide fuel (avl_nodes t) dir x (at_stack trav);
    current (avl_nodes t) (AvlTraverser (Some r.1) r.2 (at_generation trav))
  end.
Definition avl_t_first (fuel : nat) (t : avl_table) := t_end fuel t false.
Definition avl_t_last (fuel : nat) (t : avl_table) := t_end fuel t true.

Fixpoint t_find_loop (fuel : nat) (ns : gmap positive avl_node) (p : option positive) (item : D) (trav : avl_traverser) : res (option D * avl_traverser) :=
  match p with
  | None => Ok (None, AvlTraverser None [] (at_generation trav))
  | Some a =>
    match fuel with
    | O => NoFuel
    | S fuel =>
      n ← get_node ns p;
      let cmp := avl_compare item (avl_data n) in
      if cmp =? 0 then Ok (Some (avl_data n), AvlTraverser p (at_stack trav) (at_generation trav))
      else
        s ← push_stack (at_stack trav) a;
        t_find_loop fuel ns (avl_link (cmp >? 0) n) item (AvlTraverser (at_node trav) s (at_generation trav))
    end
  end.

Definition avl_t_find (fuel : nat) (t : avl_table) (item : D) (trav : avl_traverser) : res (option D * avl_traverser) :=
  t_find_loop fuel (avl_nodes t) (avl_root t) item trav.

Definition avl_t_at_or_after (fuel : nat) (t : avl_table) (sought_item : D) (trav : avl_traverser) : res (option D * avl_traverser) :=
  found_item ← avl_at_or_after fuel t sought_item;
  match found_item with
  | None => Ok (None, trav)
  | Some found_item => avl_t_find fuel t found_item trav
  end.

(** [probe] never returns [NULL]; [trav->avl_generation] is set to force a refresh. *)
Definition avl_t_insert (fuel : nat) (t : avl_table) (item : D) (trav : avl_traverser) : res (D * avl_table * avl_traverser) :=
  r ← avl_probe fuel t item;
  n ← get_node (avl_nodes r.2) (Some r.1);
  Ok (avl_data n, r.2, AvlTraverser (Some r.1) (at_stack trav) (to_size_t (avl_generation r.2 - 1))).

(** For two different traversers of the same tree. *)
Definition avl_t_copy (t : avl_table) (trav src : avl_traverser) : res (option D * avl_traverser) :=
  current (avl_nodes t)
    (AvlTraverser (at_node src) (if at_generation src =? avl_generation t then at_stack src else at_stack trav) (at_generation src)).

(** [do ... while (y == x->avl_link[dir])]: back up from [x]. *)
Fixpoint climb (ns : gmap positive avl_node) (dir : bool) (x : positive) (s : list positive) : res (option positive * list positive) :=
  match s with
  | [] => Ok (None, [])
  | x' :: s =>
    n ← get_node ns (Some x');
    if decide (Some x = avl_link dir n) then climb ns dir x' s else Ok (Some x', s)
  end.

(** [_marpa_avl_t_next] ([dir] true) and [_marpa_avl_t_prev] ([dir] false). *)
Definition t_step (fuel : nat) (t : avl_table) (dir : bool) (trav : avl_traverser) : res (option D * avl_traverser) :=
  trav ← (if negb (at_generation trav =? avl_generation t) then trav_refresh fuel t trav else Ok trav);
  match at_node trav with
  | None => t_end fuel t (negb dir) trav
  | Some x =>
    n ← get_node (avl_nodes t) (Some x);
    match avl_link dir n with
    | Some x' =>
      s ← push_stack (at_stack trav) x;
      r ← slide fuel (avl_nodes t) (negb dir) x' s;
      current (avl_nodes t) (AvlTraverser (Some r.1) r.2 (at_generation trav))
    | None =>
      r ← climb (avl_nodes t) dir x (at_stack trav);
      current (avl_nodes t) (AvlTraverser r.1 r.2 (at_generation trav))
    end
  end.
Definition avl_t_next (fuel : nat) (t : avl_table) := t_step fuel t true.
Definition avl_t_prev (fuel : nat) (t : avl_table) := t_step fuel t false.

Definition avl_t_cur (t : avl_table) (trav : avl_traverser) : res (option D) :=
  r ← current (avl_nodes t) trav; Ok r.1.

Definition avl_t_replace (t : avl_table) (trav : avl_traverser) (new : D) : res (D * avl_table) :=
  n ← get_node (avl_nodes t) (at_node trav);
  ns ← upd_node (avl_nodes t) (at_node trav) (set_data new);
  Ok (avl_data n, set_nodes ns t).

(** Everything is on the obstack. *)
Definition avl_destroy (t : option avl_table) : option avl_table := None.
End avl.
