(* ===== verification/AvlTree.v ===== *)
(** * The trees a store of nodes represents

    A pointer-free view of [marpa_avl.c]: trees whose nodes carry their address, contexts
    (the path from the root to a hole, innermost frame first), balance, and what the
    insertion of a leaf and the two rotations do to heights and to the order of items. *)
From S2P Require Import Prelude Avl.

Section trees.
Context {D : Type}.

Inductive tree : Type :=
| Leaf
| Node (a : positive) (l : tree) (d : D) (b : Z) (r : tree).

Definition root_of (t : tree) : option positive := match t with Leaf => None | Node a _ _ _ _ => Some a end.

Fixpoint inorder (t : tree) : list D :=
  match t with Leaf => [] | Node _ l d _ r => inorder l ++ d :: inorder r end.

Fixpoint addrs (t : tree) : list positive :=
  match t with Leaf => [] | Node a l _ _ r => a :: addrs l ++ addrs r end.

Fixpoint height (t : tree) : Z :=
  match t with Leaf => 0 | Node _ l _ _ r => 1 + Z.max (height l) (height r) end.

(** The balance factors are right, and none exceeds one. *)
Fixpoint balanced (t : tree) : Prop :=
  match t with
  | Leaf => True
  | Node _ l _ b r => b = height r - height l /\ -1 <= b <= 1 /\ balanced l /\ balanced r
  end.

(** The store [ns] contains the nodes of [t]. *)
Fixpoint tree_at (ns : gmap positive (avl_node (D := D))) (t : tree) : Prop :=
  match t with
  | Leaf => True
  | Node a l d b r => ns !! a = Some (AvlNode (root_of l) (root_of r) d b) /\ tree_at ns l /\ tree_at ns r
  end.

(** ** Contexts *)

(** A node on the path, with the subtree on the other side; [f_right]: the path goes
    right. *)
Record frame : Type := Frame {
  f_addr : positive;
  f_right : bool;
  f_data : D;
  f_bal : Z;
  f_other : tree
}.

Definition plug (f : frame) (t : tree) : tree :=
  if f_right f then Node (f_addr f) (f_other f) (f_data f) (f_bal f) t
  else Node (f_addr f) t (f_data f) (f_bal f) (f_other f).

Definition fill (c : list frame) (t : tree) : tree := foldl (fun t f => plug f t) t c.

Definition frame_addrs (f : frame) : list positive := f_addr f :: addrs (f_other f).
Definition ctx_addrs (c : list frame) : list positive := c ≫= frame_addrs.

(** The nodes of a frame, when its hole is linked to [p]. *)
Definition frame_at (ns : gmap positive (avl_node (D := D))) (f : frame) (p : option positive) : Prop :=
  ns !! f_addr f = Some (if f_right f then AvlNode (root_of (f_other f)) p (f_data f) (f_bal f)
                         else AvlNode p (root_of (f_other f)) (f_data f) (f_bal f))
  /\ tree_at ns (f_other f).

Fixpoint ctx_at (ns : gmap positive (avl_node (D := D))) (c : list frame) (p : option positive) : Prop :=
  match c with
  | [] => True
  | f :: c => frame_at ns f p /\ ctx_at ns c (Some (f_addr f))
  end.

(** The items before and after the hole. *)
Fixpoint before (c : list frame) : list D :=
  match c with
  | [] => []
  | f :: c => before c ++ (if f_right f then inorder (f_other f) ++ [f_data f] else [])
  end.
Fixpoint after (c : list frame) : list D :=
  match c with
  | [] => []
  | f :: c => (if f_right f then [] else f_data f :: inorder (f_other f)) ++ after c
  end.

Lemma height_nonneg t : 0 <= height t.
Proof. induction t; simpl; lia. Qed.

Lemma height_zero t : height t = 0 -> t = Leaf.
Proof. destruct t as [|a l d b r]; [done|]. simpl. pose proof (height_nonneg l). pose proof (height_nonneg r). lia. Qed.

Lemma root_plug f t : root_of (plug f t) = Some (f_addr f).
Proof. unfold plug. by destruct (f_right f). Qed.

Lemma fill_app c1 c2 t : fill (c1 ++ c2) t = fill c2 (fill c1 t).
Proof. unfold fill. apply foldl_app. Qed.

Lemma ctx_addrs_app c1 c2 : ctx_addrs (c1 ++ c2) = ctx_addrs c1 ++ ctx_addrs c2.
Proof. unfold ctx_addrs. apply bind_app. Qed.

Lemma inorder_fill c t : inorder (fill c t) = before c ++ inorder t ++ after c.
Proof.
  revert t. induction c as [|f c IH]; intros t; [by rewrite app_nil_r|].
  change (fill (f :: c) t) with (fill c (plug f t)). rewrite IH. unfold plug. simpl.
  destruct (f_right f); simpl; rewrite <- ?(assoc_L (++)); simpl; by rewrite <- ?(assoc_L (++)).
Qed.

Lemma addrs_fill c t : addrs (fill c t) ≡ₚ addrs t ++ ctx_addrs c.
Proof.
  revert t. induction c as [|f c IH]; intros t; [by rewrite app_nil_r|].
  change (fill (f :: c) t) with (fill c (plug f t)). rewrite IH. unfold plug.
  change (ctx_addrs (f :: c)) with (frame_addrs f ++ ctx_addrs c). unfold frame_addrs.
  destruct (f_right f); simpl; solve_Permutation.
Qed.

Lemma tree_at_plug ns f t : tree_at ns (plug f t) <-> frame_at ns f (root_of t) /\ tree_at ns t.
Proof. unfold plug, frame_at. destruct (f_right f); simpl; tauto. Qed.

Lemma tree_at_fill ns c t : tree_at ns (fill c t) <-> ctx_at ns c (root_of t) /\ tree_at ns t.
Proof.
  revert t. induction c as [|f c IH]; intros t; simpl; [tauto|].
  change (fill (f :: c) t) with (fill c (plug f t)). rewrite IH, tree_at_plug, root_plug. tauto.
Qed.

Lemma ctx_at_app ns c1 c2 t :
  ctx_at ns (c1 ++ c2) (root_of t) <-> ctx_at ns c1 (root_of t) /\ ctx_at ns c2 (root_of (fill c1 t)).
Proof.
  revert t. induction c1 as [|f c1 IH]; intros t; simpl; [tauto|].
  rewrite <- (root_plug f t), IH. change (fill (f :: c1) t) with (fill c1 (plug f t)). tauto.
Qed.

(** ** Framing *)
Lemma tree_at_frame ns ns' t : tree_at ns t -> (forall a, a ∈ addrs t -> ns' !! a = ns !! a) -> tree_at ns' t.
Proof.
  induction t as [|a l IHl d b r IHr]; simpl; [done|]. intros (Ha&Hl&Hr) Hf. split_and!.
  - rewrite Hf; [done|constructor].
  - apply IHl; [done|]. intros k Hk. apply Hf. right. apply elem_of_app. by left.
  - apply IHr; [done|]. intros k Hk. apply Hf. right. apply elem_of_app. by right.
Qed.

Lemma frame_at_frame ns ns' f p : frame_at ns f p -> (forall a, a ∈ frame_addrs f -> ns' !! a = ns !! a) -> frame_at ns' f p.
Proof.
  intros [Ha Ht] Hf. split; [rewrite Hf; [done|constructor]|]. eapply tree_at_frame; [done|].
  intros k Hk. apply Hf. by right.
Qed.

Lemma ctx_at_frame ns ns' c p : ctx_at ns c p -> (forall a, a ∈ ctx_addrs c -> ns' !! a = ns !! a) -> ctx_at ns' c p.
Proof.
  revert p. induction c as [|f c IH]; intros p; simpl; [done|]. intros [Hf Hc] Hfr. split.
  - eapply frame_at_frame; [done|]. intros k Hk. apply Hfr. change (k ∈ frame_addrs f ++ ctx_addrs c). apply elem_of_app. by left.
  - apply IH; [done|]. intros k Hk. apply Hfr. change (k ∈ frame_addrs f ++ ctx_addrs c). apply elem_of_app. by right.
Qed.

(** ** Heights *)
Lemma balanced_plug f t :
  balanced (plug f t) <-> balanced t /\ balanced (f_other f) /\ -1 <= f_bal f <= 1
    /\ f_bal f = (if f_right f then height t - height (f_other f) else height (f_other f) - height t).
Proof. unfold plug. destruct (f_right f); simpl; tauto. Qed.

Lemma height_plug f t : height (plug f t) = 1 + Z.max (height t) (height (f_other f)).
Proof. unfold plug. destruct (f_right f); simpl; lia. Qed.

(** A subtree replaced by a balanced one of the same height. *)
Lemma balanced_replace c t t' :
  balanced (fill c t) -> balanced t' -> height t' = height t -> balanced (fill c t').
Proof.
  revert t t'. induction c as [|f c IH]; intros t t' Hb Ht' Hh; [done|].
  assert (balanced (plug f t)) as Hp.
  { clear -Hb. change (fill (f :: c) t) with (fill c (plug f t)) in Hb. revert Hb. generalize (plug f t).
    induction c as [|g c IH]; intros u Hu; [done|]. apply IH in Hu. by apply balanced_plug in Hu as (?&_). }
  apply (IH (plug f t) (plug f t')); [done| |by rewrite !height_plug, Hh].
  apply balanced_plug in Hp as (_&Ho&Hr&Hbal). apply balanced_plug. split_and!; [done|done|lia|lia|].
  destruct (f_right f); lia.
Qed.

Lemma balanced_hole c t : balanced (fill c t) -> balanced t.
Proof.
  revert t. induction c as [|f c IH]; intros t Hb; [done|]. apply IH in Hb. by apply balanced_plug in Hb as (?&_).
Qed.

(** ** A leaf inserted *)

(** The side a balance factor leans to. *)
Definition sign (right : bool) : Z := if right then 1 else -1.

(** A frame whose hole has grown by one. *)
Definition bump (f : frame) : frame :=
  Frame (f_addr f) (f_right f) (f_data f) (f_bal f + sign (f_right f)) (f_other f).

Lemma bump_addrs c : ctx_addrs (bump <$> c) = ctx_addrs c.
Proof. induction c as [|f c IH]; [done|]. change (frame_addrs f ++ ctx_addrs (bump <$> c) = frame_addrs f ++ ctx_addrs c). by rewrite IH. Qed.

Lemma bump_before c : before (bump <$> c) = before c.
Proof. induction c as [|f c IH]; [done|]. rewrite fmap_cons. simpl. by rewrite IH. Qed.

Lemma bump_after c : after (bump <$> c) = after c.
Proof. induction c as [|f c IH]; [done|]. rewrite fmap_cons. simpl. by rewrite IH. Qed.

(** A path of even nodes: the growth of the hole goes all the way up. *)
Lemma bump_path c t t' :
  Forall (fun f => f_bal f = 0) c -> balanced (fill c t) -> balanced t' -> height t' = height t + 1 ->
  balanced (fill (bump <$> c) t') /\ height (fill (bump <$> c) t') = height (fill c t) + 1.
Proof.
  intros Hc. revert t t'. induction Hc as [|f c Hf Hc IH]; intros t t' Hb Hb' Hh; [done|].
  change (fill (bump <$> f :: c) t') with (fill (bump <$> c) (plug (bump f) t')).
  change (fill (f :: c) t) with (fill c (plug f t)) in *.
  pose proof (balanced_hole _ _ Hb) as Hp. apply balanced_plug in Hp as (_&Ho&_&Hbal). apply IH; [done| |].
  - apply balanced_plug. simpl. unfold sign. split_and!; [done|done|destruct (f_right f); lia..].
  - rewrite !height_plug. simpl. destruct (f_right f); lia.
Qed.

(** A tree whose root is not even. *)
Definition leaning (t : tree) : Prop := match t with Leaf => False | Node _ _ _ b _ => b = 1 \/ b = -1 end.

Lemma bump_root c t : Forall (fun f => f_bal f = 0) c -> c <> [] -> leaning (fill (bump <$> c) t).
Proof.
  intros Hc Hne. destruct c as [|g c _] using rev_ind; [done|].
  apply Forall_app in Hc as [_ Hg]. apply Forall_cons_1 in Hg as [Hg _].
  rewrite fmap_app, fill_app. change (leaning (plug (bump g) (fill (bump <$> c) t))).
  unfold plug, bump. simpl. rewrite Hg. unfold sign. destruct (f_right g); simpl; auto.
Qed.

(** ** Rotations *)

(** A node by its near subtree (on side [dir]) and its far one. *)
Definition mk (dir : bool) (a : positive) (near : tree) (d : D) (b : Z) (far : tree) : tree :=
  if dir then Node a far d b near else Node a near d b far.

(** What the rotations make of the node [f], too high on the side of its subtree [t]. *)
Definition rotated (f : frame) (t : tree) : tree :=
  let dir := f_right f in
  match t with
  | Leaf => Leaf
  | Node x l xd xb r =>
    let '(near, far) := if dir then (r, l) else (l, r) in
    if xb =? sign dir then mk dir x near xd 0 (mk dir (f_addr f) far (f_data f) 0 (f_other f))
    else
      match far with
      | Leaf => Leaf
      | Node w wl wd wb wr =>
        let '(wnear, wfar) := if dir then (wr, wl) else (wl, wr) in
        let '(xb', yb') := if wb =? sign dir then (0, - sign dir) else if wb =? 0 then (0, 0) else (sign dir, 0) in
        mk dir w (mk dir x near xd xb' wnear) wd 0 (mk dir (f_addr f) wfar (f_data f) yb' (f_other f))
      end
  end.

Lemma rotated_ok f t :
  f_bal f = sign (f_right f) -> balanced (f_other f) -> balanced t -> height t = height (f_other f) + 2 -> leaning t ->
  balanced (rotated f t) /\ height (rotated f t) = height t
  /\ inorder (rotated f t) = inorder (plug f t) /\ addrs (rotated f t) ≡ₚ addrs (plug f t).
Proof.
  destruct f as [y dir yd yb yo], t as [|x l xd xb r]; [done|]. simpl. intros Hyb Ho Ht Hh Hg.
  destruct Ht as (Hxb&_&Hl&Hr).
  pose proof (height_nonneg yo). pose proof (height_nonneg l). pose proof (height_nonneg r).
  unfold rotated, plug, sign, mk in *. simpl. destruct dir; simpl in *; destruct Hg as [-> | ->]; simpl.
  - split_and!; try done; try lia; [by rewrite <- (assoc_L (++))|solve_Permutation].
  - destruct l as [|w wl wd wb wr]; simpl in *; [lia|]. destruct Hl as (Hwb&?&?&?).
    pose proof (height_nonneg wl). pose proof (height_nonneg wr).
    destruct (Z.eqb_spec wb 1); [|destruct (Z.eqb_spec wb 0)]; simpl;
      (split_and!; try done; try lia; [by repeat (rewrite <- (assoc_L (++)); simpl)|solve_Permutation]).
  - destruct r as [|w wl wd wb wr]; simpl in *; [lia|]. destruct Hr as (Hwb&?&?&?).
    pose proof (height_nonneg wl). pose proof (height_nonneg wr).
    destruct (Z.eqb_spec wb (-1)); [|destruct (Z.eqb_spec wb 0)]; simpl;
      (split_and!; try done; try lia; [by repeat (rewrite <- (assoc_L (++)); simpl)|solve_Permutation]).
  - split_and!; try done; try lia; [by rewrite <- (assoc_L (++))|solve_Permutation].
Qed.
End trees.
