(* ===== verification/AvlProbe.v ===== *)
(** * Insertion in the trees of [marpa_avl.c]

    What each piece of [_marpa_avl_probe] does to the tree a store represents: the write of
    a link, the update of the balance factors along the path, the rotations, the descent. *)
From S2P Require Import Prelude Avl AvlTree.

Section heap.
Context {D : Type}.
Implicit Types (ns : gmap positive (avl_node (D := D))) (t : tree (D := D)) (c : list (frame (D := D))).

Lemma get_node_Some ns a n : ns !! a = Some n -> get_node ns (Some a) = Ok n.
Proof. simpl. by intros ->. Qed.

Lemma upd_node_Some ns a n f : ns !! a = Some n -> upd_node ns (Some a) f = Ok (<[a := f n]> ns).
Proof. unfold upd_node. simpl. by intros ->. Qed.

Lemma tree_at_dom ns t a : tree_at ns t -> a ∈ addrs t -> is_Some (ns !! a).
Proof.
  induction t as [|k l IHl d b r IHr]; simpl; [by intros _ ?%not_elem_of_nil|].
  intros (Hk&Hl&Hr) [->|[?|?]%elem_of_app]%elem_of_cons; eauto.
Qed.

Lemma root_in t a : root_of t = Some a -> a ∈ addrs t.
Proof. destruct t; simpl; [done|]. intros [= ->]. constructor. Qed.

Lemma tree_at_root ns t a : tree_at ns t -> root_of t = Some a -> is_Some (ns !! a).
Proof. intros Ht Ha. eapply tree_at_dom; [done|]. by apply root_in. Qed.

(** ** The holder of the hole of a context *)
Definition holder_of c : holder := match c with [] => HRoot | f :: _ => HNode (f_addr f) end.
Definition dir_of c : bool := match c with [] => false | f :: _ => f_right f end.

Lemma frame_at_set_link ns f p v :
  frame_at ns f p -> f_addr f ∉ addrs (f_other f) ->
  exists n, ns !! f_addr f = Some n /\ frame_at (<[f_addr f := set_link (f_right f) v n]> ns) f v.
Proof.
  intros [Hn Ht] Hni. eexists. split; [exact Hn|]. split.
  - rewrite lookup_insert_eq. by destruct (f_right f).
  - eapply tree_at_frame; [done|]. intros k Hk. rewrite lookup_insert_ne; [done|]. by intros <-.
Qed.

Lemma write_link_ok (tab : avl_table) c p v :
  ctx_at (avl_nodes tab) c p -> NoDup (ctx_addrs c) ->
  exists ns, write_link tab (holder_of c) (dir_of c) v
             = Ok (AvlTable ns (match c with [] => v | _ => avl_root tab end) (avl_count tab) (avl_generation tab))
    /\ ctx_at ns c v /\ (forall a, a ∉ ctx_addrs c -> ns !! a = avl_nodes tab !! a).
Proof.
  destruct c as [|f c]; simpl; [intros _ _; by eexists|]. intros [Hf Hc] Hnd.
  change (NoDup ((f_addr f :: addrs (f_other f)) ++ ctx_addrs c)) in Hnd.
  apply NoDup_app in Hnd as (Hnd&Hdisj&_). apply NoDup_cons in Hnd as [Hni _].
  destruct (frame_at_set_link _ _ _ v Hf Hni) as (n&Hn&Hf'). rewrite (upd_node_Some _ _ _ _ Hn). simpl. eexists. split; [done|].
  split; [split; [done|]|].
  - eapply ctx_at_frame; [done|]. intros k Hk. rewrite lookup_insert_ne; [done|]. intros <-.
    apply (Hdisj (f_addr f)); [constructor|done].
  - intros k Hk. rewrite lookup_insert_ne; [done|]. intros <-. apply Hk. by left.
Qed.

(** The side of the hole, as the code finds it back. *)
Lemma read_link_ok (tab : avl_table) c t :
  ctx_at (avl_nodes tab) c (root_of t) -> (c = [] -> avl_root tab = root_of t) -> NoDup (addrs t ++ ctx_addrs c) -> t <> Leaf ->
  exists l, read_link tab (holder_of c) false = Ok l /\ negb (bool_decide (root_of t = l)) = dir_of c.
Proof.
  intros Hc Hr Hnd Ht. destruct t as [|a tl d b tr]; [done|]. destruct c as [|f c].
  - eexists. split; [done|]. rewrite Hr by done. simpl. by rewrite bool_decide_true.
  - destruct Hc as [[Hf _] _]. simpl. rewrite Hf. eexists. split; [reflexivity|].
    destruct (f_right f); simpl; [|by rewrite bool_decide_true].
    rewrite bool_decide_false; [done|]. intros Ha. symmetry in Ha. apply root_in in Ha.
    apply NoDup_app in Hnd as (_&Hdisj&_). apply (Hdisj a); [constructor|].
    change (a ∈ (f_addr f :: addrs (f_other f)) ++ ctx_addrs c). apply elem_of_app. left. by right.
Qed.

(** ** The balance factors along the path *)
Lemma update_loop_ok ns c t n :
  ctx_at ns c (Some n) -> root_of t = Some n -> n ∉ ctx_addrs c -> NoDup (ctx_addrs c) ->
  exists ns', update_loop (rev (f_right <$> c)) ns (root_of (fill c t)) n = Ok ns'
    /\ ctx_at ns' (bump <$> c) (Some n) /\ (forall a, a ∉ ctx_addrs c -> ns' !! a = ns !! a).
Proof.
  intros Hc Hn Hni Hnd. revert ns Hc. induction c as [|g c IH] using rev_ind; intros ns Hc.
  { exists ns. simpl. rewrite Hn, decide_True by done. done. }
  rewrite ctx_addrs_app in Hni, Hnd. apply not_elem_of_app in Hni as [Hni Hng].
  apply NoDup_app in Hnd as (Hnd&Hdisj&Hg). change (NoDup (frame_addrs g ++ [])) in Hg. rewrite app_nil_r in Hg.
  change (n ∉ frame_addrs g ++ []) in Hng. rewrite app_nil_r in Hng.
  assert (ctx_addrs [g] = frame_addrs g) as Heq by apply app_nil_r. rewrite Heq in Hdisj. clear Heq.
  rewrite <- Hn in Hc. apply ctx_at_app in Hc as [Hc [Hfg _]]. rewrite Hn in Hc.
  rewrite fmap_app, rev_app_distr, fill_app. simpl.
  change (fill [g] (fill c t)) with (plug g (fill c t)). rewrite root_plug.
  rewrite decide_False by (intros [= Hx]; apply Hng; rewrite <- Hx; constructor).
  destruct Hfg as [Hga Hgt]. rewrite (upd_node_Some _ _ _ _ Hga). simpl. rewrite lookup_insert_eq. simpl.
  set (ns1 := <[f_addr g := _]> ns).
  apply NoDup_cons in Hg as [Hgni _].
  destruct (IH Hni Hnd ns1) as (ns'&Hu&Hc'&Hfr).
  { eapply ctx_at_frame; [done|]. intros k Hk. unfold ns1. rewrite lookup_insert_ne; [done|]. intros <-.
    eapply Hdisj; [done|]. constructor. }
  exists ns'. split_and!.
  - rewrite <- Hu. f_equal. by destruct (f_right g).
  - rewrite fmap_app, <- Hn. apply ctx_at_app. rewrite Hn. split; [done|]. split; [|done]. split.
    + simpl. rewrite Hfr by (intros Hk; eapply Hdisj; [done|constructor]). unfold ns1. rewrite lookup_insert_eq.
      assert (root_of (fill (bump <$> c) t) = root_of (fill c t)) as ->.
      { clear. induction c as [|g c _] using rev_ind; [done|]. rewrite fmap_app, !fill_app.
        change (root_of (plug (bump g) (fill (bump <$> c) t)) = root_of (plug g (fill c t))). by rewrite !root_plug. }
      unfold set_balance, sign. by destruct (f_right g).
    + simpl. eapply tree_at_frame; [done|]. intros k Hk. rewrite Hfr by (intros Hk'; eapply Hdisj; [done|by right]).
      unfold ns1. rewrite lookup_insert_ne; [done|]. by intros <-.
  - intros k Hk. rewrite ctx_addrs_app in Hk. apply not_elem_of_app in Hk as [Hk1 Hk2].
    rewrite Hfr by done. unfold ns1. rewrite lookup_insert_ne; [done|]. intros <-. apply Hk2. by left.
Qed.

(** ** Rotations *)
Ltac heap_step :=
  first [rewrite lookup_insert_eq | rewrite lookup_insert_ne by congruence
        | match goal with H : ?m !! ?a = Some _ |- context [?m !! ?a] => rewrite H end
        | match goal with H : ?b = _ |- context [if ?b then _ else _] => rewrite H end]; simpl.

(** Rewrites the absence of duplicates in a list of roots and subtrees into elementary facts. *)
Ltac nodup_facts H :=
  repeat (rewrite NoDup_cons, ?not_elem_of_cons, ?not_elem_of_app in H); destruct_and?.

Lemma nodup_perm (l l' : list positive) : l ≡ₚ l' -> NoDup l -> NoDup l'.
Proof. by intros ->. Qed.

(** A subtree none of whose nodes is written. *)
Ltac keep_subtree :=
  eapply tree_at_frame; [eassumption|];
  let k := fresh in let Hk := fresh in intros k Hk;
  rewrite ?lookup_insert_ne by (intros ->; contradiction); reflexivity.

(** The store after a rotation that reads and writes the nodes of known addresses. *)
Ltac rotation :=
  eexists; split; [unfold rebalance, upd_node; simpl; repeat heap_step; reflexivity|]; split;
  [simpl; split_and!; repeat heap_step; first [reflexivity | keep_subtree]
  |let k := fresh in let Hk := fresh in
   intros k Hk; repeat rewrite ?not_elem_of_cons, ?not_elem_of_app in Hk; destruct_and?; by repeat heap_step].

Lemma rebalance_ok ns f t :
  tree_at ns (plug f t) -> NoDup (addrs (plug f t)) -> leaning t -> rotated f t <> Leaf ->
  exists ns', rebalance ns (Some (f_addr f)) (f_right f) = Ok (ns', root_of (rotated f t))
    /\ tree_at ns' (rotated f t) /\ (forall a, a ∉ addrs (plug f t) -> ns' !! a = ns !! a).
Proof.
  destruct f as [y dir yd yb yo], t as [|x l xd xb r]; [done|]. unfold rotated, plug, leaning, mk, sign.
  destruct dir; simpl; intros Hat Hnd [-> | ->] Hw; simpl in *.
  - apply (nodup_perm _ (y :: x :: addrs yo ++ addrs l ++ addrs r)) in Hnd; [|solve_Permutation].
    nodup_facts Hnd. rotation.
  - destruct l as [|w wl wd wb wr]; [done|]. simpl in *.
    apply (nodup_perm _ (y :: x :: w :: addrs yo ++ addrs wl ++ addrs wr ++ addrs r)) in Hnd; [|solve_Permutation].
    nodup_facts Hnd. destruct (wb =? 1) eqn:E1; [|destruct (wb =? 0) eqn:E0]; rotation.
  - destruct r as [|w wl wd wb wr]; [done|]. simpl in *.
    apply (nodup_perm _ (y :: x :: w :: addrs yo ++ addrs wl ++ addrs wr ++ addrs l)) in Hnd; [|solve_Permutation].
    nodup_facts Hnd. destruct (wb =? -1) eqn:E1; [|destruct (wb =? 0) eqn:E0]; rotation.
  - apply (nodup_perm _ (y :: x :: addrs yo ++ addrs l ++ addrs r)) in Hnd; [|solve_Permutation].
    nodup_facts Hnd. rotation.
Qed.

(** ** The data of the nodes is never touched *)
Definition data_kept ns ns' : Prop :=
  forall a x, ns !! a = Some x -> exists x', ns' !! a = Some x' /\ avl_data x' = avl_data x.

#[export] Instance data_kept_preorder : PreOrder data_kept.
Proof.
  split; [intros ns a x Hx; eauto|]. intros ns1 ns2 ns3 H12 H23 a x Hx.
  destruct (H12 _ _ Hx) as (x2&Hx2&<-). eauto.
Qed.

Lemma upd_node_data ns ns' p f : (forall x, avl_data (f x) = avl_data x) -> upd_node ns p f = Ok ns' -> data_kept ns ns'.
Proof.
  intros Hf. destruct p as [k|]; [|done]. unfold upd_node. simpl. destruct (ns !! k) as [y|] eqn:Hk; [|done].
  intros [= <-] a x Hx. destruct (decide (a = k)) as [->|].
  - rewrite lookup_insert_eq. rewrite Hk in Hx. injection Hx as <-. eauto.
  - rewrite lookup_insert_ne by done. eauto.
Qed.

Ltac data_step :=
  match goal with
  | H : _ ≫= _ = Ok _ |- _ => apply bind_Ok in H; destruct H as (?&?&?)
  | H : (if ?b then _ else _) = Ok _ |- _ => destruct b
  | H : (let '(_, _) := ?p in _) = Ok _ |- _ => destruct p
  | H : Ok _ = Ok _ |- _ => injection H as <-
  | H : upd_node _ _ _ = Ok _ |- data_kept _ _ =>
      etrans; [eapply upd_node_data; [|exact H]; intros ?; unfold set_link, set_balance; by repeat case_match|clear H]
  end.

Lemma update_loop_data da ns ns' p n : update_loop da ns p n = Ok ns' -> data_kept ns ns'.
Proof.
  revert ns p. induction da as [|d da IH]; intros ns p; simpl; case_decide; try done; [by intros [= <-]..|].
  intros Hu. do 2 data_step. etrans; [|eapply IH; eassumption].
  data_step. done.
Qed.

Lemma rebalance_data ns r y dir : rebalance ns y dir = Ok r -> data_kept ns r.1.
Proof. unfold rebalance. intros H. repeat data_step; done. Qed.

Lemma write_link_data tab tab' h dir v : write_link tab h dir v = Ok tab' -> data_kept (avl_nodes tab) (avl_nodes tab').
Proof. destruct h as [|a]; unfold write_link; intros H; repeat data_step; done. Qed.

Lemma settle_data tab tab' z y : settle tab z y = Ok tab' -> data_kept (avl_nodes tab) (avl_nodes tab').
Proof.
  unfold settle. intros H. repeat data_step; [|done]. simpl.
  repeat match goal with
  | H : rebalance _ _ _ = Ok _ |- _ => apply rebalance_data in H
  | H : write_link _ _ _ _ = Ok _ |- _ => apply write_link_data in H
  end. simpl in *. by etrans.
Qed.
End heap.
