(* ===== verification/AvlTheorems.v ===== *)
(** * Insertion and search in the trees of [marpa_avl.c]

    A table represents a strictly sorted list of items.  [_marpa_avl_probe] inserts at the
    place of the item and keeps the tree balanced, [_marpa_avl_find] finds, within
    [MARPA_AVL_MAX_HEIGHT] rounds: a tree that fits in 64-bit memory is never higher. *)
From stdpp Require Import sorting.
From S2P Require Import Prelude Avl AvlTree AvlProbe.

(** What a table asks of its comparison function. *)
Class AvlOrder {D : Type} (cmp : D -> D -> Z) : Prop := {
  avl_flip x y : cmp x y > 0 <-> cmp y x < 0;
  avl_trans x y z : cmp x y < 0 -> cmp y z < 0 -> cmp x z < 0;
  avl_compat x y z : cmp x y = 0 -> cmp x z < 0 <-> cmp y z < 0
}.

(** ** Heights

    The least number of nodes of a balanced tree of height [n], and of height [n + 1]. *)
Definition least_sizes (n : nat) : Z * Z := Nat.iter n (fun '(a, b) => (b, a + b + 1)) (0, 1).

Lemma least_sizes_S n : least_sizes (S n) = ((least_sizes n).2, (least_sizes n).1 + (least_sizes n).2 + 1).
Proof. unfold least_sizes. simpl. by destruct (Nat.iter n _ _). Qed.

Lemma least_sizes_mono n : 0 <= (least_sizes n).1 <= (least_sizes n).2.
Proof. induction n as [|n IH]; [done|]. rewrite least_sizes_S. simpl. lia. Qed.

Lemma least_sizes_le n m : (n <= m)%nat -> (least_sizes n).1 <= (least_sizes m).1.
Proof.
  induction 1 as [|m _ IH]; [lia|]. rewrite least_sizes_S. simpl. pose proof (least_sizes_mono m). lia.
Qed.

Section heights.
Context {D : Type}.
Implicit Types (t : tree (D := D)) (c : list (frame (D := D))).

Lemma balanced_size t : balanced t -> (least_sizes (Z.to_nat (height t))).1 <= Z.of_nat (length (inorder t)).
Proof.
  induction t as [|a l IHl d b r IHr]; simpl; [done|]. intros (Hb&Hb1&Hl&Hr).
  specialize (IHl Hl). specialize (IHr Hr). rewrite length_app. simpl.
  pose proof (height_nonneg l). pose proof (height_nonneg r).
  set (h := Z.to_nat (Z.max (height l) (height r) - 1)).
  destruct (decide (Z.max (height l) (height r) = 0)) as [Hz|Hz]; [rewrite Hz; simpl; lia|].
  replace (Z.to_nat (1 + _)) with (S (S h)) by lia. rewrite !least_sizes_S. simpl.
  assert ((least_sizes h).1 <= Z.of_nat (length (inorder l)) /\ (least_sizes h).1 <= Z.of_nat (length (inorder r))) as [Hll Hlr].
  { split; (etrans; [apply least_sizes_le|eassumption]); lia. }
  assert ((least_sizes (S h)).1 <= Z.of_nat (length (inorder l)) \/ (least_sizes (S h)).1 <= Z.of_nat (length (inorder r))) as Hm.
  { destruct (decide (height r <= height l)).
    - left. etrans; [|exact IHl]. apply least_sizes_le. lia.
    - right. etrans; [|exact IHr]. apply least_sizes_le. lia. }
  rewrite least_sizes_S in Hm. simpl in Hm. lia.
Qed.

(** The size of the arrays [da] and [avl_stack] is enough. *)
Lemma height_bound t : balanced t -> Z.of_nat (length (inorder t)) < SIZE_MOD -> height t < Z.of_nat MARPA_AVL_MAX_HEIGHT.
Proof.
  intros Hb Hs. apply Znot_ge_lt. intros Hh. apply balanced_size in Hb.
  assert ((least_sizes 92).1 <= (least_sizes (Z.to_nat (height t))).1) as H.
  { apply least_sizes_le. unfold MARPA_AVL_MAX_HEIGHT in Hh. lia. }
  assert (SIZE_MOD <= (least_sizes 92).1) by (vm_compute; congruence). lia.
Qed.

Lemma height_fill c t : Z.of_nat (length c) + height t <= height (fill c t).
Proof.
  revert t. induction c as [|f c IH]; intros t; [simpl; lia|].
  change (fill (f :: c) t) with (fill c (plug f t)). pose proof (IH (plug f t)) as H. rewrite height_plug in H. simpl. lia.
Qed.

Lemma fill_root c t t' : c <> [] -> root_of (fill c t) = root_of (fill c t').
Proof.
  intros Hc. destruct c as [|g c _] using rev_ind; [done|]. rewrite !fill_app.
  change (root_of (plug g (fill c t)) = root_of (plug g (fill c t'))). by rewrite !root_plug.
Qed.
End heights.

Section descent.
Context {D : Type} `{EqDecision D} (cmp : D -> D -> Z) `{!AvlOrder cmp}.
Implicit Types (ns : gmap positive (avl_node (D := D))) (t : tree (D := D)) (c cy cz : list (frame (D := D))).

Abbreviation lt := (fun x y => cmp x y < 0).
Abbreviation sorted := (StronglySorted lt).

(** The automatic variables, when the hole is reached through [cy ++ cz], [y] at the end of
    [cy]. *)
Definition vars_at cy cz t : probe_vars :=
  ProbeVars (holder_of cz) (root_of (fill cy t)) (holder_of (cy ++ cz)) (dir_of (cy ++ cz)) (rev (f_right <$> cy)).

(** [y] is the last uneven node on the way, or the root. *)
Definition path_ok cy cz : Prop :=
  (cy = [] /\ cz = []) \/ exists c0 g, cy = c0 ++ [g] /\ Forall (fun f => f_bal f = 0) c0 /\ (cz = [] \/ f_bal g <> 0).

Lemma path_ok_even cy cz f : path_ok cy cz -> f_bal f = 0 -> path_ok (f :: cy) cz.
Proof.
  intros [[-> ->]|(c0&g&->&Hc0&Hg)] Hf; right.
  - exists [], f. auto.
  - exists (f :: c0), g. auto.
Qed.

Lemma path_ok_uneven c f : f_bal f <> 0 -> path_ok [f] c.
Proof. intros Hf. right. exists [], f. auto. Qed.

(** Where an item goes: all before the hole is less, all after it greater. *)
Definition hole_for (item : D) c : Prop :=
  Forall (fun x => cmp x item < 0) (before c) /\ Forall (fun x => cmp item x < 0) (after c).

Lemma hole_step item c a l d b r (dir : bool) :
  sorted (inorder (fill c (Node a l d b r))) -> hole_for item c ->
  (if dir then cmp item d > 0 else cmp item d < 0) ->
  hole_for item (Frame a dir d b (if dir then l else r) :: c).
Proof.
  intros Hs [Hb Ha] Hd. rewrite inorder_fill in Hs. apply StronglySorted_app_1_r, StronglySorted_app_1_l in Hs. simpl in Hs.
  destruct dir; (split; simpl; rewrite ?app_nil_r; [|]); try done.
  - apply Forall_app. split; [done|]. apply Forall_app. apply avl_flip in Hd. split; [|by constructor].
    apply Forall_forall. intros x Hx. eapply avl_trans; [|exact Hd].
    eapply (StronglySorted_app_1_elem_of lt); [exact Hs|done|constructor].
  - constructor; [done|]. apply Forall_app. split; [|done].
    apply StronglySorted_app_1_r in Hs. inversion Hs as [|?? _ Hr]; subst.
    eapply Forall_impl; [exact Hr|]. intros x Hx. by eapply avl_trans.
Qed.

Lemma probe_loop_ok ns item fuel T cy cz t :
  T = fill (cy ++ cz) t -> tree_at ns T -> sorted (inorder T) -> height T < Z.of_nat MARPA_AVL_MAX_HEIGHT ->
  path_ok cy cz -> hole_for item (cy ++ cz) -> height t <= Z.of_nat fuel ->
  (exists a n, probe_loop cmp fuel ns item (vars_at cy cz t) (root_of t) = Ok (inl a)
     /\ ns !! a = Some n /\ avl_data n ∈ inorder T /\ cmp item (avl_data n) = 0)
  \/ (exists cy' cz', probe_loop cmp fuel ns item (vars_at cy cz t) (root_of t) = Ok (inr (vars_at cy' cz' Leaf))
     /\ T = fill (cy' ++ cz') Leaf /\ path_ok cy' cz' /\ hole_for item (cy' ++ cz')).
Proof.
  intros HT Hat Hs Hh. revert cy cz t HT. induction fuel as [|fuel IH]; intros cy cz t HT Hp Hi Hf;
    (destruct t as [|a l d b r]; [right; exists cy, cz; done|]).
  { simpl in Hf. pose proof (height_nonneg l). pose proof (height_nonneg r). lia. }
  simpl in Hf. pose proof Hat as Hat'. rewrite HT in Hat'. apply tree_at_fill in Hat' as [_ (Ha&_&_)].
  cbn [probe_loop root_of]. rewrite (get_node_Some _ _ _ Ha). cbn [mbind res_bind avl_data avl_balance].
  destruct (Z.eqb_spec (cmp item d) 0) as [Hz|Hz].
  { left. eexists a, _. split_and!; [done|exact Ha| |done]. rewrite HT, inorder_fill. set_solver. }
  set (dir := cmp item d >? 0).
  set (f := Frame a dir d b (if dir then l else r)).
  set (u := if dir then r else l).
  assert (plug f u = Node a l d b r) as Hplug by (unfold plug, f, u; by destruct dir).
  assert (hole_for item (f :: cy ++ cz)) as Hi'.
  { apply hole_step; [by rewrite <- HT|done|]. unfold dir. destruct (Z.gtb_spec (cmp item d) 0); lia. }
  assert (height u <= Z.of_nat fuel) as Hf' by (unfold u; destruct dir; lia).
  assert (length (cy ++ cz) < MARPA_AVL_MAX_HEIGHT)%nat as Hlen.
  { pose proof (height_fill (cy ++ cz) (Node a l d b r)) as H. rewrite <- HT in H. simpl in H.
    pose proof (height_nonneg l). lia. }
  rewrite length_app in Hlen. rewrite <- Hplug in HT.
  assert (avl_link dir (AvlNode (root_of l) (root_of r) d b) = root_of u) as -> by (unfold u; by destruct dir).
  destruct (Z.eqb_spec b 0) as [Hb|Hb]; cbn [negb vars_at pv_z pv_y pv_q pv_da].
  - rewrite decide_True by (rewrite length_rev, length_fmap; lia).
    assert (ProbeVars _ _ _ _ _ = vars_at (f :: cy) cz u) as ->; [|by apply IH; auto using path_ok_even].
    unfold vars_at. change (fill (f :: cy) u) with (fill cy (plug f u)). by rewrite Hplug.
  - rewrite decide_True by (unfold MARPA_AVL_MAX_HEIGHT; simpl; lia).
    assert (ProbeVars _ _ _ _ _ = vars_at [f] (cy ++ cz) u) as ->; [|by apply IH; auto using path_ok_uneven].
    unfold vars_at. change (fill [f] u) with (plug f u). by rewrite Hplug.
Qed.

(** The leaf [N] in the hole: the path to [y] gets one higher, and either [y] can take it or
    it is two higher on that side. *)
Lemma grown_ok c0 g cz N :
  balanced (fill ((c0 ++ [g]) ++ cz) Leaf) -> Forall (fun f => f_bal f = 0) c0 -> (cz = [] \/ f_bal g <> 0) ->
  balanced N -> height N = 1 ->
  let u := fill (bump <$> c0) N in
  (-1 <= f_bal (bump g) <= 1 /\ balanced (fill cz (plug (bump g) u)))
  \/ (f_bal g = sign (f_right g) /\ leaning u /\ balanced u /\ balanced (f_other g) /\ height u = height (f_other g) + 2
      /\ forall w, balanced w -> height w = height u -> balanced (fill cz w)).
Proof.
  intros Hb Hc0 Hg HN HhN u. rewrite !fill_app in Hb. change (fill [g] (fill c0 Leaf)) with (plug g (fill c0 Leaf)) in Hb.
  pose proof (balanced_hole _ _ Hb) as Hp. apply balanced_plug in Hp as (H0&Ho&Hr&Hbal).
  destruct (bump_path c0 Leaf N Hc0 H0 HN) as [Hu Hhu]; [by rewrite HhN|]. fold u in Hu, Hhu.
  destruct (decide (f_bal g = sign (f_right g))) as [Hs|Hs]; [right|left].
  - assert (height u = height (f_other g) + 2) as Hh by (unfold sign in *; destruct (f_right g); lia).
    split_and!; try done.
    + apply bump_root; [done|]. intros ->. simpl in Hhu. pose proof (height_nonneg (f_other g)). lia.
    + intros w Hw Hhw. eapply balanced_replace; [exact Hb|done|]. rewrite Hhw, height_plug.
      unfold sign in *. destruct (f_right g); lia.
  - assert (balanced (plug (bump g) u)) as Hbp.
    { apply balanced_plug. simpl. unfold sign in *. split_and!; try done; destruct (f_right g); lia. }
    split; [by apply balanced_plug in Hbp as (_&_&?&_)|].
    destruct Hg as [->|Hg]; [done|]. eapply balanced_replace; [exact Hb|done|].
    rewrite !height_plug. simpl. unfold sign in *. destruct (f_right g); lia.
Qed.

(** ** What a table represents *)
Record avl_rep (tab : avl_table) (t : tree (D := D)) : Prop := {
  rep_root : avl_root tab = root_of t;
  rep_nodes : tree_at (avl_nodes tab) t;
  rep_nodup : NoDup (addrs t);
  rep_balanced : balanced t;
  rep_sorted : sorted (inorder t);
  rep_count : avl_count tab = Z.of_nat (length (inorder t))
}.

(** The items of a table, in order. *)
Definition represents (tab : avl_table) (items : list D) : Prop := exists t, avl_rep tab t /\ inorder t = items.

(** The store with the leaf [n] linked where the descent ended. *)
Lemma leaf_linked tab c item n :
  ctx_at (avl_nodes tab) c None -> NoDup (ctx_addrs c) -> n ∉ ctx_addrs c ->
  exists ns, write_link (set_nodes (<[n := AvlNode None None item 0]> (avl_nodes tab)) tab) (holder_of c) (dir_of c) (Some n)
             = Ok (AvlTable ns (match c with [] => Some n | _ => avl_root tab end) (avl_count tab) (avl_generation tab))
    /\ ctx_at ns c (Some n) /\ ns !! n = Some (AvlNode None None item 0).
Proof.
  intros Hc Hnd Hn.
  destruct (write_link_ok (set_nodes (<[n := AvlNode None None item 0]> (avl_nodes tab)) tab) c None (Some n)) as (ns&Hw&Hc'&Hfr).
  { simpl. eapply ctx_at_frame; [exact Hc|]. intros a Ha. rewrite lookup_insert_ne; [done|]. by intros <-. }
  { done. }
  exists ns. split; [exact Hw|]. split; [done|]. rewrite Hfr by done. simpl. by rewrite lookup_insert_eq.
Qed.

Lemma rep_intro ns t root gen :
  root = root_of t -> tree_at ns t -> NoDup (addrs t) -> balanced t -> sorted (inorder t) ->
  avl_rep (AvlTable ns root (Z.of_nat (length (inorder t))) gen) t.
Proof. by constructor. Qed.

(** The same, the balance factors up to [y] updated. *)
Lemma path_updated ns cy cz n item :
  ctx_at ns (cy ++ cz) (Some n) -> ns !! n = Some (AvlNode None None item 0) ->
  NoDup (n :: ctx_addrs (cy ++ cz)) -> cy <> [] ->
  exists ns', update_loop (rev (f_right <$> cy)) ns (root_of (fill cy Leaf)) n = Ok ns'
    /\ tree_at ns' (fill (bump <$> cy) (Node n Leaf item 0 Leaf)) /\ ctx_at ns' cz (root_of (fill cy Leaf)).
Proof.
  intros Hc Hn Hnd Hne. set (N := Node n Leaf item 0 Leaf).
  change (Some n) with (root_of N) in Hc. apply ctx_at_app in Hc as [Hcy Hcz].
  rewrite ctx_addrs_app in Hnd. apply NoDup_cons in Hnd as [Hni Hnd]. apply not_elem_of_app in Hni as [Hni Hniz].
  apply NoDup_app in Hnd as (Hndy&Hdisj&Hndz).
  destruct (update_loop_ok ns cy N n) as (ns'&Hu&Hc'&Hfr); [done..|].
  rewrite (fill_root cy Leaf N) by done. exists ns'. split_and!; [done| |].
  - apply tree_at_fill. split; [done|]. simpl. by rewrite Hfr.
  - eapply ctx_at_frame; [exact Hcz|]. intros a Ha. apply Hfr. intros Ha'. by eapply Hdisj.
Qed.

(** The rotation done, and the new root linked. *)
Lemma rotation_linked ns root cnt gen f u cz :
  tree_at ns (plug f u) -> ctx_at ns cz (Some (f_addr f)) -> root = root_of (fill cz (plug f u)) ->
  NoDup (addrs (fill cz (plug f u))) -> leaning u -> rotated f u <> Leaf -> addrs (rotated f u) ≡ₚ addrs (plug f u) ->
  exists r l ns', rebalance ns (Some (f_addr f)) (f_right f) = Ok r
    /\ read_link (AvlTable r.1 root cnt gen) (holder_of cz) false = Ok l
    /\ write_link (AvlTable r.1 root cnt gen) (holder_of cz) (negb (bool_decide (Some (f_addr f) = l))) r.2
       = Ok (AvlTable ns' (root_of (fill cz (rotated f u))) cnt gen)
    /\ tree_at ns' (fill cz (rotated f u)).
Proof.
  intros Hat Hcz Hroot Hnd Hlean Hrot Hperm.
  rewrite addrs_fill in Hnd. pose proof Hnd as Hnd'. apply NoDup_app in Hnd' as (Hndp&Hdisj&Hndz).
  destruct (rebalance_ok ns f u) as (ns1&Hr&Hat1&Hfr1); [done..|].
  assert (ctx_at ns1 cz (root_of (plug f u))) as Hcz1.
  { rewrite root_plug. eapply ctx_at_frame; [exact Hcz|]. intros a Ha. apply Hfr1. intros Ha'. by eapply Hdisj. }
  destruct (read_link_ok (AvlTable ns1 root cnt gen) cz (plug f u)) as (l&Hl&Hdir); [done| |done| |].
  { intros ->. done. }
  { unfold plug. by destruct (f_right f). }
  destruct (write_link_ok (AvlTable ns1 root cnt gen) cz (root_of (plug f u)) (root_of (rotated f u))) as (ns2&Hw&Hc2&Hfr2); [done..|].
  rewrite root_plug in Hdir. exists (ns1, root_of (rotated f u)), l, ns2. split_and!; [done|done| |].
  - rewrite Hdir. simpl in *. rewrite Hw. do 2 f_equal. rewrite Hroot. destruct cz as [|g cz]; [done|]. by apply fill_root.
  - apply tree_at_fill. split; [done|]. eapply tree_at_frame; [exact Hat1|]. intros a Ha. apply Hfr2. intros Ha'.
    eapply Hdisj; [|done]. by rewrite <- Hperm.
Qed.

Lemma grown_inorder cy cz N : inorder (fill cz (fill (bump <$> cy) N)) = before (cy ++ cz) ++ inorder N ++ after (cy ++ cz).
Proof. by rewrite <- inorder_fill, fill_app, !inorder_fill, bump_before, bump_after. Qed.

Lemma grown_addrs cy cz N : addrs (fill cz (fill (bump <$> cy) N)) ≡ₚ addrs N ++ ctx_addrs (cy ++ cz).
Proof. rewrite !addrs_fill, bump_addrs, ctx_addrs_app. by rewrite (assoc_L (++)). Qed.

Lemma sorted_insert item c : sorted (before c ++ after c) -> hole_for item c -> sorted (before c ++ item :: after c).
Proof.
  intros Hs [Hb Ha]. apply StronglySorted_app in Hs as (Hx&Hsb&Hsa). rewrite Forall_forall in Hb.
  apply StronglySorted_app. split_and!; [|done|by constructor]. intros x y Hxb [->|Hy]%elem_of_cons; auto.
Qed.

Lemma plug_bump_inorder (g : frame (D := D)) u : inorder (plug (bump g) u) = inorder (plug g u).
Proof. unfold plug. simpl. by destruct (f_right g). Qed.

Lemma plug_bump_addrs (g : frame (D := D)) u : addrs (plug (bump g) u) = addrs (plug g u).
Proof. unfold plug. simpl. by destruct (f_right g). Qed.

(** The end of the insertion, from the tree whose path has been updated. *)
Lemma settle_ok ns root gen c0 g cz N :
  let u := fill (bump <$> c0) N in
  let T := fill cz (plug (bump g) u) in
  balanced (fill ((c0 ++ [g]) ++ cz) Leaf) -> Forall (fun f => f_bal f = 0) c0 -> (cz = [] \/ f_bal g <> 0) ->
  balanced N -> height N = 1 -> tree_at ns (plug (bump g) u) -> ctx_at ns cz (Some (f_addr g)) -> root = root_of T ->
  NoDup (addrs T) -> sorted (inorder T) ->
  exists tab, settle (AvlTable ns root (Z.of_nat (length (inorder T))) gen) (holder_of cz) (Some (f_addr g)) = Ok tab
    /\ represents tab (inorder T).
Proof.
  intros u T Hb Hc0 Hg HN HhN Hat Hcz Hroot Hnd Hs. unfold settle. cbn [avl_nodes].
  pose proof Hat as [[Hga _] _]%tree_at_plug. change (f_addr (bump g)) with (f_addr g) in Hga.
  rewrite (get_node_Some _ _ _ Hga). cbn [mbind res_bind].
  assert (avl_balance _ = f_bal (bump g)) as -> by by destruct (f_right (bump g)).
  destruct (grown_ok c0 g cz N) as [[Hr Hb3]|(Hgb&Hlean&Hbu&Hbo&Hhu&Hb3)]; [done..| |].
  - assert ((f_bal (bump g) =? -2) || (f_bal (bump g) =? 2) = false) as ->
      by (apply orb_false_intro; apply Z.eqb_neq; lia).
    eexists. split; [done|]. exists T. split; [|done].
    apply rep_intro; [done|by apply tree_at_fill; rewrite root_plug|done..].
  - assert ((f_bal (bump g) =? -2) || (f_bal (bump g) =? 2) = true) as ->
      by (simpl; rewrite Hgb; unfold sign; by destruct (f_right g)).
    assert ((f_bal (bump g) =? 2) = f_right (bump g)) as ->
      by (simpl; rewrite Hgb; unfold sign; by destruct (f_right g)).
    fold u in Hlean, Hbu, Hhu, Hb3. destruct (rotated_ok g u) as (Hbr&Hhr&Hir&Har); [done..|].
    change (rotated g u) with (rotated (bump g) u) in *.
    rewrite <- plug_bump_inorder in Hir. rewrite <- plug_bump_addrs in Har.
    destruct (rotation_linked ns root (Z.of_nat (length (inorder T))) gen (bump g) u cz)
      as (r&l&ns4&Hr&Hl4&Hw4&Hat4); [done..| |done|].
    { intros Hz. rewrite Hz, Hhu in Hhr. change (height Leaf) with 0 in Hhr. pose proof (height_nonneg (f_other g)). lia. }
    change (f_addr (bump g)) with (f_addr g) in *. rewrite Hr. cbn [mbind res_bind]. unfold set_nodes.
    cbn [avl_root avl_count avl_generation]. rewrite Hl4. cbn [mbind res_bind]. rewrite Hw4.
    eexists. split; [done|]. cbn [avl_nodes avl_root avl_count avl_generation].
    assert (inorder (fill cz (rotated (bump g) u)) = inorder T) as Hin4 by (unfold T; by rewrite !inorder_fill, Hir).
    exists (fill cz (rotated (bump g) u)). split; [|done]. rewrite <- Hin4.
    apply rep_intro; [done|done| |by apply Hb3|by rewrite Hin4].
    rewrite addrs_fill, Har, <- addrs_fill. done.
Qed.

Lemma probe_insert_ok fuel tab t item cy cz :
  avl_rep tab t -> t = fill (cy ++ cz) Leaf -> path_ok cy cz -> hole_for item (cy ++ cz) -> avl_count tab < SIZE_MOD - 1 ->
  probe_loop cmp fuel (avl_nodes tab) item (ProbeVars HRoot (avl_root tab) HRoot false []) (avl_root tab) = Ok (inr (vars_at cy cz Leaf)) ->
  exists n tab' x, avl_probe cmp fuel tab item = Ok (n, tab') /\ avl_nodes tab' !! n = Some x /\ avl_data x = item
    /\ represents tab' (before (cy ++ cz) ++ item :: after (cy ++ cz)).
Proof.
  intros [Hroot Hat Hnd Hbal Hs Hcnt] Ht Hp Hi Hroom Hl. unfold avl_probe. rewrite Hl. cbn [mbind res_bind].
  set (n := fresh (dom (avl_nodes tab))). set (N := Node n Leaf item 0 Leaf).
  assert (NoDup (n :: ctx_addrs (cy ++ cz))) as Hnd'.
  { assert (addrs t ≡ₚ ctx_addrs (cy ++ cz)) as <- by (rewrite Ht, addrs_fill; done). constructor; [|done].
    intros Hn. apply (tree_at_dom _ _ _ Hat) in Hn. apply elem_of_dom in Hn. by apply is_fresh in Hn. }
  assert (inorder t = before (cy ++ cz) ++ after (cy ++ cz)) as Hin by (by rewrite Ht, inorder_fill).
  assert (sorted (before (cy ++ cz) ++ item :: after (cy ++ cz))) as Hsi by (apply sorted_insert; [by rewrite <- Hin|done]).
  assert (to_size_t (avl_count tab + 1) = Z.of_nat (length (before (cy ++ cz) ++ item :: after (cy ++ cz)))) as Hlen.
  { rewrite to_size_t_small by (unfold is_size_t; lia). rewrite Hcnt, Hin, !length_app. simpl. lia. }
  rewrite Ht in Hat, Hbal, Hroot. apply tree_at_fill in Hat as [Hc _].
  destruct (leaf_linked tab (cy ++ cz) item n) as (ns2&Hw&Hc2&Hn2); [done|by apply NoDup_cons in Hnd' as []..|].
  unfold vars_at. cbn [pv_q pv_dir pv_y pv_da pv_z]. rewrite Hw. cbn [mbind res_bind avl_nodes avl_root avl_count avl_generation].
  rewrite Hlen. destruct Hp as [[-> ->]|(c0&g&->&Hc0&Hg)].
  { cbn [fill foldl root_of]. eexists _, _, _. split_and!; [done|exact Hn2|done|]. exists N. split; [|done].
    apply (rep_intro ns2 N); [done|by split_and!|apply NoDup_singleton|simpl; lia|done]. }
  assert (root_of (fill (c0 ++ [g]) Leaf) = Some (f_addr g)) as Hy by (rewrite fill_app; apply root_plug).
  destruct (path_updated ns2 (c0 ++ [g]) cz n item) as (ns3&Hup&Hat3&Hcz3); [done..|by destruct c0|].
  pose proof (update_loop_data _ _ _ _ _ Hup) as Hkeep. fold N in Hat3.
  pose proof (grown_inorder (c0 ++ [g]) cz N) as Hin3. pose proof (grown_addrs (c0 ++ [g]) cz N) as Hadd3.
  assert (fill (bump <$> c0 ++ [g]) N = plug (bump g) (fill (bump <$> c0) N)) as Hu by (by rewrite fmap_app, fill_app).
  change (inorder N ++ ?l) with (item :: l) in Hin3. change (addrs N ++ ?l) with (n :: l) in Hadd3. rewrite Hu, Hy in *.
  rewrite Hup. cbn [mbind res_bind]. unfold set_nodes. cbn [avl_root avl_count avl_generation]. rewrite <- Hin3.
  destruct (settle_ok ns3 (match (c0 ++ [g]) ++ cz with [] => Some n | _ => avl_root tab end) (avl_generation tab) c0 g cz N)
    as (tab'&Hse&Hrep); [done..|by simpl|done|done|done| |by rewrite Hadd3|by rewrite Hin3|].
  { destruct ((c0 ++ [g]) ++ cz) as [|f0 c'] eqn:Ec; [by destruct c0|]. rewrite Hroot, <- Ec, fill_app.
    destruct cz; [|by apply fill_root]. change (root_of (fill (c0 ++ [g]) Leaf) = root_of (plug (bump g) (fill (bump <$> c0) N))).
    by rewrite Hy, root_plug. }
  rewrite Hse. destruct (Hkeep _ _ Hn2) as (x&Hx&Hxd). apply settle_data in Hse.
  destruct (Hse _ _ Hx) as (x'&Hx'&Hxd'). exists n, tab', x'. split_and!; [done|done|by rewrite Hxd', Hxd|done].
Qed.

(** ** Searching *)

Lemma represents_height tab t : avl_rep tab t -> avl_count tab < SIZE_MOD -> height t < Z.of_nat MARPA_AVL_MAX_HEIGHT.
Proof. intros [_ _ _ Hb _ Hc] Hs. apply height_bound; [done|lia]. Qed.

(** Where the descent goes from a node whose item is not the one sought. *)
Lemma descend item a l d b r c :
  sorted (inorder (fill c (Node a l d b r))) -> hole_for item c -> cmp item d <> 0 ->
  let dir := cmp item d >? 0 in
  let f := Frame a dir d b (if dir then l else r) in
  hole_for item (f :: c) /\ fill c (Node a l d b r) = fill (f :: c) (if dir then r else l).
Proof.
  intros Hs Hi Hd dir f. split.
  - apply hole_step; [done|done|]. unfold dir. destruct (Z.gtb_spec (cmp item d) 0); lia.
  - change (fill (f :: c) ?u) with (fill c (plug f u)). unfold plug, f. by destruct dir.
Qed.

(** The node [at_or_after] holds the first item after the hole. *)
Definition candidate ns (p : option positive) (items : list D) : Prop :=
  match items with
  | [] => p = None
  | d :: _ => exists a n, p = Some a /\ ns !! a = Some n /\ avl_data n = d
  end.

Lemma equal_splits item l1 d l2 :
  sorted (l1 ++ d :: l2) -> cmp item d = 0 -> Forall (fun x => cmp x item < 0) l1 /\ Forall (fun x => cmp item x <= 0) (d :: l2).
Proof.
  intros Hs Hd. apply StronglySorted_app in Hs as (Hx&_&Hs). inversion Hs as [|?? _ Hl]; subst. split.
  - apply Forall_forall. intros x Hx1. assert (cmp x d < 0) as Hxd by (apply Hx; [done|constructor]).
    apply avl_flip. pose proof (proj2 (avl_flip d x) Hxd) as Hdx. pose proof (avl_compat item d x Hd) as Hc1.
    destruct (Z.lt_trichotomy (cmp item x) 0) as [H|[H|H]]; [apply Hc1 in H; lia| |lia].
    apply (avl_compat item x d) in H. rewrite Hd in H. lia.
  - constructor; [lia|]. eapply Forall_impl; [exact Hl|]. intros x Hx1. simpl.
    apply (avl_compat item d x) in Hx1; [lia|done].
Qed.

Lemma at_or_after_ok ns item T fuel c t p :
  T = fill c t -> tree_at ns T -> sorted (inorder T) -> hole_for item c -> height t <= Z.of_nat fuel -> candidate ns p (after c) ->
  exists l1 l2, inorder T = l1 ++ l2 /\ Forall (fun x => cmp x item < 0) l1 /\ Forall (fun x => cmp item x <= 0) l2
    /\ at_or_after_loop cmp fuel ns (root_of t) p item = Ok (head l2).
Proof.
  intros HT Hat Hs. revert c t p HT. induction fuel as [|fuel IH]; intros c t p HT Hi Hf Hp; destruct t as [|a l d b r].
  1, 3: exists (before c), (after c); destruct Hi as [Hib Hia]; split_and!;
    [by rewrite HT, inorder_fill|done|eapply Forall_impl; [exact Hia|intros x; simpl; lia]|];
    destruct (after c) as [|x lx]; [simpl in Hp; by subst|]; destruct Hp as (a&n&->&Hn&Hd); simpl; rewrite Hn; simpl; by rewrite Hd.
  { simpl in Hf. pose proof (height_nonneg l). pose proof (height_nonneg r). lia. }
  simpl in Hf. pose proof Hat as Hat'. rewrite HT in Hat'. apply tree_at_fill in Hat' as [_ (Ha&_&_)].
  cbn [at_or_after_loop root_of]. rewrite (get_node_Some _ _ _ Ha). cbn [mbind res_bind avl_data avl_link0 avl_link1].
  destruct (decide (cmp item d = 0)) as [Hz|Hz].
  - rewrite Hz. simpl. rewrite HT, inorder_fill in *. simpl in *.
    assert (before c ++ (inorder l ++ d :: inorder r) ++ after c = (before c ++ inorder l) ++ d :: inorder r ++ after c) as Hsplit
      by (by rewrite <- !app_assoc).
    rewrite Hsplit in *. destruct (equal_splits _ _ _ _ Hs Hz) as [H1 H2]. by eexists _, (_ :: _).
  - rewrite HT in Hs. destruct (descend item a l d b r c) as [Hi' HT']; [done..|]. rewrite <- HT in Hs.
    destruct (Z.ltb_spec (cmp item d) 0), (Z.gtb_spec (cmp item d) 0); try lia; rewrite HT' in HT.
    + eapply IH; [exact HT|exact Hi'|lia|]. simpl. by eexists a, _.
    + eapply IH; [exact HT|exact Hi'|lia|]. simpl. done.
Qed.

Lemma find_ok ns item T fuel c t :
  T = fill c t -> tree_at ns T -> sorted (inorder T) -> hole_for item c -> height t <= Z.of_nat fuel ->
  exists r, find_loop cmp fuel ns (root_of t) item = Ok r
    /\ match r with
       | Some d => d ∈ inorder T /\ cmp item d = 0
       | None => Forall (fun x => cmp item x <> 0) (inorder T)
       end.
Proof.
  intros HT Hat Hs. revert c t HT. induction fuel as [|fuel IH]; intros c t HT Hi Hf; destruct t as [|a l d b r].
  1, 3: exists None; split; [done|]; rewrite HT, inorder_fill; destruct Hi as [Hib Hia]; apply Forall_app; split;
    [eapply Forall_impl; [exact Hib|intros x Hx; simpl in *; apply avl_flip in Hx; lia]
    |eapply Forall_impl; [exact Hia|intros x; simpl; lia]].
  { simpl in Hf. pose proof (height_nonneg l). pose proof (height_nonneg r). lia. }
  simpl in Hf. pose proof Hat as Hat'. rewrite HT in Hat'. apply tree_at_fill in Hat' as [_ (Ha&_&_)].
  cbn [find_loop root_of]. rewrite (get_node_Some _ _ _ Ha). cbn [mbind res_bind avl_data avl_link0 avl_link1].
  destruct (decide (cmp item d = 0)) as [Hz|Hz].
  - rewrite Hz. eexists. split; [reflexivity|]. split; [|done]. rewrite HT, inorder_fill. set_solver.
  - rewrite HT in Hs. destruct (descend item a l d b r c) as [Hi' HT']; [done..|]. rewrite <- HT in Hs.
    destruct (Z.ltb_spec (cmp item d) 0), (Z.gtb_spec (cmp item d) 0); try lia; rewrite HT' in HT;
      (eapply IH; [exact HT|exact Hi'|lia]).
Qed.
End descent.

Section properties.
Context {D : Type} `{EqDecision D} (cmp : D -> D -> Z) `{!AvlOrder cmp}.

Lemma probe_inserts (tab : avl_table) items item fuel :
  represents cmp tab items -> avl_count tab < SIZE_MOD - 1 -> (MARPA_AVL_MAX_HEIGHT <= fuel)%nat ->
  exists n tab' x, avl_probe cmp fuel tab item = Ok (n, tab') /\ avl_nodes tab' !! n = Some x
    /\ ((tab' = tab /\ avl_data x ∈ items /\ cmp item (avl_data x) = 0)
        \/ (avl_data x = item /\ Forall (fun y => cmp item y <> 0) items
            /\ exists l1 l2, items = l1 ++ l2 /\ represents cmp tab' (l1 ++ item :: l2))).
Proof.
  intros (t&Hrep&<-) Hroom Hfuel. pose proof Hrep as [Hroot Hat _ _ Hs _].
  assert (avl_count tab < SIZE_MOD) as Hsz by lia. pose proof (represents_height _ _ _ Hrep Hsz) as Hh.
  destruct (probe_loop_ok cmp (avl_nodes tab) item fuel t [] [] t) as [(n&x&Hp&Hx&Hin&Hz)|(cy&cz&Hp&Ht&Hok&Hi)];
    [done|done|done|done|by left|done|lia| |].
  - exists n, tab, x. unfold avl_probe. change (vars_at [] [] t) with (ProbeVars HRoot (root_of t) HRoot false []) in Hp.
    rewrite <- Hroot in Hp. rewrite Hp. split_and!; [done|done|]. by left.
  - change (vars_at [] [] t) with (ProbeVars HRoot (root_of t) HRoot false []) in Hp. rewrite <- Hroot in Hp.
    destruct (probe_insert_ok cmp fuel tab t item cy cz) as (n&tab'&x&Hpr&Hx&Hd&Hr); [done..|].
    exists n, tab', x. split_and!; [done|done|]. right. rewrite Ht, inorder_fill. simpl. split_and!; [done| |by eexists _, _].
    destruct Hi as [Hib Hia]. apply Forall_app. split.
    + eapply Forall_impl; [exact Hib|]. intros y Hy. simpl in *. apply avl_flip in Hy. lia.
    + eapply Forall_impl; [exact Hia|]. intros y. simpl. lia.
Qed.

(** C33. Insertion in a balanced tree ([_marpa_avl_probe]).  For a tree that represents a
    strictly sorted list of items, within as many rounds as a path has nodes at most, the
    call ends without a failed assertion, an access outside [da] or a null dereference.
    Either an item equal to the given one is there, its node is returned and nothing
    changes; or none is, the node returned is new and holds the item, and the tree (again
    balanced, sorted, with the right count) represents the list with the item put in its
    place. *)
Theorem avl_probe_inserts (tab : avl_table) items item fuel :
  represents cmp tab items -> avl_count tab < SIZE_MOD - 1 -> (MARPA_AVL_MAX_HEIGHT <= fuel)%nat ->
  exists n tab' x, avl_probe cmp fuel tab item = Ok (n, tab') /\ avl_nodes tab' !! n = Some x
    /\ ((tab' = tab /\ avl_data x ∈ items /\ cmp item (avl_data x) = 0)
        \/ (avl_data x = item /\ Forall (fun y => cmp item y <> 0) items
            /\ exists l1 l2, items = l1 ++ l2 /\ represents cmp tab' (l1 ++ item :: l2))).
Proof. apply probe_inserts. Qed.

Lemma find_correct (tab : avl_table) items item fuel :
  represents cmp tab items -> avl_count tab < SIZE_MOD -> (MARPA_AVL_MAX_HEIGHT <= fuel)%nat ->
  exists r, avl_find cmp fuel tab item = Ok r
    /\ match r with
       | Some d => d ∈ items /\ cmp item d = 0
       | None => Forall (fun x => cmp item x <> 0) items
       end.
Proof.
  intros (t&Hrep&<-) Hsz Hfuel. pose proof (represents_height _ _ _ Hrep Hsz). destruct Hrep as [Hroot Hat _ _ Hs _].
  unfold avl_find. rewrite Hroot. eapply (find_ok cmp _ item t fuel []); [done..|lia].
Qed.

(** Search ([_marpa_avl_find]): the item found is in the tree and equal to the one
    sought; [NULL] is returned only when no item is. *)
Theorem avl_find_correct (tab : avl_table) items item fuel :
  represents cmp tab items -> avl_count tab < SIZE_MOD -> (MARPA_AVL_MAX_HEIGHT <= fuel)%nat ->
  exists r, avl_find cmp fuel tab item = Ok r
    /\ match r with
       | Some d => d ∈ items /\ cmp item d = 0
       | None => Forall (fun x => cmp item x <> 0) items
       end.
Proof. apply find_correct. Qed.

(** Search of the least item not less than the one sought ([_marpa_avl_at_or_after]):
    the first of the items that do not come before it, [NULL] when all do. *)
Theorem avl_at_or_after_correct (tab : avl_table) items item fuel :
  represents cmp tab items -> avl_count tab < SIZE_MOD -> (MARPA_AVL_MAX_HEIGHT <= fuel)%nat ->
  exists l1 l2, items = l1 ++ l2 /\ Forall (fun x => cmp x item < 0) l1 /\ Forall (fun x => cmp item x <= 0) l2
    /\ avl_at_or_after cmp fuel tab item = Ok (head l2).
Proof.
  intros (t&Hrep&<-) Hsz Hfuel. pose proof (represents_height _ _ _ Hrep Hsz). destruct Hrep as [Hroot Hat _ _ Hs _].
  unfold avl_at_or_after. rewrite Hroot. eapply (at_or_after_ok cmp _ item t fuel []); [done..|lia|done].
Qed.
End properties.
