(* ===== verification/AvlTraversal.v ===== *)
(** * Traversal of the trees of [marpa_avl.c]

    A traverser at rest on a node keeps in [avl_stack] the path to it.  From a fresh
    traverser, [_marpa_avl_t_next] gives the items in order, then [NULL]. *)
From stdpp Require Import sorting.
From S2P Require Import Prelude Avl AvlTree AvlProbe AvlTheorems.

Section traversal.
Context {D : Type} `{EqDecision D} (cmp : D -> D -> Z).
Implicit Types (ns : gmap positive (avl_node (D := D))) (t : tree (D := D)) (c : list (frame (D := D))).

(** The traverser is on the item [d] of [T], between [l1] and [l2]. *)
Definition trav_on (T : tree (D := D)) (trav : avl_traverser) (l1 : list D) (d : D) (l2 : list D) : Prop :=
  exists c a tl b tr, T = fill c (Node a tl d b tr) /\ at_node trav = Some a /\ at_stack trav = f_addr <$> c
    /\ l1 = before c ++ inorder tl /\ l2 = inorder tr ++ after c.

(** The traverser selects what comes first of [l2] after [l1], or the null item. *)
Definition trav_next (T : tree (D := D)) (trav : avl_traverser) (l1 l2 : list D) : Prop :=
  match l2 with
  | [] => at_node trav = None /\ at_stack trav = []
  | d :: l2 => trav_on T trav l1 d l2
  end.

Lemma slide_ok ns fuel T c x tl d b tr :
  T = fill c (Node x tl d b tr) -> tree_at ns T -> height T < Z.of_nat MARPA_AVL_MAX_HEIGHT -> height (Node x tl d b tr) <= Z.of_nat fuel ->
  exists x' c' d' b' tr', slide fuel ns false x (f_addr <$> c) = Ok (x', f_addr <$> c') /\ T = fill c' (Node x' Leaf d' b' tr')
    /\ before c' = before c /\ d' :: inorder tr' ++ after c' = inorder tl ++ d :: inorder tr ++ after c.
Proof.
  intros HT Hat Hh. revert c x tl d b tr HT. induction fuel as [|fuel IH]; intros c x tl d b tr HT Hf; simpl in Hf;
    pose proof (height_nonneg tl); pose proof (height_nonneg tr); [lia|].
  pose proof Hat as Hat'. rewrite HT in Hat'. apply tree_at_fill in Hat' as [_ (Hx&_&_)].
  cbn [slide]. rewrite (get_node_Some _ _ _ Hx). cbn [mbind res_bind avl_link avl_link0].
  destruct tl as [|x2 tl2 d2 b2 tr2]; cbn [root_of].
  { exists x, c, d, b, tr. by split_and!. }
  unfold push_stack. rewrite decide_True.
  2: { pose proof (height_fill c (Node x (Node x2 tl2 d2 b2 tr2) d b tr)) as Hl. rewrite <- HT in Hl.
       rewrite length_fmap. cbn [height] in *. lia. }
  cbn [mbind res_bind].
  destruct (IH (Frame x false d b tr :: c) x2 tl2 d2 b2 tr2) as (x'&c'&d'&b'&tr'&Hsl&HT'&Hb&Ha); [done|cbn [height] in *; lia|].
  exists x', c', d', b', tr'. split_and!; [done|done| |].
  - rewrite Hb. simpl. by rewrite app_nil_r.
  - rewrite Ha. simpl. by rewrite <- (assoc_L (++)).
Qed.

Lemma climb_ok ns c t :
  ctx_at ns c (root_of t) -> NoDup (addrs t ++ ctx_addrs c) -> t <> Leaf ->
  forall x, root_of t = Some x ->
  exists y s, climb ns true x (f_addr <$> c) = Ok (y, s)
    /\ forall g, trav_next (fill c t) (AvlTraverser y s g) (before c ++ inorder t) (after c).
Proof.
  revert t. induction c as [|f c IH]; intros t Hc Hnd Ht x Hx.
  { exists None, []. by split. }
  destruct Hc as [Hf Hc]. change (ctx_addrs (f :: c)) with (frame_addrs f ++ ctx_addrs c) in Hnd.
  rewrite fmap_cons. cbn [climb]. pose proof Hf as [Hfa _]. rewrite (get_node_Some _ _ _ Hfa). cbn [mbind res_bind].
  change (fill (f :: c) t) with (fill c (plug f t)). destruct f as [a dir d b o]. cbn [f_addr f_right f_data f_bal f_other] in *.
  destruct dir; cbn [avl_link avl_link1].
  - rewrite Hx, decide_True by done. destruct (IH (plug (Frame a true d b o) t)) with (x := a) as (y&s&Hcl&Hn).
    { done. }
    { unfold plug, frame_addrs in *. simpl in *. eapply nodup_perm; [|exact Hnd]. solve_Permutation. }
    { done. }
    { done. }
    exists y, s. split; [done|]. intros g. specialize (Hn g). simpl in *.
    by rewrite <- !(assoc_L (++)).
  - rewrite decide_False.
    2: { intros Heq. symmetry in Heq. apply root_in in Heq. apply root_in in Hx. apply NoDup_app in Hnd as (_&Hd&_).
         apply (Hd x Hx). apply elem_of_app. left. by right. }
    eexists _, _. split; [done|]. intros g. simpl. exists c, a, t, b, o. simpl. by rewrite app_nil_r.
Qed.

Lemma refresh_ok `{!AvlOrder cmp} ns fuel c0 c a tl d b tr :
  let N := Node a tl d b tr in
  tree_at ns (fill c N) -> NoDup (addrs (fill c N)) -> StronglySorted (fun x y => cmp x y < 0) (inorder (fill c N)) ->
  Z.of_nat (length (c ++ c0)) < Z.of_nat MARPA_AVL_MAX_HEIGHT -> Z.of_nat (length c) <= Z.of_nat fuel ->
  refresh_loop cmp fuel ns (root_of (fill c N)) a d (f_addr <$> c0) = Ok (f_addr <$> c ++ c0).
Proof.
  intros N. revert c0 fuel. induction c as [|g c IH] using rev_ind; intros c0 fuel Hat Hnd Hs Hl Hf.
  { destruct fuel; simpl; by rewrite decide_True. }
  rewrite length_app in Hf. simpl in Hf. destruct fuel as [|fuel]; [lia|].
  rewrite fill_app in *. change (fill [g] ?u) with (plug g u) in *. rewrite root_plug. cbn [refresh_loop].
  apply tree_at_plug in Hat as [[Hg _] Hat].
  assert (NoDup (frame_addrs g ++ addrs (fill c N))) as Hnd2.
  { eapply nodup_perm; [|exact Hnd]. unfold frame_addrs, plug. destruct (f_right g); simpl; solve_Permutation. }
  apply NoDup_app in Hnd2 as (_&Hdisj&Hndc).
  assert (a ∈ addrs (fill c N)) as Ha by (rewrite addrs_fill; by left).
  rewrite decide_False by (intros [= Heq]; eapply Hdisj; [|exact Ha]; rewrite <- Heq; by left).
  rewrite length_app in Hl. simpl in Hl. rewrite length_app in Hl. simpl in Hl.
  unfold push_stack. rewrite decide_True by (rewrite length_fmap; lia). cbn [mbind res_bind].
  rewrite (get_node_Some _ _ _ Hg). cbn [mbind res_bind].
  assert (d ∈ inorder (fill c N)) as Hd by (rewrite inorder_fill; set_solver).
  assert (StronglySorted (fun x y => cmp x y < 0) (inorder (fill c N)) /\ (cmp d (f_data g) >? 0) = f_right g) as [Hsc Hdir].
  { unfold plug in Hs. destruct (f_right g); simpl in Hs; apply StronglySorted_app in Hs as (Hx&Hsl&Hsr).
    - inversion Hsr as [|?? Hs' Hall]; subst. split; [done|]. apply Z.gtb_lt. rewrite Forall_forall in Hall.
      specialize (Hall _ Hd). apply avl_flip in Hall. lia.
    - split; [done|]. specialize (Hx d (f_data g) Hd ltac:(constructor)). destruct (Z.gtb_spec (cmp d (f_data g)) 0); [lia|done]. }
  assert (avl_link (cmp d (avl_data _) >? 0) _ = root_of (fill c N)) as ->.
  2: { change (f_addr g :: (f_addr <$> c0)) with (f_addr <$> g :: c0). rewrite (IH (g :: c0)); [by rewrite <- (assoc_L (++))|done..| |lia].
       rewrite length_app. simpl. lia. }
  assert (avl_data (if f_right g then AvlNode (root_of (f_other g)) (root_of (fill c N)) (f_data g) (f_bal g)
                    else AvlNode (root_of (fill c N)) (root_of (f_other g)) (f_data g) (f_bal g)) = f_data g) as -> by by destruct (f_right g).
  rewrite Hdir. by destruct (f_right g).
Qed.

(** The item selected is [d], between [l1] and [l2]; the path to it is on the stack, unless
    the generation says that it has to be recomputed. *)
Definition positioned (tab : avl_table) (trav : avl_traverser) (l1 : list D) (d : D) (l2 : list D) : Prop :=
  exists t s, avl_rep cmp tab t /\ (at_generation trav = avl_generation tab -> at_stack trav = s)
    /\ trav_on t (AvlTraverser (at_node trav) s (avl_generation tab)) l1 d l2.

(** The null item is selected, and the next one is the first. *)
Definition at_start (tab : avl_table (D := D)) (trav : avl_traverser) : Prop :=
  at_node trav = None /\ at_stack trav = [] /\ at_generation trav = avl_generation tab.

(** What a call of [_marpa_avl_t_next] leads to. *)
Definition moved_to (tab : avl_table) (trav : avl_traverser) (l1 l2 : list D) : Prop :=
  match l2 with [] => at_start tab trav | d :: l2 => positioned tab trav l1 d l2 end.

Lemma moved_intro tab t trav l1 l2 :
  avl_rep cmp tab t -> at_generation trav = avl_generation tab -> trav_next t trav l1 l2 -> moved_to tab trav l1 l2.
Proof.
  intros Hr Hg. destruct l2 as [|d l2]; simpl; [intros []; by split_and!|]. intros Hn.
  exists t, (at_stack trav). split_and!; [done|done|]. destruct trav as [p s g]. simpl in *. by subst g.
Qed.

Lemma current_ok ns T trav l1 l2 :
  tree_at ns T -> trav_next T trav l1 l2 -> current ns trav = Ok (head l2, trav).
Proof.
  intros Hat. unfold current. destruct l2 as [|d l2]; simpl; [by intros [-> _]|].
  intros (c&a&tl&b&tr&->&->&_). apply tree_at_fill in Hat as [_ (Ha&_&_)]. simpl. by rewrite Ha.
Qed.

Lemma t_first_ok fuel tab t trav :
  avl_rep cmp tab t -> avl_count tab < SIZE_MOD -> (MARPA_AVL_MAX_HEIGHT <= fuel)%nat -> at_start tab trav ->
  exists trav', avl_t_first fuel tab trav = Ok (head (inorder t), trav') /\ moved_to tab trav' [] (inorder t).
Proof.
  intros Hr Hsz Hf (Hn&Hs&Hg). pose proof (represents_height _ _ _ Hr Hsz) as Hh. pose proof Hr as [Hroot Hat _ _ _ _].
  unfold avl_t_first, t_end. rewrite Hroot, Hs. destruct t as [|x tl d b tr]; cbn [root_of].
  { eexists. split; [done|]. by split_and!. }
  destruct (slide_ok (avl_nodes tab) fuel (Node x tl d b tr) [] x tl d b tr) as (x'&c'&d'&b'&tr'&Hsl&HT&Hb&Ha); [done|done|done|lia|].
  change (f_addr <$> []) with (@nil positive) in Hsl. rewrite Hsl. cbn [mbind res_bind fst snd].
  rewrite app_nil_r in Ha. change (inorder (Node x tl d b tr)) with (inorder tl ++ d :: inorder tr). rewrite <- Ha.
  set (trav' := AvlTraverser _ _ _). assert (trav_next (Node x tl d b tr) trav' [] (d' :: inorder tr' ++ after c')) as Hnx.
  { exists c', x', Leaf, b', tr'. split_and!; [done..| |done]. by rewrite Hb. }
  exists trav'. split; [by eapply current_ok|]. by eapply moved_intro.
Qed.

Lemma refreshed `{!AvlOrder cmp} fuel tab t trav s l1 d l2 :
  avl_rep cmp tab t -> avl_count tab < SIZE_MOD -> (MARPA_AVL_MAX_HEIGHT <= fuel)%nat ->
  (at_generation trav = avl_generation tab -> at_stack trav = s) ->
  trav_on t (AvlTraverser (at_node trav) s (avl_generation tab)) l1 d l2 ->
  (if negb (at_generation trav =? avl_generation tab) then trav_refresh cmp fuel tab trav else Ok trav)
  = Ok (AvlTraverser (at_node trav) s (avl_generation tab)).
Proof.
  intros Hr Hsz Hf Hs (c&a&tl&b&tr&Ht&Ha&Hst&_&_). simpl in Ha, Hst.
  destruct (Z.eqb_spec (at_generation trav) (avl_generation tab)) as [Hg|Hg]; simpl.
  { rewrite <- Hs, <- Hg by done. by destruct trav. }
  unfold trav_refresh. rewrite Ha. pose proof (represents_height _ _ _ Hr Hsz) as Hh.
  destruct Hr as [Hroot Hat Hnd _ Hsort _]. rewrite Ht in *.
  pose proof Hat as Hat'. apply tree_at_fill in Hat' as [_ (Han&_&_)]. rewrite (get_node_Some _ _ _ Han). cbn [mbind res_bind avl_data].
  pose proof (height_fill c (Node a tl d b tr)) as Hc. simpl in Hc. pose proof (height_nonneg tl). pose proof (height_nonneg tr).
  rewrite Hroot. pose proof (refresh_ok (avl_nodes tab) fuel [] c a tl d b tr) as Hre. simpl in Hre.
  rewrite Hre; rewrite ?app_nil_r; [by rewrite <- Hst|done|done|done|lia|lia].
Qed.

Lemma t_step_ok ns fuel T c a tl d b tr g n l2 :
  T = fill c (Node a tl d b tr) -> tree_at ns T -> NoDup (addrs T) -> height T < Z.of_nat MARPA_AVL_MAX_HEIGHT ->
  (MARPA_AVL_MAX_HEIGHT <= fuel)%nat -> ns !! a = Some n -> l2 = inorder tr ++ after c ->
  exists trav', match avl_link true n with
    | Some x' =>
      s ← push_stack (f_addr <$> c) a;
      r ← slide fuel ns (negb true) x' s;
      current ns (AvlTraverser (Some r.1) r.2 g)
    | None =>
      r ← climb ns true a (f_addr <$> c);
      current ns (AvlTraverser r.1 r.2 g)
    end = Ok (head l2, trav') /\ at_generation trav' = g /\ trav_next T trav' ((before c ++ inorder tl) ++ [d]) l2.
Proof.
  intros HT Hat Hnd Hh Hf Hn ->. pose proof Hat as Hat'. rewrite HT in Hat'. apply tree_at_fill in Hat' as [Hc (Ha&_&_)].
  rewrite Hn in Ha. injection Ha as ->. cbn [avl_link avl_link1 negb].
  pose proof (height_fill c (Node a tl d b tr)) as Hl. rewrite <- HT in Hl.
  pose proof (height_nonneg tl). pose proof (height_nonneg tr).
  destruct tr as [|x' tl' d' b' tr']; cbn [root_of].
  - destruct (climb_ok ns c (Node a tl d b Leaf)) with (x := a) as (y&s&Hcl&Hnx); [done| |done|done|].
    { rewrite <- addrs_fill, <- HT. done. }
    rewrite Hcl. cbn [mbind res_bind fst snd]. specialize (Hnx g). rewrite <- HT in Hnx. simpl in Hnx.
    rewrite (assoc_L (++)) in Hnx. eexists. split_and!; [by eapply current_ok|done|done].
  - unfold push_stack. rewrite decide_True by (rewrite length_fmap; cbn [height] in *; lia). cbn [mbind res_bind].
    destruct (slide_ok ns fuel T (Frame a true d b tl :: c) x' tl' d' b' tr') as (x2&c2&d2&b2&tr2&Hsl&HT2&Hb2&Ha2);
      [done|done|done|cbn [height] in *; lia|].
    change (a :: (f_addr <$> c)) with (f_addr <$> Frame a true d b tl :: c). rewrite Hsl. cbn [mbind res_bind fst snd].
    assert (inorder (Node x' tl' d' b' tr') ++ after c = d2 :: inorder tr2 ++ after c2) as ->.
    { rewrite Ha2. simpl. by rewrite <- (assoc_L (++)). }
    assert (trav_next T (AvlTraverser (Some x2) (f_addr <$> c2) g) ((before c ++ inorder tl) ++ [d]) (d2 :: inorder tr2 ++ after c2)) as Hnx.
    { exists c2, x2, Leaf, b2, tr2. split_and!; [done..| |done]. rewrite Hb2. simpl. rewrite app_nil_r. by rewrite <- !(assoc_L (++)). }
    eexists. split_and!; [by eapply current_ok|done|done].
Qed.

Lemma next_ok `{!AvlOrder cmp} fuel tab trav l1 d l2 :
  positioned tab trav l1 d l2 -> avl_count tab < SIZE_MOD -> (MARPA_AVL_MAX_HEIGHT <= fuel)%nat ->
  exists trav', avl_t_next cmp fuel tab trav = Ok (head l2, trav') /\ moved_to tab trav' (l1 ++ [d]) l2.
Proof.
  intros (t&s&Hr&Hs&Hon) Hsz Hf. unfold avl_t_next, t_step. rewrite (refreshed _ _ _ _ _ _ _ _ Hr Hsz Hf Hs Hon). cbn [mbind res_bind].
  destruct Hon as (c&a&tl&b&tr&Ht&Ha&Hst&->&->). simpl in Ha, Hst. rewrite Ha, Hst. cbn [at_node at_stack at_generation].
  pose proof (represents_height _ _ _ Hr Hsz) as Hh. pose proof Hr as [_ Hat Hnd _ _ _].
  pose proof Hat as Hat'. rewrite Ht in Hat'. apply tree_at_fill in Hat' as [_ (Han&_&_)].
  destruct (t_step_ok (avl_nodes tab) fuel t c a tl d b tr (avl_generation tab) _ _ Ht Hat Hnd Hh Hf Han eq_refl)
    as (trav'&Hstep&Hg&Hnx).
  rewrite (get_node_Some _ _ _ Han). cbn [mbind res_bind]. exists trav'. split; [exact Hstep|]. by eapply moved_intro.
Qed.

(** Calls of [_marpa_avl_t_next], with what they return. *)
Fixpoint walk (n fuel : nat) (tab : avl_table) (trav : avl_traverser) : res (list (option D) * avl_traverser) :=
  match n with
  | O => Ok ([], trav)
  | S n =>
    r ← avl_t_next cmp fuel tab trav;
    w ← walk n fuel tab r.2;
    Ok (r.1 :: w.1, w.2)
  end.

Lemma next_from_start fuel tab t trav :
  avl_rep cmp tab t -> avl_count tab < SIZE_MOD -> (MARPA_AVL_MAX_HEIGHT <= fuel)%nat -> at_start tab trav ->
  exists trav', avl_t_next cmp fuel tab trav = Ok (head (inorder t), trav') /\ moved_to tab trav' [] (inorder t).
Proof.
  intros Hr Hsz Hf Hst. destruct (t_first_ok fuel tab t trav) as (trav'&Hfi&Hm); [done..|].
  exists trav'. split; [|done]. destruct Hst as (Hn&_&Hg). unfold avl_t_next, t_step. rewrite Hg, Z.eqb_refl. simpl.
  rewrite Hn. exact Hfi.
Qed.

Lemma walk_ok `{!AvlOrder cmp} fuel tab l2 l1 d trav :
  avl_count tab < SIZE_MOD -> (MARPA_AVL_MAX_HEIGHT <= fuel)%nat -> positioned tab trav l1 d l2 ->
  exists trav', walk (S (length l2)) fuel tab trav = Ok ((Some <$> l2) ++ [None], trav') /\ at_start tab trav'.
Proof.
  intros Hsz Hf. revert l1 d trav. induction l2 as [|d' l2 IH]; intros l1 d trav Hp;
    destruct (next_ok _ _ _ _ _ _ Hp Hsz Hf) as (trav'&Hn&Hm).
  - exists trav'. split; [|done]. simpl. by rewrite Hn.
  - destruct (IH _ _ _ Hm) as (trav2&Hw&Hs2). exists trav2. split; [|done].
    change (walk (S (length (d' :: l2))) fuel tab trav) with
      (r ← avl_t_next cmp fuel tab trav; w ← walk (S (length l2)) fuel tab r.2; Ok (r.1 :: w.1, w.2)).
    rewrite Hn. cbn [mbind res_bind snd]. rewrite Hw. done.
Qed.

(** Advancing in a tree ([_marpa_avl_t_next]).  With an item selected, whether the path
    to it is on the stack or has to be recomputed because the tree was rebalanced since, the
    call returns the item that follows it, or [NULL] after the last one, and selects it;
    the stack never overflows. *)
Theorem avl_t_next_advances `{!AvlOrder cmp} fuel tab trav l1 d l2 :
  positioned tab trav l1 d l2 -> avl_count tab < SIZE_MOD -> (MARPA_AVL_MAX_HEIGHT <= fuel)%nat ->
  exists trav', avl_t_next cmp fuel tab trav = Ok (head l2, trav') /\ moved_to tab trav' (l1 ++ [d]) l2.
Proof. apply next_ok. Qed.

(** ** Searches that select what they find *)

(** A sorted list has one place for an item. *)
Lemma equal_place `{!AvlOrder cmp} item l1 d l2 k1 e k2 : l1 ++ d :: l2 = k1 ++ e :: k2 -> Forall (fun x => cmp x item < 0) l1 -> Forall (fun x => cmp x item < 0) k1 ->
  cmp item d = 0 -> cmp item e = 0 -> l1 = k1 /\ d = e /\ l2 = k2.
Proof.
  assert (forall x, cmp item x = 0 -> ~ cmp x item < 0) as Hno by (intros x Hx Hlt; apply avl_flip in Hlt; lia).
  intros E H1 H2 Hd He. apply app_eq_inv in E as [(k&->&E)|(k&->&E)]; destruct k as [|x k]; cbn in E; injection E; intros; subst; rewrite ?app_nil_r; try done.
  - exfalso. apply Forall_app in H1 as [_ H1]. apply Forall_cons in H1 as [H1 _]. by apply (Hno x).
  - exfalso. apply Forall_app in H2 as [_ H2]. apply Forall_cons in H2 as [H2 _]. by apply (Hno x).
Qed.

Lemma t_find_ok `{!AvlOrder cmp} ns fuel T c t item trav l1 d l2 :
  T = fill c t -> tree_at ns T -> StronglySorted (fun x y => cmp x y < 0) (inorder T) -> hole_for cmp item c -> height T < Z.of_nat MARPA_AVL_MAX_HEIGHT -> height t <= Z.of_nat fuel ->
  at_stack trav = f_addr <$> c -> inorder T = l1 ++ d :: l2 -> cmp item d = 0 ->
  exists trav', t_find_loop cmp fuel ns (root_of t) item trav = Ok (Some d, trav') /\ at_generation trav' = at_generation trav /\ trav_on T trav' l1 d l2.
Proof.
  intros HT Hat Hs Hi Hh. revert fuel trav c HT Hi. induction t as [|a l IHl e b r IHr]; intros fuel trav c HT Hi Hf Hst Hin Hd.
  { exfalso. rewrite HT, inorder_fill in Hin. assert (d ∈ before c ++ after c) as [Hx|Hx]%elem_of_app by (cbn in Hin; rewrite Hin; set_solver);
      destruct Hi as [Hb Ha]; rewrite Forall_forall in Hb, Ha; [apply Hb in Hx; apply avl_flip in Hx; lia|apply Ha in Hx; lia]. }
  simpl in Hf. pose proof (height_nonneg l). pose proof (height_nonneg r). destruct fuel as [|fuel]; [lia|].
  pose proof Hat as Hat'. rewrite HT in Hat'. apply tree_at_fill in Hat' as [_ (Ha&_&_)].
  cbn [t_find_loop root_of]. rewrite (get_node_Some _ _ _ Ha). cbn [mbind res_bind avl_data]. destruct (Z.eqb_spec (cmp item e) 0) as [Hz|Hz].
  - pose proof Hin as Hin'. rewrite HT, inorder_fill in Hin'. cbn [inorder] in Hin'. rewrite <- !app_assoc in Hin'. cbn [app] in Hin'. rewrite (app_assoc (before c)) in Hin'.
    rewrite Hin in Hs. destruct (equal_splits cmp item _ _ _ Hs Hd) as [H1 _]. rewrite <- Hin' in Hs. destruct (equal_splits cmp item _ _ _ Hs Hz) as [H2 _].
    destruct (equal_place item _ _ _ _ _ _ Hin' H2 H1 Hz Hd) as (<-&<-&<-). eexists. split; [reflexivity|]. split; [done|]. by exists c, a, l, b, r.
  - rewrite Hst. pose proof (height_fill c (Node a l e b r)) as Hc. rewrite <- HT in Hc. simpl in Hc. unfold push_stack. rewrite decide_True by (rewrite length_fmap; lia). cbn [mbind res_bind].
    rewrite HT in Hs. destruct (descend cmp item a l e b r c Hs Hi Hz) as [Hi' HT']. rewrite <- HT in Hs. rewrite HT' in HT.
    destruct (cmp item e >? 0); cbn [avl_link avl_link0 avl_link1].
    + destruct (IHr fuel (AvlTraverser (at_node trav) (a :: (f_addr <$> c)) (at_generation trav)) (Frame a true e b l :: c)) as (trav'&?&?&?); [done|done|lia|done..|]. by exists trav'.
    + destruct (IHl fuel (AvlTraverser (at_node trav) (a :: (f_addr <$> c)) (at_generation trav)) (Frame a false e b r :: c)) as (trav'&?&?&?); [done|done|lia|done..|]. by exists trav'.
Qed.

(** [_marpa_avl_t_at_or_after], from a new traverser: the first item that is not before the
    one sought is selected. *)
Lemma t_at_or_after_ok `{!AvlOrder cmp} fuel tab items item :
  represents cmp tab items -> avl_count tab < SIZE_MOD -> (MARPA_AVL_MAX_HEIGHT <= fuel)%nat ->
  exists l1 l2 trav, items = l1 ++ l2 /\ Forall (fun x => cmp x item < 0) l1 /\ Forall (fun x => cmp item x <= 0) l2
    /\ avl_t_at_or_after cmp fuel tab item (avl_t_init tab) = Ok (head l2, trav) /\ match l2 with [] => True | d :: l2 => positioned tab trav l1 d l2 end.
Proof.
  intros (t&Hr&<-) Hsz Hf. pose proof (represents_height _ _ _ Hr Hsz) as Hh. pose proof Hr as [Hroot Hat _ _ Hs _].
  destruct (at_or_after_ok cmp (avl_nodes tab) item t fuel [] t None) as (l1&l2&Hin&H1&H2&Hfound); [done|done|done|done|lia|done|].
  exists l1, l2. unfold avl_t_at_or_after, avl_at_or_after. rewrite Hroot, Hfound. cbn [mbind res_bind]. destruct l2 as [|d l2]; [eexists; by split_and!|]. cbn [head].
  assert (cmp d d = 0) as Hdd by (pose proof (avl_flip d d); lia).
  destruct (t_find_ok (avl_nodes tab) fuel t [] t d (avl_t_init tab) l1 d l2) as (trav&Hfi&Hg&Hon); [done|done|done|done|done|lia|done|done|done|].
  exists trav. split; [done|]. split; [done|]. split; [done|]. unfold avl_t_find. rewrite Hroot. split; [exact Hfi|].
  exists t, (at_stack trav). split; [done|]. split; [done|]. destruct trav as [q s gen]. cbn in *. by subst gen.
Qed.

Lemma traversal_in_order `{!AvlOrder cmp} fuel tab items :
  represents cmp tab items -> avl_count tab < SIZE_MOD -> (MARPA_AVL_MAX_HEIGHT <= fuel)%nat ->
  exists trav, walk (S (length items)) fuel tab (avl_t_init tab) = Ok ((Some <$> items) ++ [None], trav) /\ at_start tab trav.
Proof.
  intros (t&Hr&<-) Hsz Hf. destruct (next_from_start fuel tab t (avl_t_init tab)) as (trav'&Hn&Hm); [done..|].
  destruct (inorder t) as [|d l2].
  - exists trav'. split; [|done]. simpl. by rewrite Hn.
  - destruct (walk_ok fuel tab l2 [] d trav') as (trav2&Hw&Hs2); [done..|]. exists trav2. split; [|done].
    change (walk (S (length (d :: l2))) fuel tab (avl_t_init tab)) with
      (r ← avl_t_next cmp fuel tab (avl_t_init tab); w ← walk (S (length l2)) fuel tab r.2; Ok (r.1 :: w.1, w.2)).
    rewrite Hn. cbn [mbind res_bind snd]. rewrite Hw. done.
Qed.
(** C39. Traversal of a tree.  From a traverser just initialised or reset
    ([_marpa_avl_t_init], [_marpa_avl_t_reset]), the calls of [_marpa_avl_t_next] return
    every item of the tree once, in order, and then [NULL], without a failed assertion; the
    traverser is then ready to start again. *)
Theorem avl_traversal_in_order `{!AvlOrder cmp} fuel tab items :
  represents cmp tab items -> avl_count tab < SIZE_MOD -> (MARPA_AVL_MAX_HEIGHT <= fuel)%nat ->
  exists trav, walk (S (length items)) fuel tab (avl_t_init tab) = Ok ((Some <$> items) ++ [None], trav) /\ at_start tab trav.
Proof. apply traversal_in_order. Qed.

End traversal.

(** ** A concrete tree *)

#[export] Instance Zsub_order : AvlOrder Z.sub.
Proof. split; intros; lia. Qed.

(** The items inserted one after the other. *)
Fixpoint insert_all (fuel : nat) (tab : avl_table (D := Z)) (items : list Z) : res (avl_table (D := Z)) :=
  match items with
  | [] => Ok tab
  | x :: items => r ← avl_insert Z.sub fuel tab x; insert_all fuel r.2 items
  end.

Definition demo_avl : avl_table (D := Z) :=
  match insert_all 92 avl_create [3; 1; 2; 5; 4] with Ok tab => tab | _ => avl_create end.

Definition demo_tree : tree (D := Z) :=
  Node 3 (Node 2 Leaf 1 0 Leaf) 2 1 (Node 5 (Node 1 Leaf 3 0 Leaf) 4 0 (Node 4 Leaf 5 0 Leaf)).

Lemma demo_avl_at : avl_rep Z.sub demo_avl demo_tree.
Proof.
  split; [done|by vm_compute|apply NoDup_ListNoDup; repeat constructor; simpl; lia|simpl; lia| |done].
  simpl. repeat constructor; lia.
Qed.

Lemma demo_avl_rep : represents Z.sub demo_avl [1; 2; 3; 4; 5].
Proof. exists demo_tree. split; [exact demo_avl_at|done]. Qed.

Theorem avl_probe_inserts_witness :
  exists n tab' x, avl_probe Z.sub 92 demo_avl 6 = Ok (n, tab') /\ avl_nodes tab' !! n = Some x
    /\ ((tab' = demo_avl /\ avl_data x ∈ [1; 2; 3; 4; 5] /\ 6 - avl_data x = 0)
        \/ (avl_data x = 6 /\ Forall (fun y => 6 - y <> 0) [1; 2; 3; 4; 5]
            /\ exists l1 l2, [1; 2; 3; 4; 5] = l1 ++ l2 /\ represents Z.sub tab' (l1 ++ 6 :: l2))).
Proof. apply (avl_probe_inserts Z.sub demo_avl [1; 2; 3; 4; 5] 6 92); [exact demo_avl_rep|done|done]. Defined.

Theorem avl_find_correct_witness :
  exists r, avl_find Z.sub 92 demo_avl 4 = Ok r
    /\ match r with Some d => d ∈ [1; 2; 3; 4; 5] /\ 4 - d = 0 | None => Forall (fun x => 4 - x <> 0) [1; 2; 3; 4; 5] end.
Proof. apply (avl_find_correct Z.sub demo_avl [1; 2; 3; 4; 5] 4 92); [exact demo_avl_rep|done|done]. Defined.

Theorem avl_at_or_after_correct_witness :
  exists l1 l2, [1; 2; 3; 4; 5] = l1 ++ l2 /\ Forall (fun x => x - 7 < 0) l1 /\ Forall (fun x => 7 - x <= 0) l2
    /\ avl_at_or_after Z.sub 92 demo_avl 7 = Ok (head l2).
Proof. apply (avl_at_or_after_correct Z.sub demo_avl [1; 2; 3; 4; 5] 7 92); [exact demo_avl_rep|done|done]. Defined.

Theorem avl_t_next_advances_witness :
  exists trav', avl_t_next Z.sub 92 demo_avl (AvlTraverser (Some 5%positive) [] 0) = Ok (Some 5, trav')
    /\ moved_to Z.sub demo_avl trav' [1; 2; 3; 4] [5].
Proof.
  apply (avl_t_next_advances Z.sub 92 demo_avl (AvlTraverser (Some 5%positive) [] 0) [1; 2; 3] 4 [5]); [|done|done].
  exists demo_tree, [3%positive]. split_and!; [exact demo_avl_at|intros H; vm_compute in H; discriminate H|].
  by exists [Frame 3 true 2 1 (Node 2 Leaf 1 0 Leaf)], 5%positive, (Node 1 Leaf 3 0 Leaf), 0, (Node 4 Leaf 5 0 Leaf).
Defined.

Theorem avl_traversal_in_order_witness :
  exists trav, walk Z.sub 6 92 demo_avl (avl_t_init demo_avl) = Ok ([Some 1; Some 2; Some 3; Some 4; Some 5; None], trav)
    /\ at_start demo_avl trav.
Proof. apply (avl_traversal_in_order Z.sub 92 demo_avl [1; 2; 3; 4; 5]); [exact demo_avl_rep|done|done]. Defined.

(** [_marpa_avl_t_first] does not empty the stack of the traverser: called on a
    traverser in use, it leaves the old path there.  In a tree of the items 1, 2 and 3, two
    calls of it, each returning 1 as it should, make [_marpa_avl_t_next] return 2, 3, and then 2
    and 3 again. *)
Theorem avl_t_first_stale :
  (tab ← insert_all 92 avl_create [2; 1; 3];
   r1 ← avl_t_first 92 tab (avl_t_init tab);
   r2 ← avl_t_first 92 tab r1.2;
   w ← walk Z.sub 5 92 tab r2.2;
   Ok (r1.1, r2.1, w.1)) = Ok (Some 1, Some 1, [Some 2; Some 3; Some 2; Some 3; None]).
Proof. vm_compute. reflexivity. Qed.

(** * Comparison functions for the balanced trees

    The comparison functions of libmarpa compare the fields of their arguments one after
    the other: each is the lexicographic order of a list of integers its argument gives. *)

Fixpoint lex_lt (a b : list Z) : bool :=
  match a, b with
  | [], [] => false
  | [], _ :: _ => true
  | _ :: _, [] => false
  | x :: a, y :: b => (x <? y) || ((x =? y) && lex_lt a b)
  end.

Lemma lex_irrefl a : lex_lt a a = false.
Proof. induction a as [|x a IH]; [done|]. simpl. by rewrite Z.ltb_irrefl, Z.eqb_refl, IH. Qed.

Lemma lex_trans a b c : lex_lt a b = true -> lex_lt b c = true -> lex_lt a c = true.
Proof.
  revert b c. induction a as [|x a IH]; intros [|y b] [|z c]; simpl; try done.
  rewrite !orb_true_iff, !andb_true_iff, !Z.ltb_lt, !Z.eqb_eq. intros [?|[-> ?]] [?|[-> ?]]; [left; lia|left; lia|left; lia|].
  right. split; [done|by eapply IH].
Qed.

Lemma lex_total a b : lex_lt a b = false -> lex_lt b a = false -> a = b.
Proof.
  revert b. induction a as [|x a IH]; intros [|y b]; simpl; try done.
  rewrite !orb_false_iff, !andb_false_iff, !Z.ltb_ge, !Z.eqb_neq. intros [? H1] [? H2].
  assert (x = y) as -> by lia. f_equal. apply IH; [by destruct H1|by destruct H2].
Qed.

(** [cmp] compares the lists [key x] and [key y]. *)
Class LexCmp {D : Type} (cmp : D -> D -> Z) (key : D -> list Z) : Prop := {
  lex_neg x y : cmp x y < 0 <-> lex_lt (key x) (key y) = true;
  lex_pos x y : cmp x y > 0 <-> lex_lt (key y) (key x) = true
}.

Section lex.
Context {D : Type} (cmp : D -> D -> Z) (key : D -> list Z) `{!LexCmp cmp key}.

Lemma lex_zero x y : cmp x y = 0 <-> key x = key y.
Proof.
  pose proof (lex_neg x y) as Hn. pose proof (lex_pos x y) as Hp. split.
  - intros Hz. apply lex_total; apply not_true_is_false; rewrite <- ?Hn, <- ?Hp; lia.
  - intros Hk. rewrite Hk, lex_irrefl in Hn, Hp.
    destruct (Z.lt_trichotomy (cmp x y) 0) as [H|[H|H]]; [by apply Hn in H|done|]. apply Z.lt_gt in H. by apply Hp in H.
Qed.

Lemma lex_order : AvlOrder cmp.
Proof.
  split.
  - intros x y. by rewrite lex_neg, lex_pos.
  - intros x y z. rewrite !lex_neg. apply lex_trans.
  - intros x y z Hz%lex_zero. by rewrite !lex_neg, Hz.
Qed.

Lemma lex_sorted_nodup l : StronglySorted (fun x y => cmp x y < 0) l -> NoDup l.
Proof.
  induction 1 as [|x l Hl IH Hx]; constructor; [|done]. rewrite Forall_forall in Hx. intros Hxl. apply Hx in Hxl.
  rewrite (proj2 (lex_zero x x) eq_refl) in Hxl. lia.
Qed.
End lex.

(** ** Insertions, item by item *)
Section insert.
Context {D : Type} `{EqDecision D} (cmp : D -> D -> Z) `{!AvlOrder cmp}.

Lemma represents_count (tab : avl_table) items : represents cmp tab items -> avl_count tab = Z.of_nat (length items).
Proof. intros (t&Hr&<-). apply Hr. Qed.

Lemma represents_empty : represents cmp avl_create [].
Proof. exists Leaf. split; [|done]. split; try done; constructor. Qed.

(** [_marpa_avl_insert] when the item is not in the tree yet, even as another copy. *)
Lemma avl_insert_ok fuel (tab : avl_table) items item :
  represents cmp tab items -> (MARPA_AVL_MAX_HEIGHT <= fuel)%nat -> Z.of_nat (length items) < SIZE_MOD - 1 -> item ∉ items ->
  exists r tab' items', avl_insert cmp fuel tab item = Ok (r, tab') /\ represents cmp tab' items'
    /\ match r with
       | None => Forall (fun y => cmp item y <> 0) items /\ items' ≡ₚ item :: items
       | Some d => d ∈ items /\ cmp item d = 0 /\ items' = items
       end.
Proof.
  intros Hr Hf Hc Hni. pose proof (represents_count tab items Hr) as Hcount.
  destruct (probe_inserts cmp tab items item fuel Hr) as (n&tab'&x&Hp&Hx&Hcase); [lia|done|].
  unfold avl_insert. rewrite Hp. cbn [mbind res_bind fst snd]. rewrite (get_node_Some _ _ _ Hx). cbn [mbind res_bind].
  destruct Hcase as [(->&Hin&Hz)|(Hd&Hall&l1&l2&->&Hr')].
  - rewrite decide_False by congruence. eexists _, tab, items. split_and!; [done|done|]. done.
  - rewrite decide_True by done. eexists _, tab', _. split_and!; [done|exact Hr'|]. split; [done|].
    by rewrite <- Permutation_middle.
Qed.
End insert.

(** ** Values read one after the other *)
Fixpoint vals (f : Z -> Z) (n : nat) (ix : Z) : list Z :=
  match n with O => [] | S n => f ix :: vals f n (ix + 1) end.

Lemma vals_list (f : Z -> Z) l ix : (forall k x, l !! k = Some x -> f (ix + Z.of_nat k) = x) -> vals f (length l) ix = l.
Proof.
  revert ix. induction l as [|x l IH]; intros ix Hf; [done|]. simpl. f_equal.
  - rewrite <- (Z.add_0_r ix). by apply (Hf 0%nat).
  - apply IH. intros k y Hk. rewrite <- (Hf (S k) y Hk). f_equal. lia.
Qed.
