(* ===== verification/Dstack.v ===== *)
(** * The dynamic stacks of libmarpa ([libmarpa-dist/marpa_ami.h])

    [struct marpa_dstack_s]: a count, a capacity and a base.  Here the base is the list of
    the cells allocated, so the capacity is its length; cells that [realloc()] adds hold
    [junk]. *)
From S2P Require Import Prelude.

Section dstack.
Context {A : Type}.
Variable junk : A.

Record marpa_dstack : Type := DSTACK { t_count : Z; t_base : list A }.

Definition t_capacity (s : marpa_dstack) : Z := Z.of_nat (length (t_base s)).

Definition MARPA_DSTACK_INIT (initial_size : Z) : marpa_dstack := DSTACK 0 (replicate (Z.to_nat initial_size) junk).
Definition MARPA_DSTACK_CLEAR (s : marpa_dstack) : marpa_dstack := DSTACK 0 (t_base s).
Definition MARPA_DSTACK_LENGTH (s : marpa_dstack) : Z := t_count s.

Definition marpa_dstack_resize (s : marpa_dstack) (new_size : Z) : marpa_dstack :=
  if new_size >? t_capacity s then DSTACK (t_count s) (resize (Z.to_nat new_size) junk (t_base s)) else s.

Definition marpa_dstack_resize2 (s : marpa_dstack) : marpa_dstack := marpa_dstack_resize s (to_int (t_capacity s * 2)).

(** [*MARPA_DSTACK_PUSH(s, type) = x] *)
Definition MARPA_DSTACK_PUSH (s : marpa_dstack) (x : A) : res marpa_dstack :=
  let s := if t_count s >=? t_capacity s then marpa_dstack_resize2 s else s in
  l ← wr (t_base s) (t_count s) x;
  Ok (DSTACK (t_count s + 1) l).

(** The cell popped, [None] for [NULL]. *)
Definition MARPA_DSTACK_POP (s : marpa_dstack) : res (option A * marpa_dstack) :=
  if t_count s <=? 0 then Ok (None, s)
  else x ← rd (t_base s) (t_count s - 1); Ok (Some x, DSTACK (t_count s - 1) (t_base s)).

(** [*MARPA_DSTACK_INDEX(s, type, ix)], read and written *)
Definition MARPA_DSTACK_INDEX (s : marpa_dstack) (ix : Z) : res A := rd (t_base s) ix.
Definition dstack_set (s : marpa_dstack) (ix : Z) (x : A) : res marpa_dstack := l ← wr (t_base s) ix x; Ok (DSTACK (t_count s) l).

Definition MARPA_DSTACK_TOP (s : marpa_dstack) : res (option A) :=
  if t_count s <=? 0 then Ok None else x ← rd (t_base s) (t_count s - 1); Ok (Some x).

(** A stack that only grows, as the list of its items.  Its capacity starts at a power of two
    ([MARPA_DSTACK_INIT2]: 1024 bytes over the 16 of the structure) and doubles whenever the
    stack is full, so that it is full with 2^30 items and the next capacity is not an [int]. *)
Definition DSTACK_MAX : Z := 2 ^ 30.
Definition dstack_push (l : list A) (x : A) : res (list A) := if Z.of_nat (length l) <? DSTACK_MAX then Ok (l ++ [x]) else Fault.

Lemma dstack_push_room l x : Z.of_nat (length l) < DSTACK_MAX -> dstack_push l x = Ok (l ++ [x]).
Proof. intros Hl. unfold dstack_push. by rewrite (proj2 (Z.ltb_lt _ _) Hl). Qed.

(** ** What a stack holds *)
Record dstack_rep (s : marpa_dstack) (l : list A) : Prop := {
  ds_count : t_count s = Z.of_nat (length l);
  ds_items : take (length l) (t_base s) = l;
  ds_room : 0 < t_capacity s <= INT_MAX
}.

Lemma ds_length s l : dstack_rep s l -> (length l <= length (t_base s))%nat.
Proof. intros Hs. rewrite <- (ds_items _ _ Hs) at 1. rewrite length_take. lia. Qed.

Lemma ds_lookup s l i : dstack_rep s l -> (i < length l)%nat -> t_base s !! i = l !! i.
Proof. intros Hs Hi. rewrite <- (ds_items _ _ Hs) at 1. by rewrite lookup_take_lt. Qed.

Lemma dstack_init_ok n : 0 < n <= INT_MAX -> dstack_rep (MARPA_DSTACK_INIT n) [].
Proof. intros Hn. split; [done|done|]. unfold t_capacity, MARPA_DSTACK_INIT. cbn [t_base]. rewrite length_replicate. lia. Qed.

Lemma dstack_clear_ok s l : dstack_rep s l -> dstack_rep (MARPA_DSTACK_CLEAR s) [].
Proof. intros [_ _ Hr]. split; [done|done|]. exact Hr. Qed.

(** The capacity doubles when the stack is full, as long as it stays an [int]. *)
Lemma dstack_push_ok s l x :
  dstack_rep s l -> 2 * Z.of_nat (length l) <= INT_MAX ->
  exists s', MARPA_DSTACK_PUSH s x = Ok s' /\ dstack_rep s' (l ++ [x]) /\ t_capacity s <= t_capacity s'.
Proof.
  intros Hs Hroom. pose proof (ds_length _ _ Hs) as Hlen. pose proof Hs as [Hc Hi Hr]. unfold MARPA_DSTACK_PUSH.
  assert (exists s1, (if t_count s >=? t_capacity s then marpa_dstack_resize2 s else s) = s1 /\ dstack_rep s1 l
            /\ (length l < length (t_base s1))%nat /\ t_capacity s <= t_capacity s1) as (s1&->&Hs1&Hlt&Hgrow).
  { destruct (Z.geb_spec (t_count s) (t_capacity s)) as [Hge|Hlt]; [|exists s; unfold t_capacity in *; split_and!; [done|done|lia|lia]].
    unfold t_capacity in *. assert (length (t_base s) = length l) as El by lia. unfold marpa_dstack_resize2, marpa_dstack_resize, t_capacity.
    rewrite to_int_small by (unfold is_int, INT_MIN, INT_MAX in *; lia).
    destruct (Z.gtb_spec (Z.of_nat (length (t_base s)) * 2) (Z.of_nat (length (t_base s)))); [|lia].
    eexists. split; [reflexivity|]. split; [split|split].
    - done.
    - cbn [t_base]. rewrite resize_ge by lia. rewrite take_app_le by lia. done.
    - unfold t_capacity. cbn [t_base]. rewrite length_resize. lia.
    - cbn [t_base]. rewrite length_resize. lia.
    - cbn [t_base]. rewrite length_resize. lia. }
  pose proof Hs1 as [Hc1 Hi1 Hr1]. rewrite wr_total by lia. cbn [mbind res_bind]. eexists. split; [done|].
  split; [|unfold t_capacity in *; cbn [t_base]; by rewrite length_insert]. split; cbn [t_count t_base].
  - rewrite length_app. simpl. lia.
  - rewrite Hc1, Nat2Z.id, length_app. simpl. rewrite Nat.add_1_r. erewrite take_S_r by (by apply list_lookup_insert_eq).
    rewrite take_insert_ge by lia. by rewrite Hi1.
  - unfold t_capacity in *. cbn [t_base]. by rewrite length_insert.
Qed.

(** Push and pop are inverse. *)
Lemma dstack_pop_ok s l x : dstack_rep s (l ++ [x]) -> exists s', MARPA_DSTACK_POP s = Ok (Some x, s') /\ dstack_rep s' l.
Proof.
  intros Hs. pose proof (ds_length _ _ Hs) as Hlen. pose proof Hs as [Hc Hi Hr]. rewrite length_app in *. simpl in *.
  unfold MARPA_DSTACK_POP. destruct (Z.leb_spec (t_count s) 0); [lia|].
  assert (rd (t_base s) (t_count s - 1) = Ok x) as ->.
  { apply rd_Ok. split; [lia|]. replace (Z.to_nat (t_count s - 1)) with (length l) by lia.
    rewrite (ds_lookup _ _ _ Hs) by (rewrite length_app; simpl; lia). by rewrite lookup_app_r, Nat.sub_diag by lia. }
  cbn [mbind res_bind]. eexists. split; [done|]. split; cbn [t_count t_base]; [lia| |done].
  rewrite Nat.add_1_r in Hi. assert (take (length l) (take (S (length l)) (t_base s)) = l) as Ht.
  { rewrite Hi. by rewrite take_app_length. }
  rewrite take_take in Ht. by replace (length l `min` S (length l))%nat with (length l) in Ht by lia.
Qed.

Lemma dstack_pop_empty s : dstack_rep s [] -> MARPA_DSTACK_POP s = Ok (None, s).
Proof. intros [Hc _ _]. unfold MARPA_DSTACK_POP. by rewrite Hc. Qed.

Lemma dstack_set_ok s l i x :
  dstack_rep s l -> 0 <= i < Z.of_nat (length l) -> exists s', dstack_set s i x = Ok s' /\ dstack_rep s' (<[Z.to_nat i := x]> l).
Proof.
  intros Hs Hil. pose proof (ds_length _ _ Hs) as Hlen. destruct Hs as [Hc Hi Hr]. unfold dstack_set. rewrite wr_total by lia.
  cbn [mbind res_bind]. eexists. split; [done|]. split; cbn [t_count t_base].
  - by rewrite length_insert.
  - rewrite length_insert, take_insert_lt by lia. by rewrite Hi.
  - unfold t_capacity in *. cbn [t_base]. by rewrite length_insert.
Qed.
End dstack.
