(* ===== verification/BitVector.v ===== *)
(** * The bit vectors of libmarpa ([libmarpa-dist/marpa.c], "bit vectors" and "boolean
    vectors")

    A [Bit_Vector] is a pointer to the first data word of an array of 32-bit words; the
    three words before it are the number of bits, the number of data words, and the mask of
    the bits in use in the last one.  Here: the array and the index of the first data word.
    An operation that writes returns the array as it leaves it. *)
From S2P Require Import Prelude.

Definition bv_wordbits : Z := 32.
Definition bv_modmask : Z := 31.
Definition bv_hiddenwords : Z := 3.
Definition bv_lsb : Z := 1.

(** [~w], [w << k] on [LBW] *)
Definition lbw_not (w : Z) : Z := to_uint (Z.lnot w).
Definition lbw_shl (w k : Z) : Z := to_uint (Z.shiftl w k).

Record Bit_Vector : Type := BV { bv_words : list Z; bv_base : Z }.

Definition bv_set_words (v : Bit_Vector) (l : list Z) : Bit_Vector := BV l (bv_base v).

Definition BV_BITS (v : Bit_Vector) : res Z := rd (bv_words v) (bv_base v - 3).
Definition BV_SIZE (v : Bit_Vector) : res Z := rd (bv_words v) (bv_base v - 2).
Definition BV_MASK (v : Bit_Vector) : res Z := rd (bv_words v) (bv_base v - 1).

(** [while(n--) *p++ = body]: the body gives the word to store at [p + k]. *)
Fixpoint word_loop (n : nat) (k : Z) (body : Z -> list Z -> res Z) (p : Z) (l : list Z) : res (list Z) :=
  match n with
  | O => Ok l
  | S n =>
    w ← body k l;
    l ← wr l (p + k) w;
    word_loop n (k + 1) body p l
  end.

(** ** Vectors without a header *)

Definition lbv_bits_to_size (bits : Z) : Z := to_int (to_uint (to_uint bits + (bv_wordbits - 1)) / bv_wordbits).

(** [marpa_obs_new()] does not clear: [junk] is what the words hold. *)
Definition lbv_obs_new (junk : list Z) (bits : Z) : list Z := resize (Z.to_nat (lbv_bits_to_size bits)) 0 junk.

Definition lbv_zero (lbv : list Z) (bits : Z) : res (list Z) :=
  let size := lbv_bits_to_size bits in
  if size >? 0 then word_loop (Z.to_nat size) 0 (fun _ _ => Ok 0) 0 lbv else Ok lbv.

Definition lbv_obs_new0 (junk : list Z) (bits : Z) : res (list Z) := lbv_zero (lbv_obs_new junk bits) bits.

Definition lbv_clone (junk old_lbv : list Z) (bits : Z) : res (list Z) :=
  let size := lbv_bits_to_size bits in
  let new_lbv := lbv_obs_new junk bits in
  if size >? 0 then word_loop (Z.to_nat size) 0 (fun k _ => rd old_lbv k) 0 new_lbv else Ok new_lbv.

Definition lbv_fill (lbv : list Z) (bits : Z) : res (list Z) :=
  let size := lbv_bits_to_size bits in
  if size >? 0 then word_loop (Z.to_nat size) 0 (fun _ _ => Ok (lbw_not 0)) 0 lbv else Ok lbv.

(** ** Vectors with a header *)

Definition bv_bits_to_size (bits : Z) : Z := to_uint (to_uint bits + bv_modmask) / bv_wordbits.

Definition bv_bits_to_unused_mask (bits : Z) : Z :=
  let mask := Z.land (to_uint bits) bv_modmask in
  if negb (mask =? 0) then to_uint (Z.lnot (Z.shiftl (Z.lnot 0) mask)) else to_uint (Z.lnot 0).

(** The memory comes from [my_malloc0()]: cleared. *)
Definition bv_create (bits : Z) : Bit_Vector :=
  let size := bv_bits_to_size bits in
  BV ([to_uint bits; size; bv_bits_to_unused_mask bits] ++ replicate (Z.to_nat size) 0) bv_hiddenwords.

(** The memory comes from an obstack, and the words are cleared in turn. *)
Definition bv_obs_create (junk : list Z) (bits : Z) : res Bit_Vector :=
  let size := bv_bits_to_size bits in
  let addr := [to_uint bits; size; bv_bits_to_unused_mask bits] ++ resize (Z.to_nat size) 0 junk in
  l ← (if size >? 0 then word_loop (Z.to_nat size) 0 (fun _ _ => Ok 0) bv_hiddenwords addr else Ok addr);
  Ok (BV l bv_hiddenwords).

Definition bv_shadow (bv : Bit_Vector) : res Bit_Vector := bits ← BV_BITS bv; Ok (bv_create (to_int bits)).
Definition bv_obs_shadow (junk : list Z) (bv : Bit_Vector) : res Bit_Vector := bits ← BV_BITS bv; bv_obs_create junk (to_int bits).

Definition bv_copy (bv_to bv_from : Bit_Vector) : res Bit_Vector :=
  bits ← BV_BITS bv_to;
  if bits >? 0 then
    count ← BV_SIZE bv_to;
    l ← word_loop (Z.to_nat count) 0 (fun k _ => rd (bv_words bv_from) (bv_base bv_from + k)) (bv_base bv_to) (bv_words bv_to);
    Ok (bv_set_words bv_to l)
  else Ok bv_to.

Definition bv_clone (bv : Bit_Vector) : res Bit_Vector := new ← bv_shadow bv; bv_copy new bv.
Definition bv_obs_clone (junk : list Z) (bv : Bit_Vector) : res Bit_Vector := new ← bv_obs_shadow junk bv; bv_copy new bv.

(** [--bv; *bv &= BV_MASK(bv)]: at that point [bv] is the last word, and the macro reads
    the word before it. *)
Definition bv_fill (bv : Bit_Vector) : res Bit_Vector :=
  size ← BV_SIZE bv;
  if size <=? 0 then Ok bv
  else
    l ← word_loop (Z.to_nat size) 0 (fun _ _ => Ok (lbw_not 0)) (bv_base bv) (bv_words bv);
    let last := BV l (bv_base bv + size - 1) in
    w ← rd l (bv_base last);
    mask ← BV_MASK last;
    l ← wr l (bv_base last) (Z.land w mask);
    Ok (bv_set_words bv l).

Definition bv_clear (bv : Bit_Vector) : res Bit_Vector :=
  size ← BV_SIZE bv;
  if size <=? 0 then Ok bv
  else
    l ← word_loop (Z.to_nat size) 0 (fun _ _ => Ok 0) (bv_base bv) (bv_words bv);
    Ok (bv_set_words bv l).

Definition bv_over_clear (bv : Bit_Vector) (raw_bit : Z) : res Bit_Vector :=
  let bit := to_uint raw_bit in
  let length := to_uint (bit / bv_wordbits + 1) in
  l ← word_loop (Z.to_nat length) 0 (fun _ _ => Ok 0) (bv_base bv) (bv_words bv);
  Ok (bv_set_words bv l).

Definition bv_bit_set (vector : Bit_Vector) (raw_bit : Z) : res Bit_Vector :=
  let bit := to_uint raw_bit in
  let p := bv_base vector + bit / bv_wordbits in
  w ← rd (bv_words vector) p;
  l ← wr (bv_words vector) p (Z.lor w (lbw_shl bv_lsb (bit mod bv_wordbits)));
  Ok (bv_set_words vector l).

Definition bv_bit_clear (vector : Bit_Vector) (raw_bit : Z) : res Bit_Vector :=
  let bit := to_uint raw_bit in
  let p := bv_base vector + bit / bv_wordbits in
  w ← rd (bv_words vector) p;
  l ← wr (bv_words vector) p (Z.land w (lbw_not (lbw_shl bv_lsb (bit mod bv_wordbits))));
  Ok (bv_set_words vector l).

Definition bv_bit_test (vector : Bit_Vector) (raw_bit : Z) : res bool :=
  let bit := to_uint raw_bit in
  w ← rd (bv_words vector) (bv_base vector + bit / bv_wordbits);
  Ok (negb (Z.land w (lbw_shl bv_lsb (bit mod bv_wordbits)) =? 0)).

Definition bv_bit_test_then_set (vector : Bit_Vector) (raw_bit : Z) : res (bool * Bit_Vector) :=
  let bit := to_uint raw_bit in
  let addr := bv_base vector + bit / bv_wordbits in
  let mask := lbw_shl bv_lsb (bit mod bv_wordbits) in
  w ← rd (bv_words vector) addr;
  if negb (Z.land w mask =? 0) then Ok (true, vector)
  else l ← wr (bv_words vector) addr (Z.lor w mask); Ok (false, bv_set_words vector l).

(** [while(r && (size-- > 0)) r = *addr++ == 0] *)
Fixpoint is_empty_loop (size : nat) (l : list Z) (p : Z) : res bool :=
  match size with
  | O => Ok true
  | S size => w ← rd l p; if w =? 0 then is_empty_loop size l (p + 1) else Ok false
  end.

Definition bv_is_empty (addr : Bit_Vector) : res (bool * Bit_Vector) :=
  size ← BV_SIZE addr;
  if size >? 0 then
    let last := bv_base addr + size - 1 in
    w ← rd (bv_words addr) last;
    mask ← BV_MASK addr;
    l ← wr (bv_words addr) last (Z.land w mask);
    r ← is_empty_loop (Z.to_nat size) l (bv_base addr);
    Ok (r, bv_set_words addr l)
  else Ok (true, addr).

(** [*(--X) &= mask], [X] being past the last word *)
Definition mask_last (X : Bit_Vector) (size mask : Z) (l : list Z) : res Bit_Vector :=
  let last := bv_base X + size - 1 in
  w ← rd l last;
  l ← wr l last (Z.land w mask);
  Ok (bv_set_words X l).

Definition bv_not (X Y : Bit_Vector) : res Bit_Vector :=
  size ← BV_SIZE X;
  mask ← BV_MASK X;
  l ← word_loop (Z.to_nat size) 0 (fun k _ => y ← rd (bv_words Y) (bv_base Y + k); Ok (lbw_not y)) (bv_base X) (bv_words X);
  mask_last X size mask l.

Definition bv_and (X Y Z : Bit_Vector) : res Bit_Vector :=
  size ← BV_SIZE X;
  mask ← BV_MASK X;
  l ← word_loop (Z.to_nat size) 0 (fun k _ =>
         y ← rd (bv_words Y) (bv_base Y + k); z ← rd (bv_words Z) (bv_base Z + k); Ok (Z.land y z)) (bv_base X) (bv_words X);
  mask_last X size mask l.

Definition bv_or (X Y Z : Bit_Vector) : res Bit_Vector :=
  size ← BV_SIZE X;
  mask ← BV_MASK X;
  l ← word_loop (Z.to_nat size) 0 (fun k _ =>
         y ← rd (bv_words Y) (bv_base Y + k); z ← rd (bv_words Z) (bv_base Z + k); Ok (Z.lor y z)) (bv_base X) (bv_words X);
  mask_last X size mask l.

(** Two vectors of the same array: [Y] is the index of the second one. *)
Definition bv_or_assign (X : Bit_Vector) (Y : Z) : res Bit_Vector :=
  size ← BV_SIZE X;
  mask ← BV_MASK X;
  l ← word_loop (Z.to_nat size) 0 (fun k l => x ← rd l (bv_base X + k); y ← rd l (Y + k); Ok (Z.lor x y)) (bv_base X) (bv_words X);
  mask_last X size mask l.

(** ** Scanning *)

(** [while(empty && (--size > 0)) { if((value = f( *bv++))) empty = 0; else offset++; }] on
    [(bv, size, offset, value)]; the first component is [empty]. *)
Fixpoint scan_words (size : nat) (f : Z -> Z) (l : list Z) (bv offset value : Z) : res (bool * (Z * nat * Z * Z)) :=
  match size with
  | O => NoFuel
  | S size =>
    match size with
    | O => Ok (true, (bv, O, offset, value))
    | S _ =>
      w ← rd l bv;
      let value := f w in
      if negb (value =? 0) then Ok (false, (bv + 1, size, offset, value))
      else scan_words size f l (bv + 1) (offset + 1) value
    end
  end.

(** [while(!(mask & bv_lsb)) { bitmask <<= 1; mask >>= 1; start++; }]: the new [bitmask]
    and [start]. *)
Fixpoint scan_low (fuel : nat) (mask bitmask start : Z) : res (Z * Z) :=
  if Z.land mask bv_lsb =? 0 then
    match fuel with
    | O => NoFuel
    | S fuel => scan_low fuel (Z.shiftr mask 1) (lbw_shl bitmask 1) (to_uint (start + 1))
    end
  else Ok (bitmask, start).

(** The part of the function from [value = ~value] on: the end of the run. *)
Definition scan_end (l : list Z) (bv : Z) (size : nat) (offset value mask min : Z) : res (Z * Z) :=
  let value := Z.land (lbw_not value) mask in
  r ← (if value =? 0 then
         r ← scan_words size lbw_not l bv (offset + 1) value;
         let '(empty, (_, _, offset, value)) := r in
         Ok (offset, if empty : bool then bv_lsb else value)
       else Ok (offset, value));
  let '(offset, value) := r in
  r ← scan_low 32 value 0 (to_uint (offset * bv_wordbits));
  let max := to_uint (r.2 - 1) in
  Ok (to_int min, to_int max).

(** The result, with what is stored in [*raw_min] and [*raw_max]: nothing, when it returns
    early. *)
Definition bv_scan (bv : Bit_Vector) (raw_start : Z) : res (Bit_Vector * bool * option (Z * Z)) :=
  let start := to_uint raw_start in
  size ← BV_SIZE bv;
  mask ← BV_MASK bv;
  bits ← BV_BITS bv;
  if size =? 0 then Ok (bv, false, None)
  else if start >=? bits then Ok (bv, false, None)
  else
    let offset := start / bv_wordbits in
    w ← rd (bv_words bv) (bv_base bv + size - 1);
    l ← wr (bv_words bv) (bv_base bv + size - 1) (Z.land w mask);
    let v := bv_set_words bv l in
    let size := Z.to_nat (to_uint (size - offset)) in
    let bitmask := lbw_shl 1 (Z.land start bv_modmask) in
    let mask := lbw_not (Z.lor bitmask (to_uint (bitmask - 1))) in
    value ← rd l (bv_base bv + offset);
    let p := bv_base bv + offset + 1 in
    if Z.land value bitmask =? 0 then
      let value := Z.land value mask in
      r ← (if value =? 0 then scan_words size id l p (offset + 1) value else Ok (false, (p, size, offset, value)));
      let '(empty, (p, size, offset, value)) := r in
      if empty : bool then Ok (v, false, Some (to_int start, to_int start))
      else
        r ← scan_low 32 value bv_lsb (to_uint (offset * bv_wordbits));
        let '(bitmask, start) := r in
        let mask := lbw_not (Z.lor bitmask (to_uint (bitmask - 1))) in
        r ← scan_end l p size offset value mask start;
        Ok (v, true, Some r)
    else
      r ← scan_end l p size offset value mask start;
      Ok (v, true, Some r).

(** The idiom
    [for(start = 0; bv_scan(bv, start, &min, &max); start = max + 2)
       for(id = min; id <= max; id++) body] *)
Fixpoint bv_for_each {A} (fuel : nat) (bv : Bit_Vector) (start : Z) (body : Z -> A -> res A) (acc : A) : res (Bit_Vector * A) :=
  r ← bv_scan bv start;
  match r with
  | (bv, true, Some (min, max)) =>
    match fuel with
    | O => NoFuel
    | S fuel =>
      acc ← for_res (Z.to_nat (max - min + 1)) min body acc;
      bv_for_each fuel bv (max + 2) body acc
    end
  | (bv, _, _) => Ok (bv, acc)
  end.

Fixpoint bv_count_loop (fuel : nat) (v : Bit_Vector) (start count : Z) : res (Z * Bit_Vector) :=
  r ← bv_scan v start;
  match r with
  | (v, true, Some (min, max)) =>
    match fuel with
    | O => NoFuel
    | S fuel => bv_count_loop fuel v (max + 2) (count + (max - min + 1))
    end
  | (v, _, _) => Ok (count, v)
  end.

Definition bv_count (fuel : nat) (v : Bit_Vector) : res (Z * Bit_Vector) := bv_count_loop fuel v 0 0.
