(* ===== verification/BitVectorTheorems.v ===== *)
(** * What a bit vector contains

    A vector of [n] bits represents a finite set of numbers below [n].  The operations are
    those on sets; the words outside the vector, in its array, are left alone. *)
From stdpp Require Import sets gmap list_numbers.
From S2P Require Import Prelude BitVector.

(** ** Words *)
Lemma uint_testbit w j : 0 <= j < 32 -> Z.testbit (to_uint w) j = Z.testbit w j.
Proof. intros. unfold to_uint, UINT_MOD. apply Z.mod_pow2_bits_low. lia. Qed.

Lemma uint_range w : 0 <= to_uint w < UINT_MOD.
Proof. apply Z.mod_pos_bound. done. Qed.

Lemma to_uint_idem w : to_uint (to_uint w) = to_uint w.
Proof. apply to_uint_small, uint_range. Qed.

Lemma word_bits_high w j : 0 <= w < UINT_MOD -> 32 <= j -> Z.testbit w j = false.
Proof.
  intros Hw Hj. rewrite <- (Z.mod_small w (2 ^ 32)) by (unfold UINT_MOD in Hw; lia). apply Z.mod_pow2_bits_high. lia.
Qed.

Lemma word_zero w : 0 <= w < UINT_MOD -> (w = 0 <-> forall j, 0 <= j < 32 -> Z.testbit w j = false).
Proof.
  intros Hw. split; [intros ->; intros; apply Z.bits_0|]. intros Hb. apply Z.bits_inj'. intros j Hj. rewrite Z.bits_0.
  destruct (decide (j < 32)); [apply Hb; lia|]. apply word_bits_high; [done|lia].
Qed.

Lemma land_range w m : 0 <= w < UINT_MOD -> 0 <= m -> 0 <= Z.land w m < UINT_MOD.
Proof.
  intros Hw Hm. split; [apply Z.land_nonneg; lia|].
  destruct (decide (Z.land w m = 0)) as [->|]; [done|]. unfold UINT_MOD in *.
  apply Z.log2_lt_pow2; [pose proof (Z.land_nonneg w m); lia|].
  eapply Z.le_lt_trans; [apply Z.log2_land; lia|].
  destruct (decide (w = 0)) as [->|]; [by rewrite Z.land_0_l in *|].
  eapply Z.le_lt_trans; [apply Z.le_min_l|]. apply Z.log2_lt_pow2; lia.
Qed.

Lemma lor_range w m : 0 <= w < UINT_MOD -> 0 <= m < UINT_MOD -> 0 <= Z.lor w m < UINT_MOD.
Proof.
  intros Hw Hm. split; [apply Z.lor_nonneg; lia|]. unfold UINT_MOD in *.
  destruct (decide (Z.lor w m = 0)) as [->|]; [done|].
  apply Z.log2_lt_pow2; [pose proof (Z.lor_nonneg w m); lia|]. rewrite Z.log2_lor by lia.
  assert (forall x, 0 <= x < 2 ^ 32 -> Z.log2 x < 32) as Hl.
  { intros x Hx. destruct (decide (x = 0)) as [->|]; [done|]. apply Z.log2_lt_pow2; lia. }
  apply Z.max_lub_lt; apply Hl; lia.
Qed.

Lemma lbw_not_testbit w j : 0 <= j < 32 -> Z.testbit (lbw_not w) j = negb (Z.testbit w j).
Proof. intros. unfold lbw_not. rewrite uint_testbit by done. apply Z.lnot_spec. lia. Qed.

Lemma lbw_shl_one k : 0 <= k < 32 -> lbw_shl 1 k = 2 ^ k.
Proof.
  intros. unfold lbw_shl. rewrite Z.shiftl_1_l. apply to_uint_small. split; [lia|]. apply Z.pow_lt_mono_r; lia.
Qed.

Lemma pow2_range k : 0 <= k < 32 -> 0 <= 2 ^ k < UINT_MOD.
Proof. intros. split; [lia|]. apply Z.pow_lt_mono_r; lia. Qed.

(** The word [2 ^ k] tests bit [k]. *)
Lemma land_pow2 w k : 0 <= k -> (Z.land w (2 ^ k) =? 0) = negb (Z.testbit w k).
Proof.
  intros Hk. destruct (Z.testbit w k) eqn:E; simpl.
  - apply Z.eqb_neq. intros Hz. apply (f_equal (fun x => Z.testbit x k)) in Hz.
    rewrite Z.land_spec, Z.pow2_bits_eqb, Z.eqb_refl, E, Z.bits_0 in Hz by done. done.
  - apply Z.eqb_eq, Z.bits_inj'. intros j Hj. rewrite Z.land_spec, Z.pow2_bits_eqb, Z.bits_0 by done.
    destruct (Z.eqb_spec k j) as [<-|]; [by rewrite E|by rewrite andb_false_r].
Qed.

(** [~(bitmask | (bitmask - 1))]: the bits above [k]. *)
Lemma above_testbit k j : 0 <= k < 32 -> 0 <= j < 32 ->
  Z.testbit (lbw_not (Z.lor (2 ^ k) (to_uint (2 ^ k - 1)))) j = (k <? j).
Proof.
  intros Hk Hj. rewrite lbw_not_testbit, Z.lor_spec, Z.pow2_bits_eqb by lia.
  rewrite to_uint_small by (pose proof (pow2_range k Hk); assert (0 < 2 ^ k) by (apply Z.pow_pos_nonneg; lia); lia).
  change (2 ^ k - 1) with (Z.pred (2 ^ k)). rewrite <- Z.ones_equiv.
  rewrite Z.testbit_ones_nonneg by lia.
  destruct (Z.eqb_spec k j), (Z.ltb_spec j k), (Z.ltb_spec k j); simpl; try done; lia.
Qed.

Lemma above_range k : 0 <= lbw_not (Z.lor (2 ^ k) (to_uint (2 ^ k - 1))) < UINT_MOD.
Proof. apply uint_range. Qed.

(** ** Representation *)

Definition bv_size (n : Z) : Z := (n + 31) / 32.

(** [w] is the word [k] of [S]. *)
Definition word_of (S : gset Z) (k w : Z) : Prop :=
  0 <= w < UINT_MOD /\ forall j, 0 <= j < 32 -> Z.testbit w j = bool_decide (32 * k + j ∈ S).

Record bv_rep (v : Bit_Vector) (n : Z) (S : gset Z) : Prop := {
  br_n : 0 <= n <= INT_MAX;
  br_base : 3 <= bv_base v;
  br_bound : bv_base v + bv_size n <= Z.of_nat (length (bv_words v));
  br_bits : BV_BITS v = Ok n;
  br_size : BV_SIZE v = Ok (bv_size n);
  br_mask : BV_MASK v = Ok (bv_bits_to_unused_mask n);
  br_words k : 0 <= k < bv_size n -> exists w, rd (bv_words v) (bv_base v + k) = Ok w /\ word_of S k w;
  br_elems i : i ∈ S -> 0 <= i < n
}.

(** The words of [v'] other than the data words of [v] are those of [v]. *)
Definition bv_same (v v' : Bit_Vector) (n : Z) : Prop :=
  bv_base v' = bv_base v /\ length (bv_words v') = length (bv_words v)
  /\ forall i, i < bv_base v \/ bv_base v + bv_size n <= i -> rd (bv_words v') i = rd (bv_words v) i.

Lemma bv_same_refl v n : bv_same v v n.
Proof. done. Qed.

Lemma bv_same_trans v1 v2 v3 n : bv_same v1 v2 n -> bv_same v2 v3 n -> bv_same v1 v3 n.
Proof.
  intros (Hb1&Hl1&Hf1) (Hb2&Hl2&Hf2). split_and!; [congruence|congruence|].
  intros i Hi. rewrite Hf2 by (rewrite Hb1; lia). by apply Hf1.
Qed.

Lemma bv_size_bounds n : 0 <= n -> 0 <= bv_size n /\ 32 * (bv_size n - 1) < n <= 32 * bv_size n.
Proof.
  unfold bv_size. intros. pose proof (Z.div_mod (n + 31) 32). pose proof (Z.mod_pos_bound (n + 31) 32). lia.
Qed.

Lemma word_index n i : 0 <= i < n -> 0 <= i / 32 < bv_size n.
Proof.
  intros. unfold bv_size. split; [apply Z.div_pos; lia|]. pose proof (Z.div_mod i 32). pose proof (Z.mod_pos_bound i 32).
  pose proof (Z.div_mod (n + 31) 32). pose proof (Z.mod_pos_bound (n + 31) 32). lia.
Qed.

Lemma uint_of_int i : 0 <= i <= INT_MAX -> to_uint i = i.
Proof. intros. apply to_uint_small. unfold INT_MAX, UINT_MOD in *. lia. Qed.

(** A vector whose header is that of [v]. *)
Lemma bv_rep_words v v' n S S' :
  bv_rep v n S -> bv_same v v' n ->
  (forall k, 0 <= k < bv_size n -> exists w, rd (bv_words v') (bv_base v + k) = Ok w /\ word_of S' k w) ->
  (forall i, i ∈ S' -> 0 <= i < n) -> bv_rep v' n S'.
Proof.
  intros [Hn Hb Hbd Hbits Hsz Hm _ _] (Hbe&Hl&Hf) Hw He. split; try done.
  - by rewrite Hbe.
  - by rewrite Hbe, Hl.
  - unfold BV_BITS in *. rewrite Hbe, Hf by lia. done.
  - unfold BV_SIZE in *. rewrite Hbe, Hf by lia. done.
  - unfold BV_MASK in *. rewrite Hbe, Hf by lia. done.
  - by rewrite Hbe.
Qed.

(** One word written. *)
Lemma bv_rep_write v n S S' k w' :
  bv_rep v n S -> 0 <= k < bv_size n -> word_of S' k w' ->
  (forall i, 0 <= i -> i / 32 <> k -> i ∈ S' <-> i ∈ S) -> (forall i, i ∈ S' -> 0 <= i < n) ->
  exists l, wr (bv_words v) (bv_base v + k) w' = Ok l /\ bv_rep (bv_set_words v l) n S' /\ bv_same v (bv_set_words v l) n.
Proof.
  intros Hv Hk Hw' HS He. pose proof Hv as [Hn Hb Hbd _ _ _ Hw _].
  eexists. split; [apply wr_total; lia|]. set (v' := bv_set_words _ _).
  assert (bv_same v v' n) as Hs.
  { split_and!; [done|simpl; by rewrite length_insert|]. intros i Hi. simpl. rewrite rd_wr_ne; [done|lia|lia]. }
  split; [|done]. eapply bv_rep_words; [done|done| |done]. intros k' Hk'. simpl.
  destruct (decide (k' = k)) as [->|Hne]; [exists w'; split; [apply rd_wr_eq; lia|done]|].
  rewrite rd_wr_ne by lia. destruct (Hw k' Hk') as (w&Hr&Hwr&Hwb). exists w. split; [done|]. split; [done|].
  intros j Hj. rewrite Hwb by done. apply bool_decide_ext. symmetry. apply HS; [lia|].
  rewrite (Z.add_comm (32 * k') j), (Z.mul_comm 32), Z.div_add, (Z.div_small j) by lia. lia.
Qed.

Lemma index_eq k j i : 0 <= j < 32 -> 32 * k + j = i <-> i / 32 = k /\ i mod 32 = j.
Proof. intros. pose proof (Z.div_mod i 32). pose proof (Z.mod_pos_bound i 32). split; [|lia].
  intros <-. rewrite (Z.add_comm (32 * k) j), (Z.mul_comm 32), Z.div_add, Z.mod_add, Z.div_small, Z.mod_small by lia. lia. Qed.

Lemma bit_read v n S i :
  bv_rep v n S -> 0 <= i < n ->
  exists w, to_uint i = i /\ rd (bv_words v) (bv_base v + i / 32) = Ok w /\ word_of S (i / 32) w
    /\ 0 <= i mod 32 < 32 /\ lbw_shl bv_lsb (i mod 32) = 2 ^ (i mod 32) /\ Z.testbit w (i mod 32) = bool_decide (i ∈ S).
Proof.
  intros Hv Hi. destruct (br_words _ _ _ Hv (i / 32)) as (w&Hr&Hw); [by apply word_index|].
  pose proof (Z.mod_pos_bound i 32). pose proof (br_n _ _ _ Hv). exists w. split_and!; try done; try lia.
  - apply uint_of_int. lia.
  - apply (lbw_shl_one (i mod 32)). lia.
  - destruct Hw as [_ Hw]. rewrite Hw by lia. apply bool_decide_ext. by rewrite <- Z.div_mod by done.
Qed.

Lemma bv_bit_test_ok v n S i : bv_rep v n S -> 0 <= i < n -> bv_bit_test v i = Ok (bool_decide (i ∈ S)).
Proof.
  intros Hv Hi. destruct (bit_read v n S i Hv Hi) as (w&Hu&Hr&_&Hm&Hsh&Ht). unfold bv_bit_test, bv_wordbits.
  rewrite Hu, Hr. cbn [mbind res_bind]. rewrite Hsh, land_pow2, Ht, negb_involutive by lia. done.
Qed.

Lemma word_of_add S k w i :
  word_of S k w -> i / 32 = k -> word_of ({[i]} ∪ S) k (Z.lor w (2 ^ (i mod 32))).
Proof.
  intros [Hr Hw] Hi. pose proof (Z.mod_pos_bound i 32). split; [apply lor_range; [done|apply pow2_range; lia]|].
  intros j Hj. rewrite Z.lor_spec, Z.pow2_bits_eqb, Hw by lia.
  pose proof (index_eq k j i Hj). destruct (Z.eqb_spec (i mod 32) j).
  - rewrite orb_true_r. symmetry. apply bool_decide_eq_true. set_solver.
  - rewrite orb_false_r. apply bool_decide_ext. set_solver.
Qed.

Lemma word_of_remove S k w i :
  word_of S k w -> i / 32 = k -> word_of (S ∖ {[i]}) k (Z.land w (lbw_not (2 ^ (i mod 32)))).
Proof.
  intros [Hr Hw] Hi. pose proof (Z.mod_pos_bound i 32). split; [apply land_range; [done|apply uint_range]|].
  intros j Hj. rewrite Z.land_spec, lbw_not_testbit, Z.pow2_bits_eqb, Hw by lia.
  pose proof (index_eq k j i Hj). destruct (Z.eqb_spec (i mod 32) j); simpl.
  - rewrite andb_false_r. symmetry. apply bool_decide_eq_false. set_solver.
  - rewrite andb_true_r. apply bool_decide_ext. set_solver.
Qed.

Lemma bv_bit_set_ok v n S i :
  bv_rep v n S -> 0 <= i < n -> exists v', bv_bit_set v i = Ok v' /\ bv_rep v' n ({[i]} ∪ S) /\ bv_same v v' n.
Proof.
  intros Hv Hi. destruct (bit_read v n S i Hv Hi) as (w&Hu&Hr&Hw&Hm&Hsh&_). unfold bv_bit_set, bv_wordbits.
  rewrite Hu, Hr. cbn [mbind res_bind]. rewrite Hsh.
  destruct (bv_rep_write v n S ({[i]} ∪ S) (i / 32) (Z.lor w (2 ^ (i mod 32)))) as (l&Hl&Hrep&Hs);
    [done|by apply word_index|by apply word_of_add| | |rewrite Hl; cbn [mbind res_bind]; eauto].
  - intros i' _ Hne. assert (i' <> i) by (by intros ->). set_solver.
  - pose proof (br_elems _ _ _ Hv). intros i' [->%elem_of_singleton|?]%elem_of_union; [done|auto].
Qed.

Lemma bv_bit_clear_ok v n S i :
  bv_rep v n S -> 0 <= i < n -> exists v', bv_bit_clear v i = Ok v' /\ bv_rep v' n (S ∖ {[i]}) /\ bv_same v v' n.
Proof.
  intros Hv Hi. destruct (bit_read v n S i Hv Hi) as (w&Hu&Hr&Hw&Hm&Hsh&_). unfold bv_bit_clear, bv_wordbits.
  rewrite Hu, Hr. cbn [mbind res_bind]. rewrite Hsh.
  destruct (bv_rep_write v n S (S ∖ {[i]}) (i / 32) (Z.land w (lbw_not (2 ^ (i mod 32))))) as (l&Hl&Hrep&Hs);
    [done|by apply word_index|by apply word_of_remove| | |rewrite Hl; cbn [mbind res_bind]; eauto].
  - intros i' _ Hne. assert (i' <> i) by (by intros ->). set_solver.
  - pose proof (br_elems _ _ _ Hv). set_solver.
Qed.

Lemma bv_bit_test_then_set_ok v n S i :
  bv_rep v n S -> 0 <= i < n ->
  exists v', bv_bit_test_then_set v i = Ok (bool_decide (i ∈ S), v') /\ bv_rep v' n ({[i]} ∪ S) /\ bv_same v v' n.
Proof.
  intros Hv Hi. destruct (bv_bit_set_ok v n S i Hv Hi) as (v'&Hset&Hrep&Hs).
  destruct (bit_read v n S i Hv Hi) as (w&Hu&Hr&Hw&Hm&Hsh&Ht). unfold bv_bit_test_then_set, bv_bit_set, bv_wordbits in *.
  rewrite Hu, Hr in *. cbn [mbind res_bind] in *. rewrite Hsh, land_pow2, Ht, negb_involutive in * by lia.
  case_bool_decide as HiS.
  - exists v. split; [done|]. by replace ({[i]} ∪ S) with S by set_solver.
  - exists v'. apply bind_Ok in Hset as (l&->&[= <-]). done.
Qed.

(** ** Loops over the words *)

(** [l'] is [l] with the words [g 0], ..., [g (k - 1)] at [p]. *)
Definition written_words (l l' : list Z) (p k : Z) (g : Z -> Z) : Prop :=
  length l' = length l /\ (forall i, i < p \/ p + k <= i -> rd l' i = rd l i) /\ (forall j, 0 <= j < k -> rd l' (p + j) = Ok (g j)).

Lemma word_loop_from n k body p l l0 g :
  0 <= p -> 0 <= k -> p + k + Z.of_nat n <= Z.of_nat (length l0) -> written_words l0 l p k g ->
  (forall j l, k <= j < k + Z.of_nat n -> written_words l0 l p j g -> body j l = Ok (g j)) ->
  exists l', word_loop n k body p l = Ok l' /\ written_words l0 l' p (k + Z.of_nat n) g.
Proof.
  intros Hp. revert k l. induction n as [|n IH]; intros k l Hk Hlen Hw Hbody.
  { exists l. split; [done|]. by rewrite Z.add_0_r. }
  simpl. rewrite (Hbody k l) by (done || lia). cbn [mbind res_bind]. destruct Hw as (Hl&Hout&Hin).
  rewrite wr_total by lia. cbn [mbind res_bind]. destruct (IH (k + 1) (<[Z.to_nat (p + k) := g k]> l)) as (l'&Hl'&Hw').
  - lia.
  - lia.
  - split_and!; [by rewrite length_insert| |].
    + intros i Hi. rewrite rd_wr_ne by lia. apply Hout. lia.
    + intros j Hj. destruct (decide (j = k)) as [->|]; [apply rd_wr_eq; lia|]. rewrite rd_wr_ne by lia. apply Hin. lia.
  - intros j l2 Hj. apply Hbody. lia.
  - exists l'. split; [done|]. by replace (k + Z.of_nat (S n)) with (k + 1 + Z.of_nat n) by lia.
Qed.

Lemma word_loop_ok n body p l g :
  0 <= p -> p + Z.of_nat n <= Z.of_nat (length l) ->
  (forall j l', 0 <= j < Z.of_nat n -> written_words l l' p j g -> body j l' = Ok (g j)) ->
  exists l', word_loop n 0 body p l = Ok l' /\ written_words l l' p (Z.of_nat n) g.
Proof.
  intros Hp Hl Hb. destruct (word_loop_from n 0 body p l l g) as (l'&?&?); [done|done|lia| |done|by exists l'].
  split_and!; [done|done|lia].
Qed.

(** A loop that gives each data word of [v] its new value. *)
Lemma word_loop_rep v n S S' body g :
  bv_rep v n S -> (forall i, i ∈ S' -> 0 <= i < n) -> (forall k, 0 <= k < bv_size n -> word_of S' k (g k)) ->
  (forall k l, 0 <= k < bv_size n -> written_words (bv_words v) l (bv_base v) k g -> body k l = Ok (g k)) ->
  exists l, word_loop (Z.to_nat (bv_size n)) 0 body (bv_base v) (bv_words v) = Ok l
    /\ bv_rep (bv_set_words v l) n S' /\ bv_same v (bv_set_words v l) n.
Proof.
  intros Hv He Hg Hb. pose proof Hv as [Hn Hbase Hbd _ _ _ _ _]. pose proof (bv_size_bounds n) as Hs.
  destruct (word_loop_ok (Z.to_nat (bv_size n)) body (bv_base v) (bv_words v) g) as (l&Hl&Hlen&Hout&Hin); [lia|lia| |].
  { intros j l Hj. apply Hb. lia. }
  assert (bv_same v (bv_set_words v l) n) as Hsame by (split_and!; [done|done|]; intros i Hi; apply Hout; lia).
  exists l. split_and!; [done| |done]. eapply bv_rep_words; [done|done| |done].
  intros k Hk. exists (g k). split; [apply Hin; lia|by apply Hg].
Qed.

(** ** The mask of the last word *)
Lemma mask_testbit n j :
  0 <= n <= INT_MAX -> 0 <= j < 32 -> Z.testbit (bv_bits_to_unused_mask n) j = (n mod 32 =? 0) || (j <? n mod 32).
Proof.
  intros Hn Hj. unfold bv_bits_to_unused_mask, bv_modmask. rewrite uint_of_int by done.
  change 31 with (Z.ones 5). rewrite Z.land_ones by lia. change (2 ^ 5) with 32. pose proof (Z.mod_pos_bound n 32).
  destruct (Z.eqb_spec (n mod 32) 0) as [Hz|Hz]; simpl.
  - rewrite uint_testbit, Z.lnot_0 by lia. apply Z.bits_m1. lia.
  - rewrite uint_testbit, Z.lnot_spec, Z.shiftl_spec by lia. rewrite Z.lnot_0.
    destruct (Z.ltb_spec j (n mod 32)); [rewrite Z.testbit_neg_r by lia; done|]. rewrite Z.bits_m1 by lia. done.
Qed.

Lemma mask_range n : 0 <= bv_bits_to_unused_mask n < UINT_MOD.
Proof. unfold bv_bits_to_unused_mask. case_match; apply uint_range. Qed.

Lemma mask_keeps n S w :
  0 <= n <= INT_MAX -> (forall i, i ∈ S -> 0 <= i < n) -> word_of S (bv_size n - 1) w -> Z.land w (bv_bits_to_unused_mask n) = w.
Proof.
  intros Hn He [Hr Hw]. pose proof (bv_size_bounds n). apply Z.bits_inj'. intros j Hj. rewrite Z.land_spec.
  destruct (decide (j < 32)); [|rewrite word_bits_high by (done || lia); done].
  rewrite Hw, mask_testbit by lia. case_bool_decide as Hin; [|done]. apply He in Hin.
  pose proof (Z.div_mod n 32). pose proof (Z.mod_pos_bound n 32).
  destruct (Z.eqb_spec (n mod 32) 0), (Z.ltb_spec j (n mod 32)); simpl; try done. lia.
Qed.

(** The last word masked: the bits from [n] on are cleared. *)
Lemma word_of_mask n S w :
  0 <= n <= INT_MAX -> 0 < bv_size n -> 0 <= w < UINT_MOD ->
  (forall j, 0 <= j < 32 -> 32 * (bv_size n - 1) + j < n -> Z.testbit w j = bool_decide (32 * (bv_size n - 1) + j ∈ S)) ->
  (forall i, i ∈ S -> 0 <= i < n) -> word_of S (bv_size n - 1) (Z.land w (bv_bits_to_unused_mask n)).
Proof.
  intros Hn Hs Hw Hb He. pose proof (bv_size_bounds n). split; [apply land_range; [done|apply mask_range]|].
  intros j Hj. rewrite Z.land_spec, mask_testbit by done. pose proof (Z.div_mod n 32). pose proof (Z.mod_pos_bound n 32).
  destruct (decide (32 * (bv_size n - 1) + j < n)) as [Hlt|Hge].
  - rewrite Hb by done. destruct (Z.eqb_spec (n mod 32) 0), (Z.ltb_spec j (n mod 32)); simpl; rewrite ?andb_true_r; try done. lia.
  - assert ((n mod 32 =? 0) || (j <? n mod 32) = false) as ->.
    { destruct (Z.eqb_spec (n mod 32) 0), (Z.ltb_spec j (n mod 32)); simpl; try done; lia. }
    rewrite andb_false_r. symmetry. apply bool_decide_eq_false. intros ?%He. lia.
Qed.

(** ** The operations *)

(** The numbers a vector of [n] bits can contain. *)
Definition below (n : Z) : gset Z := list_to_set (seqZ 0 n).

Lemma elem_of_below n i : i ∈ below n <-> 0 <= i < n.
Proof. unfold below. rewrite elem_of_list_to_set, elem_of_seqZ. lia. Qed.

Lemma word_of_empty k : word_of ∅ k 0.
Proof. split; [done|]. intros j Hj. by rewrite Z.bits_0. Qed.

Lemma create_rep l n :
  0 <= n <= INT_MAX -> length l = Z.to_nat (bv_size n) -> (forall k, 0 <= k < bv_size n -> rd l k = Ok 0) ->
  bv_rep (BV ([n; bv_size n; bv_bits_to_unused_mask n] ++ l) 3) n ∅.
Proof.
  intros Hn Hl Hz. pose proof (bv_size_bounds n). split; try done.
  - simpl. rewrite Hl. lia.
  - intros k Hk. exists 0. split; [|apply word_of_empty]. specialize (Hz k Hk). apply rd_Ok in Hz as [_ Hz].
    apply rd_Ok. cbn [bv_base bv_words]. split; [lia|]. rewrite lookup_app_r by (simpl; lia).
    rewrite <- Hz. f_equal. simpl. lia.
Qed.

Lemma bits_to_size n : 0 <= n <= INT_MAX -> to_uint n = n /\ bv_bits_to_size n = bv_size n.
Proof.
  intros Hn. assert (to_uint n = n) as H by (by apply uint_of_int). split; [done|].
  unfold bv_bits_to_size, bv_modmask, bv_wordbits, bv_size. rewrite H, to_uint_small; [done|].
  unfold INT_MAX, UINT_MOD in *. lia.
Qed.

Lemma bv_create_ok n : 0 <= n <= INT_MAX -> bv_rep (bv_create n) n ∅.
Proof.
  intros Hn. unfold bv_create. destruct (bits_to_size n Hn) as [-> ->]. apply create_rep; [done|apply length_replicate|].
  intros k Hk. apply rd_Ok. split; [lia|]. apply lookup_replicate. split; [done|lia].
Qed.

Lemma bv_obs_create_ok junk n : 0 <= n <= INT_MAX -> exists v, bv_obs_create junk n = Ok v /\ bv_rep v n ∅.
Proof.
  intros Hn. unfold bv_obs_create. destruct (bits_to_size n Hn) as [-> ->]. pose proof (bv_size_bounds n).
  set (hdr := [n; bv_size n; bv_bits_to_unused_mask n]). set (l0 := resize (Z.to_nat (bv_size n)) 0 junk).
  assert (length l0 = Z.to_nat (bv_size n)) as Hl0 by apply length_resize.
  destruct (Z.gtb_spec (bv_size n) 0) as [Hgt|Hle].
  - destruct (word_loop_ok (Z.to_nat (bv_size n)) (fun _ _ => Ok 0) bv_hiddenwords (hdr ++ l0) (fun _ => 0)) as (l&Hl&Hlen&Hout&Hin);
      [done|rewrite length_app, Hl0; unfold hdr, bv_hiddenwords; simpl; lia|done|].
    rewrite Hl. simpl. eexists. split; [done|].
    assert (l = hdr ++ drop 3 l) as ->.
    { rewrite <- (take_drop 3 l) at 1. f_equal. apply list_eq. intros i. rewrite length_app in Hlen. simpl in Hlen.
      destruct (decide (i < 3)%nat) as [Hi|Hi].
      - rewrite lookup_take_lt by done. specialize (Hout (Z.of_nat i)). unfold bv_hiddenwords in Hout.
        assert (i < length hdr)%nat as Hih by (simpl; lia). destruct (lookup_lt_is_Some_2 hdr i Hih) as [w Hw].
        assert (rd l (Z.of_nat i) = Ok w) as Hr.
        { rewrite Hout by lia. apply rd_Ok. split; [lia|]. rewrite Nat2Z.id, lookup_app_l by done. done. }
        apply rd_Ok in Hr as [_ Hr]. rewrite Nat2Z.id in Hr. by rewrite Hr, Hw.
      - rewrite lookup_take_ge, (lookup_ge_None_2 hdr) by (simpl; lia). done. }
    apply create_rep; [done|rewrite length_drop, Hlen, length_app, Hl0; simpl; lia|].
    intros k Hk. specialize (Hin k). rewrite Z2Nat.id in Hin by lia. specialize (Hin Hk). apply rd_Ok in Hin as [_ Hin].
    apply rd_Ok. split; [lia|]. rewrite lookup_drop, <- Hin. f_equal. unfold bv_hiddenwords. lia.
  - eexists. split; [reflexivity|]. apply create_rep; [done|done|]. lia.
Qed.

Lemma bv_shadow_ok v n S : bv_rep v n S -> bv_shadow v = Ok (bv_create n).
Proof.
  intros Hv. unfold bv_shadow. rewrite (br_bits _ _ _ Hv). simpl. rewrite to_int_small; [done|].
  pose proof (br_n _ _ _ Hv). unfold is_int, INT_MIN. lia.
Qed.

Lemma bv_obs_shadow_ok junk v n S : bv_rep v n S -> bv_obs_shadow junk v = bv_obs_create junk n.
Proof.
  intros Hv. unfold bv_obs_shadow. rewrite (br_bits _ _ _ Hv). simpl. rewrite to_int_small; [done|].
  pose proof (br_n _ _ _ Hv). unfold is_int, INT_MIN. lia.
Qed.

(** The word [k] of a vector. *)
Definition nth_word (v : Bit_Vector) (k : Z) : Z := match rd (bv_words v) (bv_base v + k) with Ok w => w | _ => 0 end.

Lemma nth_word_ok v n S k :
  bv_rep v n S -> 0 <= k < bv_size n -> rd (bv_words v) (bv_base v + k) = Ok (nth_word v k) /\ word_of S k (nth_word v k).
Proof. intros Hv Hk. unfold nth_word. destruct (br_words _ _ _ Hv k Hk) as (w&->&Hw). done. Qed.

Lemma bv_copy_ok v1 v2 n S1 S2 :
  bv_rep v1 n S1 -> bv_rep v2 n S2 -> exists v, bv_copy v1 v2 = Ok v /\ bv_rep v n S2 /\ bv_same v1 v n.
Proof.
  intros H1 H2. unfold bv_copy. rewrite (br_bits _ _ _ H1). cbn [mbind res_bind].
  destruct (Z.gtb_spec n 0) as [Hn|Hn].
  - rewrite (br_size _ _ _ H1). cbn [mbind res_bind].
    destruct (word_loop_rep v1 n S1 S2 (fun k _ => rd (bv_words v2) (bv_base v2 + k)) (nth_word v2)) as (l&->&Hr&Hs);
      [done|apply (br_elems _ _ _ H2)| | |by eauto].
    + intros k Hk. by apply (nth_word_ok v2 n).
    + intros k l Hk _. by apply (nth_word_ok v2 n S2).
  - exists v1. split; [done|]. pose proof (br_n _ _ _ H1). assert (S2 = S1) as ->; [|done].
    pose proof (br_elems _ _ _ H1) as He1. pose proof (br_elems _ _ _ H2) as He2.
    apply set_eq. intros i. split; [intros ?%He2|intros ?%He1]; lia.
Qed.

Lemma bv_clone_ok v n S : bv_rep v n S -> exists v', bv_clone v = Ok v' /\ bv_rep v' n S.
Proof.
  intros Hv. unfold bv_clone. rewrite (bv_shadow_ok v n S Hv). cbn [mbind res_bind].
  destruct (bv_copy_ok (bv_create n) v n ∅ S) as (v'&?&?&_); [apply bv_create_ok, Hv|done|eauto].
Qed.

Lemma bv_obs_clone_ok junk v n S : bv_rep v n S -> exists v', bv_obs_clone junk v = Ok v' /\ bv_rep v' n S.
Proof.
  intros Hv. unfold bv_obs_clone. rewrite (bv_obs_shadow_ok junk v n S Hv).
  destruct (bv_obs_create_ok junk n (br_n _ _ _ Hv)) as (v1&->&H1). cbn [mbind res_bind].
  destruct (bv_copy_ok v1 v n ∅ S) as (v'&?&?&_); [done|done|eauto].
Qed.

Lemma bv_clear_ok v n S : bv_rep v n S -> exists v', bv_clear v = Ok v' /\ bv_rep v' n ∅ /\ bv_same v v' n.
Proof.
  intros Hv. unfold bv_clear. rewrite (br_size _ _ _ Hv). cbn [mbind res_bind].
  destruct (Z.leb_spec (bv_size n) 0) as [Hz|Hz].
  - exists v. split; [done|]. pose proof (bv_size_bounds n). pose proof (br_n _ _ _ Hv).
    assert (∅ = S) as <-; [|done]. apply set_eq. intros i. split; [set_solver|]. intros ?%(br_elems _ _ _ Hv). lia.
  - destruct (word_loop_rep v n S ∅ (fun _ _ => Ok 0) (fun _ => 0)) as (l&->&Hr&Hs); [done|set_solver| |done|by eauto].
    intros. apply word_of_empty.
Qed.

(** Words computed one by one, then the last one masked. *)
Lemma word_loop_masked v n S S' body g :
  bv_rep v n S -> (forall i, i ∈ S' -> 0 <= i < n) ->
  (forall k, 0 <= k < bv_size n -> 0 <= g k < UINT_MOD
     /\ forall j, 0 <= j < 32 -> 32 * k + j < n -> Z.testbit (g k) j = bool_decide (32 * k + j ∈ S')) ->
  (forall k l, 0 <= k < bv_size n -> written_words (bv_words v) l (bv_base v) k g -> body k l = Ok (g k)) ->
  exists v', (l ← word_loop (Z.to_nat (bv_size n)) 0 body (bv_base v) (bv_words v);
              mask_last v (bv_size n) (bv_bits_to_unused_mask n) l) = Ok v' /\ bv_rep v' n S' /\ bv_same v v' n.
Proof.
  intros Hv He Hg Hb. pose proof Hv as [Hn Hbase Hbd _ _ Hm _ _]. pose proof (bv_size_bounds n) as Hs.
  destruct (word_loop_ok (Z.to_nat (bv_size n)) body (bv_base v) (bv_words v) g) as (l&Hl&Hlen&Hout&Hin); [lia|lia| |].
  { intros j l Hj. apply Hb. lia. }
  rewrite Hl. cbn [mbind res_bind]. unfold mask_last.
  destruct (decide (bv_size n = 0)) as [Hz|Hz].
  - rewrite Hz in *. replace (bv_base v + 0 - 1) with (bv_base v - 1) by lia.
    assert (rd l (bv_base v - 1) = Ok (bv_bits_to_unused_mask n)) as Hr by (rewrite Hout by lia; exact Hm).
    rewrite Hr. cbn [mbind res_bind]. rewrite Z.land_diag, wr_total by lia. cbn [mbind res_bind].
    apply rd_Ok in Hr as [_ Hr]. rewrite list_insert_id by done. eexists. split; [done|].
    assert (bv_same v (bv_set_words v l) n) as Hsm by (split_and!; [done|done|]; intros i Hi; apply Hout; lia).
    split; [|done]. eapply bv_rep_words; [done|done|lia|done].
  - assert (rd l (bv_base v + bv_size n - 1) = Ok (g (bv_size n - 1))) as Hr.
    { replace (bv_base v + bv_size n - 1) with (bv_base v + (bv_size n - 1)) by lia. apply Hin. lia. }
    rewrite Hr. cbn [mbind res_bind]. rewrite wr_total by lia. cbn [mbind res_bind]. eexists. split; [done|].
    set (v' := bv_set_words v _). assert (bv_same v v' n) as Hsm.
    { split_and!; [done|simpl; by rewrite length_insert|]. intros i Hi. simpl. rewrite rd_wr_ne by lia. apply Hout. lia. }
    split; [|done]. eapply bv_rep_words; [done|done| |done]. intros k Hk. simpl.
    destruct (Hg k Hk) as [Hgr Hgb]. destruct (decide (k = bv_size n - 1)) as [->|Hne].
    + exists (Z.land (g (bv_size n - 1)) (bv_bits_to_unused_mask n)). split; [|apply word_of_mask; auto; lia].
      replace (bv_base v + (bv_size n - 1)) with (bv_base v + bv_size n - 1) by lia. apply rd_wr_eq. lia.
    + exists (g k). split; [rewrite rd_wr_ne by lia; apply Hin; lia|]. split; [done|]. intros j Hj. apply Hgb; lia.
Qed.

Lemma bv_not_ok X Y n S T :
  bv_rep X n S -> bv_rep Y n T -> exists v, bv_not X Y = Ok v /\ bv_rep v n (below n ∖ T) /\ bv_same X v n.
Proof.
  intros HX HY. unfold bv_not. rewrite (br_size _ _ _ HX), (br_mask _ _ _ HX). cbn [mbind res_bind].
  apply (word_loop_masked X n S _ _ (fun k => lbw_not (nth_word Y k))); [done| | |].
  - intros i. rewrite elem_of_difference, elem_of_below. tauto.
  - intros k Hk. destruct (nth_word_ok Y n T k HY Hk) as [_ [_ Hb]]. split; [apply uint_range|].
    intros j Hj Hlt. rewrite lbw_not_testbit, Hb by lia. rewrite <- bool_decide_not. apply bool_decide_ext.
    rewrite elem_of_difference, elem_of_below. intuition lia.
  - intros k l Hk _. destruct (nth_word_ok Y n T k HY Hk) as [-> _]. done.
Qed.

Lemma bv_and_ok X Y Z n S T U :
  bv_rep X n S -> bv_rep Y n T -> bv_rep Z n U -> exists v, bv_and X Y Z = Ok v /\ bv_rep v n (T ∩ U) /\ bv_same X v n.
Proof.
  intros HX HY HZ. unfold bv_and. rewrite (br_size _ _ _ HX), (br_mask _ _ _ HX). cbn [mbind res_bind].
  apply (word_loop_masked X n S _ _ (fun k => Z.land (nth_word Y k) (nth_word Z k))); [done| | |].
  - intros i [Hi _]%elem_of_intersection. by apply (br_elems _ _ _ HY).
  - intros k Hk. destruct (nth_word_ok Y n T k HY Hk) as [_ [Hr Hb]], (nth_word_ok Z n U k HZ Hk) as [_ [Hr' Hb']].
    split; [apply land_range; [done|lia]|]. intros j Hj Hlt. rewrite Z.land_spec, Hb, Hb' by lia. rewrite <- bool_decide_and.
    apply bool_decide_ext. by rewrite elem_of_intersection.
  - intros k l Hk _. destruct (nth_word_ok Y n T k HY Hk) as [-> _], (nth_word_ok Z n U k HZ Hk) as [-> _]. done.
Qed.

Lemma bv_or_ok X Y Z n S T U :
  bv_rep X n S -> bv_rep Y n T -> bv_rep Z n U -> exists v, bv_or X Y Z = Ok v /\ bv_rep v n (T ∪ U) /\ bv_same X v n.
Proof.
  intros HX HY HZ. unfold bv_or. rewrite (br_size _ _ _ HX), (br_mask _ _ _ HX). cbn [mbind res_bind].
  apply (word_loop_masked X n S _ _ (fun k => Z.lor (nth_word Y k) (nth_word Z k))); [done| | |].
  - intros i [Hi|Hi]%elem_of_union; [by apply (br_elems _ _ _ HY)|by apply (br_elems _ _ _ HZ)].
  - intros k Hk. destruct (nth_word_ok Y n T k HY Hk) as [_ [Hr Hb]], (nth_word_ok Z n U k HZ Hk) as [_ [Hr' Hb']].
    split; [by apply lor_range|]. intros j Hj Hlt. rewrite Z.lor_spec, Hb, Hb' by lia. rewrite <- bool_decide_or.
    apply bool_decide_ext. by rewrite elem_of_union.
  - intros k l Hk _. destruct (nth_word_ok Y n T k HY Hk) as [-> _], (nth_word_ok Z n U k HZ Hk) as [-> _]. done.
Qed.

(** Two vectors of one array, apart or the same. *)
Lemma bv_or_assign_ok l x y n S T :
  bv_rep (BV l x) n S -> bv_rep (BV l y) n T -> (x = y \/ x + bv_size n <= y \/ y + bv_size n <= x) ->
  exists v, bv_or_assign (BV l x) y = Ok v /\ bv_rep v n (S ∪ T) /\ bv_same (BV l x) v n.
Proof.
  intros HX HY Hap. unfold bv_or_assign. rewrite (br_size _ _ _ HX), (br_mask _ _ _ HX). cbn [mbind res_bind].
  apply (word_loop_masked (BV l x) n S _ _ (fun k => Z.lor (nth_word (BV l x) k) (nth_word (BV l y) k))); [done| | |].
  - intros i [Hi|Hi]%elem_of_union; [by apply (br_elems _ _ _ HX)|by apply (br_elems _ _ _ HY)].
  - intros k Hk. destruct (nth_word_ok _ n S k HX Hk) as [_ [Hr Hb]], (nth_word_ok _ n T k HY Hk) as [_ [Hr' Hb']].
    split; [by apply lor_range|]. intros j Hj Hlt. rewrite Z.lor_spec, Hb, Hb' by lia. rewrite <- bool_decide_or.
    apply bool_decide_ext. by rewrite elem_of_union.
  - intros k l' Hk (Hlen&Hout&_). cbn [bv_base bv_words] in *.
    destruct (nth_word_ok _ n S k HX Hk) as [Hx _], (nth_word_ok _ n T k HY Hk) as [Hy _]. cbn [bv_base bv_words] in *.
    rewrite !Hout by lia. rewrite Hx. cbn [mbind res_bind]. by rewrite Hy.
Qed.

(** The mask applied to the last word of a vector changes nothing. *)
Lemma remask_ok v n S :
  bv_rep v n S -> 0 < bv_size n ->
  (w ← rd (bv_words v) (bv_base v + bv_size n - 1); wr (bv_words v) (bv_base v + bv_size n - 1) (Z.land w (bv_bits_to_unused_mask n)))
  = Ok (bv_words v).
Proof.
  intros Hv Hs. pose proof Hv as [Hn Hbase Hbd _ _ _ _ He].
  destruct (br_words _ _ _ Hv (bv_size n - 1)) as (w&Hr&Hw); [lia|].
  replace (bv_base v + (bv_size n - 1)) with (bv_base v + bv_size n - 1) in Hr by lia. rewrite Hr. cbn [mbind res_bind].
  erewrite mask_keeps by done. rewrite wr_total by lia. apply rd_Ok in Hr as [_ Hr]. by rewrite list_insert_id.
Qed.

Lemma word_zero_iff S k w : word_of S k w -> w = 0 <-> forall i, i / 32 = k -> i ∉ S.
Proof.
  intros [Hr Hb]. rewrite word_zero by done. split.
  - intros Hz i Hi Hin. pose proof (Z.mod_pos_bound i 32). pose proof (Z.div_mod i 32).
    specialize (Hz (i mod 32)). rewrite Hb in Hz by lia. rewrite bool_decide_eq_false in Hz.
    apply Hz; [lia|]. by replace (32 * k + i mod 32) with i by lia.
  - intros Hn j Hj. rewrite Hb by done. apply bool_decide_eq_false, Hn.
    rewrite (Z.add_comm (32 * k) j), (Z.mul_comm 32), Z.div_add, Z.div_small by lia. lia.
Qed.

Lemma is_empty_loop_ok v n S m k :
  bv_rep v n S -> 0 <= k -> k + Z.of_nat m = bv_size n -> (forall i, i ∈ S -> k <= i / 32) ->
  is_empty_loop m (bv_words v) (bv_base v + k) = Ok (bool_decide (S = ∅)).
Proof.
  intros Hv. revert k. induction m as [|m IH]; intros k Hk Hm Hlow; simpl.
  - f_equal. symmetry. apply bool_decide_eq_true. apply set_eq. intros i. split; [|set_solver]. intros Hi.
    pose proof (Hlow i Hi). pose proof (br_elems _ _ _ Hv i Hi) as He. apply word_index in He. lia.
  - destruct (br_words _ _ _ Hv k) as (w&Hr&Hw); [lia|]. rewrite Hr. cbn [mbind res_bind].
    pose proof (word_zero_iff _ _ _ Hw) as Hz. destruct (Z.eqb_spec w 0) as [->|Hne].
    + replace (bv_base v + k + 1) with (bv_base v + (k + 1)) by lia. apply IH; [lia|lia|]. intros i Hi.
      pose proof (Hlow i Hi). assert (i / 32 <> k); [|lia]. intros Hik. by apply (proj1 Hz eq_refl i Hik).
    + f_equal. symmetry. apply bool_decide_eq_false. intros ->. apply Hne, Hz. set_solver.
Qed.

Lemma bv_is_empty_ok v n S : bv_rep v n S -> bv_is_empty v = Ok (bool_decide (S = ∅), v).
Proof.
  intros Hv. unfold bv_is_empty. rewrite (br_size _ _ _ Hv), (br_mask _ _ _ Hv). cbn [mbind res_bind].
  destruct (Z.gtb_spec (bv_size n) 0) as [Hz|Hz].
  - pose proof (remask_ok v n S Hv Hz) as Hm. apply bind_Ok in Hm as (w&Hr&Hw). rewrite Hr. cbn [mbind res_bind].
    rewrite Hw. cbn [mbind res_bind]. pose proof (is_empty_loop_ok v n S (Z.to_nat (bv_size n)) 0 Hv) as Hl.
    rewrite Z.add_0_r in Hl. rewrite Hl; [|lia|lia|]; [by destruct v|].
    intros i Hi. pose proof (br_elems _ _ _ Hv i Hi). apply Z.div_pos; lia.
  - do 2 f_equal. symmetry. apply bool_decide_eq_true, set_eq. intros i. split; [|set_solver].
    intros Hi. pose proof (br_elems _ _ _ Hv i Hi) as He. apply word_index in He. lia.
Qed.
