(* ===== verification/BitScan.v ===== *)
(** * Scanning a bit vector

    [bv_scan] finds the next run of set bits; the loops built on it visit the numbers of
    the set in ascending order. *)
From stdpp Require Import sets gmap list_numbers.
From S2P Require Import Prelude BitVector BitVectorTheorems.

(** ** The lowest bit of a word *)
Definition lowest (w k : Z) : Prop := 0 <= k < 32 /\ Z.testbit w k = true /\ forall j, 0 <= j < k -> Z.testbit w j = false.

Lemma lowest_exists w : 0 <= w < UINT_MOD -> w <> 0 -> exists k, lowest w k.
Proof.
  intros Hw Hnz.
  assert (forall m, (m <= 32)%nat -> (forall j, 0 <= j < Z.of_nat m -> Z.testbit w j = false) \/ exists k, lowest w k) as H.
  { induction m as [|m IH]; intros Hm; [left; lia|]. destruct IH as [Hf|?]; [lia| |by right].
    destruct (Z.testbit w (Z.of_nat m)) eqn:E; [right; exists (Z.of_nat m); split_and!; [lia|lia|done|done]|].
    left. intros j Hj. destruct (decide (j = Z.of_nat m)) as [->|]; [done|apply Hf; lia]. }
  destruct (H 32%nat) as [Hf|?]; [lia| |done]. contradict Hnz. by apply word_zero.
Qed.

Lemma shiftr_range w : 0 <= w < UINT_MOD -> 0 <= Z.shiftr w 1 < UINT_MOD.
Proof. intros. rewrite Z.shiftr_div_pow2 by lia. change (2 ^ 1) with 2. pose proof (Z.div_mod w 2). pose proof (Z.mod_pos_bound w 2). lia. Qed.

(** The shifts stop at the lowest bit. *)
Lemma scan_low_ok fuel w bm start k :
  0 <= w < UINT_MOD -> lowest w k -> k <= Z.of_nat fuel -> 0 <= start -> start + k < UINT_MOD ->
  scan_low fuel w bm start = Ok (Nat.iter (Z.to_nat k) (fun b => lbw_shl b 1) bm, start + k).
Proof.
  revert w bm start k. induction fuel as [|fuel IH]; intros w bm start k Hw (Hk&Hb&Hl) Hf Hs Hsk;
    cbn [scan_low]; change bv_lsb with (2 ^ 0); rewrite land_pow2 by done.
  - replace k with 0 in * by lia. rewrite Hb. simpl. by rewrite Z.add_0_r.
  - destruct (decide (k = 0)) as [->|]; [rewrite Hb; simpl; by rewrite Z.add_0_r|].
    rewrite Hl by lia. simpl negb. cbn iota. rewrite to_uint_small by lia.
    rewrite (IH _ _ _ (k - 1)); [|by apply shiftr_range| |lia|lia|lia].
    + replace (Z.to_nat k) with (S (Z.to_nat (k - 1))) by lia. rewrite Nat.iter_succ_r. do 2 f_equal. lia.
    + split_and!; [lia|lia| |].
      * rewrite Z.shiftr_spec by lia. by replace (k - 1 + 1) with k by lia.
      * intros j Hj. rewrite Z.shiftr_spec by lia. apply Hl. lia.
Qed.

Lemma iter_shl k : 0 <= k < 32 -> Nat.iter (Z.to_nat k) (fun b => lbw_shl b 1) bv_lsb = 2 ^ k.
Proof.
  intros Hk. rewrite <- (Z2Nat.id k) at 2 by lia. assert (Z.to_nat k < 32)%nat as Hn by lia. clear Hk. revert Hn.
  generalize (Z.to_nat k) as m. induction m as [|m IH]; intros Hm; [done|]. simpl. rewrite IH by lia. unfold lbw_shl.
  rewrite Z.shiftl_mul_pow2, Z.pow_1_r by done. rewrite Nat2Z.inj_succ, Z.pow_succ_r, Z.mul_comm by lia.
  apply to_uint_small. rewrite <- Z.pow_succ_r by lia. apply pow2_range. lia.
Qed.

(** ** Words skipped *)
Lemma scan_words_ok v n S f k s value :
  bv_rep v n S -> 0 <= k -> Z.of_nat s = bv_size n - k + 1 -> (1 <= s)%nat ->
  (exists bv s' value', scan_words s f (bv_words v) (bv_base v + k) k value = Ok (true, (bv, s', bv_size n, value'))
     /\ forall k', k <= k' < bv_size n -> f (nth_word v k') = 0)
  \/ (exists k', scan_words s f (bv_words v) (bv_base v + k) k value
        = Ok (false, (bv_base v + k' + 1, Z.to_nat (bv_size n - k'), k', f (nth_word v k')))
     /\ k <= k' < bv_size n /\ f (nth_word v k') <> 0 /\ forall j, k <= j < k' -> f (nth_word v j) = 0).
Proof.
  intros Hv. revert k value. induction s as [|s IH]; intros k value Hk Hs Hs1; [lia|].
  destruct s as [|s]; cbn [scan_words].
  { left. eexists _, _, _. replace k with (bv_size n) by lia. split; [done|lia]. }
  destruct (nth_word_ok v n S k Hv) as [-> _]; [lia|]. cbn [mbind res_bind].
  destruct (Z.eqb_spec (f (nth_word v k)) 0) as [Hz|Hnz]; simpl negb; cbn iota.
  - replace (bv_base v + k + 1) with (bv_base v + (k + 1)) by lia.
    destruct (IH (k + 1) (f (nth_word v k))) as [(bv&s'&value'&He&Hall)|(k'&He&Hk'&Hnz&Hall)]; [lia|lia|lia|left|right].
    + exists bv, s', value'. split; [exact He|]. intros k' Hk'. destruct (decide (k' = k)) as [->|]; [done|apply Hall; lia].
    + exists k'. split_and!; [exact He|lia|lia|done|]. intros j Hj. destruct (decide (j = k)) as [->|]; [done|apply Hall; lia].
  - right. exists k. split_and!; [|lia|lia|done|lia]. do 4 f_equal. f_equal. lia.
Qed.

(** ** The end of a run *)

(** [max] is the last of the run that goes on from [min]. *)
Definition run_to (S : gset Z) (min max : Z) : Prop := min <= max /\ (forall i, min <= i <= max -> i ∈ S) /\ max + 1 ∉ S.

Lemma size_small n : 0 <= n <= INT_MAX -> 0 <= bv_size n <= 2 ^ 26.
Proof. intros Hn. pose proof (bv_size_bounds n). unfold INT_MAX in Hn. lia. Qed.

Lemma not_zero_iff S k w : word_of S k w -> lbw_not w = 0 <-> forall i, i / 32 = k -> i ∈ S.
Proof.
  intros [Hr Hb]. rewrite word_zero by apply uint_range. split.
  - intros Hz i Hi. pose proof (Z.mod_pos_bound i 32). pose proof (Z.div_mod i 32).
    specialize (Hz (i mod 32)). rewrite lbw_not_testbit, Hb in Hz by lia.
    replace (32 * k + i mod 32) with i in Hz by lia. apply negb_false_iff, bool_decide_eq_true in Hz; [done|lia].
  - intros Hn j Hj. rewrite lbw_not_testbit, Hb by done. apply negb_false_iff, bool_decide_eq_true, Hn.
    rewrite (Z.add_comm (32 * k) j), (Z.mul_comm 32), Z.div_add, Z.div_small by lia. lia.
Qed.

Lemma in_word i k : i / 32 = k <-> 32 * k <= i < 32 * k + 32.
Proof. pose proof (Z.div_mod i 32). pose proof (Z.mod_pos_bound i 32). lia. Qed.

(** From the bit [b] of the word [k], which is in the run. *)
Lemma scan_end_ok v n S k b s value :
  bv_rep v n S -> 0 <= k < bv_size n -> 0 <= b < 32 -> 32 * k + b ∈ S -> Z.of_nat s = bv_size n - k ->
  (forall j, b < j < 32 -> Z.testbit value j = bool_decide (32 * k + j ∈ S)) ->
  exists max, run_to S (32 * k + b) max
    /\ scan_end (bv_words v) (bv_base v + k + 1) s k value (lbw_not (Z.lor (2 ^ b) (to_uint (2 ^ b - 1)))) (32 * k + b)
       = Ok (32 * k + b, max).
Proof.
  intros Hv Hk Hb Hin Hs Hbits. pose proof (br_n _ _ _ Hv) as Hn. pose proof (size_small n Hn) as Hsm.
  pose proof (br_elems _ _ _ Hv _ Hin) as Hlt. unfold scan_end.
  set (mask := lbw_not (Z.lor (2 ^ b) (to_uint (2 ^ b - 1)))). set (value' := Z.land (lbw_not value) mask).
  assert (0 <= value' < UINT_MOD) as Hvr by (apply land_range; [apply uint_range|apply above_range]).
  assert (forall j, 0 <= j < 32 -> Z.testbit value' j = (b <? j) && negb (bool_decide (32 * k + j ∈ S))) as Hvb.
  { intros j Hj. unfold value', mask. rewrite Z.land_spec, lbw_not_testbit, above_testbit by lia.
    destruct (Z.ltb_spec b j); [rewrite Hbits by lia; by rewrite andb_true_r|by rewrite andb_false_r]. }
  assert (forall k' p, 0 <= k' <= bv_size n -> 0 <= p < 32 ->
            (forall i, 32 * k + b <= i < 32 * k' + p -> i ∈ S) -> 32 * k' + p ∉ S -> 32 * k + b < 32 * k' + p ->
            run_to S (32 * k + b) (32 * k' + p - 1)
            /\ Ok (to_int (32 * k + b), to_int (to_uint (32 * k' + p - 1))) = Ok (32 * k + b, 32 * k' + p - 1)) as Hres.
  { intros k' p Hk' Hp Hall Hout Hlt'. split.
    - split_and!; [lia|intros; apply Hall; lia|by replace (32 * k' + p - 1 + 1) with (32 * k' + p) by lia].
    - assert (32 * k' + p - 1 < n) as Hmx.
      { assert (32 * k' + p - 1 ∈ S) as H by (apply Hall; lia). apply (br_elems _ _ _ Hv) in H. lia. }
      unfold INT_MAX in Hn. rewrite to_uint_small by (unfold UINT_MOD; lia).
      rewrite !to_int_small by (unfold is_int, INT_MIN, INT_MAX; lia). done. }
  assert (forall p, 0 <= p < 32 -> Z.testbit value' p = true -> (forall j, 0 <= j < p -> Z.testbit value' j = false) -> b < p
            /\ (32 * k + p ∉ S) /\ forall i, 32 * k + b <= i < 32 * k + p -> i ∈ S) as Hfirst.
  { intros p Hp Hbp Hlow. rewrite Hvb in Hbp by done. apply andb_prop in Hbp as [Hbp Hout%negb_true_iff%bool_decide_eq_false].
    Zbool. split_and!; [done|done|]. intros i Hi. destruct (decide (i = 32 * k + b)) as [->|]; [done|].
    specialize (Hlow (i - 32 * k)). rewrite Hvb in Hlow by lia. replace (32 * k + (i - 32 * k)) with i in Hlow by lia.
    destruct (Z.ltb_spec b (i - 32 * k)); [|lia]. simpl in Hlow. apply negb_false_iff, bool_decide_eq_true in Hlow; [done|lia]. }
  destruct (Z.eqb_spec value' 0) as [Hz|Hnz].
  - assert (forall i, 32 * k + b <= i < 32 * k + 32 -> i ∈ S) as Hrest.
    { intros i Hi. destruct (decide (i = 32 * k + b)) as [->|]; [done|]. pose proof (Hvb (i - 32 * k)) as H. rewrite Hz, Z.bits_0 in H.
      replace (32 * k + (i - 32 * k)) with i in H by lia. destruct (Z.ltb_spec b (i - 32 * k)); [|lia].
      symmetry in H. apply negb_false_iff, bool_decide_eq_true in H; [done|lia]. }
    replace (bv_base v + k + 1) with (bv_base v + (k + 1)) by lia.
    destruct (scan_words_ok v n S lbw_not (k + 1) s value' Hv) as [(bv&s'&v2&->&Hall)|(k'&->&Hk'&Hnz&Hall)]; [lia|lia|lia| |];
      cbn [mbind res_bind]; unfold bv_wordbits; rewrite to_uint_small by (unfold UINT_MOD; lia).
    + rewrite (scan_low_ok 32 bv_lsb 0 _ 0) by (done || (unfold UINT_MOD; lia) || (split_and!; [lia|lia|done|lia])).
      cbn [mbind res_bind snd]. replace (bv_size n * 32 + 0) with (32 * bv_size n + 0) by lia.
      destruct (Hres (bv_size n) 0) as [Hrun Heq]; [lia|lia| | |lia|eexists; split; [exact Hrun|exact Heq]].
      * intros i Hi. destruct (decide (i < 32 * k + 32)); [apply Hrest; lia|]. pose proof (in_word i (i / 32)) as Hw.
        destruct (nth_word_ok v n S (i / 32) Hv) as [_ Hwo]; [pose proof (Z.div_mod i 32); pose proof (Z.mod_pos_bound i 32); lia|].
        apply (proj1 (not_zero_iff _ _ _ Hwo)); [|done]. apply Hall. pose proof (Z.div_mod i 32). pose proof (Z.mod_pos_bound i 32). lia.
      * intros Hx%(br_elems _ _ _ Hv). pose proof (bv_size_bounds n). lia.
    + destruct (nth_word_ok v n S k' Hv) as [_ Hwo]; [lia|].
      destruct (lowest_exists (lbw_not (nth_word v k'))) as (q&Hq); [apply uint_range|done|].
      rewrite (scan_low_ok 32 _ 0 _ q) by (done || apply uint_range || (destruct Hq; unfold UINT_MOD; lia)).
      cbn [mbind res_bind snd]. replace (k' * 32 + q) with (32 * k' + q) by lia. destruct Hq as (Hq&Hqb&Hql).
      destruct Hwo as [Hwr Hwb]. rewrite lbw_not_testbit, Hwb in Hqb by lia. apply negb_true_iff, bool_decide_eq_false in Hqb.
      destruct (Hres k' q) as [Hrun Heq]; [lia|lia| |done|lia|eexists; split; [exact Hrun|exact Heq]].
      intros i Hi. destruct (decide (i < 32 * k + 32)); [apply Hrest; lia|]. destruct (decide (i < 32 * k')).
      * destruct (nth_word_ok v n S (i / 32) Hv) as [_ Hwo]; [pose proof (Z.div_mod i 32); pose proof (Z.mod_pos_bound i 32); lia|].
        apply (proj1 (not_zero_iff _ _ _ Hwo)); [|done]. apply Hall. pose proof (Z.div_mod i 32). pose proof (Z.mod_pos_bound i 32). lia.
      * specialize (Hql (i - 32 * k')). rewrite lbw_not_testbit, Hwb in Hql by lia. replace (32 * k' + (i - 32 * k')) with i in Hql by lia.
        apply negb_false_iff, bool_decide_eq_true in Hql; [done|lia].
  - destruct (lowest_exists value' Hvr Hnz) as (q&Hq). cbn [mbind res_bind]. unfold bv_wordbits.
    rewrite to_uint_small by (unfold UINT_MOD; lia).
    rewrite (scan_low_ok 32 _ 0 _ q) by (done || (destruct Hq; unfold UINT_MOD; lia)).
    cbn [mbind res_bind snd]. replace (k * 32 + q) with (32 * k + q) by lia. destruct Hq as (Hq&Hqb&Hql).
    destruct (Hfirst q Hq Hqb Hql) as (Hbq&Hout&Hall).
    destruct (Hres k q) as [Hrun Heq]; [lia|lia|done|done|lia|eexists; split; [exact Hrun|exact Heq]].
Qed.

(** ** The next run *)

Lemma start_bit n start : 0 <= start < n -> 0 <= n <= INT_MAX ->
  to_uint start = start /\ lbw_shl 1 (Z.land start bv_modmask) = 2 ^ (start mod 32) /\ 0 <= start mod 32 < 32
  /\ 0 <= start / 32 < bv_size n /\ start = 32 * (start / 32) + start mod 32.
Proof.
  intros Hs Hn. pose proof (Z.mod_pos_bound start 32). pose proof (word_index n start Hs). pose proof (Z.div_mod start 32).
  split_and!; try lia.
  - apply uint_of_int. lia.
  - unfold bv_modmask. change 31 with (Z.ones 5). rewrite Z.land_ones by lia. apply lbw_shl_one. change (2 ^ 5) with 32. lia.
Qed.

(** The next element after the bit [b] of the word [k]: it is the lowest bit of [value], or
    of the next word that is not zero. *)
Lemma scan_next v n S k b s value :
  bv_rep v n S -> 0 <= k < bv_size n -> 0 <= b < 32 -> Z.of_nat s = bv_size n - k -> 0 <= value < UINT_MOD ->
  (forall j, 0 <= j < 32 -> Z.testbit value j = (b <? j) && bool_decide (32 * k + j ∈ S)) ->
  (exists x, (if value =? 0 then scan_words s id (bv_words v) (bv_base v + k + 1) (k + 1) value
              else Ok (false, (bv_base v + k + 1, s, k, value))) = Ok (true, x)
     /\ forall i, i ∈ S -> i <= 32 * k + b)
  \/ (exists k' s' q value', (if value =? 0 then scan_words s id (bv_words v) (bv_base v + k + 1) (k + 1) value
              else Ok (false, (bv_base v + k + 1, s, k, value))) = Ok (false, (bv_base v + k' + 1, s', k', value'))
     /\ Z.of_nat s' = bv_size n - k' /\ 0 <= k' < bv_size n /\ 0 <= value' < UINT_MOD /\ lowest value' q
     /\ 32 * k + b < 32 * k' + q /\ (forall i, 32 * k + b < i < 32 * k' + q -> i ∉ S)
     /\ (forall j, q <= j < 32 -> Z.testbit value' j = bool_decide (32 * k' + j ∈ S))).
Proof.
  intros Hv Hk Hb Hs Hvr Hvb.
  assert (forall i, i / 32 = k -> 32 * k + b < i -> Z.testbit value (i - 32 * k) = bool_decide (i ∈ S)) as Hhere.
  { intros i Hi%in_word Hib. rewrite Hvb by lia. destruct (Z.ltb_spec b (i - 32 * k)); [|lia].
    by replace (32 * k + (i - 32 * k)) with i by lia. }
  destruct (Z.eqb_spec value 0) as [Hz|Hnz].
  - assert (forall i, i / 32 = k -> 32 * k + b < i -> i ∉ S) as Hrest.
    { intros i Hi Hib. specialize (Hhere i Hi Hib). rewrite Hz, Z.bits_0 in Hhere. by symmetry in Hhere; apply bool_decide_eq_false in Hhere. }
    assert (forall i, 32 * k + b < i -> (forall j, k + 1 <= j -> j = i / 32 -> id (nth_word v j) = 0) -> i ∉ S) as Hskip.
    { intros i Hi Hj Hin. pose proof (br_elems _ _ _ Hv _ Hin) as Hlt. pose proof (word_index n i Hlt) as Hw.
      pose proof (Z.div_mod i 32). pose proof (Z.mod_pos_bound i 32).
      destruct (decide (i / 32 = k)) as [E|E]; [by apply (Hrest i)|].
      destruct (nth_word_ok v n S (i / 32) Hv Hw) as [_ Hwo].
      apply (proj1 (word_zero_iff _ _ _ Hwo)) with i; [apply (Hj (i / 32)); lia|done|done]. }
    replace (bv_base v + k + 1) with (bv_base v + (k + 1)) by lia.
    destruct (scan_words_ok v n S id (k + 1) s value Hv) as [(bv&s'&v2&->&Hall)|(k'&->&Hk'&Hnz&Hall)];
      try lia; [left|right].
    + eexists. split; [done|]. intros i Hin. destruct (Z.le_gt_cases i (32 * k + b)); [done|]. exfalso.
      apply (Hskip i); [lia| |done]. intros j Hj ->. apply Hall. split; [done|].
      by apply word_index, (br_elems _ _ _ Hv).
    + destruct (nth_word_ok v n S k' Hv) as [_ [Hwr Hwb]]; [lia|].
      destruct (lowest_exists (nth_word v k')) as (q&Hq); [done|done|].
      exists k', (Z.to_nat (bv_size n - k')), q, (nth_word v k'). pose proof Hq as (Hq1&Hq2&Hq3).
      split_and!; try (done || lia); [|intros; apply Hwb; lia].
      intros i Hi. destruct (decide (i < 32 * k')) as [Hlt|Hge].
      * apply Hskip; [lia|]. intros j Hj ->. apply Hall. pose proof (Z.div_mod i 32). pose proof (Z.mod_pos_bound i 32). lia.
      * specialize (Hq3 (i - 32 * k')). rewrite Hwb in Hq3 by lia. replace (32 * k' + (i - 32 * k')) with i in Hq3 by lia.
        apply bool_decide_eq_false in Hq3; [done|lia].
  - right. destruct (lowest_exists value Hvr Hnz) as (q&Hq). exists k, s, q, value. pose proof Hq as (Hq1&Hq2&Hq3).
    rewrite Hvb in Hq2 by lia. apply andb_prop in Hq2 as [Hbq Hin]. Zbool.
    split_and!; try (done || lia).
    + intros i Hi. specialize (Hq3 (i - 32 * k)). rewrite Hhere in Hq3; [|apply in_word; lia|lia].
      apply bool_decide_eq_false in Hq3; [done|lia].
    + intros j Hj. rewrite Hvb by lia. by destruct (Z.ltb_spec b j); [|lia].
Qed.

(** A scan from [start] finds the first run of the set from there on, and leaves the vector
    as it is. *)
Lemma bv_scan_ok v n S start :
  bv_rep v n S -> 0 <= start <= INT_MAX + 1 ->
  (exists out, bv_scan v start = Ok (v, false, out) /\ forall i, i ∈ S -> i < start)
  \/ (exists min max, bv_scan v start = Ok (v, true, Some (min, max)) /\ start <= min /\ max < n
      /\ (forall i, start <= i < min -> i ∉ S) /\ run_to S min max).
Proof.
  intros Hv Hstart. pose proof (br_n _ _ _ Hv) as Hn. pose proof (size_small n Hn) as Hsm. pose proof (br_elems _ _ _ Hv) as He.
  unfold bv_scan. rewrite (br_size _ _ _ Hv), (br_mask _ _ _ Hv), (br_bits _ _ _ Hv). cbn [mbind res_bind].
  rewrite to_uint_small by (unfold INT_MAX, UINT_MOD in *; lia). pose proof (bv_size_bounds n).
  destruct (Z.eqb_spec (bv_size n) 0) as [Hz|Hz]; [left; eexists; split; [done|]; intros i ?%He; lia|].
  destruct (Z.geb_spec start n) as [Hge|Hlt]; [left; eexists; split; [done|]; intros i ?%He; lia|].
  pose proof (remask_ok v n S Hv ltac:(lia)) as Hm. apply bind_Ok in Hm as (w&->&Hwr). cbn [mbind res_bind].
  rewrite Hwr. cbn [mbind res_bind]. replace (bv_set_words v (bv_words v)) with v by by destruct v.
  destruct (start_bit n start) as (_&->&Hb&Hk&Hst); [lia|done|]. set (b := start mod 32) in *. set (k := start / 32) in *.
  unfold bv_wordbits. fold k. destruct (nth_word_ok v n S k Hv Hk) as [-> [Hwr' Hwb]]. cbn [mbind res_bind].
  rewrite land_pow2, Hwb, <- Hst by lia. rewrite (to_uint_small (bv_size n - k)) by (unfold UINT_MOD; lia).
  case_bool_decide as Hin; simpl negb; cbn iota.
  - destruct (scan_end_ok v n S k b (Z.to_nat (bv_size n - k)) (nth_word v k)) as (max&Hrun&Hse);
      try done; [by rewrite <- Hst|lia|intros; apply Hwb; lia|]. rewrite <- Hst in Hrun, Hse. rewrite Hse. right.
    exists start, max. destruct Hrun as (Hr1&Hr2&Hr3). split_and!; [done|lia| |lia|done]. apply He, Hr2. lia.
  - set (value := Z.land (nth_word v k) _).
    assert (forall j, 0 <= j < 32 -> Z.testbit value j = (b <? j) && bool_decide (32 * k + j ∈ S)) as Hvb.
    { intros j Hj. unfold value. rewrite Z.land_spec, above_testbit, Hwb by lia. apply andb_comm. }
    assert (0 <= value < UINT_MOD) as Hvr by (apply land_range; [done|apply above_range]).
    destruct (scan_next v n S k b (Z.to_nat (bv_size n - k)) value) as [([[[x1 x2] x3] x4]&->&Hall)|
      (k'&s'&q&value'&->&Hs'&Hk'&Hvr'&Hq&Hlt'&Hgap&Hbits)]; try (done || lia); [left|right]; cbn [mbind res_bind].
    + eexists. split; [done|]. intros i Hi. specialize (Hall i Hi). rewrite <- Hst in Hall.
      destruct (decide (i = start)) as [->|]; [done|lia].
    + pose proof Hq as (Hq1&Hq2&Hq3). rewrite to_uint_small by (unfold UINT_MOD; lia).
      rewrite (scan_low_ok 32 value' _ _ q), iter_shl by (done || lia || (unfold UINT_MOD; lia)). cbn [mbind res_bind].
      replace (k' * 32 + q) with (32 * k' + q) by lia.
      destruct (scan_end_ok v n S k' q s' value') as (max&Hrun&->); try (done || lia); [|intros; apply Hbits; lia|].
      { rewrite Hbits in Hq2 by lia. by apply bool_decide_eq_true in Hq2. }
      exists (32 * k' + q), max. destruct Hrun as (Hr1&Hr2&Hr3). split_and!; [done|lia| | |done].
      * apply He, Hr2. lia.
      * intros i Hi. destruct (decide (i = start)) as [->|]; [done|apply Hgap; lia].
Qed.

(** ** The loops over a set *)

Lemma for_res_each {A} m i (body : Z -> A -> res A) acc : for_res m i body acc = each_res (seqZ i (Z.of_nat m)) body acc.
Proof.
  revert i acc. induction m as [|m IH]; intros i acc; [done|]. rewrite seqZ_cons by lia. simpl.
  replace (Z.pred (Z.of_nat (S m))) with (Z.of_nat m) by lia. destruct (body i acc); simpl; [|done..].
  rewrite IH. by replace (i + 1) with (Z.succ i) by lia.
Qed.

(** The elements from [a] on, below [n], in ascending order. *)
Definition elems_from (a n : Z) (S : gset Z) : list Z := filter (fun i => i ∈ S) (seqZ a (n - a)).
Definition elems (n : Z) (S : gset Z) : list Z := elems_from 0 n S.

Lemma elem_of_elems_from a n S i : i ∈ elems_from a n S <-> a <= i < n /\ i ∈ S.
Proof. unfold elems_from. rewrite list_elem_of_filter, elem_of_seqZ. intuition lia. Qed.

Lemma elems_from_none a n S : (forall i, a <= i < n -> i ∉ S) -> elems_from a n S = [].
Proof. intros H. apply elem_of_nil_inv. intros x [Hx ?]%elem_of_elems_from. by apply (H x). Qed.

Lemma elems_from_all a n S : (forall i, a <= i < n -> i ∈ S) -> elems_from a n S = seqZ a (n - a).
Proof.
  intros H. unfold elems_from. assert (forall i, i ∈ seqZ a (n - a) -> i ∈ S) as Hall.
  { intros i ?%elem_of_seqZ. apply H. lia. }
  induction (seqZ a (n - a)) as [|x l IH]; [done|]. rewrite filter_cons_True by (apply Hall; left).
  f_equal. apply IH. intros i Hi. apply Hall. by right.
Qed.

Lemma elems_from_split a b n S : a <= b <= n -> elems_from a n S = elems_from a b S ++ elems_from b n S.
Proof.
  intros Hb. unfold elems_from. rewrite <- list.filter_app. f_equal.
  replace (n - a) with ((b - a) + (n - b)) by lia. rewrite seqZ_app by lia. do 2 f_equal. lia.
Qed.

(** A run, and what is left after it. *)
Lemma elems_from_run start n S min max :
  start <= min -> max < n -> (forall i, start <= i < min -> i ∉ S) -> run_to S min max ->
  elems_from start n S = seqZ min (max - min + 1) ++ elems_from (max + 2) n S.
Proof.
  intros Hs Hn Hgap (Hle&Hall&Hout). rewrite (elems_from_split start min) by lia. rewrite (elems_from_none start min) by done.
  rewrite (elems_from_split min (max + 1)), (elems_from_all min (max + 1)) by (lia || (intros; apply Hall; lia)).
  simpl. f_equal; [f_equal; lia|]. destruct (decide (max + 1 = n)) as [<-|].
  - rewrite !elems_from_none; [done|intros; lia|intros; lia].
  - rewrite (elems_from_split (max + 1) (max + 2)) by lia. rewrite (elems_from_none (max + 1) (max + 2)); [done|].
    intros i Hi. by replace i with (max + 1) by lia.
Qed.

Lemma bv_for_each_from {A} fuel v n S start (body : Z -> A -> res A) acc :
  bv_rep v n S -> 0 <= start <= INT_MAX + 1 -> n - start <= Z.of_nat fuel ->
  bv_for_each fuel v start body acc = (acc ← each_res (elems_from start n S) body acc; Ok (v, acc)).
Proof.
  intros Hv. pose proof (br_n _ _ _ Hv) as Hn. revert start acc.
  induction fuel as [|fuel IH]; intros start acc Hst Hf; cbn [bv_for_each];
    (destruct (bv_scan_ok v n S start Hv Hst) as [(out&->&Hall)|(min&max&->&H1&H2&Hgap&Hrun)]; cbn [mbind res_bind];
     [rewrite elems_from_none; [done|intros i Hi Hin; specialize (Hall i Hin); lia]|]).
  - destruct Hrun as (?&?&?). lia.
  - rewrite (elems_from_run start n S min max), each_res_app by done. destruct Hrun as (Hle&_).
    rewrite for_res_each, Z2Nat.id by lia. destruct (each_res (seqZ _ _) body acc) as [acc'| |]; simpl; [|done..].
    apply IH; lia.
Qed.

(** The idiom visits the elements of the set in ascending order. *)
Lemma bv_for_each_ok {A} fuel v n S (body : Z -> A -> res A) acc :
  bv_rep v n S -> n <= Z.of_nat fuel ->
  bv_for_each fuel v 0 body acc = (acc ← each_res (elems n S) body acc; Ok (v, acc)).
Proof. intros Hv Hf. apply bv_for_each_from; [done|unfold INT_MAX; lia|lia]. Qed.

Lemma bv_count_from fuel v n S start c :
  bv_rep v n S -> 0 <= start <= INT_MAX + 1 -> n - start <= Z.of_nat fuel ->
  bv_count_loop fuel v start c = Ok (c + Z.of_nat (length (elems_from start n S)), v).
Proof.
  intros Hv. pose proof (br_n _ _ _ Hv) as Hn. revert start c.
  induction fuel as [|fuel IH]; intros start c Hst Hf; cbn [bv_count_loop];
    (destruct (bv_scan_ok v n S start Hv Hst) as [(out&->&Hall)|(min&max&->&H1&H2&Hgap&Hrun)]; cbn [mbind res_bind];
     [rewrite elems_from_none; [simpl; do 2 f_equal; lia|intros i Hi Hin; specialize (Hall i Hin); lia]|]).
  - destruct Hrun as (?&?&?). lia.
  - rewrite (elems_from_run start n S min max) by done. destruct Hrun as (Hle&_).
    rewrite IH, length_app, length_seqZ by lia. do 2 f_equal. lia.
Qed.

Lemma elems_size n S : (forall i, i ∈ S -> 0 <= i < n) -> length (elems n S) = size S.
Proof.
  intros HS. unfold elems. rewrite <- (size_list_to_set (C := gset Z)).
  - f_equal. apply set_eq. intros i. rewrite elem_of_list_to_set, elem_of_elems_from. split; [by intros []|auto].
  - unfold elems_from. apply NoDup_filter, NoDup_seqZ.
Qed.

Lemma each_res_bit_set v n S l :
  bv_rep v n S -> Forall (fun i => 0 <= i < n) l ->
  exists v', each_res l (fun i v => bv_bit_set v i) v = Ok v' /\ bv_rep v' n (S ∪ list_to_set l).
Proof.
  intros Hv Hl. revert v S Hv. induction Hl as [|i l Hi Hl IH]; intros v S Hv.
  - exists v. split; [done|]. by replace (S ∪ list_to_set []) with S by set_solver.
  - destruct (bv_bit_set_ok v n S i Hv Hi) as (v1&Hs&Hv1&_). destruct (IH v1 _ Hv1) as (v'&Hr&Hv'). exists v'. simpl.
    rewrite Hs. split; [done|]. by rewrite (assoc_L _ S), (comm_L _ S).
Qed.

Lemma seqZ_sorted a m : StronglySorted Z.lt (seqZ a m).
Proof.
  destruct (Z.le_gt_cases 0 m) as [Hm|]; [|by rewrite seqZ_nil by lia; constructor].
  rewrite <- (Z2Nat.id m Hm). revert a. induction (Z.to_nat m) as [|k IH]; intros a; [constructor|].
  rewrite seqZ_cons by lia. replace (Z.pred (Z.of_nat (S k))) with (Z.of_nat k) by lia.
  constructor; [apply IH|]. apply Forall_forall. intros x ?%elem_of_seqZ. lia.
Qed.

Lemma StronglySorted_filter' {A} (R : A -> A -> Prop) P `{forall x, Decision (P x)} l :
  StronglySorted R l -> StronglySorted R (filter P l).
Proof.
  induction 1 as [|x l Hl IH Hx]; [constructor|]. destruct (decide (P x)) as [Hp|Hp];
    [rewrite filter_cons_True by done|by rewrite filter_cons_False by done].
  constructor; [done|]. rewrite Forall_forall in *. intros y [_ Hy]%list_elem_of_filter. by apply Hx.
Qed.

(** C29. Writing a set of numbers into a fresh bit vector and reading it back with the scan
    loop gives the numbers in ascending order, each of them once, whatever the order and the
    repetitions in which they were set; the count is the number of them. *)
Theorem bit_vector_roundtrip n l :
  0 <= n <= INT_MAX -> Forall (fun i => 0 <= i < n) l ->
  exists v out,
    each_res l (fun i v => bv_bit_set v i) (bv_create n) = Ok v
    /\ bv_for_each (Z.to_nat n) v 0 (fun i acc => Ok (acc ++ [i])) [] = Ok (v, out)
    /\ StronglySorted Z.lt out /\ (forall i, i ∈ out <-> i ∈ l)
    /\ bv_count (Z.to_nat n) v = Ok (Z.of_nat (length out), v).
Proof.
  intros Hn Hl. destruct (each_res_bit_set _ n ∅ l (bv_create_ok n Hn) Hl) as (v&Hs&Hv). exists v, (elems n (∅ ∪ list_to_set l)).
  rewrite (bv_for_each_ok _ v n _ _ _ Hv) by lia. rewrite each_res_collect.
  split_and!; [done|done|apply StronglySorted_filter', seqZ_sorted| |
    unfold bv_count; rewrite (bv_count_from _ v n _ _ _ Hv) by (unfold INT_MAX in *; lia); done].
  intros i. unfold elems. rewrite elem_of_elems_from, elem_of_union, elem_of_list_to_set.
  split; [intros [_ [?|?]]; [set_solver|done]|]. intros Hi. split; [|by right].
  rewrite Forall_forall in Hl. auto.
Qed.

Lemma bit_vector_roundtrip_witness :
  exists v out,
    each_res [39; 3; 4; 5; 39] (fun i v => bv_bit_set v i) (bv_create 40) = Ok v
    /\ bv_for_each (Z.to_nat 40) v 0 (fun i acc => Ok (acc ++ [i])) [] = Ok (v, out)
    /\ StronglySorted Z.lt out /\ (forall i, i ∈ out <-> i ∈ [39; 3; 4; 5; 39])
    /\ bv_count (Z.to_nat 40) v = Ok (Z.of_nat (length out), v).
Proof. apply (bit_vector_roundtrip 40 [39; 3; 4; 5; 39]); [unfold INT_MAX; lia|]. repeat (constructor; [lia|]). constructor. Defined.

(** A vector that [bv_fill()] fills may have bits that it does not have set: the function
    masks the last word with the word before it. *)
Lemma bv_fill_unmasked :
  exists v, bv_fill (bv_create 40) = Ok v /\ bv_bit_test v 50 = Ok true /\ forall S, ~ bv_rep v 40 S.
Proof.
  eexists. split; [vm_compute; reflexivity|]. split; [vm_compute; reflexivity|]. intros S Hv.
  destruct (nth_word_ok _ 40 S 1 Hv) as [Hr [_ Hb]]; [vm_compute; intuition congruence|].
  specialize (Hb 18 ltac:(lia)). revert Hb. vm_compute (Z.testbit _ _). intros Hb. symmetry in Hb.
  apply bool_decide_eq_true in Hb. apply (br_elems _ _ _ Hv) in Hb. lia.
Qed.
