(* ===== verification/Matrix.v ===== *)
(** * The bit matrices of libmarpa ([libmarpa-dist/marpa.c], "boolean matrixes")

    A matrix is a row count and an array of words that holds the rows one after the other,
    each of them a bit vector with its header.  A row is a [Bit_Vector] of that array, so an
    operation on a row leaves the array for the whole matrix. *)
From S2P Require Import Prelude BitVector.

Record Bit_Matrix : Type := BM { t_row_count : Z; t_row_data : list Z }.

Definition bm_set_data (m : Bit_Matrix) (l : list Z) : Bit_Matrix := BM (t_row_count m) l.

(** The header and the cleared words of the row that starts at the index [row_start]. *)
Definition matrix_row_create (columns row_start : Z) (l : list Z) : res (list Z) :=
  l ← wr l row_start (to_uint columns);
  l ← wr l (row_start + 1) (bv_bits_to_size columns);
  l ← wr l (row_start + 2) (bv_bits_to_unused_mask columns);
  word_loop (Z.to_nat (bv_bits_to_size columns)) 0 (fun _ _ => Ok 0) (row_start + 3) l.

(** [buffer] is what the memory of the rows holds. *)
Definition matrix_buffer_create (buffer : list Z) (rows columns : Z) : res Bit_Matrix :=
  l ← for_res (Z.to_nat rows) 0 (fun row l =>
        matrix_row_create columns (to_uint (to_uint row * to_uint (bv_bits_to_size columns + bv_hiddenwords))) l) buffer;
  Ok (BM rows l).

(** In words, for the rows. *)
Definition matrix_data_words (rows columns : Z) : Z := rows * to_uint (bv_bits_to_size columns + bv_hiddenwords).

Definition sizeof_Bit_Vector_Word : Z := 4.
Definition offsetof_t_row_data : Z := 4.

(** The row size is a [LBW]: it is computed in 32 bits. *)
Definition matrix_sizeof (rows columns : Z) : Z :=
  let row_bytes := to_uint ((bv_bits_to_size columns + bv_hiddenwords) * sizeof_Bit_Vector_Word) in
  offsetof_t_row_data + rows * row_bytes.

(** The memory comes from an obstack: [junk] is what it holds. *)
Definition matrix_obs_create (junk : list Z) (rows columns : Z) : res Bit_Matrix :=
  matrix_buffer_create (resize (Z.to_nat ((matrix_sizeof rows columns - offsetof_t_row_data) / sizeof_Bit_Vector_Word)) 0 junk) rows columns.

Definition row0 (matrix : Bit_Matrix) : Bit_Vector := BV (t_row_data matrix) bv_hiddenwords.

Definition words_per_row (matrix : Bit_Matrix) : res Z := size ← BV_SIZE (row0 matrix); Ok (to_uint (size + bv_hiddenwords)).

Definition matrix_clear (matrix : Bit_Matrix) : res Bit_Matrix :=
  words ← words_per_row matrix;
  l ← for_res (Z.to_nat (t_row_count matrix)) 0 (fun row_ix l =>
        v ← bv_clear (BV l (bv_hiddenwords + row_ix * words)); Ok (bv_words v)) (t_row_data matrix);
  Ok (bm_set_data matrix l).

Definition matrix_columns (matrix : Bit_Matrix) : res Z := bits ← BV_BITS (row0 matrix); Ok (to_int bits).

Definition matrix_row (matrix : Bit_Matrix) (row : Z) : res Bit_Vector :=
  words ← words_per_row matrix;
  Ok (BV (t_row_data matrix) (bv_hiddenwords + to_uint (to_uint row * words))).

Definition matrix_bit_set (matrix : Bit_Matrix) (row column : Z) : res Bit_Matrix :=
  vector ← matrix_row matrix row;
  vector ← bv_bit_set vector column;
  Ok (bm_set_data matrix (bv_words vector)).

Definition matrix_bit_clear (matrix : Bit_Matrix) (row column : Z) : res Bit_Matrix :=
  vector ← matrix_row matrix row;
  vector ← bv_bit_clear vector column;
  Ok (bm_set_data matrix (bv_words vector)).

Definition matrix_bit_test (matrix : Bit_Matrix) (row column : Z) : res bool :=
  vector ← matrix_row matrix row;
  bv_bit_test vector column.

(** The body of the inner loop of [transitive_closure()]. *)
Definition closure_step (outer_row column : Z) (matrix : Bit_Matrix) : res Bit_Matrix :=
  outer_row_v ← matrix_row matrix outer_row;
  inner_row_v ← matrix_row matrix column;
  b ← bv_bit_test inner_row_v outer_row;
  if b : bool then
    v ← bv_or_assign inner_row_v (bv_base outer_row_v);
    Ok (bm_set_data matrix (bv_words v))
  else Ok matrix.

Definition transitive_closure (matrix : Bit_Matrix) : res Bit_Matrix :=
  size ← matrix_columns matrix;
  for_res (Z.to_nat size) 0 (fun outer_row matrix =>
    for_res (Z.to_nat size) 0 (fun column matrix => closure_step outer_row column matrix) matrix) matrix.
