(* ===== verification/MatrixTheorems.v ===== *)
(** * Theorems about the bit matrices

    A matrix represents a relation on the numbers below its sizes; [transitive_closure()]
    leaves the transitive closure of it. *)
From stdpp Require Import sets gmap list_numbers relations.
From S2P Require Import Prelude BitVector BitVectorTheorems Matrix.

(** ** Representation *)

Definition row_words (n : Z) : Z := bv_size n + 3.
Definition row_base (n i : Z) : Z := 3 + i * row_words n.

(** [m] has [r] rows of [n] bits, the row [i] being the set [R i]; the words fit in the
    width of an index. *)
Record bm_rep (m : Bit_Matrix) (r n : Z) (R : Z -> gset Z) : Prop := {
  mr_rows : t_row_count m = r;
  mr_pos : 0 < r;
  mr_fits : r * row_words n < UINT_MOD;
  mr_row i : 0 <= i < r -> bv_rep (BV (t_row_data m) (row_base n i)) n (R i)
}.

Lemma mr_n m r n R : bm_rep m r n R -> 0 <= n <= INT_MAX.
Proof. intros Hm. apply (br_n _ _ _ (mr_row _ _ _ _ Hm 0 ltac:(pose proof (mr_pos _ _ _ _ Hm); lia))). Qed.

Lemma row_words_pos n : 0 <= n -> 3 <= row_words n.
Proof. intros. unfold row_words. pose proof (bv_size_bounds n). lia. Qed.

Lemma words_per_row_ok m r n R : bm_rep m r n R -> words_per_row m = Ok (row_words n).
Proof.
  intros Hm. pose proof (mr_pos _ _ _ _ Hm) as Hp. pose proof (mr_fits _ _ _ _ Hm) as Hf. pose proof (mr_n _ _ _ _ Hm) as Hn.
  pose proof (mr_row _ _ _ _ Hm 0 ltac:(lia)) as H0. unfold words_per_row, row0, bv_hiddenwords.
  change 3 with (row_base n 0). rewrite (br_size _ _ _ H0). cbn [mbind res_bind]. unfold row_base. rewrite Z.mul_0_l, Z.add_0_r.
  pose proof (row_words_pos n). unfold row_words in *. by rewrite to_uint_small by nia.
Qed.

Lemma matrix_columns_ok m r n R : bm_rep m r n R -> matrix_columns m = Ok n.
Proof.
  intros Hm. pose proof (mr_pos _ _ _ _ Hm) as Hp. pose proof (mr_n _ _ _ _ Hm) as Hn.
  pose proof (mr_row _ _ _ _ Hm 0 ltac:(lia)) as H0. unfold matrix_columns, row0, bv_hiddenwords.
  change 3 with (row_base n 0). rewrite (br_bits _ _ _ H0). cbn [mbind res_bind]. rewrite to_int_small; [done|].
  unfold is_int, INT_MIN, INT_MAX in *. lia.
Qed.

Lemma row_index n r i : 0 <= i < r -> 0 <= n -> r * row_words n < UINT_MOD -> 0 <= i * row_words n < UINT_MOD.
Proof. intros. pose proof (row_words_pos n). nia. Qed.

Lemma matrix_row_ok m r n R i : bm_rep m r n R -> 0 <= i < r -> matrix_row m i = Ok (BV (t_row_data m) (row_base n i)).
Proof.
  intros Hm Hi. unfold matrix_row. rewrite (words_per_row_ok _ _ _ _ Hm). cbn [mbind res_bind].
  pose proof (mr_n _ _ _ _ Hm) as Hn. pose proof (mr_fits _ _ _ _ Hm) as Hf. pose proof (row_words_pos n).
  rewrite (to_uint_small i) by nia. rewrite to_uint_small by (eapply row_index; lia || done). done.
Qed.

(** Rows are apart. *)
Lemma rows_apart n i j : 0 <= n -> 0 <= i -> 0 <= j -> i <> j ->
  row_base n i + bv_size n + 3 <= row_base n j \/ row_base n j + bv_size n + 3 <= row_base n i.
Proof.
  intros. unfold row_base, row_words. pose proof (bv_size_bounds n). destruct (Z.lt_total i j) as [?|[?|?]]; [left|done|right]; nia.
Qed.

(** The relation with one row replaced. *)
Definition row_set (R : Z -> gset Z) (i : Z) (S : gset Z) : Z -> gset Z := fun j => if decide (j = i) then S else R j.

(** A vector is what its header and its data words are. *)
Lemma bv_rep_frame l l' x n S :
  bv_rep (BV l x) n S -> length l' = length l -> (forall i, x - 3 <= i < x + bv_size n -> rd l' i = rd l i) -> bv_rep (BV l' x) n S.
Proof.
  intros [Hn Hb Hbd Hbits Hsz Hm Hw He] Hlen Hsame. pose proof (bv_size_bounds n). unfold BV_BITS, BV_SIZE, BV_MASK in *.
  cbn [bv_base bv_words] in *. split; cbn [bv_base bv_words]; try done; unfold BV_BITS, BV_SIZE, BV_MASK; cbn [bv_base bv_words].
  - by rewrite Hlen.
  - by rewrite Hsame by lia.
  - by rewrite Hsame by lia.
  - by rewrite Hsame by lia.
  - intros k Hk. rewrite Hsame by lia. by apply Hw.
Qed.

(** The words of one row written. *)
Lemma bm_rep_row m r n R i v S :
  bm_rep m r n R -> 0 <= i < r ->
  bv_rep v n S -> bv_same (BV (t_row_data m) (row_base n i)) v n -> bm_rep (bm_set_data m (bv_words v)) r n (row_set R i S).
Proof.
  intros Hm Hi Hv (Hbase&Hlen&Hsame). pose proof (mr_n _ _ _ _ Hm) as Hn. destruct Hm as [Hr Hp Hf Hrow].
  split; [done|done|done|]. intros j Hj. unfold row_set. cbn [bv_base bv_words bm_set_data t_row_data] in *.
  destruct (decide (j = i)) as [->|Hne]; [rewrite <- Hbase; by destruct v|].
  pose proof (rows_apart n i j ltac:(lia) ltac:(lia) ltac:(lia) (not_eq_sym Hne)) as Hap.
  eapply bv_rep_frame; [by apply Hrow|done|]. intros k Hk. apply Hsame. lia.
Qed.

Lemma bm_rep_ext m r n R R' : bm_rep m r n R -> (forall i, 0 <= i < r -> R' i = R i) -> bm_rep m r n R'.
Proof. intros [Hr Hp Hf Hrow] HR. split; try done. intros i Hi. rewrite HR by done. auto. Qed.

(** ** Operations on a bit *)

Section bit.
Context (m : Bit_Matrix) (r n : Z) (R : Z -> gset Z) (i j : Z).
Hypotheses (Hm : bm_rep m r n R) (Hi : 0 <= i < r) (Hj : 0 <= j < n).

Lemma matrix_bit_test_ok : matrix_bit_test m i j = Ok (bool_decide (j ∈ R i)).
Proof. unfold matrix_bit_test. rewrite (matrix_row_ok _ _ _ _ _ Hm Hi). apply bv_bit_test_ok with n; [by apply Hm|done]. Qed.

Lemma matrix_bit_set_ok : exists m', matrix_bit_set m i j = Ok m' /\ bm_rep m' r n (row_set R i ({[j]} ∪ R i)).
Proof.
  unfold matrix_bit_set. rewrite (matrix_row_ok _ _ _ _ _ Hm Hi). cbn [mbind res_bind].
  destruct (bv_bit_set_ok _ _ _ j (mr_row _ _ _ _ Hm i Hi) Hj) as (v&->&Hv&Hs). cbn [mbind res_bind].
  eexists. split; [done|]. by apply bm_rep_row.
Qed.

Lemma matrix_bit_clear_ok : exists m', matrix_bit_clear m i j = Ok m' /\ bm_rep m' r n (row_set R i (R i ∖ {[j]})).
Proof.
  unfold matrix_bit_clear. rewrite (matrix_row_ok _ _ _ _ _ Hm Hi). cbn [mbind res_bind].
  destruct (bv_bit_clear_ok _ _ _ j (mr_row _ _ _ _ Hm i Hi) Hj) as (v&->&Hv&Hs). cbn [mbind res_bind].
  eexists. split; [done|]. by apply bm_rep_row.
Qed.
End bit.

(** ** Creation *)

Lemma matrix_clear_ok m r n R : bm_rep m r n R -> exists m', matrix_clear m = Ok m' /\ bm_rep m' r n (fun _ => ∅).
Proof.
  intros Hm. unfold matrix_clear. rewrite (words_per_row_ok _ _ _ _ Hm), (mr_rows _ _ _ _ Hm). cbn [mbind res_bind].
  pose proof (mr_pos _ _ _ _ Hm) as Hp.
  destruct (for_res_ok (fun k l => bm_rep (bm_set_data m l) r n (fun i => if decide (i < k) then ∅ else R i)) (Z.to_nat r) 0
    (fun row_ix l => v ← bv_clear (BV l (bv_hiddenwords + row_ix * row_words n)); Ok (bv_words v)) (t_row_data m)) as (l&->&Hl).
  - destruct m. eapply bm_rep_ext; [exact Hm|]. intros i Hi. by rewrite decide_False by lia.
  - intros k l Hk Hl. destruct (bv_clear_ok _ _ _ (mr_row _ _ _ _ Hl k ltac:(lia))) as (v&Hc&Hv&Hs).
    unfold bv_hiddenwords. fold (row_base n k). cbn [bm_set_data t_row_data] in Hc. rewrite Hc. cbn [mbind res_bind].
    eexists. split; [done|]. eapply bm_rep_ext; [apply (bm_rep_row _ r n _ k v ∅ Hl); [lia|done|done]|].
    intros i Hi. unfold row_set. destruct (decide (i = k)) as [->|]; [by rewrite decide_True by lia|].
    destruct (decide (i < k)); [by rewrite decide_True by lia|by rewrite decide_False by lia].
  - cbv beta in Hl. cbn [mbind res_bind]. eexists. split; [done|]. eapply bm_rep_ext; [exact Hl|]. intros i Hi. cbv beta.
    by destruct (decide (i < 0 + Z.of_nat (Z.to_nat r))); [|lia].
Qed.

(** The relation of a matrix: the rows it has. *)
Definition bm_rel (r : Z) (R : Z -> gset Z) (i j : Z) : Prop := 0 <= i < r /\ j ∈ R i.

Section creation.
Variables (r n : Z).
Hypotheses (Hn : 0 <= n <= INT_MAX) (Hr : 0 < r <= INT_MAX) (Hfits : r * row_words n < UINT_MOD).

Lemma row_words_eq : to_uint (bv_bits_to_size n + bv_hiddenwords) = row_words n.
Proof.
  destruct (bits_to_size n Hn) as [_ ->]. pose proof (bv_size_bounds n). unfold row_words, bv_hiddenwords in *.
  apply to_uint_small. nia.
Qed.

(** One row: the words before and after it are as they were. *)
Lemma matrix_row_create_ok l i :
  0 <= i < r -> r * row_words n <= Z.of_nat (length l) ->
  exists l', matrix_row_create n (i * row_words n) l = Ok l' /\ length l' = length l /\ bv_rep (BV l' (row_base n i)) n ∅
    /\ forall k, k < i * row_words n \/ (i + 1) * row_words n <= k -> rd l' k = rd l k.
Proof.
  intros Hi Hlen. pose proof (row_words_pos n ltac:(lia)) as Hw. pose proof (bv_size_bounds n). destruct (bits_to_size n Hn) as [Hu Hs].
  assert (0 <= i * row_words n /\ i * row_words n + row_words n <= Z.of_nat (length l)) as [Hlo Hhi] by nia.
  unfold matrix_row_create. rewrite Hs, Hu. set (s := i * row_words n) in *. set (mask := bv_bits_to_unused_mask n).
  unfold row_words in Hhi.
  rewrite wr_total by lia. cbn [mbind res_bind]. rewrite wr_total by (rewrite length_insert; lia). cbn [mbind res_bind].
  rewrite wr_total by (rewrite !length_insert; lia). cbn [mbind res_bind].
  set (l3 := <[Z.to_nat (s + 2) := mask]> _).
  assert (length l3 = length l) as Hl3 by (unfold l3; by rewrite !length_insert).
  destruct (word_loop_ok (Z.to_nat (bv_size n)) (fun _ _ => Ok 0) (s + 3) l3 (fun _ => 0)) as (l'&Hl&Hlen'&Hout&Hin); [lia|lia|done|].
  rewrite Z2Nat.id in Hin, Hout by lia. exists l'. replace (row_base n i) with (s + 3) by (unfold row_base, s; lia).
  split_and!; [done|by rewrite Hlen'| |].
  - split; unfold BV_BITS, BV_SIZE, BV_MASK; cbn [bv_base bv_words]; try done; try lia; try set_solver.
    + rewrite Hout by lia. unfold l3. rewrite !rd_wr_ne by lia. replace (s + 3 - 3) with s by lia. apply rd_wr_eq. lia.
    + rewrite Hout by lia. unfold l3. rewrite rd_wr_ne by lia. replace (s + 3 - 2) with (s + 1) by lia.
      apply rd_wr_eq. rewrite length_insert. lia.
    + rewrite Hout by lia. unfold l3. replace (s + 3 - 1) with (s + 2) by lia. apply rd_wr_eq. rewrite !length_insert. lia.
    + intros k Hk. exists 0. split; [by apply Hin|apply word_of_empty].
  - intros k Hk. assert (k < s \/ s + 3 + bv_size n <= k) as Hk' by (unfold s, row_words in *; nia).
    rewrite Hout by lia. unfold l3. by rewrite !rd_wr_ne by lia.
Qed.

Lemma matrix_buffer_create_ok buffer :
  r * row_words n <= Z.of_nat (length buffer) ->
  exists m, matrix_buffer_create buffer r n = Ok m /\ bm_rep m r n (fun _ => ∅).
Proof.
  intros Hlen. unfold matrix_buffer_create. rewrite row_words_eq. pose proof (row_words_pos n ltac:(lia)) as Hw.
  edestruct (for_res_ok (fun k l => length l = length buffer /\ forall i, 0 <= i < k -> bv_rep (BV l (row_base n i)) n ∅) (Z.to_nat r) 0)
    as (l&Hl&_&Hrows); [split; [reflexivity|lia]| |].
  2: { rewrite Hl. eexists. split; [done|]. split; [done|lia|done|]. intros i Hi. apply Hrows. lia. }
  intros k l Hk [Hll Hrows]. cbv beta. rewrite (to_uint_small k) by nia. rewrite to_uint_small by nia.
  destruct (matrix_row_create_ok l k) as (l'&->&Hl'&Hv&Hout); [lia|lia|]. exists l'. split; [done|]. split; [congruence|].
  intros i Hi. destruct (decide (i = k)) as [->|]; [done|]. eapply bv_rep_frame; [apply Hrows; lia|done|].
  intros j Hj. apply Hout. unfold row_base in Hj. unfold row_words in *. nia.
Qed.

Lemma matrix_obs_create_ok junk :
  row_words n * 4 < UINT_MOD -> exists m, matrix_obs_create junk r n = Ok m /\ bm_rep m r n (fun _ => ∅).
Proof.
  intros Hf. apply matrix_buffer_create_ok. rewrite length_resize. unfold matrix_sizeof, offsetof_t_row_data, sizeof_Bit_Vector_Word.
  destruct (bits_to_size n Hn) as [_ ->]. fold (row_words n). pose proof (row_words_pos n ltac:(lia)) as Hw.
  change (bv_size n + bv_hiddenwords) with (row_words n). rewrite to_uint_small by nia.
  replace (4 + r * (row_words n * 4) - 4) with (r * row_words n * 4) by lia. rewrite Z.div_mul by lia. nia.
Qed.
End creation.

(** ** Transitive closure *)

Lemma tc_ext {A} (R R' : A -> A -> Prop) x y : (forall x y, R x y <-> R' x y) -> tc R x y <-> tc R' x y.
Proof. intros HR. split; induction 1 as [x y Hxy|x y z Hxy _ IH]; apply HR in Hxy; (by apply tc_once) || (by eapply tc_l). Qed.

(** There is a path from [i] to [j] whose inner numbers are below [k]. *)
Inductive via (R : Z -> gset Z) (k : Z) : Z -> Z -> Prop :=
  | via_one i j : j ∈ R i -> via R k i j
  | via_mid i m j : via R k i m -> m < k -> via R k m j -> via R k i j.
#[local] Hint Constructors via : core.

Lemma via_succ R k i j : via R (k + 1) i j <-> via R k i j \/ (via R k i k /\ via R k k j).
Proof.
  split.
  - induction 1 as [|i m j _ IH1 Hm _ IH2]; [auto|]. destruct (decide (m = k)) as [->|].
    + right. split; [destruct IH1 as [|[]]|destruct IH2 as [|[]]]; done.
    + assert (m < k) by lia. destruct IH1 as [?|[]], IH2 as [?|[]]; eauto.
  - assert (forall i j, via R k i j -> via R (k + 1) i j) as Hup.
    { induction 1; [auto|]. eapply via_mid; [done|lia|done]. }
    intros [?|[]]; [auto|]. apply via_mid with k; [auto|lia|auto].
Qed.

Lemma via_zero R i j : (forall i j, j ∈ R i -> 0 <= j) -> via R 0 i j <-> j ∈ R i.
Proof.
  intros HR. split; [|auto]. assert (forall i j, via R 0 i j -> 0 <= j) as Hpos by (induction 1; eauto).
  induction 1 as [|i m j H1 _ Hm H2 _]; [done|]. apply Hpos in H1. lia.
Qed.

Lemma via_tc R n i j : (forall i j, j ∈ R i -> j < n) -> via R n i j <-> tc (fun i j => j ∈ R i) i j.
Proof.
  intros HR. split.
  - induction 1; [by apply tc_once|by eapply tc_transitive].
  - induction 1 as [i j|i m j Him _ IH]; [auto|]. eapply via_mid; [by apply via_one|by eapply HR|done].
Qed.

Section closure.
Variables (n : Z) (Rn : Z -> gset Z).

(** The rows after the columns below [c] of the round [k]. *)
Definition round_rows (R : Z -> gset Z) (k c i : Z) : gset Z := if decide (i < c /\ k ∈ R i) then R i ∪ R k else R i.

Lemma closure_step_ok m R k c :
  bm_rep m n n (round_rows R k c) -> 0 <= k < n -> 0 <= c < n ->
  exists m', closure_step k c m = Ok m' /\ bm_rep m' n n (round_rows R k (c + 1)).
Proof.
  intros Hm Hk Hc. unfold closure_step. rewrite !(matrix_row_ok _ _ _ _ _ Hm) by done. cbn [mbind res_bind].
  pose proof (mr_row _ _ _ _ Hm k Hk) as Hvk. pose proof (mr_row _ _ _ _ Hm c Hc) as Hvc. pose proof (mr_n _ _ _ _ Hm) as Hn.
  rewrite (bv_bit_test_ok _ n _ k Hvc) by done. cbn [mbind res_bind].
  assert (round_rows R k c c = R c) as Hcc by (unfold round_rows; case_decide; [lia|done]). rewrite Hcc in Hvc |- *.
  assert (round_rows R k c k = R k) as Hkk by (unfold round_rows; case_decide; [set_solver|done]). rewrite Hkk in Hvk.
  assert (forall i, i <> c -> round_rows R k (c + 1) i = round_rows R k c i) as Hother.
  { intros i Hne. unfold round_rows. assert (i < c + 1 <-> i < c) as E by lia. do 2 case_decide; naive_solver. }
  case_bool_decide as Hb.
  - destruct (bv_or_assign_ok (t_row_data m) (row_base n c) (row_base n k) n (R c) (R k) Hvc Hvk) as (v&Hv&Hrep&Hs).
    { destruct (decide (c = k)) as [->|Hne]; [by left|right]. pose proof (rows_apart n c k). lia. }
    cbn [bv_base]. rewrite Hv. cbn [mbind res_bind]. eexists. split; [done|]. eapply bm_rep_ext; [by eapply bm_rep_row|].
    intros i Hi. unfold row_set. destruct (decide (i = c)) as [->|Hne]; [|by apply Hother].
    unfold round_rows. rewrite decide_True; [done|split; [lia|done]].
  - eexists. split; [done|]. eapply bm_rep_ext; [exact Hm|]. intros i Hi. destruct (decide (i = c)) as [->|Hne]; [|by apply Hother].
    rewrite Hcc. unfold round_rows. rewrite decide_False; [done|by intros []].
Qed.

(** One round of [transitive_closure()]. *)
Lemma closure_round m R k :
  bm_rep m n n R -> 0 <= k < n ->
  exists m', for_res (Z.to_nat n) 0 (fun column matrix => closure_step k column matrix) m = Ok m'
    /\ bm_rep m' n n (fun i => if decide (k ∈ R i) then R i ∪ R k else R i).
Proof.
  intros Hm Hk. destruct (for_res_ok (fun c m => bm_rep m n n (round_rows R k c)) (Z.to_nat n) 0
    (fun column matrix => closure_step k column matrix) m) as (m'&Hf&Hm').
  - eapply bm_rep_ext; [exact Hm|]. intros i Hi. unfold round_rows. rewrite decide_False; [done|lia].
  - intros c m1 Hc Hm1. apply closure_step_ok; [done|done|lia].
  - exists m'. split; [done|]. cbv beta in Hm'. eapply bm_rep_ext; [exact Hm'|]. intros i Hi. unfold round_rows.
    assert (i < 0 + Z.of_nat (Z.to_nat n)) as E by lia. do 2 case_decide; naive_solver.
Qed.

Lemma transitive_closure_ok m :
  bm_rep m n n Rn ->
  exists m' R', transitive_closure m = Ok m' /\ bm_rep m' n n R'
    /\ forall i j, 0 <= i < n -> j ∈ R' i <-> tc (fun i j => 0 <= i < n /\ j ∈ Rn i) i j.
Proof.
  intros Hm. unfold transitive_closure. rewrite (matrix_columns_ok _ _ _ _ Hm). cbn [mbind res_bind].
  pose proof (mr_n _ _ _ _ Hm) as Hn.
  set (R0 := fun i => if decide (0 <= i < n) then Rn i else ∅).
  assert (forall i j, j ∈ R0 i <-> 0 <= i < n /\ j ∈ Rn i) as HR0 by (intros i j; unfold R0; case_decide; set_solver).
  assert (forall i j, j ∈ R0 i -> 0 <= j < n) as Hin.
  { intros i j [Hi Hj]%HR0. exact (br_elems _ _ _ (mr_row _ _ _ _ Hm i Hi) j Hj). }
  destruct (for_res_ok (fun k m => exists R, bm_rep m n n R /\ forall i j, 0 <= i < n -> j ∈ R i <-> via R0 k i j) (Z.to_nat n) 0
    (fun k m => for_res (Z.to_nat n) 0 (fun c m => closure_step k c m) m) m) as (m'&Hf&R'&Hm'&HR').
  - exists R0. split; [eapply bm_rep_ext; [exact Hm|]; intros i Hi; unfold R0; by rewrite decide_True by done|].
    intros i j _. rewrite via_zero; [done|]. intros i' j' ?%Hin. lia.
  - intros k m1 Hk (R&Hm1&HR). destruct (closure_round m1 R k Hm1) as (m2&Hf&Hm2); [lia|]. exists m2. split; [exact Hf|].
    eexists. split; [exact Hm2|]. intros i j Hi. rewrite via_succ, <- !HR by lia. cbv beta.
    case_decide; [rewrite elem_of_union; intuition|intuition].
  - exists m', R'. split; [exact Hf|]. split; [done|]. intros i j Hi. rewrite HR' by done. rewrite Z.add_0_l, Z2Nat.id by lia.
    rewrite via_tc by (intros i' j' ?%Hin; lia).
    by apply tc_ext.
Qed.
End closure.

Lemma each_res_matrix_set n r m R (l : list (Z * Z)) :
  bm_rep m r n R -> Forall (fun p => 0 <= p.1 < r /\ 0 <= p.2 < n) l ->
  exists m' R', each_res l (fun p m => matrix_bit_set m p.1 p.2) m = Ok m' /\ bm_rep m' r n R'
    /\ forall i j, 0 <= i < r -> j ∈ R' i <-> j ∈ R i \/ (i, j) ∈ l.
Proof.
  intros Hm Hl. revert m R Hm. induction Hl as [|[i j] l [Hi Hj] Hl IH]; intros m R Hm; cbn [fst snd] in *.
  - exists m, R. split_and!; [done|done|]. set_solver.
  - destruct (matrix_bit_set_ok m r n R i j Hm Hi Hj) as (m1&Hs&Hm1). destruct (IH m1 _ Hm1) as (m'&R'&Hr&Hm'&HR').
    exists m', R'. simpl. rewrite Hs. split_and!; [done|done|]. intros i' j' Hi'. rewrite HR' by done. unfold row_set.
    destruct (decide (i' = i)) as [->|Hne]; set_solver.
Qed.

(** C24. [transitive_closure()] on a square matrix freshly created, in which the bits of any
    list of pairs have been set, returns with the bit [i], [j] set exactly when a non-empty
    path of pairs leads from [i] to [j]: the in-place row operations are Warshall's
    algorithm, for every size whose words fit in the 32-bit row index. *)
Theorem transitive_closure_correct junk n (l : list (Z * Z)) :
  0 < n <= INT_MAX -> n * (4 * row_words n) < UINT_MOD -> Forall (fun p => 0 <= p.1 < n /\ 0 <= p.2 < n) l ->
  exists m0 m m',
    matrix_obs_create junk n n = Ok m0
    /\ each_res l (fun p m => matrix_bit_set m p.1 p.2) m0 = Ok m
    /\ transitive_closure m = Ok m'
    /\ forall i j, 0 <= i < n -> 0 <= j < n ->
         exists b, matrix_bit_test m' i j = Ok b /\ (b = true <-> tc (fun i j => (i, j) ∈ l) i j).
Proof.
  intros Hn Hf Hl. pose proof (row_words_pos n ltac:(lia)) as Hw.
  destruct (matrix_obs_create_ok n n ltac:(lia) Hn ltac:(nia) junk) as (m0&Hm0&Hrep0); [nia|].
  destruct (each_res_matrix_set n n m0 _ l Hrep0 Hl) as (m&R&Hm&Hrep&HR).
  destruct (transitive_closure_ok n R m Hrep) as (m'&R'&Hm'&Hrep'&HR'). exists m0, m, m'. split_and!; [done..|].
  intros i j Hi Hj. exists (bool_decide (j ∈ R' i)). split; [by apply (matrix_bit_test_ok m' n n)|].
  rewrite bool_decide_eq_true, HR' by done. rewrite Forall_forall in Hl. apply tc_ext. intros x y. split.
  - intros [Hx [?|?]%HR]; [set_solver|done|done].
  - intros Hxy. destruct (Hl _ Hxy) as [Hx Hy]. split; [done|]. apply HR; [done|by right].
Qed.

Lemma transitive_closure_correct_witness :
  exists m0 m m',
    matrix_obs_create [] 5 5 = Ok m0
    /\ each_res [(1, 3); (3, 4); (4, 1)] (fun p m => matrix_bit_set m p.1 p.2) m0 = Ok m
    /\ transitive_closure m = Ok m'
    /\ forall i j, 0 <= i < 5 -> 0 <= j < 5 ->
         exists b, matrix_bit_test m' i j = Ok b /\ (b = true <-> tc (fun i j => (i, j) ∈ [(1, 3); (3, 4); (4, 1)]) i j).
Proof.
  apply (transitive_closure_correct [] 5); [unfold INT_MAX; lia|reflexivity|]. repeat (constructor; [simpl; lia|]). constructor.
Defined.
