(* ===== verification/Cil.v ===== *)
(** * The lists of ids of libmarpa ([libmarpa-dist/marpa.c], "counted integer lists")

    A [CIL] is a pointer to an array of [int]s, the first one being the number of those that
    follow.  The lists of a grammar are in an arena, the [CILAR]: an obstack where they are
    never changed, a tree that finds the list equal to one being built, and a buffer where
    lists are built.  Here a [CIL] is the address with the integers; the buffer has an
    address of its own. *)
From S2P Require Import Prelude Avl AvlTree AvlProbe AvlTheorems AvlTraversal Dstack BitVector.

Record CIL : Type := MkCIL { cil_addr : positive; cil_ints : list Z }.

#[export] Instance CIL_eq_dec : EqDecision CIL.
Proof. solve_decision. Defined.

Definition Count_of_CIL (cil : CIL) : res Z := rd (cil_ints cil) 0.
Definition Item_of_CIL (cil : CIL) (ix : Z) : res Z := rd (cil_ints cil) (1 + ix).

(** The comparison function reads the same cells; those of the lists it is called on exist. *)
Definition cil_int (cil : CIL) (ix : Z) : Z := default 0 (cil_ints cil !! Z.to_nat ix).

Fixpoint cil_cmp_loop (n : nat) (ix : Z) (cil1 cil2 : CIL) : Z :=
  match n with
  | O => 0
  | S n =>
    let item1 := cil_int cil1 (1 + ix) in
    let item2 := cil_int cil2 (1 + ix) in
    if item1 =? item2 then cil_cmp_loop n (ix + 1) cil1 cil2
    else if item1 >? item2 then 1 else -1
  end.

Definition cil_cmp (cil1 cil2 : CIL) : Z :=
  let count1 := cil_int cil1 0 in
  let count2 := cil_int cil2 0 in
  if negb (count1 =? count2) then (if count1 >? count2 then 1 else -1)
  else cil_cmp_loop (Z.to_nat count1) 0 cil1 cil2.

(** [struct s_cil_arena]; [ca_next] is the next address of the obstack. *)
Record CILAR : Type := MkCILAR {
  ca_avl : avl_table (D := CIL);
  ca_buffer : marpa_dstack (A := Z);
  ca_next : positive
}.

Definition ca_set_buffer (ca : CILAR) (b : marpa_dstack) : CILAR := MkCILAR (ca_avl ca) b (ca_next ca).
Definition ca_base (ca : CILAR) : list Z := t_base (ca_buffer ca).
Definition ca_set_base (ca : CILAR) (l : list Z) : CILAR := ca_set_buffer ca (DSTACK (t_count (ca_buffer ca)) l).

Definition buffer_addr : positive := 1.
Definition cil_in_buffer (ca : CILAR) : CIL := MkCIL buffer_addr (ca_base ca).

Definition cilar_buffer_new : res marpa_dstack := dstack_set (MARPA_DSTACK_INIT 0 2) 0 0.

Definition cilar_init : res CILAR := b ← cilar_buffer_new; Ok (MkCILAR avl_create b 2).

Definition cilar_buffer_reinit (ca : CILAR) : res CILAR := b ← cilar_buffer_new; Ok (ca_set_buffer ca b).

Section arena.
(** The fuel of the searches in the tree, [MARPA_AVL_MAX_HEIGHT] or more. *)
Context (fuel : nat).

Definition cil_buffer_add (ca : CILAR) : res (CIL * CILAR) :=
  found_cil ← avl_find cil_cmp fuel (ca_avl ca) (cil_in_buffer ca);
  match found_cil with
  | Some cil => Ok (cil, ca)
  | None =>
    count ← Count_of_CIL (cil_in_buffer ca);
    let cil_size_in_ints := count + 1 in
    ints ← for_res (Z.to_nat cil_size_in_ints) 0 (fun i ints => x ← rd (ca_base ca) i; wr ints i x)
             (replicate (Z.to_nat cil_size_in_ints) 0);
    let found_cil := MkCIL (ca_next ca) ints in
    r ← avl_insert cil_cmp fuel (ca_avl ca) found_cil;
    Ok (found_cil, MkCILAR r.2 (ca_buffer ca) (ca_next ca + 1))
  end.

Definition cil_empty (ca : CILAR) : res (CIL * CILAR) :=
  l ← wr (ca_base ca) 0 0;
  cil_buffer_add (ca_set_base ca l).

Definition cil_singleton (ca : CILAR) (element : Z) : res (CIL * CILAR) :=
  l ← wr (ca_base ca) 0 1;
  l ← wr l 1 element;
  cil_buffer_add (ca_set_base ca l).

Definition cil_buffer_clear (ca : CILAR) : res CILAR :=
  b ← MARPA_DSTACK_PUSH 0 (MARPA_DSTACK_CLEAR (ca_buffer ca)) 0;
  Ok (ca_set_buffer ca b).

Definition cil_buffer_push (ca : CILAR) (new_item : Z) : res CILAR :=
  b ← MARPA_DSTACK_PUSH 0 (ca_buffer ca) new_item;
  count ← rd (t_base b) 0;
  b ← dstack_set b 0 (count + 1);
  Ok (ca_set_buffer ca b).

(** The fuel of the scan is the number of bits. *)
Definition cil_bv_add (ca : CILAR) (bv : Bit_Vector) : res (CIL * CILAR * Bit_Vector) :=
  ca ← cil_buffer_clear ca;
  bits ← BV_BITS bv;
  r ← bv_for_each (Z.to_nat bits) bv 0 (fun new_item ca => cil_buffer_push ca new_item) ca;
  c ← cil_buffer_add r.2;
  Ok (c, r.1).

Definition cil_buffer_reserve (ca : CILAR) (element_count : Z) : CILAR :=
  let desired_dstack_capacity := element_count + 1 in
  let old_dstack_capacity := t_capacity (ca_buffer ca) in
  if old_dstack_capacity <? desired_dstack_capacity then
    let target_capacity := Z.max (to_int (old_dstack_capacity * 2)) desired_dstack_capacity in
    ca_set_buffer ca (marpa_dstack_resize 0 (ca_buffer ca) target_capacity)
  else ca.

(** The state of the loops: the buffer, [new_cil_ix] and the index in a list. *)
Fixpoint copy_loop (rounds : nat) (cil : CIL) (count : Z) (new_cil : list Z) (new_cil_ix ix : Z) : res (list Z * Z) :=
  if ix <? count then
    match rounds with
    | O => NoFuel
    | S rounds =>
      item ← Item_of_CIL cil ix;
      new_cil ← wr new_cil (1 + new_cil_ix) item;
      copy_loop rounds cil count new_cil (new_cil_ix + 1) (ix + 1)
    end
  else Ok (new_cil, new_cil_ix).

Fixpoint merge_loop (rounds : nat) (cil1 cil2 : CIL) (cil1_count cil2_count : Z) (new_cil : list Z) (new_cil_ix cil1_ix cil2_ix : Z)
    : res (list Z * Z * Z * Z) :=
  if (cil1_ix <? cil1_count) && (cil2_ix <? cil2_count) then
    match rounds with
    | O => NoFuel
    | S rounds =>
      item1 ← Item_of_CIL cil1 cil1_ix;
      item2 ← Item_of_CIL cil2 cil2_ix;
      if item1 <? item2 then
        new_cil ← wr new_cil (1 + new_cil_ix) item1;
        merge_loop rounds cil1 cil2 cil1_count cil2_count new_cil (new_cil_ix + 1) (cil1_ix + 1) cil2_ix
      else if item2 <? item1 then
        new_cil ← wr new_cil (1 + new_cil_ix) item2;
        merge_loop rounds cil1 cil2 cil1_count cil2_count new_cil (new_cil_ix + 1) cil1_ix (cil2_ix + 1)
      else
        new_cil ← wr new_cil (1 + new_cil_ix) item1;
        merge_loop rounds cil1 cil2 cil1_count cil2_count new_cil (new_cil_ix + 1) (cil1_ix + 1) (cil2_ix + 1)
    end
  else Ok (new_cil, new_cil_ix, cil1_ix, cil2_ix).

(** [Count_of_CIL(new_cil) = new_cil_ix; return cil_buffer_add(cilar);] *)
Definition new_cil_add (ca : CILAR) (new_cil : list Z) (new_cil_ix : Z) : res (CIL * CILAR) :=
  l ← wr new_cil 0 new_cil_ix;
  cil_buffer_add (ca_set_base ca l).

Definition cil_merge (ca : CILAR) (cil1 cil2 : CIL) : res (CIL * CILAR) :=
  cil1_count ← Count_of_CIL cil1;
  cil2_count ← Count_of_CIL cil2;
  let ca := cil_buffer_reserve ca (cil1_count + cil2_count) in
  r ← merge_loop (Z.to_nat (cil1_count + cil2_count)) cil1 cil2 cil1_count cil2_count (ca_base ca) 0 0 0;
  let '(new_cil, new_cil_ix, cil1_ix, cil2_ix) := r in
  r ← copy_loop (Z.to_nat cil1_count) cil1 cil1_count new_cil new_cil_ix cil1_ix;
  r ← copy_loop (Z.to_nat cil2_count) cil2 cil2_count r.1 r.2 cil2_ix;
  new_cil_add ca r.1 r.2.

(** The items before the place of [new_element]; the index there, [None] when it is one of
    them. *)
Fixpoint merge_one_loop (rounds : nat) (cil : CIL) (cil_count new_element : Z) (new_cil : list Z) (new_cil_ix cil_ix : Z)
    : res (list Z * Z * option Z) :=
  if cil_ix <? cil_count then
    match rounds with
    | O => NoFuel
    | S rounds =>
      cil_item ← Item_of_CIL cil cil_ix;
      if cil_item =? new_element then Ok (new_cil, new_cil_ix, None)
      else if cil_item >? new_element then Ok (new_cil, new_cil_ix, Some cil_ix)
      else
        new_cil ← wr new_cil (1 + new_cil_ix) cil_item;
        merge_one_loop rounds cil cil_count new_element new_cil (new_cil_ix + 1) (cil_ix + 1)
    end
  else Ok (new_cil, new_cil_ix, Some cil_ix).

(** [None] for [NULL]. *)
Definition cil_merge_one (ca : CILAR) (cil : CIL) (new_element : Z) : res (option CIL * CILAR) :=
  cil_count ← Count_of_CIL cil;
  let ca := cil_buffer_reserve ca (cil_count + 1) in
  r ← merge_one_loop (Z.to_nat cil_count) cil cil_count new_element (ca_base ca) 0 0;
  match r with
  | (new_cil, _, None) => Ok (None, ca_set_base ca new_cil)
  | (new_cil, new_cil_ix, Some cil_ix) =>
    new_cil ← wr new_cil (1 + new_cil_ix) new_element;
    r ← copy_loop (Z.to_nat cil_count) cil cil_count new_cil (new_cil_ix + 1) cil_ix;
    r ← new_cil_add ca r.1 r.2;
    Ok (Some r.1, r.2)
  end.
End arena.
