(* ===== verification/CilTheorems.v ===== *)
(** * Theorems about the lists of ids

    The lists of an arena are hash-consed: equal lists are one object.  Merging sorted lists
    gives the sorted list of their union. *)
From stdpp Require Import sets gmap sorting list_numbers.
From S2P Require Import Prelude Avl AvlTree AvlProbe AvlTheorems AvlTraversal Dstack BitVector BitVectorTheorems BitScan Cil.

(** ** The order of the tree *)

Fixpoint ints_from (n : nat) (ix : Z) (c : CIL) : list Z :=
  match n with O => [] | S n => cil_int c (1 + ix) :: ints_from n (ix + 1) c end.

(** The count, then the items. *)
Definition cil_key (c : CIL) : list Z := cil_int c 0 :: ints_from (Z.to_nat (cil_int c 0)) 0 c.

Lemma cil_cmp_loop_lex n ix c1 c2 :
  (cil_cmp_loop n ix c1 c2 < 0 <-> lex_lt (ints_from n ix c1) (ints_from n ix c2) = true)
  /\ (cil_cmp_loop n ix c1 c2 > 0 <-> lex_lt (ints_from n ix c2) (ints_from n ix c1) = true).
Proof.
  revert ix. induction n as [|n IH]; intros ix; simpl; [split; split; (lia || done)|].
  destruct (IH (ix + 1)) as [IHn IHp]. set (x := cil_int c1 (1 + ix)). set (y := cil_int c2 (1 + ix)).
  destruct (Z.eqb_spec x y) as [->|Hne].
  - rewrite Z.ltb_irrefl, Z.eqb_refl. simpl. done.
  - destruct (Z.eqb_spec y x); [congruence|]. rewrite !andb_false_l, !orb_false_r.
    destruct (Z.gtb_spec x y), (Z.ltb_spec x y), (Z.ltb_spec y x); try lia; split; split; (lia || done).
Qed.

#[export] Instance cil_cmp_lex : LexCmp cil_cmp cil_key.
Proof.
  assert (forall x y, (cil_cmp x y < 0 <-> lex_lt (cil_key x) (cil_key y) = true)
    /\ (cil_cmp x y > 0 <-> lex_lt (cil_key y) (cil_key x) = true)) as H; [|split; apply H].
  intros x y. unfold cil_cmp, cil_key. destruct (Z.eqb_spec (cil_int x 0) (cil_int y 0)) as [E|Hne].
  - rewrite <- E. simpl. rewrite Z.ltb_irrefl, Z.eqb_refl. simpl. apply cil_cmp_loop_lex.
  - simpl. destruct (Z.eqb_spec (cil_int y 0) (cil_int x 0)); [congruence|].
    destruct (Z.eqb_spec (cil_int x 0) (cil_int y 0)); [congruence|]. simpl. rewrite !orb_false_r.
    destruct (Z.gtb_spec (cil_int x 0) (cil_int y 0)), (Z.ltb_spec (cil_int x 0) (cil_int y 0)), (Z.ltb_spec (cil_int y 0) (cil_int x 0));
      try lia; split; split; (lia || done).
Qed.

#[export] Instance cil_cmp_order : AvlOrder cil_cmp := lex_order cil_cmp cil_key.

(** ** Lists and arenas *)

(** The integers of a list of [l]. *)
Definition ints_of (l : list Z) : list Z := Z.of_nat (length l) :: l.

(** [ints] starts with the integers of a list of [l]; there may be others after. *)
Definition holds (ints l : list Z) : Prop := take (S (length l)) ints = ints_of l.

Lemma holds_head ints l : holds ints l -> exists rest, ints = ints_of l ++ rest.
Proof. intros H. exists (drop (S (length l)) ints). by rewrite <- H, take_drop. Qed.

Lemma holds_app l rest : holds (ints_of l ++ rest) l.
Proof. unfold holds. by rewrite take_app_length'. Qed.

Lemma ints_from_lookup n ix c : 0 <= ix -> forall k, (k < n)%nat -> ints_from n ix c !! k = Some (cil_int c (1 + ix + Z.of_nat k)).
Proof.
  revert ix. induction n as [|n IH]; intros ix Hix k Hk; [lia|]. destruct k as [|k]; simpl; [by rewrite Z.add_0_r|].
  rewrite IH by lia. do 2 f_equal. lia.
Qed.

Lemma ints_from_length n ix c : length (ints_from n ix c) = n.
Proof. revert ix. induction n; intros; simpl; auto. Qed.

Lemma holds_key a ints l : holds ints l -> cil_key (MkCIL a ints) = ints_of l.
Proof.
  intros (rest&->)%holds_head. unfold cil_key, ints_of. simpl. cbn [cil_int cil_ints]. unfold cil_int at 1 2. simpl. rewrite Nat2Z.id. f_equal.
  apply list_eq. intros k. destruct (decide (k < length l)%nat) as [Hk|Hk].
  - rewrite ints_from_lookup by lia. unfold cil_int. cbn [cil_ints]. replace (Z.to_nat (1 + 0 + Z.of_nat k)) with (S k) by lia. simpl.
    rewrite lookup_app_l by done. destruct (lookup_lt_is_Some_2 l k Hk) as [x ->]. done.
  - rewrite !lookup_ge_None_2 by (rewrite ?ints_from_length; lia). done.
Qed.

Lemma cil_key_ints c1 c2 : cil_ints c1 = cil_ints c2 -> cil_key c1 = cil_key c2.
Proof.
  intros He. assert (forall ix, cil_int c1 ix = cil_int c2 ix) as Hi by (intros ix; unfold cil_int; by rewrite He).
  unfold cil_key. rewrite Hi. f_equal. generalize (Z.to_nat (cil_int c2 0)) as n. intros n. generalize 0 as ix.
  induction n as [|n IH]; intros ix; simpl; [done|]. by rewrite Hi, IH.
Qed.

Lemma ints_of_inj l l' : ints_of l = ints_of l' -> l = l'.
Proof. by intros [= _ ->]. Qed.

(** What an arena contains: the lists of its tree, each one once. *)
Record cilar_rep (ca : CILAR) (cs : list CIL) : Prop := {
  cr_tree : represents cil_cmp (ca_avl ca) cs;
  cr_wf c : c ∈ cs -> exists l, cil_ints c = ints_of l;
  cr_fresh c : c ∈ cs -> (cil_addr c < ca_next ca)%positive;
  cr_addr c1 c2 : c1 ∈ cs -> c2 ∈ cs -> cil_addr c1 = cil_addr c2 -> c1 = c2;
  cr_buffer : 2 <= t_capacity (ca_buffer ca) <= INT_MAX
}.

(** [c] is the list of [l], after it has been added to [cs]. *)
Definition added (cs : list CIL) (l : list Z) (c : CIL) (cs' : list CIL) : Prop :=
  cil_ints c = ints_of l /\ (forall c', c' ∈ cs' <-> c' ∈ cs \/ c' = c) /\ (length cs' <= S (length cs))%nat.

Lemma sorted_apart (cs : list CIL) c1 c2 :
  StronglySorted (fun x y => cil_cmp x y < 0) cs -> c1 ∈ cs -> c2 ∈ cs -> cil_cmp c1 c2 = 0 -> c1 = c2.
Proof.
  intros Hs H1 H2 Hz. assert (cil_cmp c2 c1 = 0) as Hz' by (apply (lex_zero cil_cmp cil_key); symmetry; by apply (lex_zero cil_cmp cil_key)).
  induction Hs as [|c cs Hs IH Hc]; [set_solver|]. rewrite Forall_forall in Hc.
  apply elem_of_cons in H1, H2. destruct H1 as [->|H1], H2 as [->|H2]; [done| | |by apply IH].
  - apply Hc in H2. lia.
  - apply Hc in H1. lia.
Qed.

(** Equal lists of an arena are one object. *)
Lemma cilar_unique ca cs c1 c2 : cilar_rep ca cs -> c1 ∈ cs -> c2 ∈ cs -> cil_ints c1 = cil_ints c2 -> c1 = c2.
Proof.
  intros Hca H1 H2 He. destruct (cr_tree _ _ Hca) as (t&Ht&<-). eapply sorted_apart; [apply Ht|done|done|].
  apply (lex_zero cil_cmp cil_key). by apply cil_key_ints.
Qed.

Lemma copy_ints_ok n b : (n <= length b)%nat ->
  for_res n 0 (fun i ints => x ← rd b i; wr ints i x) (replicate n 0) = Ok (take n b).
Proof.
  intros Hn. destruct (for_res_ok (fun i ints => ints = take (Z.to_nat i) b ++ replicate (n - Z.to_nat i) 0) n 0
    (fun i ints => x ← rd b i; wr ints i x) (replicate n 0)) as (ints&->&->).
  - simpl. by rewrite Nat.sub_0_r.
  - intros j ints Hj ->. destruct (rd_total b j) as [x Hx]; [lia|]. rewrite Hx. cbn [mbind res_bind].
    rewrite wr_total by (rewrite length_app, length_take, length_replicate; lia). eexists. split; [done|].
    apply rd_Ok in Hx as [_ Hx]. replace (Z.to_nat (j + 1)) with (S (Z.to_nat j)) by lia.
    rewrite (take_S_r _ _ _ Hx), <- app_assoc. rewrite insert_app_r_alt by (rewrite length_take; lia).
    rewrite length_take. replace (Z.to_nat j - Z.to_nat j `min` length b)%nat with 0%nat by lia.
    replace (n - Z.to_nat j)%nat with (S (n - S (Z.to_nat j))) by lia. done.
  - rewrite Z.add_0_l, Nat2Z.id, Nat.sub_diag. by rewrite app_nil_r.
Qed.

(** ** Writing items after the count *)

(** The cells [1], ..., of [b] hold [l]. *)
Definition cil_written (b l : list Z) : Prop := take (length l) (drop 1 b) = l /\ (length l < length b)%nat.

Lemma cil_written_snoc b l x :
  cil_written b l -> (S (length l) < length b)%nat ->
  exists b', wr b (1 + Z.of_nat (length l)) x = Ok b' /\ cil_written b' (l ++ [x]) /\ length b' = length b.
Proof.
  intros [Hw _] Hl. rewrite wr_total by lia. eexists. split; [done|]. rewrite length_insert. split; [|done].
  split; [|rewrite length_insert, length_app; simpl; lia]. rewrite length_app. simpl. rewrite Nat.add_1_r.
  destruct b as [|c b]; [simpl in Hl; lia|]. simpl in *. replace (Z.to_nat (1 + Z.of_nat (length l))) with (S (length l)) by lia. simpl.
  rewrite drop_0 in *. erewrite take_S_r by (apply list_lookup_insert_eq; lia). rewrite take_insert_ge by lia. by rewrite Hw.
Qed.

Lemma written_holds b l : cil_written b l -> exists b', wr b 0 (Z.of_nat (length l)) = Ok b' /\ holds b' l /\ length b' = length b.
Proof.
  intros [Hw Hl]. rewrite wr_total by lia. eexists. split; [done|]. rewrite length_insert. split; [|done].
  destruct b as [|c b]; [simpl in Hl; lia|]. simpl in *. rewrite drop_0 in Hw. unfold holds, ints_of. simpl. by rewrite Hw.
Qed.

Lemma written_nil b : (0 < length b)%nat -> cil_written b [].
Proof. by split. Qed.

(** Reading the items of a list. *)
Lemma count_ok c l : cil_ints c = ints_of l -> Count_of_CIL c = Ok (Z.of_nat (length l)).
Proof. intros H. unfold Count_of_CIL. by rewrite H. Qed.

Lemma item_ok c l i x : cil_ints c = ints_of l -> l !! i = Some x -> Item_of_CIL c (Z.of_nat i) = Ok x.
Proof.
  intros H Hx. unfold Item_of_CIL. rewrite H. apply rd_Ok. split; [lia|].
  by replace (Z.to_nat (1 + Z.of_nat i)) with (S i) by lia.
Qed.

Lemma drop_cons (l : list Z) i x : l !! i = Some x -> drop i l = x :: drop (S i) l.
Proof. intros Hx. by apply drop_S. Qed.

Lemma copy_loop_ok rounds c l b out i :
  cil_ints c = ints_of l -> cil_written b out -> (i <= length l)%nat -> (length out + (length l - i) < length b)%nat ->
  (length l - i <= rounds)%nat ->
  exists b', copy_loop rounds c (Z.of_nat (length l)) b (Z.of_nat (length out)) (Z.of_nat i)
             = Ok (b', Z.of_nat (length (out ++ drop i l)))
    /\ cil_written b' (out ++ drop i l) /\ length b' = length b.
Proof.
  intros Hc. revert b out i. induction rounds as [|rounds IH]; intros b out i Hw Hi Hroom Hr; simpl;
    destruct (Z.ltb_spec (Z.of_nat i) (Z.of_nat (length l))) as [Hlt|Hge]; try lia.
  1, 3: exists b; rewrite drop_ge, app_nil_r by lia; done.
  destruct (lookup_lt_is_Some_2 l i) as [x Hx]; [lia|]. rewrite (item_ok _ _ _ _ Hc Hx). cbn [mbind res_bind].
  destruct (cil_written_snoc b out x Hw) as (b1&->&Hw1&Hl1); [lia|]. cbn [mbind res_bind].
  destruct (IH b1 (out ++ [x]) (S i) Hw1) as (b'&Hb'&Hw'&Hl'); [lia|rewrite length_app; simpl; lia|lia|].
  rewrite (drop_cons l i x Hx). rewrite <- !app_assoc in *. exists b'. rewrite length_app in Hb'. simpl in Hb'.
  replace (Z.of_nat (length out + 1)) with (Z.of_nat (length out) + 1) in Hb' by lia.
  replace (Z.of_nat (S i)) with (Z.of_nat i + 1) in Hb' by lia. split_and!; [exact Hb'|done|congruence].
Qed.

(** ** The merge of two sorted lists, without repetitions *)
Fixpoint zmerge (n : nat) (l1 l2 : list Z) : list Z :=
  match n, l1, l2 with
  | S n, x :: l1', y :: l2' =>
    if x <? y then x :: zmerge n l1' l2
    else if y <? x then y :: zmerge n l1 l2'
    else x :: zmerge n l1' l2'
  | _, _, _ => l1 ++ l2
  end.

Abbreviation ascending := (StronglySorted Z.lt).

Lemma ascending_cons x l : ascending (x :: l) <-> ascending l /\ forall y, y ∈ l -> x < y.
Proof. split; [inversion 1 as [|? ? ? Hf]; subst; by rewrite Forall_forall in Hf|intros []; constructor; [done|by apply Forall_forall]]. Qed.


Lemma zmerge_length n l1 l2 : (length (zmerge n l1 l2) <= length l1 + length l2)%nat.
Proof.
  revert l1 l2. induction n as [|n IH]; intros l1 l2; [simpl; by rewrite length_app|].
  destruct l1 as [|x l1], l2 as [|y l2]; simpl; rewrite ?app_nil_r; try lia.
  destruct (x <? y); [specialize (IH l1 (y :: l2)); simpl in *; lia|]. destruct (y <? x); simpl.
  - specialize (IH (x :: l1) l2). simpl in *. lia.
  - specialize (IH l1 l2). lia.
Qed.



(** Insertion of an element that is not in the list yet. *)
Fixpoint zinsert (z : Z) (l : list Z) : list Z :=
  match l with
  | [] => [z]
  | x :: l' => if z <? x then z :: l else x :: zinsert z l'
  end.

Lemma zinsert_ok z l : ascending l -> z ∉ l -> ascending (zinsert z l) /\ forall x, x ∈ zinsert z l <-> x = z \/ x ∈ l.
Proof.
  induction l as [|x l IH]; intros Hs Hz; cbn [zinsert]; [split; [by repeat constructor|set_solver]|].
  pose proof (proj1 (ascending_cons _ _) Hs) as [Hs' Hx]. destruct (Z.ltb_spec z x).
  - split; [|set_solver]. apply ascending_cons. split; [done|]. intros y [->|Hy]%elem_of_cons; [done|]. specialize (Hx y Hy). lia.
  - destruct IH as [IHs IHi]; [done|set_solver|]. split; [|set_solver]. apply ascending_cons. split; [done|].
    intros y [->|?]%IHi; [|auto]. assert (z <> x) by set_solver. lia.
Qed.

(** The items before the place of [z]. *)
Lemma merge_one_loop_ok rounds c l z b out i :
  cil_ints c = ints_of l -> ascending (drop i l) -> cil_written b out -> (i <= length l)%nat ->
  (length out + (length l - i) + 1 < length b)%nat -> (length l - i <= rounds)%nat ->
  (z ∈ drop i l /\ exists b' n, merge_one_loop rounds c (Z.of_nat (length l)) z b (Z.of_nat (length out)) (Z.of_nat i) = Ok (b', n, None)
     /\ length b' = length b)
  \/ ((z ∉ drop i l) /\ exists b' out' j,
        merge_one_loop rounds c (Z.of_nat (length l)) z b (Z.of_nat (length out)) (Z.of_nat i)
          = Ok (b', Z.of_nat (length out'), Some (Z.of_nat j))
        /\ cil_written b' out' /\ length b' = length b /\ (j <= length l)%nat /\ (length out' + (length l - j) + 1 < length b)%nat
        /\ out' ++ z :: drop j l = out ++ zinsert z (drop i l)).
Proof.
  intros Hc. revert b out i. induction rounds as [|rounds IH]; intros b out i Hs Hw Hi Hroom Hr;
    cbn [merge_one_loop]; destruct (Z.ltb_spec (Z.of_nat i) (Z.of_nat (length l))) as [Hlt|Hge]; try lia.
  1, 3: right; rewrite drop_ge by lia; split; [set_solver|]; exists b, out, i; rewrite drop_ge by lia; done.
  destruct (lookup_lt_is_Some_2 l i) as [x Hx]; [lia|]. rewrite (item_ok _ _ _ _ Hc Hx). cbn [mbind res_bind].
  rewrite (drop_cons l i x Hx) in Hs |- *. apply ascending_cons in Hs as [Hs Hxl]. cbn [zinsert].
  destruct (Z.eqb_spec x z) as [->|Hne]; [left; split; [left|by eexists _, _]|].
  destruct (Z.gtb_spec x z) as [Hgt|Hle].
  - right. split; [intros [->|Hz%Hxl]%elem_of_cons; lia|]. destruct (Z.ltb_spec z x); [|lia]. exists b, out, i.
    by rewrite (drop_cons l i x Hx).
  - destruct (Z.ltb_spec z x); [lia|]. destruct (cil_written_snoc b out x Hw) as (b1&->&Hw1&Hl1); [lia|]. cbn [mbind res_bind].
    replace (Z.of_nat i + 1) with (Z.of_nat (S i)) by lia.
    replace (Z.of_nat (length out) + 1) with (Z.of_nat (length (out ++ [x]))) by (rewrite length_app; simpl; lia).
    destruct (IH b1 (out ++ [x]) (S i) Hs Hw1) as [(Hz&b'&n&->&Hl')|(Hz&b'&out'&j&->&Hw'&Hl'&Hj&Hroom'&He)];
      [lia|rewrite length_app; simpl; lia|lia| |].
    + left. split; [by right|]. exists b', n. split; [done|congruence].
    + right. split; [by intros [?|?]%elem_of_cons|]. exists b', out', j. rewrite <- app_assoc in He. by rewrite <- Hl1.
Qed.

Section arena.
Context (fuel : nat) (Hfuel : (MARPA_AVL_MAX_HEIGHT <= fuel)%nat).

Lemma cil_buffer_add_ok ca cs l :
  cilar_rep ca cs -> holds (ca_base ca) l -> Z.of_nat (length cs) < SIZE_MOD - 1 ->
  exists c ca' cs', cil_buffer_add fuel ca = Ok (c, ca') /\ cilar_rep ca' cs' /\ added cs l c cs'.
Proof.
  intros Hca Hb Hlen. pose proof Hca as [Ht Hwf Hfr Ha Hbuf]. unfold cil_buffer_add.
  destruct (find_correct cil_cmp (ca_avl ca) cs (cil_in_buffer ca) fuel Ht) as (r&Hf&Hr);
    [rewrite (represents_count _ _ _ Ht); lia|done|].
  rewrite Hf. cbn [mbind res_bind]. destruct r as [c|].
  - destruct Hr as [Hin Hz]. eexists c, ca, cs. split_and!; [done|done|]. split_and!; [|set_solver|lia].
    destruct (Hwf c Hin) as (l'&Hl'). rewrite Hl'. f_equal. apply ints_of_inj.
    apply (lex_zero cil_cmp cil_key) in Hz. unfold cil_in_buffer in Hz. rewrite (holds_key _ _ _ Hb) in Hz. rewrite Hz.
    destruct c as [a ints]. simpl in Hl'. subst ints. symmetry. apply holds_key. rewrite <- (app_nil_r (ints_of l')). apply holds_app.
  - pose proof (holds_head _ _ Hb) as (rest&Hrest). assert (length (ca_base ca) = S (length l) + length rest)%nat as Hbl.
    { rewrite Hrest, length_app. done. }
    assert (Count_of_CIL (cil_in_buffer ca) = Ok (Z.of_nat (length l))) as ->.
    { unfold Count_of_CIL. change (cil_ints (cil_in_buffer ca)) with (ca_base ca). by rewrite Hrest. }
    cbn [mbind res_bind]. replace (Z.to_nat (Z.of_nat (length l) + 1)) with (S (length l)) by lia.
    rewrite copy_ints_ok by lia. rewrite Hb. cbn [mbind res_bind]. set (c := MkCIL (ca_next ca) (ints_of l)).
    assert (c ∉ cs) as Hnew by (intros Hin; apply Hfr in Hin; simpl in Hin; lia).
    destruct (avl_insert_ok cil_cmp fuel (ca_avl ca) cs c Ht Hfuel Hlen Hnew) as (r&tab'&cs'&Hi&Hrep&Hcase). rewrite Hi. cbn [mbind res_bind].
    destruct r as [d|].
    { exfalso. destruct Hcase as (Hd&Hz&_). rewrite Forall_forall in Hr. apply (Hr d Hd).
      apply (lex_zero cil_cmp cil_key) in Hz. apply (lex_zero cil_cmp cil_key). rewrite <- Hz. unfold cil_in_buffer. rewrite (holds_key _ _ _ Hb).
      symmetry. apply holds_key. rewrite <- (app_nil_r (ints_of l)). apply holds_app. }
    destruct Hcase as [_ Hperm]. assert (forall c', c' ∈ cs' <-> c' ∈ cs \/ c' = c) as Hin by (intros c'; rewrite Hperm; set_solver).
    eexists c, _, cs'. split_and!; [done| |split_and!; [done|done|by rewrite Hperm]].
    split; cbn [ca_avl ca_next ca_buffer snd]; [done| | | |done].
    + intros c' [?| ->]%Hin; [by apply Hwf|]. by exists l.
    + intros c' [?%Hfr| ->]%Hin; simpl; lia.
    + intros c1 c2 [H1| ->]%Hin [H2| ->]%Hin; [by apply Ha| | |done]; intros He;
        [apply Hfr in H1; simpl in *; lia|apply Hfr in H2; simpl in *; lia].
Qed.

Lemma cilar_rep_buffer ca cs b : cilar_rep ca cs -> 2 <= t_capacity b <= INT_MAX -> cilar_rep (ca_set_buffer ca b) cs.
Proof. intros [] Hb. by split. Qed.

Lemma cilar_rep_base ca cs l : cilar_rep ca cs -> length l = length (ca_base ca) -> cilar_rep (ca_set_base ca l) cs.
Proof.
  intros Hca Hl. apply cilar_rep_buffer; [done|]. pose proof (cr_buffer _ _ Hca). unfold t_capacity in *. cbn [t_base].
  by rewrite Hl.
Qed.

Lemma base_length ca cs : cilar_rep ca cs -> 2 <= Z.of_nat (length (ca_base ca)) <= INT_MAX.
Proof. intros Hca. apply (cr_buffer _ _ Hca). Qed.

Lemma cilar_init_ok : exists ca, cilar_init = Ok ca /\ cilar_rep ca [].
Proof using.
  clear.
  eexists. split; [reflexivity|]. split; [apply (represents_empty cil_cmp)|set_solver|set_solver|set_solver|].
  unfold t_capacity. simpl. unfold INT_MAX. lia.
Qed.

Lemma cil_empty_ok ca cs :
  cilar_rep ca cs -> Z.of_nat (length cs) < SIZE_MOD - 1 ->
  exists c ca' cs', cil_empty fuel ca = Ok (c, ca') /\ cilar_rep ca' cs' /\ added cs [] c cs'.
Proof.
  intros Hca Hlen. pose proof (base_length _ _ Hca) as Hb. unfold cil_empty. rewrite wr_total by lia. cbn [mbind res_bind].
  apply cil_buffer_add_ok; [|by destruct (ca_base ca) as [|x l] eqn:E; [simpl in Hb; lia|]|done].
  apply cilar_rep_base; [done|]. by rewrite length_insert.
Qed.

Lemma cil_singleton_ok ca cs x :
  cilar_rep ca cs -> Z.of_nat (length cs) < SIZE_MOD - 1 ->
  exists c ca' cs', cil_singleton fuel ca x = Ok (c, ca') /\ cilar_rep ca' cs' /\ added cs [x] c cs'.
Proof.
  intros Hca Hlen. pose proof (base_length _ _ Hca) as Hb. unfold cil_singleton. rewrite wr_total by lia. cbn [mbind res_bind].
  rewrite wr_total by (rewrite length_insert; lia). cbn [mbind res_bind].
  apply cil_buffer_add_ok; [|by destruct (ca_base ca) as [|y [|z l]] eqn:E; [simpl in Hb; lia..|]|done].
  apply cilar_rep_base; [done|]. by rewrite !length_insert.
Qed.

(** ** Building a list in the buffer *)

Lemma cil_buffer_clear_ok ca cs :
  cilar_rep ca cs -> exists ca', cil_buffer_clear ca = Ok ca' /\ cilar_rep ca' cs /\ dstack_rep (ca_buffer ca') [0].
Proof.
  intros Hca. pose proof (cr_buffer _ _ Hca) as Hb. unfold cil_buffer_clear.
  destruct (dstack_push_ok 0 (MARPA_DSTACK_CLEAR (ca_buffer ca)) [] 0) as (b&Hp&Hb'&Hcap).
  - split; [done|done|]. unfold t_capacity in *. cbn [MARPA_DSTACK_CLEAR t_base]. lia.
  - simpl. unfold INT_MAX. lia.
  - rewrite Hp. eexists. split; [done|]. split; [|done]. apply cilar_rep_buffer; [done|].
    pose proof (ds_room _ _ Hb'). unfold t_capacity in Hcap, Hb |- *. cbn [MARPA_DSTACK_CLEAR t_base] in Hcap. unfold t_capacity in *. lia.
Qed.

Lemma cil_buffer_push_ok ca cs l x :
  cilar_rep ca cs -> dstack_rep (ca_buffer ca) (ints_of l) -> 2 * (Z.of_nat (length l) + 1) <= INT_MAX ->
  exists ca', cil_buffer_push ca x = Ok ca' /\ cilar_rep ca' cs /\ dstack_rep (ca_buffer ca') (ints_of (l ++ [x])).
Proof.
  intros Hca Hb Hroom. unfold cil_buffer_push. destruct (dstack_push_ok 0 _ _ x Hb) as (b&->&Hb1&_); [simpl; lia|]. cbn [mbind res_bind].
  assert (rd (t_base b) 0 = Ok (Z.of_nat (length l))) as ->.
  { apply rd_Ok. split; [done|]. rewrite (ds_lookup _ _ _ Hb1) by (rewrite length_app; simpl; lia). done. }
  cbn [mbind res_bind]. destruct (dstack_set_ok b _ 0 (Z.of_nat (length l) + 1) Hb1) as (b2&->&Hb2); [rewrite length_app; simpl; lia|].
  cbn [mbind res_bind]. eexists. split; [done|].
  assert (<[Z.to_nat 0:=Z.of_nat (length l) + 1]> (ints_of l ++ [x]) = ints_of (l ++ [x])) as E.
  { unfold ints_of. rewrite length_app. simpl. f_equal. lia. }
  rewrite E in Hb2. split; [|done]. apply cilar_rep_buffer; [done|]. pose proof (ds_room _ _ Hb2). split; [|lia].
  pose proof (ds_length _ _ Hb2) as Hl. unfold t_capacity. unfold ints_of in Hl. simpl in Hl. rewrite length_app in Hl. simpl in Hl. lia.
Qed.

Lemma buffer_holds ca l : dstack_rep (ca_buffer ca) (ints_of l) -> holds (ca_base ca) l.
Proof. intros [_ Hi _]. exact Hi. Qed.

Lemma cil_buffer_pushes ca cs l0 l :
  cilar_rep ca cs -> dstack_rep (ca_buffer ca) (ints_of l0) -> 2 * Z.of_nat (length l0 + length l) <= INT_MAX ->
  exists ca', each_res l (fun x ca => cil_buffer_push ca x) ca = Ok ca' /\ cilar_rep ca' cs /\ dstack_rep (ca_buffer ca') (ints_of (l0 ++ l)).
Proof.
  revert ca l0. induction l as [|x l IH]; intros ca l0 Hca Hb Hroom; simpl in *.
  - exists ca. by rewrite app_nil_r.
  - destruct (cil_buffer_push_ok ca cs l0 x Hca Hb) as (ca1&->&Hca1&Hb1); [lia|]. cbn [mbind res_bind].
    destruct (IH ca1 (l0 ++ [x]) Hca1 Hb1) as (ca'&->&Hca'&Hb'); [rewrite length_app; simpl; lia|].
    exists ca'. by rewrite <- app_assoc in Hb'.
Qed.

Lemma elems_length n S : 0 <= n -> Z.of_nat (length (elems n S)) <= n.
Proof.
  intros Hn. unfold elems, elems_from. etrans; [apply Nat2Z.inj_le, length_filter|]. rewrite length_seqZ. lia.
Qed.

(** The list of a bit vector. *)
Lemma cil_bv_add_ok ca cs v n S :
  cilar_rep ca cs -> bv_rep v n S -> 2 * n <= INT_MAX -> Z.of_nat (length cs) < SIZE_MOD - 1 ->
  exists c ca' cs', cil_bv_add fuel ca v = Ok (c, ca', v) /\ cilar_rep ca' cs' /\ added cs (elems n S) c cs'.
Proof.
  intros Hca Hv Hn Hlen. pose proof (br_n _ _ _ Hv) as Hn0. unfold cil_bv_add.
  destruct (cil_buffer_clear_ok ca cs Hca) as (ca1&->&Hca1&Hb1). cbn [mbind res_bind].
  rewrite (br_bits _ _ _ Hv). cbn [mbind res_bind]. rewrite (bv_for_each_ok _ v n S _ _ Hv) by lia.
  destruct (cil_buffer_pushes ca1 cs [] (elems n S) Hca1 Hb1) as (ca2&->&Hca2&Hb2).
  { pose proof (elems_length n S). rewrite Nat.add_0_l. lia. }
  rewrite app_nil_l in Hb2.
  cbn [mbind res_bind fst snd]. destruct (cil_buffer_add_ok ca2 cs (elems n S) Hca2) as (c&ca'&cs'&->&Hca'&Had);
    [by apply buffer_holds|done|]. cbn [mbind res_bind]. by exists c, ca', cs'.
Qed.

Lemma cil_buffer_reserve_ok ca cs n :
  cilar_rep ca cs -> n < INT_MAX ->
  cilar_rep (cil_buffer_reserve ca n) cs /\ n < Z.of_nat (length (ca_base (cil_buffer_reserve ca n))).
Proof.
  intros Hca Hn. pose proof (cr_buffer _ _ Hca) as Hb. unfold cil_buffer_reserve.
  destruct (Z.ltb_spec (t_capacity (ca_buffer ca)) (n + 1)) as [Hlt|Hge]; [|split; [done|unfold t_capacity, ca_base in *; lia]].
  unfold marpa_dstack_resize. set (target := Z.max _ _).
  assert (t_capacity (ca_buffer ca) < target <= INT_MAX /\ n < target) as [Ht Hnt].
  { unfold target. pose proof (to_int_max (t_capacity (ca_buffer ca) * 2)). unfold INT_MAX in *. lia. }
  destruct (Z.gtb_spec target (t_capacity (ca_buffer ca))); [|lia]. unfold ca_base. cbn [ca_set_buffer ca_buffer t_base].
  rewrite length_resize. split; [|lia]. apply cilar_rep_buffer; [done|]. unfold t_capacity in *. cbn [t_base]. rewrite length_resize. lia.
Qed.

Lemma new_cil_add_ok ca cs b out :
  cilar_rep ca cs -> Z.of_nat (length cs) < SIZE_MOD - 1 -> cil_written b out -> length b = length (ca_base ca) ->
  exists c ca' cs', new_cil_add fuel ca b (Z.of_nat (length out)) = Ok (c, ca') /\ cilar_rep ca' cs' /\ added cs out c cs'.
Proof.
  intros Hca Hlen Hw Hb. unfold new_cil_add. destruct (written_holds b out Hw) as (b'&->&Hh&Hl). cbn [mbind res_bind].
  apply cil_buffer_add_ok; [apply cilar_rep_base; [done|congruence]|done|done].
Qed.


Lemma cil_merge_one_ok ca cs c l z :
  cilar_rep ca cs -> Z.of_nat (length cs) < SIZE_MOD - 1 -> cil_ints c = ints_of l -> ascending l -> Z.of_nat (length l) + 1 < INT_MAX ->
  (z ∈ l /\ exists ca', cil_merge_one fuel ca c z = Ok (None, ca') /\ cilar_rep ca' cs)
  \/ ((z ∉ l) /\ exists c' ca' cs', cil_merge_one fuel ca c z = Ok (Some c', ca') /\ cilar_rep ca' cs' /\ added cs (zinsert z l) c' cs').
Proof.
  intros Hca Hlen Hc Hs Hroom. unfold cil_merge_one. rewrite (count_ok _ _ Hc). cbn [mbind res_bind]. rewrite !Nat2Z.id.
  destruct (cil_buffer_reserve_ok ca cs (Z.of_nat (length l) + 1) Hca Hroom) as [Hca1 Hb]. set (ca1 := cil_buffer_reserve ca _) in *.
  destruct (merge_one_loop_ok (length l) c l z (ca_base ca1) [] 0 Hc) as [(Hz&b'&n&Hm&Hl)|(Hz&b'&out&j&Hm&Hw&Hl&Hj&Hr&He)];
    [by rewrite drop_0|apply written_nil; lia|lia|simpl; lia|lia| |];
    cbn [length] in Hm; change (Z.of_nat 0) with 0 in Hm; rewrite Hm, drop_0 in *; cbn [mbind res_bind].
  - left. split; [done|]. eexists. split; [done|]. by apply cilar_rep_base.
  - right. split; [done|]. destruct (cil_written_snoc b' out z Hw) as (b1&->&Hw1&Hl1); [lia|]. cbn [mbind res_bind].
    replace (Z.of_nat (length out) + 1) with (Z.of_nat (length (out ++ [z]))) by (rewrite length_app; simpl; lia).
    destruct (copy_loop_ok (length l) c l b1 (out ++ [z]) j Hc Hw1) as (b2&->&Hw2&Hl2); [lia|rewrite length_app; simpl; lia|lia|].
    cbn [mbind res_bind fst snd]. rewrite <- app_assoc in *. simpl in *. rewrite He in *.
    destruct (new_cil_add_ok ca1 cs b2 (zinsert z l) Hca1 Hlen Hw2) as (c'&ca'&cs'&->&Hrep&Had); [congruence|].
    cbn [mbind res_bind fst snd]. by exists c', ca', cs'.
Qed.
End arena.

Lemma added_interned ca cs l c cs' c' : cilar_rep ca cs' -> added cs l c cs' -> c' ∈ cs' -> cil_ints c' = ints_of l -> c' = c.
Proof. intros Hca (Hc&Hin&_) Hc' Hl. eapply cilar_unique; [done|done|apply Hin; by right|congruence]. Qed.

Lemma ascending_unique l1 l2 : ascending l1 -> ascending l2 -> (forall x, x ∈ l1 <-> x ∈ l2) -> l1 = l2.
Proof.
  intros H1 H2 Hin. apply (StronglySorted_unique_strong Z.lt); [intros; lia|done|done|].
  assert (forall l, ascending l -> NoDup l) as Hnd.
  { induction 1 as [|x l Hl IH Hx]; constructor; [|done]. rewrite Forall_forall in Hx. intros Hxl. specialize (Hx x Hxl). lia. }
  apply NoDup_Permutation; auto.
Qed.

Lemma elems_ascending n S : ascending (elems n S).
Proof. apply StronglySorted_filter', seqZ_sorted. Qed.


Definition demo_cilar : CILAR :=
  match (ca ← cilar_init; r ← cil_singleton 92 ca 4; r2 ← cil_singleton 92 r.2 2; Ok r2.2) with
  | Ok ca => ca | _ => MkCILAR avl_create (MARPA_DSTACK_INIT 0 2) 2 end.

Lemma demo_cilar_ok : exists cs, cilar_rep demo_cilar cs /\ (length cs <= 2)%nat.
Proof.
  destruct cilar_init_ok as (ca&Hi&Hca). assert ((MARPA_AVL_MAX_HEIGHT <= 92)%nat) as Hf by (unfold MARPA_AVL_MAX_HEIGHT; lia).
  destruct (cil_singleton_ok 92 Hf ca [] 4 Hca) as (c1&ca1&cs1&H1&Hca1&_&_&Hl1); [done|].
  destruct (cil_singleton_ok 92 Hf ca1 cs1 2 Hca1) as (c2&ca2&cs2&H2&Hca2&_&_&Hl2).
  { simpl in Hl1. unfold SIZE_MOD. lia. }
  exists cs2. unfold demo_cilar. rewrite Hi. cbn [mbind res_bind]. rewrite H1. cbn [mbind res_bind snd]. rewrite H2.
  split; [exact Hca2|]. simpl in Hl1. lia.
Qed.


(** C30. The lists of an arena are hash-consed ([cil_bv_add], [cil_buffer_add]): the list of a
    bit vector has the numbers of its set in ascending order, and for any other bit vector of
    the same set, whatever its size, the next call returns the same object and adds nothing
    to the arena. *)
Theorem cil_bv_add_interned fuel ca cs v n v' n' S :
  (MARPA_AVL_MAX_HEIGHT <= fuel)%nat -> cilar_rep ca cs -> Z.of_nat (length cs) < SIZE_MOD - 2 ->
  bv_rep v n S -> bv_rep v' n' S -> 2 * n <= INT_MAX -> 2 * n' <= INT_MAX ->
  exists c ca1 ca2 cs' l, cil_bv_add fuel ca v = Ok (c, ca1, v) /\ cil_bv_add fuel ca1 v' = Ok (c, ca2, v')
    /\ cilar_rep ca1 cs' /\ (exists cs2, cilar_rep ca2 cs2 /\ (forall x, x ∈ cs2 <-> x ∈ cs') /\ cs ⊆ cs2)
    /\ cil_ints c = ints_of l /\ ascending l /\ forall i, i ∈ l <-> i ∈ S.
Proof.
  intros Hf Hca Hlen Hv Hv' Hn Hn'.
  destruct (cil_bv_add_ok fuel Hf ca cs v n S) as (c&ca1&cs1&H1&Hca1&Had1); [done|done|done|lia|].
  pose proof Had1 as (Hc1&Hin1&Hl1).
  destruct (cil_bv_add_ok fuel Hf ca1 cs1 v' n' S) as (c2&ca2&cs2&H2&Hca2&Had2); [done|done|done|lia|].
  assert (forall m w, bv_rep w m S -> forall i, i ∈ elems m S <-> i ∈ S) as Hel.
  { intros m w Hw i. unfold elems. rewrite elem_of_elems_from. split; [by intros []|]. intros Hi. split; [by apply (br_elems _ _ _ Hw)|done]. }
  assert (elems n S = elems n' S) as El by (apply ascending_unique; [apply elems_ascending..|intros i; by rewrite (Hel n v), (Hel n' v')]).
  assert (c = c2) as <-.
  { pose proof Had2 as (_&Hin2&_). eapply added_interned; [exact Hca2|exact Had2|apply Hin2; left; apply Hin1; by right|by rewrite Hc1, El]. }
  exists c, ca1, ca2, cs1, (elems n S). destruct Had2 as (_&Hin2&_).
  split_and!; [done|done|done| |done|apply elems_ascending|by apply (Hel n v)].
  exists cs2. split_and!; [done| |].
  - intros x. rewrite Hin2, Hin1. naive_solver.
  - intros x Hx. apply Hin2. left. apply Hin1. by left.
Qed.

Lemma cil_bv_add_interned_witness :
  exists v v' c ca1 ca2 cs' l, bv_bit_set (bv_create 40) 7 = Ok v /\ bv_bit_set (bv_create 64) 7 = Ok v'
    /\ cil_bv_add 92 demo_cilar v = Ok (c, ca1, v) /\ cil_bv_add 92 ca1 v' = Ok (c, ca2, v')
    /\ cilar_rep ca1 cs' /\ cil_ints c = ints_of l /\ forall i, i ∈ l <-> i ∈ ({[7]} ∪ ∅ : gset Z).
Proof.
  destruct demo_cilar_ok as (cs&Hca&Hl).
  destruct (bv_bit_set_ok (bv_create 40) 40 ∅ 7) as (v&Hs&Hv&_); [apply bv_create_ok; unfold INT_MAX; lia|lia|].
  destruct (bv_bit_set_ok (bv_create 64) 64 ∅ 7) as (v'&Hs'&Hv'&_); [apply bv_create_ok; unfold INT_MAX; lia|lia|].
  destruct (cil_bv_add_interned 92 demo_cilar cs v 40 v' 64 ({[7]} ∪ ∅)) as (c&ca1&ca2&cs'&l&H1&H2&H3&_&H5&_&H7);
    [unfold MARPA_AVL_MAX_HEIGHT; lia|exact Hca|unfold SIZE_MOD; lia|exact Hv|exact Hv'|unfold INT_MAX; lia|unfold INT_MAX; lia|].
  exists v, v', c, ca1, ca2, cs', l. split_and!; assumption.
Defined.
