(* ===== verification/MarpaGrammar.v ===== *)
(** * The grammars of libmarpa ([libmarpa-dist/marpa.c]): symbols, rules, errors, events

    The part of libmarpa that a grammar is built with and questioned through: the functions
    [marpa_g_...] up to the precomputation.  A grammar is a record of the fields of
    [struct marpa_g] these functions use; a symbol ([XSY]) and a rule ([XRL]) are the records
    at their index in the stacks, which is their id.  The fields have the names of the macros
    that read them.

    A call takes a grammar and returns a number and the grammar; what it does with memory it
    does not have, or when it reads outside an array, is [Fault]. *)
From Stdlib Require Import String.
From S2P Require Export MarpaH.
From S2P Require Import Prelude Avl AvlTree AvlProbe AvlTheorems AvlTraversal Dstack BitVector Cil.

(** What the functions do not choose: the version the library was configured with, and the
    rounds a search in a tree may take, [MARPA_AVL_MAX_HEIGHT] or more. *)
Class Library : Type := { lib_version : Z * Z * Z; tree_rounds : nat }.

(** ** Symbols *)
Record XSY : Type := MkXSY {
  ID_of_XSY : Z;
  Rank_of_XSY : Z;
  xsy_is_start : bool;
  XSY_is_LHS : bool;
  XSY_is_Sequence_LHS : bool;
  XSY_is_Valued : bool;
  XSY_is_Valued_Locked : bool;
  XSY_is_Accessible : bool;
  xsy_is_counted : bool;
  XSY_is_Nulling : bool;
  XSY_is_Nullable : bool;
  XSY_is_Terminal : bool;
  XSY_is_Locked_Terminal : bool;
  XSY_is_Productive : bool;
  XSY_is_Completion_Event : bool;
  XSY_is_Nulled_Event : bool;
  XSY_is_Prediction_Event : bool;
  Nulled_XSYIDs_of_XSY : option CIL
}.

Definition set_Rank_of_XSY (v : Z) (x : XSY) : XSY :=
  MkXSY (ID_of_XSY x) v (xsy_is_start x) (XSY_is_LHS x) (XSY_is_Sequence_LHS x) (XSY_is_Valued x) (XSY_is_Valued_Locked x) (XSY_is_Accessible x) (xsy_is_counted x) (XSY_is_Nulling x) (XSY_is_Nullable x) (XSY_is_Terminal x) (XSY_is_Locked_Terminal x) (XSY_is_Productive x) (XSY_is_Completion_Event x) (XSY_is_Nulled_Event x) (XSY_is_Prediction_Event x) (Nulled_XSYIDs_of_XSY x).
Definition set_xsy_is_start (v : bool) (x : XSY) : XSY :=
  MkXSY (ID_of_XSY x) (Rank_of_XSY x) v (XSY_is_LHS x) (XSY_is_Sequence_LHS x) (XSY_is_Valued x) (XSY_is_Valued_Locked x) (XSY_is_Accessible x) (xsy_is_counted x) (XSY_is_Nulling x) (XSY_is_Nullable x) (XSY_is_Terminal x) (XSY_is_Locked_Terminal x) (XSY_is_Productive x) (XSY_is_Completion_Event x) (XSY_is_Nulled_Event x) (XSY_is_Prediction_Event x) (Nulled_XSYIDs_of_XSY x).
Definition set_XSY_is_LHS (v : bool) (x : XSY) : XSY :=
  MkXSY (ID_of_XSY x) (Rank_of_XSY x) (xsy_is_start x) v (XSY_is_Sequence_LHS x) (XSY_is_Valued x) (XSY_is_Valued_Locked x) (XSY_is_Accessible x) (xsy_is_counted x) (XSY_is_Nulling x) (XSY_is_Nullable x) (XSY_is_Terminal x) (XSY_is_Locked_Terminal x) (XSY_is_Productive x) (XSY_is_Completion_Event x) (XSY_is_Nulled_Event x) (XSY_is_Prediction_Event x) (Nulled_XSYIDs_of_XSY x).
Definition set_XSY_is_Sequence_LHS (v : bool) (x : XSY) : XSY :=
  MkXSY (ID_of_XSY x) (Rank_of_XSY x) (xsy_is_start x) (XSY_is_LHS x) v (XSY_is_Valued x) (XSY_is_Valued_Locked x) (XSY_is_Accessible x) (xsy_is_counted x) (XSY_is_Nulling x) (XSY_is_Nullable x) (XSY_is_Terminal x) (XSY_is_Locked_Terminal x) (XSY_is_Productive x) (XSY_is_Completion_Event x) (XSY_is_Nulled_Event x) (XSY_is_Prediction_Event x) (Nulled_XSYIDs_of_XSY x).
Definition set_XSY_is_Valued (v : bool) (x : XSY) : XSY :=
  MkXSY (ID_of_XSY x) (Rank_of_XSY x) (xsy_is_start x) (XSY_is_LHS x) (XSY_is_Sequence_LHS x) v (XSY_is_Valued_Locked x) (XSY_is_Accessible x) (xsy_is_counted x) (XSY_is_Nulling x) (XSY_is_Nullable x) (XSY_is_Terminal x) (XSY_is_Locked_Terminal x) (XSY_is_Productive x) (XSY_is_Completion_Event x) (XSY_is_Nulled_Event x) (XSY_is_Prediction_Event x) (Nulled_XSYIDs_of_XSY x).
Definition set_XSY_is_Valued_Locked (v : bool) (x : XSY) : XSY :=
  MkXSY (ID_of_XSY x) (Rank_of_XSY x) (xsy_is_start x) (XSY_is_LHS x) (XSY_is_Sequence_LHS x) (XSY_is_Valued x) v (XSY_is_Accessible x) (xsy_is_counted x) (XSY_is_Nulling x) (XSY_is_Nullable x) (XSY_is_Terminal x) (XSY_is_Locked_Terminal x) (XSY_is_Productive x) (XSY_is_Completion_Event x) (XSY_is_Nulled_Event x) (XSY_is_Prediction_Event x) (Nulled_XSYIDs_of_XSY x).
Definition set_XSY_is_Accessible (v : bool) (x : XSY) : XSY :=
  MkXSY (ID_of_XSY x) (Rank_of_XSY x) (xsy_is_start x) (XSY_is_LHS x) (XSY_is_Sequence_LHS x) (XSY_is_Valued x) (XSY_is_Valued_Locked x) v (xsy_is_counted x) (XSY_is_Nulling x) (XSY_is_Nullable x) (XSY_is_Terminal x) (XSY_is_Locked_Terminal x) (XSY_is_Productive x) (XSY_is_Completion_Event x) (XSY_is_Nulled_Event x) (XSY_is_Prediction_Event x) (Nulled_XSYIDs_of_XSY x).
Definition set_xsy_is_counted (v : bool) (x : XSY) : XSY :=
  MkXSY (ID_of_XSY x) (Rank_of_XSY x) (xsy_is_start x) (XSY_is_LHS x) (XSY_is_Sequence_LHS x) (XSY_is_Valued x) (XSY_is_Valued_Locked x) (XSY_is_Accessible x) v (XSY_is_Nulling x) (XSY_is_Nullable x) (XSY_is_Terminal x) (XSY_is_Locked_Terminal x) (XSY_is_Productive x) (XSY_is_Completion_Event x) (XSY_is_Nulled_Event x) (XSY_is_Prediction_Event x) (Nulled_XSYIDs_of_XSY x).
Definition set_XSY_is_Nulling (v : bool) (x : XSY) : XSY :=
  MkXSY (ID_of_XSY x) (Rank_of_XSY x) (xsy_is_start x) (XSY_is_LHS x) (XSY_is_Sequence_LHS x) (XSY_is_Valued x) (XSY_is_Valued_Locked x) (XSY_is_Accessible x) (xsy_is_counted x) v (XSY_is_Nullable x) (XSY_is_Terminal x) (XSY_is_Locked_Terminal x) (XSY_is_Productive x) (XSY_is_Completion_Event x) (XSY_is_Nulled_Event x) (XSY_is_Prediction_Event x) (Nulled_XSYIDs_of_XSY x).
Definition set_XSY_is_Nullable (v : bool) (x : XSY) : XSY :=
  MkXSY (ID_of_XSY x) (Rank_of_XSY x) (xsy_is_start x) (XSY_is_LHS x) (XSY_is_Sequence_LHS x) (XSY_is_Valued x) (XSY_is_Valued_Locked x) (XSY_is_Accessible x) (xsy_is_counted x) (XSY_is_Nulling x) v (XSY_is_Terminal x) (XSY_is_Locked_Terminal x) (XSY_is_Productive x) (XSY_is_Completion_Event x) (XSY_is_Nulled_Event x) (XSY_is_Prediction_Event x) (Nulled_XSYIDs_of_XSY x).
Definition set_XSY_is_Terminal (v : bool) (x : XSY) : XSY :=
  MkXSY (ID_of_XSY x) (Rank_of_XSY x) (xsy_is_start x) (XSY_is_LHS x) (XSY_is_Sequence_LHS x) (XSY_is_Valued x) (XSY_is_Valued_Locked x) (XSY_is_Accessible x) (xsy_is_counted x) (XSY_is_Nulling x) (XSY_is_Nullable x) v (XSY_is_Locked_Terminal x) (XSY_is_Productive x) (XSY_is_Completion_Event x) (XSY_is_Nulled_Event x) (XSY_is_Prediction_Event x) (Nulled_XSYIDs_of_XSY x).
Definition set_XSY_is_Locked_Terminal (v : bool) (x : XSY) : XSY :=
  MkXSY (ID_of_XSY x) (Rank_of_XSY x) (xsy_is_start x) (XSY_is_LHS x) (XSY_is_Sequence_LHS x) (XSY_is_Valued x) (XSY_is_Valued_Locked x) (XSY_is_Accessible x) (xsy_is_counted x) (XSY_is_Nulling x) (XSY_is_Nullable x) (XSY_is_Terminal x) v (XSY_is_Productive x) (XSY_is_Completion_Event x) (XSY_is_Nulled_Event x) (XSY_is_Prediction_Event x) (Nulled_XSYIDs_of_XSY x).
Definition set_XSY_is_Productive (v : bool) (x : XSY) : XSY :=
  MkXSY (ID_of_XSY x) (Rank_of_XSY x) (xsy_is_start x) (XSY_is_LHS x) (XSY_is_Sequence_LHS x) (XSY_is_Valued x) (XSY_is_Valued_Locked x) (XSY_is_Accessible x) (xsy_is_counted x) (XSY_is_Nulling x) (XSY_is_Nullable x) (XSY_is_Terminal x) (XSY_is_Locked_Terminal x) v (XSY_is_Completion_Event x) (XSY_is_Nulled_Event x) (XSY_is_Prediction_Event x) (Nulled_XSYIDs_of_XSY x).
Definition set_XSY_is_Completion_Event (v : bool) (x : XSY) : XSY :=
  MkXSY (ID_of_XSY x) (Rank_of_XSY x) (xsy_is_start x) (XSY_is_LHS x) (XSY_is_Sequence_LHS x) (XSY_is_Valued x) (XSY_is_Valued_Locked x) (XSY_is_Accessible x) (xsy_is_counted x) (XSY_is_Nulling x) (XSY_is_Nullable x) (XSY_is_Terminal x) (XSY_is_Locked_Terminal x) (XSY_is_Productive x) v (XSY_is_Nulled_Event x) (XSY_is_Prediction_Event x) (Nulled_XSYIDs_of_XSY x).
Definition set_XSY_is_Nulled_Event (v : bool) (x : XSY) : XSY :=
  MkXSY (ID_of_XSY x) (Rank_of_XSY x) (xsy_is_start x) (XSY_is_LHS x) (XSY_is_Sequence_LHS x) (XSY_is_Valued x) (XSY_is_Valued_Locked x) (XSY_is_Accessible x) (xsy_is_counted x) (XSY_is_Nulling x) (XSY_is_Nullable x) (XSY_is_Terminal x) (XSY_is_Locked_Terminal x) (XSY_is_Productive x) (XSY_is_Completion_Event x) v (XSY_is_Prediction_Event x) (Nulled_XSYIDs_of_XSY x).
Definition set_XSY_is_Prediction_Event (v : bool) (x : XSY) : XSY :=
  MkXSY (ID_of_XSY x) (Rank_of_XSY x) (xsy_is_start x) (XSY_is_LHS x) (XSY_is_Sequence_LHS x) (XSY_is_Valued x) (XSY_is_Valued_Locked x) (XSY_is_Accessible x) (xsy_is_counted x) (XSY_is_Nulling x) (XSY_is_Nullable x) (XSY_is_Terminal x) (XSY_is_Locked_Terminal x) (XSY_is_Productive x) (XSY_is_Completion_Event x) (XSY_is_Nulled_Event x) v (Nulled_XSYIDs_of_XSY x).
Definition set_Nulled_XSYIDs_of_XSY (v : option CIL) (x : XSY) : XSY :=
  MkXSY (ID_of_XSY x) (Rank_of_XSY x) (xsy_is_start x) (XSY_is_LHS x) (XSY_is_Sequence_LHS x) (XSY_is_Valued x) (XSY_is_Valued_Locked x) (XSY_is_Accessible x) (xsy_is_counted x) (XSY_is_Nulling x) (XSY_is_Nullable x) (XSY_is_Terminal x) (XSY_is_Locked_Terminal x) (XSY_is_Productive x) (XSY_is_Completion_Event x) (XSY_is_Nulled_Event x) (XSY_is_Prediction_Event x) v.

(** ** Rules

    [xrl_symbols] is [t_symbols]: the left-hand side, then the right-hand side. *)
Record XRL : Type := MkXRL {
  ID_of_XRL : Z;
  Length_of_XRL : Z;
  xrl_symbols : list Z;
  Rank_of_XRL : Z;
  Null_Ranks_High_of_RULE : bool;
  XRL_is_BNF : bool;
  XRL_is_Sequence : bool;
  Minimum_of_XRL : Z;
  Separator_of_XRL : Z;
  xrl_is_discard : bool;
  XRL_is_Proper_Separation : bool;
  xrl_is_loop : bool;
  XRL_is_Nulling : bool;
  XRL_is_Nullable : bool;
  XRL_is_Accessible : bool;
  XRL_is_Productive : bool;
  XRL_is_Used : bool
}.

Definition set_Rank_of_XRL (v : Z) (x : XRL) : XRL :=
  MkXRL (ID_of_XRL x) (Length_of_XRL x) (xrl_symbols x) v (Null_Ranks_High_of_RULE x) (XRL_is_BNF x) (XRL_is_Sequence x) (Minimum_of_XRL x) (Separator_of_XRL x) (xrl_is_discard x) (XRL_is_Proper_Separation x) (xrl_is_loop x) (XRL_is_Nulling x) (XRL_is_Nullable x) (XRL_is_Accessible x) (XRL_is_Productive x) (XRL_is_Used x).
Definition set_Null_Ranks_High_of_RULE (v : bool) (x : XRL) : XRL :=
  MkXRL (ID_of_XRL x) (Length_of_XRL x) (xrl_symbols x) (Rank_of_XRL x) v (XRL_is_BNF x) (XRL_is_Sequence x) (Minimum_of_XRL x) (Separator_of_XRL x) (xrl_is_discard x) (XRL_is_Proper_Separation x) (xrl_is_loop x) (XRL_is_Nulling x) (XRL_is_Nullable x) (XRL_is_Accessible x) (XRL_is_Productive x) (XRL_is_Used x).
Definition set_XRL_is_BNF (v : bool) (x : XRL) : XRL :=
  MkXRL (ID_of_XRL x) (Length_of_XRL x) (xrl_symbols x) (Rank_of_XRL x) (Null_Ranks_High_of_RULE x) v (XRL_is_Sequence x) (Minimum_of_XRL x) (Separator_of_XRL x) (xrl_is_discard x) (XRL_is_Proper_Separation x) (xrl_is_loop x) (XRL_is_Nulling x) (XRL_is_Nullable x) (XRL_is_Accessible x) (XRL_is_Productive x) (XRL_is_Used x).
Definition set_XRL_is_Sequence (v : bool) (x : XRL) : XRL :=
  MkXRL (ID_of_XRL x) (Length_of_XRL x) (xrl_symbols x) (Rank_of_XRL x) (Null_Ranks_High_of_RULE x) (XRL_is_BNF x) v (Minimum_of_XRL x) (Separator_of_XRL x) (xrl_is_discard x) (XRL_is_Proper_Separation x) (xrl_is_loop x) (XRL_is_Nulling x) (XRL_is_Nullable x) (XRL_is_Accessible x) (XRL_is_Productive x) (XRL_is_Used x).
Definition set_Minimum_of_XRL (v : Z) (x : XRL) : XRL :=
  MkXRL (ID_of_XRL x) (Length_of_XRL x) (xrl_symbols x) (Rank_of_XRL x) (Null_Ranks_High_of_RULE x) (XRL_is_BNF x) (XRL_is_Sequence x) v (Separator_of_XRL x) (xrl_is_discard x) (XRL_is_Proper_Separation x) (xrl_is_loop x) (XRL_is_Nulling x) (XRL_is_Nullable x) (XRL_is_Accessible x) (XRL_is_Productive x) (XRL_is_Used x).
Definition set_Separator_of_XRL (v : Z) (x : XRL) : XRL :=
  MkXRL (ID_of_XRL x) (Length_of_XRL x) (xrl_symbols x) (Rank_of_XRL x) (Null_Ranks_High_of_RULE x) (XRL_is_BNF x) (XRL_is_Sequence x) (Minimum_of_XRL x) v (xrl_is_discard x) (XRL_is_Proper_Separation x) (xrl_is_loop x) (XRL_is_Nulling x) (XRL_is_Nullable x) (XRL_is_Accessible x) (XRL_is_Productive x) (XRL_is_Used x).
Definition set_xrl_is_discard (v : bool) (x : XRL) : XRL :=
  MkXRL (ID_of_XRL x) (Length_of_XRL x) (xrl_symbols x) (Rank_of_XRL x) (Null_Ranks_High_of_RULE x) (XRL_is_BNF x) (XRL_is_Sequence x) (Minimum_of_XRL x) (Separator_of_XRL x) v (XRL_is_Proper_Separation x) (xrl_is_loop x) (XRL_is_Nulling x) (XRL_is_Nullable x) (XRL_is_Accessible x) (XRL_is_Productive x) (XRL_is_Used x).
Definition set_XRL_is_Proper_Separation (v : bool) (x : XRL) : XRL :=
  MkXRL (ID_of_XRL x) (Length_of_XRL x) (xrl_symbols x) (Rank_of_XRL x) (Null_Ranks_High_of_RULE x) (XRL_is_BNF x) (XRL_is_Sequence x) (Minimum_of_XRL x) (Separator_of_XRL x) (xrl_is_discard x) v (xrl_is_loop x) (XRL_is_Nulling x) (XRL_is_Nullable x) (XRL_is_Accessible x) (XRL_is_Productive x) (XRL_is_Used x).
Definition set_xrl_is_loop (v : bool) (x : XRL) : XRL :=
  MkXRL (ID_of_XRL x) (Length_of_XRL x) (xrl_symbols x) (Rank_of_XRL x) (Null_Ranks_High_of_RULE x) (XRL_is_BNF x) (XRL_is_Sequence x) (Minimum_of_XRL x) (Separator_of_XRL x) (xrl_is_discard x) (XRL_is_Proper_Separation x) v (XRL_is_Nulling x) (XRL_is_Nullable x) (XRL_is_Accessible x) (XRL_is_Productive x) (XRL_is_Used x).
Definition set_XRL_is_Nulling (v : bool) (x : XRL) : XRL :=
  MkXRL (ID_of_XRL x) (Length_of_XRL x) (xrl_symbols x) (Rank_of_XRL x) (Null_Ranks_High_of_RULE x) (XRL_is_BNF x) (XRL_is_Sequence x) (Minimum_of_XRL x) (Separator_of_XRL x) (xrl_is_discard x) (XRL_is_Proper_Separation x) (xrl_is_loop x) v (XRL_is_Nullable x) (XRL_is_Accessible x) (XRL_is_Productive x) (XRL_is_Used x).
Definition set_XRL_is_Nullable (v : bool) (x : XRL) : XRL :=
  MkXRL (ID_of_XRL x) (Length_of_XRL x) (xrl_symbols x) (Rank_of_XRL x) (Null_Ranks_High_of_RULE x) (XRL_is_BNF x) (XRL_is_Sequence x) (Minimum_of_XRL x) (Separator_of_XRL x) (xrl_is_discard x) (XRL_is_Proper_Separation x) (xrl_is_loop x) (XRL_is_Nulling x) v (XRL_is_Accessible x) (XRL_is_Productive x) (XRL_is_Used x).
Definition set_XRL_is_Accessible (v : bool) (x : XRL) : XRL :=
  MkXRL (ID_of_XRL x) (Length_of_XRL x) (xrl_symbols x) (Rank_of_XRL x) (Null_Ranks_High_of_RULE x) (XRL_is_BNF x) (XRL_is_Sequence x) (Minimum_of_XRL x) (Separator_of_XRL x) (xrl_is_discard x) (XRL_is_Proper_Separation x) (xrl_is_loop x) (XRL_is_Nulling x) (XRL_is_Nullable x) v (XRL_is_Productive x) (XRL_is_Used x).
Definition set_XRL_is_Productive (v : bool) (x : XRL) : XRL :=
  MkXRL (ID_of_XRL x) (Length_of_XRL x) (xrl_symbols x) (Rank_of_XRL x) (Null_Ranks_High_of_RULE x) (XRL_is_BNF x) (XRL_is_Sequence x) (Minimum_of_XRL x) (Separator_of_XRL x) (xrl_is_discard x) (XRL_is_Proper_Separation x) (xrl_is_loop x) (XRL_is_Nulling x) (XRL_is_Nullable x) (XRL_is_Accessible x) v (XRL_is_Used x).
Definition set_XRL_is_Used (v : bool) (x : XRL) : XRL :=
  MkXRL (ID_of_XRL x) (Length_of_XRL x) (xrl_symbols x) (Rank_of_XRL x) (Null_Ranks_High_of_RULE x) (XRL_is_BNF x) (XRL_is_Sequence x) (Minimum_of_XRL x) (Separator_of_XRL x) (xrl_is_discard x) (XRL_is_Proper_Separation x) (xrl_is_loop x) (XRL_is_Nulling x) (XRL_is_Nullable x) (XRL_is_Accessible x) (XRL_is_Productive x) v.

Definition LHS_ID_of_XRL (rule : XRL) : res Z := rd (xrl_symbols rule) 0.
Definition RHS_ID_of_XRL (rule : XRL) (ix : Z) : res Z := rd (xrl_symbols rule) (ix + 1).

(** What the tree of rules has: the address of a rule under construction, its length and its
    symbols, which never change; the address is that of the next rule. *)
Record xrl_object : Type := MkXRLObject { xo_addr : Z; xo_length : Z; xo_symbols : list Z }.

#[export] Instance xrl_object_eq_dec : EqDecision xrl_object.
Proof. solve_decision. Defined.

(** A symbol of a rule: those the comparison reads exist. *)
Definition xo_symbol (r : xrl_object) (ix : Z) : Z := default 0 (xo_symbols r !! Z.to_nat ix).

(** [for(ix = 0; ix < length; ix++) { diff = ...; if(diff) return diff; } return 0;] *)
Fixpoint rhs_cmp_loop (n : nat) (ix : Z) (xrl1 xrl2 : xrl_object) : Z :=
  match n with
  | O => 0
  | S n =>
    let diff := xo_symbol xrl2 (ix + 1) - xo_symbol xrl1 (ix + 1) in
    if negb (diff =? 0) then diff else rhs_cmp_loop n (ix + 1) xrl1 xrl2
  end.

Definition duplicate_rule_cmp (xrl1 xrl2 : xrl_object) : Z :=
  let diff := xo_symbol xrl2 0 - xo_symbol xrl1 0 in
  if negb (diff =? 0) then diff
  else
    let length := xo_length xrl1 in
    let diff := xo_length xrl2 - length in
    if negb (diff =? 0) then diff else rhs_cmp_loop (Z.to_nat length) 0 xrl1 xrl2.

(** ** Zero-width assertions *)

(** [struct s_zwp], with its address. *)
Record ZWP : Type := MkZWP { zwp_addr : Z; XRLID_of_ZWP : Z; Dot_of_ZWP : Z; ZWAID_of_ZWP : Z }.

#[export] Instance ZWP_eq_dec : EqDecision ZWP.
Proof. solve_decision. Defined.

Definition zwp_cmp (zwp_a zwp_b : ZWP) : Z :=
  let subkey := XRLID_of_ZWP zwp_a - XRLID_of_ZWP zwp_b in
  if negb (subkey =? 0) then subkey
  else
    let subkey := Dot_of_ZWP zwp_a - Dot_of_ZWP zwp_b in
    if negb (subkey =? 0) then subkey else ZWAID_of_ZWP zwp_a - ZWAID_of_ZWP zwp_b.

(** ** Grammars

    [t_gzwa_stack] has the default values of the assertions. *)
Record GRAMMAR : Type := MkGRAMMAR {
  t_is_ok : Z;
  t_xsy_stack : list XSY;
  t_xrl_stack : list XRL;
  t_events : list (Z * Z);
  t_xrl_tree : option (avl_table (D := xrl_object));
  t_gzwa_stack : list Z;
  t_zwp_tree : option (avl_table (D := ZWP));
  t_cilar : CILAR;
  t_error : Z;
  t_error_string : option string;
  t_ref_count : Z;
  t_start_xsy_id : Z;
  External_Size_of_G : Z;
  t_max_rule_length : Z;
  Default_Rank_of_G : Z;
  G_is_Precomputed : bool;
  t_has_cycle : bool;
  t_force_valued : bool
}.

Definition set_t_is_ok (v : Z) (x : GRAMMAR) : GRAMMAR :=
  MkGRAMMAR v (t_xsy_stack x) (t_xrl_stack x) (t_events x) (t_xrl_tree x) (t_gzwa_stack x) (t_zwp_tree x) (t_cilar x) (t_error x) (t_error_string x) (t_ref_count x) (t_start_xsy_id x) (External_Size_of_G x) (t_max_rule_length x) (Default_Rank_of_G x) (G_is_Precomputed x) (t_has_cycle x) (t_force_valued x).
Definition set_t_xsy_stack (v : list XSY) (x : GRAMMAR) : GRAMMAR :=
  MkGRAMMAR (t_is_ok x) v (t_xrl_stack x) (t_events x) (t_xrl_tree x) (t_gzwa_stack x) (t_zwp_tree x) (t_cilar x) (t_error x) (t_error_string x) (t_ref_count x) (t_start_xsy_id x) (External_Size_of_G x) (t_max_rule_length x) (Default_Rank_of_G x) (G_is_Precomputed x) (t_has_cycle x) (t_force_valued x).
Definition set_t_xrl_stack (v : list XRL) (x : GRAMMAR) : GRAMMAR :=
  MkGRAMMAR (t_is_ok x) (t_xsy_stack x) v (t_events x) (t_xrl_tree x) (t_gzwa_stack x) (t_zwp_tree x) (t_cilar x) (t_error x) (t_error_string x) (t_ref_count x) (t_start_xsy_id x) (External_Size_of_G x) (t_max_rule_length x) (Default_Rank_of_G x) (G_is_Precomputed x) (t_has_cycle x) (t_force_valued x).
Definition set_t_events (v : list (Z * Z)) (x : GRAMMAR) : GRAMMAR :=
  MkGRAMMAR (t_is_ok x) (t_xsy_stack x) (t_xrl_stack x) v (t_xrl_tree x) (t_gzwa_stack x) (t_zwp_tree x) (t_cilar x) (t_error x) (t_error_string x) (t_ref_count x) (t_start_xsy_id x) (External_Size_of_G x) (t_max_rule_length x) (Default_Rank_of_G x) (G_is_Precomputed x) (t_has_cycle x) (t_force_valued x).
Definition set_t_xrl_tree (v : option (avl_table (D := xrl_object))) (x : GRAMMAR) : GRAMMAR :=
  MkGRAMMAR (t_is_ok x) (t_xsy_stack x) (t_xrl_stack x) (t_events x) v (t_gzwa_stack x) (t_zwp_tree x) (t_cilar x) (t_error x) (t_error_string x) (t_ref_count x) (t_start_xsy_id x) (External_Size_of_G x) (t_max_rule_length x) (Default_Rank_of_G x) (G_is_Precomputed x) (t_has_cycle x) (t_force_valued x).
Definition set_t_gzwa_stack (v : list Z) (x : GRAMMAR) : GRAMMAR :=
  MkGRAMMAR (t_is_ok x) (t_xsy_stack x) (t_xrl_stack x) (t_events x) (t_xrl_tree x) v (t_zwp_tree x) (t_cilar x) (t_error x) (t_error_string x) (t_ref_count x) (t_start_xsy_id x) (External_Size_of_G x) (t_max_rule_length x) (Default_Rank_of_G x) (G_is_Precomputed x) (t_has_cycle x) (t_force_valued x).
Definition set_t_zwp_tree (v : option (avl_table (D := ZWP))) (x : GRAMMAR) : GRAMMAR :=
  MkGRAMMAR (t_is_ok x) (t_xsy_stack x) (t_xrl_stack x) (t_events x) (t_xrl_tree x) (t_gzwa_stack x) v (t_cilar x) (t_error x) (t_error_string x) (t_ref_count x) (t_start_xsy_id x) (External_Size_of_G x) (t_max_rule_length x) (Default_Rank_of_G x) (G_is_Precomputed x) (t_has_cycle x) (t_force_valued x).
Definition set_t_cilar (v : CILAR) (x : GRAMMAR) : GRAMMAR :=
  MkGRAMMAR (t_is_ok x) (t_xsy_stack x) (t_xrl_stack x) (t_events x) (t_xrl_tree x) (t_gzwa_stack x) (t_zwp_tree x) v (t_error x) (t_error_string x) (t_ref_count x) (t_start_xsy_id x) (External_Size_of_G x) (t_max_rule_length x) (Default_Rank_of_G x) (G_is_Precomputed x) (t_has_cycle x) (t_force_valued x).
Definition set_t_error (v : Z) (x : GRAMMAR) : GRAMMAR :=
  MkGRAMMAR (t_is_ok x) (t_xsy_stack x) (t_xrl_stack x) (t_events x) (t_xrl_tree x) (t_gzwa_stack x) (t_zwp_tree x) (t_cilar x) v (t_error_string x) (t_ref_count x) (t_start_xsy_id x) (External_Size_of_G x) (t_max_rule_length x) (Default_Rank_of_G x) (G_is_Precomputed x) (t_has_cycle x) (t_force_valued x).
Definition set_t_error_string (v : option string) (x : GRAMMAR) : GRAMMAR :=
  MkGRAMMAR (t_is_ok x) (t_xsy_stack x) (t_xrl_stack x) (t_events x) (t_xrl_tree x) (t_gzwa_stack x) (t_zwp_tree x) (t_cilar x) (t_error x) v (t_ref_count x) (t_start_xsy_id x) (External_Size_of_G x) (t_max_rule_length x) (Default_Rank_of_G x) (G_is_Precomputed x) (t_has_cycle x) (t_force_valued x).
Definition set_t_ref_count (v : Z) (x : GRAMMAR) : GRAMMAR :=
  MkGRAMMAR (t_is_ok x) (t_xsy_stack x) (t_xrl_stack x) (t_events x) (t_xrl_tree x) (t_gzwa_stack x) (t_zwp_tree x) (t_cilar x) (t_error x) (t_error_string x) v (t_start_xsy_id x) (External_Size_of_G x) (t_max_rule_length x) (Default_Rank_of_G x) (G_is_Precomputed x) (t_has_cycle x) (t_force_valued x).
Definition set_t_start_xsy_id (v : Z) (x : GRAMMAR) : GRAMMAR :=
  MkGRAMMAR (t_is_ok x) (t_xsy_stack x) (t_xrl_stack x) (t_events x) (t_xrl_tree x) (t_gzwa_stack x) (t_zwp_tree x) (t_cilar x) (t_error x) (t_error_string x) (t_ref_count x) v (External_Size_of_G x) (t_max_rule_length x) (Default_Rank_of_G x) (G_is_Precomputed x) (t_has_cycle x) (t_force_valued x).
Definition set_External_Size_of_G (v : Z) (x : GRAMMAR) : GRAMMAR :=
  MkGRAMMAR (t_is_ok x) (t_xsy_stack x) (t_xrl_stack x) (t_events x) (t_xrl_tree x) (t_gzwa_stack x) (t_zwp_tree x) (t_cilar x) (t_error x) (t_error_string x) (t_ref_count x) (t_start_xsy_id x) v (t_max_rule_length x) (Default_Rank_of_G x) (G_is_Precomputed x) (t_has_cycle x) (t_force_valued x).
Definition set_t_max_rule_length (v : Z) (x : GRAMMAR) : GRAMMAR :=
  MkGRAMMAR (t_is_ok x) (t_xsy_stack x) (t_xrl_stack x) (t_events x) (t_xrl_tree x) (t_gzwa_stack x) (t_zwp_tree x) (t_cilar x) (t_error x) (t_error_string x) (t_ref_count x) (t_start_xsy_id x) (External_Size_of_G x) v (Default_Rank_of_G x) (G_is_Precomputed x) (t_has_cycle x) (t_force_valued x).
Definition set_Default_Rank_of_G (v : Z) (x : GRAMMAR) : GRAMMAR :=
  MkGRAMMAR (t_is_ok x) (t_xsy_stack x) (t_xrl_stack x) (t_events x) (t_xrl_tree x) (t_gzwa_stack x) (t_zwp_tree x) (t_cilar x) (t_error x) (t_error_string x) (t_ref_count x) (t_start_xsy_id x) (External_Size_of_G x) (t_max_rule_length x) v (G_is_Precomputed x) (t_has_cycle x) (t_force_valued x).
Definition set_G_is_Precomputed (v : bool) (x : GRAMMAR) : GRAMMAR :=
  MkGRAMMAR (t_is_ok x) (t_xsy_stack x) (t_xrl_stack x) (t_events x) (t_xrl_tree x) (t_gzwa_stack x) (t_zwp_tree x) (t_cilar x) (t_error x) (t_error_string x) (t_ref_count x) (t_start_xsy_id x) (External_Size_of_G x) (t_max_rule_length x) (Default_Rank_of_G x) v (t_has_cycle x) (t_force_valued x).
Definition set_t_has_cycle (v : bool) (x : GRAMMAR) : GRAMMAR :=
  MkGRAMMAR (t_is_ok x) (t_xsy_stack x) (t_xrl_stack x) (t_events x) (t_xrl_tree x) (t_gzwa_stack x) (t_zwp_tree x) (t_cilar x) (t_error x) (t_error_string x) (t_ref_count x) (t_start_xsy_id x) (External_Size_of_G x) (t_max_rule_length x) (Default_Rank_of_G x) (G_is_Precomputed x) v (t_force_valued x).
Definition set_t_force_valued (v : bool) (x : GRAMMAR) : GRAMMAR :=
  MkGRAMMAR (t_is_ok x) (t_xsy_stack x) (t_xrl_stack x) (t_events x) (t_xrl_tree x) (t_gzwa_stack x) (t_zwp_tree x) (t_cilar x) (t_error x) (t_error_string x) (t_ref_count x) (t_start_xsy_id x) (External_Size_of_G x) (t_max_rule_length x) (Default_Rank_of_G x) (G_is_Precomputed x) (t_has_cycle x) v.

Section grammar.
Context `{Library}.

(** ** Errors *)

Definition I_AM_OK : Z := 1769164619.
Definition IS_G_OK (g : GRAMMAR) : bool := t_is_ok g =? I_AM_OK.

(** The version of [marpa.h]. *)
Definition marpa_h_version : Z * Z * Z := (7, 2, 0).
Definition HEADER_VERSION_MISMATCH : bool := negb (bool_decide (lib_version = marpa_h_version)).

(** [FATAL_FLAG] is a parameter of [set_error]: [fatal]. *)
Definition set_error (g : GRAMMAR) (code : Z) (message : option string) (fatal : bool) : GRAMMAR :=
  let g := set_t_error_string message (set_t_error code g) in
  if fatal then set_t_is_ok 0 g else g.

Definition MARPA_ERROR (g : GRAMMAR) (code : Z) : GRAMMAR := set_error g code None false.

Definition clear_error (g : GRAMMAR) : Z * GRAMMAR :=
  if negb (IS_G_OK g) then
    let g := if t_error g =? MARPA_ERR_NONE then set_t_error MARPA_ERR_I_AM_NOT_OK g else g in
    (t_error g, g)
  else (MARPA_ERR_NONE, set_t_error_string None (set_t_error MARPA_ERR_NONE g)).

(** A test that ends a call: the value returned and the error set. *)
Definition g_check : Type := GRAMMAR -> option (Z * Z).

Definition failure_indicator : Z := -2.

Definition fatal_error : g_check := fun g =>
  if HEADER_VERSION_MISMATCH then Some (failure_indicator, MARPA_ERR_HEADERS_DO_NOT_MATCH)
  else if negb (IS_G_OK g) then Some (failure_indicator, t_error g) else None.
Definition fail_if (b : bool) (ret code : Z) : g_check := fun _ => if b then Some (ret, code) else None.
Definition if_precomputed : g_check := fun g => fail_if (G_is_Precomputed g) failure_indicator MARPA_ERR_PRECOMPUTED g.
Definition if_not_precomputed : g_check := fun g => fail_if (negb (G_is_Precomputed g)) failure_indicator MARPA_ERR_NOT_PRECOMPUTED g.

Definition XSY_Count_of_G (g : GRAMMAR) : Z := Z.of_nat (length (t_xsy_stack g)).
Definition XRL_Count_of_G (g : GRAMMAR) : Z := Z.of_nat (length (t_xrl_stack g)).
Definition ZWA_Count_of_G (g : GRAMMAR) : Z := Z.of_nat (length (t_gzwa_stack g)).
Definition XSYID_is_Malformed (xsy_id : Z) : bool := xsy_id <? 0.
Definition XSYID_of_G_Exists (g : GRAMMAR) (xsy_id : Z) : bool := xsy_id <? XSY_Count_of_G g.
Definition XRLID_is_Malformed (rule_id : Z) : bool := rule_id <? 0.
Definition XRLID_of_G_Exists (g : GRAMMAR) (rule_id : Z) : bool := rule_id <? XRL_Count_of_G g.

Definition xsy_malformed (xsy_id : Z) : g_check := fail_if (XSYID_is_Malformed xsy_id) failure_indicator MARPA_ERR_INVALID_SYMBOL_ID.
Definition xsy_not_there (ret xsy_id : Z) : g_check := fun g => fail_if (negb (XSYID_of_G_Exists g xsy_id)) ret MARPA_ERR_NO_SUCH_SYMBOL_ID g.
Definition xrl_malformed (xrl_id : Z) : g_check := fail_if (XRLID_is_Malformed xrl_id) failure_indicator MARPA_ERR_INVALID_RULE_ID.
Definition xrl_not_there (ret xrl_id : Z) : g_check := fun g => fail_if (negb (XRLID_of_G_Exists g xrl_id)) ret MARPA_ERR_NO_SUCH_RULE_ID g.

Fixpoint first_failure (cs : list g_check) (g : GRAMMAR) : option (Z * Z) :=
  match cs with
  | [] => None
  | c :: cs => match c g with Some f => Some f | None => first_failure cs g end
  end.

(** The tests in order, then the rest of the call. *)
Definition guarded (cs : list g_check) (g : GRAMMAR) (k : GRAMMAR -> res (Z * GRAMMAR)) : res (Z * GRAMMAR) :=
  match first_failure cs g with
  | Some (ret, code) => Ok (ret, MARPA_ERROR g code)
  | None => k g
  end.

(** ** Creation and references *)

(** [struct s_marpa_config] *)
Record Marpa_Config : Type := MkConfig { config_is_ok : Z; config_error : Z; config_error_string : option string }.

Definition marpa_check_version (required_major required_minor required_micro : Z) : Z :=
  let '(marpa_major_version, marpa_minor_version, marpa_micro_version) := lib_version in
  if negb (required_major =? marpa_major_version) then 30
  else if negb (required_minor =? marpa_minor_version) then 32
  else if negb (required_micro =? marpa_micro_version) then 31
  else MARPA_ERR_NONE.

(** The three numbers stored. *)
Definition marpa_version : Z * (Z * Z * Z) := (0, lib_version).

Definition marpa_c_init (config : Marpa_Config) : Z * Marpa_Config := (0, MkConfig I_AM_OK MARPA_ERR_NONE None).

(** The error, and the text stored. *)
Definition marpa_c_error (config : Marpa_Config) : Z * option string := (config_error config, config_error_string config).

Definition marpa_g_new (configuration : option Marpa_Config) : res (option GRAMMAR * option Marpa_Config) :=
  match configuration with
  | Some c =>
    if negb (config_is_ok c =? I_AM_OK) then Ok (None, Some (MkConfig (config_is_ok c) MARPA_ERR_I_AM_NOT_OK (config_error_string c)))
    else cilar ← cilar_init;
      Ok (Some (MkGRAMMAR I_AM_OK [] [] [] (Some avl_create) [] (Some avl_create) cilar MARPA_ERR_NONE None 1 (-1) 0 0 0 false false false),
          configuration)
  | None =>
    cilar ← cilar_init;
    Ok (Some (MkGRAMMAR I_AM_OK [] [] [] (Some avl_create) [] (Some avl_create) cilar MARPA_ERR_NONE None 1 (-1) 0 0 0 false false false), None)
  end.

(** [None]: the grammar has been freed. *)
Definition grammar_unref (g : GRAMMAR) : option GRAMMAR :=
  let g := set_t_ref_count (t_ref_count g - 1) g in
  if t_ref_count g <=? 0 then None else Some g.
Definition marpa_g_unref := grammar_unref.

Definition grammar_ref (g : GRAMMAR) : GRAMMAR := set_t_ref_count (t_ref_count g + 1) g.
Definition marpa_g_ref := grammar_ref.

(** ** Stacks *)

Definition XSY_by_ID (g : GRAMMAR) (id : Z) : res XSY := rd (t_xsy_stack g) id.
Definition XRL_by_ID (g : GRAMMAR) (id : Z) : res XRL := rd (t_xrl_stack g) id.

(** A write through the pointer that the stack holds. *)
Definition upd_xsy (g : GRAMMAR) (id : Z) (f : XSY -> XSY) : res GRAMMAR :=
  x ← XSY_by_ID g id; l ← wr (t_xsy_stack g) id (f x); Ok (set_t_xsy_stack l g).
Definition upd_xrl (g : GRAMMAR) (id : Z) (f : XRL -> XRL) : res GRAMMAR :=
  x ← XRL_by_ID g id; l ← wr (t_xrl_stack g) id (f x); Ok (set_t_xrl_stack l g).

Definition xsy_id_is_valid (g : GRAMMAR) (xsy_id : Z) : bool := negb (XSYID_is_Malformed xsy_id) && XSYID_of_G_Exists g xsy_id.

Definition marpa_g_highest_symbol_id (g : GRAMMAR) : res (Z * GRAMMAR) :=
  guarded [fatal_error] g (fun g => Ok (XSY_Count_of_G g - 1, g)).
Definition marpa_g_highest_rule_id (g : GRAMMAR) : res (Z * GRAMMAR) :=
  guarded [fatal_error] g (fun g => Ok (XRL_Count_of_G g - 1, g)).

(** ** Events *)

Definition event_new (g : GRAMMAR) (type : Z) : GRAMMAR := set_t_events (t_events g ++ [(type, 0)]) g.
Definition int_event_new (g : GRAMMAR) (type value : Z) : GRAMMAR := set_t_events (t_events g ++ [(type, value)]) g.

(** The event stored too. *)
Definition marpa_g_event (g : GRAMMAR) (ix : Z) : res (Z * option (Z * Z) * GRAMMAR) :=
  if ix <? 0 then Ok (failure_indicator, None, MARPA_ERROR g MARPA_ERR_EVENT_IX_NEGATIVE)
  else if ix >=? Z.of_nat (length (t_events g)) then Ok (failure_indicator, None, MARPA_ERROR g MARPA_ERR_EVENT_IX_OOB)
  else e ← rd (t_events g) ix; Ok (e.1, Some e, g).

Definition marpa_g_event_count (g : GRAMMAR) : res (Z * GRAMMAR) :=
  guarded [fatal_error] g (fun g => Ok (Z.of_nat (length (t_events g)), g)).

(** The error, and the text stored. *)
Definition marpa_g_error (g : GRAMMAR) : Z * option string := (t_error g, t_error_string g).

Definition marpa_g_error_clear (g : GRAMMAR) : Z * GRAMMAR := let g := (clear_error g).2 in (t_error g, g).

(** ** The grammar as a whole *)

Definition MAXIMUM_RANK : Z := INT_MAX ÷ 4.
Definition MINIMUM_RANK : Z := INT_MIN ÷ 4 + (if Z.rem INT_MIN 4 >? 0 then 1 else 0).

Definition rank_too_low (rank : Z) : g_check := fail_if (rank <? MINIMUM_RANK) failure_indicator MARPA_ERR_RANK_TOO_LOW.
Definition rank_too_high (rank : Z) : g_check := fail_if (rank >? MAXIMUM_RANK) failure_indicator MARPA_ERR_RANK_TOO_HIGH.

Definition marpa_g_start_symbol (g : GRAMMAR) : res (Z * GRAMMAR) := guarded [fatal_error] g (fun g => Ok (t_start_xsy_id g, g)).

Definition marpa_g_start_symbol_set (g : GRAMMAR) (xsy_id : Z) : res (Z * GRAMMAR) :=
  guarded [fatal_error; if_precomputed; xsy_malformed xsy_id; xsy_not_there (-1) xsy_id] g (fun g =>
    Ok (xsy_id, set_t_start_xsy_id xsy_id g)).

Definition marpa_g_default_rank (g : GRAMMAR) : res (Z * GRAMMAR) :=
  let g := (clear_error g).2 in guarded [fatal_error] g (fun g => Ok (Default_Rank_of_G g, g)).

Definition marpa_g_default_rank_set (g : GRAMMAR) (rank : Z) : res (Z * GRAMMAR) :=
  let g := (clear_error g).2 in
  guarded [fatal_error; if_precomputed; rank_too_low rank; rank_too_high rank] g (fun g =>
    Ok (rank, set_Default_Rank_of_G rank g)).

Definition b2z (b : bool) : Z := if b then 1 else 0.
(** The value of a one-bit field that an [int] is stored in. *)
Definition Boolean (value : Z) : bool := negb (value =? 0).

Definition marpa_g_is_precomputed (g : GRAMMAR) : res (Z * GRAMMAR) := guarded [fatal_error] g (fun g => Ok (b2z (G_is_Precomputed g), g)).
Definition marpa_g_has_cycle (g : GRAMMAR) : res (Z * GRAMMAR) := guarded [fatal_error] g (fun g => Ok (b2z (t_has_cycle g), g)).
End grammar.
