(* ===== verification/MarpaRules.v ===== *)
(** * The symbols of a grammar ([libmarpa-dist/marpa.c]): creation, properties, settings *)
From Stdlib Require Import String.
From S2P Require Import Prelude Avl AvlTraversal Dstack BitVector Cil MarpaGrammar.

Section symbols.
Context `{Library}.
Implicit Types g : GRAMMAR.

(** The id is the index the symbol gets on the stack. *)
Definition symbol_add g (symbol : Z -> XSY) : res (XSY * GRAMMAR) :=
  let new_id := XSY_Count_of_G g in
  let symbol := symbol new_id in
  xsy_stack ← dstack_push (t_xsy_stack g) symbol;
  Ok (symbol, set_t_xsy_stack xsy_stack g).

Definition symbol_new g : res (XSY * GRAMMAR) :=
  symbol_add g (fun id =>
    MkXSY id (Default_Rank_of_G g) false false false (t_force_valued g) (t_force_valued g)
      false false false false false false false false false false None).

Definition marpa_g_symbol_new g : res (Z * GRAMMAR) := r ← symbol_new g; let '(symbol, g) := r in Ok (ID_of_XSY symbol, g).

(** A property of a symbol that exists. *)
Definition symbol_is (f : XSY -> bool) (cs : list g_check) g (xsy_id : Z) : res (Z * GRAMMAR) :=
  guarded (cs ++ [xsy_malformed xsy_id; xsy_not_there (-1) xsy_id]) g (fun g =>
    xsy ← XSY_by_ID g xsy_id; Ok (b2z (f xsy), g)).

Definition marpa_g_symbol_is_start := symbol_is xsy_is_start [fatal_error].
Definition marpa_g_symbol_is_valued := symbol_is XSY_is_Valued [].
Definition marpa_g_symbol_is_accessible := symbol_is XSY_is_Accessible [fatal_error; if_not_precomputed].
Definition marpa_g_symbol_is_counted := symbol_is xsy_is_counted [fatal_error].
Definition marpa_g_symbol_is_nulling := symbol_is XSY_is_Nulling [fatal_error; if_not_precomputed].
Definition marpa_g_symbol_is_nullable := symbol_is XSY_is_Nullable [fatal_error; if_not_precomputed].
Definition marpa_g_symbol_is_terminal := symbol_is XSY_is_Terminal [fatal_error].
Definition marpa_g_symbol_is_productive := symbol_is XSY_is_Productive [fatal_error; if_not_precomputed].
Definition marpa_g_symbol_is_completion_event := symbol_is XSY_is_Completion_Event [fatal_error].
Definition marpa_g_symbol_is_nulled_event := symbol_is XSY_is_Nulled_Event [fatal_error].
Definition marpa_g_symbol_is_prediction_event := symbol_is XSY_is_Prediction_Event [fatal_error].

Definition marpa_g_symbol_rank g (xsy_id : Z) : res (Z * GRAMMAR) :=
  let g := (clear_error g).2 in
  guarded [fatal_error; xsy_malformed xsy_id; xsy_not_there failure_indicator xsy_id] g (fun g =>
    xsy ← XSY_by_ID g xsy_id; Ok (Rank_of_XSY xsy, g)).

Definition marpa_g_symbol_rank_set g (xsy_id rank : Z) : res (Z * GRAMMAR) :=
  let g := (clear_error g).2 in
  guarded [fatal_error; if_precomputed; xsy_malformed xsy_id; xsy_not_there failure_indicator xsy_id;
           rank_too_low rank; rank_too_high rank] g (fun g =>
    g ← upd_xsy g xsy_id (set_Rank_of_XSY rank); Ok (rank, g)).

(** The symbols before the first one that is locked are changed even when the call fails. *)
Fixpoint force_valued_loop (n : nat) (xsyid : Z) g : res (Z * GRAMMAR) :=
  match n with
  | O => Ok (0, set_t_force_valued true g)
  | S n =>
    xsy ← XSY_by_ID g xsyid;
    if negb (XSY_is_Valued xsy) && XSY_is_Valued_Locked xsy then Ok (failure_indicator, MARPA_ERROR g MARPA_ERR_VALUED_IS_LOCKED)
    else
      g ← upd_xsy g xsyid (fun x => set_XSY_is_Valued_Locked true (set_XSY_is_Valued true x));
      force_valued_loop n (xsyid + 1) g
  end.

Definition marpa_g_force_valued g : res (Z * GRAMMAR) := force_valued_loop (length (t_xsy_stack g)) 0 g.

Definition invalid_boolean (value : Z) : g_check := fail_if ((value <? 0) || (value >? 1)) failure_indicator MARPA_ERR_INVALID_BOOLEAN.

Definition marpa_g_symbol_is_valued_set g (xsy_id value : Z) : res (Z * GRAMMAR) :=
  guarded [xsy_malformed xsy_id; xsy_not_there (-1) xsy_id; invalid_boolean value] g (fun g =>
    symbol ← XSY_by_ID g xsy_id;
    guarded [fail_if (XSY_is_Valued_Locked symbol && negb (value =? b2z (XSY_is_Valued symbol))) failure_indicator MARPA_ERR_VALUED_IS_LOCKED] g (fun g =>
      g ← upd_xsy g xsy_id (set_XSY_is_Valued (Boolean value)); Ok (value, g))).

Definition marpa_g_symbol_is_terminal_set g (xsy_id value : Z) : res (Z * GRAMMAR) :=
  guarded [fatal_error; if_precomputed; xsy_malformed xsy_id; xsy_not_there (-1) xsy_id; invalid_boolean value] g (fun g =>
    symbol ← XSY_by_ID g xsy_id;
    guarded [fail_if (XSY_is_Locked_Terminal symbol && negb (b2z (XSY_is_Terminal symbol) =? value)) failure_indicator MARPA_ERR_TERMINAL_IS_LOCKED] g (fun g =>
      g ← upd_xsy g xsy_id (fun x => set_XSY_is_Terminal (Boolean value) (set_XSY_is_Locked_Terminal true x));
      Ok (b2z (Boolean value), g))).

(** [switch(value) { case 0: case 1: return field = Boolean(value); }] *)
Definition event_set (set : bool -> XSY -> XSY) g (xsy_id value : Z) : res (Z * GRAMMAR) :=
  guarded [fatal_error; if_precomputed; xsy_malformed xsy_id; xsy_not_there (-1) xsy_id] g (fun g =>
    if (value =? 0) || (value =? 1) then
      g ← upd_xsy g xsy_id (set (Boolean value)); Ok (b2z (Boolean value), g)
    else Ok (failure_indicator, MARPA_ERROR g MARPA_ERR_INVALID_BOOLEAN)).

Definition marpa_g_symbol_is_completion_event_set := event_set set_XSY_is_Completion_Event.
Definition marpa_g_symbol_is_nulled_event_set := event_set set_XSY_is_Nulled_Event.
Definition marpa_g_symbol_is_prediction_event_set := event_set set_XSY_is_Prediction_Event.
End symbols.

(** * The rules of a grammar ([libmarpa-dist/marpa.c]): creation, properties, settings *)

Section rules.
Context `{Library}.
Implicit Types g : GRAMMAR.

Definition MAX_RHS_LENGTH : Z := Z.shiftr INT_MAX 2.

(** The object under construction; no memory is allocated for its left-hand side when the
    length is negative. *)
Definition xrl_start g (lhs : Z) (rhs : list Z) (length : Z) : res (xrl_object * GRAMMAR) :=
  if length <? 0 then Fault
  else
    g ← upd_xsy g lhs (set_XSY_is_LHS true);
    t_symbols ← for_res (Z.to_nat length) 0 (fun i t_symbols => x ← rd rhs i; wr t_symbols (i + 1) x) (lhs :: replicate (Z.to_nat length) 0);
    Ok (MkXRLObject (XRL_Count_of_G g) length t_symbols, g).

(** The id is the index the rule gets on the stack. *)
Definition rule_add g (rule : Z -> XRL) : res (XRL * GRAMMAR) :=
  let new_id := XRL_Count_of_G g in
  let rule := rule new_id in
  xrl_stack ← dstack_push (t_xrl_stack g) rule;
  let g := set_t_xrl_stack xrl_stack g in
  let g := set_External_Size_of_G (to_int (External_Size_of_G g + (1 + Length_of_XRL rule))) g in
  Ok (rule, set_t_max_rule_length (Z.max (Length_of_XRL rule) (t_max_rule_length g)) g).

Definition xrl_finish g (rule : xrl_object) : res (XRL * GRAMMAR) :=
  rule_add g (fun id =>
    MkXRL id (xo_length rule) (xo_symbols rule) (Default_Rank_of_G g) false false false (-1) (-1)
      false false false false false true true false).

Definition rule_new g (lhs : Z) (rhs : list Z) (length : Z) : res (XRL * GRAMMAR) :=
  r ← xrl_start g lhs rhs length;
  xrl_finish r.2 r.1.

(** [_marpa_avl_insert(g->t_xrl_tree, rule)] *)
Definition xrl_tree_insert g (rule : xrl_object) : res (option xrl_object * GRAMMAR) :=
  match t_xrl_tree g with
  | None => Fault
  | Some tree => r ← avl_insert duplicate_rule_cmp tree_rounds tree rule; Ok (r.1, set_t_xrl_tree (Some r.2) g)
  end.

(** Whether the symbols of the right-hand side are valid: the loop returns at the first that
    is not. *)
Fixpoint rhs_valid (n : nat) (rh_index : Z) g (rhs_ids : list Z) : res bool :=
  match n with
  | O => Ok true
  | S n => rhs_id ← rd rhs_ids rh_index; if negb (xsy_id_is_valid g rhs_id) then Ok false else rhs_valid n (rh_index + 1) g rhs_ids
  end.

Definition invalid_symbol (xsy_id : Z) : g_check := fun g => fail_if (negb (xsy_id_is_valid g xsy_id)) failure_indicator MARPA_ERR_INVALID_SYMBOL_ID g.

Definition marpa_g_rule_new g (lhs_id : Z) (rhs_ids : list Z) (length : Z) : res (Z * GRAMMAR) :=
  guarded [fatal_error; if_precomputed; fail_if (length >? MAX_RHS_LENGTH) failure_indicator MARPA_ERR_RHS_TOO_LONG;
           invalid_symbol lhs_id] g (fun g =>
    valid ← rhs_valid (Z.to_nat length) 0 g rhs_ids;
    if negb valid then Ok (failure_indicator, MARPA_ERROR g MARPA_ERR_INVALID_SYMBOL_ID)
    else
      lhs ← XSY_by_ID g lhs_id;
      if XSY_is_Sequence_LHS lhs then Ok (failure_indicator, MARPA_ERROR g MARPA_ERR_SEQUENCE_LHS_NOT_UNIQUE)
      else
        r ← xrl_start g lhs_id rhs_ids length;
        let '(rule, g) := r in
        r ← xrl_tree_insert g rule;
        let '(found, g) := r in
        match found with
        | Some _ => Ok (failure_indicator, MARPA_ERROR g MARPA_ERR_DUPLICATE_RULE)
        | None =>
          r ← xrl_finish g rule;
          let '(rule, g) := r in
          g ← upd_xrl g (ID_of_XRL rule) (set_XRL_is_BNF true);
          Ok (ID_of_XRL rule, g)
        end).

Definition marpa_g_sequence_new g (lhs_id rhs_id separator_id min flags : Z) : res (Z * GRAMMAR) :=
  guarded [fatal_error; if_precomputed;
           (fun g => fail_if (negb (separator_id =? -1) && negb (xsy_id_is_valid g separator_id)) failure_indicator MARPA_ERR_BAD_SEPARATOR g);
           invalid_symbol lhs_id] g (fun g =>
    lhs ← XSY_by_ID g lhs_id;
    if XSY_is_LHS lhs then Ok (failure_indicator, MARPA_ERROR g MARPA_ERR_SEQUENCE_LHS_NOT_UNIQUE)
    else guarded [invalid_symbol rhs_id] g (fun g =>
      r ← rule_new g lhs_id [rhs_id] 1;
      let '(original_rule, g) := r in
      g ← upd_xrl g (ID_of_XRL original_rule) (fun rule =>
            let rule := if separator_id >=? 0 then set_Separator_of_XRL separator_id rule else rule in
            let rule := set_XRL_is_Sequence true (set_Minimum_of_XRL min rule) in
            let rule := set_xrl_is_discard ((Z.land flags MARPA_KEEP_SEPARATION =? 0) && (separator_id >=? 0)) rule in
            if negb (Z.land flags MARPA_PROPER_SEPARATION =? 0) then set_XRL_is_Proper_Separation true rule else rule);
      g ← upd_xsy g lhs_id (set_XSY_is_Sequence_LHS true);
      g ← upd_xsy g rhs_id (set_xsy_is_counted true);
      g ← (if separator_id >=? 0 then upd_xsy g separator_id (set_xsy_is_counted true) else Ok g);
      Ok (ID_of_XRL original_rule, g))).

(** A property of a rule that exists. *)
Definition rule_get (f : XRL -> res Z) (cs : list g_check) (ret : Z) (cs2 : list g_check) g (xrl_id : Z) : res (Z * GRAMMAR) :=
  guarded (cs ++ [xrl_malformed xrl_id; xrl_not_there ret xrl_id] ++ cs2) g (fun g =>
    xrl ← XRL_by_ID g xrl_id; z ← f xrl; Ok (z, g)).
Definition rule_is (f : XRL -> bool) (cs : list g_check) (cs2 : list g_check) :=
  rule_get (fun xrl => Ok (b2z (f xrl))) cs (-1) cs2.

Definition marpa_g_rule_lhs := rule_get LHS_ID_of_XRL [fatal_error] (-1) [].

Definition marpa_g_rule_rhs g (xrl_id ix : Z) : res (Z * GRAMMAR) :=
  guarded [fatal_error; xrl_malformed xrl_id; xrl_not_there (-1) xrl_id] g (fun g =>
    rule ← XRL_by_ID g xrl_id;
    guarded [fail_if (ix <? 0) failure_indicator MARPA_ERR_RHS_IX_NEGATIVE;
             fail_if (Length_of_XRL rule <=? ix) failure_indicator MARPA_ERR_RHS_IX_OOB] g (fun g =>
      x ← RHS_ID_of_XRL rule ix; Ok (x, g))).

Definition marpa_g_rule_length := rule_get (fun xrl => Ok (Length_of_XRL xrl)) [fatal_error] (-1) [].

Definition marpa_g_rule_rank g (xrl_id : Z) : res (Z * GRAMMAR) :=
  rule_get (fun xrl => Ok (Rank_of_XRL xrl)) [fatal_error] failure_indicator [] (clear_error g).2 xrl_id.

Definition marpa_g_rule_rank_set g (xrl_id rank : Z) : res (Z * GRAMMAR) :=
  let g := (clear_error g).2 in
  guarded [fatal_error; if_precomputed; xrl_malformed xrl_id; xrl_not_there failure_indicator xrl_id;
           rank_too_low rank; rank_too_high rank] g (fun g =>
    g ← upd_xrl g xrl_id (set_Rank_of_XRL rank); Ok (rank, g)).

Definition marpa_g_rule_null_high := rule_is Null_Ranks_High_of_RULE [fatal_error] [].

Definition marpa_g_rule_null_high_set g (xrl_id flag : Z) : res (Z * GRAMMAR) :=
  guarded [fatal_error; if_precomputed; xrl_malformed xrl_id; xrl_not_there (-1) xrl_id; invalid_boolean flag] g (fun g =>
    g ← upd_xrl g xrl_id (set_Null_Ranks_High_of_RULE (Boolean flag)); Ok (b2z (Boolean flag), g)).

Definition marpa_g_sequence_min :=
  rule_get (fun xrl => if negb (XRL_is_Sequence xrl) then Ok (-1) else Ok (Minimum_of_XRL xrl)) [fatal_error] failure_indicator [].
Definition marpa_g_sequence_separator :=
  rule_get (fun xrl => if negb (XRL_is_Sequence xrl) then Ok (-1) else Ok (Separator_of_XRL xrl)) [fatal_error] failure_indicator [].

Definition marpa_g_rule_is_keep_separation := rule_is (fun xrl => negb (xrl_is_discard xrl)) [fatal_error] [].
(** The result is the negation of the field. *)
Definition marpa_g_rule_is_proper_separation := rule_is (fun xrl => negb (XRL_is_Proper_Separation xrl)) [fatal_error] [].
Definition marpa_g_rule_is_loop := rule_is xrl_is_loop [fatal_error] [if_not_precomputed].
Definition marpa_g_rule_is_nulling := rule_is XRL_is_Nulling [fatal_error] [].
Definition marpa_g_rule_is_nullable := rule_is XRL_is_Nullable [fatal_error] [].
Definition marpa_g_rule_is_accessible := rule_is XRL_is_Accessible [fatal_error] [].
Definition marpa_g_rule_is_productive := rule_is XRL_is_Productive [fatal_error] [].
Definition marpa_g_rule_is_used := rule_is XRL_is_Used [] [].

(** ** Zero-width assertions *)

Definition marpa_g_zwa_new g (default_value : Z) : res (Z * GRAMMAR) :=
  guarded [fatal_error; if_precomputed; invalid_boolean default_value] g (fun g =>
    let zwa_id := ZWA_Count_of_G g in
    gzwa_stack ← dstack_push (t_gzwa_stack g) (b2z (Boolean default_value));
    Ok (zwa_id, set_t_gzwa_stack gzwa_stack g)).

Definition marpa_g_highest_zwa_id g : res (Z * GRAMMAR) := guarded [fatal_error] g (fun g => Ok (ZWA_Count_of_G g - 1, g)).

(** The address of the object is the first argument: an obstack never gives one twice. *)
Definition marpa_g_zwa_place (addr : Z) g (zwaid xrl_id rhs_ix : Z) : res (Z * GRAMMAR) :=
  guarded [fatal_error; if_precomputed; xrl_malformed xrl_id; xrl_not_there (-1) xrl_id;
           fail_if (zwaid <? 0) failure_indicator MARPA_ERR_INVALID_ASSERTION_ID;
           (fun g => fail_if (negb (zwaid <? ZWA_Count_of_G g)) failure_indicator MARPA_ERR_NO_SUCH_ASSERTION_ID g)] g (fun g =>
    xrl ← XRL_by_ID g xrl_id;
    let xrl_length := Length_of_XRL xrl in
    guarded [fail_if (rhs_ix <? -1) failure_indicator MARPA_ERR_RHS_IX_NEGATIVE;
             fail_if (xrl_length <=? rhs_ix) failure_indicator MARPA_ERR_RHS_IX_OOB] g (fun g =>
      let rhs_ix := if rhs_ix =? -1 then (if XRL_is_Sequence xrl then 1 else xrl_length) else rhs_ix in
      match t_zwp_tree g with
      | None => Fault
      | Some tree =>
        r ← avl_insert zwp_cmp tree_rounds tree (MkZWP addr xrl_id rhs_ix zwaid);
        Ok (match r.1 with Some _ => -1 | None => 0 end, set_t_zwp_tree (Some r.2) g)
      end)).
End rules.
