(* ===== verification/MarpaGrammarTheorems.v ===== *)
(** * Theorems about the construction of grammars

    The invariant of a grammar under construction, whatever calls built it, and what the
    creation of rules does in every case. *)
From Stdlib Require Import String.
From stdpp Require Import sorting.
From S2P Require Import Prelude Avl AvlTree AvlProbe AvlTheorems AvlTraversal Dstack BitVector BitVectorTheorems BitScan Cil CilTheorems MarpaGrammar MarpaRules.

(** ** The orders of the trees *)

Definition rule_key (r : xrl_object) : list Z :=
  - xo_symbol r 0 :: - xo_length r :: vals (fun ix => - xo_symbol r (ix + 1)) (Z.to_nat (xo_length r)) 0.

Lemma rhs_cmp_loop_lex n ix r1 r2 :
  (rhs_cmp_loop n ix r1 r2 < 0 <-> lex_lt (vals (fun ix => - xo_symbol r1 (ix + 1)) n ix) (vals (fun ix => - xo_symbol r2 (ix + 1)) n ix) = true)
  /\ (rhs_cmp_loop n ix r1 r2 > 0 <-> lex_lt (vals (fun ix => - xo_symbol r2 (ix + 1)) n ix) (vals (fun ix => - xo_symbol r1 (ix + 1)) n ix) = true).
Proof.
  revert ix. induction n as [|n IH]; intros ix; simpl; [split; split; (lia || done)|].
  destruct (IH (ix + 1)) as [IHn IHp]. set (x := xo_symbol r1 (ix + 1)). set (y := xo_symbol r2 (ix + 1)).
  destruct (Z.eqb_spec (y - x) 0) as [E|Hne].
  - replace y with x by lia. rewrite Z.ltb_irrefl, Z.eqb_refl. simpl. done.
  - destruct (Z.eqb_spec (- x) (- y)), (Z.eqb_spec (- y) (- x)); try lia. rewrite !andb_false_l, !orb_false_r. simpl. rewrite !Z.ltb_lt. lia.
Qed.

#[export] Instance duplicate_rule_lex : LexCmp duplicate_rule_cmp rule_key.
Proof.
  assert (forall x y, (duplicate_rule_cmp x y < 0 <-> lex_lt (rule_key x) (rule_key y) = true)
    /\ (duplicate_rule_cmp x y > 0 <-> lex_lt (rule_key y) (rule_key x) = true)) as H; [|split; apply H].
  intros x y. unfold duplicate_rule_cmp, rule_key. destruct (Z.eqb_spec (xo_symbol y 0 - xo_symbol x 0) 0) as [E|Hne]; simpl.
  - replace (xo_symbol y 0) with (xo_symbol x 0) by lia. rewrite Z.ltb_irrefl, Z.eqb_refl. simpl.
    destruct (Z.eqb_spec (xo_length y - xo_length x) 0) as [El|Hne]; simpl.
    + replace (xo_length y) with (xo_length x) by lia. rewrite Z.ltb_irrefl, Z.eqb_refl. simpl. apply rhs_cmp_loop_lex.
    + destruct (Z.eqb_spec (- xo_length x) (- xo_length y)), (Z.eqb_spec (- xo_length y) (- xo_length x)); lia.
  - destruct (Z.eqb_spec (- xo_symbol x 0) (- xo_symbol y 0)), (Z.eqb_spec (- xo_symbol y 0) (- xo_symbol x 0)); lia.
Qed.
#[export] Instance duplicate_rule_order : AvlOrder duplicate_rule_cmp := lex_order duplicate_rule_cmp rule_key.

Definition zwp_key (z : ZWP) : list Z := [XRLID_of_ZWP z; Dot_of_ZWP z; ZWAID_of_ZWP z].

#[export] Instance zwp_lex : LexCmp zwp_cmp zwp_key.
Proof.
  split; intros [a x y z] [a' x' y' z']; unfold zwp_cmp, zwp_key; simpl;
    destruct (Z.eqb_spec (x - x') 0), (Z.eqb_spec (y - y') 0); simpl;
    rewrite !orb_true_iff, !andb_true_iff, !Z.ltb_lt, !Z.eqb_eq; intuition lia.
Qed.
#[export] Instance zwp_order : AvlOrder zwp_cmp := lex_order zwp_cmp zwp_key.

(** The object of a rule with the symbols [l]. *)
Lemma rule_key_symbols a a' lhs rhs lhs' rhs' :
  rule_key (MkXRLObject a (Z.of_nat (length rhs)) (lhs :: rhs)) = rule_key (MkXRLObject a' (Z.of_nat (length rhs')) (lhs' :: rhs')) ->
  lhs :: rhs = lhs' :: rhs'.
Proof.
  assert (forall a lhs rhs, rule_key (MkXRLObject a (Z.of_nat (length rhs)) (lhs :: rhs)) = - lhs :: - Z.of_nat (length rhs) :: (Z.opp <$> rhs)) as Hk.
  { intros b s l. unfold rule_key, xo_symbol. simpl. do 2 f_equal. rewrite Nat2Z.id, <- (length_fmap Z.opp l). apply vals_list.
    intros k x Hx. apply list_lookup_fmap_Some in Hx as (y&->&Hy).
    replace (Z.to_nat (0 + Z.of_nat k + 1)) with (S k) by lia. simpl. by rewrite Hy. }
  rewrite !Hk. intros [= H1 H2 H3]. f_equal; [lia|].
  assert (Inj (=) (=) Z.opp) by (intros x y; lia). by apply (inj (fmap Z.opp)) in H3.
Qed.

(** ** The invariant

    What the calls of the construction depend on: of a symbol its id, whether it is a
    left-hand side, that of a sequence, an item or separator of a sequence, and of a rule
    what it was created with. *)
Record symbol_core : Type := SC { sc_id : Z; sc_start : bool; sc_lhs : bool; sc_seq : bool; sc_counted : bool }.
Record rule_core : Type := RC { rc_id : Z; rc_length : Z; rc_symbols : list Z; rc_bnf : bool; rc_seq : bool; rc_sep : Z }.

Definition xsy_core (s : XSY) : symbol_core :=
  SC (ID_of_XSY s) (xsy_is_start s) (XSY_is_LHS s) (XSY_is_Sequence_LHS s) (xsy_is_counted s).
Definition xrl_core (r : XRL) : rule_core :=
  RC (ID_of_XRL r) (Length_of_XRL r) (xrl_symbols r) (XRL_is_BNF r) (XRL_is_Sequence r) (Separator_of_XRL r).
Definition rule_object (r : rule_core) : xrl_object := MkXRLObject (rc_id r) (rc_length r) (rc_symbols r).

Definition symbols_of (g : GRAMMAR) : list symbol_core := xsy_core <$> t_xsy_stack g.
Definition rules_of (g : GRAMMAR) : list rule_core := xrl_core <$> t_xrl_stack g.

Definition rc_lhs (r : rule_core) : Z := default 0 (head (rc_symbols r)).
Definition rc_rhs (r : rule_core) : list Z := tail (rc_symbols r).

(** [s] is an item or the separator of a sequence rule. *)
Definition counts (s : Z) (r : rule_core) : Prop := rc_seq r = true /\ (s ∈ rc_rhs r \/ (s = rc_sep r /\ 0 <= s)).

Definition valid_id (n : nat) (s : Z) : Prop := 0 <= s < Z.of_nat n.

(** A rule of a grammar of [n] symbols. *)
Record rule_wf (n : nat) (r : rule_core) : Prop := {
  rw_symbols : rc_symbols r = rc_lhs r :: rc_rhs r;
  rw_length : rc_length r = Z.of_nat (length (rc_rhs r));
  rw_valid s : s ∈ rc_symbols r -> valid_id n s;
  rw_kind : rc_bnf r = negb (rc_seq r);
  rw_sep : rc_sep r = -1 \/ (valid_id n (rc_sep r) /\ rc_seq r = true);
  rw_seq : rc_seq r = true -> length (rc_rhs r) = 1%nat
}.

Definition total_size (rs : list rule_core) : Z := foldr (fun r n => 1 + rc_length r + n) 0 rs.

Record wf_core (ss : list symbol_core) (rs : list rule_core) : Prop := {
  wf_symbol_id i s : ss !! i = Some s -> sc_id s = Z.of_nat i /\ sc_start s = false;
  wf_rule_id i r : rs !! i = Some r -> rc_id r = Z.of_nat i;
  wf_rule r : r ∈ rs -> rule_wf (length ss) r;
  wf_lhs i s : ss !! i = Some s -> sc_lhs s = true <-> exists r, r ∈ rs /\ rc_lhs r = Z.of_nat i;
  wf_seq i s : ss !! i = Some s -> sc_seq s = true <-> exists r, r ∈ rs /\ rc_lhs r = Z.of_nat i /\ rc_seq r = true;
  wf_counted i s : ss !! i = Some s -> sc_counted s = true <-> exists r, r ∈ rs /\ counts (Z.of_nat i) r;
  wf_seq_unique r r' : r ∈ rs -> r' ∈ rs -> rc_lhs r = rc_lhs r' -> rc_seq r = true -> r = r';
  wf_distinct r r' : r ∈ rs -> r' ∈ rs -> rc_symbols r = rc_symbols r' -> r = r'
}.

(** The invariant of a grammar: its symbols and rules, the tree of its BNF rules while there
    is one, its size. *)
Record g_wf (g : GRAMMAR) : Prop := {
  gw_core : wf_core (symbols_of g) (rules_of g);
  gw_tree : match t_xrl_tree g with
            | Some tree => exists items, represents duplicate_rule_cmp tree items
                /\ forall x, x ∈ items <-> exists r, r ∈ rules_of g /\ rc_bnf r = true /\ x = rule_object r
            | None => True
            end;
  gw_size : External_Size_of_G g = to_int (total_size (rules_of g))
}.

(** A call that changes none of these. *)
Definition core_of (g : GRAMMAR) := (symbols_of g, rules_of g, t_xrl_tree g, External_Size_of_G g).

Lemma g_wf_core g g' : core_of g' = core_of g -> g_wf g -> g_wf g'.
Proof. intros [= Hs Hr Ht He] [Hc Htr Hz]. split; rewrite ?Hs, ?Hr, ?Ht, ?He; done. Qed.

Lemma new_wf : wf_core [] [].
Proof. split; set_solver. Qed.

Lemma total_size_app rs r : total_size (rs ++ [r]) = total_size rs + (1 + rc_length r).
Proof. induction rs as [|r' rs IH]; simpl; [lia|]. rewrite IH. lia. Qed.

Lemma rule_wf_mono n n' r : (n <= n')%nat -> rule_wf n r -> rule_wf n' r.
Proof.
  intros Hn [H1 H2 H3 H4 H5 H6]. assert (forall s, valid_id n s -> valid_id n' s) as Hv by (unfold valid_id; lia).
  split; auto. destruct H5 as [?|[]]; auto.
Qed.

Lemma rule_lhs_valid n r : rule_wf n r -> valid_id n (rc_lhs r).
Proof. intros Hr. apply (rw_valid _ _ Hr). rewrite (rw_symbols _ _ Hr). left. Qed.

Lemma rule_counts_valid n r s : rule_wf n r -> counts s r -> valid_id n s.
Proof.
  intros Hr (_&[Hs|[-> Hs]]).
  - apply (rw_valid _ _ Hr). rewrite (rw_symbols _ _ Hr). by right.
  - destruct (rw_sep _ _ Hr) as [?|[]]; [lia|done].
Qed.

Lemma wf_add_symbol ss rs : wf_core ss rs -> wf_core (ss ++ [SC (Z.of_nat (length ss)) false false false false]) rs.
Proof.
  intros [H1 H2 H3 H4 H5 H6 H7 H8].
  assert (forall i s, (ss ++ [SC (Z.of_nat (length ss)) false false false false]) !! i = Some s ->
    ss !! i = Some s \/ (i = length ss /\ s = SC (Z.of_nat (length ss)) false false false false)) as Hl.
  { intros i s. rewrite lookup_app_Some. intros [?|[Hi Hs]]; [by left|right]. apply list_lookup_singleton_Some in Hs as [? ->].
    split; [lia|done]. }
  assert (forall r, r ∈ rs -> rc_lhs r <> Z.of_nat (length ss)) as Hlhs.
  { intros r Hr He. pose proof (rule_lhs_valid _ _ (H3 r Hr)) as Hv. rewrite He in Hv. unfold valid_id in Hv. lia. }
  split; try done.
  - intros i s [?|[-> ->]]%Hl; [by apply H1|done].
  - intros r Hr. eapply rule_wf_mono; [|by apply H3]. rewrite length_app. simpl. lia.
  - intros i s [?|[-> ->]]%Hl; [by apply H4|]. simpl. split; [done|]. intros (r&Hr&He). by apply Hlhs in He.
  - intros i s [?|[-> ->]]%Hl; [by apply H5|]. simpl. split; [done|]. intros (r&Hr&He&_). by apply Hlhs in He.
  - intros i s [?|[-> ->]]%Hl; [by apply H6|]. simpl. split; [done|]. intros (r&Hr&Hc).
    apply (rule_counts_valid _ _ _ (H3 r Hr)) in Hc. unfold valid_id in Hc. lia.
Qed.

(** The symbols after a rule has been added. *)
Definition symbols_added (ss : list symbol_core) (r : rule_core) (ss' : list symbol_core) : Prop :=
  length ss' = length ss /\
  forall i s', ss' !! i = Some s' -> exists s, ss !! i = Some s /\ sc_id s' = sc_id s /\ sc_start s' = sc_start s
    /\ (sc_lhs s' = true <-> sc_lhs s = true \/ rc_lhs r = Z.of_nat i)
    /\ (sc_seq s' = true <-> sc_seq s = true \/ (rc_lhs r = Z.of_nat i /\ rc_seq r = true))
    /\ (sc_counted s' = true <-> sc_counted s = true \/ counts (Z.of_nat i) r).

Lemma wf_add_rule ss rs r ss' :
  wf_core ss rs -> rule_wf (length ss) r -> rc_id r = Z.of_nat (length rs) ->
  (forall r', r' ∈ rs -> rc_symbols r' <> rc_symbols r) ->
  (forall r', r' ∈ rs -> rc_lhs r' = rc_lhs r -> rc_seq r' = false /\ rc_seq r = false) ->
  symbols_added ss r ss' -> wf_core ss' (rs ++ [r]).
Proof.
  intros [H1 H2 H3 H4 H5 H6 H7 H8] Hr Hid Hdis Hseq [Hlen Hss].
  assert (forall r', r' ∈ rs ++ [r] <-> r' ∈ rs \/ r' = r) as Hin by (intros r'; rewrite elem_of_app, list_elem_of_singleton; done).
  split.
  - intros i s' Hs'. destruct (Hss i s' Hs') as (s&Hs&->&->&_). by apply H1.
  - intros i r' [?|[Hi Hr']]%lookup_app_Some; [by apply H2|]. apply list_lookup_singleton_Some in Hr' as [? <-]. rewrite Hid. lia.
  - intros r' [?| ->]%Hin; rewrite Hlen; [by apply H3|done].
  - intros i s' Hs'. destruct (Hss i s' Hs') as (s&Hs&_&_&E&_). rewrite E, (H4 i s Hs). setoid_rewrite Hin. naive_solver.
  - intros i s' Hs'. destruct (Hss i s' Hs') as (s&Hs&_&_&_&E&_). rewrite E, (H5 i s Hs). setoid_rewrite Hin. naive_solver.
  - intros i s' Hs'. destruct (Hss i s' Hs') as (s&Hs&_&_&_&_&E). rewrite E, (H6 i s Hs). setoid_rewrite Hin. naive_solver.
  - intros r1 r2 [Hr1| ->]%Hin [Hr2| ->]%Hin Hl Hs; [by apply H7| | |done].
    + destruct (Hseq r1 Hr1 Hl). congruence.
    + destruct (Hseq r2 Hr2 (eq_sym Hl)). congruence.
  - intros r1 r2 [Hr1| ->]%Hin [Hr2| ->]%Hin Hl; [by apply H8| | |done].
    + by apply Hdis in Hr1.
    + symmetry in Hl. by apply Hdis in Hr2.
Qed.

(** ** The calls *)

Section calls.
Context `{!Library}.
Implicit Types g : GRAMMAR.

Lemma symbols_length g : length (symbols_of g) = length (t_xsy_stack g).
Proof. apply length_fmap. Qed.
Lemma rules_length g : length (rules_of g) = length (t_xrl_stack g).
Proof. apply length_fmap. Qed.

Lemma valid_symbol g s : xsy_id_is_valid g s = true <-> valid_id (length (symbols_of g)) s.
Proof.
  unfold xsy_id_is_valid, XSYID_is_Malformed, XSYID_of_G_Exists, XSY_Count_of_G, valid_id. rewrite symbols_length.
  destruct (Z.ltb_spec s 0), (Z.ltb_spec s (Z.of_nat (length (t_xsy_stack g)))); simpl; intuition (lia || done).
Qed.

Lemma XSY_by_ID_ok g s : valid_id (length (symbols_of g)) s -> exists x, XSY_by_ID g s = Ok x /\ t_xsy_stack g !! Z.to_nat s = Some x.
Proof.
  rewrite symbols_length. intros Hs. unfold valid_id in Hs. unfold XSY_by_ID. destruct (rd_total (t_xsy_stack g) s) as [x Hx]; [lia|].
  exists x. split; [done|]. by apply rd_Ok in Hx as [_ ?].
Qed.

Lemma XRL_by_ID_ok g i : 0 <= i < XRL_Count_of_G g -> exists x, XRL_by_ID g i = Ok x /\ t_xrl_stack g !! Z.to_nat i = Some x.
Proof.
  unfold XRL_Count_of_G. intros Hi. unfold XRL_by_ID. destruct (rd_total (t_xrl_stack g) i) as [x Hx]; [lia|].
  exists x. split; [done|]. by apply rd_Ok in Hx as [_ ?].
Qed.

Lemma alter_insert {A} (l : list A) (i : nat) f x : l !! i = Some x -> <[i := f x]> l = alter f i l.
Proof. revert i. induction l as [|y l IH]; intros [|i] Hx; simpl in *; [done|done|by injection Hx as ->|]. f_equal. by apply IH. Qed.

Lemma upd_xsy_ok g s f : valid_id (length (symbols_of g)) s -> upd_xsy g s f = Ok (set_t_xsy_stack (alter f (Z.to_nat s) (t_xsy_stack g)) g).
Proof.
  intros Hs. destruct (XSY_by_ID_ok g s Hs) as (x&Hx&Hl). unfold upd_xsy. rewrite Hx. cbn [mbind res_bind].
  unfold valid_id in Hs. rewrite symbols_length in Hs. rewrite wr_total by lia. cbn [mbind res_bind]. by rewrite (alter_insert _ _ _ _ Hl).
Qed.

Lemma upd_xrl_ok g i f : 0 <= i < XRL_Count_of_G g -> upd_xrl g i f = Ok (set_t_xrl_stack (alter f (Z.to_nat i) (t_xrl_stack g)) g).
Proof.
  intros Hi. destruct (XRL_by_ID_ok g i Hi) as (x&Hx&Hl). unfold upd_xrl. rewrite Hx. cbn [mbind res_bind]. unfold XRL_Count_of_G in Hi.
  rewrite wr_total by lia. cbn [mbind res_bind]. by rewrite (alter_insert _ _ _ _ Hl).
Qed.

Lemma fmap_alter {A B} (c : A -> B) f (i : nat) (l : list A) : (forall x, c (f x) = c x) -> c <$> alter f i l = c <$> l.
Proof.
  intros Hf. revert i. induction l as [|x l IH]; intros [|i]; [done..|simpl; by rewrite Hf|]. change (c x :: (c <$> alter f i l) = c x :: (c <$> l)).
  by rewrite IH.
Qed.

(** Settings of a symbol or of a rule that are not part of the core. *)
Lemma upd_xsy_core g s f : valid_id (length (symbols_of g)) s -> (forall x, xsy_core (f x) = xsy_core x) ->
  exists g', upd_xsy g s f = Ok g' /\ core_of g' = core_of g.
Proof. intros Hs Hf. rewrite upd_xsy_ok by done. eexists. split; [done|]. unfold core_of, symbols_of. simpl. by rewrite fmap_alter. Qed.

Lemma upd_xrl_core g i f : 0 <= i < XRL_Count_of_G g -> (forall x, xrl_core (f x) = xrl_core x) ->
  exists g', upd_xrl g i f = Ok g' /\ core_of g' = core_of g.
Proof. intros Hs Hf. rewrite upd_xrl_ok by done. eexists. split; [done|]. unfold core_of, rules_of. simpl. by rewrite fmap_alter. Qed.

Lemma copy_rhs_ok lhs rhs :
  for_res (length rhs) 0 (fun i t_symbols => x ← rd rhs i; wr t_symbols (i + 1) x) (lhs :: replicate (length rhs) 0) = Ok (lhs :: rhs).
Proof.
  destruct (for_res_ok (fun i l => l = lhs :: take (Z.to_nat i) rhs ++ replicate (length rhs - Z.to_nat i) 0) (length rhs) 0
    (fun i t_symbols => x ← rd rhs i; wr t_symbols (i + 1) x) (lhs :: replicate (length rhs) 0)) as (l&->&->).
  - simpl. by rewrite Nat.sub_0_r.
  - intros j l Hj ->. destruct (rd_total rhs j) as [x Hx]; [lia|]. rewrite Hx. cbn [mbind res_bind].
    rewrite wr_total by (simpl; rewrite length_app, length_take, length_replicate; lia). eexists. split; [done|].
    apply rd_Ok in Hx as [_ Hx]. replace (Z.to_nat (j + 1)) with (S (Z.to_nat j)) by lia. simpl.
    rewrite (take_S_r _ _ _ Hx), <- app_assoc. rewrite insert_app_r_alt by (rewrite length_take; lia).
    rewrite length_take. replace (Z.to_nat j - Z.to_nat j `min` length rhs)%nat with 0%nat by lia.
    replace (length rhs - Z.to_nat j)%nat with (S (length rhs - S (Z.to_nat j))) by lia. done.
  - rewrite Z.add_0_l, Nat2Z.id, Nat.sub_diag, take_ge by lia. by rewrite app_nil_r.
Qed.

Lemma xrl_start_ok g lhs rhs :
  valid_id (length (symbols_of g)) lhs ->
  xrl_start g lhs rhs (Z.of_nat (length rhs))
  = Ok (MkXRLObject (XRL_Count_of_G g) (Z.of_nat (length rhs)) (lhs :: rhs),
        set_t_xsy_stack (alter (set_XSY_is_LHS true) (Z.to_nat lhs) (t_xsy_stack g)) g).
Proof.
  intros Hl. unfold xrl_start. destruct (Z.ltb_spec (Z.of_nat (length rhs)) 0); [lia|]. rewrite upd_xsy_ok by done. cbn [mbind res_bind].
  rewrite Nat2Z.id, copy_rhs_ok. done.
Qed.

Lemma rhs_valid_from g rhs n ix : (ix + n = length rhs)%nat -> rhs_valid n (Z.of_nat ix) g rhs = Ok (forallb (xsy_id_is_valid g) (drop ix rhs)).
Proof.
  revert ix. induction n as [|n IH]; intros ix Hn; simpl; [by rewrite drop_ge by lia|].
  destruct (lookup_lt_is_Some_2 rhs ix) as [x Hx]; [lia|]. rewrite (drop_S _ _ _ Hx). simpl.
  assert (rd rhs (Z.of_nat ix) = Ok x) as -> by (apply rd_Ok; split; [lia|by rewrite Nat2Z.id]). cbn [mbind res_bind].
  destruct (xsy_id_is_valid g x); simpl; [|done]. replace (Z.of_nat ix + 1) with (Z.of_nat (S ix)) by lia. apply IH. lia.
Qed.

Lemma rhs_valid_ok g rhs : rhs_valid (length rhs) 0 g rhs = Ok (forallb (xsy_id_is_valid g) rhs).
Proof. apply (rhs_valid_from g rhs (length rhs) 0). lia. Qed.

(** A grammar that can be added to. *)
Record g_open (g : GRAMMAR) : Prop := {
  go_ok : IS_G_OK g = true;
  go_pre : G_is_Precomputed g = false;
  go_tree : is_Some (t_xrl_tree g);
  go_assertions : exists tree zwps, t_zwp_tree g = Some tree /\ represents zwp_cmp tree zwps /\ Forall (fun z => 0 <= ZWAID_of_ZWP z < ZWA_Count_of_G g) zwps
}.

Lemma open_none g : g_open g -> if_precomputed g = None.
Proof. intros [_ Hp _ _]. unfold if_precomputed. by rewrite Hp. Qed.

Context (Hversion : lib_version = marpa_h_version).

Lemma no_mismatch : HEADER_VERSION_MISMATCH = false.
Proof. unfold HEADER_VERSION_MISMATCH. by rewrite bool_decide_eq_true_2. Qed.

Lemma fatal_none g : IS_G_OK g = true -> fatal_error g = None.
Proof. intros Hok. unfold fatal_error. by rewrite no_mismatch, Hok. Qed.

Lemma MARPA_ERROR_core g code : core_of (MARPA_ERROR g code) = core_of g.
Proof. done. Qed.
End calls.
