(* ===== verification/MarpaRuleTheorems.v ===== *)
(** * What the creation of a rule does

    [marpa_g_rule_new] and [marpa_g_sequence_new] against what a rule may be, and every
    grammar that calls can build. *)
From Stdlib Require Import String.
From stdpp Require Import sorting.
From S2P Require Import Prelude Avl AvlTree AvlProbe AvlTheorems AvlTraversal Dstack BitVector BitVectorTheorems BitScan Cil CilTheorems MarpaGrammar MarpaRules MarpaGrammarTheorems.

Section creation.
Context `{!Library}.
Implicit Types g : GRAMMAR.

(** What is wrong with a BNF rule of the symbols [lhs :: rhs], if anything. *)
Definition bnf_error (n : nat) (rs : list rule_core) (lhs : Z) (rhs : list Z) : option Z :=
  if negb (bool_decide (Forall (valid_id n) (lhs :: rhs))) then Some MARPA_ERR_INVALID_SYMBOL_ID
  else if existsb (fun r => (rc_lhs r =? lhs) && rc_seq r) rs then Some MARPA_ERR_SEQUENCE_LHS_NOT_UNIQUE
  else if existsb (fun r => bool_decide (rc_symbols r = lhs :: rhs)) rs then Some MARPA_ERR_DUPLICATE_RULE
  else None.

(** What is wrong with a sequence rule. *)
Definition sequence_error (n : nat) (rs : list rule_core) (lhs rhs separator : Z) : option Z :=
  if negb (separator =? -1) && negb (bool_decide (valid_id n separator)) then Some MARPA_ERR_BAD_SEPARATOR
  else if negb (bool_decide (valid_id n lhs)) then Some MARPA_ERR_INVALID_SYMBOL_ID
  else if existsb (fun r => rc_lhs r =? lhs) rs then Some MARPA_ERR_SEQUENCE_LHS_NOT_UNIQUE
  else if negb (bool_decide (valid_id n rhs)) then Some MARPA_ERR_INVALID_SYMBOL_ID
  else None.

Lemma existsb_In {A} (f : A -> bool) l : existsb f l = true <-> exists x, x ∈ l /\ f x = true.
Proof.
  rewrite existsb_exists. split; intros (x&Hx&Hf); exists x; (split; [by apply list_elem_of_In|done]).
Qed.

Lemma existsb_not {A} (f : A -> bool) l : existsb f l = false -> forall x, x ∈ l -> f x = false.
Proof.
  intros He x Hx. destruct (f x) eqn:E; [|done]. assert (existsb f l = true) by (apply existsb_In; eauto). congruence.
Qed.

Lemma alter_core {A B} (c : A -> B) f (i : nat) (l : list A) x : l !! i = Some x -> c (f x) = c x -> c <$> alter f i l = c <$> l.
Proof.
  revert i. induction l as [|y l IH]; intros [|i] Hx Hc; [done..| |]; simpl in *.
  - injection Hx as ->. by rewrite Hc.
  - change (c y :: (c <$> alter f i l) = c y :: (c <$> l)). by rewrite IH.
Qed.

Lemma core_alter {A B} (c : A -> B) f (F : B -> B) (i : nat) (l : list A) :
  (forall x, c (f x) = F (c x)) -> c <$> alter f i l = alter F i (c <$> l).
Proof.
  intros Hc. revert i. induction l as [|y l IH]; intros [|i]; [done..|simpl; by rewrite Hc|].
  change (c y :: (c <$> alter f i l) = c y :: alter F i (c <$> l)). by rewrite IH.
Qed.

Lemma valid_nat n s : valid_id n s -> Z.of_nat (Z.to_nat s) = s.
Proof. unfold valid_id. lia. Qed.

(** The symbol of a valid id, and whether it is a left-hand side. *)
Lemma symbol_flags g s x :
  g_wf g -> valid_id (length (symbols_of g)) s -> t_xsy_stack g !! Z.to_nat s = Some x ->
  (XSY_is_LHS x = true <-> exists r, r ∈ rules_of g /\ rc_lhs r = s)
  /\ (XSY_is_Sequence_LHS x = true <-> exists r, r ∈ rules_of g /\ rc_lhs r = s /\ rc_seq r = true).
Proof.
  intros Hg Hs Hx. assert (symbols_of g !! Z.to_nat s = Some (xsy_core x)) as Hc by (unfold symbols_of; by rewrite list_lookup_fmap, Hx).
  pose proof (wf_lhs _ _ (gw_core _ Hg) _ _ Hc) as Hl. pose proof (wf_seq _ _ (gw_core _ Hg) _ _ Hc) as Hq.
  rewrite (valid_nat _ _ Hs) in Hl, Hq. done.
Qed.

(** A rule on the stack, when there is room. *)
Definition finished g (o : xrl_object) : XRL * GRAMMAR :=
  let rule := MkXRL (XRL_Count_of_G g) (xo_length o) (xo_symbols o) (Default_Rank_of_G g) false false false (-1) (-1) false false false false false true true false in
  let g := set_t_xrl_stack (t_xrl_stack g ++ [rule]) g in
  let g := set_External_Size_of_G (to_int (External_Size_of_G g + (1 + Length_of_XRL rule))) g in
  (rule, set_t_max_rule_length (Z.max (Length_of_XRL rule) (t_max_rule_length g)) g).

Lemma xrl_finish_room g o : XRL_Count_of_G g < DSTACK_MAX -> xrl_finish g o = Ok (finished g o).
Proof. intros Hn. unfold xrl_finish, rule_add. by rewrite dstack_push_room. Qed.

(** ** BNF rules *)

Definition sc_set_lhs (s : symbol_core) : symbol_core := SC (sc_id s) (sc_start s) true (sc_seq s) (sc_counted s).

Lemma bnf_symbols_added ss r :
  rc_seq r = false -> valid_id (length ss) (rc_lhs r) -> symbols_added ss r (alter sc_set_lhs (Z.to_nat (rc_lhs r)) ss).
Proof.
  intros Hr Hv. split; [apply length_alter|]. intros i s' Hs'. assert (~ counts (Z.of_nat i) r) as Hc by (intros [? _]; congruence).
  destruct (decide (Z.to_nat (rc_lhs r) = i)) as [E|Hne].
  - rewrite E, list_lookup_alter_eq in Hs'. destruct (ss !! i) as [s|]; [|done]. injection Hs' as <-. exists s.
    unfold valid_id in Hv. assert (rc_lhs r = Z.of_nat i) by lia. split_and!; simpl; intuition congruence.
  - rewrite list_lookup_alter_ne in Hs' by done. exists s'. unfold valid_id in Hv. assert (rc_lhs r <> Z.of_nat i) by lia.
    split_and!; intuition congruence.
Qed.

Lemma tree_count g tree items :
  g_wf g -> represents duplicate_rule_cmp tree items ->
  (forall x, x ∈ items <-> exists r, r ∈ rules_of g /\ rc_bnf r = true /\ x = rule_object r) -> (length items <= length (rules_of g))%nat.
Proof.
  intros Hg (t&Ht&<-) Hin. assert (NoDup (inorder t)) as Hnd.
  { apply (lex_sorted_nodup duplicate_rule_cmp rule_key), (rep_sorted _ _ _ Ht). }
  assert (inorder t ⊆ (rule_object <$> rules_of g)) as Hsub.
  { intros x Hx. apply Hin in Hx as (r&Hr&_&->). by apply list_elem_of_fmap_2. }
  rewrite <- (length_fmap rule_object (rules_of g)). by apply submseteq_length, NoDup_submseteq.
Qed.

(** The symbols before the first test on the rules. *)
Lemma bnf_error_valid n rs lhs rhs code :
  bnf_error n rs lhs rhs = code -> code <> Some MARPA_ERR_INVALID_SYMBOL_ID -> valid_id n lhs /\ Forall (valid_id n) rhs.
Proof.
  unfold bnf_error. case_bool_decide as Hv; simpl; [|by intros <-]. by apply Forall_cons in Hv.
Qed.

Lemma valid_decide g s : xsy_id_is_valid g s = bool_decide (valid_id (length (symbols_of g)) s).
Proof. apply eq_true_iff_eq. by rewrite valid_symbol, bool_decide_eq_true. Qed.

Lemma forallb_valid g l : forallb (xsy_id_is_valid g) l = bool_decide (Forall (valid_id (length (symbols_of g))) l).
Proof.
  induction l as [|x l IH]; cbn [forallb]; [by rewrite bool_decide_eq_true_2 by constructor|]. rewrite IH.
  apply eq_true_iff_eq. rewrite andb_true_iff, valid_symbol, !bool_decide_eq_true, Forall_cons. done.
Qed.

Definition bnf_core (g : GRAMMAR) (lhs : Z) (rhs : list Z) : rule_core :=
  RC (XRL_Count_of_G g) (Z.of_nat (length rhs)) (lhs :: rhs) true false (-1).

(** The rule is in the stack, and its object in the tree: what the end of the call does. *)
Lemma bnf_added g tree items tree' items' lhs rhs :
  g_wf g -> g_open g -> XRL_Count_of_G g < DSTACK_MAX -> bnf_error (length (symbols_of g)) (rules_of g) lhs rhs = None ->
  t_xrl_tree g = Some tree ->
  (forall x, x ∈ items <-> exists r, r ∈ rules_of g /\ rc_bnf r = true /\ x = rule_object r) ->
  represents duplicate_rule_cmp tree' items' -> items' ≡ₚ rule_object (bnf_core g lhs rhs) :: items ->
  let g1 := set_t_xrl_tree (Some tree') (set_t_xsy_stack (alter (set_XSY_is_LHS true) (Z.to_nat lhs) (t_xsy_stack g)) g) in
  exists g', (r ← xrl_finish g1 (rule_object (bnf_core g lhs rhs));
              let '(rule, g) := r in
              g ← upd_xrl g (ID_of_XRL rule) (set_XRL_is_BNF true);
              Ok (ID_of_XRL rule, g)) = Ok (XRL_Count_of_G g, g')
    /\ rules_of g' = rules_of g ++ [bnf_core g lhs rhs] /\ length (symbols_of g') = length (symbols_of g)
    /\ g_wf g' /\ g_open g'.
Proof.
  intros Hg Hopen Hroom Herr Htree Hitems Hrep Hperm g1. set (r := bnf_core g lhs rhs) in *.
  destruct (bnf_error_valid _ _ _ _ _ Herr ltac:(done)) as [Hvl Hvr].
  rewrite xrl_finish_room by done. cbn [mbind res_bind]. set (fin := finished g1 (rule_object r)). rewrite (surjective_pairing fin). assert (ID_of_XRL fin.1 = XRL_Count_of_G g) as Hid by done.
  assert (t_xrl_stack fin.2 = t_xrl_stack g ++ [fin.1]) as Hstack by done.
  rewrite Hid, upd_xrl_ok by (unfold XRL_Count_of_G; rewrite Hstack, length_app; simpl; lia). cbn [mbind res_bind].
  eexists. split; [done|]. assert (forall f, alter f (Z.to_nat (XRL_Count_of_G g)) (t_xrl_stack fin.2) = t_xrl_stack g ++ [f fin.1]) as Halter.
  { intros f. rewrite Hstack. unfold XRL_Count_of_G. rewrite Nat2Z.id. apply alter_last. }
  rewrite Halter. set (g' := set_t_xrl_stack _ _).
  assert (rules_of g' = rules_of g ++ [r]) as Hrules by (unfold rules_of; simpl; by rewrite fmap_app).
  assert (symbols_of g' = alter sc_set_lhs (Z.to_nat lhs) (symbols_of g)) as Hsyms.
  { unfold symbols_of. simpl. by apply core_alter. }
  split_and!; [done|by rewrite Hsyms, length_alter| |destruct Hopen; split; [done|done|by eexists|done]].
  unfold bnf_error in Herr. rewrite bool_decide_eq_true_2 in Herr by (by constructor). simpl in Herr.
  destruct (existsb _ _) eqn:Hseq in Herr; [done|]. destruct (existsb _ _) eqn:Hdup in Herr; [done|].
  split.
  - rewrite Hrules, Hsyms. apply (wf_add_rule (symbols_of g)); [apply Hg| |by unfold rules_of; rewrite length_fmap| | |by apply bnf_symbols_added].
    + split; [done|done| |done|by left|done]. intros s Hs. rewrite Forall_forall in Hvr. apply elem_of_cons in Hs as [->|Hs]; [done|by apply Hvr].
    + intros r' Hr' He. pose proof (existsb_not _ _ Hdup r' Hr') as Hf. by apply bool_decide_eq_false in Hf.
    + intros r' Hr' He. split; [|done]. pose proof (existsb_not _ _ Hseq r' Hr') as Hf. simpl in Hf. rewrite He in Hf. simpl in Hf.
      by rewrite Z.eqb_refl in Hf.
  - simpl. exists items'. split; [done|]. intros x. rewrite Hperm, elem_of_cons, Hitems, Hrules. setoid_rewrite elem_of_app.
    setoid_rewrite list_elem_of_singleton. split; [intros [->|(r'&?&?&?)]; [by exists r; auto|eauto]|].
    intros (r'&[Hr'| ->]&Hb&->); [right; eauto|by left].
  - rewrite Hrules, total_size_app. change (External_Size_of_G g') with (to_int (External_Size_of_G g + (1 + Z.of_nat (length rhs)))).
    rewrite (gw_size _ Hg). apply to_int_add.
Qed.

(** ** Sequence rules *)

Definition sc_set_seq (s : symbol_core) : symbol_core := SC (sc_id s) (sc_start s) (sc_lhs s) true (sc_counted s).
Definition sc_set_counted (s : symbol_core) : symbol_core := SC (sc_id s) (sc_start s) (sc_lhs s) (sc_seq s) true.

Lemma lookup_alter_decide {A} (f : A -> A) (i j : nat) (l : list A) : alter f i l !! j = if decide (i = j) then f <$> (l !! j) else l !! j.
Proof. case_decide as E; [by rewrite E, list_lookup_alter_eq|by rewrite list_lookup_alter_ne]. Qed.

Definition sequence_core (g : GRAMMAR) (lhs rhs separator : Z) : rule_core :=
  RC (XRL_Count_of_G g) 1 [lhs; rhs] false true (if separator >=? 0 then separator else -1).

(** What the rule keeps of the minimum and of the flags. *)
Definition sequence_options (x : XRL) (separator min flags : Z) : Prop :=
  Minimum_of_XRL x = min
  /\ xrl_is_discard x = (Z.land flags MARPA_KEEP_SEPARATION =? 0) && (separator >=? 0)
  /\ XRL_is_Proper_Separation x = negb (Z.land flags MARPA_PROPER_SEPARATION =? 0).

Definition sequence_symbols (ss : list symbol_core) (lhs rhs separator : Z) : list symbol_core :=
  let ss := alter sc_set_counted (Z.to_nat rhs) (alter sc_set_seq (Z.to_nat lhs) (alter sc_set_lhs (Z.to_nat lhs) ss)) in
  if separator >=? 0 then alter sc_set_counted (Z.to_nat separator) ss else ss.

Lemma sequence_symbols_added ss g lhs rhs separator :
  valid_id (length ss) lhs -> valid_id (length ss) rhs -> symbols_added ss (sequence_core g lhs rhs separator) (sequence_symbols ss lhs rhs separator).
Proof.
  intros Hl Hr. unfold valid_id in *. unfold sequence_symbols. split; [destruct (separator >=? 0); by rewrite !length_alter|].
  intros i s' Hs'. set (r := sequence_core g lhs rhs separator).
  assert (counts (Z.of_nat i) r <-> rhs = Z.of_nat i \/ (separator = Z.of_nat i /\ 0 <= separator)) as Hc.
  { unfold counts, r, sequence_core, rc_rhs. simpl. rewrite list_elem_of_singleton. destruct (Z.geb_spec separator 0); intuition lia. }
  assert (exists s, ss !! i = Some s) as [s Hs].
  { apply lookup_lt_is_Some. apply lookup_lt_Some in Hs'. destruct (separator >=? 0); by rewrite !length_alter in Hs'. }
  exists s. split; [done|]. rewrite Hc. change (rc_lhs r) with lhs. change (rc_seq r) with true.
  destruct (Z.geb_spec separator 0); rewrite !lookup_alter_decide, Hs in Hs'; repeat case_decide; simpl in Hs'; injection Hs' as <-; simpl;
    split_and!; intuition (lia || done).
Qed.

Lemma sequence_wf g lhs rhs separator :
  g_wf g -> sequence_error (length (symbols_of g)) (rules_of g) lhs rhs separator = None ->
  wf_core (sequence_symbols (symbols_of g) lhs rhs separator) (rules_of g ++ [sequence_core g lhs rhs separator])
  /\ valid_id (length (symbols_of g)) lhs /\ valid_id (length (symbols_of g)) rhs /\ (0 <= separator -> valid_id (length (symbols_of g)) separator).
Proof.
  intros Hg. unfold sequence_error. destruct (negb (separator =? -1) && _) eqn:Hsep; [done|].
  destruct (bool_decide_reflect (valid_id (length (symbols_of g)) lhs)) as [Hl|]; simpl; [|done]. destruct (existsb _ _) eqn:Hex; [done|].
  destruct (bool_decide_reflect (valid_id (length (symbols_of g)) rhs)) as [Hr|]; simpl; [|done]. intros _.
  assert (separator = -1 \/ valid_id (length (symbols_of g)) separator) as Hs.
  { apply andb_false_iff in Hsep as [Hs|Hs]; apply negb_false_iff in Hs; [left; by apply Z.eqb_eq|right; by apply bool_decide_eq_true in Hs]. }
  split_and!; [|done|done|unfold valid_id in *; lia].
  assert (forall r, r ∈ rules_of g -> rc_lhs r <> lhs) as Hno.
  { intros r Hin. pose proof (existsb_not _ _ Hex r Hin) as Hf. simpl in Hf. by apply Z.eqb_neq. }
  apply (wf_add_rule (symbols_of g)); [apply Hg| |by unfold rules_of; rewrite length_fmap| | |by apply sequence_symbols_added].
  - split; simpl; try done.
    + intros s Hs'. unfold sequence_core in Hs'. simpl in Hs'. set_solver.
    + destruct (Z.geb_spec separator 0); [right; split; [destruct Hs; [lia|done]|done]|by left].
  - intros r' Hin E. apply (Hno r' Hin). unfold rc_lhs. by rewrite E.
  - intros r' Hin E. exfalso. by apply (Hno r' Hin).
Qed.

Lemma lhs_flag g s x :
  g_wf g -> valid_id (length (symbols_of g)) s -> t_xsy_stack g !! Z.to_nat s = Some x ->
  XSY_is_LHS x = existsb (fun r => rc_lhs r =? s) (rules_of g).
Proof.
  intros Hg Hs Hx. apply eq_true_iff_eq. rewrite (proj1 (symbol_flags g s x Hg Hs Hx)), existsb_In.
  split; intros (r&Hr&He); exists r; (split; [done|]); by apply Z.eqb_eq.
Qed.

(** A call that only sets an error. *)
Lemma unchanged g code :
  g_wf g -> g_open g ->
  exists z g', Ok (failure_indicator, MARPA_ERROR g code) = Ok (z, g') /\ g_wf g' /\ g_open g'
    /\ z = -2 /\ t_error g' = code /\ rules_of g' = rules_of g /\ symbols_of g' = symbols_of g.
Proof.
  intros Hg Hopen. eexists _, _. split; [done|]. split; [by apply (g_wf_core g)|]. split; [by destruct Hopen|]. done.
Qed.

(** What the call does after the tests. *)
Lemma sequence_added g lhs rhs separator min flags :
  g_wf g -> g_open g -> XRL_Count_of_G g < DSTACK_MAX -> sequence_error (length (symbols_of g)) (rules_of g) lhs rhs separator = None ->
  exists z g',
    (r ← rule_new g lhs [rhs] 1;
     let '(original_rule, g) := r in
     g ← upd_xrl g (ID_of_XRL original_rule) (fun rule =>
           let rule := if separator >=? 0 then set_Separator_of_XRL separator rule else rule in
           let rule := set_XRL_is_Sequence true (set_Minimum_of_XRL min rule) in
           let rule := set_xrl_is_discard ((Z.land flags MARPA_KEEP_SEPARATION =? 0) && (separator >=? 0)) rule in
           if negb (Z.land flags MARPA_PROPER_SEPARATION =? 0) then set_XRL_is_Proper_Separation true rule else rule);
     g ← upd_xsy g lhs (set_XSY_is_Sequence_LHS true);
     g ← upd_xsy g rhs (set_xsy_is_counted true);
     g ← (if separator >=? 0 then upd_xsy g separator (set_xsy_is_counted true) else Ok g);
     Ok (ID_of_XRL original_rule, g)) = Ok (z, g') /\ g_wf g' /\ g_open g'
    /\ z = XRL_Count_of_G g /\ rules_of g' = rules_of g ++ [sequence_core g lhs rhs separator]
    /\ symbols_of g' = sequence_symbols (symbols_of g) lhs rhs separator
    /\ exists x, t_xrl_stack g' = t_xrl_stack g ++ [x] /\ sequence_options x separator min flags.
Proof.
  intros Hg Hopen Hroom Herr. destruct (sequence_wf g lhs rhs separator Hg Herr) as (Hwf&Hl&Hr&Hs).
  unfold rule_new. change 1 with (Z.of_nat (length [rhs])) at 1. rewrite xrl_start_ok by done. cbn [mbind res_bind fst snd].
  rewrite xrl_finish_room by done. cbn [mbind res_bind]. set (fin := finished _ _). destruct fin as [rule g1] eqn:Hfin. unfold fin, finished in Hfin. injection Hfin as Hrule Hg1.
  assert (ID_of_XRL rule = XRL_Count_of_G g) as Hid by by rewrite <- Hrule. rewrite Hid.
  assert (t_xrl_stack g1 = t_xrl_stack g ++ [rule]) as Hst by by rewrite <- Hg1, <- Hrule.
  assert (symbols_of g1 = alter sc_set_lhs (Z.to_nat lhs) (symbols_of g)) as Hsy1.
  { rewrite <- Hg1. unfold symbols_of. simpl. by apply core_alter. }
  rewrite upd_xrl_ok by (unfold XRL_Count_of_G; rewrite Hst, length_app; simpl; lia). cbn [mbind res_bind]. set (f := fun rule : XRL => _).
  assert (alter f (Z.to_nat (XRL_Count_of_G g)) (t_xrl_stack g1) = t_xrl_stack g ++ [f rule]) as ->.
  { rewrite Hst. unfold XRL_Count_of_G. rewrite Nat2Z.id. apply alter_last. }
  set (g2 := set_t_xrl_stack _ _). assert (symbols_of g2 = symbols_of g1) as Hsy2 by done.
  assert (forall s, valid_id (length (symbols_of g)) s -> valid_id (length (symbols_of g2)) s) as Hv2.
  { intros s. by rewrite Hsy2, Hsy1, length_alter. }
  rewrite upd_xsy_ok by by apply Hv2. cbn [mbind res_bind].
  rewrite upd_xsy_ok by (unfold symbols_of; simpl; rewrite length_fmap, length_alter, <- symbols_length; by apply Hv2). cbn [mbind res_bind].
  set (g4 := set_t_xsy_stack _ _).
  assert (symbols_of g4 = alter sc_set_counted (Z.to_nat rhs) (alter sc_set_seq (Z.to_nat lhs) (alter sc_set_lhs (Z.to_nat lhs) (symbols_of g)))) as Hsy4.
  { rewrite <- Hsy1, <- Hsy2. unfold symbols_of, g4. simpl. rewrite (core_alter xsy_core _ sc_set_counted) by done. f_equal. by apply core_alter. }
  assert (rules_of g2 = rules_of g ++ [sequence_core g lhs rhs separator]) as Hru.
  { unfold rules_of, g2. simpl. rewrite fmap_app. simpl. do 2 f_equal. rewrite <- Hrule. unfold f, sequence_core.
    destruct (separator >=? 0), (negb (Z.land flags MARPA_PROPER_SEPARATION =? 0)); done. }
  assert (sequence_options (f rule) separator min flags) as Hopts.
  { unfold f. rewrite <- Hrule. unfold sequence_options. destruct (separator >=? 0), (negb (Z.land flags MARPA_PROPER_SEPARATION =? 0)); done. }
  assert (exists g', (if separator >=? 0 then upd_xsy g4 separator (set_xsy_is_counted true) else Ok g4) = Ok g'
    /\ symbols_of g' = sequence_symbols (symbols_of g) lhs rhs separator /\ rules_of g' = rules_of g2 /\ t_xrl_stack g' = t_xrl_stack g ++ [f rule]
    /\ t_xrl_tree g' = t_xrl_tree g /\ External_Size_of_G g' = External_Size_of_G g1 /\ t_is_ok g' = t_is_ok g /\ G_is_Precomputed g' = G_is_Precomputed g /\ t_zwp_tree g' = t_zwp_tree g /\ t_gzwa_stack g' = t_gzwa_stack g)
    as (g'&Hlast&Hsy'&Hru'&Hst'&Ht'&He'&Hok'&Hpre'&Hzwp'&Hzwa').
  { unfold sequence_symbols. destruct (Z.geb_spec separator 0).
    - rewrite upd_xsy_ok by (rewrite Hsy4, !length_alter; by apply Hs). eexists. split; [done|]. rewrite <- Hsy4.
      split_and!; try (unfold g4, g2; by rewrite <- Hg1); try done. unfold symbols_of. simpl. by apply core_alter.
    - exists g4. split_and!; try (unfold g4, g2; by rewrite <- Hg1); done. }
  rewrite Hlast. cbn [mbind res_bind]. eexists _, _. split; [done|]. rewrite Hru'. split; [|split; [|split_and!; [done..|by exists (f rule)]]].
  - split; [by rewrite Hsy', Hru', Hru|rewrite Ht', Hru', Hru|].
    + pose proof (gw_tree _ Hg) as Hgt. destruct (t_xrl_tree g) as [tree|]; [|done]. destruct Hgt as (items&Hrep&Hin). exists items.
      split; [done|]. intros y. rewrite Hin. setoid_rewrite elem_of_app. setoid_rewrite list_elem_of_singleton.
      split; intros (r&Hin'&Hb&->); [eauto|]. destruct Hin' as [?| ->]; [eauto|done].
    + rewrite He', Hru', Hru, total_size_app, <- Hg1. simpl. rewrite (gw_size _ Hg). apply to_int_add.
  - destruct Hopen as [Ho Hp Ht Hz]. split; [unfold IS_G_OK in *; by rewrite Hok'|by rewrite Hpre'|by rewrite Ht'|unfold ZWA_Count_of_G; by rewrite Hzwp', Hzwa'].
Qed.

(** ** The calls *)
Context (Hfuel : (MARPA_AVL_MAX_HEIGHT <= tree_rounds)%nat) (Hversion : lib_version = marpa_h_version).

Lemma marpa_g_rule_new_ok g lhs rhs :
  g_wf g -> g_open g -> XRL_Count_of_G g < DSTACK_MAX -> Z.of_nat (length rhs) <= MAX_RHS_LENGTH ->
  exists z g', marpa_g_rule_new g lhs rhs (Z.of_nat (length rhs)) = Ok (z, g') /\ g_wf g' /\ g_open g'
    /\ match bnf_error (length (symbols_of g)) (rules_of g) lhs rhs with
       | Some code => z = -2 /\ t_error g' = code /\ rules_of g' = rules_of g /\ symbols_of g' = symbols_of g
       | None => z = XRL_Count_of_G g /\ rules_of g' = rules_of g ++ [bnf_core g lhs rhs]
           /\ length (symbols_of g') = length (symbols_of g)
       end.
Proof.
  intros Hg Hopen Hcount Hlen. unfold marpa_g_rule_new, guarded. cbn [first_failure].
  rewrite fatal_none, open_none by (done || apply Hopen). unfold fail_if at 1. rewrite Z.gtb_ltb. destruct (Z.ltb_spec MAX_RHS_LENGTH (Z.of_nat (length rhs))); [lia|].
  unfold invalid_symbol, fail_if. destruct (xsy_id_is_valid g lhs) eqn:Hvl; simpl negb; cbn iota.
  2: { eexists _, _. split; [done|]. split; [by apply (g_wf_core g)|]. split; [by destruct Hopen|].
       unfold bnf_error. rewrite bool_decide_eq_false_2; [done|]. intros [Hv _]%Forall_cons. apply valid_symbol in Hv. congruence. }
  rewrite Nat2Z.id, rhs_valid_ok. cbn [mbind res_bind]. rewrite forallb_valid. apply valid_symbol in Hvl.
  case_bool_decide as Hvr; simpl negb; cbn iota.
  2: { eexists _, _. split; [done|]. split; [by apply (g_wf_core g)|]. split; [by destruct Hopen|].
       unfold bnf_error. rewrite bool_decide_eq_false_2; [done|]. by intros [_ Hv]%Forall_cons. }
  destruct (XSY_by_ID_ok g lhs Hvl) as (x&->&Hx). cbn [mbind res_bind]. destruct (symbol_flags g lhs x Hg Hvl Hx) as [HL HS].
  unfold bnf_error. rewrite bool_decide_eq_true_2 by (by constructor). simpl negb. cbn iota.
  destruct (XSY_is_Sequence_LHS x) eqn:Hseq.
  { eexists _, _. split; [done|]. split; [by apply (g_wf_core g)|]. split; [by destruct Hopen|].
    rewrite (proj2 (existsb_In _ _)); [done|]. destruct (proj1 HS eq_refl) as (r&Hr&He&Hs). exists r. split; [done|].
    by rewrite He, Z.eqb_refl, Hs. }
  assert (existsb (fun r => (rc_lhs r =? lhs) && rc_seq r) (rules_of g) = false) as Hns.
  { apply not_true_is_false. intros (r&Hr&[He%Z.eqb_eq Hs]%andb_prop)%existsb_In. by discriminate (proj2 HS (ex_intro _ r (conj Hr (conj He Hs)))). }
  rewrite Hns. rewrite xrl_start_ok by done. cbn [mbind res_bind].
  destruct (go_tree _ Hopen) as [tree Htree]. pose proof (gw_tree _ Hg) as Hgt. rewrite Htree in Hgt. destruct Hgt as (items&Hrep&Hitems).
  unfold xrl_tree_insert. cbn [t_xrl_tree set_t_xsy_stack]. rewrite Htree.
  set (o := MkXRLObject _ _ _). assert (o = rule_object (bnf_core g lhs rhs)) as Ho by done.
  assert (o ∉ items) as Hni.
  { intros (r&Hr&_&E)%Hitems. apply list_elem_of_lookup in Hr as [i Hi]. pose proof (wf_rule_id _ _ (gw_core _ Hg) i r Hi) as Hid.
    apply (f_equal xo_addr) in E. simpl in E. unfold XRL_Count_of_G in E. apply lookup_lt_Some in Hi. rewrite rules_length in Hi. lia. }
  destruct (avl_insert_ok duplicate_rule_cmp tree_rounds tree items o Hrep Hfuel) as (found&tree'&items'&->&Hrep'&Hcase);
    [pose proof (tree_count g tree items Hg Hrep Hitems) as Hn; rewrite rules_length in Hn; unfold XRL_Count_of_G, DSTACK_MAX, SIZE_MOD in *; lia|done|]. cbn [mbind res_bind fst snd].
  destruct found as [d|].
  - destruct Hcase as (Hd&Hz&->). apply Hitems in Hd as (r&Hr&Hb&->). pose proof (wf_rule _ _ (gw_core _ Hg) r Hr) as Hw.
    assert (lhs :: rhs = rc_symbols r) as Hsame.
    { apply (lex_zero duplicate_rule_cmp rule_key) in Hz. unfold rule_object in Hz. rewrite (rw_symbols _ _ Hw), (rw_length _ _ Hw) in Hz.
      rewrite (rw_symbols _ _ Hw). by apply rule_key_symbols in Hz. }
    assert (symbols_of (set_t_xsy_stack (alter (set_XSY_is_LHS true) (Z.to_nat lhs) (t_xsy_stack g)) g) = symbols_of g) as Hsyms.
    { unfold symbols_of. simpl. apply (alter_core _ _ _ _ x Hx). unfold xsy_core. simpl.
      rewrite (proj2 HL); [done|]. exists r. split; [done|]. unfold rc_lhs. by rewrite <- Hsame. }
    eexists _, _. split; [done|]. split; [|split; [destruct Hopen; split; [done|done|by eexists|done]|]].
    + split; [|simpl; by exists items|apply Hg]. change (wf_core (symbols_of (set_t_xsy_stack (alter (set_XSY_is_LHS true) (Z.to_nat lhs) (t_xsy_stack g)) g)) (rules_of g)).
      rewrite Hsyms. apply Hg.
    + rewrite (proj2 (existsb_In _ _)); [done|]. exists r. split; [done|]. by apply bool_decide_eq_true_2.
  - destruct Hcase as [Hall Hperm]. assert (existsb (fun r => bool_decide (rc_symbols r = lhs :: rhs)) (rules_of g) = false) as Hnd.
    { apply not_true_is_false. intros (r&Hr&Hd%bool_decide_eq_true)%existsb_In. pose proof (wf_rule _ _ (gw_core _ Hg) r Hr) as Hw.
      destruct (rc_seq r) eqn:Es.
      - pose proof (existsb_not _ _ Hns r Hr) as Hf. simpl in Hf. unfold rc_lhs in Hf. rewrite Hd in Hf. simpl in Hf. by rewrite Z.eqb_refl, Es in Hf.
      - rewrite Forall_forall in Hall. apply (Hall (rule_object r)).
        + apply Hitems. exists r. split_and!; [done| |done]. by rewrite (rw_kind _ _ Hw), Es.
        + apply (lex_zero duplicate_rule_cmp rule_key). rewrite Ho. unfold rule_object. simpl. rewrite (rw_length _ _ Hw).
          unfold rc_rhs. rewrite Hd. done. }
    rewrite Hnd. rewrite Ho in Hperm |- *.
    destruct (bnf_added g tree items tree' items' lhs rhs Hg Hopen Hcount) as (g'&He&Hrules&Hsyms&Hwf&Hop); [|done|done|done|done|].
    { unfold bnf_error. rewrite bool_decide_eq_true_2 by (by constructor). simpl negb. cbn iota. by rewrite Hns, Hnd. }
    exists (XRL_Count_of_G g), g'. split; [exact He|]. split_and!; done.
Qed.

(** C25. Creation of a BNF rule ([marpa_g_rule_new]), for a grammar that can be added to, whose
    stack of rules is not at the [2 ^ 30] an [int] capacity allows, and
    whatever the symbols given, no more than [MAX_RHS_LENGTH].  The call ends; what is wrong with the rule, if anything, is
    the error set and -2 the result: a symbol that does not exist, a left-hand side that is
    that of a sequence, or a rule with the same symbols, which the tree of rules finds, and
    then no rule or property of a symbol is changed.  Otherwise the result is the number of
    rules there were, and the rule is the only addition.  The invariant holds again. *)
Theorem marpa_g_rule_new_registers g lhs rhs :
  g_wf g -> g_open g -> XRL_Count_of_G g < DSTACK_MAX -> Z.of_nat (length rhs) <= MAX_RHS_LENGTH ->
  exists z g', marpa_g_rule_new g lhs rhs (Z.of_nat (length rhs)) = Ok (z, g') /\ g_wf g' /\ g_open g'
    /\ match bnf_error (length (symbols_of g)) (rules_of g) lhs rhs with
       | Some code => z = -2 /\ t_error g' = code /\ rules_of g' = rules_of g /\ symbols_of g' = symbols_of g
       | None => z = XRL_Count_of_G g /\ rules_of g' = rules_of g ++ [bnf_core g lhs rhs]
           /\ length (symbols_of g') = length (symbols_of g)
       end.
Proof using Hfuel Hversion. by apply marpa_g_rule_new_ok. Qed.

Lemma marpa_g_sequence_new_ok g lhs rhs separator min flags :
  g_wf g -> g_open g -> XRL_Count_of_G g < DSTACK_MAX ->
  exists z g', marpa_g_sequence_new g lhs rhs separator min flags = Ok (z, g') /\ g_wf g' /\ g_open g'
    /\ match sequence_error (length (symbols_of g)) (rules_of g) lhs rhs separator with
       | Some code => z = -2 /\ t_error g' = code /\ rules_of g' = rules_of g /\ symbols_of g' = symbols_of g
       | None => z = XRL_Count_of_G g /\ rules_of g' = rules_of g ++ [sequence_core g lhs rhs separator]
           /\ symbols_of g' = sequence_symbols (symbols_of g) lhs rhs separator
           /\ exists x, t_xrl_stack g' = t_xrl_stack g ++ [x] /\ sequence_options x separator min flags
       end.
Proof using Hversion.
  intros Hg Hopen Hroom. unfold marpa_g_sequence_new, guarded. cbn [first_failure]. rewrite fatal_none, open_none by (done || apply Hopen).
  destruct (sequence_error _ _ _ _ _) as [code|] eqn:Herr.
  - pose proof Herr as Hcode. unfold sequence_error in Hcode. unfold fail_if, invalid_symbol. rewrite !valid_decide.
    destruct (negb (separator =? -1) && _); [injection Hcode as <-; by apply unchanged|].
    destruct (bool_decide_reflect (valid_id (length (symbols_of g)) lhs)) as [Hl|]; simpl negb in *; cbn iota in *; [|injection Hcode as <-; by apply unchanged].
    destruct (XSY_by_ID_ok g lhs Hl) as (x&->&Hx). cbn [mbind res_bind]. rewrite (lhs_flag g lhs x Hg Hl Hx).
    destruct (existsb _ _); [injection Hcode as <-; by apply unchanged|]. cbn [first_failure]. unfold fail_if.
    case_bool_decide; simpl negb in *; cbn iota in *; [done|]. injection Hcode as <-. by apply unchanged.
  - pose proof Herr as Hcode. unfold sequence_error in Hcode. unfold fail_if, invalid_symbol. rewrite !valid_decide.
    destruct (negb (separator =? -1) && _); [done|]. 
    destruct (bool_decide_reflect (valid_id (length (symbols_of g)) lhs)) as [Hl|]; simpl negb in *; cbn iota in *; [|done].
    destruct (XSY_by_ID_ok g lhs Hl) as (x&->&Hx). cbn [mbind res_bind]. rewrite (lhs_flag g lhs x Hg Hl Hx).
    destruct (existsb _ _); [done|]. cbn [first_failure]. unfold fail_if.
    case_bool_decide; simpl negb in *; cbn iota in *; [|done]. by apply sequence_added.
Qed.

(** C26. Creation of a sequence rule ([marpa_g_sequence_new]), for a grammar that can be added
    to, whose stack of rules is not full, and whatever the arguments.  What is wrong with the rule, if anything, is the error
    set and -2 the result: a separator that is neither -1 nor a symbol, a symbol that does
    not exist, a left-hand side that is already that of a rule; nothing is changed then.
    Otherwise the rule is added under the next number, with its minimum and its flags, its item
    and its separator counted and its left-hand side taken.  The invariant holds again: the left-hand side of
    a sequence is that of one rule only. *)
Theorem marpa_g_sequence_new_registers g lhs rhs separator min flags :
  g_wf g -> g_open g -> XRL_Count_of_G g < DSTACK_MAX ->
  exists z g', marpa_g_sequence_new g lhs rhs separator min flags = Ok (z, g') /\ g_wf g' /\ g_open g'
    /\ match sequence_error (length (symbols_of g)) (rules_of g) lhs rhs separator with
       | Some code => z = -2 /\ t_error g' = code /\ rules_of g' = rules_of g /\ symbols_of g' = symbols_of g
       | None => z = XRL_Count_of_G g /\ rules_of g' = rules_of g ++ [sequence_core g lhs rhs separator]
           /\ symbols_of g' = sequence_symbols (symbols_of g) lhs rhs separator
           /\ exists x, t_xrl_stack g' = t_xrl_stack g ++ [x] /\ sequence_options x separator min flags
       end.
Proof using Hversion. by apply marpa_g_sequence_new_ok. Qed.
End creation.
