(* ===== verification/MarpaCalls.v ===== *)
(** * Every grammar the calls can build

    The calls of the construction, from [marpa_g_new] on, in any order: none of them goes
    wrong, and the grammar keeps its invariant, as long as the array of a right-hand side has
    the symbols that its length announces and the stacks have room. *)
From Stdlib Require Import String.
From stdpp Require Import sorting.
From S2P Require Import Prelude Avl AvlTree AvlProbe AvlTheorems AvlTraversal Dstack BitVector BitVectorTheorems BitScan Cil CilTheorems MarpaGrammar MarpaRules MarpaGrammarTheorems MarpaRuleTheorems.

(** The calls, with their arguments. *)
Inductive g_call : Type :=
| CSymbolNew
| CStartSymbolSet (xsy_id : Z)
| CDefaultRankSet (rank : Z)
| CSymbolRankSet (xsy_id rank : Z)
| CForceValued
| CSymbolIsValuedSet (xsy_id value : Z)
| CSymbolIsTerminalSet (xsy_id value : Z)
| CSymbolIsCompletionEventSet (xsy_id value : Z)
| CSymbolIsNulledEventSet (xsy_id value : Z)
| CSymbolIsPredictionEventSet (xsy_id value : Z)
| CRuleNew (lhs_id : Z) (rhs_ids : list Z) (length : Z)
| CSequenceNew (lhs_id rhs_id separator_id min flags : Z)
| CRuleRankSet (xrl_id rank : Z)
| CRuleNullHighSet (xrl_id flag : Z)
| CZwaNew (default_value : Z)
| CZwaPlace (addr zwaid xrl_id rhs_ix : Z)
| CErrorClear.

Section calls.
Context `{!Library}.
Implicit Types g : GRAMMAR.

Definition run_call (c : g_call) g : res (Z * GRAMMAR) :=
  match c with
  | CSymbolNew => marpa_g_symbol_new g
  | CStartSymbolSet xsy_id => marpa_g_start_symbol_set g xsy_id
  | CDefaultRankSet rank => marpa_g_default_rank_set g rank
  | CSymbolRankSet xsy_id rank => marpa_g_symbol_rank_set g xsy_id rank
  | CForceValued => marpa_g_force_valued g
  | CSymbolIsValuedSet xsy_id value => marpa_g_symbol_is_valued_set g xsy_id value
  | CSymbolIsTerminalSet xsy_id value => marpa_g_symbol_is_terminal_set g xsy_id value
  | CSymbolIsCompletionEventSet xsy_id value => marpa_g_symbol_is_completion_event_set g xsy_id value
  | CSymbolIsNulledEventSet xsy_id value => marpa_g_symbol_is_nulled_event_set g xsy_id value
  | CSymbolIsPredictionEventSet xsy_id value => marpa_g_symbol_is_prediction_event_set g xsy_id value
  | CRuleNew lhs_id rhs_ids length => marpa_g_rule_new g lhs_id rhs_ids length
  | CSequenceNew lhs_id rhs_id separator_id min flags => marpa_g_sequence_new g lhs_id rhs_id separator_id min flags
  | CRuleRankSet xrl_id rank => marpa_g_rule_rank_set g xrl_id rank
  | CRuleNullHighSet xrl_id flag => marpa_g_rule_null_high_set g xrl_id flag
  | CZwaNew default_value => marpa_g_zwa_new g default_value
  | CZwaPlace addr zwaid xrl_id rhs_ix => marpa_g_zwa_place addr g zwaid xrl_id rhs_ix
  | CErrorClear => Ok (marpa_g_error_clear g)
  end.

Definition run_calls (cs : list g_call) g : res GRAMMAR :=
  each_res cs (fun c g => r ← run_call c g; Ok r.2) g.

(** A call that changes nothing the invariant depends on. *)
Definition kept g g' : Prop := core_of g' = core_of g /\ t_is_ok g' = t_is_ok g /\ G_is_Precomputed g' = G_is_Precomputed g /\ t_zwp_tree g' = t_zwp_tree g /\ t_gzwa_stack g' = t_gzwa_stack g.

#[export] Instance kept_preorder : PreOrder kept.
Proof. split; [done|]. intros g1 g2 g3 (?&?&?&?&?) (?&?&?&?&?). split_and!; congruence. Qed.

Lemma kept_wf g g' : kept g g' -> g_wf g -> g_open g -> g_wf g' /\ g_open g' /\ rules_of g' = rules_of g.
Proof.
  intros (Hc&Ho&Hp&Hz&Hq) Hg [H1 H2 H3 H4]. split; [by eapply g_wf_core|]. pose proof Hc as [= Hs Hr Ht He].
  split; [|done]. split; [unfold IS_G_OK in *; congruence|congruence|congruence|]. rewrite Hz. destruct H4 as (tree&zwps&Ht4&Hr4&Hi4). exists tree, zwps. split_and!; [done..|].
  unfold ZWA_Count_of_G. by rewrite Hq.
Qed.

Lemma kept_error g code : kept g (MARPA_ERROR g code).
Proof. done. Qed.
Lemma kept_clear g : kept g (clear_error g).2.
Proof. unfold clear_error. destruct (negb (IS_G_OK g)); [destruct (t_error g =? MARPA_ERR_NONE)|]; done. Qed.

Lemma kept_upd_xsy g s f : valid_id (length (symbols_of g)) s -> (forall x, xsy_core (f x) = xsy_core x) ->
  exists g', upd_xsy g s f = Ok g' /\ kept g g'.
Proof.
  intros Hs Hf. rewrite upd_xsy_ok by done. eexists. split; [done|]. split_and!; [|done|done|done|done].
  unfold core_of, symbols_of. simpl. by rewrite fmap_alter.
Qed.

Lemma kept_upd_xrl g i f : 0 <= i < XRL_Count_of_G g -> (forall x, xrl_core (f x) = xrl_core x) ->
  exists g', upd_xrl g i f = Ok g' /\ kept g g'.
Proof.
  intros Hs Hf. rewrite upd_xrl_ok by done. eexists. split; [done|]. split_and!; [|done|done|done|done].
  unfold core_of, rules_of. simpl. by rewrite fmap_alter.
Qed.

Lemma first_failure_none cs g : first_failure cs g = None -> Forall (fun c => c g = None) cs.
Proof. induction cs as [|c cs IH]; simpl; [constructor|]. destruct (c g) eqn:E; [done|]. constructor; auto. Qed.

Lemma guarded_kept cs g k :
  (Forall (fun c => c g = None) cs -> exists z g', k g = Ok (z, g') /\ kept g g') ->
  exists z g', guarded cs g k = Ok (z, g') /\ kept g g'.
Proof.
  intros Hk. unfold guarded. destruct (first_failure cs g) as [[ret code]|] eqn:E; [eexists _, _; split; [done|apply kept_error]|].
  apply Hk. by apply first_failure_none.
Qed.

Lemma checked_symbol g s ret : xsy_malformed s g = None -> xsy_not_there ret s g = None -> valid_id (length (symbols_of g)) s.
Proof.
  unfold xsy_malformed, xsy_not_there, fail_if, XSYID_is_Malformed, XSYID_of_G_Exists, XSY_Count_of_G, valid_id. rewrite symbols_length.
  destruct (Z.ltb_spec s 0), (Z.ltb_spec s (Z.of_nat (length (t_xsy_stack g)))); simpl; (lia || done).
Qed.

Lemma checked_rule g i ret : xrl_malformed i g = None -> xrl_not_there ret i g = None -> 0 <= i < XRL_Count_of_G g.
Proof.
  unfold xrl_malformed, xrl_not_there, fail_if, XRLID_is_Malformed, XRLID_of_G_Exists.
  destruct (Z.ltb_spec i 0), (Z.ltb_spec i (XRL_Count_of_G g)); simpl; (lia || done).
Qed.

(** The steps of a call of a setting: its tests, then one write. *)
Ltac setting :=
  match goal with
  | |- exists z g', guarded _ _ _ = Ok (z, g') /\ _ =>
      apply guarded_kept; let H := fresh in intros H; repeat (apply Forall_cons in H as [? H])
  | |- exists z g', (_ ← upd_xsy _ _ ?f; _) = Ok (z, g') /\ kept ?g g' =>
      let Hk := fresh in let g2 := fresh in let E := fresh in
      edestruct (kept_upd_xsy g) as (g2&E&Hk); [eapply checked_symbol; eassumption|..|rewrite E; eexists _, _; split; [reflexivity|exact Hk]]; done
  | |- exists z g', (_ ← upd_xrl _ _ ?f; _) = Ok (z, g') /\ kept ?g g' =>
      let Hk := fresh in let g2 := fresh in let E := fresh in
      edestruct (kept_upd_xrl g) as (g2&E&Hk); [eapply checked_rule; eassumption|..|rewrite E; eexists _, _; split; [reflexivity|exact Hk]]; done
  | H1 : xsy_malformed ?s ?g = None, H2 : xsy_not_there _ ?s ?g = None |- exists z g', (_ ← XSY_by_ID ?g ?s; _) = Ok (z, g') /\ _ =>
      let x := fresh in let E := fresh in
      destruct (XSY_by_ID_ok g s (checked_symbol _ _ _ H1 H2)) as (x&E&_); rewrite E; cbn [mbind res_bind]
  | |- exists z g', (if ?b then _ else _) = Ok (z, g') /\ _ => destruct b
  | |- exists z g', Ok _ = Ok (z, g') /\ _ => eexists _, _; split; [reflexivity|done]
  end.

Lemma event_set_kept set g s value :
  (forall b x, xsy_core (set b x) = xsy_core x) -> exists z g', event_set set g s value = Ok (z, g') /\ kept g g'.
Proof. intros Hset. unfold event_set. repeat setting. Qed.

Lemma force_valued_kept n i g : 0 <= i -> i + Z.of_nat n <= Z.of_nat (length (symbols_of g)) ->
  exists z g', force_valued_loop n i g = Ok (z, g') /\ kept g g'.
Proof.
  revert i g. induction n as [|n IH]; intros i g Hi Hn; simpl; [by eexists _, _|].
  assert (valid_id (length (symbols_of g)) i) as Hv by (unfold valid_id; lia). destruct (XSY_by_ID_ok g i Hv) as (x&->&_). cbn [mbind res_bind].
  destruct (negb _ && _); [by eexists _, _|].
  destruct (kept_upd_xsy g i (fun x => set_XSY_is_Valued_Locked true (set_XSY_is_Valued true x)) Hv) as (g1&->&Hk); [done|]. cbn [mbind res_bind].
  destruct (IH (i + 1) g1) as (z&g'&->&Hk'); [lia|destruct Hk as ([= Hs _ _ _]&_); rewrite Hs; lia|]. exists z, g'. split; [done|by etrans].
Qed.

(** The settings: everything but the creation of symbols, rules and assertions. *)
Definition is_setting (c : g_call) : bool :=
  match c with CSymbolNew | CRuleNew _ _ _ | CSequenceNew _ _ _ _ _ | CZwaNew _ | CZwaPlace _ _ _ _ => false | _ => true end.

Lemma setting_kept c g : is_setting c = true -> exists z g', run_call c g = Ok (z, g') /\ kept g g'.
Proof.
  assert (forall r : res (Z * GRAMMAR), (exists z g', r = Ok (z, g') /\ kept (clear_error g).2 g') ->
            exists z g', r = Ok (z, g') /\ kept g g') as Hclear.
  { intros r (z&g'&Hk&Hg). exists z, g'. split; [done|]. etrans; [apply kept_clear|done]. }
  destruct c; try done; intros _; cbn [run_call].
  - unfold marpa_g_start_symbol_set. repeat setting.
  - unfold marpa_g_default_rank_set. apply Hclear. repeat setting.
  - unfold marpa_g_symbol_rank_set. apply Hclear. repeat setting.
  - apply force_valued_kept; [done|]. rewrite symbols_length. lia.
  - unfold marpa_g_symbol_is_valued_set. repeat setting.
  - unfold marpa_g_symbol_is_terminal_set. repeat setting.
  - by apply event_set_kept.
  - by apply event_set_kept.
  - by apply event_set_kept.
  - unfold marpa_g_rule_rank_set. apply Hclear. repeat setting.
  - unfold marpa_g_rule_null_high_set. repeat setting.
  - unfold marpa_g_error_clear. eexists _, _. split; [done|]. apply kept_clear.
Qed.

(** ** Any calls *)

(** The assertions of a grammar, and where they are placed. *)
Definition asserted g : option (avl_table (D := ZWP)) * list Z := (t_zwp_tree g, t_gzwa_stack g).

Lemma symbol_new_ok g :
  g_wf g -> g_open g -> XSY_Count_of_G g < DSTACK_MAX ->
  exists g', marpa_g_symbol_new g = Ok (XSY_Count_of_G g, g') /\ g_wf g' /\ g_open g' /\ rules_of g' = rules_of g
  /\ symbols_of g' = symbols_of g ++ [SC (XSY_Count_of_G g) false false false false] /\ asserted g' = asserted g.
Proof.
  intros Hg [H1 H2 H3 H4] Hroom. unfold marpa_g_symbol_new, symbol_new, symbol_add. rewrite dstack_push_room by done. cbn [mbind res_bind].
  eexists. split; [reflexivity|]. set (g' := set_t_xsy_stack _ _). assert (symbols_of g' = symbols_of g ++ [SC (XSY_Count_of_G g) false false false false]) as Hs.
  { unfold symbols_of. simpl. by rewrite fmap_app. }
  split; [|split; [by split|split; [done|split; [exact Hs|done]]]]. split; [|apply (gw_tree _ Hg)|apply (gw_size _ Hg)].
  rewrite Hs. unfold XSY_Count_of_G. rewrite <- symbols_length. apply wf_add_symbol, Hg.
Qed.

(** What C asks of the caller: a length is not negative, and is not beyond the array that is
    given, unless it is refused before the array is read. *)
Definition readable_call (c : g_call) : Prop :=
  match c with CRuleNew _ rhs n => 0 <= n /\ (n <= MAX_RHS_LENGTH -> n <= Z.of_nat (length rhs)) | _ => True end.

(** Only the first [n] symbols of the array are read. *)
Lemma for_res_ext {A} (body body' : Z -> A -> res A) n i acc :
  (forall j acc, i <= j < i + Z.of_nat n -> body j acc = body' j acc) -> for_res n i body acc = for_res n i body' acc.
Proof.
  revert i acc. induction n as [|n IH]; intros i acc Hb; [done|]. cbn [for_res]. rewrite Hb by lia. destruct (body' i acc) as [acc'| |]; [|done..]. cbn [mbind res_bind].
  apply IH. intros j b Hj. apply Hb. lia.
Qed.

Lemma rd_take (l : list Z) (n : nat) j : j < Z.of_nat n -> rd (take n l) j = rd l j.
Proof. intros Hj. unfold rd. destruct (decide (0 <= j)); [|done]. by rewrite lookup_take_lt by lia. Qed.

Lemma rhs_valid_take g (l : list Z) n k i : 0 <= i -> i + Z.of_nat n <= Z.of_nat k -> rhs_valid n i g (take k l) = rhs_valid n i g l.
Proof.
  revert i. induction n as [|n IH]; intros i Hi Hk; [done|]. cbn [rhs_valid]. rewrite rd_take by lia. destruct (rd l i); [|done..]. cbn [mbind res_bind].
  by rewrite IH by lia.
Qed.

Lemma xrl_start_take g lhs rhs n : 0 <= n -> xrl_start g lhs (take (Z.to_nat n) rhs) n = xrl_start g lhs rhs n.
Proof.
  intros Hn. unfold xrl_start. destruct (n <? 0); [done|]. destruct (upd_xsy _ _ _) as [g1| |]; [|done..]. cbn [mbind res_bind].
  erewrite for_res_ext; [done|]. intros j acc Hj. cbv beta. by rewrite rd_take by lia.
Qed.

Lemma rule_new_take g lhs rhs n : 0 <= n -> marpa_g_rule_new g lhs (take (Z.to_nat n) rhs) n = marpa_g_rule_new g lhs rhs n.
Proof.
  intros Hn. unfold marpa_g_rule_new, guarded. destruct (first_failure _ _) as [[? ?]|]; [done|]. rewrite rhs_valid_take by lia.
  destruct (rhs_valid _ _ _ _) as [valid| |]; [|done..]. cbn [mbind res_bind]. destruct (negb valid); [done|].
  destruct (XSY_by_ID g lhs) as [x| |]; [|done..]. cbn [mbind res_bind]. destruct (XSY_is_Sequence_LHS x); [done|]. by rewrite xrl_start_take.
Qed.


Context (Hversion : lib_version = marpa_h_version).

Lemma rule_new_long g lhs rhs n : g_open g -> MAX_RHS_LENGTH < n -> marpa_g_rule_new g lhs rhs n = Ok (failure_indicator, MARPA_ERROR g MARPA_ERR_RHS_TOO_LONG).
Proof.
  intros Ho Hn. unfold marpa_g_rule_new, guarded. cbn [first_failure]. rewrite fatal_none, open_none by (done || apply Ho). unfold fail_if at 1.
  rewrite Z.gtb_ltb. by rewrite (proj2 (Z.ltb_lt _ _) Hn).
Qed.

Lemma rule_getter f cs2 ret g i r z :
  IS_G_OK g = true -> t_xrl_stack g !! Z.to_nat i = Some r -> 0 <= i -> f r = Ok z -> Forall (fun c => c g = None) cs2 ->
  rule_get f [fatal_error] ret cs2 g i = Ok (z, g).
Proof.
  intros Hok Hr Hi Hf Hcs. assert (0 <= i < XRL_Count_of_G g) as Hb by (apply lookup_lt_Some in Hr; unfold XRL_Count_of_G; lia).
  unfold rule_get, guarded. simpl. rewrite fatal_none by done.
  unfold xrl_malformed, xrl_not_there, XRLID_is_Malformed, XRLID_of_G_Exists, fail_if.
  destruct (Z.ltb_spec i 0), (Z.ltb_spec i (XRL_Count_of_G g)); try lia. simpl.
  assert (first_failure cs2 g = None) as -> by (induction Hcs as [|c cs Hc _ IH]; simpl; [done|by rewrite Hc]).
  assert (XRL_by_ID g i = Ok r) as -> by (by apply rd_Ok). cbn [mbind res_bind]. by rewrite Hf.
Qed.

(** ** The tree of the assertions *)

(** The number of the assertions placed. *)
Definition placements g : Z := match t_zwp_tree g with Some tree => avl_count tree | None => 0 end.

Lemma zwp_upd_xsy g s f : post (fun g' => asserted g' = asserted g) (upd_xsy g s f).
Proof using. clear. intros g' Hg. apply bind_Ok in Hg as (x&_&Hg). by apply bind_Ok in Hg as (l&_&[= <-]). Qed.
Lemma zwp_upd_xrl g s f : post (fun g' => asserted g' = asserted g) (upd_xrl g s f).
Proof using. clear. intros g' Hg. apply bind_Ok in Hg as (x&_&Hg). by apply bind_Ok in Hg as (l&_&[= <-]). Qed.
Lemma zwp_xrl_start g lhs rhs n : post (fun r => asserted r.2 = asserted g) (xrl_start g lhs rhs n).
Proof using.
  clear. unfold xrl_start. destruct (n <? 0); [done|]. eapply post_bind; [apply zwp_upd_xsy|]. intros g1 Hg1. eapply post_bind; [apply post_any|]. intros s _. by apply post_Ok.
Qed.
Lemma zwp_xrl_tree_insert g rule : post (fun r => asserted r.2 = asserted g) (xrl_tree_insert g rule).
Proof using. clear. unfold xrl_tree_insert. destruct (t_xrl_tree g); [|done]. eapply post_bind; [apply post_any|]. intros r _. by apply post_Ok. Qed.


Lemma zwp_xrl_finish g rule : post (fun r => asserted r.2 = asserted g) (xrl_finish g rule).
Proof using. clear. unfold xrl_finish, rule_add. eapply post_bind; [apply post_any|]. intros s _. by apply post_Ok. Qed.
Lemma zwp_rule_made g lhs rhs n : post (fun r => asserted r.2 = asserted g) (rule_new g lhs rhs n).
Proof using. clear. eapply post_bind; [apply zwp_xrl_start|]. intros r Hr v Hv. rewrite (zwp_xrl_finish _ _ _ Hv). exact Hr. Qed.

(** The creation of a rule, step by step. *)
Ltac same_tree :=
  repeat (cbv zeta; match goal with
  | |- post _ (guarded _ _ _) => unfold guarded; destruct (first_failure _ _) as [[? ?]|]; [by apply post_Ok|]
  | |- post _ (_ ← upd_xsy _ _ _; _) => eapply post_bind; [apply zwp_upd_xsy|intros ? ?]
  | |- post _ (_ ← upd_xrl _ _ _; _) => eapply post_bind; [apply zwp_upd_xrl|intros ? ?]
  | |- post _ (_ ← xrl_start _ _ _ _; _) => eapply post_bind; [apply zwp_xrl_start|intros [? ?] ?; cbn [fst snd] in *]
  | |- post _ (_ ← xrl_tree_insert _ _; _) => eapply post_bind; [apply zwp_xrl_tree_insert|intros [? ?] ?; cbn [fst snd] in *]
  | |- post _ (_ ← rule_new _ _ _ _; _) => eapply post_bind; [apply zwp_rule_made|intros [? ?] ?; cbn [fst snd] in *]
  | |- post _ (_ ← xrl_finish _ _; _) => eapply post_bind; [apply zwp_xrl_finish|intros [? ?] ?; cbn [fst snd] in *]
  | p : Z * Z |- post _ (let '(_, _) := ?p in _) => destruct p
  | |- post _ (_ ← (if ?b then _ else Ok _); _) => destruct b
  | |- post _ (_ ← Ok _; _) => cbn [mbind res_bind]
  | |- post _ (if ?b then _ else _) => destruct b
  | |- post _ (match ?o with Some _ => _ | None => _ end) => destruct o
  | |- post _ (Ok _) => apply post_Ok; unfold asserted in *; cbn in *; congruence
  | |- post _ (_ ← _; _) => eapply post_bind; [apply post_any|intros ? _]
  end).

Lemma zwp_rule_new g lhs rhs n : post (fun r => asserted r.2 = asserted g) (marpa_g_rule_new g lhs rhs n).
Proof using. clear. unfold marpa_g_rule_new. same_tree. Qed.

Lemma zwp_sequence_new g lhs rhs separator min flags : post (fun r => asserted r.2 = asserted g) (marpa_g_sequence_new g lhs rhs separator min flags).
Proof using. clear. unfold marpa_g_sequence_new. same_tree. Qed.

Context (Hfuel : (MARPA_AVL_MAX_HEIGHT <= tree_rounds)%nat).

Lemma placements_count g tree zwps : t_zwp_tree g = Some tree -> represents zwp_cmp tree zwps -> placements g = Z.of_nat (length zwps).
Proof using. clear. unfold placements. intros -> Hr. by apply represents_count in Hr. Qed.

(** The room taken on the stacks and in the tree of assertions. *)
Definition used g : Z := XSY_Count_of_G g + XRL_Count_of_G g + ZWA_Count_of_G g + placements g.

Lemma placements_pos g : g_open g -> 0 <= placements g.
Proof using. clear. intros [_ _ _ (tree&zwps&Ht&Hr&_)]. rewrite (placements_count g tree zwps Ht Hr). lia. Qed.

Lemma used_room g n : g_open g -> used g < n -> XSY_Count_of_G g < n /\ XRL_Count_of_G g < n /\ ZWA_Count_of_G g < n /\ placements g < n.
Proof using. clear. intros Ho%placements_pos. unfold used, XSY_Count_of_G, XRL_Count_of_G, ZWA_Count_of_G. lia. Qed.

Lemma used_more g g' a b : length (symbols_of g') = (length (symbols_of g) + a)%nat -> length (rules_of g') = (length (rules_of g) + b)%nat -> asserted g' = asserted g ->
  used g' = used g + Z.of_nat a + Z.of_nat b.
Proof using.
  clear. intros Hs Hr [= Ht Hz]. rewrite !symbols_length in Hs. rewrite !rules_length in Hr. unfold used, XSY_Count_of_G, XRL_Count_of_G, ZWA_Count_of_G, placements.
  rewrite Ht, Hz, Hs, Hr. lia.
Qed.

(** [marpa_g_zwa_place], whatever its arguments. *)
Lemma zwa_place_ok addr g zwaid xrl_id rhs_ix : g_wf g -> g_open g -> placements g < SIZE_MOD - 1 ->
  exists z g', marpa_g_zwa_place addr g zwaid xrl_id rhs_ix = Ok (z, g') /\ g_wf g' /\ g_open g' /\ rules_of g' = rules_of g /\ used g' <= used g + 1.
Proof using Hfuel.
  intros Hg Ho Hn. set (good := fun r : res (Z * GRAMMAR) => exists z g', r = Ok (z, g') /\ g_wf g' /\ g_open g' /\ rules_of g' = rules_of g /\ used g' <= used g + 1).
  change (good (marpa_g_zwa_place addr g zwaid xrl_id rhs_ix)).
  assert (forall cs k, (Forall (fun c => c g = None) cs -> good (k g)) -> good (guarded cs g k)) as Hguard.
  { intros cs k Hk. unfold guarded. destruct (first_failure cs g) as [[ret code]|] eqn:E; [|by apply Hk, first_failure_none]. eexists _, _. split; [done|].
    destruct (kept_wf g (MARPA_ERROR g code) (kept_error g code) Hg Ho) as (?&?&?). split_and!; [done..|]. change (used (MARPA_ERROR g code)) with (used g). lia. }
  unfold marpa_g_zwa_place. apply Hguard. intros Hc. repeat (apply Forall_cons in Hc as [? Hc]).
  assert (0 <= xrl_id < XRL_Count_of_G g) as Hx by (by eapply checked_rule). unfold XRL_by_ID. destruct (rd_total (t_xrl_stack g) xrl_id Hx) as [xrl ->]. cbn [mbind res_bind].
  apply Hguard. intros _. clear Hc Hguard. destruct (go_assertions _ Ho) as (tree&zwps&Htree&Hrep&Hids). rewrite Htree. set (item := MkZWP _ _ _ _).
  pose proof (placements_count g tree zwps Htree Hrep) as Hcount. pose proof (represents_count zwp_cmp _ _ Hrep) as Hac.
  destruct (probe_inserts zwp_cmp tree zwps item tree_rounds Hrep) as (a&tab&x&Hp&Hax&Hcase); [lia|done|].
  unfold avl_insert. rewrite Hp. cbn [mbind res_bind fst snd]. rewrite (get_node_Some _ _ _ Hax). cbn [mbind res_bind fst snd].
  assert (exists zwps', represents zwp_cmp tab zwps' /\ Forall (fun z => 0 <= ZWAID_of_ZWP z < ZWA_Count_of_G g) zwps' /\ (length zwps' <= S (length zwps))%nat) as (zwps'&Hrep'&Hids'&Hlen).
  { destruct Hcase as [(->&_)|(_&_&l1&l2&->&Hrep')]; [exists zwps; split_and!; [done..|lia]|]. exists (l1 ++ item :: l2). split; [done|]. rewrite !length_app. cbn. split; [|lia].
    apply Forall_app in Hids as [? ?]. apply Forall_app. split; [done|]. constructor; [|done]. cbn.
    match goal with H : fail_if (zwaid <? 0) _ _ _ = None |- _ => unfold fail_if in H; destruct (Z.ltb_spec zwaid 0) as [?|Hlow]; [done|clear H] end.
    match goal with H : fail_if (negb (zwaid <? ZWA_Count_of_G g)) _ _ _ = None |- _ => unfold fail_if in H; destruct (Z.ltb_spec zwaid (ZWA_Count_of_G g)); [lia|done] end. }
  eexists _, _. split; [reflexivity|]. split; [by apply (g_wf_core g)|]. destruct Ho as [Hok Hpre Htr _]. split; [split; [done..|]; by exists tab, zwps'|]. split; [done|].
  assert (placements (set_t_zwp_tree (Some tab) g) = Z.of_nat (length zwps')) as Hp' by (by eapply placements_count).
  unfold used. rewrite Hp', Hcount. change (XSY_Count_of_G (set_t_zwp_tree (Some tab) g)) with (XSY_Count_of_G g). change (XRL_Count_of_G (set_t_zwp_tree (Some tab) g)) with (XRL_Count_of_G g).
  change (ZWA_Count_of_G (set_t_zwp_tree (Some tab) g)) with (ZWA_Count_of_G g). lia.
Qed.

(** [marpa_g_zwa_new], whatever its argument. *)
Lemma zwa_new_ok g default_value : g_wf g -> g_open g -> ZWA_Count_of_G g < DSTACK_MAX ->
  exists z g', marpa_g_zwa_new g default_value = Ok (z, g') /\ g_wf g' /\ g_open g' /\ rules_of g' = rules_of g /\ used g' <= used g + 1.
Proof using.
  clear. intros Hg Ho Hn. unfold marpa_g_zwa_new, guarded. destruct (first_failure _ g) as [[ret code]|].
  - eexists _, _. split; [done|]. destruct (kept_wf g (MARPA_ERROR g code) (kept_error g code) Hg Ho) as (?&?&?). split_and!; [done..|].
    change (used (MARPA_ERROR g code)) with (used g). lia.
  - rewrite dstack_push_room by done. cbn [mbind res_bind]. eexists _, _. split; [reflexivity|]. split; [by apply (g_wf_core g)|].
    destruct Ho as [H1 H2 H3 (tree&zwps&Ht&Hr&Hi)]. split; [|split; [done|]].
    + split; [done..|]. exists tree, zwps. split_and!; [done..|]. eapply Forall_impl; [exact Hi|]. intros z. unfold ZWA_Count_of_G. cbn. rewrite length_app. lia.
    + unfold used, XSY_Count_of_G, XRL_Count_of_G, ZWA_Count_of_G, placements. cbn. rewrite length_app. cbn. lia.
Qed.

(** [marpa_g_rule_new], with the array of a right-hand side and a length that it has. *)
Lemma rule_new_ok g lhs rhs n : g_wf g -> g_open g -> readable_call (CRuleNew lhs rhs n) -> XRL_Count_of_G g < DSTACK_MAX ->
  exists z g', marpa_g_rule_new g lhs rhs n = Ok (z, g') /\ g_wf g' /\ g_open g' /\ rules_of g `prefix_of` rules_of g' /\ used g' <= used g + 1.
Proof using Hfuel Hversion.
  intros Hg Ho [Hn0 Hn] Hroom. destruct (Z.le_gt_cases n MAX_RHS_LENGTH) as [Hle|Hgt].
  - set (l := take (Z.to_nat n) rhs). assert (n = Z.of_nat (length l)) as El by (unfold l; rewrite length_take; specialize (Hn Hle); lia).
    destruct (marpa_g_rule_new_ok Hfuel Hversion g lhs l Hg Ho Hroom) as (z&g'&He&Hg'&Ho'&Hcase); [lia|]. rewrite <- El in He. unfold l in He. rewrite rule_new_take in He by done.
    exists z, g'. pose proof (zwp_rule_new _ _ _ _ _ He) as Ha. split_and!; [done..| |].
    + destruct (bnf_error _ _ _ _); destruct Hcase as (_&Hr); [destruct Hr as (_&->&_)|destruct Hr as (->&_)]; [done|by apply prefix_app_r].
    + destruct (bnf_error _ _ _ _); destruct Hcase as (_&Hr); [destruct Hr as (_&Hr&Hs)|destruct Hr as (Hr&Hs)];
        [rewrite (used_more g g' 0 0)|rewrite (used_more g g' 0 1)]; rewrite ?Hr, ?Hs, ?length_app, ?Nat.add_0_r; (done || cbn; lia).
  - rewrite rule_new_long by (done || lia). eexists _, _. split; [done|]. destruct (kept_wf g _ (kept_error g MARPA_ERR_RHS_TOO_LONG) Hg Ho) as (?&?&->). split_and!; [done..|].
    change (used (MARPA_ERROR g MARPA_ERR_RHS_TOO_LONG)) with (used g). lia.
Qed.

Lemma call_ok c g : g_wf g -> g_open g -> readable_call c -> used g < DSTACK_MAX ->
  exists z g', run_call c g = Ok (z, g') /\ g_wf g' /\ g_open g' /\ rules_of g `prefix_of` rules_of g' /\ used g' <= used g + 1.
Proof using Hfuel Hversion.
  intros Hg Ho Hs Hu. destruct (used_room g _ Ho Hu) as (Hrx&Hrr&Hrz&Hrp). destruct (is_setting c) eqn:Hset.
  - destruct (setting_kept c g Hset) as (z&g'&->&Hk). destruct (kept_wf g g' Hk Hg Ho) as (Hg'&Ho'&Hr). exists z, g'.
    destruct Hk as ([= Hs' _ _ _]&_&_&Ht&Hq). rewrite (used_more g g' 0 0), Hr; [|by rewrite Hs', Nat.add_0_r|by rewrite Hr, Nat.add_0_r|unfold asserted; congruence]. split_and!; (done || lia).
  - destruct c as [| | | | | | | | | |lhs rhs n|lhs rhs sep min flags| | |v|addr zwaid xrl_id ix|]; try done; cbn [run_call].
    + destruct (symbol_new_ok g Hg Ho Hrx) as (g'&->&Hg'&Ho'&Hr&Hs'&Ha). eexists _, g'. rewrite (used_more g g' 1 0), Hr; [|by rewrite Hs', length_app|by rewrite Hr, Nat.add_0_r|done]. split_and!; (done || lia).
    + by apply rule_new_ok.
    + destruct (marpa_g_sequence_new_ok Hversion g lhs rhs sep min flags Hg Ho Hrr) as (z&g'&He&Hg'&Ho'&Hcase). pose proof (zwp_sequence_new _ _ _ _ _ _ _ He) as Ha. rewrite He. exists z, g'.
      destruct (sequence_error _ _ _ _ _); destruct Hcase as (_&Hr); [destruct Hr as (_&Hr&Hs')|destruct Hr as (Hr&Hs'&_)];
        [rewrite (used_more g g' 0 0), Hr|rewrite (used_more g g' 0 1), Hr]; rewrite ?Hr, ?Hs', ?length_app, ?Nat.add_0_r; try done; try (split_and!; (done || (by apply prefix_app_r) || lia)).
      unfold sequence_symbols. destruct (sep >=? 0); by rewrite !length_alter.
    + destruct (zwa_new_ok g v Hg Ho Hrz) as (z&g'&->&Hg'&Ho'&Hr&Hu'). exists z, g'. by rewrite Hr.
    + destruct (zwa_place_ok addr g zwaid xrl_id ix Hg Ho) as (z&g'&->&Hg'&Ho'&Hr&Hu'); [unfold DSTACK_MAX, SIZE_MOD in *; lia|]. exists z, g'. by rewrite Hr.
Qed.

Lemma calls_ok cs g : g_wf g -> g_open g -> Forall readable_call cs -> used g + Z.of_nat (length cs) <= DSTACK_MAX ->
  exists g', run_calls cs g = Ok g' /\ g_wf g' /\ g_open g' /\ rules_of g `prefix_of` rules_of g' /\ used g' <= used g + Z.of_nat (length cs).
Proof using Hfuel Hversion.
  intros Hg Ho Hs. revert g Hg Ho. induction Hs as [|c cs Hc Hs IH]; intros g Hg Ho Hu; [exists g; split_and!; try done; cbn; lia|]. cbn [length] in Hu.
  destruct (call_ok c g Hg Ho Hc) as (z&g1&He&Hg1&Ho1&Hp&Hu1); [lia|]. unfold run_calls. cbn [each_res]. rewrite He. cbn [mbind res_bind snd].
  destruct (IH g1 Hg1 Ho1) as (g'&Hr&Hg'&Ho'&Hp'&Hu'); [lia|]. exists g'. split_and!; [exact Hr|done|done|by etrans|cbn [length]; lia].
Qed.

Lemma new_ok : exists g0, marpa_g_new None = Ok (Some g0, None) /\ g_wf g0 /\ g_open g0 /\ rules_of g0 = [] /\ symbols_of g0 = [] /\ used g0 = 0.
Proof using.
  clear. destruct cilar_init_ok as (ca&Hca&_). unfold marpa_g_new. rewrite Hca. cbn [mbind res_bind]. eexists. split; [done|].
  split; [split; [apply new_wf| |done]|split; [split; [done|done|by eexists|]|done]].
  - exists []. split; [apply represents_empty|]. set_solver.
  - exists avl_create, []. split; [done|]. split; [apply represents_empty|done].
Qed.

(** C9. Any grammar under construction.  Whatever calls are made on a grammar just created, in
    any order, each of them returns, without an access outside an array, through a null
    pointer or through the tree, and the invariant holds.  The arguments are any, but for the
    array of a right-hand side, which has as many symbols as the length says, and the length is
    not negative ([readable_call]: the code tests neither).  The calls are 2^30 at most, which
    is what the stacks have room for: their capacity is an [int] that doubles.  The invariant: ids are
    positions, symbols of rules exist, a symbol is marked as a left-hand side, as that of a
    sequence or as counted exactly when a rule makes it so, the left-hand side of a sequence
    rule has no other rule, no two rules have the same symbols, and the tree of rules has
    the BNF rules, each of them once. *)
Theorem grammar_calls_safe cs :
  Forall readable_call cs -> Z.of_nat (length cs) <= DSTACK_MAX ->
  exists g0 g, marpa_g_new None = Ok (Some g0, None) /\ run_calls cs g0 = Ok g /\ g_wf g /\ g_open g.
Proof using Hfuel Hversion.
  intros Hs Hlen. destruct new_ok as (g0&Hn&Hg0&Ho0&Hr0&_&Hp0). destruct (calls_ok cs g0 Hg0 Ho0 Hs) as (g&Hc&Hg&Ho&_); [by rewrite Hp0|].
  by exists g0, g.
Qed.

(** C28. A rule is read back as it was given: after [marpa_g_rule_new] has returned its
    number, and whatever calls follow (as many as the stacks have room for), [marpa_g_rule_lhs], [marpa_g_rule_length] and
    [marpa_g_rule_rhs] at that number give the left-hand side, the length and each symbol of
    the right-hand side. *)
Theorem marpa_g_rule_readback g lhs rhs id g1 cs :
  g_wf g -> g_open g -> used g + Z.of_nat (S (length cs)) <= DSTACK_MAX ->
  Z.of_nat (length rhs) <= MAX_RHS_LENGTH ->
  marpa_g_rule_new g lhs rhs (Z.of_nat (length rhs)) = Ok (id, g1) -> 0 <= id -> Forall readable_call cs ->
  exists g2, run_calls cs g1 = Ok g2
    /\ marpa_g_rule_lhs g2 id = Ok (lhs, g2)
    /\ marpa_g_rule_length g2 id = Ok (Z.of_nat (length rhs), g2)
    /\ forall ix x, rhs !! ix = Some x -> marpa_g_rule_rhs g2 id (Z.of_nat ix) = Ok (x, g2).
Proof using Hfuel Hversion.
  intros Hg Ho Hu Hrl Hnew Hid Hs. destruct (used_room g DSTACK_MAX Ho) as (_&Hroom&_); [lia|].
  destruct (marpa_g_rule_new_ok Hfuel Hversion g lhs rhs Hg Ho Hroom Hrl) as (z&g'&He&Hg'&Ho'&Hcase).
  rewrite He in Hnew. injection Hnew as -> ->. destruct (bnf_error _ _ _ _); [lia|]. destruct Hcase as (Hz&Hr&Hsy).
  destruct (calls_ok cs g1 Hg' Ho' Hs) as (g2&Hc&Hg2&Ho2&Hpre&_).
  { rewrite (used_more g g1 0 1); [lia|by rewrite Hsy, Nat.add_0_r|by rewrite Hr, length_app|exact (zwp_rule_new _ _ _ _ _ He)]. }
  exists g2. split; [done|]. assert (rules_of g2 !! Z.to_nat id = Some (bnf_core g lhs rhs)) as Hl.
  { eapply prefix_lookup_Some; [|exact Hpre]. rewrite Hr, Hz. unfold XRL_Count_of_G. rewrite Nat2Z.id, <- rules_length.
    rewrite lookup_app_r, Nat.sub_diag by lia. done. }
  apply list_lookup_fmap_Some in Hl as (r&Hrc&Hlr). pose proof (go_ok _ Ho2) as Hok.
  injection Hrc as _ Hrlen Hrsym _ _ _.
  split_and!.
  - eapply rule_getter; [done|done|done| |constructor]. unfold LHS_ID_of_XRL. by rewrite <- Hrsym.
  - eapply rule_getter; [done|done|done| |constructor]. by rewrite <- Hrlen.
  - intros ix x Hx. assert (0 <= id < XRL_Count_of_G g2) as Hb by (apply lookup_lt_Some in Hlr; unfold XRL_Count_of_G; lia).
    unfold marpa_g_rule_rhs, guarded. cbn [first_failure]. rewrite fatal_none by done.
    unfold xrl_malformed, xrl_not_there, XRLID_is_Malformed, XRLID_of_G_Exists, fail_if.
    destruct (Z.ltb_spec id 0), (Z.ltb_spec id (XRL_Count_of_G g2)); try lia. cbn [negb].
    assert (XRL_by_ID g2 id = Ok r) as -> by (by apply rd_Ok). cbn [mbind res_bind]. rewrite <- Hrlen. pose proof (lookup_lt_Some _ _ _ Hx).
    destruct (Z.ltb_spec (Z.of_nat ix) 0), (Z.leb_spec (Z.of_nat (length rhs)) (Z.of_nat ix)); try lia.
    unfold RHS_ID_of_XRL. rewrite <- Hrsym. assert (rd (lhs :: rhs) (Z.of_nat ix + 1) = Ok x) as ->; [|done].
    apply rd_Ok. split; [lia|]. by replace (Z.to_nat (Z.of_nat ix + 1)) with (S ix) by lia.
Qed.
End calls.

(** ** What the documentation says otherwise *)

Section divergences.
Context `{!Library} (Hversion : lib_version = marpa_h_version).

(** [marpa_g_rule_is_proper_separation] gives the negation of the property: 0 for a sequence
    rule created with [MARPA_PROPER_SEPARATION], 1 for every other rule. *)
Lemma proper_separation_inverted g i r :
  IS_G_OK g = true -> t_xrl_stack g !! Z.to_nat i = Some r -> 0 <= i ->
  marpa_g_rule_is_proper_separation g i = Ok (1 - b2z (XRL_is_Proper_Separation r), g).
Proof using Hversion.
  intros Hok Hr Hi. eapply rule_getter; [done|done|done|done| |constructor]. by destruct (XRL_is_Proper_Separation r).
Qed.

(** [marpa_g_symbol_is_start] is 0 for every symbol of a grammar under construction, the
    start symbol included: nothing ever sets the field it reads. *)
Lemma symbol_is_start_never g s : g_wf g -> g_open g -> valid_id (length (symbols_of g)) s -> marpa_g_symbol_is_start g s = Ok (0, g).
Proof using Hversion.
  intros Hg Ho Hs. destruct (XSY_by_ID_ok g s Hs) as (x&Hx&Hl). unfold marpa_g_symbol_is_start, symbol_is, guarded. simpl.
  rewrite fatal_none by (done || apply Ho). unfold xsy_malformed, xsy_not_there, fail_if, XSYID_is_Malformed, XSYID_of_G_Exists, XSY_Count_of_G.
  unfold valid_id in Hs. rewrite symbols_length in Hs.
  destruct (Z.ltb_spec s 0), (Z.ltb_spec s (Z.of_nat (length (t_xsy_stack g)))); try lia. simpl. rewrite Hx. cbn [mbind res_bind].
  assert (symbols_of g !! Z.to_nat s = Some (xsy_core x)) as Hc by (unfold symbols_of; by rewrite list_lookup_fmap, Hl).
  destruct (wf_symbol_id _ _ (gw_core _ Hg) _ _ Hc) as [_ Hst]. simpl in Hst. by rewrite Hst.
Qed.

(** The start symbol itself. *)
Theorem symbol_is_start_start g s :
  g_wf g -> g_open g -> valid_id (length (symbols_of g)) s ->
  exists g', marpa_g_start_symbol_set g s = Ok (s, g') /\ marpa_g_start_symbol g' = Ok (s, g') /\ marpa_g_symbol_is_start g' s = Ok (0, g').
Proof using Hversion.
  intros Hg Ho Hs. exists (set_t_start_xsy_id s g). assert (kept g (set_t_start_xsy_id s g)) as Hk by done.
  destruct (kept_wf _ _ Hk Hg Ho) as (Hg'&Ho'&_). split_and!; [| |by apply symbol_is_start_never].
  - unfold marpa_g_start_symbol_set, guarded. cbn [first_failure]. rewrite fatal_none, open_none by (done || apply Ho).
    unfold xsy_malformed, xsy_not_there, fail_if, XSYID_is_Malformed, XSYID_of_G_Exists, XSY_Count_of_G.
    unfold valid_id in Hs. rewrite symbols_length in Hs.
    destruct (Z.ltb_spec s 0), (Z.ltb_spec s (Z.of_nat (length (t_xsy_stack g)))); (lia || done).
  - unfold marpa_g_start_symbol, guarded. cbn [first_failure]. rewrite fatal_none by (done || apply Ho'). done.
Qed.
End divergences.

(** ** Concrete grammars *)

#[export] Instance demo_library : Library := {| lib_version := (7, 2, 0); tree_rounds := 92 |}.

Lemma demo_fuel : (MARPA_AVL_MAX_HEIGHT <= tree_rounds)%nat.
Proof. unfold MARPA_AVL_MAX_HEIGHT. simpl. lia. Qed.

Lemma demo_version : lib_version = marpa_h_version.
Proof. done. Qed.

(** Three symbols, a rule and a sequence. *)
Definition demo_calls : list g_call :=
  [CSymbolNew; CSymbolNew; CSymbolNew; CRuleNew 0 [1; 2] 2; CSequenceNew 1 2 (-1) 1 0; CRuleNew 0 [1; 2; 0] 2; CRuleNew 1 [] 0; CZwaNew 1; CZwaPlace 0 0 0 1; CZwaPlace 1 0 0 1].

Lemma demo_readable : Forall readable_call demo_calls.
Proof. repeat constructor; by vm_compute. Qed.

Definition demo_grammar : GRAMMAR :=
  match (r ← marpa_g_new None; match r.1 with Some g => run_calls demo_calls g | None => Fault end) with
  | Ok g => g
  | _ => MkGRAMMAR 0 [] [] [] None [] None (MkCILAR avl_create (MARPA_DSTACK_INIT 0 2) 2) 0 None 0 0 0 0 0 false false false
  end.

Lemma demo_grammar_ok : g_wf demo_grammar /\ g_open demo_grammar.
Proof.
  destruct new_ok as (g0&Hn&Hg0&Ho0&Hr0&_&Hp0). destruct (calls_ok demo_version demo_fuel demo_calls g0 Hg0 Ho0 demo_readable) as (g&Hc&Hg&Ho&_).
  { rewrite Hp0. by vm_compute. }
  unfold demo_grammar. rewrite Hn. cbn [mbind res_bind fst]. rewrite Hc. done.
Qed.

Lemma grammar_calls_safe_witness :
  exists g0 g, marpa_g_new None = Ok (Some g0, None) /\ run_calls demo_calls g0 = Ok g /\ g_wf g /\ g_open g.
Proof. apply (grammar_calls_safe demo_version demo_fuel demo_calls demo_readable). by vm_compute. Defined.

(** The last two rules were refused: a duplicate, and a sequence left-hand side. *)
Lemma marpa_g_rule_new_registers_witness :
  exists z g', marpa_g_rule_new demo_grammar 2 [0; 2] 2 = Ok (z, g') /\ z = 2 /\ g_wf g' /\ g_open g'.
Proof.
  destruct demo_grammar_ok as [Hg Ho].
  destruct (marpa_g_rule_new_registers demo_fuel demo_version demo_grammar 2 [0; 2] Hg Ho) as (z&g'&He&Hg'&Ho'&Hcase);
    [vm_compute; reflexivity|vm_compute; discriminate|].
  exists z, g'. split; [exact He|]. split; [|split; [exact Hg'|exact Ho']]. revert Hcase. vm_compute (bnf_error _ _ _ _). intros [Hz _]. exact Hz.
Defined.

(** One or more, separated, and the separators kept. *)
Lemma marpa_g_sequence_new_registers_witness :
  exists z g' x, marpa_g_sequence_new demo_grammar 2 0 1 1 MARPA_KEEP_SEPARATION = Ok (z, g') /\ z = 2
    /\ t_xrl_stack g' = t_xrl_stack demo_grammar ++ [x] /\ Minimum_of_XRL x = 1 /\ xrl_is_discard x = false.
Proof.
  destruct demo_grammar_ok as [Hg Ho].
  destruct (marpa_g_sequence_new_registers demo_version demo_grammar 2 0 1 1 MARPA_KEEP_SEPARATION Hg Ho) as (z&g'&He&Hg'&Ho'&Hcase); [vm_compute; reflexivity|].
  revert Hcase. vm_compute (sequence_error _ _ _ _ _). intros (Hz&_&_&x&Hx&Hmin&Hdisc&_). exists z, g', x.
  split; [exact He|]. split; [exact Hz|]. split; [exact Hx|]. split; [exact Hmin|exact Hdisc].
Defined.

Lemma marpa_g_rule_readback_witness :
  exists g1 g2, marpa_g_rule_new demo_grammar 2 [0; 2] 2 = Ok (2, g1) /\ run_calls demo_calls g1 = Ok g2
    /\ marpa_g_rule_lhs g2 2 = Ok (2, g2) /\ marpa_g_rule_length g2 2 = Ok (2, g2)
    /\ forall ix x, [0; 2] !! ix = Some x -> marpa_g_rule_rhs g2 2 (Z.of_nat ix) = Ok (x, g2).
Proof.
  destruct demo_grammar_ok as [Hg Ho].
  assert (exists g1, marpa_g_rule_new demo_grammar 2 [0; 2] 2 = Ok (2, g1)) as (g1&Hnew) by (eexists; vm_compute; reflexivity).
  destruct (marpa_g_rule_readback demo_version demo_fuel demo_grammar 2 [0; 2] 2 g1 demo_calls Hg Ho) as (g2&H1&H2&H3&H4);
    [vm_compute; discriminate|vm_compute; discriminate|exact Hnew|lia|exact demo_readable|].
  exists g1, g2. split; [exact Hnew|]. split; [exact H1|]. split; [exact H2|]. split; [exact H3|exact H4].
Defined.
