(* ===== verification/Census.v ===== *)
(** * The census of a grammar ([libmarpa-dist/marpa.c], [marpa_g_precompute], [rhs_closure])

    The first part of the precomputation: which rules mention a symbol, which symbols are
    terminals, nullable, productive, accessible, nulling, what the rules inherit from their
    symbols, which symbols a nullable symbol takes with it, which rules are in a cycle.

    An array of pointers into an array of rule ids is the list of the positions; an array
    that is only ever extended is a list with a capacity, and a store beyond it is [Fault]. *)
From Stdlib Require Import String.
From S2P Require Import Prelude Avl BitVector Matrix Cil MarpaGrammar.

(** [struct sym_rule_pair]; what [_marpa_avl_insert] returns is not used, so that the
    address of a pair is of no importance. *)
Record sym_rule_pair : Type := SRP { t_symid : Z; t_ruleid : Z }.

#[export] Instance sym_rule_pair_eq_dec : EqDecision sym_rule_pair.
Proof. solve_decision. Defined.

Definition sym_rule_cmp (pair_a pair_b : sym_rule_pair) : Z :=
  let result := t_symid pair_a - t_symid pair_b in
  if negb (result =? 0) then result else t_ruleid pair_a - t_ruleid pair_b.

(** A tree of pairs, and the array they are in: [pt_next] of its [pt_size] cells are used. *)
Record pair_tree : Type := PT { pt_tree : avl_table (D := sym_rule_pair); pt_next : Z; pt_size : Z }.

(** [xrl_list_x_rh_sym], [xrl_list_x_lh_sym]: the rules of symbol [id] are those of
    [sr_data] from the position [sr_index[id]] to the position [sr_index[id + 1]]. *)
Record sym_rules : Type := SR { sr_data : list Z; sr_index : list Z }.

Definition store_next {A} (capacity : Z) (l : list A) (x : A) : res (list A) :=
  if Z.of_nat (length l) <? capacity then Ok (l ++ [x]) else Fault.

(** [while(seen_symid < symid) xrl_list[++seen_symid] = p_rule_data]: [seen_symid] is the
    last index stored. *)
Definition index_upto (capacity symid : Z) (s : sym_rules) : res sym_rules :=
  index ← for_res (Z.to_nat (symid - (Z.of_nat (length (sr_index s)) - 1))) 0
            (fun _ index => store_next capacity index (Z.of_nat (length (sr_data s)))) (sr_index s);
  Ok (SR (sr_data s) index).

(** What the census of the rules fills. *)
Record rule_lists : Type := RL { rl_lhs_v : Bit_Vector; rl_empty_lhs_v : Bit_Vector; rl_rhs : pair_tree; rl_lhs : pair_tree }.

Section census.
Context `{Library}.
(** What the memory of the obstack, or of [my_malloc], holds, allocation by allocation. *)
Context (junk : nat -> list Z).
Implicit Types g : GRAMMAR.

Definition pair_insert (p : pair_tree) (symid ruleid : Z) : res pair_tree :=
  if pt_next p <? pt_size p then
    r ← avl_insert sym_rule_cmp tree_rounds (pt_tree p) (SRP symid ruleid);
    Ok (PT r.2 (pt_next p + 1) (pt_size p))
  else Fault.

Definition census_rule g (rule_id : Z) (c : rule_lists) : res rule_lists :=
  rule ← XRL_by_ID g rule_id;
  lhs_id ← LHS_ID_of_XRL rule;
  let rule_length := Length_of_XRL rule in
  lhs_v ← bv_bit_set (rl_lhs_v c) lhs_id;
  lhs ← pair_insert (rl_lhs c) lhs_id rule_id;
  empty_lhs_v ← (if XRL_is_Sequence rule && (Minimum_of_XRL rule <=? 0) then bv_bit_set (rl_empty_lhs_v c) lhs_id else Ok (rl_empty_lhs_v c));
  rhs ← (if XRL_is_Sequence rule && (Separator_of_XRL rule >=? 0) then pair_insert (rl_rhs c) (Separator_of_XRL rule) rule_id else Ok (rl_rhs c));
  if rule_length <=? 0 then
    empty_lhs_v ← bv_bit_set empty_lhs_v lhs_id; Ok (RL lhs_v empty_lhs_v rhs lhs)
  else
    rhs ← for_res (Z.to_nat rule_length) 0 (fun rhs_ix rhs => symid ← RHS_ID_of_XRL rule rhs_ix; pair_insert rhs symid rule_id) rhs;
    Ok (RL lhs_v empty_lhs_v rhs lhs).

Definition census_rules g : res rule_lists :=
  lhs_v ← bv_obs_create (junk 0%nat) (XSY_Count_of_G g);
  empty_lhs_v ← bv_obs_shadow (junk 1%nat) lhs_v;
  for_res (Z.to_nat (XRL_Count_of_G g)) 0 (census_rule g)
    (RL lhs_v empty_lhs_v (PT avl_create 0 (to_size_t (External_Size_of_G g))) (PT avl_create 0 (XRL_Count_of_G g))).

(** [for(pair = first; pair; pair = next) ...] *)
Fixpoint list_pairs (fuel : nat) (tree : avl_table) (size xsy_count : Z) (pair : option sym_rule_pair) (traverser : avl_traverser) (s : sym_rules)
    : res sym_rules :=
  match pair with
  | None => Ok s
  | Some p =>
    match fuel with
    | O => NoFuel
    | S fuel =>
      s ← index_upto (xsy_count + 1) (t_symid p) s;
      data ← store_next size (sr_data s) (t_ruleid p);
      r ← avl_t_next sym_rule_cmp tree_rounds tree traverser;
      list_pairs fuel tree size xsy_count r.1 r.2 (SR data (sr_index s))
    end
  end.

(** From a tree to its array; at most as many rounds as there are pairs. *)
Definition sym_rule_lists (p : pair_tree) (xsy_count : Z) : res sym_rules :=
  r ← avl_t_first tree_rounds (pt_tree p) (avl_t_init (pt_tree p));
  s ← list_pairs (Z.to_nat (pt_size p)) (pt_tree p) (pt_size p) xsy_count r.1 r.2 (SR [] []);
  index_upto (xsy_count + 1) xsy_count s.

(** ** Terminals *)

Definition census_terminal (symid : Z) (c : Bit_Vector * GRAMMAR) : res (Bit_Vector * GRAMMAR) :=
  let '(terminal_v, g) := c in
  symbol ← XSY_by_ID g symid;
  if XSY_is_Locked_Terminal symbol then
    if XSY_is_Terminal symbol then
      terminal_v ← bv_bit_set terminal_v symid; Ok (terminal_v, g)
    else
      terminal_v ← bv_bit_clear terminal_v symid; Ok (terminal_v, g)
  else
    b ← bv_bit_test terminal_v symid;
    if b : bool then g ← upd_xsy g symid (set_XSY_is_Terminal true); Ok (terminal_v, g)
    else Ok (terminal_v, g).

Definition census_terminals g (lhs_v : Bit_Vector) : res (Bit_Vector * GRAMMAR) :=
  terminal_v ← bv_obs_create (junk 2%nat) (XSY_Count_of_G g);
  terminal_v ← bv_not terminal_v lhs_v;
  for_res (Z.to_nat (XSY_Count_of_G g)) 0 census_terminal (terminal_v, g).

(** ** Which symbols a symbol reaches *)

Definition census_reach_rule g (rule_id : Z) (reach_matrix : Bit_Matrix) : res Bit_Matrix :=
  rule ← XRL_by_ID g rule_id;
  lhs_id ← LHS_ID_of_XRL rule;
  reach_matrix ← for_res (Z.to_nat (Length_of_XRL rule)) 0 (fun rhs_ix m =>
      rhs_id ← RHS_ID_of_XRL rule rhs_ix; matrix_bit_set m lhs_id rhs_id) reach_matrix;
  if XRL_is_Sequence rule && (Separator_of_XRL rule >=? 0) then matrix_bit_set reach_matrix lhs_id (Separator_of_XRL rule)
  else Ok reach_matrix.

Definition census_reach g : res Bit_Matrix :=
  reach_matrix ← matrix_obs_create (junk 3%nat) (XSY_Count_of_G g) (XSY_Count_of_G g);
  reach_matrix ← for_res (Z.to_nat (XRL_Count_of_G g)) 0 (census_reach_rule g) reach_matrix;
  transitive_closure reach_matrix.

(** ** The closure under the rules *)

(** [for(rh_ix = 0; rh_ix < rule_length; rh_ix++) if(!bv_bit_test(bv, ...)) goto NEXT_RULE;] *)
Fixpoint rhs_all_set (n : nat) (rh_ix : Z) (rule : XRL) (bv : Bit_Vector) : res bool :=
  match n with
  | O => Ok true
  | S n => id ← RHS_ID_of_XRL rule rh_ix; b ← bv_bit_test bv id; if b : bool then rhs_all_set n (rh_ix + 1) rule bv else Ok false
  end.

(** One rule; the stack, the last symbol pushed first, has room for every symbol. *)
Definition rhs_closure_rule g (rule_id : Z) (c : Bit_Vector * list Z) : res (Bit_Vector * list Z) :=
  let '(bv, stack) := c in
  rule ← XRL_by_ID g rule_id;
  lhs_id ← LHS_ID_of_XRL rule;
  b ← bv_bit_test bv lhs_id;
  if b : bool then Ok (bv, stack)
  else
    b ← rhs_all_set (Z.to_nat (Length_of_XRL rule)) 0 rule bv;
    if negb b then Ok (bv, stack)
    else
      b ← (if XRL_is_Sequence rule && (Minimum_of_XRL rule >=? 2) && (Separator_of_XRL rule >=? 0)
           then bv_bit_test bv (Separator_of_XRL rule) else Ok true);
      if negb b then Ok (bv, stack)
      else
        bv ← bv_bit_set bv lhs_id;
        if Z.of_nat (length stack) <? XSY_Count_of_G g then Ok (bv, lhs_id :: stack) else Fault.

Fixpoint rhs_closure_loop (fuel : nat) g (x : sym_rules) (bv : Bit_Vector) (stack : list Z) : res Bit_Vector :=
  match stack with
  | [] => Ok bv
  | xsy_id :: stack =>
    match fuel with
    | O => NoFuel
    | S fuel =>
      p_xrl ← rd (sr_index x) xsy_id;
      p_one_past_rules ← rd (sr_index x) (xsy_id + 1);
      c ← for_res (Z.to_nat (p_one_past_rules - p_xrl)) p_xrl (fun i c => rule_id ← rd (sr_data x) i; rhs_closure_rule g rule_id c) (bv, stack);
      rhs_closure_loop fuel g x c.1 c.2
    end
  end.

(** Each symbol is pushed at most once. *)
Definition rhs_closure g (bv : Bit_Vector) (xrl_list_x_rh_sym : sym_rules) : res Bit_Vector :=
  let n := Z.to_nat (XSY_Count_of_G g) in
  r ← bv_for_each n bv 0 (fun xsy_id stack => if Z.of_nat (length stack) <? XSY_Count_of_G g then Ok (xsy_id :: stack) else Fault) [];
  rhs_closure_loop n g xrl_list_x_rh_sym r.1 r.2.

(** ** Nullable, productive and accessible symbols *)

Definition census_nullable_symbol (xsy_id : Z) (c : GRAMMAR * Z) : res (GRAMMAR * Z) :=
  let '(g, counted_nullables) := c in
  g ← upd_xsy g xsy_id (set_XSY_is_Nullable true);
  xsy ← XSY_by_ID g xsy_id;
  if xsy_is_counted xsy then Ok (int_event_new g MARPA_EVENT_COUNTED_NULLABLE xsy_id, counted_nullables + 1)
  else Ok (g, counted_nullables).

(** The vector, the grammar, and how many of the symbols are counted. *)
Definition census_nullable g (empty_lhs_v : Bit_Vector) (xrl_list_x_rh_sym : sym_rules) : res (Bit_Vector * (GRAMMAR * Z)) :=
  nullable_v ← bv_obs_clone (junk 4%nat) empty_lhs_v;
  nullable_v ← rhs_closure g nullable_v xrl_list_x_rh_sym;
  bv_for_each (Z.to_nat (XSY_Count_of_G g)) nullable_v 0 census_nullable_symbol (g, 0).

Definition census_productive g (nullable_v terminal_v : Bit_Vector) (xrl_list_x_rh_sym : sym_rules) : res (Bit_Vector * GRAMMAR) :=
  productive_v ← bv_obs_shadow (junk 5%nat) nullable_v;
  productive_v ← bv_or productive_v nullable_v terminal_v;
  productive_v ← rhs_closure g productive_v xrl_list_x_rh_sym;
  bv_for_each (Z.to_nat (XSY_Count_of_G g)) productive_v 0 (fun symid g => upd_xsy g symid (set_XSY_is_Productive true)) g.

Definition census_accessible g (reach_matrix : Bit_Matrix) (start_xsy_id : Z) : res (Bit_Matrix * GRAMMAR) :=
  accessible_v ← matrix_row reach_matrix start_xsy_id;
  r ← bv_for_each (Z.to_nat (XSY_Count_of_G g)) accessible_v 0 (fun symid g => upd_xsy g symid (set_XSY_is_Accessible true)) g;
  g ← upd_xsy r.2 start_xsy_id (set_XSY_is_Accessible true);
  Ok (bm_set_data reach_matrix (bv_words r.1), g).

(** ** Nulling symbols *)

Definition census_nulling_symbol (terminal_v : Bit_Vector) (reach_matrix : Bit_Matrix) (productive_id : Z)
    (c : Bit_Vector * GRAMMAR * bool) : res (Bit_Vector * GRAMMAR * bool) :=
  let '(reaches_terminal_v, g, nulling_terminal_found) := c in
  row ← matrix_row reach_matrix productive_id;
  reaches_terminal_v ← bv_and reaches_terminal_v terminal_v row;
  r ← bv_is_empty reaches_terminal_v;
  if r.1 : bool then
    g ← upd_xsy g productive_id (set_XSY_is_Nulling true);
    symbol ← XSY_by_ID g productive_id;
    if XSY_is_Terminal symbol then Ok (r.2, int_event_new g MARPA_EVENT_NULLING_TERMINAL productive_id, true)
    else Ok (r.2, g, nulling_terminal_found)
  else Ok (r.2, g, nulling_terminal_found).

Definition census_nulling g (lhs_v terminal_v : Bit_Vector) (reach_matrix : Bit_Matrix) : res (GRAMMAR * bool) :=
  reaches_terminal_v ← bv_shadow terminal_v;
  r ← bv_for_each (Z.to_nat (XSY_Count_of_G g)) lhs_v 0 (census_nulling_symbol terminal_v reach_matrix) (reaches_terminal_v, g, false);
  Ok (r.2.1.2, r.2.2).

(** ** What rules inherit *)

(** Of a sequence rule with the item [rh_xsy] and the separator [separator_xsy]. *)
Definition sequence_flags (lhs rh_xsy : XSY) (separator_xsy : option XSY) (xrl : XRL) : XRL :=
  let xrl := set_XRL_is_Accessible (XSY_is_Accessible lhs) xrl in
  let xrl := set_XRL_is_Nullable ((Minimum_of_XRL xrl <=? 0) || XSY_is_Nullable rh_xsy) xrl in
  let xrl := set_XRL_is_Nulling (XSY_is_Nulling rh_xsy) xrl in
  let xrl := set_XRL_is_Productive (XRL_is_Nullable xrl || XSY_is_Productive rh_xsy) xrl in
  let xrl := set_XRL_is_Used (XRL_is_Accessible xrl && XSY_is_Productive rh_xsy) xrl in
  let xrl :=
    match separator_xsy with
    | None => xrl
    | Some separator_xsy =>
      let xrl := if negb (XSY_is_Nulling separator_xsy) then set_XRL_is_Nulling false xrl else xrl in
      if negb (XSY_is_Productive separator_xsy) then set_XRL_is_Used false (set_XRL_is_Productive (XRL_is_Nullable xrl) xrl) else xrl
    end in
  if XRL_is_Nulling xrl then set_XRL_is_Used false xrl else xrl.

(** Of a BNF rule: whether all its symbols are nulling, nullable, productive. *)
Definition bnf_flags (lhs : XSY) (is_nulling is_nullable is_productive : bool) (xrl : XRL) : XRL :=
  let xrl := set_XRL_is_Accessible (XSY_is_Accessible lhs) xrl in
  let xrl := set_XRL_is_Nulling is_nulling xrl in
  let xrl := set_XRL_is_Nullable is_nullable xrl in
  let xrl := set_XRL_is_Productive is_productive xrl in
  set_XRL_is_Used (XRL_is_Accessible xrl && XRL_is_Productive xrl && negb (XRL_is_Nulling xrl)) xrl.

Definition census_rule_flags (xrl_id : Z) g : res GRAMMAR :=
  xrl ← XRL_by_ID g xrl_id;
  lhs_id ← LHS_ID_of_XRL xrl;
  lhs ← XSY_by_ID g lhs_id;
  if XRL_is_Sequence xrl then
    rhs_id ← RHS_ID_of_XRL xrl 0;
    rh_xsy ← XSY_by_ID g rhs_id;
    separator_xsy ← (if Separator_of_XRL xrl >=? 0 then s ← XSY_by_ID g (Separator_of_XRL xrl); Ok (Some s) else Ok None);
    upd_xrl g xrl_id (sequence_flags lhs rh_xsy separator_xsy)
  else
    flags ← for_res (Z.to_nat (Length_of_XRL xrl)) 0 (fun rh_ix c =>
        rhs_id ← RHS_ID_of_XRL xrl rh_ix;
        rh_xsy ← XSY_by_ID g rhs_id;
        let '(is_nulling, is_nullable, is_productive) := c in
        Ok (is_nulling && XSY_is_Nulling rh_xsy, is_nullable && XSY_is_Nullable rh_xsy, is_productive && XSY_is_Productive rh_xsy))
      (true, true, true);
    upd_xrl g xrl_id (bnf_flags lhs flags.1.1 flags.1.2 flags.2).

Definition census_rules_flags g : res GRAMMAR := for_res (Z.to_nat (XRL_Count_of_G g)) 0 census_rule_flags g.

(** ** What a symbol nulls *)

Definition nullification_symbol g (xsyid : Z) (m : Bit_Matrix) : res Bit_Matrix :=
  xsy ← XSY_by_ID g xsyid;
  if XSY_is_Nullable xsy then matrix_bit_set m xsyid xsyid else Ok m.

Definition nullification_rule g (xrlid : Z) (m : Bit_Matrix) : res Bit_Matrix :=
  xrl ← XRL_by_ID g xrlid;
  lhs_id ← LHS_ID_of_XRL xrl;
  if XRL_is_Nullable xrl then
    for_res (Z.to_nat (Length_of_XRL xrl)) 0 (fun rh_ix m => rhs_id ← RHS_ID_of_XRL xrl rh_ix; matrix_bit_set m lhs_id rhs_id) m
  else Ok m.

Definition census_nullification g : res GRAMMAR :=
  let xsy_count := Z.to_nat (XSY_Count_of_G g) in
  m ← matrix_obs_create (junk 6%nat) (XSY_Count_of_G g) (XSY_Count_of_G g);
  m ← for_res xsy_count 0 (nullification_symbol g) m;
  m ← for_res (Z.to_nat (XRL_Count_of_G g)) 0 (nullification_rule g) m;
  m ← transitive_closure m;
  r ← for_res xsy_count 0 (fun xsyid c =>
        let '(m, g) := c in
        row ← matrix_row m xsyid;
        r ← cil_bv_add tree_rounds (t_cilar g) row;
        let '(cil, cilar, row) := r in
        g ← upd_xsy (set_t_cilar cilar g) xsyid (set_Nulled_XSYIDs_of_XSY (Some cil));
        Ok (bm_set_data m (bv_words row), g)) (m, g);
  Ok r.2.

(** ** Cycles *)

(** From [rule_id] to each rule of the symbol. *)
Definition unit_transitions (xrl_list_x_lh_sym : sym_rules) (rule_id nonnullable_id : Z) (m : Bit_Matrix) : res Bit_Matrix :=
  p_xrl ← rd (sr_index xrl_list_x_lh_sym) nonnullable_id;
  p_one_past_rules ← rd (sr_index xrl_list_x_lh_sym) (nonnullable_id + 1);
  for_res (Z.to_nat (p_one_past_rules - p_xrl)) p_xrl (fun i m =>
    to_rule_id ← rd (sr_data xrl_list_x_lh_sym) i; matrix_bit_set m rule_id to_rule_id) m.

Definition unit_rule g (nullable_v : Bit_Vector) (xrl_list_x_lh_sym : sym_rules) (rule_id : Z) (m : Bit_Matrix) : res Bit_Matrix :=
  rule ← XRL_by_ID g rule_id;
  let rule_length := Z.to_nat (Length_of_XRL rule) in
  r ← for_res rule_length 0 (fun rhs_ix c =>
        let '(nonnullable_id, nonnullable_count) := c in
        xsy_id ← RHS_ID_of_XRL rule rhs_ix;
        b ← bv_bit_test nullable_v xsy_id;
        Ok (if b : bool then (nonnullable_id, nonnullable_count) else (xsy_id, nonnullable_count + 1))) (-1, 0);
  let '(nonnullable_id, nonnullable_count) := r in
  if nonnullable_count =? 1 then unit_transitions xrl_list_x_lh_sym rule_id nonnullable_id m
  else if nonnullable_count =? 0 then
    for_res rule_length 0 (fun rhs_ix m =>
      nonnullable_id ← RHS_ID_of_XRL rule rhs_ix;
      xsy ← XSY_by_ID g nonnullable_id;
      if XSY_is_Nulling xsy then Ok m else unit_transitions xrl_list_x_lh_sym rule_id nonnullable_id m) m
  else Ok m.

Definition loop_rule (m : Bit_Matrix) (rule_id : Z) (c : GRAMMAR * Z) : res (GRAMMAR * Z) :=
  let '(g, loop_rule_count) := c in
  b ← matrix_bit_test m rule_id rule_id;
  if b : bool then g ← upd_xrl g rule_id (set_xrl_is_loop true); Ok (g, loop_rule_count + 1)
  else Ok (g, loop_rule_count).

Definition census_loops g (nullable_v : Bit_Vector) (xrl_list_x_lh_sym : sym_rules) : res GRAMMAR :=
  let xrl_count := Z.to_nat (XRL_Count_of_G g) in
  m ← matrix_obs_create (junk 7%nat) (XRL_Count_of_G g) (XRL_Count_of_G g);
  m ← for_res xrl_count 0 (unit_rule g nullable_v xrl_list_x_lh_sym) m;
  m ← transitive_closure m;
  r ← for_res xrl_count 0 (loop_rule m) (g, 0);
  let '(g, loop_rule_count) := r in
  if negb (loop_rule_count =? 0) then Ok (int_event_new (set_t_has_cycle true g) MARPA_EVENT_LOOP_RULES loop_rule_count)
  else Ok g.

(** ** The first part of [marpa_g_precompute]

    What the call returns when it fails; [None] when it goes on, to the rewriting of the
    rules. *)
Definition failed g (code : Z) : res (option Z * GRAMMAR) := Ok (Some failure_indicator, MARPA_ERROR g code).

Definition precompute_census_body g (start_xsy_id : Z) : res (option Z * GRAMMAR) :=
  lists ← census_rules g;
  xrl_list_x_rh_sym ← sym_rule_lists (rl_rhs lists) (XSY_Count_of_G g);
  xrl_list_x_lh_sym ← sym_rule_lists (rl_lhs lists) (XSY_Count_of_G g);
  r ← census_terminals g (rl_lhs_v lists);
  let '(terminal_v, g) := r in
  reach_matrix ← census_reach g;
  r ← census_nullable g (rl_empty_lhs_v lists) xrl_list_x_rh_sym;
  let '(nullable_v, (g, counted_nullables)) := r in
  if negb (counted_nullables =? 0) then failed g MARPA_ERR_COUNTED_NULLABLE
  else
    r ← census_productive g nullable_v terminal_v xrl_list_x_rh_sym;
    let '(productive_v, g) := r in
    b ← bv_bit_test productive_v start_xsy_id;
    if negb b then failed g MARPA_ERR_UNPRODUCTIVE_START
    else
      r ← census_accessible g reach_matrix start_xsy_id;
      let '(reach_matrix, g) := r in
      r ← census_nulling g (rl_lhs_v lists) terminal_v reach_matrix;
      let '(g, nulling_terminal_found) := r in
      if nulling_terminal_found : bool then failed g MARPA_ERR_NULLING_TERMINAL
      else
        g ← census_rules_flags g;
        g ← census_nullification g;
        g ← census_loops g nullable_v xrl_list_x_lh_sym;
        Ok (None, g).

Definition precompute_census g : res (option Z * GRAMMAR) :=
  match fatal_error g with
  | Some (ret, code) => Ok (Some ret, MARPA_ERROR g code)
  | None =>
    let start_xsy_id := t_start_xsy_id g in
    let g := set_t_events [] g in
    if XRL_Count_of_G g <=? 0 then failed g MARPA_ERR_NO_RULES
    else if G_is_Precomputed g then failed g MARPA_ERR_PRECOMPUTED
    else if start_xsy_id <? 0 then failed g MARPA_ERR_NO_START_SYMBOL
    else if negb (xsy_id_is_valid g start_xsy_id) then failed g MARPA_ERR_INVALID_START_SYMBOL
    else
      start ← XSY_by_ID g start_xsy_id;
      if negb (XSY_is_LHS start) then failed g MARPA_ERR_START_NOT_LHS
      else precompute_census_body (set_t_xrl_tree (avl_destroy (t_xrl_tree g)) g) start_xsy_id
  end.
End census.
