(* ===== verification/CensusSpec.v ===== *)
(** * What the census of a grammar computes: the specification

    The language of a grammar, as derivations of strings of terminals, the sequence rules
    standing for all the right-hand sides they abbreviate; and the closure that
    [rhs_closure()] computes, with the two sets the census uses it for: the symbols that
    derive the empty string and the symbols that derive some string. *)
From stdpp Require Import sets gmap list_numbers relations.
From S2P Require Import Prelude MarpaGrammar.

(** ** Rules *)

(** What a rule says, whatever the census has found. *)
Record rule_form : Type := RF { rf_lhs : Z; rf_rhs : list Z; rf_seq : bool; rf_min : Z; rf_sep : Z; rf_proper : bool }.

Definition form_of (r : XRL) : rule_form :=
  RF (default 0 (head (xrl_symbols r))) (tail (xrl_symbols r)) (XRL_is_Sequence r) (Minimum_of_XRL r) (Separator_of_XRL r)
     (XRL_is_Proper_Separation r).

Definition forms_of (g : GRAMMAR) : list rule_form := form_of <$> t_xrl_stack g.

(** The separator, as a list. *)
Definition sep_list (f : rule_form) : list Z := if rf_seq f && (rf_sep f >=? 0) then [rf_sep f] else [].

(** The symbols a rule mentions on its right-hand side. *)
Definition mentions (f : rule_form) : list Z := sep_list f ++ rf_rhs f.

(** [k + 1] items with separators between them. *)
Fixpoint items (f : rule_form) (k : nat) : list Z :=
  match k with O => rf_rhs f | S k => rf_rhs f ++ sep_list f ++ items f k end.

(** The right-hand sides a rule stands for.  The last separator is optional when the
    separation is not proper. *)
Inductive ways (f : rule_form) : list Z -> Prop :=
| ways_bnf : rf_seq f = false -> ways f (rf_rhs f)
| ways_empty : rf_seq f = true -> rf_min f <= 0 -> ways f []
| ways_items k : rf_seq f = true -> rf_min f <= Z.of_nat (S k) -> ways f (items f k)
| ways_trailing k : rf_seq f = true -> rf_min f <= Z.of_nat (S k) -> rf_proper f = false -> ways f (items f k ++ sep_list f).

(** ** The language *)
Section language.
Context (fs : list rule_form).

(** [x] derives the string [w], [T] being the terminals. *)
Inductive derives (T : Z -> Prop) : Z -> list Z -> Prop :=
| derives_terminal x : T x -> derives T x [x]
| derives_rule f ys w : f ∈ fs -> ways f ys -> derives_all T ys w -> derives T (rf_lhs f) w
with derives_all (T : Z -> Prop) : list Z -> list Z -> Prop :=
| derives_nil : derives_all T [] []
| derives_cons y ys w1 w2 : derives T y w1 -> derives_all T ys w2 -> derives_all T (y :: ys) (w1 ++ w2).

Scheme derives_mind := Minimality for derives Sort Prop
  with derives_all_mind := Minimality for derives_all Sort Prop.
Combined Scheme derives_mutual from derives_mind, derives_all_mind.

(** ** The closure *)

(** The symbols [rhs_closure()] asks for before it adds the left-hand side. *)
Definition needs (f : rule_form) : list Z := rf_rhs f ++ (if rf_min f >=? 2 then sep_list f else []).

Inductive closes (B : Z -> Prop) : Z -> Prop :=
| closes_base x : B x -> closes B x
| closes_rule f : f ∈ fs -> (forall y, y ∈ needs f -> closes B y) -> closes B (rf_lhs f).

(** The left-hand sides of [empty_lhs_v]. *)
Definition empty_lhs (x : Z) : Prop :=
  exists f, f ∈ fs /\ rf_lhs f = x /\ (rf_rhs f = [] \/ (rf_seq f = true /\ rf_min f <= 0)).

Lemma closes_mono (B B' : Z -> Prop) x : (forall x, B x -> B' x) -> closes B x -> closes B' x.
Proof. intros HB. induction 1; [by apply closes_base, HB|by apply closes_rule]. Qed.

Lemma closes_idem (B : Z -> Prop) x : closes (closes B) x -> closes B x.
Proof. induction 1; [done|by apply closes_rule]. Qed.

(** A set that contains the base and is closed under the rules contains the closure. *)
Lemma closes_least (B : Z -> Prop) (S : Z -> Prop) :
  (forall x, B x -> S x) -> (forall f, f ∈ fs -> (forall y, y ∈ needs f -> S y) -> S (rf_lhs f)) -> forall x, closes B x -> S x.
Proof. intros HB Hf x. induction 1; auto. Qed.

(** A sequence rule has one item. *)
Definition seq_single : Prop := forall f, f ∈ fs -> rf_seq f = true -> exists y, rf_rhs f = [y].

Lemma elem_of_items f k y : y ∈ items f k <-> y ∈ rf_rhs f \/ ((1 <= k)%nat /\ y ∈ sep_list f).
Proof.
  induction k as [|k IH]; simpl; [split; [by left|intros [?|[]]; [done|lia]]|]. rewrite !elem_of_app, IH. split.
  - intros [?|[?|[?|[??]]]]; auto; right; (split; [lia|done]).
  - intros [?|[_ ?]]; auto.
Qed.

(** A rule has a way with the symbols it needs, and no others. *)
Lemma needs_way f : exists ys, ways f ys /\ forall y, y ∈ ys -> y ∈ needs f.
Proof.
  unfold needs. destruct (rf_seq f) eqn:Hs; [|exists (rf_rhs f); split; [by apply ways_bnf|set_solver]].
  exists (items f (Z.to_nat (rf_min f - 1))). split; [apply ways_items; [done|lia]|].
  intros y [?|[Hk ?]]%elem_of_items; apply elem_of_app; [by left|right]. destruct (Z.geb_spec (rf_min f) 2); [done|lia].
Qed.

(** [B] and the symbols that derive the empty string at once. *)
Definition from (B : Z -> Prop) (x : Z) : Prop := empty_lhs x \/ B x.

(** The symbols a rule needs are in each of its ways but the empty one. *)
Lemma way_closes (B : Z -> Prop) f ys : f ∈ fs -> ways f ys -> (forall y, y ∈ ys -> closes (from B) y) -> closes (from B) (rf_lhs f).
Proof.
  intros Hin Hw Hys. assert (forall k, (1 <= k)%nat \/ rf_min f < 2 -> (forall y, y ∈ items f k -> closes (from B) y) -> closes (from B) (rf_lhs f)) as Hk.
  { intros k Hk Hitems. apply closes_rule; [done|]. unfold needs. intros y [?|Hy]%elem_of_app; apply Hitems, elem_of_items; [by left|right].
    destruct (Z.geb_spec (rf_min f) 2); [split; [lia|done]|by apply elem_of_nil in Hy]. }
  destruct Hw as [Hs|Hs Hm|k Hs Hm|k Hs Hm _].
  - apply closes_rule; [done|]. unfold needs, sep_list. rewrite Hs. intros y. simpl. destruct (rf_min f >=? 2); rewrite app_nil_r; auto.
  - apply closes_base. left. exists f. auto.
  - apply (Hk k); [lia|done].
  - apply (Hk k); [lia|]. intros y Hy. apply Hys, elem_of_app. by left.
Qed.

(** The closure has nothing else: a set with [B] that is closed under the ways contains it. *)
Lemma closes_ways (B : Z -> Prop) (S : Z -> Prop) : seq_single ->
  (forall x, B x -> S x) -> (forall f ys, f ∈ fs -> ways f ys -> (forall y, y ∈ ys -> S y) -> S (rf_lhs f)) ->
  forall x, closes (from B) x -> S x.
Proof.
  intros Hsg HB Hw. apply closes_least.
  - intros x [(f&Hin&<-&Hf)|?]; [|auto]. apply (Hw f []); [done| |set_solver].
    destruct Hf as [Hnil|[Hs Hm]]; [|by apply ways_empty]. rewrite <- Hnil. apply ways_bnf. destruct (rf_seq f) eqn:Hs; [|done].
    destruct (Hsg f Hin Hs) as [y Hy]. by rewrite Hy in Hnil.
  - intros f Hin Hn. destruct (needs_way f) as (ys&Hys&Hsub). apply (Hw f ys); auto.
Qed.

(** ** Nullable and productive symbols *)

Lemma derives_all_intro T ys : (forall y, y ∈ ys -> exists w, derives T y w) -> exists w, derives_all T ys w.
Proof.
  induction ys as [|y ys IH]; intros Hy; [exists []; apply derives_nil|].
  destruct (Hy y ltac:(left)) as [w1 H1], IH as [w2 H2]; [intros z Hz; apply Hy; by right|].
  exists (w1 ++ w2). by apply derives_cons.
Qed.

Lemma derives_all_nil T ys : (forall y, y ∈ ys -> derives T y []) -> derives_all T ys [].
Proof.
  induction ys as [|y ys IH]; intros Hy; [apply derives_nil|].
  apply (derives_cons T y ys [] []); [apply Hy; left|]. apply IH. intros z Hz. apply Hy. by right.
Qed.

(** The closure of [empty_lhs] is the set of the symbols that derive the empty string. *)
Lemma closes_nullable T x : seq_single -> closes (from (fun _ => False)) x <-> derives T x [].
Proof.
  intros Hsg. split.
  - revert x. apply closes_ways; [done|done|]. intros f ys Hin Hw Hys. apply (derives_rule T f ys); [done..|]. by apply derives_all_nil.
  - cut ((forall y w, derives T y w -> w = [] -> closes (from (fun _ => False)) y)
      /\ forall ys w, derives_all T ys w -> w = [] -> forall y, y ∈ ys -> closes (from (fun _ => False)) y).
    { intros [H _]. intros Hd. by apply (H x []). }
    apply derives_mutual; [done| | |].
    + intros f ys w Hin Hw _ IH ->. apply (way_closes _ f ys); auto.
    + intros _ y Hy. by apply elem_of_nil in Hy.
    + intros y ys w1 w2 _ IH1 _ IH2 [-> ->]%app_nil z [->|Hz]%elem_of_cons; auto.
Qed.

(** From the terminals on, it is the set of the symbols that derive some string. *)
Lemma closes_productive T x : seq_single -> closes (from T) x <-> exists w, derives T x w.
Proof.
  intros Hsg. split.
  - revert x. apply closes_ways; [done|intros x Hx; exists [x]; by apply derives_terminal|].
    intros f ys Hin Hw Hys. destruct (derives_all_intro T ys Hys) as [w Hd]. exists w. by apply (derives_rule T f ys).
  - cut ((forall y w, derives T y w -> closes (from T) y) /\ forall ys w, derives_all T ys w -> forall y, y ∈ ys -> closes (from T) y).
    { intros [H _] [w Hd]. by apply (H x w). }
    apply derives_mutual.
    + intros y Hy. apply closes_base. by right.
    + intros f ys w Hin Hw _ IH. by apply (way_closes _ f ys).
    + intros y Hy. by apply elem_of_nil in Hy.
    + intros y ys w1 w2 _ IH1 _ IH2 z [->|Hz]%elem_of_cons; auto.
Qed.

(** ** Reachable symbols *)

(** [y] occurs in a right-hand side of [x]. *)
Definition occurs (x y : Z) : Prop := exists f, f ∈ fs /\ rf_lhs f = x /\ y ∈ mentions f.

Lemma way_mentions f ys y : ways f ys -> y ∈ ys -> y ∈ mentions f.
Proof.
  unfold mentions. destruct 1 as [Hs|Hs Hm|k Hs Hm|k Hs Hm _]; rewrite ?elem_of_app, ?elem_of_items; [by right|by intros ?%elem_of_nil|..]; naive_solver.
Qed.

(** A symbol that is not a terminal and reaches none derives nothing but the empty string. *)
Lemma nulling_derives T x w :
  ~ T x -> (forall t, T t -> ~ tc occurs x t) -> derives T x w -> w = [].
Proof.
  cut ((forall y w, derives T y w -> ~ T y -> (forall t, T t -> ~ tc occurs y t) -> w = [])
    /\ forall ys w, derives_all T ys w -> (forall y, y ∈ ys -> ~ T y /\ forall t, T t -> ~ tc occurs y t) -> w = []).
  { intros [H _] Hx Ht Hd. by apply (H x w). }
  apply derives_mutual; [done| |done|].
  - intros f ys v Hin Hw _ IH Hf Ht. apply IH. intros y Hy.
    assert (occurs (rf_lhs f) y) as Ho by (exists f; eauto using way_mentions).
    split; [intros HT; by apply (Ht y HT), tc_once|]. intros t HT Htc. apply (Ht t HT). by eapply tc_l.
  - intros y ys w1 w2 _ IH1 _ IH2 Hy. destruct (Hy y ltac:(left)) as [H1 H2]. rewrite IH1, IH2; [done| |done|done].
    intros z Hz. apply Hy. by right.
Qed.
End language.
