(* ===== verification/CensusLists.v ===== *)
(** * The census of a grammar: the rules of each symbol

    What the functions of [Census] read of a grammar does not change during the census:
    the rules as forms.  The two trees of pairs hold which symbol is in which rule, and the
    two arrays give the rules of a symbol. *)
From stdpp Require Import sets gmap list_numbers sorting.
From S2P Require Import Prelude Avl AvlTree AvlProbe AvlTheorems AvlTraversal BitVector BitVectorTheorems BitScan MarpaGrammar MarpaGrammarTheorems Census CensusSpec.

(** ** Reading rules *)

Definition shaped (r : XRL) : Prop :=
  xrl_symbols r = rf_lhs (form_of r) :: rf_rhs (form_of r) /\ Length_of_XRL r = Z.of_nat (length (rf_rhs (form_of r))).

(** A rule of a grammar of [n] symbols. *)
Definition form_valid (n : Z) (f : rule_form) : Prop := 0 <= rf_lhs f < n /\ Forall (fun s => 0 <= s < n) (mentions f).

(** [g] has [n] symbols and the rules [fs]. *)
Record has_rules (n : Z) (fs : list rule_form) (g : GRAMMAR) : Prop := {
  hr_count : XSY_Count_of_G g = n;
  hr_forms : forms_of g = fs;
  hr_shaped : Forall shaped (t_xrl_stack g);
  hr_valid : Forall (form_valid n) fs
}.

Lemma rules_count n fs g : has_rules n fs g -> XRL_Count_of_G g = Z.of_nat (length fs).
Proof. intros Hg. rewrite <- (hr_forms _ _ _ Hg). unfold forms_of, XRL_Count_of_G. by rewrite length_fmap. Qed.

Lemma rule_read n fs g i f : has_rules n fs g -> fs !! i = Some f ->
  exists r, XRL_by_ID g (Z.of_nat i) = Ok r /\ t_xrl_stack g !! i = Some r /\ form_of r = f /\ shaped r.
Proof.
  intros Hg Hf. rewrite <- (hr_forms _ _ _ Hg) in Hf. apply list_lookup_fmap_Some in Hf as (r&->&Hr).
  exists r. split_and!; [|done|done|].
  - unfold XRL_by_ID. apply rd_Ok. split; [lia|]. by rewrite Nat2Z.id.
  - pose proof (hr_shaped _ _ _ Hg) as Hs. rewrite Forall_lookup in Hs. by eapply Hs.
Qed.

Lemma lhs_read r : shaped r -> LHS_ID_of_XRL r = Ok (rf_lhs (form_of r)).
Proof. intros [Hs _]. unfold LHS_ID_of_XRL. apply rd_Ok. split; [lia|]. by rewrite Hs. Qed.

Lemma rhs_read r k s : shaped r -> rf_rhs (form_of r) !! k = Some s -> RHS_ID_of_XRL r (Z.of_nat k) = Ok s.
Proof.
  intros [Hs _] Hk. unfold RHS_ID_of_XRL. apply rd_Ok. split; [lia|]. rewrite Hs. by replace (Z.to_nat (Z.of_nat k + 1)) with (S k) by lia.
Qed.

(** A loop over a list by its positions. *)
Lemma for_res_list {A B} (l : list B) i (body1 : Z -> A -> res A) (body2 : B -> A -> res A) acc :
  (forall k x acc, l !! k = Some x -> body1 (i + Z.of_nat k) acc = body2 x acc) -> for_res (length l) i body1 acc = each_res l body2 acc.
Proof.
  revert i acc. induction l as [|x l IH]; intros i acc Hb; [done|]. simpl. rewrite <- (Z.add_0_r i) at 1. rewrite (Hb 0%nat x) by done.
  destruct (body2 x acc); simpl; [|done..]. apply IH. intros k y acc' Hk. rewrite <- (Hb (S k) y acc' Hk). f_equal. lia.
Qed.

(** The loops over the right-hand side of a rule. *)
Lemma rhs_loop {A} r (body1 body2 : Z -> A -> res A) acc : shaped r ->
  (forall ix s acc, RHS_ID_of_XRL r ix = Ok s -> body1 ix acc = body2 s acc) ->
  for_res (Z.to_nat (Length_of_XRL r)) 0 body1 acc = each_res (rf_rhs (form_of r)) body2 acc.
Proof.
  intros Hr Hb. rewrite (proj2 Hr), Nat2Z.id. apply for_res_list. intros k s a Hk. apply Hb. by apply rhs_read.
Qed.

(** The loops over all the rules, with what holds after each of them. *)
Lemma rules_loop {A} n fs g (Q : nat -> A -> Prop) body acc : has_rules n fs g -> Q O acc ->
  (forall i f acc, fs !! i = Some f -> Q i acc -> exists acc', body (Z.of_nat i) acc = Ok acc' /\ Q (S i) acc') ->
  exists acc', for_res (Z.to_nat (XRL_Count_of_G g)) 0 body acc = Ok acc' /\ Q (length fs) acc'.
Proof.
  intros Hg HQ Hb. rewrite (rules_count _ _ _ Hg), Nat2Z.id.
  destruct (for_res_ok (fun j a => Q (Z.to_nat j) a) (length fs) 0 body acc) as (a&Ha&Hq); [done| |].
  - intros j a Hj Ha. destruct (lookup_lt_is_Some_2 fs (Z.to_nat j)) as [f Hf]; [lia|].
    destruct (Hb (Z.to_nat j) f a Hf Ha) as (a'&Hb'&Hq). exists a'. rewrite Z2Nat.id in Hb' by lia. split; [done|].
    by replace (Z.to_nat (j + 1)) with (S (Z.to_nat j)) by lia.
  - exists a. split; [done|]. by replace (length fs) with (Z.to_nat (0 + Z.of_nat (length fs))) by lia.
Qed.

(** ** The trees of pairs *)

#[export] Instance sym_rule_lex : LexCmp sym_rule_cmp (fun p => [t_symid p; t_ruleid p]).
Proof.
  split; intros [x y] [x' y']; unfold sym_rule_cmp; simpl; destruct (Z.eqb_spec (x - x') 0); simpl;
    rewrite !orb_true_iff, !andb_true_iff, !Z.ltb_lt, !Z.eqb_eq; intuition lia.
Qed.
#[export] Instance sym_rule_order : AvlOrder sym_rule_cmp := lex_order sym_rule_cmp (fun p => [t_symid p; t_ruleid p]).

Lemma sym_rule_zero a b : sym_rule_cmp a b = 0 -> a = b.
Proof. intros H. apply (lex_zero sym_rule_cmp (fun p => [t_symid p; t_ruleid p])) in H. destruct a, b. simpl in H. by injection H as -> ->. Qed.

(** [p] holds the pairs [ps], with repetitions in the array only. *)
Definition pairs_rep (size : Z) (ps : list sym_rule_pair) (p : pair_tree) : Prop :=
  pt_size p = size /\ pt_next p = Z.of_nat (length ps)
  /\ exists l, represents sym_rule_cmp (pt_tree p) l /\ (length l <= length ps)%nat /\ forall x, x ∈ l <-> x ∈ ps.

Section pairs.
Context `{Library}.
Context (Hfuel : (MARPA_AVL_MAX_HEIGHT <= tree_rounds)%nat).

Lemma pair_insert_ok size ps p s r :
  pairs_rep size ps p -> Z.of_nat (length ps) < size -> size < SIZE_MOD - 1 ->
  exists p', pair_insert p s r = Ok p' /\ pairs_rep size (ps ++ [SRP s r]) p'.
Proof.
  intros (Hs&Hn&l&Hrep&Hlen&Hin) Hroom Hsize. unfold pair_insert. rewrite Hs, Hn. destruct (Z.ltb_spec (Z.of_nat (length ps)) size); [|lia].
  destruct (probe_inserts sym_rule_cmp (pt_tree p) l (SRP s r) tree_rounds Hrep) as (a&tab&x&Hp&Hx&Hcase);
    [rewrite (represents_count _ _ _ Hrep); lia|done|].
  unfold avl_insert. rewrite Hp. cbn [mbind res_bind fst snd]. rewrite (get_node_Some _ _ _ Hx). cbn [mbind res_bind fst snd].
  eexists. split; [done|]. unfold pairs_rep. simpl. rewrite length_app. simpl. split_and!; [done|lia|].
  destruct Hcase as [(->&Hxl&Hz)|(Hd&Hall&l1&l2&->&Hrep')].
  - exists l. apply sym_rule_zero in Hz. split_and!; [done|lia|]. intros y. rewrite elem_of_app, list_elem_of_singleton, Hin.
    split; [by left|]. intros [?| ->]; [done|]. rewrite Hz. by apply Hin.
  - exists (l1 ++ SRP s r :: l2). rewrite length_app in *. simpl. split_and!; [done|lia|]. intros y.
    rewrite !elem_of_app, elem_of_cons, list_elem_of_singleton, <- Hin, elem_of_app. naive_solver.
Qed.

Lemma pairs_insert_ok size ps p r l :
  pairs_rep size ps p -> Z.of_nat (length ps + length l) <= size -> size < SIZE_MOD - 1 ->
  exists p', each_res l (fun s p => pair_insert p s r) p = Ok p' /\ pairs_rep size (ps ++ ((fun s => SRP s r) <$> l)) p'.
Proof.
  intros Hp Hroom Hsize.
  destruct (each_res_ok (fun l1 p => pairs_rep size (ps ++ ((fun s => SRP s r) <$> l1)) p) l (fun s p => pair_insert p s r) p) as (p'&Hr&Hp').
  - simpl. by rewrite app_nil_r.
  - intros l1 s l2 q Hl Hq. rewrite Hl, length_app in Hroom. simpl in Hroom.
    destruct (pair_insert_ok size _ q s r Hq) as (q'&Hi&Hq'); [rewrite length_app, length_fmap; lia|done|].
    exists q'. split; [done|]. rewrite fmap_app, app_assoc. done.
  - by exists p'.
Qed.
End pairs.

(** The pairs of a grammar, [m] being the symbols of a rule. *)
Definition rule_pairs (m : rule_form -> list Z) (fs : list rule_form) : list sym_rule_pair :=
  mjoin (imap (fun i f => (fun s => SRP s (Z.of_nat i)) <$> m f) fs).

Lemma rule_pairs_snoc m fs f : rule_pairs m (fs ++ [f]) = rule_pairs m fs ++ ((fun s => SRP s (Z.of_nat (length fs))) <$> m f).
Proof. unfold rule_pairs. rewrite imap_app, join_app. simpl. by rewrite app_nil_r, Nat.add_0_r. Qed.

Lemma rule_pairs_take m fs i f : fs !! i = Some f ->
  rule_pairs m (take (S i) fs) = rule_pairs m (take i fs) ++ ((fun s => SRP s (Z.of_nat i)) <$> m f).
Proof.
  intros Hf. rewrite (take_S_r _ _ _ Hf), rule_pairs_snoc, length_take_le; [done|]. apply lookup_lt_Some in Hf. lia.
Qed.

Lemma rule_pairs_room m fs i f : fs !! i = Some f -> (length (rule_pairs m (take i fs)) + length (m f) <= length (rule_pairs m fs))%nat.
Proof.
  intros Hf. rewrite <- (take_drop (S i) fs) at 2. unfold rule_pairs at 2. rewrite imap_app, join_app, length_app.
  change (mjoin (imap _ (take (S i) fs))) with (rule_pairs m (take (S i) fs)).
  rewrite (rule_pairs_take m fs i f Hf), length_app, length_fmap. lia.
Qed.

Lemma elem_of_rule_pairs m fs s r : SRP s r ∈ rule_pairs m fs <-> exists i f, r = Z.of_nat i /\ fs !! i = Some f /\ s ∈ m f.
Proof.
  unfold rule_pairs. rewrite list_elem_of_join. split.
  - intros (l&Hl&(i&f&->&Hf)%elem_of_lookup_imap). apply list_elem_of_fmap in Hl as (x&[= -> ->]&Hx). eauto.
  - intros (i&f&->&Hf&Hs). eexists. split; [|apply elem_of_lookup_imap; exists i, f; done]. apply list_elem_of_fmap. eauto.
Qed.

(** ** From a tree to an array *)

(** How many pairs have a symbol below [s]. *)
Definition pairs_below (s : Z) (l : list sym_rule_pair) : nat := length (filter (fun p => t_symid p < s) l).

Lemma sorted_split s l : StronglySorted (fun x y => t_symid x <= t_symid y) l ->
  l = filter (fun p => t_symid p < s) l ++ filter (fun p => s <= t_symid p) l.
Proof.
  induction 1 as [|x l Hl IH Hx]; [done|]. rewrite !filter_cons. destruct (decide (t_symid x < s)) as [Hlt|Hge].
  - rewrite decide_False by lia. simpl. by f_equal.
  - rewrite decide_True by lia. assert (forall P : sym_rule_pair -> Prop, forall D : (forall x, Decision (P x)), (forall y, y ∈ l -> ~ P y) -> filter P l = []) as Hnil.
    { intros P D HP. clear -HP. induction l as [|y l IH]; [done|]. rewrite filter_cons_False by (apply HP; left). apply IH. intros z Hz. apply HP. by right. }
    rewrite Forall_forall in Hx. assert (filter (fun p => t_symid p < s) l = []) as E.
    { apply Hnil. intros y Hy. specialize (Hx y Hy). lia. }
    rewrite E in *. simpl in *. by f_equal.
Qed.

Lemma pairs_sorted (l : list sym_rule_pair) :
  StronglySorted (fun x y => sym_rule_cmp x y < 0) l -> StronglySorted (fun x y => t_symid x <= t_symid y) l.
Proof.
  induction 1 as [|x l Hl IH Hx]; constructor; [done|]. eapply Forall_impl; [exact Hx|]. intros y. simpl. unfold sym_rule_cmp.
  destruct (Z.eqb_spec (t_symid x - t_symid y) 0); simpl; lia.
Qed.

(** The rules of [s] in the array, from the positions [pairs_below] gives. *)
Lemma sorted_slice s l : StronglySorted (fun x y => t_symid x <= t_symid y) l ->
  exists l1 l2 l3, l = l1 ++ l2 ++ l3 /\ length l1 = pairs_below s l /\ (length l1 + length l2)%nat = pairs_below (s + 1) l
    /\ forall p, p ∈ l2 <-> p ∈ l /\ t_symid p = s.
Proof.
  intros Hl. pose proof (sorted_split s l Hl) as H1. pose proof (sorted_split (s + 1) l Hl) as H2.
  exists (filter (fun p => t_symid p < s) l), (filter (fun p => t_symid p = s) l), (filter (fun p => s + 1 <= t_symid p) l).
  assert (filter (fun p => t_symid p < s) l ++ filter (fun p => t_symid p = s) l = filter (fun p => t_symid p < s + 1) l) as E.
  { pose proof (StronglySorted_filter' (fun x y => t_symid x <= t_symid y) (fun p => t_symid p < s + 1) l Hl) as Hl'.
    rewrite (sorted_split s _ Hl'), !list_filter_filter. f_equal; apply list_filter_iff; intros x; lia. }
  split_and!.
  - rewrite app_assoc, E. exact H2.
  - done.
  - unfold pairs_below. rewrite <- length_app. by rewrite E.
  - intros p. rewrite list_elem_of_filter. tauto.
Qed.

Definition lists_rep (n : Z) (ps : list sym_rule_pair) (x : sym_rules) : Prop :=
  forall s, 0 <= s < n -> exists b ids,
    rd (sr_index x) s = Ok b /\ rd (sr_index x) (s + 1) = Ok (b + Z.of_nat (length ids))
    /\ (forall k r, ids !! k = Some r -> rd (sr_data x) (b + Z.of_nat k) = Ok r)
    /\ forall r, r ∈ ids <-> SRP s r ∈ ps.

(** The loops over the rules of a symbol. *)
Lemma lists_loop {A} (x : sym_rules) b ids (body : Z -> A -> res A) acc :
  (forall k r, ids !! k = Some r -> rd (sr_data x) (b + Z.of_nat k) = Ok r) ->
  for_res (Z.to_nat (b + Z.of_nat (length ids) - b)) b (fun i acc => r ← rd (sr_data x) i; body r acc) acc = each_res ids body acc.
Proof.
  intros Hids. replace (Z.to_nat (b + Z.of_nat (length ids) - b)) with (length ids) by lia. apply for_res_list.
  intros k r a Hk. by rewrite (Hids k r Hk).
Qed.

Lemma index_upto_ok capacity symid x :
  symid < capacity -> Z.of_nat (length (sr_index x)) <= capacity ->
  index_upto capacity symid x
  = Ok (SR (sr_data x) (sr_index x ++ replicate (Z.to_nat (symid + 1 - Z.of_nat (length (sr_index x)))) (Z.of_nat (length (sr_data x))))).
Proof.
  intros Hs Hc. unfold index_upto. set (len := Z.of_nat (length (sr_index x))).
  destruct (for_res_ok (fun j index => index = sr_index x ++ replicate (Z.to_nat j) (Z.of_nat (length (sr_data x))))
    (Z.to_nat (symid - (len - 1))) 0 (fun _ index => store_next capacity index (Z.of_nat (length (sr_data x)))) (sr_index x)) as (index&Hr&->).
  - simpl. by rewrite app_nil_r.
  - intros j acc Hj ->. unfold store_next. rewrite length_app, length_replicate. destruct (Z.ltb_spec (Z.of_nat (length (sr_index x) + Z.to_nat j)) capacity); [|lia].
    eexists. split; [done|]. rewrite <- app_assoc. f_equal. replace (Z.to_nat (j + 1)) with (S (Z.to_nat j)) by lia. by rewrite replicate_S_end.
  - rewrite Hr. cbn [mbind res_bind]. do 4 f_equal. lia.
Qed.

Section arrays.
Context `{Library}.
Context (Hfuel : (MARPA_AVL_MAX_HEIGHT <= tree_rounds)%nat).

(** The array after the pairs [l1] of [l]. *)
Definition arrayed (n : Z) (l l1 : list sym_rule_pair) (x : sym_rules) : Prop :=
  sr_data x = t_ruleid <$> l1 /\ Z.of_nat (length (sr_index x)) <= n
  /\ sr_index x = (fun s => Z.of_nat (pairs_below s l)) <$> seqZ 0 (Z.of_nat (length (sr_index x)))
  /\ Forall (fun p => t_symid p < Z.of_nat (length (sr_index x))) l1.

Lemma seqZ_const (f : Z -> Z) m k c : (forall s, m <= s < m + Z.of_nat k -> f s = c) -> f <$> seqZ m (Z.of_nat k) = replicate k c.
Proof.
  revert m. induction k as [|k IH]; intros m Hf; [done|]. rewrite seqZ_cons by lia. simpl.
  rewrite (Hf m) by lia. f_equal. replace (Z.pred (Z.of_nat (S k))) with (Z.of_nat k) by lia. apply IH. intros s Hs. apply Hf. lia.
Qed.

(** Storing the position for the symbols up to [symid]: all the pairs seen are below them,
    all the others are not. *)
Lemma arrayed_upto n l l1 l2 x symid :
  l = l1 ++ l2 -> Forall (fun p => symid <= t_symid p) l2 -> symid <= n -> arrayed n l l1 x ->
  exists x', index_upto (n + 1) symid x = Ok x' /\ sr_data x' = sr_data x
    /\ Z.of_nat (length (sr_index x')) = Z.max (Z.of_nat (length (sr_index x))) (symid + 1)
    /\ sr_index x' = (fun s => Z.of_nat (pairs_below s l)) <$> seqZ 0 (Z.of_nat (length (sr_index x')))
    /\ Forall (fun p => t_symid p < Z.of_nat (length (sr_index x'))) l1.
Proof.
  intros -> Hl2 Hs (Hd&Hle&Hi&Hl1). rewrite index_upto_ok by lia. eexists. split; [done|]. cbn [sr_data sr_index].
  rewrite length_app, length_replicate. set (len := length (sr_index x)) in *. split_and!; [done|lia| |].
  - rewrite Hi, Nat2Z.inj_add, seqZ_app, fmap_app by lia.
    f_equal. rewrite Z.add_0_l. symmetry. apply seqZ_const. intros s Hrange. rewrite Hd, length_fmap. f_equal.
    unfold pairs_below. rewrite list.filter_app.
    replace (filter (fun p => t_symid p < s) l1) with l1; [replace (filter (fun p => t_symid p < s) l2) with (@nil sym_rule_pair); [by rewrite app_nil_r|]|].
    + symmetry. clear -Hl2 Hrange. induction Hl2 as [|p l Hp _ IH]; [done|]. rewrite filter_cons_False by lia. done.
    + clear -Hl1 Hrange. induction Hl1 as [|p l Hp _ IH]; [done|]. rewrite filter_cons_True by lia. by f_equal.
  - eapply Forall_impl; [exact Hl1|]. simpl. lia.
Qed.

Lemma list_pairs_ok fuel tree size n l1 l2 traverser l x :
  represents sym_rule_cmp tree l -> avl_count tree < SIZE_MOD -> l = l1 ++ l2 -> (length l2 <= fuel)%nat -> Z.of_nat (length l) <= size ->
  Forall (fun p => t_symid p < n) l -> moved_to sym_rule_cmp tree traverser l1 l2 -> arrayed n l l1 x ->
  exists x', list_pairs fuel tree size n (head l2) traverser x = Ok x' /\ arrayed n l l x'.
Proof.
  intros Hrep Hcount. assert (StronglySorted (fun x y => t_symid x <= t_symid y) l) as Hsort.
  { destruct Hrep as (t&Ht&<-). apply pairs_sorted, (rep_sorted _ _ _ Ht). }
  revert fuel l1 traverser x. induction l2 as [|p l2 IH]; intros fuel l1 traverser x Hl Hfl Hsize Hn Hpos Hx.
  { exists x. rewrite app_nil_r in Hl. rewrite <- Hl in Hx. by destruct fuel. }
  destruct fuel as [|fuel]; [simpl in Hfl; lia|]. cbn [list_pairs head].
  assert (Forall (fun q => t_symid p <= t_symid q) (p :: l2)) as Hge.
  { rewrite Hl in Hsort. apply StronglySorted_app_1_r in Hsort as Hs.
    inversion Hs as [|? ? _ Hp]. constructor; [lia|done]. }
  assert (t_symid p < n) as Hp. { rewrite Forall_forall in Hn. apply Hn. rewrite Hl. apply elem_of_app. right. left. }
  destruct (arrayed_upto n l l1 (p :: l2) x (t_symid p)) as (x1&Hu&Hd&Hlen&Hi&Hb); [done|done|lia|done|].
  rewrite Hu. cbn [mbind res_bind]. unfold store_next. rewrite Hd, (proj1 Hx), length_fmap.
  destruct (Z.ltb_spec (Z.of_nat (length l1)) size); [|rewrite Hl, length_app in Hsize; simpl in Hsize; lia]. cbn [mbind res_bind].
  destruct (next_ok sym_rule_cmp tree_rounds tree traverser l1 p l2) as (trav'&Hnext&Hpos'); [done..|].
  rewrite Hnext. cbn [mbind res_bind fst snd].
  apply (IH fuel (l1 ++ [p])); [by rewrite <- app_assoc|simpl in Hfl; lia|done|done|done|].
  unfold arrayed. cbn [sr_data sr_index]. split_and!; [by rewrite fmap_app|destruct Hx as (_&?&_); lia|done|].
  apply Forall_app. split; [done|]. constructor; [lia|constructor].
Qed.

(** The whole of it: the array of a tree of pairs gives the rules of each symbol. *)
Lemma sym_rule_lists_ok n size ps p :
  0 <= n -> pairs_rep size ps p -> Z.of_nat (length ps) <= size -> Z.of_nat (length ps) < SIZE_MOD -> Forall (fun p => 0 <= t_symid p < n) ps ->
  exists x, sym_rule_lists p n = Ok x /\ lists_rep n ps x.
Proof.
  intros Hn (Hsz&_&l&Hrep&Hlen&Hin) Hsize Hmod Hps. unfold sym_rule_lists.
  assert (Forall (fun p => t_symid p < n) l) as Hl. { rewrite Forall_forall in *. intros q Hq%Hin. by apply Hps. }
  assert (avl_count (pt_tree p) < SIZE_MOD) as Hcount by (rewrite (represents_count _ _ _ Hrep); lia).
  pose proof Hrep as (t&Ht&Hinorder).
  destruct (t_first_ok sym_rule_cmp tree_rounds (pt_tree p) t (avl_t_init (pt_tree p))) as (trav&Hf&Hm); [done..|].
  rewrite Hf. cbn [mbind res_bind fst snd]. rewrite Hinorder in *.
  destruct (list_pairs_ok (Z.to_nat (pt_size p)) (pt_tree p) (pt_size p) n [] l trav l (SR [] [])) as (x&Hx&Hd&Hle&Hi&Hb);
    [done|done|done|lia|lia|done|done|by split_and!|].
  rewrite Hx. cbn [mbind res_bind].
  destruct (arrayed_upto n l l [] x n) as (x'&Hu&Hd'&Hlen'&Hi'&_); [by rewrite app_nil_r|constructor|lia|by split_and!|].
  exists x'. split; [done|]. intros s Hs.
  assert (Z.of_nat (length (sr_index x')) = n + 1) as En by lia.
  assert (forall s, 0 <= s <= n -> rd (sr_index x') s = Ok (Z.of_nat (pairs_below s l))) as Hrd.
  { intros k Hk. apply rd_Ok. split; [lia|]. rewrite Hi', En, list_lookup_fmap.
    rewrite (proj2 (lookup_seqZ 0 (n + 1) (Z.to_nat k) k)) by lia. done. }
  destruct (sorted_slice s l) as (l1&l2&l3&El&H1&H2&H3). { apply pairs_sorted. rewrite <- Hinorder. apply (rep_sorted _ _ _ Ht). }
  exists (Z.of_nat (pairs_below s l)), (t_ruleid <$> l2). rewrite length_fmap. split_and!.
  - apply Hrd. lia.
  - rewrite Hrd by lia. f_equal. lia.
  - intros k r Hk. apply list_lookup_fmap_Some in Hk as (q&->&Hq). apply rd_Ok. split; [lia|]. rewrite Hd', Hd, list_lookup_fmap.
    replace (Z.to_nat (Z.of_nat (pairs_below s l) + Z.of_nat k)) with (length l1 + k)%nat by lia.
    rewrite El, lookup_app_r, Nat.add_comm, Nat.add_sub by lia. rewrite lookup_app_l by (by eapply lookup_lt_Some). by rewrite Hq.
  - intros r. rewrite list_elem_of_fmap. split.
    + intros (q&->&[Hq <-]%H3). apply Hin in Hq. by destruct q.
    + intros Hq%Hin. exists (SRP s r). split; [done|]. by apply H3.
Qed.
End arrays.
