(* ===== verification/CensusClosure.v ===== *)
(** * The census of a grammar: the first pass over the rules, and [rhs_closure()] *)
From stdpp Require Import sets gmap list_numbers sorting.
From S2P Require Import Prelude Avl AvlTree AvlProbe AvlTheorems AvlTraversal BitVector BitVectorTheorems BitScan MarpaGrammar MarpaGrammarTheorems Census CensusSpec CensusLists.

Lemma elem_of_take_S {A} (l : list A) i x y : l !! i = Some x -> y ∈ take (S i) l <-> y ∈ take i l \/ y = x.
Proof. intros Hx. by rewrite (take_S_r _ _ _ Hx), elem_of_app, list_elem_of_singleton. Qed.

Lemma exists_take_S {A} (P : A -> Prop) (l : list A) i x : l !! i = Some x ->
  (exists y, y ∈ take (S i) l /\ P y) <-> (exists y, y ∈ take i l /\ P y) \/ P x.
Proof.
  intros Hx. split.
  - intros (y&Hy&HP). apply (elem_of_take_S _ _ _ _ Hx) in Hy as [Hy| ->]; [left; by exists y|by right].
  - intros [(y&Hy&HP)|HP]; [exists y|exists x]; (split; [|done]); apply (elem_of_take_S _ _ _ _ Hx); [by left|by right].
Qed.

Lemma form_valid_mentions n f s : form_valid n f -> s ∈ mentions f -> 0 <= s < n.
Proof. intros [_ Hf]. rewrite Forall_forall in Hf. apply Hf. Qed.

Lemma sep_mentions f : rf_seq f = true -> 0 <= rf_sep f -> rf_sep f ∈ mentions f.
Proof. intros Hs Hp. unfold mentions, sep_list. rewrite Hs. destruct (Z.geb_spec (rf_sep f) 0); [left|lia]. Qed.

Lemma rhs_mentions f s : s ∈ rf_rhs f -> s ∈ mentions f.
Proof. intros. apply elem_of_app. by right. Qed.

(** ** The first pass *)
Section pass.
Context `{Library}.
Context (Hfuel : (MARPA_AVL_MAX_HEIGHT <= tree_rounds)%nat).
Context (n : Z) (fs : list rule_form) (g : GRAMMAR) (Hg : has_rules n fs g).

Lemma form_lookup i f : fs !! i = Some f -> form_valid n f.
Proof. intros Hf. pose proof (hr_valid _ _ _ Hg) as Hv. rewrite Forall_lookup in Hv. by eapply Hv. Qed.

(** After the rules [fs']. *)
Record lists_at (size : Z) (fs' : list rule_form) (c : rule_lists) : Prop := {
  la_lhs : exists S, bv_rep (rl_lhs_v c) n S /\ forall x, x ∈ S <-> exists f, f ∈ fs' /\ rf_lhs f = x;
  la_empty : exists E, bv_rep (rl_empty_lhs_v c) n E /\ forall x, x ∈ E <-> empty_lhs fs' x;
  la_rhs : pairs_rep size (rule_pairs mentions fs') (rl_rhs c);
  la_lhs_pairs : pairs_rep (Z.of_nat (length fs)) (rule_pairs (fun f => [rf_lhs f]) fs') (rl_lhs c)
}.

Lemma bit_set_if (b : bool) v S s : bv_rep v n S -> 0 <= s < n ->
  exists v', (if b then bv_bit_set v s else Ok v) = Ok v' /\ bv_rep v' n (if b then {[s]} ∪ S else S).
Proof. intros Hv Hs. destruct b; [|by exists v]. destruct (bv_bit_set_ok v n S s Hv Hs) as (v'&?&?&_). by exists v'. Qed.

Lemma rule_pairs_lhs fs' : length (rule_pairs (fun f => [rf_lhs f]) fs') = length fs'.
Proof. induction fs' as [|f l IH] using rev_ind; [done|]. rewrite rule_pairs_snoc, !length_app, IH. done. Qed.

Lemma census_rule_ok size i f c :
  fs !! i = Some f -> Z.of_nat (length (rule_pairs mentions fs)) <= size -> size < SIZE_MOD - 1 -> Z.of_nat (length fs) < SIZE_MOD - 1 ->
  lists_at size (take i fs) c -> exists c', census_rule g (Z.of_nat i) c = Ok c' /\ lists_at size (take (S i) fs) c'.
Proof using Hfuel Hg.
  intros Hf Hsize Hmod Hmodl [(S1&HS1&ES1) (E1&HE1&EE1) Hrhs Hlhs]. destruct (rule_read n fs g i f Hg Hf) as (r&Hr&_&Hform&Hsh).
  pose proof (form_lookup i f Hf) as [Hlv Hmv]. pose proof (lookup_lt_Some _ _ _ Hf) as Hi.
  unfold census_rule. cbv zeta. rewrite Hr. cbn [mbind res_bind]. rewrite (lhs_read r Hsh), Hform. cbn [mbind res_bind].
  destruct (bv_bit_set_ok _ n S1 (rf_lhs f) HS1 Hlv) as (lhs_v&->&HS2&_). cbn [mbind res_bind].
  pose proof (rule_pairs_take (fun f => [rf_lhs f]) fs i f Hf) as Etl. pose proof (rule_pairs_take mentions fs i f Hf) as Etr.
  pose proof (rule_pairs_room mentions fs i f Hf) as Hroom.
  destruct (pair_insert_ok Hfuel _ _ _ (rf_lhs f) (Z.of_nat i) Hlhs) as (lhs&->&Hlhs'); [rewrite rule_pairs_lhs, length_take_le; lia|done|]. cbn [mbind res_bind].
  assert (XRL_is_Sequence r = rf_seq f /\ Minimum_of_XRL r = rf_min f /\ Separator_of_XRL r = rf_sep f) as (->&->&->) by (by rewrite <- Hform).
  destruct (bit_set_if (rf_seq f && (rf_min f <=? 0)) _ E1 (rf_lhs f) HE1 Hlv) as (e1&->&HE2). cbn [mbind res_bind].
  assert ((if rf_seq f && (rf_sep f >=? 0) then pair_insert (rl_rhs c) (rf_sep f) (Z.of_nat i) else Ok (rl_rhs c))
    = each_res (sep_list f) (fun s p => pair_insert p s (Z.of_nat i)) (rl_rhs c)) as ->.
  { unfold sep_list. destruct (rf_seq f && (rf_sep f >=? 0)); [|done]. simpl. by destruct (pair_insert _ _ _). }
  assert (forall x, empty_lhs (take (S i) fs) x <-> empty_lhs (take i fs) x \/ (rf_lhs f = x /\ (rf_rhs f = [] \/ (rf_seq f = true /\ rf_min f <= 0)))) as Hempty.
  { intros x. by apply (exists_take_S (fun f => rf_lhs f = x /\ (rf_rhs f = [] \/ (rf_seq f = true /\ rf_min f <= 0)))). }
  assert (forall x, (exists f', f' ∈ take (S i) fs /\ rf_lhs f' = x) <-> (exists f', f' ∈ take i fs /\ rf_lhs f' = x) \/ rf_lhs f = x) as Hlhs2.
  { intros x. by apply (exists_take_S (fun f => rf_lhs f = x)). }
  assert (forall x, x ∈ {[rf_lhs f]} ∪ S1 <-> exists f', f' ∈ take (S i) fs /\ rf_lhs f' = x) as ES2 by (intros x; rewrite Hlhs2, <- ES1; set_solver).
  pose proof (proj2 Hsh) as Hlength. rewrite Hform in Hlength. cbn in Etl. rewrite <- Etl in Hlhs'.
  destruct (pairs_insert_ok Hfuel size _ (rl_rhs c) (Z.of_nat i) (mentions f) Hrhs) as (p'&Hp&Hp'); [lia|done|].
  unfold mentions at 1 in Hp. rewrite each_res_app in Hp. apply bind_Ok in Hp as (p1&Hp1&Hp2). rewrite Hp1. cbn [mbind res_bind].
  rewrite (rhs_loop r _ (fun s p => pair_insert p s (Z.of_nat i))) by (try done; intros ix s p Hs; by rewrite Hs). rewrite Hform, Hlength.
  rewrite <- Etr in Hp'. destruct (Z.leb_spec (Z.of_nat (length (rf_rhs f))) 0) as [Hz|Hz].
  - assert (rf_rhs f = []) as Hnil by (destruct (rf_rhs f); [done|simpl in Hz; lia]).
    destruct (bv_bit_set_ok _ n _ (rf_lhs f) HE2 Hlv) as (e2&->&HE3&_). cbn [mbind res_bind]. rewrite Hnil in Hp2. injection Hp2 as <-.
    eexists. split; [done|]. split; cbn [rl_lhs_v rl_empty_lhs_v rl_rhs rl_lhs]; [eauto| |done|done].
    eexists. split; [exact HE3|]. intros x. rewrite Hempty, <- EE1. destruct (rf_seq f && (rf_min f <=? 0)); set_solver.
  - rewrite Hp2. cbn [mbind res_bind]. eexists. split; [done|]. split; cbn [rl_lhs_v rl_empty_lhs_v rl_rhs rl_lhs]; [eauto| |done|done].
    eexists. split; [exact HE2|]. intros x. rewrite Hempty, <- EE1.
    assert (rf_rhs f <> []) as Hnil by (intros E; rewrite E in Hz; simpl in Hz; lia).
    destruct (rf_seq f) eqn:Hs, (Z.leb_spec (rf_min f) 0); simpl; rewrite ?elem_of_union, ?elem_of_singleton; intuition (congruence || lia).
Qed.

(** The whole pass. *)
Lemma census_rules_ok junk size :
  0 <= n <= INT_MAX -> to_size_t (External_Size_of_G g) = size -> Z.of_nat (length (rule_pairs mentions fs)) <= size -> size < SIZE_MOD - 1 ->
  Z.of_nat (length fs) < SIZE_MOD - 1 ->
  exists c, census_rules junk g = Ok c /\ lists_at size fs c.
Proof using Hfuel Hg.
  intros Hn Hext Hsize Hmod Hmodl. unfold census_rules. rewrite (hr_count _ _ _ Hg), Hext.
  destruct (bv_obs_create_ok (junk 0%nat) n Hn) as (v1&->&H1). cbn [mbind res_bind].
  rewrite (bv_obs_shadow_ok _ _ _ _ H1). destruct (bv_obs_create_ok (junk 1%nat) n Hn) as (v2&->&H2). cbn [mbind res_bind].
  destruct (rules_loop n fs g (fun i c => lists_at size (take i fs) c) (census_rule g)
    (RL v1 v2 (PT avl_create 0 size) (PT avl_create 0 (XRL_Count_of_G g)))) as (c&Hc&Hat); [done| |intros; by eapply census_rule_ok|].
  - rewrite (rules_count _ _ _ Hg), take_0. split; cbn [rl_lhs_v rl_empty_lhs_v rl_rhs rl_lhs].
    + exists ∅. split; [done|]. set_solver.
    + exists ∅. split; [done|]. unfold empty_lhs. set_solver.
    + split_and!; [done..|]. exists []. split_and!; [apply represents_empty|done|done].
    + split_and!; [done..|]. exists []. split_and!; [apply represents_empty|done|done].
  - rewrite firstn_all in Hat. by exists c.
Qed.

Lemma mentions_range : Forall (fun p => 0 <= t_symid p < n) (rule_pairs mentions fs).
Proof using Hg.
  apply Forall_forall. intros [s r] (i&f&_&Hf&Hs)%elem_of_rule_pairs. by eapply form_valid_mentions; [apply (form_lookup i)|].
Qed.

Lemma lhs_range : Forall (fun p => 0 <= t_symid p < n) (rule_pairs (fun f => [rf_lhs f]) fs).
Proof using Hg.
  apply Forall_forall. intros [s r] (i&f&_&Hf&Hs)%elem_of_rule_pairs. apply list_elem_of_singleton in Hs as ->. by apply (form_lookup i f).
Qed.
End pass.

(** ** The closure *)
Section closure.
Context `{Library}.
Context (n : Z) (fs : list rule_form) (g : GRAMMAR) (Hg : has_rules n fs g).
Context (x : sym_rules) (Hx : lists_rep n (rule_pairs mentions fs) x).

Lemma rhs_all_set_ok r bv S : shaped r -> bv_rep bv n S -> form_valid n (form_of r) ->
  rhs_all_set (Z.to_nat (Length_of_XRL r)) 0 r bv = Ok (bool_decide (Forall (fun s => s ∈ S) (rf_rhs (form_of r)))).
Proof.
  intros Hr Hbv Hv. rewrite (proj2 Hr), Nat2Z.id.
  assert (forall l k, rf_rhs (form_of r) = take k (rf_rhs (form_of r)) ++ l -> (k + length l = length (rf_rhs (form_of r)))%nat ->
    rhs_all_set (length l) (Z.of_nat k) r bv = Ok (bool_decide (Forall (fun s => s ∈ S) l))) as Hgen; [|apply (Hgen _ 0%nat); done].
  induction l as [|s l IH]; intros k Hk Hlen; [by rewrite bool_decide_true by constructor|]. cbn [rhs_all_set length].
  assert (rf_rhs (form_of r) !! k = Some s) as Hs.
  { assert (length (take k (rf_rhs (form_of r))) = k) as Ht by (rewrite length_take; cbn [length] in Hlen; lia).
    rewrite Hk, lookup_app_r by lia. by rewrite Ht, Nat.sub_diag. }
  rewrite (rhs_read r k s Hr Hs). cbn [mbind res_bind].
  rewrite (bv_bit_test_ok bv n S s Hbv) by (eapply form_valid_mentions; [done|]; apply rhs_mentions; by eapply list_elem_of_lookup_2).
  cbn [mbind res_bind]. destruct (bool_decide_reflect (s ∈ S)) as [Hin|Hin].
  - replace (Z.of_nat k + 1) with (Z.of_nat (Datatypes.S k)) by lia. rewrite IH.
    + f_equal. apply bool_decide_ext. rewrite Forall_cons. tauto.
    + rewrite Hk at 1. rewrite (take_S_r _ _ _ Hs), <- app_assoc. simpl. done.
    + cbn [length] in Hlen. lia.
  - rewrite bool_decide_false; [done|]. rewrite Forall_cons. tauto.
Qed.

Lemma bool_decide_forall_app (S : gset Z) l1 l2 :
  bool_decide (Forall (fun s => s ∈ S) (l1 ++ l2)) = bool_decide (Forall (fun s => s ∈ S) l1) && bool_decide (Forall (fun s => s ∈ S) l2).
Proof. rewrite <- bool_decide_and. apply bool_decide_ext. apply Forall_app. Qed.

(** One rule: when the vector has what it needs and not its left-hand side, that is set and
    pushed. *)
Lemma rhs_closure_rule_ok i f bv S stack : fs !! i = Some f -> bv_rep bv n S -> Z.of_nat (length stack) < n \/ rf_lhs f ∈ S ->
  exists bv', rhs_closure_rule g (Z.of_nat i) (bv, stack)
    = Ok (if bool_decide ((rf_lhs f ∉ S) /\ Forall (fun s => s ∈ S) (needs f)) then (bv', rf_lhs f :: stack) else (bv, stack))
    /\ bv_rep bv' n ({[rf_lhs f]} ∪ S).
Proof.
  intros Hf Hbv Hroom. destruct (rule_read n fs g i f Hg Hf) as (r&Hr&_&Hform&Hsh).
  assert (form_valid n f) as Hv by by eapply form_lookup. pose proof Hv as [Hlv _].
  destruct (bv_bit_set_ok bv n S (rf_lhs f) Hbv Hlv) as (bv'&Hset&Hbv'&_). exists bv'. split; [|done].
  unfold rhs_closure_rule. rewrite Hr. cbn [mbind res_bind]. rewrite (lhs_read r Hsh), Hform. cbn [mbind res_bind].
  rewrite (bv_bit_test_ok bv n S _ Hbv Hlv). cbn [mbind res_bind].
  destruct (bool_decide_reflect (rf_lhs f ∈ S)) as [Hin|Hnin]; [rewrite bool_decide_false by tauto; done|].
  rewrite (rhs_all_set_ok r bv S Hsh Hbv) by by rewrite Hform. rewrite Hform. cbn [mbind res_bind].
  assert (XRL_is_Sequence r = rf_seq f /\ Minimum_of_XRL r = rf_min f /\ Separator_of_XRL r = rf_sep f) as (->&->&->) by (by rewrite <- Hform).
  assert ((if rf_seq f && (rf_min f >=? 2) && (rf_sep f >=? 0) then bv_bit_test bv (rf_sep f) else Ok true)
    = Ok (bool_decide (Forall (fun s => s ∈ S) (if rf_min f >=? 2 then sep_list f else [])))) as ->.
  { unfold sep_list. destruct (rf_seq f) eqn:Hs; simpl; [|by destruct (rf_min f >=? 2)]. destruct (rf_min f >=? 2); [|done]. simpl.
    destruct (Z.geb_spec (rf_sep f) 0); [|done]. rewrite (bv_bit_test_ok bv n S _ Hbv) by (eapply form_valid_mentions; [done|by apply sep_mentions]).
    f_equal. apply bool_decide_ext. rewrite Forall_singleton. done. }
  assert (bool_decide ((rf_lhs f ∉ S) /\ Forall (fun s => s ∈ S) (needs f)) = bool_decide (Forall (fun s => s ∈ S) (rf_rhs f))
    && bool_decide (Forall (fun s => s ∈ S) (if rf_min f >=? 2 then sep_list f else []))) as ->.
  { rewrite <- bool_decide_forall_app. apply bool_decide_ext. unfold needs. tauto. }
  destruct (bool_decide (Forall _ (rf_rhs f))); [|done]. cbn [mbind res_bind negb andb].
  destruct (bool_decide (Forall _ _)); [|done]. cbn [negb]. rewrite Hset. cbn [mbind res_bind]. rewrite (hr_count _ _ _ Hg).
  destruct (Z.ltb_spec (Z.of_nat (length stack)) n); [done|]. destruct Hroom; [lia|done].
Qed.

Lemma set_room bv S : bv_rep bv n S -> Z.of_nat (size S) <= n /\ forall z, 0 <= z < n -> z ∉ S -> Z.of_nat (size S) < n.
Proof.
  intros Hbv. pose proof (br_n _ _ _ Hbv) as Hn. assert (forall X : gset Z, (forall i, i ∈ X -> 0 <= i < n) -> Z.of_nat (size X) <= n) as Hb.
  { intros X HX. rewrite <- (elems_size n X HX). unfold elems, elems_from. etransitivity; [apply inj_le, length_filter|]. rewrite length_seqZ. lia. }
  split; [by apply Hb, Hbv|]. intros z Hz Hnin. assert (Z.of_nat (size ({[z]} ∪ S)) <= n) as Hs.
  { apply Hb. intros i [->%elem_of_singleton|Hi]%elem_of_union; [done|]. by apply (br_elems _ _ _ Hbv). }
  rewrite size_union, size_singleton in Hs by set_solver. lia.
Qed.

(** The loop invariant: [S0] is the set at the start, [S] the present one; a rule whose
    symbols are all in [S] has its left-hand side there, or a symbol on the stack, or is
    still to be visited for the symbol popped last. *)
Record closing (S0 S : gset Z) (stack : list Z) (pending : nat -> Prop) : Prop := {
  cl_base y : y ∈ S0 -> y ∈ S;
  cl_sound y : y ∈ S -> closes fs (fun y => y ∈ S0) y;
  cl_nodup : NoDup stack;
  cl_stack y : y ∈ stack -> y ∈ S;
  cl_rules i f : fs !! i = Some f -> (forall y, y ∈ needs f -> y ∈ S) ->
    rf_lhs f ∈ S \/ (exists y, y ∈ needs f /\ y ∈ stack) \/ pending i
}.

Lemma stack_room S0 S stack pending : closing S0 S stack pending -> (length stack <= size S)%nat.
Proof.
  intros Hc. rewrite <- (size_list_to_set (C := gset Z) stack (cl_nodup _ _ _ _ Hc)). apply subseteq_size.
  intros y Hy%elem_of_list_to_set. by apply (cl_stack _ _ _ _ Hc).
Qed.

(** Visiting the rule [f]. *)
Lemma closing_visit S0 S stack i f (pending : nat -> Prop) : fs !! i = Some f -> closing S0 S stack (fun j => j = i \/ pending j) ->
  if bool_decide ((rf_lhs f ∉ S) /\ Forall (fun s => s ∈ S) (needs f)) then closing S0 ({[rf_lhs f]} ∪ S) (rf_lhs f :: stack) pending
  else closing S0 S stack pending.
Proof.
  intros Hf [Hb Hs Hnd Hst Hr]. case_bool_decide as Hd.
  - destruct Hd as [Hnin Hneeds]. rewrite Forall_forall in Hneeds. split.
    + intros y Hy. apply elem_of_union. right. auto.
    + intros y [->%elem_of_singleton|Hy]%elem_of_union; [|auto]. apply closes_rule; [by eapply list_elem_of_lookup_2|auto].
    + constructor; [|done]. intros Hin. by apply Hst in Hin.
    + intros y [->|Hy]%elem_of_cons; apply elem_of_union; [left; by apply elem_of_singleton|right; auto].
    + intros j f' Hf' Hall. destruct (decide (rf_lhs f ∈ needs f')) as [Hz|Hz]; [right; left; exists (rf_lhs f); split; [done|left]|].
      destruct (Hr j f' Hf') as [Hl|[(y&Hy&Hys)|[->|Hp]]].
      * intros y Hy. destruct (proj1 (elem_of_union _ _ _) (Hall y Hy)) as [->%elem_of_singleton|?]; done.
      * left. apply elem_of_union. by right.
      * right. left. exists y. split; [done|by right].
      * left. apply elem_of_union. left. apply elem_of_singleton. by simplify_eq.
      * auto.
  - split; [done..|]. intros j f' Hf' Hall. destruct (Hr j f' Hf' Hall) as [?|[?|[->|?]]]; [auto..| |auto].
    left. destruct (decide (rf_lhs f' ∈ S)) as [|Hnin]; [done|]. simplify_eq. destruct Hd. split; [done|]. by apply Forall_forall.
Qed.

Lemma visit_rules S0 ids : (forall r, r ∈ ids -> exists i f, r = Z.of_nat i /\ fs !! i = Some f) ->
  forall bv S stack, bv_rep bv n S -> closing S0 S stack (fun j => Z.of_nat j ∈ ids) ->
  exists bv' S' stack', each_res ids (rhs_closure_rule g) (bv, stack) = Ok (bv', stack') /\ bv_rep bv' n S'
    /\ closing S0 S' stack' (fun _ => False) /\ (length stack' + size S = length stack + size S')%nat.
Proof.
  induction ids as [|r ids IH]; intros Hids bv S stack Hbv Hc.
  { exists bv, S, stack. split_and!; [done..| |done]. destruct Hc as [? ? ? ? Hr]. split; [done..|]. intros i f Hf Hall.
    destruct (Hr i f Hf Hall) as [?|[?|Hp]]; [auto..|]. by apply elem_of_nil in Hp. }
  destruct (Hids r ltac:(left)) as (i&f&->&Hf). pose proof (set_room bv S Hbv) as [_ Hroom]. pose proof (stack_room _ _ _ _ Hc) as Hlen.
  assert (Z.of_nat (length stack) < n \/ rf_lhs f ∈ S) as Hpush.
  { destruct (decide (rf_lhs f ∈ S)) as [|Hnin]; [by right|left]. specialize (Hroom (rf_lhs f)).
    pose proof (form_lookup n fs g Hg i f Hf) as [Hl _]. specialize (Hroom Hl Hnin). lia. }
  destruct (rhs_closure_rule_ok i f bv S stack Hf Hbv Hpush) as (bv'&Hrule&Hbv'). cbn [each_res]. rewrite Hrule. cbn [mbind res_bind].
  assert (closing S0 S stack (fun j => j = i \/ Z.of_nat j ∈ ids)) as Hc'.
  { destruct Hc as [? ? ? ? Hr]. split; [done..|]. intros j f' Hf' Hall. destruct (Hr j f' Hf' Hall) as [?|[?|[Hp|?]%elem_of_cons]]; auto.
    right. right. left. lia. }
  pose proof (closing_visit S0 S stack i f _ Hf Hc') as Hv.
  destruct (bool_decide_reflect ((rf_lhs f ∉ S) /\ Forall (fun s => s ∈ S) (needs f))) as [[Hnin _]|_].
  - destruct (IH (fun r Hr => Hids r ltac:(by right)) bv' _ (rf_lhs f :: stack) Hbv' Hv) as (bv2&S2&st2&->&?&?&Hsz). exists bv2, S2, st2.
    split_and!; [done..|]. rewrite size_union, size_singleton in Hsz by set_solver. simpl in Hsz. lia.
  - apply (IH (fun r Hr => Hids r ltac:(by right)) bv S stack Hbv Hv).
Qed.

Lemma rhs_closure_loop_ok S0 fuel bv S stack : bv_rep bv n S -> closing S0 S stack (fun _ => False) ->
  Z.of_nat (length stack) + (n - Z.of_nat (size S)) <= Z.of_nat fuel ->
  exists bv' S', rhs_closure_loop fuel g x bv stack = Ok bv' /\ bv_rep bv' n S' /\ closing S0 S' [] (fun _ => False).
Proof.
  revert bv S stack. induction fuel as [|fuel IH]; intros bv S stack Hbv Hc Hf; (destruct stack as [|s stack]; [exists bv, S; by split_and!|]).
  { pose proof (set_room bv S Hbv) as [Hroom _]. simpl in Hf. lia. }
  cbn [rhs_closure_loop]. assert (0 <= s < n) as Hs by (apply (br_elems _ _ _ Hbv), (cl_stack _ _ _ _ Hc); left).
  destruct (Hx s Hs) as (b&ids&->&Hn&Hdata&Hids). cbn [mbind res_bind]. rewrite Hn. cbn [mbind res_bind]. rewrite (lists_loop x b ids (rhs_closure_rule g) _ Hdata).
  assert (closing S0 S stack (fun j => Z.of_nat j ∈ ids)) as Hc'.
  { destruct Hc as [Hb Hsd Hnd Hst Hr]. split; [done|done|by inversion Hnd|intros y Hy; apply Hst; by right|].
    intros i f Hfi Hall. destruct (Hr i f Hfi Hall) as [?|[(y&Hy&Hys)|[]]]; [auto|]. apply elem_of_cons in Hys as [->|?]; [|eauto].
    right. right. apply Hids, elem_of_rule_pairs. exists i, f. split_and!; [done..|]. unfold needs in Hy. unfold mentions.
    apply elem_of_app in Hy as [?|Hy]; apply elem_of_app; [by right|left]. destruct (rf_min f >=? 2); [done|by apply elem_of_nil in Hy]. }
  destruct (visit_rules S0 ids) with (bv := bv) (S := S) (stack := stack) as (bv'&S'&stack'&->&Hbv'&Hc2&Hsz); [|done|done|].
  { intros r (i&f&->&Hfi&_)%Hids%elem_of_rule_pairs. eauto. }
  cbn [mbind res_bind fst snd]. apply (IH bv' S' stack'); [done..|]. simpl in Hf. lia.
Qed.

(** [rhs_closure()] ends with the least set that contains the given one and is closed under
    the rules. *)
Lemma rhs_closure_ok bv S0 : bv_rep bv n S0 -> (forall f, f ∈ fs -> needs f = [] -> rf_lhs f ∈ S0) ->
  exists bv' S, rhs_closure g bv x = Ok bv' /\ bv_rep bv' n S /\ forall y, y ∈ S <-> closes fs (fun y => y ∈ S0) y.
Proof.
  intros Hbv Hempty. pose proof (br_n _ _ _ Hbv) as Hn. unfold rhs_closure. rewrite (hr_count _ _ _ Hg).
  rewrite (bv_for_each_ok _ bv n S0 _ _ Hbv) by lia.
  assert (length (elems n S0) = size S0) as Hlen by (apply elems_size, Hbv). pose proof (set_room bv S0 Hbv) as [Hroom _].
  destruct (each_res_ok (fun l stack => stack = rev l) (elems n S0)
    (fun xsy_id stack => if Z.of_nat (length stack) <? n then Ok (xsy_id :: stack) else Fault) []) as (stack&->&->); [done| |].
  { intros l1 y l2 acc Hl ->. rewrite length_rev. apply (f_equal length) in Hl. rewrite length_app in Hl. simpl in Hl.
    destruct (Z.ltb_spec (Z.of_nat (length l1)) n); [|lia]. eexists. split; [done|]. by rewrite rev_app_distr. }
  cbn [mbind res_bind fst snd].
  assert (forall y, y ∈ rev (elems n S0) <-> y ∈ S0) as Hel.
  { intros y. rewrite list_elem_of_In, <- in_rev, <- list_elem_of_In. unfold elems. rewrite elem_of_elems_from.
    split; [tauto|]. intros Hy. split; [by apply (br_elems _ _ _ Hbv)|done]. }
  destruct (rhs_closure_loop_ok S0 (Z.to_nat n) bv S0 (rev (elems n S0)) Hbv) as (bv'&S&Hr&Hbv'&Hc).
  - split; [done|intros y Hy; by apply closes_base| |by intros y ?%Hel|].
    + apply NoDup_ListNoDup, NoDup_rev, NoDup_ListNoDup. unfold elems, elems_from. apply NoDup_filter, NoDup_seqZ.
    + intros i f Hf Hall. destruct (needs f) as [|y l] eqn:Hnf; [left; apply Hempty; [by eapply list_elem_of_lookup_2|done]|].
      right. left. exists y. split; [left|]. apply Hel, Hall. left.
  - rewrite length_rev. lia.
  - exists bv', S. split_and!; [done|done|]. intros y. split; [apply Hc|].
    apply (closes_least fs _ (fun y => y ∈ S)); [apply Hc|]. intros f Hf Hall. apply list_elem_of_lookup in Hf as [i Hf].
    destruct (cl_rules _ _ _ _ Hc i f Hf Hall) as [?|[(z&_&Hz)|[]]]; [done|by apply elem_of_nil in Hz].
Qed.
End closure.
