(* ===== verification/CensusMarks.v ===== *)
(** * The census of a grammar: terminals, reachable symbols, marks

    The steps of the census that mark symbols: each step is the list of the symbols before
    it, with a field set for the symbols of a set. *)
From stdpp Require Import sets gmap list_numbers relations.
From S2P Require Import Prelude Avl AvlTree AvlProbe AvlTheorems BitVector BitVectorTheorems BitScan Matrix MatrixTheorems MarpaGrammar MarpaGrammarTheorems Census CensusSpec CensusLists CensusClosure.

(** ** Marking symbols *)

Definition mark (p : Z -> bool) (f : XSY -> XSY) (l : list XSY) : list XSY := imap (fun i x => if p (Z.of_nat i) then f x else x) l.

(** [g] with other symbols and other events. *)
Definition with_symbols (l : list XSY) (e : list (Z * Z)) (g : GRAMMAR) : GRAMMAR := set_t_events e (set_t_xsy_stack l g).

Lemma mark_length p f l : length (mark p f l) = length l.
Proof. apply length_imap. Qed.

Lemma mark_lookup p f l i : mark p f l !! i = (fun x => if p (Z.of_nat i) then f x else x) <$> (l !! i).
Proof. apply list_lookup_imap. Qed.

Lemma mark_none p f l : (forall z, p z = false) -> mark p f l = l.
Proof. intros Hp. apply list_eq. intros i. rewrite mark_lookup, Hp. by destruct (l !! i). Qed.

Lemma mark_ext p q f l : (forall z, p z = q z) -> mark p f l = mark q f l.
Proof. intros Hp. apply list_eq. intros i. by rewrite !mark_lookup, Hp. Qed.

(** One more symbol. *)
Lemma mark_alter p q f l s : 0 <= s -> (forall x, f (f x) = f x) -> (forall z, q z = p z || (z =? s)) ->
  alter f (Z.to_nat s) (mark p f l) = mark q f l.
Proof.
  intros Hs Hf Hq. apply list_eq. intros i. rewrite mark_lookup, Hq. destruct (decide (Z.to_nat s = i)) as [<-|Hne].
  - rewrite list_lookup_alter_eq, mark_lookup, Z2Nat.id, Z.eqb_refl, orb_true_r by done. destruct (l !! Z.to_nat s) as [x|]; [|done]. simpl.
    f_equal. destruct (p s); [apply Hf|done].
  - rewrite list_lookup_alter_ne, mark_lookup by done. destruct (Z.eqb_spec (Z.of_nat i) s); [lia|]. by rewrite orb_false_r.
Qed.

Lemma alter_alter_mark p f l s x : l !! Z.to_nat s = Some x -> 0 <= s -> f x = x -> mark p f l = mark (fun z => p z || (z =? s)) f l.
Proof.
  intros Hl Hs Hf. apply list_eq. intros i. rewrite !mark_lookup. destruct (Z.eqb_spec (Z.of_nat i) s) as [E|]; [|by rewrite orb_false_r].
  rewrite orb_true_r. replace i with (Z.to_nat s) by lia. rewrite Hl. simpl. f_equal. by destruct (p _).
Qed.

Lemma elem_snoc_bool (l : list Z) s z : bool_decide (z ∈ l ++ [s]) = bool_decide (z ∈ l) || (z =? s).
Proof. destruct (Z.eqb_spec z s) as [->|]; [rewrite orb_true_r; apply bool_decide_true|rewrite orb_false_r; apply bool_decide_ext]; set_solver. Qed.

Section marks.
Context `{Library}.
Context (n : Z) (fs : list rule_form).

(** Only symbols and events change. *)
Lemma has_rules_symbols g l e : has_rules n fs g -> length l = length (t_xsy_stack g) -> has_rules n fs (with_symbols l e g).
Proof. intros [H1 H2 H3 H4] Hl. split; [|done..]. unfold XSY_Count_of_G in *. simpl. by rewrite Hl. Qed.

Lemma symbol_read g s : has_rules n fs g -> 0 <= s < n -> exists x, XSY_by_ID g s = Ok x /\ t_xsy_stack g !! Z.to_nat s = Some x.
Proof. intros Hg Hs. apply XSY_by_ID_ok. unfold valid_id. rewrite symbols_length. pose proof (hr_count _ _ _ Hg). unfold XSY_Count_of_G in *. lia. Qed.

Lemma symbol_upd g s f : has_rules n fs g -> 0 <= s < n -> upd_xsy g s f = Ok (set_t_xsy_stack (alter f (Z.to_nat s) (t_xsy_stack g)) g).
Proof. intros Hg Hs. apply upd_xsy_ok. unfold valid_id. rewrite symbols_length. pose proof (hr_count _ _ _ Hg). unfold XSY_Count_of_G in *. lia. Qed.

Lemma symbol_upd_mark g l e p q s f : has_rules n fs g -> length l = length (t_xsy_stack g) -> 0 <= s < n ->
  (forall x, f (f x) = f x) -> (forall z, q z = p z || (z =? s)) ->
  upd_xsy (with_symbols (mark p f l) e g) s f = Ok (with_symbols (mark q f l) e g).
Proof.
  intros Hg Hl Hs Hf Hq. rewrite symbol_upd; [|apply has_rules_symbols; [done|by rewrite mark_length]|done].
  cbn [t_xsy_stack with_symbols set_t_events set_t_xsy_stack]. by rewrite (mark_alter p q) by (done || lia).
Qed.

Lemma with_symbols_same g : with_symbols (t_xsy_stack g) (t_events g) g = g.
Proof. by destruct g. Qed.

(** Marking the symbols of a list. *)
Lemma mark_all g f l : has_rules n fs g -> (forall x, f (f x) = f x) -> Forall (fun s => 0 <= s < n) l ->
  each_res l (fun s g => upd_xsy g s f) g = Ok (with_symbols (mark (fun z => bool_decide (z ∈ l)) f (t_xsy_stack g)) (t_events g) g).
Proof.
  intros Hg Hf Hl.
  destruct (each_res_ok (fun l1 g1 => g1 = with_symbols (mark (fun z => bool_decide (z ∈ l1)) f (t_xsy_stack g)) (t_events g) g) l
    (fun s g => upd_xsy g s f) g) as (g'&Hr&->); [| |done].
  - rewrite mark_none; [by rewrite with_symbols_same|]. intros z. apply bool_decide_false. by intros ?%elem_of_nil.
  - intros l1 s l2 acc -> ->. rewrite Forall_app, Forall_cons in Hl. eexists. split; [|done]. apply symbol_upd_mark; [done..|tauto|done|].
    intros z. apply elem_snoc_bool.
Qed.

(** ** Terminals *)

(** [L] is the set of the left-hand sides. *)
Definition is_terminal g (L : gset Z) (z : Z) : bool :=
  match t_xsy_stack g !! Z.to_nat z with
  | Some s => if XSY_is_Locked_Terminal s then XSY_is_Terminal s else bool_decide (z ∉ L)
  | None => false
  end.

(** After the symbols below [j]. *)
Definition terminals_at g (L : gset Z) (j : Z) (c : Bit_Vector * GRAMMAR) : Prop :=
  exists T, bv_rep c.1 n T
    /\ (forall z, z ∈ T <-> 0 <= z < n /\ (if decide (z < j) then is_terminal g L z = true else z ∉ L))
    /\ c.2 = with_symbols (mark (fun z => bool_decide (z ∈ T) && (z <? j)) (set_XSY_is_Terminal true) (t_xsy_stack g)) (t_events g) g.

Lemma terminal_step g L j c : has_rules n fs g -> 0 <= j < n -> terminals_at g L j c ->
  exists c', census_terminal j c = Ok c' /\ terminals_at g L (j + 1) c'.
Proof.
  intros Hg Hj (T&HT&ET&Hc). destruct c as [v g1]. simpl in *. subst g1.
  set (p := fun z => bool_decide (z ∈ T) && (z <? j)). set (g1 := with_symbols (mark p _ _) _ g).
  assert (has_rules n fs g1) as Hg1 by (apply has_rules_symbols; [done|apply mark_length]).
  destruct (symbol_read g1 j Hg1 Hj) as (x&Hr&Hx). unfold census_terminal. rewrite Hr. cbn [mbind res_bind].
  assert (t_xsy_stack g !! Z.to_nat j = Some x) as Hx0.
  { cbn [t_xsy_stack g1 with_symbols set_t_events set_t_xsy_stack] in Hx. rewrite mark_lookup, Z2Nat.id in Hx by lia. unfold p in Hx.
    rewrite Z.ltb_irrefl, andb_false_r in Hx. by destruct (t_xsy_stack g !! Z.to_nat j). }
  assert (is_terminal g L j = if XSY_is_Locked_Terminal x then XSY_is_Terminal x else bool_decide (j ∉ L)) as Ej by (unfold is_terminal; by rewrite Hx0).
  assert (forall (T' : gset Z), (forall z, z <> j -> z ∈ T' <-> z ∈ T) -> (j ∈ T' <-> is_terminal g L j = true) ->
    forall z, z ∈ T' <-> 0 <= z < n /\ (if decide (z < j + 1) then is_terminal g L z = true else z ∉ L)) as HT'.
  { intros T' Hne Hz z. destruct (decide (z = j)) as [->|Hnj].
    - rewrite Hz, decide_True by lia. tauto.
    - rewrite Hne, ET by done. destruct (decide (z < j)), (decide (z < j + 1)); try lia; tauto. }
  assert (forall (T' : gset Z) (b : bool), (forall z, z <> j -> z ∈ T' <-> z ∈ T) -> bool_decide (j ∈ T') = b ->
    forall z, bool_decide (z ∈ T') && (z <? j + 1) = p z || (b && (z =? j))) as Hp.
  { intros T' b Hne Hb z. unfold p. destruct (Z.eqb_spec z j) as [->|Hnj].
    - rewrite Hb, Z.ltb_irrefl, andb_false_r. destruct (Z.ltb_spec j (j + 1)); [|lia]. done.
    - rewrite (bool_decide_ext _ _ (Hne z Hnj)), andb_false_r, orb_false_r. f_equal. destruct (Z.ltb_spec z j), (Z.ltb_spec z (j + 1)); (done || lia). }
  destruct (XSY_is_Locked_Terminal x).
  - destruct (XSY_is_Terminal x) eqn:Ht.
    + destruct (bv_bit_set_ok v n T j HT Hj) as (v'&->&HT2&_). eexists. split; [done|]. exists ({[j]} ∪ T).
      split_and!; [done|apply HT'; [set_solver|split; [done|set_solver]]|]. unfold g1. cbn [snd]. f_equal.
      rewrite (alter_alter_mark p _ _ j x) by (done || lia || (destruct x; simpl in *; by subst)).
      apply mark_ext. intros z. symmetry. apply (Hp _ true); [set_solver|apply bool_decide_true; set_solver].
    + destruct (bv_bit_clear_ok v n T j HT Hj) as (v'&->&HT2&_). eexists. split; [done|]. exists (T ∖ {[j]}).
      split_and!; [done|apply HT'; [set_solver|rewrite Ej; set_solver]|]. unfold g1. cbn [snd]. f_equal. apply mark_ext. intros z.
      symmetry. rewrite (Hp _ false); [by rewrite orb_false_r|set_solver|apply bool_decide_false; set_solver].
  - rewrite (bv_bit_test_ok v n T j HT Hj). cbn [mbind res_bind].
    assert (j ∈ T <-> j ∉ L) as EjT by (rewrite ET; destruct (decide (j < j)); [lia|tauto]).
    assert (j ∈ T <-> is_terminal g L j = true) as Ejt by (rewrite Ej, bool_decide_eq_true; done).
    destruct (bool_decide_reflect (j ∈ T)) as [Hin|Hnin].
    + eexists. split; [unfold g1; rewrite (symbol_upd_mark g _ _ p (fun z => bool_decide (z ∈ T) && (z <? j + 1))); [done|done|done|done|done|]|].
      { intros z. rewrite (Hp T true); [done|done|by apply bool_decide_true]. }
      exists T. split_and!; [done|by apply HT'|done].
    + eexists. split; [done|]. exists T. split_and!; [done|by apply HT'|]. unfold g1. cbn [snd]. f_equal. apply mark_ext. intros z.
      symmetry. rewrite (Hp T false); [by rewrite orb_false_r|done|by apply bool_decide_false].
Qed.

Lemma census_terminals_ok junk g lhs_v L : has_rules n fs g -> 0 <= n <= INT_MAX -> bv_rep lhs_v n L ->
  exists v T, census_terminals junk g lhs_v
      = Ok (v, with_symbols (mark (fun z => bool_decide (z ∈ T)) (set_XSY_is_Terminal true) (t_xsy_stack g)) (t_events g) g)
    /\ bv_rep v n T /\ forall z, z ∈ T <-> 0 <= z < n /\ is_terminal g L z = true.
Proof.
  intros Hg Hn HL. unfold census_terminals. rewrite (hr_count _ _ _ Hg).
  destruct (bv_obs_create_ok (junk 2%nat) n Hn) as (v0&->&H0). cbn [mbind res_bind].
  destruct (bv_not_ok v0 lhs_v n ∅ L H0 HL) as (v1&->&H1&_). cbn [mbind res_bind].
  destruct (for_res_ok (terminals_at g L) (Z.to_nat n) 0 census_terminal (v1, g)) as ([v g']&Hr&(T&HT&ET&Hg')).
  - exists (below n ∖ L). split_and!; [done| |].
    + intros z. rewrite elem_of_difference, elem_of_below. destruct (decide (z < 0)); [|tauto]. split; [lia|intros []; lia].
    + cbn [snd]. rewrite mark_none; [by rewrite with_symbols_same|]. intros z.
      destruct (bool_decide_reflect (z ∈ below n ∖ L)) as [Hz|]; [|done]. apply elem_of_difference in Hz as [Hz _]. apply elem_of_below in Hz.
      simpl. apply Z.ltb_ge. lia.
  - intros j c Hj Hc. apply terminal_step; [done|lia|done].
  - rewrite Hr. simpl in Hg', HT. rewrite Z.add_0_l, Z2Nat.id in * by lia. exists v, T. subst g'. split_and!; [|done|].
    + do 3 f_equal. apply mark_ext. intros z. destruct (bool_decide_reflect (z ∈ T)) as [Hz|]; [|done]. apply (br_elems _ _ _ HT) in Hz.
      by destruct (Z.ltb_spec z n); [|lia].
    + intros z. rewrite ET. split; intros [Hz ?]; (split; [done|]); destruct (decide (z < n)); (done || lia).
Qed.

(** ** Reachable symbols *)

Lemma row_add_all m R i l : bm_rep m n n R -> 0 <= i < n -> Forall (fun j => 0 <= j < n) l ->
  exists m', each_res l (fun j m => matrix_bit_set m i j) m = Ok m' /\ bm_rep m' n n (row_set R i (list_to_set l ∪ R i)).
Proof.
  intros Hm Hi Hl. destruct (each_res_ok (fun l1 m1 => bm_rep m1 n n (row_set R i (list_to_set l1 ∪ R i))) l
    (fun j m => matrix_bit_set m i j) m) as (m'&Hr&Hm'); [| |by exists m'].
  - eapply bm_rep_ext; [exact Hm|]. intros k Hk. unfold row_set. destruct (decide (k = i)) as [->|]; set_solver.
  - intros l1 j l2 m1 -> Hm1. rewrite Forall_app, Forall_cons in Hl. destruct Hl as (_&Hj&_).
    destruct (matrix_bit_set_ok m1 n n _ i j Hm1 Hi Hj) as (m2&->&Hm2). exists m2. split; [done|].
    eapply bm_rep_ext; [exact Hm2|]. intros k Hk. unfold row_set. destruct (decide (k = i)) as [->|]; [|done].
    rewrite decide_True by done. rewrite list_to_set_app_L. set_solver.
Qed.

Definition reach_at (fs' : list rule_form) (m : Bit_Matrix) : Prop :=
  exists R, bm_rep m n n R /\ forall i j, 0 <= i < n -> j ∈ R i <-> occurs fs' i j.

Lemma census_reach_rule_ok g i f m : has_rules n fs g -> fs !! i = Some f -> reach_at (take i fs) m ->
  exists m', census_reach_rule g (Z.of_nat i) m = Ok m' /\ reach_at (take (S i) fs) m'.
Proof.
  intros Hg Hf (R&HR&ER). destruct (rule_read n fs g i f Hg Hf) as (r&Hr&_&Hform&Hsh). pose proof (form_lookup n fs g Hg i f Hf) as [Hlv Hmv].
  unfold census_reach_rule. rewrite Hr. cbn [mbind res_bind]. rewrite (lhs_read r Hsh), Hform. cbn [mbind res_bind].
  rewrite (rhs_loop r _ (fun j m => matrix_bit_set m (rf_lhs f) j)) by (try done; intros ix s m' Hs; by rewrite Hs). rewrite Hform.
  assert (XRL_is_Sequence r = rf_seq f /\ Separator_of_XRL r = rf_sep f) as [-> ->] by (by rewrite <- Hform).
  assert (forall m1, (if rf_seq f && (rf_sep f >=? 0) then matrix_bit_set m1 (rf_lhs f) (rf_sep f) else Ok m1)
    = each_res (sep_list f) (fun j m => matrix_bit_set m (rf_lhs f) j) m1) as Hsep.
  { intros m1. unfold sep_list. destruct (rf_seq f && (rf_sep f >=? 0)); [|done]. simpl. by destruct (matrix_bit_set _ _ _). }
  destruct (row_add_all m R (rf_lhs f) (rf_rhs f ++ sep_list f) HR Hlv) as (m'&Hm'&HR').
  { unfold mentions in Hmv. rewrite Forall_app in *. tauto. }
  exists m'. split; [rewrite each_res_app in Hm'; apply bind_Ok in Hm' as (m1&->&Hm1); cbn [mbind res_bind]; by rewrite Hsep|].
  eexists. split; [exact HR'|]. intros a b Ha. unfold occurs. rewrite (exists_take_S (fun f => rf_lhs f = a /\ b ∈ mentions f) fs i f Hf).
  unfold row_set. destruct (decide (a = rf_lhs f)) as [->|Hne].
  - rewrite elem_of_union, elem_of_list_to_set, ER by done. unfold occurs, mentions. rewrite !elem_of_app. tauto.
  - rewrite ER by done. unfold occurs. split; [by left|]. intros [?|[? _]]; [done|congruence].
Qed.

Lemma census_reach_ok junk g : has_rules n fs g -> 0 < n <= INT_MAX -> n * (4 * row_words n) < UINT_MOD ->
  exists m R, census_reach junk g = Ok m /\ bm_rep m n n R /\ forall i j, 0 <= i < n -> j ∈ R i <-> tc (occurs fs) i j.
Proof.
  intros Hg Hn Hfit. unfold census_reach. rewrite (hr_count _ _ _ Hg). pose proof (row_words_pos n ltac:(lia)) as Hw.
  destruct (matrix_obs_create_ok n n ltac:(lia) Hn ltac:(nia) (junk 3%nat)) as (m0&->&H0); [nia|]. cbn [mbind res_bind].
  destruct (rules_loop n fs g (fun i m => reach_at (take i fs) m) (census_reach_rule g) m0 Hg) as (m1&->&HR); [| |].
  - exists (fun _ => ∅). split; [done|]. intros i j _. unfold occurs. rewrite take_0. set_solver.
  - intros i f m Hf Hm. by apply (census_reach_rule_ok g i f m).
  - rewrite firstn_all in HR. destruct HR as (R&HR&ER). cbn [mbind res_bind].
    destruct (transitive_closure_ok n R m1 HR) as (m2&R2&->&HR2&ER2). exists m2, R2. split_and!; [done|done|].
    intros i j Hi. rewrite ER2 by done. apply tc_ext. intros a b. split; [intros [Ha Hb]; by apply ER|].
    intros Hab. assert (0 <= a < n) as Ha.
    { destruct Hab as (f&Hf&<-&_). apply list_elem_of_lookup in Hf as [k Hk]. by apply (form_lookup n fs g Hg k f). }
    split; [done|]. by apply ER.
Qed.

(** ** Nullable and productive symbols *)

(** A field the marks do not touch. *)
Definition symbol_flag (h : XSY -> bool) g (s : Z) : bool := match t_xsy_stack g !! Z.to_nat s with Some x => h x | None => false end.

(** Marking one more symbol and reading it back. *)
Lemma mark_read g e p q f (h : XSY -> bool) s :
  has_rules n fs g -> 0 <= s < n -> (forall x, f (f x) = f x) -> (forall x, h (f x) = h x) -> (forall z, q z = p z || (z =? s)) ->
  upd_xsy (with_symbols (mark p f (t_xsy_stack g)) e g) s f = Ok (with_symbols (mark q f (t_xsy_stack g)) e g)
  /\ exists x, XSY_by_ID (with_symbols (mark q f (t_xsy_stack g)) e g) s = Ok x /\ h x = symbol_flag h g s.
Proof.
  intros Hg Hs Hf Hh Hq. destruct (symbol_read g s Hg Hs) as (x0&_&Hx0).
  split; [by apply symbol_upd_mark|].
  destruct (symbol_read (with_symbols (mark q f (t_xsy_stack g)) e g) s) as (x&Hr&Hx); [apply has_rules_symbols; [done|apply mark_length]|done|].
  exists x. split; [done|]. unfold symbol_flag. rewrite Hx0. cbn [t_xsy_stack with_symbols set_t_events set_t_xsy_stack] in Hx.
  rewrite mark_lookup, Hx0 in Hx. simpl in Hx. destruct (q _); injection Hx as <-; [apply Hh|done].
Qed.

Definition counted_of g (l : list Z) : list Z := filter (fun s => symbol_flag xsy_is_counted g s = true) l.

Lemma census_nullable_ok junk g empty_lhs_v E x : has_rules n fs g -> bv_rep empty_lhs_v n E -> (forall z, z ∈ E <-> empty_lhs fs z) ->
  lists_rep n (rule_pairs mentions fs) x ->
  exists v N, bv_rep v n N /\ (forall z, z ∈ N <-> closes fs (from fs (fun _ => False)) z)
    /\ census_nullable junk g empty_lhs_v x
      = Ok (v, (with_symbols (mark (fun z => bool_decide (z ∈ N)) (set_XSY_is_Nullable true) (t_xsy_stack g))
                  (t_events g ++ (pair MARPA_EVENT_COUNTED_NULLABLE <$> counted_of g (elems n N))) g, Z.of_nat (length (counted_of g (elems n N))))).
Proof.
  intros Hg HE EE Hx. unfold census_nullable. destruct (bv_obs_clone_ok (junk 4%nat) _ n E HE) as (v0&->&H0). cbn [mbind res_bind].
  destruct (rhs_closure_ok n fs g Hg x Hx v0 E H0) as (v&N&->&HN&EN).
  { intros f Hf Hnil. apply EE. exists f. split_and!; [done..|]. left. unfold needs in Hnil. by apply app_nil in Hnil as [? _]. }
  exists v, N. split_and!; [done| |].
  - intros z. rewrite EN. split; apply closes_mono; intros y; rewrite EE; unfold from; tauto.
  - cbn [mbind res_bind]. pose proof (br_n _ _ _ HN). rewrite (hr_count _ _ _ Hg), (bv_for_each_ok _ v n N _ _ HN) by lia.
    destruct (each_res_ok (fun l1 c => c = (with_symbols (mark (fun z => bool_decide (z ∈ l1)) (set_XSY_is_Nullable true) (t_xsy_stack g))
                  (t_events g ++ (pair MARPA_EVENT_COUNTED_NULLABLE <$> counted_of g l1)) g, Z.of_nat (length (counted_of g l1))))
      (elems n N) census_nullable_symbol (g, 0)) as (c&->&->).
    + rewrite mark_none, app_nil_r by (intros z; apply bool_decide_false; by intros ?%elem_of_nil). by rewrite with_symbols_same.
    + intros l1 s l2 acc Hl ->. assert (0 <= s < n) as Hs.
      { apply (br_elems _ _ _ HN). assert (s ∈ elems n N) as Hs by (rewrite Hl; apply elem_of_app; right; left). unfold elems in Hs. by apply elem_of_elems_from in Hs as [_ ?]. }
      unfold census_nullable_symbol.
      destruct (mark_read g (t_events g ++ (pair MARPA_EVENT_COUNTED_NULLABLE <$> counted_of g l1)) (fun z => bool_decide (z ∈ l1))
        (fun z => bool_decide (z ∈ l1 ++ [s])) (set_XSY_is_Nullable true) xsy_is_counted s) as (->&y&Hr&Hy); [done|done|done|done| |].
      { intros z. apply elem_snoc_bool. }
      cbn [mbind res_bind]. rewrite Hr. cbn [mbind res_bind]. rewrite Hy.
      assert (counted_of g (l1 ++ [s]) = counted_of g l1 ++ (if symbol_flag xsy_is_counted g s then [s] else [])) as Ec.
      { unfold counted_of. rewrite list.filter_app, filter_cons. by destruct (symbol_flag xsy_is_counted g s). }
      rewrite Ec. destruct (symbol_flag xsy_is_counted g s); (eexists; split; [reflexivity|]).
      * unfold int_event_new, with_symbols. cbn [t_events set_t_events set_t_xsy_stack filter list_filter]. rewrite fmap_app, length_app, app_assoc. simpl. do 2 f_equal. lia.
      * by rewrite app_nil_r.
    + rewrite (mark_ext (fun z => bool_decide (z ∈ elems n N)) (fun z => bool_decide (z ∈ N))); [done|]. intros z. apply bool_decide_ext.
      unfold elems. rewrite elem_of_elems_from. split; [tauto|]. intros Hz. split; [by apply (br_elems _ _ _ HN)|done].
Qed.

(** Marking the symbols of a vector. *)
Lemma mark_vector g v S f : has_rules n fs g -> bv_rep v n S -> (forall x, f (f x) = f x) ->
  bv_for_each (Z.to_nat n) v 0 (fun symid g => upd_xsy g symid f) g
  = Ok (v, with_symbols (mark (fun z => bool_decide (z ∈ S)) f (t_xsy_stack g)) (t_events g) g).
Proof.
  intros Hg Hv Hf. pose proof (br_n _ _ _ Hv). rewrite (bv_for_each_ok _ v n S _ _ Hv) by lia.
  assert (forall z, z ∈ elems n S <-> z ∈ S) as Hel.
  { intros z. unfold elems. rewrite elem_of_elems_from. split; [tauto|]. intros Hz. split; [by apply (br_elems _ _ _ Hv)|done]. }
  rewrite (mark_all g f (elems n S) Hg Hf) by (apply Forall_forall; intros z Hz%Hel; by apply (br_elems _ _ _ Hv)).
  cbn [mbind res_bind]. rewrite (mark_ext _ (fun z => bool_decide (z ∈ S))); [done|]. intros z. by apply bool_decide_ext.
Qed.

Lemma census_productive_ok junk g nullable_v terminal_v N T x : has_rules n fs g -> bv_rep nullable_v n N -> bv_rep terminal_v n T ->
  (forall z, z ∈ N <-> closes fs (from fs (fun _ => False)) z) -> lists_rep n (rule_pairs mentions fs) x ->
  exists v P, bv_rep v n P /\ (forall z, z ∈ P <-> closes fs (from fs (fun z => z ∈ T)) z)
    /\ census_productive junk g nullable_v terminal_v x
      = Ok (v, with_symbols (mark (fun z => bool_decide (z ∈ P)) (set_XSY_is_Productive true) (t_xsy_stack g)) (t_events g) g).
Proof.
  intros Hg HN HT EN Hx. unfold census_productive. rewrite (bv_obs_shadow_ok _ _ _ _ HN).
  destruct (bv_obs_create_ok (junk 5%nat) n (br_n _ _ _ HN)) as (v0&->&H0). cbn [mbind res_bind].
  destruct (bv_or_ok v0 nullable_v terminal_v n ∅ N T H0 HN HT) as (v1&->&H1&_). cbn [mbind res_bind].
  destruct (rhs_closure_ok n fs g Hg x Hx v1 (N ∪ T) H1) as (v&P&->&HP&EP).
  { intros f Hf Hnil. apply elem_of_union. left. apply EN, closes_rule; [done|]. rewrite Hnil. by intros y ?%elem_of_nil. }
  exists v, P. split_and!; [done| |cbn [mbind res_bind]; rewrite (hr_count _ _ _ Hg); by apply mark_vector].
  intros z. rewrite EP. split; intros Hz.
  - apply closes_idem. eapply closes_mono; [|exact Hz]. intros y [Hy|Hy]%elem_of_union; [|apply closes_base; by right].
    eapply closes_mono; [|by apply EN]. intros w [?|[]]. by left.
  - eapply closes_mono; [|exact Hz]. intros y [Hy|Hy]; apply elem_of_union; [left|by right]. apply EN, closes_base. by left.
Qed.

(** ** Accessible symbols *)
Lemma census_accessible_ok g m R start : has_rules n fs g -> bm_rep m n n R -> (forall i j, 0 <= i < n -> j ∈ R i <-> tc (occurs fs) i j) -> 0 <= start < n ->
  exists A : gset Z, (forall z, z ∈ A <-> rtc (occurs fs) start z)
    /\ census_accessible g m start = Ok (m, with_symbols (mark (fun z => bool_decide (z ∈ A)) (set_XSY_is_Accessible true) (t_xsy_stack g)) (t_events g) g).
Proof.
  intros Hg Hm ER Hs. exists ({[start]} ∪ R start). split.
  - intros z. rewrite elem_of_union, elem_of_singleton, ER, rtc_tc by done. split; intros [?|?]; auto.
  - unfold census_accessible. rewrite (matrix_row_ok m n n R start Hm Hs). cbn [mbind res_bind]. rewrite (hr_count _ _ _ Hg).
    rewrite (mark_vector g _ (R start) (set_XSY_is_Accessible true) Hg (mr_row _ _ _ _ Hm start Hs)) by done. cbn [mbind res_bind fst snd bv_words].
    rewrite (symbol_upd_mark g _ _ _ (fun z => bool_decide (z ∈ ({[start]} : gset Z) ∪ R start)) start); [|done..|].
    + cbn [mbind res_bind]. by destruct m.
    + intros z. destruct (Z.eqb_spec z start) as [->|]; [rewrite orb_true_r; apply bool_decide_true|rewrite orb_false_r; apply bool_decide_ext]; set_solver.
Qed.

(** ** Nulling symbols *)

(** A left-hand side that reaches no terminal. *)
Definition nulls (T : gset Z) (R : Z -> gset Z) (s : Z) : bool := bool_decide (T ∩ R s = ∅).
Definition nulling_terminals g (T : gset Z) (R : Z -> gset Z) (l : list Z) : list Z :=
  filter (fun s => nulls T R s && symbol_flag XSY_is_Terminal g s = true) l.

Lemma census_nulling_ok g lhs_v terminal_v m L T R : has_rules n fs g -> bv_rep lhs_v n L -> bv_rep terminal_v n T -> bm_rep m n n R ->
  census_nulling g lhs_v terminal_v m
  = Ok (with_symbols (mark (fun z => bool_decide (z ∈ L) && nulls T R z) (set_XSY_is_Nulling true) (t_xsy_stack g))
          (t_events g ++ (pair MARPA_EVENT_NULLING_TERMINAL <$> nulling_terminals g T R (elems n L))) g,
        negb (bool_decide (nulling_terminals g T R (elems n L) = []))).
Proof.
  intros Hg HL HT Hm. unfold census_nulling. rewrite (bv_shadow_ok terminal_v n T HT). cbn [mbind res_bind].
  pose proof (br_n _ _ _ HL) as Hn. rewrite (hr_count _ _ _ Hg), (bv_for_each_ok _ lhs_v n L _ _ HL) by lia.
  destruct (each_res_ok (fun l1 c => (exists S, bv_rep c.1.1 n S)
      /\ c.1.2 = with_symbols (mark (fun z => bool_decide (z ∈ l1) && nulls T R z) (set_XSY_is_Nulling true) (t_xsy_stack g))
          (t_events g ++ (pair MARPA_EVENT_NULLING_TERMINAL <$> nulling_terminals g T R l1)) g
      /\ c.2 = negb (bool_decide (nulling_terminals g T R l1 = [])))
    (elems n L) (census_nulling_symbol terminal_v m) (bv_create n, g, false)) as ([[v g'] b]&->&_&Hg'&Hb).
  - split_and!; [exists ∅; by apply bv_create_ok| |done]. cbn [fst snd].
    rewrite mark_none, app_nil_r by (intros z; rewrite bool_decide_false; [done|by intros ?%elem_of_nil]). by rewrite with_symbols_same.
  - intros l1 s l2 [[v g1] b1] Hl ((S&HS)&Hg1&Hb1). cbn [fst snd] in HS, Hg1, Hb1. assert (0 <= s < n) as Hs.
    { apply (br_elems _ _ _ HL). assert (s ∈ elems n L) as Hs by (rewrite Hl; apply elem_of_app; right; left). unfold elems in Hs. by apply elem_of_elems_from in Hs as [_ ?]. }
    unfold census_nulling_symbol. rewrite (matrix_row_ok m n n R s Hm Hs). cbn [mbind res_bind].
    destruct (bv_and_ok v terminal_v (BV (t_row_data m) (row_base n s)) n S T (R s) HS HT (mr_row _ _ _ _ Hm s Hs)) as (v'&->&Hv'&_). cbn [mbind res_bind].
    rewrite (bv_is_empty_ok v' n _ Hv'). cbn [mbind res_bind fst snd]. fold (nulls T R s).
    assert (nulling_terminals g T R (l1 ++ [s]) = nulling_terminals g T R l1 ++ (if nulls T R s && symbol_flag XSY_is_Terminal g s then [s] else [])) as Ent.
    { unfold nulling_terminals. rewrite list.filter_app, filter_cons. by destruct (nulls T R s && symbol_flag XSY_is_Terminal g s). }
    assert (forall z, bool_decide (z ∈ l1 ++ [s]) && nulls T R z = (bool_decide (z ∈ l1) && nulls T R z) || (nulls T R s && (z =? s))) as Hq.
    { intros z. rewrite elem_snoc_bool. destruct (Z.eqb_spec z s) as [->|]; destruct (bool_decide (_ ∈ l1)); simpl; rewrite ?andb_false_r; [..|by rewrite orb_false_r|done];
        by destruct (nulls T R s). }
    rewrite Ent. destruct (nulls T R s) eqn:Hnull; cbn [andb].
    + rewrite Hg1. destruct (mark_read g (t_events g ++ (pair MARPA_EVENT_NULLING_TERMINAL <$> nulling_terminals g T R l1))
        (fun z => bool_decide (z ∈ l1) && nulls T R z) (fun z => bool_decide (z ∈ l1 ++ [s]) && nulls T R z) (set_XSY_is_Nulling true) XSY_is_Terminal s)
        as (->&y&Hr&Hy); [done|done|done|done|exact Hq|].
      cbn [mbind res_bind]. rewrite Hr. cbn [mbind res_bind]. rewrite Hy.
      destruct (symbol_flag XSY_is_Terminal g s); (eexists; split; [reflexivity|]); cbn [fst snd].
      * split_and!; [by eexists| |by rewrite bool_decide_false by (by intros [_ ?]%app_nil)].
        unfold int_event_new, with_symbols. cbn [t_events set_t_events set_t_xsy_stack]. by rewrite fmap_app, app_assoc.
      * rewrite app_nil_r. split_and!; [by eexists|done|done].
    + eexists. split; [reflexivity|]. cbn [fst snd]. rewrite app_nil_r. split_and!; [by eexists| |done]. rewrite Hg1. f_equal. apply mark_ext.
      intros z. by rewrite Hq, orb_false_r.
  - cbn [mbind res_bind fst snd]. simpl in Hg', Hb. subst g' b.
    rewrite (mark_ext _ (fun z => bool_decide (z ∈ L) && nulls T R z)); [done|]. intros z. f_equal. apply bool_decide_ext.
    unfold elems. rewrite elem_of_elems_from. split; [tauto|]. intros Hz. split; [by apply (br_elems _ _ _ HL)|done].
Qed.
End marks.
