(* ===== verification/CensusRules.v ===== *)
(** * The census of a grammar: flags of the rules, nulled symbols, cycles *)
From stdpp Require Import sets gmap list_numbers relations.
From S2P Require Import Prelude Avl AvlTree AvlProbe AvlTheorems BitVector BitVectorTheorems BitScan Matrix MatrixTheorems Cil CilTheorems MarpaGrammar MarpaGrammarTheorems Census CensusSpec CensusLists CensusClosure CensusMarks.

(** ** What rules inherit from their symbols *)

Definition item_of (f : rule_form) : Z := default 0 (head (rf_rhs f)).
Definition separated (f : rule_form) : bool := rf_sep f >=? 0.

Definition rule_accessible g (f : rule_form) : bool := symbol_flag XSY_is_Accessible g (rf_lhs f).
Definition rule_nullable g (f : rule_form) : bool :=
  if rf_seq f then (rf_min f <=? 0) || symbol_flag XSY_is_Nullable g (item_of f) else forallb (symbol_flag XSY_is_Nullable g) (rf_rhs f).
Definition rule_nulling g (f : rule_form) : bool :=
  if rf_seq f then symbol_flag XSY_is_Nulling g (item_of f) && (negb (separated f) || symbol_flag XSY_is_Nulling g (rf_sep f))
  else forallb (symbol_flag XSY_is_Nulling g) (rf_rhs f).
(** The separator is there, and derives nothing. *)
Definition no_separator g (f : rule_form) : bool := separated f && negb (symbol_flag XSY_is_Productive g (rf_sep f)).
Definition rule_productive g (f : rule_form) : bool :=
  if rf_seq f then rule_nullable g f || (symbol_flag XSY_is_Productive g (item_of f) && negb (no_separator g f))
  else forallb (symbol_flag XSY_is_Productive g) (rf_rhs f).
Definition rule_used g (f : rule_form) : bool :=
  rule_accessible g f && negb (rule_nulling g f)
  && (if rf_seq f then symbol_flag XSY_is_Productive g (item_of f) && negb (no_separator g f) else rule_productive g f).

(** The rule as the census leaves it. *)
Definition flag_rule g (r : XRL) : XRL :=
  let f := form_of r in
  MkXRL (ID_of_XRL r) (Length_of_XRL r) (xrl_symbols r) (Rank_of_XRL r) (Null_Ranks_High_of_RULE r) (XRL_is_BNF r) (XRL_is_Sequence r)
    (Minimum_of_XRL r) (Separator_of_XRL r) (xrl_is_discard r) (XRL_is_Proper_Separation r) (xrl_is_loop r)
    (rule_nulling g f) (rule_nullable g f) (rule_accessible g f) (rule_productive g f) (rule_used g f).

Lemma flag_rule_form g r : form_of (flag_rule g r) = form_of r.
Proof. done. Qed.

Section rules.
Context `{Library}.
Context (n : Z) (fs : list rule_form).

Lemma flag_read g s (h : XSY -> bool) : has_rules n fs g -> 0 <= s < n -> exists x, XSY_by_ID g s = Ok x /\ h x = symbol_flag h g s.
Proof. intros Hg Hs. destruct (symbol_read n fs g s Hg Hs) as (x&Hr&Hx). exists x. unfold symbol_flag. by rewrite Hx. Qed.

(** The flags of a symbol that is read. *)
Lemma flags_read g s : has_rules n fs g -> 0 <= s < n -> exists x, XSY_by_ID g s = Ok x /\ forall h : XSY -> bool, symbol_flag h g s = h x.
Proof. intros Hg Hs. destruct (symbol_read n fs g s Hg Hs) as (x&Hr&Hx). exists x. split; [done|]. intros h. unfold symbol_flag. by rewrite Hx. Qed.

Lemma has_rules_rules g l : has_rules n fs g -> form_of <$> l = fs -> Forall shaped l -> has_rules n fs (set_t_xrl_stack l g).
Proof. intros [H1 H2 H3 H4] Hl Hs. by split. Qed.

(** Changing one rule. *)
Lemma rule_upd g i r F : has_rules n fs g -> t_xrl_stack g !! i = Some r -> upd_xrl g (Z.of_nat i) F = Ok (set_t_xrl_stack (alter F i (t_xrl_stack g)) g).
Proof. intros Hg Hr. rewrite upd_xrl_ok; [by rewrite Nat2Z.id|]. apply lookup_lt_Some in Hr. unfold XRL_Count_of_G. lia. Qed.

Lemma bnf_loop g r : has_rules n fs g -> shaped r -> form_valid n (form_of r) ->
  for_res (Z.to_nat (Length_of_XRL r)) 0 (fun rh_ix c =>
        rhs_id ← RHS_ID_of_XRL r rh_ix;
        rh_xsy ← XSY_by_ID g rhs_id;
        let '(is_nulling, is_nullable, is_productive) := c in
        Ok (is_nulling && XSY_is_Nulling rh_xsy, is_nullable && XSY_is_Nullable rh_xsy, is_productive && XSY_is_Productive rh_xsy)) (true, true, true)
  = Ok (forallb (symbol_flag XSY_is_Nulling g) (rf_rhs (form_of r)), forallb (symbol_flag XSY_is_Nullable g) (rf_rhs (form_of r)),
        forallb (symbol_flag XSY_is_Productive g) (rf_rhs (form_of r))).
Proof.
  intros Hg Hr Hv. rewrite (rhs_loop r _ (fun s c =>
        rh_xsy ← XSY_by_ID g s;
        let '(is_nulling, is_nullable, is_productive) := c in
        Ok (is_nulling && XSY_is_Nulling rh_xsy, is_nullable && XSY_is_Nullable rh_xsy, is_productive && XSY_is_Productive rh_xsy))) by
    (try done; intros ix s c Hs; by rewrite Hs).
  destruct (each_res_ok (fun l c => c = (forallb (symbol_flag XSY_is_Nulling g) l, forallb (symbol_flag XSY_is_Nullable g) l,
        forallb (symbol_flag XSY_is_Productive g) l)) (rf_rhs (form_of r))
      (fun s c => rh_xsy ← XSY_by_ID g s; let '(is_nulling, is_nullable, is_productive) := c in
        Ok (is_nulling && XSY_is_Nulling rh_xsy, is_nullable && XSY_is_Nullable rh_xsy, is_productive && XSY_is_Productive rh_xsy))
      (true, true, true)) as (c&->&->); [done| |done].
  intros l1 s l2 acc Hl ->. destruct (flags_read g s Hg) as (x&->&Hx).
  { apply (form_valid_mentions _ _ _ Hv), rhs_mentions. rewrite Hl. apply elem_of_app. right. left. }
  cbn [mbind res_bind]. eexists. split; [reflexivity|]. rewrite !forallb_app. simpl. by rewrite !Hx, !andb_true_r.
Qed.

Lemma sequence_flags_ok g r lhs rh_xsy sep_xsy : rf_seq (form_of r) = true ->
  (forall h, symbol_flag h g (rf_lhs (form_of r)) = h lhs) -> (forall h, symbol_flag h g (item_of (form_of r)) = h rh_xsy) ->
  (if separated (form_of r) then exists s, sep_xsy = Some s /\ forall h, symbol_flag h g (rf_sep (form_of r)) = h s else sep_xsy = None) ->
  sequence_flags lhs rh_xsy sep_xsy r = flag_rule g r.
Proof.
  intros Hs Hl Hi Hsep. unfold flag_rule, rule_used, rule_productive, rule_nulling, rule_nullable, rule_accessible, no_separator.
  rewrite Hs. cbv beta iota zeta. rewrite !Hl, !Hi. unfold sequence_flags. destruct r as [id len sy rk nh bnf seq mn sp di pr lp nu nb ac pd us].
  unfold separated in *. cbn [form_of rf_sep rf_min Minimum_of_XRL Separator_of_XRL] in *. destruct (sp >=? 0).
  - destruct Hsep as (s&->&Hf). rewrite !Hf.
    destruct (XSY_is_Nulling s) eqn:E1, (XSY_is_Productive s) eqn:E2, (XSY_is_Nulling rh_xsy) eqn:E3, (XSY_is_Productive rh_xsy) eqn:E4, (mn <=? 0) eqn:E5,
      (XSY_is_Nullable rh_xsy) eqn:E6, (XSY_is_Accessible lhs) eqn:E7; cbn; rewrite ?E1, ?E2, ?E3, ?E4, ?E5, ?E6, ?E7; reflexivity.
  - subst sep_xsy. destruct (XSY_is_Nulling rh_xsy) eqn:E3, (XSY_is_Productive rh_xsy) eqn:E4, (mn <=? 0) eqn:E5,
      (XSY_is_Nullable rh_xsy) eqn:E6, (XSY_is_Accessible lhs) eqn:E7; cbn; rewrite ?E3, ?E4, ?E5, ?E6, ?E7; reflexivity.
Qed.

Lemma bnf_flags_ok g r lhs : rf_seq (form_of r) = false -> (forall h, symbol_flag h g (rf_lhs (form_of r)) = h lhs) ->
  bnf_flags lhs (forallb (symbol_flag XSY_is_Nulling g) (rf_rhs (form_of r))) (forallb (symbol_flag XSY_is_Nullable g) (rf_rhs (form_of r)))
    (forallb (symbol_flag XSY_is_Productive g) (rf_rhs (form_of r))) r = flag_rule g r.
Proof.
  intros Hs Hl. unfold flag_rule, rule_used, rule_productive, rule_nulling, rule_nullable, rule_accessible. rewrite Hs. cbv beta iota zeta. rewrite !Hl.
  unfold bnf_flags. destruct r as [id len sy rk nh bnf seq mn sp di pr lp nu nb ac pd us].
  destruct (XSY_is_Accessible lhs); cbn; [rewrite andb_comm|]; reflexivity.
Qed.

Lemma census_rule_flags_ok g i r : has_rules n fs g -> seq_single fs -> t_xrl_stack g !! i = Some r ->
  census_rule_flags (Z.of_nat i) g = Ok (set_t_xrl_stack (alter (flag_rule g) i (t_xrl_stack g)) g).
Proof.
  intros Hg Hsg Hr. assert (fs !! i = Some (form_of r)) as Hf.
  { rewrite <- (hr_forms _ _ _ Hg). unfold forms_of. by rewrite list_lookup_fmap, Hr. }
  destruct (rule_read n fs g i _ Hg Hf) as (r'&Hrd&Hr'&_&Hsh). assert (r' = r) as -> by congruence. clear Hr'.
  pose proof (form_lookup n fs g Hg i _ Hf) as Hv. pose proof Hv as [Hlv Hmv].
  unfold census_rule_flags. rewrite Hrd. cbn [mbind res_bind]. rewrite (lhs_read r Hsh). cbn [mbind res_bind].
  destruct (flags_read g _ Hg Hlv) as (lhs&->&Hlhs). cbn [mbind res_bind].
  assert (forall F, F r = flag_rule g r -> upd_xrl g (Z.of_nat i) F = Ok (set_t_xrl_stack (alter (flag_rule g) i (t_xrl_stack g)) g)) as Hupd.
  { intros F HF. rewrite (rule_upd g i r) by done. do 2 f_equal. apply list_eq. intros j. rewrite !list_lookup_alter.
    destruct (decide (i = j)); [|done]. rewrite Hr. simpl. by f_equal. }
  change (XRL_is_Sequence r) with (rf_seq (form_of r)). change (Separator_of_XRL r) with (rf_sep (form_of r)). destruct (rf_seq (form_of r)) eqn:Hs.
  - destruct (Hsg (form_of r)) as [y Hy]; [by eapply list_elem_of_lookup_2|done|].
    pose proof (rhs_read r 0 y Hsh ltac:(by rewrite Hy)) as Hy0. change (Z.of_nat 0) with 0 in Hy0. rewrite Hy0. cbn [mbind res_bind].
    assert (y ∈ mentions (form_of r)) as Hym by (apply rhs_mentions; rewrite Hy; left).
    destruct (flags_read g y Hg) as (x&->&Hx); [by eapply form_valid_mentions|]. cbn [mbind res_bind].
    assert (item_of (form_of r) = y) as Ei by (unfold item_of; by rewrite Hy).
    destruct (separated (form_of r)) eqn:Hsep; unfold separated in Hsep; rewrite Hsep.
    + destruct (flags_read g (rf_sep (form_of r)) Hg) as (sx&->&Hsx). { eapply form_valid_mentions; [done|]. apply sep_mentions; [done|lia]. }
      cbn [mbind res_bind]. apply Hupd, sequence_flags_ok; [done|done|by rewrite Ei|]. unfold separated. rewrite Hsep. by exists sx.
    + cbn [mbind res_bind]. apply Hupd, sequence_flags_ok; [done|done|by rewrite Ei|]. unfold separated. by rewrite Hsep.
  - rewrite (bnf_loop g r Hg Hsh Hv). cbn [mbind res_bind fst snd]. apply Hupd. by apply bnf_flags_ok.
Qed.

(** The flags of the symbols are those of before: the rules change only. *)
Lemma census_rules_flags_ok g : has_rules n fs g -> seq_single fs ->
  census_rules_flags g = Ok (set_t_xrl_stack (flag_rule g <$> t_xrl_stack g) g).
Proof.
  intros Hg Hsg. unfold census_rules_flags.
  set (half := fun i => set_t_xrl_stack ((flag_rule g <$> take i (t_xrl_stack g)) ++ drop i (t_xrl_stack g)) g).
  assert (forall i, has_rules n fs (half i)) as Hhalf.
  { intros i. apply has_rules_rules; [done| |].
    - rewrite fmap_app, <- list_fmap_compose, <- fmap_app. change (form_of ∘ flag_rule g) with form_of. rewrite take_drop. apply (hr_forms _ _ _ Hg).
    - pose proof (hr_shaped _ _ _ Hg) as Hsh. rewrite <- (take_drop i (t_xrl_stack g)) in Hsh. apply Forall_app in Hsh as [H1 H2].
      apply Forall_app. split; [|done]. apply Forall_fmap. eapply Forall_impl; [exact H1|]. intros r Hr. exact Hr. }
  destruct (rules_loop n fs g (fun i g1 => g1 = half i) census_rule_flags g Hg) as (g'&->&->).
  - unfold half. simpl. by destruct g.
  - intros i f acc Hf ->. destruct (rule_read n fs g i f Hg Hf) as (r&_&Hr&_&_). eexists. split; [|reflexivity].
    assert (length (take i (t_xrl_stack g)) = i) as Ht by (apply lookup_lt_Some in Hr; rewrite length_take; lia).
    rewrite (census_rule_flags_ok (half i) i r (Hhalf i) Hsg).
    + unfold half. cbn [t_xrl_stack set_t_xrl_stack]. f_equal. change (flag_rule (set_t_xrl_stack _ g)) with (flag_rule g).
      unfold set_t_xrl_stack. cbn. f_equal. apply list_eq. intros j.
      rewrite (take_S_r _ _ _ Hr), fmap_app, <- app_assoc. cbn [fmap list_fmap app].
      rewrite alter_app_r_alt, length_fmap, Ht, Nat.sub_diag by (rewrite length_fmap; lia). do 2 f_equal. rewrite (drop_S _ _ _ Hr). done.
    + unfold half. cbn [t_xrl_stack set_t_xrl_stack]. rewrite lookup_app_r, length_fmap, Ht, Nat.sub_diag by (rewrite length_fmap; lia).
      by rewrite lookup_drop, Nat.add_0_r.
  - unfold half. assert (length fs = length (t_xrl_stack g)) as -> by (rewrite <- (hr_forms _ _ _ Hg); apply length_fmap).
    by rewrite firstn_all, drop_all, app_nil_r.
Qed.

(** ** What a symbol nulls *)

(** The relation of the matrix before the closure: a nullable symbol, and the right-hand
    side of a nullable rule. *)
Definition nullifies g (a b : Z) : Prop :=
  (a = b /\ 0 <= a /\ symbol_flag XSY_is_Nullable g a = true)
  \/ exists r, r ∈ t_xrl_stack g /\ XRL_is_Nullable r = true /\ rf_lhs (form_of r) = a /\ b ∈ rf_rhs (form_of r).

Lemma symbols_loop {A} g (Q : Z -> A -> Prop) body acc : has_rules n fs g -> 0 <= n -> Q 0 acc ->
  (forall s acc, 0 <= s < n -> Q s acc -> exists acc', body s acc = Ok acc' /\ Q (s + 1) acc') ->
  exists acc', for_res (Z.to_nat (XSY_Count_of_G g)) 0 body acc = Ok acc' /\ Q n acc'.
Proof.
  intros Hg Hn HQ Hb. rewrite (hr_count _ _ _ Hg). destruct (for_res_ok Q (Z.to_nat n) 0 body acc HQ) as (acc'&Hr&Hq).
  - intros j a Hj. apply Hb. lia.
  - exists acc'. split; [done|]. by rewrite Z.add_0_l, Z2Nat.id in Hq by lia.
Qed.

Lemma nullification_matrix g m : has_rules n fs g -> 0 < n -> bm_rep m n n (fun _ => ∅) ->
  exists m' R, (m ← for_res (Z.to_nat (XSY_Count_of_G g)) 0 (nullification_symbol g) m;
                for_res (Z.to_nat (XRL_Count_of_G g)) 0 (nullification_rule g) m) = Ok m'
    /\ bm_rep m' n n R /\ forall a b, 0 <= a < n -> b ∈ R a <-> nullifies g a b.
Proof.
  intros Hg Hn Hm.
  destruct (symbols_loop g (fun s m => exists R, bm_rep m n n R /\ forall a b, 0 <= a < n -> b ∈ R a <-> a = b /\ a < s /\ symbol_flag XSY_is_Nullable g a = true)
    (nullification_symbol g) m Hg) as (m1&->&R1&HR1&ER1); [lia| | |].
  - exists (fun _ => ∅). split; [done|]. intros a b Ha. split; [set_solver|lia].
  - intros s m0 Hs (R&HR&ER). unfold nullification_symbol. destruct (flag_read g s XSY_is_Nullable Hg Hs) as (x&->&Hx). cbn [mbind res_bind]. rewrite Hx.
    destruct (symbol_flag XSY_is_Nullable g s) eqn:Hf.
    + destruct (matrix_bit_set_ok m0 n n R s s HR Hs Hs) as (m1&->&HR1). exists m1. split; [done|]. eexists. split; [exact HR1|]. intros a b Ha. unfold row_set.
      destruct (decide (a = s)) as [->|Hne].
      * rewrite elem_of_union, elem_of_singleton, ER by done. split; [intros [->|?]; [split_and!; (done || lia)|lia]|intros (->&_&_); by left].
      * rewrite ER by done. split; intros (->&?&?); (split_and!; (done || lia)).
    + exists m0. split; [done|]. exists R. split; [done|]. intros a b Ha. rewrite ER by done. split; intros (->&?&?); (split_and!; [done| |done]); [lia|].
      destruct (decide (b = s)) as [->|]; [congruence|lia].
  - cbn [mbind res_bind].
    destruct (rules_loop n fs g (fun i m => exists R, bm_rep m n n R /\ forall a b, 0 <= a < n -> b ∈ R a <-> (a = b /\ symbol_flag XSY_is_Nullable g a = true)
        \/ exists r, r ∈ take i (t_xrl_stack g) /\ XRL_is_Nullable r = true /\ rf_lhs (form_of r) = a /\ b ∈ rf_rhs (form_of r))
      (nullification_rule g) m1 Hg) as (m2&->&R2&HR2&ER2).
    + exists R1. split; [done|]. intros a b Ha. rewrite ER1 by done. rewrite take_0. split; [intros (->&_&?); by left|].
      intros [[-> ?]|(r&?%elem_of_nil&_)]; [|done]. split_and!; (done || lia).
    + intros i f m0 Hf (R&HR&ER). destruct (rule_read n fs g i f Hg Hf) as (r&Hr&Hri&Hform&Hsh). pose proof (form_lookup n fs g Hg i f Hf) as [Hlv Hmv].
      unfold nullification_rule. rewrite Hr. cbn [mbind res_bind]. rewrite (lhs_read r Hsh), Hform. cbn [mbind res_bind].
      rewrite (rhs_loop r _ (fun j m => matrix_bit_set m (rf_lhs f) j)) by (try done; intros ix s m' Hs; by rewrite Hs). rewrite Hform.
      destruct (XRL_is_Nullable r) eqn:Hnull.
      * destruct (row_add_all n m0 R (rf_lhs f) (rf_rhs f) HR Hlv) as (m2&->&HR2).
        { unfold mentions in Hmv. rewrite Forall_app in Hmv. tauto. }
        exists m2. split; [done|]. eexists. split; [exact HR2|]. intros a b Ha. rewrite (exists_take_S _ _ i r Hri), Hform, Hnull. unfold row_set.
        destruct (decide (a = rf_lhs f)) as [->|Hne]; [rewrite elem_of_union, elem_of_list_to_set, ER by done; tauto|].
        rewrite ER by done. split; [tauto|]. intros [?|[?|(_&?&_)]]; [tauto|tauto|congruence].
      * exists m0. split; [done|]. exists R. split; [done|]. intros a b Ha. rewrite ER by done. rewrite (exists_take_S _ _ i r Hri), Hnull.
        split; [tauto|]. intros [?|[?|(?&_)]]; [tauto|tauto|done].
    + exists m2, R2. split_and!; [done|done|]. intros a b Ha. rewrite ER2 by done. unfold nullifies.
      assert (length fs = length (t_xrl_stack g)) as -> by (rewrite <- (hr_forms _ _ _ Hg); apply length_fmap). rewrite firstn_all. split; (intros [?|?]; [left|by right]); [|tauto].
      split_and!; [tauto|lia|tauto].
Qed.

(** The grammar after the symbols below [s] have their lists. *)
Definition nulled_at g (R : Z -> gset Z) (s : Z) g' (cs : list CIL) : Prop :=
  exists ca l, g' = set_t_xsy_stack l (set_t_cilar ca g) /\ cilar_rep ca cs /\ length l = length (t_xsy_stack g)
    /\ forall i x', l !! i = Some x' -> exists x, t_xsy_stack g !! i = Some x
         /\ if decide (Z.of_nat i < s)
            then exists c, x' = set_Nulled_XSYIDs_of_XSY (Some c) x /\ c ∈ cs /\ cil_ints c = ints_of (elems n (R (Z.of_nat i)))
            else x' = x.

Lemma census_nullification_ok junk g cs : (MARPA_AVL_MAX_HEIGHT <= tree_rounds)%nat -> has_rules n fs g -> 0 < n -> 2 * n <= INT_MAX ->
  n * (4 * row_words n) < UINT_MOD -> cilar_rep (t_cilar g) cs -> Z.of_nat (length cs) + n < SIZE_MOD - 1 ->
  exists g' R cs', census_nullification junk g = Ok g' /\ nulled_at g R n g' cs' /\ Z.of_nat (length cs') <= Z.of_nat (length cs) + n
    /\ forall a b, 0 <= a < n -> b ∈ R a <-> tc (nullifies g) a b.
Proof.
  intros Hfuel Hg Hn Hn2 Hfit Hca Hcs. unfold census_nullification. pose proof (row_words_pos n ltac:(lia)) as Hw.
  destruct (matrix_obs_create_ok n n ltac:(lia) ltac:(lia) ltac:(nia) (junk 6%nat)) as (m0&Hm0&Hrep0); [nia|].
  rewrite (hr_count _ _ _ Hg), Hm0. cbn [mbind res_bind].
  destruct (nullification_matrix g m0 Hg Hn Hrep0) as (m1&R1&Hm1&HR1&ER1). rewrite (hr_count _ _ _ Hg) in Hm1. apply bind_Ok in Hm1 as (m01&->&Hm1). cbn [mbind res_bind]. rewrite Hm1. cbn [mbind res_bind].
  destruct (transitive_closure_ok n R1 m1 HR1) as (m2&R&->&HR&ER). cbn [mbind res_bind].
  destruct (symbols_loop g (fun s c => c.1 = m2 /\ exists cs', nulled_at g R s c.2 cs' /\ Z.of_nat (length cs') <= Z.of_nat (length cs) + s)
    (fun xsyid c =>
        let '(m, g) := c in
        row ← matrix_row m xsyid;
        r ← cil_bv_add tree_rounds (t_cilar g) row;
        let '(cil, cilar, row) := r in
        g ← upd_xsy (set_t_cilar cilar g) xsyid (set_Nulled_XSYIDs_of_XSY (Some cil));
        Ok (bm_set_data m (bv_words row), g)) (m2, g) Hg) as ([m' g']&Hloop&Hm'&cs'&Hat&Hlen); [lia| | |].
  - split; [done|]. exists cs. split; [|lia]. exists (t_cilar g), (t_xsy_stack g). split_and!; [by destruct g|done|done|].
    intros i x' Hx. exists x'. split; [done|]. by rewrite decide_False by lia.
  - intros s [m g1] Hs (Em&cs1&(ca&l&Hg1&Hca1&Hl&Hat)&Hlen). cbn [fst snd] in *. subst m. rewrite (matrix_row_ok m2 n n R s HR Hs). cbn [mbind res_bind].
    subst g1. cbn [t_cilar set_t_cilar set_t_xsy_stack].
    destruct (cil_bv_add_ok tree_rounds Hfuel ca cs1 (BV (t_row_data m2) (row_base n s)) n (R s)) as (c&ca2&cs2&->&Hca2&(Hc&Hin&Hlen2));
      [done|apply (mr_row _ _ _ _ HR s Hs)|done|lia|]. cbn [mbind res_bind].
    rewrite symbol_upd with (n := n) (fs := fs); [|destruct Hg as [H1 H2 H3 H4]; split; [unfold XSY_Count_of_G in *; cbn [t_xsy_stack set_t_cilar set_t_xsy_stack]; by rewrite Hl|done..]|done].
    cbn [mbind res_bind bv_words]. eexists. split; [reflexivity|]. cbn [fst snd]. split; [by destruct m2|]. exists cs2. split; [|lia].
    exists ca2, (alter (set_Nulled_XSYIDs_of_XSY (Some c)) (Z.to_nat s) l). split_and!; [done|done|by rewrite length_alter|].
    intros i x' Hx'. rewrite list_lookup_alter in Hx'. destruct (decide (Z.to_nat s = i)) as [<-|Hne].
    + apply fmap_Some in Hx' as (x0&Hx0&->). destruct (Hat _ _ Hx0) as (x&Hx&Hcase). exists x. split; [done|]. rewrite Z2Nat.id in * by lia.
      rewrite decide_False in Hcase by lia. subst x0. rewrite decide_True by lia. exists c. split_and!; [done|apply Hin; by right|done].
    + destruct (Hat _ _ Hx') as (x&Hx&Hcase). exists x. split; [done|]. destruct (decide (Z.of_nat i < s)).
      * rewrite decide_True by lia. destruct Hcase as (c'&->&Hc'&?). exists c'. split_and!; [done|apply Hin; by left|done].
      * by rewrite decide_False by lia.
  - rewrite (hr_count _ _ _ Hg) in Hloop. rewrite Hloop. cbn [mbind res_bind snd]. cbn [fst snd] in Hat. exists g', R, cs'. split; [done|]. split; [exact Hat|]. split; [exact Hlen|]. intros a b Ha. rewrite ER by done. apply tc_ext. intros x y.
    split; [intros [Hx Hy]; by apply ER1|]. intros Hxy. assert (0 <= x < n) as Hx.
    { destruct Hxy as [(_&Hp&Hf)|(r&Hr&_&<-&_)].
      - unfold symbol_flag in Hf. pose proof (hr_count _ _ _ Hg) as Hcount. unfold XSY_Count_of_G in Hcount.
        destruct (t_xsy_stack g !! Z.to_nat x) eqn:Hl; [|done]. apply lookup_lt_Some in Hl. lia.
      - apply list_elem_of_lookup in Hr as [i Hi]. apply (form_lookup n fs g Hg i). rewrite <- (hr_forms _ _ _ Hg). unfold forms_of. by rewrite list_lookup_fmap, Hi. }
    split; [done|]. by apply ER1.
Qed.

(** ** Cycles *)

(** The symbols of a right-hand side that are not nullable. *)
Definition nonnullables (N : gset Z) (f : rule_form) : list Z := filter (fun s => s ∉ N) (rf_rhs f).

(** A rule leads to the rules of its only symbol that is not nullable, or, when all are, to
    those of its symbols that are not nulling. *)
Definition leads_to (N : gset Z) g (f : rule_form) (s : Z) : Prop :=
  nonnullables N f = [s] \/ (nonnullables N f = [] /\ s ∈ rf_rhs f /\ symbol_flag XSY_is_Nulling g s = false).
Definition unit_step (N : gset Z) g (a b : Z) : Prop :=
  exists i j f f', a = Z.of_nat i /\ b = Z.of_nat j /\ fs !! i = Some f /\ fs !! j = Some f' /\ leads_to N g f (rf_lhs f').

Definition rules_matrix (R : Z -> Z -> Prop) (m : Bit_Matrix) : Prop :=
  exists M, bm_rep m (Z.of_nat (length fs)) (Z.of_nat (length fs)) M /\ forall a b, 0 <= a < Z.of_nat (length fs) -> b ∈ M a <-> R a b.

Lemma unit_transitions_ok x i s m (R : Z -> Z -> Prop) : lists_rep n (rule_pairs (fun f => [rf_lhs f]) fs) x -> 0 <= s < n -> (i < length fs)%nat ->
  rules_matrix R m ->
  exists m', unit_transitions x (Z.of_nat i) s m = Ok m'
    /\ rules_matrix (fun a b => R a b \/ (a = Z.of_nat i /\ exists j f', b = Z.of_nat j /\ fs !! j = Some f' /\ rf_lhs f' = s)) m'.
Proof.
  intros Hx Hs Hi (M&HM&EM). destruct (Hx s Hs) as (b&ids&Hb&He&Hdata&Hids). unfold unit_transitions. rewrite Hb. cbn [mbind res_bind]. rewrite He. cbn [mbind res_bind].
  rewrite (lists_loop x b ids (fun r m => matrix_bit_set m (Z.of_nat i) r) m Hdata).
  assert (forall r, r ∈ ids <-> exists j f', r = Z.of_nat j /\ fs !! j = Some f' /\ rf_lhs f' = s) as Hin.
  { intros r. rewrite Hids, elem_of_rule_pairs. split; intros (j&f'&->&Hj&Hl); exists j, f'; (split_and!; [done..|]).
    - by apply list_elem_of_singleton in Hl.
    - by apply list_elem_of_singleton. }
  destruct (row_add_all (Z.of_nat (length fs)) m M (Z.of_nat i) ids HM) as (m'&->&HM'); [lia| |].
  - apply Forall_forall. intros r (j&f'&->&Hj&_)%Hin. apply lookup_lt_Some in Hj. lia.
  - exists m'. split; [done|]. eexists. split; [exact HM'|]. intros a c Ha. unfold row_set. destruct (decide (a = Z.of_nat i)) as [->|Hne].
    + rewrite elem_of_union, elem_of_list_to_set, EM, Hin by done. tauto.
    + rewrite EM by done. split; [by left|]. intros [?|[? _]]; [done|congruence].
Qed.

Lemma rules_matrix_ext (R R' : Z -> Z -> Prop) m : rules_matrix R m -> (forall a b, 0 <= a < Z.of_nat (length fs) -> R a b <-> R' a b) -> rules_matrix R' m.
Proof. intros (M&HM&EM) HR. exists M. split; [done|]. intros a b Ha. rewrite EM by done. by apply HR. Qed.

(** The loop that looks for the symbols that are not nullable. *)
Lemma nonnullable_loop v N r : bv_rep v n N -> shaped r -> form_valid n (form_of r) ->
  for_res (Z.to_nat (Length_of_XRL r)) 0 (fun rhs_ix c =>
        let '(nonnullable_id, nonnullable_count) := c in
        xsy_id ← RHS_ID_of_XRL r rhs_ix;
        b ← bv_bit_test v xsy_id;
        Ok (if b : bool then (nonnullable_id, nonnullable_count) else (xsy_id, nonnullable_count + 1))) (-1, 0)
  = Ok (default (-1) (list.last (nonnullables N (form_of r))), Z.of_nat (length (nonnullables N (form_of r)))).
Proof.
  intros Hv Hr Hval. set (body2 := fun s c => let '(nonnullable_id, nonnullable_count) := c in b ← bv_bit_test v s;
        Ok (if b : bool then (nonnullable_id, nonnullable_count) else (s, nonnullable_count + 1))).
  rewrite (rhs_loop r _ body2) by (try done; intros ix s [c1 c2] Hs; by rewrite Hs).
  destruct (each_res_ok (fun l c => c = (default (-1) (list.last (filter (fun s => s ∉ N) l)), Z.of_nat (length (filter (fun s => s ∉ N) l))))
    (rf_rhs (form_of r)) body2 (-1, 0)) as (c&->&->); [done| |done].
  intros l1 s l2 acc Hl ->. unfold body2.
  rewrite (bv_bit_test_ok v n N s Hv) by (apply (form_valid_mentions _ _ _ Hval), rhs_mentions; rewrite Hl; apply elem_of_app; right; left).
  cbn [mbind res_bind]. rewrite list.filter_app. destruct (bool_decide_reflect (s ∈ N)) as [Hin|Hnin].
  - replace (filter (fun s => s ∉ N) [s]) with (@nil Z) by (by rewrite filter_cons_False by tauto). rewrite app_nil_r. eexists. split; reflexivity.
  - replace (filter (fun s => s ∉ N) [s]) with [s] by (by rewrite filter_cons_True by done). rewrite last_snoc, length_app. simpl. eexists. split; [reflexivity|]. f_equal. lia.
Qed.

Lemma unit_rule_ok g v N x i f m (R : Z -> Z -> Prop) : has_rules n fs g -> bv_rep v n N -> lists_rep n (rule_pairs (fun f => [rf_lhs f]) fs) x ->
  fs !! i = Some f -> rules_matrix R m ->
  exists m', unit_rule g v x (Z.of_nat i) m = Ok m'
    /\ rules_matrix (fun a b => R a b \/ (a = Z.of_nat i /\ exists j f', b = Z.of_nat j /\ fs !! j = Some f' /\ leads_to N g f (rf_lhs f'))) m'.
Proof.
  intros Hg Hv Hx Hf Hm. destruct (rule_read n fs g i f Hg Hf) as (r&Hr&_&Hform&Hsh). pose proof (form_lookup n fs g Hg i f Hf) as Hval.
  pose proof (lookup_lt_Some _ _ _ Hf) as Hi. unfold unit_rule. rewrite Hr. cbn [mbind res_bind]. cbv zeta.
  rewrite (nonnullable_loop v N r Hv Hsh) by by rewrite Hform. rewrite Hform. cbn [mbind res_bind].
  assert (forall s, s ∈ rf_rhs f -> 0 <= s < n) as Hrange by (intros s Hs; apply (form_valid_mentions _ _ _ Hval), rhs_mentions, Hs).
  destruct (nonnullables N f) as [|s [|s2 l]] eqn:Hnn.
  - rewrite Z.eqb_refl. change (Z.of_nat 0 =? 1) with false. cbv iota.
    set (body2 := fun s m => xsy ← XSY_by_ID g s; if XSY_is_Nulling xsy then Ok m else unit_transitions x (Z.of_nat i) s m).
    rewrite (rhs_loop r _ body2) by (try done; intros ix s m' Hs; by rewrite Hs). rewrite Hform.
    destruct (each_res_ok (fun l m => rules_matrix (fun a b => R a b \/ (a = Z.of_nat i /\ exists j f', b = Z.of_nat j /\ fs !! j = Some f'
        /\ rf_lhs f' ∈ l /\ symbol_flag XSY_is_Nulling g (rf_lhs f') = false)) m) (rf_rhs f) body2 m) as (m'&Hres&Hm').
    + eapply rules_matrix_ext; [exact Hm|]. intros a b _. split; [by left|]. intros [?|(_&j&f'&_&_&?%elem_of_nil&_)]; done.
    + intros l1 s l2 m1 Hl Hm1. assert (0 <= s < n) as Hs by (apply Hrange; rewrite Hl; apply elem_of_app; right; left). unfold body2.
      destruct (flag_read g s XSY_is_Nulling Hg Hs) as (y&->&Hy). cbn [mbind res_bind]. rewrite Hy.
      destruct (symbol_flag XSY_is_Nulling g s) eqn:Hfl.
      * exists m1. split; [done|]. eapply rules_matrix_ext; [exact Hm1|]. intros a b _.
        setoid_rewrite elem_of_app. setoid_rewrite list_elem_of_singleton. split; intros [?|(->&j&f'&->&Hj&Hin&Hflag)]; [by left|right|by left|right];
          (split; [done|]); exists j, f'; split_and!; try done; [by left|]. destruct Hin as [?|Heq]; [done|congruence].
      * destruct (unit_transitions_ok x i s m1 _ Hx Hs Hi Hm1) as (m2&->&Hm2). exists m2. split; [done|]. eapply rules_matrix_ext; [exact Hm2|]. intros a b _.
        setoid_rewrite elem_of_app. setoid_rewrite list_elem_of_singleton. split.
        -- intros [[?|(->&j&f'&->&Hj&Hin&Hflag)]|(->&j&f'&->&Hj&Hl')]; [by left|right|right]; (split; [done|]); exists j, f'; split_and!; try done; [by left|by right|congruence].
        -- intros [?|(->&j&f'&->&Hj&[Hin|Heq]&Hflag)]; [by left; left|left; right|right]; (split; [done|]); exists j, f'; split_and!; done.
    + exists m'. split; [exact Hres|]. eapply rules_matrix_ext; [exact Hm'|]. intros a b _. unfold leads_to. rewrite Hnn.
      split; intros [?|(->&j&f'&->&Hj&Hcase)]; [by left|right|by left|right]; (split; [done|]); exists j, f'; split_and!; try done.
      * right. tauto.
      * destruct Hcase as [?|(_&?&_)]; done.
      * destruct Hcase as [?|(_&_&?)]; done.
  - change (Z.of_nat (length [s]) =? 1) with true. cbv iota. change (default (-1) (list.last [s])) with s.
    assert (0 <= s < n) as Hs. { apply Hrange. assert (s ∈ nonnullables N f) as Hin by (rewrite Hnn; left). by apply list_elem_of_filter in Hin as [_ ?]. }
    destruct (unit_transitions_ok x i s m R Hx Hs Hi Hm) as (m'&->&Hm'). exists m'. split; [done|]. eapply rules_matrix_ext; [exact Hm'|]. intros a b _.
    unfold leads_to. rewrite Hnn. split; intros [?|(->&j&f'&->&Hj&Hcase)]; [by left|right|by left|right]; (split; [done|]); exists j, f'; split_and!; try done.
    + left. by subst.
    + destruct Hcase as [[=]|(?&_)]; done.
  - destruct (Z.eqb_spec (Z.of_nat (length (s :: s2 :: l))) 1); [simpl in *; lia|]. destruct (Z.eqb_spec (Z.of_nat (length (s :: s2 :: l))) 0); [simpl in *; lia|].
    exists m. split; [done|]. eapply rules_matrix_ext; [exact Hm|]. intros a b _. split; [by left|]. intros [?|(_&j&f'&_&_&Hcase)]; [done|].
    unfold leads_to in Hcase. rewrite Hnn in Hcase. destruct Hcase as [?|(?&_)]; done.
Qed.

(** The rules after the marks of those of [p]. *)
Definition mark_loops (p : Z -> bool) (l : list XRL) : list XRL := imap (fun i r => if p (Z.of_nat i) then set_xrl_is_loop true r else r) l.

Lemma mark_loops_forms p l : form_of <$> mark_loops p l = form_of <$> l.
Proof.
  apply list_eq. intros i. unfold mark_loops. rewrite !list_lookup_fmap, list_lookup_imap. destruct (l !! i) as [r|]; [|done]. simpl. by destruct (p _).
Qed.

Lemma mark_loops_shaped p l : Forall shaped l -> Forall shaped (mark_loops p l).
Proof.
  rewrite !Forall_lookup. intros Hl i r. unfold mark_loops. rewrite list_lookup_imap. intros Hr. apply fmap_Some in Hr as (r0&Hr0&->).
  specialize (Hl i r0 Hr0). by destruct (p _).
Qed.

Lemma mark_loops_alter p q i l : (forall z, q z = p z || (z =? Z.of_nat i)) -> p (Z.of_nat i) = false ->
  alter (set_xrl_is_loop true) i (mark_loops p l) = mark_loops q l.
Proof.
  intros Hq Hp. apply list_eq. intros j. unfold mark_loops. rewrite list_lookup_alter, !list_lookup_imap, Hq. destruct (decide (i = j)) as [<-|Hne].
  - rewrite Hp, Z.eqb_refl. simpl. by destruct (l !! i).
  - destruct (Z.eqb_spec (Z.of_nat j) (Z.of_nat i)); [lia|]. by rewrite orb_false_r.
Qed.

(** The census of the cycles marks the rules that lead back to themselves. *)
Lemma census_loops_ok junk g v N x : has_rules n fs g -> bv_rep v n N -> lists_rep n (rule_pairs (fun f => [rf_lhs f]) fs) x ->
  0 < Z.of_nat (length fs) <= INT_MAX -> Z.of_nat (length fs) * (4 * row_words (Z.of_nat (length fs))) < UINT_MOD ->
  exists g' (p : Z -> bool), census_loops junk g v x = Ok g'
    /\ (forall a, 0 <= a < Z.of_nat (length fs) -> p a = true <-> tc (unit_step N g) a a)
    /\ exists e c, g' = set_t_events e (set_t_has_cycle c (set_t_xrl_stack (mark_loops p (t_xrl_stack g)) g))
    /\ (c = true <-> t_has_cycle g = true \/ exists a, 0 <= a < Z.of_nat (length fs) /\ p a = true).
Proof.
  intros Hg Hv Hx Hlen Hfit. set (k := Z.of_nat (length fs)) in *. unfold census_loops. rewrite (rules_count _ _ _ Hg). fold k. pose proof (row_words_pos k ltac:(lia)) as Hw.
  destruct (matrix_obs_create_ok k k ltac:(lia) Hlen ltac:(nia) (junk 7%nat)) as (m0&->&H0); [nia|]. cbn [mbind res_bind]. cbv zeta.
  destruct (rules_loop n fs g (fun i m => rules_matrix (fun a b => unit_step N g a b /\ a < Z.of_nat i) m) (unit_rule g v x) m0 Hg) as (m1&Hm1&M1&HM1&EM1).
  - exists (fun _ => ∅). split; [done|]. intros a b Ha. split; [set_solver|lia].
  - intros i f m Hf Hm. destruct (unit_rule_ok g v N x i f m _ Hg Hv Hx Hf Hm) as (m'&->&Hm'). exists m'. split; [done|].
    eapply rules_matrix_ext; [exact Hm'|]. intros a b _. cbv beta. split.
    + intros [[? ?]|(->&j&f'&->&Hj&Hl)]; [split; [done|lia]|]. split; [|lia]. exists i, j, f, f'. by split_and!.
    + intros [(i'&j&f0&f'&->&->&Hi'&Hj&Hl) Hlt]. destruct (decide (i' = i)) as [->|Hne]; [right|left; split; [|lia]].
      * split; [done|]. exists j, f'. split_and!; [done..|]. by simplify_eq.
      * exists i', j, f0, f'. by split_and!.
  - rewrite (rules_count _ _ _ Hg) in Hm1. fold k in Hm1. rewrite Hm1. cbn [mbind res_bind]. fold k in HM1, EM1.
    destruct (transitive_closure_ok k M1 m1 HM1) as (m2&M2&->&HM2&EM2). cbn [mbind res_bind].
    assert (forall a b, 0 <= a < k -> b ∈ M2 a <-> tc (unit_step N g) a b) as EM.
    { intros a b Ha. rewrite EM2 by done. apply tc_ext. intros c d. split; [intros [Hc Hd]; by apply EM1 in Hd as [? _]|]. intros Hs.
      assert (0 <= c < k) as Hc by (destruct Hs as (i&j&f&f'&->&_&Hi&_); apply lookup_lt_Some in Hi; lia). split; [done|]. apply EM1; [done|]. split; [done|lia]. }
    set (p := fun a => bool_decide (a ∈ M2 a)).
    destruct (for_res_ok (fun j c => c.1 = set_t_xrl_stack (mark_loops (fun a => p a && (a <? j)) (t_xrl_stack g)) g /\ 0 <= c.2
        /\ (c.2 = 0 <-> ~ exists a, 0 <= a < j /\ p a = true)) (Z.to_nat k) 0 (loop_rule m2) (g, 0)) as ([g' c]&->&Hg'&Hc&Ec).
    + cbn [fst snd]. split_and!; [|done|split; [intros _ (a&?&_); lia|done]].
      assert (mark_loops (fun a => p a && (a <? 0)) (t_xrl_stack g) = t_xrl_stack g) as ->; [|by destruct g].
      apply list_eq. intros i. unfold mark_loops. rewrite list_lookup_imap. destruct (Z.ltb_spec (Z.of_nat i) 0); [lia|]. rewrite andb_false_r. by destruct (_ !! i).
    + intros j [g1 c] Hj (Hg1&Hc&Ec). cbn [fst snd] in *. unfold loop_rule. rewrite (matrix_bit_test_ok m2 k k M2 j j HM2) by lia. cbn [mbind res_bind]. fold (p j).
      assert (forall z, p z && (z <? j + 1) = (p z && (z <? j)) || (p j && (z =? j))) as Hq.
      { intros z. destruct (Z.eqb_spec z j) as [->|Hne]; [destruct (Z.ltb_spec j (j + 1)), (Z.ltb_spec j j); try lia; by destruct (p j)|].
        rewrite andb_false_r, orb_false_r. f_equal. destruct (Z.ltb_spec z j), (Z.ltb_spec z (j + 1)); (done || lia). }
      destruct (p j) eqn:Hp.
      * destruct (lookup_lt_is_Some_2 (t_xrl_stack g) (Z.to_nat j)) as [r Hr]; [rewrite <- (length_fmap form_of); fold (forms_of g); rewrite (hr_forms _ _ _ Hg); lia|].
        assert (has_rules n fs g1) as Hhr.
        { subst g1. apply has_rules_rules; [done|rewrite mark_loops_forms; apply (hr_forms _ _ _ Hg)|apply mark_loops_shaped, (hr_shaped _ _ _ Hg)]. }
        assert (exists r1, t_xrl_stack g1 !! Z.to_nat j = Some r1) as [r1 Hr1].
        { subst g1. cbn [t_xrl_stack set_t_xrl_stack]. unfold mark_loops. rewrite list_lookup_imap, Hr. by eexists. }
        pose proof (rule_upd g1 (Z.to_nat j) r1 (set_xrl_is_loop true) Hhr Hr1) as Hupd. rewrite Z2Nat.id in Hupd by lia. rewrite Hupd. cbn [mbind res_bind].
        eexists. split; [reflexivity|]. cbn [fst snd]. split_and!; [|lia|split; [lia|intros Hno; exfalso; apply Hno; exists j; split; [lia|done]]].
        subst g1. cbn [t_xrl_stack set_t_xrl_stack]. rewrite (mark_loops_alter _ (fun a => p a && (a <? j + 1))); [done| |].
        -- intros z. rewrite Z2Nat.id by lia. by rewrite Hq.
        -- rewrite Z2Nat.id, Z.ltb_irrefl by lia. apply andb_false_r.
      * eexists. split; [reflexivity|]. cbn [fst snd]. split_and!; [|done|].
        -- rewrite Hg1. f_equal. unfold mark_loops. apply imap_ext. intros i r _. cbv beta. by rewrite Hq, orb_false_r.
        -- rewrite Ec. split; intros Hno (a&Ha&Hpa); apply Hno; exists a; (split; [|done]); [|lia]. destruct (decide (a = j)) as [->|]; [congruence|lia].
    + cbn [fst snd] in *. rewrite Z.add_0_l, Z2Nat.id in * by lia.
      assert (mark_loops (fun a => p a && (a <? k)) (t_xrl_stack g) = mark_loops p (t_xrl_stack g)) as Em.
      { unfold mark_loops. apply imap_ext. intros i r Hr. cbv beta. destruct (Z.ltb_spec (Z.of_nat i) k); [by rewrite andb_true_r|].
        apply lookup_lt_Some in Hr. rewrite <- (length_fmap form_of) in Hr. fold (forms_of g) in Hr. rewrite (hr_forms _ _ _ Hg) in Hr. lia. }
      cbn [mbind res_bind]. destruct (Z.eqb_spec c 0) as [Hz|Hnz]; (eexists; exists p; split; [reflexivity|]).
      * split; [intros a Ha; unfold p; rewrite bool_decide_eq_true; by apply EM|]. exists (t_events g), (t_has_cycle g). subst g'. rewrite Em.
        split; [by destruct g|]. split; [by left|]. intros [?|Hex]; [done|]. by apply Ec in Hz.
      * split; [intros a Ha; unfold p; rewrite bool_decide_eq_true; by apply EM|]. exists (t_events g ++ [(MARPA_EVENT_LOOP_RULES, c)]), true. subst g'. rewrite Em.
        split; [done|]. split; [|done]. intros _. right.
        destruct (decide (Exists (fun a => p a = true) (seqZ 0 k))) as [He|Hno].
        -- apply Exists_exists in He as (a&Ha&Hpa). apply elem_of_seqZ in Ha. exists a. split; [lia|done].
        -- exfalso. apply Hnz, Ec. intros (a&Ha&Hpa). apply Hno, Exists_exists. exists a. split; [apply elem_of_seqZ; lia|done].
Qed.
End rules.
