(* ===== verification/CensusBody.v ===== *)
(** * The census of a grammar: its body, step by step

    For any grammar that the calls of the construction can build and whose sizes fit the
    integers of the code: the steps of the census with the sets they compute, and what the
    last of them leave. *)
From stdpp Require Import sets gmap list_numbers relations.
From S2P Require Import Prelude Avl AvlTree AvlProbe AvlTheorems BitVector BitVectorTheorems BitScan Matrix MatrixTheorems Cil CilTheorems MarpaGrammar MarpaRules MarpaGrammarTheorems MarpaRuleTheorems MarpaCalls Census CensusSpec CensusLists CensusClosure CensusMarks CensusRules.

(** ** From the invariant of a grammar *)

(** The sizes the code can count with: bits of a row, words of a matrix, items of a list. *)
Record fits (g : GRAMMAR) : Prop := {
  ft_symbols : 2 * XSY_Count_of_G g <= INT_MAX;
  ft_symbol_matrix : XSY_Count_of_G g * (4 * row_words (XSY_Count_of_G g)) < UINT_MOD;
  ft_rules : XRL_Count_of_G g <= INT_MAX;
  ft_rule_matrix : XRL_Count_of_G g * (4 * row_words (XRL_Count_of_G g)) < UINT_MOD;
  ft_size : total_size (rules_of g) <= INT_MAX
}.

Lemma wf_form g r : g_wf g -> r ∈ t_xrl_stack g -> rule_wf (length (symbols_of g)) (xrl_core r).
Proof. intros Hg Hr. apply (wf_rule _ _ (gw_core _ Hg)). unfold rules_of. by apply list_elem_of_fmap_2. Qed.

Lemma wf_has_rules g : g_wf g -> has_rules (XSY_Count_of_G g) (forms_of g) g.
Proof.
  intros Hg. split; [done|done| |].
  - apply Forall_forall. intros r Hr. pose proof (wf_form g r Hg Hr) as Hw. split; [apply (rw_symbols _ _ Hw)|apply (rw_length _ _ Hw)].
  - apply Forall_forall. intros f Hf. apply list_elem_of_fmap in Hf as (r&->&Hr). pose proof (wf_form g r Hg Hr) as Hw.
    unfold XSY_Count_of_G. rewrite <- symbols_length. split; [apply (rule_lhs_valid _ _ Hw)|].
    apply Forall_forall. intros s [Hs|Hs]%elem_of_app.
    + unfold sep_list in Hs. cbn [rf_seq rf_sep form_of] in Hs. destruct (rw_sep _ _ Hw) as [E|[Hv _]]; cbn [rc_sep xrl_core] in *.
      * rewrite E in Hs. rewrite andb_false_r in Hs. by apply elem_of_nil in Hs.
      * destruct (XRL_is_Sequence r && _); [|by apply elem_of_nil in Hs]. by apply list_elem_of_singleton in Hs as ->.
    + apply (rw_valid _ _ Hw). rewrite (rw_symbols _ _ Hw). by right.
Qed.

Lemma wf_seq_single g : g_wf g -> seq_single (forms_of g).
Proof.
  intros Hg f Hf Hs. apply list_elem_of_fmap in Hf as (r&->&Hr). pose proof (rw_seq _ _ (wf_form g r Hg Hr) Hs) as Hl.
  change (rc_rhs (xrl_core r)) with (rf_rhs (form_of r)) in Hl. destruct (rf_rhs (form_of r)) as [|y [|? ?]]; [done|by exists y|done].
Qed.

Lemma rule_pairs_size g : g_wf g -> Z.of_nat (length (rule_pairs mentions (forms_of g))) <= total_size (rules_of g).
Proof.
  intros Hg. unfold forms_of, rules_of. assert (forall r, r ∈ t_xrl_stack g -> rule_wf (length (symbols_of g)) (xrl_core r)) as Hw by (intros; by apply wf_form).
  clear Hg. induction (t_xrl_stack g) as [|r l IH] using rev_ind; [done|]. rewrite !fmap_app. cbn [fmap list_fmap].
  rewrite rule_pairs_snoc, total_size_app, length_app, length_fmap. specialize (IH (fun r' H => Hw r' ltac:(apply elem_of_app; by left))).
  assert (Z.of_nat (length (mentions (form_of r))) <= 1 + rc_length (xrl_core r)); [|lia].
  rewrite (rw_length _ _ (Hw r ltac:(apply elem_of_app; right; left))). unfold mentions. rewrite length_app.
  change (rc_rhs (xrl_core r)) with (rf_rhs (form_of r)). unfold sep_list. destruct (rf_seq _ && _); simpl; lia.
Qed.

(** ** What the census is about *)

Lemma flag_same h f p e g s : (forall x, h (f x) = h x) -> symbol_flag h (with_symbols (mark p f (t_xsy_stack g)) e g) s = symbol_flag h g s.
Proof.
  intros Hf. unfold symbol_flag. cbn [t_xsy_stack with_symbols set_t_events set_t_xsy_stack]. rewrite mark_lookup.
  destruct (t_xsy_stack g !! Z.to_nat s) as [x|]; [|done]. simpl. destruct (p _); [apply Hf|done].
Qed.

(** What the census starts from: no flag of it is set. *)
Record unmarked_symbol (x : XSY) : Prop := {
  um_nullable : XSY_is_Nullable x = false;
  um_productive : XSY_is_Productive x = false;
  um_accessible : XSY_is_Accessible x = false;
  um_nulling : XSY_is_Nulling x = false;
  um_terminal : XSY_is_Locked_Terminal x = false -> XSY_is_Terminal x = false
}.
Definition unmarked (g : GRAMMAR) : Prop := Forall unmarked_symbol (t_xsy_stack g).

(** A terminal: as it was declared, or by default a symbol without a rule. *)
Definition terminal (g : GRAMMAR) (z : Z) : Prop :=
  exists x, 0 <= z /\ t_xsy_stack g !! Z.to_nat z = Some x
    /\ if XSY_is_Locked_Terminal x then XSY_is_Terminal x = true else forall f, f ∈ forms_of g -> rf_lhs f <> z.

Definition nullable (g : GRAMMAR) (z : Z) : Prop := derives (forms_of g) (terminal g) z [].
Definition productive (g : GRAMMAR) (z : Z) : Prop := exists w, derives (forms_of g) (terminal g) z w.
(** A left-hand side from which no terminal can be reached. *)
Definition nulling (g : GRAMMAR) (z : Z) : Prop :=
  (exists f, f ∈ forms_of g /\ rf_lhs f = z) /\ forall t, terminal g t -> ~ tc (occurs (forms_of g)) z t.

Section body.
Context `{Library}.
Context (Hfuel : (MARPA_AVL_MAX_HEIGHT <= tree_rounds)%nat).
Context (g : GRAMMAR) (Hg : g_wf g) (Hfits : fits g).
#[local] Abbreviation n := (XSY_Count_of_G g).
#[local] Abbreviation fs := (forms_of g).

(** The sets of the census. *)
Record census_sets (L T N P : gset Z) (R : Z -> gset Z) : Prop := {
  cs_lhs z : z ∈ L <-> exists f, f ∈ forms_of g /\ rf_lhs f = z;
  cs_terminal z : z ∈ T <-> terminal g z;
  cs_nullable z : z ∈ N <-> nullable g z;
  cs_productive z : z ∈ P <-> productive g z;
  cs_reach a b : 0 <= a < XSY_Count_of_G g -> b ∈ R a <-> tc (occurs (forms_of g)) a b
}.

(** The grammar with the marks of the terminals, and with those of the symbols that are
    nullable, productive, accessible, nulling; [e1], [e2]: the events. *)
Definition with_terminals (T : gset Z) : GRAMMAR :=
  with_symbols (mark (fun z => bool_decide (z ∈ T)) (set_XSY_is_Terminal true) (t_xsy_stack g)) (t_events g) g.
Definition with_nullable (T N : gset Z) : GRAMMAR :=
  with_symbols (mark (fun z => bool_decide (z ∈ N)) (set_XSY_is_Nullable true) (t_xsy_stack (with_terminals T)))
    (t_events (with_terminals T) ++ (pair MARPA_EVENT_COUNTED_NULLABLE <$> counted_of (with_terminals T) (elems (XSY_Count_of_G g) N))) (with_terminals T).
Definition with_productive (T N P : gset Z) : GRAMMAR :=
  with_symbols (mark (fun z => bool_decide (z ∈ P)) (set_XSY_is_Productive true) (t_xsy_stack (with_nullable T N))) (t_events (with_nullable T N)) (with_nullable T N).
Definition with_accessible (T N P A : gset Z) : GRAMMAR :=
  with_symbols (mark (fun z => bool_decide (z ∈ A)) (set_XSY_is_Accessible true) (t_xsy_stack (with_productive T N P))) (t_events (with_productive T N P)) (with_productive T N P).
Definition nulling_list (T N P A L : gset Z) (R : Z -> gset Z) : list Z := nulling_terminals (with_accessible T N P A) T R (elems (XSY_Count_of_G g) L).
Definition with_nulling (T N P A L : gset Z) (R : Z -> gset Z) : GRAMMAR :=
  with_symbols (mark (fun z => bool_decide (z ∈ L) && nulls T R z) (set_XSY_is_Nulling true) (t_xsy_stack (with_accessible T N P A)))
    (t_events (with_accessible T N P A) ++ (pair MARPA_EVENT_NULLING_TERMINAL <$> nulling_list T N P A L R)) (with_accessible T N P A).

(** The body, step by step. *)
Lemma census_body_steps junk start : 0 < XRL_Count_of_G g -> 0 <= start < XSY_Count_of_G g ->
  exists L T N P A R v x, census_sets L T N P R /\ (forall z, z ∈ A <-> rtc (occurs (forms_of g)) start z)
    /\ bv_rep v (XSY_Count_of_G g) N /\ lists_rep (XSY_Count_of_G g) (rule_pairs (fun f => [rf_lhs f]) (forms_of g)) x
    /\ precompute_census_body junk g start
       = if negb (Z.of_nat (length (counted_of (with_terminals T) (elems (XSY_Count_of_G g) N))) =? 0) then failed (with_nullable T N) MARPA_ERR_COUNTED_NULLABLE
         else if negb (bool_decide (start ∈ P)) then failed (with_productive T N P) MARPA_ERR_UNPRODUCTIVE_START
         else if negb (bool_decide (nulling_list T N P A L R = [])) then failed (with_nulling T N P A L R) MARPA_ERR_NULLING_TERMINAL
         else (g ← census_rules_flags (with_nulling T N P A L R); g ← census_nullification junk g; g ← census_loops junk g v x; Ok (None, g)).
Proof using Hfuel Hg Hfits.
  intros Hrules Hstart. assert (0 < n) as Hn0 by lia. destruct Hfits as [Hn2 Hfit Hr Hrfit Hsize].
  pose proof (wf_has_rules g Hg) as Hhr.  pose proof (wf_seq_single g Hg) as Hsg.
  pose proof (rules_count _ _ _ Hhr) as Hcount. pose proof (rule_pairs_size g Hg) as Hpairs.
  assert (Z.of_nat (length fs) <= INT_MAX) as Hlen by lia.
  assert (to_size_t (External_Size_of_G g) = total_size (rules_of g)) as Hext.
  { rewrite (gw_size _ Hg). rewrite to_int_small by (unfold is_int, INT_MIN, INT_MAX in *; lia). apply to_size_t_small. unfold is_size_t, INT_MAX, SIZE_MOD in *. lia. }
  assert (INT_MAX < SIZE_MOD - 1) as Hmax by (unfold INT_MAX, SIZE_MOD; lia).
  unfold precompute_census_body. destruct (census_rules_ok Hfuel n fs g Hhr junk (total_size (rules_of g))) as (c&->&[(L&HL&EL) (E&HE&EE) Hrhs Hlhs]); [lia|done|done|lia|lia|].
  cbn [mbind res_bind].
  destruct (sym_rule_lists_ok Hfuel n _ _ (rl_rhs c) ltac:(lia) Hrhs Hpairs) as (x1&Hx1&Hrep1); [lia|by eapply mentions_range|].
  rewrite Hx1. cbn [mbind res_bind].
  destruct (sym_rule_lists_ok Hfuel n _ _ (rl_lhs c) ltac:(lia) Hlhs) as (x2&Hx2&Hrep2); [rewrite rule_pairs_lhs; lia|rewrite rule_pairs_lhs; lia|by eapply lhs_range|].
  rewrite Hx2. cbn [mbind res_bind].
  destruct (census_terminals_ok n fs junk g (rl_lhs_v c) L Hhr ltac:(lia) HL) as (tv&T&->&HT&ET). cbn [mbind res_bind]. fold (with_terminals T).
  assert (has_rules n fs (with_terminals T)) as Hhr1 by (apply has_rules_symbols; [done|apply mark_length]).
  destruct (census_reach_ok n fs junk (with_terminals T) Hhr1 ltac:(lia) Hfit) as (m&R&->&HR&ER). cbn [mbind res_bind].
  destruct (census_nullable_ok n fs junk (with_terminals T) (rl_empty_lhs_v c) E x1 Hhr1 HE EE Hrep1) as (nv&N&HN&EN&->). cbn [mbind res_bind].
  assert (has_rules n fs (with_nullable T N)) as Hhr2 by (apply has_rules_symbols; [done|apply mark_length]).
  destruct (census_productive_ok n fs junk (with_nullable T N) nv tv N T x1 Hhr2 HN HT EN Hrep1) as (pv&P&HP&EP&Hprod).
  assert (has_rules n fs (with_productive T N P)) as Hhr3 by (apply has_rules_symbols; [done|apply mark_length]).
  destruct (census_accessible_ok n fs (with_productive T N P) m R start Hhr3 HR ER Hstart) as (A&EA&Hacc).
  assert (has_rules n fs (with_accessible T N P A)) as Hhr4 by (apply has_rules_symbols; [done|apply mark_length]).
  pose proof (census_nulling_ok n fs (with_accessible T N P A) (rl_lhs_v c) tv m L T R Hhr4 HL HT HR) as Hnul.
  assert (forall z, z ∈ T <-> terminal g z) as ET'.
  { intros z. rewrite ET. unfold is_terminal, terminal. split.
    - intros [Hz Ht]. destruct (t_xsy_stack g !! Z.to_nat z) as [x|] eqn:Hx; [|done]. exists x. split_and!; [lia|done|].
      destruct (XSY_is_Locked_Terminal x); [done|]. apply bool_decide_eq_true in Ht. intros f Hf Hl. apply Ht, EL. by exists f.
    - intros (x&Hz&Hx&Ht). rewrite Hx. split; [apply lookup_lt_Some in Hx; unfold n, XSY_Count_of_G; lia|].
      destruct (XSY_is_Locked_Terminal x); [done|]. apply bool_decide_eq_true. intros (f&Hf&Hl)%EL. by apply (Ht f). }
  exists L, T, N, P, A, R, nv, x2. split_and!; [|done|done|done|].
  - split; [done|done| | |done].
    + intros z. rewrite EN. apply closes_nullable, Hsg.
    + intros z. rewrite EP. unfold productive. rewrite <- closes_productive by done. split; apply closes_mono; intros y [?|?]; [by left|right; by apply ET'|by left|right; by apply ET'].
  - fold (with_nullable T N). destruct (negb (Z.of_nat (length _) =? 0)); [done|]. rewrite Hprod. cbn [mbind res_bind]. fold (with_productive T N P).
    rewrite (bv_bit_test_ok pv n P start HP Hstart). cbn [mbind res_bind]. destruct (negb (bool_decide (start ∈ P))); [done|].
    rewrite Hacc. cbn [mbind res_bind]. fold (with_accessible T N P A). rewrite Hnul. done.
Qed.

(** ** The flags of the symbols after the marks *)

Lemma marked_flags T N P A L R z : unmarked g -> (forall z, z ∈ T <-> terminal g z) -> 0 <= z < n ->
  symbol_flag XSY_is_Nullable (with_nulling T N P A L R) z = bool_decide (z ∈ N)
  /\ symbol_flag XSY_is_Productive (with_nulling T N P A L R) z = bool_decide (z ∈ P)
  /\ symbol_flag XSY_is_Accessible (with_nulling T N P A L R) z = bool_decide (z ∈ A)
  /\ symbol_flag XSY_is_Nulling (with_nulling T N P A L R) z = bool_decide (z ∈ L) && nulls T R z
  /\ symbol_flag XSY_is_Terminal (with_nulling T N P A L R) z = bool_decide (z ∈ T).
Proof using g.
  clear Hfuel Hg Hfits. intros Hu HT Hz. destruct (lookup_lt_is_Some_2 (t_xsy_stack g) (Z.to_nat z)) as [x Hx]; [unfold XSY_Count_of_G in Hz; lia|].
  unfold unmarked in Hu. rewrite Forall_lookup in Hu. destruct (Hu _ _ Hx) as [H1 H2 H3 H4 H5].
  assert (z ∉ T -> XSY_is_Terminal x = false) as Hterm.
  { intros Hnot. destruct (XSY_is_Locked_Terminal x) eqn:Hl; [|by apply H5]. apply not_true_is_false. intros Ht. apply Hnot, HT.
    exists x. rewrite Hl. split_and!; [lia|done|done]. }
  unfold symbol_flag, with_nulling, with_accessible, with_productive, with_nullable, with_terminals, with_symbols.
  cbn [t_xsy_stack set_t_events set_t_xsy_stack]. rewrite !mark_lookup, Hx. cbn [fmap option_fmap option_map]. rewrite Z2Nat.id by lia.
  destruct (bool_decide_reflect (z ∈ T)) as [HzT|HzT], (bool_decide (z ∈ N)), (bool_decide (z ∈ P)), (bool_decide (z ∈ A)), (bool_decide (z ∈ L) && nulls T R z);
    cbn; rewrite ?Hterm by done; done.
Qed.

(** ** The last steps *)

(** What the flags of the rules, the lists of the nulled symbols and the cycles leave, from
    the grammar [g5] with the marks of its symbols. *)
Record finished (g5 : GRAMMAR) (N : gset Z) (g' : GRAMMAR) : Prop := {
  fi_rules : exists p, t_xrl_stack g' = mark_loops p (flag_rule g5 <$> t_xrl_stack g5)
    /\ (forall a, 0 <= a < XRL_Count_of_G g -> p a = true <-> tc (unit_step fs N g5) a a)
    /\ (t_has_cycle g' = true <-> t_has_cycle g5 = true \/ exists a, 0 <= a < XRL_Count_of_G g /\ p a = true);
  fi_symbols z x : 0 <= z < n -> t_xsy_stack g5 !! Z.to_nat z = Some x -> exists c (S : gset Z),
    t_xsy_stack g' !! Z.to_nat z = Some (set_Nulled_XSYIDs_of_XSY (Some c) x) /\ cil_ints c = ints_of (elems n S)
    /\ forall b, b ∈ S <-> tc (nullifies (set_t_xrl_stack (flag_rule g5 <$> t_xrl_stack g5) g5)) z b;
  fi_length : length (t_xsy_stack g') = length (t_xsy_stack g5);
  fi_kept : (t_start_xsy_id g', t_max_rule_length g') = (t_start_xsy_id g5, t_max_rule_length g5);
  fi_arena : exists cs, cilar_rep (t_cilar g') cs /\ Z.of_nat (length cs) <= n;
  fi_assertions : (t_zwp_tree g', t_gzwa_stack g') = (t_zwp_tree g5, t_gzwa_stack g5)
}.

Lemma nulled_at_flag g0 R s g' cs h z : nulled_at n g0 R s g' cs -> (forall c x, h (set_Nulled_XSYIDs_of_XSY c x) = h x) ->
  symbol_flag h g' z = symbol_flag h g0 z.
Proof.
  intros (ca&l&->&_&Hl&Hat) Hh. unfold symbol_flag. cbn [t_xsy_stack set_t_xsy_stack set_t_cilar].
  destruct (l !! Z.to_nat z) as [x'|] eqn:Hx'; [|apply lookup_ge_None in Hx'; by rewrite lookup_ge_None_2 by lia].
  destruct (Hat _ _ Hx') as (x&->&Hcase). destruct (decide _); [destruct Hcase as (c&->&_); apply Hh|by subst].
Qed.

Lemma unit_step_flags N g1 g2 a b : (forall z, symbol_flag XSY_is_Nulling g1 z = symbol_flag XSY_is_Nulling g2 z) ->
  unit_step fs N g1 a b <-> unit_step fs N g2 a b.
Proof. intros Hf. unfold unit_step, leads_to. by setoid_rewrite Hf. Qed.

Lemma census_finish junk g5 v N x : 0 < n -> has_rules n fs g5 -> seq_single fs -> 0 < XRL_Count_of_G g ->
  bv_rep v n N -> lists_rep n (rule_pairs (fun f => [rf_lhs f]) fs) x ->
  cilar_rep (t_cilar g5) [] -> n < SIZE_MOD - 1 ->
  exists g', (g ← census_rules_flags g5; g ← census_nullification junk g; g ← census_loops junk g v x; Ok (@None Z, g)) = Ok (None, g')
    /\ finished g5 N g'.
Proof using Hfuel Hg Hfits.
  intros Hn0 Hhr Hsg Hrules HN Hx Hca Hcs. destruct Hfits as [Hn2 Hfit Hr Hrfit _]. pose proof (rules_count _ _ _ (wf_has_rules g Hg)) as Hcount.
  rewrite (census_rules_flags_ok n fs g5 Hhr Hsg). cbn [mbind res_bind]. set (g6 := set_t_xrl_stack (flag_rule g5 <$> t_xrl_stack g5) g5).
  assert (has_rules n fs g6) as Hhr6.
  { apply has_rules_rules; [done| |].
    - rewrite <- list_fmap_compose. apply (hr_forms _ _ _ Hhr).
    - apply Forall_fmap. eapply Forall_impl; [apply (hr_shaped _ _ _ Hhr)|]. intros r Hrs. exact Hrs. }
  destruct (census_nullification_ok n fs junk g6 [] Hfuel Hhr6 Hn0 Hn2 Hfit Hca Hcs) as (g7&R&cs'&->&Hat&Hcount'&HR). cbn [mbind res_bind].
  assert (forall z, symbol_flag XSY_is_Nulling g7 z = symbol_flag XSY_is_Nulling g5 z) as Hflag by (intros z; by rewrite (nulled_at_flag g6 R n g7 cs' XSY_is_Nulling z Hat)).
  destruct Hat as (ca&l&Eg7&Hca'&Hl&Hat).
  assert (has_rules n fs g7) as Hhr7. { destruct Hhr6 as [H1 H2 H3 H4]. subst g7. split; [|done..]. unfold XSY_Count_of_G in *. cbn. by rewrite Hl. }
  destruct (census_loops_ok n fs junk g7 v N x Hhr7 HN Hx) as (g'&p&->&Hp&e&c&->&Hc); [lia|by rewrite <- Hcount|]. cbn [mbind res_bind].
  eexists. split; [reflexivity|]. split.
  - exists p. rewrite Hcount. split_and!; [by subst g7| |by subst g7]. intros a Ha. rewrite (Hp a Ha). apply tc_ext. intros b d. by apply unit_step_flags.
  - subst g7. intros z y Hz Hy. cbn [t_xsy_stack set_t_events set_t_has_cycle set_t_xrl_stack set_t_xsy_stack set_t_cilar] in *.
    destruct (lookup_lt_is_Some_2 l (Z.to_nat z)) as [x' Hx']; [rewrite Hl; by eapply lookup_lt_Some|].
    destruct (Hat _ _ Hx') as (y'&Hy'&Hcase). change (t_xsy_stack g6) with (t_xsy_stack g5) in Hy'. rewrite Z2Nat.id in Hcase by lia. rewrite decide_True in Hcase by lia.
    destruct Hcase as (c'&->&_&Hints). exists c', (R z). simplify_eq. split_and!; [done|done|]. intros b. apply HR, Hz.
  - by subst g7.
  - by subst g7.
  - exists cs'. split; [by subst g7|exact Hcount'].
  - by subst g7.
Qed.
End body.
