(* ===== verification/CensusTheorems.v ===== *)
(** * Theorems about the census of a grammar

    What a call finds, in terms of the language of the grammar: how it ends, and what it has
    marked when it succeeds. *)
From stdpp Require Import sets gmap list_numbers relations.
From S2P Require Import Prelude Avl AvlTree AvlProbe AvlTheorems BitVector BitVectorTheorems BitScan Matrix MatrixTheorems Dstack Cil CilTheorems MarpaGrammar MarpaRules MarpaGrammarTheorems MarpaRuleTheorems MarpaCalls Census CensusSpec CensusLists CensusClosure CensusMarks CensusRules CensusBody.

(** ** The specification *)

(** An item or a separator of a sequence rule. *)
Definition counted (g : GRAMMAR) (z : Z) : Prop := exists f, f ∈ forms_of g /\ rf_seq f = true /\ z ∈ mentions f.

(** The rule leads to a rule of [s], without any other symbol: the others are nullable, and [s]
    derives more than the empty string.  A sequence counts as its item alone, whatever its
    minimum. *)
Definition leads (g : GRAMMAR) (f : rule_form) (s : Z) : Prop :=
  exists l1 l2, rf_rhs f = l1 ++ s :: l2 /\ (forall y, y ∈ l1 ++ l2 -> nullable g y) /\ (nullable g s -> ~ nulling g s).
Definition unit_rules (g : GRAMMAR) (a b : Z) : Prop :=
  exists i j f f', a = Z.of_nat i /\ b = Z.of_nat j /\ forms_of g !! i = Some f /\ forms_of g !! j = Some f' /\ leads g f (rf_lhs f').

(** The rule derives the empty string, a string of terminals. *)
Definition form_nullable (g : GRAMMAR) (f : rule_form) : Prop := exists ys, ways f ys /\ derives_all (forms_of g) (terminal g) ys [].
Definition form_productive (g : GRAMMAR) (f : rule_form) : Prop := exists ys w, ways f ys /\ derives_all (forms_of g) (terminal g) ys w.

(** A nullable symbol nulls itself, and the right-hand sides of its nullable rules. *)
Definition nulls_at_once (g : GRAMMAR) (a b : Z) : Prop :=
  (a = b /\ nullable g a) \/ exists f, f ∈ forms_of g /\ form_nullable g f /\ rf_lhs f = a /\ b ∈ rf_rhs f.

(** How the census of [g] ends: the error, or none. *)
Inductive verdict (g : GRAMMAR) : option Z -> Prop :=
| v_counted z : nullable g z -> counted g z -> verdict g (Some MARPA_ERR_COUNTED_NULLABLE)
| v_unproductive : (forall z, nullable g z -> ~ counted g z) -> ~ productive g (t_start_xsy_id g) -> verdict g (Some MARPA_ERR_UNPRODUCTIVE_START)
| v_nulling z : (forall z, nullable g z -> ~ counted g z) -> productive g (t_start_xsy_id g) -> nulling g z -> terminal g z ->
    verdict g (Some MARPA_ERR_NULLING_TERMINAL)
| v_success : (forall z, nullable g z -> ~ counted g z) -> productive g (t_start_xsy_id g) -> (forall z, nulling g z -> ~ terminal g z) -> verdict g None.

(** What a successful census of [g] leaves in [g']. *)
Record census_done (g g' : GRAMMAR) : Prop := {
  cd_symbols : length (t_xsy_stack g') = length (t_xsy_stack g);
  cd_forms : forms_of g' = forms_of g;
  cd_terminal z : 0 <= z < XSY_Count_of_G g -> symbol_flag XSY_is_Terminal g' z = true <-> terminal g z;
  cd_nullable z : 0 <= z < XSY_Count_of_G g -> symbol_flag XSY_is_Nullable g' z = true <-> nullable g z;
  cd_productive z : 0 <= z < XSY_Count_of_G g -> symbol_flag XSY_is_Productive g' z = true <-> productive g z;
  cd_accessible z : 0 <= z < XSY_Count_of_G g -> symbol_flag XSY_is_Accessible g' z = true <-> rtc (occurs (forms_of g)) (t_start_xsy_id g) z;
  cd_nulling z : 0 <= z < XSY_Count_of_G g -> symbol_flag XSY_is_Nulling g' z = true <-> nulling g z;
  cd_rules : exists p, t_xrl_stack g' = mark_loops p (flag_rule g' <$> t_xrl_stack g)
    /\ (forall a, 0 <= a < XRL_Count_of_G g -> p a = true <-> tc (unit_rules g) a a)
    /\ (t_has_cycle g' = true <-> t_has_cycle g = true \/ exists a, 0 <= a < XRL_Count_of_G g /\ p a = true);
  cd_nulled z : 0 <= z < XSY_Count_of_G g -> exists x c (S : gset Z), t_xsy_stack g' !! Z.to_nat z = Some x /\ Nulled_XSYIDs_of_XSY x = Some c
    /\ cil_ints c = ints_of (elems (XSY_Count_of_G g) S) /\ forall b, b ∈ S <-> tc (nulls_at_once g) z b;
  cd_kept : (t_start_xsy_id g', t_max_rule_length g') = (t_start_xsy_id g, t_max_rule_length g);
  cd_cilar : exists cs, cilar_rep (t_cilar g') cs /\ Z.of_nat (length cs) <= XSY_Count_of_G g;
  cd_assertions : (t_zwp_tree g', t_gzwa_stack g') = (t_zwp_tree g, t_gzwa_stack g)
}.

(** ** From the sets to the language *)

Lemma filter_single {A} (P : A -> Prop) `{!forall x, Decision (P x)} (l : list A) s :
  filter P l = [s] <-> exists l1 l2, l = l1 ++ s :: l2 /\ P s /\ forall y, y ∈ l1 ++ l2 -> ~ P y.
Proof.
  split.
  - induction l as [|x l IH]; [done|]. rewrite filter_cons. destruct (decide (P x)) as [Hx|Hx].
    + intros [= -> Hl]. exists [], l. split_and!; [done|done|]. intros y Hy Hp. assert (y ∈ filter P l) as Hf by (by apply list_elem_of_filter).
      rewrite Hl in Hf. by apply elem_of_nil in Hf.
    + intros (l1&l2&->&Hs&Hn)%IH. exists (x :: l1), l2. split_and!; [done|done|]. intros y [->|Hy]%elem_of_cons; [done|by apply Hn].
  - intros (l1&l2&->&Hs&Hn). rewrite list.filter_app, filter_cons_True by done.
    assert (forall l, (forall y, y ∈ l -> ~ P y) -> filter P l = []) as Hnil.
    { intros l Hl. destruct (filter P l) as [|y k] eqn:E; [done|]. assert (y ∈ filter P l) as Hy by (rewrite E; left).
      apply list_elem_of_filter in Hy as [? ?]. by destruct (Hl y). }
    rewrite !Hnil; [done|..]; intros y Hy; apply Hn, elem_of_app; auto.
Qed.

Lemma leads_iff g N (g5 : GRAMMAR) f s : (forall z, z ∈ N <-> nullable g z) -> (symbol_flag XSY_is_Nulling g5 s = true <-> nulling g s) ->
  leads_to N g5 f s <-> leads g f s.
Proof.
  intros HN Hf. unfold leads_to, leads, nonnullables. rewrite filter_single. split.
  - intros [(l1&l2&Hl&Hs&Hn)|(Hnil&Hs&Hfl)].
    + exists l1, l2. split_and!; [done| |by rewrite <- HN]. intros y Hy. apply HN, dec_stable, Hn, Hy.
    + apply list_elem_of_split in Hs as (l1&l2&Hl). exists l1, l2. split_and!; [done| |intros _; rewrite <- Hf; congruence].
      intros y Hy. apply HN, dec_stable. intros Hny. assert (y ∈ filter (fun s => s ∉ N) (rf_rhs f)) as Hin; [|rewrite Hnil in Hin; by apply elem_of_nil in Hin].
      apply list_elem_of_filter. split; [done|]. rewrite Hl. apply elem_of_app in Hy as [?|?]; apply elem_of_app; [by left|right; by right].
  - intros (l1&l2&Hl&Hn&Hs). destruct (decide (s ∈ N)) as [Hin|Hin].
    + right. split_and!; [|rewrite Hl; apply elem_of_app; right; left|apply not_true_is_false; rewrite Hf; apply Hs, HN, Hin].
      destruct (filter _ (rf_rhs f)) as [|y k] eqn:E; [done|]. assert (y ∈ filter (fun s => s ∉ N) (rf_rhs f)) as Hy by (rewrite E; left).
      apply list_elem_of_filter in Hy as [Hy1 Hy2]. destruct Hy1. rewrite Hl in Hy2. apply elem_of_app in Hy2 as [?|[->|?]%elem_of_cons]; [|done|]; apply HN, Hn, elem_of_app; auto.
    + left. exists l1, l2. split_and!; [done|done|]. intros y Hy Hny. apply Hny, HN, Hn, Hy.
Qed.

Lemma unit_iff g N g5 a b : (forall z, z ∈ N <-> nullable g z) ->
  (forall f, f ∈ forms_of g -> symbol_flag XSY_is_Nulling g5 (rf_lhs f) = true <-> nulling g (rf_lhs f)) ->
  unit_step (forms_of g) N g5 a b <-> unit_rules g a b.
Proof.
  intros HN Hf. split; intros (i&j&f&f'&->&->&Hi&Hj&Hl); exists i, j, f, f'; (split_and!; [done..|]);
    (eapply leads_iff; [exact HN|apply Hf; by eapply list_elem_of_lookup_2|exact Hl]).
Qed.

(** ** Rules *)

Lemma derives_all_nil_inv fs T ys w : derives_all fs T ys w -> w = [] -> forall y, y ∈ ys -> derives fs T y [].
Proof. induction 1 as [|y ys w1 w2 Hy _ IH]; [by intros _ y ?%elem_of_nil|]. intros [-> ->]%app_nil z [->|Hz]%elem_of_cons; auto. Qed.

Lemma derives_all_each fs T ys w : derives_all fs T ys w -> forall y, y ∈ ys -> exists w', derives fs T y w'.
Proof. induction 1 as [|y ys w1 w2 Hy _ IH]; [by intros y ?%elem_of_nil|]. intros z [->|Hz]%elem_of_cons; eauto. Qed.

Lemma forallb_iff (f : Z -> bool) (P : Z -> Prop) l : (forall y, y ∈ l -> f y = true <-> P y) -> forallb f l = true <-> forall y, y ∈ l -> P y.
Proof. intros Hf. rewrite forallb_forall. setoid_rewrite <- list_elem_of_In. split; intros Hl y Hy; by apply Hf, Hl. Qed.

Section forms.
Context (g g5 : GRAMMAR) (f : rule_form) (Hin : f ∈ forms_of g) (Hsg : seq_single (forms_of g)).
Context (Hcounted : forall z, nullable g z -> ~ counted g z).
Context (Hnull : forall y, y ∈ mentions f -> symbol_flag XSY_is_Nullable g5 y = true <-> nullable g y).
Context (Hprod : forall y, y ∈ mentions f -> symbol_flag XSY_is_Productive g5 y = true <-> productive g y).

(** The item of a sequence rule. *)
Lemma item_rhs : rf_seq f = true -> rf_rhs f = [item_of f] /\ item_of f ∈ mentions f /\ ~ nullable g (item_of f).
Proof using Hin Hsg Hcounted.
  intros Hs. destruct (Hsg f Hin Hs) as [y Hy]. unfold item_of. rewrite Hy. cbn [head default]. assert (y ∈ mentions f) as Hm by (apply rhs_mentions; rewrite Hy; left).
  split_and!; [done|done|]. intros Hn. apply (Hcounted y Hn). by exists f.
Qed.

(** The item is in each way but the empty one. *)
Lemma way_item ys : rf_seq f = true -> ways f ys -> (ys = [] /\ rf_min f <= 0) \/ item_of f ∈ ys.
Proof using Hin Hsg Hcounted.
  intros Hs Hw. destruct (item_rhs Hs) as (Hr&_&_). destruct Hw as [?|_ ?|k _ _|k _ _ _]; [congruence|by left|right..]; rewrite ?elem_of_app, elem_of_items, Hr; [|left]; left; left.
Qed.

Lemma rule_nullable_iff : rule_nullable g5 f = true <-> form_nullable g f.
Proof using Hin Hsg Hcounted Hnull.
  unfold rule_nullable, form_nullable. destruct (rf_seq f) eqn:Hs.
  - destruct (item_rhs Hs) as (Hr&Hm&Hn). rewrite orb_true_iff, (Hnull _ Hm). split.
    + intros [Hmin|?]; [|done]. exists []. split; [apply ways_empty; [done|lia]|apply derives_nil].
    + intros (ys&Hw&Hd). destruct (way_item ys Hs Hw) as [[_ ?]|Hi]; [left; lia|]. destruct Hn. by eapply derives_all_nil_inv.
  - rewrite (forallb_iff _ (nullable g)) by (intros y Hy; apply Hnull, rhs_mentions, Hy). split.
    + intros Hall. exists (rf_rhs f). split; [by apply ways_bnf|by apply derives_all_nil].
    + intros (ys&Hw&Hd) y Hy. destruct Hw; try congruence. by eapply derives_all_nil_inv.
Qed.

Lemma rule_productive_sound : rule_productive g5 f = true -> form_productive g f.
Proof using Hin Hsg Hcounted Hnull Hprod.
  unfold rule_productive. destruct (rf_seq f) eqn:Hs.
  - destruct (item_rhs Hs) as (Hr&Hm&_). rewrite orb_true_iff, rule_nullable_iff, andb_true_iff, (Hprod _ Hm).
    intros [(ys&Hw&Hd)|[Hi Hsep]]; [by exists ys, []|].
    exists (items f (Z.to_nat (rf_min f - 1))). destruct (derives_all_intro (forms_of g) (terminal g) (items f (Z.to_nat (rf_min f - 1)))) as [w Hd].
    + intros y [Hy|[_ Hy]]%elem_of_items; [rewrite Hr in Hy; by apply list_elem_of_singleton in Hy as ->|].
      assert (y ∈ mentions f) as Hym by (unfold mentions; apply elem_of_app; by left). apply (Hprod _ Hym).
      unfold sep_list in Hy. rewrite Hs in Hy. simpl in Hy. unfold no_separator, separated in Hsep.
      destruct (rf_sep f >=? 0); [apply list_elem_of_singleton in Hy as ->; by destruct (symbol_flag _ _ _)|by apply elem_of_nil in Hy].
    + exists w. split; [apply ways_items; [done|lia]|done].
  - rewrite (forallb_iff _ (productive g)) by (intros y Hy; apply Hprod, rhs_mentions, Hy). intros Hall.
    destruct (derives_all_intro (forms_of g) (terminal g) (rf_rhs f) Hall) as [w Hd]. exists (rf_rhs f), w. split; [by apply ways_bnf|done].
Qed.

Lemma rule_productive_complete : (rf_seq f = true -> 0 <= rf_sep f -> productive g (rf_sep f)) -> form_productive g f -> rule_productive g5 f = true.
Proof using Hin Hsg Hcounted Hnull Hprod.
  intros Hsep (ys&w&Hw&Hd). unfold rule_productive. destruct (rf_seq f) eqn:Hs.
  - destruct (item_rhs Hs) as (Hr&Hm&_). destruct (way_item ys Hs Hw) as [[_ ?]|Hi].
    + apply orb_true_iff. left. unfold rule_nullable. rewrite Hs. apply orb_true_iff. left. lia.
    + apply orb_true_iff. right. apply andb_true_iff. split; [by eapply Hprod, derives_all_each|].
      unfold no_separator, separated. destruct (Z.geb_spec (rf_sep f) 0); [|done]. by rewrite (proj2 (Hprod _ (sep_mentions f Hs ltac:(lia))) (Hsep eq_refl ltac:(lia))).
  - rewrite (forallb_iff _ (productive g)) by (intros y Hy; apply Hprod, rhs_mentions, Hy). intros y Hy. destruct Hw; try congruence. by eapply derives_all_each.
Qed.
End forms.

(** ** How a call ends *)

(** Nothing of the census has been done. *)
Record fresh (g : GRAMMAR) : Prop := {
  fr_symbols : unmarked g;
  fr_cilar : cilar_rep (t_cilar g) [];
  fr_cycle : t_has_cycle g = false;
  fr_rules : Forall (fun r => xrl_is_loop r = false) (t_xrl_stack g);
  fr_lengths : Forall (fun r => Length_of_XRL r <= t_max_rule_length g) (t_xrl_stack g)
}.
(** A grammar that the calls of the construction have built, before its first census. *)
Record ready `{Library} (g : GRAMMAR) : Prop := {
  rd_wf : g_wf g;
  rd_open : g_open g;
  rd_fits : fits g;
  rd_fresh : fresh g;
  rd_rules : 0 < XRL_Count_of_G g;
  rd_start : 0 <= t_start_xsy_id g < XSY_Count_of_G g;
  rd_start_lhs : exists f, f ∈ forms_of g /\ rf_lhs f = t_start_xsy_id g
}.

Lemma counted_flag g z : g_wf g -> 0 <= z < XSY_Count_of_G g -> symbol_flag xsy_is_counted g z = true <-> counted g z.
Proof.
  intros Hg Hz. destruct (lookup_lt_is_Some_2 (t_xsy_stack g) (Z.to_nat z)) as [x Hx]; [unfold XSY_Count_of_G in Hz; lia|].
  unfold symbol_flag. rewrite Hx. assert (symbols_of g !! Z.to_nat z = Some (xsy_core x)) as Hs by (unfold symbols_of; by rewrite list_lookup_fmap, Hx).
  change (xsy_is_counted x) with (sc_counted (xsy_core x)). rewrite (wf_counted _ _ (gw_core _ Hg) _ _ Hs), Z2Nat.id by lia.
  unfold counted, counts, forms_of, rules_of. setoid_rewrite list_elem_of_fmap. split.
  - intros (r&(r0&->&Hr)&Hq&Hc). exists (form_of r0). split; [by exists r0|]. split; [done|].
    destruct Hc as [Hc|[-> _]]; [by apply rhs_mentions|]. apply (sep_mentions (form_of r0)); [done|cbn in *; lia].
  - intros (f&(r0&->&Hr)&Hq&Hm). exists (xrl_core r0). split; [by exists r0|]. split; [done|].
    unfold mentions in Hm. apply elem_of_app in Hm as [Hm|Hm]; [right|by left]. unfold sep_list in Hm. rewrite Hq in Hm. simpl in Hm.
    destruct (Z.geb_spec (Separator_of_XRL r0) 0); [|by apply elem_of_nil in Hm]. apply list_elem_of_singleton in Hm as ->. split; [done|cbn; lia].
Qed.

Lemma mentions_valid g f y : g_wf g -> f ∈ forms_of g -> y ∈ mentions f -> 0 <= y < XSY_Count_of_G g.
Proof. intros Hg Hf Hy. eapply form_valid_mentions; [|exact Hy]. pose proof (hr_valid _ _ _ (wf_has_rules g Hg)) as Hv. rewrite Forall_forall in Hv. by apply Hv. Qed.

(** A derivation starts from a symbol of the grammar. *)
Lemma derives_valid g z w : g_wf g -> derives (forms_of g) (terminal g) z w -> 0 <= z < XSY_Count_of_G g.
Proof.
  intros Hg Hd. destruct Hd as [x (y&Hp&Hx&_)|f ys w Hf _ _].
  - apply lookup_lt_Some in Hx. unfold XSY_Count_of_G. lia.
  - pose proof (hr_valid _ _ _ (wf_has_rules g Hg)) as Hv. rewrite Forall_forall in Hv. apply (Hv f Hf).
Qed.

(** A list of what is in [P1] and in [P2]. *)
Lemma none_of {A} (l : list A) (P1 P2 : A -> Prop) : (forall z, z ∈ l <-> P1 z /\ P2 z) -> l = [] -> forall z, P1 z -> ~ P2 z.
Proof. intros Hin -> z H1 H2. assert (z ∈ []) as Hz by by apply Hin. by apply elem_of_nil in Hz. Qed.

Section outcome.
Context (g : GRAMMAR) (Hg : g_wf g) (Hu : unmarked g).
Context (L T N P A : gset Z) (R : Z -> gset Z) (Hsets : census_sets g L T N P R).
#[local] Abbreviation n := (XSY_Count_of_G g).

Lemma counted_in z : z ∈ counted_of (with_terminals g T) (elems n N) <-> nullable g z /\ counted g z.
Proof using Hg Hsets.
  unfold counted_of, elems. rewrite list_elem_of_filter, elem_of_elems_from, (cs_nullable _ _ _ _ _ _ Hsets).
  unfold with_terminals. rewrite flag_same by done. split.
  - intros (Hc&Hn&Hz). split; [done|]. by apply counted_flag.
  - intros [Hn Hc]. assert (0 <= z < n) as Hz by by eapply derives_valid. split; [by apply counted_flag|done].
Qed.

Lemma nulling_iff z : 0 <= z < n -> bool_decide (z ∈ L) && nulls T R z = true <-> nulling g z.
Proof using Hsets.
  intros Hz. unfold nulls, nulling. rewrite andb_true_iff, !bool_decide_eq_true, (cs_lhs _ _ _ _ _ _ Hsets). split; intros [Hl Hn]; (split; [done|]).
  - intros t Ht Htc. assert (t ∈ T ∩ R z) as Hin; [|rewrite Hn in Hin; by apply elem_of_empty in Hin].
    apply elem_of_intersection. split; [by apply (cs_terminal _ _ _ _ _ _ Hsets)|by apply (cs_reach _ _ _ _ _ _ Hsets)].
  - apply set_eq. intros t. rewrite elem_of_intersection. split; [|by intros ?%elem_of_empty]. intros [Ht Hr]. exfalso. apply (Hn t).
    + by apply (cs_terminal _ _ _ _ _ _ Hsets).
    + by apply (cs_reach _ _ _ _ _ _ Hsets).
Qed.

Lemma nulling_in z : z ∈ nulling_list g T N P A L R <-> nulling g z /\ terminal g z.
Proof using Hg Hu Hsets.
  unfold nulling_list, nulling_terminals, elems. rewrite list_elem_of_filter, elem_of_elems_from, andb_true_iff, <- (cs_terminal _ _ _ _ _ _ Hsets).
  assert (0 <= z < n -> symbol_flag XSY_is_Terminal (with_accessible g T N P A) z = bool_decide (z ∈ T)) as Hflag.
  { intros Hz. destruct (marked_flags g T N P A L R z Hu (cs_terminal _ _ _ _ _ _ Hsets) Hz) as (_&_&_&_&<-). unfold with_nulling. by rewrite flag_same. }
  split.
  - intros ([Hn Ht]&Hl&Hz). rewrite Hflag, bool_decide_eq_true in Ht by done. split; [|done]. apply nulling_iff; [done|]. by rewrite Hn, bool_decide_true.
  - intros [Hn Ht]. assert (0 <= z < n) as Hz.
    { destruct Hn as [(f&Hf&<-) _]. pose proof (hr_valid _ _ _ (wf_has_rules g Hg)) as Hv. rewrite Forall_forall in Hv. apply (Hv f Hf). }
    rewrite Hflag, bool_decide_eq_true by done. apply nulling_iff, andb_true_iff in Hn as [Hl Hn]; [|done]. rewrite bool_decide_eq_true in Hl. done.
Qed.

Lemma with_nulling_length : length (t_xsy_stack (with_nulling g T N P A L R)) = length (t_xsy_stack g).
Proof using.
  unfold with_nulling, with_accessible, with_productive, with_nullable, with_terminals, with_symbols.
  cbn [t_xsy_stack set_t_events set_t_xsy_stack]. by rewrite !mark_length.
Qed.

(** The flags of the end are those of the marks. *)
Lemma finished_flag h g' z : finished g (with_nulling g T N P A L R) N g' -> (forall c x, h (set_Nulled_XSYIDs_of_XSY c x) = h x) ->
  symbol_flag h g' z = symbol_flag h (with_nulling g T N P A L R) z.
Proof using g.
  clear Hg Hu Hsets. intros [_ Hs Hl] Hh. unfold symbol_flag. destruct (t_xsy_stack (with_nulling g T N P A L R) !! Z.to_nat z) as [x|] eqn:Hx.
  - assert (length (t_xsy_stack (with_nulling g T N P A L R)) = length (t_xsy_stack g)) as Hlen by apply with_nulling_length.
    destruct (decide (0 <= z)) as [Hz|Hz].
    + destruct (Hs z x) as (c&S&->&_); [split; [done|]; apply lookup_lt_Some in Hx; unfold XSY_Count_of_G; lia|done|]. apply Hh.
    + destruct (Hs 0 x) as (c&S&Hx'&_); [split; [done|]; apply lookup_lt_Some in Hx; unfold XSY_Count_of_G; lia|by replace (Z.to_nat 0) with (Z.to_nat z) by lia|].
      replace (Z.to_nat z) with (Z.to_nat 0) by lia. rewrite Hx'. apply Hh.
  - apply lookup_ge_None in Hx. by rewrite lookup_ge_None_2 by lia.
Qed.

Lemma flag_rule_ext g1 g2 r : (forall h z, (forall c x, h (set_Nulled_XSYIDs_of_XSY c x) = h x) -> symbol_flag h g1 z = symbol_flag h g2 z) ->
  flag_rule g1 r = flag_rule g2 r.
Proof using.
  intros Hf. unfold flag_rule, rule_used, rule_productive, rule_nulling, rule_nullable, rule_accessible, no_separator. cbv zeta.
  assert (forall h l, (forall c x, h (set_Nulled_XSYIDs_of_XSY c x) = h x) -> forallb (symbol_flag h g1) l = forallb (symbol_flag h g2) l) as Hall.
  { intros h l Hh. induction l as [|y l IH]; [done|]. simpl. by rewrite IH, Hf. }
  rewrite !Hall, !(Hf XSY_is_Nulling), !(Hf XSY_is_Nullable), !(Hf XSY_is_Productive), !(Hf XSY_is_Accessible) by done. done.
Qed.

Lemma nullifies_iff g5 a b : g_wf g -> length (t_xsy_stack g5) = length (t_xsy_stack g) -> t_xrl_stack g5 = t_xrl_stack g ->
  (forall z, 0 <= z < n -> symbol_flag XSY_is_Nullable g5 z = true <-> nullable g z) -> (forall z, nullable g z -> ~ counted g z) ->
  nullifies (set_t_xrl_stack (flag_rule g5 <$> t_xrl_stack g5) g5) a b <-> nulls_at_once g a b.
Proof using.
  intros Hg' Hlen Hrs Hnull Hcounted. unfold nullifies, nulls_at_once. cbn [t_xrl_stack set_t_xrl_stack]. rewrite Hrs.
  change (symbol_flag XSY_is_Nullable (set_t_xrl_stack (flag_rule g5 <$> t_xrl_stack g) g5) a) with (symbol_flag XSY_is_Nullable g5 a).
  assert (forall f, f ∈ forms_of g -> rule_nullable g5 f = true <-> form_nullable g f) as Hform.
  { intros f Hf. apply rule_nullable_iff; [done|by apply wf_seq_single|done|]. intros y Hy. by eapply Hnull, mentions_valid. }
  split; (intros [(->&H)|H]; [left; split; [done|]|right]).
  - destruct H as [H1 H2]. apply Hnull; [|done]. split; [done|]. unfold symbol_flag in H2. destruct (t_xsy_stack g5 !! Z.to_nat b) eqn:Hb; [|done].
    apply lookup_lt_Some in Hb. unfold XSY_Count_of_G. lia.
  - destruct H as (r&Hr&Hn&Hl&Hb). apply list_elem_of_fmap in Hr as (r0&->&Hr0). assert (form_of r0 ∈ forms_of g) as Hf by by apply list_elem_of_fmap_2.
    exists (form_of r0). split_and!; [done|by apply Hform|done|done].
  - pose proof (derives_valid _ _ _ Hg' H). split; [lia|]. by apply Hnull.
  - destruct H as (f&Hf&Hn&Hl&Hb). apply Hform in Hn; [|done]. apply list_elem_of_fmap in Hf as (r0&->&Hr0).
    exists (flag_rule g5 r0). split_and!; [by apply list_elem_of_fmap_2|done|done|done].
Qed.

Lemma finished_done g' : g_wf g -> (forall z, z ∈ A <-> rtc (occurs (forms_of g)) (t_start_xsy_id g) z) -> (forall z, nullable g z -> ~ counted g z) ->
  finished g (with_nulling g T N P A L R) N g' -> census_done g g'.
Proof using Hu Hsets.
  intros Hg' HA Hcounted Hf. set (g5 := with_nulling g T N P A L R) in *.
  assert (forall h z, (forall c x, h (set_Nulled_XSYIDs_of_XSY c x) = h x) -> symbol_flag h g' z = symbol_flag h g5 z) as Hflag by (intros; by apply finished_flag).
  assert (forall z, 0 <= z < n -> _) as Hmarks by exact (fun z => marked_flags g T N P A L R z Hu (cs_terminal _ _ _ _ _ _ Hsets)). fold g5 in Hmarks.
  assert (forall z, 0 <= z < n -> symbol_flag XSY_is_Nullable g5 z = true <-> nullable g z) as Hnull.
  { intros z Hz. destruct (Hmarks z Hz) as (->&_). rewrite bool_decide_eq_true. apply (cs_nullable _ _ _ _ _ _ Hsets). }
  assert (forall z, 0 <= z < n -> symbol_flag XSY_is_Nulling g5 z = true <-> nulling g z) as Hnulling.
  { intros z Hz. destruct (Hmarks z Hz) as (_&_&_&->&_). by apply nulling_iff. }
  pose proof (hr_valid _ _ _ (wf_has_rules g Hg')) as Hvalid. rewrite Forall_forall in Hvalid.
  destruct Hf as [(p&Hrules&Hp&Hcycle) Hsyms Hlen Hkept Harena Hzwp]. split.
  - rewrite Hlen. apply with_nulling_length.
  - unfold forms_of. rewrite Hrules, mark_loops_forms, <- list_fmap_compose. done.
  - intros z Hz. rewrite Hflag by done. destruct (Hmarks z Hz) as (_&_&_&_&->). rewrite bool_decide_eq_true. apply (cs_terminal _ _ _ _ _ _ Hsets).
  - intros z Hz. rewrite Hflag by done. by apply Hnull.
  - intros z Hz. rewrite Hflag by done. destruct (Hmarks z Hz) as (_&->&_). rewrite bool_decide_eq_true. apply (cs_productive _ _ _ _ _ _ Hsets).
  - intros z Hz. rewrite Hflag by done. destruct (Hmarks z Hz) as (_&_&->&_). rewrite bool_decide_eq_true. apply HA.
  - intros z Hz. rewrite Hflag by done. by apply Hnulling.
  - exists p. split_and!; [|intros a Ha; rewrite (Hp a Ha)|done].
    + rewrite Hrules. f_equal. apply list_fmap_ext. intros i r _. symmetry. by apply flag_rule_ext.
    + apply tc_ext. intros b c. apply unit_iff; [apply (cs_nullable _ _ _ _ _ _ Hsets)|]. intros f Hf. apply Hnulling, (Hvalid f Hf).
  - intros z Hz. destruct (lookup_lt_is_Some_2 (t_xsy_stack g5) (Z.to_nat z)) as [x Hx]; [unfold g5; rewrite with_nulling_length; unfold XSY_Count_of_G in Hz; lia|].
    destruct (Hsyms z x Hz Hx) as (c&S&Hx'&Hints&HS). exists (set_Nulled_XSYIDs_of_XSY (Some c) x), c, S. split_and!; [done..|]. intros b. rewrite HS.
    apply tc_ext. intros a d. apply (nullifies_iff g5); [done|apply with_nulling_length|done|done..].
  - exact Hkept.
  - exact Harena.
  - exact Hzwp.
Qed.
End outcome.

(** The grammar the body starts from. *)
Definition treeless (g : GRAMMAR) : GRAMMAR := set_t_xrl_tree (avl_destroy (t_xrl_tree g)) (set_t_events [] g).

Lemma treeless_done g g' : census_done (treeless g) g' -> census_done g g'.
Proof. intros [H1 H2 H3 H4 H5 H6 H7 H8 H9 H10 H11 H12]. by split. Qed.

Lemma treeless_verdict g v : verdict (treeless g) v -> verdict g v.
Proof. destruct 1; [by eapply v_counted|by eapply v_unproductive|by eapply v_nulling|by eapply v_success]. Qed.

Section census.
Context `{Library}.
Context (Hfuel : (MARPA_AVL_MAX_HEIGHT <= tree_rounds)%nat) (Hversion : lib_version = marpa_h_version).

(** Past the checks. *)
Lemma census_reaches_body junk g : ready g -> precompute_census junk g = precompute_census_body junk (treeless g) (t_start_xsy_id g).
Proof using Hfuel Hversion.
  intros [Hg Ho _ _ Hr Hs (f&Hf&Hl)]. unfold precompute_census. rewrite (fatal_none Hversion g (go_ok g Ho)).
  cbv zeta. change (XRL_Count_of_G (set_t_events [] g)) with (XRL_Count_of_G g). destruct (Z.leb_spec (XRL_Count_of_G g) 0); [lia|].
  change (G_is_Precomputed (set_t_events [] g)) with (G_is_Precomputed g). rewrite (go_pre _ Ho).
  destruct (Z.ltb_spec (t_start_xsy_id g) 0); [lia|].
  change (xsy_id_is_valid (set_t_events [] g) (t_start_xsy_id g)) with (xsy_id_is_valid g (t_start_xsy_id g)).
  assert (valid_id (length (symbols_of g)) (t_start_xsy_id g)) as Hv by (unfold valid_id; rewrite symbols_length; unfold XSY_Count_of_G in Hs; lia).
  rewrite valid_decide, bool_decide_true by done. cbn [negb].
  destruct (XSY_by_ID_ok (set_t_events [] g) (t_start_xsy_id g) Hv) as (x&->&Hx). cbn [mbind res_bind]. change (t_xsy_stack (set_t_events [] g)) with (t_xsy_stack g) in Hx.
  assert (XSY_is_LHS x = true) as ->; [|done].
  assert (symbols_of g !! Z.to_nat (t_start_xsy_id g) = Some (xsy_core x)) as Hc by (unfold symbols_of; by rewrite list_lookup_fmap, Hx).
  change (XSY_is_LHS x) with (sc_lhs (xsy_core x)). rewrite (wf_lhs _ _ (gw_core _ Hg) _ _ Hc), Z2Nat.id by lia.
  apply list_elem_of_fmap in Hf as (r&->&Hr'). exists (xrl_core r). split; [by apply list_elem_of_fmap_2|done].
Qed.

(** The body, from a ready grammar. *)
Lemma census_outcome junk g : ready g ->
  exists v g', precompute_census junk g = Ok (match v with Some _ => Some failure_indicator | None => None end, g')
    /\ verdict g v /\ match v with Some code => t_error g' = code | None => census_done g g' end.
Proof using Hfuel Hversion.
  intros Hready. rewrite census_reaches_body by done. destruct Hready as [Hg _ Hfits [Hu Hca _ _ _] Hr Hs _].
  assert (g_wf (treeless g)) as Hg1 by (destruct Hg as [H1 _ H3]; by split). assert (fits (treeless g)) as Hfits1 by (destruct Hfits; by split).
  assert (XSY_Count_of_G (treeless g) < SIZE_MOD - 1) as Hcs.
  { pose proof (ft_symbols _ Hfits1). unfold INT_MAX, SIZE_MOD in *. lia. }
  destruct (census_body_steps Hfuel (treeless g) Hg1 Hfits1 junk (t_start_xsy_id g) Hr Hs) as (L&T&N&P&A&R&v&x&Hsets&HA&HN&Hx&->).
  pose proof (fun z => counted_in (treeless g) Hg1 L T N P R Hsets z) as Hcounted. pose proof (nulling_in (treeless g) Hg1 Hu L T N P A R Hsets) as Hnulling.
  pose proof (cs_productive _ _ _ _ _ _ Hsets (t_start_xsy_id g)) as Hprod.
  destruct (counted_of _ _) as [|z l] eqn:Ec.
  { change (negb (Z.of_nat (length []) =? 0)) with false. cbv iota. pose proof (none_of _ _ _ Hcounted eq_refl) as Hc.
    destruct (bool_decide_reflect (t_start_xsy_id g ∈ P)) as [Hin%Hprod|Hnin]; cbn [negb].
    - destruct (nulling_list _ _ _ _ _ _ _) as [|z l] eqn:En; cbn [negb].
      + destruct (census_finish Hfuel (treeless g) Hg1 Hfits1 junk (with_nulling (treeless g) T N P A L R) v N x) as (g'&->&Hf); [change (XSY_Count_of_G (treeless g)) with (XSY_Count_of_G g); lia| |by apply wf_seq_single|done..|].
        { pose proof (wf_has_rules _ Hg1) as [H1 H2 H3 H4]. split; [|done..]. unfold XSY_Count_of_G. by rewrite with_nulling_length. }
        exists None, g'. split; [done|]. split; [apply treeless_verdict, v_success; [exact Hc|exact Hin|exact (none_of _ _ _ Hnulling eq_refl)]|].
        apply treeless_done. by eapply finished_done.
      + exists (Some MARPA_ERR_NULLING_TERMINAL). eexists. split; [reflexivity|]. split; [|done].
        destruct (proj1 (Hnulling z) ltac:(left)) as [Hn Ht]. by eapply treeless_verdict, v_nulling.
    - exists (Some MARPA_ERR_UNPRODUCTIVE_START). eexists. split; [reflexivity|]. split; [|done].
      apply treeless_verdict, v_unproductive; [done|]. by rewrite <- Hprod. }
  change (negb (Z.of_nat (length (z :: l)) =? 0)) with true. cbv iota. exists (Some MARPA_ERR_COUNTED_NULLABLE). eexists. split; [reflexivity|]. split; [|done].
  destruct (proj1 (Hcounted z) ltac:(left)) as [Hn Hc]. by eapply treeless_verdict, v_counted.
Qed.
End census.

(** * Grammars under construction are ready for their census

    No call of the construction sets a mark of the census, registers a list of nulled
    symbols or finds a cycle: whatever the calls, the census of the grammar ends as specified. *)

#[local] Abbreviation stays := (post (fun zg : Z * GRAMMAR => fresh zg.2)).

Section fresh.
Context `{Library}.

(** A field that is not of the census. *)
Lemma fresh_same g g' : (t_xsy_stack g', t_cilar g', t_has_cycle g', t_xrl_stack g', t_max_rule_length g') = (t_xsy_stack g, t_cilar g, t_has_cycle g, t_xrl_stack g, t_max_rule_length g) ->
  fresh g -> fresh g'.
Proof. intros [= H1 H2 H3 H4 H5] []. split; unfold unmarked in *; rewrite ?H1, ?H2, ?H3, ?H4, ?H5; done. Qed.

Lemma fresh_upd_xsy g s f : (forall x, unmarked_symbol x -> unmarked_symbol (f x)) -> fresh g -> post fresh (upd_xsy g s f).
Proof.
  intros Hf [H1 H2 H3 H4 H5] g' Hg. apply bind_Ok in Hg as (x&Hx&Hg). apply bind_Ok in Hg as (l&Hl&[= <-]). split; try done.
  unfold unmarked in *. cbn [t_xsy_stack set_t_xsy_stack]. apply bind_Ok in Hl as (?&_&[= <-]). apply Forall_insert; [done|]. apply Hf.
  rewrite Forall_lookup in H1. apply rd_Ok in Hx as [_ Hx]. by eapply H1.
Qed.

Lemma fresh_upd_xrl g i f : (forall r, xrl_is_loop (f r) = xrl_is_loop r /\ Length_of_XRL (f r) = Length_of_XRL r) -> fresh g -> post fresh (upd_xrl g i f).
Proof.
  intros Hf [H1 H2 H3 H4 H5] g' Hg. apply bind_Ok in Hg as (r&Hr&Hg). apply bind_Ok in Hg as (l&Hl&[= <-]). apply bind_Ok in Hl as (?&_&[= <-]).
  destruct (Hf r) as [Hf1 Hf2]. rewrite Forall_lookup in H4, H5. apply rd_Ok in Hr as [_ Hr].
  split; try done; cbn [t_xrl_stack t_max_rule_length set_t_xrl_stack]; (apply Forall_insert; [by apply Forall_lookup|]); [rewrite Hf1|rewrite Hf2]; eauto.
Qed.

Lemma fresh_guarded cs g k : fresh g -> (fresh g -> stays (k g)) -> stays (guarded cs g k).
Proof. intros Hg Hk. unfold guarded. destruct (first_failure cs g) as [[ret code]|]; [apply post_Ok; by apply (fresh_same g)|by apply Hk]. Qed.

Lemma fresh_xrl_start g lhs rhs n : fresh g -> post (fun r => fresh r.2) (xrl_start g lhs rhs n).
Proof.
  intros Hg. unfold xrl_start. destruct (n <? 0); [done|]. eapply post_bind; [apply fresh_upd_xsy; [|done]; by intros x []|].
  intros g1 Hg1. eapply post_bind; [apply post_any|]. intros s _. by apply post_Ok.
Qed.

Lemma push_app {A} (l : list A) x : post (fun l' => l' = l ++ [x]) (dstack_push l x).
Proof. unfold dstack_push. destruct (_ <? _); [by apply post_Ok|done]. Qed.

Lemma fresh_xrl_finish g rule : fresh g -> post (fun r => fresh r.2) (xrl_finish g rule).
Proof.
  intros [H1 H2 H3 H4 H5]. unfold xrl_finish, rule_add. eapply post_bind; [apply push_app|]. intros l ->. apply post_Ok. split; [done..| |]; cbn; apply Forall_app; (split; [|repeat constructor; cbn; lia]); [done|].
  eapply Forall_impl; [exact H5|]. intros r Hr. cbn in Hr. lia.
Qed.

Lemma fresh_xrl_tree_insert g rule : fresh g -> post (fun r => fresh r.2) (xrl_tree_insert g rule).
Proof.
  intros Hg. unfold xrl_tree_insert. destruct (t_xrl_tree g); [|done]. eapply post_bind; [apply post_any|]. intros r _. apply post_Ok.
  by apply (fresh_same g).
Qed.

Lemma fresh_rule_new g lhs rhs n : fresh g -> post (fun r => fresh r.2) (rule_new g lhs rhs n).
Proof. intros Hg. eapply post_bind; [by apply fresh_xrl_start|]. intros r Hr. by apply fresh_xrl_finish. Qed.

(** The steps of a call. *)
Ltac stay :=
  match goal with
  | |- stays (guarded _ _ _) => apply fresh_guarded; [assumption|intros ?]
  | |- stays (_ ← upd_xsy _ _ _; _) => eapply post_bind; [apply fresh_upd_xsy; [|eassumption]; intros ? []; split; done|intros ? ?]
  | |- stays (_ ← upd_xrl _ _ _; _) => eapply post_bind; [apply fresh_upd_xrl; [intros ?; cbv zeta; split; by repeat case_match|eassumption]|intros ? ?]
  | |- stays (_ ← xrl_start _ _ _ _; _) => eapply post_bind; [by apply fresh_xrl_start|intros [? ?] ?; cbn [fst snd] in *]
  | |- stays (_ ← xrl_tree_insert _ _; _) => eapply post_bind; [by apply fresh_xrl_tree_insert|intros [? ?] ?; cbn [fst snd] in *]
  | |- stays (_ ← rule_new _ _ _ _; _) => eapply post_bind; [by apply fresh_rule_new|intros [? ?] ?; cbn [fst snd] in *]
  | |- stays (_ ← xrl_finish _ _; _) => eapply post_bind; [by apply fresh_xrl_finish|intros [? ?] ?; cbn [fst snd] in *]
  | |- stays (_ ← (if ?b then _ else Ok _); _) => destruct b
  | |- stays (_ ← Ok _; _) => cbn [mbind res_bind]
  | |- stays (if ?b then _ else _) => destruct b
  | |- stays (match ?o with Some _ => _ | None => _ end) => destruct o
  | |- stays (Ok _) => apply post_Ok; first [assumption | eapply fresh_same; [|eassumption]; done]
  | |- stays (_ ← _; _) => eapply post_bind; [apply post_any|intros ? _]
  end.
Ltac stays := repeat (cbv zeta; stay).

Lemma fresh_call c g : fresh g -> stays (run_call c g).
Proof.
  intros Hg. assert (fresh (clear_error g).2) as Hc by (apply (fresh_same g); [unfold clear_error; destruct (negb _); [by destruct (_ =? _)|done]|done]). destruct c; cbn [run_call].
  - unfold marpa_g_symbol_new, symbol_new, symbol_add. eapply (post_bind (fun r => fresh r.2)); [|intros [? ?] ?; by apply post_Ok].
    eapply post_bind; [apply push_app|]. intros l ->. apply post_Ok. destruct Hg as [H1 H2 H3 H4 H5]. split; [|done..]. apply Forall_app. split; [done|]. by repeat constructor.
  - unfold marpa_g_start_symbol_set. stays.
  - unfold marpa_g_default_rank_set. stays.
  - unfold marpa_g_symbol_rank_set. stays.
  - unfold marpa_g_force_valued. generalize (length (t_xsy_stack g)), 0. intros n. clear Hc. revert g Hg. induction n as [|n IH]; intros g Hg i; simpl; stays. by apply IH.
  - unfold marpa_g_symbol_is_valued_set. stays.
  - unfold marpa_g_symbol_is_terminal_set. stays.
  - unfold marpa_g_symbol_is_completion_event_set, event_set. stays.
  - unfold marpa_g_symbol_is_nulled_event_set, event_set. stays.
  - unfold marpa_g_symbol_is_prediction_event_set, event_set. stays.
  - unfold marpa_g_rule_new. stays.
  - unfold marpa_g_sequence_new. stays.
  - unfold marpa_g_rule_rank_set. stays.
  - unfold marpa_g_rule_null_high_set. stays.
  - unfold marpa_g_zwa_new. stays.
  - unfold marpa_g_zwa_place. stays. done.
  - apply post_Ok. exact Hc.
Qed.

Lemma fresh_calls cs g g' : fresh g -> run_calls cs g = Ok g' -> fresh g'.
Proof.
  revert g. induction cs as [|c cs IH]; intros g Hg; [by intros [= <-]|]. intros Hr. unfold run_calls in Hr. cbn [each_res] in Hr.
  apply bind_Ok in Hr as (g1&Hr1&Hr). apply bind_Ok in Hr1 as ([z g2]&Hc&[= <-]). eapply IH; [|exact Hr]. by apply (fresh_call c g Hg (z, g2)).
Qed.

Lemma fresh_new g0 : marpa_g_new None = Ok (Some g0, None) -> fresh g0.
Proof.
  destruct cilar_init_ok as (ca&Hca&Hrep). unfold marpa_g_new. rewrite Hca. cbn [mbind res_bind]. intros [= <-].
  split; [apply Forall_nil_2|done|done|apply Forall_nil_2|apply Forall_nil_2].
Qed.
End fresh.
