(* ===== verification/CensusProperties.v ===== *)
(** * What the census of a grammar guarantees

    The properties of the first part of [marpa_g_precompute], and concrete grammars: how it
    ends, what the flags of symbols and rules mean for the language, the cycles, the symbols
    a nullable symbol nulls, and where it does not do what its documentation says. *)
From stdpp Require Import sets gmap list_numbers relations.
From S2P Require Import Prelude Avl AvlTree AvlProbe AvlTheorems BitVector BitVectorTheorems BitScan Matrix MatrixTheorems Dstack Cil CilTheorems MarpaGrammar MarpaRules MarpaGrammarTheorems MarpaRuleTheorems MarpaCalls Census CensusSpec CensusLists CensusClosure CensusMarks CensusRules CensusBody CensusTheorems.

Lemma verdict_unique g v v' : verdict g v -> verdict g v' -> v = v'.
Proof. destruct 1, 1; naive_solver. Qed.

Lemma flag_rule_lookup p g' l i r : l !! i = Some r ->
  mark_loops p (flag_rule g' <$> l) !! i = Some (if p (Z.of_nat i) then set_xrl_is_loop true (flag_rule g' r) else flag_rule g' r).
Proof. intros Hr. unfold mark_loops. by rewrite list_lookup_imap, list_lookup_fmap, Hr. Qed.

Section properties.
Context `{Library}.
Context (Hfuel : (MARPA_AVL_MAX_HEIGHT <= tree_rounds)%nat) (Hversion : lib_version = marpa_h_version).

Lemma census_success junk g g' : ready g -> precompute_census junk g = Ok (None, g') -> census_done g g'.
Proof.
  intros Hr Hc. destruct (census_outcome Hfuel Hversion junk g Hr) as (v&g1&Hc1&_&Hd). rewrite Hc in Hc1.
  destruct v as [code|]; [discriminate|]. by injection Hc1 as <-.
Qed.

Lemma census_verdict junk g g' : ready g -> precompute_census junk g = Ok (None, g') -> verdict g None.
Proof.
  intros Hr Hc. destruct (census_outcome Hfuel Hversion junk g Hr) as (v&g1&Hc1&Hv&_). rewrite Hc in Hc1. by destruct v.
Qed.

(** The flags of a rule after a census. *)
Lemma census_rule_read junk g g' i f : ready g -> precompute_census junk g = Ok (None, g') -> forms_of g !! i = Some f ->
  exists r', t_xrl_stack g' !! i = Some r' /\ form_of r' = f
    /\ XRL_is_Nullable r' = rule_nullable g' f /\ XRL_is_Accessible r' = rule_accessible g' f
    /\ XRL_is_Productive r' = rule_productive g' f /\ XRL_is_Used r' = rule_used g' f
    /\ (xrl_is_loop r' = true <-> tc (unit_rules g) (Z.of_nat i) (Z.of_nat i)).
Proof.
  intros Hr Hc Hi. pose proof (census_success junk g g' Hr Hc) as Hdone. destruct (cd_rules _ _ Hdone) as (p&Hrules&Hp&_).
  apply list_lookup_fmap_Some in Hi as (r&->&Hr0). eexists. split; [rewrite Hrules; by apply flag_rule_lookup|].
  pose proof (fr_rules _ (rd_fresh _ Hr)) as Hloop. rewrite Forall_lookup in Hloop. specialize (Hloop _ _ Hr0).
  rewrite <- (Hp (Z.of_nat i)) by (apply lookup_lt_Some in Hr0; unfold XRL_Count_of_G; lia).
  destruct (p (Z.of_nat i)); (split_and!; [done..|]); cbn [xrl_is_loop set_xrl_is_loop flag_rule]; by rewrite ?Hloop.
Qed.

(** C20. How the census of a grammar ends ([marpa_g_precompute], up to the rewriting of the
    rules).  For any grammar that the calls of the construction leave, whose sizes fit the
    integers of the code and whose start symbol has a rule, the call ends, without an access
    outside an array; and what it answers is decided by the language alone: the error
    [MARPA_ERR_COUNTED_NULLABLE] exactly when an item or separator of a sequence derives the
    empty string, else [MARPA_ERR_UNPRODUCTIVE_START] exactly when the start symbol derives
    no string of terminals, else [MARPA_ERR_NULLING_TERMINAL] exactly when a terminal has
    rules and reaches no terminal, else no error. *)
Theorem precompute_census_ends junk g : ready g ->
  exists v g', precompute_census junk g = Ok (match v with Some _ => Some failure_indicator | None => None end, g')
    /\ (forall v', verdict g v' <-> v' = v) /\ (forall code, v = Some code -> t_error g' = code).
Proof.
  intros Hr. destruct (census_outcome Hfuel Hversion junk g Hr) as (v&g'&Hc&Hv&Hd). exists v, g'. split_and!; [done| |by intros code ->].
  intros v'. split; [intros Hv'; by eapply verdict_unique|by intros ->].
Qed.

(** C21. The flags of symbols after a successful census: a symbol is a terminal when it was
    declared so, or by default when it has no rule; it is marked nullable exactly when it
    derives the empty string, productive exactly when it derives some string of terminals,
    accessible exactly when it is reached from the start symbol through the right-hand sides,
    separators included. *)
Theorem precompute_census_symbols junk g g' z : ready g -> precompute_census junk g = Ok (None, g') -> 0 <= z < XSY_Count_of_G g ->
  (symbol_flag XSY_is_Terminal g' z = true <-> terminal g z)
  /\ (symbol_flag XSY_is_Nullable g' z = true <-> derives (forms_of g) (terminal g) z [])
  /\ (symbol_flag XSY_is_Productive g' z = true <-> exists w, derives (forms_of g) (terminal g) z w)
  /\ (symbol_flag XSY_is_Accessible g' z = true <-> rtc (occurs (forms_of g)) (t_start_xsy_id g) z).
Proof. intros Hr Hc Hz. pose proof (census_success junk g g' Hr Hc) as []. auto. Qed.

(** A symbol marked as nulling derives nothing but the empty string. *)
Theorem precompute_census_nulling junk g g' z w : ready g -> precompute_census junk g = Ok (None, g') -> 0 <= z < XSY_Count_of_G g ->
  symbol_flag XSY_is_Nulling g' z = true -> derives (forms_of g) (terminal g) z w -> w = [].
Proof.
  intros Hr Hc Hz Hn Hd. pose proof (census_success junk g g' Hr Hc) as Hdone. apply (cd_nulling _ _ Hdone z Hz) in Hn as Hnul.
  pose proof Hnul as [_ Ht]. eapply nulling_derives; [|exact Ht|exact Hd].
  pose proof (census_verdict junk g g' Hr Hc) as Hv. inversion Hv as [| | |_ _ Hno]. by apply Hno.
Qed.

(** C22. The flags of rules after a successful census, for BNF rules and sequences alike: the
    rules are those given; one is marked nullable exactly when it derives the empty string,
    accessible exactly when its left-hand side is reached; one marked productive derives a
    string of terminals, and conversely unless its separator derives none; only an accessible
    rule that derives a string of terminals is marked as used. *)
Theorem precompute_census_rules junk g g' i f : ready g -> precompute_census junk g = Ok (None, g') -> forms_of g !! i = Some f ->
  exists r', t_xrl_stack g' !! i = Some r' /\ form_of r' = f
    /\ (XRL_is_Nullable r' = true <-> form_nullable g f)
    /\ (XRL_is_Accessible r' = true <-> rtc (occurs (forms_of g)) (t_start_xsy_id g) (rf_lhs f))
    /\ (XRL_is_Productive r' = true -> form_productive g f)
    /\ ((rf_seq f = true -> 0 <= rf_sep f -> productive g (rf_sep f)) -> form_productive g f -> XRL_is_Productive r' = true)
    /\ (XRL_is_Used r' = true -> XRL_is_Accessible r' = true /\ form_productive g f).
Proof.
  intros Hr Hc Hi. destruct (census_rule_read junk g g' i f Hr Hc Hi) as (r'&Hr'&Hform&Hn&Ha&Hp&Hu&_). exists r'.
  pose proof (census_success junk g g' Hr Hc) as Hdone. pose proof (census_verdict junk g g' Hr Hc) as Hv. inversion Hv as [| | |Hcounted _ _].
  pose proof (rd_wf _ Hr) as Hg. pose proof (list_elem_of_lookup_2 _ _ _ Hi) as Hin. pose proof (wf_seq_single g Hg) as Hsg.
  assert (forall y, y ∈ mentions f -> symbol_flag XSY_is_Nullable g' y = true <-> nullable g y) as Hnull by (intros y Hy; by eapply (cd_nullable _ _ Hdone), mentions_valid).
  assert (forall y, y ∈ mentions f -> symbol_flag XSY_is_Productive g' y = true <-> productive g y) as Hprod by (intros y Hy; by eapply (cd_productive _ _ Hdone), mentions_valid).
  rewrite Hn, Ha, Hp, Hu. split_and!; [done|done| | | | |].
  - by apply rule_nullable_iff.
  - apply (cd_accessible _ _ Hdone). pose proof (hr_valid _ _ _ (wf_has_rules g Hg)) as Hvalid. rewrite Forall_forall in Hvalid. by apply Hvalid.
  - by apply rule_productive_sound.
  - by apply rule_productive_complete.
  - intros Hused. unfold rule_used in Hused. apply andb_true_iff in Hused as [[Hacc _]%andb_true_iff Hcase]. split; [done|].
    apply (rule_productive_sound g g' f); try done. destruct (rf_seq f) eqn:Hs; [|done]. unfold rule_productive. rewrite Hs, Hcase. apply orb_true_r.
Qed.


(** C31. The list of the symbols a symbol nulls: their ids in ascending order, each once; they
    are those reached from it, itself if it is nullable, and through the right-hand sides of
    rules that derive the empty string. *)
Theorem precompute_census_nulled junk g g' z : ready g -> precompute_census junk g = Ok (None, g') -> 0 <= z < XSY_Count_of_G g ->
  exists x c (S : gset Z), t_xsy_stack g' !! Z.to_nat z = Some x /\ Nulled_XSYIDs_of_XSY x = Some c
    /\ cil_ints c = ints_of (elems (XSY_Count_of_G g) S) /\ forall b, b ∈ S <-> tc (nulls_at_once g) z b.
Proof. intros Hr Hc. exact (cd_nulled _ _ (census_success junk g g' Hr Hc) z). Qed.

End properties.

(** ** Concrete grammars *)

Definition built (cs : list g_call) : GRAMMAR :=
  match (r ← marpa_g_new None; match r.1 with Some g => run_calls cs g | None => Fault end) with Ok g => g | _ => demo_grammar end.

Lemma built_ok cs : Forall readable_call cs -> Z.of_nat (length cs) <= DSTACK_MAX ->
  exists g0, marpa_g_new None = Ok (Some g0, None) /\ run_calls cs g0 = Ok (built cs) /\ g_wf (built cs) /\ g_open (built cs) /\ fresh (built cs).
Proof.
  intros Hs Hlen. destruct new_ok as (g0&Hn&Hg0&Ho0&Hr0&_&Hp0). destruct (calls_ok demo_version demo_fuel cs g0 Hg0 Ho0 Hs) as (g&Hc&Hg&Ho&_); [by rewrite Hp0|].
  assert (built cs = g) as -> by (unfold built; rewrite Hn; cbn [mbind res_bind fst]; by rewrite Hc).
  exists g0. split_and!; [done..|]. by eapply fresh_calls; [apply fresh_new|].
Qed.

Lemma built_ready cs : Forall readable_call cs -> Z.of_nat (length cs) <= DSTACK_MAX -> fits (built cs) -> 0 < XRL_Count_of_G (built cs) ->
  0 <= t_start_xsy_id (built cs) < XSY_Count_of_G (built cs) -> (exists f, f ∈ forms_of (built cs) /\ rf_lhs f = t_start_xsy_id (built cs)) -> ready (built cs).
Proof. intros Hs Hlen Hf Hr Hst Hl. destruct (built_ok cs Hs Hlen) as (_&_&_&Hg&Ho&Hfr). by split. Qed.

Ltac built_ready :=
  apply built_ready; [by repeat constructor|done|by split; vm_compute|by vm_compute|by vm_compute|];
  eexists; split; [apply list_elem_of_In; vm_compute; left; reflexivity|by vm_compute].

(** S ::= A B, A ::= , B ::= b+, S ::= S, from S. *)
Definition census_demo : GRAMMAR :=
  built [CSymbolNew; CSymbolNew; CSymbolNew; CSymbolNew; CRuleNew 0 [1; 2] 2; CRuleNew 1 [] 0; CSequenceNew 2 3 (-1) 1 0; CRuleNew 0 [0] 1; CStartSymbolSet 0].

Lemma census_demo_ready : ready census_demo.
Proof. built_ready. Qed.

Definition no_junk (_ : nat) : list Z := [].

Definition census_result (g : GRAMMAR) : GRAMMAR := match precompute_census no_junk g with Ok (_, g') => g' | _ => g end.

Lemma census_demo_succeeds : precompute_census no_junk census_demo = Ok (None, census_result census_demo).
Proof. vm_compute. reflexivity. Qed.

Lemma precompute_census_ends_witness :
  exists v g', precompute_census no_junk census_demo = Ok (match v with Some _ => Some failure_indicator | None => None end, g')
    /\ (forall v', verdict census_demo v' <-> v' = v) /\ (forall code, v = Some code -> t_error g' = code).
Proof. exact (precompute_census_ends demo_fuel demo_version no_junk census_demo census_demo_ready). Defined.

(** A is nullable, S is not. *)
Lemma precompute_census_symbols_witness : nullable census_demo 1 /\ ~ nullable census_demo 0.
Proof.
  split.
  - apply (precompute_census_symbols demo_fuel demo_version no_junk _ _ 1 census_demo_ready census_demo_succeeds); [vm_compute; by split|vm_compute; reflexivity].
  - intros Hn. apply (precompute_census_symbols demo_fuel demo_version no_junk _ _ 0 census_demo_ready census_demo_succeeds) in Hn; [|vm_compute; by split].
    vm_compute in Hn. discriminate.
Defined.

Lemma precompute_census_nulling_witness : ~ derives (forms_of census_demo) (terminal census_demo) 1 [3].
Proof.
  intros Hd. apply (precompute_census_nulling demo_fuel demo_version no_junk _ _ 1 [3] census_demo_ready census_demo_succeeds) in Hd;
    [discriminate Hd|vm_compute; by split|vm_compute; reflexivity].
Defined.

(** The sequence rule derives some string, not the empty one. *)
Lemma precompute_census_rules_witness :
  form_productive census_demo (RF 2 [3] true 1 (-1) false) /\ ~ form_nullable census_demo (RF 2 [3] true 1 (-1) false).
Proof.
  destruct (precompute_census_rules demo_fuel demo_version no_junk _ _ 2 (RF 2 [3] true 1 (-1) false) census_demo_ready census_demo_succeeds)
    as (r'&Hr'&_&Hn&_&Hp&_); [vm_compute; reflexivity|].
  vm_compute in Hr'. injection Hr' as <-. split; [apply Hp; reflexivity|]. intros Hnull. apply Hn in Hnull. discriminate.
Defined.



Lemma precompute_census_nulled_witness :
  exists x c (S : gset Z), t_xsy_stack (census_result census_demo) !! 1%nat = Some x /\ Nulled_XSYIDs_of_XSY x = Some c
    /\ cil_ints c = ints_of (elems 4 S) /\ forall b, b ∈ S <-> tc (nulls_at_once census_demo) 1 b.
Proof. apply (precompute_census_nulled demo_fuel demo_version no_junk _ _ 1 census_demo_ready census_demo_succeeds). vm_compute. by split. Defined.

(** ** What the census does not do *)

(** A defect: the tree of the rules is destroyed before the grammar is found wrong.  After
    [MARPA_ERR_UNPRODUCTIVE_START] the grammar can still be added to, but the next
    [marpa_g_rule_new] inserts into a null tree. *)
Theorem failed_census_loses_tree : let g := built [CSymbolNew; CRuleNew 0 [0] 1; CStartSymbolSet 0] in
  exists g', precompute_census no_junk g = Ok (Some failure_indicator, g') /\ t_error g' = MARPA_ERR_UNPRODUCTIVE_START
    /\ marpa_g_rule_new g' 0 [] 0 = Fault.
Proof. eexists. split; [vm_compute; reflexivity|]. by split; vm_compute. Qed.

(** S ::= A A+, A ::= S, A ::= a *)
Definition long_sequence : GRAMMAR :=
  built [CSymbolNew; CSymbolNew; CSymbolNew; CSequenceNew 0 1 (-1) 2 0; CRuleNew 1 [0] 1; CRuleNew 1 [2] 1; CStartSymbolSet 0].

Lemma long_sequence_ready : ready long_sequence.
Proof. built_ready. Qed.

(** A defect: a sequence of at least two items counts as a rule with one symbol on its
    right-hand side.  In [S ::= A A+], [A ::= S], [A ::= a] no symbol is nullable and [S] has
    two symbols or more in every way it is expanded, so that nothing derives itself; the
    grammar is said to have a cycle. *)
Theorem long_sequence_is_a_loop :
  exists g', precompute_census no_junk long_sequence = Ok (None, g') /\ t_has_cycle g' = true
    /\ (forall z, ~ nullable long_sequence z)
    /\ (forall f ys, f ∈ forms_of long_sequence -> rf_lhs f = 0 -> ways f ys -> (2 <= length ys)%nat).
Proof.
  exists (census_result long_sequence). split; [vm_compute; reflexivity|]. split; [vm_compute; reflexivity|].
  assert (precompute_census no_junk long_sequence = Ok (None, census_result long_sequence)) as Hok by (vm_compute; reflexivity).
  split.
  - intros z Hn. pose proof (census_success demo_fuel demo_version no_junk _ _ long_sequence_ready Hok) as Hd.
    pose proof (derives_valid _ _ _ (rd_wf _ long_sequence_ready) Hn) as Hz. apply (cd_nullable _ _ Hd z Hz) in Hn.
    assert (XSY_Count_of_G long_sequence = 3) as Hc by (vm_compute; reflexivity). rewrite Hc in Hz. assert (z = 0 \/ z = 1 \/ z = 2) as [->|[->| ->]] by (clear -Hz; lia); vm_compute in Hn; discriminate Hn.
  - clear Hok. assert (forms_of long_sequence = [RF 0 [1] true 2 (-1) false; RF 1 [0] false (-1) (-1) false; RF 1 [2] false (-1) (-1) false]) as -> by (vm_compute; reflexivity).
    intros f ys Hf Hl Hw. assert (f = RF 0 [1] true 2 (-1) false) as ->.
    { apply elem_of_cons in Hf as [->|Hf]; [done|]. by apply elem_of_cons in Hf as [->|[->|?%elem_of_nil]%elem_of_cons]. }
    assert (forall k, length (items (RF 0 [1] true 2 (-1) false) k) = S k) as Hk by (intros k; induction k as [|k IH]; [done|]; cbn in *; lia).
    destruct Hw as [?|_ ?|k _ ?|k _ ? _]; cbn [rf_seq rf_min] in *; [done|lia|rewrite Hk; lia|rewrite length_app, Hk; lia].
Qed.

(** S ::= a separated by C, C ::= C: the start symbol is productive, its only rule is neither
    productive nor used. *)
Lemma unproductive_separator : exists g',
  precompute_census no_junk (built [CSymbolNew; CSymbolNew; CSymbolNew; CSequenceNew 0 1 2 1 0; CRuleNew 2 [2] 1; CStartSymbolSet 0]) = Ok (None, g')
    /\ symbol_flag XSY_is_Productive g' 0 = true /\ map (fun r => (XRL_is_Productive r, XRL_is_Used r)) (t_xrl_stack g') = [(false, false); (false, false)].
Proof. eexists. split; [vm_compute; reflexivity|]. by split; vm_compute. Qed.

(** S ::= a*: the terminal is among the symbols that S nulls. *)
Lemma nulled_terminal : exists g' x c,
  precompute_census no_junk (built [CSymbolNew; CSymbolNew; CSequenceNew 0 1 (-1) 0 0; CStartSymbolSet 0]) = Ok (None, g')
    /\ symbol_flag XSY_is_Nullable g' 1 = false /\ t_xsy_stack g' !! 0%nat = Some x /\ Nulled_XSYIDs_of_XSY x = Some c /\ cil_ints c = [2; 0; 1].
Proof. do 3 eexists. split; [vm_compute; reflexivity|]. split_and!; vm_compute; reflexivity. Qed.
