(* ===== verification/Rewrite.v ===== *)
(** * The internal grammar ([libmarpa-dist/marpa.c], [marpa_g_precompute])

    The second part of the precomputation: the symbols and rules of the Earley engine.  Each
    symbol has an internal symbol ([NSY]), and, when it can also be null, a second one that
    always is; sequences become left-recursive rules; a BNF rule is cut into pieces with at
    most two symbols that can be null, each with the internal rules ([IRL]) that tell what is
    null (Chomsky-Horspool-Aycock form, CHAF).

    A pointer to an internal symbol, to an internal rule, to a symbol or to a rule is its
    number; a null pointer is [None], and following it is [Fault]. *)
From S2P Require Import Prelude MarpaGrammar MarpaRules Census.

(** [struct s_nsy]; the lists of rules are those of a later step. *)
Record NSY : Type := MkNSY {
  ID_of_NSY : Z;
  Source_XSY_of_NSY : option Z;
  LHS_XRL_of_NSY : option Z;
  XRL_Offset_of_NSY : Z;
  Rank_of_NSY : Z;
  NSY_is_Start : bool;
  NSY_is_LHS : bool;
  NSY_is_Nulling : bool;
  NSY_is_Semantic : bool
}.
Definition set_ID_of_NSY (v : Z) (x : NSY) : NSY :=
  MkNSY v (Source_XSY_of_NSY x) (LHS_XRL_of_NSY x) (XRL_Offset_of_NSY x) (Rank_of_NSY x) (NSY_is_Start x) (NSY_is_LHS x) (NSY_is_Nulling x) (NSY_is_Semantic x).
Definition set_Source_XSY_of_NSY (v : option Z) (x : NSY) : NSY :=
  MkNSY (ID_of_NSY x) v (LHS_XRL_of_NSY x) (XRL_Offset_of_NSY x) (Rank_of_NSY x) (NSY_is_Start x) (NSY_is_LHS x) (NSY_is_Nulling x) (NSY_is_Semantic x).
Definition set_LHS_XRL_of_NSY (v : option Z) (x : NSY) : NSY :=
  MkNSY (ID_of_NSY x) (Source_XSY_of_NSY x) v (XRL_Offset_of_NSY x) (Rank_of_NSY x) (NSY_is_Start x) (NSY_is_LHS x) (NSY_is_Nulling x) (NSY_is_Semantic x).
Definition set_XRL_Offset_of_NSY (v : Z) (x : NSY) : NSY :=
  MkNSY (ID_of_NSY x) (Source_XSY_of_NSY x) (LHS_XRL_of_NSY x) v (Rank_of_NSY x) (NSY_is_Start x) (NSY_is_LHS x) (NSY_is_Nulling x) (NSY_is_Semantic x).
Definition set_Rank_of_NSY (v : Z) (x : NSY) : NSY :=
  MkNSY (ID_of_NSY x) (Source_XSY_of_NSY x) (LHS_XRL_of_NSY x) (XRL_Offset_of_NSY x) v (NSY_is_Start x) (NSY_is_LHS x) (NSY_is_Nulling x) (NSY_is_Semantic x).
Definition set_NSY_is_Start (v : bool) (x : NSY) : NSY :=
  MkNSY (ID_of_NSY x) (Source_XSY_of_NSY x) (LHS_XRL_of_NSY x) (XRL_Offset_of_NSY x) (Rank_of_NSY x) v (NSY_is_LHS x) (NSY_is_Nulling x) (NSY_is_Semantic x).
Definition set_NSY_is_LHS (v : bool) (x : NSY) : NSY :=
  MkNSY (ID_of_NSY x) (Source_XSY_of_NSY x) (LHS_XRL_of_NSY x) (XRL_Offset_of_NSY x) (Rank_of_NSY x) (NSY_is_Start x) v (NSY_is_Nulling x) (NSY_is_Semantic x).
Definition set_NSY_is_Nulling (v : bool) (x : NSY) : NSY :=
  MkNSY (ID_of_NSY x) (Source_XSY_of_NSY x) (LHS_XRL_of_NSY x) (XRL_Offset_of_NSY x) (Rank_of_NSY x) (NSY_is_Start x) (NSY_is_LHS x) v (NSY_is_Semantic x).
Definition set_NSY_is_Semantic (v : bool) (x : NSY) : NSY :=
  MkNSY (ID_of_NSY x) (Source_XSY_of_NSY x) (LHS_XRL_of_NSY x) (XRL_Offset_of_NSY x) (Rank_of_NSY x) (NSY_is_Start x) (NSY_is_LHS x) (NSY_is_Nulling x) v.

(** [struct s_irl]: [t_nsyid_array] is the left-hand side, then the right-hand side; [None]
    is what has not been written.  The fields of later steps (right recursion, items) are
    not here. *)
Record IRL : Type := MkIRL {
  ID_of_IRL : Z;
  Length_of_IRL : Z;
  t_nsyid_array : list (option Z);
  Source_XRL_of_IRL : option Z;
  Rank_of_IRL : Z;
  Real_SYM_Count_of_IRL : Z;
  Virtual_Start_of_IRL : Z;
  Virtual_End_of_IRL : Z;
  IRL_has_Virtual_LHS : bool;
  IRL_has_Virtual_RHS : bool
}.
Definition set_ID_of_IRL (v : Z) (x : IRL) : IRL :=
  MkIRL v (Length_of_IRL x) (t_nsyid_array x) (Source_XRL_of_IRL x) (Rank_of_IRL x) (Real_SYM_Count_of_IRL x) (Virtual_Start_of_IRL x) (Virtual_End_of_IRL x) (IRL_has_Virtual_LHS x) (IRL_has_Virtual_RHS x).
Definition set_Length_of_IRL (v : Z) (x : IRL) : IRL :=
  MkIRL (ID_of_IRL x) v (t_nsyid_array x) (Source_XRL_of_IRL x) (Rank_of_IRL x) (Real_SYM_Count_of_IRL x) (Virtual_Start_of_IRL x) (Virtual_End_of_IRL x) (IRL_has_Virtual_LHS x) (IRL_has_Virtual_RHS x).
Definition set_t_nsyid_array (v : list (option Z)) (x : IRL) : IRL :=
  MkIRL (ID_of_IRL x) (Length_of_IRL x) v (Source_XRL_of_IRL x) (Rank_of_IRL x) (Real_SYM_Count_of_IRL x) (Virtual_Start_of_IRL x) (Virtual_End_of_IRL x) (IRL_has_Virtual_LHS x) (IRL_has_Virtual_RHS x).
Definition set_Source_XRL_of_IRL (v : option Z) (x : IRL) : IRL :=
  MkIRL (ID_of_IRL x) (Length_of_IRL x) (t_nsyid_array x) v (Rank_of_IRL x) (Real_SYM_Count_of_IRL x) (Virtual_Start_of_IRL x) (Virtual_End_of_IRL x) (IRL_has_Virtual_LHS x) (IRL_has_Virtual_RHS x).
Definition set_Rank_of_IRL (v : Z) (x : IRL) : IRL :=
  MkIRL (ID_of_IRL x) (Length_of_IRL x) (t_nsyid_array x) (Source_XRL_of_IRL x) v (Real_SYM_Count_of_IRL x) (Virtual_Start_of_IRL x) (Virtual_End_of_IRL x) (IRL_has_Virtual_LHS x) (IRL_has_Virtual_RHS x).
Definition set_Real_SYM_Count_of_IRL (v : Z) (x : IRL) : IRL :=
  MkIRL (ID_of_IRL x) (Length_of_IRL x) (t_nsyid_array x) (Source_XRL_of_IRL x) (Rank_of_IRL x) v (Virtual_Start_of_IRL x) (Virtual_End_of_IRL x) (IRL_has_Virtual_LHS x) (IRL_has_Virtual_RHS x).
Definition set_Virtual_Start_of_IRL (v : Z) (x : IRL) : IRL :=
  MkIRL (ID_of_IRL x) (Length_of_IRL x) (t_nsyid_array x) (Source_XRL_of_IRL x) (Rank_of_IRL x) (Real_SYM_Count_of_IRL x) v (Virtual_End_of_IRL x) (IRL_has_Virtual_LHS x) (IRL_has_Virtual_RHS x).
Definition set_Virtual_End_of_IRL (v : Z) (x : IRL) : IRL :=
  MkIRL (ID_of_IRL x) (Length_of_IRL x) (t_nsyid_array x) (Source_XRL_of_IRL x) (Rank_of_IRL x) (Real_SYM_Count_of_IRL x) (Virtual_Start_of_IRL x) v (IRL_has_Virtual_LHS x) (IRL_has_Virtual_RHS x).
Definition set_IRL_has_Virtual_LHS (v : bool) (x : IRL) : IRL :=
  MkIRL (ID_of_IRL x) (Length_of_IRL x) (t_nsyid_array x) (Source_XRL_of_IRL x) (Rank_of_IRL x) (Real_SYM_Count_of_IRL x) (Virtual_Start_of_IRL x) (Virtual_End_of_IRL x) v (IRL_has_Virtual_RHS x).
Definition set_IRL_has_Virtual_RHS (v : bool) (x : IRL) : IRL :=
  MkIRL (ID_of_IRL x) (Length_of_IRL x) (t_nsyid_array x) (Source_XRL_of_IRL x) (Rank_of_IRL x) (Real_SYM_Count_of_IRL x) (Virtual_Start_of_IRL x) (Virtual_End_of_IRL x) (IRL_has_Virtual_LHS x) v.

(** The grammar, its internal rules and symbols; [NSY_of_XSY], [Nulling_NSY_of_XSY], a cell
    for each symbol. *)
Record INTERNAL : Type := MkINTERNAL {
  t_g : GRAMMAR;
  t_irl_stack : list IRL;
  t_nsy_stack : list NSY;
  t_nsy_equivalent : list (option Z);
  t_nulling_nsy : list (option Z);
  t_start_irl : option Z
}.
Definition set_t_g (v : GRAMMAR) (x : INTERNAL) : INTERNAL :=
  MkINTERNAL v (t_irl_stack x) (t_nsy_stack x) (t_nsy_equivalent x) (t_nulling_nsy x) (t_start_irl x).
Definition set_t_irl_stack (v : list IRL) (x : INTERNAL) : INTERNAL :=
  MkINTERNAL (t_g x) v (t_nsy_stack x) (t_nsy_equivalent x) (t_nulling_nsy x) (t_start_irl x).
Definition set_t_nsy_stack (v : list NSY) (x : INTERNAL) : INTERNAL :=
  MkINTERNAL (t_g x) (t_irl_stack x) v (t_nsy_equivalent x) (t_nulling_nsy x) (t_start_irl x).
Definition set_t_nsy_equivalent (v : list (option Z)) (x : INTERNAL) : INTERNAL :=
  MkINTERNAL (t_g x) (t_irl_stack x) (t_nsy_stack x) v (t_nulling_nsy x) (t_start_irl x).
Definition set_t_nulling_nsy (v : list (option Z)) (x : INTERNAL) : INTERNAL :=
  MkINTERNAL (t_g x) (t_irl_stack x) (t_nsy_stack x) (t_nsy_equivalent x) v (t_start_irl x).
Definition set_t_start_irl (v : option Z) (x : INTERNAL) : INTERNAL :=
  MkINTERNAL (t_g x) (t_irl_stack x) (t_nsy_stack x) (t_nsy_equivalent x) (t_nulling_nsy x) v.

Definition EXTERNAL_RANK_FACTOR : Z := 4.
Definition MAXIMUM_CHAF_RANK : Z := 3.

Section rewrite.
Context `{Library}.
Implicit Types p : INTERNAL.

(** ** Internal symbols and rules *)

Definition NSY_Count_of_G p : Z := Z.of_nat (length (t_nsy_stack p)).
Definition IRL_Count_of_G p : Z := Z.of_nat (length (t_irl_stack p)).
Definition NSY_by_ID p (id : Z) : res NSY := rd (t_nsy_stack p) id.
Definition IRL_by_ID p (id : Z) : res IRL := rd (t_irl_stack p) id.

Definition upd_nsy p (id : Z) (f : NSY -> NSY) : res INTERNAL :=
  x ← NSY_by_ID p id; l ← wr (t_nsy_stack p) id (f x); Ok (set_t_nsy_stack l p).
Definition upd_irl p (id : Z) (f : IRL -> IRL) : res INTERNAL :=
  x ← IRL_by_ID p id; l ← wr (t_irl_stack p) id (f x); Ok (set_t_irl_stack l p).

Definition deref (o : option Z) : res Z := match o with Some id => Ok id | None => Fault end.

Definition NSYID_by_XSYID p (xsy_id : Z) : res Z := o ← rd (t_nsy_equivalent p) xsy_id; deref o.
Definition Nulling_NSYID_by_XSYID p (xsy_id : Z) : res Z := o ← rd (t_nulling_nsy p) xsy_id; deref o.

Definition NSY_Rank_by_XSY (xsy : XSY) : Z := Rank_of_XSY xsy * EXTERNAL_RANK_FACTOR + MAXIMUM_CHAF_RANK.
Definition IRL_CHAF_Rank_by_XRL (xrl : XRL) (chaf_rank : Z) : Z :=
  Rank_of_XRL xrl * EXTERNAL_RANK_FACTOR + (if Null_Ranks_High_of_RULE xrl then MAXIMUM_CHAF_RANK - chaf_rank else chaf_rank).
Definition IRL_Rank_by_XRL (xrl : XRL) : Z := IRL_CHAF_Rank_by_XRL xrl MAXIMUM_CHAF_RANK.

(** The number of the symbol. *)
Definition nsy_start p : Z * INTERNAL :=
  let id := NSY_Count_of_G p in
  (id, set_t_nsy_stack (t_nsy_stack p ++ [MkNSY id None None (-1) (Default_Rank_of_G (t_g p) * EXTERNAL_RANK_FACTOR + MAXIMUM_CHAF_RANK) false false false false]) p).

Definition nsy_new p (source : Z) : res (Z * INTERNAL) :=
  xsy ← XSY_by_ID (t_g p) source;
  let '(id, p) := nsy_start p in
  p ← upd_nsy p id (fun nsy => set_Rank_of_NSY (NSY_Rank_by_XSY xsy) (set_Source_XSY_of_NSY (Some source) nsy));
  Ok (id, p).

Definition semantic_nsy_new p (source : Z) : res (Z * INTERNAL) :=
  r ← nsy_new p source;
  let '(id, p) := r in
  p ← upd_nsy p id (set_NSY_is_Semantic true);
  Ok (id, p).

Definition nsy_clone p (xsy_id : Z) : res (Z * INTERNAL) :=
  xsy ← XSY_by_ID (t_g p) xsy_id;
  let '(id, p) := nsy_start p in
  p ← upd_nsy p id (fun nsy =>
        set_NSY_is_Nulling (XSY_is_Nulling xsy) (set_Rank_of_NSY (NSY_Rank_by_XSY xsy) (set_NSY_is_Semantic true (set_Source_XSY_of_NSY (Some xsy_id) nsy))));
  Ok (id, p).

Definition symbol_alias_create p (symbol : Z) : res (Z * INTERNAL) :=
  r ← semantic_nsy_new p symbol;
  let '(id, p) := r in
  g ← upd_xsy (t_g p) symbol (fun xsy => set_XSY_is_Nullable true (set_XSY_is_Nulling false xsy));
  p ← upd_nsy (set_t_g g p) id (set_NSY_is_Nulling true);
  Ok (id, p).

(** The memory of the symbols of the rule is not cleared. *)
Definition irl_start p (length : Z) : res (Z * INTERNAL) :=
  if length <? 0 then Fault
  else
    let id := IRL_Count_of_G p in
    Ok (id, set_t_irl_stack (t_irl_stack p ++ [MkIRL id length (replicate (Z.to_nat (length + 1)) None) None
              (Default_Rank_of_G (t_g p) * EXTERNAL_RANK_FACTOR + MAXIMUM_CHAF_RANK) 0 (-1) (-1) false false]) p).

(** [irl->t_nsyid_array[ix] = nsyid] *)
Definition irl_write p (irl ix nsyid : Z) : res INTERNAL :=
  x ← IRL_by_ID p irl;
  l ← wr (t_nsyid_array x) ix (Some nsyid);
  upd_irl p irl (set_t_nsyid_array l).
Definition LHSID_of_IRL (irl : IRL) : res Z := o ← rd (t_nsyid_array irl) 0; deref o.
Definition RHSID_of_IRL (irl : IRL) (position : Z) : res Z := o ← rd (t_nsyid_array irl) (position + 1); deref o.

Definition irl_finish p (irl : Z) : res INTERNAL :=
  x ← IRL_by_ID p irl;
  lhs_nsy ← LHSID_of_IRL x;
  upd_nsy p lhs_nsy (set_NSY_is_LHS true).

(** ** Cloning the symbols *)

Definition clone_symbol (xsy_id : Z) p : res INTERNAL :=
  xsy_to_clone ← XSY_by_ID (t_g p) xsy_id;
  if negb (XSY_is_Accessible xsy_to_clone) then Ok p
  else if negb (XSY_is_Productive xsy_to_clone) then Ok p
  else
    r ← nsy_clone p xsy_id;
    let '(nsy, p) := r in
    l ← wr (t_nsy_equivalent p) xsy_id (Some nsy);
    let p := set_t_nsy_equivalent l p in
    if XSY_is_Nulling xsy_to_clone then
      l ← wr (t_nulling_nsy p) xsy_id (Some nsy);
      Ok (set_t_nulling_nsy l p)
    else if XSY_is_Nullable xsy_to_clone then
      r ← symbol_alias_create p xsy_id;
      let '(alias, p) := r in
      l ← wr (t_nulling_nsy p) xsy_id (Some alias);
      Ok (set_t_nulling_nsy l p)
    else Ok p.

(** ** Sequences *)

(** A rule with the right-hand side [rhs]. *)
Definition irl_with p (lhs : Z) (rhs : list Z) : res (Z * INTERNAL) :=
  r ← irl_start p (Z.of_nat (length rhs));
  let '(irl, p) := r in
  p ← irl_write p irl 0 lhs;
  p ← for_res (length rhs) 0 (fun rhs_ix p => x ← rd rhs rhs_ix; irl_write p irl (rhs_ix + 1) x) p;
  p ← irl_finish p irl;
  Ok (irl, p).

(** The source and the rank of a rule, then [f]. *)
Definition irl_of_rule p (irl rule_id : Z) (rule : XRL) (f : IRL -> IRL) : res INTERNAL :=
  upd_irl p irl (fun x => f (set_Rank_of_IRL (IRL_Rank_by_XRL rule) (set_Source_XRL_of_IRL (Some rule_id) x))).

Definition rewrite_sequence p (rule_id : Z) (rule : XRL) : res INTERNAL :=
  lhs_id ← LHS_ID_of_XRL rule;
  lhs_nsyid ← NSYID_by_XSYID p lhs_id;
  r ← nsy_new p lhs_id;
  let '(internal_lhs_nsyid, p) := r in
  rhs_id ← RHS_ID_of_XRL rule 0;
  rhs_nsyid ← NSYID_by_XSYID p rhs_id;
  let separator_id := Separator_of_XRL rule in
  separator_nsyid ← (if separator_id >=? 0 then NSYID_by_XSYID p separator_id else Ok (-1));
  p ← upd_nsy p internal_lhs_nsyid (set_LHS_XRL_of_NSY (Some rule_id));
  (* the top rule *)
  r ← irl_with p lhs_nsyid [internal_lhs_nsyid];
  p ← irl_of_rule r.2 r.1 rule_id rule (set_IRL_has_Virtual_RHS true);
  (* the top rule with a trailing separator *)
  p ← (if (separator_nsyid >=? 0) && negb (XRL_is_Proper_Separation rule) then
         r ← irl_with p lhs_nsyid [internal_lhs_nsyid; separator_nsyid];
         irl_of_rule r.2 r.1 rule_id rule (fun x => set_Real_SYM_Count_of_IRL 1 (set_IRL_has_Virtual_RHS true x))
       else Ok p);
  (* the first item *)
  r ← irl_with p internal_lhs_nsyid [rhs_nsyid];
  p ← irl_of_rule r.2 r.1 rule_id rule (fun x => set_Real_SYM_Count_of_IRL 1 (set_IRL_has_Virtual_LHS true x));
  (* one more item *)
  let rhs := if separator_nsyid >=? 0 then [internal_lhs_nsyid; separator_nsyid; rhs_nsyid] else [internal_lhs_nsyid; rhs_nsyid] in
  r ← irl_with p internal_lhs_nsyid rhs;
  irl_of_rule r.2 r.1 rule_id rule (fun x =>
    set_Real_SYM_Count_of_IRL (Z.of_nat (length rhs) - 1) (set_IRL_has_Virtual_RHS true (set_IRL_has_Virtual_LHS true x))).

(** ** CHAF *)

(** The positions of the symbols that can be null and can be not null, and the position
    after the last symbol that cannot be null. *)
Definition count_factor p (rule : XRL) (rhs_ix : Z) (c : list Z * Z) : res (list Z * Z) :=
  let '(factor_positions, nullable_suffix_ix) := c in
  symid ← RHS_ID_of_XRL rule rhs_ix;
  symbol ← XSY_by_ID (t_g p) symid;
  if XSY_is_Nulling symbol then Ok c
  else if XSY_is_Nullable symbol then
    l ← store_next (t_max_rule_length (t_g p)) factor_positions rhs_ix; Ok (l, nullable_suffix_ix)
  else Ok (factor_positions, rhs_ix + 1).

(** An internal rule for the symbols of the rule from [piece_start] to [piece_end]; those of
    [nulls], counted from [piece_start], are null.  [virtual] comes last, if there is one. *)
Definition chaf_irl p (rule_id : Z) (rule : XRL) (lhs piece_start piece_end : Z) (nulls : Z -> bool) (virtual : option Z) (chaf_rank : Z) : res INTERNAL :=
  let real_symbol_count := piece_end - piece_start + 1 in
  let chaf_irl_length := real_symbol_count + (match virtual with Some _ => 1 | None => 0 end) in
  r ← irl_start p chaf_irl_length;
  let '(chaf_irl, p) := r in
  p ← irl_write p chaf_irl 0 lhs;
  p ← for_res (Z.to_nat real_symbol_count) 0 (fun piece_ix p =>
        xsyid ← RHS_ID_of_XRL rule (piece_start + piece_ix);
        nsyid ← (if nulls piece_ix then Nulling_NSYID_by_XSYID p xsyid else NSYID_by_XSYID p xsyid);
        irl_write p chaf_irl (piece_ix + 1) nsyid) p;
  p ← (match virtual with Some v => irl_write p chaf_irl chaf_irl_length v | None => Ok p end);
  p ← irl_finish p chaf_irl;
  p ← upd_irl p chaf_irl (fun x =>
        set_Real_SYM_Count_of_IRL real_symbol_count
          (set_Virtual_End_of_IRL (piece_start + real_symbol_count - 1) (set_Virtual_Start_of_IRL piece_start
            (set_IRL_has_Virtual_RHS (Length_of_IRL x >? real_symbol_count) (set_IRL_has_Virtual_LHS (piece_start >? 0)
              (set_Source_XRL_of_IRL (Some rule_id) (set_Rank_of_IRL (IRL_CHAF_Rank_by_XRL rule chaf_rank) x)))))));
  upd_nsy p lhs (fun x => set_XRL_Offset_of_NSY piece_start (set_LHS_XRL_of_NSY (Some rule_id) x)).

Definition no_null (_ : Z) : bool := false.

(** Three factors or more are left: the number of the virtual symbol of the rest, the end of
    the piece, and how many factors were used. *)
Definition chaf_three p (rule_id : Z) (rule : XRL) (nullable_suffix_ix lhs piece_start first_factor_position second_factor_position : Z)
    : res (Z * Z * Z * INTERNAL) :=
  let rewrite_xrl_length := Length_of_XRL rule in
  let first := first_factor_position - piece_start in
  let second := second_factor_position - piece_start in
  chaf_xrl_lhs_id ← LHS_ID_of_XRL rule;
  if second_factor_position >=? nullable_suffix_ix then
    (* everything from the second factor on can be null *)
    let piece_end := second_factor_position - 1 in
    r ← nsy_new p chaf_xrl_lhs_id;
    let '(chaf_virtual_nsyid, p) := r in
    p ← chaf_irl p rule_id rule lhs piece_start piece_end no_null (Some chaf_virtual_nsyid) 3;
    p ← chaf_irl p rule_id rule lhs piece_start (rewrite_xrl_length - 1) (fun ix => second <=? ix) None 2;
    p ← chaf_irl p rule_id rule lhs piece_start piece_end (fun ix => ix =? first) (Some chaf_virtual_nsyid) 1;
    p ← (if piece_start <? nullable_suffix_ix then
           chaf_irl p rule_id rule lhs piece_start (rewrite_xrl_length - 1) (fun ix => (ix =? first) || (second <=? ix)) None 0
         else Ok p);
    Ok (chaf_virtual_nsyid, piece_end, 1, p)
  else
    let piece_end := second_factor_position in
    r ← nsy_new p chaf_xrl_lhs_id;
    let '(chaf_virtual_nsyid, p) := r in
    p ← chaf_irl p rule_id rule lhs piece_start piece_end no_null (Some chaf_virtual_nsyid) 3;
    p ← chaf_irl p rule_id rule lhs piece_start piece_end (fun ix => ix =? second) (Some chaf_virtual_nsyid) 2;
    p ← chaf_irl p rule_id rule lhs piece_start piece_end (fun ix => ix =? first) (Some chaf_virtual_nsyid) 1;
    p ← chaf_irl p rule_id rule lhs piece_start piece_end (fun ix => (ix =? first) || (ix =? second)) (Some chaf_virtual_nsyid) 0;
    Ok (chaf_virtual_nsyid, piece_end, 2, p).

Definition chaf_two p (rule_id : Z) (rule : XRL) (nullable_suffix_ix lhs piece_start first_factor_position second_factor_position : Z) : res INTERNAL :=
  let piece_end := Length_of_XRL rule - 1 in
  let first := first_factor_position - piece_start in
  let second := second_factor_position - piece_start in
  p ← chaf_irl p rule_id rule lhs piece_start piece_end no_null None 3;
  p ← chaf_irl p rule_id rule lhs piece_start piece_end (fun ix => ix =? second) None 2;
  p ← chaf_irl p rule_id rule lhs piece_start piece_end (fun ix => ix =? first) None 1;
  if piece_start <? nullable_suffix_ix then
    chaf_irl p rule_id rule lhs piece_start piece_end (fun ix => (ix =? first) || (ix =? second)) None 0
  else Ok p.

Definition chaf_one p (rule_id : Z) (rule : XRL) (nullable_suffix_ix lhs piece_start first_factor_position : Z) : res INTERNAL :=
  let piece_end := Length_of_XRL rule - 1 in
  p ← chaf_irl p rule_id rule lhs piece_start piece_end no_null None 3;
  if piece_start <? nullable_suffix_ix then
    chaf_irl p rule_id rule lhs piece_start piece_end (fun ix => ix =? first_factor_position - piece_start) None 0
  else Ok p.

(** A round uses one factor at least. *)
Fixpoint chaf_loop (fuel : nat) p (rule_id : Z) (rule : XRL) (factor_positions : list Z) (nullable_suffix_ix factor_position_ix lhs piece_start : Z)
    : res INTERNAL :=
  let unprocessed_factor_count := Z.of_nat (length factor_positions) - factor_position_ix in
  first_factor_position ← rd factor_positions factor_position_ix;
  if unprocessed_factor_count >=? 3 then
    match fuel with
    | O => NoFuel
    | S fuel =>
      second_factor_position ← rd factor_positions (factor_position_ix + 1);
      r ← chaf_three p rule_id rule nullable_suffix_ix lhs piece_start first_factor_position second_factor_position;
      let '(chaf_virtual_nsyid, piece_end, used, p) := r in
      chaf_loop fuel p rule_id rule factor_positions nullable_suffix_ix (factor_position_ix + used) chaf_virtual_nsyid (piece_end + 1)
    end
  else if unprocessed_factor_count =? 2 then
    second_factor_position ← rd factor_positions (factor_position_ix + 1);
    chaf_two p rule_id rule nullable_suffix_ix lhs piece_start first_factor_position second_factor_position
  else chaf_one p rule_id rule nullable_suffix_ix lhs piece_start first_factor_position.

(** ** The rewriting *)

(** A rule without a symbol that can be null and can be not null. *)
Definition rewrite_simple p (rule_id : Z) (rule : XRL) : res INTERNAL :=
  r ← irl_start p (Length_of_XRL rule);
  let '(new_irl, p) := r in
  p ← upd_irl p new_irl (fun x => set_Rank_of_IRL (IRL_Rank_by_XRL rule) (set_Source_XRL_of_IRL (Some rule_id) x));
  p ← for_res (Z.to_nat (Length_of_XRL rule + 1)) 0 (fun symbol_ix p =>
        xsyid ← rd (xrl_symbols rule) symbol_ix;
        nsyid ← NSYID_by_XSYID p xsyid;
        irl_write p new_irl symbol_ix nsyid) p;
  irl_finish p new_irl.

Definition rewrite_rule (rule_id : Z) p : res INTERNAL :=
  rule ← XRL_by_ID (t_g p) rule_id;
  if negb (XRL_is_Used rule) then Ok p
  else if XRL_is_Sequence rule then rewrite_sequence p rule_id rule
  else
    c ← for_res (Z.to_nat (Length_of_XRL rule)) 0 (count_factor p rule) ([], 0);
    let '(factor_positions, nullable_suffix_ix) := c in
    if Z.of_nat (length factor_positions) >? 0 then
      lhs_id ← LHS_ID_of_XRL rule;
      current_lhs_nsyid ← NSYID_by_XSYID p lhs_id;
      chaf_loop (length factor_positions) p rule_id rule factor_positions nullable_suffix_ix 0 current_lhs_nsyid 0
    else rewrite_simple p rule_id rule.

(** The start rule, unless the grammar is trivial. *)
Definition augment p (start_xsy_id : Z) : res INTERNAL :=
  start_xsy ← XSY_by_ID (t_g p) start_xsy_id;
  if negb (XSY_is_Nulling start_xsy) then
    r ← nsy_new p start_xsy_id;
    let '(new_start_nsy, p) := r in
    p ← upd_nsy p new_start_nsy (set_NSY_is_Start true);
    g ← upd_xsy (t_g p) start_xsy_id (set_xsy_is_start false);
    let p := set_t_g g p in
    start_nsyid ← NSYID_by_XSYID p start_xsy_id;
    r ← irl_with p new_start_nsy [start_nsyid];
    let '(new_start_irl, p) := r in
    p ← upd_irl p new_start_irl (fun x => set_Real_SYM_Count_of_IRL 1 (set_IRL_has_Virtual_LHS true x));
    Ok (set_t_start_irl (Some new_start_irl) p)
  else Ok p.

(** What the new symbols and rules start from: [symbol_new] has set the pointers of each
    symbol to null. *)
Definition internal_init (g : GRAMMAR) : INTERNAL :=
  MkINTERNAL g [] [] (replicate (length (t_xsy_stack g)) None) (replicate (length (t_xsy_stack g)) None) None.

Definition precompute_rewrite (g : GRAMMAR) (start_xsy_id : Z) : res INTERNAL :=
  p ← for_res (Z.to_nat (XSY_Count_of_G g)) 0 clone_symbol (internal_init g);
  p ← for_res (Z.to_nat (XRL_Count_of_G g)) 0 rewrite_rule p;
  augment p start_xsy_id.

(** Both parts: the result of a failed census, or the internal grammar. *)
Definition precompute_internal (junk : nat -> list Z) (g : GRAMMAR) : res ((Z * GRAMMAR) + INTERNAL) :=
  r ← precompute_census junk g;
  match r with
  | (Some ret, g) => Ok (inl (ret, g))
  | (None, g) => p ← precompute_rewrite g (t_start_xsy_id g); Ok (inr p)
  end.
End rewrite.
