(* ===== verification/RewriteSpec.v ===== *)
(** * What the internal grammar is for: the specification

    A rule whose symbols can be null is cut into pieces ([pieces]), so that each internal
    rule says which of its symbols are null.  The internal rules of a rule derive, from its
    left-hand side, what the rule derives, except the empty string; the same holds of the
    four rules of a sequence. *)
From stdpp Require Import sets list.
From S2P Require Import Prelude MarpaGrammar CensusSpec.

(** ** Strings derived from lists of symbols *)
Section all.
Context (I : Z -> list Z -> Prop).

Inductive all : list Z -> list Z -> Prop :=
| all_nil : all [] []
| all_cons y ys w1 w2 : I y w1 -> all ys w2 -> all (y :: ys) (w1 ++ w2).

Lemma all_inv ys w : all ys w ->
  match ys with [] => w = [] | y :: ys => exists w1 w2, w = w1 ++ w2 /\ I y w1 /\ all ys w2 end.
Proof. destruct 1; [done|eauto]. Qed.

Lemma all_nil_iff w : all [] w <-> w = [].
Proof. split; [by intros ?%all_inv|intros ->; constructor]. Qed.

Lemma all_cons_iff y ys w : all (y :: ys) w <-> exists w1 w2, w = w1 ++ w2 /\ I y w1 /\ all ys w2.
Proof. split; [apply all_inv|]. intros (w1&w2&->&?&?). by constructor. Qed.

Lemma all_app l1 l2 w : all (l1 ++ l2) w <-> exists w1 w2, w = w1 ++ w2 /\ all l1 w1 /\ all l2 w2.
Proof.
  revert w. induction l1 as [|y l1 IH]; intros w; cbn [app].
  - setoid_rewrite all_nil_iff. split; [intros ?; by exists [], w|by intros (?&?&->&->&?)].
  - rewrite all_cons_iff. setoid_rewrite IH. setoid_rewrite all_cons_iff. split.
    + intros (a&w'&->&Ha&b&c&->&Hb&Hc). exists (a ++ b), c. split; [apply app_assoc|]. split; [by exists a, b|done].
    + intros (w1&c&->&(a&b&->&Ha&Hb)&Hc). exists a, (b ++ c). split; [by rewrite app_assoc|]. split; [done|by exists b, c].
Qed.

Lemma all_join l1 l2 w1 w2 : all l1 w1 -> all l2 w2 -> all (l1 ++ l2) (w1 ++ w2).
Proof. intros ? ?. apply all_app. by exists w1, w2. Qed.

Lemma all_one y w : all [y] w <-> I y w.
Proof.
  rewrite all_cons_iff. setoid_rewrite all_nil_iff. split; [intros (w1&?&->&?&->); by rewrite app_nil_r|].
  intros ?. exists w, []. by rewrite app_nil_r.
Qed.
End all.

Lemma all_map (I J : Z -> list Z -> Prop) (f : Z -> Z) ys w :
  (forall y w, y ∈ ys -> I y w -> J (f y) w) -> all I ys w -> all J (f <$> ys) w.
Proof.
  intros Hf Ha. induction Ha as [|y ys w1 w2 Hy _ IH]; [constructor|]. simpl. constructor; [apply Hf; [left|done]|].
  apply IH. intros z v Hz. apply Hf. by right.
Qed.

Lemma all_map_inv (I J : Z -> list Z -> Prop) (f : Z -> Z) ys w :
  (forall y w, y ∈ ys -> J (f y) w -> I y w) -> all J (f <$> ys) w -> all I ys w.
Proof.
  revert w. induction ys as [|y ys IH]; intros w Hf; [by rewrite !all_nil_iff|]. cbn [fmap list_fmap]. rewrite !all_cons_iff.
  intros (w1&w2&->&Hy&Ha). exists w1, w2. split; [done|]. split; [apply Hf; [left|done]|]. apply IH; [|done]. intros z v Hz. apply Hf. by right.
Qed.

Lemma all_impl (I J : Z -> list Z -> Prop) ys w : (forall y w, y ∈ ys -> I y w -> J y w) -> all I ys w -> all J ys w.
Proof. intros Hf Ha. rewrite <- (list_fmap_id ys). by eapply all_map. Qed.

Lemma derives_all_iff fs T ys w : derives_all fs T ys w <-> all (derives fs T) ys w.
Proof. split; induction 1; constructor; done. Qed.

(** [J] is closed under the rules. *)
Definition closed (rs : list (Z * list Z)) (J : Z -> list Z -> Prop) : Prop := forall l rhs w, (l, rhs) ∈ rs -> all J rhs w -> J l w.

Lemma closed_app rs1 rs2 J : closed (rs1 ++ rs2) J <-> closed rs1 J /\ closed rs2 J.
Proof. unfold closed. setoid_rewrite elem_of_app. naive_solver. Qed.

(** ** The pieces of a rule *)
Section pieces.
Context (nsy nul : Z -> Z) (nulling nullable : Z -> bool).

(** A symbol that can be null and can be not null; one that cannot be null. *)
Definition factor (y : Z) : bool := negb (nulling y) && nullable y.
Definition kept (y : Z) : bool := negb (nulling y) && negb (nullable y).
Definition has_kept (l : list Z) : bool := existsb kept l.
Definition no_factor (l : list Z) : Prop := Forall (fun y => factor y = false) l.

Definition when (b : bool) (r : Z * list Z) : list (Z * list Z) := if b then [r] else [].

(** The internal rules of [lhs] for the symbols [l], the new symbols being numbered from
    [next]; [vs] tells which end of [l] each new symbol stands for. *)
Inductive pieces : Z -> list Z -> Z -> list (Z * list Z) -> list (list Z) -> Prop :=
| pieces_one lhs next l0 y1 l1 : no_factor l0 -> no_factor l1 -> factor y1 = true ->
    pieces lhs (l0 ++ y1 :: l1) next
      ([(lhs, nsy <$> (l0 ++ y1 :: l1))] ++ when (has_kept (l0 ++ y1 :: l1)) (lhs, (nsy <$> l0) ++ nul y1 :: (nsy <$> l1))) []
| pieces_two lhs next l0 y1 l1 y2 l2 : no_factor l0 -> no_factor l1 -> no_factor l2 -> factor y1 = true -> factor y2 = true ->
    pieces lhs (l0 ++ y1 :: l1 ++ y2 :: l2) next
      ([(lhs, nsy <$> (l0 ++ y1 :: l1 ++ y2 :: l2)); (lhs, (nsy <$> (l0 ++ y1 :: l1)) ++ nul y2 :: (nsy <$> l2));
        (lhs, (nsy <$> l0) ++ nul y1 :: (nsy <$> (l1 ++ y2 :: l2)))]
       ++ when (has_kept (l0 ++ y1 :: l1 ++ y2 :: l2)) (lhs, (nsy <$> l0) ++ nul y1 :: (nsy <$> l1) ++ nul y2 :: (nsy <$> l2))) []
| pieces_suffix lhs next l0 y1 l1 y2 l2 rs vs : no_factor l0 -> no_factor l1 -> factor y1 = true -> factor y2 = true ->
    has_kept (y2 :: l2) = false -> pieces next (y2 :: l2) (next + 1) rs vs ->
    pieces lhs (l0 ++ y1 :: l1 ++ y2 :: l2) next
      ([(lhs, (nsy <$> (l0 ++ y1 :: l1)) ++ [next]); (lhs, (nsy <$> (l0 ++ y1 :: l1)) ++ (nul <$> (y2 :: l2)));
        (lhs, ((nsy <$> l0) ++ nul y1 :: (nsy <$> l1)) ++ [next])]
       ++ when (has_kept (l0 ++ y1 :: l1 ++ y2 :: l2)) (lhs, (nsy <$> l0) ++ nul y1 :: (nsy <$> l1) ++ (nul <$> (y2 :: l2)))
       ++ rs) ((y2 :: l2) :: vs)
| pieces_four lhs next l0 y1 l1 y2 l2 rs vs : no_factor l0 -> no_factor l1 -> factor y1 = true -> factor y2 = true ->
    has_kept l2 = true -> pieces next l2 (next + 1) rs vs ->
    pieces lhs (l0 ++ y1 :: l1 ++ y2 :: l2) next
      ([(lhs, (nsy <$> (l0 ++ y1 :: l1 ++ [y2])) ++ [next]); (lhs, ((nsy <$> (l0 ++ y1 :: l1)) ++ [nul y2]) ++ [next]);
        (lhs, ((nsy <$> l0) ++ nul y1 :: (nsy <$> (l1 ++ [y2]))) ++ [next]); (lhs, ((nsy <$> l0) ++ nul y1 :: (nsy <$> l1) ++ [nul y2]) ++ [next])]
       ++ rs) (l2 :: vs).

(** ** They derive the symbols, but for the empty string *)

Context (L : Z -> list Z -> Prop).

(** What is null has a null internal symbol, the rest another. *)
Definition interprets (J : Z -> list Z -> Prop) (y : Z) : Prop :=
  (forall w, L y w -> w <> [] -> nulling y = false /\ J (nsy y) w)
  /\ (L y [] -> (nulling y || nullable y = true) /\ J (nul y) [])
  /\ (nulling y = true -> nsy y = nul y).

Lemma kept_nonempty J l w : (forall y, y ∈ l -> interprets J y) -> all L l w -> has_kept l = true -> w <> [].
Proof.
  intros HJ Ha. induction Ha as [|y ys w1 w2 Hy _ IH]; [done|]. simpl. rewrite orb_true_iff. intros [Hk|Hk] Hw; apply app_nil in Hw as [-> ->].
  - destruct (HJ y ltac:(left)) as (_&H2&_). destruct (H2 Hy) as [Hb _]. unfold kept in Hk. by destruct (nulling y), (nullable y).
  - apply IH; [|done|done]. intros z Hz. apply HJ. by right.
Qed.

Lemma plain_empty J l w : (forall y, y ∈ l -> interprets J y) -> no_factor l -> all L l w -> has_kept l = false -> w = [].
Proof.
  intros HJ Hf Ha. induction Ha as [|y ys w1 w2 Hy _ IH]; [done|]. apply Forall_cons in Hf as [Hfy Hf]. simpl. rewrite orb_false_iff. intros [Hk Hks].
  rewrite IH by (try done; intros z Hz; apply HJ; by right). destruct (HJ y ltac:(left)) as (H1&_&_). destruct w1 as [|t w1]; [done|].
  destruct (H1 _ Hy) as [Hz _]; [done|]. unfold kept, factor in *. rewrite Hz in *. simpl in *. by rewrite Hfy in Hk.
Qed.

Lemma plain_complete J l w : (forall y, y ∈ l -> interprets J y) -> no_factor l -> all L l w -> all J (nsy <$> l) w.
Proof.
  intros HJ Hf Ha. induction Ha as [|y ys w1 w2 Hy _ IH]; [constructor|]. apply Forall_cons in Hf as [Hfy Hf]. simpl.
  constructor; [|apply IH; [|done]; intros z Hz; apply HJ; by right]. destruct (HJ y ltac:(left)) as (H1&H2&H3). destruct w1 as [|t w1]; [|by apply H1].
  destruct (H2 Hy) as [Hb Hn]. unfold factor in Hfy. destruct (nulling y) eqn:Hz; [by rewrite H3|]. simpl in *. by rewrite Hb in Hfy.
Qed.

(** A factor is null or not. *)
Lemma factor_complete J y w : factor y = true -> interprets J y -> L y w -> (w = [] /\ J (nul y) []) \/ (w <> [] /\ J (nsy y) w).
Proof. intros Hf (H1&H2&_) Hy. destruct w as [|t w]; [left; split; [done|by apply H2]|right; split; [done|by apply H1]]. Qed.

(** Symbols that are all null. *)
Lemma null_complete J l : (forall y, y ∈ l -> interprets J y) -> all L l [] -> all J (nul <$> l) [].
Proof.
  intros HJ Ha. remember [] as w eqn:Hw. revert Hw. induction Ha as [|y ys w1 w2 Hy _ IH]; intros Hw; [constructor|]. apply app_nil in Hw as [-> ->].
  apply (all_cons J _ _ [] []); [apply HJ; [left|done]|]. apply IH; [|done]. intros z Hz. apply HJ. by right.
Qed.

Lemma has_kept_app l1 l2 : has_kept (l1 ++ l2) = has_kept l1 || has_kept l2.
Proof. apply existsb_app. Qed.

Lemma factor_not_kept y : factor y = true -> kept y = false.
Proof. unfold factor, kept. by destruct (nulling y), (nullable y). Qed.

Lemma when_in b r x : x ∈ when b r <-> b = true /\ x = r.
Proof. destruct b; simpl; [rewrite list_elem_of_singleton; naive_solver|]. split; [by intros ?%elem_of_nil|naive_solver]. Qed.

(** A rule that is there can be used. *)
Lemma use_rule rs J lhs rhs w : closed rs J -> (lhs, rhs) ∈ rs -> all J rhs w -> J lhs w.
Proof. intros Hc Hin Ha. by eapply Hc. Qed.

Ltac parts := repeat (rewrite fmap_app || rewrite fmap_cons); repeat (rewrite <- app_assoc || rewrite <- app_comm_cons); repeat first [eassumption | apply all_join | apply all_cons].

(** What is not empty, when the first factor is null, has a symbol that is kept. *)
Lemma somewhere_kept J l0 y l1 a c : (forall y', y' ∈ l0 ++ y :: l1 -> interprets J y') -> no_factor l0 -> factor y = true -> all L l0 a ->
  (has_kept l1 = false -> c = []) -> a ++ [] ++ c <> [] -> has_kept (l0 ++ y :: l1) = true.
Proof.
  intros HJ F0 K1 Ha Hc Hne. rewrite has_kept_app. simpl. rewrite (factor_not_kept y K1). simpl.
  destruct (has_kept l0) eqn:E0; [done|]. destruct (has_kept l1) eqn:E1; [done|].
  by rewrite (plain_empty J l0 a ltac:(intros; apply HJ; set_solver) F0 Ha E0), Hc in Hne.
Qed.

(** The parts of a string, at two factors. *)
Lemma split_parts J l0 y1 l1 y2 l2 w : (forall y, y ∈ l0 ++ y1 :: l1 ++ y2 :: l2 -> interprets J y) -> no_factor l0 -> no_factor l1 -> factor y1 = true ->
  all L (l0 ++ y1 :: l1 ++ y2 :: l2) w -> exists a b c d e, w = a ++ b ++ c ++ d ++ e /\ all L l0 a /\ all L l1 c /\ L y2 d /\ all L l2 e
    /\ all J (nsy <$> l0) a /\ all J (nsy <$> l1) c /\ ((b = [] /\ J (nul y1) []) \/ (b <> [] /\ J (nsy y1) b)) /\ (has_kept l1 = false -> c = []).
Proof.
  intros HJ F0 F1 K1 (a&w1&->&Ha&(b&w2&->&Hb&(c&w3&->&Hcc&(d&e&->&Hd&He)%all_cons_iff)%all_app)%all_cons_iff)%all_app.
  exists a, b, c, d, e. split_and!; [done..| | | |].
  - apply plain_complete; [intros; apply HJ; set_solver|done|done].
  - apply plain_complete; [intros; apply HJ; set_solver|done|done].
  - apply factor_complete; [done|apply HJ; set_solver|done].
  - apply (plain_empty J l1 c); [intros; apply HJ; set_solver|done|done].
Qed.

(** What a new symbol stands for, the first of them and those that follow. *)
Lemma virtual_cons J next s0 vs : (forall w, all L s0 w -> w <> [] -> J next w) ->
  (forall i s w, vs !! i = Some s -> all L s w -> w <> [] -> J (next + 1 + Z.of_nat i) w) ->
  forall i s w, (s0 :: vs) !! i = Some s -> all L s w -> w <> [] -> J (next + Z.of_nat i) w.
Proof.
  intros H0 Hs [|i] s w; cbn [lookup list_lookup].
  - intros [= <-] Hw Hne. rewrite Z.add_0_r. by apply H0.
  - intros Hi Hw Hne. replace (next + Z.of_nat (S i)) with (next + 1 + Z.of_nat i) by lia. by eapply Hs.
Qed.

Lemma pieces_complete lhs l next rs vs J : pieces lhs l next rs vs -> closed rs J -> (forall y, y ∈ l -> interprets J y) ->
  (forall w, all L l w -> w <> [] -> J lhs w)
  /\ forall i s w, vs !! i = Some s -> all L s w -> w <> [] -> J (next + Z.of_nat i) w.
Proof.
  induction 1 as [lhs next l0 y1 l1 F0 F1 K1|lhs next l0 y1 l1 y2 l2 F0 F1 F2 K1 K2|lhs next l0 y1 l1 y2 l2 rs vs F0 F1 K1 K2 Hno Hp IH|lhs next l0 y1 l1 y2 l2 rs vs F0 F1 K1 K2 Hk Hp IH];
    intros Hc HJ.
  - split; [|done]. intros w Hw Hne. apply all_app in Hw as (a&w'&->&Ha&(b&c&->&Hb&Hcc)%all_cons_iff).
    pose proof (plain_complete J l0 a ltac:(intros; apply HJ; set_solver) F0 Ha) as Pa. pose proof (plain_complete J l1 c ltac:(intros; apply HJ; set_solver) F1 Hcc) as Pc.
    destruct (factor_complete J y1 b K1 ltac:(apply HJ; set_solver) Hb) as [[-> Pb]|[_ Pb]].
    + assert (has_kept (l0 ++ y1 :: l1) = true) as Hk.
      { eapply somewhere_kept; [exact HJ|done|done|exact Ha| |exact Hne]. apply (plain_empty J l1 c); [intros; apply HJ; set_solver|done|done]. }
      apply (use_rule _ J _ ((nsy <$> l0) ++ nul y1 :: (nsy <$> l1)) _ Hc); [rewrite Hk; set_solver|parts].
    + apply (use_rule _ J _ (nsy <$> (l0 ++ y1 :: l1)) _ Hc); [set_solver|parts].
  - split; [|done]. intros w Hw Hne. destruct (split_parts J l0 y1 l1 y2 l2 w HJ F0 F1 K1 Hw) as (a&b&c&d&e&->&Ha&Hcc&Hd&He&Pa&Pc&Pb&Ec).
    pose proof (plain_complete J l2 e ltac:(intros; apply HJ; set_solver) F2 He) as Pe.
    destruct (factor_complete J y2 d K2 ltac:(apply HJ; set_solver) Hd) as [[-> Pd]|[_ Pd]], Pb as [[-> Pb]|[_ Pb]].
    + assert (has_kept (l0 ++ y1 :: l1 ++ y2 :: l2) = true) as Hk.
      { eapply somewhere_kept; [exact HJ|done|done|exact Ha| |exact Hne]. rewrite has_kept_app. simpl. rewrite !orb_false_iff. intros (E1&_&E2).
        by rewrite Ec, (plain_empty J l2 e ltac:(intros; apply HJ; set_solver) F2 He E2). }
      apply (use_rule _ J _ ((nsy <$> l0) ++ nul y1 :: (nsy <$> l1) ++ nul y2 :: (nsy <$> l2)) _ Hc); [rewrite Hk; set_solver|parts].
    + apply (use_rule _ J _ ((nsy <$> (l0 ++ y1 :: l1)) ++ nul y2 :: (nsy <$> l2)) _ Hc); [set_solver|parts].
    + apply (use_rule _ J _ ((nsy <$> l0) ++ nul y1 :: (nsy <$> (l1 ++ y2 :: l2))) _ Hc); [set_solver|parts].
    + apply (use_rule _ J _ (nsy <$> (l0 ++ y1 :: l1 ++ y2 :: l2)) _ Hc); [set_solver|parts].
  - rewrite !closed_app in Hc. destruct Hc as (Hc1&Hc2&Hc3). destruct IH as [IH1 IH2]; [done|intros; apply HJ; set_solver|].
    split; [|by apply virtual_cons]. intros w Hw Hne. destruct (split_parts J l0 y1 l1 y2 l2 w HJ F0 F1 K1 Hw) as (a&b&c&d&e&->&Ha&Hcc&Hd&He&Pa&Pc&Pb&Ec).
    assert (all L (y2 :: l2) (d ++ e)) as Hr by by constructor.
    destruct (decide (d ++ e = [])) as [Er|Er].
    + assert (all J (nul <$> (y2 :: l2)) []) as Pr by (apply null_complete; [intros; apply HJ; set_solver|by rewrite <- Er]).
      rewrite Er in Hne |- *. destruct Pb as [[-> Pb]|[_ Pb]].
      * assert (has_kept (l0 ++ y1 :: l1 ++ y2 :: l2) = true) as Hk.
        { eapply somewhere_kept; [exact HJ|done|done|exact Ha| |exact Hne]. rewrite has_kept_app, Hno, orb_false_r, app_nil_r. done. }
        apply (use_rule _ J _ ((nsy <$> l0) ++ nul y1 :: (nsy <$> l1) ++ (nul <$> (y2 :: l2))) _ Hc2); [rewrite Hk; set_solver|].
        apply all_join; [done|]. apply (all_cons _ _ _ []); [done|]. by apply all_join.
      * apply (use_rule _ J _ ((nsy <$> (l0 ++ y1 :: l1)) ++ (nul <$> (y2 :: l2))) _ Hc1); [set_solver|].
        rewrite fmap_app, fmap_cons, <- app_assoc. apply all_join; [done|]. apply (all_cons _ _ _ b); [done|]. by apply all_join.
    + specialize (IH1 _ Hr Er). destruct Pb as [[-> Pb]|[_ Pb]].
      * apply (use_rule _ J _ (((nsy <$> l0) ++ nul y1 :: (nsy <$> l1)) ++ [next]) _ Hc1); [set_solver|].
        rewrite <- app_assoc. apply all_join; [done|]. apply (all_cons _ _ _ []); [done|]. apply all_join; [done|]. by apply all_one.
      * apply (use_rule _ J _ ((nsy <$> (l0 ++ y1 :: l1)) ++ [next]) _ Hc1); [set_solver|].
        rewrite fmap_app, fmap_cons, <- app_assoc. apply all_join; [done|]. apply (all_cons _ _ _ b); [done|]. apply all_join; [done|]. by apply all_one.
  - rewrite closed_app in Hc. destruct Hc as (Hc1&Hc2). destruct IH as [IH1 IH2]; [done|intros; apply HJ; set_solver|].
    split; [|by apply virtual_cons]. intros w Hw Hne. destruct (split_parts J l0 y1 l1 y2 l2 w HJ F0 F1 K1 Hw) as (a&b&c&d&e&->&Ha&Hcc&Hd&He&Pa&Pc&Pb&Ec).
    assert (all J [next] e) as Pe by (apply all_one, IH1; [done|]; eapply (kept_nonempty J l2); [intros; apply HJ; set_solver|done|done]).
    destruct (factor_complete J y2 d K2 ltac:(apply HJ; set_solver) Hd) as [[-> Pd]|[_ Pd]], Pb as [[-> Pb]|[_ Pb]].
    + apply (use_rule _ J _ (((nsy <$> l0) ++ nul y1 :: (nsy <$> l1) ++ [nul y2]) ++ [next]) _ Hc1); [set_solver|parts].
    + apply (use_rule _ J _ (((nsy <$> (l0 ++ y1 :: l1)) ++ [nul y2]) ++ [next]) _ Hc1); [set_solver|parts].
    + apply (use_rule _ J _ (((nsy <$> l0) ++ nul y1 :: (nsy <$> (l1 ++ [y2]))) ++ [next]) _ Hc1); [set_solver|parts].
    + apply (use_rule _ J _ ((nsy <$> (l0 ++ y1 :: l1 ++ [y2])) ++ [next]) _ Hc1); [set_solver|parts].
Qed.

(** ** They derive nothing else *)

Definition explains (J : Z -> list Z -> Prop) (y : Z) : Prop :=
  (forall w, J (nsy y) w -> L y w /\ (nulling y = false -> w <> []))
  /\ (nulling y || nullable y = true -> forall w, J (nul y) w -> w = [] /\ L y []).

Lemma plain_sound J l w : (forall y, y ∈ l -> explains J y) -> all J (nsy <$> l) w -> all L l w /\ (has_kept l = true -> w <> []).
Proof.
  revert w. induction l as [|y l IH]; intros w HJ; cbn [fmap list_fmap].
  - rewrite all_nil_iff. intros ->. split; [constructor|done].
  - rewrite all_cons_iff. intros (w1&w2&->&Hy&Ha). destruct (HJ y ltac:(left)) as [H1 _]. destruct (H1 _ Hy) as [H2 H3].
    destruct (IH w2) as [IH1 IH2]; [intros z Hz; apply HJ; by right|done|]. split; [by constructor|]. simpl. rewrite orb_true_iff. unfold kept. intros [Hk|Hk] Hw; apply app_nil in Hw as [-> ->].
    + destruct (nulling y); [done|by apply H3].
    + by apply IH2.
Qed.

Lemma null_sound J l w : (forall y, y ∈ l -> explains J y) -> has_kept l = false -> all J (nul <$> l) w -> w = [] /\ all L l [].
Proof.
  revert w. induction l as [|y l IH]; intros w HJ; cbn [fmap list_fmap].
  - rewrite all_nil_iff. intros _ ->. split; [done|constructor].
  - simpl. rewrite orb_false_iff, all_cons_iff. intros [Hk Hks] (w1&w2&->&Hy&Ha). destruct (HJ y ltac:(left)) as [_ H1].
    destruct (IH w2) as [-> IH2]; [intros z Hz; apply HJ; by right|done|done|].
    destruct (H1 ltac:(unfold kept in Hk; by destruct (nulling y), (nullable y)) _ Hy) as [-> H2]. split; [done|]. by apply (all_cons L y l [] []).
Qed.

Lemma factor_sound J y w : factor y = true -> explains J y -> J (nsy y) w -> L y w /\ w <> [].
Proof. intros Hf [H1 _] Hy. destruct (H1 _ Hy) as [H2 H3]. split; [done|]. apply H3. unfold factor in Hf. by destruct (nulling y). Qed.

Lemma factor_null J y w : factor y = true -> explains J y -> J (nul y) w -> w = [] /\ L y [].
Proof. intros Hf [_ H1] Hy. apply H1; [|done]. unfold factor in Hf. by destruct (nulling y), (nullable y). Qed.

(** Reading the right-hand side of a rule that derives [w]. *)
Ltac read_rule HJ :=
  repeat match goal with
  | H : all _ (_ <$> (_ ++ _)) _ |- _ => rewrite fmap_app in H
  | H : all _ (_ <$> (_ :: _)) _ |- _ => rewrite fmap_cons in H
  | H : all _ (_ <$> []) _ |- _ => apply all_nil_iff in H as ->
  | H : all _ [] _ |- _ => apply all_nil_iff in H as ->
  | H : all _ (_ ++ _) _ |- _ => let a := fresh "a" in let b := fresh "b" in apply all_app in H as (a&b&->&?&?)
  | H : all _ (_ :: _) _ |- _ => let a := fresh "a" in let b := fresh "b" in apply all_cons_iff in H as (a&b&->&?&?)
  end;
  repeat match goal with
  | H : all _ (nsy <$> ?l) ?w |- _ => apply plain_sound in H as [? ?]; [|intros; apply HJ; set_solver]
  | K : factor ?y = true, H : ?J (nsy ?y) ?w |- _ => apply (factor_sound J y w K) in H as [? ?]; [|apply HJ; set_solver]
  | K : factor ?y = true, H : ?J (nul ?y) ?w |- _ => apply (factor_null J y w K) in H as [-> ?]; [|apply HJ; set_solver]
  end.

(** What was read is what the symbols derive. *)
Lemma nonempty_app {A} (a b : list A) : a <> [] \/ b <> [] -> a ++ b <> [].
Proof. destruct a; naive_solver. Qed.

Lemma when_sound J b lhs rhs : (b = true -> forall w, all J rhs w -> J lhs w) -> closed (when b (lhs, rhs)) J.
Proof. intros Hb l' rhs' w Hin Ha. apply when_in in Hin as [-> [= -> ->]]. by apply Hb. Qed.

Lemma cons_sound J lhs rhs rs : (forall w, all J rhs w -> J lhs w) -> closed rs J -> closed ((lhs, rhs) :: rs) J.
Proof. intros Hr Hrs l' rhs' w [[= -> ->]|Hin]%elem_of_cons Ha; [by apply Hr|by eapply Hrs]. Qed.

Lemma nil_sound J : closed [] J.
Proof. by intros l rhs w ?%elem_of_nil. Qed.

(** What a new symbol stands for, and those that follow. *)
Definition stands (J : Z -> list Z -> Prop) (next : Z) (vs : list (list Z)) : Prop :=
  forall i s w, vs !! i = Some s -> J (next + Z.of_nat i) w <-> all L s w /\ w <> [].

Lemma stands_cons J next s vs : stands J next (s :: vs) -> (forall w, J next w <-> all L s w /\ w <> []) /\ stands J (next + 1) vs.
Proof.
  intros Hv. split; [intros w; rewrite <- (Hv 0%nat s w eq_refl); by rewrite Z.add_0_r|]. intros i s' w Hi.
  rewrite <- (Hv (S i) s' w Hi). by replace (next + Z.of_nat (S i)) with (next + 1 + Z.of_nat i) by lia.
Qed.

Ltac nonempty :=
  let E := fresh in intros E;
  repeat match goal with H : _ ++ _ = [] |- _ => apply app_nil in H as [? ?] end;
  repeat match goal with H : _ || _ = true |- _ => apply orb_true_iff in H as [?|?] end;
  congruence || match goal with K : _ -> ?a <> [], E : ?a = [] |- _ => by apply K end.

(** A rule without a new symbol; with it, in the end. *)
Ltac plain_rule HJ Hl := apply cons_sound; [intros ? ?; apply Hl; read_rule HJ; [parts|nonempty]|].
Ltac kept_rule HJ Hl := apply when_sound; rewrite ?has_kept_app; simpl; rewrite ?has_kept_app; simpl; repeat (rewrite factor_not_kept by assumption); simpl; intros ? ? ?; apply Hl; read_rule HJ; [parts|nonempty].

Ltac virtual_rule HJ Hl H0 :=
  apply cons_sound; [let u := fresh "u" in let v := fresh "v" in let Hw := fresh in let Hr := fresh in
    intros ? Hw; apply Hl; apply all_app in Hw as (u&v&->&Hw&Hr); apply all_one, H0 in Hr as [Hr ?];
    read_rule HJ; [parts|nonempty]|].

Ltac null_rest HJ Hno :=
  match goal with H : all _ (nul <$> ?l) _ |- _ => apply (null_sound _ l) in H as [-> ?]; [|intros; apply HJ; set_solver|exact Hno] end.

Lemma pieces_sound lhs l next rs vs J : pieces lhs l next rs vs -> (forall y, y ∈ l -> explains J y) ->
  (forall w, all L l w -> w <> [] -> J lhs w) -> stands J next vs -> closed rs J.
Proof.
  induction 1 as [lhs next l0 y1 l1 F0 F1 K1|lhs next l0 y1 l1 y2 l2 F0 F1 F2 K1 K2|lhs next l0 y1 l1 y2 l2 rs vs F0 F1 K1 K2 Hno Hp IH|lhs next l0 y1 l1 y2 l2 rs vs F0 F1 K1 K2 Hk Hp IH];
    intros HJ Hl Hv.
  - cbn [app]. plain_rule HJ Hl. kept_rule HJ Hl.
  - cbn [app]. do 3 plain_rule HJ Hl. kept_rule HJ Hl.
  - remember (y2 :: l2) as s eqn:Es. clear Es K2. apply stands_cons in Hv as [H0 Hv]. cbn [app].
    virtual_rule HJ Hl H0.
    apply cons_sound; [intros ? ?; apply Hl; read_rule HJ; null_rest HJ Hno; [parts|nonempty]|].
    virtual_rule HJ Hl H0.
    apply closed_app; split; [|apply IH; [intros; apply HJ; set_solver|intros; by apply H0|done]].
    apply when_sound; rewrite has_kept_app; simpl; rewrite has_kept_app, Hno, factor_not_kept by done. simpl. intros ? ? ?. apply Hl; read_rule HJ; null_rest HJ Hno; [parts|nonempty].
  - apply stands_cons in Hv as [H0 Hv]. cbn [app].
    do 4 virtual_rule HJ Hl H0.
    apply IH; [intros; apply HJ; set_solver| |done]. intros; by apply H0.
Qed.

(** ** Their symbols *)

(** The rules have the left-hand sides that satisfy [Q], and symbols that satisfy [P] on their
    right-hand sides, one at least. *)
Definition rule_of (P Q : Z -> Prop) (r : Z * list Z) : Prop := Q r.1 /\ r.2 <> [] /\ Forall P r.2.

Ltac rule_ids HQ HP Hn Hwhen Hf :=
  repeat match goal with
  | |- Forall _ (_ <$> (_ ++ _)) => rewrite fmap_app
  | |- Forall _ (_ ++ _) => apply Forall_app; split
  | |- Forall _ (_ :: _) => apply Forall_cons; split
  | |- Forall _ [] => apply Forall_nil; exact I
  | |- Forall _ (when _ _) => apply Hwhen; intros _
  | |- rule_of _ _ _ => split; [exact HQ|split]
  | |- _ <> [] => let E := fresh in intros E%(f_equal length); revert E; rewrite ?length_app, ?length_fmap, ?length_app; cbn; lia
  | |- Forall _ (nsy <$> _) => apply Hn; intros; apply HP; set_solver
  | |- _ (nsy _) => apply HP; set_solver
  | |- _ (nul _) => apply HP; [set_solver|by apply Hf]
  | |- Forall _ (_, _).2 => cbn [snd]
  | |- (_, _).2 <> [] => cbn [snd]
  end.

Lemma pieces_ids (P Q : Z -> Prop) lhs l next rs vs : pieces lhs l next rs vs -> Q lhs ->
  (forall y, y ∈ l -> P (nsy y) /\ (nulling y || nullable y = true -> P (nul y))) ->
  (forall i, (i < length vs)%nat -> P (next + Z.of_nat i) /\ Q (next + Z.of_nat i)) -> Forall (rule_of P Q) rs.
Proof.
  clear L. assert (forall b r, (b = true -> rule_of P Q r) -> Forall (rule_of P Q) (when b r)) as Hwhen by (intros [] r Hr; repeat constructor; by apply Hr).
  assert (forall y, factor y = true -> nulling y || nullable y = true) as Hf by (intros y; unfold factor; by destruct (nulling y), (nullable y)).
  assert (forall l, (forall y, y ∈ l -> P (nsy y) /\ (nulling y || nullable y = true -> P (nul y))) -> Forall P (nsy <$> l)) as Hn.
  { intros k Hk. apply Forall_fmap, Forall_forall. intros y Hy. by apply Hk. }
  assert (forall l, has_kept l = false -> (forall y, y ∈ l -> P (nsy y) /\ (nulling y || nullable y = true -> P (nul y))) -> Forall P (nul <$> l)) as Hz.
  { intros k. induction k as [|y k IH]; intros Hk Hy; [constructor|]. cbn in Hk. apply orb_false_iff in Hk as [Hk Hks]. cbn. constructor.
    - apply Hy; [left|]. unfold kept in Hk. by destruct (nulling y), (nullable y).
    - apply IH; [done|]. intros z Hzz. apply Hy. by right. }
  induction 1 as [lhs next l0 y1 l1 F0 F1 K1|lhs next l0 y1 l1 y2 l2 F0 F1 F2 K1 K2|lhs next l0 y1 l1 y2 l2 rs vs F0 F1 K1 K2 Hno Hp IH|lhs next l0 y1 l1 y2 l2 rs vs F0 F1 K1 K2 Hk Hp IH];
    intros HQ HP Hv.
  1, 2: rule_ids HQ HP Hn Hwhen Hf.
  - apply Forall_app. split; [rule_ids HQ HP Hn Hwhen Hf; solve [rewrite <- (Z.add_0_r next); apply (Hv 0%nat); cbn; lia | apply Hz; [exact Hno|intros; apply HP; set_solver]]|].
    apply Forall_app. split; [rule_ids HQ HP Hn Hwhen Hf; apply Hz; [exact Hno|intros; apply HP; set_solver]|].
    apply IH; [rewrite <- (Z.add_0_r next); apply (Hv 0%nat); cbn; lia|intros; apply HP; set_solver|].
    intros i Hi; replace (next + 1 + Z.of_nat i) with (next + Z.of_nat (S i)) by lia; apply Hv; cbn; lia.
  - apply Forall_app. split; [rule_ids HQ HP Hn Hwhen Hf; rewrite <- (Z.add_0_r next); apply (Hv 0%nat); cbn; lia|].
    apply IH; [rewrite <- (Z.add_0_r next); apply (Hv 0%nat); cbn; lia|intros; apply HP; set_solver|].
    intros i Hi; replace (next + 1 + Z.of_nat i) with (next + Z.of_nat (S i)) by lia; apply Hv; cbn; lia.
Qed.
End pieces.
