(* ===== verification/RewriteSteps.v ===== *)
(** * The internal grammar: what each step of the rewriting adds

    The operations of [Rewrite] on a state of which is known what its rules say and what its
    symbols stand for ([looks]): each adds rules, or symbols, and changes nothing else. *)
From stdpp Require Import list sets.
From S2P Require Import Prelude MarpaGrammar MarpaRules MarpaGrammarTheorems Census CensusSpec CensusLists CensusClosure CensusRules Rewrite RewriteSpec.

(** ** What rules and symbols say *)

(** What an internal symbol stands for: a symbol that is null, a symbol, the start symbol,
    or a part of a rule of the symbol, from a position on. *)
Inductive sense : Type :=
| NullOf (z : option Z)
| SymbolOf (z : option Z)
| StartOf (z : option Z)
| PartOf (z rule : option Z) (offset : Z).

Definition sense_of (x : NSY) : sense :=
  if NSY_is_Nulling x then NullOf (Source_XSY_of_NSY x)
  else if NSY_is_Semantic x then SymbolOf (Source_XSY_of_NSY x)
  else if NSY_is_Start x then StartOf (Source_XSY_of_NSY x)
  else PartOf (Source_XSY_of_NSY x) (LHS_XRL_of_NSY x) (XRL_Offset_of_NSY x).

(** [chaf_irl] marks its left-hand side, which means something for the new symbols only. *)
Definition tag (rule_id offset : Z) (s : sense) : sense := match s with PartOf z _ _ => PartOf z (Some rule_id) offset | _ => s end.

Definition nsy_view (x : NSY) : Z * sense := (ID_of_NSY x, sense_of x).
Definition irl_view (x : IRL) : Z * Z * list (option Z) := (ID_of_IRL x, Length_of_IRL x, t_nsyid_array x).

(** The rule number [i], every symbol of it written. *)
Definition whole (i : nat) (r : Z * list Z) : Z * Z * list (option Z) := (Z.of_nat i, Z.of_nat (length r.2), Some <$> (r.1 :: r.2)).

(** The rules are [rs], the symbols [ss]; [E]: what is not rules and symbols. *)
Definition env : Type := GRAMMAR * list (option Z) * list (option Z) * option Z.
Definition env_of (p : INTERNAL) : env := (t_g p, t_nsy_equivalent p, t_nulling_nsy p, t_start_irl p).

Record looks (E : env) (rs : list (Z * list Z)) (ss : list sense) (p : INTERNAL) : Prop := {
  lk_env : env_of p = E;
  lk_rules : irl_view <$> t_irl_stack p = imap whole rs;
  lk_senses : nsy_view <$> t_nsy_stack p = imap (fun i s => (Z.of_nat i, s)) ss
}.

(** What a change of a symbol makes of what it stands for. *)
Ltac sense := unfold sense_of; let x := fresh in intros x; cbn; destruct (NSY_is_Nulling x), (NSY_is_Semantic x), (NSY_is_Start x); congruence.

Section looks.
Context (E : env).
Implicit Types (rs : list (Z * list Z)) (ss : list sense).

Lemma looks_irl_count rs ss p : looks E rs ss p -> IRL_Count_of_G p = Z.of_nat (length rs).
Proof. intros Hp. unfold IRL_Count_of_G. by rewrite <- (length_fmap irl_view), (lk_rules _ _ _ _ Hp), length_imap. Qed.

Lemma looks_nsy_count rs ss p : looks E rs ss p -> NSY_Count_of_G p = Z.of_nat (length ss).
Proof. intros Hp. unfold NSY_Count_of_G. by rewrite <- (length_fmap nsy_view), (lk_senses _ _ _ _ Hp), length_imap. Qed.

Lemma looks_nsy rs ss p i s : looks E rs ss p -> ss !! i = Some s -> exists x, t_nsy_stack p !! i = Some x /\ ID_of_NSY x = Z.of_nat i /\ sense_of x = s.
Proof.
  intros Hp Hs. pose proof (f_equal (lookup i) (lk_senses _ _ _ _ Hp)) as Hv. rewrite list_lookup_fmap, list_lookup_imap, Hs in Hv.
  destruct (t_nsy_stack p !! i) as [x|]; [|done]. exists x. by injection Hv.
Qed.

(** ** Symbols *)

Lemma upd_nsy_ok rs ss p i s s' f : looks E rs ss p -> ss !! i = Some s -> (forall x, ID_of_NSY (f x) = ID_of_NSY x) ->
  (forall x, sense_of x = s -> sense_of (f x) = s') -> ends_in (upd_nsy p (Z.of_nat i) f) (looks E rs (<[i := s']> ss)).
Proof.
  intros Hp Hs Hid Hf. destruct (looks_nsy rs ss p i s Hp Hs) as (x&Hx&Hxi&Hxs).
  unfold upd_nsy, NSY_by_ID. rewrite (proj2 (rd_Ok _ _ x)) by (rewrite Nat2Z.id; split; [lia|done]). cbn [mbind res_bind].
  rewrite wr_total by (apply lookup_lt_Some in Hx; lia). apply ends_Ok. split; [apply Hp|apply Hp|].
  cbn [t_nsy_stack set_t_nsy_stack]. rewrite Nat2Z.id, list_fmap_insert, (lk_senses _ _ _ _ Hp). unfold nsy_view. rewrite Hid, Hxi, (Hf x Hxs).
  apply list_eq. intros j. rewrite list_lookup_imap. destruct (decide (i = j)) as [<-|Hij].
  - rewrite !list_lookup_insert_eq; [done|by apply lookup_lt_Some in Hs|rewrite length_imap; by apply lookup_lt_Some in Hs].
  - by rewrite !list_lookup_insert_ne, list_lookup_imap by done.
Qed.

Lemma nsy_start_ok rs ss p : looks E rs ss p -> (nsy_start p).1 = Z.of_nat (length ss) /\ looks E rs (ss ++ [PartOf None None (-1)]) (nsy_start p).2.
Proof.
  intros Hp. cbn. split; [by eapply looks_nsy_count|]. split; [apply Hp|apply Hp|]. cbn [t_nsy_stack set_t_nsy_stack].
  rewrite fmap_app, (lk_senses _ _ _ _ Hp), imap_app. cbn. by rewrite (looks_nsy_count _ _ _ Hp), Nat.add_0_r.
Qed.

(** Changing the last symbol. *)
Lemma upd_last rs ss p id s s' f : looks E rs (ss ++ [s]) p -> id = Z.of_nat (length ss) -> (forall x, ID_of_NSY (f x) = ID_of_NSY x) ->
  (forall x, sense_of x = s -> sense_of (f x) = s') -> ends_in (upd_nsy p id f) (looks E rs (ss ++ [s'])).
Proof.
  intros Hp -> Hid Hf. eapply ends_mono; [eapply upd_nsy_ok; [exact Hp| |done|exact Hf]|].
  - by rewrite lookup_app_r, Nat.sub_diag.
  - intros p'. by rewrite insert_app_r_alt, Nat.sub_diag by lia.
Qed.

Ltac new_symbol Hp Hz :=
  rewrite Hz; cbn [mbind res_bind]; let Hid := fresh "Hid" in let Hp' := fresh "Hp'" in
  pose proof (nsy_start_ok _ _ _ Hp) as [Hid Hp']; destruct (nsy_start _) as [id p']; cbn in Hid, Hp'; subst id.

Lemma nsy_new_ok rs ss p z xsy : looks E rs ss p -> XSY_by_ID (t_g p) z = Ok xsy ->
  ends_in (nsy_new p z) (fun r => r.1 = Z.of_nat (length ss) /\ looks E rs (ss ++ [PartOf (Some z) None (-1)]) r.2).
Proof.
  intros Hp Hz. unfold nsy_new. new_symbol Hp Hz.
  eapply ends_bind; [eapply (upd_last _ _ _ _ _ (PartOf (Some z) None (-1))); [exact Hp'|done|done|sense]|]. intros p2 Hp2. by apply ends_Ok.
Qed.

Lemma semantic_nsy_new_ok rs ss p z xsy : looks E rs ss p -> XSY_by_ID (t_g p) z = Ok xsy ->
  ends_in (semantic_nsy_new p z) (fun r => r.1 = Z.of_nat (length ss) /\ looks E rs (ss ++ [SymbolOf (Some z)]) r.2).
Proof.
  intros Hp Hz. eapply ends_bind; [by eapply nsy_new_ok|]. intros [id p'] [Hid Hp']. cbn in Hid, Hp'. subst id.
  eapply ends_bind; [eapply (upd_last _ _ _ _ _ (SymbolOf (Some z))); [exact Hp'|done|done|sense]|]. intros p2 Hp2. by apply ends_Ok.
Qed.

Lemma nsy_clone_ok rs ss p z xsy : looks E rs ss p -> XSY_by_ID (t_g p) z = Ok xsy ->
  ends_in (nsy_clone p z) (fun r => r.1 = Z.of_nat (length ss)
    /\ looks E rs (ss ++ [if XSY_is_Nulling xsy then NullOf (Some z) else SymbolOf (Some z)]) r.2).
Proof.
  intros Hp Hz. unfold nsy_clone. new_symbol Hp Hz.
  eapply ends_bind; [eapply (upd_last _ _ _ _ _ (if XSY_is_Nulling xsy then NullOf (Some z) else SymbolOf (Some z))); [exact Hp'|done|done|]|].
  - destruct (XSY_is_Nulling xsy); sense.
  - intros p2 Hp2. by apply ends_Ok.
Qed.

(** The flags that the creation of an alias sets are set already. *)
Lemma symbol_alias_create_ok rs ss p z xsy : looks E rs ss p -> XSY_by_ID (t_g p) z = Ok xsy -> XSY_is_Nulling xsy = false -> XSY_is_Nullable xsy = true ->
  ends_in (symbol_alias_create p z) (fun r => r.1 = Z.of_nat (length ss) /\ looks E rs (ss ++ [NullOf (Some z)]) r.2).
Proof.
  intros Hp Hz Hg Hb. eapply ends_bind; [by eapply semantic_nsy_new_ok|]. intros [id p'] [Hid Hp']. cbn in Hid, Hp'. subst id.
  assert (upd_xsy (t_g p') z (fun xsy => set_XSY_is_Nullable true (set_XSY_is_Nulling false xsy)) = Ok (t_g p')) as ->.
  { assert (t_g p' = t_g p) as -> by (pose proof (lk_env _ _ _ _ Hp'); rewrite <- (lk_env _ _ _ _ Hp) in *; unfold env_of in *; congruence).
    unfold upd_xsy. rewrite Hz. cbn [mbind res_bind]. apply rd_Ok in Hz as [Hz0 Hz].
    assert (set_XSY_is_Nullable true (set_XSY_is_Nulling false xsy) = xsy) as -> by (destruct xsy; cbn in Hg, Hb; by subst).
    rewrite wr_total by (apply lookup_lt_Some in Hz; lia). cbn [mbind res_bind]. rewrite list_insert_id by done. by destruct (t_g p). }
  cbn [mbind res_bind]. assert (set_t_g (t_g p') p' = p') as -> by by destruct p'.
  eapply ends_bind; [eapply (upd_last _ _ _ _ _ (NullOf (Some z))); [exact Hp'|done|done|sense]|]. intros p2 Hp2. by apply ends_Ok.
Qed.

(** ** Rules *)

(** A rule is being written after those of [p0]: [arr] is what has been written. *)
Definition draft (p0 : INTERNAL) (len : Z) (arr : list (option Z)) (p : INTERNAL) : Prop :=
  exists x, p = set_t_irl_stack (t_irl_stack p0 ++ [x]) p0 /\ irl_view x = (IRL_Count_of_G p0, len, arr).

Lemma irl_start_ok p0 len : 0 <= len ->
  ends_in (irl_start p0 len) (fun r => r.1 = IRL_Count_of_G p0 /\ draft p0 len (replicate (Z.to_nat (len + 1)) None) r.2).
Proof.
  intros Hl. unfold irl_start. destruct (Z.ltb_spec len 0); [lia|]. apply ends_Ok. split; [done|]. by eexists.
Qed.

Lemma draft_upd p0 len arr arr' p f : draft p0 len arr p -> (forall x, irl_view x = (IRL_Count_of_G p0, len, arr) -> irl_view (f x) = (IRL_Count_of_G p0, len, arr')) ->
  ends_in (upd_irl p (IRL_Count_of_G p0) f) (draft p0 len arr').
Proof.
  intros (x&->&Hx) Hf. unfold upd_irl, IRL_by_ID, IRL_Count_of_G. cbn [t_irl_stack set_t_irl_stack].
  rewrite (proj2 (rd_Ok _ _ x)) by (rewrite Nat2Z.id, lookup_app_r, Nat.sub_diag by lia; split; [lia|done]). cbn [mbind res_bind].
  rewrite wr_total by (rewrite length_app; cbn [length]; lia). rewrite Nat2Z.id, insert_app_r_alt, Nat.sub_diag by lia. apply ends_Ok.
  exists (f x). split; [done|by apply Hf].
Qed.

Lemma draft_write p0 len arr p ix v : draft p0 len arr p -> 0 <= ix < Z.of_nat (length arr) ->
  ends_in (irl_write p (IRL_Count_of_G p0) ix v) (draft p0 len (<[Z.to_nat ix := Some v]> arr)).
Proof.
  intros Hp Hix. pose proof Hp as (x&->&Hx). unfold irl_write, IRL_by_ID, IRL_Count_of_G. cbn [t_irl_stack set_t_irl_stack].
  rewrite (proj2 (rd_Ok _ _ x)) by (rewrite Nat2Z.id, lookup_app_r, Nat.sub_diag by lia; split; [lia|done]). cbn [mbind res_bind].
  injection Hx as Hx1 Hx2 Hx3. rewrite Hx3, wr_total by done. cbn [mbind res_bind]. apply (draft_upd _ _ _ _ _ _ Hp). intros y [= Hy1 Hy2 _]. unfold irl_view. cbn. by rewrite Hy1, Hy2.
Qed.

(** The loop that writes the symbols [ys] from the position [off] on. *)
Lemma draft_fill p0 len (body : Z -> INTERNAL -> res INTERNAL) off pre ys k p : Z.of_nat (length pre) = off ->
  (forall j y arr p, ys !! j = Some y -> draft p0 len arr p -> (off + Z.of_nat j) < Z.of_nat (length arr) ->
    ends_in (body (Z.of_nat j) p) (draft p0 len (<[Z.to_nat (off + Z.of_nat j) := Some y]> arr))) ->
  draft p0 len ((Some <$> pre) ++ replicate (length ys + k) None) p ->
  ends_in (for_res (length ys) 0 body p) (draft p0 len ((Some <$> (pre ++ ys)) ++ replicate k None)).
Proof.
  intros Hoff Hb Hp. eapply (ends_for (fun j => draft p0 len ((Some <$> (pre ++ take (Z.to_nat j) ys)) ++ replicate (length ys - Z.to_nat j + k) None))).
  - cbn [Z.to_nat take]. by rewrite app_nil_r, Nat.sub_0_r.
  - intros j p' Hj Hp'. destruct (lookup_lt_is_Some_2 ys (Z.to_nat j)) as [y Hy]; [lia|].
    assert (length (pre ++ take (Z.to_nat j) ys) = Z.to_nat (off + j)) as Hpre by (rewrite length_app, length_take; lia).
    eapply ends_mono; [replace j with (Z.of_nat (Z.to_nat j)) at 1 by lia; eapply (Hb _ _ _ _ Hy Hp')|].
    + rewrite length_app, length_fmap, length_replicate, Hpre. lia.
    + intros p2. replace (off + Z.of_nat (Z.to_nat j)) with (off + j) by lia. rewrite insert_app_r_alt by (rewrite length_fmap; lia).
      rewrite length_fmap, Hpre, Nat.sub_diag. replace (length ys - Z.to_nat j + k)%nat with (S (length ys - Z.to_nat (j + 1) + k)) by lia.
      cbn [replicate insert list_insert]. replace (Z.to_nat (j + 1)) with (S (Z.to_nat j)) at 2 by lia. rewrite (take_S_r _ _ y Hy), !app_assoc, (fmap_app _ (pre ++ _)), <- app_assoc. done.
  - intros p' Hp'. rewrite Nat2Z.id, take_ge, Nat.sub_diag in Hp' by lia. done.
Qed.

(** A rule that is written is the next of the rules. *)
Lemma draft_looks rs ss p0 p lhs rhs : looks E rs ss p0 -> draft p0 (Z.of_nat (length rhs)) (Some <$> (lhs :: rhs)) p -> looks E (rs ++ [(lhs, rhs)]) ss p.
Proof.
  intros Hp0 (x&->&Hx). split; [apply Hp0| |apply Hp0]. cbn [t_irl_stack set_t_irl_stack].
  rewrite fmap_app, (lk_rules _ _ _ _ Hp0), imap_app. cbn. rewrite Hx, (looks_irl_count _ _ _ Hp0). by rewrite Nat.add_0_r.
Qed.

Lemma upd_irl_looks rs ss p i r f : looks E rs ss p -> rs !! i = Some r -> (forall x, irl_view (f x) = irl_view x) -> ends_in (upd_irl p (Z.of_nat i) f) (looks E rs ss).
Proof.
  intros Hp Hr Hf. unfold upd_irl, IRL_by_ID. destruct (lookup_lt_is_Some_2 (t_irl_stack p) i) as [x Hx].
  { apply lookup_lt_Some in Hr. pose proof (looks_irl_count _ _ _ Hp). unfold IRL_Count_of_G in *. lia. }
  rewrite (proj2 (rd_Ok _ _ x)) by (rewrite Nat2Z.id; split; [lia|done]). cbn [mbind res_bind].
  rewrite wr_total by (apply lookup_lt_Some in Hx; lia). apply ends_Ok. split; [apply Hp| |apply Hp].
  cbn [t_irl_stack set_t_irl_stack]. rewrite Nat2Z.id, <- (lk_rules _ _ _ _ Hp), list_fmap_insert, Hf. apply list_insert_id. by rewrite list_lookup_fmap, Hx.
Qed.

Lemma irl_finish_ok rs ss p i lhs rhs l s : looks E rs ss p -> rs !! i = Some (lhs, rhs) -> lhs = Z.of_nat l -> ss !! l = Some s -> ends_in (irl_finish p (Z.of_nat i)) (looks E rs ss).
Proof.
  intros Hp Hr -> Hs. unfold irl_finish, IRL_by_ID. pose proof (f_equal (lookup i) (lk_rules _ _ _ _ Hp)) as Hv. rewrite list_lookup_fmap, list_lookup_imap, Hr in Hv.
  destruct (t_irl_stack p !! i) as [x|] eqn:Hx; [|done]. injection Hv as _ _ Hv.
  rewrite (proj2 (rd_Ok _ _ x)) by (rewrite Nat2Z.id; split; [lia|done]). cbn [mbind res_bind]. unfold LHSID_of_IRL. rewrite Hv. cbn.
  eapply ends_mono; [by eapply (upd_nsy_ok _ _ _ l s s)|]. intros p'. by rewrite list_insert_id.
Qed.
End looks.

(** * The internal grammar: the pieces of a rule, written one after the other

    [chaf_loop] writes, for a rule with symbols that can be null and can be not null, rules
    that are its pieces ([RewriteSpec.pieces]), and makes the symbols that stand for the
    rests of the rule. *)

(** The new symbols stand for the ends of the right-hand side [l] of the rule. *)
Definition rests (l : list Z) (offs : list Z) (vs : list (list Z)) : Prop :=
  Forall2 (fun o v => exists before, l = before ++ v /\ o = Z.of_nat (length before)) offs vs.
Definition rest_of (z rule_id o : Z) : sense := PartOf (Some z) (Some rule_id) o.

Section chaf.
Context (E : env) (nsy nul : Z -> Z) (nulling nullable : Z -> bool).
Implicit Types (rs : list (Z * list Z)) (ss : list sense).

#[local] Abbreviation has_kept := (has_kept nulling nullable).
#[local] Abbreviation factor := (factor nulling nullable).
#[local] Abbreviation no_factor := (no_factor nulling nullable).
#[local] Abbreviation pieces := (pieces nsy nul nulling nullable).

(** ** Which of the symbols are null *)

(** The internal symbols of [l], counted from [i]. *)
Inductive trans (nulls : Z -> bool) : Z -> list Z -> list Z -> Prop :=
| trans_nil i : trans nulls i [] []
| trans_nsy i y l us : nulls i = false -> trans nulls (i + 1) l us -> trans nulls i (y :: l) (nsy y :: us)
| trans_nul i y l us : nulls i = true -> nulling y || nullable y = true -> trans nulls (i + 1) l us -> trans nulls i (y :: l) (nul y :: us).

Lemma trans_app nulls i l1 l2 us1 us2 : trans nulls i l1 us1 -> trans nulls (i + Z.of_nat (length l1)) l2 us2 -> trans nulls i (l1 ++ l2) (us1 ++ us2).
Proof.
  induction 1 as [i|i y l us Hi _ IH|i y l us Hi Hy _ IH]; cbn [app length]; [by rewrite Z.add_0_r|..];
    (intros H2; constructor; [done..|]; apply IH; by replace (i + 1 + Z.of_nat (length l)) with (i + Z.of_nat (S (length l))) by lia).
Qed.

Lemma trans_plain nulls i l : (forall j, i <= j < i + Z.of_nat (length l) -> nulls j = false) -> trans nulls i l (nsy <$> l).
Proof.
  revert i. induction l as [|y l IH]; intros i Hn; cbn [fmap list_fmap length] in *; constructor; [apply Hn; lia|]. apply IH. intros j Hj. apply Hn. lia.
Qed.

Lemma trans_null nulls i l : has_kept l = false -> (forall j, i <= j < i + Z.of_nat (length l) -> nulls j = true) -> trans nulls i l (nul <$> l).
Proof.
  revert i. induction l as [|y l IH]; intros i Hk Hn; cbn [fmap list_fmap length] in *; [constructor|]. cbn in Hk. apply orb_false_iff in Hk as [Hy Hk].
  constructor; [apply Hn; lia| |].
  - unfold kept in Hy. by destruct (nulling y), (nullable y).
  - apply IH; [done|]. intros j Hj. apply Hn. lia.
Qed.

Lemma trans_length nulls i l us : trans nulls i l us -> length us = length l.
Proof. induction 1; cbn; congruence. Qed.

Lemma trans_lookup nulls i l us (j : nat) u : trans nulls i l us -> us !! j = Some u ->
  exists y, l !! j = Some y /\ if nulls (i + Z.of_nat j) then u = nul y /\ nulling y || nullable y = true else u = nsy y.
Proof.
  intros Ht. revert j. induction Ht as [i|i y l us Hi _ IH|i y l us Hi Hy _ IH]; intros [|j]; cbn; [done..| | | |].
  - intros [= <-]. exists y. by rewrite Z.add_0_r, Hi.
  - intros (z&Hz&Hu)%IH. exists z. by replace (i + Z.of_nat (S j)) with (i + 1 + Z.of_nat j) by lia.
  - intros [= <-]. exists y. by rewrite Z.add_0_r, Hi.
  - intros (z&Hz&Hu)%IH. exists z. by replace (i + Z.of_nat (S j)) with (i + 1 + Z.of_nat j) by lia.
Qed.

(** ** One rule of a piece *)

Context (rule_id : Z) (rule : XRL) (Hshaped : shaped rule).
#[local] Abbreviation ys := (rf_rhs (form_of rule)).
Context (Hnsy : forall y, y ∈ ys -> rd E.1.1.2 y = Ok (Some (nsy y))).
Context (Hnul : forall y, y ∈ ys -> nulling y || nullable y = true -> rd E.1.2 y = Ok (Some (nul y))).

Lemma draft_env p0 len arr p : draft p0 len arr p -> env_of p = env_of p0.
Proof. by intros (x&->&_). Qed.

Lemma chaf_irl_ok rs ss p (l : nat) s before seg after nulls us virtual chaf_rank : looks E rs ss p -> ss !! l = Some s ->
  ys = before ++ seg ++ after -> trans nulls 0 seg us ->
  ends_in (chaf_irl p rule_id rule (Z.of_nat l) (Z.of_nat (length before)) (Z.of_nat (length before + length seg) - 1) nulls virtual chaf_rank)
    (looks E (rs ++ [(Z.of_nat l, us ++ option_list virtual)]) (alter (tag rule_id (Z.of_nat (length before))) l ss)).
Proof using Hshaped Hnsy Hnul.
  intros Hp Hs Hys Ht. unfold chaf_irl. set (real := Z.of_nat (length before + length seg) - 1 - Z.of_nat (length before) + 1).
  assert (real = Z.of_nat (length seg)) as -> by lia. pose proof (trans_length _ _ _ _ Ht) as Hlen.
  set (len := Z.of_nat (length seg) + _). assert (len = Z.of_nat (length (us ++ option_list virtual))) as Elen.
  { subst len. rewrite length_app, Hlen. destruct virtual; cbn; lia. }
  pose proof (looks_irl_count _ _ _ _ Hp) as Hcount.
  eapply ends_bind; [apply irl_start_ok; lia|]. intros [irl p1] [Hirl Hp1]. cbn in Hirl, Hp1. subst irl.
  eapply ends_bind; [eapply (draft_write _ _ _ _ 0 _ Hp1); rewrite length_replicate; lia|]. intros p2 Hp2.
  rewrite Elen in Hp2. replace (Z.to_nat (_ + 1)) with (S (length us + length (option_list virtual))) in Hp2 by (rewrite length_app; lia).
  cbn [Z.to_nat replicate insert list_insert] in Hp2. rewrite Nat2Z.id, <- Hlen.
  eapply ends_bind; [eapply (draft_fill _ _ _ 1 [Z.of_nat l] us _ _ eq_refl); [|exact Hp2]|].
  { intros j u arr p' Hu Hp' Hj. destruct (trans_lookup _ _ _ _ _ _ Ht Hu) as (y&Hy&Hcase). rewrite Z.add_0_l in Hcase.
    assert (ys !! (length before + j)%nat = Some y) as Hyy.
    { rewrite Hys, lookup_app_r by lia. replace (_ + j - _)%nat with j by lia. by apply lookup_app_l_Some. }
    rewrite <- Nat2Z.inj_add, (rhs_read _ _ _ Hshaped Hyy). cbn [mbind res_bind]. pose proof (draft_env _ _ _ _ Hp') as He. rewrite (lk_env _ _ _ _ Hp) in He.
    assert (t_nsy_equivalent p' = E.1.1.2 /\ t_nulling_nsy p' = E.1.2) as [E1 E2] by by rewrite <- He.
    assert ((if nulls (Z.of_nat j) then Nulling_NSYID_by_XSYID p' y else NSYID_by_XSYID p' y) = Ok u) as ->.
    { apply list_elem_of_lookup_2 in Hyy. unfold Nulling_NSYID_by_XSYID, NSYID_by_XSYID. rewrite E1, E2.
      destruct (nulls (Z.of_nat j)); [destruct Hcase as [-> Hb]; by rewrite Hnul|subst u; by rewrite Hnsy]. }
    cbn [mbind res_bind]. replace (Z.of_nat j + 1) with (1 + Z.of_nat j) by lia. by apply draft_write; [|lia]. }
  intros p3 Hp3. eapply (ends_bind _ _ (draft p (Z.of_nat (length (us ++ option_list virtual))) (Some <$> (Z.of_nat l :: us ++ option_list virtual)))).
  { destruct virtual as [v|]; cbn [option_list length replicate] in *.
    - eapply ends_mono; [eapply (draft_write _ _ _ _ _ v Hp3); rewrite length_app, length_fmap; subst len; cbn; lia|]. intros p4.
      rewrite insert_app_r_alt by (rewrite length_fmap; subst len; cbn; lia). rewrite length_fmap. replace (Z.to_nat len - _)%nat with 0%nat by (subst len; cbn; lia).
      change (<[0%nat := Some v]> (replicate (length (option_list (Some v))) None)) with (Some <$> [v]). by rewrite <- fmap_app.
    - apply ends_Ok. by rewrite !app_nil_r in *. }
  intros p4 Hp4. pose proof (draft_looks _ _ _ _ _ _ _ Hp Hp4) as Hl4. rewrite Hcount.
  assert ((rs ++ [(Z.of_nat l, us ++ option_list virtual)]) !! length rs = Some (Z.of_nat l, us ++ option_list virtual)) as Hlast by by rewrite lookup_app_r, Nat.sub_diag.
  eapply ends_bind; [by eapply (irl_finish_ok _ _ _ _ _ _ _ _ _ Hl4)|]. intros p5 Hp5.
  eapply ends_bind; [by eapply (upd_irl_looks _ _ _ _ _ _ _ Hp5 Hlast)|]. intros p6 Hp6.
  eapply ends_mono; [eapply (upd_nsy_ok _ _ _ _ l s (tag rule_id (Z.of_nat (length before)) s)); [exact Hp6|done|done|]|].
  - unfold sense_of. intros x <-. cbn. by destruct (NSY_is_Nulling x), (NSY_is_Semantic x), (NSY_is_Start x).
  - intros p7. by rewrite (alter_insert _ _ _ _ Hs).
Qed.

(** ** Where the factors are *)

(** The positions of the factors of [l], counted from [i]. *)
Fixpoint factors_at (i : Z) (l : list Z) : list Z :=
  match l with [] => [] | y :: l => if factor y then i :: factors_at (i + 1) l else factors_at (i + 1) l end.

Lemma factors_at_app i l1 l2 : factors_at i (l1 ++ l2) = factors_at i l1 ++ factors_at (i + Z.of_nat (length l1)) l2.
Proof.
  revert i. induction l1 as [|y l1 IH]; intros i; cbn [factors_at app length]; [by rewrite Z.add_0_r|]. rewrite IH.
  replace (i + 1 + Z.of_nat (length l1)) with (i + Z.of_nat (S (length l1))) by lia. by destruct (factor y).
Qed.

Lemma factors_none i l : factors_at i l = [] <-> no_factor l.
Proof.
  revert i. induction l as [|y l IH]; intros i; cbn [factors_at]; [split; [constructor|done]|]. unfold no_factor in *. rewrite Forall_cons, <- (IH (i + 1)).
  destruct (factor y); naive_solver.
Qed.

Lemma factors_length i l : (length (factors_at i l) <= length l)%nat.
Proof. revert i. induction l as [|y l IH]; intros i; cbn; [done|]. specialize (IH (i + 1)). destruct (factor y); cbn; lia. Qed.

Lemma factors_first i l x rest : factors_at i l = x :: rest ->
  exists l0 y l1, l = l0 ++ y :: l1 /\ no_factor l0 /\ factor y = true /\ x = i + Z.of_nat (length l0) /\ rest = factors_at (x + 1) l1.
Proof.
  revert i. induction l as [|y l IH]; intros i; cbn [factors_at]; [done|]. destruct (factor y) eqn:Hy.
  - intros [= <- <-]. exists [], y, l. split_and!; [done|constructor|done|cbn; lia|done].
  - intros (l0&y1&l1&->&H0&H1&->&->)%IH. exists (y :: l0), y1, l1. split_and!; [done|by constructor|done|cbn; lia|f_equal; cbn; lia].
Qed.

(** The position after the last symbol that cannot be null. *)
Definition suffix_at (l : list Z) (ix : Z) : Prop := 0 <= ix /\ forall l1 l2, l = l1 ++ l2 -> (Z.of_nat (length l1) <? ix) = has_kept l2.

Lemma suffix_snoc l y ix : suffix_at l ix -> suffix_at (l ++ [y]) (if kept nulling nullable y then Z.of_nat (length l) + 1 else ix).
Proof.
  intros [H0 Hs]. split; [destruct (kept _ _ y); lia|]. intros l1 l2 Hl. destruct l2 as [|x l2 _] using rev_ind.
  - rewrite app_nil_r in Hl. subst l1. rewrite length_app. cbn. destruct (kept _ _ y) eqn:Hy; [apply Z.ltb_ge; lia|].
    pose proof (Hs l [] ltac:(by rewrite app_nil_r)) as Hn. cbn in Hn. Zbool. apply Z.ltb_ge. lia.
  - rewrite app_assoc in Hl. apply app_inj_tail in Hl as [-> ->]. rewrite has_kept_app. cbn. rewrite orb_false_r. rewrite length_app.
    destruct (kept _ _ x); [rewrite orb_true_r; apply Z.ltb_lt; lia|]. rewrite orb_false_r. by apply Hs.
Qed.

Lemma suffix_nil : suffix_at [] 0.
Proof. split; [lia|]. intros l1 l2 [-> ->]%eq_sym%app_nil. done. Qed.

(** [count_factor] over the symbols of the rule. *)
Lemma count_factors rs ss p : looks E rs ss p -> (forall y, y ∈ ys -> exists xsy, XSY_by_ID E.1.1.1 y = Ok xsy /\ XSY_is_Nulling xsy = nulling y /\ XSY_is_Nullable xsy = nullable y) ->
  Z.of_nat (length ys) <= t_max_rule_length E.1.1.1 ->
  exists ix, for_res (Z.to_nat (Length_of_XRL rule)) 0 (count_factor p rule) ([], 0) = Ok (factors_at 0 ys, ix) /\ suffix_at ys ix.
Proof using Hshaped.
  intros Hp Hys Hmax. rewrite (proj2 Hshaped), Nat2Z.id. assert (t_g p = E.1.1.1) as Hg by by rewrite <- (lk_env _ _ _ _ Hp).
  destruct (for_res_ok (fun j (c : list Z * Z) => c.1 = factors_at 0 (take (Z.to_nat j) ys) /\ suffix_at (take (Z.to_nat j) ys) c.2) (length ys) 0 (count_factor p rule) ([], 0))
    as ([l ix]&Hr&Hl&Hix); [split; [done|apply suffix_nil]| |].
  - intros j [l ix] Hj [Hl Hix]. cbn [fst snd] in Hl, Hix. destruct (lookup_lt_is_Some_2 ys (Z.to_nat j)) as [y Hy]; [lia|].
    unfold count_factor. replace (RHS_ID_of_XRL rule j) with (Ok y) by (symmetry; replace j with (Z.of_nat (Z.to_nat j)) by lia; by apply rhs_read).
    cbn [mbind res_bind]. destruct (Hys y) as (xsy&Hx&Hng&Hnb); [by eapply list_elem_of_lookup_2|]. rewrite Hg, Hx. cbn [mbind res_bind]. rewrite Hng, Hnb.
    replace (Z.to_nat (j + 1)) with (S (Z.to_nat j)) by lia. rewrite (take_S_r _ _ _ Hy), factors_at_app. cbn [factors_at].
    pose proof (suffix_snoc _ y _ Hix) as Hsn. rewrite length_take, Nat.min_l in Hsn by lia. rewrite length_take, Nat.min_l by lia. unfold RewriteSpec.factor, kept in *.
    destruct (nulling y); cbn [negb andb] in *; [|destruct (nullable y); cbn [negb andb] in *].
    + eexists. split; [done|]. by rewrite app_nil_r.
    + unfold store_next. destruct (Z.ltb_spec (Z.of_nat (length l)) (t_max_rule_length E.1.1.1)) as [_|Hge].
      * eexists. split; [done|]. cbn. split; [rewrite Hl; f_equal; f_equal; lia|done].
      * exfalso. pose proof (factors_length 0 (take (Z.to_nat j) ys)) as Hle. rewrite length_take in Hle. rewrite Hl in Hge. lia.
    + eexists. split; [done|]. rewrite app_nil_r. split; [done|]. replace (j + 1) with (Z.of_nat (Z.to_nat j) + 1) by lia. done.
  - rewrite Z.add_0_l, Nat2Z.id, take_ge in Hl, Hix by lia. cbn [fst snd] in Hl, Hix. exists ix. by rewrite Hr, Hl.
Qed.

(** ** The rules of a piece *)

Context (Hlhs : exists xsy, XSY_by_ID E.1.1.1 (rf_lhs (form_of rule)) = Ok xsy).

Lemma tag_tag a b s : tag a b (tag a b s) = tag a b s.
Proof. by destruct s. Qed.

Lemma alter_twice {A} (f : A -> A) (i : nat) (l : list A) : (forall x, f (f x) = f x) -> alter f i (alter f i l) = alter f i l.
Proof. intros Hf. revert i. induction l as [|x l IH]; intros [|i]; [done|done|by cbn; rewrite Hf|]. cbn. f_equal. apply IH. Qed.

(** The first rule of a piece, or another. *)
Lemma chaf_irl_step rs ss p (l : nat) before after seg nulls us virtual chaf_rank ps pe rhs : looks E rs ss p \/ looks E rs (alter (tag rule_id ps) l ss) p -> (l < length ss)%nat ->
  ys = before ++ seg ++ after -> ps = Z.of_nat (length before) -> pe = Z.of_nat (length before) + Z.of_nat (length seg) - 1 -> trans nulls 0 seg us -> rhs = us ++ option_list virtual ->
  ends_in (chaf_irl p rule_id rule (Z.of_nat l) ps pe nulls virtual chaf_rank) (looks E (rs ++ [(Z.of_nat l, rhs)]) (alter (tag rule_id ps) l ss)).
Proof using Hshaped Hnsy Hnul.
  intros Hp Hl Hys -> -> Ht ->. rewrite <- Nat2Z.inj_add. destruct (lookup_lt_is_Some_2 ss l Hl) as [s Hs]. destruct Hp as [Hp|Hp].
  - by eapply chaf_irl_ok.
  - eapply ends_mono; [eapply (chaf_irl_ok _ _ _ _ (tag rule_id (Z.of_nat (length before)) s)); [exact Hp|by rewrite list_lookup_alter_eq, Hs|exact Hys|exact Ht]|].
    intros p'. by rewrite alter_twice by (intros; apply tag_tag).
Qed.

Ltac lens := rewrite ?length_app, ?length_fmap; cbn [length]; rewrite ?length_app, ?length_fmap; cbn [length]; lia.
Ltac joined := rewrite ?app_nil_r; repeat (rewrite <- app_assoc || rewrite <- app_comm_cons); reflexivity.

Lemma snoc_three {A} (l : list A) a b c : l ++ [a; b; c] = ((l ++ [a]) ++ [b]) ++ [c].
Proof. by rewrite <- !app_assoc. Qed.

Lemma factor_can_be_null y : factor y = true -> nulling y || nullable y = true.
Proof. unfold RewriteSpec.factor. by destruct (nulling y), (nullable y). Qed.

Ltac counts := rewrite ?length_app in *; cbn [length] in *; rewrite ?length_app in *; cbn [length] in *; lia.
Ltac compares :=
  cbn beta;
  match goal with
  | |- _ || _ = true => apply orb_true_iff; first [left; compares | right; compares]
  | |- _ || _ = false => apply orb_false_iff; split; compares
  | |- (_ =? _) = true => apply Z.eqb_eq; counts
  | |- (_ =? _) = false => apply Z.eqb_neq; counts
  | |- (_ <=? _) = true => apply Z.leb_le; counts
  | |- (_ <=? _) = false => apply Z.leb_gt; counts
  end.
Ltac solve_trans :=
  repeat match goal with
  | |- trans _ _ (_ ++ _) (_ <$> (_ ++ _)) => apply trans_plain
  | |- trans _ _ (_ ++ _) (_ ++ _) => apply trans_app
  | |- trans _ _ [] [] => apply trans_nil
  | |- trans _ _ (_ :: _) (nul _ :: _) => apply trans_nul
  | |- trans _ _ _ (nsy <$> _) => apply trans_plain
  | |- trans _ _ _ (nul <$> _) => apply trans_null
  | |- nulling _ || _ = true => by apply factor_can_be_null
  end; intros; first [assumption | reflexivity | compares].

Ltac step Hp before after seg us rhs Hys :=
  eapply (chaf_irl_step _ _ _ _ before after seg _ us _ _ _ _ rhs); [Hp|done|rewrite Hys; joined|done|rewrite ?Hys; lens|solve_trans|joined].
Ltac first_step before after seg us rhs Hys := step ltac:(left; eassumption) before after seg us rhs Hys.
Ltac next_step before after seg us rhs Hys := step ltac:(right; eassumption) before after seg us rhs Hys.

Lemma chaf_one_ok rs ss p (l : nat) before l0 y1 l1 ix ps f1 : looks E rs ss p -> (l < length ss)%nat -> suffix_at ys ix ->
  ys = before ++ l0 ++ y1 :: l1 -> factor y1 = true -> ps = Z.of_nat (length before) -> f1 = ps + Z.of_nat (length l0) ->
  ends_in (chaf_one p rule_id rule ix (Z.of_nat l) ps f1)
    (looks E (rs ++ ([(Z.of_nat l, nsy <$> (l0 ++ y1 :: l1))] ++ when (has_kept (l0 ++ y1 :: l1)) (Z.of_nat l, (nsy <$> l0) ++ nul y1 :: (nsy <$> l1))))
       (alter (tag rule_id ps) l ss)).
Proof using Hshaped Hnsy Hnul.
  intros Hp Hl [_ Hix] Hys K1 Eps Ef1. specialize (Hix before _ Hys). rewrite <- Eps in Hix. unfold chaf_one. rewrite (proj2 Hshaped), Hix, (app_assoc rs).
  eapply ends_bind; [first_step before (@nil Z) (l0 ++ y1 :: l1) (nsy <$> (l0 ++ y1 :: l1)) (nsy <$> (l0 ++ y1 :: l1)) Hys|]. intros p1 H1.
  destruct (has_kept _); cbn [when]; [|apply ends_Ok; by rewrite app_nil_r].
  next_step before (@nil Z) (l0 ++ y1 :: l1) ((nsy <$> l0) ++ nul y1 :: (nsy <$> l1)) ((nsy <$> l0) ++ nul y1 :: (nsy <$> l1)) Hys.
Qed.

Lemma chaf_two_ok rs ss p (l : nat) before l0 y1 l1 y2 l2 ix ps f1 f2 : looks E rs ss p -> (l < length ss)%nat -> suffix_at ys ix ->
  ys = before ++ l0 ++ y1 :: l1 ++ y2 :: l2 -> factor y1 = true -> factor y2 = true -> ps = Z.of_nat (length before) -> f1 = ps + Z.of_nat (length l0) -> f2 = f1 + 1 + Z.of_nat (length l1) ->
  ends_in (chaf_two p rule_id rule ix (Z.of_nat l) ps f1 f2)
    (looks E (rs ++ ([(Z.of_nat l, nsy <$> (l0 ++ y1 :: l1 ++ y2 :: l2)); (Z.of_nat l, (nsy <$> (l0 ++ y1 :: l1)) ++ nul y2 :: (nsy <$> l2));
        (Z.of_nat l, (nsy <$> l0) ++ nul y1 :: (nsy <$> (l1 ++ y2 :: l2)))]
       ++ when (has_kept (l0 ++ y1 :: l1 ++ y2 :: l2)) (Z.of_nat l, (nsy <$> l0) ++ nul y1 :: (nsy <$> l1) ++ nul y2 :: (nsy <$> l2))))
       (alter (tag rule_id ps) l ss)).
Proof using Hshaped Hnsy Hnul.
  intros Hp Hl [_ Hix] Hys K1 K2 Eps Ef1 Ef2. specialize (Hix before _ Hys). rewrite <- Eps in Hix. unfold chaf_two. rewrite (proj2 Hshaped), Hix.
  rewrite (app_assoc rs), snoc_three.
  eapply ends_bind; [first_step before (@nil Z) (l0 ++ y1 :: l1 ++ y2 :: l2) (nsy <$> (l0 ++ y1 :: l1 ++ y2 :: l2)) (nsy <$> (l0 ++ y1 :: l1 ++ y2 :: l2)) Hys|]. intros p1 H1.
  eapply ends_bind; [next_step before (@nil Z) ((l0 ++ y1 :: l1) ++ y2 :: l2) ((nsy <$> (l0 ++ y1 :: l1)) ++ nul y2 :: (nsy <$> l2)) ((nsy <$> (l0 ++ y1 :: l1)) ++ nul y2 :: (nsy <$> l2)) Hys|]. intros p2 H2.
  eapply ends_bind; [next_step before (@nil Z) (l0 ++ y1 :: (l1 ++ y2 :: l2)) ((nsy <$> l0) ++ nul y1 :: (nsy <$> (l1 ++ y2 :: l2))) ((nsy <$> l0) ++ nul y1 :: (nsy <$> (l1 ++ y2 :: l2))) Hys|]. intros p3 H3.
  destruct (has_kept _); cbn [when]; [|apply ends_Ok; by rewrite app_nil_r].
  next_step before (@nil Z) (l0 ++ y1 :: l1 ++ y2 :: l2) ((nsy <$> l0) ++ nul y1 :: (nsy <$> l1) ++ nul y2 :: (nsy <$> l2)) ((nsy <$> l0) ++ nul y1 :: (nsy <$> l1) ++ nul y2 :: (nsy <$> l2)) Hys.
Qed.

Lemma chaf_three_suffix rs ss p (l : nat) before l0 y1 l1 y2 l2 ix ps f1 f2 (next := Z.of_nat (length ss)) : looks E rs ss p -> (l < length ss)%nat -> suffix_at ys ix ->
  ys = before ++ l0 ++ y1 :: l1 ++ y2 :: l2 -> factor y1 = true -> has_kept (y2 :: l2) = false ->
  ps = Z.of_nat (length before) -> f1 = ps + Z.of_nat (length l0) -> f2 = f1 + 1 + Z.of_nat (length l1) ->
  ends_in (chaf_three p rule_id rule ix (Z.of_nat l) ps f1 f2) (fun r => r.1 = (next, f2 - 1, 1)
    /\ looks E (rs ++ ([(Z.of_nat l, (nsy <$> (l0 ++ y1 :: l1)) ++ [next]); (Z.of_nat l, (nsy <$> (l0 ++ y1 :: l1)) ++ (nul <$> (y2 :: l2)));
         (Z.of_nat l, ((nsy <$> l0) ++ nul y1 :: (nsy <$> l1)) ++ [next])]
       ++ when (has_kept (l0 ++ y1 :: l1 ++ y2 :: l2)) (Z.of_nat l, (nsy <$> l0) ++ nul y1 :: (nsy <$> l1) ++ (nul <$> (y2 :: l2)))))
       (alter (tag rule_id ps) l ss ++ [PartOf (Some (rf_lhs (form_of rule))) None (-1)]) r.2).
Proof using Hshaped Hnsy Hnul Hlhs.
  intros Hp Hl [_ Hix] Hys K1 Hno Eps Ef1 Ef2. pose proof (Hix before _ Hys) as Hk. rewrite <- Eps in Hk.
  pose proof (Hix (before ++ l0 ++ y1 :: l1) (y2 :: l2) ltac:(rewrite Hys; joined)) as Hs. rewrite Hno in Hs.
  unfold chaf_three. rewrite (lhs_read _ Hshaped), (proj2 Hshaped), Hk. cbn [mbind res_bind].
  destruct (Z.geb_spec f2 ix) as [_|Hlt]; [|exfalso; Zbool; revert Hs; lens].
  destruct Hlhs as [xsy Hxsy]. eapply ends_bind; [by eapply nsy_new_ok; [|rewrite <- (lk_env _ _ _ _ Hp) in Hxsy]|]. intros [virt p0] [Ev H0]. cbn in Ev, H0. subst virt. fold next in H0 |- *.
  rewrite <- alter_app_l by done. set (ss0 := ss ++ _) in *. assert (l < length ss0)%nat as Hl0 by (subst ss0; rewrite length_app; lia).
  rewrite (app_assoc rs), snoc_three.
  eapply ends_bind; [first_step before (y2 :: l2) (l0 ++ y1 :: l1) (nsy <$> (l0 ++ y1 :: l1)) ((nsy <$> (l0 ++ y1 :: l1)) ++ [next]) Hys|]. intros p1 H1.
  eapply ends_bind; [next_step before (@nil Z) ((l0 ++ y1 :: l1) ++ y2 :: l2) ((nsy <$> (l0 ++ y1 :: l1)) ++ (nul <$> (y2 :: l2))) ((nsy <$> (l0 ++ y1 :: l1)) ++ (nul <$> (y2 :: l2))) Hys|]. intros p2 H2.
  eapply ends_bind; [next_step before (y2 :: l2) (l0 ++ y1 :: l1) ((nsy <$> l0) ++ nul y1 :: (nsy <$> l1)) (((nsy <$> l0) ++ nul y1 :: (nsy <$> l1)) ++ [next]) Hys|]. intros p3 H3.
  match type of H3 with looks _ ?rs3 _ _ => apply (ends_bind _ _ (looks E (rs3 ++ when (has_kept (l0 ++ y1 :: l1 ++ y2 :: l2))
    (Z.of_nat l, (nsy <$> l0) ++ nul y1 :: (nsy <$> l1) ++ (nul <$> (y2 :: l2)))) (alter (tag rule_id ps) l ss0))) end.
  - clear Hk. destruct (has_kept (l0 ++ _)); cbn [when]; [|apply ends_Ok; rewrite app_nil_r; exact H3].
    next_step before (@nil Z) (l0 ++ y1 :: l1 ++ y2 :: l2) ((nsy <$> l0) ++ nul y1 :: (nsy <$> l1) ++ (nul <$> (y2 :: l2))) ((nsy <$> l0) ++ nul y1 :: (nsy <$> l1) ++ (nul <$> (y2 :: l2))) Hys.
  - intros p4 H4. apply ends_Ok. split; [done|exact H4].
Qed.

Lemma snoc_four {A} (l : list A) a b c d : l ++ [a; b; c; d] = (((l ++ [a]) ++ [b]) ++ [c]) ++ [d].
Proof. by rewrite <- !app_assoc. Qed.

Lemma chaf_three_four rs ss p (l : nat) before l0 y1 l1 y2 l2 ix ps f1 f2 (next := Z.of_nat (length ss)) : looks E rs ss p -> (l < length ss)%nat -> suffix_at ys ix ->
  ys = before ++ l0 ++ y1 :: l1 ++ y2 :: l2 -> factor y1 = true -> factor y2 = true -> has_kept (y2 :: l2) = true ->
  ps = Z.of_nat (length before) -> f1 = ps + Z.of_nat (length l0) -> f2 = f1 + 1 + Z.of_nat (length l1) ->
  ends_in (chaf_three p rule_id rule ix (Z.of_nat l) ps f1 f2) (fun r => r.1 = (next, f2, 2)
    /\ looks E (rs ++ [(Z.of_nat l, (nsy <$> (l0 ++ y1 :: l1 ++ [y2])) ++ [next]); (Z.of_nat l, ((nsy <$> (l0 ++ y1 :: l1)) ++ [nul y2]) ++ [next]);
         (Z.of_nat l, ((nsy <$> l0) ++ nul y1 :: (nsy <$> (l1 ++ [y2]))) ++ [next]); (Z.of_nat l, ((nsy <$> l0) ++ nul y1 :: (nsy <$> l1) ++ [nul y2]) ++ [next])])
       (alter (tag rule_id ps) l ss ++ [PartOf (Some (rf_lhs (form_of rule))) None (-1)]) r.2).
Proof using Hshaped Hnsy Hnul Hlhs.
  intros Hp Hl [_ Hix] Hys K1 K2 Hk Eps Ef1 Ef2.
  pose proof (Hix (before ++ l0 ++ y1 :: l1) (y2 :: l2) ltac:(rewrite Hys; joined)) as Hs. rewrite Hk in Hs.
  unfold chaf_three. rewrite (lhs_read _ Hshaped), (proj2 Hshaped). cbn [mbind res_bind].
  destruct (Z.geb_spec f2 ix) as [Hge|_]; [exfalso; Zbool; revert Hs; lens|].
  destruct Hlhs as [xsy Hxsy]. eapply ends_bind; [by eapply nsy_new_ok; [|rewrite <- (lk_env _ _ _ _ Hp) in Hxsy]|]. intros [virt p0] [Ev H0]. cbn in Ev, H0. subst virt. fold next in H0 |- *.
  rewrite <- alter_app_l by done. set (ss0 := ss ++ _) in *. assert (l < length ss0)%nat as Hl0 by (subst ss0; rewrite length_app; lia).
  rewrite snoc_four.
  eapply ends_bind; [first_step before l2 (l0 ++ y1 :: l1 ++ [y2]) (nsy <$> (l0 ++ y1 :: l1 ++ [y2])) ((nsy <$> (l0 ++ y1 :: l1 ++ [y2])) ++ [next]) Hys|]. intros p1 H1.
  eapply ends_bind; [next_step before l2 ((l0 ++ y1 :: l1) ++ [y2]) ((nsy <$> (l0 ++ y1 :: l1)) ++ [nul y2]) (((nsy <$> (l0 ++ y1 :: l1)) ++ [nul y2]) ++ [next]) Hys|]. intros p2 H2.
  eapply ends_bind; [next_step before l2 (l0 ++ y1 :: (l1 ++ [y2])) ((nsy <$> l0) ++ nul y1 :: (nsy <$> (l1 ++ [y2]))) (((nsy <$> l0) ++ nul y1 :: (nsy <$> (l1 ++ [y2]))) ++ [next]) Hys|]. intros p3 H3.
  eapply ends_bind; [next_step before l2 (l0 ++ y1 :: l1 ++ [y2]) ((nsy <$> l0) ++ nul y1 :: (nsy <$> l1) ++ [nul y2]) (((nsy <$> l0) ++ nul y1 :: (nsy <$> l1) ++ [nul y2]) ++ [next]) Hys|]. intros p4 H4.
  apply ends_Ok. split; [done|exact H4].
Qed.

(** ** The loop *)

Lemma rest_tagged ss1 (l : nat) ss o (offs : list Z) a (n := length ss) : ss1 = alter (tag rule_id a) l ss ++ [PartOf (Some (rf_lhs (form_of rule))) None (-1)] ->
  alter (tag rule_id o) n ss1 ++ (rest_of (rf_lhs (form_of rule)) rule_id <$> offs) = alter (tag rule_id a) l ss ++ (rest_of (rf_lhs (form_of rule)) rule_id <$> (o :: offs)).
Proof. intros ->. subst n. rewrite <- (length_alter (tag rule_id a) ss l), alter_last, <- app_assoc. done. Qed.

(** [done]: the positions of the factors that have been used. *)
Lemma chaf_loop_ok fuel : forall rs ss p (l : nat) before rest done ix (ps := Z.of_nat (length before)), looks E rs ss p -> (l < length ss)%nat -> suffix_at ys ix ->
  ys = before ++ rest -> factors_at ps rest <> [] -> (length (factors_at ps rest) <= fuel)%nat ->
  ends_in (chaf_loop fuel p rule_id rule (done ++ factors_at ps rest) ix (Z.of_nat (length done)) (Z.of_nat l) ps)
    (fun p' => exists b vs offs, pieces (Z.of_nat l) rest (Z.of_nat (length ss)) b vs /\ rests ys offs vs
      /\ looks E (rs ++ b) (alter (tag rule_id ps) l ss ++ (rest_of (rf_lhs (form_of rule)) rule_id <$> offs)) p').
Proof using Hshaped Hnsy Hnul Hlhs.
  induction fuel as [|fuel IH]; intros rs ss p l before rest used ix ps Hp Hl Hix Hys Hne Hfuel; [destruct (factors_at ps rest); cbn in *; [done|lia]|].
  destruct (factors_at ps rest) as [|f1 fs1] eqn:E1; [done|]. apply factors_first in E1 as (l0&y1&rest1&->&F0&K1&Ef1&->).
  cbn [chaf_loop]. rewrite (proj2 (rd_Ok _ (Z.of_nat (length used)) f1)) by (rewrite Nat2Z.id, lookup_app_r, Nat.sub_diag by lia; split; [lia|done]). cbn [mbind res_bind].
  rewrite length_app. cbn [length].
  destruct (factors_at (f1 + 1) rest1) as [|f2 fs2] eqn:E2; cbn [length] in *.
  { case Z.geb_spec; [lia|intros _]. case Z.eqb_spec; [lia|intros _]. apply factors_none in E2.
    eapply ends_mono; [eapply (chaf_one_ok rs ss p l before l0 y1 rest1); done|]. intros p' Hp'. do 2 eexists. exists []. split_and!; [by apply pieces_one|constructor|].
    cbn [fmap list_fmap]. rewrite app_nil_r. exact Hp'. }
  apply factors_first in E2 as (l1&y2&l2&->&F1&K2&Ef2&->).
  rewrite (proj2 (rd_Ok _ (Z.of_nat (length used) + 1) f2)) by (rewrite lookup_app_r by lia; split; [lia|by replace (Z.to_nat (Z.of_nat (length used) + 1) - length used)%nat with 1%nat by lia]).
  cbn [mbind res_bind].
  destruct (factors_at (f2 + 1) l2) as [|f3 fs3] eqn:E3; cbn [length] in *.
  { case Z.geb_spec; [lia|intros _]. case Z.eqb_spec; [intros _|lia]. apply factors_none in E3.
    eapply ends_mono; [eapply (chaf_two_ok rs ss p l before l0 y1 l1 y2 l2); done|]. intros p' Hp'. do 2 eexists. exists []. split_and!; [by apply pieces_two|constructor|].
    cbn [fmap list_fmap]. rewrite app_nil_r. exact Hp'. }
  case Z.geb_spec; [intros _|lia]. destruct (has_kept (y2 :: l2)) eqn:Hk.
  - eapply ends_bind; [eapply (chaf_three_four rs ss p l before l0 y1 l1 y2 l2); done|]. intros [[[next pe] used_count] p1] [[= -> -> ->] Hp1]. cbn [snd] in Hp1.
    set (ss1 := alter _ l ss ++ _) in Hp1. assert (length ss1 = S (length ss)) as Hl1 by (subst ss1; rewrite length_app, length_alter; cbn; lia).
    set (before' := before ++ l0 ++ y1 :: l1 ++ [y2]). assert (f2 + 1 = Z.of_nat (length before')) as Eb by (subst before'; lens).
    rewrite Eb in E3 |- *. rewrite <- E3. replace (used ++ f1 :: f2 :: factors_at (Z.of_nat (length before')) l2) with ((used ++ [f1; f2]) ++ factors_at (Z.of_nat (length before')) l2) by joined.
    replace (Z.of_nat (length used) + 2) with (Z.of_nat (length (used ++ [f1; f2]))) by lens.
    eapply ends_mono; [eapply (IH _ ss1 p1 (length ss) before' l2); [exact Hp1|lia|done|subst before'; rewrite Hys; joined|by rewrite E3|rewrite E3; cbn; lia]|].
    intros p' (b&vs&offs&Hb&Hoffs&Hp'). eexists. exists (l2 :: vs), (Z.of_nat (length before') :: offs). split_and!.
    + apply pieces_four; try done; [cbn in Hk; by rewrite (factor_not_kept _ _ _ K2) in Hk|]. by rewrite Hl1, Nat2Z.inj_succ in Hb.
    + constructor; [exists before'; split; [subst before'; rewrite Hys; joined|done]|done].
    + rewrite (rest_tagged ss1 l ss _ offs ps eq_refl), <- app_assoc in Hp'. exact Hp'.
  - eapply ends_bind; [eapply (chaf_three_suffix rs ss p l before l0 y1 l1 y2 l2); done|]. intros [[[next pe] used_count] p1] [[= -> -> ->] Hp1]. cbn [snd] in Hp1.
    set (ss1 := alter _ l ss ++ _) in Hp1. assert (length ss1 = S (length ss)) as Hl1 by (subst ss1; rewrite length_app, length_alter; cbn; lia).
    set (before' := before ++ l0 ++ y1 :: l1). assert (f2 = Z.of_nat (length before')) as Eb by (subst before'; lens).
    assert (factors_at f2 (y2 :: l2) = f2 :: f3 :: fs3) as E4 by by (cbn [factors_at]; rewrite K2, E3). replace (f2 - 1 + 1) with f2 by lia.
    replace (used ++ f1 :: f2 :: f3 :: fs3) with ((used ++ [f1]) ++ factors_at f2 (y2 :: l2)) by (rewrite E4; joined).
    replace (Z.of_nat (length used) + 1) with (Z.of_nat (length (used ++ [f1]))) by lens. rewrite Eb in E4 |- *.
    eapply ends_mono; [eapply (IH _ ss1 p1 (length ss) before' (y2 :: l2)); [exact Hp1|lia|done|subst before'; rewrite Hys; joined|by rewrite E4|rewrite E4; cbn; lia]|].
    intros p' (b&vs&offs&Hb&Hoffs&Hp'). eexists. exists ((y2 :: l2) :: vs), (Z.of_nat (length before') :: offs). split_and!.
    + apply pieces_suffix; try done. by rewrite Hl1, Nat2Z.inj_succ in Hb.
    + constructor; [exists before'; split; [subst before'; rewrite Hys; joined|done]|done].
    + rewrite (rest_tagged ss1 l ss _ offs ps eq_refl), <- app_assoc in Hp'. exact Hp'.
Qed.
End chaf.

(** * The internal grammar: the rules of a rule, the rules of all

    What the rewriting of one rule adds ([block]); the loop over the symbols, which gives
    each its internal symbols; the loop over the rules; the start rule. *)

(** ** Rules with a given right-hand side *)
Section rules.
Context (E : env).
Implicit Types (rs : list (Z * list Z)) (ss : list sense).

Lemma fold_env rs ss p : looks E rs ss p -> t_g p = E.1.1.1 /\ t_nsy_equivalent p = E.1.1.2 /\ t_nulling_nsy p = E.1.2.
Proof. intros Hp. by rewrite <- (lk_env _ _ _ _ Hp). Qed.

Lemma irl_with_ok rs ss p (l : nat) rhs : looks E rs ss p -> (l < length ss)%nat ->
  ends_in (irl_with p (Z.of_nat l) rhs) (fun r => r.1 = Z.of_nat (length rs) /\ looks E (rs ++ [(Z.of_nat l, rhs)]) ss r.2).
Proof.
  intros Hp Hl. destruct (lookup_lt_is_Some_2 ss l Hl) as [s Hs]. pose proof (looks_irl_count _ _ _ _ Hp) as Hcount. unfold irl_with.
  eapply ends_bind; [apply irl_start_ok; lia|]. intros [irl p1] [Hirl Hp1]. cbn [fst snd] in Hirl, Hp1. subst irl.
  eapply ends_bind; [eapply (draft_write _ _ _ _ 0 _ Hp1); rewrite length_replicate; lia|]. intros p2 Hp2.
  replace (Z.to_nat (_ + 1)) with (S (length rhs + 0)) in Hp2 by lia. cbn [Z.to_nat replicate insert list_insert] in Hp2.
  eapply ends_bind; [eapply (draft_fill _ _ _ 1 [Z.of_nat l] rhs 0 _ eq_refl); [|exact Hp2]|].
  { intros j u arr p' Hu Hp' Hj. replace (rd rhs (Z.of_nat j)) with (Ok u) by (symmetry; apply rd_Ok; rewrite Nat2Z.id; split; [lia|done]).
    cbn [mbind res_bind]. replace (Z.of_nat j + 1) with (1 + Z.of_nat j) by lia. by apply draft_write; [|lia]. }
  intros p3 Hp3. cbn [replicate] in Hp3. rewrite app_nil_r in Hp3. pose proof (draft_looks _ _ _ _ _ _ _ Hp Hp3) as Hl3. rewrite Hcount.
  eapply ends_bind; [eapply (irl_finish_ok _ _ _ _ _ _ _ _ _ Hl3); [by rewrite lookup_app_r, Nat.sub_diag|done|done]|]. intros p4 Hp4. by apply ends_Ok.
Qed.

Lemma irl_of_rule_ok rs ss p r rule_id rule f : looks E (rs ++ [r]) ss p -> (forall x, irl_view (f x) = irl_view x) ->
  ends_in (irl_of_rule p (Z.of_nat (length rs)) rule_id rule f) (looks E (rs ++ [r]) ss).
Proof.
  intros Hp Hf. unfold irl_of_rule. eapply (upd_irl_looks _ _ _ _ _ r _ Hp); [by rewrite lookup_app_r, Nat.sub_diag|]. intros x. by rewrite Hf.
Qed.

Lemma snoc_two {A} (l : list A) a b : l ++ [a; b] = (l ++ [a]) ++ [b].
Proof. by rewrite <- app_assoc. Qed.

(** One rule of a sequence. *)
Lemma sequence_irl rs ss p (l : nat) rhs rule_id rule f : looks E rs ss p -> (l < length ss)%nat -> (forall x, irl_view (f x) = irl_view x) ->
  ends_in (r ← irl_with p (Z.of_nat l) rhs; irl_of_rule r.2 r.1 rule_id rule f) (looks E (rs ++ [(Z.of_nat l, rhs)]) ss).
Proof.
  intros Hp Hl Hf. eapply ends_bind; [by apply irl_with_ok|]. intros [irl p1] [Hi Hp1]. cbn in Hi, Hp1 |- *. subst irl. by apply irl_of_rule_ok.
Qed.
End rules.

(** ** What the rewriting of a rule adds *)
Section block.
Context (E : env) (nsy nul : Z -> Z) (nulling nullable : Z -> bool).
Implicit Types (rs : list (Z * list Z)) (ss : list sense).
#[local] Abbreviation no_factor := (no_factor nulling nullable).
#[local] Abbreviation pieces := (pieces nsy nul nulling nullable).

(** A list of items has the new symbol [int]. *)
Definition sequence_rules (lhs int : Z) (f : rule_form) : list (Z * list Z) :=
  [(lhs, [int])] ++ when (separated f && negb (rf_proper f)) (lhs, int :: (nsy <$> sep_list f))
  ++ [(int, nsy <$> rf_rhs f); (int, int :: (nsy <$> sep_list f) ++ (nsy <$> rf_rhs f))].

(** The rules that stand for the rule number [j], the new symbols and what they stand for. *)
Inductive block (j : Z) (f : rule_form) (next : Z) : list (Z * list Z) -> list sense -> Prop :=
| block_simple : rf_seq f = false -> no_factor (rf_rhs f) -> block j f next [(nsy (rf_lhs f), nsy <$> rf_rhs f)] []
| block_pieces b vs offs : rf_seq f = false -> pieces (nsy (rf_lhs f)) (rf_rhs f) next b vs -> rests (rf_rhs f) offs vs ->
    block j f next b (rest_of (rf_lhs f) j <$> offs)
| block_sequence : rf_seq f = true -> block j f next (sequence_rules (nsy (rf_lhs f)) next f) [PartOf (Some (rf_lhs f)) (Some j) (-1)].

Context (rule_id : Z) (rule : XRL) (Hshaped : shaped rule).
#[local] Abbreviation f := (form_of rule).
Context (Hnsy : forall y, y ∈ rf_lhs f :: mentions f -> rd E.1.1.2 y = Ok (Some (nsy y))).
Context (Hnul : forall y, y ∈ rf_rhs f -> nulling y || nullable y = true -> rd E.1.2 y = Ok (Some (nul y))).
Context (Hxsy : forall y, y ∈ rf_lhs f :: mentions f -> exists xsy, XSY_by_ID E.1.1.1 y = Ok xsy /\ XSY_is_Nulling xsy = nulling y /\ XSY_is_Nullable xsy = nullable y).

Lemma nsyid_ok rs ss p y : looks E rs ss p -> y ∈ rf_lhs f :: mentions f -> NSYID_by_XSYID p y = Ok (nsy y).
Proof using Hnsy. intros Hp Hy. unfold NSYID_by_XSYID. destruct (fold_env _ _ _ _ Hp) as (_&->&_). by rewrite Hnsy. Qed.

Lemma rewrite_simple_ok rs ss p (l : nat) : looks E rs ss p -> (l < length ss)%nat -> nsy (rf_lhs f) = Z.of_nat l ->
  ends_in (rewrite_simple p rule_id rule) (looks E (rs ++ [(nsy (rf_lhs f), nsy <$> rf_rhs f)]) ss).
Proof using Hshaped Hnsy.
  intros Hp Hl El. destruct (lookup_lt_is_Some_2 ss l Hl) as [s Hs]. pose proof (looks_irl_count _ _ _ _ Hp) as Hcount. unfold rewrite_simple.
  rewrite (proj2 Hshaped). eapply ends_bind; [apply irl_start_ok; lia|]. intros [irl p1] [Hirl Hp1]. cbn [fst snd] in Hirl, Hp1. subst irl.
  eapply ends_bind; [eapply (draft_upd _ _ _ _ _ _ Hp1); intros x Hx; exact Hx|]. intros p2 Hp2.
  set (syms := nsy <$> (rf_lhs f :: rf_rhs f)). assert (length syms = S (length (rf_rhs f))) as Hlen by (subst syms; rewrite length_fmap; done).
  replace (Z.to_nat (Z.of_nat (length (rf_rhs f)) + 1)) with (length syms) in * by lia.
  eapply ends_bind; [eapply (draft_fill _ _ _ 0 [] syms 0 _ eq_refl); [|by rewrite Nat.add_0_r]|].
  { intros j u arr p' Hu Hp' Hj. apply list_lookup_fmap_Some in Hu as (y&->&Hy).
    rewrite (proj1 Hshaped). replace (rd _ (Z.of_nat j)) with (Ok y) by (symmetry; apply rd_Ok; rewrite Nat2Z.id; split; [lia|done]).
    cbn [mbind res_bind]. unfold NSYID_by_XSYID. pose proof (draft_env _ _ _ _ Hp') as He. rewrite (lk_env _ _ _ _ Hp) in He.
    assert (t_nsy_equivalent p' = E.1.1.2) as -> by by rewrite <- He. rewrite Hnsy.
    - cbn [mbind res_bind deref]. by apply draft_write; [|lia].
    - apply list_elem_of_lookup_2 in Hy. apply elem_of_cons in Hy as [->|Hy]; [left|right]. unfold mentions. apply elem_of_app. by right. }
  intros p3 Hp3. cbn [replicate app] in Hp3. rewrite app_nil_r in Hp3. subst syms. rewrite <- (length_fmap nsy (rf_rhs f)) in Hp3.
  pose proof (draft_looks _ _ _ _ _ _ _ Hp Hp3) as Hl3. rewrite Hcount.
  eapply (irl_finish_ok _ _ _ _ _ _ _ _ _ Hl3); [by rewrite lookup_app_r, Nat.sub_diag|done|done].
Qed.

Lemma rewrite_sequence_ok rs ss p (l : nat) y : looks E rs ss p -> (l < length ss)%nat -> nsy (rf_lhs f) = Z.of_nat l -> rf_seq f = true -> rf_rhs f = [y] ->
  (0 <= rf_sep f -> 0 <= nsy (rf_sep f)) ->
  ends_in (rewrite_sequence p rule_id rule)
    (looks E (rs ++ sequence_rules (nsy (rf_lhs f)) (Z.of_nat (length ss)) f) (ss ++ [PartOf (Some (rf_lhs f)) (Some rule_id) (-1)])).
Proof using Hshaped Hnsy Hxsy.
  intros Hp Hl El Hs Hy Hsep. unfold rewrite_sequence, sequence_rules. rewrite (lhs_read _ Hshaped). cbn [mbind res_bind].
  rewrite (nsyid_ok _ _ _ (rf_lhs f) Hp) by left. cbn [mbind res_bind]. destruct (Hxsy (rf_lhs f)) as (xsy&Hx&_); [left|].
  rewrite <- (proj1 (fold_env _ _ _ _ Hp)) in Hx. eapply ends_bind; [by eapply nsy_new_ok|]. intros [int p1] [Ei Hp1]. cbn [fst snd] in Ei, Hp1. subst int.
  change (RHS_ID_of_XRL rule 0) with (RHS_ID_of_XRL rule (Z.of_nat 0)). rewrite (rhs_read rule 0 y) by (done || by rewrite Hy). cbn [mbind res_bind].
  rewrite (nsyid_ok _ _ _ y Hp1) by (right; apply rhs_mentions; rewrite Hy; left). cbn [mbind res_bind].
  set (sep := Separator_of_XRL rule). change (rf_sep f) with sep in Hsep. set (nsep := if sep >=? 0 then nsy sep else -1).
  assert ((if sep >=? 0 then NSYID_by_XSYID p1 sep else Ok (-1)) = Ok nsep) as ->.
  { subst nsep. destruct (Z.geb_spec sep 0); [|done]. apply (nsyid_ok _ _ _ _ Hp1). right. by apply (sep_mentions f). }
  cbn [mbind res_bind]. assert ((nsep >=? 0) = separated f) as Enp.
  { subst nsep. unfold separated. change (rf_sep f) with sep. destruct (Z.geb_spec sep 0); [|done]. apply Z.geb_le. auto. }
  assert (nsy <$> sep_list f = if separated f then [nsep] else []) as Esep.
  { unfold sep_list, separated. rewrite Hs. change (rf_sep f) with sep. subst nsep. by destruct (sep >=? 0). }
  rewrite Enp, Esep. change (XRL_is_Proper_Separation rule) with (rf_proper f). clearbody nsep. clear Enp Esep Hsep.
  eapply ends_bind; [eapply (upd_last _ _ _ _ _ _ (PartOf (Some (rf_lhs f)) (Some rule_id) (-1)) _ Hp1); [done|done|sense]|]. intros p2 Hp2.
  set (ss2 := ss ++ _) in Hp2 |- *. assert (length ss < length ss2)%nat as Hint by (subst ss2; rewrite length_app; cbn; lia). rewrite El, Hy.
  eapply ends_bind; [eapply irl_with_ok; [exact Hp2|lia]|]. intros [i3 p3] [E3 Hp3]. cbn [fst snd] in E3, Hp3 |- *. subst i3.
  eapply ends_bind; [by eapply irl_of_rule_ok|]. intros p4 Hp4. rewrite app_assoc.
  set (r4 := (Z.of_nat l, _)) in Hp4 |- *.
  apply (ends_bind _ _ (looks E ((rs ++ [r4]) ++ when (separated f && negb (rf_proper f)) (Z.of_nat l, Z.of_nat (length ss) :: (if separated f then [nsep] else []))) ss2)).
  { destruct (separated f && negb (rf_proper f)) eqn:Ew; cbn [when]; [|apply ends_Ok; by rewrite app_nil_r]. apply andb_true_iff in Ew as [-> _].
    eapply sequence_irl; [exact Hp4|lia|done]. }
  intros p5 Hp5. rewrite app_assoc. set (r5 := _ ++ when _ _) in Hp5 |- *.
  eapply ends_bind; [eapply irl_with_ok; [exact Hp5|exact Hint]|]. intros [i6 p6] [E6 Hp6]. cbn [fst snd] in E6, Hp6 |- *. subst i6.
  eapply ends_bind; [by eapply irl_of_rule_ok|]. intros p7 Hp7.
  rewrite snoc_two. cbn [fmap list_fmap]. destruct (separated f); by eapply sequence_irl.
Qed.

Lemma rewrite_rule_ok rs ss p (l : nat) s : looks E rs ss p -> XRL_by_ID E.1.1.1 rule_id = Ok rule -> XRL_is_Used rule = true -> ss !! l = Some s -> nsy (rf_lhs f) = Z.of_nat l ->
  (forall a o, tag a o s = s) -> (rf_seq f = true -> exists y, rf_rhs f = [y]) -> (rf_seq f = true -> 0 <= rf_sep f -> 0 <= nsy (rf_sep f)) -> Z.of_nat (length (rf_rhs f)) <= t_max_rule_length E.1.1.1 ->
  ends_in (rewrite_rule rule_id p) (fun p' => exists b news, block rule_id f (Z.of_nat (length ss)) b news /\ looks E (rs ++ b) (ss ++ news) p').
Proof using Hshaped Hnsy Hnul Hxsy.
  intros Hp Hr Hu Hs El Htag Hsingle Hsep Hmax. pose proof (lookup_lt_Some _ _ _ Hs) as Hl. unfold rewrite_rule.
  rewrite (proj1 (fold_env _ _ _ _ Hp)), Hr. cbn [mbind res_bind]. rewrite Hu. cbn [negb]. change (XRL_is_Sequence rule) with (rf_seq f).
  destruct (rf_seq f) eqn:Hq.
  { destruct Hsingle as [y Hy]; [done|]. specialize (Hsep eq_refl). eapply ends_mono; [by eapply rewrite_sequence_ok|]. intros p' Hp'. do 2 eexists. split; [by apply block_sequence|exact Hp']. }
  assert (forall y, y ∈ rf_rhs f -> y ∈ rf_lhs f :: mentions f) as Hin by (intros y Hy; right; by apply rhs_mentions).
  destruct (count_factors E nulling nullable rule Hshaped rs ss p Hp) as (ix&Hc&Hix); [intros y Hy; by apply Hxsy, Hin|done|].
  rewrite Hc. cbn [mbind res_bind]. destruct (factors_at nulling nullable 0 (rf_rhs f)) as [|f1 fs1] eqn:Ef.
  - cbn [length]. case Z.gtb_spec; [lia|intros _]. eapply ends_mono; [by eapply rewrite_simple_ok|]. intros p' Hp'. exists [(nsy (rf_lhs f), nsy <$> rf_rhs f)], [].
    split; [apply block_simple; [done|by eapply factors_none]|by rewrite app_nil_r].
  - cbn [length]. case Z.gtb_spec; [intros _|lia]. rewrite (lhs_read _ Hshaped). cbn [mbind res_bind]. rewrite (nsyid_ok _ _ _ _ Hp) by left. cbn [mbind res_bind].
    assert (factors_at nulling nullable 0 (rf_rhs f) <> [] /\ (length (factors_at nulling nullable 0 (rf_rhs f)) <= S (length fs1))%nat) as [Hne Hfuel] by by rewrite Ef. rewrite <- Ef, El. destruct (Hxsy (rf_lhs f)) as (xsy&Hx&_); [left|].
    eapply ends_mono; [eapply (chaf_loop_ok E nsy nul nulling nullable rule_id rule Hshaped) with (before := []) (done := []) (ss := ss) (l := l); try done; by eauto|].
    intros p' (b&vs&offs&Hb&Ho&Hp'). exists b. eexists. split; [eapply block_pieces; [done|by rewrite El|exact Ho]|].
    assert (alter (tag rule_id 0) l ss = ss) as Ha; [|change (Z.of_nat (length (@nil Z))) with 0 in Hp'; by rewrite Ha in Hp'].
    rewrite <- (alter_insert _ _ _ _ Hs), Htag. by apply list_insert_id.
Qed.

(** A rule that is not used adds nothing. *)
Lemma rewrite_rule_unused rs ss p : looks E rs ss p -> XRL_by_ID E.1.1.1 rule_id = Ok rule -> XRL_is_Used rule = false -> rewrite_rule rule_id p = Ok p.
Proof. intros Hp Hr Hu. unfold rewrite_rule. rewrite (proj1 (fold_env _ _ _ _ Hp)), Hr. cbn [mbind res_bind]. by rewrite Hu. Qed.
End block.
