(* ===== verification/RewriteLanguage.v ===== *)
(** * The internal grammar: the rewriting of a grammar

    The loops of [precompute_rewrite] and what they leave: the internal symbols of the
    symbols ([cloned]), the rules of all the rules ([rewrites]), the start rule. *)
From stdpp Require Import sets list gmap relations.
From S2P Require Import Prelude Avl AvlTree AvlProbe AvlTheorems MarpaGrammar MarpaRules MarpaGrammarTheorems MarpaRuleTheorems MarpaCalls Census CensusSpec CensusLists CensusClosure CensusMarks CensusRules CensusBody CensusTheorems CensusProperties Rewrite RewriteSpec RewriteSteps.

(** The internal symbol in a table of them. *)
Definition nsy_in (table : list (option Z)) (z : Z) : Z := match table !! Z.to_nat z with Some (Some i) => i | _ => -1 end.

Section grammar.
Context (g : GRAMMAR) (fs : list rule_form) (Hg : has_rules (XSY_Count_of_G g) fs g).
#[local] Abbreviation n := (XSY_Count_of_G g).
#[local] Abbreviation flag h := (symbol_flag h g).
#[local] Abbreviation nulls_ := (symbol_flag XSY_is_Nulling g).
#[local] Abbreviation nullable_ := (symbol_flag XSY_is_Nullable g).

(** The symbols that have internal symbols. *)
Definition kept_symbol (z : Z) : bool := symbol_flag XSY_is_Accessible g z && symbol_flag XSY_is_Productive g z.
Definition own_sense (z : Z) : sense := if symbol_flag XSY_is_Nulling g z then NullOf (Some z) else SymbolOf (Some z).

(** The symbols below [k] have their internal symbols. *)
Record cloned (k : Z) (eqv nulv : list (option Z)) (ss : list sense) : Prop := {
  cl_eqv : Z.of_nat (length eqv) = XSY_Count_of_G g;
  cl_nulv : Z.of_nat (length nulv) = XSY_Count_of_G g;
  cl_nsy z : 0 <= z < k -> kept_symbol z = true -> exists i, eqv !! Z.to_nat z = Some (Some (Z.of_nat i)) /\ ss !! i = Some (own_sense z);
  cl_nul z : 0 <= z < k -> kept_symbol z = true -> symbol_flag XSY_is_Nulling g z || symbol_flag XSY_is_Nullable g z = true ->
    exists i, nulv !! Z.to_nat z = Some (Some (Z.of_nat i)) /\ ss !! i = Some (NullOf (Some z));
  cl_same z : 0 <= z < k -> kept_symbol z = true -> symbol_flag XSY_is_Nulling g z = true -> nulv !! Z.to_nat z = eqv !! Z.to_nat z;
  cl_some z o : 0 <= z -> eqv !! Z.to_nat z = Some (Some o) -> z < k /\ kept_symbol z = true;
  cl_sense i s : ss !! i = Some s -> exists z, 0 <= z < k /\ kept_symbol z = true
    /\ ((s = NullOf (Some z) /\ symbol_flag XSY_is_Nulling g z || symbol_flag XSY_is_Nullable g z = true)
        \/ (s = SymbolOf (Some z) /\ symbol_flag XSY_is_Nulling g z = false /\ eqv !! Z.to_nat z = Some (Some (Z.of_nat i))))
}.

Lemma looks_tables E rs ss p eqv nulv : looks E rs ss p ->
  looks (E.1.1.1, eqv, nulv, E.2) rs ss (set_t_nulling_nsy nulv (set_t_nsy_equivalent eqv p)).
Proof. intros Hp. split; [|apply Hp|apply Hp]. pose proof (lk_env _ _ _ _ Hp) as <-. done. Qed.

Lemma cloned_skip k eqv nulv ss : cloned k eqv nulv ss -> kept_symbol k = false -> cloned (k + 1) eqv nulv ss.
Proof.
  intros [H1 H2 H3 H4 H5 Hsome H6] Hk. assert (forall z, kept_symbol z = true -> 0 <= z < k + 1 -> 0 <= z < k) as Hz.
  { intros z Hz Hb. assert (z <> k) by congruence. lia. }
  split; try done; [intros z ? ?; apply H3; auto|intros z ? ? ?; apply H4; auto|intros z ? ? ?; apply H5; auto|intros z o Hz0 Ho; destruct (Hsome z o Hz0 Ho); split; [lia|done]|].
  intros i s (z&Hb&?&?)%H6. exists z. split; [lia|done].
Qed.

(** A symbol gets its internal symbols, the last ones. *)
Lemma cloned_add k eqv nulv ss nulv' news : cloned k eqv nulv ss -> 0 <= k < n -> kept_symbol k = true ->
  (if nulls_ k then news = [NullOf (Some k)] /\ nulv' = <[Z.to_nat k := Some (Z.of_nat (length ss))]> nulv
   else if nullable_ k then news = [SymbolOf (Some k); NullOf (Some k)] /\ nulv' = <[Z.to_nat k := Some (Z.of_nat (S (length ss)))]> nulv
   else news = [SymbolOf (Some k)] /\ nulv' = nulv) ->
  cloned (k + 1) (<[Z.to_nat k := Some (Z.of_nat (length ss))]> eqv) nulv' (ss ++ news).
Proof using.
  intros [H1 H2 H3 H4 H5 Hsome H6] Hk Hkept Hnews. assert (news !! 0%nat = Some (own_sense k)) as Hn0.
  { unfold own_sense. destruct (nulls_ k); [by destruct Hnews as [-> _]|]. destruct (nullable_ k); by destruct Hnews as [-> _]. }
  assert (forall z, 0 <= z < k + 1 -> z = k \/ 0 <= z < k) as Hz by (intros; lia).
  assert (forall z, 0 <= z < k -> Z.to_nat k <> Z.to_nat z) as Hne by (intros; lia).
  assert (length nulv' = length nulv /\ forall z, 0 <= z < k -> nulv' !! Z.to_nat z = nulv !! Z.to_nat z) as [Hl' Hnul'].
  { destruct (nulls_ k); [destruct Hnews as [_ ->]|destruct (nullable_ k); destruct Hnews as [_ ->]]; rewrite ?length_insert; (split; [done|]);
      intros z Hb; rewrite ?list_lookup_insert_ne by auto; done. }
  split.
  - by rewrite length_insert.
  - by rewrite Hl'.
  - intros z [->|Hb]%Hz Hzk.
    + exists (length ss). rewrite list_lookup_insert_eq by lia. by rewrite lookup_app_r, Nat.sub_diag by lia.
    + destruct (H3 z Hb Hzk) as (i&Hi&Hs). exists i. rewrite list_lookup_insert_ne by auto. split; [done|by apply lookup_app_l_Some].
  - intros z [->|Hb]%Hz Hzk Hnb.
    + destruct (nulls_ k).
      * destruct Hnews as [-> ->]. exists (length ss). rewrite list_lookup_insert_eq by lia. by rewrite lookup_app_r, Nat.sub_diag by lia.
      * cbn [orb] in Hnb. rewrite Hnb in Hnews. destruct Hnews as [-> ->]. exists (S (length ss)). rewrite list_lookup_insert_eq by lia.
        rewrite lookup_app_r by lia. by replace (S (length ss) - length ss)%nat with 1%nat by lia.
    + destruct (H4 z Hb Hzk Hnb) as (i&Hi&Hs). exists i. rewrite Hnul' by done. split; [done|by apply lookup_app_l_Some].
  - intros z [->|Hb]%Hz Hzk Hnl.
    + rewrite Hnl in Hnews. destruct Hnews as [_ ->]. by rewrite !list_lookup_insert_eq by lia.
    + rewrite list_lookup_insert_ne, Hnul' by auto. auto.
  - intros z o Hz0. destruct (decide (z = k)) as [->|Hzk]; [by split; [lia|]|]. rewrite list_lookup_insert_ne by lia. intros Ho. destruct (Hsome z o Hz0 Ho). split; [lia|done].
  - intros i s [Hs|[Hi Hs]]%lookup_app_Some.
    + destruct (H6 i s Hs) as (z&Hb&Hzk&Hc). exists z. split_and!; [lia..|done|]. by rewrite list_lookup_insert_ne by auto.
    + exists k. split_and!; [lia..|done|]. assert ((if nulls_ k then s = NullOf (Some k) else (i = length ss /\ s = SymbolOf (Some k)) \/ (nullable_ k = true /\ s = NullOf (Some k)))) as Hcase.
      { destruct (i - length ss)%nat as [|[|m]] eqn:Ei; destruct (nulls_ k); try destruct (nullable_ k); destruct Hnews as [-> _]; cbn in Hs; try done; injection Hs as <-; auto; left; (split; [lia|done]). }
      destruct (nulls_ k); [by left; subst s|]. destruct Hcase as [[-> ->]|[-> ->]]; [right|by left]. split_and!; [done..|by rewrite list_lookup_insert_eq by lia].
Qed.

Lemma clone_symbol_ok k eqv nulv ss p : 0 <= k < n -> looks (g, eqv, nulv, None) [] ss p -> cloned k eqv nulv ss ->
  ends_in (clone_symbol k p) (fun p' => exists eqv' nulv' ss', looks (g, eqv', nulv', None) [] ss' p' /\ cloned (k + 1) eqv' nulv' ss').
Proof.
  intros Hk Hp Hc. unfold clone_symbol. pose proof (proj1 (fold_env _ _ _ _ Hp)) as Eg. cbn in Eg. rewrite Eg.
  destruct (flags_read _ _ _ k Hg Hk) as (x&Hx&Hf). rewrite Hx. cbn [mbind res_bind]. rewrite <- !(fun h => Hf h).
  destruct (flag XSY_is_Accessible k) eqn:Ha; cbn [negb]; [|apply ends_Ok; do 3 eexists; split; [exact Hp|apply cloned_skip; [done|unfold kept_symbol; by rewrite Ha]]].
  destruct (flag XSY_is_Productive k) eqn:Hpr; cbn [negb]; [|apply ends_Ok; do 3 eexists; split; [exact Hp|apply cloned_skip; [done|unfold kept_symbol; by rewrite Hpr, andb_false_r]]].
  assert (kept_symbol k = true) as Hkept by by (unfold kept_symbol; rewrite Ha, Hpr).
  pose proof (cl_eqv _ _ _ _ Hc) as Le. pose proof (cl_nulv _ _ _ _ Hc) as Ln. rewrite <- Eg in Hx.
  eapply ends_bind; [by eapply nsy_clone_ok|]. intros [nsy p1] [Ei Hp1]. cbn [fst snd] in Ei, Hp1. subst nsy. rewrite <- Hf in Hp1.
  destruct (fold_env _ _ _ _ Hp1) as (Eg1&Ee1&En1). cbn in Eg1, Ee1, En1.
  rewrite Ee1, wr_total by lia. cbn [mbind res_bind].
  pose proof (looks_tables _ _ _ _ (<[Z.to_nat k := Some (Z.of_nat (length ss))]> eqv) nulv Hp1) as Hp2. cbn [fst snd] in Hp2.
  pose proof (fun nulv' news => cloned_add k eqv nulv ss nulv' news Hc Hk Hkept) as Hadd.
  destruct (nulls_ k) eqn:Hnl; [|destruct (nullable_ k) eqn:Hnb].
  - cbn [t_nulling_nsy set_t_nsy_equivalent]. rewrite En1, wr_total by lia. cbn [mbind res_bind]. apply ends_Ok. do 3 eexists. split; [|by apply Hadd].
    exact (looks_tables _ _ _ _ _ (<[Z.to_nat k := Some (Z.of_nat (length ss))]> nulv) Hp1).
  - assert (set_t_nulling_nsy nulv (set_t_nsy_equivalent (<[Z.to_nat k := Some (Z.of_nat (length ss))]> eqv) p1) = set_t_nsy_equivalent (<[Z.to_nat k := Some (Z.of_nat (length ss))]> eqv) p1) as E2.
    { destruct p1; cbn in *. by subst. } rewrite E2 in Hp2. clear E2.
    eapply ends_bind; [eapply (symbol_alias_create_ok _ _ _ _ k x Hp2); [cbn; by rewrite Eg1, <- Eg|by rewrite <- Hf|by rewrite <- Hf]|].
    intros [alias p3] [Ea Hp3]. cbn [fst snd] in Ea, Hp3. subst alias. destruct (fold_env _ _ _ _ Hp3) as (_&Ee3&En3). cbn in Ee3, En3.
    rewrite En3, wr_total by lia. cbn [mbind res_bind]. apply ends_Ok. do 3 eexists. split; [|by apply Hadd].
    rewrite <- app_assoc in Hp3. pose proof (looks_tables _ _ _ _ (<[Z.to_nat k := Some (Z.of_nat (length ss))]> eqv) (<[Z.to_nat k := Some (Z.of_nat (S (length ss)))]> nulv) Hp3) as Hp4.
    cbn [fst snd] in Hp4. rewrite length_app. cbn [length]. rewrite Nat.add_1_r.
    assert (set_t_nsy_equivalent (<[Z.to_nat k := Some (Z.of_nat (length ss))]> eqv) p3 = p3) as E3 by (destruct p3; cbn in *; by subst). by rewrite E3 in Hp4.
  - apply ends_Ok. eexists _, nulv, _. split; [|by apply Hadd].
    assert (set_t_nulling_nsy nulv (set_t_nsy_equivalent (<[Z.to_nat k := Some (Z.of_nat (length ss))]> eqv) p1) = set_t_nsy_equivalent (<[Z.to_nat k := Some (Z.of_nat (length ss))]> eqv) p1) as E2.
    { destruct p1; cbn in *. by subst. } by rewrite E2 in Hp2.
Qed.

(** ** All the rules *)

(** What the first [k] rules add: the rules, and the symbols after [ss0]. *)
Inductive rewrites (nsy nul : Z -> Z) (ss0 : list sense) : nat -> list (Z * list Z) -> list sense -> Prop :=
| rewrites_none : rewrites nsy nul ss0 0 [] ss0
| rewrites_unused k rs ss r : rewrites nsy nul ss0 k rs ss -> t_xrl_stack g !! k = Some r -> XRL_is_Used r = false -> rewrites nsy nul ss0 (S k) rs ss
| rewrites_rule k rs ss r b news : rewrites nsy nul ss0 k rs ss -> t_xrl_stack g !! k = Some r -> XRL_is_Used r = true ->
    block nsy nul (symbol_flag XSY_is_Nulling g) (symbol_flag XSY_is_Nullable g) (Z.of_nat k) (form_of r) (Z.of_nat (length ss)) b news ->
    rewrites nsy nul ss0 (S k) (rs ++ b) (ss ++ news).

(** A rule that is used, its rules and its new symbols, from [next] on. *)
Record made (nsy nul : Z -> Z) (rs : list (Z * list Z)) (ss : list sense) (j : nat) (r : XRL) (next : nat) (b : list (Z * list Z)) (news : list sense) : Prop := {
  md_rule : t_xrl_stack g !! j = Some r;
  md_used : XRL_is_Used r = true;
  md_block : block nsy nul (symbol_flag XSY_is_Nulling g) (symbol_flag XSY_is_Nullable g) (Z.of_nat j) (form_of r) (Z.of_nat next) b news;
  md_rules x : x ∈ b -> x ∈ rs;
  md_news m s : news !! m = Some s -> ss !! (next + m)%nat = Some s
}.

Lemma made_mono nsy nul rs ss rs' ss' j r next b news : (forall x, x ∈ rs -> x ∈ rs') -> (forall i s, ss !! i = Some s -> ss' !! i = Some s) ->
  made nsy nul rs ss j r next b news -> made nsy nul rs' ss' j r next b news.
Proof. intros Hr Hs []. split; auto. Qed.

Lemma rewrites_made nsy nul ss0 k rs ss : rewrites nsy nul ss0 k rs ss ->
  (forall j r, (j < k)%nat -> t_xrl_stack g !! j = Some r -> XRL_is_Used r = true -> exists next b news, made nsy nul rs ss j r next b news)
  /\ (forall x, x ∈ rs -> exists j r next b news, made nsy nul rs ss j r next b news /\ x ∈ b)
  /\ (forall i s, ss !! i = Some s -> ss0 !! i = Some s \/ exists j r next b news m, made nsy nul rs ss j r next b news /\ i = (next + m)%nat /\ news !! m = Some s).
Proof.
  induction 1 as [|k rs ss r _ (IH1&IH2&IH3) Hr Hu|k rs ss r b news _ (IH1&IH2&IH3) Hr Hu Hb].
  - split_and!; [lia|by intros x ?%elem_of_nil|by left].
  - split_and!; [|done|done]. intros j r' Hj Hr' Hu'. destruct (decide (j = k)) as [->|]; [congruence|]. apply IH1; [lia|done..].
  - assert (made nsy nul (rs ++ b) (ss ++ news) k r (length ss) b news) as Hm.
    { split; try done; [intros x Hx; apply elem_of_app; by right|]. intros m s Hm. rewrite lookup_app_r by lia. by replace (length ss + m - length ss)%nat with m by lia. }
    assert (forall j' r' next' b' news', made nsy nul rs ss j' r' next' b' news' -> made nsy nul (rs ++ b) (ss ++ news) j' r' next' b' news') as Hmono.
    { intros *. apply made_mono; [intros x Hx; apply elem_of_app; by left|intros i s Hi; by apply lookup_app_l_Some]. }
    split_and!.
    + intros j r' Hj Hr' Hu'. destruct (decide (j = k)) as [->|]; [assert (r' = r) as -> by congruence; eauto|].
      destruct (IH1 j r') as (next'&b'&news'&Hm'); [lia|done..|]. eauto.
    + intros x [Hx|Hx]%elem_of_app; [|by do 5 eexists]. destruct (IH2 x Hx) as (j'&r'&next'&b'&news'&Hm'&?). do 5 eexists. split; [by apply Hmono|done].
    + intros i s [Hi|[Hi Hs]]%lookup_app_Some.
      * destruct (IH3 i s Hi) as [?|(j'&r'&next'&b'&news'&m&Hm'&?&?)]; [by left|right]. do 6 eexists. split; [by apply Hmono|done].
      * right. exists k, r, (length ss), b, news, (i - length ss)%nat. split_and!; [done|lia|done].
Qed.

(** The symbols of a rule that is used have internal symbols. *)
Context (Hused : forall r y, r ∈ t_xrl_stack g -> XRL_is_Used r = true -> y ∈ rf_lhs (form_of r) :: mentions (form_of r) -> kept_symbol y = true).
Context (Hsingle : seq_single fs).
Context (Hlength : forall f, f ∈ fs -> Z.of_nat (length (rf_rhs f)) <= t_max_rule_length g).

Lemma rewrites_mono nsy nul ss0 k rs ss i s : rewrites nsy nul ss0 k rs ss -> ss0 !! i = Some s -> ss !! i = Some s.
Proof. induction 1 as [|k rs ss r _ IH|k rs ss r b news _ IH]; intros Hi; [done|auto|]. apply lookup_app_l_Some. auto. Qed.

Lemma rewrite_rule_step eqv nulv ss0 k rs ss p : (k < length (t_xrl_stack g))%nat -> cloned n eqv nulv ss0 ->
  rewrites (nsy_in eqv) (nsy_in nulv) ss0 k rs ss -> looks (g, eqv, nulv, None) rs ss p ->
  ends_in (rewrite_rule (Z.of_nat k) p) (fun p' => exists rs' ss', rewrites (nsy_in eqv) (nsy_in nulv) ss0 (S k) rs' ss' /\ looks (g, eqv, nulv, None) rs' ss' p').
Proof using Hg Hused Hsingle Hlength.
  intros Hk Hc Hw Hp. destruct (lookup_lt_is_Some_2 _ _ Hk) as [r Hr].
  assert (forms_of g !! k = Some (form_of r)) as Hf by (unfold forms_of; by rewrite list_lookup_fmap, Hr). rewrite (hr_forms _ _ _ Hg) in Hf.
  destruct (rule_read _ _ _ _ _ Hg Hf) as (r'&Hread&Hr'&_&Hshaped). assert (r' = r) as -> by congruence.
  destruct (XRL_is_Used r) eqn:Hu; [|rewrite (rewrite_rule_unused _ _ r rs ss p Hp Hread Hu); apply ends_Ok; do 2 eexists; split; [by eapply rewrites_unused|done]].
  pose proof (list_elem_of_lookup_2 _ _ _ Hr) as Hin. pose proof (list_elem_of_lookup_2 _ _ _ Hf) as Hinf.
  assert (forall y, y ∈ rf_lhs (form_of r) :: mentions (form_of r) -> 0 <= y < n) as Hvalid.
  { pose proof (hr_valid _ _ _ Hg) as Hv. rewrite Forall_forall in Hv. destruct (Hv _ Hinf) as [Hl Hm]. rewrite Forall_forall in Hm. intros y [->|Hy]%elem_of_cons; auto. }
  assert (forall y, y ∈ rf_lhs (form_of r) :: mentions (form_of r) -> exists i, eqv !! Z.to_nat y = Some (Some (Z.of_nat i)) /\ nsy_in eqv y = Z.of_nat i /\ ss0 !! i = Some (own_sense y)) as Hnsy.
  { intros y Hy. destruct (cl_nsy _ _ _ _ Hc y (Hvalid y Hy) (Hused r y Hin Hu Hy)) as (i&Hi&Hs). exists i. split_and!; [done| |done]. unfold nsy_in. by rewrite Hi. }
  destruct (Hnsy (rf_lhs (form_of r)) ltac:(left)) as (l&_&El&Hs).
  eapply ends_mono; [eapply (rewrite_rule_ok (g, eqv, nulv, None) (nsy_in eqv) (nsy_in nulv) nulls_ nullable_ (Z.of_nat k) r Hshaped) with (l := l) (s := own_sense (rf_lhs (form_of r)))|].
  - intros y Hy. destruct (Hnsy y Hy) as (i&Hi&Ei&_). cbn. rewrite Ei. apply rd_Ok. split; [|done]. by apply Hvalid.
  - intros y Hy Hnb. apply rhs_mentions in Hy as Hm. assert (y ∈ rf_lhs (form_of r) :: mentions (form_of r)) as Hy' by by right.
    destruct (cl_nul _ _ _ _ Hc y (Hvalid y Hy') (Hused r y Hin Hu Hy') Hnb) as (i&Hi&_). cbn. unfold nsy_in. rewrite Hi. apply rd_Ok. split; [|done]. by apply Hvalid.
  - intros y Hy. destruct (flags_read _ _ _ y Hg (Hvalid y Hy)) as (x&Hx&Hfl). exists x. by rewrite <- !Hfl.
  - exact Hp.
  - exact Hread.
  - exact Hu.
  - by eapply rewrites_mono.
  - done.
  - intros a o. unfold own_sense. by destruct (nulls_ _).
  - intros Hq. by apply Hsingle.
  - intros Hq Hsep. destruct (Hnsy (rf_sep (form_of r))) as (i&_&->&_); [right; by apply sep_mentions|lia].
  - by apply Hlength.
  - intros p' (b&news&Hb&Hp'). do 2 eexists. split; [by eapply rewrites_rule|exact Hp'].
Qed.

(** ** The whole rewriting *)

Lemma cloned_init : cloned 0 (replicate (length (t_xsy_stack g)) None) (replicate (length (t_xsy_stack g)) None) [].
Proof. split; rewrite ?length_replicate; try (intros; lia); try done. intros z o _ Ho. by apply lookup_replicate_1 in Ho as [? _]. Qed.

Lemma clones_ok : ends_in (for_res (Z.to_nat n) 0 clone_symbol (internal_init g))
  (fun p => exists eqv nulv ss, looks (g, eqv, nulv, None) [] ss p /\ cloned n eqv nulv ss).
Proof using Hg.
  eapply (ends_for (fun k p => exists eqv nulv ss, looks (g, eqv, nulv, None) [] ss p /\ cloned k eqv nulv ss)).
  - do 3 eexists. split; [|exact cloned_init]. by split.
  - intros k p Hk (eqv&nulv&ss&Hp&Hc). eapply clone_symbol_ok; [unfold XSY_Count_of_G in *; lia|done|done].
  - intros p. by rewrite Z2Nat.id by (unfold XSY_Count_of_G; lia).
Qed.

Lemma rules_ok eqv nulv ss0 p : cloned n eqv nulv ss0 -> looks (g, eqv, nulv, None) [] ss0 p ->
  ends_in (for_res (Z.to_nat (XRL_Count_of_G g)) 0 rewrite_rule p)
    (fun p => exists rs ss, rewrites (nsy_in eqv) (nsy_in nulv) ss0 (length (t_xrl_stack g)) rs ss /\ looks (g, eqv, nulv, None) rs ss p).
Proof using Hg Hused Hsingle Hlength.
  intros Hc Hp. eapply (ends_for (fun k p => exists rs ss, rewrites (nsy_in eqv) (nsy_in nulv) ss0 (Z.to_nat k) rs ss /\ looks (g, eqv, nulv, None) rs ss p)).
  - do 2 eexists. split; [constructor|done].
  - intros k p' Hk (rs&ss&Hw&Hp'). replace k with (Z.of_nat (Z.to_nat k)) at 1 by lia. replace (Z.to_nat (k + 1)) with (S (Z.to_nat k)) by lia.
    eapply rewrite_rule_step; [unfold XRL_Count_of_G in *; lia|done..].
  - intros p'. by replace (Z.to_nat (Z.of_nat (Z.to_nat (XRL_Count_of_G g)))) with (length (t_xrl_stack g)) by (unfold XRL_Count_of_G; lia).
Qed.

(** [augment] says of the start symbol that it is not one any longer. *)
Definition unstarted (g : GRAMMAR) (start : Z) : GRAMMAR := set_t_xsy_stack (alter (set_xsy_is_start false) (Z.to_nat start) (t_xsy_stack g)) g.

Lemma augment_ok eqv nulv ss0 rs ss p start : cloned n eqv nulv ss0 -> looks (g, eqv, nulv, None) rs ss p -> 0 <= start < n -> kept_symbol start = true ->
  ends_in (augment p start) (fun p' => if nulls_ start then looks (g, eqv, nulv, None) rs ss p' else
    looks (unstarted g start, eqv, nulv, Some (Z.of_nat (length rs))) (rs ++ [(Z.of_nat (length ss), [nsy_in eqv start])]) (ss ++ [StartOf (Some start)]) p').
Proof using Hg.
  intros Hc Hp Hs Hk. unfold augment. pose proof (proj1 (fold_env _ _ _ _ Hp)) as Eg. cbn in Eg. rewrite Eg.
  destruct (flags_read _ _ _ start Hg Hs) as (x&Hx&Hf). rewrite Hx. cbn [mbind res_bind]. rewrite <- Hf.
  destruct (nulls_ start); cbn [negb]; [by apply ends_Ok|]. rewrite <- Eg in Hx.
  eapply ends_bind; [by eapply nsy_new_ok|]. intros [new p1] [Ei Hp1]. cbn [fst snd] in Ei, Hp1. subst new.
  eapply ends_bind; [eapply (upd_last _ _ _ _ _ _ (StartOf (Some start)) _ Hp1); [done|done|sense]|]. intros p2 Hp2.
  destruct (fold_env _ _ _ _ Hp2) as (Eg2&Ee2&_). cbn in Eg2, Ee2. rewrite Eg2, (symbol_upd _ _ _ _ _ Hg Hs). cbn [mbind res_bind].
  fold (unstarted g start). set (g' := unstarted g start). assert (looks (g', eqv, nulv, None) rs (ss ++ [StartOf (Some start)]) (set_t_g g' p2)) as Hp3.
  { split; [|apply Hp2|apply Hp2]. pose proof (lk_env _ _ _ _ Hp2) as He. unfold env_of in *. cbn. congruence. }
  destruct (cl_nsy _ _ _ _ Hc start Hs Hk) as (i&Hi&_). unfold NSYID_by_XSYID at 1. cbn [t_nsy_equivalent set_t_g]. rewrite Ee2.
  rewrite (proj2 (rd_Ok _ _ (Some (Z.of_nat i)))) by (split; [lia|done]). cbn [mbind res_bind deref]. assert (nsy_in eqv start = Z.of_nat i) as -> by (unfold nsy_in; by rewrite Hi).
  eapply ends_bind; [eapply irl_with_ok; [exact Hp3|rewrite length_app; cbn; lia]|]. intros [irl p4] [E4 Hp4]. cbn [fst snd] in E4, Hp4. subst irl.
  eapply ends_bind; [eapply (upd_irl_looks _ _ _ _ _ _ _ Hp4); [by rewrite lookup_app_r, Nat.sub_diag|done]|]. intros p5 Hp5.
  apply ends_Ok. split; [|apply Hp5|apply Hp5]. pose proof (lk_env _ _ _ _ Hp5) as He. unfold env_of in *. cbn. congruence.
Qed.

(** What is known of the internal grammar. *)
Record rewritten (start : Z) (eqv nulv : list (option Z)) (ss0 : list sense) (rs : list (Z * list Z)) (ss : list sense) (p : INTERNAL) : Prop := {
  rt_cloned : cloned (XSY_Count_of_G g) eqv nulv ss0;
  rt_rewrites : rewrites (nsy_in eqv) (nsy_in nulv) ss0 (length (t_xrl_stack g)) rs ss;
  rt_looks : if symbol_flag XSY_is_Nulling g start then looks (g, eqv, nulv, None) rs ss p else
    looks (unstarted g start, eqv, nulv, Some (Z.of_nat (length rs))) (rs ++ [(Z.of_nat (length ss), [nsy_in eqv start])]) (ss ++ [StartOf (Some start)]) p
}.

Lemma precompute_rewrite_ok start : 0 <= start < n -> kept_symbol start = true ->
  ends_in (precompute_rewrite g start) (fun p => exists eqv nulv ss0 rs ss, rewritten start eqv nulv ss0 rs ss p).
Proof using Hg Hused Hsingle Hlength.
  intros Hs Hk. unfold precompute_rewrite. eapply ends_bind; [exact clones_ok|]. intros p1 (eqv&nulv&ss0&Hp1&Hc).
  eapply ends_bind; [by eapply rules_ok|]. intros p2 (rs&ss&Hw&Hp2). eapply ends_mono; [by eapply augment_ok|].
  intros p' Hp'. exists eqv, nulv, ss0, rs, ss. by split.
Qed.
End grammar.

(** * The internal grammar: its language

    What the internal grammar derives from each of its symbols, as derivations of its own,
    and that it is what the symbol stands for in the grammar given. *)

(** ** Sequences *)
Section sequences.
Context (nsy : Z -> Z) (L : Z -> list Z -> Prop) (f : rule_form).

Lemma items_snoc k : items f (S k) = items f k ++ sep_list f ++ rf_rhs f.
Proof. induction k as [|k IH]; [done|]. cbn [items] in *. rewrite IH at 1. by rewrite <- !app_assoc. Qed.

Lemma sequence_complete J lhs int : closed (sequence_rules nsy lhs int f) J -> (forall y w, y ∈ mentions f -> L y w -> J (nsy y) w) ->
  (forall k w, all L (items f k) w -> J int w)
  /\ forall ys w, ways f ys -> rf_seq f = true -> all L ys w -> w <> [] -> J lhs w.
Proof.
  intros Hc HJ. unfold sequence_rules in Hc. rewrite !closed_app in Hc. destruct Hc as (Hc1&Hc2&Hc3).
  assert (forall l w, (forall y, y ∈ l -> y ∈ mentions f) -> all L l w -> all J (nsy <$> l) w) as Hl by (intros l w Hl; apply all_map; auto).
  assert (forall y, y ∈ sep_list f -> y ∈ mentions f) as Hs by (intros y Hy; apply elem_of_app; by left).
  assert (forall k w, all L (items f k) w -> J int w) as Hi.
  { intros k. induction k as [|k IH]; intros w Hw.
    - apply (use_rule _ J _ (nsy <$> rf_rhs f) _ Hc3); [left|]. apply Hl; [by apply rhs_mentions|done].
    - rewrite items_snoc in Hw. apply all_app in Hw as (w1&w'&->&Hw1&(w2&w3&->&Hw2&Hw3)%all_app).
      apply (use_rule _ J _ (int :: (nsy <$> sep_list f) ++ (nsy <$> rf_rhs f)) _ Hc3); [right; left|].
      apply all_cons; [by apply IH|]. apply all_join; apply Hl; try done. by apply rhs_mentions. }
  split; [done|]. intros ys w Hw Hq Ha Hne. destruct Hw as [?|_ _|k _ _|k _ _ Hp]; [congruence|by apply all_nil_iff in Ha| |].
  - apply (use_rule _ J _ [int] _ Hc1); [left|]. apply all_one. by eapply Hi.
  - apply all_app in Ha as (w1&w2&->&H1&H2). destruct (separated f) eqn:Es.
    + apply (use_rule _ J _ (int :: (nsy <$> sep_list f)) _ Hc2); [rewrite Hp; left|]. apply all_cons; [by eapply Hi|]. by apply Hl.
    + unfold sep_list in H2. unfold separated in Es. rewrite Es, andb_false_r in H2. apply all_nil_iff in H2 as ->. rewrite app_nil_r.
      apply (use_rule _ J _ [int] _ Hc1); [left|]. apply all_one. by eapply Hi.
Qed.

Lemma sequence_sound J lhs int : rf_seq f = true -> rf_min f <= 1 -> (forall y w, y ∈ mentions f -> J (nsy y) w -> L y w) -> (forall w, J int w <-> exists k, all L (items f k) w) ->
  (forall ys w, ways f ys -> ys <> [] -> all L ys w -> J lhs w) -> (rf_rhs f <> []) -> closed (sequence_rules nsy lhs int f) J.
Proof.
  intros Hq Hmin HJ Hi Hl Hne. assert (forall l w, (forall y, y ∈ l -> y ∈ mentions f) -> all J (nsy <$> l) w -> all L l w) as Hback by (intros l w Hy; apply all_map_inv; auto).
  assert (forall y, y ∈ sep_list f -> y ∈ mentions f) as Hs by (intros y Hy; apply elem_of_app; by left).
  assert (forall k, items f k <> []) as Hk by (intros [|k]; cbn; [done|]; by destruct (rf_rhs f)).
  unfold sequence_rules. cbn [app]. apply cons_sound.
  { intros w (k&Hw)%all_one%Hi. eapply (Hl (items f k)); [apply ways_items; [done|lia]|done|done]. }
  apply closed_app. split.
  - apply when_sound. intros Hw w (w1&w2&->&(k&H1)%Hi&H2)%all_cons_iff. apply andb_true_iff in Hw as [_ Hp].
    eapply (Hl (items f k ++ sep_list f)); [apply ways_trailing; [done|lia|by destruct (rf_proper f)]|by intros [? _]%app_nil; eapply Hk|]. apply all_join; [done|by apply Hback].
  - apply cons_sound; [|apply cons_sound; [|apply nil_sound]].
    + intros w Hw. apply Hi. exists 0%nat. apply Hback; [by apply rhs_mentions|done].
    + intros w (w1&w2&->&(k&H1)%Hi&(w3&w4&->&H3&H4)%all_app)%all_cons_iff. apply Hi. exists (S k). rewrite items_snoc.
      apply all_join; [done|]. apply all_join; apply Hback; try done. by apply rhs_mentions.
Qed.
End sequences.

(** ** What the census has told the rewriting *)
Section facts.
Context `{Library}.
Context (Hfuel : (MARPA_AVL_MAX_HEIGHT <= tree_rounds)%nat) (Hversion : lib_version = marpa_h_version).
Context (junk : nat -> list Z) (g0 g : GRAMMAR) (Hready : ready g0) (Hcensus : precompute_census junk g0 = Ok (None, g)).
#[local] Abbreviation n := (XSY_Count_of_G g0).
#[local] Abbreviation fs := (forms_of g0).
#[local] Abbreviation T := (terminal g0).

(** The language of a symbol, and what the rewriting knows of it. *)
#[local] Abbreviation L := (derives (forms_of g0) (terminal g0)).
#[local] Abbreviation null_ := (symbol_flag XSY_is_Nulling g).
#[local] Abbreviation nullable_ := (symbol_flag XSY_is_Nullable g).
Definition reached (z : Z) : Prop := rtc (occurs (forms_of g0)) (t_start_xsy_id g0) z.

Lemma facts_done : census_done g0 g.
Proof using Hfuel Hversion Hready Hcensus. by eapply census_success. Qed.

Lemma facts_rules : has_rules (XSY_Count_of_G g) fs g.
Proof using Hfuel Hversion Hready Hcensus.
  pose proof facts_done as Hd. pose proof (wf_has_rules g0 (rd_wf _ Hready)) as [_ _ Hs Hv]. split; [done|apply (cd_forms _ _ Hd)| |].
  - destruct (cd_rules _ _ Hd) as (p&->&_). apply mark_loops_shaped. apply Forall_fmap. eapply Forall_impl; [exact Hs|]. intros r Hr. exact Hr.
  - unfold XSY_Count_of_G in *. by rewrite (cd_symbols _ _ Hd).
Qed.

Lemma facts_count : XSY_Count_of_G g = n.
Proof using Hfuel Hversion Hready Hcensus. unfold XSY_Count_of_G. by rewrite (cd_symbols _ _ facts_done). Qed.

Lemma nulling_plain z w : nulling g0 z -> L z w -> w = [].
Proof using Hfuel Hversion Hready Hcensus.
  intros Hn Hd. pose proof (census_verdict Hfuel Hversion junk g0 g Hready Hcensus) as Hv. inversion Hv as [| | |_ _ Hno].
  destruct Hn as [Hl Ht]. eapply nulling_derives; [|exact Ht|exact Hd]. apply Hno. by split.
Qed.

(** A symbol of a nulling symbol is nulling, if it derives anything. *)
Lemma nulling_inside x y : nulling g0 x -> occurs fs x y -> productive g0 y -> nulling g0 y.
Proof using.
  intros [_ Ht] Hxy [w Hw]. split; [|intros t HT Htc; apply (Ht t HT); by eapply tc_l].
  inversion Hw as [? HT|f ys ? Hin _ _]; subst; [|by exists f]. exfalso. apply (Ht y HT). by apply tc_once.
Qed.

Context (f : rule_form) (Hin : f ∈ fs).

Lemma fact_valid y : y ∈ rf_lhs f :: mentions f -> 0 <= y < n.
Proof using Hready Hin.
  pose proof (hr_valid _ _ _ (wf_has_rules g0 (rd_wf _ Hready))) as Hv. rewrite Forall_forall in Hv. destruct (Hv _ Hin) as [Hl Hm]. rewrite Forall_forall in Hm.
  intros [->|Hy]%elem_of_cons; [done|by apply Hm].
Qed.

Lemma fact_flags y : y ∈ rf_lhs f :: mentions f -> (null_ y = true <-> nulling g0 y) /\ (nullable_ y = true <-> nullable g0 y)
  /\ (symbol_flag XSY_is_Productive g y = true <-> productive g0 y) /\ (symbol_flag XSY_is_Accessible g y = true <-> reached y).
Proof using Hfuel Hversion Hready Hcensus Hin.
  intros Hy%fact_valid. split_and!; [by apply (cd_nulling _ _ facts_done)|by apply (cd_nullable _ _ facts_done)|by apply (cd_productive _ _ facts_done)|by apply (cd_accessible _ _ facts_done)].
Qed.

Lemma fact_counted z : nullable g0 z -> ~ counted g0 z.
Proof using Hfuel Hversion Hready Hcensus.
  pose proof (census_verdict Hfuel Hversion junk g0 g Hready Hcensus) as Hv. inversion Hv as [| | |Hno _ _]. apply Hno.
Qed.

Lemma fact_item : rf_seq f = true -> rf_rhs f = [item_of f] /\ forall y, y ∈ mentions f -> ~ nullable g0 y.
Proof using Hfuel Hversion Hready Hcensus Hin.
  intros Hs. destruct (item_rhs g0 f Hin (wf_seq_single g0 (rd_wf _ Hready)) fact_counted Hs) as (Hr&_&_). split; [done|].
  intros y Hy Hn. apply (fact_counted y Hn). by exists f.
Qed.

(** *** A rule that is used *)

Lemma used_productive : rule_used g f = true -> forall y, y ∈ mentions f -> productive g0 y.
Proof using Hfuel Hversion Hready Hcensus Hin.
  intros Hu y Hy. destruct (fact_flags y) as (_&_&Hp&_); [by right|]. apply Hp. unfold rule_used in Hu. apply andb_true_iff in Hu as [_ Hu].
  destruct (rf_seq f) eqn:Hs.
  - destruct (fact_item Hs) as [Hr _]. apply andb_true_iff in Hu as [Hi Hsep]. unfold mentions in Hy. rewrite Hr in Hy. apply elem_of_app in Hy as [Hy|Hy]; [|by apply list_elem_of_singleton in Hy as ->].
    unfold sep_list in Hy. rewrite Hs in Hy. unfold no_separator, separated in Hsep. cbn [andb] in Hy. destruct (rf_sep f >=? 0); [|by apply elem_of_nil in Hy].
    apply list_elem_of_singleton in Hy as ->. cbn [andb] in Hsep. by destruct (symbol_flag XSY_is_Productive g (rf_sep f)).
  - unfold rule_productive in Hu. rewrite Hs in Hu. unfold mentions, sep_list in Hy. rewrite Hs in Hy. rewrite forallb_forall in Hu. apply Hu. by apply list_elem_of_In.
Qed.

Lemma used_lhs : rule_used g f = true -> reached (rf_lhs f) /\ productive g0 (rf_lhs f).
Proof using Hfuel Hversion Hready Hcensus Hin.
  intros Hu. pose proof (used_productive Hu) as Hp. split.
  - apply fact_flags; [left|]. unfold rule_used in Hu. by apply andb_true_iff in Hu as [[Ha _]%andb_true_iff _].
  - destruct (derives_all_intro fs T (items f (if rf_seq f then Z.to_nat (rf_min f - 1) else 0))) as [w Hw].
    + intros y [Hy|[_ Hy]]%elem_of_items; apply Hp; [by apply rhs_mentions|apply elem_of_app; by left].
    + exists w. eapply derives_rule; [exact Hin| |exact Hw]. destruct (rf_seq f) eqn:Hs; [apply ways_items; [done|lia]|by apply ways_bnf].
Qed.

Lemma used_kept y : rule_used g f = true -> y ∈ rf_lhs f :: mentions f -> kept_symbol g y = true.
Proof using Hfuel Hversion Hready Hcensus Hin.
  intros Hu Hy. destruct (used_lhs Hu) as [Ha Hp]. destruct (fact_flags y Hy) as (_&_&Hprod&Hacc). unfold kept_symbol. apply andb_true_iff. rewrite Hacc, Hprod.
  apply elem_of_cons in Hy as [->|Hy]; [done|]. split; [|by apply used_productive]. unfold reached. eapply rtc_r; [exact Ha|]. by exists f.
Qed.

(** Its left-hand side is not nulling: not all its symbols are. *)
Lemma used_not_nulling : rule_used g f = true -> null_ (rf_lhs f) = false.
Proof using Hfuel Hversion Hready Hcensus Hin.
  intros Hu. apply not_true_iff_false. intros Hn. destruct (fact_flags (rf_lhs f)) as (Hnl&_); [left|]. apply Hnl in Hn.
  assert (forall y, y ∈ mentions f -> null_ y = true) as Hall.
  { intros y Hy. apply fact_flags; [by right|]. apply (nulling_inside (rf_lhs f)); [done|by exists f|by apply used_productive]. }
  unfold rule_used in Hu. apply andb_true_iff in Hu as [[_ Hu]%andb_true_iff _]. apply negb_true_iff in Hu. unfold rule_nulling in Hu. destruct (rf_seq f) eqn:Hs.
  - destruct (fact_item Hs) as [Hr _]. rewrite (Hall (item_of f)) in Hu by (apply rhs_mentions; rewrite Hr; left).
    unfold separated in Hu. destruct (Z.geb_spec (rf_sep f) 0); [|done]. cbn in Hu. by rewrite (Hall (rf_sep f)) in Hu by by apply sep_mentions.
  - apply not_true_iff_false in Hu. apply Hu. apply forallb_forall. intros y Hy. apply Hall, rhs_mentions. by apply list_elem_of_In.
Qed.

(** A rule that derives something is used. *)
Lemma derives_used ys w : (rf_seq f = true -> 0 <= rf_sep f -> productive g0 (rf_sep f)) -> reached (rf_lhs f) -> ways f ys -> derives_all fs T ys w -> w <> [] -> rule_used g f = true.
Proof using Hfuel Hversion Hready Hcensus Hin.
  intros Hsep Ha Hw Hd Hne. assert (forall y, y ∈ ys -> y ∈ mentions f) as Hm by (intros y; by apply way_mentions).
  assert (forall y, y ∈ ys -> productive g0 y) as Hp by (intros y Hy; by eapply derives_all_each).
  assert (symbol_flag XSY_is_Accessible g (rf_lhs f) = true) as Hacc by (apply fact_flags; [left|done]).
  unfold rule_used, rule_accessible. rewrite Hacc. cbn [andb]. destruct (rf_seq f) eqn:Hs.
  - destruct (fact_item Hs) as [Hr Hnn]. pose proof (item_rhs g0 f Hin (wf_seq_single g0 (rd_wf _ Hready)) fact_counted Hs) as (_&Him&_).
    destruct (way_item g0 f Hin (wf_seq_single g0 (rd_wf _ Hready)) fact_counted ys Hs Hw) as [[-> _]|Hi]; [by inversion Hd|]. pose proof (Hp _ Hi) as Hpi.
    destruct (fact_flags (item_of f)) as (Hnl&_&Hpr&_); [by right|]. apply andb_true_iff. split.
    + unfold rule_nulling. rewrite Hs. apply negb_true_iff, andb_false_iff. left. apply not_true_iff_false. intros Hnl'%Hnl. destruct Hpi as [v Hv].
      apply (Hnn _ Him). pose proof (nulling_plain _ _ Hnl' Hv) as ->. exact Hv.
    + apply andb_true_iff. split; [by apply Hpr|]. unfold no_separator, separated. destruct (Z.geb_spec (rf_sep f) 0) as [Hge|]; [|done].
      apply negb_true_iff, andb_false_iff. right. apply negb_false_iff. apply fact_flags; [right; by apply sep_mentions|auto].
  - assert (ys = rf_rhs f) as -> by (destruct Hw; congruence). apply andb_true_iff. split.
    + unfold rule_nulling. rewrite Hs. apply negb_true_iff, not_true_iff_false. intros Hall. apply Hne. rewrite forallb_forall in Hall.
      assert (forall y, y ∈ rf_rhs f -> nulling g0 y) as Hn by (intros y Hy; apply fact_flags; [right; by apply Hm|by apply Hall, list_elem_of_In]).
      clear -Hd Hn Hfuel Hversion Hready Hcensus. induction Hd as [|y l w1 w2 Hy _ IH]; [done|]. rewrite (nulling_plain y w1), IH; [done| |apply Hn; left|done]. intros z Hz. apply Hn. by right.
    + unfold rule_productive. rewrite Hs. apply forallb_forall. intros y Hy. apply fact_flags; [right; apply Hm|apply Hp]; by apply list_elem_of_In.
Qed.
End facts.
