(* ===== verification/RewriteTheorems.v ===== *)
(** * Theorems about the internal grammar

    The precomputation ends, and each internal symbol derives, by the internal rules, exactly
    what it stands for: the grammar the Earley engine runs on is the grammar that was given. *)
From stdpp Require Import sets gmap list relations.
From S2P Require Import Prelude Avl AvlTree AvlProbe AvlTheorems MarpaGrammar MarpaRules MarpaGrammarTheorems MarpaRuleTheorems MarpaCalls Census CensusSpec CensusLists CensusClosure CensusMarks CensusRules CensusBody CensusTheorems CensusProperties Rewrite RewriteSpec RewriteSteps RewriteLanguage.

(** ** The language of the internal grammar *)
Section iderives.
Context (p : INTERNAL) (T : Z -> Prop).

(** A null symbol, a token that is read, a rule. *)
Inductive iderives : Z -> list Z -> Prop :=
| iderives_null i x : t_nsy_stack p !! i = Some x -> NSY_is_Nulling x = true -> iderives (Z.of_nat i) []
| iderives_token z i : 0 <= z -> t_nsy_equivalent p !! Z.to_nat z = Some (Some i) -> T z -> iderives i [z]
| iderives_rule irl l rhs w : irl ∈ t_irl_stack p -> t_nsyid_array irl = Some <$> (l :: rhs) -> iderives_all rhs w -> iderives l w
with iderives_all : list Z -> list Z -> Prop :=
| iderives_nil : iderives_all [] []
| iderives_cons y ys w1 w2 : iderives y w1 -> iderives_all ys w2 -> iderives_all (y :: ys) (w1 ++ w2).

Scheme iderives_mind := Minimality for iderives Sort Prop
  with iderives_all_mind := Minimality for iderives_all Sort Prop.
Combined Scheme iderives_mutual from iderives_mind, iderives_all_mind.

(** What a set of derivations is closed under. *)
Record iclosed (rs : list (Z * list Z)) (J : Z -> list Z -> Prop) : Prop := {
  ic_null i x : t_nsy_stack p !! i = Some x -> NSY_is_Nulling x = true -> J (Z.of_nat i) [];
  ic_token z i : 0 <= z -> t_nsy_equivalent p !! Z.to_nat z = Some (Some i) -> T z -> J i [z];
  ic_rules : closed rs J
}.

Definition rules_are (rs : list (Z * list Z)) : Prop := forall l rhs, (l, rhs) ∈ rs <-> exists irl, irl ∈ t_irl_stack p /\ t_nsyid_array irl = Some <$> (l :: rhs).

Lemma iderives_all_iff ys w : iderives_all ys w <-> all iderives ys w.
Proof. split; induction 1; constructor; done. Qed.

Lemma iderives_iclosed rs : rules_are rs -> iclosed rs iderives.
Proof.
  intros Hrs. split; [apply iderives_null|apply iderives_token|]. intros l rhs w (irl&Hin&Hirl)%Hrs Ha. eapply iderives_rule; [exact Hin|exact Hirl|by apply iderives_all_iff].
Qed.

Lemma iderives_least rs J : rules_are rs -> iclosed rs J -> forall i w, iderives i w -> J i w.
Proof.
  intros Hrs [H1 H2 H3]. cut ((forall i w, iderives i w -> J i w) /\ forall ys w, iderives_all ys w -> all J ys w); [by intros [? _]|].
  apply iderives_mutual; [exact H1|exact H2| |constructor|by constructor].
  intros irl l rhs w Hin Hirl _ Ha. eapply H3; [|exact Ha]. apply Hrs. by exists irl.
Qed.
End iderives.

Lemma looks_rules_are E rs ss p : looks E rs ss p -> rules_are p rs.
Proof.
  intros Hp l rhs. split.
  - intros (i&Hi)%list_elem_of_lookup. pose proof (f_equal (lookup i) (lk_rules _ _ _ _ Hp)) as Hv. rewrite list_lookup_fmap, list_lookup_imap, Hi in Hv.
    destruct (t_irl_stack p !! i) as [x|] eqn:Hx; [|done]. exists x. split; [by eapply list_elem_of_lookup_2|]. by injection Hv.
  - intros (irl&(i&Hi)%list_elem_of_lookup&Hirl). pose proof (f_equal (lookup i) (lk_rules _ _ _ _ Hp)) as Hv. rewrite list_lookup_fmap, list_lookup_imap, Hi in Hv.
    destruct (rs !! i) as [[l' rhs']|] eqn:Hr; [|done]. injection Hv as _ _ Hv. rewrite Hirl in Hv. unfold whole in Hv. cbn in Hv. injection Hv as <- Hv.
    apply (inj (fmap Some)) in Hv as <-. by eapply list_elem_of_lookup_2.
Qed.

Lemma looks_sense E rs ss p i x : looks E rs ss p -> t_nsy_stack p !! i = Some x -> ss !! i = Some (sense_of x).
Proof.
  intros Hp Hx. pose proof (f_equal (lookup i) (lk_senses _ _ _ _ Hp)) as Hv. rewrite list_lookup_fmap, list_lookup_imap, Hx in Hv.
  destruct (ss !! i); [|done]. cbn in Hv. by injection Hv as _ ->.
Qed.

(** ** What an internal symbol stands for *)

(** Every string but the empty one, for the symbols that are not null. *)
Definition sense_language (g : GRAMMAR) (s : sense) (w : list Z) : Prop :=
  match s with
  | NullOf (Some z) => w = [] /\ derives (forms_of g) (terminal g) z []
  | SymbolOf (Some z) | StartOf (Some z) => w <> [] /\ derives (forms_of g) (terminal g) z w
  | PartOf (Some z) (Some j) offset =>
      exists f, forms_of g !! Z.to_nat j = Some f /\ rf_lhs f = z
        /\ if rf_seq f then exists k, derives_all (forms_of g) (terminal g) (items f k) w
           else w <> [] /\ derives_all (forms_of g) (terminal g) (drop (Z.to_nat offset) (rf_rhs f)) w
  | _ => False
  end.
Definition nsy_language (g : GRAMMAR) (x : NSY) : list Z -> Prop := sense_language g (sense_of x).

(** The sequences the rewriting is right about: a minimum of 0 or 1, as the manual asks, and
    a separator that derives something. *)
Definition plain_sequences (g : GRAMMAR) : Prop :=
  forall f, f ∈ forms_of g -> rf_seq f = true -> rf_min f <= 1 /\ (0 <= rf_sep f -> productive g (rf_sep f)).

Section language.
Context `{Library}.
Context (Hfuel : (MARPA_AVL_MAX_HEIGHT <= tree_rounds)%nat) (Hversion : lib_version = marpa_h_version).
Context (junk : nat -> list Z) (g0 g : GRAMMAR) (Hready : ready g0) (Hcensus : precompute_census junk g0 = Ok (None, g)).
Context (Hseq : plain_sequences g0).
#[local] Abbreviation fs := (forms_of g0).
#[local] Abbreviation T := (terminal g0).
#[local] Abbreviation L := (derives (forms_of g0) (terminal g0)).
#[local] Abbreviation null_ := (symbol_flag XSY_is_Nulling g).
#[local] Abbreviation nullable_ := (symbol_flag XSY_is_Nullable g).
#[local] Abbreviation start := (t_start_xsy_id g0).

Context (p : INTERNAL) (eqv nulv : list (option Z)) (ss0 : list sense) (rs : list (Z * list Z)) (ss : list sense).
Context (Hp : rewritten g start eqv nulv ss0 rs ss p).
#[local] Abbreviation nsy := (nsy_in eqv).
#[local] Abbreviation nul := (nsy_in nulv).

(** All the senses, all the rules. *)
Definition all_senses : list sense := if symbol_flag XSY_is_Nulling g start then ss else ss ++ [StartOf (Some start)].
Definition all_rules : list (Z * list Z) := if symbol_flag XSY_is_Nulling g start then rs else rs ++ [(Z.of_nat (length ss), [nsy_in eqv start])].

Lemma looks_all : exists E, looks E all_rules all_senses p /\ E.1.1.2 = eqv.
Proof using Hp. pose proof (rt_looks _ _ _ _ _ _ _ _ Hp) as Hl. unfold all_senses, all_rules. destruct (null_ start); [by eexists|]. by eexists. Qed.

Lemma sense_ss i s : ss !! i = Some s -> all_senses !! i = Some s.
Proof using. intros Hi. unfold all_senses. destruct (null_ start); [done|by apply lookup_app_l_Some]. Qed.
Lemma sense_ss0 i s : ss0 !! i = Some s -> all_senses !! i = Some s.
Proof using Hp. intros Hi. apply sense_ss. eapply rewrites_mono; [apply (rt_rewrites _ _ _ _ _ _ _ _ Hp)|done]. Qed.

(** A symbol that is kept, and its internal symbols. *)
Lemma kept_nsy z : 0 <= z < XSY_Count_of_G g0 -> kept_symbol g z = true -> exists i, nsy z = Z.of_nat i /\ eqv !! Z.to_nat z = Some (Some (Z.of_nat i)) /\ all_senses !! i = Some (own_sense g z).
Proof using Hfuel Hversion Hready Hcensus Hp.
  intros Hz Hk. rewrite <- (facts_count Hfuel Hversion junk g0 g Hready Hcensus) in Hz. destruct (cl_nsy _ _ _ _ _ (rt_cloned _ _ _ _ _ _ _ _ Hp) z Hz Hk) as (i&Hi&Hs).
  exists i. split_and!; [unfold nsy_in; by rewrite Hi|done|by apply sense_ss0].
Qed.

Lemma kept_nul z : 0 <= z < XSY_Count_of_G g0 -> kept_symbol g z = true -> null_ z || nullable_ z = true -> exists i, nul z = Z.of_nat i /\ all_senses !! i = Some (NullOf (Some z)).
Proof using Hfuel Hversion Hready Hcensus Hp.
  intros Hz Hk Hn. rewrite <- (facts_count Hfuel Hversion junk g0 g Hready Hcensus) in Hz. destruct (cl_nul _ _ _ _ _ (rt_cloned _ _ _ _ _ _ _ _ Hp) z Hz Hk Hn) as (i&Hi&Hs).
  exists i. split; [unfold nsy_in; by rewrite Hi|by apply sense_ss0].
Qed.

(** A rule that was rewritten. *)
Lemma made_form j r next b news : made g nsy nul rs ss j r next b news ->
  exists f, fs !! j = Some f /\ f ∈ fs /\ rule_used g f = true /\ block nsy nul null_ nullable_ (Z.of_nat j) f (Z.of_nat next) b news.
Proof using Hfuel Hversion Hready Hcensus.
  intros Hm. pose proof (md_rule _ _ _ _ _ _ _ _ _ _ Hm) as Hr.
  assert (fs !! j = Some (form_of r)) as Hf by (rewrite <- (cd_forms _ _ (facts_done Hfuel Hversion junk g0 g Hready Hcensus)); unfold forms_of; by rewrite list_lookup_fmap, Hr).
  exists (form_of r). split_and!; [done|by eapply list_elem_of_lookup_2| |apply (md_block _ _ _ _ _ _ _ _ _ _ Hm)]. destruct (census_rule_read Hfuel Hversion junk g0 g j _ Hready Hcensus Hf) as (r'&Hr'&_&_&_&_&Hu&_).
  rewrite <- Hu. assert (r' = r) as -> by congruence. apply (md_used _ _ _ _ _ _ _ _ _ _ Hm).
Qed.

(** ** Nothing else is derived *)

Definition means (i : Z) (w : list Z) : Prop := exists j s, i = Z.of_nat j /\ all_senses !! j = Some s /\ sense_language g0 s w.

Lemma means_at i s w : all_senses !! i = Some s -> means (Z.of_nat i) w <-> sense_language g0 s w.
Proof using. intros Hi. split; [|intros Hw; by exists i, s]. intros (j&s'&Hj&Hs'&Hw). apply Nat2Z.inj in Hj as ->. by simplify_eq. Qed.

Section used.
Context (f : rule_form) (Hin : f ∈ fs) (Hu : rule_used g f = true).

Lemma used_symbol y : y ∈ rf_lhs f :: mentions f -> exists i, nsy y = Z.of_nat i /\ all_senses !! i = Some (own_sense g y).
Proof using Hfuel Hversion Hready Hcensus Hp Hin Hu.
  intros Hy. destruct (kept_nsy y) as (i&?&_&?); [by eapply fact_valid|by eapply used_kept|by exists i].
Qed.

Lemma used_null y : y ∈ rf_lhs f :: mentions f -> null_ y || nullable_ y = true -> exists i, nul y = Z.of_nat i /\ all_senses !! i = Some (NullOf (Some y)).
Proof using Hfuel Hversion Hready Hcensus Hp Hin Hu.
  intros Hy Hn. destruct (kept_nul y) as (i&?&?); [by eapply fact_valid|by eapply used_kept|done|by exists i].
Qed.

(** What is null is nullable. *)
Lemma null_derives y : y ∈ mentions f -> null_ y || nullable_ y = true -> L y [].
Proof using Hfuel Hversion Hready Hcensus Hin Hu.
  intros Hy Hn. destruct (fact_flags Hfuel Hversion junk g0 g Hready Hcensus f Hin y) as (Hnl&Hnb&_); [by right|]. apply orb_true_iff in Hn as [Hn|Hn]; [|by apply Hnb].
  destruct (used_productive Hfuel Hversion junk g0 g Hready Hcensus f Hin Hu y Hy) as [w Hw].
  pose proof (nulling_plain Hfuel Hversion junk g0 g Hready Hcensus y w (proj1 Hnl Hn) Hw) as ->. exact Hw.
Qed.

Lemma used_explains y : y ∈ mentions f -> explains nsy nul null_ nullable_ L means y.
Proof using Hfuel Hversion Hready Hcensus Hp Hin Hu.
  intros Hy. destruct (used_symbol y ltac:(by right)) as (i&Ei&Hi). split.
  - rewrite Ei. intros w Hw. apply (means_at _ _ _ Hi) in Hw. unfold own_sense in Hw. destruct (null_ y); cbn in Hw; [destruct Hw as [-> ?]; by split|]. by destruct Hw.
  - intros Hn w. destruct (used_null y ltac:(by right) Hn) as (i'&Ei'&Hi'). rewrite Ei'. intros Hw. by apply (means_at _ _ _ Hi') in Hw.
Qed.

Lemma used_lhs_means ys w : ways f ys -> all L ys w -> w <> [] -> means (nsy (rf_lhs f)) w.
Proof using Hfuel Hversion Hready Hcensus Hp Hin Hu.
  intros Hw Ha Hne. destruct (used_symbol (rf_lhs f) ltac:(left)) as (i&Ei&Hi). rewrite Ei. apply (means_at _ _ _ Hi).
  unfold own_sense. rewrite (used_not_nulling Hfuel Hversion junk g0 g Hready Hcensus f Hin Hu). split; [done|].
  eapply derives_rule; [exact Hin|exact Hw|by apply derives_all_iff].
Qed.

(** A rule without a symbol that can be both has one that is never null. *)
Lemma used_has_kept : rf_seq f = false -> no_factor null_ nullable_ (rf_rhs f) -> has_kept null_ nullable_ (rf_rhs f) = true.
Proof using Hu.
  intros Hq Hnf. unfold rule_used in Hu. apply andb_true_iff in Hu as [[_ Hn]%andb_true_iff _]. unfold rule_nulling in Hn. rewrite Hq in Hn.
  clear Hin. induction (rf_rhs f) as [|y l IH]; [done|]. apply Forall_cons in Hnf as [Hy Hnf]. cbn in *. unfold kept, factor in *. destruct (null_ y); [by apply IH|]. cbn in *. by rewrite Hy.
Qed.

Lemma used_items_nonempty ys : rf_seq f = true -> ways f ys -> ys <> [] -> ~ all L ys [].
Proof using Hfuel Hversion Hready Hcensus Hin.
  intros Hq Hw Hne Ha. pose proof (fact_counted Hfuel Hversion junk g0 g Hready Hcensus) as Hc. pose proof (wf_seq_single g0 (rd_wf _ Hready)) as Hsg.
  destruct (way_item g0 f Hin Hsg Hc ys Hq Hw) as [[? _]|Hi]; [done|]. destruct (item_rhs g0 f Hin Hsg Hc Hq) as (_&_&Hn). apply Hn.
  eapply derives_all_nil_inv; [by apply derives_all_iff|done|exact Hi].
Qed.
End used.

Lemma rests_drop l offs vs m v : rests l offs vs -> vs !! m = Some v -> exists o, offs !! m = Some o /\ drop (Z.to_nat o) l = v.
Proof.
  intros Ho Hv. destruct (Forall2_lookup_r _ _ _ _ _ Ho Hv) as (o&Hoo&before&->&Eo). exists o. split; [done|]. by rewrite Eo, Nat2Z.id, drop_app_length.
Qed.

Lemma block_sound j r next b news : made g nsy nul rs ss j r next b news -> closed b means.
Proof using Hfuel Hversion Hready Hcensus Hp Hseq.
  intros Hm. destruct (made_form _ _ _ _ _ Hm) as (f&Hj&Hin&Hu&Hblock).
  assert (forall y, y ∈ rf_rhs f -> explains nsy nul null_ nullable_ L means y) as Hex by (intros y Hy; eapply used_explains; [exact Hin|exact Hu|by apply rhs_mentions]).
  assert (forall m z o, news !! m = Some (PartOf (Some z) (Some (Z.of_nat j)) o) -> forall w, means (Z.of_nat (next + m)) w <-> sense_language g0 (PartOf (Some z) (Some (Z.of_nat j)) o) w) as Hnew.
  { intros m z o Hz w. apply means_at. apply sense_ss. by apply (md_news _ _ _ _ _ _ _ _ _ _ Hm). }
  destruct Hblock as [Hq Hnf|b vs offs Hq Hb Ho|Hq].
  - apply cons_sound; [|apply nil_sound]. intros w Hw. destruct (plain_sound nsy nul null_ nullable_ L means (rf_rhs f) w Hex Hw) as [Ha Hk].
    apply (used_lhs_means f Hin Hu (rf_rhs f)); [by apply ways_bnf|done|]. apply Hk. by apply used_has_kept.
  - eapply pieces_sound; [exact Hb|exact Hex|intros w Ha Hne; apply (used_lhs_means f Hin Hu (rf_rhs f)); [by apply ways_bnf|done|done]|].
    intros m v w Hv. destruct (rests_drop _ _ _ _ _ Ho Hv) as (o&Hoo&Hd). rewrite <- Nat2Z.inj_add, (Hnew m (rf_lhs f) o) by by rewrite list_lookup_fmap, Hoo.
    cbn [sense_language]. rewrite Nat2Z.id, Hj. rewrite <- derives_all_iff. split.
    + intros (f'&[= <-]&_&Hw). rewrite Hq, Hd in Hw. naive_solver.
    + intros [Hw Hne]. exists f. rewrite Hq, Hd. split_and!; done.
  - destruct (fact_item Hfuel Hversion junk g0 g Hready Hcensus f Hin Hq) as [Hr Hnn]. apply (sequence_sound nsy L f means); [done|by apply (Hseq f Hin Hq)| | | |by rewrite Hr].
    + intros y w Hy Hw. exact (proj1 (proj1 (used_explains f Hin Hu y Hy) w Hw)).
    + intros w. specialize (Hnew 0%nat (rf_lhs f) (-1) eq_refl w). rewrite Nat.add_0_r in Hnew. rewrite Hnew. cbn [sense_language]. rewrite Nat2Z.id, Hj. setoid_rewrite <- derives_all_iff. split.
      * intros (f'&[= <-]&_&Hw). by rewrite Hq in Hw.
      * intros Hw. exists f. by rewrite Hq.
    + intros ys w Hw Hys Ha. apply (used_lhs_means f Hin Hu ys); [done|done|]. intros ->. by eapply used_items_nonempty.
Qed.

(** The new symbols are parts of rules; the others are those of symbols. *)
Lemma block_news nsy nul nulling nullable j f next b news m s : block nsy nul nulling nullable j f next b news -> news !! m = Some s -> exists o, s = PartOf (Some (rf_lhs f)) (Some j) o.
Proof.
  destruct 1 as [_ _|b vs offs _ _ _|_]; [done| |].
  - rewrite list_lookup_fmap. intros (o&_&->)%fmap_Some. by eexists.
  - destruct m; [|done]. intros [= <-]. by eexists.
Qed.

Lemma sense_cases i s : all_senses !! i = Some s ->
  (exists z, 0 <= z < XSY_Count_of_G g0 /\ kept_symbol g z = true /\ ((s = NullOf (Some z) /\ null_ z || nullable_ z = true) \/ (s = SymbolOf (Some z) /\ null_ z = false /\ nsy z = Z.of_nat i)))
  \/ (exists j r next b news m, made g nsy nul rs ss j r next b news /\ i = (next + m)%nat /\ news !! m = Some s)
  \/ (null_ start = false /\ s = StartOf (Some start) /\ i = length ss).
Proof using Hfuel Hversion Hready Hcensus Hp.
  intros Hi. assert (ss !! i = Some s \/ (null_ start = false /\ s = StartOf (Some start) /\ i = length ss)) as [Hs|Hs]; [| |by right; right].
  { unfold all_senses in Hi. destruct (null_ start); [by left|]. apply lookup_app_Some in Hi as [?|[Hge Hi]]; [by left|right].
    assert (i - length ss = 0)%nat as E0 by (apply lookup_lt_Some in Hi; cbn in Hi; lia). rewrite E0 in Hi. injection Hi as <-. split_and!; [done..|lia]. }
  destruct (rewrites_made _ _ _ _ _ _ _ (rt_rewrites _ _ _ _ _ _ _ _ Hp)) as (_&_&Hn). destruct (Hn i s Hs) as [Hs0|Hm]; [|by right; left]. left.
  destruct (cl_sense _ _ _ _ _ (rt_cloned _ _ _ _ _ _ _ _ Hp) i s Hs0) as (z&Hz&Hk&Hc). exists z. rewrite <- (facts_count Hfuel Hversion junk g0 g Hready Hcensus). split_and!; [lia|lia|done|].
  destruct Hc as [?|(?&?&He)]; [by left|right]. split_and!; [done..|]. unfold nsy_in. by rewrite He.
Qed.

Lemma kept_facts z : 0 <= z < XSY_Count_of_G g0 -> kept_symbol g z = true ->
  reached g0 z /\ productive g0 z /\ (null_ z || nullable_ z = true <-> L z []) /\ (T z -> null_ z = false).
Proof using Hfuel Hversion Hready Hcensus.
  intros Hz Hk. pose proof (facts_done Hfuel Hversion junk g0 g Hready Hcensus) as Hd. unfold kept_symbol in Hk. apply andb_true_iff in Hk as [Ha Hpr].
  apply (cd_accessible _ _ Hd) in Ha; [|done]. apply (cd_productive _ _ Hd) in Hpr as Hpr'; [|done]. split_and!; [done|done| |].
  - rewrite orb_true_iff, (cd_nullable _ _ Hd z Hz), (cd_nulling _ _ Hd z Hz). split; [|by right]. intros [Hn|?]; [|done]. destruct Hpr' as [w Hw].
    pose proof (nulling_plain Hfuel Hversion junk g0 g Hready Hcensus z w Hn Hw) as ->. exact Hw.
  - intros HT. apply not_true_iff_false. rewrite (cd_nulling _ _ Hd z Hz). intros Hn.
    pose proof (census_verdict Hfuel Hversion junk g0 g Hready Hcensus) as Hv. inversion Hv as [| | |_ _ Hno]. by apply (Hno z).
Qed.

(** The meaning is closed under all the rules. *)
Lemma means_iclosed : 0 <= start < XSY_Count_of_G g0 -> kept_symbol g start = true -> iclosed p T all_rules means.
Proof using Hfuel Hversion Hready Hcensus Hp Hseq.
  intros Hst Hk. destruct looks_all as (E&Hl&HE). pose proof (rt_cloned _ _ _ _ _ _ _ _ Hp) as Hcl. pose proof (facts_count Hfuel Hversion junk g0 g Hready Hcensus) as Hcount. split.
  - intros i x Hx Hn. pose proof (looks_sense _ _ _ _ _ _ Hl Hx) as Hs. apply (means_at _ _ _ Hs). unfold sense_of in *. rewrite Hn in *.
    destruct (sense_cases _ _ Hs) as [(z&Hz&Hkz&[[-> Hnz]|[[=] _]])|[(j&r&next&b&news&m&Hm&_&Hnm)|(_&[=]&_)]].
    + split; [done|]. destruct (kept_facts z Hz Hkz) as (_&_&Hn0&_). by apply Hn0.
    + destruct (block_news _ _ _ _ _ _ _ _ _ _ _ (md_block _ _ _ _ _ _ _ _ _ _ Hm) Hnm) as [o [=]].
  - intros z i Hz Hi HT. assert (t_nsy_equivalent p = eqv) as Ee by (destruct (fold_env _ _ _ _ Hl) as (_&->&_); exact HE). rewrite Ee in Hi.
    destruct (cl_some _ _ _ _ _ Hcl z i Hz Hi) as [Hzn Hkz]. destruct (kept_nsy z) as (m&_&Hm&Hs); [lia|done|]. rewrite Hm in Hi. injection Hi as <-. apply (means_at _ _ _ Hs).
    unfold own_sense. destruct (kept_facts z ltac:(lia) Hkz) as (_&_&_&Hnt). rewrite (Hnt HT). split; [done|]. by apply derives_terminal.
  - unfold all_rules. destruct (rewrites_made _ _ _ _ _ _ _ (rt_rewrites _ _ _ _ _ _ _ _ Hp)) as (_&Hrs&_).
    assert (closed rs means) as Hclosed.
    { intros l rhs w Hin Ha. destruct (Hrs _ Hin) as (j&r&next&b&news&Hm&Hb). by eapply (block_sound j r next b news Hm). }
    destruct (null_ start) eqn:Hn; [done|]. apply closed_app. split; [done|]. apply cons_sound; [|apply nil_sound]. intros w Hw%all_one.
    destruct (kept_nsy start Hst Hk) as (m&Em&_&Hs). rewrite Em in Hw. apply (means_at _ _ _ Hs) in Hw. unfold own_sense in Hw. rewrite Hn in Hw.
    apply (means_at _ (StartOf (Some start))); [|exact Hw]. unfold all_senses. rewrite Hn. by rewrite lookup_app_r, Nat.sub_diag.
Qed.

(** ** Everything is derived *)
Section complete.
Context (J : Z -> list Z -> Prop) (HJ : iclosed p T all_rules J).

(** What the symbols of a right-hand side derive, and what their internal symbols do. *)
Definition covers (y : Z) (w : list Z) : Prop := L y w /\ (w <> [] -> null_ y = false /\ J (nsy y) w).

Lemma null_in i z : all_senses !! i = Some (NullOf z) -> J (Z.of_nat i) [].
Proof using Hp HJ.
  intros Hi. destruct looks_all as (E&Hl&_). destruct (looks_nsy _ _ _ _ _ _ Hl Hi) as (x&Hx&_&Hs). eapply (ic_null _ _ _ _ HJ); [exact Hx|].
  unfold sense_of in Hs. destruct (NSY_is_Nulling x), (NSY_is_Semantic x), (NSY_is_Start x); congruence.
Qed.

Lemma made_closed j r next b news : made g nsy nul rs ss j r next b news -> closed b J.
Proof using HJ.
  intros Hm l rhs w Hin Ha. apply (ic_rules _ _ _ _ HJ l rhs w); [|done]. apply (md_rules _ _ _ _ _ _ _ _ _ _ Hm) in Hin.
  unfold all_rules. destruct (null_ start); [done|]. apply elem_of_app. by left.
Qed.

Lemma covers_interprets f y : f ∈ fs -> rule_used g f = true -> y ∈ mentions f -> interprets nsy nul null_ nullable_ covers J y.
Proof using Hfuel Hversion Hready Hcensus Hp HJ.
  intros Hin Hu Hy. assert (y ∈ rf_lhs f :: mentions f) as Hy' by by right.
  assert (0 <= y < XSY_Count_of_G g0) as Hv by by eapply fact_valid. assert (kept_symbol g y = true) as Hk by by eapply used_kept.
  destruct (kept_facts y Hv Hk) as (_&_&Hn&_). split_and!.
  - intros w [_ Hw] Hne. by apply Hw.
  - intros [Hd _]. apply Hn in Hd as Hb. split; [done|]. destruct (kept_nul y Hv Hk Hb) as (i&->&Hi). by eapply null_in.
  - intros Hnl. unfold nsy_in. rewrite <- (cl_same _ _ _ _ _ (rt_cloned _ _ _ _ _ _ _ _ Hp) y); [done| |done|done].
    by rewrite (facts_count Hfuel Hversion junk g0 g Hready Hcensus).
Qed.

(** The rules of a rule derive what it derives; its new symbols, the rests of it. *)
Lemma made_complete j r next b news f : made g nsy nul rs ss j r next b news -> fs !! j = Some f ->
  (forall ys w, ways f ys -> all covers ys w -> w <> [] -> J (nsy (rf_lhs f)) w)
  /\ forall m o z k, news !! m = Some (PartOf z k o) -> forall w,
      (if rf_seq f then exists k, all covers (items f k) w else w <> [] /\ all covers (drop (Z.to_nat o) (rf_rhs f)) w) -> J (Z.of_nat (next + m)) w.
Proof using Hfuel Hversion Hready Hcensus Hp HJ.
  intros Hm Hj. destruct (made_form _ _ _ _ _ Hm) as (f'&Hj'&Hin&Hu&Hblock). assert (f' = f) as -> by congruence. pose proof (made_closed _ _ _ _ _ Hm) as Hc.
  assert (forall y, y ∈ mentions f -> interprets nsy nul null_ nullable_ covers J y) as Hi by (intros; by eapply covers_interprets).
  assert (forall y, y ∈ rf_rhs f -> interprets nsy nul null_ nullable_ covers J y) as Hr by (intros; by apply Hi, rhs_mentions).
  destruct Hblock as [Hq Hnf|b vs offs Hq Hb Ho|Hq]; rewrite Hq.
  - split; [|done]. intros ys w Hw Ha Hne. assert (ys = rf_rhs f) as -> by (destruct Hw; congruence). eapply Hc; [left|]. by eapply plain_complete.
  - destruct (pieces_complete nsy nul null_ nullable_ covers _ _ _ _ _ J Hb Hc Hr) as [H1 H2]. split.
    + intros ys w Hw Ha Hne. assert (ys = rf_rhs f) as -> by (destruct Hw; congruence). by apply H1.
    + intros m o z k. rewrite list_lookup_fmap. intros (o'&Hoo&[= _ _ ->])%fmap_Some w [Hne Ha]. destruct (Forall2_lookup_l _ _ _ _ _ Ho Hoo) as (v&Hv&before&Er&->).
      rewrite Nat2Z.id, Er, drop_app_length in Ha. rewrite Nat2Z.inj_add. by eapply H2.
  - destruct (fact_item Hfuel Hversion junk g0 g Hready Hcensus f Hin Hq) as [_ Hnn].
    destruct (sequence_complete nsy covers f J _ _ Hc) as [H1 H2].
    + intros y w Hy Hw. destruct (decide (w = [])) as [->|Hne]; [|by apply Hw]. destruct Hw as [Hd _]. by destruct (Hnn y Hy).
    + split; [intros ys w Hw Ha Hne; by eapply H2|]. intros [|m] o z k; [|done]. intros _ w [k' Hw]. rewrite Nat.add_0_r. by eapply H1.
Qed.

Lemma reached_kept z : 0 <= z < XSY_Count_of_G g0 -> reached g0 z -> productive g0 z -> kept_symbol g z = true.
Proof using Hfuel Hversion Hready Hcensus.
  intros Hz Hr Hpr. pose proof (facts_done Hfuel Hversion junk g0 g Hready Hcensus) as Hd. unfold kept_symbol. apply andb_true_iff.
  split; [by apply (cd_accessible _ _ Hd)|by apply (cd_productive _ _ Hd)].
Qed.

Lemma derives_covers :
  (forall z w, L z w -> reached g0 z -> w <> [] -> null_ z = false /\ J (nsy z) w)
  /\ forall ys w, derives_all fs T ys w -> (forall y, y ∈ ys -> reached g0 y) -> all covers ys w.
Proof using Hfuel Hversion Hready Hcensus Hp HJ Hseq.
  apply derives_mutual.
  - intros x HT Hr _. assert (L x [x]) as Hd by by apply derives_terminal. assert (0 <= x < XSY_Count_of_G g0) as Hx by exact (derives_valid g0 x [x] (rd_wf _ Hready) Hd).
    assert (kept_symbol g x = true) as Hk by (apply reached_kept; [done|done|by exists [x]]). destruct (kept_facts x Hx Hk) as (_&_&_&Hn). split; [by apply Hn|].
    destruct (kept_nsy x Hx Hk) as (i&->&Hi&_). apply (ic_token _ _ _ _ HJ); [lia| |done]. destruct looks_all as (E&Hl&HE). destruct (fold_env _ _ _ _ Hl) as (_&->&_). by rewrite HE.
  - intros f ys w Hin Hw Hd IH Hr Hne. assert (rule_used g f = true) as Hu.
    { eapply derives_used; try done. intros Hq. by apply (Hseq f Hin Hq). }
    split; [by eapply used_not_nulling|]. apply list_elem_of_lookup in Hin as Hj. destruct Hj as [j Hj].
    destruct (census_rule_read Hfuel Hversion junk g0 g j f Hready Hcensus Hj) as (r&Hr'&_&_&_&_&Hur&_). rewrite Hu in Hur.
    destruct (rewrites_made _ _ _ _ _ _ _ (rt_rewrites _ _ _ _ _ _ _ _ Hp)) as (Hmade&_&_). destruct (Hmade j r) as (next&b&news&Hm); [by eapply lookup_lt_Some|done|done|].
    destruct (made_complete _ _ _ _ _ f Hm Hj) as [Hmc _]. eapply Hmc; [exact Hw| |exact Hne]. apply IH. intros y Hy. unfold reached. eapply rtc_r; [exact Hr|]. exists f. split_and!; [done..|by eapply way_mentions].
  - intros _. constructor.
  - intros y ys w1 w2 Hd IH1 _ IH2 Hr. constructor; [|apply IH2; intros z Hz; apply Hr; by right]. split; [done|]. apply IH1, Hr. left.
Qed.

(** Each internal symbol derives all it stands for. *)
Lemma sense_complete i s w : 0 <= start < XSY_Count_of_G g0 -> kept_symbol g start = true -> all_senses !! i = Some s -> sense_language g0 s w -> J (Z.of_nat i) w.
Proof using Hfuel Hversion Hready Hcensus Hp HJ Hseq.
  intros Hst Hks Hi Hw. destruct derives_covers as [Hd Hall]. destruct (sense_cases i s Hi) as [(z&Hz&Hk&Hc)|[(j&r&next&b&news&m&Hm&->&Hnm)|(Hn&->&->)]].
  - destruct Hc as [[-> _]|(->&_&<-)]; [destruct Hw as [-> _]; by eapply null_in|]. destruct Hw as [Hne Hw]. apply Hd; [exact Hw|by apply kept_facts|exact Hne].
  - destruct (made_form _ _ _ _ _ Hm) as (f&Hj&Hin&Hu&Hblock). destruct (block_news _ _ _ _ _ _ _ _ _ _ _ Hblock Hnm) as [o ->].
    destruct Hw as (f'&Hj'&_&Hw). rewrite Nat2Z.id in Hj'. assert (f' = f) as -> by congruence.
    destruct (made_complete _ _ _ _ _ f Hm Hj) as [_ Hmc]. eapply Hmc; [exact Hnm|].
    assert (forall y, y ∈ mentions f -> reached g0 y) as Hr.
    { intros y Hy. unfold reached. eapply rtc_r; [by eapply used_lhs|]. by exists f. }
    destruct (rf_seq f) eqn:Hq.
    + destruct Hw as [k Hw]. exists k. apply Hall; [done|]. intros y [Hy|[_ Hy]]%elem_of_items; apply Hr; [by apply rhs_mentions|apply elem_of_app; by left].
    + destruct Hw as [Hne Hw]. split; [done|]. apply Hall; [done|]. intros y Hy. apply Hr, rhs_mentions. eapply subseteq_drop, Hy.
  - destruct Hw as [Hne Hw]. apply (ic_rules _ _ _ _ HJ _ [nsy start]); [unfold all_rules; rewrite Hn; apply elem_of_app; right; left|].
    apply all_one. apply Hd; [exact Hw|by apply kept_facts|exact Hne].
Qed.
End complete.

(** ** The shape of the rules *)

(** A symbol of a right-hand side, of a left-hand side; the one of the start rule is the only one
    that is a start. *)
Definition symbol_id (i : Z) : Prop := exists j s, i = Z.of_nat j /\ all_senses !! j = Some s /\ forall z, s <> StartOf z.
Definition lhs_id (i : Z) : Prop := exists j s, i = Z.of_nat j /\ all_senses !! j = Some s /\ forall z, s <> NullOf z.
Definition inner_id (i : Z) : Prop := symbol_id i /\ lhs_id i.

Lemma own_not_start z z' : own_sense g z <> StartOf z'.
Proof using. unfold own_sense. by destruct (null_ z). Qed.

Lemma block_ids j r next b news : made g nsy nul rs ss j r next b news -> Forall (rule_of symbol_id inner_id) b.
Proof using Hfuel Hversion Hready Hcensus Hp.
  intros Hm. destruct (made_form _ _ _ _ _ Hm) as (f&Hj&Hin&Hu&Hblock).
  assert (inner_id (nsy (rf_lhs f))) as Hl.
  { destruct (used_symbol f Hin Hu (rf_lhs f)) as (i&->&Hi); [left|]. split; exists i; eexists; (split_and!; [done|exact Hi|]); [intros z; apply own_not_start|]. unfold own_sense.
    by rewrite (used_not_nulling Hfuel Hversion junk g0 g Hready Hcensus f Hin Hu). }
  assert (forall y, y ∈ mentions f -> symbol_id (nsy y)) as Hy.
  { intros y Hy. destruct (used_symbol f Hin Hu y) as (i&->&Hi); [by right|]. exists i, (own_sense g y). split_and!; [done..|]. intros z. apply own_not_start. }
  assert (forall i s, news !! i = Some s -> inner_id (Z.of_nat next + Z.of_nat i)) as Hnew.
  { intros i s Hi. split; exists (next + i)%nat, s; (split_and!; [lia|apply sense_ss; by apply (md_news _ _ _ _ _ _ _ _ _ _ Hm)|]);
      intros z ->; by destruct (block_news _ _ _ _ _ _ _ _ _ _ _ Hblock Hi) as [o [=]]. }
  assert (forall l, (forall y, y ∈ l -> y ∈ mentions f) -> Forall symbol_id (nsy <$> l)) as Hf by (intros l Hl'; apply Forall_fmap, Forall_forall; auto).
  destruct Hblock as [Hq Hnf|b vs offs Hq Hb Ho|Hq].
  - apply Forall_singleton. split; [exact Hl|]. split; [|apply Hf; by apply rhs_mentions]. cbn. intros Hnil%fmap_nil_inv.
    pose proof (used_has_kept f Hu Hq Hnf) as Hk. by rewrite Hnil in Hk.
  - eapply pieces_ids; [exact Hb|exact Hl| |].
    + intros y Hyr%rhs_mentions. split; [by apply Hy|]. intros Hn. destruct (used_null f Hin Hu y) as (i&->&Hi); [by right|done|]. exists i. eexists. by split_and!.
    + intros i Hi. assert (inner_id (Z.of_nat next + Z.of_nat i)) as Hid; [|split; [apply Hid|done]].
      destruct (lookup_lt_is_Some_2 _ _ Hi) as [v Hv]. destruct (rests_drop _ _ _ _ _ Ho Hv) as (o&Hoo&_). eapply Hnew. by rewrite list_lookup_fmap, Hoo.
  - specialize (Hnew 0%nat _ eq_refl). rewrite Z.add_0_r in Hnew. pose proof (proj1 Hnew) as Hint.
    destruct (fact_item Hfuel Hversion junk g0 g Hready Hcensus f Hin Hq) as [Hr _].
    assert (Forall symbol_id (nsy <$> sep_list f)) as Hs by (apply Hf; intros y Hyy; apply elem_of_app; by left).
    assert (Forall symbol_id (nsy <$> rf_rhs f)) as Hi by (apply Hf; by apply rhs_mentions).
    assert (forall l r, inner_id l -> r <> [] -> Forall symbol_id r -> rule_of symbol_id inner_id (l, r)) as Hrule by (intros l r0 ???; by split_and!).
    unfold sequence_rules. repeat (apply Forall_app; split).
    + apply Forall_singleton, Hrule; [done..|]. by repeat constructor.
    + destruct (separated f && negb (rf_proper f)); [|done]. apply Forall_singleton, Hrule; [done..|]. apply Forall_cons. split; done.
    + apply Forall_cons. split; [apply Hrule; [done|by rewrite Hr|done]|]. apply Forall_singleton, Hrule; [done..|]. apply Forall_cons. split; [done|]. by apply Forall_app.
Qed.

Lemma inner_ids : Forall (rule_of symbol_id inner_id) rs.
Proof using Hfuel Hversion Hready Hcensus Hp.
  destruct (rewrites_made _ _ _ _ _ _ _ (rt_rewrites _ _ _ _ _ _ _ _ Hp)) as (_&Hrs&_).
  apply Forall_forall. intros x Hx. destruct (Hrs x Hx) as (j&r&next&b&news&Hm&Hb). pose proof (block_ids _ _ _ _ _ Hm) as Hf. rewrite Forall_forall in Hf. by apply Hf.
Qed.

Lemma rules_ids : 0 <= start < XSY_Count_of_G g0 -> kept_symbol g start = true -> Forall (rule_of symbol_id lhs_id) all_rules.
Proof using Hfuel Hversion Hready Hcensus Hp.
  intros Hst Hk. assert (Forall (rule_of symbol_id lhs_id) rs) as Hall.
  { eapply Forall_impl; [exact inner_ids|]. intros x ([_ ?]&?&?). by split_and!. }
  unfold all_rules. destruct (null_ start) eqn:Hn; [done|]. apply Forall_app. split; [done|]. destruct (kept_nsy start Hst Hk) as (i&->&_&Hi).
  constructor; [|constructor]. split_and!; cbn.
  - exists (length ss), (StartOf (Some start)). split_and!; [done| |done]. unfold all_senses. rewrite Hn. by rewrite lookup_app_r, Nat.sub_diag.
  - done.
  - constructor; [|constructor]. eexists _, _. split_and!; [done..|]. intros z. apply own_not_start.
Qed.

(** The left-hand side of the start rule is the symbol of no other rule, and of no right-hand
    side. *)
Lemma start_rule_only r i : null_ start = false -> 0 <= start < XSY_Count_of_G g0 -> kept_symbol g start = true -> all_rules !! i = Some r ->
  Z.of_nat (length ss) ∉ r.2 /\ (r.1 = Z.of_nat (length ss) -> i = length rs).
Proof using Hfuel Hversion Hready Hcensus Hp.
  intros Hn Hst Hk Hi. assert (forall y, symbol_id y -> y <> Z.of_nat (length ss)) as Hy.
  { intros y (j&s&->&Hs&Hno) E%Nat2Z.inj. subst j. unfold all_senses in Hs. rewrite Hn, lookup_app_r, Nat.sub_diag in Hs by lia. injection Hs as <-. by destruct (Hno (Some start)). }
  pose proof (rules_ids Hst Hk) as Hids. rewrite Forall_lookup in Hids. destruct (Hids _ _ Hi) as (_&_&Hrhs). rewrite Forall_forall in Hrhs. split.
  - intros Hin. by destruct (Hy _ (Hrhs _ Hin)).
  - intros E. unfold all_rules in Hi. rewrite Hn in Hi. apply lookup_app_Some in Hi as [Hi|[Hle [Hz _]%list_lookup_singleton_Some]]; [|lia].
    pose proof inner_ids as Hin. rewrite Forall_lookup in Hin. destruct (Hin _ _ Hi) as ([Hl _]&_). by destruct (Hy _ Hl).
Qed.

(** ** Exactly what it stands for *)
Lemma sense_exact i s w : 0 <= start < XSY_Count_of_G g0 -> kept_symbol g start = true -> all_senses !! i = Some s -> iderives p T (Z.of_nat i) w <-> sense_language g0 s w.
Proof using Hfuel Hversion Hready Hcensus Hp Hseq.
  intros Hst Hk Hi. destruct looks_all as (E&Hl&_). pose proof (looks_rules_are _ _ _ _ Hl) as Hrs. split.
  - intros Hd. apply (means_at _ _ _ Hi). by apply (iderives_least p T all_rules means Hrs (means_iclosed Hst Hk)).
  - intros Hw. eapply sense_complete; [by apply iderives_iclosed|done..].
Qed.
End language.

(** ** The call *)
Section outcome.
Context `{Library}.
Context (Hfuel : (MARPA_AVL_MAX_HEIGHT <= tree_rounds)%nat) (Hversion : lib_version = marpa_h_version).

Lemma start_kept junk g0 g : ready g0 -> precompute_census junk g0 = Ok (None, g) -> 0 <= t_start_xsy_id g0 < XSY_Count_of_G g0 /\ kept_symbol g (t_start_xsy_id g0) = true.
Proof using Hfuel Hversion.
  intros Hr Hc. pose proof (rd_start _ Hr) as Hs. split; [done|]. pose proof (facts_done Hfuel Hversion junk g0 g Hr Hc) as Hd.
  pose proof (census_verdict Hfuel Hversion junk g0 g Hr Hc) as Hv. inversion Hv as [| | |_ Hp _]. unfold kept_symbol. apply andb_true_iff.
  split; [apply (cd_accessible _ _ Hd); [done|constructor]|by apply (cd_productive _ _ Hd)].
Qed.

Lemma rewriting_ends junk g0 g : ready g0 -> precompute_census junk g0 = Ok (None, g) ->
  exists p eqv nulv ss0 rs ss, precompute_internal junk g0 = Ok (inr p) /\ rewritten g (t_start_xsy_id g0) eqv nulv ss0 rs ss p.
Proof using Hfuel Hversion.
  intros Hr Hc. destruct (start_kept junk g0 g Hr Hc) as [Hs Hk]. pose proof (facts_done Hfuel Hversion junk g0 g Hr Hc) as Hd.
  pose proof (facts_count Hfuel Hversion junk g0 g Hr Hc) as Hcount. pose proof (facts_rules Hfuel Hversion junk g0 g Hr Hc) as Hrules.
  assert (forall r, r ∈ t_xrl_stack g -> form_of r ∈ forms_of g0 /\ XRL_is_Used r = rule_used g (form_of r)) as Hread.
  { intros r (i&Hi)%list_elem_of_lookup. assert (forms_of g0 !! i = Some (form_of r)) as Hf by (rewrite <- (cd_forms _ _ Hd); unfold forms_of; by rewrite list_lookup_fmap, Hi).
    split; [by eapply list_elem_of_lookup_2|]. destruct (census_rule_read Hfuel Hversion junk g0 g i _ Hr Hc Hf) as (r'&Hr'&_&_&_&_&Hu&_). congruence. }
  injection (cd_kept _ _ Hd) as Estart Emax. unfold precompute_internal. rewrite Hc. cbn [mbind res_bind]. rewrite Estart.
  destruct (precompute_rewrite_ok g (forms_of g0) Hrules) with (start := t_start_xsy_id g0) as (p&Hp&eqv&nulv&ss0&rs&ss&Hw); [| | | |exact Hk|].
  - intros r y Hin Hu Hy. destruct (Hread r Hin) as [Hf Hru]. rewrite Hu in Hru. by eapply used_kept.
  - by apply wf_seq_single, Hr.
  - intros f Hf. rewrite Emax. apply list_elem_of_fmap in Hf as (r&->&Hin). pose proof (fr_lengths _ (rd_fresh _ Hr)) as Hl. rewrite Forall_forall in Hl. specialize (Hl r Hin).
    pose proof (hr_shaped _ _ _ (wf_has_rules g0 (rd_wf _ Hr))) as Hsh. rewrite Forall_forall in Hsh. destruct (Hsh r Hin) as [_ E]. by rewrite <- E.
  - by rewrite Hcount.
  - exists p, eqv, nulv, ss0, rs, ss. rewrite Hp. done.
Qed.

(** The census behind an internal grammar. *)
Lemma rewriting_back junk g0 p : ready g0 -> precompute_internal junk g0 = Ok (inr p) ->
  exists g eqv nulv ss0 rs ss, precompute_census junk g0 = Ok (None, g) /\ rewritten g (t_start_xsy_id g0) eqv nulv ss0 rs ss p.
Proof using Hfuel Hversion.
  intros Hr Hi. assert (exists g, precompute_census junk g0 = Ok (None, g)) as [g Hc].
  { unfold precompute_internal in Hi. apply bind_Ok in Hi as ([[ret|] g]&Hc&Hi); [discriminate Hi|by exists g]. }
  destruct (rewriting_ends junk g0 g Hr Hc) as (p'&eqv&nulv&ss0&rs&ss&Hp'&Hw). exists g, eqv, nulv, ss0, rs, ss. split; [done|]. congruence.
Qed.

(** Each internal symbol derives what it stands for. *)
Lemma symbol_exact junk g p i x w : ready g -> plain_sequences g -> precompute_internal junk g = Ok (inr p) -> t_nsy_stack p !! i = Some x ->
  iderives p (terminal g) (Z.of_nat i) w <-> nsy_language g x w.
Proof using Hfuel Hversion.
  intros Hr Hs Hi Hx. destruct (rewriting_back junk g p Hr Hi) as (g'&eqv&nulv&ss0&rs&ss&Hc&Hw).
  destruct (start_kept junk g g' Hr Hc) as [Hst Hk]. destruct (looks_all g g' p eqv nulv ss0 rs ss Hw) as (E&Hl&_).
  pose proof (looks_sense _ _ _ _ _ _ Hl Hx) as Hsx. by eapply (sense_exact Hfuel Hversion junk g g' Hr Hc Hs p eqv nulv ss0 rs ss Hw).
Qed.

(** The start rule: when the start symbol derives something other than the empty string,
    there is one, and its left-hand side derives the strings of the grammar but the empty
    one; when there is none, the grammar has no other string. *)
Lemma start_symbol_exact junk g p : ready g -> plain_sequences g -> precompute_internal junk g = Ok (inr p) ->
  match t_start_irl p with
  | Some id => exists irl l, IRL_by_ID p id = Ok irl /\ LHSID_of_IRL irl = Ok l
      /\ forall w, iderives p (terminal g) l w <-> w <> [] /\ derives (forms_of g) (terminal g) (t_start_xsy_id g) w
  | None => forall w, derives (forms_of g) (terminal g) (t_start_xsy_id g) w -> w = []
  end.
Proof using Hfuel Hversion.
  intros Hr Hs Hi. destruct (rewriting_back junk g p Hr Hi) as (g'&eqv&nulv&ss0&rs&ss&Hc&Hw).
  destruct (start_kept junk g g' Hr Hc) as [Hst Hk]. pose proof (facts_done Hfuel Hversion junk g g' Hr Hc) as Hd.
  pose proof (rt_looks _ _ _ _ _ _ _ _ Hw) as Hl. destruct (symbol_flag XSY_is_Nulling g' (t_start_xsy_id g)) eqn:Hn.
  - assert (t_start_irl p = None) as -> by by injection (lk_env _ _ _ _ Hl). intros w. eapply nulling_plain; [exact Hfuel|exact Hversion|exact Hr|exact Hc|]. by apply (cd_nulling _ _ Hd).
  - assert (t_start_irl p = Some (Z.of_nat (length rs))) as -> by by injection (lk_env _ _ _ _ Hl).
    pose proof (f_equal (lookup (length rs)) (lk_rules _ _ _ _ Hl)) as Hv. rewrite list_lookup_fmap, list_lookup_imap, lookup_app_r, Nat.sub_diag in Hv by lia.
    destruct (t_irl_stack p !! length rs) as [irl|] eqn:Hirl; [|done]. injection Hv as _ _ Hv. exists irl, (Z.of_nat (length ss)). split_and!.
    + unfold IRL_by_ID. apply rd_Ok. rewrite Nat2Z.id. split; [lia|done].
    + unfold LHSID_of_IRL. by rewrite Hv.
    + intros w. rewrite (sense_exact Hfuel Hversion junk g g' Hr Hc Hs p eqv nulv ss0 rs ss Hw _ (StartOf (Some (t_start_xsy_id g))) w Hst Hk); [done|].
      unfold all_senses. rewrite Hn. by rewrite lookup_app_r, Nat.sub_diag.
Qed.
End outcome.
