(* ===== verification/RewriteProperties.v ===== *)
(** * What the internal grammar is: the theorems

    How the precomputation ends, what the internal symbols derive, the shape of the internal
    rules, and grammars on which they are run. *)
From stdpp Require Import sets gmap list relations.
From S2P Require Import Prelude Avl AvlTree AvlProbe AvlTheorems MarpaGrammar MarpaRules MarpaGrammarTheorems MarpaRuleTheorems MarpaCalls Census CensusSpec CensusLists CensusClosure CensusMarks CensusRules CensusBody CensusTheorems CensusProperties Rewrite RewriteSpec RewriteSteps RewriteLanguage RewriteTheorems.

Section properties.
Context `{Library}.
Context (Hfuel : (MARPA_AVL_MAX_HEIGHT <= tree_rounds)%nat) (Hversion : lib_version = marpa_h_version).


(** C2. The internal grammar is right, for a grammar whose sequence rules have a minimum of 0 or 1
    and productive separators ([plain_sequences]; [minimum_of_two_lost] is what happens to a
    minimum of 2): each internal symbol derives, by the internal rules and
    the tokens, exactly what its record says it stands for.  A null symbol derives the empty
    string; the internal symbol of a symbol of the grammar derives the strings the symbol
    derives, but the empty one; the new symbol of a sequence derives the lists of one item or
    more; the new symbol of a piece derives the rest of its rule, from the position it
    records, but for the empty string. *)
Theorem internal_grammar_exact junk g p i x w : ready g -> plain_sequences g -> precompute_internal junk g = Ok (inr p) -> t_nsy_stack p !! i = Some x ->
  iderives p (terminal g) (Z.of_nat i) w <-> nsy_language g x w.
Proof using Hfuel Hversion. by apply (symbol_exact Hfuel Hversion). Qed.

(** C19. The shape the Earley engine counts on: the ids of internal rules and symbols are their
    positions; every symbol of every rule has been written and exists; no right-hand side is
    empty; no null symbol is a left-hand side. *)
Theorem internal_rules_whole junk g p : ready g -> precompute_internal junk g = Ok (inr p) ->
  (forall i x, t_nsy_stack p !! i = Some x -> ID_of_NSY x = Z.of_nat i)
  /\ (forall i irl, t_irl_stack p !! i = Some irl -> ID_of_IRL irl = Z.of_nat i /\ exists l rhs, t_nsyid_array irl = Some <$> (l :: rhs) /\ Length_of_IRL irl = Z.of_nat (length rhs)
        /\ rhs <> [] /\ (exists x, NSY_by_ID p l = Ok x /\ NSY_is_Nulling x = false) /\ Forall (fun s => exists x, NSY_by_ID p s = Ok x) rhs).
Proof using Hfuel Hversion.
  intros Hr Hi. destruct (rewriting_back Hfuel Hversion junk g p Hr Hi) as (g'&eqv&nulv&ss0&rs&ss&Hc&Hw).
  destruct (start_kept Hfuel Hversion junk g g' Hr Hc) as [Hst Hk]. destruct (looks_all g g' p eqv nulv ss0 rs ss Hw) as (E&Hl&_).
  pose proof (rules_ids Hfuel Hversion junk g g' Hr Hc p eqv nulv ss0 rs ss Hw Hst Hk) as Hids. split.
  - intros i x Hx. destruct (looks_nsy _ _ _ _ _ _ Hl (looks_sense _ _ _ _ _ _ Hl Hx)) as (x'&Hx'&Hid&_). by simplify_eq.
  - intros i irl Hirl. pose proof (f_equal (lookup i) (lk_rules _ _ _ _ Hl)) as Hv. rewrite list_lookup_fmap, list_lookup_imap, Hirl in Hv.
    destruct (all_rules g g' eqv rs ss !! i) as [[l rhs]|] eqn:Hrule; [|done]. injection Hv as Hid Hlen Harr. split; [exact Hid|]. exists l, rhs.
    rewrite Forall_lookup in Hids. destruct (Hids _ _ Hrule) as (Hlhs&Hne&Hrhs). cbn [fst snd] in Hlhs, Hne, Hrhs. split_and!; [exact Harr|exact Hlen|exact Hne| |].
    + destruct Hlhs as (j&s&->&Hs&Hnull). destruct (looks_nsy _ _ _ _ _ _ Hl Hs) as (x&Hx&_&Hsx). exists x. split; [unfold NSY_by_ID; apply rd_Ok; rewrite Nat2Z.id; by split; [lia|]|].
      unfold sense_of in Hsx. destruct (NSY_is_Nulling x); [|done]. by destruct (Hnull (Source_XSY_of_NSY x)).
    + eapply Forall_impl; [exact Hrhs|]. intros u (j&s&->&Hs&_). destruct (looks_nsy _ _ _ _ _ _ Hl Hs) as (x&Hx&_). exists x. unfold NSY_by_ID. apply rd_Ok. rewrite Nat2Z.id. by split; [lia|].
Qed.
End properties.

(** ** Concrete grammars *)

(** S ::= A A A B, A ::= , A ::= a, B ::= a separated by c, from S. *)
Definition chaf_demo : GRAMMAR :=
  built [CSymbolNew; CSymbolNew; CSymbolNew; CSymbolNew; CSymbolNew; CRuleNew 0 [1; 1; 1; 3] 4; CRuleNew 1 [] 0; CRuleNew 1 [2] 1; CSequenceNew 3 2 4 1 0; CStartSymbolSet 0].

Lemma chaf_demo_ready : ready chaf_demo.
Proof. built_ready. Qed.

Definition internal_result (g : GRAMMAR) : INTERNAL := match precompute_internal no_junk g with Ok (inr p) => p | _ => internal_init g end.

Lemma chaf_demo_internal : precompute_internal no_junk chaf_demo = Ok (inr (internal_result chaf_demo)).
Proof. vm_compute. reflexivity. Qed.

Lemma chaf_demo_forms : forms_of chaf_demo = [RF 0 [1; 1; 1; 3] false (-1) (-1) false; RF 1 [] false (-1) (-1) false; RF 1 [2] false (-1) (-1) false; RF 3 [2] true 1 4 false].
Proof. vm_compute. reflexivity. Qed.

Lemma chaf_demo_terminal z : z = 2 \/ z = 4 -> terminal chaf_demo z.
Proof.
  intros Hz. assert (XSY_is_Locked_Terminal <$> t_xsy_stack chaf_demo !! Z.to_nat z = Some false) as (x&Hx&Hl)%fmap_Some by (destruct Hz as [->| ->]; vm_compute; reflexivity).
  exists x. rewrite <- Hl. split; [clear -Hz; lia|]. split; [exact Hx|]. rewrite chaf_demo_forms. intros f Hf.
  clear Hx Hl. repeat (apply elem_of_cons in Hf as [->|Hf]; [cbn; clear -Hz; lia|]). destruct (proj1 (elem_of_nil _) Hf).
Qed.

Lemma chaf_demo_plain : plain_sequences chaf_demo.
Proof.
  intros f Hf Hq. rewrite chaf_demo_forms in Hf. repeat (apply elem_of_cons in Hf as [->|Hf]; [cbn [rf_seq] in Hq; try discriminate Hq|]); [|destruct (proj1 (elem_of_nil _) Hf)].
  split; [clear; cbn; lia|]. intros _. exists [4]. apply derives_terminal, chaf_demo_terminal. by right.
Qed.

(** a c a, as A A A B. *)
Lemma chaf_demo_string : derives (forms_of chaf_demo) (terminal chaf_demo) 0 [2; 2; 4; 2].
Proof.
  pose proof (chaf_demo_terminal 2 ltac:(by left)) as T2. pose proof (chaf_demo_terminal 4 ltac:(by right)) as T4. rewrite chaf_demo_forms. set (fs := _ :: _).
  assert (derives fs (terminal chaf_demo) 1 []) as Hnull.
  { apply (derives_rule fs _ (RF 1 [] false (-1) (-1) false) []); [right; left|by apply ways_bnf|constructor]. }
  assert (derives fs (terminal chaf_demo) 1 [2]) as Ha.
  { apply (derives_rule fs _ (RF 1 [2] false (-1) (-1) false) [2]); [right; right; left|by apply (ways_bnf (RF 1 [2] false (-1) (-1) false))|].
    apply (derives_cons _ _ 2 [] [2] []); [by apply derives_terminal|constructor]. }
  assert (derives fs (terminal chaf_demo) 3 [2; 4; 2]) as Hb.
  { apply (derives_rule fs _ (RF 3 [2] true 1 4 false) [2; 4; 2]); [right; right; right; left|by apply (ways_items (RF 3 [2] true 1 4 false) 1)|].
    repeat first [apply derives_nil | apply (derives_cons _ _ _ _ [_]); [by apply derives_terminal|]]. }
  apply (derives_rule fs _ (RF 0 [1; 1; 1; 3] false (-1) (-1) false) [1; 1; 1; 3]); [left|by apply (ways_bnf (RF 0 [1; 1; 1; 3] false (-1) (-1) false))|].
  apply (derives_cons _ _ 1 _ [2]); [done|]. apply (derives_cons _ _ 1 _ []); [done|]. apply (derives_cons _ _ 1 _ []); [done|].
  apply (derives_cons _ _ 3 _ [2; 4; 2] []); [done|constructor].
Qed.


(** The new symbol of the first piece of S ::= A A A B stands for A B. *)
Lemma internal_grammar_exact_witness : iderives (internal_result chaf_demo) (terminal chaf_demo) 6 [2; 2].
Proof.
  assert (sense_of <$> t_nsy_stack (internal_result chaf_demo) !! 6%nat = Some (PartOf (Some 0) (Some 0) 2)) as (x&Hx&Hs)%fmap_Some by (vm_compute; reflexivity).
  apply (internal_grammar_exact demo_fuel demo_version no_junk chaf_demo _ 6 x [2; 2] chaf_demo_ready chaf_demo_plain chaf_demo_internal Hx).
  unfold nsy_language. rewrite <- Hs. clear Hx Hs. eexists. split; [rewrite chaf_demo_forms; reflexivity|]. split; [reflexivity|]. cbn [rf_seq]. split; [clear; discriminate|].
  pose proof (chaf_demo_terminal 2 ltac:(by left)) as T2. rewrite chaf_demo_forms. cbn [drop Z.to_nat Pos.to_nat Pos.iter_op rf_rhs].
  apply (derives_cons _ _ 1 [3] [2] [2]).
  - apply (derives_rule _ _ (RF 1 [2] false (-1) (-1) false) [2]); [right; right; left|by apply (ways_bnf (RF 1 [2] false (-1) (-1) false))|].
    apply (derives_cons _ _ 2 [] [2] []); [by apply derives_terminal|constructor].
  - apply (derives_cons _ _ 3 [] [2] []); [|constructor].
    apply (derives_rule _ _ (RF 3 [2] true 1 4 false) [2]); [right; right; right; left|by apply (ways_items (RF 3 [2] true 1 4 false) 0)|].
    apply (derives_cons _ _ 2 [] [2] []); [by apply derives_terminal|constructor].
Defined.

Lemma internal_rules_whole_witness : exists irl l rhs, t_irl_stack (internal_result chaf_demo) !! 3%nat = Some irl /\ t_nsyid_array irl = Some <$> (l :: rhs) /\ rhs <> [].
Proof.
  destruct (internal_rules_whole demo_fuel demo_version no_junk chaf_demo _ chaf_demo_ready chaf_demo_internal) as [_ Hi].
  assert (ID_of_IRL <$> t_irl_stack (internal_result chaf_demo) !! 3%nat = Some 3) as (irl&Hirl&_)%fmap_Some by (vm_compute; reflexivity).
  destruct (Hi 3%nat irl Hirl) as (_&l&rhs&Ha&_&Hne&_). exists irl, l, rhs. exact (conj Hirl (conj Ha Hne)).
Defined.

(** ** What the rewriting does not do *)

(** S ::= a, twice or more. *)
Definition twice : rule_form := RF 0 [1] true 2 (-1) false.
Definition twice_demo : GRAMMAR := built [CSymbolNew; CSymbolNew; CSequenceNew 0 1 (-1) 2 0; CStartSymbolSet 0].

Lemma twice_forms : forms_of twice_demo = [twice].
Proof. vm_compute. reflexivity. Qed.

Lemma twice_length T w : ~ T 0 -> derives [twice] T 0 w -> (2 <= length w)%nat.
Proof.
  intros HT Hd. assert (forall w, derives [twice] T 1 w -> length w = 1%nat) as Hone.
  { intros v Hv. inversion Hv as [|f ys ? Hin _ _ E]; [done|]. by apply list_elem_of_singleton in Hin as ->. }
  assert (forall k w, derives_all [twice] T (items twice k) w -> length w = S k) as Hitems.
  { intros k. induction k as [|k IH]; intros v Hv; inversion Hv as [|? ? w1 w2 H1 H2]; subst; rewrite length_app, (Hone _ H1); [by inversion H2|by rewrite (IH w2 H2)]. }
  inversion Hd as [|f ys ? Hin Hw Ha]; subst; [done|]. apply list_elem_of_singleton in Hin as ->.
  destruct Hw as [[=]|_ ?|k _ Hm|k _ Hm _]; cbn [rf_min twice] in *; [lia| |]; rewrite ?app_nil_r in *; rewrite (Hitems k) by exact Ha; lia.
Qed.

(** The rule number [i] is used. *)
Lemma iderives_by p T i l rhs w : t_nsyid_array <$> t_irl_stack p !! i = Some (Some <$> (l :: rhs)) -> iderives_all p T rhs w -> iderives p T l w.
Proof. intros (irl&Hirl&E)%fmap_Some Ha. eapply iderives_rule; [by eapply list_elem_of_lookup_2|by rewrite <- E|done]. Qed.

Lemma iderives_single p T y w : iderives p T y w -> iderives_all p T [y] w.
Proof. intros Hy. rewrite <- (app_nil_r w). constructor; [done|constructor]. Qed.

(** A defect: the minimum of a sequence is not looked at.  With a minimum of 2, which no call
    refuses, [S ::= a a+] does not derive [a], but the left-hand side of the start rule of the
    internal grammar does. *)
Theorem minimum_of_two_lost : exists p irl l, precompute_internal no_junk twice_demo = Ok (inr p) /\ t_start_irl p = Some 3 /\ IRL_by_ID p 3 = Ok irl /\ LHSID_of_IRL irl = Ok l
  /\ iderives p (terminal twice_demo) l [1] /\ ~ derives (forms_of twice_demo) (terminal twice_demo) (t_start_xsy_id twice_demo) [1].
Proof.
  assert (terminal twice_demo 1) as T1.
  { assert (XSY_is_Locked_Terminal <$> t_xsy_stack twice_demo !! 1%nat = Some false) as (x&Hx&Hl)%fmap_Some by (vm_compute; reflexivity).
    exists x. rewrite <- Hl, twice_forms. split; [clear; lia|]. split; [exact Hx|]. clear. intros f Hf. apply list_elem_of_singleton in Hf as ->. discriminate. }
  assert (~ terminal twice_demo 0) as T0.
  { assert (XSY_is_Locked_Terminal <$> t_xsy_stack twice_demo !! 0%nat = Some false) as (x&Hx&Hl)%fmap_Some by (vm_compute; reflexivity).
    intros (x'&_&Hx'&Hf). change (Z.to_nat 0) with 0%nat in Hx'. rewrite Hx in Hx'. injection Hx' as <-. rewrite <- Hl, twice_forms in Hf. exact (Hf twice ltac:(left) eq_refl). }
  exists (internal_result twice_demo). do 2 eexists. split; [vm_compute; reflexivity|]. split; [vm_compute; reflexivity|]. split; [vm_compute; reflexivity|]. split; [vm_compute; reflexivity|]. split.
  - apply (iderives_by _ _ 3 _ [0]); [vm_compute; reflexivity|]. apply iderives_single, (iderives_by _ _ 0 _ [2]); [vm_compute; reflexivity|].
    apply iderives_single, (iderives_by _ _ 1 _ [1]); [vm_compute; reflexivity|]. apply iderives_single, iderives_token; [clear; lia|vm_compute; reflexivity|exact T1].
  - assert (t_start_xsy_id twice_demo = 0) as -> by (vm_compute; reflexivity). rewrite twice_forms. intros Hd%twice_length; [|exact T0]. clear -Hd. cbn in Hd. lia.
Qed.
