(* ===== verification/RewriteShape.v ===== *)
(** * The shape of the internal grammar

    What the items of the Earley engine count on: each right-hand side has a symbol that is
    not null, each left-hand side is marked as one, the symbols and rules of the grammar that
    the internal ones point to exist. *)
From stdpp Require Import sets gmap list relations.
From S2P Require Import Prelude MarpaGrammar MarpaRules MarpaGrammarTheorems MarpaRuleTheorems MarpaCalls Census CensusSpec CensusLists CensusClosure CensusMarks CensusRules CensusBody CensusTheorems CensusProperties Avl Rewrite RewriteSpec RewriteSteps RewriteLanguage RewriteTheorems.

(** ** A symbol that is not null *)
Section proper.
Context (nsy nul : Z -> Z) (nulling nullable : Z -> bool) (Q : Z -> Prop).
#[local] Abbreviation factor := (factor nulling nullable).
#[local] Abbreviation kept := (kept nulling nullable).

Definition proper_rule (r : Z * list Z) : Prop := Exists Q r.2.

Lemma factor_no_kept y : factor y = true -> kept y = false.
Proof. unfold RewriteSpec.factor, RewriteSpec.kept. by destruct (nulling y), (nullable y). Qed.

Lemma has_kept_in l : has_kept nulling nullable l = true -> exists y, y ∈ l /\ kept y = true.
Proof. intros (y&Hy&Hk)%existsb_exists. exists y. split; [by apply list_elem_of_In|done]. Qed.

Lemma proper_when b r : (b = true -> proper_rule r) -> Forall proper_rule (when b r).
Proof. destruct b; intros Hr; repeat constructor. by apply Hr. Qed.

Lemma exists_proper l x : x ∈ l -> Q x -> Exists Q l.
Proof. intros. apply Exists_exists. by exists x. Qed.

(** [x] is there. *)
Ltac proper x HQ := apply (exists_proper _ x); [cbn [snd]; set_solver|apply HQ].

Lemma pieces_proper lhs l next rs vs : pieces nsy nul nulling nullable lhs l next rs vs ->
  (forall y, y ∈ l -> factor y = true \/ kept y = true -> Q (nsy y)) -> (forall i, (i < length vs)%nat -> Q (next + Z.of_nat i)) -> Forall proper_rule rs.
Proof.
  assert (forall y z, kept y = true -> factor z = true -> y <> z) as Hne by (intros y z Hy Hz ->; apply factor_no_kept in Hz; congruence).
  induction 1 as [lhs next l0 y1 l1 F0 F1 K1|lhs next l0 y1 l1 y2 l2 F0 F1 F2 K1 K2|lhs next l0 y1 l1 y2 l2 rs vs F0 F1 K1 K2 Hno Hp IH|lhs next l0 y1 l1 y2 l2 rs vs F0 F1 K1 K2 Hk Hp IH];
    intros HQ Hv.
  - repeat constructor; [proper (nsy y1) HQ; [set_solver|by left]|]. apply proper_when. intros (y&Hy&Hky)%has_kept_in.
    assert (y <> y1) by (by eapply Hne). proper (nsy y) HQ; [done|by right].
  - repeat constructor; [proper (nsy y1) HQ; [set_solver|by left]..|proper (nsy y2) HQ; [set_solver|by left]|]. apply proper_when. intros (y&Hy&Hky)%has_kept_in.
    assert (y <> y1 /\ y <> y2) by (split; by eapply Hne). proper (nsy y) HQ; [done|by right].
  - assert (Q next) as Hnext by (rewrite <- (Z.add_0_r next); apply (Hv 0%nat); cbn; lia).
    apply Forall_app. split; [repeat constructor; [proper next Hnext|proper (nsy y1) HQ; [set_solver|by left]|proper next Hnext]|]. apply Forall_app. split.
    + apply proper_when. intros (y&Hy&Hky)%has_kept_in. assert (y ∉ y2 :: l2) by (intros Hin; apply not_true_iff_false in Hno; apply Hno, existsb_exists; exists y; by rewrite <- list_elem_of_In).
      assert (y <> y1) by (by eapply Hne). proper (nsy y) HQ; [done|by right].
    + apply IH; [intros y Hy; apply HQ; set_solver|]. intros i Hi. replace (next + 1 + Z.of_nat i) with (next + Z.of_nat (S i)) by lia. apply Hv. cbn. lia.
  - assert (Q next) as Hnext by (rewrite <- (Z.add_0_r next); apply (Hv 0%nat); cbn; lia).
    apply Forall_app. split; [repeat constructor; proper next Hnext|].
    apply IH; [intros y Hy; apply HQ; set_solver|]. intros i Hi. replace (next + 1 + Z.of_nat i) with (next + Z.of_nat (S i)) by lia. apply Hv. cbn. lia.
Qed.
End proper.

Section language.
Context `{Library}.
Context (Hfuel : (MARPA_AVL_MAX_HEIGHT <= tree_rounds)%nat) (Hversion : lib_version = marpa_h_version).
Context (junk : nat -> list Z) (g0 g : GRAMMAR) (Hready : ready g0) (Hcensus : precompute_census junk g0 = Ok (None, g)).
#[local] Abbreviation null_ := (symbol_flag XSY_is_Nulling g).
#[local] Abbreviation nullable_ := (symbol_flag XSY_is_Nullable g).
#[local] Abbreviation start := (t_start_xsy_id g0).

Context (p : INTERNAL) (eqv nulv : list (option Z)) (ss0 : list sense) (rs : list (Z * list Z)) (ss : list sense).
Context (Hp : rewritten g start eqv nulv ss0 rs ss p).
#[local] Abbreviation nsy := (nsy_in eqv).
#[local] Abbreviation lhs_id := (lhs_id g0 g ss).

Lemma own_proper z : 0 <= z < XSY_Count_of_G g0 -> kept_symbol g z = true -> null_ z = false -> lhs_id (nsy z).
Proof using Hfuel Hversion Hready Hcensus Hp.
  intros Hz Hk Hn. destruct (kept_nsy Hfuel Hversion junk g0 g Hready Hcensus p eqv nulv ss0 rs ss Hp z Hz Hk) as (i&->&_&Hi). exists i, (own_sense g z). split_and!; [done|done|].
  intros z'. unfold own_sense. by rewrite Hn.
Qed.

Lemma block_proper j r next b news : made g nsy (nsy_in nulv) rs ss j r next b news -> Forall (proper_rule lhs_id) b.
Proof using Hfuel Hversion Hready Hcensus Hp.
  intros Hm. destruct (made_form Hfuel Hversion junk g0 g Hready Hcensus _ _ _ _ _ _ _ _ _ Hm) as (f&Hj&Hin&Hu&Hblock).
  assert (forall y, y ∈ mentions f -> null_ y = false -> lhs_id (nsy y)) as Hy.
  { intros y Hy Hn. apply own_proper; [|by eapply used_kept; [..|right]|done]. by eapply fact_valid; [..|right]. }
  assert (forall i s, news !! i = Some s -> lhs_id (Z.of_nat next + Z.of_nat i)) as Hnew.
  { intros i s Hi. exists (next + i)%nat, s. split_and!; [lia|apply sense_ss; by apply (md_news _ _ _ _ _ _ _ _ _ _ Hm)|].
    intros z ->. by destruct (block_news _ _ _ _ _ _ _ _ _ _ _ Hblock Hi) as [o [=]]. }
  destruct Hblock as [Hq Hnf|b vs offs Hq Hb Ho|Hq].
  - repeat constructor. destruct (has_kept_in _ _ _ (used_has_kept g f Hu Hq Hnf)) as (y&Hyr&Hk). eapply exists_proper; [by apply list_elem_of_fmap_2|].
    apply Hy; [by apply rhs_mentions|]. unfold kept in Hk. by destruct (null_ y).
  - eapply pieces_proper; [exact Hb| |].
    + intros y Hyr%rhs_mentions Hk. apply Hy; [done|]. unfold factor, kept in Hk. destruct (null_ y); [|done]. by destruct Hk.
    + intros i Hi. destruct (lookup_lt_is_Some_2 _ _ Hi) as [v Hv]. destruct (rests_drop _ _ _ _ _ Ho Hv) as (o&Hoo&_). eapply Hnew. by rewrite list_lookup_fmap, Hoo.
  - specialize (Hnew 0%nat _ eq_refl). rewrite Z.add_0_r in Hnew.
    destruct (fact_item Hfuel Hversion junk g0 g Hready Hcensus f Hin Hq) as [Hr Hnn].
    assert (lhs_id (nsy (item_of f))) as Hi.
    { assert (item_of f ∈ rf_rhs f) as Hi%rhs_mentions by (rewrite Hr; left). apply Hy; [done|].
      destruct (fact_flags Hfuel Hversion junk g0 g Hready Hcensus f Hin (item_of f)) as (Hnl&_); [by right|]. apply not_true_iff_false. intros Hn.
      destruct (used_productive Hfuel Hversion junk g0 g Hready Hcensus f Hin Hu _ Hi) as [w Hw]. apply (Hnn _ Hi).
      pose proof (nulling_plain Hfuel Hversion junk g0 g Hready Hcensus _ w (proj1 Hnl Hn) Hw) as ->. exact Hw. }
    unfold sequence_rules. repeat (apply Forall_app; split); [by repeat constructor| |].
    + destruct (separated f && negb (rf_proper f)); by repeat constructor.
    + repeat constructor; [|done]. unfold proper_rule. cbn [snd]. rewrite Hr. by repeat constructor.
Qed.

(** Each right-hand side has a symbol that is not null. *)
Lemma rules_proper : 0 <= start < XSY_Count_of_G g0 -> kept_symbol g start = true -> Forall (proper_rule lhs_id) (all_rules g0 g eqv rs ss).
Proof using Hfuel Hversion Hready Hcensus Hp.
  intros Hst Hk. destruct (rewrites_made _ _ _ _ _ _ _ (rt_rewrites _ _ _ _ _ _ _ _ Hp)) as (_&Hrs&_).
  assert (Forall (proper_rule lhs_id) rs) as Hall.
  { apply Forall_forall. intros x Hx. destruct (Hrs x Hx) as (j&r&next&b&news&Hm&Hb). pose proof (block_proper _ _ _ _ _ Hm) as Hf. rewrite Forall_forall in Hf. by apply Hf. }
  unfold all_rules. destruct (null_ start) eqn:Hn; [done|]. apply Forall_app. split; [done|]. repeat constructor. by apply own_proper.
Qed.
End language.

(** ** What the steps keep *)

#[local] Abbreviation returns m Q := (post Q m).

Section kept.
Context `{Library} (R : list XRL).

(** The left-hand sides of the first [k] rules are marked; the rules they come from exist. *)
Record marked (k : nat) (p : INTERNAL) : Prop := {
  mk_xrls : t_xrl_stack (t_g p) = R;
  mk_lhs i x l : (i < k)%nat -> t_irl_stack p !! i = Some x -> t_nsyid_array x !! 0%nat = Some (Some l) ->
    0 <= l /\ exists y, t_nsy_stack p !! Z.to_nat l = Some y /\ NSY_is_LHS y = true;
  mk_source i x j : t_irl_stack p !! i = Some x -> Source_XRL_of_IRL x = Some j -> 0 <= j < Z.of_nat (length R)
}.
(** [k] rules; [k] rules, and one being written. *)
Definition done_to (k : nat) (p : INTERNAL) : Prop := marked k p /\ length (t_irl_stack p) = k.
Definition drafting (k : nat) (p : INTERNAL) : Prop := marked k p /\ length (t_irl_stack p) = S k.
Definition all_marked (p : INTERNAL) : Prop := done_to (length (t_irl_stack p)) p.

Lemma done_all k p : done_to k p -> all_marked p.
Proof. intros [Hm Hk]. unfold all_marked. rewrite Hk. by split. Qed.

(** A change of the symbols that unmarks none. *)
Lemma marked_nsys k p l : marked k p -> (forall i y, t_nsy_stack p !! i = Some y -> NSY_is_LHS y = true -> exists y', l !! i = Some y' /\ NSY_is_LHS y' = true) -> marked k (set_t_nsy_stack l p).
Proof.
  intros [H1 H2 H3] Hl. split; [done| |done]. intros i x z Hi Hx Hz. destruct (H2 i x z Hi Hx Hz) as (H0&y&Hy&Hyl). split; [done|]. cbn. by eapply Hl.
Qed.

(** A change of the rules from the number [k] on. *)
Lemma marked_irls k p l : marked k p -> (forall i x, l !! i = Some x -> (i < k)%nat -> exists x', t_irl_stack p !! i = Some x' /\ t_nsyid_array x = t_nsyid_array x') ->
  (forall i x j, l !! i = Some x -> Source_XRL_of_IRL x = Some j -> 0 <= j < Z.of_nat (length R)) -> marked k (set_t_irl_stack l p).
Proof.
  intros [H1 H2 H3] Ha Hs. split; [done| |done]. cbn. intros i x z Hi Hx Hz. destruct (Ha i x Hx Hi) as (x'&Hx'&E). rewrite E in Hz. by eapply H2.
Qed.

Lemma nsy_start_marked k p : marked k p -> marked k (nsy_start p).2.
Proof. intros Hm. cbn. apply marked_nsys; [done|]. intros i y Hy Hl. exists y. split; [by apply lookup_app_l_Some|done]. Qed.

Lemma upd_nsy_marked k p id f : marked k p -> (forall y, NSY_is_LHS y = true -> NSY_is_LHS (f y) = true) ->
  returns (upd_nsy p id f) (fun p' => marked k p' /\ t_irl_stack p' = t_irl_stack p).
Proof.
  intros Hm Hf p' (x&Hx&Hw)%bind_Ok. apply bind_Ok in Hw as (l&Hl&[= <-]). split; [|done]. apply rd_Ok in Hx as [H0 Hx]. rewrite wr_total in Hl by (apply lookup_lt_Some in Hx; lia).
  injection Hl as <-. apply marked_nsys; [done|]. intros i y Hy Hyl. destruct (decide (Z.to_nat id = i)) as [<-|Hne].
  - rewrite Hx in Hy. injection Hy as <-. exists (f x). split; [by rewrite list_lookup_insert_eq by by eapply lookup_lt_Some|by apply Hf].
  - exists y. split; [by rewrite list_lookup_insert_ne|done].
Qed.

(** Updating a rule: its first symbol may change when it is being written. *)
Lemma upd_irl_marked k p id f : marked k p -> (forall x, Z.of_nat k <= id \/ t_nsyid_array (f x) = t_nsyid_array x) ->
  (forall x j, Source_XRL_of_IRL (f x) = Some j -> Source_XRL_of_IRL x = Some j \/ 0 <= j < Z.of_nat (length R)) ->
  returns (upd_irl p id f) (fun p' => marked k p' /\ length (t_irl_stack p') = length (t_irl_stack p)).
Proof.
  intros Hm Ha Hs p' (x&Hx&Hw)%bind_Ok. apply bind_Ok in Hw as (l&Hl&[= <-]). apply rd_Ok in Hx as [H0 Hx]. rewrite wr_total in Hl by (apply lookup_lt_Some in Hx; lia).
  injection Hl as <-. split; [|cbn; by rewrite length_insert]. apply marked_irls; [done| |].
  - intros i y Hy Hi. apply list_lookup_insert_Some in Hy as [(<-&<-&_)|(Hne&Hy)]; [|by exists y]. exists x. split; [done|]. destruct (Ha x); [lia|done].
  - intros i y j Hy Hj. apply list_lookup_insert_Some in Hy as [(<-&<-&_)|(Hne&Hy)]; [|by eapply (mk_source _ _ Hm)]. destruct (Hs x j Hj); [by eapply (mk_source _ _ Hm)|done].
Qed.

Lemma irl_start_marked p len : all_marked p -> returns (irl_start p len) (fun r => exists k, r.1 = Z.of_nat k /\ drafting k r.2).
Proof.
  intros [Hm _]. unfold irl_start. destruct (len <? 0); [by intros ?|]. apply post_Ok. exists (length (t_irl_stack p)). split; [done|]. split; [|cbn; rewrite length_app; cbn; lia].
  apply marked_irls; [done| |].
  - intros i x Hx Hi. exists x. split; [by rewrite lookup_app_l in Hx|done].
  - intros i x j [Hx|[_ Hx]]%lookup_app_Some Hj; [by eapply (mk_source _ _ Hm)|]. apply list_lookup_singleton_Some in Hx as [_ <-]. done.
Qed.

Lemma irl_write_marked k p ix v : drafting k p -> returns (irl_write p (Z.of_nat k) ix v) (drafting k).
Proof.
  intros [Hm Hl] p' (x&_&Hw)%bind_Ok. apply bind_Ok in Hw as (l&_&Hw). apply (upd_irl_marked k) in Hw as [Hm' Hl']; [|done|by left|by left]. split; [done|congruence].
Qed.

Lemma upd_draft_marked k p f : drafting k p -> (forall x j, Source_XRL_of_IRL (f x) = Some j -> Source_XRL_of_IRL x = Some j \/ 0 <= j < Z.of_nat (length R)) ->
  returns (upd_irl p (Z.of_nat k) f) (drafting k).
Proof. intros [Hm Hl] Hs p' Hu. apply (upd_irl_marked k) in Hu as [Hm' Hl']; [|done|by left|done]. split; [done|congruence]. Qed.

Lemma upd_done_marked p id f : all_marked p -> (forall x, t_nsyid_array (f x) = t_nsyid_array x) ->
  (forall x j, Source_XRL_of_IRL (f x) = Some j -> Source_XRL_of_IRL x = Some j \/ 0 <= j < Z.of_nat (length R)) -> returns (upd_irl p id f) all_marked.
Proof. intros [Hm _] Ha Hs p' Hu. apply (upd_irl_marked (length (t_irl_stack p))) in Hu as [Hm' Hl']; [|done|by right|done]. by apply (done_all (length (t_irl_stack p))). Qed.

Lemma upd_nsy_all p id f : all_marked p -> (forall y, NSY_is_LHS y = true -> NSY_is_LHS (f y) = true) -> returns (upd_nsy p id f) all_marked.
Proof. intros [Hm _] Hf p' Hu. apply (upd_nsy_marked (length (t_irl_stack p))) in Hu as [Hm' Hl']; [|done..]. apply (done_all (length (t_irl_stack p))). by rewrite <- Hl' in *. Qed.

Lemma irl_finish_marked k p : drafting k p -> returns (irl_finish p (Z.of_nat k)) all_marked.
Proof.
  intros [Hm Hl] p' (x&Hx&Hf)%bind_Ok. apply bind_Ok in Hf as (lhs&Hlhs&Hf). apply rd_Ok in Hx as [_ Hx]. rewrite Nat2Z.id in Hx.
  pose proof Hf as (y&Hy&Hw)%bind_Ok. apply rd_Ok in Hy as [H0 Hy]. apply (upd_nsy_marked k) in Hf as [[H1 H2 H3] Hs]; [|done|done].
  apply (done_all (S k)). split; [|by rewrite Hs]. split; [done| |done]. intros i x' z Hi Hx' Hz. destruct (decide (i = k)) as [->|]; [|apply (H2 i x'); [lia|done..]].
  rewrite Hs, Hx in Hx'. injection Hx' as <-. unfold LHSID_of_IRL in Hlhs. rewrite (proj2 (rd_Ok _ _ _) (conj (Z.le_refl 0) Hz)) in Hlhs. cbn in Hlhs. injection Hlhs as ->.
  split; [done|]. rewrite wr_total in Hw by (apply lookup_lt_Some in Hy; lia). injection Hw as <-. cbn. rewrite list_lookup_insert_eq by by eapply lookup_lt_Some. by eexists.
Qed.

(** ** The operations *)

Lemma nsy_start_all p : all_marked p -> all_marked (nsy_start p).2.
Proof. intros [Hm Hl]. apply (done_all (length (t_irl_stack p))). split; [by apply nsy_start_marked|done]. Qed.

Lemma nsy_new_all p source : all_marked p -> returns (nsy_new p source) (fun r => all_marked r.2).
Proof.
  intros Hp. apply post_read. intros xsy _. pose proof (nsy_start_all p Hp) as Hs. destruct (nsy_start p) as [id p'].
  eapply post_bind; [by apply upd_nsy_all|]. intros p2 Hp2. by apply post_Ok.
Qed.

Lemma nsy_clone_all p z : all_marked p -> returns (nsy_clone p z) (fun r => all_marked r.2).
Proof.
  intros Hp. apply post_read. intros xsy _. pose proof (nsy_start_all p Hp) as Hs. destruct (nsy_start p) as [id p'].
  eapply post_bind; [by apply upd_nsy_all|]. intros p2 Hp2. by apply post_Ok.
Qed.

Lemma set_g_all p g : all_marked p -> t_xrl_stack g = R -> all_marked (set_t_g g p).
Proof. intros [[H1 H2 H3] Hl] Hg. split; [split; [exact Hg|exact H2|exact H3]|exact Hl]. Qed.

Lemma set_tables_all p a b c : all_marked p -> all_marked (set_t_start_irl c (set_t_nulling_nsy b (set_t_nsy_equivalent a p))).
Proof. intros [[H1 H2 H3] Hl]. split; [split; [exact H1|exact H2|exact H3]|exact Hl]. Qed.

Lemma upd_xsy_xrls (g : GRAMMAR) z f g' : upd_xsy g z f = Ok g' -> t_xrl_stack g' = t_xrl_stack g.
Proof. intros (x&_&Hw)%bind_Ok. by apply bind_Ok in Hw as (l&_&[= <-]). Qed.

Lemma symbol_alias_create_all p z : all_marked p -> returns (symbol_alias_create p z) (fun r => all_marked r.2).
Proof.
  intros Hp. eapply (post_bind (fun r => all_marked r.2)).
  { eapply post_bind; [by apply nsy_new_all|]. intros [id p1] Hp1. eapply post_bind; [by apply upd_nsy_all|]. intros p2 Hp2. by apply post_Ok. }
  intros [id p1] Hp1. apply post_read. intros g Hg. eapply post_bind; [apply upd_nsy_all; [|done]|intros p2 Hp2; by apply post_Ok].
  apply set_g_all; [done|]. rewrite (upd_xsy_xrls _ _ _ _ Hg). apply Hp1.
Qed.

Lemma set_equivalent_all p l : all_marked p -> all_marked (set_t_nsy_equivalent l p).
Proof. intros Hp. exact (set_tables_all p l (t_nulling_nsy p) (t_start_irl p) Hp). Qed.
Lemma set_nulling_all p l : all_marked p -> all_marked (set_t_nulling_nsy l p).
Proof. intros Hp. exact (set_tables_all p (t_nsy_equivalent p) l (t_start_irl p) Hp). Qed.

Lemma clone_symbol_all z p : all_marked p -> returns (clone_symbol z p) all_marked.
Proof.
  intros Hp. apply post_read. intros xsy _. destruct (negb (XSY_is_Accessible xsy)); [by apply post_Ok|]. destruct (negb (XSY_is_Productive xsy)); [by apply post_Ok|].
  eapply post_bind; [by apply nsy_clone_all|]. intros [nsy p1] Hp1. apply post_read. intros l _. pose proof (set_equivalent_all p1 l Hp1) as Hp2.
  destruct (XSY_is_Nulling xsy); [apply post_read; intros l2 _; by apply post_Ok, set_nulling_all|]. destruct (XSY_is_Nullable xsy); [|by apply post_Ok].
  eapply post_bind; [by apply symbol_alias_create_all|]. intros [alias p3] Hp3. apply post_read. intros l2 _. by apply post_Ok, set_nulling_all.
Qed.

Lemma irl_with_all p lhs rhs : all_marked p -> returns (irl_with p lhs rhs) (fun r => all_marked r.2).
Proof.
  intros Hp. eapply post_bind; [by apply irl_start_marked|]. intros [irl p1] (k&E&Hp1). cbn in E, Hp1. subst irl.
  eapply post_bind; [by apply irl_write_marked|]. intros p2 Hp2.
  eapply post_bind; [apply (post_for (drafting k)); [done|]; intros j p3 Hp3; apply post_read; intros x _; by apply irl_write_marked|]. intros p3 Hp3.
  eapply post_bind; [by apply irl_finish_marked|]. intros p4 Hp4. by apply post_Ok.
Qed.

Lemma source_of_rule rule_id (f : IRL -> IRL) rk : (forall x, Source_XRL_of_IRL (f x) = Source_XRL_of_IRL x) -> 0 <= rule_id < Z.of_nat (length R) ->
  forall x j, Source_XRL_of_IRL (f (set_Rank_of_IRL rk (set_Source_XRL_of_IRL (Some rule_id) x))) = Some j -> Source_XRL_of_IRL x = Some j \/ 0 <= j < Z.of_nat (length R).
Proof. intros Hf Hr x j. rewrite Hf. cbn. intros [= <-]. by right. Qed.

Section rule.
Context (rule_id : Z) (rule : XRL) (Hrule : 0 <= rule_id < Z.of_nat (length R)).

Lemma sequence_irl_all p lhs rhs f : all_marked p -> (forall x, t_nsyid_array (f x) = t_nsyid_array x) -> (forall x, Source_XRL_of_IRL (f x) = Source_XRL_of_IRL x) ->
  returns (r ← irl_with p lhs rhs; irl_of_rule r.2 r.1 rule_id rule f) all_marked.
Proof using Hrule.
  intros Hp Ha Hf. eapply post_bind; [by apply irl_with_all|]. intros [irl p1] Hp1. apply upd_done_marked; [done|intros x; by rewrite Ha|by apply source_of_rule].
Qed.

Lemma rewrite_sequence_all p : all_marked p -> returns (rewrite_sequence p rule_id rule) all_marked.
Proof using Hrule.
  intros Hp. apply post_read. intros lhs_id _. apply post_read. intros lhs _. eapply post_bind; [by apply nsy_new_all|]. intros [int p1] Hp1.
  apply post_read. intros rhs_id _. apply post_read. intros rhs _. cbv zeta. apply post_read. intros sep _.
  eapply post_bind; [by apply upd_nsy_all|]. intros p2 Hp2.
  assert (forall p lhs rhs f (k : INTERNAL -> res INTERNAL), all_marked p -> (forall x, t_nsyid_array (f x) = t_nsyid_array x) -> (forall x, Source_XRL_of_IRL (f x) = Source_XRL_of_IRL x) ->
    (forall p', all_marked p' -> returns (k p') all_marked) -> returns (r ← irl_with p lhs rhs; p' ← irl_of_rule r.2 r.1 rule_id rule f; k p') all_marked) as Hstep.
  { intros p0 l r f k Hp0 Ha Hf Hk. eapply post_bind; [by apply irl_with_all|]. intros [irl p3] Hp3. eapply post_bind; [|exact Hk].
    apply upd_done_marked; [done|intros x; by rewrite Ha|by apply source_of_rule]. }
  apply Hstep; [done..|]. intros p3 Hp3. apply (post_bind all_marked); [destruct (_ && _); [by apply sequence_irl_all|by apply post_Ok]|]. intros p4 Hp4.
  apply Hstep; [done..|]. intros p5 Hp5. by apply sequence_irl_all.
Qed.

Lemma chaf_irl_all p lhs piece_start piece_end nulls virtual rk : all_marked p -> returns (chaf_irl p rule_id rule lhs piece_start piece_end nulls virtual rk) all_marked.
Proof using Hrule.
  intros Hp. unfold chaf_irl. cbv zeta. eapply post_bind; [by apply irl_start_marked|]. intros [irl p1] (k&E&Hp1). cbn in E, Hp1. subst irl.
  eapply post_bind; [by apply irl_write_marked|]. intros p2 Hp2.
  eapply post_bind; [apply (post_for (drafting k)); [done|]; intros j p3 Hp3; apply post_read; intros x _; apply post_read; intros y _; by apply irl_write_marked|]. intros p3 Hp3.
  eapply (post_bind (drafting k)); [destruct virtual; [by apply irl_write_marked|by apply post_Ok]|]. intros p4 Hp4.
  eapply post_bind; [by apply irl_finish_marked|]. intros p5 Hp5.
  eapply post_bind; [apply upd_done_marked; [done|done|]|]. { intros x j. cbn. intros [= <-]. by right. }
  intros p6 Hp6. by apply upd_nsy_all.
Qed.

Ltac chafs := repeat (eapply post_bind; [by apply chaf_irl_all|]; let p := fresh "p" in let Hp := fresh "Hp" in intros p Hp).
Ltac guarded := try match goal with |- returns (if ?b then _ else _) _ => destruct b end; first [by apply chaf_irl_all|by apply post_Ok].

Lemma chaf_three_all p suffix lhs piece_start f1 f2 : all_marked p -> returns (chaf_three p rule_id rule suffix lhs piece_start f1 f2) (fun r => all_marked r.2).
Proof using Hrule.
  intros Hp. unfold chaf_three. cbv zeta. apply post_read. intros z _. destruct (f2 >=? suffix).
  - eapply post_bind; [by apply nsy_new_all|]. intros [virtual p1] Hp1. chafs. eapply (post_bind all_marked); [guarded|]. intros p5 Hp5. by apply post_Ok.
  - eapply post_bind; [by apply nsy_new_all|]. intros [virtual p1] Hp1. chafs. by apply post_Ok.
Qed.

Lemma chaf_loop_all fuel p factors suffix ix lhs piece_start : all_marked p -> returns (chaf_loop fuel p rule_id rule factors suffix ix lhs piece_start) all_marked.
Proof using Hrule.
  revert p ix lhs piece_start. induction fuel as [|fuel IH]; intros p ix lhs piece_start Hp; cbn [chaf_loop]; cbv zeta; apply post_read; intros f1 _.
  all: destruct (_ >=? 3).
  1: by intros ?.
  2: { apply post_read. intros f2 _. eapply post_bind; [by apply chaf_three_all|]. intros [[[virtual piece_end] used] p1] Hp1. by apply IH. }
  all: destruct (_ =? 2); [apply post_read; intros f2 _; unfold chaf_two|unfold chaf_one]; cbv zeta; chafs; guarded.
Qed.

Lemma rewrite_simple_all p : all_marked p -> returns (rewrite_simple p rule_id rule) all_marked.
Proof using Hrule.
  intros Hp. eapply post_bind; [by apply irl_start_marked|]. intros [irl p1] (k&E&Hp1). cbn in E, Hp1. subst irl.
  eapply post_bind; [apply upd_draft_marked; [done|by apply (source_of_rule _ (fun x => x))]|]. intros p2 Hp2.
  eapply post_bind; [apply (post_for (drafting k)); [done|]; intros j p3 Hp3; apply post_read; intros x _; apply post_read; intros y _; by apply irl_write_marked|]. intros p3 Hp3.
  by apply irl_finish_marked.
Qed.
End rule.

Lemma rewrite_rule_all rule_id p : all_marked p -> returns (rewrite_rule rule_id p) all_marked.
Proof.
  intros Hp. apply post_read. intros rule Hr. assert (0 <= rule_id < Z.of_nat (length R)) as Hv.
  { unfold XRL_by_ID in Hr. apply rd_bound in Hr. by rewrite (mk_xrls _ _ (proj1 Hp)) in Hr. }
  destruct (negb (XRL_is_Used rule)); [by apply post_Ok|]. destruct (XRL_is_Sequence rule); [by apply rewrite_sequence_all|].
  apply post_read. intros [factors suffix] _. destruct (_ >? 0); [|by apply rewrite_simple_all].
  apply post_read. intros lhs _. apply post_read. intros l _. by apply chaf_loop_all.
Qed.

Lemma augment_all p z : all_marked p -> returns (augment p z) all_marked.
Proof.
  intros Hp. apply post_read. intros xsy _. destruct (negb _); [|by apply post_Ok].
  eapply post_bind; [by apply nsy_new_all|]. intros [new p1] Hp1. eapply post_bind; [by apply upd_nsy_all|]. intros p2 Hp2.
  apply post_read. intros g Hg. assert (all_marked (set_t_g g p2)) as Hp3 by (apply set_g_all; [done|]; rewrite (upd_xsy_xrls _ _ _ _ Hg); apply Hp2).
  apply post_read. intros l _. eapply post_bind; [by apply irl_with_all|]. intros [irl p4] Hp4.
  eapply post_bind; [apply upd_done_marked; [done|done|by intros x j ?; left]|]. intros p5 Hp5. apply post_Ok.
  exact (set_tables_all p5 (t_nsy_equivalent p5) (t_nulling_nsy p5) (Some irl) Hp5).
Qed.
End kept.

(** Every left-hand side of the internal grammar is marked; the rules of its rules exist. *)
Lemma rewrite_all_marked `{Library} (g : GRAMMAR) z : returns (precompute_rewrite g z) (all_marked (t_xrl_stack g)).
Proof.
  unfold precompute_rewrite. eapply post_bind; [apply (post_for (all_marked (t_xrl_stack g)))|]; [|intros j p Hp; by apply clone_symbol_all|].
  { split; [|done]. split; [done|by intros i x l Hi|]. intros i x j Hx. cbn in Hx. by destruct i. }
  intros p Hp. eapply post_bind; [apply (post_for (all_marked (t_xrl_stack g))); [done|]; intros j p1 Hp1; by apply rewrite_rule_all|]. intros p2 Hp2. by apply augment_all.
Qed.

(** ** The whole shape *)

Definition valid_nsy (p : INTERNAL) (y : Z) : Prop := 0 <= y < NSY_Count_of_G p.
Definition nsy_flag (f : NSY -> bool) (p : INTERNAL) (y : Z) : bool := match t_nsy_stack p !! Z.to_nat y with Some x => f x | None => false end.
(** The symbol [y] is null. *)
Definition null_in : INTERNAL -> Z -> bool := nsy_flag NSY_is_Nulling.

(** A rule: its symbols exist, its left-hand side is marked, a symbol of it is not null. *)
Record rule_shape (p : INTERNAL) (r : Z * list Z) : Prop := {
  rs_lhs : valid_nsy p r.1;
  rs_mark : nsy_flag NSY_is_LHS p r.1 = true;
  rs_rhs y : y ∈ r.2 -> valid_nsy p y;
  rs_proper : exists y, y ∈ r.2 /\ null_in p y = false
}.

(** The internal grammar of [g], its rules being [rs]. *)
Record shape (g : GRAMMAR) (rs : list (Z * list Z)) (p : INTERNAL) : Prop := {
  sh_grammar : t_g p = g \/ t_g p = unstarted g (t_start_xsy_id g);
  sh_rules : irl_view <$> t_irl_stack p = imap whole rs;
  sh_rule r : r ∈ rs -> rule_shape p r;
  sh_source i x j : t_irl_stack p !! i = Some x -> Source_XRL_of_IRL x = Some j -> 0 <= j < XRL_Count_of_G g;
  sh_symbols i x : t_nsy_stack p !! i = Some x -> exists z, Source_XSY_of_NSY x = Some z /\ 0 <= z < XSY_Count_of_G g;
  sh_start id : t_start_irl p = Some id -> 0 <= id < IRL_Count_of_G p;
  sh_equivalent z i : t_nsy_equivalent p !! z = Some (Some i) -> valid_nsy p i;
  sh_table : length (t_nsy_equivalent p) = length (t_xsy_stack g);
  sh_start_only id r : t_start_irl p = Some id -> rs !! Z.to_nat id = Some r ->
    (forall z, t_nsy_equivalent p !! z <> Some (Some r.1)) /\ forall i r', rs !! i = Some r' -> r.1 ∉ r'.2 /\ (r'.1 = r.1 -> i = Z.to_nat id)
}.

Definition sense_source (s : sense) : option Z := match s with NullOf z | SymbolOf z | StartOf z | PartOf z _ _ => z end.
Lemma source_sense x : Source_XSY_of_NSY x = sense_source (sense_of x).
Proof. unfold sense_of. by destruct (NSY_is_Nulling x), (NSY_is_Semantic x), (NSY_is_Start x). Qed.

Section shape.
Context `{Library}.
Context (Hfuel : (MARPA_AVL_MAX_HEIGHT <= tree_rounds)%nat) (Hversion : lib_version = marpa_h_version).
Context (junk : nat -> list Z) (g0 g : GRAMMAR) (Hready : ready g0) (Hcensus : precompute_census junk g0 = Ok (None, g)).
Context (p : INTERNAL) (eqv nulv : list (option Z)) (ss0 : list sense) (rs : list (Z * list Z)) (ss : list sense).
Context (Hp : rewritten g (t_start_xsy_id g0) eqv nulv ss0 rs ss p) (Hall : all_marked (t_xrl_stack g) p).
#[local] Abbreviation senses := (all_senses g0 g ss).
#[local] Abbreviation rules := (all_rules g0 g eqv rs ss).

Lemma sense_valid i s : senses !! i = Some s -> valid_nsy p (Z.of_nat i).
Proof using Hfuel Hp.
  intros Hs. destruct (looks_all g0 g p eqv nulv ss0 rs ss Hp) as (E&Hl&_). unfold valid_nsy. rewrite (looks_nsy_count _ _ _ _ Hl). clear Hfuel. apply lookup_lt_Some in Hs. lia.
Qed.

Lemma rule_shaped r : r ∈ rules -> rule_shape p r.
Proof using Hfuel Hversion Hready Hcensus Hp Hall.
  intros Hr. destruct (start_kept Hfuel Hversion junk g0 g Hready Hcensus) as [Hst Hk]. destruct (looks_all g0 g p eqv nulv ss0 rs ss Hp) as (E&Hl&_).
  pose proof (rules_ids Hfuel Hversion junk g0 g Hready Hcensus p eqv nulv ss0 rs ss Hp Hst Hk) as Hids. rewrite Forall_forall in Hids. destruct (Hids r Hr) as (Hlhs&_&Hrhs).
  pose proof (rules_proper Hfuel Hversion junk g0 g Hready Hcensus p eqv nulv ss0 rs ss Hp Hst Hk) as Hpr. rewrite Forall_forall in Hpr. specialize (Hpr r Hr).
  apply list_elem_of_lookup in Hr as [i Hr]. split.
  - destruct Hlhs as (j&s&->&Hs&_). by eapply sense_valid.
  - pose proof (f_equal (lookup i) (lk_rules _ _ _ _ Hl)) as Hv. rewrite list_lookup_fmap, list_lookup_imap, Hr in Hv. destruct (t_irl_stack p !! i) as [x|] eqn:Hx; [|done].
    injection Hv as _ _ Hv. destruct Hall as [Hm _]. destruct (mk_lhs _ _ _ Hm i x r.1 (lookup_lt_Some _ _ _ Hx) Hx ltac:(by rewrite Hv)) as (_&y&Hy&Hyl). unfold nsy_flag. by rewrite Hy.
  - intros y Hy. rewrite Forall_forall in Hrhs. destruct (Hrhs y Hy) as (j&s&->&Hs&_). by eapply sense_valid.
  - apply Exists_exists in Hpr as (y&Hy&j&s&->&Hs&Hn). exists (Z.of_nat j). split; [done|]. destruct (looks_nsy _ _ _ _ _ _ Hl Hs) as (x&Hx&_&Hsx).
    unfold null_in, nsy_flag. rewrite Nat2Z.id, Hx. unfold sense_of in Hsx. destruct (NSY_is_Nulling x); [|done]. by destruct (Hn (Source_XSY_of_NSY x)).
Qed.

Lemma symbol_source i s : senses !! i = Some s -> exists z, sense_source s = Some z /\ 0 <= z < XSY_Count_of_G g0.
Proof using Hfuel Hversion Hready Hcensus Hp.
  intros Hs. destruct (sense_cases Hfuel Hversion junk g0 g Hready Hcensus p eqv nulv ss0 rs ss Hp i s Hs) as [(z&Hz&_&[[-> _]|[-> _]])|[(j&r&next&b&news&m&Hm&_&Hn)|(_&->&_)]].
  - by exists z.
  - by exists z.
  - destruct (made_form Hfuel Hversion junk g0 g Hready Hcensus _ _ _ _ _ _ _ _ _ Hm) as (f&_&Hin&_&Hb). destruct (block_news _ _ _ _ _ _ _ _ _ _ _ Hb Hn) as [o ->].
    exists (rf_lhs f). split; [done|]. eapply fact_valid; [..|left]; done.
  - exists (t_start_xsy_id g0). split; [done|]. apply (start_kept Hfuel Hversion junk g0 g Hready Hcensus).
Qed.

Lemma rewritten_shape : shape g rules p.
Proof using Hfuel Hversion Hready Hcensus Hp Hall.
  destruct (looks_all g0 g p eqv nulv ss0 rs ss Hp) as (E&Hl&HE). destruct (fold_env _ _ _ _ Hl) as (_&He&_). rewrite HE in He.
  pose proof (facts_done Hfuel Hversion junk g0 g Hready Hcensus) as Hd. pose proof (facts_count Hfuel Hversion junk g0 g Hready Hcensus) as Hcount.
  pose proof (rt_cloned _ _ _ _ _ _ _ _ Hp) as Hcl. injection (cd_kept _ _ Hd) as Estart _. split.
  - pose proof (rt_looks _ _ _ _ _ _ _ _ Hp) as Hlk. destruct (symbol_flag _ _ _); destruct (fold_env _ _ _ _ Hlk) as (Hg&_); [by left|right]. by rewrite Estart.
  - apply (lk_rules _ _ _ _ Hl).
  - exact rule_shaped.
  - apply (mk_source _ _ _ (proj1 Hall)).
  - intros i x Hx. rewrite Hcount, source_sense. by eapply symbol_source, looks_sense.
  - intros id Hid. rewrite (looks_irl_count _ _ _ _ Hl). pose proof (rt_looks _ _ _ _ _ _ _ _ Hp) as Hlk. unfold all_rules.
    destruct (symbol_flag _ _ _); injection (lk_env _ _ _ _ Hlk) as _ _ _ Es; [congruence|]. assert (id = Z.of_nat (length rs)) as -> by congruence. rewrite length_app. cbn. lia.
  - intros z i Hz. rewrite He in Hz. destruct (cl_some _ _ _ _ _ Hcl (Z.of_nat z) i) as [Hb Hk]; [lia|by rewrite Nat2Z.id|].
    destruct (kept_nsy Hfuel Hversion junk g0 g Hready Hcensus p eqv nulv ss0 rs ss Hp (Z.of_nat z)) as (j&_&Hj&Hs); [lia|done|]. rewrite Nat2Z.id in Hj. assert (i = Z.of_nat j) as -> by congruence. by eapply sense_valid.
  - pose proof (cl_eqv _ _ _ _ _ Hcl) as Hlen. rewrite He. unfold XSY_Count_of_G in Hlen. lia.
  - intros id r Hid Hr. destruct (start_kept Hfuel Hversion junk g0 g Hready Hcensus) as [Hst Hk]. pose proof (rt_looks _ _ _ _ _ _ _ _ Hp) as Hlk.
    destruct (symbol_flag XSY_is_Nulling g (t_start_xsy_id g0)) eqn:Hn; injection (lk_env _ _ _ _ Hlk) as _ _ _ Es; [congruence|]. assert (id = Z.of_nat (length rs)) as -> by congruence. rewrite Nat2Z.id in *.
    unfold all_rules in Hr. rewrite Hn, lookup_app_r, Nat.sub_diag in Hr by lia. injection Hr as <-. split.
    + intros z Hz. rewrite He in Hz. destruct (cl_some _ _ _ _ _ Hcl (Z.of_nat z) _ ltac:(lia) ltac:(by rewrite Nat2Z.id)) as [Hb Hkz].
      destruct (kept_nsy Hfuel Hversion junk g0 g Hready Hcensus p eqv nulv ss0 rs ss Hp (Z.of_nat z)) as (j&_&Hj&Hs); [lia|done|]. rewrite Nat2Z.id, Hz in Hj. injection Hj as Hj%Nat2Z.inj. subst j.
      unfold all_senses in Hs. rewrite Hn, lookup_app_r, Nat.sub_diag in Hs by lia. injection Hs as Hs. by destruct (own_not_start g (Z.of_nat z) (Some (t_start_xsy_id g0))).
    + intros i r' Hr'. by destruct (start_rule_only Hfuel Hversion junk g0 g Hready Hcensus p eqv nulv ss0 rs ss Hp r' i Hn Hst Hk Hr').
Qed.
End shape.

(** ** The internal grammar of any grammar that calls have built *)
Lemma internal_shape `{Library} (Hfuel : (MARPA_AVL_MAX_HEIGHT <= tree_rounds)%nat) (Hversion : lib_version = marpa_h_version) junk g0 p :
  ready g0 -> precompute_internal junk g0 = Ok (inr p) -> exists g rs, census_done g0 g /\ precompute_census junk g0 = Ok (None, g) /\ shape g rs p.
Proof.
  intros Hr Hi. destruct (rewriting_back Hfuel Hversion junk g0 p Hr Hi) as (g&eqv&nulv&ss0&rs&ss&Hc&Hw). pose proof (facts_done Hfuel Hversion junk g0 g Hr Hc) as Hd.
  exists g. eexists. split; [done|]. split; [done|]. eapply rewritten_shape; [exact Hfuel|exact Hversion|exact Hr|exact Hc|exact Hw|].
  injection (cd_kept _ _ Hd) as Estart _. unfold precompute_internal in Hi. rewrite Hc in Hi. cbn [mbind res_bind] in Hi. apply bind_Ok in Hi as (p'&Hp'&[= <-]). by eapply rewrite_all_marked.
Qed.
