(* ===== verification/Items.v ===== *)
(** * Items and tables of the Earley engine ([libmarpa-dist/marpa.c], [marpa_g_precompute])

    The last part of the precomputation: the dotted rules of the internal grammar ([AHM]),
    which rules each predicts, which rules are right recursive, the events and the
    zero-width assertions of each.  [marpa_g_precompute] composes all the parts.

    A pointer to an item is its index in [t_ahms], a pointer to an internal rule its number;
    memory that has not been written is [None], and reading it is [Fault]. *)
From S2P Require Import Prelude Avl Dstack BitVector Matrix Cil MarpaH MarpaGrammar MarpaRules Census Rewrite.

(** [struct s_ahm]: a rule with a dot before a symbol that is not null, or at its end; the
    null symbols before the dot are counted. *)
Record AHM : Type := MkAHM {
  IRL_of_AHM : Z;
  Predicted_IRL_CIL_of_AHM : option CIL;
  LHS_CIL_of_AHM : option CIL;
  ZWA_CIL_of_AHM : option CIL;
  Completion_XSYIDs_of_AHM : option CIL;
  Nulled_XSYIDs_of_AHM : option CIL;
  Prediction_XSYIDs_of_AHM : option CIL;
  XRL_of_AHM : option Z;
  Event_AHMIDs_of_AHM : option CIL;
  Postdot_NSYID_of_AHM : Z;
  Null_Count_of_AHM : Z;
  Position_of_AHM : Z;
  Quasi_Position_of_AHM : Z;
  SYMI_of_AHM : Z;
  XRL_Position_of_AHM : Z;
  Event_Group_Size_of_AHM : Z;
  AHM_predicts_ZWA : option bool;
  AHM_was_Predicted : bool;
  AHM_is_Initial : bool
}.
Definition set_Predicted_IRL_CIL_of_AHM (v : option CIL) (x : AHM) : AHM :=
  MkAHM (IRL_of_AHM x) v (LHS_CIL_of_AHM x) (ZWA_CIL_of_AHM x) (Completion_XSYIDs_of_AHM x) (Nulled_XSYIDs_of_AHM x) (Prediction_XSYIDs_of_AHM x) (XRL_of_AHM x) (Event_AHMIDs_of_AHM x) (Postdot_NSYID_of_AHM x) (Null_Count_of_AHM x) (Position_of_AHM x) (Quasi_Position_of_AHM x) (SYMI_of_AHM x) (XRL_Position_of_AHM x) (Event_Group_Size_of_AHM x) (AHM_predicts_ZWA x) (AHM_was_Predicted x) (AHM_is_Initial x).
Definition set_LHS_CIL_of_AHM (v : option CIL) (x : AHM) : AHM :=
  MkAHM (IRL_of_AHM x) (Predicted_IRL_CIL_of_AHM x) v (ZWA_CIL_of_AHM x) (Completion_XSYIDs_of_AHM x) (Nulled_XSYIDs_of_AHM x) (Prediction_XSYIDs_of_AHM x) (XRL_of_AHM x) (Event_AHMIDs_of_AHM x) (Postdot_NSYID_of_AHM x) (Null_Count_of_AHM x) (Position_of_AHM x) (Quasi_Position_of_AHM x) (SYMI_of_AHM x) (XRL_Position_of_AHM x) (Event_Group_Size_of_AHM x) (AHM_predicts_ZWA x) (AHM_was_Predicted x) (AHM_is_Initial x).
Definition set_ZWA_CIL_of_AHM (v : option CIL) (x : AHM) : AHM :=
  MkAHM (IRL_of_AHM x) (Predicted_IRL_CIL_of_AHM x) (LHS_CIL_of_AHM x) v (Completion_XSYIDs_of_AHM x) (Nulled_XSYIDs_of_AHM x) (Prediction_XSYIDs_of_AHM x) (XRL_of_AHM x) (Event_AHMIDs_of_AHM x) (Postdot_NSYID_of_AHM x) (Null_Count_of_AHM x) (Position_of_AHM x) (Quasi_Position_of_AHM x) (SYMI_of_AHM x) (XRL_Position_of_AHM x) (Event_Group_Size_of_AHM x) (AHM_predicts_ZWA x) (AHM_was_Predicted x) (AHM_is_Initial x).
Definition set_Completion_XSYIDs_of_AHM (v : option CIL) (x : AHM) : AHM :=
  MkAHM (IRL_of_AHM x) (Predicted_IRL_CIL_of_AHM x) (LHS_CIL_of_AHM x) (ZWA_CIL_of_AHM x) v (Nulled_XSYIDs_of_AHM x) (Prediction_XSYIDs_of_AHM x) (XRL_of_AHM x) (Event_AHMIDs_of_AHM x) (Postdot_NSYID_of_AHM x) (Null_Count_of_AHM x) (Position_of_AHM x) (Quasi_Position_of_AHM x) (SYMI_of_AHM x) (XRL_Position_of_AHM x) (Event_Group_Size_of_AHM x) (AHM_predicts_ZWA x) (AHM_was_Predicted x) (AHM_is_Initial x).
Definition set_Nulled_XSYIDs_of_AHM (v : option CIL) (x : AHM) : AHM :=
  MkAHM (IRL_of_AHM x) (Predicted_IRL_CIL_of_AHM x) (LHS_CIL_of_AHM x) (ZWA_CIL_of_AHM x) (Completion_XSYIDs_of_AHM x) v (Prediction_XSYIDs_of_AHM x) (XRL_of_AHM x) (Event_AHMIDs_of_AHM x) (Postdot_NSYID_of_AHM x) (Null_Count_of_AHM x) (Position_of_AHM x) (Quasi_Position_of_AHM x) (SYMI_of_AHM x) (XRL_Position_of_AHM x) (Event_Group_Size_of_AHM x) (AHM_predicts_ZWA x) (AHM_was_Predicted x) (AHM_is_Initial x).
Definition set_Prediction_XSYIDs_of_AHM (v : option CIL) (x : AHM) : AHM :=
  MkAHM (IRL_of_AHM x) (Predicted_IRL_CIL_of_AHM x) (LHS_CIL_of_AHM x) (ZWA_CIL_of_AHM x) (Completion_XSYIDs_of_AHM x) (Nulled_XSYIDs_of_AHM x) v (XRL_of_AHM x) (Event_AHMIDs_of_AHM x) (Postdot_NSYID_of_AHM x) (Null_Count_of_AHM x) (Position_of_AHM x) (Quasi_Position_of_AHM x) (SYMI_of_AHM x) (XRL_Position_of_AHM x) (Event_Group_Size_of_AHM x) (AHM_predicts_ZWA x) (AHM_was_Predicted x) (AHM_is_Initial x).
Definition set_Event_AHMIDs_of_AHM (v : option CIL) (x : AHM) : AHM :=
  MkAHM (IRL_of_AHM x) (Predicted_IRL_CIL_of_AHM x) (LHS_CIL_of_AHM x) (ZWA_CIL_of_AHM x) (Completion_XSYIDs_of_AHM x) (Nulled_XSYIDs_of_AHM x) (Prediction_XSYIDs_of_AHM x) (XRL_of_AHM x) v (Postdot_NSYID_of_AHM x) (Null_Count_of_AHM x) (Position_of_AHM x) (Quasi_Position_of_AHM x) (SYMI_of_AHM x) (XRL_Position_of_AHM x) (Event_Group_Size_of_AHM x) (AHM_predicts_ZWA x) (AHM_was_Predicted x) (AHM_is_Initial x).
Definition set_Event_Group_Size_of_AHM (v : Z) (x : AHM) : AHM :=
  MkAHM (IRL_of_AHM x) (Predicted_IRL_CIL_of_AHM x) (LHS_CIL_of_AHM x) (ZWA_CIL_of_AHM x) (Completion_XSYIDs_of_AHM x) (Nulled_XSYIDs_of_AHM x) (Prediction_XSYIDs_of_AHM x) (XRL_of_AHM x) (Event_AHMIDs_of_AHM x) (Postdot_NSYID_of_AHM x) (Null_Count_of_AHM x) (Position_of_AHM x) (Quasi_Position_of_AHM x) (SYMI_of_AHM x) (XRL_Position_of_AHM x) v (AHM_predicts_ZWA x) (AHM_was_Predicted x) (AHM_is_Initial x).
Definition set_AHM_predicts_ZWA (v : option bool) (x : AHM) : AHM :=
  MkAHM (IRL_of_AHM x) (Predicted_IRL_CIL_of_AHM x) (LHS_CIL_of_AHM x) (ZWA_CIL_of_AHM x) (Completion_XSYIDs_of_AHM x) (Nulled_XSYIDs_of_AHM x) (Prediction_XSYIDs_of_AHM x) (XRL_of_AHM x) (Event_AHMIDs_of_AHM x) (Postdot_NSYID_of_AHM x) (Null_Count_of_AHM x) (Position_of_AHM x) (Quasi_Position_of_AHM x) (SYMI_of_AHM x) (XRL_Position_of_AHM x) (Event_Group_Size_of_AHM x) v (AHM_was_Predicted x) (AHM_is_Initial x).

(** The fields of [struct s_irl] that belong to this part. *)
Record IRL_TABLE : Type := MkIRL_TABLE {
  First_AHM_of_IRL : option Z;
  AHM_Count_of_IRL : option Z;
  SYMI_of_IRL : option Z;
  Last_Proper_SYMI_of_IRL : Z;
  IRL_is_Right_Recursive : bool
}.
Definition set_First_AHM_of_IRL (v : option Z) (x : IRL_TABLE) : IRL_TABLE :=
  MkIRL_TABLE v (AHM_Count_of_IRL x) (SYMI_of_IRL x) (Last_Proper_SYMI_of_IRL x) (IRL_is_Right_Recursive x).
Definition set_AHM_Count_of_IRL (v : option Z) (x : IRL_TABLE) : IRL_TABLE :=
  MkIRL_TABLE (First_AHM_of_IRL x) v (SYMI_of_IRL x) (Last_Proper_SYMI_of_IRL x) (IRL_is_Right_Recursive x).
Definition set_SYMI_of_IRL (v : option Z) (x : IRL_TABLE) : IRL_TABLE :=
  MkIRL_TABLE (First_AHM_of_IRL x) (AHM_Count_of_IRL x) v (Last_Proper_SYMI_of_IRL x) (IRL_is_Right_Recursive x).
Definition set_Last_Proper_SYMI_of_IRL (v : Z) (x : IRL_TABLE) : IRL_TABLE :=
  MkIRL_TABLE (First_AHM_of_IRL x) (AHM_Count_of_IRL x) (SYMI_of_IRL x) v (IRL_is_Right_Recursive x).
Definition set_IRL_is_Right_Recursive (v : bool) (x : IRL_TABLE) : IRL_TABLE :=
  MkIRL_TABLE (First_AHM_of_IRL x) (AHM_Count_of_IRL x) (SYMI_of_IRL x) (Last_Proper_SYMI_of_IRL x) v.

(** The internal grammar with its items; [t_irl_tables] and [t_lhs_cils] have a cell for each
    internal rule and for each internal symbol. *)
Record TABLES : Type := MkTABLES {
  t_internal : INTERNAL;
  t_ahms : list (option AHM);
  t_ahm_count : option Z;
  t_symbol_instance_count : option Z;
  t_irl_tables : list IRL_TABLE;
  t_lhs_cils : list (option CIL);
  t_bv_nsyid_is_terminal : option Bit_Vector;
  t_lbv_xsyid_is_completion_event : option Bit_Vector;
  t_lbv_xsyid_is_nulled_event : option Bit_Vector;
  t_lbv_xsyid_is_prediction_event : option Bit_Vector
}.
Definition set_t_internal (v : INTERNAL) (x : TABLES) : TABLES :=
  MkTABLES v (t_ahms x) (t_ahm_count x) (t_symbol_instance_count x) (t_irl_tables x) (t_lhs_cils x) (t_bv_nsyid_is_terminal x) (t_lbv_xsyid_is_completion_event x) (t_lbv_xsyid_is_nulled_event x) (t_lbv_xsyid_is_prediction_event x).
Definition set_t_ahms (v : list (option AHM)) (x : TABLES) : TABLES :=
  MkTABLES (t_internal x) v (t_ahm_count x) (t_symbol_instance_count x) (t_irl_tables x) (t_lhs_cils x) (t_bv_nsyid_is_terminal x) (t_lbv_xsyid_is_completion_event x) (t_lbv_xsyid_is_nulled_event x) (t_lbv_xsyid_is_prediction_event x).
Definition set_t_ahm_count (v : option Z) (x : TABLES) : TABLES :=
  MkTABLES (t_internal x) (t_ahms x) v (t_symbol_instance_count x) (t_irl_tables x) (t_lhs_cils x) (t_bv_nsyid_is_terminal x) (t_lbv_xsyid_is_completion_event x) (t_lbv_xsyid_is_nulled_event x) (t_lbv_xsyid_is_prediction_event x).
Definition set_t_symbol_instance_count (v : option Z) (x : TABLES) : TABLES :=
  MkTABLES (t_internal x) (t_ahms x) (t_ahm_count x) v (t_irl_tables x) (t_lhs_cils x) (t_bv_nsyid_is_terminal x) (t_lbv_xsyid_is_completion_event x) (t_lbv_xsyid_is_nulled_event x) (t_lbv_xsyid_is_prediction_event x).
Definition set_t_irl_tables (v : list IRL_TABLE) (x : TABLES) : TABLES :=
  MkTABLES (t_internal x) (t_ahms x) (t_ahm_count x) (t_symbol_instance_count x) v (t_lhs_cils x) (t_bv_nsyid_is_terminal x) (t_lbv_xsyid_is_completion_event x) (t_lbv_xsyid_is_nulled_event x) (t_lbv_xsyid_is_prediction_event x).
Definition set_t_lhs_cils (v : list (option CIL)) (x : TABLES) : TABLES :=
  MkTABLES (t_internal x) (t_ahms x) (t_ahm_count x) (t_symbol_instance_count x) (t_irl_tables x) v (t_bv_nsyid_is_terminal x) (t_lbv_xsyid_is_completion_event x) (t_lbv_xsyid_is_nulled_event x) (t_lbv_xsyid_is_prediction_event x).
Definition set_t_bv_nsyid_is_terminal (v : option Bit_Vector) (x : TABLES) : TABLES :=
  MkTABLES (t_internal x) (t_ahms x) (t_ahm_count x) (t_symbol_instance_count x) (t_irl_tables x) (t_lhs_cils x) v (t_lbv_xsyid_is_completion_event x) (t_lbv_xsyid_is_nulled_event x) (t_lbv_xsyid_is_prediction_event x).
Definition set_t_lbv_xsyid_is_completion_event (v : option Bit_Vector) (x : TABLES) : TABLES :=
  MkTABLES (t_internal x) (t_ahms x) (t_ahm_count x) (t_symbol_instance_count x) (t_irl_tables x) (t_lhs_cils x) (t_bv_nsyid_is_terminal x) v (t_lbv_xsyid_is_nulled_event x) (t_lbv_xsyid_is_prediction_event x).
Definition set_t_lbv_xsyid_is_nulled_event (v : option Bit_Vector) (x : TABLES) : TABLES :=
  MkTABLES (t_internal x) (t_ahms x) (t_ahm_count x) (t_symbol_instance_count x) (t_irl_tables x) (t_lhs_cils x) (t_bv_nsyid_is_terminal x) (t_lbv_xsyid_is_completion_event x) v (t_lbv_xsyid_is_prediction_event x).
Definition set_t_lbv_xsyid_is_prediction_event (v : option Bit_Vector) (x : TABLES) : TABLES :=
  MkTABLES (t_internal x) (t_ahms x) (t_ahm_count x) (t_symbol_instance_count x) (t_irl_tables x) (t_lhs_cils x) (t_bv_nsyid_is_terminal x) (t_lbv_xsyid_is_completion_event x) (t_lbv_xsyid_is_nulled_event x) v.


Section items.
Context `{Library}.
Context (junk : nat -> list Z).
Implicit Types (p : INTERNAL) (t : TABLES) (ahm : AHM).

Definition written {A} (o : option A) : res A := match o with Some x => Ok x | None => Fault end.

Definition g_of t : GRAMMAR := t_g (t_internal t).
Definition cilar_of t : CILAR := t_cilar (g_of t).
Definition set_cilar (ca : CILAR) t : TABLES := set_t_internal (set_t_g (set_t_cilar ca (g_of t)) (t_internal t)) t.
(** A list that the arena gives. *)
Definition with_cilar t (f : CILAR -> res (CIL * CILAR)) : res (CIL * TABLES) :=
  r ← f (cilar_of t); Ok (r.1, set_cilar r.2 t).

Definition irl_count t : nat := length (t_irl_stack (t_internal t)).
Definition nsy_count t : nat := length (t_nsy_stack (t_internal t)).
Definition xsy_count t : nat := length (t_xsy_stack (g_of t)).

Definition irl_table t (id : Z) : res IRL_TABLE := rd (t_irl_tables t) id.
Definition upd_irl_table t (id : Z) (f : IRL_TABLE -> IRL_TABLE) : res TABLES :=
  x ← irl_table t id; l ← wr (t_irl_tables t) id (f x); Ok (set_t_irl_tables l t).
Definition LHS_CIL_of_NSYID t (nsyid : Z) : res CIL := o ← rd (t_lhs_cils t) nsyid; written o.

Definition AHM_by_ID t (id : Z) : res AHM := o ← rd (t_ahms t) id; written o.
Definition ahm_write t (id : Z) (ahm : AHM) : res TABLES := l ← wr (t_ahms t) id (Some ahm); Ok (set_t_ahms l t).
Definition upd_ahm t (id : Z) (f : AHM -> AHM) : res TABLES := ahm ← AHM_by_ID t id; ahm_write t id (f ahm).
Definition AHM_Count_of_G t : res Z := written (t_ahm_count t).
Definition IRL_by_AHM t (ahm : AHM) : res IRL := IRL_by_ID (t_internal t) (IRL_of_AHM ahm).
Definition LHSID_of_AHM t (ahm : AHM) : res Z := irl ← IRL_by_AHM t ahm; LHSID_of_IRL irl.
Definition First_AHM_of_IRLID t (irl_id : Z) : res AHM :=
  x ← irl_table t irl_id; id ← written (First_AHM_of_IRL x); AHM_by_ID t id.
(** [f] for each item, in order. *)
Definition each_ahm (f : Z -> AHM -> TABLES -> res TABLES) t : res TABLES :=
  ahm_count ← AHM_Count_of_G t;
  for_res (Z.to_nat ahm_count) 0 (fun ahm_id t => ahm ← AHM_by_ID t ahm_id; f ahm_id ahm t) t.

(** ** The rules of each left-hand side *)

Definition irl_by_lhs t : res Bit_Matrix :=
  m ← matrix_obs_create (junk 8%nat) (NSY_Count_of_G (t_internal t)) (IRL_Count_of_G (t_internal t));
  for_res (irl_count t) 0 (fun irl_id m =>
    irl ← IRL_by_ID (t_internal t) irl_id;
    lhs_nsyid ← LHSID_of_IRL irl;
    matrix_bit_set m lhs_nsyid irl_id) m.

(** The loop is that of [cil_bv_add()]. *)
Definition lhs_lists t : res TABLES :=
  m ← irl_by_lhs t;
  r ← for_res (nsy_count t) 0 (fun lhsid c =>
        let '(m, t) := c in
        row ← matrix_row m lhsid;
        r ← cil_bv_add tree_rounds (cilar_of t) row;
        let '(cil, cilar, row) := r in
        l ← wr (t_lhs_cils t) lhsid (Some cil);
        Ok (bm_set_data m (bv_words row), set_t_lhs_cils l (set_cilar cilar t))) (m, t);
  Ok r.2.

(** ** Items *)

Definition nsy_is_nulling p (nsyid : Z) : res bool := nsy ← NSY_by_ID p nsyid; Ok (NSY_is_Nulling nsy).

Definition count_ahms p : res Z :=
  for_res (length (t_irl_stack p)) 0 (fun irl_id ahm_count =>
    irl ← IRL_by_ID p irl_id;
    ahm_count ← for_res (Z.to_nat (Length_of_IRL irl)) 0 (fun rhs_ix ahm_count =>
        rh_nsyid ← RHSID_of_IRL irl rhs_ix;
        nulling ← nsy_is_nulling p rh_nsyid;
        Ok (if nulling : bool then ahm_count else ahm_count + 1)) ahm_count;
    Ok (ahm_count + 1)) 0.

(** The rule of the grammar, and the position of the dot in it. *)
Definition xrl_of_ahm p (irl : IRL) (irl_position : Z) : res (option Z * Z) :=
  match Source_XRL_of_IRL irl with
  | None => Ok (None, -2)
  | Some xrl_id =>
    source_xrl ← XRL_by_ID (t_g p) xrl_id;
    let virtual_start := Virtual_Start_of_IRL irl in
    let xrl_position := if virtual_start >=? 0 then irl_position + virtual_start else irl_position in
    Ok (Some xrl_id, if XRL_is_Sequence source_xrl then (if irl_position >? 0 then -1 else 0) else xrl_position)
  end.

Definition ahm_new p (irl_id : Z) (quasi_position leading_nulls postdot position symi : Z) (predicts_zwa : option bool) : res AHM :=
  irl ← IRL_by_ID p irl_id;
  first ← (if quasi_position =? 0 then
             start ← deref (t_start_irl p);
             start_irl ← IRL_by_ID p start;
             Ok (Some (ID_of_IRL irl =? ID_of_IRL start_irl))
           else Ok None);
  x ← xrl_of_ahm p irl position;
  Ok (MkAHM irl_id None None None None None None x.1 None postdot leading_nulls position quasi_position symi x.2 0 predicts_zwa
        (match first with Some initial => negb initial | None => false end) (default false first)).

(** [SYMI_of_IRL(irl)+Position_of_AHM(current_item-1)] *)
Definition symi_after t (irl_id current_item : Z) : res Z :=
  x ← irl_table t irl_id;
  symi ← written (SYMI_of_IRL x);
  previous ← AHM_by_ID t (current_item - 1);
  Ok (symi + Position_of_AHM previous).

(** An item with the dot before a symbol. *)
Definition dotted_ahm t (irl_id first_ahm current_item leading_nulls rh_nsyid rhs_ix : Z) : res TABLES :=
  let quasi_position := current_item - first_ahm in
  symi ← (if quasi_position =? 0 then Ok (-1) else symi_after t irl_id current_item);
  ahm ← ahm_new (t_internal t) irl_id quasi_position leading_nulls rh_nsyid rhs_ix symi (Some false);
  ahm_write t current_item ahm.

(** The item with the dot at the end. *)
Definition completed_ahm t (irl_id first_ahm current_item leading_nulls : Z) : res TABLES :=
  symi ← symi_after t irl_id current_item;
  ahm ← ahm_new (t_internal t) irl_id (current_item - first_ahm) leading_nulls (-1) (-1) symi None;
  ahm_write t current_item ahm.

(** The items of a rule; the result has [current_item]. *)
Definition irl_ahms t (irl_id current_item symbol_instance_of_next_rule : Z) : res (Z * TABLES) :=
  irl ← IRL_by_ID (t_internal t) irl_id;
  t ← upd_irl_table t irl_id (set_SYMI_of_IRL (Some symbol_instance_of_next_rule));
  let first_ahm_of_irl := current_item in
  r ← for_res (Z.to_nat (Length_of_IRL irl)) 0 (fun rhs_ix c =>
        let '(current_item, leading_nulls, t) := c in
        rh_nsyid ← RHSID_of_IRL irl rhs_ix;
        nulling ← nsy_is_nulling (t_internal t) rh_nsyid;
        if negb nulling then
          t ← upd_irl_table t irl_id (set_Last_Proper_SYMI_of_IRL (symbol_instance_of_next_rule + rhs_ix));
          t ← dotted_ahm t irl_id first_ahm_of_irl current_item leading_nulls rh_nsyid rhs_ix;
          Ok (current_item + 1, 0, t)
        else Ok (current_item, leading_nulls + 1, t)) (current_item, 0, t);
  let '(current_item, leading_nulls, t) := r in
  t ← completed_ahm t irl_id first_ahm_of_irl current_item leading_nulls;
  let current_item := current_item + 1 in
  t ← upd_irl_table t irl_id (set_AHM_Count_of_IRL (Some (current_item - first_ahm_of_irl)));
  Ok (current_item, t).

(** From the last item to the first. *)
Definition first_ahms t (ahm_count : Z) : res TABLES :=
  for_res (Z.to_nat ahm_count) 0 (fun i t =>
    let item_id := ahm_count - 1 - i in
    item ← AHM_by_ID t item_id;
    upd_irl_table t (IRL_of_AHM item) (set_First_AHM_of_IRL (Some item_id))) t.

(** The assertion on the number of items is checked. *)
Definition create_ahms t : res TABLES :=
  ahm_count ← count_ahms (t_internal t);
  r ← for_res (irl_count t) 0 (fun irl_id c =>
        let '(current_item, symbol_instance_of_next_rule, t) := c in
        irl ← IRL_by_ID (t_internal t) irl_id;
        r ← irl_ahms t irl_id current_item symbol_instance_of_next_rule;
        Ok (r.1, symbol_instance_of_next_rule + Length_of_IRL irl, r.2))
      (0, 0, set_t_ahms (replicate (Z.to_nat ahm_count) None) t);
  let '(current_item, symbol_instance_of_next_rule, t) := r in
  if negb (ahm_count =? current_item) then Fault
  else first_ahms (set_t_ahm_count (Some ahm_count) (set_t_symbol_instance_count (Some symbol_instance_of_next_rule) t)) ahm_count.

(** ** Predictions *)

Definition prediction_nsy_by_nsy t : res Bit_Matrix :=
  m ← matrix_obs_create (junk 9%nat) (NSY_Count_of_G (t_internal t)) (NSY_Count_of_G (t_internal t));
  m ← for_res (nsy_count t) 0 (fun nsyid m =>
        nsy ← NSY_by_ID (t_internal t) nsyid;
        if negb (NSY_is_LHS nsy) then Ok m else matrix_bit_set m nsyid nsyid) m;
  m ← for_res (irl_count t) 0 (fun irl_id m =>
        item ← First_AHM_of_IRLID t irl_id;
        let to_nsyid := Postdot_NSYID_of_AHM item in
        if to_nsyid <? 0 then Ok m
        else
          from_nsyid ← LHSID_of_AHM t item;
          matrix_bit_set m from_nsyid to_nsyid) m;
  transitive_closure m.

Definition prediction_nsy_by_irl t (prediction_nsy_by_nsy_matrix : Bit_Matrix) : res Bit_Matrix :=
  m ← matrix_obs_create (junk 10%nat) (NSY_Count_of_G (t_internal t)) (IRL_Count_of_G (t_internal t));
  r ← for_res (nsy_count t) 0 (fun from_nsyid c =>
        let '(by_nsy, m) := c in
        row ← matrix_row by_nsy from_nsyid;
        r ← bv_for_each (nsy_count t) row 0 (fun to_nsyid m =>
              lhs_cil ← LHS_CIL_of_NSYID t to_nsyid;
              cil_count ← Count_of_CIL lhs_cil;
              for_res (Z.to_nat cil_count) 0 (fun cil_ix m =>
                irlid ← Item_of_CIL lhs_cil cil_ix;
                matrix_bit_set m from_nsyid irlid) m) m;
        Ok (bm_set_data by_nsy (bv_words r.1), r.2)) (prediction_nsy_by_nsy_matrix, m);
  Ok r.2.

(** ** Right recursion *)

(** The last symbol of the right-hand side that is not null: the loops from the last symbol
    stop there. *)
Fixpoint last_proper p (irl : IRL) (n : nat) : res (option Z) :=
  match n with
  | O => Ok None
  | S n =>
    rh_nsyid ← RHSID_of_IRL irl (Z.of_nat n);
    nulling ← nsy_is_nulling p rh_nsyid;
    if negb nulling then Ok (Some rh_nsyid) else last_proper p irl n
  end.
Definition right_nsyid p (irl : IRL) : res (option Z) := last_proper p irl (Z.to_nat (Length_of_IRL irl)).

Definition right_bit_set p (irl : IRL) (m : Bit_Matrix) : res Bit_Matrix :=
  o ← right_nsyid p irl;
  match o with
  | Some rh_nsyid => lhs ← LHSID_of_IRL irl; matrix_bit_set m lhs rh_nsyid
  | None => Ok m
  end.

Definition mark_right_recursive t (m : Bit_Matrix) : res TABLES :=
  for_res (irl_count t) 0 (fun irl_id t =>
    irl ← IRL_by_ID (t_internal t) irl_id;
    o ← right_nsyid (t_internal t) irl;
    match o with
    | Some rh_nsyid =>
      lhs ← LHSID_of_IRL irl;
      b ← matrix_bit_test m rh_nsyid lhs;
      if b : bool then upd_irl_table t irl_id (set_IRL_is_Right_Recursive true) else Ok t
    | None => Ok t
    end) t.

Definition right_recursion t : res (Bit_Matrix * TABLES) :=
  m ← matrix_obs_create (junk 11%nat) (NSY_Count_of_G (t_internal t)) (NSY_Count_of_G (t_internal t));
  m ← for_res (irl_count t) 0 (fun irl_id m => irl ← IRL_by_ID (t_internal t) irl_id; right_bit_set (t_internal t) irl m) m;
  m ← transitive_closure m;
  t ← mark_right_recursive t m;
  m ← matrix_clear m;
  m ← for_res (irl_count t) 0 (fun irl_id m =>
        irl ← IRL_by_ID (t_internal t) irl_id;
        x ← irl_table t irl_id;
        if negb (IRL_is_Right_Recursive x) then Ok m else right_bit_set (t_internal t) irl m) m;
  m ← transitive_closure m;
  Ok (m, t).

(** ** The lists of an item *)

Definition ahm_predictions (m : Bit_Matrix) t : res (Bit_Matrix * TABLES) :=
  ahm_count ← AHM_Count_of_G t;
  for_res (Z.to_nat ahm_count) 0 (fun ahm_id c =>
    let '(m, t) := c in
    ahm ← AHM_by_ID t ahm_id;
    let postdot_nsyid := Postdot_NSYID_of_AHM ahm in
    if postdot_nsyid <? 0 then
      r ← with_cilar t (cil_empty tree_rounds);
      t ← upd_ahm r.2 ahm_id (set_Predicted_IRL_CIL_of_AHM (Some r.1));
      r ← with_cilar t (cil_empty tree_rounds);
      t ← upd_ahm r.2 ahm_id (set_LHS_CIL_of_AHM (Some r.1));
      Ok (m, t)
    else
      row ← matrix_row m postdot_nsyid;
      r ← cil_bv_add tree_rounds (cilar_of t) row;
      let '(cil, cilar, row) := r in
      t ← upd_ahm (set_cilar cilar t) ahm_id (set_Predicted_IRL_CIL_of_AHM (Some cil));
      lhs_cil ← LHS_CIL_of_NSYID t postdot_nsyid;
      t ← upd_ahm t ahm_id (set_LHS_CIL_of_AHM (Some lhs_cil));
      Ok (bm_set_data m (bv_words row), t)) (m, t).

Definition terminal_nsys t : res TABLES :=
  v ← bv_obs_create (junk 12%nat) (NSY_Count_of_G (t_internal t));
  v ← for_res (xsy_count t) 0 (fun xsy_id v =>
        xsy ← XSY_by_ID (g_of t) xsy_id;
        if XSY_is_Terminal xsy then
          nsy ← rd (t_nsy_equivalent (t_internal t)) xsy_id;
          match nsy with Some id => bv_bit_set v id | None => Ok v end
        else Ok v) v;
  Ok (set_t_bv_nsyid_is_terminal (Some v) t).

(** [*lbv_w(lbv, bit) |= lbv_b(bit)], on the words of a vector with a header. *)
Definition lbv_bit_set (lbv : Bit_Vector) (raw_bit : Z) : res Bit_Vector :=
  let bit := to_uint raw_bit in
  let p := bv_base lbv + bit / bv_wordbits in
  w ← rd (bv_words lbv) p;
  l ← wr (bv_words lbv) p (Z.lor w (lbw_shl bv_lsb (bit mod bv_wordbits)));
  Ok (bv_set_words lbv l).

Definition event_symbols t : res TABLES :=
  let n := XSY_Count_of_G (g_of t) in
  completion ← bv_obs_create (junk 13%nat) n;
  nulled ← bv_obs_create (junk 14%nat) n;
  prediction ← bv_obs_create (junk 15%nat) n;
  r ← for_res (xsy_count t) 0 (fun xsyid c =>
        let '(completion, nulled, prediction) := c in
        xsy ← XSY_by_ID (g_of t) xsyid;
        completion ← (if XSY_is_Completion_Event xsy then lbv_bit_set completion xsyid else Ok completion);
        nulled ← (if XSY_is_Nulled_Event xsy then lbv_bit_set nulled xsyid else Ok nulled);
        prediction ← (if XSY_is_Prediction_Event xsy then lbv_bit_set prediction xsyid else Ok prediction);
        Ok (completion, nulled, prediction)) (completion, nulled, prediction);
  let '(completion, nulled, prediction) := r in
  Ok (set_t_lbv_xsyid_is_prediction_event (Some prediction)
       (set_t_lbv_xsyid_is_nulled_event (Some nulled) (set_t_lbv_xsyid_is_completion_event (Some completion) t))).

(** The symbols nulled by the symbols of the rule from [rhs_ix] on, [n] of them. *)
Definition nulled_before t (irl : IRL) (rhs_ix : Z) (n : nat) (bv_nulled_xsyid : Bit_Vector) : res Bit_Vector :=
  for_res n rhs_ix (fun rhs_ix v =>
    rhs_nsyid ← RHSID_of_IRL irl rhs_ix;
    nsy ← NSY_by_ID (t_internal t) rhs_nsyid;
    xsyid ← deref (Source_XSY_of_NSY nsy);
    xsy ← XSY_by_ID (g_of t) xsyid;
    nulled_xsyids ← written (Nulled_XSYIDs_of_XSY xsy);
    cil_count ← Count_of_CIL nulled_xsyids;
    for_res (Z.to_nat cil_count) 0 (fun cil_ix v => nulled_xsyid ← Item_of_CIL nulled_xsyids cil_ix; bv_bit_set v nulled_xsyid) v) bv_nulled_xsyid.

Definition completion_of t (ahm : AHM) (irl : IRL) (v : Bit_Vector) : res Bit_Vector :=
  if (Position_of_AHM ahm <? 0) && negb (IRL_has_Virtual_LHS irl) then
    lhs_id ← LHSID_of_IRL irl;
    lhs ← NSY_by_ID (t_internal t) lhs_id;
    xsyid ← deref (Source_XSY_of_NSY lhs);
    xsy ← XSY_by_ID (g_of t) xsyid;
    if XSY_is_Completion_Event xsy then bv_bit_set v xsyid else Ok v
  else Ok v.

Definition prediction_of t (ahm : AHM) (v : Bit_Vector) : res Bit_Vector :=
  let postdot_nsyid := Postdot_NSYID_of_AHM ahm in
  if postdot_nsyid >=? 0 then
    nsy ← NSY_by_ID (t_internal t) postdot_nsyid;
    xsyid ← deref (Source_XSY_of_NSY nsy);
    bv_bit_set v xsyid
  else Ok v.

Definition ahm_events t : res TABLES :=
  let n := XSY_Count_of_G (g_of t) in
  ahm_count ← AHM_Count_of_G t;
  r ← for_res (Z.to_nat ahm_count) 0 (fun ahm_id c =>
        let '(completion, nulled, prediction, t) := c in
        ahm ← AHM_by_ID t ahm_id;
        irl ← IRL_by_AHM t ahm;
        completion ← bv_clear completion;
        prediction ← bv_clear prediction;
        nulled ← bv_clear nulled;
        let raw_position := if Position_of_AHM ahm <? 0 then Length_of_IRL irl else Position_of_AHM ahm in
        completion ← completion_of t ahm irl completion;
        prediction ← prediction_of t ahm prediction;
        nulled ← nulled_before t irl (raw_position - Null_Count_of_AHM ahm) (Z.to_nat (Null_Count_of_AHM ahm)) nulled;
        r ← cil_bv_add tree_rounds (cilar_of t) completion;
        let '(cil, cilar, completion) := r in
        t ← upd_ahm (set_cilar cilar t) ahm_id (set_Completion_XSYIDs_of_AHM (Some cil));
        r ← cil_bv_add tree_rounds (cilar_of t) nulled;
        let '(cil, cilar, nulled) := r in
        t ← upd_ahm (set_cilar cilar t) ahm_id (set_Nulled_XSYIDs_of_AHM (Some cil));
        r ← cil_bv_add tree_rounds (cilar_of t) prediction;
        let '(cil, cilar, prediction) := r in
        t ← upd_ahm (set_cilar cilar t) ahm_id (set_Prediction_XSYIDs_of_AHM (Some cil));
        Ok (completion, nulled, prediction, t)) (bv_create n, bv_create n, bv_create n, t);
  Ok r.2.

(** [Count_of_CIL(cil) != 0] *)
Definition cil_is_occupied (o : option CIL) : res bool :=
  cil ← written o; count ← Count_of_CIL cil; Ok (negb (count =? 0)).

Definition ahm_event_ids t : res TABLES :=
  each_ahm (fun ahm_id ahm t =>
    completion ← cil_is_occupied (Completion_XSYIDs_of_AHM ahm);
    nulled ← (if completion : bool then Ok true else cil_is_occupied (Nulled_XSYIDs_of_AHM ahm));
    ahm_is_event ← (if nulled : bool then Ok true else cil_is_occupied (Prediction_XSYIDs_of_AHM ahm));
    r ← with_cilar t (fun ca => if ahm_is_event : bool then cil_singleton tree_rounds ca ahm_id else cil_empty tree_rounds ca);
    upd_ahm r.2 ahm_id (set_Event_AHMIDs_of_AHM (Some r.1))) t.

Definition AHM_has_Event (ahm : AHM) : res bool := cil_is_occupied (Event_AHMIDs_of_AHM ahm).
Definition AHM_is_Completion (ahm : AHM) : bool := Postdot_NSYID_of_AHM ahm <? 0.
Definition AHM_is_Leo_Completion t (ahm : AHM) : res bool :=
  if AHM_is_Completion ahm then x ← irl_table t (IRL_of_AHM ahm); Ok (IRL_is_Right_Recursive x) else Ok false.

Definition event_group_sizes (nsy_by_right_nsy_matrix : Bit_Matrix) t : res TABLES :=
  each_ahm (fun outer_ahm_id outer_ahm t =>
    leo ← AHM_is_Leo_Completion t outer_ahm;
    if negb leo then
      event ← AHM_has_Event outer_ahm;
      if event : bool then upd_ahm t outer_ahm_id (set_Event_Group_Size_of_AHM 1) else Ok t
    else
      outer_nsyid ← LHSID_of_AHM t outer_ahm;
      each_ahm (fun inner_ahm_id inner_ahm t =>
        event ← AHM_has_Event inner_ahm;
        if negb event then Ok t
        else
          leo ← AHM_is_Leo_Completion t inner_ahm;
          if negb leo then Ok t
          else
            inner_nsyid ← LHSID_of_AHM t inner_ahm;
            b ← matrix_bit_test nsy_by_right_nsy_matrix outer_nsyid inner_nsyid;
            if b : bool then upd_ahm t outer_ahm_id (fun ahm => set_Event_Group_Size_of_AHM (Event_Group_Size_of_AHM ahm + 1) ahm)
            else Ok t) t) t.

(** ** Zero-width assertions *)

Definition Raw_XRL_Position_of_AHM (ahm : AHM) (xrl : XRL) : Z :=
  if XRL_Position_of_AHM ahm <? 0 then Length_of_XRL xrl else XRL_Position_of_AHM ahm.

(** A round for each assertion that is found. *)
Fixpoint zwp_loop (rounds : nat) (tree : avl_table) (sought_xrlid xrl_dot_end : Z) (found_zwp : option ZWP) (trav : avl_traverser) (ca : CILAR) : res CILAR :=
  match found_zwp with
  | None => Ok ca
  | Some zwp =>
    if (XRLID_of_ZWP zwp =? sought_xrlid) && (Dot_of_ZWP zwp <=? xrl_dot_end) then
      match rounds with
      | O => NoFuel
      | S rounds =>
        ca ← cil_buffer_push ca (ZWAID_of_ZWP zwp);
        r ← avl_t_next zwp_cmp tree_rounds tree trav;
        zwp_loop rounds tree sought_xrlid xrl_dot_end r.1 r.2 ca
      end
    else Ok ca
  end.

(** The object sought is on the stack of the call. *)
Definition ahm_zwas t : res TABLES :=
  each_ahm (fun ahm_id ahm t =>
    ca ← cil_buffer_clear (cilar_of t);
    ca ← (match XRL_of_AHM ahm with
          | None => Ok ca
          | Some sought_xrlid =>
            ahm_xrl ← XRL_by_ID (g_of t) sought_xrlid;
            let xrl_dot_end := Raw_XRL_Position_of_AHM ahm ahm_xrl in
            let xrl_dot_start := xrl_dot_end - Null_Count_of_AHM ahm in
            tree ← written (t_zwp_tree (g_of t));
            r ← avl_t_at_or_after zwp_cmp tree_rounds tree (MkZWP (-1) sought_xrlid xrl_dot_start 0) (avl_t_init tree);
            zwp_loop (Z.to_nat (avl_count tree)) tree sought_xrlid xrl_dot_end r.1 r.2 ca
          end);
    r ← cil_buffer_add tree_rounds ca;
    upd_ahm (set_cilar r.2 t) ahm_id (set_ZWA_CIL_of_AHM (Some r.1))) t.

(** Whether a predicted rule has an assertion before its first symbol: the loop stops at the
    first one. *)
Fixpoint predicts_zwa t (prediction_cil : CIL) (cil_ix : Z) (n : nat) : res bool :=
  match n with
  | O => Ok false
  | S n =>
    prediction_irlid ← Item_of_CIL prediction_cil cil_ix;
    prediction_ahm ← First_AHM_of_IRLID t prediction_irlid;
    zwaids ← written (ZWA_CIL_of_AHM prediction_ahm);
    count ← Count_of_CIL zwaids;
    if count >? 0 then Ok true else predicts_zwa t prediction_cil (cil_ix + 1) n
  end.

Definition ahm_predicts_zwas t : res TABLES :=
  each_ahm (fun ahm_id ahm t =>
    prediction_cil ← written (Predicted_IRL_CIL_of_AHM ahm);
    prediction_count ← Count_of_CIL prediction_cil;
    b ← predicts_zwa t prediction_cil 0 (Z.to_nat prediction_count);
    if b : bool then upd_ahm t ahm_id (set_AHM_predicts_ZWA (Some true)) else Ok t) t.

(** ** The call *)

Definition tables_init p : TABLES :=
  MkTABLES p [] None None (replicate (length (t_irl_stack p)) (MkIRL_TABLE None None None (-1) false)) (replicate (length (t_nsy_stack p)) None) None None None None.

Definition G_is_Trivial p : bool := match t_start_irl p with None => true | Some _ => false end.

Definition precompute_tables t : res TABLES :=
  t ← lhs_lists t;
  t ← create_ahms t;
  m ← prediction_nsy_by_nsy t;
  prediction_nsy_by_irl_matrix ← prediction_nsy_by_irl t m;
  r ← right_recursion t;
  let '(nsy_by_right_nsy_matrix, t) := r in
  r ← ahm_predictions prediction_nsy_by_irl_matrix t;
  t ← terminal_nsys r.2;
  t ← event_symbols t;
  t ← ahm_events t;
  t ← ahm_event_ids t;
  t ← event_group_sizes nsy_by_right_nsy_matrix t;
  t ← ahm_zwas t;
  ahm_predicts_zwas t.

Definition upd_g (f : GRAMMAR -> GRAMMAR) t : TABLES := set_t_internal (set_t_g (f (g_of t)) (t_internal t)) t.

(** What the call returns, and the grammar: as the census left it when it has failed, with its
    tables otherwise. *)
Definition marpa_g_precompute (g : GRAMMAR) : res (Z * (GRAMMAR + TABLES)) :=
  r ← precompute_internal junk g;
  match r with
  | inl (ret, g) => Ok (ret, inl g)
  | inr p =>
    t ← (if negb (G_is_Trivial p) then precompute_tables (tables_init p) else Ok (tables_init p));
    let t := upd_g (set_G_is_Precomputed true) t in
    if t_has_cycle (g_of t) then Ok (failure_indicator, inr (upd_g (fun g => MARPA_ERROR g MARPA_ERR_GRAMMAR_HAS_CYCLE) t))
    else
      ca ← cilar_buffer_reinit (cilar_of t);
      Ok (0, inr (set_cilar ca t))
  end.
End items.
