(* ===== verification/Relations.v ===== *)
(** * Vectors, matrices and lists of ids, as predicates

    What the steps of the precomputation ask of [BitVector], [Matrix] and [Cil]: a vector is
    a predicate, a matrix a relation, a list of ids the elements of a predicate in ascending
    order, and an arena something that holds a number of lists at most.  The clients do not
    see the sets. *)
From stdpp Require Import sets gmap list relations.
From S2P Require Import Prelude Avl AvlTree AvlProbe AvlTheorems BitVector BitVectorTheorems BitScan Matrix MatrixTheorems Cil CilTheorems MarpaGrammar CensusMarks.

(** The vector of [P]. *)
Definition bits (v : Bit_Vector) (n : Z) (P : Z -> Prop) : Prop := exists S, bv_rep v n S /\ forall i, i ∈ S <-> P i.
(** The matrix of [P]. *)
Definition mat (m : Bit_Matrix) (r n : Z) (P : Z -> Z -> Prop) : Prop := exists R, bm_rep m r n R /\ forall i j, 0 <= i < r -> j ∈ R i <-> P i j.
(** The list of the numbers below [n] that satisfy [P]. *)
Definition lists (c : CIL) (n : Z) (P : Z -> Prop) : Prop := exists S : gset Z, cil_ints c = ints_of (elems n S) /\ forall i, 0 <= i < n -> i ∈ S <-> P i.
(** An arena with [k] lists or fewer. *)
Definition held (k : Z) (ca : CILAR) : Prop := exists cs, cilar_rep ca cs /\ Z.of_nat (length cs) <= k.

Lemma held_le k k' ca : held k ca -> k <= k' -> held k' ca.
Proof. intros (cs&Hca&Hk) Hle. exists cs. split; [done|lia]. Qed.

(** ** Lists *)

Lemma lists_members c n P : lists c n P -> exists l, cil_ints c = ints_of l /\ forall i, i ∈ l <-> 0 <= i < n /\ P i.
Proof.
  intros (S&Hc&HS). exists (elems n S). split; [done|]. intros i. unfold elems. rewrite elem_of_elems_from. split; [intros [Hi HiS]; split; [done|by apply HS]|].
  intros [Hi HP]. split; [done|by apply HS].
Qed.

Lemma lists_ext c n P Q : lists c n P -> (forall i, 0 <= i < n -> P i <-> Q i) -> lists c n Q.
Proof. intros (S&Hc&HS) Hi. exists S. split; [done|]. intros i Hn. by rewrite <- Hi, HS. Qed.

(** The loop over a list. *)
Lemma each_item {A} (Q : list Z -> A -> Prop) c n P body (acc : A) (R : A -> Prop) : lists c n P -> Q [] acc ->
  (forall l i acc, 0 <= i < n -> P i -> Q l acc -> ends_in (body i acc) (Q (l ++ [i]))) ->
  (forall l a, (forall i, i ∈ l <-> 0 <= i < n /\ P i) -> Q l a -> R a) ->
  ends_in (count ← Count_of_CIL c; for_res (Z.to_nat count) 0 (fun ix acc => i ← Item_of_CIL c ix; body i acc) acc) R.
Proof.
  intros Hl H0 Hb HR. destruct (lists_members _ _ _ Hl) as (l&Hc&Hin). rewrite (count_ok _ _ Hc). cbn [mbind res_bind].
  apply (ends_list (fun k a => Q (take k l) a) l); [by rewrite Nat2Z.id|done| |rewrite firstn_all; intros a Ha; by eapply HR]. intros k i a Hi Ha. rewrite (item_ok _ _ _ _ Hc Hi). cbn [mbind res_bind].
  rewrite (take_S_r _ _ _ Hi). apply list_elem_of_lookup_2, Hin in Hi as [Hi HP]. by apply Hb.
Qed.

(** ** Vectors *)
Section bits.
Context (v : Bit_Vector) (n : Z) (P : Z -> Prop) (Hv : bits v n P).

Lemma bits_ext Q : (forall i, P i <-> Q i) -> bits v n Q.
Proof using Hv. destruct Hv as (S&HS&HP). intros HQ. exists S. split; [done|]. intros i. by rewrite HP. Qed.

Lemma bits_set i : 0 <= i < n -> ends_in (bv_bit_set v i) (fun v' => bits v' n (fun j => j = i \/ P j)).
Proof using Hv.
  intros Hi. destruct Hv as (S&HS&HP). destruct (bv_bit_set_ok v n S i HS Hi) as (v'&->&Hv'&_). apply ends_Ok. eexists. split; [done|].
  intros j. rewrite elem_of_union, elem_of_singleton. by rewrite HP.
Qed.

Lemma bits_clear : ends_in (bv_clear v) (fun v' => bits v' n (fun _ => False)).
Proof using Hv. destruct Hv as (S&HS&_). destruct (bv_clear_ok v n S HS) as (v'&->&Hv'&_). apply ends_Ok. exists ∅. split; [done|]. intros j. by rewrite elem_of_empty. Qed.
End bits.

Lemma bits_new junk n : 0 <= n <= INT_MAX -> ends_in (bv_obs_create junk n) (fun v => bits v n (fun _ => False)).
Proof. intros Hn. destruct (bv_obs_create_ok junk n Hn) as (v&->&Hv). apply ends_Ok. exists ∅. split; [done|]. intros j. by rewrite elem_of_empty. Qed.

Lemma bits_create n : 0 <= n <= INT_MAX -> bits (bv_create n) n (fun _ => False).
Proof. intros Hn. exists ∅. split; [by apply bv_create_ok|]. intros j. by rewrite elem_of_empty. Qed.

(** ** Matrices *)
Section mat.
Context (m : Bit_Matrix) (r n : Z) (P : Z -> Z -> Prop) (Hm : mat m r n P).

Lemma mat_ext Q : (forall i j, 0 <= i < r -> P i j <-> Q i j) -> mat m r n Q.
Proof using Hm. destruct Hm as (R&HR&HP). intros HQ. exists R. split; [done|]. intros i j Hi. rewrite HP by done. by apply HQ. Qed.

Lemma mat_set i j : 0 <= i < r -> 0 <= j < n -> ends_in (matrix_bit_set m i j) (fun m' => mat m' r n (fun a b => (a = i /\ b = j) \/ P a b)).
Proof using Hm.
  intros Hi Hj. destruct Hm as (R&HR&HP). destruct (matrix_bit_set_ok m r n R i j HR Hi Hj) as (m'&->&Hm'). apply ends_Ok. eexists. split; [done|].
  intros a b Ha. unfold row_set. destruct (decide (a = i)) as [->|Hne]; rewrite ?elem_of_union, ?elem_of_singleton, HP by done; naive_solver.
Qed.

Lemma mat_test i j : 0 <= i < r -> 0 <= j < n -> ends_in (matrix_bit_test m i j) (fun b => b = true <-> P i j).
Proof using Hm.
  intros Hi Hj. destruct Hm as (R&HR&HP). rewrite (matrix_bit_test_ok m r n R i j HR Hi Hj). apply ends_Ok. rewrite bool_decide_eq_true. by apply HP.
Qed.

Lemma mat_clear : ends_in (matrix_clear m) (fun m' => mat m' r n (fun _ _ => False)).
Proof using Hm.
  destruct Hm as (R&HR&_). destruct (matrix_clear_ok m r n R HR) as (m'&->&Hm'). apply ends_Ok. exists (fun _ => ∅). split; [done|]. intros i j _. by rewrite elem_of_empty.
Qed.

Lemma mat_row i : 0 <= i < r -> ends_in (matrix_row m i) (fun row => bits row n (P i) /\ bm_set_data m (bv_words row) = m).
Proof using Hm.
  intros Hi. destruct Hm as (R&HR&HP). rewrite (matrix_row_ok m r n R i HR Hi). apply ends_Ok. split; [|by destruct m]. exists (R i). split; [by apply HR|].
  intros j. by apply HP.
Qed.
End mat.

Lemma mat_new junk r n : 0 <= n <= INT_MAX -> 0 < r <= INT_MAX -> r * (4 * row_words n) < UINT_MOD ->
  ends_in (matrix_obs_create junk r n) (fun m => mat m r n (fun _ _ => False)).
Proof.
  intros Hn Hr Hf. pose proof (row_words_pos n ltac:(lia)) as Hw. destruct (matrix_obs_create_ok r n Hn Hr ltac:(nia) junk) as (m&->&Hm); [nia|].
  apply ends_Ok. exists (fun _ => ∅). split; [done|]. intros i j _. by rewrite elem_of_empty.
Qed.

Lemma mat_closure m n P : mat m n n P -> (forall i j, P i j -> 0 <= i < n) -> ends_in (transitive_closure m) (fun m' => mat m' n n (tc P)).
Proof.
  intros (R&HR&HP) Hb. destruct (transitive_closure_ok n R m HR) as (m'&R'&->&HR'&Htc). apply ends_Ok. exists R'. split; [done|].
  intros i j Hi. rewrite Htc by done. apply tc_ext. intros a b. split; [intros [Ha Hab]; by apply HP|]. intros Hab. pose proof (Hb _ _ Hab). split; [done|by apply HP].
Qed.

(** The loop over the elements of a vector. *)
Lemma each_bit {A} (Q : list Z -> A -> Prop) fuel v n P body (acc : A) (R : Bit_Vector * A -> Prop) : bits v n P -> n <= Z.of_nat fuel -> Q [] acc ->
  (forall l i acc, 0 <= i < n -> P i -> Q l acc -> ends_in (body i acc) (Q (l ++ [i]))) ->
  (forall l a, (forall i, i ∈ l <-> 0 <= i < n /\ P i) -> Q l a -> R (v, a)) -> ends_in (bv_for_each fuel v 0 body acc) R.
Proof.
  intros (S&HS&HP) Hf H0 Hb HR. rewrite (bv_for_each_ok fuel v n S body acc HS Hf).
  destruct (each_res_ok Q (elems n S) body acc H0) as (a&->&Ha).
  - intros l1 i l2 a E Ha. assert (i ∈ elems n S) as Hi by (rewrite E; set_solver). unfold elems in Hi. apply elem_of_elems_from in Hi as [Hi HiS]. apply Hb; [lia|by apply HP|done].
  - apply ends_Ok, (HR (elems n S)); [|done]. intros i. unfold elems. by rewrite elem_of_elems_from, HP.
Qed.

(** ** The arena *)
Section arena.
Context `{Library} (Hfuel : (MARPA_AVL_MAX_HEIGHT <= tree_rounds)%nat).
Context (k : Z) (ca : CILAR) (Hca : held k ca) (Hk : k < SIZE_MOD - 1).

Lemma intern v n P : bits v n P -> 2 * n <= INT_MAX -> exists c ca', cil_bv_add tree_rounds ca v = Ok (c, ca', v) /\ held (k + 1) ca' /\ lists c n P.
Proof using Hfuel Hca Hk.
  intros (S&HS&HP) Hn. destruct Hca as (cs&Hcs&Hlen). destruct (cil_bv_add_ok tree_rounds Hfuel ca cs v n S Hcs HS Hn ltac:(lia)) as (c&ca'&cs'&->&Hcs'&Hc&_&Hle).
  exists c, ca'. split; [done|]. split; [exists cs'; split; [done|lia]|]. exists S. split; [done|]. intros i _. apply HP.
Qed.

Lemma intern_empty : exists c ca', cil_empty tree_rounds ca = Ok (c, ca') /\ held (k + 1) ca' /\ cil_ints c = ints_of [].
Proof using Hfuel Hca Hk.
  destruct Hca as (cs&Hcs&Hlen). destruct (cil_empty_ok tree_rounds Hfuel ca cs Hcs ltac:(lia)) as (c&ca'&cs'&->&Hcs'&Hc&_&Hle).
  exists c, ca'. split; [done|]. split; [exists cs'; split; [done|lia]|done].
Qed.

Lemma intern_single x : exists c ca', cil_singleton tree_rounds ca x = Ok (c, ca') /\ held (k + 1) ca' /\ cil_ints c = ints_of [x].
Proof using Hfuel Hca Hk.
  destruct Hca as (cs&Hcs&Hlen). destruct (cil_singleton_ok tree_rounds Hfuel ca cs x Hcs ltac:(lia)) as (c&ca'&cs'&->&Hcs'&Hc&_&Hle).
  exists c, ca'. split; [done|]. split; [exists cs'; split; [done|lia]|done].
Qed.
End arena.
