(* ===== verification/ItemsSpec.v ===== *)
(** * Items: what they should be

    The dotted positions of a right-hand side ([dots]), the items of a rule and of the whole
    internal grammar, in order ([all_items]), and the numbers of the first item and of the
    first symbol of each rule.  The specification is a function; what it says of an item is
    drawn from it in [ItemsProperties]. *)
From stdpp Require Import list.
From S2P Require Import Prelude MarpaGrammar MarpaRules Rewrite RewriteSteps RewriteShape Cil Items.

(** ** Lists one after the other *)

(** Where the list number [i] starts. *)
Definition offset {A} (ls : list (list A)) (i : nat) : nat := sum_list (length <$> take i ls).

Section offset.
Context {A : Type}.
Implicit Types (ls : list (list A)).

Lemma offset_S ls i l : ls !! i = Some l -> offset ls (S i) = (offset ls i + length l)%nat.
Proof.
  revert i. induction ls as [|l' ls IH]; intros [|i]; [done|done| |]; cbn [lookup list_lookup].
  - intros [= ->]. unfold offset. simpl. lia.
  - intros Hl%IH. unfold offset in *. cbn in *. lia.
Qed.

Lemma offset_all ls : offset ls (length ls) = length (mjoin ls).
Proof. unfold offset. by rewrite firstn_all, length_join. Qed.

Lemma offset_mono ls i j : (i <= j)%nat -> (offset ls i <= offset ls j)%nat.
Proof.
  revert i j. induction ls as [|l ls IH]; intros [|i] [|j] Hij; unfold offset in *; cbn; try lia. specialize (IH i j ltac:(lia)). cbn in IH. unfold compose in *. lia.
Qed.

(** The element number [m] is of the list that starts before. *)
Lemma join_lookup ls m x : mjoin ls !! m = Some x -> exists i l k, ls !! i = Some l /\ l !! k = Some x /\ m = (offset ls i + k)%nat /\ (m < offset ls (S i))%nat.
Proof.
  intros (i&l&k&Hl&Hx&->)%join_lookup_Some. exists i, l, k. split_and!; [done..|]. rewrite (offset_S _ _ _ Hl). apply lookup_lt_Some in Hx. unfold offset. lia.
Qed.

Lemma join_at ls i l k x : ls !! i = Some l -> l !! k = Some x -> mjoin ls !! (offset ls i + k)%nat = Some x.
Proof. intros. apply join_lookup_Some. by exists i, l, k. Qed.

Lemma join_take_S ls i l : ls !! i = Some l -> mjoin (take (S i) ls) = mjoin (take i ls) ++ l.
Proof. intros Hl. rewrite (take_S_r _ _ _ Hl), join_app. simpl. by rewrite app_nil_r. Qed.

Lemma length_join_take ls i : length (mjoin (take i ls)) = offset ls i.
Proof. by rewrite length_join. Qed.
End offset.

(** ** Dotted positions *)

(** The dot, before a symbol or at the end: the symbol and its position, or -1 and -1, the
    null symbols passed since the last dot, the number of the dot, the position of the last
    one. *)
Record dotted : Type := Dotted {
  dot_symbol : Z;
  dot_position : Z;
  dot_nulls : Z;
  dot_number : Z;
  dot_last : option Z
}.

Section dots.
Context (null : Z -> bool).

Fixpoint dots (position nulls number : Z) (last : option Z) (rhs : list Z) : list dotted :=
  match rhs with
  | [] => [Dotted (-1) (-1) nulls number last]
  | y :: rhs =>
    if null y then dots (position + 1) (nulls + 1) number last rhs
    else Dotted y position nulls number last :: dots (position + 1) 0 (number + 1) (Some position) rhs
  end.

(** The number of symbols that are not null. *)
Fixpoint propers (rhs : list Z) : nat :=
  match rhs with [] => 0 | y :: rhs => if null y then propers rhs else S (propers rhs) end.

(** The position of the last one. *)
Fixpoint last_proper_at (position : Z) (last : option Z) (rhs : list Z) : option Z :=
  match rhs with [] => last | y :: rhs => last_proper_at (position + 1) (if null y then last else Some position) rhs end.

Lemma dots_length position nulls number last rhs : length (dots position nulls number last rhs) = S (propers rhs).
Proof. revert position nulls number last. induction rhs as [|y rhs IH]; intros; simpl; [done|]. destruct (null y); simpl; by rewrite IH. Qed.

Lemma propers_some rhs y : y ∈ rhs -> null y = false -> (0 < propers rhs)%nat.
Proof. induction rhs as [|z rhs IH]; [by intros ?%elem_of_nil|]. intros [->|Hy]%elem_of_cons Hn; simpl; [rewrite Hn; lia|]. destruct (null z); [by apply IH|lia]. Qed.

Lemma propers_le rhs : (propers rhs <= length rhs)%nat.
Proof. induction rhs as [|y rhs IH]; simpl; [done|]. destruct (null y); lia. Qed.

Lemma propers_app l1 l2 : propers (l1 ++ l2) = (propers l1 + propers l2)%nat.
Proof. induction l1 as [|y l1 IH]; simpl; [done|]. destruct (null y); simpl; lia. Qed.

(** The number of null symbols at the end of [l]. *)
Fixpoint null_run (run : Z) (l : list Z) : Z :=
  match l with [] => run | y :: l => null_run (if null y then run + 1 else 0) l end.

(** The dots before symbols are at the symbols that are not null, in order. *)
Lemma dots_before position nulls number last l y rhs : null y = false ->
  dots position nulls number last (l ++ y :: rhs) !! propers l
    = Some (Dotted y (position + Z.of_nat (length l)) (null_run nulls l) (number + Z.of_nat (propers l)) (last_proper_at position last l)).
Proof.
  intros Hy. revert position nulls number last. induction l as [|z l IH]; intros; simpl.
  - by rewrite Hy, !Z.add_0_r.
  - destruct (null z); simpl; rewrite IH; do 2 f_equal; lia.
Qed.

(** The last dot is at the end. *)
Lemma dots_end position nulls number last rhs :
  dots position nulls number last rhs !! propers rhs = Some (Dotted (-1) (-1) (null_run nulls rhs) (number + Z.of_nat (propers rhs)) (last_proper_at position last rhs)).
Proof.
  revert position nulls number last. induction rhs as [|y rhs IH]; intros; simpl; [by rewrite Z.add_0_r|].
  destruct (null y); simpl; rewrite IH; do 2 f_equal; lia.
Qed.

(** Every dot: the number is that of the symbols not null before it, the null symbols are
    those between the last dot and it. *)
Lemma dots_number position nulls number last rhs k d : dots position nulls number last rhs !! k = Some d -> dot_number d = number + Z.of_nat k.
Proof.
  revert position nulls number last k. induction rhs as [|y rhs IH]; intros position nulls number last k; simpl.
  - intros [-> <-]%list_lookup_singleton_Some. simpl. lia.
  - destruct (null y); [by apply IH|]. destruct k as [|k]; [intros [= <-]; simpl; lia|]. intros Hd%IH. lia.
Qed.
End dots.

(** ** Items *)
Section items.
Context (p : INTERNAL).
#[local] Abbreviation null := (null_in p).

(** The dot in the rule of the grammar. *)
Definition rule_position (irl : IRL) (position : Z) : Z :=
  match Source_XRL_of_IRL irl with
  | None => -2
  | Some j =>
    match t_xrl_stack (t_g p) !! Z.to_nat j with
    | None => -2
    | Some r => if XRL_is_Sequence r then (if position >? 0 then -1 else 0) else if Virtual_Start_of_IRL irl >=? 0 then position + Virtual_Start_of_IRL irl else position
    end
  end.

(** The item of the rule number [i], whose first symbol has the number [base]. *)
Definition item_of (i : nat) (irl : IRL) (base : Z) (d : dotted) : AHM :=
  let first := dot_number d =? 0 in
  let start := match t_start_irl p with Some id => Z.of_nat i =? id | None => false end in
  MkAHM (Z.of_nat i) None None None None None None (Source_XRL_of_IRL irl) None (dot_symbol d) (dot_nulls d) (dot_position d) (dot_number d)
    (match dot_last d with None => -1 | Some q => base + q end) (rule_position irl (dot_position d)) 0
    (if dot_symbol d <? 0 then None else Some false) (first && negb start) (first && start).

Definition rule_items (i : nat) (base : Z) (x : IRL * (Z * list Z)) : list AHM := item_of i x.1 base <$> dots null 0 0 0 None x.2.2.

(** The number of the first symbol of a rule. *)
Definition base_of (rs : list (Z * list Z)) (i : nat) : Z := Z.of_nat (offset (snd <$> rs) i).

Definition rules_with (rs : list (Z * list Z)) : list (IRL * (Z * list Z)) := zip (t_irl_stack p) rs.
Definition blocks (rs : list (Z * list Z)) : list (list AHM) := imap (fun i x => rule_items i (base_of rs i) x) (rules_with rs).
Definition all_items (rs : list (Z * list Z)) : list AHM := mjoin (blocks rs).
(** The number of the first item of a rule. *)
Definition first_item (rs : list (Z * list Z)) (i : nat) : nat := offset (blocks rs) i.

(** What is known of a rule once it has its items. *)
Definition irl_with_items (rs : list (Z * list Z)) (i : nat) (r : Z * list Z) : IRL_TABLE :=
  MkIRL_TABLE (Some (Z.of_nat (first_item rs i))) (Some (Z.of_nat (S (propers null r.2)))) (Some (base_of rs i))
    (match last_proper_at null 0 None r.2 with Some q => base_of rs i + q | None => -1 end) false.

Section rules.
Context (rs : list (Z * list Z)).

Lemma rule_items_length i base x : length (rule_items i base x) = S (propers null x.2.2).
Proof. unfold rule_items. by rewrite length_fmap, dots_length. Qed.

Lemma rules_with_lookup i irl r : t_irl_stack p !! i = Some irl -> rs !! i = Some r -> rules_with rs !! i = Some (irl, r).
Proof. intros Hi Hr. unfold rules_with. rewrite lookup_zip_with, Hi, Hr. done. Qed.

Lemma blocks_lookup i b : blocks rs !! i = Some b <-> exists irl r, t_irl_stack p !! i = Some irl /\ rs !! i = Some r /\ b = rule_items i (base_of rs i) (irl, r).
Proof.
  unfold blocks, rules_with. rewrite list_lookup_imap, lookup_zip_with. split.
  - destruct (t_irl_stack p !! i) as [irl|], (rs !! i) as [r|]; try done. intros [= <-]. by exists irl, r.
  - by intros (irl&r&->&->&->).
Qed.

Lemma blocks_length : length (t_irl_stack p) = length rs -> length (blocks rs) = length rs.
Proof. intros Hlen. unfold blocks, rules_with. rewrite length_imap, length_zip_with. lia. Qed.

Lemma base_of_S i r : rs !! i = Some r -> base_of rs (S i) = base_of rs i + Z.of_nat (length r.2).
Proof. intros Hr. unfold base_of. rewrite (offset_S _ _ r.2) by (by rewrite list_lookup_fmap, Hr). lia. Qed.

Lemma first_item_S i irl r : t_irl_stack p !! i = Some irl -> rs !! i = Some r -> first_item rs (S i) = (first_item rs i + S (propers null r.2))%nat.
Proof.
  intros Hi Hr. unfold first_item. rewrite (offset_S _ _ (rule_items i (base_of rs i) (irl, r))) by (apply blocks_lookup; by exists irl, r). by rewrite rule_items_length.
Qed.

(** The item number [m], with its rule and its dot. *)
Lemma all_items_lookup m x : all_items rs !! m = Some x -> exists i irl r k d, t_irl_stack p !! i = Some irl /\ rs !! i = Some r
  /\ dots null 0 0 0 None r.2 !! k = Some d /\ x = item_of i irl (base_of rs i) d /\ m = (first_item rs i + k)%nat /\ (m < first_item rs (S i))%nat.
Proof.
  intros (i&b&k&Hb&Hk&->&Hlt)%join_lookup. apply blocks_lookup in Hb as (irl&r&Hi&Hr&->). unfold rule_items in Hk. cbn [fst snd] in Hk.
  apply list_lookup_fmap_Some in Hk as (d&->&Hd). by exists i, irl, r, k, d.
Qed.

Lemma all_items_at i irl r k d : t_irl_stack p !! i = Some irl -> rs !! i = Some r -> dots null 0 0 0 None r.2 !! k = Some d ->
  all_items rs !! (first_item rs i + k)%nat = Some (item_of i irl (base_of rs i) d).
Proof.
  intros Hi Hr Hd. eapply join_at; [apply blocks_lookup; by exists irl, r|]. unfold rule_items. cbn [fst snd]. by rewrite list_lookup_fmap, Hd.
Qed.
End rules.
End items.
