(* ===== verification/ItemsCreate.v ===== *)
(** * Items: how they are created

    [create_ahms] leaves the items of [ItemsSpec], in order, the number of items that was
    counted first being right, and for each rule its first item, its number of items and
    where its symbols start. *)
From stdpp Require Import list.
From S2P Require Import Prelude MarpaGrammar MarpaRules Rewrite RewriteSteps RewriteLanguage RewriteShape Cil Items ItemsSpec.

Section reads.
Context (g : GRAMMAR) (rs : list (Z * list Z)) (p : INTERNAL) (Hs : shape g rs p).
#[local] Abbreviation null := (null_in p).

(** ** Reads *)

Lemma grammar_rules : t_xrl_stack (t_g p) = t_xrl_stack g.
Proof using Hs. by destruct (sh_grammar _ _ _ Hs) as [->| ->]. Qed.

Lemma irls_length : length (t_irl_stack p) = length rs.
Proof using Hs. by rewrite <- (length_fmap irl_view), (sh_rules _ _ _ Hs), length_imap. Qed.

Lemma irl_at i irl : t_irl_stack p !! i = Some irl -> exists r, rs !! i = Some r /\ ID_of_IRL irl = Z.of_nat i
  /\ Length_of_IRL irl = Z.of_nat (length r.2) /\ t_nsyid_array irl = Some <$> (r.1 :: r.2) /\ rule_shape p r.
Proof using Hs.
  intros Hi. pose proof (f_equal (lookup i) (sh_rules _ _ _ Hs)) as Hv. rewrite list_lookup_fmap, list_lookup_imap, Hi in Hv.
  destruct (rs !! i) as [r|] eqn:Hr; [|done]. injection Hv as H1 H2 H3. exists r. split_and!; [done..|]. eapply (sh_rule _ _ _ Hs), list_elem_of_lookup_2, Hr.
Qed.

Lemma rule_at i r : rs !! i = Some r -> exists irl, t_irl_stack p !! i = Some irl.
Proof using Hs. intros Hr. apply lookup_lt_is_Some_2. rewrite irls_length. by eapply lookup_lt_Some. Qed.

Lemma irl_lhs_read irl l rhs : t_nsyid_array irl = Some <$> (l :: rhs) -> LHSID_of_IRL irl = Ok l.
Proof. intros Ha. unfold LHSID_of_IRL. by rewrite Ha. Qed.

Lemma irl_rhs_read irl l rhs k y : t_nsyid_array irl = Some <$> (l :: rhs) -> rhs !! k = Some y -> RHSID_of_IRL irl (Z.of_nat k) = Ok y.
Proof.
  intros Ha Hy. unfold RHSID_of_IRL. rewrite Ha. replace (Z.of_nat k + 1) with (Z.of_nat (S k)) by lia.
  rewrite (rd_at _ _ (Some y)); [done|]. rewrite list_lookup_fmap. simpl. by rewrite Hy.
Qed.

Lemma nulling_read y : valid_nsy p y -> nsy_is_nulling p y = Ok (null y).
Proof.
  intros [H0 Hy]. unfold nsy_is_nulling, NSY_by_ID, null_in, nsy_flag, NSY_Count_of_G in *.
  destruct (lookup_lt_is_Some_2 (t_nsy_stack p) (Z.to_nat y)) as [x Hx]; [lia|]. rewrite Hx. rewrite <- (Z2Nat.id y) by lia. by rewrite (rd_at _ _ _ Hx).
Qed.

(** ** The number of items *)
Lemma count_ahms_ok : count_ahms p = Ok (Z.of_nat (length (all_items p rs))).
Proof using Hs.
  enough (ends_in (count_ahms p) (fun n => n = Z.of_nat (length (all_items p rs)))) as (n&->&->) by done.
  unfold count_ahms. apply (ends_list (fun i n => n = Z.of_nat (first_item p rs i)) (t_irl_stack p)); [done|done| |].
  - intros i irl n Hi ->. destruct (irl_at i irl Hi) as (r&Hr&_&Hlen&Ha&Hsh). unfold IRL_by_ID. rewrite (rd_at _ _ _ Hi). cbn [mbind res_bind].
    eapply (ends_bind _ _ (fun n => n = Z.of_nat (first_item p rs i + propers null r.2))); [|intros n ->; apply ends_Ok; rewrite (first_item_S p rs _ _ _ Hi Hr); lia].
    apply (ends_list (fun k n => n = Z.of_nat (first_item p rs i + propers null (take k r.2))) r.2); [by rewrite Hlen, Nat2Z.id|by rewrite Nat.add_0_r| |by rewrite firstn_all].
    intros k y n Hy ->. rewrite (irl_rhs_read _ _ _ _ _ Ha Hy). cbn [mbind res_bind].
    rewrite (nulling_read y) by (apply (rs_rhs _ _ Hsh); by eapply list_elem_of_lookup_2). cbn [mbind res_bind]. apply ends_Ok.
    rewrite (take_S_r _ _ _ Hy), propers_app. simpl. destruct (null y); lia.
  - intros n ->. unfold first_item, all_items. rewrite irls_length, <- (blocks_length p rs irls_length). by rewrite offset_all.
Qed.
End reads.

(** ** The items of a rule *)

(** The items written so far, [m] cells being left. *)
Definition writing (t : TABLES) (tb : list IRL_TABLE) (done : list AHM) (m : nat) : TABLES :=
  set_t_irl_tables tb (set_t_ahms ((Some <$> done) ++ replicate m None) t).

Lemma ahm_write_next t tb done m x : ahm_write (writing t tb done (S m)) (Z.of_nat (length done)) x = Ok (writing t tb (done ++ [x]) m).
Proof.
  unfold ahm_write. rewrite wr_total by (cbn; rewrite length_app, length_fmap; cbn; lia). cbn [mbind res_bind]. do 2 f_equal. unfold writing.
  cbn. do 2 f_equal. rewrite Nat2Z.id, insert_app_r_alt by (by rewrite length_fmap). rewrite length_fmap, Nat.sub_diag, fmap_app, <- app_assoc. done.
Qed.

Lemma ahm_read t tb done m k x : done !! k = Some x -> AHM_by_ID (writing t tb done m) (Z.of_nat k) = Ok x.
Proof. intros Hx. unfold AHM_by_ID. cbn. rewrite (rd_at _ _ (Some x)); [done|]. apply lookup_app_l_Some. by rewrite list_lookup_fmap, Hx. Qed.

Lemma irl_table_upd t tb done m i e f : tb !! i = Some e -> upd_irl_table (writing t tb done m) (Z.of_nat i) f = Ok (writing t (<[i := f e]> tb) done m).
Proof.
  intros He. unfold upd_irl_table, irl_table. cbn. rewrite (rd_at _ _ _ He). cbn. rewrite wr_total by (apply lookup_lt_Some in He; lia). cbn. by rewrite Nat2Z.id.
Qed.

Section rule.
Context (g : GRAMMAR) (rs : list (Z * list Z)) (p : INTERNAL) (Hs : shape g rs p) (start : Z) (Hstart : t_start_irl p = Some start).
Context (t : TABLES) (Ht : t_internal t = p).
Context (i : nat) (irl : IRL) (r : Z * list Z) (Hi : t_irl_stack p !! i = Some irl) (Hr : rs !! i = Some r) (base first : Z).
#[local] Abbreviation null := (null_in p).

Lemma rule_position_ok position : xrl_of_ahm p irl position = Ok (Source_XRL_of_IRL irl, rule_position p irl position).
Proof using Hs Hi.
  unfold xrl_of_ahm, rule_position. destruct (Source_XRL_of_IRL irl) as [j|] eqn:Hj; [|done]. pose proof (sh_source _ _ _ Hs _ _ _ Hi Hj) as Hb.
  unfold XRL_by_ID, XRL_Count_of_G in *. rewrite <- (grammar_rules g rs p Hs) in Hb. destruct (lookup_lt_is_Some_2 (t_xrl_stack (t_g p)) (Z.to_nat j)) as [x Hx]; [lia|].
  rewrite Hx. rewrite <- (Z2Nat.id j) at 1 by lia. by rewrite (rd_at _ _ _ Hx).
Qed.

Lemma ahm_new_ok d : ahm_new p (Z.of_nat i) (dot_number d) (dot_nulls d) (dot_symbol d) (dot_position d) (match dot_last d with None => -1 | Some q => base + q end)
    (if dot_symbol d <? 0 then None else Some false) = Ok (item_of p i irl base d).
Proof using Hs Hstart Hi.
  unfold ahm_new, IRL_by_ID. rewrite (rd_at _ _ _ Hi). cbn [mbind res_bind]. unfold item_of. rewrite Hstart.
  destruct (irl_at g rs p Hs i irl Hi) as (r'&_&Hid&_). pose proof (sh_start _ _ _ Hs _ Hstart) as Hb. unfold IRL_Count_of_G in Hb.
  destruct (lookup_lt_is_Some_2 (t_irl_stack p) (Z.to_nat start)) as [sx Hsx]; [lia|]. destruct (irl_at g rs p Hs _ sx Hsx) as (r''&_&Hsid&_).
  destruct (dot_number d =? 0); cbn [deref mbind res_bind].
  - unfold IRL_by_ID. rewrite <- (Z2Nat.id start) at 1 by lia. rewrite (rd_at _ _ _ Hsx). cbn [mbind res_bind]. rewrite rule_position_ok. cbn [mbind res_bind fst snd default andb].
    by rewrite Hid, Hsid, Z2Nat.id by lia.
  - rewrite rule_position_ok. done.
Qed.

(** The last item of the rule, if there is one. *)
Definition preceded (number : Z) (last : option Z) (done : list AHM) : Prop :=
  match last with None => number = 0 | Some q => 0 < number /\ exists done0 x, done = done0 ++ [x] /\ Position_of_AHM x = q end.

Lemma symi_ok tb e done m number last : tb !! i = Some e -> SYMI_of_IRL e = Some base -> preceded number last done -> 
  (if number =? 0 then Ok (-1) else symi_after (writing t tb done m) (Z.of_nat i) (Z.of_nat (length done))) = Ok (match last with None => -1 | Some q => base + q end).
Proof.
  intros He Hb Hp. destruct last as [q|]; simpl in Hp; [|by subst number]. destruct Hp as (Hn&done0&x&->&<-). destruct (Z.eqb_spec number 0); [lia|].
  unfold symi_after, irl_table. cbn [writing t_irl_tables set_t_irl_tables]. rewrite (rd_at _ _ _ He). cbn [mbind res_bind]. rewrite Hb. cbn [mbind res_bind written].
  rewrite length_app. cbn [length]. replace (Z.of_nat (length done0 + 1) - 1) with (Z.of_nat (length done0)) by lia.
  rewrite (ahm_read _ _ _ _ _ x); [done|]. by rewrite lookup_app_r, Nat.sub_diag by lia.
Qed.

Lemma dotted_ok tb e done m position nulls number last y : tb !! i = Some e -> SYMI_of_IRL e = Some base -> preceded number last done ->
  Z.of_nat (length done) = first + number -> 0 <= y ->
  dotted_ahm (writing t tb done (S m)) (Z.of_nat i) first (Z.of_nat (length done)) nulls y position
  = Ok (writing t tb (done ++ [item_of p i irl base (Dotted y position nulls number last)]) m).
Proof using Hs Hstart Ht Hi.
  intros He Hb Hp Hl Hy. unfold dotted_ahm. replace (Z.of_nat (length done) - first) with number by lia. rewrite (symi_ok _ _ _ _ _ _ He Hb Hp). cbn [mbind res_bind].
  change (t_internal (writing t tb done (S m))) with (t_internal t). rewrite Ht. pose proof (ahm_new_ok (Dotted y position nulls number last)) as Hn. cbn in Hn.
  destruct (Z.ltb_spec y 0); [lia|]. rewrite Hn. cbn [mbind res_bind]. apply ahm_write_next.
Qed.

Lemma completed_ok tb e done m nulls number last : tb !! i = Some e -> SYMI_of_IRL e = Some base -> preceded number last done -> 0 < number ->
  Z.of_nat (length done) = first + number ->
  completed_ahm (writing t tb done (S m)) (Z.of_nat i) first (Z.of_nat (length done)) nulls
  = Ok (writing t tb (done ++ [item_of p i irl base (Dotted (-1) (-1) nulls number last)]) m).
Proof using Hs Hstart Ht Hi.
  intros He Hb Hp Hn0 Hl. unfold completed_ahm. replace (Z.of_nat (length done) - first) with number by lia. pose proof (symi_ok _ _ _ (S m) _ _ He Hb Hp) as Hsy.
  destruct (Z.eqb_spec number 0); [lia|]. rewrite Hsy. cbn [mbind res_bind].
  change (t_internal (writing t tb done (S m))) with (t_internal t). rewrite Ht. pose proof (ahm_new_ok (Dotted (-1) (-1) nulls number last)) as Hn. cbn in Hn.
  rewrite Hn. cbn [mbind res_bind]. apply ahm_write_next.
Qed.
(** The loop over the right-hand side, then the item at the end: the symbols before
    [position] have been passed. *)
Context (tb : list IRL_TABLE) (e : IRL_TABLE) (He : tb !! i = Some e) (Hbase : SYMI_of_IRL e = Some base).
Definition passed (last : option Z) : list IRL_TABLE := <[i := set_Last_Proper_SYMI_of_IRL (match last with Some q => base + q | None => -1 end) e]> tb.

Lemma passed_at last : passed last !! i = Some (set_Last_Proper_SYMI_of_IRL (match last with Some q => base + q | None => -1 end) e).
Proof using He. apply list_lookup_insert_eq. by eapply lookup_lt_Some. Qed.

Lemma ahms_loop rhs position nulls number last done m : drop position r.2 = rhs -> preceded number last done ->
  Z.of_nat (length done) = first + number -> (0 < propers null rhs)%nat \/ 0 < number ->
  ends_in (r ← for_res (length rhs) (Z.of_nat position) (fun rhs_ix c =>
        let '(current_item, leading_nulls, t) := c in
        rh_nsyid ← RHSID_of_IRL irl rhs_ix;
        nulling ← nsy_is_nulling (t_internal t) rh_nsyid;
        if negb nulling then
          t ← upd_irl_table t (Z.of_nat i) (set_Last_Proper_SYMI_of_IRL (base + rhs_ix));
          t ← dotted_ahm t (Z.of_nat i) first current_item leading_nulls rh_nsyid rhs_ix;
          Ok (current_item + 1, 0, t)
        else Ok (current_item, leading_nulls + 1, t)) (Z.of_nat (length done), nulls, writing t (passed last) done (S (propers null rhs) + m));
    let '(current_item, leading_nulls, t) := r in
    t ← completed_ahm t (Z.of_nat i) first current_item leading_nulls;
    Ok (current_item + 1, t))
  (fun c => let done' := done ++ (item_of p i irl base <$> dots null (Z.of_nat position) nulls number last rhs) in
     c = (Z.of_nat (length done'), writing t (passed (last_proper_at null (Z.of_nat position) last rhs)) done' m)).
Proof using Hs Hstart Ht Hi Hr He Hbase.
  destruct (irl_at g rs p Hs i irl Hi) as (r'&Hr'&_&_&Ha&Hsh). rewrite Hr in Hr'. injection Hr' as <-.
  revert position nulls number last done. induction rhs as [|y rhs IH]; intros position nulls number last done Hd Hp Hl Hn.
  - cbn [length for_res mbind res_bind propers] in *. rewrite (completed_ok _ _ _ _ _ _ _ (passed_at last) Hbase Hp) by (done || lia). cbn [mbind res_bind].
    apply ends_Ok. cbn. rewrite length_app. cbn. do 2 f_equal. lia.
  - assert (r.2 !! position = Some y) as Hy by (rewrite <- (Nat.add_0_r position), <- lookup_drop, Hd; done).
    assert (valid_nsy p y) as Hv by (apply (rs_rhs _ _ Hsh); by eapply list_elem_of_lookup_2).
    assert (drop (S position) r.2 = rhs) as Hd' by (rewrite <- Nat.add_1_r, <- drop_drop, Hd; done).
    cbn [length for_res]. rewrite (irl_rhs_read _ _ _ _ _ Ha Hy). cbn [mbind res_bind]. change (t_internal (writing t _ done _)) with (t_internal t). rewrite Ht, (nulling_read p y Hv).
    cbn [mbind res_bind]. cbn [propers dots last_proper_at] in *. replace (Z.of_nat position + 1) with (Z.of_nat (S position)) by lia. destruct (null y); cbn [negb].
    + apply IH; [done..|]. by destruct Hn; [left|right].
    + rewrite (irl_table_upd _ _ _ _ _ _ _ (passed_at last)). cbn [mbind res_bind]. unfold passed at 1. rewrite list_insert_insert_eq. fold (passed (Some (Z.of_nat position))).
      change (<[i:=_]> tb) with (passed (Some (Z.of_nat position))).
      change (S (S (propers null rhs)) + m)%nat with (S (S (propers null rhs) + m)). rewrite (dotted_ok _ _ _ _ _ _ _ _ _ (passed_at _) Hbase Hp Hl) by apply Hv. cbn [mbind res_bind].
      set (x := item_of _ _ _ _ _). replace (Z.of_nat (length done) + 1) with (Z.of_nat (length (done ++ [x]))) by (rewrite length_app; cbn; lia).
      eapply ends_mono; [apply (IH (S position) 0 (number + 1) (Some (Z.of_nat position)) (done ++ [x])); [done| | |]|].
      * split; [|by exists done, x]. destruct last; simpl in Hp; [|subst number]; lia.
      * rewrite length_app. cbn. lia.
      * right. destruct last; simpl in Hp; [|subst number]; lia.
      * intros c. rewrite <- app_assoc. done.
Qed.
End rule.

(** A rule that has no items yet, one that has its items but does not know the first one. *)
Definition no_items : IRL_TABLE := MkIRL_TABLE None None None (-1) false.
Definition counted_items (p : INTERNAL) (rs : list (Z * list Z)) (i : nat) (r : Z * list Z) : IRL_TABLE := set_First_AHM_of_IRL None (irl_with_items p rs i r).

Section create.
Context (g : GRAMMAR) (rs : list (Z * list Z)) (p : INTERNAL) (Hs : shape g rs p) (start : Z) (Hstart : t_start_irl p = Some start).
Context (t : TABLES) (Ht : t_internal t = p).
#[local] Abbreviation null := (null_in p).

Lemma irl_ahms_ok i irl r tb done m : t_irl_stack p !! i = Some irl -> rs !! i = Some r -> tb !! i = Some no_items ->
  irl_ahms (writing t tb done (S (propers null r.2) + m)) (Z.of_nat i) (Z.of_nat (length done)) (base_of rs i)
  = Ok (let done' := done ++ rule_items p i (base_of rs i) (irl, r) in (Z.of_nat (length done'), writing t (<[i := counted_items p rs i r]> tb) done' m)).
Proof using Hs Hstart Ht.
  intros Hi Hr He. destruct (irl_at g rs p Hs i irl Hi) as (r'&Hr'&_&Hlen&Ha&Hsh). rewrite Hr in Hr'. injection Hr' as <-.
  unfold irl_ahms. change (t_internal (writing t tb done _)) with (t_internal t). rewrite Ht. unfold IRL_by_ID. rewrite (rd_at _ _ _ Hi). cbn [mbind res_bind].
  rewrite (irl_table_upd _ _ _ _ _ _ _ He). cbn [mbind res_bind]. set (e := set_SYMI_of_IRL (Some (base_of rs i)) no_items). set (tb1 := <[i:=_]> tb).
  assert (tb1 !! i = Some e) as He1 by (apply list_lookup_insert_eq; by eapply lookup_lt_Some).
  destruct (rs_proper _ _ Hsh) as (y&Hy&Hn). pose proof (propers_some _ _ _ Hy Hn) as Hpos.
  destruct (ahms_loop g rs p Hs start Hstart t Ht i irl r Hi Hr (base_of rs i) (Z.of_nat (length done)) tb1 e He1 eq_refl r.2 0 0 0 None done m) as (c&Hc&Hres); [done|done|lia|by left|].
  cbn zeta in Hres. subst c. rewrite Hlen, Nat2Z.id. unfold passed at 1 in Hc. rewrite (list_insert_id tb1) in Hc by done.
  change (Z.of_nat 0) with 0 in Hc. apply bind_Ok in Hc as ([[c n] t1]&->&Hc). cbn [mbind res_bind]. apply bind_Ok in Hc as (t2&->&[= Hc1 ->]). cbn [mbind res_bind]. rewrite Hc1.
  rewrite (irl_table_upd _ _ _ _ _ _ _ (passed_at i _ tb1 e He1 _)). cbn [mbind res_bind]. unfold passed, tb1. rewrite !list_insert_insert_eq.
  assert (Z.of_nat (length (done ++ (item_of p i irl (base_of rs i) <$> dots null 0 0 0 None r.2))) - Z.of_nat (length done) = Z.of_nat (S (propers null r.2))) as -> by (rewrite length_app, length_fmap, dots_length; lia). done.
Qed.
Lemma first_item_all : first_item p rs (length rs) = length (all_items p rs).
Proof using Hs. unfold first_item, all_items. by rewrite <- (blocks_length p rs (irls_length g rs p Hs)), offset_all. Qed.

Lemma first_item_le i : (i <= length rs)%nat -> (first_item p rs i <= length (all_items p rs))%nat.
Proof using Hs. intros Hi. rewrite <- first_item_all. by apply offset_mono. Qed.

(** The rules before the number [i] have their items. *)
Definition created_to (i : nat) : TABLES :=
  writing t (imap (counted_items p rs) (take i rs) ++ replicate (length rs - i) no_items) (mjoin (take i (blocks p rs))) (length (all_items p rs) - first_item p rs i).

Lemma created_S i irl r : t_irl_stack p !! i = Some irl -> rs !! i = Some r ->
  irl_ahms (created_to i) (Z.of_nat i) (Z.of_nat (first_item p rs i)) (base_of rs i) = Ok (Z.of_nat (first_item p rs (S i)), created_to (S i)).
Proof using Hs Hstart Ht.
  intros Hi Hr. pose proof (lookup_lt_Some _ _ _ Hr) as Hlt. pose proof (first_item_S p rs _ _ _ Hi Hr) as HS. pose proof (first_item_le (S i) ltac:(lia)) as Hle.
  assert (blocks p rs !! i = Some (rule_items p i (base_of rs i) (irl, r))) as Hb by (apply blocks_lookup; by exists irl, r).
  unfold created_to. replace (length (all_items p rs) - first_item p rs i)%nat with (S (propers null r.2) + (length (all_items p rs) - first_item p rs (S i)))%nat by lia.
  replace (first_item p rs i) with (length (mjoin (take i (blocks p rs)))) at 1 by apply length_join_take.
  assert (length (imap (counted_items p rs) (take i rs)) = i) as Hl by (rewrite length_imap, length_take; lia).
  replace (length rs - i)%nat with (S (length rs - S i)) by lia. rewrite (irl_ahms_ok i irl r _ _ _ Hi Hr) by (by rewrite lookup_app_r, Hl, Nat.sub_diag by lia).
  cbv zeta. rewrite <- (join_take_S _ _ _ Hb), length_join_take. do 3 f_equal.
  rewrite insert_app_r_alt, Hl, Nat.sub_diag by lia. rewrite (take_S_r _ _ _ Hr), imap_app, length_take, <- app_assoc. cbn. by replace (i `min` length rs + 0)%nat with i by lia.
Qed.

(** ** The first item of each rule *)

(** What is known when the items from the number [b] on have been looked at. *)
Definition first_from (b i : nat) (r : Z * list Z) : IRL_TABLE :=
  set_First_AHM_of_IRL (if decide (first_item p rs (S i) <= b)%nat then None else Some (Z.of_nat (Nat.max (first_item p rs i) b))) (irl_with_items p rs i r).

Lemma first_from_step t' b x : all_items p rs !! b = Some x ->
  upd_irl_table (writing t' (imap (first_from (S b)) rs) (all_items p rs) 0) (IRL_of_AHM x) (set_First_AHM_of_IRL (Some (Z.of_nat b)))
  = Ok (writing t' (imap (first_from b) rs) (all_items p rs) 0).
Proof using Hs.
  intros (i&irl&r&k&d&Hi&Hr&Hd&->&Hb&Hlt)%all_items_lookup. cbn [IRL_of_AHM item_of].
  rewrite (irl_table_upd _ _ _ _ _ (first_from (S b) i r)) by (by rewrite list_lookup_imap, Hr). do 2 f_equal. apply list_eq. intros j.
  destruct (decide (i = j)) as [<-|Hne].
  - rewrite list_lookup_insert_eq by (rewrite length_imap; by eapply lookup_lt_Some). rewrite list_lookup_imap, Hr. cbn [fmap option_fmap option_map]. f_equal.
    unfold first_from. rewrite (decide_False (P := (_ <= b)%nat)) by lia. by rewrite (Nat.max_r (first_item p rs i) b) by lia.
  - rewrite list_lookup_insert_ne, !list_lookup_imap by done. destruct (rs !! j) as [r'|] eqn:Hr'; [|done]. cbn [fmap option_fmap option_map]. f_equal. unfold first_from.
    assert (first_item p rs (S j) <= first_item p rs i \/ first_item p rs (S i) <= first_item p rs j)%nat as [Hj|Hj].
    { destruct (decide (j < i)%nat); [left|right]; apply offset_mono; lia. }
    + by rewrite !decide_True by lia.
    + destruct (rule_at g rs p Hs j r' Hr') as [irl' Hi']. pose proof (first_item_S p rs _ _ _ Hi' Hr'). destruct (decide (first_item p rs (S j) <= S b)%nat), (decide (first_item p rs (S j) <= b)%nat); try lia.
      by rewrite !Nat.max_l by lia.
Qed.

Lemma first_ahms_ok t' : first_ahms (writing t' (imap (counted_items p rs) rs) (all_items p rs) 0) (Z.of_nat (length (all_items p rs)))
  = Ok (writing t' (imap (irl_with_items p rs) rs) (all_items p rs) 0).
Proof using Hs.
  set (n := length (all_items p rs)). enough (ends_in (first_ahms (writing t' (imap (counted_items p rs) rs) (all_items p rs) 0) (Z.of_nat n))
    (fun a => a = writing t' (imap (irl_with_items p rs) rs) (all_items p rs) 0)) as (a&->&->) by done.
  unfold first_ahms. rewrite Nat2Z.id. apply (ends_for (fun s a => a = writing t' (imap (first_from (n - Z.to_nat s)) rs) (all_items p rs) 0)).
  - f_equal. apply imap_ext. intros i r Hr. unfold first_from. rewrite decide_True; [done|]. rewrite Nat.sub_0_r. apply first_item_le. apply lookup_lt_Some in Hr. lia.
  - intros s a Hs' ->. destruct (lookup_lt_is_Some_2 (all_items p rs) (n - S (Z.to_nat s))) as [x Hx]; [unfold n; lia|].
    replace (Z.of_nat n - 1 - s) with (Z.of_nat (n - S (Z.to_nat s))) by lia. rewrite (ahm_read _ _ _ _ _ _ Hx). cbn [mbind res_bind].
    replace (n - Z.to_nat s)%nat with (S (n - S (Z.to_nat s))) by lia. rewrite (first_from_step _ _ _ Hx). apply ends_Ok. by replace (n - Z.to_nat (s + 1))%nat with (n - S (Z.to_nat s))%nat by lia.
  - intros a ->. f_equal. apply imap_ext. intros i r Hr. unfold first_from. rewrite Nat2Z.id, Nat.sub_diag. destruct (rule_at g rs p Hs i r Hr) as [irl Hi].
    pose proof (first_item_S p rs _ _ _ Hi Hr). rewrite decide_False by lia. by rewrite Nat.max_0_r.
Qed.

(** ** All the items *)
Lemma create_ahms_ok : t_irl_tables t = replicate (length rs) no_items ->
  create_ahms t = Ok (writing (set_t_ahm_count (Some (Z.of_nat (length (all_items p rs)))) (set_t_symbol_instance_count (Some (base_of rs (length rs))) t))
    (imap (irl_with_items p rs) rs) (all_items p rs) 0).
Proof using Hs Hstart Ht.
  intros Htb. unfold create_ahms. rewrite Ht, (count_ahms_ok g rs p Hs). cbn [mbind res_bind]. rewrite Nat2Z.id. set (n := length (all_items p rs)).
  assert (set_t_ahms (replicate n None) t = created_to 0) as ->.
  { unfold created_to, writing, first_item, offset. cbn [take mjoin list_join fmap list_fmap imap app sum_list length]. rewrite !Nat.sub_0_r. fold n. rewrite <- Htb. by destruct t. }
  match goal with |- (?m ≫= ?k) = _ => enough (ends_in m (fun c => c = (Z.of_nat n, base_of rs (length rs), created_to (length rs)))) as (c&->&->) end.
  { cbn [mbind res_bind]. rewrite Z.eqb_refl. cbn [negb]. unfold created_to. fold n. rewrite first_item_all, Nat.sub_diag, firstn_all, app_nil_r. fold n. rewrite Nat.sub_diag.
    rewrite <- (blocks_length p rs (irls_length g rs p Hs)), firstn_all. fold (all_items p rs).
    exact (first_ahms_ok (set_t_ahm_count (Some (Z.of_nat n)) (set_t_symbol_instance_count (Some (base_of rs (length (blocks p rs)))) t))). }
  apply (ends_list (fun i c => c = (Z.of_nat (first_item p rs i), base_of rs i, created_to i)) (t_irl_stack p)); [unfold irl_count; by rewrite Ht|done| |].
  - intros i irl c Hi ->. destruct (irl_at g rs p Hs i irl Hi) as (r&Hr&_&Hlen&_). change (t_internal (created_to i)) with (t_internal t). rewrite Ht.
    unfold IRL_by_ID. rewrite (rd_at _ _ _ Hi). cbn [mbind res_bind]. rewrite (created_S _ _ _ Hi Hr). cbn [mbind res_bind fst snd]. apply ends_Ok. by rewrite Hlen, (base_of_S rs _ _ Hr).
  - intros c ->. by rewrite (irls_length g rs p Hs), first_item_all.
Qed.
End create.
