(* ===== verification/ItemsTables.v ===== *)
(** * Items: the rules of each symbol, predictions, right recursion

    The matrices of the last part of the precomputation, as relations between symbols and
    rules: which rules have a symbol as their left-hand side, which rules a symbol predicts
    (those whose left-hand side it reaches by left corners), which rules are right
    recursive. *)
From stdpp Require Import sets gmap list relations.
From S2P Require Import Prelude Avl AvlTree AvlProbe AvlTheorems BitVector BitVectorTheorems Matrix MatrixTheorems Cil CilTheorems MarpaGrammar MarpaRules Rewrite RewriteSteps RewriteLanguage RewriteShape Relations Items ItemsSpec ItemsCreate.

(** The sizes that an [int] and the index of a word have room for. *)
Record tables_fit (p : INTERNAL) : Prop := {
  tf_symbols : 2 * NSY_Count_of_G p <= INT_MAX;
  tf_rules : 2 * IRL_Count_of_G p <= INT_MAX;
  tf_symbol_matrix : NSY_Count_of_G p * (4 * row_words (NSY_Count_of_G p)) < UINT_MOD;
  tf_rule_matrix : NSY_Count_of_G p * (4 * row_words (IRL_Count_of_G p)) < UINT_MOD;
  tf_items : Z.of_nat (sum_list ((fun x => S (Z.to_nat (Length_of_IRL x))) <$> t_irl_stack p)) <= INT_MAX
}.

(** The rule number [z] has the left-hand side [y]. *)
Definition rule_lhs (rs : list (Z * list Z)) (y z : Z) : Prop := exists k r, z = Z.of_nat k /\ rs !! k = Some r /\ r.1 = y.

(** The internal grammar [p], with another arena. *)
Definition over (p : INTERNAL) (ca : CILAR) : INTERNAL := set_t_g (set_t_cilar ca (t_g p)) p.
Definition st (p : INTERNAL) (ca : CILAR) (t : TABLES) : TABLES := set_t_internal (over p ca) t.

Lemma shape_over g rs p ca : shape g rs p -> shape (set_t_cilar ca g) rs (over p ca).
Proof.
  intros [Hg H1 H2 H3 H4 H5 H6 H7 H8]. split; [|done| |done..]; [destruct Hg as [E|E]; [left|right]; unfold over; cbn; by rewrite E|]. intros r Hr. by destruct (H2 r Hr).
Qed.

Section tables.
Context `{Library} (junk : nat -> list Z).
Context (g : GRAMMAR) (rs : list (Z * list Z)) (p : INTERNAL) (Hs : shape g rs p) (Hfit : tables_fit p) (start : Z) (Hstart : t_start_irl p = Some start).
Implicit Types (t : TABLES) (ca : CILAR).
#[local] Abbreviation nsys := (NSY_Count_of_G p).
#[local] Abbreviation irls := (IRL_Count_of_G p).

Lemma rules_number : irls = Z.of_nat (length rs).
Proof using Hs. unfold IRL_Count_of_G. by rewrite (irls_length g rs p Hs). Qed.

Lemma symbols_some : 0 < nsys.
Proof using Hs Hstart.
  pose proof (sh_start _ _ _ Hs _ Hstart) as Hb. unfold IRL_Count_of_G in Hb. destruct (lookup_lt_is_Some_2 (t_irl_stack p) (Z.to_nat start)) as [x Hx]; [lia|].
  destruct (irl_at g rs p Hs _ _ Hx) as (r&_&_&_&_&[[H1 H2] _ _ _]). lia.
Qed.

Lemma rule_lhs_range y z : rule_lhs rs y z -> 0 <= y < nsys /\ 0 <= z < irls.
Proof using Hs.
  intros (k&r&->&Hr&<-). rewrite rules_number. split; [|apply lookup_lt_Some in Hr; lia]. destruct (rule_at g rs p Hs _ _ Hr) as [irl Hi].
  destruct (irl_at g rs p Hs _ _ Hi) as (r'&Hr'&_&_&_&Hsh). simplify_eq. apply Hsh.
Qed.

Lemma counts_fit : 0 < nsys <= INT_MAX /\ 0 <= irls <= INT_MAX.
Proof using Hs Hfit Hstart. pose proof symbols_some. destruct Hfit. unfold IRL_Count_of_G in *. lia. Qed.

(** A rule is read: its symbols. *)
Lemma irl_read k : (k < length rs)%nat -> exists irl r, t_irl_stack p !! k = Some irl /\ rs !! k = Some r /\ IRL_by_ID p (Z.of_nat k) = Ok irl /\ LHSID_of_IRL irl = Ok r.1
  /\ t_nsyid_array irl = Some <$> (r.1 :: r.2) /\ Length_of_IRL irl = Z.of_nat (length r.2) /\ rule_shape p r.
Proof using Hs.
  intros Hk. rewrite <- (irls_length g rs p Hs) in Hk. destruct (lookup_lt_is_Some_2 _ _ Hk) as [irl Hi]. destruct (irl_at g rs p Hs _ _ Hi) as (r&Hr&_&Hlen&Ha&Hsh).
  exists irl, r. split_and!; [done|done|by apply rd_at|by eapply irl_lhs_read|done|done|done].
Qed.

(** ** The rules of each left-hand side *)

Lemma irl_by_lhs_ok ca t : ends_in (irl_by_lhs junk (st p ca t)) (fun m => mat m nsys irls (rule_lhs rs)).
Proof using Hs Hfit Hstart.
  destruct counts_fit as [Hn Hr]. unfold irl_by_lhs. cbn [t_internal st set_t_internal]. change (NSY_Count_of_G (over p ca)) with nsys. change (IRL_Count_of_G (over p ca)) with irls.
  eapply ends_bind; [apply mat_new; [done|done|apply (tf_rule_matrix _ Hfit)]|]. intros m0 Hm0.
  apply (ends_list (fun k m => mat m nsys irls (fun y z => rule_lhs rs y z /\ z < Z.of_nat k)) rs); [apply (irls_length g rs p Hs)| | |].
  - eapply mat_ext; [exact Hm0|]. intros y z _. split; [done|]. intros [(k&r&->&_)?]. lia.
  - intros k r m Hk Hm. change (IRL_by_ID (over p ca)) with (IRL_by_ID p). destruct (irl_read k (lookup_lt_Some _ _ _ Hk)) as (irl&r'&_&Hr'&->&Hl&_&_&Hsh). simplify_eq.
    cbn [mbind res_bind]. rewrite Hl. cbn [mbind res_bind]. eapply ends_mono; [apply (mat_set _ _ _ _ Hm); [apply (rs_lhs _ _ Hsh)|rewrite rules_number; apply lookup_lt_Some in Hk; lia]|].
    intros m' Hm'. eapply mat_ext; [exact Hm'|]. intros y z _. split.
    + intros [[-> ->]|[? ?]]; [split; [by exists k, r|lia]|split; [done|lia]].
    + intros [Hyz Hz]. destruct (decide (z = Z.of_nat k)) as [->|]; [left|right; split; [done|lia]]. destruct Hyz as (k'&r'&E&Hr'&<-). apply Nat2Z.inj in E as ->. by simplify_eq.
  - intros m Hm. eapply mat_ext; [exact Hm|]. intros y z _. split; [by intros []|]. intros Hyz. split; [done|]. pose proof (rule_lhs_range _ _ Hyz). rewrite rules_number in *. lia.
Qed.

(** The list of each left-hand side. *)
Definition lhs_listed (l : list (option CIL)) (k : Z) : Prop :=
  Z.of_nat (length l) = nsys /\ forall y, 0 <= y < k -> exists c, l !! Z.to_nat y = Some (Some c) /\ lists c irls (rule_lhs rs y).

Lemma lhs_lists_ok (Hfuel : (MARPA_AVL_MAX_HEIGHT <= tree_rounds)%nat) ca t k : held k ca -> k + nsys < SIZE_MOD - 1 -> Z.of_nat (length (t_lhs_cils t)) = nsys ->
  ends_in (lhs_lists junk (st p ca t)) (fun t' => exists ca' l, t' = st p ca' (set_t_lhs_cils l t) /\ held (k + nsys) ca' /\ lhs_listed l nsys).
Proof using Hs Hfit Hstart.
  intros Hca Hk Hl. unfold lhs_lists. eapply ends_bind; [apply irl_by_lhs_ok|]. intros m Hm.
  eapply ends_bind; [apply (ends_for (fun y c => exists ca' l, c = (m, st p ca' (set_t_lhs_cils l t)) /\ held (k + y) ca' /\ lhs_listed l y) _ _ _
     (fun c => exists ca' l, c = (m, st p ca' (set_t_lhs_cils l t)) /\ held (k + nsys) ca' /\ lhs_listed l nsys))|].
  - exists ca, (t_lhs_cils t). split; [by destruct t|]. split; [by rewrite Z.add_0_r|]. split; [done|]. intros y Hy. lia.
  - change (nsy_count (st p ca t)) with (length (t_nsy_stack p)). intros y c Hy (ca1&l&->&Hca1&Hll&Hlist). fold nsys in Hy.
    destruct (mat_row _ _ _ _ Hm y Hy) as (row&->&Hrow&Hback). cbn [mbind res_bind]. change (cilar_of (st p ca1 _)) with ca1.
    destruct (intern Hfuel (k + y) ca1 Hca1 ltac:(lia) _ _ _ Hrow (tf_rules _ Hfit)) as (c&ca2&->&Hca2&Hc). cbn [mbind res_bind].
    cbn [t_lhs_cils st set_t_internal set_t_lhs_cils]. rewrite wr_total by lia. cbn [mbind res_bind]. rewrite Hback. apply ends_Ok.
    exists ca2, (<[Z.to_nat y:=Some c]> l). split; [done|]. split; [eapply held_le; [done|lia]|]. split; [by rewrite length_insert|]. intros z Hz.
    destruct (decide (z = y)) as [->|]; [exists c; split; [apply list_lookup_insert_eq; lia|done]|]. rewrite list_lookup_insert_ne by lia. apply Hlist. lia.
  - done.
  - intros c (ca'&l&->&Hca'&Hlist). apply ends_Ok. cbn [snd]. by exists ca', l.
Qed.
(** ** The state, from the creation of the items on *)

(** An item without its lists. *)
Definition bare (x : AHM) : AHM :=
  MkAHM (IRL_of_AHM x) None None None None None None (XRL_of_AHM x) None (Postdot_NSYID_of_AHM x) (Null_Count_of_AHM x) (Position_of_AHM x) (Quasi_Position_of_AHM x)
    (SYMI_of_AHM x) (XRL_Position_of_AHM x) 0 (if Postdot_NSYID_of_AHM x <? 0 then None else Some false) (AHM_was_Predicted x) (AHM_is_Initial x).

(** The items are there, whatever their lists, and the tables of the rules. *)
Record standing (t : TABLES) : Prop := {
  sd_items : fmap bare <$> t_ahms t = Some <$> all_items p rs;
  sd_count : t_ahm_count t = Some (Z.of_nat (length (all_items p rs)));
  sd_tables : set_IRL_is_Right_Recursive false <$> t_irl_tables t = imap (irl_with_items p rs) rs;
  sd_lhs : lhs_listed (t_lhs_cils t) nsys
}.

Lemma bare_item i irl base d : bare (item_of p i irl base d) = item_of p i irl base d.
Proof. done. Qed.

Lemma standing_item ca t m x0 : standing t -> all_items p rs !! m = Some x0 -> exists x, t_ahms t !! m = Some (Some x) /\ AHM_by_ID (st p ca t) (Z.of_nat m) = Ok x /\ bare x = x0.
Proof.
  intros Ht Hx. pose proof (f_equal (lookup m) (sd_items _ Ht)) as Hv. rewrite !list_lookup_fmap, Hx in Hv.
  destruct (t_ahms t !! m) as [[x|]|] eqn:Hm; [|done|done]. exists x. split; [done|]. split; [|by injection Hv].
  unfold AHM_by_ID. cbn [t_ahms st set_t_internal]. by rewrite (rd_at _ _ _ Hm).
Qed.

Lemma standing_table ca t i r : standing t -> rs !! i = Some r -> exists e, t_irl_tables t !! i = Some e /\ irl_table (st p ca t) (Z.of_nat i) = Ok e
  /\ set_IRL_is_Right_Recursive false e = irl_with_items p rs i r.
Proof.
  intros Ht Hr. pose proof (f_equal (lookup i) (sd_tables _ Ht)) as Hv. rewrite list_lookup_fmap, list_lookup_imap, Hr in Hv.
  destruct (t_irl_tables t !! i) as [e|] eqn:He; [|done]. exists e. split; [done|]. split; [exact (rd_at _ _ _ He)|by apply (inj Some)].
Qed.

(** The first item of a rule: the dot is before the first symbol that is not null. *)
Definition proper_symbols (rhs : list Z) : list Z := filter (fun y => null_in p y = false) rhs.
Definition left_corner (a b : Z) : Prop := exists r, r ∈ rs /\ r.1 = a /\ list.head (proper_symbols r.2) = Some b.
Definition right_corner (a b : Z) : Prop := exists r, r ∈ rs /\ r.1 = a /\ list.last (proper_symbols r.2) = Some b.

Lemma proper_in rhs y : y ∈ proper_symbols rhs <-> y ∈ rhs /\ null_in p y = false.
Proof. unfold proper_symbols. rewrite list_elem_of_filter. naive_solver. Qed.

Lemma rule_propers r : r ∈ rs -> exists a b, list.head (proper_symbols r.2) = Some a /\ list.last (proper_symbols r.2) = Some b /\ valid_nsy p a /\ valid_nsy p b.
Proof using Hs.
  intros Hr. pose proof (sh_rule _ _ _ Hs _ Hr) as [_ _ Hv (y&Hy&Hn)]. assert (y ∈ proper_symbols r.2) as Hin by by apply proper_in.
  assert (forall z, z ∈ proper_symbols r.2 -> valid_nsy p z) as Hvalid by (intros z [Hz _]%proper_in; by apply Hv).
  destruct (proper_symbols r.2) as [|a l] eqn:E; [by apply elem_of_nil in Hin|]. destruct (list.last (a :: l)) as [b|] eqn:El; [|by apply last_None in El].
  exists a, b. split_and!; [done|done|apply Hvalid; left|]. apply Hvalid. by apply last_Some_elem_of.
Qed.

Lemma first_dot position nulls number last rhs a : list.head (proper_symbols rhs) = Some a ->
  exists d, dots (null_in p) position nulls number last rhs !! 0%nat = Some d /\ dot_symbol d = a.
Proof.
  revert position nulls number last. unfold proper_symbols. induction rhs as [|y rhs IH]; intros position nulls number last; [done|]. rewrite filter_cons. cbn [dots].
  destruct (null_in p y); [rewrite decide_False by done; apply IH|]. rewrite decide_True by done. intros [= ->]. by eexists.
Qed.

Lemma first_item_read ca t i r a : standing t -> rs !! i = Some r -> list.head (proper_symbols r.2) = Some a ->
  exists x, First_AHM_of_IRLID (st p ca t) (Z.of_nat i) = Ok x /\ t_ahms t !! first_item p rs i = Some (Some x) /\ IRL_of_AHM x = Z.of_nat i /\ Postdot_NSYID_of_AHM x = a.
Proof using Hs.
  intros Ht Hr Ha. destruct (rule_at g rs p Hs i r Hr) as [irl Hi]. destruct (first_dot 0 0 0 None _ _ Ha) as (d&Hd&Hda).
  pose proof (all_items_at p rs i irl r 0 d Hi Hr Hd) as Hx. rewrite Nat.add_0_r in Hx. destruct (standing_item ca t _ _ Ht Hx) as (x&Hxm&Hxr&Hxb).
  destruct (standing_table ca t i r Ht Hr) as (e&_&He&Eb). exists x. split; [|split; [done|]].
  - unfold First_AHM_of_IRLID. rewrite He. cbn [mbind res_bind]. apply (f_equal First_AHM_of_IRL) in Eb. cbn in Eb. rewrite Eb. cbn [written mbind res_bind]. exact Hxr.
  - pose proof (f_equal IRL_of_AHM Hxb). pose proof (f_equal Postdot_NSYID_of_AHM Hxb). cbn in *. split; [done|congruence].
Qed.
(** ** Predictions *)

(** A symbol that has rules, itself; the first symbol not null of one of its rules. *)
Definition predicts_nsy (a b : Z) : Prop := (a = b /\ 0 <= a < nsys /\ nsy_flag NSY_is_LHS p a = true) \/ left_corner a b.
(** The rules that an item predicts, the dot being before [y]. *)
Definition predicts (y z : Z) : Prop := exists a, rtc left_corner y a /\ rule_lhs rs a z.

Lemma rule_elem i r : rs !! i = Some r -> r ∈ rs.
Proof. apply list_elem_of_lookup_2. Qed.

Lemma left_corner_range a b : left_corner a b -> 0 <= a < nsys /\ 0 <= b < nsys.
Proof using Hs.
  intros (r&Hr&<-&Hb). split; [apply (rs_lhs _ _ (sh_rule _ _ _ Hs _ Hr))|]. destruct (rule_propers r Hr) as (a&b'&Ha&_&Hv&_). rewrite Hb in Ha. by injection Ha as <-.
Qed.

Lemma right_corner_range a b : right_corner a b -> 0 <= a < nsys /\ 0 <= b < nsys.
Proof using Hs.
  intros (r&Hr&<-&Hb). split; [apply (rs_lhs _ _ (sh_rule _ _ _ Hs _ Hr))|]. destruct (rule_propers r Hr) as (a&b'&_&Ha&_&Hv). rewrite Hb in Ha. by injection Ha as <-.
Qed.

Lemma predicts_nsy_range a b : predicts_nsy a b -> 0 <= a < nsys /\ 0 <= b < nsys.
Proof using Hs. intros [(->&Hb&_)|?%left_corner_range]; [by split|done]. Qed.

Lemma predicts_tc y z : (exists a, tc predicts_nsy y a /\ rule_lhs rs a z) <-> predicts y z.
Proof using Hs.
  split; intros (a&Ha&Hz); exists a; (split; [|done]).
  - clear Hz. induction Ha as [a b Hab|a b c Hab _ IH]; (destruct Hab as [(->&_)|Hab]; [|]); [done|by apply rtc_once|done|by eapply rtc_l].
  - apply rtc_tc in Ha as [->|Ha]; [|induction Ha as [a b Hab|a b c Hab _ IH]; [apply tc_once; by right|eapply tc_l; [by right|by apply IH]]].
    apply tc_once. left. destruct (rule_lhs_range _ _ Hz) as [Hr _]. destruct Hz as (k&r&->&Hr'&<-). split; [done|]. split; [done|]. apply (rs_mark _ _ (sh_rule _ _ _ Hs _ (rule_elem _ _ Hr'))).
Qed.

Lemma nsy_read y : 0 <= y < nsys -> exists x, NSY_by_ID p y = Ok x /\ t_nsy_stack p !! Z.to_nat y = Some x.
Proof.
  intros Hy. unfold NSY_Count_of_G in Hy. destruct (lookup_lt_is_Some_2 (t_nsy_stack p) (Z.to_nat y)) as [x Hx]; [lia|]. exists x. split; [|done].
  unfold NSY_by_ID. rewrite <- (Z2Nat.id y) by lia. by apply rd_at.
Qed.

Lemma nsy_by_nsy_ok ca t : standing t -> ends_in (prediction_nsy_by_nsy junk (st p ca t)) (fun m => mat m nsys nsys (tc predicts_nsy)).
Proof using Hs Hfit Hstart.
  intros Ht. destruct counts_fit as [Hn Hr]. unfold prediction_nsy_by_nsy. change (NSY_Count_of_G (t_internal (st p ca t))) with nsys.
  eapply ends_bind; [apply mat_new; [lia|done|apply (tf_symbol_matrix _ Hfit)]|]. intros m0 Hm0.
  apply (ends_bind _ _ (fun m => mat m nsys nsys (fun a b => a = b /\ 0 <= a < nsys /\ nsy_flag NSY_is_LHS p a = true))).
  { apply (ends_for (fun k m => mat m nsys nsys (fun a b => (a = b /\ 0 <= a < nsys /\ nsy_flag NSY_is_LHS p a = true) /\ a < k))).
    - eapply mat_ext; [exact Hm0|]. intros a b Ha. split; [done|]. lia.
    - intros k m Hk Hm. change (nsy_count (st p ca t)) with (length (t_nsy_stack p)) in Hk. fold nsys in Hk. change (NSY_by_ID (t_internal (st p ca t))) with (NSY_by_ID p).
      destruct (nsy_read k Hk) as (x&->&Hx). cbn [mbind res_bind]. assert (nsy_flag NSY_is_LHS p k = NSY_is_LHS x) as Ef by (unfold nsy_flag; by rewrite Hx).
      destruct (NSY_is_LHS x); cbn [negb]; [eapply ends_mono; [by apply (mat_set _ _ _ _ Hm)|]; intros m' Hm'; eapply mat_ext; [exact Hm'|]|apply ends_Ok; eapply mat_ext; [exact Hm|]].
      + intros a b Ha. split; [intros [[-> ->]|[(->&?&?) ?]]; [split; [done|lia]|split; [done|lia]]|]. intros [(->&?&?) ?]. destruct (decide (b = k)); [by left|right; split; [done|lia]].
      + intros a b Ha. split; [intros [? ?]; split; [done|lia]|]. intros [(->&?&?) ?]. split; [done|]. destruct (decide (b = k)) as [->|]; [congruence|lia].
    - intros m Hm. eapply mat_ext; [exact Hm|]. intros a b Ha. split; [by intros []|]. intros Hab. split; [done|]. unfold nsys, NSY_Count_of_G in Ha. exact (proj2 Ha). }
  intros m1 Hm1. apply (ends_bind _ _ (fun m => mat m nsys nsys predicts_nsy)).
  2: { intros m2 Hm2. apply mat_closure; [exact Hm2|]. intros a b Hab. exact (proj1 (predicts_nsy_range _ _ Hab)). }
  apply (ends_list (fun k m => mat m nsys nsys (fun a b => (a = b /\ 0 <= a < nsys /\ nsy_flag NSY_is_LHS p a = true) \/ exists i r, (i < k)%nat /\ rs !! i = Some r /\ r.1 = a /\ list.head (proper_symbols r.2) = Some b)) rs);
    [apply (irls_length g rs p Hs)| | |].
  - eapply mat_ext; [exact Hm1|]. intros a b _. split; [by left|]. intros [?|(i&r&Hi&_)]; [done|lia].
  - intros i r m Hi Hm. destruct (rule_propers r (rule_elem _ _ Hi)) as (a&_&Ha&_&Hva&_). destruct (first_item_read ca t i r a Ht Hi Ha) as (x&->&_&Hxi&Hxa).
    cbn [mbind res_bind]. rewrite Hxa. destruct (Z.ltb_spec a 0); [destruct Hva; lia|]. unfold LHSID_of_AHM, IRL_by_AHM. rewrite Hxi. change (IRL_by_ID (t_internal (st p ca t))) with (IRL_by_ID p).
    destruct (irl_read i (lookup_lt_Some _ _ _ Hi)) as (irl&r'&_&Hr'&->&Hl&_&_&Hsh). rewrite Hi in Hr'. injection Hr' as <-. cbn [mbind res_bind]. rewrite Hl. cbn [mbind res_bind].
    eapply ends_mono; [apply (mat_set _ _ _ _ Hm); [apply (rs_lhs _ _ Hsh)|done]|]. intros m' Hm'. eapply mat_ext; [exact Hm'|]. intros c d _. split.
    + intros [[-> ->]|[?|(j&r'&Hj&?)]]; [right; exists i, r; split; [lia|done]|by left|right; exists j, r'; split; [lia|done]].
    + intros [?|(j&r'&Hj&Hr'&<-&Hd)]; [right; by left|]. destruct (decide (j = i)) as [->|]; [left; split; congruence|]. right. right. exists j, r'. split; [lia|done].
  - intros m Hm. eapply mat_ext; [exact Hm|]. intros a b _. unfold predicts_nsy, left_corner. split; (intros [?|Hx]; [by left|right]).
    + destruct Hx as (i&r&_&Hi&?&?). exists r. split; [by eapply rule_elem|done].
    + destruct Hx as (r&(i&Hi)%list_elem_of_lookup&?&?). exists i, r. split; [by eapply lookup_lt_Some|done].
Qed.
Lemma lhs_read_list ca t a : standing t -> 0 <= a < nsys -> exists c, LHS_CIL_of_NSYID (st p ca t) a = Ok c /\ t_lhs_cils t !! Z.to_nat a = Some (Some c) /\ lists c irls (rule_lhs rs a).
Proof using.
  clear Hs Hfit Hstart. intros Ht Ha. destruct (proj2 (sd_lhs _ Ht) a Ha) as (c&Hc&Hl). exists c. split; [|done]. unfold LHS_CIL_of_NSYID. cbn [t_lhs_cils st set_t_internal].
  rewrite <- (Z2Nat.id a) by lia. by rewrite (rd_at _ _ _ Hc).
Qed.

Lemma nsy_by_irl_ok ca t m : standing t -> mat m nsys nsys (tc predicts_nsy) -> ends_in (prediction_nsy_by_irl junk (st p ca t) m) (fun m' => mat m' nsys irls predicts).
Proof using Hs Hfit Hstart.
  intros Ht Hm. destruct counts_fit as [Hn Hr]. unfold prediction_nsy_by_irl. change (NSY_Count_of_G (t_internal (st p ca t))) with nsys. change (IRL_Count_of_G (t_internal (st p ca t))) with irls.
  set (P y z := exists a, tc predicts_nsy y a /\ rule_lhs rs a z). eapply ends_bind; [apply mat_new; [done|done|apply (tf_rule_matrix _ Hfit)]|]. intros m0 Hm0.
  eapply ends_bind; [apply (ends_for (fun k c => c.1 = m /\ mat c.2 nsys irls (fun y z => P y z /\ y < k)) _ _ _ (fun c => c.1 = m /\ mat c.2 nsys irls P))|].
  - split; [done|]. eapply mat_ext; [exact Hm0|]. intros y z Hy. split; [done|]. intros [_ ?]. lia.
  - change (nsy_count (st p ca t)) with (length (t_nsy_stack p)). intros k [m1 m2] Hk [E Hm2]. cbn [fst snd] in E, Hm2. subst m1. fold nsys in Hk.
    destruct (mat_row _ _ _ _ Hm k Hk) as (row&->&Hrow&Hback). cbn [mbind res_bind].
    eapply (ends_bind _ _ (fun c => c.1 = row /\ mat c.2 nsys irls (fun y z => P y z /\ y < k + 1))).
    2: { intros [row' m3] [-> Hm3]. apply ends_Ok. cbn [fst snd] in *. by rewrite Hback. }
    apply (each_bit (fun l m => mat m nsys irls (fun y z => (P y z /\ y < k) \/ (y = k /\ exists a, a ∈ l /\ rule_lhs rs a z))) _ row nsys (tc predicts_nsy k)); [done|unfold NSY_Count_of_G; lia| | |].
    + eapply mat_ext; [exact Hm2|]. intros y z _. split; [by left|]. intros [?|(_&a&Ha&_)]; [done|by apply elem_of_nil in Ha].
    + intros l a m3 Ha Hka Hm3. destruct (lhs_read_list ca t a Ht Ha) as (c&->&_&Hc). cbn [mbind res_bind].
      apply (each_item (fun l' m => mat m nsys irls (fun y z => ((P y z /\ y < k) \/ (y = k /\ exists a, a ∈ l /\ rule_lhs rs a z)) \/ (y = k /\ z ∈ l'))) c irls (rule_lhs rs a)); [done| | |].
      * eapply mat_ext; [exact Hm3|]. intros y z _. split; [by left|]. intros [?|(_&Ha')]; [done|by apply elem_of_nil in Ha'].
      * intros l' i m4 Hi Hai Hm4. eapply ends_mono; [by apply (mat_set _ _ _ _ Hm4)|]. intros m5 Hm5. eapply mat_ext; [exact Hm5|]. intros y z _. rewrite elem_of_app, list_elem_of_singleton. naive_solver.
      * intros l' m4 Hl' Hm4. eapply mat_ext; [exact Hm4|]. intros y z _. setoid_rewrite elem_of_app. setoid_rewrite list_elem_of_singleton. split.
        -- intros [[?|(->&b&Hb&Hz)]|[-> Hz%Hl']]; [by left|right; split; [done|]; exists b; split; [by left|done]|right; split; [done|]; exists a; split; [by right|by destruct Hz]].
        -- intros [?|(->&b&[Hb| ->]&Hz)]; [by left; left|left; right; split; [done|by exists b]|right; split; [done|]; apply Hl'; split; [|done]; exact (proj2 (rule_lhs_range _ _ Hz))].
    + intros l m3 Hl Hm3. split; [done|]. eapply mat_ext; [exact Hm3|]. intros y z Hy. split.
      * intros [[? ?]|(->&a&Ha%Hl&Hz)]; [split; [done|lia]|]. split; [exists a; split; [by destruct Ha|done]|lia].
      * intros [HP Hle]. destruct (decide (y = k)) as [->|]; [right; split; [done|]|left; split; [done|lia]]. destruct HP as (a&Ha&Hz). exists a. split; [|done]. apply Hl. split; [|done].
        exact (proj1 (rule_lhs_range _ _ Hz)).
  - intros [m1 m2] [E Hm2]. cbn [fst snd] in E, Hm2. split; [done|]. eapply mat_ext; [exact Hm2|]. intros y z Hy. split; [by intros []|]. intros HP. split; [done|exact (proj2 Hy)].
  - intros [m1 m2] [_ Hm2]. apply ends_Ok. cbn [snd] in *. eapply mat_ext; [exact Hm2|]. intros y z _. apply predicts_tc.
Qed.

(** ** Right recursion *)

(** The rules of which the last symbol that is not null leads back to the left-hand side. *)
Definition right_recursive (r : Z * list Z) : Prop := exists b, list.last (proper_symbols r.2) = Some b /\ tc right_corner b r.1.
(** The same relation, drawn from these rules only. *)
Definition leo_corner (a b : Z) : Prop := exists r, r ∈ rs /\ right_recursive r /\ r.1 = a /\ list.last (proper_symbols r.2) = Some b.

Lemma last_proper_ok irl l rhs n : t_nsyid_array irl = Some <$> (l :: rhs) -> (forall y, y ∈ rhs -> valid_nsy p y) -> (n <= length rhs)%nat ->
  last_proper p irl n = Ok (list.last (proper_symbols (take n rhs))).
Proof using.
  clear Hs Hfit Hstart. intros Ha Hv. induction n as [|n IH]; intros Hn; [done|]. cbn [last_proper]. destruct (lookup_lt_is_Some_2 rhs n ltac:(lia)) as [y Hy].
  rewrite (irl_rhs_read _ _ _ _ _ Ha Hy). cbn [mbind res_bind]. rewrite (nulling_read p y) by (apply Hv; by eapply list_elem_of_lookup_2). cbn [mbind res_bind].
  rewrite (take_S_r _ _ _ Hy). unfold proper_symbols. rewrite list.filter_app, filter_cons, filter_nil. destruct (null_in p y) eqn:En; cbn [negb].
  - rewrite decide_False by done. rewrite app_nil_r. apply IH. lia.
  - rewrite decide_True by done. by rewrite last_snoc.
Qed.

Lemma right_nsyid_ok k irl r : t_irl_stack p !! k = Some irl -> rs !! k = Some r -> exists b, right_nsyid p irl = Ok (Some b) /\ list.last (proper_symbols r.2) = Some b /\ 0 <= b < nsys.
Proof using Hs.
  intros Hk Hr. destruct (irl_at g rs p Hs _ _ Hk) as (r'&Hr'&_&Hlen&Ha&Hsh). rewrite Hr in Hr'. injection Hr' as <-. destruct (rule_propers r (rule_elem _ _ Hr)) as (_&b&_&Hb&_&Hv).
  exists b. split; [|done]. unfold right_nsyid. rewrite Hlen, Nat2Z.id. rewrite (last_proper_ok _ _ _ _ Ha (rs_rhs _ _ Hsh)) by lia. by rewrite firstn_all, Hb.
Qed.
Lemma right_nsyid_over ca irl : right_nsyid (over p ca) irl = right_nsyid p irl.
Proof using.
  clear Hs Hfit Hstart. unfold right_nsyid. induction (Z.to_nat (Length_of_IRL irl)) as [|n IH]; [done|]. cbn [last_proper]. destruct (RHSID_of_IRL irl (Z.of_nat n)) as [y| |]; [|done..].
  cbn [mbind res_bind]. change (nsy_is_nulling (over p ca) y) with (nsy_is_nulling p y). by rewrite IH.
Qed.

Lemma right_bit_set_over ca irl m : right_bit_set (over p ca) irl m = right_bit_set p irl m.
Proof using. clear Hs Hfit Hstart. unfold right_bit_set. by rewrite right_nsyid_over. Qed.

(** The bits of the rules of [sel]. *)
Lemma right_bits_ok sel body m0 : mat m0 nsys nsys (fun _ _ => False) ->
  (forall i irl m, t_irl_stack p !! i = Some irl -> body (Z.of_nat i) m = if sel i : bool then right_bit_set p irl m else Ok m) ->
  ends_in (for_res (length (t_irl_stack p)) 0 body m0)
    (fun m => mat m nsys nsys (fun a b => exists i r, sel i = true /\ rs !! i = Some r /\ r.1 = a /\ list.last (proper_symbols r.2) = Some b)).
Proof using Hs.
  intros Hm0 Hb. apply (ends_list (fun k m => mat m nsys nsys (fun a b => exists i r, (i < k)%nat /\ sel i = true /\ rs !! i = Some r /\ r.1 = a /\ list.last (proper_symbols r.2) = Some b)) (t_irl_stack p)); [done| | |].
  - eapply mat_ext; [exact Hm0|]. intros a b _. split; [done|]. intros (i&r&Hi&_). lia.
  - intros k irl m Hk Hm. rewrite (Hb _ _ _ Hk). destruct (irl_read k ltac:(rewrite <- (irls_length g rs p Hs); by eapply lookup_lt_Some)) as (irl'&r&Hk'&Hr&_&Hl&_&_&Hsh).
    rewrite Hk in Hk'. injection Hk' as <-. destruct (sel k) eqn:Hsel.
    + unfold right_bit_set. destruct (right_nsyid_ok k irl r Hk Hr) as (b&->&Hb'&Hbv). cbn [mbind res_bind]. rewrite Hl. cbn [mbind res_bind].
      eapply ends_mono; [apply (mat_set _ _ _ _ Hm); [apply (rs_lhs _ _ Hsh)|exact Hbv]|]. intros m' Hm'. eapply mat_ext; [exact Hm'|]. intros c d _. split.
      * intros [[-> ->]|(j&r'&Hj&Hx)]; [exists k, r; by split_and!; [lia|..]|exists j, r'; split; [lia|done]].
      * intros (j&r'&Hj&Hsj&Hr'&<-&Hd). destruct (decide (j = k)) as [->|]; [left; split; congruence|]. right. exists j, r'. by split_and!; [lia|..].
    + apply ends_Ok. eapply mat_ext; [exact Hm|]. intros c d _. split.
      * intros (j&r'&Hj&Hx). exists j, r'. split; [lia|done].
      * intros (j&r'&Hj&Hsj&Hx). assert (j <> k) by congruence. exists j, r'. split; [lia|done].
  - intros m Hm. eapply mat_ext; [exact Hm|]. intros a b _. split.
    + intros (i&r&_&Hx). by exists i, r.
    + intros (i&r&Hi&Hr&Hx1&Hx2). exists i, r. split_and!; [|done..]. rewrite (irls_length g rs p Hs). by eapply lookup_lt_Some.
Qed.

(** The rules before the number [k] know whether they are right recursive. *)
Definition flagged (tb : list IRL_TABLE) (k : nat) : Prop := length tb = length rs
  /\ forall i r, rs !! i = Some r -> exists b, tb !! i = Some (set_IRL_is_Right_Recursive b (irl_with_items p rs i r)) /\ (b = true <-> (i < k)%nat /\ right_recursive r).

Lemma flagged_tables tb k : flagged tb k -> set_IRL_is_Right_Recursive false <$> tb = imap (irl_with_items p rs) rs.
Proof using.
  clear Hs Hfit Hstart. intros [Hl Hf]. apply list_eq. intros i. rewrite list_lookup_fmap, list_lookup_imap. destruct (rs !! i) as [r|] eqn:Hr.
  - destruct (Hf i r Hr) as (b&->&_). done.
  - apply lookup_ge_None in Hr. by rewrite lookup_ge_None_2 by lia.
Qed.

Lemma flagged_table tb k ca t i r : flagged tb k -> t_irl_tables t = tb -> rs !! i = Some r ->
  exists b, irl_table (st p ca t) (Z.of_nat i) = Ok (set_IRL_is_Right_Recursive b (irl_with_items p rs i r)) /\ (b = true <-> (i < k)%nat /\ right_recursive r).
Proof using. clear Hs Hfit Hstart. intros [_ Hf] <- Hr. destruct (Hf i r Hr) as (b&Hb&Hi). exists b. split; [exact (rd_at _ _ _ Hb)|done]. Qed.

Lemma mark_right_recursive_ok ca t m : t_irl_tables t = imap (irl_with_items p rs) rs -> mat m nsys nsys (tc right_corner) ->
  ends_in (mark_right_recursive (st p ca t) m) (fun t' => exists tb, t' = st p ca (set_t_irl_tables tb t) /\ flagged tb (length rs)).
Proof using Hs.
  intros Htb Hm. unfold mark_right_recursive. apply (ends_list (fun k t' => exists tb, t' = st p ca (set_t_irl_tables tb t) /\ flagged tb k) rs); [apply (irls_length g rs p Hs)| | |done].
  - exists (t_irl_tables t). split; [by destruct t|]. rewrite Htb. split; [apply length_imap|]. intros i r Hr. exists false. rewrite list_lookup_imap, Hr. split; [done|]. split; [done|lia].
  - intros k r t' Hk (tb&->&Htbl). pose proof (lookup_lt_Some _ _ _ Hk) as Hlt. destruct (irl_read k Hlt) as (irl&r'&Hi&Hr'&Hir&Hl&_&_&Hsh). rewrite Hk in Hr'. injection Hr' as <-.
    change (IRL_by_ID (t_internal (st p ca (set_t_irl_tables tb t)))) with (IRL_by_ID p). rewrite Hir. cbn [mbind res_bind]. change (t_internal (st p ca (set_t_irl_tables tb t))) with (over p ca). rewrite right_nsyid_over.
    destruct (right_nsyid_ok k irl r Hi Hk) as (b&->&Hb&Hbv). cbn [mbind res_bind]. rewrite Hl. cbn [mbind res_bind].
    destruct (mat_test _ _ _ _ Hm b r.1 Hbv (rs_lhs _ _ Hsh)) as (f&->&Hf). cbn [mbind res_bind].
    assert (f = true <-> right_recursive r) as Hfr by (rewrite Hf; split; [by exists b|]; intros (b'&Hb'&?); congruence).
    destruct Htbl as [Hlen Hall]. destruct (Hall k r Hk) as (b0&Hb0&Hb0k). destruct f.
    + unfold upd_irl_table, irl_table. cbn [t_irl_tables st set_t_internal set_t_irl_tables]. rewrite (rd_at _ _ _ Hb0). cbn [mbind res_bind]. rewrite wr_total by lia. cbn [mbind res_bind].
      apply ends_Ok. exists (<[k := set_IRL_is_Right_Recursive true (irl_with_items p rs k r)]> tb). rewrite Nat2Z.id. split; [done|]. split; [by rewrite length_insert|]. intros i r' Hr'.
      destruct (decide (i = k)) as [->|Hne].
      * rewrite Hk in Hr'. injection Hr' as <-. exists true. split; [apply list_lookup_insert_eq; lia|]. split; [intros _; split; [lia|by apply Hfr]|done].
      * rewrite list_lookup_insert_ne by done. destruct (Hall i r' Hr') as (bi&Hbi&Hbik). exists bi. split; [done|]. rewrite Hbik. split; (intros [? ?]; split; [lia|done]).
    + apply ends_Ok. exists tb. split; [done|]. split; [done|]. intros i r' Hr'. destruct (Hall i r' Hr') as (bi&Hbi&Hbik). exists bi. split; [done|]. rewrite Hbik.
      split; (intros [? ?]; split; [|done]); [lia|]. destruct (decide (i = k)) as [->|]; [|lia]. rewrite Hk in Hr'. injection Hr' as <-. by apply Hfr in H1.
Qed.

Lemma right_recursion_ok ca t : t_irl_tables t = imap (irl_with_items p rs) rs ->
  ends_in (right_recursion junk (st p ca t)) (fun c => exists tb, c.2 = st p ca (set_t_irl_tables tb t) /\ flagged tb (length rs) /\ mat c.1 nsys nsys (tc leo_corner)).
Proof using Hs Hfit Hstart.
  intros Htb. destruct counts_fit as [Hn Hr]. unfold right_recursion. change (NSY_Count_of_G (t_internal (st p ca t))) with nsys.
  eapply ends_bind; [apply mat_new; [lia|done|apply (tf_symbol_matrix _ Hfit)]|]. intros m0 Hm0. change (irl_count (st p ca t)) with (length (t_irl_stack p)).
  eapply ends_bind; [apply (right_bits_ok (fun _ => true)); [exact Hm0|]|].
  { intros i irl m Hi. change (IRL_by_ID (t_internal (st p ca t))) with (IRL_by_ID p). unfold IRL_by_ID. rewrite (rd_at _ _ _ Hi). apply right_bit_set_over. }
  intros m1 Hm1. assert (mat m1 nsys nsys right_corner) as Hm1'.
  { eapply mat_ext; [exact Hm1|]. intros a b _. split; [intros (i&r&_&Hi&Hx); exists r; split; [by eapply rule_elem|done]|]. intros (r&(i&Hi)%list_elem_of_lookup&Hx). by exists i, r. }
  eapply ends_bind; [apply mat_closure; [exact Hm1'|]|]. { intros a b Hab. exact (proj1 (right_corner_range _ _ Hab)). }
  intros m2 Hm2. eapply ends_bind; [by apply mark_right_recursive_ok|]. intros t' (tb&->&Hfl).
  eapply ends_bind; [apply (mat_clear _ _ _ _ Hm2)|]. intros m3 Hm3. eapply ends_bind; [apply (right_bits_ok (fun i => match tb !! i with Some e => IRL_is_Right_Recursive e | None => false end)); [exact Hm3|]|].
  { intros i irl m Hi. change (IRL_by_ID (t_internal (st p ca (set_t_irl_tables tb t)))) with (IRL_by_ID p). unfold IRL_by_ID. rewrite (rd_at _ _ _ Hi). cbn [mbind res_bind].
    destruct (irl_at g rs p Hs i irl Hi) as (r&Hri&_). destruct (proj2 Hfl i r Hri) as (b&Hb&_). unfold irl_table. cbn [t_irl_tables st set_t_internal set_t_irl_tables]. rewrite (rd_at _ _ _ Hb), Hb.
    cbn [mbind res_bind]. destruct b; cbn [IRL_is_Right_Recursive set_IRL_is_Right_Recursive negb]; [apply right_bit_set_over|done]. }
  intros m4 Hm4. eapply ends_bind; [apply (mat_closure _ nsys leo_corner)|].
  - eapply mat_ext; [exact Hm4|]. intros a b _. split.
    + intros (i&r&Hsel&Hi&Ha&Hb). destruct (proj2 Hfl i r Hi) as (f&Hf&Hfr). rewrite Hf in Hsel. exists r. split; [by eapply rule_elem|]. split; [by apply Hfr|done].
    + intros (r&(i&Hi)%list_elem_of_lookup&Hrr&Ha&Hb). destruct (proj2 Hfl i r Hi) as (f&Hf&Hfr). exists i, r. rewrite Hf. split; [|done]. apply Hfr. split; [by eapply lookup_lt_Some|done].
  - intros a b (r&Hin&_&Ha&Hb). apply (right_corner_range a b). by exists r.
  - intros m5 Hm5. apply ends_Ok. by exists tb.
Qed.
End tables.
