(* ===== verification/ItemsLists.v ===== *)
(** * Items: the lists of each item

    Each loop over the items changes some fields of each item, in turn, and the arena.
    [items_loop] is the loop, for any such change. *)
From stdpp Require Import sets gmap list relations sorting.
From S2P Require Import Prelude Avl AvlTree AvlProbe AvlTheorems AvlTraversal Dstack BitVector BitVectorTheorems BitScan Matrix MatrixTheorems Cil CilTheorems MarpaGrammar MarpaRules MarpaGrammarTheorems CensusMarks Rewrite RewriteSteps RewriteLanguage RewriteShape Items Relations ItemsSpec ItemsCreate ItemsTables.

(** The items [l], each of the items of [l0] below [k] being changed as [R] says. *)
Definition changed (R : nat -> AHM -> AHM -> Prop) (l0 : list (option AHM)) (k : nat) (l : list (option AHM)) : Prop :=
  length l = length l0 /\ forall m x, l0 !! m = Some (Some x) -> exists x', l !! m = Some (Some x') /\ if decide (m < k)%nat then R m x x' else x' = x.

Lemma changed_none R l0 : changed R l0 0 l0.
Proof. split; [done|]. intros m x Hx. exists x. split; [done|]. by rewrite decide_False by lia. Qed.

Lemma changed_S R l0 k l x x' : changed R l0 k l -> l0 !! k = Some (Some x) -> R k x x' -> changed R l0 (S k) (<[k := Some x']> l).
Proof.
  intros [Hl Hc] Hx HR. split; [by rewrite length_insert|]. intros m y Hy. destruct (decide (m = k)) as [->|Hne].
  - exists x'. assert (y = x) as -> by congruence. rewrite decide_True by lia. split; [|done]. apply list_lookup_insert_eq. rewrite Hl. by eapply lookup_lt_Some.
  - rewrite list_lookup_insert_ne by done. destruct (Hc m y Hy) as (y'&Hy'&Hcase). exists y'. split; [done|]. destruct (decide (m < k)%nat); [by rewrite decide_True by lia|by rewrite decide_False by lia].
Qed.

Lemma changed_current R l0 k l x : changed R l0 k l -> l0 !! k = Some (Some x) -> l !! k = Some (Some x).
Proof. intros [_ Hc] Hx. destruct (Hc k x Hx) as (x'&Hx'&Hcase). rewrite decide_False in Hcase by lia. by subst x'. Qed.

Section loop.
Context (g : GRAMMAR) (rs : list (Z * list Z)) (p : INTERNAL) (t0 : TABLES) (Ht0 : standing rs p t0).
#[local] Abbreviation n := (length (all_items p rs)).

(** The items of the state, [l], in the arena [ca]. *)
Definition with_items (ca : CILAR) (l : list (option AHM)) : TABLES := st p ca (set_t_ahms l t0).

Lemma item_some m : (m < n)%nat -> exists x, t_ahms t0 !! m = Some (Some x) /\ all_items p rs !! m = Some (bare x).
Proof using Ht0.
  intros Hm. destruct (lookup_lt_is_Some_2 _ _ Hm) as [x0 Hx0]. destruct (standing_item rs p (cilar_of t0) t0 m x0 Ht0 Hx0) as (x&Hx&_&<-). by exists x.
Qed.

Lemma ahms_length : length (t_ahms t0) = n.
Proof using Ht0. by rewrite <- (length_fmap (fmap bare)), (sd_items _ _ _ Ht0), length_fmap. Qed.

Lemma current_read R k ca l x : changed R (t_ahms t0) k l -> t_ahms t0 !! k = Some (Some x) -> AHM_by_ID (with_items ca l) (Z.of_nat k) = Ok x.
Proof using. intros Hc Hx. unfold AHM_by_ID. cbn [with_items t_ahms st set_t_internal set_t_ahms]. by rewrite (rd_at _ _ _ (changed_current _ _ _ _ _ Hc Hx)). Qed.

(** Changing an item. *)
Lemma upd_ahm_ok ca l k x f : l !! k = Some (Some x) -> upd_ahm (with_items ca l) (Z.of_nat k) f = Ok (with_items ca (<[k := Some (f x)]> l)).
Proof using.
  clear Ht0. intros Hx. unfold upd_ahm, AHM_by_ID, ahm_write. cbn [with_items t_ahms st set_t_internal set_t_ahms]. rewrite (rd_at _ _ _ Hx). cbn [mbind res_bind written].
  rewrite wr_total by (apply lookup_lt_Some in Hx; lia). cbn [mbind res_bind]. by rewrite Nat2Z.id.
Qed.

Section steps.
Context {E A : Type} (pack : E -> TABLES -> A) (good : E -> Prop) (R : nat -> AHM -> AHM -> Prop) (K c : Z).

(** What a round does: at the item [m], which is [x]. *)
Definition round (body : Z -> A -> res A) (m : nat) (x : AHM) : Prop := forall e ca l, good e -> held (K + c * Z.of_nat m) ca -> changed R (t_ahms t0) m l -> 
  ends_in (body (Z.of_nat m) (pack e (with_items ca l)))
    (fun a => exists e' ca' x', a = pack e' (with_items ca' (<[m := Some x']> l)) /\ good e' /\ held (K + c * (Z.of_nat m + 1)) ca' /\ R m x x').

Lemma items_loop body e ca (P : A -> Prop) : good e -> held K ca -> (forall m x, t_ahms t0 !! m = Some (Some x) -> all_items p rs !! m = Some (bare x) -> round body m x) ->
  (forall e' ca' l, good e' -> held (K + c * Z.of_nat n) ca' -> changed R (t_ahms t0) n l -> P (pack e' (with_items ca' l))) ->
  ends_in (for_res n 0 body (pack e (st p ca t0))) P.
Proof using Ht0.
  intros He Hca Hb HP. apply (ends_list (fun m a => exists e' ca' l, a = pack e' (with_items ca' l) /\ good e' /\ held (K + c * Z.of_nat m) ca' /\ changed R (t_ahms t0) m l) (all_items p rs)); [done| | |].
  - exists e, ca, (t_ahms t0). split; [unfold with_items; by destruct t0|]. split; [done|]. split; [eapply held_le; [done|lia]|apply changed_none].
  - intros m x0 a Hm (e'&ca'&l&->&He'&Hca'&Hl). apply lookup_lt_Some in Hm. destruct (item_some m Hm) as (x&Hx&Hx0).
    eapply ends_mono; [by apply (Hb m x Hx Hx0)|]. intros a' (e2&ca2&x'&->&He2&Hca2&HR). exists e2, ca2, (<[m:=Some x']> l). split; [done|]. split; [done|].
    split; [eapply held_le; [done|lia]|by eapply changed_S].
  - intros a (e'&ca'&l&->&He'&Hca'&Hl). by eapply HP.
Qed.
End steps.

(** The loops that carry nothing else. *)
Lemma each_ahm_ok R K c f ca (P : TABLES -> Prop) : held K ca ->
  (forall m x, t_ahms t0 !! m = Some (Some x) -> all_items p rs !! m = Some (bare x) -> forall ca l, held (K + c * Z.of_nat m) ca -> changed R (t_ahms t0) m l ->
     ends_in (f (Z.of_nat m) x (with_items ca l)) (fun t => exists ca' x', t = with_items ca' (<[m := Some x']> l) /\ held (K + c * (Z.of_nat m + 1)) ca' /\ R m x x')) ->
  (forall ca' l, held (K + c * Z.of_nat n) ca' -> changed R (t_ahms t0) n l -> P (with_items ca' l)) ->
  ends_in (each_ahm f (st p ca t0)) P.
Proof using Ht0.
  intros Hca Hf HP. unfold each_ahm, AHM_Count_of_G. change (t_ahm_count (st p ca t0)) with (t_ahm_count t0). rewrite (sd_count _ _ _ Ht0). cbn [written mbind res_bind]. rewrite Nat2Z.id.
  apply (items_loop (fun (_ : unit) t => t) (fun _ => True) R K c _ tt); [done|done| |].
  - intros m x Hx Hx0 _ ca' l _ Hca' Hl. rewrite (current_read _ _ _ _ _ Hl Hx). cbn [mbind res_bind]. eapply ends_mono; [by apply Hf|].
    intros t (ca2&x'&->&Hca2&HR). by exists tt, ca2, x'.
  - intros _ ca' l _ Hca' Hl. by apply HP.
Qed.

(** The state after the loop. *)
Lemma changed_standing R k l : changed R (t_ahms t0) k l -> (forall m x x', R m x x' -> bare x' = bare x) -> standing rs p (set_t_ahms l t0).
Proof using Ht0.
  intros [Hl Hc] HR. destruct Ht0 as [H1 H2 H3 H4]. split; [|done..]. cbn [t_ahms set_t_ahms]. apply list_eq. intros m. pose proof (f_equal (lookup m) H1) as Hm. rewrite <- Hm, !list_lookup_fmap.
  destruct (t_ahms t0 !! m) as [[x|]|] eqn:Hx.
  - destruct (Hc m x Hx) as (x'&->&Hcase). cbn. do 2 f_equal. destruct (decide _); [by eapply HR|by subst].
  - rewrite !list_lookup_fmap, Hx in Hm. by destruct (all_items p rs !! m).
  - apply lookup_ge_None in Hx. by rewrite lookup_ge_None_2 by lia.
Qed.
End loop.

Section lists.
Context `{Library}.
Context (g : GRAMMAR) (rs : list (Z * list Z)) (p : INTERNAL) (Hs : shape g rs p) (Hfit : tables_fit p) (start : Z) (Hstart : t_start_irl p = Some start).
Context (t0 : TABLES) (Ht0 : standing rs p t0).
#[local] Abbreviation n := (length (all_items p rs)).
#[local] Abbreviation nsys := (NSY_Count_of_G p).
#[local] Abbreviation irls := (IRL_Count_of_G p).

(** The symbol after the dot exists, when there is one. *)
Lemma dots_symbol null position nulls number last rhs d : d ∈ dots null position nulls number last rhs -> (dot_symbol d = -1 /\ dot_position d = -1) \/ (dot_symbol d ∈ rhs /\ position <= dot_position d).
Proof.
  revert position nulls number last. induction rhs as [|y rhs IH]; intros position nulls number last; cbn [dots]; [intros ->%list_elem_of_singleton; by left|].
  destruct (null y); [|intros [->|Hd]%elem_of_cons; [right; split; [left|cbn; lia]|]].
  1: intros Hd. all: destruct (IH _ _ _ _ Hd) as [?|[? ?]]; [by left|right; split; [by right|lia]].
Qed.

Lemma item_postdot m x : all_items p rs !! m = Some x -> (Postdot_NSYID_of_AHM x = -1 /\ Position_of_AHM x = -1) \/ (valid_nsy p (Postdot_NSYID_of_AHM x) /\ 0 <= Position_of_AHM x).
Proof using Hs.
  intros (i&irl&r&k&d&Hi&Hr&Hd&->&_)%all_items_lookup. cbn. destruct (dots_symbol _ _ _ _ _ _ _ (list_elem_of_lookup_2 _ _ _ Hd)) as [?|[Hin ?]]; [by left|right].
  split; [|done]. eapply (rs_rhs _ _ (sh_rule _ _ _ Hs _ (list_elem_of_lookup_2 _ _ _ Hr))), Hin.
Qed.

Lemma lists_nothing c k (P : Z -> Prop) : cil_ints c = ints_of [] -> (forall i, ~ P i) -> lists c k P.
Proof. intros Hc HP. exists ∅. split; [rewrite Hc; unfold elems; by rewrite elems_from_none by (intros i _; apply not_elem_of_empty)|]. intros i _. rewrite elem_of_empty. naive_solver. Qed.

(** ** Predictions *)

(** The rules predicted, the rules of the symbol after the dot. *)
Definition with_predictions (m : nat) (x x' : AHM) : Prop := exists c1 c2,
  x' = set_LHS_CIL_of_AHM (Some c2) (set_Predicted_IRL_CIL_of_AHM (Some c1) x)
  /\ lists c1 irls (predicts rs p (Postdot_NSYID_of_AHM x)) /\ lists c2 irls (rule_lhs rs (Postdot_NSYID_of_AHM x)).

Lemma predicts_range y z : predicts rs p y z -> 0 <= y < nsys.
Proof using Hs.
  intros (a&Ha&Hz). destruct (rtc_inv _ _ Ha) as [->|(b&Hb&_)]; [exact (proj1 (rule_lhs_range g rs p Hs _ _ Hz))|]. exact (proj1 (left_corner_range g rs p Hs _ _ Hb)).
Qed.

Lemma ahm_predictions_ok (Hfuel : (MARPA_AVL_MAX_HEIGHT <= tree_rounds)%nat) K ca m (P : Bit_Matrix * TABLES -> Prop) : mat m nsys irls (predicts rs p) -> held K ca -> K + 2 * Z.of_nat n < SIZE_MOD - 1 ->
  (forall ca' l, held (K + 2 * Z.of_nat n) ca' -> changed with_predictions (t_ahms t0) n l -> P (m, with_items p t0 ca' l)) ->
  ends_in (ahm_predictions m (st p ca t0)) P.
Proof using Hs Hfit Hstart Ht0.
  intros Hm Hca HK HP. unfold ahm_predictions, AHM_Count_of_G. change (t_ahm_count (st p ca t0)) with (t_ahm_count t0). rewrite (sd_count _ _ _ Ht0). cbn [written mbind res_bind]. rewrite Nat2Z.id.
  apply (items_loop rs p t0 Ht0 pair (fun m' => m' = m) with_predictions K 2 _ m); [done|done| |by intros ? ca' l ->; apply HP].
  intros k x Hx Hx0 m' ca1 l -> Hca1 Hl. pose proof (lookup_lt_Some _ _ _ Hx0) as Hkn. rewrite (current_read _ _ _ _ _ _ _ Hl Hx). cbn [mbind res_bind].
  pose proof (changed_current _ _ _ _ _ Hl Hx) as Hlx. destruct (item_postdot _ _ Hx0) as [[E _]|[Hv _]]; cbn [Postdot_NSYID_of_AHM bare] in *.
  - rewrite E. cbn [Z.ltb Z.compare]. unfold with_cilar. change (cilar_of (with_items p t0 ca1 l)) with ca1. destruct (intern_empty Hfuel _ ca1 Hca1 ltac:(lia)) as (c1&ca2&->&Hca2&Hc1). cbn [mbind res_bind fst snd].
    change (set_cilar ca2 (with_items p t0 ca1 l)) with (with_items p t0 ca2 l). rewrite (upd_ahm_ok _ _ _ _ _ _ _ Hlx). cbn [mbind res_bind].
    change (cilar_of (with_items p t0 ca2 _)) with ca2. destruct (intern_empty Hfuel _ ca2 Hca2 ltac:(lia)) as (c2&ca3&->&Hca3&Hc2). cbn [mbind res_bind fst snd].
    change (set_cilar ca3 (with_items p t0 ca2 ?l')) with (with_items p t0 ca3 l'). erewrite upd_ahm_ok by (apply list_lookup_insert_eq; by eapply lookup_lt_Some). cbn [mbind res_bind]. rewrite list_insert_insert_eq.
    apply ends_Ok. do 3 eexists. split; [reflexivity|]. split; [done|]. split; [eapply held_le; [exact Hca3|lia]|]. exists c1, c2. split; [done|]. rewrite E.
    split; (apply lists_nothing; [done|]); [intros i Hi%predicts_range|intros i [Hi _]%(rule_lhs_range g rs p Hs)]; lia.
  - destruct (Z.ltb_spec (Postdot_NSYID_of_AHM x) 0); [destruct Hv; lia|]. destruct (mat_row _ _ _ _ Hm _ Hv) as (row&->&Hrow&Hback). cbn [mbind res_bind].
    change (cilar_of (with_items p t0 ca1 l)) with ca1. destruct (intern Hfuel _ ca1 Hca1 ltac:(lia) _ _ _ Hrow (tf_rules _ Hfit)) as (c1&ca2&->&Hca2&Hc1). cbn [mbind res_bind fst snd].
    change (set_cilar ca2 (with_items p t0 ca1 l)) with (with_items p t0 ca2 l). rewrite (upd_ahm_ok _ _ _ _ _ _ _ Hlx). cbn [mbind res_bind].
    destruct (lhs_read_list rs p ca2 t0 _ Ht0 Hv) as (c2&Hc2&_&Hl2). change (LHS_CIL_of_NSYID (with_items p t0 ca2 _)) with (LHS_CIL_of_NSYID (st p ca2 t0)). rewrite Hc2. cbn [mbind res_bind].
    erewrite upd_ahm_ok by (apply list_lookup_insert_eq; by eapply lookup_lt_Some). cbn [mbind res_bind]. rewrite list_insert_insert_eq, Hback.
    apply ends_Ok. do 3 eexists. split; [reflexivity|]. split; [done|]. split; [eapply held_le; [exact Hca2|lia]|]. by exists c1, c2.
Qed.
(** ** Terminals and events *)
#[local] Abbreviation xsys := (XSY_Count_of_G (t_g p)).

Lemma xsys_same : length (t_xsy_stack (t_g p)) = length (t_xsy_stack g).
Proof using Hs. destruct (sh_grammar _ _ _ Hs) as [->| ->]; [done|]. apply length_alter. Qed.

Lemma xsy_read z : 0 <= z < xsys -> exists x, t_xsy_stack (t_g p) !! Z.to_nat z = Some x /\ XSY_by_ID (t_g p) z = Ok x.
Proof using.
  clear. unfold XSY_Count_of_G. intros Hz. destruct (lookup_lt_is_Some_2 (t_xsy_stack (t_g p)) (Z.to_nat z)) as [x Hx]; [lia|]. exists x. split; [done|].
  unfold XSY_by_ID. rewrite <- (Z2Nat.id z) by lia. by apply rd_at.
Qed.

(** The internal symbols of the terminals. *)
Definition terminal_nsy (y : Z) : Prop := exists z x, t_xsy_stack (t_g p) !! z = Some x /\ XSY_is_Terminal x = true /\ t_nsy_equivalent p !! z = Some (Some y).

Lemma terminal_nsys_ok (junk : nat -> list Z) ca t : ends_in (terminal_nsys junk (st p ca t)) (fun t' => exists v, t' = st p ca (set_t_bv_nsyid_is_terminal (Some v) t) /\ bits v nsys terminal_nsy).
Proof using Hs Hfit Hstart.
  destruct (counts_fit g rs p Hs Hfit start Hstart) as [Hn _]. unfold terminal_nsys. eapply ends_bind; [apply bits_new; change (NSY_Count_of_G (t_internal (st p ca t))) with nsys; lia|]. intros v0 Hv0.
  change (NSY_Count_of_G (t_internal (st p ca t))) with nsys in Hv0. change (xsy_count (st p ca t)) with (length (t_xsy_stack (t_g p))).
  apply (ends_bind _ _ (fun v => bits v nsys terminal_nsy)); [|intros v Hv; apply ends_Ok; by exists v].
  apply (ends_list (fun k v => bits v nsys (fun y => exists z x, (z < k)%nat /\ t_xsy_stack (t_g p) !! z = Some x /\ XSY_is_Terminal x = true /\ t_nsy_equivalent p !! z = Some (Some y))) (t_xsy_stack (t_g p))); [done| | |].
  - eapply bits_ext; [exact Hv0|]. intros y. split; [done|]. intros (z&x&Hz&_). lia.
  - intros k x v Hk Hv. unfold XSY_by_ID. change (t_xsy_stack (g_of (st p ca t))) with (t_xsy_stack (t_g p)). rewrite (rd_at _ _ _ Hk). cbn [mbind res_bind].
    change (t_nsy_equivalent (t_internal (st p ca t))) with (t_nsy_equivalent p).
    destruct (XSY_is_Terminal x) eqn:Hterm.
    + destruct (lookup_lt_is_Some_2 (t_nsy_equivalent p) k) as [o Ho]; [rewrite (sh_table _ _ _ Hs), <- xsys_same; by eapply lookup_lt_Some|]. rewrite (rd_at _ _ _ Ho). cbn [mbind res_bind].
      destruct o as [y|]; [eapply ends_mono; [apply (bits_set _ _ _ Hv), (sh_equivalent _ _ _ Hs _ _ Ho)|]; intros v' Hv'; eapply bits_ext; [exact Hv'|]|apply ends_Ok; eapply bits_ext; [exact Hv|]].
      * intros y'. split; [intros [->|(z&x'&Hz&?)]; [exists k, x; split; [lia|done]|exists z, x'; split; [lia|done]]|]. intros (z&x'&Hz&Hx'&Ht&He).
        destruct (decide (z = k)) as [->|]; [left; congruence|]. right. exists z, x'. split; [lia|done].
      * intros y'. split; (intros (z&x'&Hz&Hx'&Ht&He); exists z, x'; split_and!; [|done..]); [lia|]. assert (z <> k) by congruence. lia.
    + apply ends_Ok; eapply bits_ext; [exact Hv|]. intros y'. split; (intros (z&x'&Hz&Hx'&Ht&He); exists z, x'; split_and!; [|done..]); [lia|]. assert (z <> k) by congruence. lia.
  - intros v Hv. eapply bits_ext; [exact Hv|]. intros y. split; [intros (z&x&_&?); by exists z, x|]. intros (z&x&Hx&?). exists z, x. split; [by eapply lookup_lt_Some|done].
Qed.
(** The symbols below [k] that have the flag. *)
Definition flagged_below (f : XSY -> bool) (k z : Z) : Prop := 0 <= z < k /\ symbol_flag f (t_g p) z = true.

Lemma flag_bit f k x v (Q : Bit_Vector -> Prop) : t_xsy_stack (t_g p) !! k = Some x -> bits v xsys (flagged_below f (Z.of_nat k)) ->
  (forall v', bits v' xsys (flagged_below f (Z.of_nat (S k))) -> Q v') -> ends_in (if f x then lbv_bit_set v (Z.of_nat k) else Ok v) Q.
Proof using.
  clear. intros Hk Hv HQ. assert (symbol_flag f (t_g p) (Z.of_nat k) = f x) as Ef by (unfold symbol_flag; by rewrite Nat2Z.id, Hk).
  assert (Z.of_nat k < xsys) as Hlt by (apply lookup_lt_Some in Hk; unfold XSY_Count_of_G; lia). destruct (f x) eqn:Hf.
  - change lbv_bit_set with bv_bit_set. eapply ends_mono; [apply (bits_set _ _ _ Hv); lia|]. intros v' Hv'. apply HQ. eapply bits_ext; [exact Hv'|]. intros z. unfold flagged_below. split.
    + intros [->|[? ?]]; (split; [lia|congruence || done]).
    + intros [? ?]. destruct (decide (z = Z.of_nat k)); [by left|right; split; [lia|done]].
  - apply ends_Ok, HQ. eapply bits_ext; [exact Hv|]. intros z. unfold flagged_below. split; (intros [? Hz]; split; [|done]); [lia|]. assert (z <> Z.of_nat k) by congruence. lia.
Qed.

Lemma event_symbols_ok (junk : nat -> list Z) ca t : 0 <= xsys <= INT_MAX -> ends_in (event_symbols junk (st p ca t)) (fun t' => exists v1 v2 v3,
  t' = st p ca (set_t_lbv_xsyid_is_prediction_event (Some v3) (set_t_lbv_xsyid_is_nulled_event (Some v2) (set_t_lbv_xsyid_is_completion_event (Some v1) t)))
  /\ bits v1 xsys (flagged_below XSY_is_Completion_Event xsys) /\ bits v2 xsys (flagged_below XSY_is_Nulled_Event xsys) /\ bits v3 xsys (flagged_below XSY_is_Prediction_Event xsys)).
Proof using.
  clear. intros Hx. unfold event_symbols. change (XSY_Count_of_G (g_of (st p ca t))) with xsys. eapply ends_bind; [by apply bits_new|]. intros u1 Hu1. eapply ends_bind; [by apply bits_new|]. intros u2 Hu2. eapply ends_bind; [by apply bits_new|]. intros u3 Hu3.
  assert (forall f v, bits v xsys (fun _ => False) -> bits v xsys (flagged_below f 0)) as Hnone by (intros f v Hv; eapply bits_ext; [exact Hv|]; intros z; split; [done|intros [? _]; lia]).
  set (I := fun k c => bits c.1.1 xsys (flagged_below XSY_is_Completion_Event (Z.of_nat k)) /\ bits c.1.2 xsys (flagged_below XSY_is_Nulled_Event (Z.of_nat k)) /\ bits c.2 xsys (flagged_below XSY_is_Prediction_Event (Z.of_nat k))).
  apply (ends_bind _ _ (I (length (t_xsy_stack (t_g p))))); [|intros [[v1 v2] v3] (?&?&?); apply ends_Ok; by exists v1, v2, v3].
  apply (ends_list I (t_xsy_stack (t_g p))); [done|by split_and!; apply Hnone| |done].
  intros k x [[v1 v2] v3] Hk (H1&H2&H3). cbn [fst snd] in *. unfold XSY_by_ID. change (t_xsy_stack (g_of (st p ca t))) with (t_xsy_stack (t_g p)). rewrite (rd_at _ _ _ Hk). cbn [mbind res_bind].
  eapply ends_bind; [apply (flag_bit _ _ _ _ _ Hk H1); exact (fun _ Hv => Hv)|]. intros w1 Hw1. eapply ends_bind; [apply (flag_bit _ _ _ _ _ Hk H2); exact (fun _ Hv => Hv)|]. intros w2 Hw2. eapply ends_bind; [apply (flag_bit _ _ _ _ _ Hk H3); exact (fun _ Hv => Hv)|]. intros w3 Hw3.
  apply ends_Ok. by split_and!.
Qed.
(** ** The symbols that an item completes, predicts, and nulls *)

(** The symbol of the grammar that an internal symbol stands for. *)
Definition source_of (y z : Z) : Prop := exists s, 0 <= y /\ t_nsy_stack p !! Z.to_nat y = Some s /\ Source_XSY_of_NSY s = Some z.

Lemma source_read y : valid_nsy p y -> exists s z, NSY_by_ID p y = Ok s /\ Source_XSY_of_NSY s = Some z /\ 0 <= z < xsys /\ source_of y z.
Proof using Hs.
  intros Hv. destruct (nsy_read p y Hv) as (s&Hr&Hl). destruct (sh_symbols _ _ _ Hs _ _ Hl) as (z&Hz&Hb). exists s, z. split; [done|]. split; [done|].
  split; [unfold XSY_Count_of_G in *; by rewrite xsys_same|]. exists s. split; [apply Hv|done].
Qed.

Lemma source_unique y z z' : source_of y z -> source_of y z' -> z = z'.
Proof using. clear. intros (s&_&H1&H2) (s'&_&H3&H4). congruence. Qed.

(** The end of a rule that is not the start of a piece, its left-hand side being watched. *)
Definition completes (x : AHM) (z : Z) : Prop := Position_of_AHM x < 0 /\ exists irl r, t_irl_stack p !! Z.to_nat (IRL_of_AHM x) = Some irl /\ rs !! Z.to_nat (IRL_of_AHM x) = Some r
  /\ IRL_has_Virtual_LHS irl = false /\ source_of r.1 z /\ symbol_flag XSY_is_Completion_Event (t_g p) z = true.
(** Where the dot is, the end being after the last symbol. *)
Definition raw_position (x : AHM) (r : Z * list Z) : Z := if Position_of_AHM x <? 0 then Z.of_nat (length r.2) else Position_of_AHM x.
(** What the null symbols before the dot derive, without any other symbol. *)
Definition nulls_before (nulls : Z -> Z -> Prop) (x : AHM) (z : Z) : Prop := exists r j y w, rs !! Z.to_nat (IRL_of_AHM x) = Some r
  /\ raw_position x r - Null_Count_of_AHM x <= Z.of_nat j < raw_position x r /\ r.2 !! j = Some y /\ source_of y w /\ nulls w z.

(** The null symbols before a dot are of the rule. *)
Lemma dots_nulls null position nulls number last rhs d : d ∈ dots null position nulls number last rhs -> 0 <= nulls <= position ->
  0 <= dot_nulls d <= (if dot_position d <? 0 then position + Z.of_nat (length rhs) else dot_position d) /\ dot_position d <= position + Z.of_nat (length rhs).
Proof using.
  clear. revert position nulls number last. induction rhs as [|y rhs IH]; intros position nulls number last; cbn [dots].
  - intros ->%list_elem_of_singleton ?. cbn. lia.
  - cbn [length]. destruct (null y); [|intros [->|Hd]%elem_of_cons ?; [cbn; destruct (Z.ltb_spec position 0); lia|]].
    1: intros Hd ?. all: destruct (IH _ _ _ _ Hd) as [IH1 IH2]; [lia|]; destruct (Z.ltb_spec (dot_position d) 0); lia.
Qed.

(** An item, and its rule. *)
Lemma item_rule m x : all_items p rs !! m = Some x -> exists irl r, t_irl_stack p !! Z.to_nat (IRL_of_AHM x) = Some irl /\ rs !! Z.to_nat (IRL_of_AHM x) = Some r
  /\ 0 <= IRL_of_AHM x /\ 0 <= Null_Count_of_AHM x <= raw_position x r /\ raw_position x r <= Z.of_nat (length r.2).
Proof using.
  clear. intros (i&irl&r&k&d&Hi&Hr&Hd&->&_)%all_items_lookup. exists irl, r. unfold raw_position. cbn. rewrite Nat2Z.id. split; [done|]. split; [done|]. split; [lia|].
  destruct (dots_nulls _ _ _ _ _ _ _ (list_elem_of_lookup_2 _ _ _ Hd) ltac:(lia)) as [H1 H2]. destruct (Z.ltb_spec (dot_position d) 0); lia.
Qed.

Lemma bits_keep v k (P Q : Z -> Prop) : bits v k P -> (forall i, P i <-> Q i) -> ends_in (Ok v) (fun v' => bits v' k Q).
Proof using. intros Hv HQ. apply ends_Ok. by eapply bits_ext. Qed.

Lemma completion_of_ok ca l x irl r v : t_irl_stack p !! Z.to_nat (IRL_of_AHM x) = Some irl -> rs !! Z.to_nat (IRL_of_AHM x) = Some r ->
  bits v xsys (fun _ => False) -> ends_in (completion_of (with_items p t0 ca l) x irl v) (fun v' => bits v' xsys (completes x)).
Proof using Hs.
  intros Hi Hr Hv. unfold completion_of. destruct (Z.ltb_spec (Position_of_AHM x) 0) as [Hp|Hp]; cbn [andb].
  2: { eapply bits_keep; [done|]. intros z. split; [done|]. intros [? _]. lia. }
  destruct (IRL_has_Virtual_LHS irl) eqn:Hvl; cbn [negb].
  { eapply bits_keep; [done|]. intros z. split; [done|]. intros (_&irl'&r'&Hi'&_&Hv'&_). congruence. }
  destruct (irl_at g rs p Hs _ _ Hi) as (r'&Hr'&_&_&Ha&Hsh). rewrite Hr in Hr'. injection Hr' as <-. rewrite (irl_lhs_read _ _ _ Ha). cbn [mbind res_bind].
  change (NSY_by_ID (t_internal (with_items p t0 ca l))) with (NSY_by_ID p). destruct (source_read _ (rs_lhs _ _ Hsh)) as (s&z&->&Hz&Hzb&Hsz). cbn [mbind res_bind]. rewrite Hz. cbn [deref mbind res_bind].
  change (XSY_by_ID (g_of (with_items p t0 ca l))) with (XSY_by_ID (t_g p)). destruct (xsy_read z Hzb) as (y&Hy&->). cbn [mbind res_bind].
  assert (symbol_flag XSY_is_Completion_Event (t_g p) z = XSY_is_Completion_Event y) as Ef by (unfold symbol_flag; by rewrite Hy).
  destruct (XSY_is_Completion_Event y).
  - eapply ends_mono; [by apply (bits_set _ _ _ Hv)|]. intros v' Hv'. eapply bits_ext; [exact Hv'|]. intros z'. split.
    + intros [->|[]]. split; [done|]. by exists irl, r.
    + intros (_&irl'&r'&_&Hr'&_&Hs'&_). left. rewrite Hr in Hr'. injection Hr' as <-. by eapply source_unique.
  - eapply bits_keep; [done|]. intros z'. split; [done|]. intros (_&irl'&r'&_&Hr'&_&Hs'&Hf). rewrite Hr in Hr'. injection Hr' as <-. rewrite (source_unique _ _ _ Hs' Hsz) in Hf. congruence.
Qed.

Lemma prediction_of_ok ca l m x v : all_items p rs !! m = Some (bare x) -> bits v xsys (fun _ => False) ->
  ends_in (prediction_of (with_items p t0 ca l) x v) (fun v' => bits v' xsys (source_of (Postdot_NSYID_of_AHM x))).
Proof using Hs.
  intros Hx Hv. unfold prediction_of. destruct (item_postdot _ _ Hx) as [[E _]|[Hvy _]]; cbn [Postdot_NSYID_of_AHM bare] in *.
  - rewrite E. eapply bits_keep; [done|]. intros z. split; [done|]. intros (s&?&_). lia.
  - destruct (Z.geb_spec (Postdot_NSYID_of_AHM x) 0); [|destruct Hvy; lia]. change (NSY_by_ID (t_internal (with_items p t0 ca l))) with (NSY_by_ID p).
    destruct (source_read _ Hvy) as (s&z&->&Hz&Hzb&Hsz). cbn [mbind res_bind]. rewrite Hz. cbn [deref mbind res_bind].
    eapply ends_mono; [by apply (bits_set _ _ _ Hv)|]. intros v' Hv'. eapply bits_ext; [exact Hv'|]. intros z'. split; [intros [->|[]]; done|]. intros Hs'. left. by eapply source_unique.
Qed.
(** What the census has found that the null symbols derive. *)
Context (nulls : Z -> Z -> Prop) (Hrange : forall w z, nulls w z -> 0 <= z < xsys).
Context (Hnulls : forall z x, t_xsy_stack (t_g p) !! z = Some x -> exists c, Nulled_XSYIDs_of_XSY x = Some c /\ lists c xsys (nulls (Z.of_nat z))).

Lemma nulled_before_ok ca l irl r v a k : t_nsyid_array irl = Some <$> (r.1 :: r.2) -> rule_shape p r -> bits v xsys (fun _ => False) -> 0 <= a -> a + Z.of_nat k <= Z.of_nat (length r.2) ->
  ends_in (nulled_before (with_items p t0 ca l) irl a k v)
    (fun v' => bits v' xsys (fun z => exists j y w, a <= Z.of_nat j < a + Z.of_nat k /\ r.2 !! j = Some y /\ source_of y w /\ nulls w z)).
Proof using Hs Hrange Hnulls.
  intros Ha Hsh Hv H0 Hk. unfold nulled_before.
  destruct (for_res_ok (fun i v => bits v xsys (fun z => exists j y w, a <= Z.of_nat j < i /\ r.2 !! j = Some y /\ source_of y w /\ nulls w z)) k a
    (fun rhs_ix v => rhs_nsyid ← RHSID_of_IRL irl rhs_ix; nsy ← NSY_by_ID (t_internal (with_items p t0 ca l)) rhs_nsyid; xsyid ← deref (Source_XSY_of_NSY nsy);
      xsy ← XSY_by_ID (g_of (with_items p t0 ca l)) xsyid; nulled_xsyids ← written (Nulled_XSYIDs_of_XSY xsy); cil_count ← Count_of_CIL nulled_xsyids;
      for_res (Z.to_nat cil_count) 0 (fun cil_ix v => nulled_xsyid ← Item_of_CIL nulled_xsyids cil_ix; bv_bit_set v nulled_xsyid) v) v) as (v'&Hv'&HQ); [| |by exists v'].
  - eapply bits_ext; [exact Hv|]. intros z. split; [done|]. intros (j&y&w&?&_). lia.
  - intros i v1 Hi Hv1. destruct (lookup_lt_is_Some_2 r.2 (Z.to_nat i)) as [y Hy]; [lia|]. pose proof (irl_rhs_read _ _ _ _ _ Ha Hy) as Hread. rewrite Z2Nat.id in Hread by lia. rewrite Hread. cbn [mbind res_bind].
    change (NSY_by_ID (t_internal (with_items p t0 ca l))) with (NSY_by_ID p). destruct (source_read y) as (s&w&->&Hw&Hwb&Hsw); [apply (rs_rhs _ _ Hsh); by eapply list_elem_of_lookup_2|].
    cbn [mbind res_bind]. rewrite Hw. cbn [deref mbind res_bind]. change (XSY_by_ID (g_of (with_items p t0 ca l))) with (XSY_by_ID (t_g p)). destruct (xsy_read w Hwb) as (x&Hx&->). cbn [mbind res_bind].
    destruct (Hnulls _ _ Hx) as (c&->&Hc). rewrite Z2Nat.id in Hc by lia. cbn [written mbind res_bind].
    apply (each_item (fun l' v => bits v xsys (fun z => (exists j y w, a <= Z.of_nat j < i /\ r.2 !! j = Some y /\ source_of y w /\ nulls w z) \/ z ∈ l')) c xsys (nulls w)); [done| | |].
    + eapply bits_ext; [exact Hv1|]. intros z. rewrite elem_of_nil. naive_solver.
    + intros l' z v2 Hz _ Hv2. eapply ends_mono; [by apply (bits_set _ _ _ Hv2)|]. intros v3 Hv3. eapply bits_ext; [exact Hv3|]. intros z'. rewrite elem_of_app, list_elem_of_singleton. naive_solver.
    + intros l' v2 Hl' Hv2. eapply bits_ext; [exact Hv2|]. intros z. split.
      * intros [(j&y'&w'&Hj&Hx')|[_ Hz]%Hl']; [exists j, y', w'; split; [lia|done]|]. exists (Z.to_nat i), y, w. split; [lia|done].
      * intros (j&y'&w'&Hj&Hy'&Hw'&Hz). destruct (decide (j = Z.to_nat i)) as [->|]; [|left; exists j, y', w'; split; [lia|done]]. right. apply Hl'.
        rewrite Hy in Hy'. injection Hy' as <-. rewrite (source_unique _ _ _ Hsw Hw'). split; [by eapply Hrange|done].
Qed.

(** The lists of the symbols. *)
Definition with_events (m : nat) (x x' : AHM) : Prop := exists c1 c2 c3,
  x' = set_Prediction_XSYIDs_of_AHM (Some c3) (set_Nulled_XSYIDs_of_AHM (Some c2) (set_Completion_XSYIDs_of_AHM (Some c1) x))
  /\ lists c1 xsys (completes x) /\ lists c2 xsys (nulls_before nulls x) /\ lists c3 xsys (source_of (Postdot_NSYID_of_AHM x)).

(** A list and its place in an item. *)
Lemma event_list (Hfuel : (MARPA_AVL_MAX_HEIGHT <= tree_rounds)%nat) K ca l k x v P f {A} (body : Bit_Vector -> TABLES -> res A) (Q : A -> Prop) : l !! k = Some (Some x) -> held K ca -> K < SIZE_MOD - 1 -> 2 * xsys <= INT_MAX -> bits v xsys P ->
  (forall c ca', held (K + 1) ca' -> lists c xsys P -> ends_in (body v (with_items p t0 ca' (<[k := Some (f (Some c) x)]> l))) Q) ->
  ends_in (r ← cil_bv_add tree_rounds (cilar_of (with_items p t0 ca l)) v; (let '(cil, cilar, v') := r in t ← upd_ahm (set_cilar cilar (with_items p t0 ca l)) (Z.of_nat k) (f (Some cil)); body v' t)) Q.
Proof using.
  clear Ht0 Hs Hfit Hstart Hrange Hnulls. intros Hl Hca HK Hx Hv Hb. change (cilar_of (with_items p t0 ca l)) with ca. destruct (intern Hfuel K ca Hca HK _ _ _ Hv Hx) as (c&ca'&->&Hca'&Hc). cbn [mbind res_bind].
  change (set_cilar ca' (with_items p t0 ca l)) with (with_items p t0 ca' l). rewrite (upd_ahm_ok _ _ _ _ _ _ _ Hl). cbn [mbind res_bind]. by apply Hb.
Qed.
Lemma ahm_events_ok (Hfuel : (MARPA_AVL_MAX_HEIGHT <= tree_rounds)%nat) K ca (P : TABLES -> Prop) : 0 < xsys -> 2 * xsys <= INT_MAX -> held K ca -> K + 3 * Z.of_nat n < SIZE_MOD - 1 ->
  (forall ca' l, held (K + 3 * Z.of_nat n) ca' -> changed with_events (t_ahms t0) n l -> P (with_items p t0 ca' l)) ->
  ends_in (ahm_events (st p ca t0)) P.
Proof using Hs Ht0 Hrange Hnulls.
  intros Hx0 Hx2 Hca HK HP. unfold ahm_events, AHM_Count_of_G. change (t_ahm_count (st p ca t0)) with (t_ahm_count t0). rewrite (sd_count _ _ _ Ht0). cbn [written mbind res_bind]. rewrite Nat2Z.id.
  change (XSY_Count_of_G (g_of (st p ca t0))) with xsys. assert (exists P', bits (bv_create xsys) xsys P') as Hnew by (eexists; apply bits_create; lia).
  apply (ends_bind _ _ (fun c => exists ca' l, c.2 = with_items p t0 ca' l /\ held (K + 3 * Z.of_nat n) ca' /\ changed with_events (t_ahms t0) n l)); [|intros [v t] (ca'&l&->&Hca'&Hl); apply ends_Ok; by apply HP].
  apply (items_loop rs p t0 Ht0 pair (fun e => (exists P', bits e.1.1 xsys P') /\ (exists P', bits e.1.2 xsys P') /\ exists P', bits e.2 xsys P') with_events K 3 _ (bv_create xsys, bv_create xsys, bv_create xsys));
    [done|done| |intros e ca' l _ Hca' Hl; by exists ca', l].
  intros m x Hx Hbx [[v1 v2] v3] ca1 l ((P1&Hv1)&(P2&Hv2)&(P3&Hv3)) Hca1 Hl. cbn [fst snd] in *. rewrite (current_read _ _ _ _ _ _ _ Hl Hx). cbn [mbind res_bind].
  pose proof (lookup_lt_Some _ _ _ Hbx) as Hm. pose proof (changed_current _ _ _ _ _ Hl Hx) as Hlx. destruct (item_rule m (bare x) Hbx) as (irl&r&Hi&Hr&Hi0&Hnl&Hraw).
  cbn [IRL_of_AHM Null_Count_of_AHM bare] in *. change (raw_position (bare x) r) with (raw_position x r) in *. destruct (irl_at g rs p Hs _ _ Hi) as (r'&Hr'&_&Hlen&Ha&Hsh). rewrite Hr in Hr'. injection Hr' as <-.
  unfold IRL_by_AHM. change (IRL_by_ID (t_internal (with_items p t0 ca1 l))) with (IRL_by_ID p). unfold IRL_by_ID. rewrite <- (Z2Nat.id (IRL_of_AHM x)) at 1 by lia. rewrite (rd_at _ _ _ Hi). cbn [mbind res_bind].
  eapply ends_bind; [apply (bits_clear _ _ _ Hv1)|]. intros w1 Hw1. eapply ends_bind; [apply (bits_clear _ _ _ Hv3)|]. intros w3 Hw3. eapply ends_bind; [apply (bits_clear _ _ _ Hv2)|]. intros w2 Hw2. cbv zeta.
  eapply ends_bind; [by apply (completion_of_ok ca1 l x irl r)|]. intros u1 Hu1. eapply ends_bind; [by eapply prediction_of_ok|]. intros u3 Hu3.
  rewrite Hlen. fold (raw_position x r). eapply ends_bind; [apply (nulled_before_ok ca1 l irl r w2 (raw_position x r - Null_Count_of_AHM x) (Z.to_nat (Null_Count_of_AHM x)) Ha Hsh Hw2); lia|]. intros u2 Hu2.
  assert (bits u2 xsys (nulls_before nulls x)) as Hu2'.
  { eapply bits_ext; [exact Hu2|]. intros z. unfold nulls_before. split.
    - intros (j&y&w&Hj&Hyw). exists r, j, y, w. split; [done|]. split; [lia|done].
    - intros (r'&j&y&w&Hr'&Hj&Hyw). rewrite Hr in Hr'. injection Hr' as <-. exists j, y, w. split; [lia|done]. }
  eapply (event_list Hfuel _ _ _ _ _ _ _ set_Completion_XSYIDs_of_AHM); [exact Hlx|exact Hca1|lia|done|exact Hu1|]. intros c1 ca2 Hca2 Hc1.
  eapply (event_list Hfuel _ _ _ _ _ _ _ set_Nulled_XSYIDs_of_AHM); [apply list_lookup_insert_eq; by eapply lookup_lt_Some|exact Hca2|lia|done|exact Hu2'|]. intros c2 ca3 Hca3 Hc2.
  eapply (event_list Hfuel _ _ _ _ _ _ _ set_Prediction_XSYIDs_of_AHM); [apply list_lookup_insert_eq; rewrite length_insert; by eapply lookup_lt_Some|exact Hca3|lia|done|exact Hu3|]. intros c3 ca4 Hca4 Hc3.
  apply ends_Ok. eexists (u1, u2, u3), ca4, _. rewrite !list_insert_insert_eq. split; [reflexivity|]. split; [cbn [fst snd]; split; [by exists (completes x)|split; [by exists (nulls_before nulls x)|by exists (source_of (Postdot_NSYID_of_AHM x))]]|]. split; [eapply held_le; [exact Hca4|lia]|].
  by exists c1, c2, c3.
Qed.
End lists.

(** * Items: events, event groups

    Which items have an event, and how many events the end of a right recursive rule can
    bring. *)

Section events.
Context `{Library}.
Context (g : GRAMMAR) (rs : list (Z * list Z)) (p : INTERNAL) (Hs : shape g rs p).
Context (t0 : TABLES) (Ht0 : standing rs p t0).
Context (nulls : Z -> Z -> Prop) (Hrange : forall w z, nulls w z -> 0 <= z < XSY_Count_of_G (t_g p)).
#[local] Abbreviation n := (length (all_items p rs)).
#[local] Abbreviation nsys := (NSY_Count_of_G p).
#[local] Abbreviation xsys := (XSY_Count_of_G (t_g p)).

(** ** The items that have an event *)

(** The item completes, nulls or predicts a symbol. *)
Definition eventful (x : AHM) : Prop := exists z, completes rs p x z \/ nulls_before rs p nulls x z \/ source_of p (Postdot_NSYID_of_AHM x) z.

Definition with_event_ids (m : nat) (x x' : AHM) : Prop := exists c b, x' = set_Event_AHMIDs_of_AHM (Some c) x
  /\ cil_ints c = ints_of (if b : bool then [Z.of_nat m] else []) /\ (b = true <-> eventful x).

Lemma occupied_ok c k P : lists c k P -> ends_in (cil_is_occupied (Some c)) (fun b => b = true <-> exists i, 0 <= i < k /\ P i).
Proof.
  intros (l&Hc&Hin)%lists_members. unfold cil_is_occupied. cbn [written mbind res_bind]. rewrite (count_ok _ _ Hc). cbn [mbind res_bind]. apply ends_Ok. destruct l as [|i l]; cbn.
  - split; [done|]. intros (i&Hi). apply Hin, elem_of_nil in Hi as [].
  - split; [|done]. intros _. exists i. apply Hin. left.
Qed.

Lemma source_range y z : source_of p y z -> 0 <= z < xsys.
Proof using Hs.
  intros (s&_&Hl&Hz). destruct (sh_symbols _ _ _ Hs _ _ Hl) as (z'&Hz'&Hb). rewrite Hz in Hz'. injection Hz' as <-. unfold XSY_Count_of_G in *. by rewrite (xsys_same g rs p Hs).
Qed.

Lemma completes_range x z : completes rs p x z -> 0 <= z < xsys.
Proof using Hs. intros (_&irl&r&_&_&_&Hz&_). by eapply source_range. Qed.

Lemma nulls_range x z : nulls_before rs p nulls x z -> 0 <= z < xsys.
Proof using Hrange. intros (r&j&y&w&_&_&_&_&Hz). by eapply Hrange. Qed.

Lemma ahm_event_ids_ok (Hfuel : (MARPA_AVL_MAX_HEIGHT <= tree_rounds)%nat) K ca (P : TABLES -> Prop) :
  (forall m x, t_ahms t0 !! m = Some (Some x) -> exists x0, with_events rs p nulls m x0 x) ->
  held K ca -> K + Z.of_nat n < SIZE_MOD - 1 ->
  (forall ca' l, held (K + Z.of_nat n) ca' -> changed with_event_ids (t_ahms t0) n l -> P (with_items p t0 ca' l)) ->
  ends_in (ahm_event_ids (st p ca t0)) P.
Proof using Hs Ht0 Hrange.
  intros Hev Hca HK HP. unfold ahm_event_ids. apply (each_ahm_ok rs p t0 Ht0 with_event_ids K 1); [done| |intros ca' l Hca' Hl; apply HP; [eapply held_le; [exact Hca'|lia]|done]].
  intros m x Hx Hbx ca1 l Hca1 Hl. pose proof (lookup_lt_Some _ _ _ Hbx) as Hm. pose proof (changed_current _ _ _ _ _ Hl Hx) as Hlx.
  destruct (Hev m x Hx) as (x0&c1&c2&c3&->&Hc1&Hc2&Hc3). cbn [Completion_XSYIDs_of_AHM Nulled_XSYIDs_of_AHM Prediction_XSYIDs_of_AHM set_Prediction_XSYIDs_of_AHM set_Nulled_XSYIDs_of_AHM set_Completion_XSYIDs_of_AHM].
  destruct (occupied_ok _ _ _ Hc1) as (b1&->&Hb1). cbn [mbind res_bind]. destruct (occupied_ok _ _ _ Hc2) as (b2&Eb2&Hb2), (occupied_ok _ _ _ Hc3) as (b3&Eb3&Hb3).
  set (b := if b1 then true else if b2 then true else b3).
  assert ((nulled ← (if b1 then Ok true else cil_is_occupied (Some c2)); if nulled : bool then Ok true else cil_is_occupied (Some c3)) = Ok b) as Eb.
  { unfold b. destruct b1; [done|]. rewrite Eb2. cbn [mbind res_bind]. destruct b2; [done|]. by rewrite Eb3. }
  assert (b = true <-> eventful x0) as Hb.
  { unfold eventful, b. split.
    - destruct b1; [intros _; destruct (proj1 Hb1 eq_refl) as (z&_&Hz); exists z; by left|]. destruct b2; [intros _; destruct (proj1 Hb2 eq_refl) as (z&_&Hz); exists z; by right; left|].
      intros ->. destruct (proj1 Hb3 eq_refl) as (z&_&Hz). exists z. by right; right.
    - intros (z&[Hz|[Hz|Hz]]); [rewrite (proj2 Hb1); [done|]; exists z; split; [by eapply completes_range|done]|rewrite (proj2 Hb2); [by destruct b1|]; exists z; split; [by eapply nulls_range|done]|].
      rewrite (proj2 Hb3); [by destruct b1, b2|]. exists z. split; [by eapply source_range|done]. }
  apply bind_Ok in Eb as (nulled&->&Eb). cbn [mbind res_bind]. rewrite Eb. cbn [mbind res_bind]. unfold with_cilar. change (cilar_of (with_items p t0 ca1 l)) with ca1.
  assert (exists c ca2, (if b then cil_singleton tree_rounds ca1 (Z.of_nat m) else cil_empty tree_rounds ca1) = Ok (c, ca2) /\ held (K + 1 * Z.of_nat m + 1) ca2 /\ cil_ints c = ints_of (if b then [Z.of_nat m] else [])) as (c&ca2&->&Hca2&Hc).
  { destruct b; [apply intern_single|apply intern_empty]; (done || lia). }
  cbn [mbind res_bind fst snd]. change (set_cilar ca2 (with_items p t0 ca1 l)) with (with_items p t0 ca2 l). rewrite (upd_ahm_ok _ _ _ _ _ _ _ Hlx). apply ends_Ok.
  do 2 eexists. split; [reflexivity|]. split; [eapply held_le; [exact Hca2|lia]|]. by exists c, b.
Qed.
(** ** The events that the end of a rule can bring *)
Context (Hflag : flagged rs p (t_irl_tables t0) (length rs)).

Definition evented (x : AHM) : Prop := exists c e l, Event_AHMIDs_of_AHM x = Some c /\ cil_ints c = ints_of (e :: l).
(** The end of a right recursive rule, which Leo items stand for. *)
Definition leo (x : AHM) : Prop := Postdot_NSYID_of_AHM x < 0 /\ exists r, rs !! Z.to_nat (IRL_of_AHM x) = Some r /\ right_recursive rs p r.
Definition lhs_of (x : AHM) (y : Z) : Prop := exists r, rs !! Z.to_nat (IRL_of_AHM x) = Some r /\ r.1 = y.
(** The ends of such rules, with an event, that the one of [x] leads to. *)
Definition grouped (x : AHM) (i : nat) : Prop := exists y a b, t_ahms t0 !! i = Some (Some y) /\ evented y /\ leo y /\ lhs_of x a /\ lhs_of y b /\ tc (leo_corner rs p) a b.

Definition with_group (m : nat) (x x' : AHM) : Prop := exists v, x' = set_Event_Group_Size_of_AHM v x
  /\ ((leo x /\ exists ids, NoDup ids /\ (forall i, i ∈ ids <-> grouped x i) /\ v = Event_Group_Size_of_AHM x + Z.of_nat (length ids))
      \/ (~ leo x /\ evented x /\ v = 1) \/ (~ leo x /\ ~ evented x /\ v = Event_Group_Size_of_AHM x)).

(** An item that differs from [x] in its group only. *)
Definition regrouped (x y : AHM) : Prop := exists v, y = set_Event_Group_Size_of_AHM v x.

Lemma event_read x : (exists c l, Event_AHMIDs_of_AHM x = Some c /\ cil_ints c = ints_of l) -> ends_in (AHM_has_Event x) (fun b => b = true <-> evented x).
Proof using.
  clear. intros (c&l&Hc&Hl). unfold AHM_has_Event, cil_is_occupied, evented. rewrite Hc. cbn [written mbind res_bind]. rewrite (count_ok _ _ Hl). cbn [mbind res_bind]. apply ends_Ok.
  destruct l as [|e l]; cbn; (split; [|]); try done.
  - intros (c'&e&l&[= <-]&Hc'). rewrite Hl in Hc'. by apply ints_of_inj in Hc'.
  - intros _. by exists c, e, l.
Qed.

Lemma leo_read ca l m x : all_items p rs !! m = Some (bare x) -> ends_in (AHM_is_Leo_Completion (with_items p t0 ca l) x) (fun b => b = true <-> leo x).
Proof using Hflag.
  clear Hs Ht0 Hrange. intros Hx. unfold AHM_is_Leo_Completion, AHM_is_Completion, leo. destruct (Z.ltb_spec (Postdot_NSYID_of_AHM x) 0) as [Hp|Hp].
  2: { apply ends_Ok. split; [done|]. intros [? _]. lia. }
  destruct (item_rule rs p m (bare x) Hx) as (irl&r&_&Hr&Hi0&_). cbn [IRL_of_AHM bare] in *.
  destruct (flagged_table rs p _ _ ca t0 _ r Hflag eq_refl Hr) as (b&Hb&Hbr). rewrite Z2Nat.id in Hb by lia. change (irl_table (with_items p t0 ca l)) with (irl_table (st p ca t0)). rewrite Hb. cbn [mbind res_bind].
  apply ends_Ok. cbn. rewrite Hbr. split.
  - intros [_ Hrr]. split; [lia|]. by exists r.
  - intros (_&r'&Hr'&Hrr). split; [by eapply lookup_lt_Some|]. congruence.
Qed.

Lemma lhs_of_read ca l m x : all_items p rs !! m = Some (bare x) -> exists a, LHSID_of_AHM (with_items p t0 ca l) x = Ok a /\ lhs_of x a /\ 0 <= a < nsys.
Proof using Hs.
  clear Ht0 Hrange Hflag. intros Hx. destruct (item_rule rs p m (bare x) Hx) as (irl&r&Hi&Hr&Hi0&_). cbn [IRL_of_AHM bare] in *. destruct (irl_at g rs p Hs _ _ Hi) as (r'&Hr'&_&_&Ha&Hsh).
  rewrite Hr in Hr'. injection Hr' as <-. exists r.1. split; [|split; [by exists r|apply (rs_lhs _ _ Hsh)]]. unfold LHSID_of_AHM, IRL_by_AHM.
  change (IRL_by_ID (t_internal (with_items p t0 ca l))) with (IRL_by_ID p). unfold IRL_by_ID. rewrite <- (Z2Nat.id (IRL_of_AHM x)) by lia. rewrite (rd_at _ _ _ Hi). cbn [mbind res_bind]. by rewrite (irl_lhs_read _ _ _ Ha).
Qed.

Lemma lhs_of_unique x a b : lhs_of x a -> lhs_of x b -> a = b.
Proof using. clear. intros (r&Hr&<-) (r'&Hr'&<-). congruence. Qed.

(** The items of the state are those of [t0], but for their groups. *)
Lemma group_read k ca l m x : changed with_group (t_ahms t0) k l -> t_ahms t0 !! m = Some (Some x) ->
  exists y, AHM_by_ID (with_items p t0 ca l) (Z.of_nat m) = Ok y /\ l !! m = Some (Some y) /\ regrouped x y.
Proof using.
  clear Hs Ht0 Hrange Hflag. intros [_ Hc] Hx. destruct (Hc m x Hx) as (y&Hy&Hcase). exists y. split; [|split; [done|]].
  - unfold AHM_by_ID. cbn [with_items t_ahms st set_t_internal set_t_ahms]. by rewrite (rd_at _ _ _ Hy).
  - destruct (decide _); [destruct Hcase as (v&->&_); by exists v|]. subst y. exists (Event_Group_Size_of_AHM x). by destruct x.
Qed.
Context (Hids : forall m x, t_ahms t0 !! m = Some (Some x) -> exists c l, Event_AHMIDs_of_AHM x = Some c /\ cil_ints c = ints_of l).
Context (mx : Bit_Matrix) (Hmx : mat mx nsys nsys (tc (leo_corner rs p))).

Definition counted_group (m : nat) (x : AHM) (ca : CILAR) (l : list (option AHM)) (j : nat) (t : TABLES) : Prop := exists ids,
  t = with_items p t0 ca (<[m := Some (set_Event_Group_Size_of_AHM (Event_Group_Size_of_AHM x + Z.of_nat (length ids)) x)]> l)
  /\ NoDup ids /\ forall i, i ∈ ids <-> (i < j)%nat /\ grouped x i.

Lemma grouped_at x j y a b : t_ahms t0 !! j = Some (Some y) -> lhs_of x a -> lhs_of y b -> grouped x j <-> evented y /\ leo y /\ tc (leo_corner rs p) a b.
Proof using.
  clear. intros Hy Ha Hb. split; [|intros (?&?&?); by exists y, a, b]. intros (y'&a'&b'&Hy'&He&Hl&Ha'&Hb'&Htc). rewrite Hy in Hy'. injection Hy' as <-.
  by rewrite (lhs_of_unique _ _ _ Ha Ha'), (lhs_of_unique _ _ _ Hb Hb').
Qed.

(** A round of the inner loop. *)
Lemma group_round m x ca l j (a : Z) t : t_ahms t0 !! m = Some (Some x) -> changed with_group (t_ahms t0) m l -> lhs_of x a -> 0 <= a < nsys -> (j < n)%nat -> counted_group m x ca l j t ->
  ends_in (inner_ahm ← AHM_by_ID t (Z.of_nat j);
    event ← AHM_has_Event inner_ahm;
    if negb event then Ok t
    else
      leo ← AHM_is_Leo_Completion t inner_ahm;
      if negb leo then Ok t
      else
        inner_nsyid ← LHSID_of_AHM t inner_ahm;
        b ← matrix_bit_test mx a inner_nsyid;
        if b : bool then upd_ahm t (Z.of_nat m) (fun ahm => set_Event_Group_Size_of_AHM (Event_Group_Size_of_AHM ahm + 1) ahm)
        else Ok t) (counted_group m x ca l (S j)).
Proof using Hs Ht0 Hflag Hids Hmx.
  clear Hrange. intros Hx Hl Ha Hab Hj (ids&->&Hnd&Hin). destruct (item_some rs p t0 Ht0 j Hj) as (y0&Hy0&Hby). pose proof (changed_current _ _ _ _ _ Hl Hx) as Hlx.
  set (v := Event_Group_Size_of_AHM x + Z.of_nat (length ids)) in *. set (l1 := <[m:=_]> l).
  assert (exists y, AHM_by_ID (with_items p t0 ca l1) (Z.of_nat j) = Ok y /\ regrouped y0 y) as (y&->&u&->).
  { destruct (decide (j = m)) as [->|Hne].
    - rewrite Hx in Hy0. injection Hy0 as <-. eexists. split; [|by exists v]. unfold AHM_by_ID. cbn [with_items t_ahms st set_t_internal set_t_ahms].
      rewrite (rd_at l1 _ _ (list_lookup_insert_eq _ _ _ (lookup_lt_Some _ _ _ Hlx))). done.
    - destruct (group_read m ca l j y0 Hl Hy0) as (y&_&Hly&Hry). exists y. split; [|done]. unfold AHM_by_ID. cbn [with_items t_ahms st set_t_internal set_t_ahms].
      rewrite (rd_at _ _ (Some y)); [done|]. unfold l1. by rewrite list_lookup_insert_ne. }
  cbn [mbind res_bind]. set (y := set_Event_Group_Size_of_AHM u y0).
  assert (~ grouped x j -> counted_group m x ca l (S j) (with_items p t0 ca l1)) as Hskip.
  { intros Hng. exists ids. split; [done|]. split; [done|]. intros i. rewrite Hin. split; (intros [? ?]; split; [|done]); [lia|]. assert (i <> j) by congruence. lia. }
  destruct (lhs_of_read ca l1 j y Hby) as (b&Hlb&Hyb&Hbb). pose proof (grouped_at x j y0 a b Hy0 Ha Hyb) as Hg.
  destruct (event_read y (Hids _ _ Hy0)) as (e&->&He). cbn [mbind res_bind]. destruct e; cbn [negb]; [|apply ends_Ok, Hskip; rewrite Hg; intros (Hev&_); by apply He in Hev].
  destruct (leo_read ca l1 j y Hby) as (f&->&Hf). cbn [mbind res_bind]. destruct f; cbn [negb]; [|apply ends_Ok, Hskip; rewrite Hg; intros (_&Hlo&_); by apply Hf in Hlo].
  rewrite Hlb. cbn [mbind res_bind]. destruct (mat_test _ _ _ _ Hmx a b Hab Hbb) as (c&->&Hc). cbn [mbind res_bind].
  destruct c; [|apply ends_Ok, Hskip; rewrite Hg; intros (_&_&Htc); by apply Hc in Htc]. assert (grouped x j) as Hgj by (apply Hg; split_and!; [by apply He|by apply Hf|by apply Hc]).
  rewrite (upd_ahm_ok p t0 ca l1 _ _ _ (list_lookup_insert_eq _ _ _ (lookup_lt_Some _ _ _ Hlx))). apply ends_Ok. exists (ids ++ [j]). unfold l1. rewrite list_insert_insert_eq. split; [|split].
  - replace (Event_Group_Size_of_AHM x + Z.of_nat (length (ids ++ [j]))) with (v + 1) by (unfold v; rewrite length_app; cbn; lia). done.
  - apply NoDup_app. split; [done|]. split; [|apply NoDup_singleton]. intros i Hi%Hin ->%list_elem_of_singleton. lia.
  - intros i. rewrite elem_of_app, list_elem_of_singleton, Hin. split; [intros [[? ?]| ->]; (split; [lia|done])|]. intros [Hi ?]. destruct (decide (i = j)) as [->|]; [by right|left; split; [lia|done]].
Qed.

Lemma event_group_sizes_ok K ca (P : TABLES -> Prop) : held K ca -> (forall ca' l, held K ca' -> changed with_group (t_ahms t0) n l -> P (with_items p t0 ca' l)) ->
  ends_in (event_group_sizes mx (st p ca t0)) P.
Proof using Hs Ht0 Hflag Hids Hmx.
  clear Hrange. intros Hca HP. unfold event_group_sizes. apply (each_ahm_ok rs p t0 Ht0 with_group K 0); [done| |intros ca' l Hca' Hl; apply HP; [eapply held_le; [exact Hca'|lia]|done]].
  intros m x Hx Hbx ca1 l Hca1 Hl. pose proof (changed_current _ _ _ _ _ Hl Hx) as Hlx. assert (held (K + 0 * (Z.of_nat m + 1)) ca1) as Hca2 by (eapply held_le; [exact Hca1|lia]).
  destruct (leo_read ca1 l m x Hbx) as (f&->&Hf). cbn [mbind res_bind]. destruct f; cbn [negb].
  - destruct (lhs_of_read ca1 l m x Hbx) as (a&->&Ha&Hab). cbn [mbind res_bind]. unfold each_ahm, AHM_Count_of_G. change (t_ahm_count (with_items p t0 ca1 l)) with (t_ahm_count t0).
    rewrite (sd_count _ _ _ Ht0). cbn [written mbind res_bind]. rewrite Nat2Z.id. apply (ends_list (counted_group m x ca1 l) (all_items p rs)); [done| | |].
    + exists []. split; [|split; [constructor|]]. 2: { intros i. rewrite elem_of_nil. lia. } rewrite list_insert_id; [done|]. rewrite Hlx. destruct x. cbn. by rewrite Z.add_0_r.
    + intros j y t Hj Ht. apply lookup_lt_Some in Hj. by apply group_round.
    + intros t (ids&->&Hnd&Hin). do 2 eexists. split; [reflexivity|]. split; [done|]. eexists. split; [reflexivity|]. left. split; [by apply Hf|]. exists ids. split; [done|]. split; [|done].
      intros i. rewrite Hin. split; [by intros []|]. intros Hg. split; [|done]. destruct Hg as (y&_&_&Hy&_). apply lookup_lt_Some in Hy. by rewrite (ahms_length rs p t0 Ht0) in Hy.
  - assert (~ leo x) as Hnl by (intros Hlo; by apply Hf in Hlo). destruct (event_read x (Hids _ _ Hx)) as (e&->&He). cbn [mbind res_bind]. destruct e.
    + rewrite (upd_ahm_ok _ _ _ _ _ _ _ Hlx). apply ends_Ok. do 2 eexists. split; [reflexivity|]. split; [done|]. exists 1. split; [done|]. right; left. split; [done|]. split; [by apply He|done].
    + apply ends_Ok. exists ca1, x. rewrite list_insert_id by done. split; [done|]. split; [done|]. exists (Event_Group_Size_of_AHM x). split; [by destruct x|]. right; right. split; [done|]. split; [|done].
      intros Hev. by apply He in Hev.
Qed.
End events.

(** * Items: zero-width assertions

    The list of the assertions at the dot of each item, read from the tree of the
    assertions, and the items that predict a rule that starts with one. *)

(** The assertion [z] is in the rule [x], between the dots [first] and [last]. *)
Definition placed (x first last : Z) (z : ZWP) : Prop := XRLID_of_ZWP z = x /\ first <= Dot_of_ZWP z <= last.
#[export] Instance placed_dec x first last z : Decision (placed x first last z).
Proof. unfold placed. apply _. Defined.

Lemma placed_none x first last l : Forall (fun z => ~ placed x first last z) l -> filter (placed x first last) l = [].
Proof. induction 1 as [|z l Hz _ IH]; [done|]. by rewrite filter_cons, decide_False. Qed.

Lemma zwp_le a b : zwp_cmp a b <= 0 -> XRLID_of_ZWP a < XRLID_of_ZWP b \/ (XRLID_of_ZWP a = XRLID_of_ZWP b /\ Dot_of_ZWP a <= Dot_of_ZWP b).
Proof. unfold zwp_cmp. destruct (Z.eqb_spec (XRLID_of_ZWP a - XRLID_of_ZWP b) 0), (Z.eqb_spec (Dot_of_ZWP a - Dot_of_ZWP b) 0); cbn [negb]; lia. Qed.

(** What comes before the object sought is before its dot. *)
Lemma zwp_lt_sought a addr x d : 0 <= ZWAID_of_ZWP a -> zwp_cmp a (MkZWP addr x d 0) < 0 -> XRLID_of_ZWP a < x \/ (XRLID_of_ZWP a = x /\ Dot_of_ZWP a < d).
Proof. unfold zwp_cmp. cbn. destruct (Z.eqb_spec (XRLID_of_ZWP a - x) 0), (Z.eqb_spec (Dot_of_ZWP a - d) 0); cbn [negb]; lia. Qed.

(** An arena whose buffer has the list [l]. *)
Definition pushed (cs : list CIL) (l : list Z) (ca : CILAR) : Prop := cilar_rep ca cs /\ dstack_rep (ca_buffer ca) (ints_of l).

(** The tree of the assertions of a grammar, and their number, that an [int] has room for. *)
Record assertions (tree : avl_table (D := ZWP)) (zwps : list ZWP) : Prop := {
  zs_tree : represents zwp_cmp tree zwps;
  zs_ids : Forall (fun z => 0 <= ZWAID_of_ZWP z) zwps;
  zs_number : 2 * Z.of_nat (length zwps + 1) <= INT_MAX
}.

Lemma assertions_count tree zwps : assertions tree zwps -> avl_count tree = Z.of_nat (length zwps) /\ avl_count tree < SIZE_MOD.
Proof. intros [(t&Hr&<-) _ Hn]. rewrite (rep_count _ _ _ Hr). unfold INT_MAX, SIZE_MOD in *. lia. Qed.

Lemma assertions_sorted tree zwps : assertions tree zwps -> StronglySorted (fun a b => zwp_cmp a b < 0) zwps.
Proof. intros [(t&Hr&<-) _ _]. exact (rep_sorted _ _ _ Hr). Qed.

Section assertions.
Context `{Library} (Hfuel : (MARPA_AVL_MAX_HEIGHT <= tree_rounds)%nat).
Context (tree : avl_table (D := ZWP)) (zwps : list ZWP) (Hzs : assertions tree zwps).

(** The assertions from the one found on, up to the last dot. *)
Lemma zwp_loop_ok cs x first last l1 l2 : StronglySorted (fun a b => zwp_cmp a b < 0) l2 ->
  Forall (fun z => zwp_cmp (MkZWP (-1) x first 0) z <= 0) l2 ->
  forall rounds trav ca l, pushed cs l ca -> (length l2 <= rounds)%nat -> 2 * Z.of_nat (length l + length l2 + 1) <= INT_MAX ->
  match l2 with [] => True | d :: l2 => positioned zwp_cmp tree trav l1 d l2 end ->
  ends_in (zwp_loop rounds tree x last (list.head l2) trav ca) (pushed cs (l ++ (ZWAID_of_ZWP <$> filter (placed x first last) l2))).
Proof using Hfuel Hzs.
  pose proof (proj2 (assertions_count _ _ Hzs)) as Hcount. clear Hzs. revert l1. induction l2 as [|z l2 IH]; intros l1 Hs Hf rounds trav ca l Hca Hr Hl Hp.
  { destruct rounds; cbn [zwp_loop list.head]; apply ends_Ok; cbn; by rewrite app_nil_r. }
  apply StronglySorted_inv in Hs as [Hs Hz]. apply Forall_cons in Hf as [Hf1 Hf]. pose proof (zwp_le _ _ Hf1) as Hle. cbn in Hle. destruct rounds as [|rounds]; [cbn in Hr; lia|].
  cbn [zwp_loop list.head]. rewrite filter_cons. destruct (Z.eqb_spec (XRLID_of_ZWP z) x) as [Ex|Ex], (Z.leb_spec (Dot_of_ZWP z) last) as [Hd|Hd]; cbn [andb].
  1: { destruct Hca as [Hca Hb]. destruct (cil_buffer_push_ok tree_rounds Hfuel ca cs l (ZWAID_of_ZWP z) Hca Hb) as (ca1&->&Hca1&Hb1); [cbn in Hl; lia|]. cbn [mbind res_bind].
    destruct (next_ok zwp_cmp _ _ _ _ _ _ Hp Hcount Hfuel) as (trav'&->&Hm). cbn [mbind res_bind fst snd]. rewrite decide_True by (split; [done|lia]). rewrite fmap_cons.
    replace (l ++ ZWAID_of_ZWP z :: (ZWAID_of_ZWP <$> filter (placed x first last) l2)) with ((l ++ [ZWAID_of_ZWP z]) ++ (ZWAID_of_ZWP <$> filter (placed x first last) l2)) by by rewrite <- app_assoc.
    change (head l2) with (list.head l2). apply (IH (l1 ++ [z])); [done|done|done|cbn in Hr; lia|rewrite length_app; cbn in *; lia|]. by destruct l2. }
  all: apply ends_Ok; rewrite decide_False by (intros [? ?]; lia).
  all: rewrite placed_none; [cbn; by rewrite app_nil_r|].
  all: apply Forall_forall; intros z' Hz'; rewrite Forall_forall in Hz; specialize (Hz _ Hz'); pose proof (zwp_le z z' ltac:(lia)); intros [? ?]; lia.
Qed.

(** The search and the loop: every assertion of the rule between the two dots, in order. *)
Lemma assertions_between cs x first last ca : pushed cs [] ca ->
  ends_in (r ← avl_t_at_or_after zwp_cmp tree_rounds tree (MkZWP (-1) x first 0) (avl_t_init tree);
    zwp_loop (Z.to_nat (avl_count tree)) tree x last r.1 r.2 ca) (pushed cs (ZWAID_of_ZWP <$> filter (placed x first last) zwps)).
Proof using Hfuel Hzs.
  intros Hca. destruct (assertions_count _ _ Hzs) as [Hn Hsz]. pose proof (assertions_sorted _ _ Hzs) as Hs.
  destruct (t_at_or_after_ok zwp_cmp tree_rounds tree zwps (MkZWP (-1) x first 0) (zs_tree _ _ Hzs) Hsz Hfuel) as (l1&l2&trav&E&H1&H2&->&Hp). cbn [mbind res_bind fst snd].
  pose proof (zs_ids _ _ Hzs) as Hids. pose proof (zs_number _ _ Hzs) as Hnum. rewrite E in Hids, Hnum, Hs |- *. rewrite list.filter_app, (placed_none _ _ _ l1), app_nil_l.
  2: { apply Forall_app in Hids as [Hids _]. rewrite Forall_forall in H1, Hids |- *. intros z Hz [? ?]. destruct (zwp_lt_sought z _ _ _ (Hids _ Hz) (H1 _ Hz)); lia. }
  rewrite Hn, Nat2Z.id, E. rewrite length_app in Hnum |- *. change (head l2) with (list.head l2).
  eapply ends_mono; [apply (zwp_loop_ok cs x first last l1); [by eapply StronglySorted_app_1_r with (l1 := l1)|done|exact Hca|lia|cbn; lia|by destruct l2]|done].
Qed.
End assertions.

Section zwas.
Context `{Library}.
Context (g : GRAMMAR) (rs : list (Z * list Z)) (p : INTERNAL) (Hs : shape g rs p).
Context (t0 : TABLES) (Ht0 : standing rs p t0).
Context (tree : avl_table (D := ZWP)) (zwps : list ZWP) (Hzs : assertions tree zwps) (Htree : t_zwp_tree (t_g p) = Some tree).
#[local] Abbreviation n := (length (all_items p rs)).

(** The assertions of the rule of the item, from the first of the null symbols before the
    dot to the dot, in order. *)
Definition assertions_of (x : AHM) : list ZWP :=
  match XRL_of_AHM x with
  | None => []
  | Some j =>
    match t_xrl_stack (t_g p) !! Z.to_nat j with
    | None => []
    | Some xrl => let last := Raw_XRL_Position_of_AHM x xrl in filter (placed j (last - Null_Count_of_AHM x) last) zwps
    end
  end.

Definition with_assertions (m : nat) (x x' : AHM) : Prop :=
  exists c, x' = set_ZWA_CIL_of_AHM (Some c) x /\ cil_ints c = ints_of (ZWAID_of_ZWP <$> assertions_of x).

Lemma source_rule m x j : all_items p rs !! m = Some x -> XRL_of_AHM x = Some j -> 0 <= j /\ exists xrl, t_xrl_stack (t_g p) !! Z.to_nat j = Some xrl.
Proof using Hs.
  intros (i&irl&r&k&d&Hi&_&_&->&_)%all_items_lookup Hj. cbn in Hj. pose proof (sh_source _ _ _ Hs _ _ _ Hi Hj) as Hb. split; [lia|]. apply lookup_lt_is_Some_2.
  unfold XRL_Count_of_G in Hb. destruct (sh_grammar _ _ _ Hs) as [->| ->]; cbn; lia.
Qed.

Lemma ahm_zwas_ok (Hfuel : (MARPA_AVL_MAX_HEIGHT <= tree_rounds)%nat) K ca (P : TABLES -> Prop) : held K ca -> K + Z.of_nat n < SIZE_MOD - 1 ->
  (forall ca' l, held (K + Z.of_nat n) ca' -> changed with_assertions (t_ahms t0) n l -> P (with_items p t0 ca' l)) ->
  ends_in (ahm_zwas (st p ca t0)) P.
Proof using Hs Ht0 Hzs Htree.
  intros Hca HK HP. unfold ahm_zwas. apply (each_ahm_ok rs p t0 Ht0 with_assertions K 1); [done| |intros ca' l Hca' Hl; apply HP; [eapply held_le; [exact Hca'|lia]|done]].
  intros m x Hx Hbx ca1 l (cs&Hcs&Hlen) Hl. pose proof (changed_current _ _ _ _ _ Hl Hx) as Hlx. pose proof (lookup_lt_Some _ _ _ Hbx) as Hm.
  change (cilar_of (with_items p t0 ca1 l)) with ca1. destruct (cil_buffer_clear_ok tree_rounds Hfuel ca1 cs Hcs) as (ca2&->&Hcs2&Hb2). cbn [mbind res_bind].
  apply (ends_bind _ _ (pushed cs (ZWAID_of_ZWP <$> assertions_of x))).
  - unfold assertions_of. destruct (XRL_of_AHM x) as [j|] eqn:Ej; [|by apply ends_Ok]. destruct (source_rule m (bare x) j Hbx Ej) as (Hj&xrl&Hxrl). rewrite Hxrl.
    change (g_of (with_items p t0 ca1 l)) with (set_t_cilar ca1 (t_g p)). unfold XRL_by_ID. cbn [t_xrl_stack set_t_cilar t_zwp_tree]. rewrite <- (Z2Nat.id j) at 1 by lia. rewrite (rd_at _ _ _ Hxrl), Htree.
    cbn [mbind res_bind written]. by apply (assertions_between Hfuel tree zwps Hzs).
  - intros ca3 [Hcs3 Hb3]. destruct (cil_buffer_add_ok tree_rounds Hfuel ca3 cs _ Hcs3 (buffer_holds _ _ Hb3)) as (c&ca4&cs4&->&Hcs4&Hc&_&Hle); [lia|]. cbn [mbind res_bind fst snd].
    change (set_cilar ca4 (with_items p t0 ca1 l)) with (with_items p t0 ca4 l). rewrite (upd_ahm_ok _ _ _ _ _ _ _ Hlx). apply ends_Ok.
    do 2 eexists. split; [reflexivity|]. split; [exists cs4; split; [done|lia]|]. by exists c.
Qed.
(** ** The items that predict a rule with an assertion before its first symbol *)
Context (Hpred : forall m x, t_ahms t0 !! m = Some (Some x) -> exists c, Predicted_IRL_CIL_of_AHM x = Some c /\ lists c (IRL_Count_of_G p) (predicts rs p (Postdot_NSYID_of_AHM x))).
Context (Hzwa : forall m x, t_ahms t0 !! m = Some (Some x) -> exists c l, ZWA_CIL_of_AHM x = Some c /\ cil_ints c = ints_of l).

(** The first item of the rule [i] has an assertion. *)
Definition starts_asserted (i : nat) : Prop := exists y c e l, t_ahms t0 !! first_item p rs i = Some (Some y) /\ ZWA_CIL_of_AHM y = Some c /\ cil_ints c = ints_of (e :: l).
Definition predicts_assertion (x : AHM) : Prop := exists i, predicts rs p (Postdot_NSYID_of_AHM x) (Z.of_nat i) /\ starts_asserted i.
Definition with_predicted_assertion (m : nat) (x x' : AHM) : Prop :=
  (predicts_assertion x /\ x' = set_AHM_predicts_ZWA (Some true) x) \/ (~ predicts_assertion x /\ x' = x).

(** The list of the first item of a rule. *)
Lemma first_assertions k ca l i : changed with_predicted_assertion (t_ahms t0) k l -> 0 <= i < IRL_Count_of_G p ->
  exists y zs, First_AHM_of_IRLID (with_items p t0 ca l) i = Ok y /\ (exists c, ZWA_CIL_of_AHM y = Some c /\ cil_ints c = ints_of zs) /\ (starts_asserted (Z.to_nat i) <-> zs <> []).
Proof using Hs Ht0 Hzwa.
  intros Hl Hi. rewrite (rules_number g rs p Hs) in Hi. destruct (lookup_lt_is_Some_2 rs (Z.to_nat i)) as [r Hr]; [lia|]. destruct (rule_propers g rs p Hs r (list_elem_of_lookup_2 _ _ _ Hr)) as (a&_&Ha&_).
  assert (standing rs p (set_t_ahms l t0)) as Hst by (eapply changed_standing; [exact Ht0|exact Hl|]; intros m x x' [[_ ->]|[_ ->]]; done).
  destruct (first_item_read g rs p Hs ca _ _ r a Hst Hr Ha) as (y&Hy&Hly&_). rewrite Z2Nat.id in Hy by lia. cbn in Hly.
  destruct (first_item_read g rs p Hs ca _ _ r a Ht0 Hr Ha) as (y0&_&Hy0&_). destruct (Hzwa _ _ Hy0) as (c&zs&Hc&Hzs'). destruct (proj2 Hl _ _ Hy0) as (y'&Hy'&Hcase). assert (y' = y) as -> by congruence.
  exists y, zs. split; [exact Hy|]. split; [exists c; split; [|done]; destruct (decide _); [by destruct Hcase as [[_ ->]|[_ ->]]|by subst y]|].
  unfold starts_asserted. split.
  - intros (y1&c1&e&l1&Hy1&Hc1&Hl1) ->. assert (c1 = c) as -> by congruence. rewrite Hzs' in Hl1. by apply ints_of_inj in Hl1.
  - intros Hne. destruct zs as [|e zs]; [done|]. by exists y0, c, e, zs.
Qed.

Lemma predicts_zwa_ok k ca l c ids : changed with_predicted_assertion (t_ahms t0) k l -> cil_ints c = ints_of ids -> Forall (fun i => 0 <= i < IRL_Count_of_G p) ids ->
  forall j q, (q + j = length ids)%nat -> ends_in (predicts_zwa (with_items p t0 ca l) c (Z.of_nat q) j) (fun b => b = true <-> exists i, i ∈ drop q ids /\ starts_asserted (Z.to_nat i)).
Proof using Hs Ht0 Hzwa.
  intros Hl Hc Hids j. induction j as [|j IH]; intros q Hq; cbn [predicts_zwa].
  - apply ends_Ok. split; [done|]. rewrite drop_ge by lia. by intros (i&?%elem_of_nil&_).
  - destruct (lookup_lt_is_Some_2 ids q) as [i Hi]; [lia|]. rewrite (item_ok _ _ _ _ Hc Hi). cbn [mbind res_bind]. rewrite (drop_S _ _ _ Hi).
    pose proof (proj1 (Forall_forall _ _) Hids _ (list_elem_of_lookup_2 _ _ _ Hi)) as Hb. destruct (first_assertions k ca l i Hl Hb) as (y&zs&->&(cz&Hcz&Hzs')&Has). cbn [mbind res_bind]. rewrite Hcz.
    cbn [written mbind res_bind]. rewrite (count_ok _ _ Hzs'). cbn [mbind res_bind]. destruct (Z.gtb_spec (Z.of_nat (length zs)) 0) as [Hz|Hz].
    + apply ends_Ok. split; [|done]. intros _. exists i. split; [left|]. apply Has. by intros ->.
    + replace (Z.of_nat q + 1) with (Z.of_nat (S q)) by lia. eapply ends_mono; [apply IH; lia|]. intros b ->. assert (zs = []) as -> by (destruct zs; cbn in Hz; [done|lia]).
      split; [intros (i'&Hi'&?); exists i'; split; [by right|done]|]. intros (i'&[->|Hi']%elem_of_cons&Hsa); [by apply Has in Hsa|by exists i'].
Qed.

Lemma ahm_predicts_zwas_ok K ca (P : TABLES -> Prop) : held K ca ->
  (forall ca' l, held K ca' -> changed with_predicted_assertion (t_ahms t0) n l -> P (with_items p t0 ca' l)) ->
  ends_in (ahm_predicts_zwas (st p ca t0)) P.
Proof using Hs Ht0 Hzwa Hpred.
  intros Hca HP. unfold ahm_predicts_zwas. apply (each_ahm_ok rs p t0 Ht0 with_predicted_assertion K 0); [done| |intros ca' l Hca' Hl; apply HP; [eapply held_le; [exact Hca'|lia]|done]].
  intros m x Hx Hbx ca1 l Hca1 Hl. pose proof (changed_current _ _ _ _ _ Hl Hx) as Hlx. assert (held (K + 0 * (Z.of_nat m + 1)) ca1) as Hca2 by (eapply held_le; [exact Hca1|lia]).
  destruct (Hpred m x Hx) as (c&->&Hc). cbn [written mbind res_bind]. destruct (lists_members _ _ _ Hc) as (ids&Hids&Hin). rewrite (count_ok _ _ Hids). cbn [mbind res_bind]. rewrite Nat2Z.id.
  eapply ends_bind; [apply (predicts_zwa_ok m ca1 l c ids Hl Hids) with (q := 0%nat); [apply Forall_forall; intros i Hi; exact (proj1 (proj1 (Hin i) Hi))|done]|]. intros b Hb. rewrite drop_0 in Hb.
  assert (b = true <-> predicts_assertion x) as Hb'.
  { rewrite Hb. unfold predicts_assertion. split; intros (i&Hi&Ha).
    - apply Hin in Hi as [Hi Hp]. exists (Z.to_nat i). rewrite Z2Nat.id by lia. done.
    - exists (Z.of_nat i). rewrite Nat2Z.id. split; [|done]. apply Hin. split; [|done]. destruct Hi as (a&_&Ha2). by apply (rule_lhs_range g rs p Hs) in Ha2 as [_ ?]. }
  destruct b.
  - rewrite (upd_ahm_ok _ _ _ _ _ _ _ Hlx). apply ends_Ok. do 2 eexists. split; [reflexivity|]. split; [done|]. left. split; [by apply Hb'|done].
  - apply ends_Ok. exists ca1, x. rewrite list_insert_id by done. split; [done|]. split; [done|]. right. split; [|done]. intros Hp. by apply Hb' in Hp.
Qed.
End zwas.
