(* ===== verification/ItemsTheorems.v ===== *)
(** * The tables that the last part of the precomputation leaves

    [items_done] says what [precompute_tables] leaves, item by item, in the terms of the
    internal grammar alone: the loops compose. *)
From stdpp Require Import sets gmap list relations.
From S2P Require Import Prelude Avl AvlTree AvlProbe AvlTheorems BitVector BitVectorTheorems Matrix MatrixTheorems Cil CilTheorems MarpaGrammar MarpaRules CensusMarks Rewrite RewriteSteps RewriteLanguage RewriteShape Relations Items ItemsSpec ItemsCreate ItemsTables ItemsLists.

Lemma ends_then {A B} (m : res A) (k : A -> res B) Q : ends_in m (fun a => ends_in (k a) Q) -> ends_in (m ≫= k) Q.
Proof. intros Hm. by eapply ends_bind. Qed.

(** ** Specification *)
Section spec.
Context (rs : list (Z * list Z)) (p : INTERNAL) (nulls : Z -> Z -> Prop) (zwps : list ZWP).
#[local] Abbreviation n := (length (all_items p rs)).
#[local] Abbreviation irls := (IRL_Count_of_G p).
#[local] Abbreviation nsys := (NSY_Count_of_G p).
#[local] Abbreviation xsys := (XSY_Count_of_G (t_g p)).

Definition listed (o : option CIL) (k : Z) (P : Z -> Prop) : Prop := exists c, o = Some c /\ lists c k P.
Definition holding (o : option CIL) (l : list Z) : Prop := exists c, o = Some c /\ cil_ints c = ints_of l.

(** The ends of right recursive rules, with an event, that the one of the item [x] leads to. *)
Definition group_member (x : AHM) (i : nat) : Prop := exists y a b, all_items p rs !! i = Some y /\ eventful rs p nulls y /\ leo rs p y
  /\ lhs_of rs x a /\ lhs_of rs y b /\ tc (leo_corner rs p) a b.

(** The item predicts a rule that starts with an assertion. *)
Definition predicts_asserted (x : AHM) : Prop := exists i y, predicts rs p (Postdot_NSYID_of_AHM x) (Z.of_nat i)
  /\ all_items p rs !! first_item p rs i = Some y /\ assertions_of p zwps y <> [].

(** The item number [m], which is [x] once its rule and its dot are known, with its lists. *)
Record item_done (m : nat) (x x' : AHM) : Prop := {
  it_bare : bare x' = x;
  it_predicted : listed (Predicted_IRL_CIL_of_AHM x') irls (predicts rs p (Postdot_NSYID_of_AHM x));
  it_lhs : listed (LHS_CIL_of_AHM x') irls (rule_lhs rs (Postdot_NSYID_of_AHM x));
  it_completions : listed (Completion_XSYIDs_of_AHM x') xsys (completes rs p x);
  it_nulled : listed (Nulled_XSYIDs_of_AHM x') xsys (nulls_before rs p nulls x);
  it_predictions : listed (Prediction_XSYIDs_of_AHM x') xsys (source_of p (Postdot_NSYID_of_AHM x));
  it_event : (eventful rs p nulls x /\ holding (Event_AHMIDs_of_AHM x') [Z.of_nat m]) \/ (~ eventful rs p nulls x /\ holding (Event_AHMIDs_of_AHM x') []);
  it_group : (leo rs p x /\ exists ids, NoDup ids /\ (forall i, i ∈ ids <-> group_member x i) /\ Event_Group_Size_of_AHM x' = Z.of_nat (length ids))
    \/ (~ leo rs p x /\ eventful rs p nulls x /\ Event_Group_Size_of_AHM x' = 1) \/ (~ leo rs p x /\ ~ eventful rs p nulls x /\ Event_Group_Size_of_AHM x' = 0);
  it_assertions : holding (ZWA_CIL_of_AHM x') (ZWAID_of_ZWP <$> assertions_of p zwps x);
  it_predicts_assertion : (predicts_asserted x /\ AHM_predicts_ZWA x' = Some true) \/ (~ predicts_asserted x /\ AHM_predicts_ZWA x' = AHM_predicts_ZWA x)
}.

(** The vectors of the symbols: terminals, and those with an event. *)
Record vectors_done (t : TABLES) : Prop := {
  vd_terminal : exists v, t_bv_nsyid_is_terminal t = Some v /\ bits v nsys (terminal_nsy p);
  vd_completion : exists v, t_lbv_xsyid_is_completion_event t = Some v /\ bits v xsys (flagged_below p XSY_is_Completion_Event xsys);
  vd_nulled : exists v, t_lbv_xsyid_is_nulled_event t = Some v /\ bits v xsys (flagged_below p XSY_is_Nulled_Event xsys);
  vd_prediction : exists v, t_lbv_xsyid_is_prediction_event t = Some v /\ bits v xsys (flagged_below p XSY_is_Prediction_Event xsys)
}.

(** Every item [x] of [l] is what [I] says of the item that the rules and the dots give. *)
Definition items_are (I : nat -> AHM -> AHM -> Prop) (l : list (option AHM)) : Prop :=
  length l = n /\ forall m x, all_items p rs !! m = Some x -> exists x', l !! m = Some (Some x') /\ I m x x'.

Record tables_done (t : TABLES) : Prop := {
  td_grammar : exists ca k, t_internal t = over p ca /\ held k ca /\ k < 2 ^ 62;
  td_count : t_ahm_count t = Some (Z.of_nat n);
  td_instances : t_symbol_instance_count t = Some (base_of rs (length rs));
  td_items : items_are item_done (t_ahms t);
  td_rules : flagged rs p (t_irl_tables t) (length rs);
  td_lhs : lhs_listed rs p (t_lhs_cils t) nsys;
  td_vectors : vectors_done t
}.

(** ** Composition of the loops *)

Lemma items_changed I R l l' : items_are I l -> changed R l n l' -> items_are (fun m x x'' => exists x', I m x x' /\ R m x' x'') l'.
Proof.
  intros [Hn HI] [Hl Hc]. split; [congruence|]. intros m x Hx. destruct (HI m x Hx) as (x'&Hx'&HIx). destruct (Hc m x' Hx') as (x''&Hx''&HR). rewrite decide_True in HR by (by eapply lookup_lt_Some).
  exists x''. split; [done|]. by exists x'.
Qed.

Lemma items_mono I J l : items_are I l -> (forall m x x', l !! m = Some (Some x') -> all_items p rs !! m = Some x -> I m x x' -> J m x x') -> items_are J l.
Proof. intros [Hn HI] HJ. split; [done|]. intros m x Hx. destruct (HI m x Hx) as (x'&Hx'&HIx). exists x'. split; [done|]. by apply HJ. Qed.

Lemma items_back I l m x' : items_are I l -> l !! m = Some (Some x') -> exists x, all_items p rs !! m = Some x /\ I m x x'.
Proof.
  intros [Hn HI] Hx'. destruct (lookup_lt_is_Some_2 (all_items p rs) m) as [x Hx]; [rewrite <- Hn; by eapply lookup_lt_Some|]. destruct (HI m x Hx) as (x2&Hx2&HIx).
  exists x. split; [done|]. congruence.
Qed.
End spec.

Section compose.
Context `{Library} (junk : nat -> list Z).
Context (g : GRAMMAR) (rs : list (Z * list Z)) (p : INTERNAL) (Hs : shape g rs p) (Hfit : tables_fit p) (start : Z) (Hstart : t_start_irl p = Some start).
#[local] Abbreviation n := (length (all_items p rs)).
#[local] Abbreviation irls := (IRL_Count_of_G p).
#[local] Abbreviation nsys := (NSY_Count_of_G p).
#[local] Abbreviation xsys := (XSY_Count_of_G (t_g p)).

(** There are as many items as an [int] has room for. *)
Lemma items_fit : Z.of_nat n <= INT_MAX.
Proof using Hs Hfit.
  clear start Hstart. enough (forall i, (i <= length rs)%nat -> (first_item p rs i <= sum_list ((fun x => S (Z.to_nat (Length_of_IRL x))) <$> take i (t_irl_stack p)))%nat) as Hall.
  { pose proof (tf_items _ Hfit) as Hn. specialize (Hall _ (Nat.le_refl _)). rewrite (first_item_all g rs p Hs) in Hall. rewrite firstn_all2 in Hall by (rewrite (irls_length g rs p Hs); lia). lia. }
  intros i. induction i as [|i IH]; intros Hi; [exact (Nat.le_0_l _)|]. destruct (lookup_lt_is_Some_2 rs i) as [r Hr]; [lia|]. destruct (rule_at g rs p Hs i r Hr) as [irl Hirl]. destruct (irl_at g rs p Hs i irl Hirl) as (r'&Hr'&_&Hlen&_).
  simplify_eq. rewrite (first_item_S _ _ _ _ _ Hirl Hr), (take_S_r _ _ _ Hirl), fmap_app, sum_list_with_app. specialize (IH ltac:(lia)). pose proof (propers_le (null_in p) r.2). cbn [fmap list_fmap sum_list_with]. rewrite Hlen, Nat2Z.id. unfold id at 2. lia.
Qed.

(** The state from the creation of the items on, and the matrices. *)
Record created (k : Z) (ca : CILAR) (t : TABLES) : Prop := {
  cr_held : held k ca;
  cr_standing : standing rs p t;
  cr_items : t_ahms t = Some <$> all_items p rs;
  cr_flagged : flagged rs p (t_irl_tables t) (length rs);
  cr_instances : t_symbol_instance_count t = Some (base_of rs (length rs))
}.

Lemma bare_items l : l = all_items p rs -> fmap bare <$> (Some <$> l) = Some <$> l.
Proof using.
  clear. intros ->. apply list_eq. intros m. rewrite !list_lookup_fmap. destruct (all_items p rs !! m) as [x|] eqn:Hx; [|done].
  apply all_items_lookup in Hx as (i&irl&r&k&d&_&_&_&->&_). done.
Qed.

Lemma rules_stage (Hfuel : (MARPA_AVL_MAX_HEIGHT <= tree_rounds)%nat) k (rest : Bit_Matrix -> Bit_Matrix -> TABLES -> res TABLES) (Q : TABLES -> Prop) : held k (t_cilar (t_g p)) -> k + nsys < SIZE_MOD - 1 ->
  (forall ca t mi mx, created (k + nsys) ca t -> mat mi nsys irls (predicts rs p) -> mat mx nsys nsys (tc (leo_corner rs p)) -> ends_in (rest mi mx (st p ca t)) Q) ->
  ends_in (t ← lhs_lists junk (tables_init p);
    t ← create_ahms t;
    m ← prediction_nsy_by_nsy junk t;
    mi ← prediction_nsy_by_irl junk t m;
    r ← right_recursion junk t;
    let '(mx, t) := r in rest mi mx t) Q.
Proof using Hs Hfit Hstart.
  intros Hca Hk HQ. assert (tables_init p = st p (t_cilar (t_g p)) (tables_init p)) as ->.
  { unfold tables_init, st, set_t_internal, over. cbn. f_equal. destruct p as [[] ]. done. }
  eapply ends_bind; [eapply (lhs_lists_ok junk g rs p Hs Hfit start Hstart Hfuel); [exact Hca|done|cbn; by rewrite length_replicate]|]. intros t1 (ca&l&->&Hca1&Hl).
  set (t0 := set_t_lhs_cils l (tables_init p)). set (t := writing (set_t_ahm_count (Some (Z.of_nat n)) (set_t_symbol_instance_count (Some (base_of rs (length rs))) t0)) (imap (irl_with_items p rs) rs) (all_items p rs) 0).
  assert (create_ahms (st p ca t0) = Ok (st p ca t)) as ->.
  { etransitivity; [apply (create_ahms_ok _ rs (over p ca) (shape_over _ _ _ ca Hs) start Hstart (st p ca t0)); [done|]|done]. cbn. by rewrite (irls_length g rs p Hs). }
  cbn [mbind res_bind].
  assert (t_ahms t = Some <$> all_items p rs) as Hitems by (cbn; by rewrite app_nil_r).
  assert (forall tb, set_IRL_is_Right_Recursive false <$> tb = imap (irl_with_items p rs) rs -> standing rs p (set_t_irl_tables tb t)) as Hst.
  { intros tb Htb. split; [cbn [t_ahms set_t_irl_tables]; rewrite Hitems; by apply bare_items|done|done|exact Hl]. }
  assert (standing rs p t) as Hst0 by (change t with (set_t_irl_tables (t_irl_tables t) t); apply Hst; cbn; apply list_eq; intros i; rewrite list_lookup_fmap, list_lookup_imap; by destruct (rs !! i)).
  eapply ends_bind; [apply (nsy_by_nsy_ok junk g rs p Hs Hfit start Hstart ca t Hst0)|]. intros m Hm.
  eapply ends_bind; [apply (nsy_by_irl_ok junk g rs p Hs Hfit start Hstart ca t m Hst0 Hm)|]. intros mi Hmi.
  eapply ends_bind; [by apply (right_recursion_ok junk g rs p Hs Hfit start Hstart ca t)|]. intros [mx t'] (tb&E&Hf&Hmx). cbn [fst snd] in *. subst t'.
  apply HQ; [|done|done]. split; [done| |done|done|done]. apply Hst. eapply flagged_tables; exact Hf.
Qed.

Lemma standing_same t t' : t_ahms t' = t_ahms t -> t_ahm_count t' = t_ahm_count t -> t_irl_tables t' = t_irl_tables t -> t_lhs_cils t' = t_lhs_cils t -> standing rs p t -> standing rs p t'.
Proof using. clear. intros E1 E2 E3 E4 [H1 H2 H3 H4]. split; congruence. Qed.

(** ** The items once their events are numbered *)
Context (nulls : Z -> Z -> Prop) (Hrange : forall w z, nulls w z -> 0 <= z < xsys).
Context (Hnulls : forall z x, t_xsy_stack (t_g p) !! z = Some x -> exists c, Nulled_XSYIDs_of_XSY x = Some c /\ lists c xsys (nulls (Z.of_nat z))).
Context (tree : avl_table (D := ZWP)) (zwps : list ZWP) (Hzs : assertions tree zwps) (Htree : t_zwp_tree (t_g p) = Some tree).

Record item_listed (m : nat) (x x' : AHM) : Prop := {
  il_bare : bare x' = x;
  il_predicted : listed (Predicted_IRL_CIL_of_AHM x') irls (predicts rs p (Postdot_NSYID_of_AHM x));
  il_lhs : listed (LHS_CIL_of_AHM x') irls (rule_lhs rs (Postdot_NSYID_of_AHM x));
  il_completions : listed (Completion_XSYIDs_of_AHM x') xsys (completes rs p x);
  il_nulled : listed (Nulled_XSYIDs_of_AHM x') xsys (nulls_before rs p nulls x);
  il_predictions : listed (Prediction_XSYIDs_of_AHM x') xsys (source_of p (Postdot_NSYID_of_AHM x));
  il_event : (eventful rs p nulls x /\ holding (Event_AHMIDs_of_AHM x') [Z.of_nat m]) \/ (~ eventful rs p nulls x /\ holding (Event_AHMIDs_of_AHM x') []);
  il_group : Event_Group_Size_of_AHM x' = 0;
  il_predicts_assertion : AHM_predicts_ZWA x' = AHM_predicts_ZWA x
}.

Lemma listed_of m x x' : all_items p rs !! m = Some x ->
  (exists x2, (exists x1, (exists x0, x0 = x /\ with_predictions rs p m x0 x1) /\ with_events rs p nulls m x1 x2) /\ with_event_ids rs p nulls m x2 x') -> item_listed m x x'.
Proof using.
  clear. intros Hx (x2&(x1&(x0&->&c1&c2&->&H1&H2)&c3&c4&c5&->&H3&H4&H5)&c6&b&->&Hc&Hb).
  apply all_items_lookup in Hx as (i&irl&r&k&d&_&_&_&->&_). split; [done|by exists c1|by exists c2|by exists c3|by exists c4|by exists c5| |done|done].
  destruct b; [left|right]; (split; [|by exists c6]); [by apply Hb|]. intros He. by apply Hb in He.
Qed.

Lemma evented_iff t m x x' : items_are rs p item_listed (t_ahms t) -> all_items p rs !! m = Some x -> t_ahms t !! m = Some (Some x') -> evented x' <-> eventful rs p nulls x.
Proof using.
  clear. intros [_ HI] Hx Hx'. destruct (HI m x Hx) as (y&Hy&HL). assert (y = x') as -> by congruence. unfold evented. destruct (il_event _ _ _ HL) as [[He (c&Hc&Hl)]|[He (c&Hc&Hl)]].
  - split; [done|]. intros _. by exists c, (Z.of_nat m), [].
  - split; [|done]. intros (c'&e&l&Hc'&Hl'). assert (c' = c) as -> by congruence. rewrite Hl in Hl'. by apply ints_of_inj in Hl'.
Qed.

Lemma grouped_iff t m x x' i : items_are rs p item_listed (t_ahms t) -> item_listed m x x' -> grouped rs p t x' i <-> group_member rs p nulls x i.
Proof using.
  clear. intros HI HL. pose proof (il_bare _ _ _ HL) as Hb. unfold grouped, group_member. split.
  - intros (y'&a&b&Hy'&Hev&Hleo&Ha&Hlb&Htc). destruct (items_back _ _ _ _ _ _ HI Hy') as (y&Hy&HLy). pose proof (il_bare _ _ _ HLy) as Hby. exists y, a, b.
    split; [done|]. split; [by eapply evented_iff|]. subst x y. done.
  - intros (y&a&b&Hy&Hev&Hleo&Ha&Hlb&Htc). destruct (proj2 HI i y Hy) as (y'&Hy'&HLy). pose proof (il_bare _ _ _ HLy) as Hby. exists y', a, b.
    split; [done|]. split; [by eapply evented_iff|]. subst x y. done.
Qed.

Lemma group_of t m x x' x'' : items_are rs p item_listed (t_ahms t) -> all_items p rs !! m = Some x -> t_ahms t !! m = Some (Some x') -> item_listed m x x' -> with_group rs p t m x' x'' ->
  exists v, x'' = set_Event_Group_Size_of_AHM v x'
    /\ ((leo rs p x /\ exists ids, NoDup ids /\ (forall i, i ∈ ids <-> group_member rs p nulls x i) /\ v = Z.of_nat (length ids))
      \/ (~ leo rs p x /\ eventful rs p nulls x /\ v = 1) \/ (~ leo rs p x /\ ~ eventful rs p nulls x /\ v = 0)).
Proof using.
  clear. intros HI Hx Hx' HL (v&->&Hv). exists v. split; [done|]. rewrite (il_group _ _ _ HL) in Hv. pose proof (evented_iff t m x x' HI Hx Hx') as He.
  assert (leo rs p x' <-> leo rs p x) as Hleo by (rewrite <- (il_bare _ _ _ HL); done). destruct Hv as [(Hl&ids&Hnd&Hin&->)|[(Hl&Hev&->)|(Hl&Hev&->)]].
  - left. split; [by apply Hleo|]. exists ids. split; [done|]. split; [|lia]. intros i. rewrite Hin. by apply (grouped_iff t m).
  - right; left. split; [by rewrite <- Hleo|]. split; [by apply He|done].
  - right; right. split; [by rewrite <- Hleo|]. split; [by rewrite <- He|done].
Qed.

(** ** The items once they have their assertions *)
Definition group_value (x : AHM) (v : Z) : Prop :=
  (leo rs p x /\ exists ids, NoDup ids /\ (forall i, i ∈ ids <-> group_member rs p nulls x i) /\ v = Z.of_nat (length ids))
  \/ (~ leo rs p x /\ eventful rs p nulls x /\ v = 1) \/ (~ leo rs p x /\ ~ eventful rs p nulls x /\ v = 0).

Record item_asserted (m : nat) (x x' : AHM) : Prop := {
  ia_listed : exists y v, item_listed m x y /\ group_value x v /\ exists c, x' = set_ZWA_CIL_of_AHM (Some c) (set_Event_Group_Size_of_AHM v y);
  ia_assertions : holding (ZWA_CIL_of_AHM x') (ZWAID_of_ZWP <$> assertions_of p zwps x)
}.

Lemma asserted_of t m x x' : items_are rs p item_listed (t_ahms t) -> all_items p rs !! m = Some x ->
  (exists x2, (exists x1, (t_ahms t !! m = Some (Some x1) /\ item_listed m x x1) /\ with_group rs p t m x1 x2) /\ with_assertions p zwps m x2 x') -> item_asserted m x x'.
Proof using.
  clear. intros HI Hx (x2&(x1&(Hx1&HL)&HG)&c&->&Hc). destruct (group_of t m x x1 x2 HI Hx Hx1 HL HG) as (v&->&Hv). split.
  - exists x1, v. split; [done|]. split; [done|]. by exists c.
  - exists c. split; [done|]. rewrite Hc. pose proof (il_bare _ _ _ HL) as Hb. by subst x.
Qed.

Lemma starts_iff t i : items_are rs p item_asserted (t_ahms t) -> starts_asserted rs p t i <-> exists y, all_items p rs !! first_item p rs i = Some y /\ assertions_of p zwps y <> [].
Proof using.
  clear. intros HI. unfold starts_asserted. split.
  - intros (y'&c&e&l&Hy'&Hc&Hl). destruct (items_back _ _ _ _ _ _ HI Hy') as (y&Hy&HA). exists y. split; [done|]. destruct (ia_assertions _ _ _ HA) as (c'&Hc'&Hl') . intros E.
    rewrite E in Hl'. assert (c' = c) as -> by congruence. rewrite Hl in Hl'. by apply ints_of_inj in Hl'.
  - intros (y&Hy&Hne). destruct (proj2 HI _ y Hy) as (y'&Hy'&HA). destruct (ia_assertions _ _ _ HA) as (c&Hc&Hl). destruct (assertions_of p zwps y) as [|z zs]; [done|]. by exists y', c, (ZWAID_of_ZWP z), (ZWAID_of_ZWP <$> zs).
Qed.

Lemma done_of t m x x' : items_are rs p item_asserted (t_ahms t) -> (exists x1, item_asserted m x x1 /\ with_predicted_assertion rs p t m x1 x') -> item_done rs p nulls zwps m x x'.
Proof using.
  clear. intros HI (x1&HA&HP). pose proof HA as [(y&v&HL&Hv&c&->) Has]. pose proof HL as [Hb H1 H2 H3 H4 H5 H6 _ H8].
  assert (predicts_assertion rs p t (set_ZWA_CIL_of_AHM (Some c) (set_Event_Group_Size_of_AHM v y)) <-> predicts_asserted rs p zwps x) as Hpa.
  { unfold predicts_assertion, predicts_asserted. rewrite <- Hb. split.
    - intros (i&Hi&(z&Hz&Hne)%starts_iff); [|done]. by exists i, z.
    - intros (i&z&Hi&Hz&Hne). exists i. split; [done|]. apply starts_iff; [done|]. by exists z. }
  assert (x' = set_ZWA_CIL_of_AHM (Some c) (set_Event_Group_Size_of_AHM v y) \/ x' = set_AHM_predicts_ZWA (Some true) (set_ZWA_CIL_of_AHM (Some c) (set_Event_Group_Size_of_AHM v y))) as Hx' by (destruct HP as [[_ ->]|[_ ->]]; [by right|by left]).
  split; [by destruct Hx' as [->| ->]..| |by destruct Hx' as [->| ->]|].
  - unfold group_value in Hv. destruct Hx' as [->| ->]; exact Hv.
  - destruct HP as [[Hp ->]|[Hp ->]]; [left|right]; (split; [by rewrite <- Hpa|done]).
Qed.

(** ** All the loops *)

Lemma last_loops (Hfuel : (MARPA_AVL_MAX_HEIGHT <= tree_rounds)%nat) K ca t mx : held K ca -> K + 1 * Z.of_nat n < 2 ^ 62 -> standing rs p t -> mat mx nsys nsys (tc (leo_corner rs p)) ->
  flagged rs p (t_irl_tables t) (length rs) -> t_symbol_instance_count t = Some (base_of rs (length rs)) -> items_are rs p item_listed (t_ahms t) -> vectors_done p t ->
  ends_in (t ← event_group_sizes mx (st p ca t); t ← ahm_zwas t; ahm_predicts_zwas t) (tables_done rs p nulls zwps).
Proof using Hs Hfit Hstart Hzs Htree.
  intros Hca HK2 Hst Hmx Hf Hinst HI Hvd. assert (K + 1 * Z.of_nat n < SIZE_MOD - 1) as HK by (unfold SIZE_MOD; lia). apply ends_then.
  apply (event_group_sizes_ok g rs p Hs t Hst Hf) with (K := K); [|done|done|].
  { intros m x' Hx'. destruct (items_back _ _ _ _ _ _ HI Hx') as (x&Hx&HL). destruct (il_event _ _ _ HL) as [[_ (c&Hc&Hl)]|[_ (c&Hc&Hl)]]; eauto. }
  intros ca1 l1 Hca1 Hl1. change (with_items p t ca1 l1) with (st p ca1 (set_t_ahms l1 t)). set (t1 := set_t_ahms l1 t).
  assert (standing rs p t1) as Hst1 by (eapply changed_standing; [exact Hst|exact Hl1|]; by intros m x x' (v&->&_)).
  apply ends_then. apply (ahm_zwas_ok g rs p Hs t1 Hst1 tree zwps Hzs Htree Hfuel K); [done|lia|].
  intros ca2 l2 Hca2 Hl2. change (with_items p t1 ca2 l2) with (st p ca2 (set_t_ahms l2 t1)). set (t2 := set_t_ahms l2 t1).
  assert (standing rs p t2) as Hst2 by (eapply changed_standing; [exact Hst1|exact Hl2|]; by intros m x x' (c&->&_)).
  assert (items_are rs p item_asserted (t_ahms t2)) as HI2.
  { eapply items_mono; [eapply items_changed; [eapply items_changed; [eapply items_mono; [exact HI|]|exact Hl1]|exact Hl2]|]; [|intros m x x' _ Hx; exact (asserted_of t m x x' HI Hx)]. by intros. }
  apply (ahm_predicts_zwas_ok g rs p Hs t2 Hst2) with (K := K + Z.of_nat n); [| |exact Hca2|].
  - intros m x' Hx'. destruct (items_back _ _ _ _ _ _ HI2 Hx') as (x&Hx&[(y&v&HL&_&c&->) _]). destruct HL as [Hb Hp _ _ _ _ _ _ _]. subst x. exact Hp.
  - intros m x' Hx'. destruct (items_back _ _ _ _ _ _ HI2 Hx') as (x&Hx&HA). destruct (ia_assertions _ _ _ HA) as (c&?&?). eauto.
  - intros ca3 l3 Hca3 Hl3. split; [exists ca3, (K + Z.of_nat n); split_and!; [done..|lia]|exact (sd_count _ _ _ Hst)|exact Hinst| |exact Hf|exact (sd_lhs _ _ _ Hst)|by destruct Hvd].
    eapply items_mono; [eapply items_changed; [exact HI2|exact Hl3]|]. intros m x x' _ _. exact (done_of t2 m x x' HI2).
Qed.

Lemma precompute_tables_ok (Hfuel : (MARPA_AVL_MAX_HEIGHT <= tree_rounds)%nat) k : held k (t_cilar (t_g p)) -> k + nsys + 7 * Z.of_nat n < 2 ^ 62 -> 0 < xsys -> 2 * xsys <= INT_MAX ->
  ends_in (precompute_tables junk (tables_init p)) (tables_done rs p nulls zwps).
Proof using Hs Hfit Hstart Hrange Hnulls Hzs Htree.
  intros Hca Hk2 Hx0 Hx2. assert (k + nsys + 7 * Z.of_nat n < SIZE_MOD - 1) as Hk by (unfold SIZE_MOD; lia). apply (rules_stage Hfuel k); [done|lia|]. intros ca t mi mx [Hca1 Hst Hitems Hf Hinst] Hmi Hmx.
  apply ends_then. apply (ahm_predictions_ok g rs p Hs Hfit start Hstart t Hst Hfuel (k + nsys)); [done|done|lia|]. intros ca1 l1 Hca2 Hl1. cbn [fst snd].
  change (with_items p t ca1 l1) with (st p ca1 (set_t_ahms l1 t)). set (t1 := set_t_ahms l1 t).
  assert (standing rs p t1) as Hst1 by (eapply changed_standing; [exact Hst|exact Hl1|]; by intros m x x' (c1&c2&->&_)).
  eapply ends_bind; [apply (terminal_nsys_ok g rs p Hs Hfit start Hstart)|]. intros ? (v&->&Hv).
  eapply ends_bind; [apply event_symbols_ok; lia|]. intros ? (v1&v2&v3&->&Hv1&Hv2&Hv3).
  match goal with |- context [ahm_events (st p ca1 ?t)] => set (t3 := t) end. assert (standing rs p t3) as Hst3 by (by apply (standing_same t1)).
  apply ends_then. apply (ahm_events_ok g rs p Hs t3 Hst3 nulls Hrange Hnulls Hfuel (k + nsys + 2 * Z.of_nat n)); [done|done|done|lia|]. intros ca2 l2 Hca3 Hl2.
  change (with_items p t3 ca2 l2) with (st p ca2 (set_t_ahms l2 t3)). set (t4 := set_t_ahms l2 t3).
  assert (standing rs p t4) as Hst4 by (eapply changed_standing; [exact Hst3|exact Hl2|]; by intros m x x' (c1&c2&c3&->&_)).
  assert (items_are rs p (fun _ x x' => x' = x) (t_ahms t)) as HI0 by (rewrite Hitems; split; [by rewrite length_fmap|]; intros m x Hx; exists x; by rewrite list_lookup_fmap, Hx).
  pose proof (items_changed _ _ _ _ _ _ (items_changed _ _ _ _ _ _ HI0 Hl1) Hl2) as HI4.
  apply ends_then. apply (ahm_event_ids_ok g rs p Hs t4 Hst4 nulls Hrange Hfuel (k + nsys + 5 * Z.of_nat n)); [|eapply held_le; [exact Hca3|lia]|lia|].
  { intros m x' Hx'. destruct (items_back _ _ _ _ _ _ HI4 Hx') as (x&_&y&_&Hy). by exists y. }
  intros ca3 l3 Hca4 Hl3. change (with_items p t4 ca3 l3) with (st p ca3 (set_t_ahms l3 t4)). set (t5 := set_t_ahms l3 t4).
  assert (standing rs p t5) as Hst5 by (eapply changed_standing; [exact Hst4|exact Hl3|]; by intros m x x' (c&b&->&_)).
  eapply (last_loops Hfuel (k + nsys + 6 * Z.of_nat n)); [eapply held_le; [exact Hca4|lia]|lia|done|done|exact Hf|exact Hinst| |].
  - eapply items_mono; [exact (items_changed _ _ _ _ _ _ HI4 Hl3)|]. intros m x x' _. apply listed_of.
  - split; eexists; (split; [reflexivity|done]).
Qed.
End compose.
