(* ===== verification/ItemsProperties.v ===== *)
(** * What the tables of a precomputed grammar are: the theorems

    How [marpa_g_precompute] ends, the items of each rule, what they predict, the events and
    the assertions of each, on any grammar that the calls of the construction have built. *)
From stdpp Require Import sets gmap list relations.
From S2P Require Import Prelude Avl AvlTree AvlProbe AvlTheorems AvlTraversal BitVector BitVectorTheorems Matrix MatrixTheorems Dstack Cil CilTheorems MarpaGrammar MarpaRules MarpaGrammarTheorems MarpaRuleTheorems MarpaCalls Census CensusSpec CensusLists CensusClosure CensusMarks CensusRules CensusBody CensusTheorems CensusProperties Rewrite RewriteSpec RewriteSteps RewriteLanguage RewriteTheorems RewriteProperties RewriteShape Relations Items ItemsSpec ItemsCreate ItemsTables ItemsLists ItemsTheorems.

(** The rules of the internal grammar, as left-hand sides and right-hand sides. *)
Definition irule (x : IRL) : Z * list Z :=
  match default (-1) <$> t_nsyid_array x with lhs :: rhs => (lhs, rhs) | [] => (-1, []) end.
Definition irules (p : INTERNAL) : list (Z * list Z) := irule <$> t_irl_stack p.

Lemma irules_are p rs : irl_view <$> t_irl_stack p = imap whole rs -> irules p = rs.
Proof.
  intros E. apply list_eq. intros i. pose proof (f_equal (lookup i) E) as Hi. rewrite list_lookup_fmap, list_lookup_imap in Hi. unfold irules. rewrite list_lookup_fmap.
  destruct (t_irl_stack p !! i) as [x|], (rs !! i) as [[lhs rhs]|]; try done. injection Hi as _ _ Ha. cbn. unfold irule. rewrite Ha. cbn. do 3 f_equal. rewrite <- list_fmap_compose. apply list_fmap_id.
Qed.

Lemma irule_at p i irl lhs rhs : t_irl_stack p !! i = Some irl -> t_nsyid_array irl = Some <$> (lhs :: rhs) -> irules p !! i = Some (lhs, rhs).
Proof. intros Hi Ha. unfold irules. rewrite list_lookup_fmap, Hi. cbn. unfold irule. rewrite Ha. cbn. do 3 f_equal. rewrite <- list_fmap_compose. apply list_fmap_id. Qed.


(** The symbols that the census lists as nulled by [w]: those reached from it, itself if it is
    nullable, through the right-hand sides of the rules that derive the empty string.  The item
    of a sequence of zero or more is one of them, even a terminal, though an empty sequence has
    none ([nulled_terminal]). *)
Definition null_symbols (g : GRAMMAR) (w z : Z) : Prop := 0 <= z < XSY_Count_of_G g /\ tc (nulls_at_once g) w z.

(** Where the dot [d] of the internal rule [irl] is in the rule [xrl] it was made from, from the
    position of the dot in [irl] and the start of the piece that [irl] is.  Before a symbol it
    is where one expects; so is the end of a whole rule, or of its first piece.  The end of a
    later piece counts as the place before the piece ([end_of_piece_position]), and a sequence
    has but two places: the start, which is that of the end of its internal rules too, and the
    end. *)
Definition dot_in_source (irl : IRL) (xrl : XRL) (d : dotted) : Z :=
  let at_end := dot_position d <? 0 in
  let piece_start := Virtual_Start_of_IRL irl in
  if XRL_is_Sequence xrl then (if at_end || (dot_position d =? 0) then 0 else Length_of_XRL xrl)
  else if at_end then (if piece_start <=? 0 then Length_of_XRL xrl else piece_start - 1)
  else dot_position d + Z.max 0 piece_start.

(** The assertions placed in that rule, from the first of the null symbols before the dot to
    the dot. *)
Definition assertions_at (p : INTERNAL) (zwps : list ZWP) (irl : IRL) (d : dotted) : list ZWP :=
  match Source_XRL_of_IRL irl with
  | None => []
  | Some j =>
    match t_xrl_stack (t_g p) !! Z.to_nat j with
    | None => []
    | Some xrl => let last := dot_in_source irl xrl d in filter (placed j (last - dot_nulls d) last) zwps
    end
  end.

Lemma assertions_dotted p zwps i irl base rhs k d : dots (null_in p) 0 0 0 None rhs !! k = Some d -> assertions_of p zwps (item_of p i irl base d) = assertions_at p zwps irl d.
Proof.
  intros Hd%list_elem_of_lookup_2%dots_symbol. unfold assertions_of, assertions_at. cbn. destruct (Source_XRL_of_IRL irl) as [j|] eqn:Ej; [|done].
  destruct (t_xrl_stack (t_g p) !! Z.to_nat j) as [xrl|] eqn:Ex; [|done]. assert (Raw_XRL_Position_of_AHM (item_of p i irl base d) xrl = dot_in_source irl xrl d) as ->; [|done].
  assert (dot_position d = -1 \/ 0 <= dot_position d) as Hp by (destruct Hd as [[_ ?]|[_ ?]]; [by left|by right]). clear Hd.
  unfold Raw_XRL_Position_of_AHM, dot_in_source. cbn. unfold rule_position. rewrite Ej, Ex. rewrite Z.gtb_ltb, Z.geb_leb.
  destruct (XRL_is_Sequence xrl), (Z.ltb_spec (dot_position d) 0), (Z.eqb_spec (dot_position d) 0), (Z.ltb_spec 0 (dot_position d)), (Z.leb_spec 0 (Virtual_Start_of_IRL irl)), (Z.leb_spec (Virtual_Start_of_IRL irl) 0);
    cbn; repeat case_match; Zbool; lia.
Qed.

(** [p] is the internal grammar of [g], and the sizes fit. *)
Record precomputing `{Library} (junk : nat -> list Z) (g : GRAMMAR) (p : INTERNAL) : Prop := {
  pc_ready : ready g;
  pc_internal : precompute_internal junk g = Ok (inr p);
  pc_fit : tables_fit p;
  pc_assertions : 2 * (placements g + 1) <= INT_MAX
}.

(** A tree has one list of items. *)
Lemma tree_at_unique {D} (ns : gmap positive (avl_node (D := D))) t t' : tree_at ns t -> tree_at ns t' -> root_of t = root_of t' -> t = t'.
Proof.
  revert t'. induction t as [|a l IHl d b r IHr]; intros [|a' l' d' b' r']; try done. cbn. intros (Ha&Hl&Hr) (Ha'&Hl'&Hr') [= <-].
  rewrite Ha in Ha'. injection Ha' as E1 E2 -> ->. by rewrite (IHl l'), (IHr r').
Qed.

Lemma represents_unique {D} (cmp : D -> D -> Z) tab l l' : represents cmp tab l -> represents cmp tab l' -> l = l'.
Proof. intros (t&Hr&<-) (t'&Hr'&<-). f_equal. eapply tree_at_unique; [apply Hr|apply Hr'|]. by rewrite <- (rep_root _ _ _ Hr), <- (rep_root _ _ _ Hr'). Qed.

Section properties.
Context `{Library}.
Context (Hfuel : (MARPA_AVL_MAX_HEIGHT <= tree_rounds)%nat) (Hversion : lib_version = marpa_h_version).

Lemma assertions_of_open g : g_open g -> 2 * (placements g + 1) <= INT_MAX -> exists tree zwps, t_zwp_tree g = Some tree /\ assertions tree zwps.
Proof using.
  clear. intros Ho Hn. destruct (go_assertions _ Ho) as (tree&zwps&Ht&Hr&Hid). exists tree, zwps. split; [done|]. split; [done|eapply Forall_impl; [exact Hid|]; by intros z [? _]|].
  rewrite (placements_count g tree zwps Ht Hr) in Hn. lia.
Qed.

(** What the last part of the precomputation leaves, whatever the internal grammar. *)
Lemma tables_of junk g p start tree zwps : precomputing junk g p -> t_start_irl p = Some start -> t_zwp_tree g = Some tree -> represents zwp_cmp tree zwps ->
  XSY_Count_of_G (t_g p) = XSY_Count_of_G g /\ (exists g1, census_done g g1 /\ shape g1 (irules p) p)
  /\ ends_in (precompute_tables junk (tables_init p)) (tables_done (irules p) p (null_symbols g) zwps).
Proof using Hfuel Hversion.
  intros [Hr Hi Hfit Hzn] Hst Htree Hrep. destruct (internal_shape Hfuel Hversion junk g p Hr Hi) as (g1&rs&Hd&Hc&Hs). pose proof (irules_are p rs (sh_rules _ _ _ Hs)) as <-.
  assert (XSY_Count_of_G (t_g p) = XSY_Count_of_G g) as Hx by (unfold XSY_Count_of_G; by rewrite (xsys_same g1 (irules p) p Hs), (cd_symbols _ _ Hd)).
  split; [done|]. split; [by exists g1|]. destruct (rd_open _ Hr) as [_ _ _ (tree'&zwps'&Htree'&Hrep'&Hids)]. rewrite Htree in Htree'. injection Htree' as <-.
  assert (assertions tree zwps) as Hzs.
  { assert (zwps = zwps') as <- by (by eapply represents_unique). split; [done|eapply Forall_impl; [exact Hids|]; by intros z [? _]|]. rewrite (placements_count g tree zwps Htree Hrep) in Hzn. lia. }
  destruct (cd_cilar _ _ Hd) as (cs&Hcs&Hk). pose proof (ft_symbols _ (rd_fits _ Hr)) as Hfx. pose proof (rd_start _ Hr) as Hstart.
  eapply (precompute_tables_ok junk g1 (irules p) p Hs Hfit start Hst (null_symbols g)); [|  |exact Hzs| |exact Hfuel|exists cs; split; [|exact Hk]| | |]; rewrite ?Hx; try lia.
  - by intros w z [Hz _].
  - intros z x Hz. assert (0 <= Z.of_nat z < XSY_Count_of_G g) as Hb by (rewrite <- Hx; apply lookup_lt_Some in Hz; unfold XSY_Count_of_G; lia).
    destruct (cd_nulled _ _ Hd _ Hb) as (x1&c&S&Hx1&Hc1&Hl&HS). rewrite Nat2Z.id in Hx1. exists c. split; [|exists S; split; [done|]; intros i Hi2; rewrite HS; by split; [|intros [_ ?]]].
    destruct (sh_grammar _ _ _ Hs) as [E|E]; rewrite E in Hz; [congruence|]. unfold unstarted in Hz. cbn [t_xsy_stack set_t_xsy_stack] in Hz. rewrite list_lookup_alter, Hx1 in Hz. case_decide as Ei; [rewrite Ei, Hx1 in Hz|]; injection Hz as <-; exact Hc1.
  - injection (cd_assertions _ _ Hd) as E _. destruct (sh_grammar _ _ _ Hs) as [->| ->]; cbn; by rewrite E.
  - destruct (sh_grammar _ _ _ Hs) as [->| ->]; done.
  - pose proof (items_fit g1 (irules p) p Hs Hfit). pose proof (tf_symbols _ Hfit). unfold INT_MAX, SIZE_MOD in *. lia.
Qed.



(** The tables of the result are those that the loops have left. *)
Lemma precomputed junk g p start tree zwps ret t : precomputing junk g p -> t_start_irl p = Some start -> t_zwp_tree g = Some tree -> represents zwp_cmp tree zwps ->
  marpa_g_precompute junk g = Ok (ret, inr t) -> (exists g1, census_done g g1 /\ shape g1 (irules p) p) /\ exists t', tables_done (irules p) p (null_symbols g) zwps t'
    /\ t_ahms t = t_ahms t' /\ t_ahm_count t = t_ahm_count t' /\ t_symbol_instance_count t = t_symbol_instance_count t' /\ t_irl_tables t = t_irl_tables t' /\ t_lhs_cils t = t_lhs_cils t'
    /\ t_bv_nsyid_is_terminal t = t_bv_nsyid_is_terminal t'.
Proof using Hfuel Hversion.
  intros Hpc Hst Htree Hrep Hrun. destruct (tables_of junk g p start tree zwps Hpc Hst Htree Hrep) as (_&Hs&t'&Ht'&Hd). split; [done|]. exists t'. split; [done|].
  unfold marpa_g_precompute in Hrun. rewrite (pc_internal _ _ _ Hpc) in Hrun. cbn [mbind res_bind] in Hrun. unfold G_is_Trivial in Hrun. rewrite Hst in Hrun. cbn [negb] in Hrun.
  rewrite Ht' in Hrun. cbn [mbind res_bind] in Hrun. destruct (t_has_cycle _); [by injection Hrun as _ <-|]. apply bind_Ok in Hrun as (ca&_&Hrun). by injection Hrun as _ <-.
Qed.

Lemma sh_looked g1 p : shape g1 (irules p) p -> forall i r, irules p !! i = Some r -> exists irl, t_irl_stack p !! i = Some irl /\ t_nsyid_array irl = Some <$> (r.1 :: r.2).
Proof using.
  clear. intros Hs i r Hr. pose proof (f_equal (lookup i) (sh_rules _ _ _ Hs)) as E. rewrite list_lookup_fmap, list_lookup_imap, Hr in E.
  destruct (t_irl_stack p !! i) as [irl|]; [|done]. injection E as _ _ E. exists irl. split; [done|]. rewrite E. by destruct r.
Qed.

(** The first item of a rule. *)
Lemma items_rule g1 p : shape g1 (irules p) p -> forall i y, all_items p (irules p) !! first_item p (irules p) i = Some y ->
  exists irl lhs rhs d, t_irl_stack p !! i = Some irl /\ t_nsyid_array irl = Some <$> (lhs :: rhs) /\ dots (null_in p) 0 0 0 None rhs !! 0%nat = Some d /\ y = item_of p i irl (base_of (irules p) i) d.
Proof using.
  clear. intros Hs i y Hy. assert (is_Some (irules p !! i)) as [r Hr].
  { apply lookup_lt_is_Some_2. apply not_ge. intros Hge. apply lookup_lt_Some in Hy. rewrite <- (first_item_all g1 _ p Hs) in Hy.
    unfold first_item in Hy. pose proof (offset_mono (blocks p (irules p)) (length (irules p)) i Hge). lia. }
  destruct (sh_looked g1 p Hs i r Hr) as (irl&Hi&Ha). assert (exists d, dots (null_in p) 0 0 0 None r.2 !! 0%nat = Some d) as [d Hd] by (apply lookup_lt_is_Some_2; rewrite dots_length; lia).
  pose proof (all_items_at p _ i irl r 0 d Hi Hr Hd) as Hy'. rewrite Nat.add_0_r in Hy'. exists irl, r.1, r.2, d. split_and!; [done|done|done|congruence].
Qed.

(** C13. The items ([create_ahms]): the dotted rules, without the null symbols.  An internal rule
    has the items numbered from its first one on, as many as it has symbols that are not
    null, and one: the item number [k] of the rule has the dot before the symbol number [k]
    that is not null, at its position, after the null symbols that precede it, and the last
    item has it at the end.  Every item is one of these. *)
Theorem items_are_dotted_rules junk g p start ret t : precomputing junk g p -> t_start_irl p = Some start -> marpa_g_precompute junk g = Ok (ret, inr t) ->
  exists first : nat -> nat, first O = O /\ t_ahm_count t = Some (Z.of_nat (length (t_ahms t))) /\ first (length (t_irl_stack p)) = length (t_ahms t)
  /\ forall i irl lhs rhs, t_irl_stack p !! i = Some irl -> t_nsyid_array irl = Some <$> (lhs :: rhs) ->
    let symbols := propers (null_in p) in
    (exists tb, t_irl_tables t !! i = Some tb /\ First_AHM_of_IRL tb = Some (Z.of_nat (first i)) /\ AHM_Count_of_IRL tb = Some (Z.of_nat (S (symbols rhs))))
    /\ first (S i) = (first i + S (symbols rhs))%nat
    /\ (forall l y r, rhs = l ++ y :: r -> null_in p y = false -> exists x, t_ahms t !! (first i + symbols l)%nat = Some (Some x)
          /\ IRL_of_AHM x = Z.of_nat i /\ Postdot_NSYID_of_AHM x = y /\ Position_of_AHM x = Z.of_nat (length l)
          /\ Null_Count_of_AHM x = null_run (null_in p) 0 l /\ Quasi_Position_of_AHM x = Z.of_nat (symbols l))
    /\ (exists x, t_ahms t !! (first i + symbols rhs)%nat = Some (Some x) /\ IRL_of_AHM x = Z.of_nat i /\ Postdot_NSYID_of_AHM x = -1 /\ Position_of_AHM x = -1
          /\ Null_Count_of_AHM x = null_run (null_in p) 0 rhs /\ Quasi_Position_of_AHM x = Z.of_nat (symbols rhs)).
Proof using Hfuel Hversion.
  intros Hpc Hst Hrun. destruct (assertions_of_open g (rd_open _ (pc_ready _ _ _ Hpc)) (pc_assertions _ _ _ Hpc)) as (tree&zwps&Htree&Hzs).
  destruct (precomputed junk g p start tree zwps ret t Hpc Hst Htree (zs_tree _ _ Hzs) Hrun) as ((g1&_&Hs)&t'&Hd&Ea&Ec&_&Et&_). rewrite Ea, Ec, Et. clear Ea Ec Et.
  destruct (td_items _ _ _ _ _ Hd) as [Hlen Hitems]. exists (first_item p (irules p)). split; [done|]. split; [by rewrite (td_count _ _ _ _ _ Hd), Hlen|].
  split; [by rewrite (irls_length g1 _ p Hs), (first_item_all g1 _ p Hs)|]. intros i irl lhs rhs Hi Ha symbols. pose proof (irule_at p i irl lhs rhs Hi Ha) as Hr.
  assert (forall k d, dots (null_in p) 0 0 0 None rhs !! k = Some d -> exists x, t_ahms t' !! (first_item p (irules p) i + k)%nat = Some (Some x)
    /\ bare x = item_of p i irl (base_of (irules p) i) d) as Hat.
  { intros k d Hk. destruct (Hitems _ _ (all_items_at p _ i irl (lhs, rhs) k d Hi Hr Hk)) as (x&Hx&HI). exists x. split; [done|]. apply (it_bare _ _ _ _ _ _ _ HI). }
  assert (forall k y pos nulls num last, dots (null_in p) 0 0 0 None rhs !! k = Some (Dotted y pos nulls num last) -> exists x, t_ahms t' !! (first_item p (irules p) i + k)%nat = Some (Some x)
    /\ IRL_of_AHM x = Z.of_nat i /\ Postdot_NSYID_of_AHM x = y /\ Position_of_AHM x = pos /\ Null_Count_of_AHM x = nulls /\ Quasi_Position_of_AHM x = num) as Hfields.
  { intros k y pos nulls num last (x&Hx&Hb)%Hat. exists x. split; [done|]. by injection Hb. }
  split_and!.
  - destruct (proj2 (td_rules _ _ _ _ _ Hd) i _ Hr) as (b&Hb&_). by eexists.
  - by apply (first_item_S p _ i irl (lhs, rhs)).
  - intros l y r -> Hy. by eapply Hfields, dots_before.
  - by eapply Hfields, dots_end.
Qed.

(** Item by item. *)
Lemma precomputed_item junk g p start tree zwps ret t m x : precomputing junk g p -> t_start_irl p = Some start -> t_zwp_tree g = Some tree -> represents zwp_cmp tree zwps ->
  marpa_g_precompute junk g = Ok (ret, inr t) -> t_ahms t !! m = Some (Some x) -> item_done (irules p) p (null_symbols g) zwps m (bare x) x.
Proof using Hfuel Hversion.
  intros Hpc Hst Htree Hrep Hrun Hx. destruct (precomputed junk g p start tree zwps ret t Hpc Hst Htree Hrep Hrun) as (_&t'&Hd&Ea&_). rewrite Ea in Hx.
  destruct (items_back _ _ _ _ _ _ (td_items _ _ _ _ _ Hd) Hx) as (y&_&HI). pose proof (it_bare _ _ _ _ _ _ _ HI) as <-. exact HI.
Qed.

(** C14. Predictions.  The rules that an item predicts are listed in it, in ascending order:
    those whose left-hand side is reached from the symbol after the dot by left corners, a left
    corner of a symbol being the first symbol that is not null of one of its rules; so are
    the rules of the symbol after the dot itself. *)
Theorem item_predictions_exact junk g p start ret t m x : precomputing junk g p -> t_start_irl p = Some start -> marpa_g_precompute junk g = Ok (ret, inr t) -> t_ahms t !! m = Some (Some x) ->
  let y := Postdot_NSYID_of_AHM x in
  listed (Predicted_IRL_CIL_of_AHM x) (IRL_Count_of_G p) (fun z => exists a, rtc (left_corner (irules p) p) y a /\ rule_lhs (irules p) a z)
  /\ listed (LHS_CIL_of_AHM x) (IRL_Count_of_G p) (rule_lhs (irules p) y).
Proof using Hfuel Hversion.
  intros Hpc Hst Hrun Hx. destruct (assertions_of_open g (rd_open _ (pc_ready _ _ _ Hpc)) (pc_assertions _ _ _ Hpc)) as (tree&zwps&Htree&Hzs).
  pose proof (precomputed_item junk g p start tree zwps ret t m x Hpc Hst Htree (zs_tree _ _ Hzs) Hrun Hx) as HI. split; [exact (it_predicted _ _ _ _ _ _ _ HI)|exact (it_lhs _ _ _ _ _ _ _ HI)].
Qed.

(** C15. Right recursion.  A rule has the mark exactly when its last symbol that is not null
    leads back to its left-hand side by such last symbols, in one step or more. *)
Theorem right_recursion_exact junk g p start ret t i irl lhs rhs : precomputing junk g p -> t_start_irl p = Some start -> marpa_g_precompute junk g = Ok (ret, inr t) ->
  t_irl_stack p !! i = Some irl -> t_nsyid_array irl = Some <$> (lhs :: rhs) ->
  exists tb, t_irl_tables t !! i = Some tb
    /\ (IRL_is_Right_Recursive tb = true <-> exists b, list.last (proper_symbols p rhs) = Some b /\ tc (right_corner (irules p) p) b lhs).
Proof using Hfuel Hversion.
  intros Hpc Hst Hrun Hi Ha. destruct (assertions_of_open g (rd_open _ (pc_ready _ _ _ Hpc)) (pc_assertions _ _ _ Hpc)) as (tree&zwps&Htree&Hzs).
  destruct (precomputed junk g p start tree zwps ret t Hpc Hst Htree (zs_tree _ _ Hzs) Hrun) as (_&t'&Hd&_&_&_&Et&_). rewrite Et.
  pose proof (irule_at p i irl lhs rhs Hi Ha) as Hr. destruct (proj2 (td_rules _ _ _ _ _ Hd) i _ Hr) as (b&Hb&Hbr). eexists. split; [exact Hb|].
  cbn. rewrite Hbr. split; [by intros [_ ?]|]. intros Hrr. split; [by eapply lookup_lt_Some|done].
Qed.

(** C16. Events.  Each item lists, in ascending order: the symbol it completes, when the dot is
    at the end, its rule is not a piece and the symbol has a completion event; the symbols
    that the census has listed as nulled by the null symbols before the dot ([null_symbols]: not
    only those that derive the empty string); the symbol after the dot.  It has its own number as its event when one of the three lists is not
    empty.  Its group is, at the end of a right recursive rule, the number of the ends of such
    rules, with an event, that it leads to; elsewhere 1 when it has an event, and 0. *)
Theorem item_events_exact junk g p start ret t m x : precomputing junk g p -> t_start_irl p = Some start -> marpa_g_precompute junk g = Ok (ret, inr t) -> t_ahms t !! m = Some (Some x) ->
  let xsys := XSY_Count_of_G (t_g p) in let nulls := null_symbols g in let rs := irules p in
  listed (Completion_XSYIDs_of_AHM x) xsys (completes rs p x)
  /\ listed (Nulled_XSYIDs_of_AHM x) xsys (nulls_before rs p nulls x)
  /\ listed (Prediction_XSYIDs_of_AHM x) xsys (source_of p (Postdot_NSYID_of_AHM x))
  /\ ((eventful rs p nulls x /\ holding (Event_AHMIDs_of_AHM x) [Z.of_nat m]) \/ (~ eventful rs p nulls x /\ holding (Event_AHMIDs_of_AHM x) []))
  /\ ((leo rs p x /\ exists ids, NoDup ids /\ (forall i, i ∈ ids <-> group_member rs p nulls x i) /\ Event_Group_Size_of_AHM x = Z.of_nat (length ids))
      \/ (~ leo rs p x /\ eventful rs p nulls x /\ Event_Group_Size_of_AHM x = 1) \/ (~ leo rs p x /\ ~ eventful rs p nulls x /\ Event_Group_Size_of_AHM x = 0)).
Proof using Hfuel Hversion.
  intros Hpc Hst Hrun Hx. destruct (assertions_of_open g (rd_open _ (pc_ready _ _ _ Hpc)) (pc_assertions _ _ _ Hpc)) as (tree&zwps&Htree&Hzs).
  pose proof (precomputed_item junk g p start tree zwps ret t m x Hpc Hst Htree (zs_tree _ _ Hzs) Hrun Hx) as [_ _ _ H1 H2 H3 H4 H5 _ _]. by split_and!.
Qed.

(** C17. Assertions.  The item of each dot of each internal rule has the assertions that were
    placed in the rule of the grammar it was made from, by position and then by number, from
    the first of the null symbols before the dot to the dot, where the place of the dot is that
    of [dot_in_source]: its position in the piece, after the start of the piece; at the end of
    a piece that is not the first, the place before the piece.  The item is marked exactly when
    it predicts a rule whose first item has an assertion. *)
Theorem item_assertions_exact junk g p start tree zwps ret t i irl lhs rhs k d : precomputing junk g p -> t_start_irl p = Some start -> t_zwp_tree g = Some tree -> represents zwp_cmp tree zwps ->
  marpa_g_precompute junk g = Ok (ret, inr t) -> t_irl_stack p !! i = Some irl -> t_nsyid_array irl = Some <$> (lhs :: rhs) -> dots (null_in p) 0 0 0 None rhs !! k = Some d ->
  exists x, t_ahms t !! (first_item p (irules p) i + k)%nat = Some (Some x)
  /\ holding (ZWA_CIL_of_AHM x) (ZWAID_of_ZWP <$> assertions_at p zwps irl d)
  /\ (AHM_predicts_ZWA x = Some true <-> exists i' irl' lhs' rhs' d', predicts (irules p) p (dot_symbol d) (Z.of_nat i')
       /\ t_irl_stack p !! i' = Some irl' /\ t_nsyid_array irl' = Some <$> (lhs' :: rhs') /\ dots (null_in p) 0 0 0 None rhs' !! 0%nat = Some d' /\ assertions_at p zwps irl' d' <> []).
Proof using Hfuel Hversion.
  intros Hpc Hst Htree Hrep Hrun Hi Ha Hd. destruct (precomputed junk g p start tree zwps ret t Hpc Hst Htree Hrep Hrun) as ((g1&_&Hs)&t'&Hd'&Ea&_). rewrite Ea. clear Ea.
  pose proof (irule_at p i irl lhs rhs Hi Ha) as Hr. destruct (proj2 (td_items _ _ _ _ _ Hd') _ _ (all_items_at p _ i irl (lhs, rhs) k d Hi Hr Hd)) as (x&Hx&HI). exists x. split; [exact Hx|].
  destruct HI as [_ _ _ _ _ _ _ _ H1 H2]. rewrite (assertions_dotted p zwps i irl _ rhs k d Hd) in H1. split; [exact H1|].
  assert (predicts_asserted (irules p) p zwps (item_of p i irl (base_of (irules p) i) d) <-> exists i' irl' lhs' rhs' d', predicts (irules p) p (dot_symbol d) (Z.of_nat i')
       /\ t_irl_stack p !! i' = Some irl' /\ t_nsyid_array irl' = Some <$> (lhs' :: rhs') /\ dots (null_in p) 0 0 0 None rhs' !! 0%nat = Some d' /\ assertions_at p zwps irl' d' <> []) as <-.
  { unfold predicts_asserted. cbn [Postdot_NSYID_of_AHM item_of]. split.
    - intros (i'&y&Hp&Hy&Hne). destruct (items_rule g1 p Hs i' y Hy) as (irl'&lhs'&rhs'&d'&Hi'&Ha'&Hd0&->). exists i', irl', lhs', rhs', d'. rewrite (assertions_dotted p zwps _ _ _ _ _ _ Hd0) in Hne. done.
    - intros (i'&irl'&lhs'&rhs'&d'&Hp&Hi'&Ha'&Hd0&Hne). pose proof (all_items_at p _ i' irl' (lhs', rhs') 0 d' Hi' (irule_at _ _ _ _ _ Hi' Ha') Hd0) as Hy. rewrite Nat.add_0_r in Hy.
      exists i'. eexists. split; [exact Hp|]. split; [exact Hy|]. by rewrite (assertions_dotted p zwps _ _ _ _ _ _ Hd0). }
  destruct H2 as [[Hp E]|[Hp E]]; [done|]. split; [|done]. rewrite E. cbn. by destruct (_ <? 0).
Qed.
End properties.

(** ** A concrete grammar *)

(** S ::= A b S, S ::= a, A ::= , A ::= a, from S, with an event at the end of each S and each
    null A, an assertion before A in the first rule and one at the end of the second. *)
Definition items_demo : GRAMMAR :=
  built [CSymbolNew; CSymbolNew; CSymbolNew; CSymbolNew; CRuleNew 0 [1; 3; 0] 3; CRuleNew 0 [2] 1; CRuleNew 1 [] 0; CRuleNew 1 [2] 1;
         CSymbolIsCompletionEventSet 0 1; CSymbolIsNulledEventSet 1 1; CZwaNew 1; CZwaPlace 0 0 0 0; CZwaPlace 1 0 1 (-1); CStartSymbolSet 0].

Lemma items_demo_ready : ready items_demo.
Proof. built_ready. Qed.

Definition tables_result (g : GRAMMAR) : TABLES := match marpa_g_precompute no_junk g with Ok (_, inr t) => t | _ => tables_init (internal_result g) end.

Lemma items_demo_fits p : precompute_internal no_junk items_demo = Ok (inr p) -> tables_fit p.
Proof.
  intros Hp. assert (precompute_internal no_junk items_demo = Ok (inr (internal_result items_demo))) as Hp' by (vm_compute; reflexivity).
  assert (p = internal_result items_demo) as -> by exact (f_equal (fun r => match r with Ok (inr q) => q | _ => p end) (eq_trans (eq_sym Hp) Hp')).
  by split; vm_compute.
Qed.

Lemma items_demo_precomputing : precomputing no_junk items_demo (internal_result items_demo).
Proof. split; [exact items_demo_ready|vm_compute; reflexivity|apply items_demo_fits; vm_compute; reflexivity|vm_compute; discriminate]. Qed.

Lemma items_demo_start : t_start_irl (internal_result items_demo) = Some 4.
Proof. vm_compute. reflexivity. Qed.

Lemma items_demo_run : marpa_g_precompute no_junk items_demo = Ok (0, inr (tables_result items_demo)).
Proof. vm_compute. reflexivity. Qed.


(** The second item of the second rule: the end of A b S, A being null. *)
Lemma items_are_dotted_rules_witness : exists x, t_ahms (tables_result items_demo) !! 5%nat = Some (Some x) /\ Position_of_AHM x = 2 /\ Postdot_NSYID_of_AHM x = 0 /\ Null_Count_of_AHM x = 0.
Proof.
  destruct (items_are_dotted_rules demo_fuel demo_version no_junk items_demo _ 4 0 _ items_demo_precomputing items_demo_start items_demo_run) as (first&_&_&_&Hall).
  destruct (t_irl_stack (internal_result items_demo) !! 1%nat) as [irl|] eqn:Hi; [|vm_compute in Hi; discriminate Hi].
  assert (t_nsyid_array irl = Some <$> [0; 2; 4; 0]) as Ha by (vm_compute in Hi; injection Hi as <-; reflexivity).
  destruct (Hall 1%nat irl 0 [2; 4; 0] Hi Ha) as ((tb&Htb&Hfirst&_)&_&Hdots&_).
  assert (first 1%nat = 4%nat) as E by (vm_compute in Htb; injection Htb as <-; cbn in Hfirst; injection Hfirst as Hfirst; clear -Hfirst; lia).
  destruct (Hdots [2; 4] 0 [] eq_refl) as (x&Hx&_&Hy&Hp&Hn&_); [vm_compute; reflexivity|]. exists x. rewrite E in Hx. split; [exact Hx|]. split; [exact Hp|]. split; [exact Hy|exact Hn].
Defined.

(** Before S in the second rule, all the rules are predicted but the start rule. *)
Lemma item_predictions_exact_witness : exists x, t_ahms (tables_result items_demo) !! 5%nat = Some (Some x) /\ listed (LHS_CIL_of_AHM x) 5 (rule_lhs (irules (internal_result items_demo)) 0).
Proof.
  destruct (t_ahms (tables_result items_demo) !! 5%nat) as [[x|]|] eqn:Hx; [|vm_compute in Hx; discriminate Hx..]. exists x. split; [reflexivity|].
  pose proof (item_predictions_exact demo_fuel demo_version no_junk items_demo _ 4 0 _ 5 x items_demo_precomputing items_demo_start items_demo_run Hx) as [_ Hl].
  assert (Postdot_NSYID_of_AHM x = 0) as E by (vm_compute in Hx; injection Hx as <-; reflexivity). rewrite E in Hl. exact Hl.
Defined.

Lemma right_recursion_exact_witness : exists b, list.last (proper_symbols (internal_result items_demo) [1; 4; 0]) = Some b /\ tc (right_corner (irules (internal_result items_demo)) (internal_result items_demo)) b 0.
Proof.
  destruct (t_irl_stack (internal_result items_demo) !! 0%nat) as [irl|] eqn:Hi; [|vm_compute in Hi; discriminate Hi].
  assert (t_nsyid_array irl = Some <$> [0; 1; 4; 0]) as Ha by (vm_compute in Hi; injection Hi as <-; reflexivity).
  destruct (right_recursion_exact demo_fuel demo_version no_junk items_demo _ 4 0 _ 0 irl 0 [1; 4; 0] items_demo_precomputing items_demo_start items_demo_run Hi Ha) as (tb&Htb&Hrr).
  apply Hrr. vm_compute in Htb. injection Htb as <-. reflexivity.
Defined.

(** At the end of the second rule, the two ends of right recursive rules are in the group. *)
Lemma item_events_exact_witness : exists x, t_ahms (tables_result items_demo) !! 6%nat = Some (Some x) /\ exists ids, NoDup ids /\ length ids = 2%nat
  /\ forall i, i ∈ ids <-> group_member (irules (internal_result items_demo)) (internal_result items_demo) (null_symbols items_demo) x i.
Proof.
  destruct (t_ahms (tables_result items_demo) !! 6%nat) as [[x|]|] eqn:Hx; [|vm_compute in Hx; discriminate Hx..]. exists x. split; [reflexivity|].
  pose proof (item_events_exact demo_fuel demo_version no_junk items_demo _ 4 0 _ 6 x items_demo_precomputing items_demo_start items_demo_run Hx) as (_&_&_&_&Hg).
  assert (Event_Group_Size_of_AHM x = 2) as E by (vm_compute in Hx; injection Hx as <-; reflexivity). rewrite E in Hg.
  destruct Hg as [(_&ids&Hnd&Hin&Hn)|[(_&_&Hn)|(_&_&Hn)]]; [|discriminate Hn..]. exists ids. split; [exact Hnd|]. split; [clear -Hn; lia|exact Hin].
Defined.

(** Before b in the piece of A b S where A is null: the assertion is placed before A. *)
Lemma item_assertions_exact_witness : exists x, t_ahms (tables_result items_demo) !! 4%nat = Some (Some x) /\ holding (ZWA_CIL_of_AHM x) [0].
Proof.
  destruct (t_irl_stack (internal_result items_demo) !! 1%nat) as [irl|] eqn:Hi; [|vm_compute in Hi; discriminate Hi].
  assert (t_nsyid_array irl = Some <$> [0; 2; 4; 0]) as Ha by (vm_compute in Hi; injection Hi as <-; reflexivity).
  destruct (go_assertions _ (rd_open _ items_demo_ready)) as (tree&zwps&Htree&Hrep&_).
  destruct (item_assertions_exact demo_fuel demo_version no_junk items_demo _ 4 tree zwps 0 _ 1 irl 0 [2; 4; 0] 0 (Dotted 4 1 1 0 None) items_demo_precomputing items_demo_start Htree Hrep items_demo_run Hi Ha) as (x&Hx&(c&Hc&Hl)&_);
    [vm_compute; reflexivity|].
  assert (first_item (internal_result items_demo) (irules (internal_result items_demo)) 1 + 0 = 4)%nat as E by (vm_compute; reflexivity). rewrite E in Hx. exists x. split; [exact Hx|].
  assert (exists c0, ZWA_CIL_of_AHM x = Some c0 /\ cil_ints c0 = [1; 0]) as (c0&Hc0&Hl0) by (vm_compute in Hx; injection Hx as <-; eexists; split; reflexivity).
  exists c. split; [exact Hc|]. rewrite Hc0 in Hc. injection Hc as <-. exact Hl0.
Defined.

(** ** Positions in the rules of the grammar *)

(** In the grammar S ::= A A A B, A ::= , A ::= a, B ::= a separated by c: the item number 14 is at the end of a piece of the
    first rule, that starts at its position 2, and its position in the first rule is given as 1, which is
    that of the dot before the piece, and not as -1 for the end; and the item number 20 is at the end
    of the rule of the sequence, and its position is given as 0. *)
Lemma end_of_piece_position : exists x y, t_ahms (tables_result chaf_demo) !! 14%nat = Some (Some x) /\ t_ahms (tables_result chaf_demo) !! 20%nat = Some (Some y)
  /\ (Position_of_AHM x, XRL_of_AHM x, XRL_Position_of_AHM x) = (-1, Some 0, 1) /\ (Position_of_AHM y, XRL_of_AHM y, XRL_Position_of_AHM y) = (-1, Some 3, 0).
Proof.
  destruct (t_ahms (tables_result chaf_demo) !! 14%nat) as [[x|]|] eqn:Hx; [|vm_compute in Hx; discriminate Hx..].
  destruct (t_ahms (tables_result chaf_demo) !! 20%nat) as [[y|]|] eqn:Hy; [|vm_compute in Hy; discriminate Hy..]. exists x, y. split; [reflexivity|]. split; [reflexivity|].
  split; [vm_compute in Hx; injection Hx as <-; reflexivity|vm_compute in Hy; injection Hy as <-; reflexivity].
Qed.
