(* ===== verification/Recce.v ===== *)
(** * The recognizer: its objects ([libmarpa-dist/marpa.c])

    The Earley sets, the Earley items with the links to what explains them, the postdot and
    the Leo items, the stack of the tokens that end later, the lookup arrays of the sets,
    and [struct marpa_r].

    A pointer to an Earley set, an Earley item or a postdot item is its index in [t_sets],
    [t_yims] or [t_pims]; a pointer to an item of the grammar is its number.  [None] is the
    null pointer, or memory that has not been written. *)
From S2P Require Import Prelude Avl Dstack BitVector Matrix Cil MarpaH MarpaGrammar MarpaRules Census Rewrite Items.

(** [struct s_r_zwa] *)
Record ZWA : Type := MkZWA { ID_of_ZWA : Z; Memo_YSID_of_ZWA : Z; Default_Value_of_ZWA : bool; Memo_Value_of_ZWA : bool }.

(** [struct s_earley_set]; a set points to the next one made. *)
Record YS : Type := MkYS {
  Earleme_of_YS : Z;
  t_postdot_ary : option (list Z);
  Next_YS_of_YS : option Z;
  YIMs_of_YS : option (list (option Z));
  Dot_PSL_of_YS : option Z;
  Postdot_SYM_Count_of_YS : Z;
  YIM_Count_of_YS : Z;
  Ord_of_YS : Z;
  Value_of_YS : Z;
  PValue_of_YS : option Z
}.
Definition set_t_postdot_ary (v : option (list Z)) (x : YS) : YS :=
  MkYS (Earleme_of_YS x) v (Next_YS_of_YS x) (YIMs_of_YS x) (Dot_PSL_of_YS x) (Postdot_SYM_Count_of_YS x) (YIM_Count_of_YS x) (Ord_of_YS x) (Value_of_YS x) (PValue_of_YS x).
Definition set_Next_YS_of_YS (v : option Z) (x : YS) : YS :=
  MkYS (Earleme_of_YS x) (t_postdot_ary x) v (YIMs_of_YS x) (Dot_PSL_of_YS x) (Postdot_SYM_Count_of_YS x) (YIM_Count_of_YS x) (Ord_of_YS x) (Value_of_YS x) (PValue_of_YS x).
Definition set_YIMs_of_YS (v : option (list (option Z))) (x : YS) : YS :=
  MkYS (Earleme_of_YS x) (t_postdot_ary x) (Next_YS_of_YS x) v (Dot_PSL_of_YS x) (Postdot_SYM_Count_of_YS x) (YIM_Count_of_YS x) (Ord_of_YS x) (Value_of_YS x) (PValue_of_YS x).
Definition set_Dot_PSL_of_YS (v : option Z) (x : YS) : YS :=
  MkYS (Earleme_of_YS x) (t_postdot_ary x) (Next_YS_of_YS x) (YIMs_of_YS x) v (Postdot_SYM_Count_of_YS x) (YIM_Count_of_YS x) (Ord_of_YS x) (Value_of_YS x) (PValue_of_YS x).
Definition set_Postdot_SYM_Count_of_YS (v : Z) (x : YS) : YS :=
  MkYS (Earleme_of_YS x) (t_postdot_ary x) (Next_YS_of_YS x) (YIMs_of_YS x) (Dot_PSL_of_YS x) v (YIM_Count_of_YS x) (Ord_of_YS x) (Value_of_YS x) (PValue_of_YS x).
Definition set_YIM_Count_of_YS (v : Z) (x : YS) : YS :=
  MkYS (Earleme_of_YS x) (t_postdot_ary x) (Next_YS_of_YS x) (YIMs_of_YS x) (Dot_PSL_of_YS x) (Postdot_SYM_Count_of_YS x) v (Ord_of_YS x) (Value_of_YS x) (PValue_of_YS x).
Definition set_Value_of_YS (v : Z) (x : YS) : YS :=
  MkYS (Earleme_of_YS x) (t_postdot_ary x) (Next_YS_of_YS x) (YIMs_of_YS x) (Dot_PSL_of_YS x) (Postdot_SYM_Count_of_YS x) (YIM_Count_of_YS x) (Ord_of_YS x) v (PValue_of_YS x).
Definition set_PValue_of_YS (v : option Z) (x : YS) : YS :=
  MkYS (Earleme_of_YS x) (t_postdot_ary x) (Next_YS_of_YS x) (YIMs_of_YS x) (Dot_PSL_of_YS x) (Postdot_SYM_Count_of_YS x) (YIM_Count_of_YS x) (Ord_of_YS x) (Value_of_YS x) v.

(** [SRC]: what explains an item.  The predecessor is an item, or the Leo item of a Leo link;
    the cause is an item, or a token. *)
Inductive CAUSE : Type :=
| Completion (yim : Z)
| Token (nsyid value : Z).
Record SRCL : Type := MkSRCL { Predecessor_of_SRCL : Z; Cause_of_SRCL : CAUSE; SRCL_is_Rejected : bool; SRCL_is_Active : bool }.

(** [t_source_type] and [t_container]: one source, or the three lists of links of an item
    that has several, the latest link first. *)
Inductive SOURCE : Type :=
| NO_SOURCE
| SOURCE_IS_TOKEN (source : SRCL)
| SOURCE_IS_COMPLETION (source : SRCL)
| SOURCE_IS_LEO (source : SRCL)
| SOURCE_IS_AMBIGUOUS (token completion leo : list SRCL).

(** [struct s_earley_item]; the two bits [YIM_was_Scanned] and [YIM_was_Fusion] are not
    written when an item is made. *)
Record YIM : Type := MkYIM {
  AHM_of_YIM : Z;
  Origin_of_YIM : Z;
  YS_of_YIM : Z;
  Ord_of_YIM : Z;
  YIM_is_Rejected : bool;
  YIM_is_Active : bool;
  YIM_was_Scanned : option bool;
  YIM_was_Fusion : option bool;
  t_container : SOURCE
}.
Definition set_YIM_was_Scanned (v : option bool) (x : YIM) : YIM :=
  MkYIM (AHM_of_YIM x) (Origin_of_YIM x) (YS_of_YIM x) (Ord_of_YIM x) (YIM_is_Rejected x) (YIM_is_Active x) v (YIM_was_Fusion x) (t_container x).
Definition set_YIM_was_Fusion (v : option bool) (x : YIM) : YIM :=
  MkYIM (AHM_of_YIM x) (Origin_of_YIM x) (YS_of_YIM x) (Ord_of_YIM x) (YIM_is_Rejected x) (YIM_is_Active x) (YIM_was_Scanned x) v (t_container x).
Definition set_t_container (v : SOURCE) (x : YIM) : YIM :=
  MkYIM (AHM_of_YIM x) (Origin_of_YIM x) (YS_of_YIM x) (Ord_of_YIM x) (YIM_is_Rejected x) (YIM_is_Active x) (YIM_was_Scanned x) (YIM_was_Fusion x) v.

(** [struct s_earley_ix] *)
Record YIX : Type := MkYIX { Next_PIM_of_YIX : option Z; Postdot_NSYID_of_YIX : Z; YIM_of_YIX : option Z }.

(** [struct s_leo_item]; without an origin it is not populated. *)
Record LIM : Type := MkLIM {
  YIX_of_LIM : YIX;
  CIL_of_LIM : option CIL;
  Origin_of_LIM : option Z;
  Top_AHM_of_LIM : Z;
  Trailhead_AHM_of_LIM : Z;
  Predecessor_LIM_of_LIM : option Z;
  Trailhead_YIM_of_LIM : Z;
  YS_of_LIM : Z;
  LIM_is_Rejected : bool;
  LIM_is_Active : bool
}.
Definition set_CIL_of_LIM (v : option CIL) (x : LIM) : LIM :=
  MkLIM (YIX_of_LIM x) v (Origin_of_LIM x) (Top_AHM_of_LIM x) (Trailhead_AHM_of_LIM x) (Predecessor_LIM_of_LIM x) (Trailhead_YIM_of_LIM x) (YS_of_LIM x) (LIM_is_Rejected x) (LIM_is_Active x).
Definition set_Origin_of_LIM (v : option Z) (x : LIM) : LIM :=
  MkLIM (YIX_of_LIM x) (CIL_of_LIM x) v (Top_AHM_of_LIM x) (Trailhead_AHM_of_LIM x) (Predecessor_LIM_of_LIM x) (Trailhead_YIM_of_LIM x) (YS_of_LIM x) (LIM_is_Rejected x) (LIM_is_Active x).
Definition set_Top_AHM_of_LIM (v : Z) (x : LIM) : LIM :=
  MkLIM (YIX_of_LIM x) (CIL_of_LIM x) (Origin_of_LIM x) v (Trailhead_AHM_of_LIM x) (Predecessor_LIM_of_LIM x) (Trailhead_YIM_of_LIM x) (YS_of_LIM x) (LIM_is_Rejected x) (LIM_is_Active x).
Definition set_Predecessor_LIM_of_LIM (v : option Z) (x : LIM) : LIM :=
  MkLIM (YIX_of_LIM x) (CIL_of_LIM x) (Origin_of_LIM x) (Top_AHM_of_LIM x) (Trailhead_AHM_of_LIM x) v (Trailhead_YIM_of_LIM x) (YS_of_LIM x) (LIM_is_Rejected x) (LIM_is_Active x).

(** [union u_postdot_item]; reading a field of a Leo item in another object is [Fault]. *)
Inductive PIM : Type :=
| PIM_of_YIX (x : YIX)
| PIM_of_LIM (x : LIM).
Definition YIX_of_PIM (x : PIM) : YIX := match x with PIM_of_YIX x => x | PIM_of_LIM l => YIX_of_LIM l end.
Definition LIM_of_PIM (x : PIM) : res LIM := match x with PIM_of_YIX _ => Fault | PIM_of_LIM l => Ok l end.
Definition Next_PIM_of_PIM (x : PIM) : option Z := Next_PIM_of_YIX (YIX_of_PIM x).
Definition Postdot_NSYID_of_PIM (x : PIM) : Z := Postdot_NSYID_of_YIX (YIX_of_PIM x).
Definition YIM_of_PIM (x : PIM) : option Z := YIM_of_YIX (YIX_of_PIM x).
Definition PIM_is_LIM (x : PIM) : bool := match YIM_of_PIM x with None => true | Some _ => false end.
Definition LIM_is_Populated (l : LIM) : bool := match Origin_of_LIM l with None => false | Some _ => true end.

(** [struct s_alternative] *)
Record ALT : Type := MkALT { Start_YS_of_ALT : Z; End_Earleme_of_ALT : Z; NSYID_of_ALT : Z; Value_of_ALT : Z; ALT_is_Valued : bool }.

(** [struct s_per_earley_set_list] and [struct s_per_earley_set_arena]: the arrays in the
    order of their links; the owner is an Earley set. *)
Record PSL : Type := MkPSL { t_owner : option Z; t_data : list (option Z) }.
Record PSAR : Type := MkPSAR { t_psl_length : Z; t_psls : list PSL; t_first_free_psl : option Z }.

(** [struct marpa_r], less the fields of the progress report, of the traces and of the
    "ur-nodes".  [t_tables] is the grammar.  The last three fields are the objects allocated
    on the obstack. *)
Record RECCE : Type := MkRECCE {
  t_tables : TABLES;
  t_first_earley_set : option Z;
  t_latest_earley_set : option Z;
  t_current_earleme : Z;
  t_completion_event_is_active : option Bit_Vector;
  t_nulled_event_is_active : option Bit_Vector;
  t_prediction_event_is_active : option Bit_Vector;
  t_bv_nsyid_is_expected : Bit_Vector;
  t_nsy_expected_is_event : Bit_Vector;
  t_bv_irl_seen : Bit_Vector;
  t_irl_cil_stack : list CIL;
  t_zwas : list ZWA;
  t_alternatives : list ALT;
  t_valued_terminal : option Bit_Vector;
  t_unvalued_terminal : option Bit_Vector;
  t_valued : option Bit_Vector;
  t_unvalued : option Bit_Vector;
  t_valued_locked : option Bit_Vector;
  t_yim_work_stack : option (list Z);
  t_completion_stack : option (list Z);
  t_earley_set_stack : option (list Z);
  t_bv_lim_symbols : option Bit_Vector;
  t_bv_pim_symbols : option Bit_Vector;
  t_pim_workarea : list (option Z);
  t_lim_chain : list (option Z);
  t_dot_psar_object : PSAR;
  t_recce_ref_count : Z;
  t_earley_item_warning_threshold : Z;
  t_furthest_earleme : Z;
  t_active_event_count : Z;
  t_earley_set_count : Z;
  t_first_inconsistent_ys : Z;
  Input_Phase_of_R : Z;
  t_use_leo_flag : bool;
  t_is_using_leo : bool;
  R_is_Exhausted : bool;
  t_sets : list YS;
  t_yims : list YIM;
  t_pims : list PIM
}.
Definition set_t_tables (v : TABLES) (x : RECCE) : RECCE :=
  MkRECCE v (t_first_earley_set x) (t_latest_earley_set x) (t_current_earleme x) (t_completion_event_is_active x) (t_nulled_event_is_active x) (t_prediction_event_is_active x) (t_bv_nsyid_is_expected x) (t_nsy_expected_is_event x) (t_bv_irl_seen x) (t_irl_cil_stack x) (t_zwas x) (t_alternatives x) (t_valued_terminal x) (t_unvalued_terminal x) (t_valued x) (t_unvalued x) (t_valued_locked x) (t_yim_work_stack x) (t_completion_stack x) (t_earley_set_stack x) (t_bv_lim_symbols x) (t_bv_pim_symbols x) (t_pim_workarea x) (t_lim_chain x) (t_dot_psar_object x) (t_recce_ref_count x) (t_earley_item_warning_threshold x) (t_furthest_earleme x) (t_active_event_count x) (t_earley_set_count x) (t_first_inconsistent_ys x) (Input_Phase_of_R x) (t_use_leo_flag x) (t_is_using_leo x) (R_is_Exhausted x) (t_sets x) (t_yims x) (t_pims x).
Definition set_t_first_earley_set (v : option Z) (x : RECCE) : RECCE :=
  MkRECCE (t_tables x) v (t_latest_earley_set x) (t_current_earleme x) (t_completion_event_is_active x) (t_nulled_event_is_active x) (t_prediction_event_is_active x) (t_bv_nsyid_is_expected x) (t_nsy_expected_is_event x) (t_bv_irl_seen x) (t_irl_cil_stack x) (t_zwas x) (t_alternatives x) (t_valued_terminal x) (t_unvalued_terminal x) (t_valued x) (t_unvalued x) (t_valued_locked x) (t_yim_work_stack x) (t_completion_stack x) (t_earley_set_stack x) (t_bv_lim_symbols x) (t_bv_pim_symbols x) (t_pim_workarea x) (t_lim_chain x) (t_dot_psar_object x) (t_recce_ref_count x) (t_earley_item_warning_threshold x) (t_furthest_earleme x) (t_active_event_count x) (t_earley_set_count x) (t_first_inconsistent_ys x) (Input_Phase_of_R x) (t_use_leo_flag x) (t_is_using_leo x) (R_is_Exhausted x) (t_sets x) (t_yims x) (t_pims x).
Definition set_t_latest_earley_set (v : option Z) (x : RECCE) : RECCE :=
  MkRECCE (t_tables x) (t_first_earley_set x) v (t_current_earleme x) (t_completion_event_is_active x) (t_nulled_event_is_active x) (t_prediction_event_is_active x) (t_bv_nsyid_is_expected x) (t_nsy_expected_is_event x) (t_bv_irl_seen x) (t_irl_cil_stack x) (t_zwas x) (t_alternatives x) (t_valued_terminal x) (t_unvalued_terminal x) (t_valued x) (t_unvalued x) (t_valued_locked x) (t_yim_work_stack x) (t_completion_stack x) (t_earley_set_stack x) (t_bv_lim_symbols x) (t_bv_pim_symbols x) (t_pim_workarea x) (t_lim_chain x) (t_dot_psar_object x) (t_recce_ref_count x) (t_earley_item_warning_threshold x) (t_furthest_earleme x) (t_active_event_count x) (t_earley_set_count x) (t_first_inconsistent_ys x) (Input_Phase_of_R x) (t_use_leo_flag x) (t_is_using_leo x) (R_is_Exhausted x) (t_sets x) (t_yims x) (t_pims x).
Definition set_t_current_earleme (v : Z) (x : RECCE) : RECCE :=
  MkRECCE (t_tables x) (t_first_earley_set x) (t_latest_earley_set x) v (t_completion_event_is_active x) (t_nulled_event_is_active x) (t_prediction_event_is_active x) (t_bv_nsyid_is_expected x) (t_nsy_expected_is_event x) (t_bv_irl_seen x) (t_irl_cil_stack x) (t_zwas x) (t_alternatives x) (t_valued_terminal x) (t_unvalued_terminal x) (t_valued x) (t_unvalued x) (t_valued_locked x) (t_yim_work_stack x) (t_completion_stack x) (t_earley_set_stack x) (t_bv_lim_symbols x) (t_bv_pim_symbols x) (t_pim_workarea x) (t_lim_chain x) (t_dot_psar_object x) (t_recce_ref_count x) (t_earley_item_warning_threshold x) (t_furthest_earleme x) (t_active_event_count x) (t_earley_set_count x) (t_first_inconsistent_ys x) (Input_Phase_of_R x) (t_use_leo_flag x) (t_is_using_leo x) (R_is_Exhausted x) (t_sets x) (t_yims x) (t_pims x).
Definition set_t_completion_event_is_active (v : option Bit_Vector) (x : RECCE) : RECCE :=
  MkRECCE (t_tables x) (t_first_earley_set x) (t_latest_earley_set x) (t_current_earleme x) v (t_nulled_event_is_active x) (t_prediction_event_is_active x) (t_bv_nsyid_is_expected x) (t_nsy_expected_is_event x) (t_bv_irl_seen x) (t_irl_cil_stack x) (t_zwas x) (t_alternatives x) (t_valued_terminal x) (t_unvalued_terminal x) (t_valued x) (t_unvalued x) (t_valued_locked x) (t_yim_work_stack x) (t_completion_stack x) (t_earley_set_stack x) (t_bv_lim_symbols x) (t_bv_pim_symbols x) (t_pim_workarea x) (t_lim_chain x) (t_dot_psar_object x) (t_recce_ref_count x) (t_earley_item_warning_threshold x) (t_furthest_earleme x) (t_active_event_count x) (t_earley_set_count x) (t_first_inconsistent_ys x) (Input_Phase_of_R x) (t_use_leo_flag x) (t_is_using_leo x) (R_is_Exhausted x) (t_sets x) (t_yims x) (t_pims x).
Definition set_t_nulled_event_is_active (v : option Bit_Vector) (x : RECCE) : RECCE :=
  MkRECCE (t_tables x) (t_first_earley_set x) (t_latest_earley_set x) (t_current_earleme x) (t_completion_event_is_active x) v (t_prediction_event_is_active x) (t_bv_nsyid_is_expected x) (t_nsy_expected_is_event x) (t_bv_irl_seen x) (t_irl_cil_stack x) (t_zwas x) (t_alternatives x) (t_valued_terminal x) (t_unvalued_terminal x) (t_valued x) (t_unvalued x) (t_valued_locked x) (t_yim_work_stack x) (t_completion_stack x) (t_earley_set_stack x) (t_bv_lim_symbols x) (t_bv_pim_symbols x) (t_pim_workarea x) (t_lim_chain x) (t_dot_psar_object x) (t_recce_ref_count x) (t_earley_item_warning_threshold x) (t_furthest_earleme x) (t_active_event_count x) (t_earley_set_count x) (t_first_inconsistent_ys x) (Input_Phase_of_R x) (t_use_leo_flag x) (t_is_using_leo x) (R_is_Exhausted x) (t_sets x) (t_yims x) (t_pims x).
Definition set_t_prediction_event_is_active (v : option Bit_Vector) (x : RECCE) : RECCE :=
  MkRECCE (t_tables x) (t_first_earley_set x) (t_latest_earley_set x) (t_current_earleme x) (t_completion_event_is_active x) (t_nulled_event_is_active x) v (t_bv_nsyid_is_expected x) (t_nsy_expected_is_event x) (t_bv_irl_seen x) (t_irl_cil_stack x) (t_zwas x) (t_alternatives x) (t_valued_terminal x) (t_unvalued_terminal x) (t_valued x) (t_unvalued x) (t_valued_locked x) (t_yim_work_stack x) (t_completion_stack x) (t_earley_set_stack x) (t_bv_lim_symbols x) (t_bv_pim_symbols x) (t_pim_workarea x) (t_lim_chain x) (t_dot_psar_object x) (t_recce_ref_count x) (t_earley_item_warning_threshold x) (t_furthest_earleme x) (t_active_event_count x) (t_earley_set_count x) (t_first_inconsistent_ys x) (Input_Phase_of_R x) (t_use_leo_flag x) (t_is_using_leo x) (R_is_Exhausted x) (t_sets x) (t_yims x) (t_pims x).
Definition set_t_bv_nsyid_is_expected (v : Bit_Vector) (x : RECCE) : RECCE :=
  MkRECCE (t_tables x) (t_first_earley_set x) (t_latest_earley_set x) (t_current_earleme x) (t_completion_event_is_active x) (t_nulled_event_is_active x) (t_prediction_event_is_active x) v (t_nsy_expected_is_event x) (t_bv_irl_seen x) (t_irl_cil_stack x) (t_zwas x) (t_alternatives x) (t_valued_terminal x) (t_unvalued_terminal x) (t_valued x) (t_unvalued x) (t_valued_locked x) (t_yim_work_stack x) (t_completion_stack x) (t_earley_set_stack x) (t_bv_lim_symbols x) (t_bv_pim_symbols x) (t_pim_workarea x) (t_lim_chain x) (t_dot_psar_object x) (t_recce_ref_count x) (t_earley_item_warning_threshold x) (t_furthest_earleme x) (t_active_event_count x) (t_earley_set_count x) (t_first_inconsistent_ys x) (Input_Phase_of_R x) (t_use_leo_flag x) (t_is_using_leo x) (R_is_Exhausted x) (t_sets x) (t_yims x) (t_pims x).
Definition set_t_nsy_expected_is_event (v : Bit_Vector) (x : RECCE) : RECCE :=
  MkRECCE (t_tables x) (t_first_earley_set x) (t_latest_earley_set x) (t_current_earleme x) (t_completion_event_is_active x) (t_nulled_event_is_active x) (t_prediction_event_is_active x) (t_bv_nsyid_is_expected x) v (t_bv_irl_seen x) (t_irl_cil_stack x) (t_zwas x) (t_alternatives x) (t_valued_terminal x) (t_unvalued_terminal x) (t_valued x) (t_unvalued x) (t_valued_locked x) (t_yim_work_stack x) (t_completion_stack x) (t_earley_set_stack x) (t_bv_lim_symbols x) (t_bv_pim_symbols x) (t_pim_workarea x) (t_lim_chain x) (t_dot_psar_object x) (t_recce_ref_count x) (t_earley_item_warning_threshold x) (t_furthest_earleme x) (t_active_event_count x) (t_earley_set_count x) (t_first_inconsistent_ys x) (Input_Phase_of_R x) (t_use_leo_flag x) (t_is_using_leo x) (R_is_Exhausted x) (t_sets x) (t_yims x) (t_pims x).
Definition set_t_bv_irl_seen (v : Bit_Vector) (x : RECCE) : RECCE :=
  MkRECCE (t_tables x) (t_first_earley_set x) (t_latest_earley_set x) (t_current_earleme x) (t_completion_event_is_active x) (t_nulled_event_is_active x) (t_prediction_event_is_active x) (t_bv_nsyid_is_expected x) (t_nsy_expected_is_event x) v (t_irl_cil_stack x) (t_zwas x) (t_alternatives x) (t_valued_terminal x) (t_unvalued_terminal x) (t_valued x) (t_unvalued x) (t_valued_locked x) (t_yim_work_stack x) (t_completion_stack x) (t_earley_set_stack x) (t_bv_lim_symbols x) (t_bv_pim_symbols x) (t_pim_workarea x) (t_lim_chain x) (t_dot_psar_object x) (t_recce_ref_count x) (t_earley_item_warning_threshold x) (t_furthest_earleme x) (t_active_event_count x) (t_earley_set_count x) (t_first_inconsistent_ys x) (Input_Phase_of_R x) (t_use_leo_flag x) (t_is_using_leo x) (R_is_Exhausted x) (t_sets x) (t_yims x) (t_pims x).
Definition set_t_irl_cil_stack (v : list CIL) (x : RECCE) : RECCE :=
  MkRECCE (t_tables x) (t_first_earley_set x) (t_latest_earley_set x) (t_current_earleme x) (t_completion_event_is_active x) (t_nulled_event_is_active x) (t_prediction_event_is_active x) (t_bv_nsyid_is_expected x) (t_nsy_expected_is_event x) (t_bv_irl_seen x) v (t_zwas x) (t_alternatives x) (t_valued_terminal x) (t_unvalued_terminal x) (t_valued x) (t_unvalued x) (t_valued_locked x) (t_yim_work_stack x) (t_completion_stack x) (t_earley_set_stack x) (t_bv_lim_symbols x) (t_bv_pim_symbols x) (t_pim_workarea x) (t_lim_chain x) (t_dot_psar_object x) (t_recce_ref_count x) (t_earley_item_warning_threshold x) (t_furthest_earleme x) (t_active_event_count x) (t_earley_set_count x) (t_first_inconsistent_ys x) (Input_Phase_of_R x) (t_use_leo_flag x) (t_is_using_leo x) (R_is_Exhausted x) (t_sets x) (t_yims x) (t_pims x).
Definition set_t_zwas (v : list ZWA) (x : RECCE) : RECCE :=
  MkRECCE (t_tables x) (t_first_earley_set x) (t_latest_earley_set x) (t_current_earleme x) (t_completion_event_is_active x) (t_nulled_event_is_active x) (t_prediction_event_is_active x) (t_bv_nsyid_is_expected x) (t_nsy_expected_is_event x) (t_bv_irl_seen x) (t_irl_cil_stack x) v (t_alternatives x) (t_valued_terminal x) (t_unvalued_terminal x) (t_valued x) (t_unvalued x) (t_valued_locked x) (t_yim_work_stack x) (t_completion_stack x) (t_earley_set_stack x) (t_bv_lim_symbols x) (t_bv_pim_symbols x) (t_pim_workarea x) (t_lim_chain x) (t_dot_psar_object x) (t_recce_ref_count x) (t_earley_item_warning_threshold x) (t_furthest_earleme x) (t_active_event_count x) (t_earley_set_count x) (t_first_inconsistent_ys x) (Input_Phase_of_R x) (t_use_leo_flag x) (t_is_using_leo x) (R_is_Exhausted x) (t_sets x) (t_yims x) (t_pims x).
Definition set_t_alternatives (v : list ALT) (x : RECCE) : RECCE :=
  MkRECCE (t_tables x) (t_first_earley_set x) (t_latest_earley_set x) (t_current_earleme x) (t_completion_event_is_active x) (t_nulled_event_is_active x) (t_prediction_event_is_active x) (t_bv_nsyid_is_expected x) (t_nsy_expected_is_event x) (t_bv_irl_seen x) (t_irl_cil_stack x) (t_zwas x) v (t_valued_terminal x) (t_unvalued_terminal x) (t_valued x) (t_unvalued x) (t_valued_locked x) (t_yim_work_stack x) (t_completion_stack x) (t_earley_set_stack x) (t_bv_lim_symbols x) (t_bv_pim_symbols x) (t_pim_workarea x) (t_lim_chain x) (t_dot_psar_object x) (t_recce_ref_count x) (t_earley_item_warning_threshold x) (t_furthest_earleme x) (t_active_event_count x) (t_earley_set_count x) (t_first_inconsistent_ys x) (Input_Phase_of_R x) (t_use_leo_flag x) (t_is_using_leo x) (R_is_Exhausted x) (t_sets x) (t_yims x) (t_pims x).
Definition set_t_valued_terminal (v : option Bit_Vector) (x : RECCE) : RECCE :=
  MkRECCE (t_tables x) (t_first_earley_set x) (t_latest_earley_set x) (t_current_earleme x) (t_completion_event_is_active x) (t_nulled_event_is_active x) (t_prediction_event_is_active x) (t_bv_nsyid_is_expected x) (t_nsy_expected_is_event x) (t_bv_irl_seen x) (t_irl_cil_stack x) (t_zwas x) (t_alternatives x) v (t_unvalued_terminal x) (t_valued x) (t_unvalued x) (t_valued_locked x) (t_yim_work_stack x) (t_completion_stack x) (t_earley_set_stack x) (t_bv_lim_symbols x) (t_bv_pim_symbols x) (t_pim_workarea x) (t_lim_chain x) (t_dot_psar_object x) (t_recce_ref_count x) (t_earley_item_warning_threshold x) (t_furthest_earleme x) (t_active_event_count x) (t_earley_set_count x) (t_first_inconsistent_ys x) (Input_Phase_of_R x) (t_use_leo_flag x) (t_is_using_leo x) (R_is_Exhausted x) (t_sets x) (t_yims x) (t_pims x).
Definition set_t_unvalued_terminal (v : option Bit_Vector) (x : RECCE) : RECCE :=
  MkRECCE (t_tables x) (t_first_earley_set x) (t_latest_earley_set x) (t_current_earleme x) (t_completion_event_is_active x) (t_nulled_event_is_active x) (t_prediction_event_is_active x) (t_bv_nsyid_is_expected x) (t_nsy_expected_is_event x) (t_bv_irl_seen x) (t_irl_cil_stack x) (t_zwas x) (t_alternatives x) (t_valued_terminal x) v (t_valued x) (t_unvalued x) (t_valued_locked x) (t_yim_work_stack x) (t_completion_stack x) (t_earley_set_stack x) (t_bv_lim_symbols x) (t_bv_pim_symbols x) (t_pim_workarea x) (t_lim_chain x) (t_dot_psar_object x) (t_recce_ref_count x) (t_earley_item_warning_threshold x) (t_furthest_earleme x) (t_active_event_count x) (t_earley_set_count x) (t_first_inconsistent_ys x) (Input_Phase_of_R x) (t_use_leo_flag x) (t_is_using_leo x) (R_is_Exhausted x) (t_sets x) (t_yims x) (t_pims x).
Definition set_t_valued (v : option Bit_Vector) (x : RECCE) : RECCE :=
  MkRECCE (t_tables x) (t_first_earley_set x) (t_latest_earley_set x) (t_current_earleme x) (t_completion_event_is_active x) (t_nulled_event_is_active x) (t_prediction_event_is_active x) (t_bv_nsyid_is_expected x) (t_nsy_expected_is_event x) (t_bv_irl_seen x) (t_irl_cil_stack x) (t_zwas x) (t_alternatives x) (t_valued_terminal x) (t_unvalued_terminal x) v (t_unvalued x) (t_valued_locked x) (t_yim_work_stack x) (t_completion_stack x) (t_earley_set_stack x) (t_bv_lim_symbols x) (t_bv_pim_symbols x) (t_pim_workarea x) (t_lim_chain x) (t_dot_psar_object x) (t_recce_ref_count x) (t_earley_item_warning_threshold x) (t_furthest_earleme x) (t_active_event_count x) (t_earley_set_count x) (t_first_inconsistent_ys x) (Input_Phase_of_R x) (t_use_leo_flag x) (t_is_using_leo x) (R_is_Exhausted x) (t_sets x) (t_yims x) (t_pims x).
Definition set_t_unvalued (v : option Bit_Vector) (x : RECCE) : RECCE :=
  MkRECCE (t_tables x) (t_first_earley_set x) (t_latest_earley_set x) (t_current_earleme x) (t_completion_event_is_active x) (t_nulled_event_is_active x) (t_prediction_event_is_active x) (t_bv_nsyid_is_expected x) (t_nsy_expected_is_event x) (t_bv_irl_seen x) (t_irl_cil_stack x) (t_zwas x) (t_alternatives x) (t_valued_terminal x) (t_unvalued_terminal x) (t_valued x) v (t_valued_locked x) (t_yim_work_stack x) (t_completion_stack x) (t_earley_set_stack x) (t_bv_lim_symbols x) (t_bv_pim_symbols x) (t_pim_workarea x) (t_lim_chain x) (t_dot_psar_object x) (t_recce_ref_count x) (t_earley_item_warning_threshold x) (t_furthest_earleme x) (t_active_event_count x) (t_earley_set_count x) (t_first_inconsistent_ys x) (Input_Phase_of_R x) (t_use_leo_flag x) (t_is_using_leo x) (R_is_Exhausted x) (t_sets x) (t_yims x) (t_pims x).
Definition set_t_valued_locked (v : option Bit_Vector) (x : RECCE) : RECCE :=
  MkRECCE (t_tables x) (t_first_earley_set x) (t_latest_earley_set x) (t_current_earleme x) (t_completion_event_is_active x) (t_nulled_event_is_active x) (t_prediction_event_is_active x) (t_bv_nsyid_is_expected x) (t_nsy_expected_is_event x) (t_bv_irl_seen x) (t_irl_cil_stack x) (t_zwas x) (t_alternatives x) (t_valued_terminal x) (t_unvalued_terminal x) (t_valued x) (t_unvalued x) v (t_yim_work_stack x) (t_completion_stack x) (t_earley_set_stack x) (t_bv_lim_symbols x) (t_bv_pim_symbols x) (t_pim_workarea x) (t_lim_chain x) (t_dot_psar_object x) (t_recce_ref_count x) (t_earley_item_warning_threshold x) (t_furthest_earleme x) (t_active_event_count x) (t_earley_set_count x) (t_first_inconsistent_ys x) (Input_Phase_of_R x) (t_use_leo_flag x) (t_is_using_leo x) (R_is_Exhausted x) (t_sets x) (t_yims x) (t_pims x).
Definition set_t_yim_work_stack (v : option (list Z)) (x : RECCE) : RECCE :=
  MkRECCE (t_tables x) (t_first_earley_set x) (t_latest_earley_set x) (t_current_earleme x) (t_completion_event_is_active x) (t_nulled_event_is_active x) (t_prediction_event_is_active x) (t_bv_nsyid_is_expected x) (t_nsy_expected_is_event x) (t_bv_irl_seen x) (t_irl_cil_stack x) (t_zwas x) (t_alternatives x) (t_valued_terminal x) (t_unvalued_terminal x) (t_valued x) (t_unvalued x) (t_valued_locked x) v (t_completion_stack x) (t_earley_set_stack x) (t_bv_lim_symbols x) (t_bv_pim_symbols x) (t_pim_workarea x) (t_lim_chain x) (t_dot_psar_object x) (t_recce_ref_count x) (t_earley_item_warning_threshold x) (t_furthest_earleme x) (t_active_event_count x) (t_earley_set_count x) (t_first_inconsistent_ys x) (Input_Phase_of_R x) (t_use_leo_flag x) (t_is_using_leo x) (R_is_Exhausted x) (t_sets x) (t_yims x) (t_pims x).
Definition set_t_completion_stack (v : option (list Z)) (x : RECCE) : RECCE :=
  MkRECCE (t_tables x) (t_first_earley_set x) (t_latest_earley_set x) (t_current_earleme x) (t_completion_event_is_active x) (t_nulled_event_is_active x) (t_prediction_event_is_active x) (t_bv_nsyid_is_expected x) (t_nsy_expected_is_event x) (t_bv_irl_seen x) (t_irl_cil_stack x) (t_zwas x) (t_alternatives x) (t_valued_terminal x) (t_unvalued_terminal x) (t_valued x) (t_unvalued x) (t_valued_locked x) (t_yim_work_stack x) v (t_earley_set_stack x) (t_bv_lim_symbols x) (t_bv_pim_symbols x) (t_pim_workarea x) (t_lim_chain x) (t_dot_psar_object x) (t_recce_ref_count x) (t_earley_item_warning_threshold x) (t_furthest_earleme x) (t_active_event_count x) (t_earley_set_count x) (t_first_inconsistent_ys x) (Input_Phase_of_R x) (t_use_leo_flag x) (t_is_using_leo x) (R_is_Exhausted x) (t_sets x) (t_yims x) (t_pims x).
Definition set_t_earley_set_stack (v : option (list Z)) (x : RECCE) : RECCE :=
  MkRECCE (t_tables x) (t_first_earley_set x) (t_latest_earley_set x) (t_current_earleme x) (t_completion_event_is_active x) (t_nulled_event_is_active x) (t_prediction_event_is_active x) (t_bv_nsyid_is_expected x) (t_nsy_expected_is_event x) (t_bv_irl_seen x) (t_irl_cil_stack x) (t_zwas x) (t_alternatives x) (t_valued_terminal x) (t_unvalued_terminal x) (t_valued x) (t_unvalued x) (t_valued_locked x) (t_yim_work_stack x) (t_completion_stack x) v (t_bv_lim_symbols x) (t_bv_pim_symbols x) (t_pim_workarea x) (t_lim_chain x) (t_dot_psar_object x) (t_recce_ref_count x) (t_earley_item_warning_threshold x) (t_furthest_earleme x) (t_active_event_count x) (t_earley_set_count x) (t_first_inconsistent_ys x) (Input_Phase_of_R x) (t_use_leo_flag x) (t_is_using_leo x) (R_is_Exhausted x) (t_sets x) (t_yims x) (t_pims x).
Definition set_t_bv_lim_symbols (v : option Bit_Vector) (x : RECCE) : RECCE :=
  MkRECCE (t_tables x) (t_first_earley_set x) (t_latest_earley_set x) (t_current_earleme x) (t_completion_event_is_active x) (t_nulled_event_is_active x) (t_prediction_event_is_active x) (t_bv_nsyid_is_expected x) (t_nsy_expected_is_event x) (t_bv_irl_seen x) (t_irl_cil_stack x) (t_zwas x) (t_alternatives x) (t_valued_terminal x) (t_unvalued_terminal x) (t_valued x) (t_unvalued x) (t_valued_locked x) (t_yim_work_stack x) (t_completion_stack x) (t_earley_set_stack x) v (t_bv_pim_symbols x) (t_pim_workarea x) (t_lim_chain x) (t_dot_psar_object x) (t_recce_ref_count x) (t_earley_item_warning_threshold x) (t_furthest_earleme x) (t_active_event_count x) (t_earley_set_count x) (t_first_inconsistent_ys x) (Input_Phase_of_R x) (t_use_leo_flag x) (t_is_using_leo x) (R_is_Exhausted x) (t_sets x) (t_yims x) (t_pims x).
Definition set_t_bv_pim_symbols (v : option Bit_Vector) (x : RECCE) : RECCE :=
  MkRECCE (t_tables x) (t_first_earley_set x) (t_latest_earley_set x) (t_current_earleme x) (t_completion_event_is_active x) (t_nulled_event_is_active x) (t_prediction_event_is_active x) (t_bv_nsyid_is_expected x) (t_nsy_expected_is_event x) (t_bv_irl_seen x) (t_irl_cil_stack x) (t_zwas x) (t_alternatives x) (t_valued_terminal x) (t_unvalued_terminal x) (t_valued x) (t_unvalued x) (t_valued_locked x) (t_yim_work_stack x) (t_completion_stack x) (t_earley_set_stack x) (t_bv_lim_symbols x) v (t_pim_workarea x) (t_lim_chain x) (t_dot_psar_object x) (t_recce_ref_count x) (t_earley_item_warning_threshold x) (t_furthest_earleme x) (t_active_event_count x) (t_earley_set_count x) (t_first_inconsistent_ys x) (Input_Phase_of_R x) (t_use_leo_flag x) (t_is_using_leo x) (R_is_Exhausted x) (t_sets x) (t_yims x) (t_pims x).
Definition set_t_pim_workarea (v : list (option Z)) (x : RECCE) : RECCE :=
  MkRECCE (t_tables x) (t_first_earley_set x) (t_latest_earley_set x) (t_current_earleme x) (t_completion_event_is_active x) (t_nulled_event_is_active x) (t_prediction_event_is_active x) (t_bv_nsyid_is_expected x) (t_nsy_expected_is_event x) (t_bv_irl_seen x) (t_irl_cil_stack x) (t_zwas x) (t_alternatives x) (t_valued_terminal x) (t_unvalued_terminal x) (t_valued x) (t_unvalued x) (t_valued_locked x) (t_yim_work_stack x) (t_completion_stack x) (t_earley_set_stack x) (t_bv_lim_symbols x) (t_bv_pim_symbols x) v (t_lim_chain x) (t_dot_psar_object x) (t_recce_ref_count x) (t_earley_item_warning_threshold x) (t_furthest_earleme x) (t_active_event_count x) (t_earley_set_count x) (t_first_inconsistent_ys x) (Input_Phase_of_R x) (t_use_leo_flag x) (t_is_using_leo x) (R_is_Exhausted x) (t_sets x) (t_yims x) (t_pims x).
Definition set_t_lim_chain (v : list (option Z)) (x : RECCE) : RECCE :=
  MkRECCE (t_tables x) (t_first_earley_set x) (t_latest_earley_set x) (t_current_earleme x) (t_completion_event_is_active x) (t_nulled_event_is_active x) (t_prediction_event_is_active x) (t_bv_nsyid_is_expected x) (t_nsy_expected_is_event x) (t_bv_irl_seen x) (t_irl_cil_stack x) (t_zwas x) (t_alternatives x) (t_valued_terminal x) (t_unvalued_terminal x) (t_valued x) (t_unvalued x) (t_valued_locked x) (t_yim_work_stack x) (t_completion_stack x) (t_earley_set_stack x) (t_bv_lim_symbols x) (t_bv_pim_symbols x) (t_pim_workarea x) v (t_dot_psar_object x) (t_recce_ref_count x) (t_earley_item_warning_threshold x) (t_furthest_earleme x) (t_active_event_count x) (t_earley_set_count x) (t_first_inconsistent_ys x) (Input_Phase_of_R x) (t_use_leo_flag x) (t_is_using_leo x) (R_is_Exhausted x) (t_sets x) (t_yims x) (t_pims x).
Definition set_t_dot_psar_object (v : PSAR) (x : RECCE) : RECCE :=
  MkRECCE (t_tables x) (t_first_earley_set x) (t_latest_earley_set x) (t_current_earleme x) (t_completion_event_is_active x) (t_nulled_event_is_active x) (t_prediction_event_is_active x) (t_bv_nsyid_is_expected x) (t_nsy_expected_is_event x) (t_bv_irl_seen x) (t_irl_cil_stack x) (t_zwas x) (t_alternatives x) (t_valued_terminal x) (t_unvalued_terminal x) (t_valued x) (t_unvalued x) (t_valued_locked x) (t_yim_work_stack x) (t_completion_stack x) (t_earley_set_stack x) (t_bv_lim_symbols x) (t_bv_pim_symbols x) (t_pim_workarea x) (t_lim_chain x) v (t_recce_ref_count x) (t_earley_item_warning_threshold x) (t_furthest_earleme x) (t_active_event_count x) (t_earley_set_count x) (t_first_inconsistent_ys x) (Input_Phase_of_R x) (t_use_leo_flag x) (t_is_using_leo x) (R_is_Exhausted x) (t_sets x) (t_yims x) (t_pims x).
Definition set_t_recce_ref_count (v : Z) (x : RECCE) : RECCE :=
  MkRECCE (t_tables x) (t_first_earley_set x) (t_latest_earley_set x) (t_current_earleme x) (t_completion_event_is_active x) (t_nulled_event_is_active x) (t_prediction_event_is_active x) (t_bv_nsyid_is_expected x) (t_nsy_expected_is_event x) (t_bv_irl_seen x) (t_irl_cil_stack x) (t_zwas x) (t_alternatives x) (t_valued_terminal x) (t_unvalued_terminal x) (t_valued x) (t_unvalued x) (t_valued_locked x) (t_yim_work_stack x) (t_completion_stack x) (t_earley_set_stack x) (t_bv_lim_symbols x) (t_bv_pim_symbols x) (t_pim_workarea x) (t_lim_chain x) (t_dot_psar_object x) v (t_earley_item_warning_threshold x) (t_furthest_earleme x) (t_active_event_count x) (t_earley_set_count x) (t_first_inconsistent_ys x) (Input_Phase_of_R x) (t_use_leo_flag x) (t_is_using_leo x) (R_is_Exhausted x) (t_sets x) (t_yims x) (t_pims x).
Definition set_t_earley_item_warning_threshold (v : Z) (x : RECCE) : RECCE :=
  MkRECCE (t_tables x) (t_first_earley_set x) (t_latest_earley_set x) (t_current_earleme x) (t_completion_event_is_active x) (t_nulled_event_is_active x) (t_prediction_event_is_active x) (t_bv_nsyid_is_expected x) (t_nsy_expected_is_event x) (t_bv_irl_seen x) (t_irl_cil_stack x) (t_zwas x) (t_alternatives x) (t_valued_terminal x) (t_unvalued_terminal x) (t_valued x) (t_unvalued x) (t_valued_locked x) (t_yim_work_stack x) (t_completion_stack x) (t_earley_set_stack x) (t_bv_lim_symbols x) (t_bv_pim_symbols x) (t_pim_workarea x) (t_lim_chain x) (t_dot_psar_object x) (t_recce_ref_count x) v (t_furthest_earleme x) (t_active_event_count x) (t_earley_set_count x) (t_first_inconsistent_ys x) (Input_Phase_of_R x) (t_use_leo_flag x) (t_is_using_leo x) (R_is_Exhausted x) (t_sets x) (t_yims x) (t_pims x).
Definition set_t_furthest_earleme (v : Z) (x : RECCE) : RECCE :=
  MkRECCE (t_tables x) (t_first_earley_set x) (t_latest_earley_set x) (t_current_earleme x) (t_completion_event_is_active x) (t_nulled_event_is_active x) (t_prediction_event_is_active x) (t_bv_nsyid_is_expected x) (t_nsy_expected_is_event x) (t_bv_irl_seen x) (t_irl_cil_stack x) (t_zwas x) (t_alternatives x) (t_valued_terminal x) (t_unvalued_terminal x) (t_valued x) (t_unvalued x) (t_valued_locked x) (t_yim_work_stack x) (t_completion_stack x) (t_earley_set_stack x) (t_bv_lim_symbols x) (t_bv_pim_symbols x) (t_pim_workarea x) (t_lim_chain x) (t_dot_psar_object x) (t_recce_ref_count x) (t_earley_item_warning_threshold x) v (t_active_event_count x) (t_earley_set_count x) (t_first_inconsistent_ys x) (Input_Phase_of_R x) (t_use_leo_flag x) (t_is_using_leo x) (R_is_Exhausted x) (t_sets x) (t_yims x) (t_pims x).
Definition set_t_active_event_count (v : Z) (x : RECCE) : RECCE :=
  MkRECCE (t_tables x) (t_first_earley_set x) (t_latest_earley_set x) (t_current_earleme x) (t_completion_event_is_active x) (t_nulled_event_is_active x) (t_prediction_event_is_active x) (t_bv_nsyid_is_expected x) (t_nsy_expected_is_event x) (t_bv_irl_seen x) (t_irl_cil_stack x) (t_zwas x) (t_alternatives x) (t_valued_terminal x) (t_unvalued_terminal x) (t_valued x) (t_unvalued x) (t_valued_locked x) (t_yim_work_stack x) (t_completion_stack x) (t_earley_set_stack x) (t_bv_lim_symbols x) (t_bv_pim_symbols x) (t_pim_workarea x) (t_lim_chain x) (t_dot_psar_object x) (t_recce_ref_count x) (t_earley_item_warning_threshold x) (t_furthest_earleme x) v (t_earley_set_count x) (t_first_inconsistent_ys x) (Input_Phase_of_R x) (t_use_leo_flag x) (t_is_using_leo x) (R_is_Exhausted x) (t_sets x) (t_yims x) (t_pims x).
Definition set_t_earley_set_count (v : Z) (x : RECCE) : RECCE :=
  MkRECCE (t_tables x) (t_first_earley_set x) (t_latest_earley_set x) (t_current_earleme x) (t_completion_event_is_active x) (t_nulled_event_is_active x) (t_prediction_event_is_active x) (t_bv_nsyid_is_expected x) (t_nsy_expected_is_event x) (t_bv_irl_seen x) (t_irl_cil_stack x) (t_zwas x) (t_alternatives x) (t_valued_terminal x) (t_unvalued_terminal x) (t_valued x) (t_unvalued x) (t_valued_locked x) (t_yim_work_stack x) (t_completion_stack x) (t_earley_set_stack x) (t_bv_lim_symbols x) (t_bv_pim_symbols x) (t_pim_workarea x) (t_lim_chain x) (t_dot_psar_object x) (t_recce_ref_count x) (t_earley_item_warning_threshold x) (t_furthest_earleme x) (t_active_event_count x) v (t_first_inconsistent_ys x) (Input_Phase_of_R x) (t_use_leo_flag x) (t_is_using_leo x) (R_is_Exhausted x) (t_sets x) (t_yims x) (t_pims x).
Definition set_t_first_inconsistent_ys (v : Z) (x : RECCE) : RECCE :=
  MkRECCE (t_tables x) (t_first_earley_set x) (t_latest_earley_set x) (t_current_earleme x) (t_completion_event_is_active x) (t_nulled_event_is_active x) (t_prediction_event_is_active x) (t_bv_nsyid_is_expected x) (t_nsy_expected_is_event x) (t_bv_irl_seen x) (t_irl_cil_stack x) (t_zwas x) (t_alternatives x) (t_valued_terminal x) (t_unvalued_terminal x) (t_valued x) (t_unvalued x) (t_valued_locked x) (t_yim_work_stack x) (t_completion_stack x) (t_earley_set_stack x) (t_bv_lim_symbols x) (t_bv_pim_symbols x) (t_pim_workarea x) (t_lim_chain x) (t_dot_psar_object x) (t_recce_ref_count x) (t_earley_item_warning_threshold x) (t_furthest_earleme x) (t_active_event_count x) (t_earley_set_count x) v (Input_Phase_of_R x) (t_use_leo_flag x) (t_is_using_leo x) (R_is_Exhausted x) (t_sets x) (t_yims x) (t_pims x).
Definition set_Input_Phase_of_R (v : Z) (x : RECCE) : RECCE :=
  MkRECCE (t_tables x) (t_first_earley_set x) (t_latest_earley_set x) (t_current_earleme x) (t_completion_event_is_active x) (t_nulled_event_is_active x) (t_prediction_event_is_active x) (t_bv_nsyid_is_expected x) (t_nsy_expected_is_event x) (t_bv_irl_seen x) (t_irl_cil_stack x) (t_zwas x) (t_alternatives x) (t_valued_terminal x) (t_unvalued_terminal x) (t_valued x) (t_unvalued x) (t_valued_locked x) (t_yim_work_stack x) (t_completion_stack x) (t_earley_set_stack x) (t_bv_lim_symbols x) (t_bv_pim_symbols x) (t_pim_workarea x) (t_lim_chain x) (t_dot_psar_object x) (t_recce_ref_count x) (t_earley_item_warning_threshold x) (t_furthest_earleme x) (t_active_event_count x) (t_earley_set_count x) (t_first_inconsistent_ys x) v (t_use_leo_flag x) (t_is_using_leo x) (R_is_Exhausted x) (t_sets x) (t_yims x) (t_pims x).
Definition set_t_use_leo_flag (v : bool) (x : RECCE) : RECCE :=
  MkRECCE (t_tables x) (t_first_earley_set x) (t_latest_earley_set x) (t_current_earleme x) (t_completion_event_is_active x) (t_nulled_event_is_active x) (t_prediction_event_is_active x) (t_bv_nsyid_is_expected x) (t_nsy_expected_is_event x) (t_bv_irl_seen x) (t_irl_cil_stack x) (t_zwas x) (t_alternatives x) (t_valued_terminal x) (t_unvalued_terminal x) (t_valued x) (t_unvalued x) (t_valued_locked x) (t_yim_work_stack x) (t_completion_stack x) (t_earley_set_stack x) (t_bv_lim_symbols x) (t_bv_pim_symbols x) (t_pim_workarea x) (t_lim_chain x) (t_dot_psar_object x) (t_recce_ref_count x) (t_earley_item_warning_threshold x) (t_furthest_earleme x) (t_active_event_count x) (t_earley_set_count x) (t_first_inconsistent_ys x) (Input_Phase_of_R x) v (t_is_using_leo x) (R_is_Exhausted x) (t_sets x) (t_yims x) (t_pims x).
Definition set_t_is_using_leo (v : bool) (x : RECCE) : RECCE :=
  MkRECCE (t_tables x) (t_first_earley_set x) (t_latest_earley_set x) (t_current_earleme x) (t_completion_event_is_active x) (t_nulled_event_is_active x) (t_prediction_event_is_active x) (t_bv_nsyid_is_expected x) (t_nsy_expected_is_event x) (t_bv_irl_seen x) (t_irl_cil_stack x) (t_zwas x) (t_alternatives x) (t_valued_terminal x) (t_unvalued_terminal x) (t_valued x) (t_unvalued x) (t_valued_locked x) (t_yim_work_stack x) (t_completion_stack x) (t_earley_set_stack x) (t_bv_lim_symbols x) (t_bv_pim_symbols x) (t_pim_workarea x) (t_lim_chain x) (t_dot_psar_object x) (t_recce_ref_count x) (t_earley_item_warning_threshold x) (t_furthest_earleme x) (t_active_event_count x) (t_earley_set_count x) (t_first_inconsistent_ys x) (Input_Phase_of_R x) (t_use_leo_flag x) v (R_is_Exhausted x) (t_sets x) (t_yims x) (t_pims x).
Definition set_R_is_Exhausted (v : bool) (x : RECCE) : RECCE :=
  MkRECCE (t_tables x) (t_first_earley_set x) (t_latest_earley_set x) (t_current_earleme x) (t_completion_event_is_active x) (t_nulled_event_is_active x) (t_prediction_event_is_active x) (t_bv_nsyid_is_expected x) (t_nsy_expected_is_event x) (t_bv_irl_seen x) (t_irl_cil_stack x) (t_zwas x) (t_alternatives x) (t_valued_terminal x) (t_unvalued_terminal x) (t_valued x) (t_unvalued x) (t_valued_locked x) (t_yim_work_stack x) (t_completion_stack x) (t_earley_set_stack x) (t_bv_lim_symbols x) (t_bv_pim_symbols x) (t_pim_workarea x) (t_lim_chain x) (t_dot_psar_object x) (t_recce_ref_count x) (t_earley_item_warning_threshold x) (t_furthest_earleme x) (t_active_event_count x) (t_earley_set_count x) (t_first_inconsistent_ys x) (Input_Phase_of_R x) (t_use_leo_flag x) (t_is_using_leo x) v (t_sets x) (t_yims x) (t_pims x).
Definition set_t_sets (v : list YS) (x : RECCE) : RECCE :=
  MkRECCE (t_tables x) (t_first_earley_set x) (t_latest_earley_set x) (t_current_earleme x) (t_completion_event_is_active x) (t_nulled_event_is_active x) (t_prediction_event_is_active x) (t_bv_nsyid_is_expected x) (t_nsy_expected_is_event x) (t_bv_irl_seen x) (t_irl_cil_stack x) (t_zwas x) (t_alternatives x) (t_valued_terminal x) (t_unvalued_terminal x) (t_valued x) (t_unvalued x) (t_valued_locked x) (t_yim_work_stack x) (t_completion_stack x) (t_earley_set_stack x) (t_bv_lim_symbols x) (t_bv_pim_symbols x) (t_pim_workarea x) (t_lim_chain x) (t_dot_psar_object x) (t_recce_ref_count x) (t_earley_item_warning_threshold x) (t_furthest_earleme x) (t_active_event_count x) (t_earley_set_count x) (t_first_inconsistent_ys x) (Input_Phase_of_R x) (t_use_leo_flag x) (t_is_using_leo x) (R_is_Exhausted x) v (t_yims x) (t_pims x).
Definition set_t_yims (v : list YIM) (x : RECCE) : RECCE :=
  MkRECCE (t_tables x) (t_first_earley_set x) (t_latest_earley_set x) (t_current_earleme x) (t_completion_event_is_active x) (t_nulled_event_is_active x) (t_prediction_event_is_active x) (t_bv_nsyid_is_expected x) (t_nsy_expected_is_event x) (t_bv_irl_seen x) (t_irl_cil_stack x) (t_zwas x) (t_alternatives x) (t_valued_terminal x) (t_unvalued_terminal x) (t_valued x) (t_unvalued x) (t_valued_locked x) (t_yim_work_stack x) (t_completion_stack x) (t_earley_set_stack x) (t_bv_lim_symbols x) (t_bv_pim_symbols x) (t_pim_workarea x) (t_lim_chain x) (t_dot_psar_object x) (t_recce_ref_count x) (t_earley_item_warning_threshold x) (t_furthest_earleme x) (t_active_event_count x) (t_earley_set_count x) (t_first_inconsistent_ys x) (Input_Phase_of_R x) (t_use_leo_flag x) (t_is_using_leo x) (R_is_Exhausted x) (t_sets x) v (t_pims x).
Definition set_t_pims (v : list PIM) (x : RECCE) : RECCE :=
  MkRECCE (t_tables x) (t_first_earley_set x) (t_latest_earley_set x) (t_current_earleme x) (t_completion_event_is_active x) (t_nulled_event_is_active x) (t_prediction_event_is_active x) (t_bv_nsyid_is_expected x) (t_nsy_expected_is_event x) (t_bv_irl_seen x) (t_irl_cil_stack x) (t_zwas x) (t_alternatives x) (t_valued_terminal x) (t_unvalued_terminal x) (t_valued x) (t_unvalued x) (t_valued_locked x) (t_yim_work_stack x) (t_completion_stack x) (t_earley_set_stack x) (t_bv_lim_symbols x) (t_bv_pim_symbols x) (t_pim_workarea x) (t_lim_chain x) (t_dot_psar_object x) (t_recce_ref_count x) (t_earley_item_warning_threshold x) (t_furthest_earleme x) (t_active_event_count x) (t_earley_set_count x) (t_first_inconsistent_ys x) (Input_Phase_of_R x) (t_use_leo_flag x) (t_is_using_leo x) (R_is_Exhausted x) (t_sets x) (t_yims x) v.


Definition R_BEFORE_INPUT : Z := 1.
Definition R_DURING_INPUT : Z := 2.
Definition R_AFTER_INPUT : Z := 3.
Definition DEFAULT_YIM_WARNING_THRESHOLD : Z := 100.
Definition JEARLEME_THRESHOLD : Z := INT_MAX ÷ 4.
Definition YIM_ORDINAL_CLAMP (x : Z) : Z := Z.land (Z.shiftl 1 16 - 1) x.
Definition YIM_FATAL_THRESHOLD : Z := Z.shiftl 1 16 - 2.

Section recce.
Implicit Types (r : RECCE).

Definition G_of_R r : GRAMMAR := g_of (t_tables r).
Definition upd_G_of_R (f : GRAMMAR -> GRAMMAR) r : RECCE := set_t_tables (upd_g f (t_tables r)) r.
(** [MARPA_ERROR(code)] *)
Definition R_ERROR r (code : Z) : RECCE := upd_G_of_R (fun g => MARPA_ERROR g code) r.
Definition R_is_Consistent r : bool := t_first_inconsistent_ys r <? 0.

Definition YS_by_ID r (ys : Z) : res YS := rd (t_sets r) ys.
Definition YIM_by_ID r (yim : Z) : res YIM := rd (t_yims r) yim.
Definition PIM_by_ID r (pim : Z) : res PIM := rd (t_pims r) pim.
Definition upd_ys r (ys : Z) (f : YS -> YS) : res RECCE := x ← YS_by_ID r ys; l ← wr (t_sets r) ys (f x); Ok (set_t_sets l r).
Definition upd_yim r (yim : Z) (f : YIM -> YIM) : res RECCE := x ← YIM_by_ID r yim; l ← wr (t_yims r) yim (f x); Ok (set_t_yims l r).
Definition upd_lim r (pim : Z) (f : LIM -> LIM) : res RECCE :=
  x ← PIM_by_ID r pim; lim ← LIM_of_PIM x; l ← wr (t_pims r) pim (PIM_of_LIM (f lim)); Ok (set_t_pims l r).

Definition AHM_of r (yim : YIM) : res AHM := AHM_by_ID (t_tables r) (AHM_of_YIM yim).
Definition Earleme_of_YIM r (yim : YIM) : res Z := ys ← YS_by_ID r (YS_of_YIM yim); Ok (Earleme_of_YS ys).
Definition LHS_NSYID_of_YIM r (yim : YIM) : res Z := ahm ← AHM_of r yim; LHSID_of_AHM (t_tables r) ahm.
Definition YIM_is_Completion r (yim : YIM) : res bool := ahm ← AHM_of r yim; Ok (AHM_is_Completion ahm).
Definition Earley_Item_has_No_Source (yim : YIM) : bool := match t_container yim with NO_SOURCE => true | _ => false end.
Definition First_Leo_SRCL_of_YIM (yim : YIM) : list SRCL :=
  match t_container yim with SOURCE_IS_LEO l => [l] | SOURCE_IS_AMBIGUOUS _ _ leo => leo | _ => [] end.
Definition Start_Earleme_of_ALT r (alt : ALT) : res Z := ys ← YS_by_ID r (Start_YS_of_ALT alt); Ok (Earleme_of_YS ys).
End recce.

(** ** Vectors without a header *)

Definition lbv_bit_clear (lbv : Bit_Vector) (raw_bit : Z) : res Bit_Vector :=
  let bit := to_uint raw_bit in
  let p := bv_base lbv + bit / bv_wordbits in
  w ← rd (bv_words lbv) p;
  l ← wr (bv_words lbv) p (Z.land w (lbw_not (lbw_shl bv_lsb (bit mod bv_wordbits))));
  Ok (bv_set_words lbv l).

Definition lbv_bit_test (lbv : Bit_Vector) (raw_bit : Z) : res bool :=
  let bit := to_uint raw_bit in
  w ← rd (bv_words lbv) (bv_base lbv + bit / bv_wordbits);
  Ok (negb (Z.land w (lbw_shl bv_lsb (bit mod bv_wordbits)) =? 0)).
