(* ===== verification/Earley.v ===== *)
(** * The recognizer: its operations ([libmarpa-dist/marpa.c])

    Earley sets and items with their sources, the tokens that end later, the postdot and Leo
    items, the events; [marpa_r_new], [marpa_r_start_input], [marpa_r_alternative],
    [marpa_r_earleme_complete]. *)
From S2P Require Import Prelude Avl Dstack BitVector Matrix Cil MarpaH MarpaGrammar MarpaRules Census Rewrite Items Recce.

Section earley.
Context `{Library}.
Context (junk : nat -> list Z).
Implicit Types (r : RECCE) (yim : YIM).

(** ** Lookup arrays of the Earley sets *)

Definition psl_new (psl_length : Z) : PSL := MkPSL None (replicate (Z.to_nat psl_length) None).
Definition psar_safe : PSAR := MkPSAR 0 [] None.
Definition psar_init (length : Z) : PSAR := MkPSAR length [psl_new length] (Some 0).

Definition upd_psl (psar : PSAR) (psl : Z) (f : PSL -> PSL) : res PSAR :=
  x ← rd (t_psls psar) psl; l ← wr (t_psls psar) psl (f x); Ok (MkPSAR (t_psl_length psar) l (t_first_free_psl psar)).

(** [dealloc_loop]: from an array, and up to the first that has no owner. *)
Fixpoint dealloc_loop (rounds : nat) (psl : Z) r : res RECCE :=
  match t_psls (t_dot_psar_object r) !! Z.to_nat psl, rounds with
  | None, _ => Ok r
  | Some _, O => NoFuel
  | Some x, S rounds =>
    match t_owner x with
    | None => Ok r
    | Some owner =>
      r ← upd_ys r owner (set_Dot_PSL_of_YS None);
      psar ← upd_psl (t_dot_psar_object r) psl (fun x => MkPSL None (t_data x));
      dealloc_loop rounds (psl + 1) (set_t_dot_psar_object psar r)
    end
  end.

Definition psar_dealloc r : res RECCE :=
  r ← dealloc_loop (length (t_psls (t_dot_psar_object r))) 0 r;
  let psar := t_dot_psar_object r in
  Ok (set_t_dot_psar_object (MkPSAR (t_psl_length psar) (t_psls psar) (match t_psls psar with [] => None | _ => Some 0 end)) r).

(** The arrays in use are emptied. *)
Fixpoint reset_psls (psl_length : Z) (l : list PSL) : list PSL :=
  match l with
  | x :: l => match t_owner x with None => x :: l | Some o => MkPSL (Some o) (replicate (Z.to_nat psl_length) None) :: reset_psls psl_length l end
  | [] => []
  end.
Definition psar_reset r : res RECCE :=
  let psar := t_dot_psar_object r in
  psar_dealloc (set_t_dot_psar_object (MkPSAR (t_psl_length psar) (reset_psls (t_psl_length psar) (t_psls psar)) (t_first_free_psl psar)) r).

(** A null [t_first_free_psl] is dereferenced; the array after the free one is made when there
    is none. *)
Definition psl_alloc (psar : PSAR) : res (Z * PSAR) :=
  free_psl ← written (t_first_free_psl psar);
  let psls := t_psls psar in
  let psls := if free_psl + 1 <? Z.of_nat (length psls) then psls else psls ++ [psl_new (t_psl_length psar)] in
  Ok (free_psl, MkPSAR (t_psl_length psar) psls (Some (free_psl + 1))).

Definition psl_claim r (ys : Z) : res RECCE :=
  x ← psl_alloc (t_dot_psar_object r);
  r ← upd_ys (set_t_dot_psar_object x.2 r) ys (set_Dot_PSL_of_YS (Some x.1));
  psar ← upd_psl (t_dot_psar_object r) x.1 (fun p => MkPSL (Some ys) (t_data p));
  Ok (set_t_dot_psar_object psar r).

(** [PSL_Datum(psl, i)] *)
Definition PSL_Datum r (psl i : Z) : res (option Z) := x ← rd (t_psls (t_dot_psar_object r)) psl; rd (t_data x) i.
Definition set_PSL_Datum r (psl i : Z) (v : option Z) : res RECCE :=
  x ← rd (t_psls (t_dot_psar_object r)) psl;
  l ← wr (t_data x) i v;
  psar ← upd_psl (t_dot_psar_object r) psl (fun x => MkPSL (t_owner x) l);
  Ok (set_t_dot_psar_object psar r).

(** ** Earley sets and items *)

Definition earley_set_new r (id : Z) : Z * RECCE :=
  let set := MkYS id None None None None 0 0 (t_earley_set_count r) (-1) None in
  (Z.of_nat (length (t_sets r)), set_t_earley_set_count (t_earley_set_count r + 1) (set_t_sets (t_sets r ++ [set]) r)).

(** The stack has been initialised. *)
Definition work_yim_push r (yim : Z) : res RECCE := work ← written (t_yim_work_stack r); Ok (set_t_yim_work_stack (Some (work ++ [yim])) r).

Definition earley_item_create r (ahm_id origin set : Z) : res (option Z * RECCE) :=
  ys ← YS_by_ID r set;
  let count := YIM_Count_of_YS ys + 1 in
  r ← upd_ys r set (set_YIM_Count_of_YS count);
  if (count >=? t_earley_item_warning_threshold r) && (count >=? YIM_FATAL_THRESHOLD) then
    Ok (None, upd_G_of_R (fun g => set_error g MARPA_ERR_YIM_COUNT None true) r)
  else
    let r := if count >=? t_earley_item_warning_threshold r then upd_G_of_R (fun g => int_event_new g MARPA_EVENT_EARLEY_ITEM_THRESHOLD count) r else r in
    let new_item := MkYIM ahm_id origin set (YIM_ORDINAL_CLAMP (to_uint (to_uint count - 1))) false true None None NO_SOURCE in
    let id := Z.of_nat (length (t_yims r)) in
    r ← work_yim_push (set_t_yims (t_yims r ++ [new_item]) r) id;
    Ok (Some id, r).

(** Whether an item that was looked up is the one sought. *)
Definition yim_matches r (set origin yim_id : Z) : res bool :=
  yim ← YIM_by_ID r yim_id;
  at_ ← Earleme_of_YIM r yim;
  ys ← YS_by_ID r set;
  from ← YS_by_ID r (Origin_of_YIM yim);
  origin ← YS_by_ID r origin;
  Ok ((at_ =? Earleme_of_YS ys) && (Earleme_of_YS from =? Earleme_of_YS origin)).

Definition earley_item_assign r (set origin ahm_id : Z) : res (option Z * RECCE) :=
  ys ← YS_by_ID r origin;
  r ← (match Dot_PSL_of_YS ys with None => psl_claim r origin | Some _ => Ok r end);
  ys ← YS_by_ID r origin;
  psl ← written (Dot_PSL_of_YS ys);
  yim ← PSL_Datum r psl ahm_id;
  found ← (match yim with None => Ok false | Some id => yim_matches r set origin id end);
  if found : bool then Ok (yim, r)
  else
    x ← earley_item_create r ahm_id origin set;
    r ← set_PSL_Datum x.2 psl ahm_id x.1;
    Ok (x.1, r).

(** ** Postdot items *)

(** [rounds] bounds the number of trials. *)
Fixpoint pim_search (rounds : nat) r (postdot_array : list Z) (nsyid lo hi : Z) : res (option Z) :=
  if hi <? lo then Ok None
  else
    match rounds with
    | O => NoFuel
    | S rounds =>
      let trial := lo + Z.quot (hi - lo) 2 in
      trial_id ← rd postdot_array trial;
      trial_pim ← PIM_by_ID r trial_id;
      let trial_nsyid := Postdot_NSYID_of_PIM trial_pim in
      if trial_nsyid =? nsyid then Ok (Some trial)
      else if trial_nsyid <? nsyid then pim_search rounds r postdot_array nsyid (trial + 1) hi
      else pim_search rounds r postdot_array nsyid lo (trial - 1)
    end.

(** The index in the array of the set. *)
Definition pim_nsy_p_find r (set nsyid : Z) : res (option Z) :=
  ys ← YS_by_ID r set;
  if Postdot_SYM_Count_of_YS ys - 1 <? 0 then Ok None
  else
    postdot_array ← written (t_postdot_ary ys);
    pim_search (length postdot_array) r postdot_array nsyid 0 (Postdot_SYM_Count_of_YS ys - 1).

Definition first_pim_of_ys_by_nsyid r (set nsyid : Z) : res (option Z) :=
  pim_nsy_p ← pim_nsy_p_find r set nsyid;
  match pim_nsy_p with
  | None => Ok None
  | Some ix => ys ← YS_by_ID r set; postdot_array ← written (t_postdot_ary ys); pim ← rd postdot_array ix; Ok (Some pim)
  end.

(** [for(; pim; pim = Next_PIM_of_PIM(pim))]; the body tells whether the loop goes on. *)
Fixpoint each_pim (rounds : nat) (pim : option Z) (body : PIM -> Z -> RECCE -> res (bool * RECCE)) r : res RECCE :=
  match pim with
  | None => Ok r
  | Some id =>
    match rounds with
    | O => NoFuel
    | S rounds =>
      x ← PIM_by_ID r id;
      c ← body x id r;
      if c.1 : bool then x ← PIM_by_ID c.2 id; each_pim rounds (Next_PIM_of_PIM x) body c.2 else Ok c.2
    end
  end.

(** ** Sources *)

Definition unique_srcl (predecessor : Z) (cause : CAUSE) : SRCL := MkSRCL predecessor cause false true.

Definition earley_item_ambiguate (s : SOURCE) : SOURCE :=
  match s with
  | SOURCE_IS_TOKEN l => SOURCE_IS_AMBIGUOUS [l] [] []
  | SOURCE_IS_COMPLETION l => SOURCE_IS_AMBIGUOUS [] [l] []
  | SOURCE_IS_LEO l => SOURCE_IS_AMBIGUOUS [] [] [l]
  | _ => s
  end.

Definition tkn_link (l : SRCL) (s : SOURCE) : SOURCE :=
  match s with
  | NO_SOURCE => SOURCE_IS_TOKEN l
  | _ => match earley_item_ambiguate s with SOURCE_IS_AMBIGUOUS token completion leo => SOURCE_IS_AMBIGUOUS (l :: token) completion leo | s => s end
  end.
Definition completion_link (l : SRCL) (s : SOURCE) : SOURCE :=
  match s with
  | NO_SOURCE => SOURCE_IS_COMPLETION l
  | _ => match earley_item_ambiguate s with SOURCE_IS_AMBIGUOUS token completion leo => SOURCE_IS_AMBIGUOUS token (l :: completion) leo | s => s end
  end.
Definition leo_link (l : SRCL) (s : SOURCE) : SOURCE :=
  match s with
  | NO_SOURCE => SOURCE_IS_LEO l
  | _ => match earley_item_ambiguate s with SOURCE_IS_AMBIGUOUS token completion leo => SOURCE_IS_AMBIGUOUS token completion (l :: leo) | s => s end
  end.

Definition add_link (f : SOURCE -> SOURCE) r (item : Z) : res RECCE := upd_yim r item (fun y => set_t_container (f (t_container y)) y).
Definition tkn_link_add r (item predecessor : Z) (alternative : ALT) : res RECCE :=
  add_link (tkn_link (unique_srcl predecessor (Token (NSYID_of_ALT alternative) (Value_of_ALT alternative)))) r item.
Definition completion_link_add r (item predecessor cause : Z) : res RECCE := add_link (completion_link (unique_srcl predecessor (Completion cause))) r item.
Definition leo_link_add r (item predecessor cause : Z) : res RECCE := add_link (leo_link (unique_srcl predecessor (Completion cause))) r item.

(** ** Tokens *)

Definition alternative_cmp r (a b : ALT) : res Z :=
  let subkey := End_Earleme_of_ALT b - End_Earleme_of_ALT a in
  if negb (subkey =? 0) then Ok subkey
  else
    let subkey := NSYID_of_ALT a - NSYID_of_ALT b in
    if negb (subkey =? 0) then Ok subkey
    else start_a ← Start_Earleme_of_ALT r a; start_b ← Start_Earleme_of_ALT r b; Ok (start_a - start_b).

Fixpoint insertion_loop (rounds : nat) r (new_alternative : ALT) (lo hi : Z) : res Z :=
  match rounds with
  | O => NoFuel
  | S rounds =>
    let trial := lo + Z.quot (hi - lo) 2 in
    alternative ← rd (t_alternatives r) trial;
    outcome ← alternative_cmp r new_alternative alternative;
    if outcome =? 0 then Ok (-1)
    else
      let lo := if outcome >? 0 then trial + 1 else lo in
      let hi := if outcome >? 0 then hi else trial - 1 in
      if hi <? lo then Ok (if outcome >? 0 then trial + 1 else trial) else insertion_loop rounds r new_alternative lo hi
  end.

Definition alternative_insertion_point r (new_alternative : ALT) : res Z :=
  let hi := Z.of_nat (length (t_alternatives r)) - 1 in
  if hi <? 0 then Ok 0 else insertion_loop (length (t_alternatives r)) r new_alternative 0 hi.

Definition alternative_pop r (earleme : Z) : option ALT * RECCE :=
  match list.last (t_alternatives r) with
  | None => (None, r)
  | Some end_of_stack =>
    if earleme <? End_Earleme_of_ALT end_of_stack then (None, r)
    else (Some end_of_stack, set_t_alternatives (take (length (t_alternatives r) - 1) (t_alternatives r)) r)
  end.

(** The items from the insertion point on are moved up by one. *)
Definition alternative_insert r (new_alternative : ALT) : res (Z * RECCE) :=
  insertion_point ← alternative_insertion_point r new_alternative;
  if insertion_point <? 0 then Ok (insertion_point, r)
  else
    let n := Z.to_nat insertion_point in
    Ok (insertion_point, set_t_alternatives (take n (t_alternatives r) ++ new_alternative :: drop n (t_alternatives r)) r).

(** ** Zero-width assertions *)

Fixpoint evaluate_zwas_loop (n : nat) r (ysid : Z) (zwa_cil : CIL) (cil_ix : Z) : res (bool * RECCE) :=
  match n with
  | O => Ok (true, r)
  | S n =>
    zwaid ← Item_of_CIL zwa_cil cil_ix;
    zwa ← rd (t_zwas r) zwaid;
    if Memo_YSID_of_ZWA zwa =? ysid then
      if Memo_Value_of_ZWA zwa then evaluate_zwas_loop n r ysid zwa_cil (cil_ix + 1) else Ok (false, r)
    else
      let value := Default_Value_of_ZWA zwa in
      l ← wr (t_zwas r) zwaid (MkZWA (ID_of_ZWA zwa) ysid value value);
      let r := set_t_zwas l r in
      if value then evaluate_zwas_loop n r ysid zwa_cil (cil_ix + 1) else Ok (false, r)
  end.

Definition evaluate_zwas r (ysid ahm_id : Z) : res (bool * RECCE) :=
  ahm ← AHM_by_ID (t_tables r) ahm_id;
  zwa_cil ← written (ZWA_CIL_of_AHM ahm);
  cil_count ← Count_of_CIL zwa_cil;
  evaluate_zwas_loop (Z.to_nat cil_count) r ysid zwa_cil 0.

(** ** Leo items *)

Definition workarea_read r (nsyid : Z) : res Z := o ← rd (t_pim_workarea r) nsyid; written o.
Definition bv_of (o : option Bit_Vector) : res Bit_Vector := written o.
Definition lim_by_id r (pim : Z) : res LIM := x ← PIM_by_ID r pim; LIM_of_PIM x.

(** [bv_bit_set] on a vector of the recognizer. *)
Definition add_pim_symbol r (nsyid : Z) : res RECCE :=
  v ← bv_of (t_bv_pim_symbols r); v ← bv_bit_set v nsyid; Ok (set_t_bv_pim_symbols (Some v) r).
Definition add_lim_symbol r (nsyid : Z) : res RECCE :=
  v ← bv_of (t_bv_lim_symbols r); v ← bv_bit_set v nsyid; Ok (set_t_bv_lim_symbols (Some v) r).

(** One postdot item for each item that expects a symbol. *)
Definition yix_create (set yim_id : Z) r : res RECCE :=
  earley_item ← YIM_by_ID r yim_id;
  ahm ← AHM_of r earley_item;
  let postdot_nsyid := Postdot_NSYID_of_AHM ahm in
  if postdot_nsyid <? 0 then Ok r
  else
    v ← bv_of (t_bv_pim_symbols r);
    seen ← bv_bit_test v postdot_nsyid;
    old_pim ← (if seen : bool then rd (t_pim_workarea r) postdot_nsyid else Ok None);
    let new_pim := Z.of_nat (length (t_pims r)) in
    let r := set_t_pims (t_pims r ++ [PIM_of_YIX (MkYIX old_pim postdot_nsyid (Some yim_id))]) r in
    r ← (match old_pim with None => upd_ys r set (fun y => set_Postdot_SYM_Count_of_YS (Postdot_SYM_Count_of_YS y + 1) y) | Some _ => Ok r end);
    l ← wr (t_pim_workarea r) postdot_nsyid (Some new_pim);
    add_pim_symbol (set_t_pim_workarea l r) postdot_nsyid.

Definition start_yixes r (set : Z) : res RECCE :=
  work ← written (t_yim_work_stack r);
  each_res work (yix_create set) r.

(** [IRL_is_Leo(irl)] *)
Definition IRL_is_Leo r (irl_id : Z) : res bool := x ← irl_table (t_tables r) irl_id; Ok (IRL_is_Right_Recursive x).

Definition lim_create (set nsyid : Z) r : res RECCE :=
  this ← workarea_read r nsyid;
  this_pim ← PIM_by_ID r this;
  match Next_PIM_of_PIM this_pim with
  | Some _ => Ok r
  | None =>
    leo_base ← written (YIM_of_PIM this_pim);
    yim ← YIM_by_ID r leo_base;
    leo_base_ahm ← AHM_of r yim;
    leo ← IRL_is_Leo r (IRL_of_AHM leo_base_ahm);
    if negb leo then Ok r
    else
      let trailhead_id := AHM_of_YIM yim + 1 in
      trailhead_ahm ← AHM_by_ID (t_tables r) trailhead_id;
      leo ← AHM_is_Leo_Completion (t_tables r) trailhead_ahm;
      if negb leo then Ok r
      else
        let new_lim := Z.of_nat (length (t_pims r)) in
        let lim := MkLIM (MkYIX (Some this) nsyid None) None None trailhead_id trailhead_id None leo_base set true true in
        let r := set_t_pims (t_pims r ++ [PIM_of_LIM lim]) r in
        l ← wr (t_pim_workarea r) nsyid (Some new_lim);
        add_lim_symbol (set_t_pim_workarea l r) nsyid
  end.

(** For each symbol that has a postdot item. *)
Definition start_lims r (set : Z) : res RECCE :=
  v ← bv_of (t_bv_pim_symbols r);
  x ← bv_for_each (nsy_count (t_tables r)) v 0 (lim_create set) r;
  Ok (set_t_bv_pim_symbols (Some x.1) x.2).

(** The Leo item that the base of a Leo item waits for, if it is one. *)
Definition find_predecessor_lim r (set lim_to_process : Z) : res (option Z) :=
  lim ← lim_by_id r lim_to_process;
  base_yim ← YIM_by_ID r (Trailhead_YIM_of_LIM lim);
  predecessor_set ← YS_by_ID r (Origin_of_YIM base_yim);
  trailhead_ahm ← AHM_by_ID (t_tables r) (Trailhead_AHM_of_LIM lim);
  predecessor_transition_nsyid ← LHSID_of_AHM (t_tables r) trailhead_ahm;
  current_earley_set ← YS_by_ID r set;
  predecessor_pim ← (if Ord_of_YS predecessor_set <? Ord_of_YS current_earley_set then
                       o ← first_pim_of_ys_by_nsyid r (Origin_of_YIM base_yim) predecessor_transition_nsyid; written o
                     else workarea_read r predecessor_transition_nsyid);
  pim ← PIM_by_ID r predecessor_pim;
  Ok (if PIM_is_LIM pim then Some predecessor_pim else None).

Definition populate_from_base r (lim_to_process : Z) : res RECCE :=
  lim ← lim_by_id r lim_to_process;
  trailhead_ahm ← AHM_by_ID (t_tables r) (Trailhead_AHM_of_LIM lim);
  base_yim ← YIM_by_ID r (Trailhead_YIM_of_LIM lim);
  upd_lim r lim_to_process (fun l => set_CIL_of_LIM (Event_AHMIDs_of_AHM trailhead_ahm) (set_Origin_of_LIM (Some (Origin_of_YIM base_yim)) l)).

Definition populate_from_predecessor r (lim_to_process predecessor_lim : Z) : res RECCE :=
  predecessor ← lim_by_id r predecessor_lim;
  let new_top_ahm := Top_AHM_of_LIM predecessor in
  predecessor_cil ← written (CIL_of_LIM predecessor);
  r ← upd_lim r lim_to_process (fun l => set_Origin_of_LIM (Origin_of_LIM predecessor) (set_Predecessor_LIM_of_LIM (Some predecessor_lim) (set_CIL_of_LIM (Some predecessor_cil) l)));
  top_ahm ← AHM_by_ID (t_tables r) new_top_ahm;
  count ← Count_of_CIL predecessor_cil;
  r ← (if Event_Group_Size_of_AHM top_ahm >? count then
         lim ← lim_by_id r lim_to_process;
         trailhead_ahm ← AHM_by_ID (t_tables r) (Trailhead_AHM_of_LIM lim);
         trailhead_ahm_event_ahmids ← written (Event_AHMIDs_of_AHM trailhead_ahm);
         count ← Count_of_CIL trailhead_ahm_event_ahmids;
         if negb (count =? 0) then
           event_ahmid ← Item_of_CIL trailhead_ahm_event_ahmids 0;
           x ← cil_merge_one tree_rounds (cilar_of (t_tables r)) predecessor_cil event_ahmid;
           let r := set_t_tables (set_cilar x.2 (t_tables r)) r in
           match x.1 with
           | Some new_cil => upd_lim r lim_to_process (set_CIL_of_LIM (Some new_cil))
           | None => Ok r
           end
         else Ok r
       else Ok r);
  upd_lim r lim_to_process (set_Top_AHM_of_LIM new_top_ahm).

Definition lim_is_populated r (lim : Z) : res bool := l ← lim_by_id r lim; Ok (LIM_is_Populated l).
(** [predecessor_lim && LIM_is_Populated(predecessor_lim)] *)
Definition populated_predecessor r (predecessor_lim : option Z) : res bool :=
  match predecessor_lim with None => Ok false | Some p => lim_is_populated r p end.

Definition lim_chain_push r (lim_chain_ix lim_to_process : Z) : res RECCE := l ← wr (t_lim_chain r) lim_chain_ix (Some lim_to_process); Ok (set_t_lim_chain l r).

(** The Leo items that wait for each other, from [predecessor_lim] on: the loop ends at one
    that has been seen, at an item that waits for none, or at a populated one.  A round marks
    a symbol as seen. *)
Fixpoint lim_chain_loop (rounds : nat) r (set : Z) (bv_ok_for_chain : Bit_Vector) (lim_chain_ix predecessor_lim : Z)
    : res (RECCE * Bit_Vector * Z * option Z) :=
  let lim_to_process := predecessor_lim in
  lim ← lim_by_id r lim_to_process;
  let postdot_nsyid_of_lim_to_process := Postdot_NSYID_of_YIX (YIX_of_LIM lim) in
  ok ← bv_bit_test bv_ok_for_chain postdot_nsyid_of_lim_to_process;
  if negb ok then Ok (r, bv_ok_for_chain, lim_chain_ix, Some predecessor_lim)
  else
    match rounds with
    | O => NoFuel
    | S rounds =>
      predecessor_lim ← find_predecessor_lim r set lim_to_process;
      r ← lim_chain_push r lim_chain_ix lim_to_process;
      bv_ok_for_chain ← bv_bit_clear bv_ok_for_chain postdot_nsyid_of_lim_to_process;
      match predecessor_lim with
      | None => Ok (r, bv_ok_for_chain, lim_chain_ix + 1, None)
      | Some p =>
        populated ← lim_is_populated r p;
        if populated : bool then Ok (r, bv_ok_for_chain, lim_chain_ix + 1, Some p)
        else lim_chain_loop rounds r set bv_ok_for_chain (lim_chain_ix + 1) p
      end
    end.

(** From the last of the chain to the first. *)
Definition populate_chain r (lim_chain_ix : Z) (predecessor_lim : option Z) : res RECCE :=
  x ← for_res (Z.to_nat lim_chain_ix) 0 (fun i c =>
        let '(r, predecessor_lim) := c in
        o ← rd (t_lim_chain r) (lim_chain_ix - 1 - i);
        lim_to_process ← written o;
        populated ← populated_predecessor r predecessor_lim;
        r ← (match predecessor_lim with
             | Some p => if populated : bool then populate_from_predecessor r lim_to_process p else populate_from_base r lim_to_process
             | None => populate_from_base r lim_to_process
             end);
        Ok (r, Some lim_to_process)) (r, predecessor_lim);
  Ok x.1.

Definition populate_lim (set main_loop_nsyid : Z) (c : RECCE * Bit_Vector) : res (RECCE * Bit_Vector) :=
  let '(r, bv_ok_for_chain) := c in
  lim_to_process ← workarea_read r main_loop_nsyid;
  populated ← lim_is_populated r lim_to_process;
  if populated : bool then Ok (r, bv_ok_for_chain)
  else
    predecessor_lim ← find_predecessor_lim r set lim_to_process;
    match predecessor_lim with
    | None => r ← populate_from_base r lim_to_process; Ok (r, bv_ok_for_chain)
    | Some p =>
      populated ← lim_is_populated r p;
      if populated : bool then r ← populate_from_predecessor r lim_to_process p; Ok (r, bv_ok_for_chain)
      else
        lim ← lim_by_id r lim_to_process;
        r ← lim_chain_push r 0 lim_to_process;
        bv_ok_for_chain ← bv_bit_clear bv_ok_for_chain (Postdot_NSYID_of_YIX (YIX_of_LIM lim));
        x ← lim_chain_loop (nsy_count (t_tables r)) r set bv_ok_for_chain 1 p;
        let '(r, bv_ok_for_chain, lim_chain_ix, predecessor_lim) := x in
        r ← populate_chain r lim_chain_ix predecessor_lim;
        Ok (r, bv_ok_for_chain)
    end.

Definition add_predecessors r (bv_ok_for_chain : Bit_Vector) (set : Z) : res RECCE :=
  v ← bv_of (t_bv_lim_symbols r);
  bv_ok_for_chain ← bv_copy bv_ok_for_chain v;
  x ← bv_for_each (nsy_count (t_tables r)) v 0 (populate_lim set) (r, bv_ok_for_chain);
  Ok (set_t_bv_lim_symbols (Some x.1) x.2.1).

(** The array of the set, in the order of the symbols; the events of expected symbols. *)
Definition copy_pim (nsyid : Z) (c : RECCE * list Z) : res (RECCE * list Z) :=
  let '(r, postdot_array) := c in
  this_pim ← rd (t_pim_workarea r) nsyid;
  event ← lbv_bit_test (t_nsy_expected_is_event r) nsyid;
  r ← (if event : bool then
         nsy ← NSY_by_ID (t_internal (t_tables r)) nsyid;
         xsyid ← deref (Source_XSY_of_NSY nsy);
         Ok (upd_G_of_R (fun g => int_event_new g MARPA_EVENT_SYMBOL_EXPECTED xsyid) r)
       else Ok r);
  Ok (r, postdot_array ++ option_list this_pim).

(** The array has a cell for each symbol counted; writing another is out of it. *)
Definition copy_pims r (set : Z) : res RECCE :=
  v ← bv_of (t_bv_pim_symbols r);
  x ← bv_for_each (nsy_count (t_tables r)) v 0 copy_pim (r, []);
  let '(r, postdot_array) := x.2 in
  let r := set_t_bv_pim_symbols (Some x.1) r in
  ys ← YS_by_ID r set;
  if Postdot_SYM_Count_of_YS ys <? Z.of_nat (length postdot_array) then Fault
  else upd_ys r set (set_t_postdot_ary (Some postdot_array)).

Definition postdot_items_create r (bv_ok_for_chain : Bit_Vector) (set : Z) : res RECCE :=
  v ← bv_of (t_bv_lim_symbols r); v ← bv_clear v;
  let r := set_t_bv_lim_symbols (Some v) r in
  v ← bv_of (t_bv_pim_symbols r); v ← bv_clear v;
  let r := set_t_bv_pim_symbols (Some v) r in
  r ← start_yixes r set;
  r ← (if t_is_using_leo r then r ← start_lims r set; add_predecessors r bv_ok_for_chain set else Ok r);
  r ← copy_pims r set;
  v ← bv_of (t_bv_pim_symbols r);
  terminals ← bv_of (t_bv_nsyid_is_terminal (t_tables r));
  v ← bv_and (t_bv_nsyid_is_expected r) v terminals;
  Ok (set_t_bv_nsyid_is_expected v r).

(** ** The steps of [marpa_r_earleme_complete] *)

(** The token is read: each item that expects it moves on. *)
Definition scan_pim (set : Z) (alternative : ALT) (pim : PIM) (_ : Z) r : res (bool * RECCE) :=
  match YIM_of_PIM pim with
  | None => Ok (true, r)
  | Some predecessor =>
    yim ← YIM_by_ID r predecessor;
    if negb (YIM_is_Active yim) then Ok (true, r)
    else
      x ← earley_item_assign r set (Origin_of_YIM yim) (AHM_of_YIM yim + 1);
      scanned_earley_item ← written x.1;
      r ← upd_yim x.2 scanned_earley_item (set_YIM_was_Scanned (Some true));
      r ← tkn_link_add r scanned_earley_item predecessor alternative;
      Ok (true, r)
  end.

(** A round for each token. *)
Fixpoint scan_tokens (rounds : nat) r (set current_earleme : Z) : res RECCE :=
  match alternative_pop r current_earleme with
  | (None, r) => Ok r
  | (Some alternative, r) =>
    match rounds with
    | O => NoFuel
    | S rounds =>
      pim ← first_pim_of_ys_by_nsyid r (Start_YS_of_ALT alternative) (NSYID_of_ALT alternative);
      r ← each_pim (length (t_pims r)) pim (scan_pim set alternative) r;
      scan_tokens rounds r set current_earleme
    end
  end.

Definition completion_push r (yim : Z) : res RECCE := l ← written (t_completion_stack r); Ok (set_t_completion_stack (Some (l ++ [yim])) r).
Definition completion_pop r : res (option Z * RECCE) :=
  l ← written (t_completion_stack r);
  Ok (list.last l, set_t_completion_stack (Some (take (length l - 1) l)) r).

Definition start_completions r : res RECCE :=
  work ← written (t_yim_work_stack r);
  _ ← written (t_completion_stack r);
  each_res work (fun id r =>
    earley_item ← YIM_by_ID r id;
    b ← YIM_is_Completion r earley_item;
    if negb b then Ok r else completion_push r id) (set_t_completion_stack (Some []) r).

Definition complete_pim (set cause : Z) (postdot_item : PIM) (pim : Z) r : res (bool * RECCE) :=
  match YIM_of_PIM postdot_item with
  | None =>
    leo_item ← LIM_of_PIM postdot_item;
    if negb (LIM_is_Active leo_item) then Ok (true, r)
    else
      origin ← written (Origin_of_LIM leo_item);
      x ← earley_item_assign r set origin (Top_AHM_of_LIM leo_item);
      effect ← written x.1;
      r ← upd_yim x.2 effect (set_YIM_was_Fusion (Some true));
      yim ← YIM_by_ID r effect;
      r ← (if Earley_Item_has_No_Source yim then completion_push r effect else Ok r);
      r ← leo_link_add r effect pim cause;
      Ok (false, r)
  | Some predecessor =>
    yim ← YIM_by_ID r predecessor;
    if negb (YIM_is_Active yim) then Ok (true, r)
    else
      x ← earley_item_assign r set (Origin_of_YIM yim) (AHM_of_YIM yim + 1);
      effect ← written x.1;
      r ← upd_yim x.2 effect (set_YIM_was_Fusion (Some true));
      yim ← YIM_by_ID r effect;
      r ← (if Earley_Item_has_No_Source yim then
             b ← YIM_is_Completion r yim;
             if b : bool then completion_push r effect else Ok r
           else Ok r);
      r ← completion_link_add r effect predecessor cause;
      Ok (true, r)
  end.

Definition complete_yim (set cause : Z) r : res RECCE :=
  yim ← YIM_by_ID r cause;
  b ← (if YIM_is_Active yim then YIM_is_Completion r yim else Ok false);
  if b : bool then
    complete_nsyid ← LHS_NSYID_of_YIM r yim;
    pim ← first_pim_of_ys_by_nsyid r (Origin_of_YIM yim) complete_nsyid;
    each_pim (length (t_pims r)) pim (complete_pim set cause) r
  else Ok r.

Fixpoint complete_loop (rounds : nat) r (set : Z) : res RECCE :=
  x ← completion_pop r;
  match x.1 with
  | None => Ok x.2
  | Some cause =>
    match rounds with
    | O => NoFuel
    | S rounds => r ← complete_yim set cause x.2; complete_loop rounds r set
    end
  end.
(** An item is pushed once, and no set has more items than this. *)
Definition complete_rounds : nat := Z.to_nat YIM_FATAL_THRESHOLD.

(** The first item of a rule. *)
Definition first_ahm r (irlid : Z) : res Z := x ← irl_table (t_tables r) irlid; written (First_AHM_of_IRL x).

(** The items predicted by those on the work stack when the loop starts. *)
Definition predict r (set : Z) : res RECCE :=
  work ← written (t_yim_work_stack r);
  for_res (length work) 0 (fun ix r =>
    work ← written (t_yim_work_stack r);
    id ← rd work ix;
    earley_item ← YIM_by_ID r id;
    ahm ← AHM_of r earley_item;
    prediction_cil ← written (Predicted_IRL_CIL_of_AHM ahm);
    prediction_count ← Count_of_CIL prediction_cil;
    for_res (Z.to_nat prediction_count) 0 (fun cil_ix r =>
      prediction_irlid ← Item_of_CIL prediction_cil cil_ix;
      prediction_ahm ← first_ahm r prediction_irlid;
      x ← earley_item_assign r set set prediction_ahm;
      Ok x.2) r) r.

Definition earley_set_update_items r (set : Z) : res RECCE :=
  ys ← YS_by_ID r set;
  work ← written (t_yim_work_stack r);
  finished_earley_items ← each_res work (fun id l => yim ← YIM_by_ID r id; wr l (Ord_of_YIM yim) (Some id)) (replicate (Z.to_nat (YIM_Count_of_YS ys)) None);
  r ← upd_ys r set (set_YIMs_of_YS (Some finished_earley_items));
  Ok (set_t_yim_work_stack (Some []) r).

(** ** Events *)

Definition cil_each {A} (cil : CIL) (body : Z -> A -> res A) (acc : A) : res A :=
  count ← Count_of_CIL cil;
  for_res (Z.to_nat count) 0 (fun cil_ix acc => x ← Item_of_CIL cil cil_ix; body x acc) acc.

Definition set_bits (cil : CIL) (v : Bit_Vector) : res Bit_Vector := cil_each cil (fun x v => bv_bit_set v x) v.

(** The items that have an event: those of the set, and those that Leo items skipped. *)
Definition trigger_yim r (yim_id : Z) (v : Bit_Vector) : res Bit_Vector :=
  yim ← YIM_by_ID r yim_id;
  root_ahm ← AHM_of r yim;
  event ← AHM_has_Event root_ahm;
  v ← (if event : bool then bv_bit_set v (AHM_of_YIM yim) else Ok v);
  each_res (First_Leo_SRCL_of_YIM yim) (fun setup_source_link v =>
    lim ← lim_by_id r (Predecessor_of_SRCL setup_source_link);
    event_ahmids ← written (CIL_of_LIM lim);
    set_bits event_ahmids v) v.

Definition trigger_ahms r (latest : Z) : res Bit_Vector :=
  ahm_count ← AHM_Count_of_G (t_tables r);
  v ← bv_obs_create (junk 19%nat) ahm_count;
  current_earley_set ← YS_by_ID r latest;
  for_res (Z.to_nat (YIM_Count_of_YS current_earley_set)) 0 (fun yim_ix v =>
    yims ← written (YIMs_of_YS current_earley_set);
    o ← rd yims yim_ix;
    yim_id ← written o;
    trigger_yim r yim_id v) v.

(** The events of a kind that are active. *)
Definition trigger_active (type : Z) (active : RECCE -> option Bit_Vector) (v : Bit_Vector) r : res RECCE :=
  x ← bv_for_each (xsy_count (t_tables r)) v 0 (fun event_xsyid r =>
        is_active ← bv_of (active r);
        b ← lbv_bit_test is_active event_xsyid;
        Ok (if b : bool then upd_G_of_R (fun g => int_event_new g type event_xsyid) r else r)) r;
  Ok x.2.

Definition trigger_events r : res RECCE :=
  latest ← written (t_latest_earley_set r);
  let n := XSY_Count_of_G (G_of_R r) in
  completion ← bv_obs_create (junk 16%nat) n;
  nulled ← bv_obs_create (junk 17%nat) n;
  prediction ← bv_obs_create (junk 18%nat) n;
  ahms ← trigger_ahms r latest;
  ahm_count ← AHM_Count_of_G (t_tables r);
  x ← bv_for_each (Z.to_nat ahm_count) ahms 0 (fun event_ahmid c =>
        let '(completion, nulled, prediction) := c in
        event_ahm ← AHM_by_ID (t_tables r) event_ahmid;
        completion_xsyids ← written (Completion_XSYIDs_of_AHM event_ahm);
        completion ← set_bits completion_xsyids completion;
        nulled_xsyids ← written (Nulled_XSYIDs_of_AHM event_ahm);
        nulled ← set_bits nulled_xsyids nulled;
        prediction_xsyids ← written (Prediction_XSYIDs_of_AHM event_ahm);
        prediction ← set_bits prediction_xsyids prediction;
        Ok (completion, nulled, prediction)) (completion, nulled, prediction);
  let '(completion, nulled, prediction) := x.2 in
  r ← trigger_active MARPA_EVENT_SYMBOL_COMPLETED t_completion_event_is_active completion r;
  r ← trigger_active MARPA_EVENT_SYMBOL_NULLED t_nulled_event_is_active nulled r;
  trigger_active MARPA_EVENT_SYMBOL_PREDICTED t_prediction_event_is_active prediction r.

(** ** The calls *)

(** [G_EVENTS_CLEAR(g)] *)
Definition events_clear r : RECCE := upd_G_of_R (set_t_events []) r.

(** The input is at its end. *)
Definition exhaust r : RECCE :=
  upd_G_of_R (fun g => event_new g MARPA_EVENT_EXHAUSTED) (set_Input_Phase_of_R R_AFTER_INPUT (set_R_is_Exhausted true r)).

Definition marpa_r_new (t : TABLES) : res (option RECCE * TABLES) :=
  let g := g_of t in
  if negb (G_is_Precomputed g) then Ok (None, upd_g (fun g => MARPA_ERROR g MARPA_ERR_NOT_PRECOMPUTED) t)
  else
    let p := t_internal t in
    ahm_count ← AHM_Count_of_G t;
    expected ← bv_obs_create (junk 20%nat) (NSY_Count_of_G p);
    expected_event ← lbv_obs_new0 (junk 21%nat) (NSY_Count_of_G p);
    irl_seen ← bv_obs_create (junk 22%nat) (IRL_Count_of_G p);
    let zwas := imap (fun zwaid default_value => MkZWA (Z.of_nat zwaid) (-1) (Boolean default_value) (Boolean default_value)) (t_gzwa_stack g) in
    let psar := if G_is_Trivial p then psar_safe else psar_init ahm_count in
    let t := upd_g grammar_ref t in
    Ok (Some (MkRECCE t None None (-1) None None None expected (BV expected_event 0) irl_seen [] zwas [] None None None None None None None None None None [] []
                psar 1 (Z.max DEFAULT_YIM_WARNING_THRESHOLD (ahm_count * 3)) 0 0 0 (-1) R_BEFORE_INPUT true false false [] [] []), t).

(** The vectors of the values of tokens. *)
Definition valued_symbols r : res RECCE :=
  let n := XSY_Count_of_G (G_of_R r) in
  valued_terminal ← lbv_obs_new0 (junk 23%nat) n;
  unvalued_terminal ← lbv_obs_new0 (junk 24%nat) n;
  valued ← lbv_obs_new0 (junk 25%nat) n;
  unvalued ← lbv_obs_new0 (junk 26%nat) n;
  valued_locked ← lbv_obs_new0 (junk 27%nat) n;
  x ← for_res (xsy_count (t_tables r)) 0 (fun xsy_id c =>
        let '(valued_terminal, unvalued_terminal, valued, unvalued, valued_locked) := c in
        xsy ← XSY_by_ID (G_of_R r) xsy_id;
        valued_locked ← (if XSY_is_Valued_Locked xsy then lbv_bit_set valued_locked xsy_id else Ok valued_locked);
        if XSY_is_Valued xsy then
          valued ← lbv_bit_set valued xsy_id;
          valued_terminal ← (if XSY_is_Terminal xsy then lbv_bit_set valued_terminal xsy_id else Ok valued_terminal);
          Ok (valued_terminal, unvalued_terminal, valued, unvalued, valued_locked)
        else
          unvalued ← lbv_bit_set unvalued xsy_id;
          unvalued_terminal ← (if XSY_is_Terminal xsy then lbv_bit_set unvalued_terminal xsy_id else Ok unvalued_terminal);
          Ok (valued_terminal, unvalued_terminal, valued, unvalued, valued_locked))
      (BV valued_terminal 0, BV unvalued_terminal 0, BV valued 0, BV unvalued 0, BV valued_locked 0);
  let '(valued_terminal, unvalued_terminal, valued, unvalued, valued_locked) := x in
  Ok (set_t_valued_terminal (Some valued_terminal) (set_t_unvalued_terminal (Some unvalued_terminal)
       (set_t_valued (Some valued) (set_t_unvalued (Some unvalued) (set_t_valued_locked (Some valued_locked) r))))).

(** [lbv_clone] of a vector with a header. *)
Definition clone_symbols (k : nat) (o : option Bit_Vector) (n : Z) : res Bit_Vector :=
  v ← written o;
  l ← lbv_clone (junk k) (drop (Z.to_nat (bv_base v)) (bv_words v)) n;
  Ok (BV l 0).

Definition count_symbols r (o : option Bit_Vector) : res Z := v ← written o; x ← bv_count (xsy_count (t_tables r)) v; Ok x.1.

Definition start_events r : res RECCE :=
  let t := t_tables r in
  let n := XSY_Count_of_G (G_of_R r) in
  completion ← clone_symbols 28%nat (t_lbv_xsyid_is_completion_event t) n;
  nulled ← clone_symbols 29%nat (t_lbv_xsyid_is_nulled_event t) n;
  prediction ← clone_symbols 30%nat (t_lbv_xsyid_is_prediction_event t) n;
  completions ← count_symbols r (t_lbv_xsyid_is_completion_event t);
  nulleds ← count_symbols r (t_lbv_xsyid_is_nulled_event t);
  predictions ← count_symbols r (t_lbv_xsyid_is_prediction_event t);
  Ok (set_t_active_event_count (completions + nulleds + predictions)
       (set_t_completion_event_is_active (Some completion) (set_t_nulled_event_is_active (Some nulled) (set_t_prediction_event_is_active (Some prediction) r)))).

(** The work areas of the sets. *)
Definition start_workareas r : res RECCE :=
  let n := NSY_Count_of_G (t_internal (t_tables r)) in
  lim_symbols ← bv_obs_create (junk 31%nat) n;
  pim_symbols ← bv_obs_create (junk 32%nat) n;
  let r := set_t_bv_lim_symbols (Some lim_symbols) (set_t_bv_pim_symbols (Some pim_symbols) r) in
  let r := set_t_pim_workarea (replicate (Z.to_nat n) None) (set_t_lim_chain (replicate (Z.to_nat (2 * n)) None) r) in
  let r := match t_yim_work_stack r with None => set_t_yim_work_stack (Some []) r | Some _ => r end in
  Ok (match t_completion_stack r with None => set_t_completion_stack (Some []) r | Some _ => r end).

(** The rules of a list that have not been seen get their first items, when their assertions
    hold. *)
Definition start_predictions (set0 : Z) (this_cil : CIL) r : res RECCE :=
  cil_each this_cil (fun prediction_irlid r =>
    x ← bv_bit_test_then_set (t_bv_irl_seen r) prediction_irlid;
    let r := set_t_bv_irl_seen x.2 r in
    if x.1 : bool then Ok r
    else
      prediction_ahm ← first_ahm r prediction_irlid;
      x ← evaluate_zwas r 0 prediction_ahm;
      if negb x.1 then Ok x.2
      else
        x ← earley_item_create x.2 prediction_ahm set0 set0;
        ahm ← AHM_by_ID (t_tables x.2) prediction_ahm;
        lhs_cil ← written (LHS_CIL_of_AHM ahm);
        Ok (set_t_irl_cil_stack (t_irl_cil_stack x.2 ++ [lhs_cil]) x.2)) r.

(** A round for each list on the stack. *)
Fixpoint start_loop (rounds : nat) (set0 : Z) r : res RECCE :=
  match list.last (t_irl_cil_stack r) with
  | None => Ok r
  | Some this_cil =>
    match rounds with
    | O => NoFuel
    | S rounds =>
      r ← start_predictions set0 this_cil (set_t_irl_cil_stack (take (length (t_irl_cil_stack r) - 1) (t_irl_cil_stack r)) r);
      start_loop rounds set0 r
    end
  end.

Definition fill_set0 r set0 : res RECCE :=
  start_irl ← deref (t_start_irl (t_internal (t_tables r)));
  start_ahm ← first_ahm r start_irl;
  x ← earley_item_create r start_ahm set0 set0;
  let r := x.2 in
  v ← bv_clear (t_bv_irl_seen r);
  v ← bv_bit_set v start_irl;
  ahm ← AHM_by_ID (t_tables r) start_ahm;
  lhs_cil ← written (LHS_CIL_of_AHM ahm);
  let r := set_t_irl_cil_stack [lhs_cil] (set_t_bv_irl_seen v r) in
  start_loop (S (irl_count (t_tables r))) set0 r.

Definition start_set0 r : res RECCE :=
  let '(set0, r) := earley_set_new r 0 in
  let r := set_t_latest_earley_set (Some set0) (set_t_first_earley_set (Some set0) r) in
  r ← fill_set0 r set0;
  r ← postdot_items_create r (bv_create (NSY_Count_of_G (t_internal (t_tables r)))) set0;
  earley_set_update_items r set0.

Definition marpa_r_start_input r : res (Z * RECCE) :=
  if negb (Input_Phase_of_R r =? R_BEFORE_INPUT) then Ok (failure_indicator, R_ERROR r MARPA_ERR_RECCE_STARTED)
  else
    r ← valued_symbols (set_t_current_earleme 0 r);
    let r := events_clear r in
    if G_is_Trivial (t_internal (t_tables r)) then Ok (1, exhaust r)
    else
      r ← start_events r;
      r ← psar_reset (set_Input_Phase_of_R R_DURING_INPUT r);
      r ← start_workareas r;
      r ← start_set0 r;
      r ← trigger_events (set_t_is_using_leo (t_use_leo_flag r) r);
      Ok (1, r).

Definition ys_at_current_earleme r : res (option Z) :=
  latest ← written (t_latest_earley_set r);
  ys ← YS_by_ID r latest;
  Ok (if Earleme_of_YS ys =? t_current_earleme r then Some latest else None).

(** A token with a value, or without: the symbol must be a terminal, and tokens of a symbol
    all have values or none has. *)
Definition lock_value (terminals symbols : RECCE -> option Bit_Vector) (set_terminals set_symbols : option Bit_Vector -> RECCE -> RECCE) r (tkn : XSY) (tkn_xsy_id : Z) : res (option Z * RECCE) :=
  v ← bv_of (terminals r);
  b ← lbv_bit_test v tkn_xsy_id;
  if b : bool then Ok (None, r)
  else if negb (XSY_is_Terminal tkn) then Ok (Some MARPA_ERR_TOKEN_IS_NOT_TERMINAL, r)
  else
    locked ← bv_of (t_valued_locked r);
    b ← lbv_bit_test locked tkn_xsy_id;
    if b : bool then Ok (Some MARPA_ERR_SYMBOL_VALUED_CONFLICT, r)
    else
      locked ← lbv_bit_set locked tkn_xsy_id;
      v ← lbv_bit_set v tkn_xsy_id;
      symbols ← bv_of (symbols r);
      symbols ← lbv_bit_set symbols tkn_xsy_id;
      Ok (None, set_symbols (Some symbols) (set_terminals (Some v) (set_t_valued_locked (Some locked) r))).

Definition marpa_r_alternative r (tkn_xsy_id value length : Z) : res (Z * RECCE) :=
  let g := G_of_R r in
  let fail r code := Ok (code, R_ERROR r code) in
  if negb (R_is_Consistent r) then fail r MARPA_ERR_RECCE_IS_INCONSISTENT
  else if negb (Input_Phase_of_R r =? R_DURING_INPUT) then fail r MARPA_ERR_RECCE_NOT_ACCEPTING_INPUT
  else if negb (xsy_id_is_valid g tkn_xsy_id) then fail r MARPA_ERR_INVALID_SYMBOL_ID
  else
    tkn ← XSY_by_ID g tkn_xsy_id;
    if length <=? 0 then fail r MARPA_ERR_TOKEN_LENGTH_LE_ZERO
    else if length >=? JEARLEME_THRESHOLD then fail r MARPA_ERR_TOKEN_TOO_LONG
    else
      x ← (if Boolean value then lock_value t_valued_terminal t_valued set_t_valued_terminal set_t_valued r tkn tkn_xsy_id
           else lock_value t_unvalued_terminal t_unvalued set_t_unvalued_terminal set_t_unvalued r tkn tkn_xsy_id);
      let r := x.2 in
      match x.1 with
      | Some code => fail r code
      | None =>
        tkn_nsy ← rd (t_nsy_equivalent (t_internal (t_tables r))) tkn_xsy_id;
        match tkn_nsy with
        | None => fail r MARPA_ERR_INACCESSIBLE_TOKEN
        | Some tkn_nsyid =>
          current ← ys_at_current_earleme r;
          match current with
          | None => fail r MARPA_ERR_NO_TOKEN_EXPECTED_HERE
          | Some current_earley_set =>
            pim ← first_pim_of_ys_by_nsyid r current_earley_set tkn_nsyid;
            match pim with
            | None => fail r MARPA_ERR_UNEXPECTED_TOKEN_ID
            | Some _ =>
              let target_earleme := t_current_earleme r + length in
              if target_earleme >=? JEARLEME_THRESHOLD then fail r MARPA_ERR_PARSE_TOO_LONG
              else
                let r := if t_furthest_earleme r <? target_earleme then set_t_furthest_earleme target_earleme r else r in
                x ← alternative_insert r (MkALT current_earley_set target_earleme tkn_nsyid value (Boolean value));
                if x.1 <? 0 then fail x.2 MARPA_ERR_DUPLICATE_TOKEN else Ok (MARPA_ERR_NONE, x.2)
            end
          end
        end
      end.

(** A new set: the tokens that end here, what they complete, what is predicted. *)
Definition earleme_set r (current_earleme : Z) : res (Z * RECCE) :=
  let '(set, r) := earley_set_new r current_earleme in
  latest ← written (t_latest_earley_set r);
  r ← upd_ys r latest (set_Next_YS_of_YS (Some set));
  let r := set_t_latest_earley_set (Some set) r in
  r ← scan_tokens (length (t_alternatives r)) r set current_earleme;
  r ← start_completions r;
  r ← complete_loop complete_rounds r set;
  r ← predict r set;
  r ← postdot_items_create r (bv_create (NSY_Count_of_G (t_internal (t_tables r)))) set;
  x ← bv_count (nsy_count (t_tables r)) (t_bv_nsyid_is_expected r);
  let r := set_t_bv_nsyid_is_expected x.2 r in
  let r := if (x.1 <=? 0) && (Z.of_nat (length (t_alternatives r)) <=? 0) then exhaust r else r in
  r ← earley_set_update_items r set;
  r ← (if t_active_event_count r >? 0 then trigger_events r else Ok r);
  Ok (Z.of_nat (length (t_events (G_of_R r))), r).

Definition marpa_r_earleme_complete r : res (Z * RECCE) :=
  if negb (Input_Phase_of_R r =? R_DURING_INPUT) then Ok (failure_indicator, R_ERROR r MARPA_ERR_RECCE_NOT_ACCEPTING_INPUT)
  else if negb (R_is_Consistent r) then Ok (failure_indicator, R_ERROR r MARPA_ERR_RECCE_IS_INCONSISTENT)
  else
    r ← psar_dealloc (events_clear r);
    expected ← bv_clear (t_bv_nsyid_is_expected r);
    irl_seen ← bv_clear (t_bv_irl_seen r);
    let current_earleme := t_current_earleme r + 1 in
    let r := set_t_current_earleme current_earleme (set_t_bv_irl_seen irl_seen (set_t_bv_nsyid_is_expected expected r)) in
    if current_earleme >? t_furthest_earleme r then Ok (failure_indicator, R_ERROR (exhaust r) MARPA_ERR_PARSE_EXHAUSTED)
    else
      match list.last (t_alternatives r) with
      | None => Ok (0, r)
      | Some end_of_stack => if negb (current_earleme =? End_Earleme_of_ALT end_of_stack) then Ok (0, r) else earleme_set r current_earleme
      end.
End earley.
