(* ===== verification/EarleyStage.v ===== *)
(** * The making of a set

    The items of an Earley set, as a specification; the recognizer's tables, its sets, items and
    postdot items, and what holds of them while a set is in the making. *)
From stdpp Require Import sets gmap list relations list_numbers.
From S2P Require Import Prelude MarpaH Avl Dstack BitVector Matrix Cil CilTheorems MarpaGrammar Census Rewrite Items Relations ItemsTheorems Recce Earley.

(** * What the recognizer counts on, and what its sets are

    [engine]: the tables of a precomputed grammar, as the recognizer uses them.  [item]: the
    Earley items of an input, by the four rules (start, prediction, reading of a token,
    completion), without the shortcuts of the code. *)

(** ** The tables *)
Section engine.
Context (t : TABLES).
#[local] Abbreviation nsys := (NSY_Count_of_G (t_internal t)).
#[local] Abbreviation irls := (IRL_Count_of_G (t_internal t)).
#[local] Abbreviation xsys := (XSY_Count_of_G (g_of t)).

(** The item number [x]. *)
Definition ahms : Z := Z.of_nat (length (t_ahms t)).
Definition ahm_at (x : Z) (a : AHM) : Prop := 0 <= x /\ t_ahms t !! Z.to_nat x = Some (Some a).
Definition of_ahm {A} (f : AHM -> A) (d : A) (x : Z) : A := match t_ahms t !! Z.to_nat x with Some (Some a) => f a | _ => d end.
Definition postdot : Z -> Z := of_ahm Postdot_NSYID_of_AHM (-1).
Definition lhs_of_irl (i : Z) : Z := match t_irl_stack (t_internal t) !! Z.to_nat i with Some irl => match LHSID_of_IRL irl with Ok l => l | _ => -1 end | None => -1 end.
Definition lhs (x : Z) : Z := lhs_of_irl (of_ahm IRL_of_AHM (-1) x).
Definition first (i : Z) : Z := match t_irl_tables t !! Z.to_nat i with Some e => default (-1) (First_AHM_of_IRL e) | None => -1 end.

(** The rule number [i] has the left-hand side [y]; [z] is the first symbol that is not null
    of a rule of [y]. *)
Definition rule_for (y i : Z) : Prop := 0 <= i < irls /\ lhs (first i) = y.
Definition corner (y z : Z) : Prop := exists i, rule_for y i /\ postdot (first i) = z.
(** A list of items, in ascending order. *)
Definition ahm_list (c : CIL) : Prop := exists l, cil_ints c = ints_of l /\ ascending l /\ Forall (fun x => 0 <= x < ahms) l.

(** What one item has. *)
Record ahm_fits (x : Z) (a : AHM) : Prop := {
  af_next : 0 <= Postdot_NSYID_of_AHM a -> Postdot_NSYID_of_AHM a < nsys /\ exists b, ahm_at (x + 1) b /\ IRL_of_AHM b = IRL_of_AHM a;
  af_lhs : exists l, LHSID_of_AHM t a = Ok l /\ 0 <= l < nsys;
  af_rule : 0 <= IRL_of_AHM a < irls;
  af_predicted : listed (Predicted_IRL_CIL_of_AHM a) irls (fun i => exists y, rtc corner (Postdot_NSYID_of_AHM a) y /\ rule_for y i);
  af_lhs_list : listed (LHS_CIL_of_AHM a) irls (rule_for (Postdot_NSYID_of_AHM a));
  af_events : exists c, Event_AHMIDs_of_AHM a = Some c /\ ahm_list c /\ (cil_ints c = ints_of [] \/ cil_ints c = ints_of [x]);
  af_completions : exists P, listed (Completion_XSYIDs_of_AHM a) xsys P;
  af_nulled : exists P, listed (Nulled_XSYIDs_of_AHM a) xsys P;
  af_predictions : exists P, listed (Prediction_XSYIDs_of_AHM a) xsys P;
  af_assertions : exists l, holding (ZWA_CIL_of_AHM a) l /\ Forall (fun z => 0 <= z < ZWA_Count_of_G (g_of t)) l
}.

Record engine : Prop := {
  en_count : t_ahm_count t = Some ahms;
  en_small : 3 * ahms <= INT_MAX;
  en_symbols : 0 < nsys /\ 2 * nsys <= INT_MAX;
  en_rules : 0 <= irls <= INT_MAX;
  en_xsys : 0 <= xsys <= INT_MAX;
  en_ahm x : 0 <= x < ahms -> exists a, ahm_at x a /\ ahm_fits x a;
  en_irl_tables : Z.of_nat (length (t_irl_tables t)) = irls;
  en_first i : 0 <= i < irls -> exists e, irl_table t i = Ok e /\ First_AHM_of_IRL e = Some (first i) /\ exists a, ahm_at (first i) a /\ IRL_of_AHM a = i /\ 0 <= Postdot_NSYID_of_AHM a;
  en_start : exists s, t_start_irl (t_internal t) = Some s /\ 0 <= s < irls /\ forall e, irl_table t s = Ok e -> IRL_is_Right_Recursive e = false;
  en_sources y : 0 <= y < nsys -> exists s z, NSY_by_ID (t_internal t) y = Ok s /\ Source_XSY_of_NSY s = Some z /\ 0 <= z < xsys;
  en_equivalent : Z.of_nat (length (t_nsy_equivalent (t_internal t))) = xsys /\ forall z y, t_nsy_equivalent (t_internal t) !! z = Some (Some y) -> 0 <= y < nsys;
  en_terminal : exists v P, t_bv_nsyid_is_terminal t = Some v /\ bits v nsys P;
  en_completion : exists v P, t_lbv_xsyid_is_completion_event t = Some v /\ bits v xsys P;
  en_nulled : exists v P, t_lbv_xsyid_is_nulled_event t = Some v /\ bits v xsys P;
  en_prediction : exists v P, t_lbv_xsyid_is_prediction_event t = Some v /\ bits v xsys P
}.

(** ** Reading the tables *)
Lemma ahm_at_of {A} (f : AHM -> A) d x a : ahm_at x a -> of_ahm f d x = f a.
Proof. intros [_ E]. unfold of_ahm. by rewrite E. Qed.

Lemma ahm_at_bound x a : ahm_at x a -> 0 <= x < ahms.
Proof. intros [Hx E]. apply lookup_lt_Some in E. unfold ahms. lia. Qed.

Lemma ahm_at_read x a : ahm_at x a -> AHM_by_ID t x = Ok a.
Proof. intros [Hx E]. unfold AHM_by_ID. rewrite (proj2 (rd_Ok _ _ _) (conj Hx E)). done. Qed.

Lemma ahm_at_inj x a b : ahm_at x a -> ahm_at x b -> a = b.
Proof. intros [_ E] [_ E']. congruence. Qed.

(** ** What holds of an item *)
Section facts.
Context (Hen : engine).

Lemma postdot_read x a : ahm_at x a -> Postdot_NSYID_of_AHM a = postdot x.
Proof using. intros Ha. symmetry. exact (ahm_at_of _ _ _ _ Ha). Qed.

Lemma lhs_read_ahm x a : ahm_at x a -> ahm_fits x a -> LHSID_of_AHM t a = Ok (lhs x) /\ 0 <= lhs x < nsys.
Proof using.
  intros Ha Hf. destruct (af_lhs _ _ Hf) as (l&Hl&Hb). assert (lhs x = l) as ->; [|done]. unfold lhs. rewrite (ahm_at_of _ _ _ _ Ha).
  unfold LHSID_of_AHM, IRL_by_AHM, IRL_by_ID in Hl. apply bind_Ok in Hl as (irl&Hi&Hl). apply rd_Ok in Hi as [_ Hi]. unfold lhs_of_irl. by rewrite Hi, Hl.
Qed.

Lemma next_item x : 0 <= x < ahms -> 0 <= postdot x -> x + 1 < ahms /\ postdot x < nsys.
Proof using Hen.
  intros Hx Hp. destruct (en_ahm Hen x Hx) as (a&Ha&Hf). rewrite <- (postdot_read x a Ha) in *. destruct (af_next _ _ Hf Hp) as (?&b&Hb&_). apply ahm_at_bound in Hb. lia.
Qed.

Lemma lhs_bound x : 0 <= x < ahms -> 0 <= lhs x < nsys.
Proof using Hen. intros Hx. destruct (en_ahm Hen x Hx) as (a&Ha&Hf). by apply (lhs_read_ahm x a Ha Hf). Qed.

Lemma first_item i : 0 <= i < irls -> 0 <= first i < ahms /\ 0 <= postdot (first i).
Proof using Hen.
  intros Hi. destruct (en_first Hen i Hi) as (e&_&_&a&Ha&_&Hp). split; [by eapply ahm_at_bound|]. by rewrite <- (postdot_read _ a).
Qed.
End facts.

(** A completion of a rule that Leo items are made for. *)
Definition leo_completion (x : Z) : Prop := exists a, ahm_at x a /\ AHM_is_Leo_Completion t a = Ok true.
End engine.

(** ** The items of an input

    [tok j y k]: a token of the symbol [y] from the set [j] to the set [k]. [allowed]: the
    rules whose assertions hold at the start. *)
Section items.
Context (t : TABLES) (allowed : Z -> Prop) (tok : Z -> Z -> Z -> Prop).

Inductive item : Z -> Z -> Z -> Prop :=
| item_start s : t_start_irl (t_internal t) = Some s -> item 0 (first t s) 0
| item_predict k x o i : item k x o -> 0 <= postdot t x -> rule_for t (postdot t x) i -> (k = 0 -> allowed i) -> item k (first t i) k
| item_scan j k x o : item j x o -> 0 <= postdot t x -> tok j (postdot t x) k -> item k (x + 1) o
| item_complete j k x o c : item j x o -> 0 <= postdot t x -> item k c j -> postdot t c < 0 -> lhs t c = postdot t x -> item k (x + 1) o.

(** What a Leo item stands for: [climbs j y x o], each completion of [y] from [j] leads by
    itself to the item [x] from the set [o]. *)
Inductive climbs : Z -> Z -> Z -> Z -> Prop :=
| climbs_base j x o : item j x o -> 0 <= postdot t x -> climbs j (postdot t x) (x + 1) o
| climbs_step j x o top o' : item j x o -> 0 <= postdot t x -> postdot t (x + 1) < 0 -> climbs o (lhs t (x + 1)) top o' -> climbs j (postdot t x) top o'.

Lemma climbs_item j y top o' k c : climbs j y top o' -> item k c j -> postdot t c < 0 -> lhs t c = y -> item k top o'.
Proof.
  intros Hc. revert c. induction Hc as [j x o Hi Hp|j x o top o' Hi Hp Hn Hc IH]; intros c Hk Hd Hl; [by eapply item_complete|].
  apply (IH (x + 1)); [by eapply item_complete|done|done].
Qed.

(** Tokens lead to later sets. *)
Lemma item_bounds (Hen : engine t) (Htok : forall j y k, tok j y k -> 0 <= j < k) k x o : item k x o ->
  0 <= o <= k /\ 0 <= x < ahms t /\ (o = k -> exists i, 0 <= i < IRL_Count_of_G (t_internal t) /\ x = first t i).
Proof.
  induction 1 as [s Hs|k x o i _ IH Hp [Hi _] _|j k x o _ IH Hp Ht|j k x o c _ IH1 Hp _ IH2 Hd _].
  - destruct (en_start t Hen) as (s'&Es&Hs'&_). assert (s = s') as -> by congruence. split; [lia|]. split; [by apply first_item|]. intros _. by exists s'.
  - split; [lia|]. split; [by apply first_item|]. intros _. by exists i.
  - apply Htok in Ht. destruct IH as (?&Hx&_). pose proof (next_item t Hen x Hx Hp). split; [lia|]. split; lia.
  - destruct IH1 as (?&Hx&_), IH2 as (?&?&Hf). pose proof (next_item t Hen x Hx Hp). split; [lia|]. split; [lia|]. intros E. destruct Hf as (i&Hi&->); [lia|].
    destruct (first_item t Hen i Hi). lia.
Qed.
End items.

Lemma climbs_bounds t allowed tok (Hen : engine t) (Htok : forall j y k, tok j y k -> 0 <= j < k) j y top o : climbs t allowed tok j y top o -> 0 <= top < ahms t /\ 0 <= o <= j.
Proof.
  induction 1 as [j x o Hi Hp|j x o top o' Hi Hp Hn _ IH]; destruct (item_bounds t allowed tok Hen Htok _ _ _ Hi) as (Ho&Hx&_); [|lia]. pose proof (next_item t Hen x Hx Hp). lia.
Qed.

(** Where the rule of an item comes from: the start rule, or an item that expects its
    left-hand side. *)
Lemma item_expected t allowed tok (Hen : engine t) (Htok : forall j y k, tok j y k -> 0 <= j < k) k x o : item t allowed tok k x o ->
  (exists s a b, t_start_irl (t_internal t) = Some s /\ ahm_at t x a /\ ahm_at t (first t s) b /\ IRL_of_AHM a = IRL_of_AHM b) \/ exists x' o', item t allowed tok o x' o' /\ 0 <= postdot t x' /\ postdot t x' = lhs t x.
Proof.
  assert (forall x, 0 <= x < ahms t -> 0 <= postdot t x -> exists a b, ahm_at t x a /\ ahm_at t (x + 1) b /\ IRL_of_AHM b = IRL_of_AHM a) as Hsame.
  { intros y Hy Hp. destruct (en_ahm t Hen y Hy) as (a&Ha&Hf). rewrite <- (postdot_read t y a Ha) in Hp. destruct (af_next _ _ _ Hf Hp) as (_&b&Hb&E). by exists a, b. }
  assert (forall k x o, item t allowed tok k x o -> 0 <= postdot t x -> ((exists s a b, t_start_irl (t_internal t) = Some s /\ ahm_at t x a /\ ahm_at t (first t s) b /\ IRL_of_AHM a = IRL_of_AHM b) \/ exists x' o', item t allowed tok o x' o' /\ 0 <= postdot t x' /\ postdot t x' = lhs t x) ->
    (exists s a b, t_start_irl (t_internal t) = Some s /\ ahm_at t (x + 1) a /\ ahm_at t (first t s) b /\ IRL_of_AHM a = IRL_of_AHM b) \/ exists x' o', item t allowed tok o x' o' /\ 0 <= postdot t x' /\ postdot t x' = lhs t (x + 1)) as Hnext.
  { intros k0 x0 o0 Hi Hp HI. destruct (item_bounds t allowed tok Hen Htok _ _ _ Hi) as (_&Hx&_). destruct (Hsame x0 Hx Hp) as (a&b&Ha&Hb&E). destruct HI as [(s&a'&b'&Hs&Ha'&Hb'&E')|(x'&o'&Hi'&Hp'&El)].
    - left. exists s, b, b'. rewrite (ahm_at_inj _ _ _ _ Ha Ha') in E. split_and!; [done..|congruence].
    - right. exists x', o'. split; [done|]. split; [done|]. rewrite El. unfold lhs. by rewrite (ahm_at_of t _ _ _ _ Ha), (ahm_at_of t _ _ _ _ Hb), E. }
  induction 1 as [s Hs|k x o i Hi IH Hp [Hr El] _|j k x o Hi IH Hp Ht|j k x o c Hi IH Hp Hk _ Hd Hl]; [| |by eapply Hnext|by eapply Hnext].
  - left. destruct (en_start t Hen) as (s'&Es&Hb&_). assert (s = s') as -> by congruence. destruct (en_first t Hen s' Hb) as (e&_&_&a&Ha&_). by exists s', a, a.
  - right. by exists x, o.
Qed.

(** The start rule is not right recursive. *)
Lemma leo_expected t allowed tok (Hen : engine t) (Htok : forall j y k, tok j y k -> 0 <= j < k) k x o : item t allowed tok k x o -> 0 <= postdot t x -> leo_completion t (x + 1) ->
  exists x' o', item t allowed tok o x' o' /\ postdot t x' = lhs t (x + 1).
Proof.
  intros Hi Hp (l&Hl&Hleo). destruct (item_bounds t allowed tok Hen Htok _ _ _ Hi) as (_&Hx&_). destruct (en_ahm t Hen x Hx) as (a&Ha&Hf). pose proof Hp as Hp2. rewrite <- (postdot_read t x a Ha) in Hp2. destruct (af_next _ _ _ Hf Hp2) as (_&l'&Hl'&E).
  rewrite (ahm_at_inj _ _ _ _ Hl' Hl) in E. destruct (item_expected t allowed tok Hen Htok _ _ _ Hi) as [(s&a'&b&Hs&Ha'&Hb&E')|(x'&o'&Hi'&Hp'&El)].
  - exfalso. destruct (en_start t Hen) as (s'&Es&Hsb&Hno). assert (s = s') as -> by congruence. destruct (en_first t Hen s' Hsb) as (e&He&_&b'&Hb'&Eb&_). rewrite (ahm_at_inj _ _ _ _ Ha Ha') in E. rewrite (ahm_at_inj _ _ _ _ Hb' Hb) in Eb.
    unfold AHM_is_Leo_Completion in Hleo. destruct (AHM_is_Completion l); [|done]. rewrite E, E', Eb, He in Hleo. cbn [mbind res_bind] in Hleo. injection Hleo as Hleo. by rewrite (Hno e He) in Hleo.
  - exists x', o'. split; [done|]. rewrite El. unfold lhs. by rewrite (ahm_at_of t _ _ _ _ Ha), (ahm_at_of t _ _ _ _ Hl), E.
Qed.

(** Tokens that lead to later sets do not count. *)
Lemma item_tokens t allowed tok tok' n : (forall j y k, tok j y k -> 0 <= j < k) -> (forall j y k, k < n -> tok j y k -> tok' j y k) -> engine t ->
  forall k x o, item t allowed tok k x o -> k < n -> item t allowed tok' k x o.
Proof.
  intros Htok Htt Hen. induction 1 as [s Hs|k x o i _ IH Hp Hi Ha|j k x o Hj IH Hp Ht|j k x o c Hj IH1 Hp Hk IH2 Hd Hl]; intros Hn; [by apply item_start|eapply item_predict; eauto| |].
  - pose proof (Htok _ _ _ Ht). apply item_scan with j; [apply IH; lia|done|auto].
  - destruct (item_bounds t allowed tok Hen Htok _ _ _ Hk). apply item_complete with j c; auto. apply IH1. lia.
Qed.

(** * The state of a recognizer: frames, and the making of items

    What a step leaves alone ([rest], [extends]); the Earley sets and items there are
    ([store]); a set in the making ([making]), and the creation of an item in it. *)

(** ** Frames *)

(** The tables, without what a recognizer changes in a grammar: events, errors, references
    and the arena of lists. *)
Definition strip_g (g : GRAMMAR) : GRAMMAR :=
  set_t_events [] (set_t_error 0 (set_t_error_string None (set_t_is_ok 0 (set_t_ref_count 0 (set_t_cilar (MkCILAR avl_create (DSTACK 0 []) 1) g))))).
Definition strip (t : TABLES) : TABLES := upd_g strip_g t.

(** What the making of items does not change. *)
Definition rest (r : RECCE) : RECCE :=
  set_t_tables (strip (t_tables r)) (set_t_sets [] (set_t_yims [] (set_t_dot_psar_object psar_safe (set_t_yim_work_stack None (set_t_completion_stack None r))))).

Definition key (y : YIM) : Z * Z * Z := (AHM_of_YIM y, Origin_of_YIM y, YS_of_YIM y).
Definition ys_view (y : YS) : YS := set_Dot_PSL_of_YS None (set_YIM_Count_of_YS 0 y).

Record extends (r r' : RECCE) : Prop := {
  ex_rest : rest r' = rest r;
  ex_keys : exists l, key <$> t_yims r' = (key <$> t_yims r) ++ l;
  ex_sets : ys_view <$> t_sets r' = ys_view <$> t_sets r;
  ex_arena : cilar_of (t_tables r') = cilar_of (t_tables r)
}.

#[export] Instance extends_preorder : PreOrder extends.
Proof.
  split; [intros r; split; [done|exists []; by rewrite app_nil_r|done|done]|]. intros r1 r2 r3 [H1 (l1&H2) H3 A1] [H4 (l2&H5) H6 A2].
  split; [congruence| |congruence|congruence]. exists (l1 ++ l2). by rewrite H5, H2, app_assoc.
Qed.

(** ** The tables seen through [strip] *)
Section same.
Context (t t' : TABLES) (Hs : strip t' = strip t).

Lemma same_ahm x : AHM_by_ID t' x = AHM_by_ID t x.
Proof using Hs. change (AHM_by_ID (strip t') x = AHM_by_ID (strip t) x). by rewrite Hs. Qed.

Lemma same_lhs a : LHSID_of_AHM t' a = LHSID_of_AHM t a.
Proof using Hs. change (LHSID_of_AHM (strip t') a = LHSID_of_AHM (strip t) a). by rewrite Hs. Qed.

Lemma same_irl_table i : irl_table t' i = irl_table t i.
Proof using Hs. change (irl_table (strip t') i = irl_table (strip t) i). by rewrite Hs. Qed.

Lemma same_leo a : AHM_is_Leo_Completion t' a = AHM_is_Leo_Completion t a.
Proof using Hs. change (AHM_is_Leo_Completion (strip t') a = AHM_is_Leo_Completion (strip t) a). by rewrite Hs. Qed.

Lemma same_nsy y : NSY_by_ID (t_internal t') y = NSY_by_ID (t_internal t) y.
Proof using Hs. change (NSY_by_ID (t_internal (strip t')) y = NSY_by_ID (t_internal (strip t)) y). by rewrite Hs. Qed.

Lemma same_nsys : nsy_count t' = nsy_count t.
Proof using Hs. change (nsy_count (strip t') = nsy_count (strip t)). by rewrite Hs. Qed.

Lemma same_xsys : xsy_count t' = xsy_count t.
Proof using Hs. change (xsy_count (strip t') = xsy_count (strip t)). by rewrite Hs. Qed.

Lemma same_ahm_count : AHM_Count_of_G t' = AHM_Count_of_G t.
Proof using Hs. change (AHM_Count_of_G (strip t') = AHM_Count_of_G (strip t)). by rewrite Hs. Qed.
End same.

Lemma rest_tables r r' : rest r' = rest r -> strip (t_tables r') = strip (t_tables r).
Proof. intros E. exact (f_equal t_tables E). Qed.

(** ** Sets and items *)

(** The item [x], from the set [o], is in the set [k]. *)
Definition has (r : RECCE) (k x o : Z) : Prop := exists id y, t_yims r !! id = Some y /\ key y = (x, o, k).

Lemma has_key r k x o : has r k x o <-> (x, o, k) ∈ (key <$> t_yims r).
Proof.
  rewrite list_elem_of_fmap. split.
  - intros (id&y&Hy&Hk). exists y. split; [done|]. by eapply list_elem_of_lookup_2.
  - intros (y&Hk&(id&Hy)%list_elem_of_lookup). by exists id, y.
Qed.

Lemma has_extends r r' k x o : extends r r' -> has r k x o -> has r' k x o.
Proof. intros [_ (l&Hl) _ _]. rewrite !has_key, Hl. set_solver. Qed.

Lemma key_at r r' id y : extends r r' -> t_yims r !! id = Some y -> exists y', t_yims r' !! id = Some y' /\ key y' = key y.
Proof.
  intros [_ (l&Hl) _ _] Hy. assert (key <$> t_yims r' !! id = Some (key y)) as E.
  { rewrite <- list_lookup_fmap, Hl, lookup_app_l by (rewrite length_fmap; by eapply lookup_lt_Some). by rewrite list_lookup_fmap, Hy. }
  apply fmap_Some in E as (y'&Hy'&E). by exists y'.
Qed.

Section state.
Context (t0 : TABLES).

(** An item of a set: it is the first of a rule when it starts in its own set. *)
Record yim_fits (n : Z) (y : YIM) : Prop := {
  yf_ahm : 0 <= AHM_of_YIM y < ahms t0;
  yf_sets : 0 <= Origin_of_YIM y <= YS_of_YIM y /\ YS_of_YIM y < n;
  yf_active : YIM_is_Active y = true;
  yf_first : Origin_of_YIM y = YS_of_YIM y -> exists i, 0 <= i < IRL_Count_of_G (t_internal t0) /\ AHM_of_YIM y = first t0 i
}.

(** [n] sets, in the order of their earlemes, and their items. *)
Record store (n : Z) (r : RECCE) : Prop := {
  st_tables : strip (t_tables r) = strip t0;
  st_count : t_earley_set_count r = n;
  st_sets : Z.of_nat (length (t_sets r)) = n;
  st_ords k s : t_sets r !! k = Some s -> Ord_of_YS s = Z.of_nat k;
  st_times j k a b : t_sets r !! j = Some a -> t_sets r !! k = Some b -> (j < k)%nat -> Earleme_of_YS a < Earleme_of_YS b;
  st_yims id y : t_yims r !! id = Some y -> yim_fits n y;
  st_keys : NoDup (key <$> t_yims r)
}.

(** The set [k] is in the making: its items are those from [base] on, in the order of the
    work stack. *)
Record making (k : Z) (base : nat) (work : list Z) (r : RECCE) : Prop := {
  mk_store : store (k + 1) r;
  mk_work : t_yim_work_stack r = Some work;
  mk_ids : work = seqZ (Z.of_nat base) (Z.of_nat (length work));
  mk_length : length (t_yims r) = (base + length work)%nat;
  mk_set id y : t_yims r !! id = Some y -> (base <= id)%nat <-> YS_of_YIM y = k;
  mk_ord id y : t_yims r !! id = Some y -> (base <= id)%nat -> Ord_of_YIM y = Z.of_nat (id - base);
  mk_yims s : t_sets r !! Z.to_nat k = Some s -> YIM_Count_of_YS s = Z.of_nat (length work)
}.

Lemma set_read n r k : store n r -> 0 <= k < n -> exists s, t_sets r !! Z.to_nat k = Some s /\ YS_by_ID r k = Ok s.
Proof.
  intros Hst Hk. destruct (lookup_lt_is_Some_2 (t_sets r) (Z.to_nat k)) as [s Hs]; [pose proof (st_sets _ _ Hst); lia|].
  exists s. split; [done|]. apply rd_Ok. split; [lia|done].
Qed.

Lemma yim_read r id y : t_yims r !! id = Some y -> YIM_by_ID r (Z.of_nat id) = Ok y.
Proof. apply rd_at. Qed.

Lemma times_inj n r j k a b : store n r -> t_sets r !! j = Some a -> t_sets r !! k = Some b -> Earleme_of_YS a = Earleme_of_YS b -> j = k.
Proof.
  intros Hst Ha Hb E. destruct (lt_eq_lt_dec j k) as [[Hl|?]|Hl]; [|done|].
  - pose proof (st_times _ _ Hst _ _ _ _ Ha Hb Hl). lia.
  - pose proof (st_times _ _ Hst _ _ _ _ Hb Ha Hl). lia.
Qed.

Lemma upd_ys_ok n r k s f : store n r -> 0 <= k -> t_sets r !! Z.to_nat k = Some s -> upd_ys r k f = Ok (set_t_sets (<[Z.to_nat k := f s]> (t_sets r)) r).
Proof.
  intros Hst Hk Hs. unfold upd_ys, YS_by_ID. rewrite (proj2 (rd_Ok _ _ _) (conj Hk Hs)). cbn [mbind res_bind].
  rewrite wr_total; [done|]. apply lookup_lt_Some in Hs. lia.
Qed.

(** Views of the sets under an update that keeps them. *)
Lemma insert_view (l : list YS) k s s' : l !! k = Some s -> ys_view s' = ys_view s -> ys_view <$> <[k := s']> l = ys_view <$> l.
Proof. intros Hs E. rewrite list_fmap_insert, E. apply list_insert_id. by rewrite list_lookup_fmap, Hs. Qed.

Lemma view_at r r' k s : ys_view <$> t_sets r' = ys_view <$> t_sets r -> t_sets r !! k = Some s -> exists s', t_sets r' !! k = Some s' /\ ys_view s' = ys_view s.
Proof.
  intros E Hs. pose proof (f_equal (lookup k) E) as Ek. rewrite !list_lookup_fmap, Hs in Ek. apply fmap_Some in Ek as (s'&Hs'&Ek). by exists s'.
Qed.

Lemma view_back r r' k s' : ys_view <$> t_sets r' = ys_view <$> t_sets r -> t_sets r' !! k = Some s' -> exists s, t_sets r !! k = Some s /\ ys_view s' = ys_view s.
Proof. intros E Hs. destruct (view_at r' r k s' (eq_sym E) Hs) as (s&?&?). by exists s. Qed.

(** The sets and the items of a store depend on their views only. *)
Lemma store_extends n r r' : store n r -> extends r r' -> (forall id y, t_yims r' !! id = Some y -> yim_fits n y) -> NoDup (key <$> t_yims r') -> store n r'.
Proof.
  intros Hst He Hy Hk. pose proof (ex_rest _ _ He) as Hr. pose proof (ex_sets _ _ He) as Hv. split; [| | | | |done|done].
  - rewrite (rest_tables _ _ Hr). apply Hst.
  - rewrite <- (st_count _ _ Hst). exact (f_equal t_earley_set_count Hr).
  - rewrite <- (st_sets _ _ Hst). pose proof (f_equal length Hv) as El. rewrite !length_fmap in El. lia.
  - intros k s' Hs'. destruct (view_back _ _ _ _ Hv Hs') as (s&Hs&E). rewrite <- (st_ords _ _ Hst _ _ Hs). exact (f_equal Ord_of_YS E).
  - intros j k a' b' Ha' Hb' Hjk. destruct (view_back _ _ _ _ Hv Ha') as (a&Ha&Ea). destruct (view_back _ _ _ _ Hv Hb') as (b&Hb&Eb).
    pose proof (st_times _ _ Hst _ _ _ _ Ha Hb Hjk). apply (f_equal Earleme_of_YS) in Ea, Eb. cbn in Ea, Eb. lia.
Qed.

(** ** The creation of an item *)

(** What it changes. *)
Definition with_yim (r : RECCE) (k : Z) (sets : list YS) (t : TABLES) (work : list Z) (y : YIM) : RECCE :=
  set_t_yim_work_stack (Some work) (set_t_yims (t_yims r ++ [y]) (set_t_tables t (set_t_sets sets r))).

Lemma clamp_small z : 0 <= z < 2 ^ 16 -> YIM_ORDINAL_CLAMP (to_uint z) = z.
Proof.
  intros Hz. rewrite to_uint_small by (unfold UINT_MOD; lia). unfold YIM_ORDINAL_CLAMP. change (Z.shiftl 1 16 - 1) with (Z.ones 16). rewrite Z.land_comm, Z.land_ones by lia. apply Z.mod_small. lia.
Qed.

Lemma create_ok `{Library} k base work r x o : making k base work r -> 0 <= k -> 0 <= x < ahms t0 -> 0 <= o <= k ->
  (o = k -> exists i, 0 <= i < IRL_Count_of_G (t_internal t0) /\ x = first t0 i) -> ~ has r k x o -> Z.of_nat (length work) + 1 < YIM_FATAL_THRESHOLD ->
  exists s t y, t_sets r !! Z.to_nat k = Some s /\ (strip t = strip (t_tables r) /\ cilar_of t = cilar_of (t_tables r)) /\ key y = (x, o, k) /\ t_container y = NO_SOURCE
  /\ let id := Z.of_nat (length (t_yims r)) in
     let r' := with_yim r k (<[Z.to_nat k := set_YIM_Count_of_YS (Z.of_nat (length work) + 1) s]> (t_sets r)) t (work ++ [id]) y in
     earley_item_create r x o k = Ok (Some id, r') /\ extends r r' /\ making k base (work ++ [id]) r'.
Proof.
  intros Hm Hk Hx Ho Hfirst Hnew Hroom. pose proof (mk_store _ _ _ _ Hm) as Hst. destruct (set_read _ _ k Hst) as (s&Hs&Hrd); [lia|].
  pose proof (mk_yims _ _ _ _ Hm _ Hs) as Hcount. change YIM_FATAL_THRESHOLD with 65534 in *.
  unfold earley_item_create. rewrite Hrd. cbn [mbind res_bind]. rewrite (upd_ys_ok _ _ _ s _ Hst Hk Hs). cbn [mbind res_bind]. rewrite Hcount.
  set (count := Z.of_nat (length work) + 1) in *. set (sets := <[Z.to_nat k := set_YIM_Count_of_YS count s]> (t_sets r)).
  change YIM_FATAL_THRESHOLD with 65534. assert ((count >=? 65534) = false) as -> by (rewrite Z.geb_leb; apply Z.leb_gt; lia). rewrite andb_false_r.
  set (t := if count >=? t_earley_item_warning_threshold r then upd_g (fun g => int_event_new g MARPA_EVENT_EARLEY_ITEM_THRESHOLD count) (t_tables r) else t_tables r).
  set (y := MkYIM x o k (YIM_ORDINAL_CLAMP (to_uint (to_uint count - 1))) false true None None NO_SOURCE).
  assert (strip t = strip (t_tables r)) as Ht by (unfold t; by case_match). assert (cilar_of t = cilar_of (t_tables r)) as Hca by (unfold t; by case_match). exists s, t, y. split; [done|]. split; [done|]. split; [done|]. split; [done|].
  set (id := Z.of_nat (length (t_yims r))). set (r' := with_yim r k sets t (work ++ [id]) y). cbn zeta.
  assert (ys_view <$> sets = ys_view <$> t_sets r) as Hv by (by apply insert_view with s).
  assert (extends r r') as He.
  { split; [|exists [key y]; unfold r'; cbn [with_yim t_yims set_t_yim_work_stack set_t_yims]; by rewrite fmap_app|exact Hv|exact Hca]. unfold r', rest, with_yim. cbn. by rewrite Ht. }
  assert (work ++ [id] = seqZ (Z.of_nat base) (Z.of_nat (length (work ++ [id])))) as Hids.
  { rewrite length_app, Nat2Z.inj_add. cbn [length]. rewrite seqZ_app by lia. rewrite <- (mk_ids _ _ _ _ Hm). f_equal. change (Z.of_nat 1) with 1. rewrite seqZ_cons, seqZ_nil by lia. unfold id. rewrite (mk_length _ _ _ _ Hm). f_equal. lia. }
  assert (NoDup (key <$> t_yims r')) as Hnd.
  { unfold r'. cbn. rewrite fmap_app. apply NoDup_app. split; [apply Hst|]. split; [|apply NoDup_singleton]. intros q Hq ->%list_elem_of_singleton. apply Hnew. by apply has_key. }
  assert (forall i z, t_yims r' !! i = Some z -> (i < length (t_yims r))%nat /\ t_yims r !! i = Some z \/ i = length (t_yims r) /\ z = y) as Hcases.
  { intros i z Hz. change (t_yims r') with (t_yims r ++ [y]) in Hz. apply lookup_app_Some in Hz as [Hz|[Hl Hz]]; [left; split; [by eapply lookup_lt_Some|done]|right].
    apply list_lookup_singleton_Some in Hz as [? <-]. split; [lia|done]. }
  assert (store (k + 1) r') as Hst'.
  { apply store_extends with r; [done|done| |done]. intros i z [[_ Hz]|[_ ->]]%Hcases; [by apply Hst in Hz|]. split; [done|cbn; lia|done|done]. }
  split; [|split; [done|]].
  - change (t_earley_item_warning_threshold (set_t_sets sets r)) with (t_earley_item_warning_threshold r). unfold t in *. case_match; unfold work_yim_push, upd_G_of_R; cbn [t_yim_work_stack set_t_yims set_t_tables set_t_sets t_yims t_tables];
      rewrite (mk_work _ _ _ _ Hm); [reflexivity|]. unfold r', with_yim, id. destruct r. reflexivity.
  - split; [done|done|done|unfold r'; cbn; rewrite !length_app, (mk_length _ _ _ _ Hm); cbn; lia| | |].
    + intros i z [[Hi Hz]|[-> ->]]%Hcases; [by apply (mk_set _ _ _ _ Hm)|]. rewrite (mk_length _ _ _ _ Hm). split; [done|lia].
    + intros i z [[Hi Hz]|[-> ->]]%Hcases Hb; [by apply (mk_ord _ _ _ _ Hm)|]. cbn [Ord_of_YIM y]. rewrite (mk_length _ _ _ _ Hm).
      rewrite (to_uint_small count) by (unfold UINT_MOD; lia). rewrite clamp_small by lia. unfold count. lia.
    + intros s' Hs'. assert (sets !! Z.to_nat k = Some (set_YIM_Count_of_YS count s)) as E by (apply list_lookup_insert_eq; by eapply lookup_lt_Some).
      change (sets !! Z.to_nat k = Some s') in Hs'. rewrite E in Hs'. injection Hs' as <-.
      cbn. rewrite length_app. cbn. unfold count. lia.
Qed.
End state.

(** * Earley items are found or made ([earley_item_assign])

    The lookup arrays of the sets ([psl], [psar]): which set owns which array, what is in
    it; an item that is in the set is found, another one is made. *)

Section arrays.
Context (n : Z).

(** The arrays below the first free one have an owner, the set that points to them; an item
    is at its number. *)
Record lookups (sets : list YS) (yims : list YIM) (a : PSAR) : Prop := {
  lk_length : t_psl_length a = n;
  lk_data p x : t_psls a !! p = Some x -> Z.of_nat (length (t_data x)) = n;
  lk_free : exists f, t_first_free_psl a = Some (Z.of_nat f) /\ (f < length (t_psls a))%nat /\ forall p x, t_psls a !! p = Some x -> (p < f)%nat <-> is_Some (t_owner x);
  lk_owner p x o : t_psls a !! p = Some x -> t_owner x = Some o -> 0 <= o /\ exists s, sets !! Z.to_nat o = Some s /\ Dot_PSL_of_YS s = Some (Z.of_nat p);
  lk_psl o s q : sets !! o = Some s -> Dot_PSL_of_YS s = Some q -> exists x, 0 <= q /\ t_psls a !! Z.to_nat q = Some x /\ t_owner x = Some (Z.of_nat o);
  lk_items p x j id : t_psls a !! p = Some x -> t_data x !! j = Some (Some id) -> exists i y, id = Z.of_nat i /\ yims !! i = Some y /\ AHM_of_YIM y = Z.of_nat j
}.

(** The items of the set [k] are in the arrays; those of the first set are not put there. *)
Definition found (k : Z) (sets : list YS) (yims : list YIM) (a : PSAR) : Prop := 0 < k -> forall i y, yims !! i = Some y -> YS_of_YIM y = k ->
  exists s q x, sets !! Z.to_nat (Origin_of_YIM y) = Some s /\ Dot_PSL_of_YS s = Some q /\ t_psls a !! Z.to_nat q = Some x /\ t_data x !! Z.to_nat (AHM_of_YIM y) = Some (Some (Z.of_nat i)).

(** Both depend on the keys of the items. *)
Lemma key_back (yims yims' : list YIM) i y : key <$> yims' = key <$> yims -> yims' !! i = Some y -> exists z, yims !! i = Some z /\ key z = key y.
Proof using. clear. intros E Hy. pose proof (f_equal (lookup i) E) as Ei. rewrite !list_lookup_fmap, Hy in Ei. symmetry in Ei. apply fmap_Some in Ei as (z&?&?). by exists z. Qed.

Lemma key_eq y z : key y = key z -> AHM_of_YIM y = AHM_of_YIM z /\ Origin_of_YIM y = Origin_of_YIM z /\ YS_of_YIM y = YS_of_YIM z.
Proof using. clear. unfold key. intros [= -> -> ->]. done. Qed.

Lemma lookups_keys sets yims yims' a : key <$> yims' = key <$> yims -> lookups sets yims a -> lookups sets yims' a.
Proof using.
  intros E [H1 H2 H3 H4 H5 H6]. split; [done..|]. intros p x j id Hp Hj. destruct (H6 _ _ _ _ Hp Hj) as (i&y&->&Hy&Ha).
  destruct (key_back yims' yims i y (eq_sym E) Hy) as (z&Hz&Hk). exists i, z. split; [done|]. split; [done|]. by rewrite (proj1 (key_eq _ _ Hk)).
Qed.

Lemma found_keys k sets yims yims' a : key <$> yims' = key <$> yims -> found k sets yims a -> found k sets yims' a.
Proof using.
  intros E Hf Hk0 i y Hy Hk. destruct (key_back _ _ _ _ E Hy) as (z&Hz&(Ea&Eo&Es)%key_eq). rewrite <- Ea, <- Eo. apply (Hf Hk0); [done|congruence].
Qed.

(** Counting the items of a set changes none of it. *)
Lemma lookups_count sets yims a k s c : lookups sets yims a -> sets !! k = Some s -> lookups (<[k := set_YIM_Count_of_YS c s]> sets) yims a.
Proof using.
  intros [H1 H2 H3 H4 H5 H6] Hs. split; [done..| | |done].
  - intros p x o Hp Ho. destruct (H4 _ _ _ Hp Ho) as (Hn&s'&Hs'&Hd). split; [done|]. destruct (decide (Z.to_nat o = k)) as [<-|Hne].
    + rewrite Hs in Hs'. injection Hs' as <-. eexists. split; [apply list_lookup_insert_eq; by eapply lookup_lt_Some|done].
    + exists s'. by rewrite list_lookup_insert_ne.
  - intros o s' q Hs' Hq. destruct (decide (o = k)) as [->|Hne].
    + rewrite list_lookup_insert_eq in Hs' by (by eapply lookup_lt_Some). injection Hs' as <-. by eapply H5.
    + rewrite list_lookup_insert_ne in Hs' by done. by eapply H5.
Qed.

Lemma found_count k0 sets yims a k s c : found k0 sets yims a -> sets !! k = Some s -> found k0 (<[k := set_YIM_Count_of_YS c s]> sets) yims a.
Proof using.
  intros Hf Hs Hk0 i y Hy Hk. destruct (Hf Hk0 i y Hy Hk) as (s'&q&x&Hs'&Hq&Hx&Hj). destruct (decide (Z.to_nat (Origin_of_YIM y) = k)) as [E|Hne].
  - rewrite E, Hs in Hs'. injection Hs' as <-. exists (set_YIM_Count_of_YS c s), q, x. rewrite E, list_lookup_insert_eq by (by eapply lookup_lt_Some). done.
  - exists s', q, x. by rewrite list_lookup_insert_ne.
Qed.

Lemma upd_psl_ok a p x f : t_psls a !! p = Some x -> upd_psl a (Z.of_nat p) f = Ok (MkPSAR (t_psl_length a) (<[p := f x]> (t_psls a)) (t_first_free_psl a)).
Proof using.
  clear. intros Hp. unfold upd_psl. rewrite (rd_at _ _ _ Hp). cbn [mbind res_bind]. rewrite wr_total by (apply lookup_lt_Some in Hp; lia). by rewrite Nat2Z.id.
Qed.

(** ** An array for a set *)

Definition claimed (a : PSAR) (o : Z) (f : nat) (x : PSL) : PSAR :=
  let l := if Z.of_nat f + 1 <? Z.of_nat (length (t_psls a)) then t_psls a else t_psls a ++ [psl_new (t_psl_length a)] in
  MkPSAR (t_psl_length a) (<[f := MkPSL (Some o) (t_data x)]> l) (Some (Z.of_nat f + 1)).

(** The arrays of [claimed]. *)
Lemma claimed_at a o f x p z : t_psls a !! f = Some x -> t_psls (claimed a o f x) !! p = Some z ->
  (p = f /\ z = MkPSL (Some o) (t_data x)) \/ (p <> f /\ (t_psls a !! p = Some z \/ (p = length (t_psls a) /\ z = psl_new (t_psl_length a)))).
Proof using.
  clear. intros Hf. unfold claimed. cbn [t_psls]. intros Hz. pose proof (lookup_lt_Some _ _ _ Hf) as Hl. destruct (decide (p = f)) as [->|Hne]; [left|right].
  - rewrite list_lookup_insert_eq in Hz by (case_match; rewrite ?length_app; lia). by injection Hz as <-.
  - split; [done|]. rewrite list_lookup_insert_ne in Hz by done. case_match; [by left|]. apply lookup_app_Some in Hz as [?|[Hp Hz]]; [by left|right].
    apply list_lookup_singleton_Some in Hz as [? <-]. split; [lia|done].
Qed.

Lemma claimed_keeps a o f x p z : t_psls a !! f = Some x -> t_psls a !! p = Some z -> exists z', t_psls (claimed a o f x) !! p = Some z' /\ t_data z' = t_data z /\ (p <> f -> z' = z).
Proof using.
  clear. intros Hf Hp. pose proof (lookup_lt_Some _ _ _ Hf) as Hl. unfold claimed. cbn [t_psls]. destruct (decide (p = f)) as [->|Hne].
  - rewrite Hf in Hp. injection Hp as <-. eexists. split; [apply list_lookup_insert_eq; case_match; rewrite ?length_app; lia|done].
  - exists z. rewrite list_lookup_insert_ne by done. split; [|done]. case_match; [done|]. by apply lookup_app_l_Some.
Qed.

Lemma claim_ok k sets yims a o s : 0 <= n -> lookups sets yims a -> found k sets yims a -> sets !! o = Some s -> Dot_PSL_of_YS s = None ->
  exists f x, t_first_free_psl a = Some (Z.of_nat f) /\ t_psls a !! f = Some x
  /\ let sets' := <[o := set_Dot_PSL_of_YS (Some (Z.of_nat f)) s]> sets in
     lookups sets' yims (claimed a (Z.of_nat o) f x) /\ found k sets' yims (claimed a (Z.of_nat o) f x).
Proof using.
  intros Hn [H1 H2 (f&Hf&Hl&Hfree) H4 H5 H6] Hfound Hs Hd. destruct (lookup_lt_is_Some_2 (t_psls a) f Hl) as [x Hx]. exists f, x. split; [done|]. split; [done|].
  pose proof (lookup_lt_Some _ _ _ Hs) as Ho. pose proof (claimed_at a (Z.of_nat o) f x) as Hat. pose proof (claimed_keeps a (Z.of_nat o) f x) as Hkeep.
  assert (t_owner x = None) as Hxo. { destruct (t_owner x) eqn:E; [|done]. assert (f < f)%nat by (apply (Hfree _ _ Hx); by eexists). lia. }
  cbn zeta. split.
  - split; [done| | | | |].
    + intros p z Hz. destruct (Hat _ _ Hx Hz) as [[-> ->]|[_ [Hp|[_ ->]]]]; [by apply (H2 _ _ Hx)|by eapply H2|]. cbn. rewrite length_replicate, H1. lia.
    + exists (S f). split; [cbn; f_equal; lia|]. split.
      { unfold claimed. cbn [t_psls]. rewrite length_insert. destruct (Z.ltb_spec (Z.of_nat f + 1) (Z.of_nat (length (t_psls a)))); [lia|rewrite length_app; cbn; lia]. }
      intros p z Hz. destruct (Hat _ _ Hx Hz) as [[-> ->]|[Hne [Hp|[Hp ->]]]]; [split; [by eexists|lia]| |split; [lia|by intros [? [=]]]].
      rewrite <- (Hfree _ _ Hp). lia.
    + intros p z o' Hz Ho'. destruct (Hat _ _ Hx Hz) as [[-> ->]|[Hne [Hp|[_ ->]]]]; [| |done].
      * injection Ho' as <-. split; [lia|]. rewrite Nat2Z.id. eexists. split; [by apply list_lookup_insert_eq|done].
      * destruct (H4 _ _ _ Hp Ho') as (Hz'&s'&Hs'&Hq). split; [done|]. exists s'. rewrite list_lookup_insert_ne; [done|]. intros E. rewrite <- E, Hs in Hs'. injection Hs' as <-. congruence.
    + intros o' s' q Hs' Hq. destruct (decide (o' = o)) as [->|Hne].
      * rewrite list_lookup_insert_eq in Hs' by done. injection Hs' as <-. injection Hq as <-. exists (MkPSL (Some (Z.of_nat o)) (t_data x)). split; [lia|]. rewrite Nat2Z.id. split; [|done].
        unfold claimed. cbn [t_psls]. apply list_lookup_insert_eq. case_match; rewrite ?length_app; lia.
      * rewrite list_lookup_insert_ne in Hs' by done. destruct (H5 _ _ _ Hs' Hq) as (z&Hq0&Hz&Hoz). destruct (Hkeep _ _ Hx Hz) as (z'&Hz'&_&Hsame). exists z. split; [done|].
        assert (Z.to_nat q <> f) as Hqf by (intros E; rewrite E, Hx in Hz; injection Hz as <-; congruence). rewrite (Hsame Hqf) in Hz'. done.
    + intros p z j id Hz Hj. destruct (Hat _ _ Hx Hz) as [[-> ->]|[Hne [Hp|[_ ->]]]]; [by eapply H6|by eapply H6|]. cbn in Hj. by apply lookup_replicate in Hj as [? _].
  - intros Hk0 i y Hy Hk. destruct (Hfound Hk0 i y Hy Hk) as (s'&q&z&Hs'&Hq&Hz&Hj). destruct (Hkeep _ _ Hx Hz) as (z'&Hz'&Hdata&_). exists s', q, z'.
    rewrite list_lookup_insert_ne; [by rewrite Hdata|]. intros E. rewrite <- E, Hs in Hs'. injection Hs' as <-. congruence.
Qed.

(** ** A new item in an array *)

Lemma lookups_new sets yims a q x y : lookups sets yims a -> t_psls a !! q = Some x -> 0 <= AHM_of_YIM y < n ->
  let x' := MkPSL (t_owner x) (<[Z.to_nat (AHM_of_YIM y) := Some (Z.of_nat (length yims))]> (t_data x)) in
  lookups sets (yims ++ [y]) (MkPSAR (t_psl_length a) (<[q := x']> (t_psls a)) (t_first_free_psl a)).
Proof using.
  intros [H1 H2 (f&Hf&Hl&Hfree) H4 H5 H6] Hx Ha x'. pose proof (lookup_lt_Some _ _ _ Hx) as Hq.
  assert (forall p z, <[q := x']> (t_psls a) !! p = Some z -> exists z0, t_psls a !! p = Some z0 /\ t_owner z = t_owner z0 /\ ((p = q /\ z = x' /\ z0 = x) \/ z = z0)) as Hat.
  { intros p z Hz. destruct (decide (p = q)) as [->|Hne]; [rewrite list_lookup_insert_eq in Hz by done; injection Hz as <-; exists x; naive_solver|].
    rewrite list_lookup_insert_ne in Hz by done. exists z. naive_solver. }
  split; cbn [t_psl_length t_psls t_first_free_psl]; [done| | | | |].
  - intros p z Hz. destruct (Hat _ _ Hz) as (z0&Hz0&_&[(->&->&->)| ->]); [cbn; rewrite length_insert|]; by eapply H2.
  - exists f. split; [done|]. rewrite length_insert. split; [done|]. intros p z Hz. destruct (Hat _ _ Hz) as (z0&Hz0&->&_). by apply Hfree.
  - intros p z o Hz Ho. destruct (Hat _ _ Hz) as (z0&Hz0&E&_). rewrite E in Ho. by eapply H4.
  - intros o s p Hs Hp. destruct (H5 _ _ _ Hs Hp) as (z&Hp0&Hz&Ho). destruct (decide (Z.to_nat p = q)) as [<-|Hne].
    + exists x'. split; [done|]. rewrite list_lookup_insert_eq by done. rewrite Hx in Hz. injection Hz as <-. done.
    + exists z. by rewrite list_lookup_insert_ne.
  - intros p z j id Hz Hj. destruct (Hat _ _ Hz) as (z0&Hz0&_&[(->&->&->)| ->]).
    + cbn in Hj. destruct (decide (j = Z.to_nat (AHM_of_YIM y))) as [->|Hne].
      * rewrite list_lookup_insert_eq in Hj; [|pose proof (H2 _ _ Hx); lia]. injection Hj as <-. exists (length yims), y. rewrite lookup_app_r, Nat.sub_diag by lia. split; [done|]. split; [done|lia].
      * rewrite list_lookup_insert_ne in Hj by done. destruct (H6 _ _ _ _ Hx Hj) as (i&y'&->&Hy'&E). exists i, y'. split; [done|]. split; [by apply lookup_app_l_Some|done].
    + destruct (H6 _ _ _ _ Hz0 Hj) as (i&y'&->&Hy'&E). exists i, y'. split; [done|]. split; [by apply lookup_app_l_Some|done].
Qed.

(** The cell written was that of no other item of the set. *)
Lemma found_new k sets yims a q x y s : lookups sets yims a -> found k sets yims a -> t_psls a !! q = Some x -> 0 <= AHM_of_YIM y < n ->
  sets !! Z.to_nat (Origin_of_YIM y) = Some s -> Dot_PSL_of_YS s = Some (Z.of_nat q) -> key y ∉ key <$> yims -> (forall i z, yims !! i = Some z -> 0 <= AHM_of_YIM z /\ 0 <= Origin_of_YIM z) -> 0 <= Origin_of_YIM y -> YS_of_YIM y = k ->
  let x' := MkPSL (t_owner x) (<[Z.to_nat (AHM_of_YIM y) := Some (Z.of_nat (length yims))]> (t_data x)) in
  found k sets (yims ++ [y]) (MkPSAR (t_psl_length a) (<[q := x']> (t_psls a)) (t_first_free_psl a)).
Proof using.
  intros Hl Hf Hx Ha Hs Hd Hnew Hpos Ho Hyk x' Hk0 i z Hz Hk. pose proof (lookup_lt_Some _ _ _ Hx) as Hq. pose proof (lk_data _ _ _ Hl _ _ Hx) as Hlen. apply lookup_app_Some in Hz as [Hz|[Hi Hz]].
  - destruct (Hf Hk0 i z Hz Hk) as (s'&p&w&Hs'&Hp&Hw&Hj). destruct (decide (Z.to_nat p = q)) as [<-|Hne].
    + exists s', p, x'. split; [done|]. split; [done|]. cbn [t_psls]. rewrite list_lookup_insert_eq by done. split; [done|]. cbn. rewrite Hx in Hw. injection Hw as <-.
      rewrite list_lookup_insert_ne; [done|]. intros E. apply Hnew. apply list_elem_of_fmap. exists z. split; [|by eapply list_elem_of_lookup_2].
      destruct (Hpos i z Hz) as [Hza Hzo]. assert (AHM_of_YIM z = AHM_of_YIM y) as E1 by lia.
      destruct (lk_psl _ _ _ Hl _ _ _ Hs' Hp) as (w&Hp0&Hw&Hwo). destruct (lk_psl _ _ _ Hl _ _ _ Hs Hd) as (w'&_&Hw'&Hwo'). rewrite Nat2Z.id in Hw'. rewrite Hw in Hw'. injection Hw' as <-.
      rewrite Hwo in Hwo'. injection Hwo' as Ez. unfold key. rewrite E1, Hk, Hyk. do 2 f_equal. lia.
    + exists s', p, w. cbn [t_psls]. by rewrite list_lookup_insert_ne.
  - apply list_lookup_singleton_Some in Hz as [Ei <-]. exists s, (Z.of_nat q), x'. rewrite Nat2Z.id. cbn [t_psls]. rewrite list_lookup_insert_eq by done. split; [done|]. split; [done|]. split; [done|].
    cbn. rewrite list_lookup_insert_eq by lia. do 2 f_equal. lia.
Qed.
End arrays.

(** ** [earley_item_assign] *)
Section assign.
Context `{HL : Library} (t0 : TABLES).
#[local] Abbreviation n := (ahms t0).

(** A set in the making, with its lookup arrays. *)
Record building (k : Z) (base : nat) (work : list Z) (r : RECCE) : Prop := {
  bd_making : making t0 k base work r;
  bd_lookups : lookups n (t_sets r) (t_yims r) (t_dot_psar_object r);
  bd_found : found k (t_sets r) (t_yims r) (t_dot_psar_object r)
}.

Lemma making_sets k base work r sets a : making t0 k base work r -> ys_view <$> sets = ys_view <$> t_sets r -> YIM_Count_of_YS <$> sets = YIM_Count_of_YS <$> t_sets r ->
  making t0 k base work (set_t_sets sets (set_t_dot_psar_object a r)) /\ extends r (set_t_sets sets (set_t_dot_psar_object a r)).
Proof using.
  clear. intros Hm Hv Hc. assert (extends r (set_t_sets sets (set_t_dot_psar_object a r))) as He by (split; [done|exists []; by rewrite app_nil_r|done|done]). split; [|done].
  destruct Hm as [H1 H2 H3 H4 H5 H6 H7]. split; [|done..|].
  - apply store_extends with r; [done|done| |apply H1]. intros id y. apply H1.
  - intros s Hs. cbn in Hs. pose proof (f_equal (lookup (Z.to_nat k)) Hc) as E. rewrite !list_lookup_fmap, Hs in E. symmetry in E. apply fmap_Some in E as (s'&Hs'&E).
    etransitivity; [exact E|]. by apply H7.
Qed.

(** The set gets an array when it has none. *)
Lemma claim_step k base work r o : 0 <= n -> building k base work r -> 0 <= o <= k ->
  ends_in (ys ← YS_by_ID r o; match Dot_PSL_of_YS ys with None => psl_claim r o | Some _ => Ok r end)
    (fun r' => building k base work r' /\ extends r r' /\ t_yims r' = t_yims r /\ t_completion_stack r' = t_completion_stack r
       /\ exists s q, t_sets r' !! Z.to_nat o = Some s /\ Dot_PSL_of_YS s = Some (Z.of_nat q)).
Proof using.
  intros Hn [Hm Hl Hf] Ho. pose proof (mk_store _ _ _ _ _ Hm) as Hst. destruct (set_read _ _ _ o Hst) as (s&Hs&Hrd); [lia|]. rewrite Hrd. cbn [mbind res_bind].
  destruct (Dot_PSL_of_YS s) as [q|] eqn:Hd.
  - apply ends_Ok. split; [done|]. split; [done|]. do 2 (split; [done|]). destruct (lk_psl _ _ _ _ Hl _ _ _ Hs Hd) as (x&Hq&_). exists s, (Z.to_nat q). rewrite Z2Nat.id; done.
  - destruct (claim_ok n k _ _ _ _ s Hn Hl Hf Hs Hd) as (f&x&Hfree&Hx&Hl'&Hf'). set (sets := <[_ := _]> _) in Hl', Hf'. pose proof (lookup_lt_Some _ _ _ Hs) as Hlt.
    assert (psl_claim r o = Ok (set_t_sets sets (set_t_dot_psar_object (claimed (t_dot_psar_object r) o f x) r))) as ->.
    { unfold psl_claim, psl_alloc. rewrite Hfree. cbn [written mbind res_bind fst snd]. set (l := if _ <? _ then _ else _). set (a := MkPSAR _ l _).
      rewrite (upd_ys_ok t0 (k + 1) (set_t_dot_psar_object a r) o s) by (first [by destruct Hst|done|lia]). cbn [mbind res_bind t_dot_psar_object set_t_sets set_t_dot_psar_object].
      rewrite (upd_psl_ok a f x) by (subst a l; cbn; case_match; [done|by apply lookup_app_l_Some]). cbn [mbind res_bind]. by destruct r. }
    apply ends_Ok. rewrite Z2Nat.id in Hl', Hf' by lia.
    destruct (making_sets k base work r sets (claimed (t_dot_psar_object r) o f x) Hm) as [Hm' He']; [by apply insert_view with s| |].
    { unfold sets. rewrite list_fmap_insert. apply list_insert_id. by rewrite list_lookup_fmap, Hs. }
    split; [by split|]. split; [done|]. do 2 (split; [done|]). exists (set_Dot_PSL_of_YS (Some (Z.of_nat f)) s), f. split; [by apply list_lookup_insert_eq|done].
Qed.

Lemma matches_ok k base work r q x id z o : building k base work r -> t_psls (t_dot_psar_object r) !! q = Some x -> 0 <= o <= k ->
  t_yims r !! id = Some z -> exists b, yim_matches r k o (Z.of_nat id) = Ok b /\ (b = true <-> Origin_of_YIM z = o /\ YS_of_YIM z = k).
Proof using.
  intros [Hm _ _] Hx Ho Hz. pose proof (mk_store _ _ _ _ _ Hm) as Hst. destruct (st_yims _ _ _ Hst _ _ Hz) as [_ Hsets _ _].
  destruct (set_read _ _ _ (YS_of_YIM z) Hst) as (s1&Hs1&H1); [lia|]. destruct (set_read _ _ _ k Hst) as (s2&Hs2&H2); [lia|].
  destruct (set_read _ _ _ (Origin_of_YIM z) Hst) as (s3&Hs3&H3); [lia|]. destruct (set_read _ _ _ o Hst) as (s4&Hs4&H4); [lia|].
  unfold yim_matches, Earleme_of_YIM. rewrite (yim_read _ _ _ Hz). cbn [mbind res_bind]. rewrite H1. cbn [mbind res_bind]. rewrite H2, H3, H4. cbn [mbind res_bind].
  eexists. split; [done|]. rewrite andb_true_iff, !Z.eqb_eq. split.
  - intros [E1 E2]. pose proof (times_inj _ _ _ _ _ _ _ Hst Hs1 Hs2 E1). pose proof (times_inj _ _ _ _ _ _ _ Hst Hs3 Hs4 E2). lia.
  - intros [E1 E2]. rewrite E1 in Hs3. rewrite E2 in Hs1. split; congruence.
Qed.

(** What is in the cell of an item that is in the set. *)
Lemma cell_found k base work r o x s q z : 0 < k -> building k base work r -> 0 <= o -> 0 <= x -> t_sets r !! Z.to_nat o = Some s -> Dot_PSL_of_YS s = Some (Z.of_nat q) ->
  t_psls (t_dot_psar_object r) !! q = Some z -> has r k x o -> exists i y, t_data z !! Z.to_nat x = Some (Some (Z.of_nat i)) /\ t_yims r !! i = Some y /\ key y = (x, o, k).
Proof using.
  intros Hk0 [_ _ Hf] Ho Hx Hs Hd Hz (i&y&Hy&[= E1 E2 E3]). destruct (Hf Hk0 i y Hy E3) as (s'&q'&z'&Hs'&Hq'&Hz'&Hj). rewrite E2, Hs in Hs'. injection Hs' as <-. rewrite Hd in Hq'. injection Hq' as <-.
  rewrite Nat2Z.id, Hz in Hz'. injection Hz' as <-. rewrite E1 in Hj. exists i, y. unfold key. by rewrite E1, E2, E3.
Qed.

(** The items of a set in the making all have a predecessor or a cause, or none has: what was
    made by the call. *)
Definition assigned (k x o : Z) (r r' : RECCE) (id : nat) : Prop :=
  exists y, t_yims r' !! id = Some y /\ key y = (x, o, k) /\
  ((t_yims r' = t_yims r /\ has r k x o) \/ (~ has r k x o /\ t_yims r' = t_yims r ++ [y] /\ t_container y = NO_SOURCE)).

Theorem assign_ok k base work r x o : 0 < k -> building k base work r -> 0 <= x < n -> 0 <= o <= k ->
  (o = k -> exists i, 0 <= i < IRL_Count_of_G (t_internal t0) /\ x = first t0 i) -> (~ has r k x o -> Z.of_nat (length work) + 1 < YIM_FATAL_THRESHOLD) ->
  ends_in (earley_item_assign r k o x) (fun c => exists id work', c.1 = Some (Z.of_nat id) /\ building k base work' c.2 /\ extends r c.2 /\ t_completion_stack c.2 = t_completion_stack r /\ assigned k x o r c.2 id).
Proof using HL.
  intros Hk0 Hb Hx Ho Hfirst Hroom. unfold earley_item_assign.
  destruct (claim_step k base work r o ltac:(lia) Hb Ho) as (r1&Hr1&Hb1&He1&Hy1&Hc1&s&q&Hs&Hd). destruct (YS_by_ID r o) as [ys| |]; cbn [mbind res_bind] in Hr1 |- *; [|done..]. rewrite Hr1. cbn [mbind res_bind]. clear Hr1 ys.
  pose proof Hb1 as [Hm1 Hl1 Hf1]. pose proof (mk_store _ _ _ _ _ Hm1) as Hst1. assert (YS_by_ID r1 o = Ok s) as -> by (apply rd_Ok; split; [lia|done]). cbn [mbind res_bind]. rewrite Hd. cbn [written mbind res_bind].
  destruct (lk_psl _ _ _ _ Hl1 _ _ _ Hs Hd) as (z&_&Hz&_). rewrite Nat2Z.id in Hz. unfold PSL_Datum. rewrite (rd_at _ _ _ Hz). cbn [mbind res_bind].
  destruct (lookup_lt_is_Some_2 (t_data z) (Z.to_nat x)) as [cell Hcell]; [pose proof (lk_data _ _ _ _ Hl1 _ _ Hz); lia|].
  assert (rd (t_data z) x = Ok cell) as -> by (apply rd_Ok; split; [lia|done]). cbn [mbind res_bind].
  assert (has r1 k x o <-> has r k x o) as Hhas by (unfold has; by rewrite Hy1).
  assert (exists b, match cell with None => Ok false | Some id => yim_matches r1 k o id end = Ok b /\ (b = true <-> has r1 k x o)
    /\ (b = true -> exists i y, cell = Some (Z.of_nat i) /\ t_yims r1 !! i = Some y /\ key y = (x, o, k))) as (b&->&Hbhas&Hbcell).
  { destruct cell as [c|].
    - destruct (lk_items _ _ _ _ Hl1 _ _ _ _ Hz Hcell) as (i&y&->&Hy&Ey). destruct (matches_ok k base work r1 q z i y o Hb1 Hz Ho Hy) as (b&Hbm&Hbiff). exists b. split; [done|].
      assert (key y = (x, o, k) <-> Origin_of_YIM y = o /\ YS_of_YIM y = k) as Hkey by (unfold key; split; [by intros [= _ -> ->]|intros [-> ->]; f_equal; f_equal; lia]).
      split; [|intros Hbt; exists i, y; split; [done|]; split; [done|]; by apply Hkey, Hbiff]. rewrite Hbiff, <- Hkey. split; [intros E; by exists i, y|]. intros Hh.
      destruct (cell_found k base work r1 o x s q z Hk0 Hb1 (proj1 Ho) (proj1 Hx) Hs Hd Hz Hh) as (i'&y'&Hc'&Hy'&Ek). rewrite Hcell in Hc'. injection Hc' as Ei. apply Nat2Z.inj in Ei as <-. congruence.
    - exists false. split; [done|]. split; [|done]. split; [done|]. intros Hh.
      destruct (cell_found k base work r1 o x s q z Hk0 Hb1 (proj1 Ho) (proj1 Hx) Hs Hd Hz Hh) as (i'&y'&Hc'&_). congruence. }
  rewrite Hhas in Hbhas. cbn [mbind res_bind]. destruct b.
  - destruct (Hbcell eq_refl) as (i&y&->&Hy&Ek). apply ends_Ok. exists i, work. split; [done|]. split; [done|]. split; [done|]. split; [done|].
    exists y. split; [done|]. split; [done|]. left. split; [done|]. by apply Hbhas.
  - assert (~ has r k x o) as Hnew by (intros Hh; by apply Hbhas in Hh). clear Hbhas Hbcell.
    destruct (create_ok t0 k base work r1 x o Hm1 ltac:(lia) Hx Ho Hfirst ltac:(by rewrite Hhas) (Hroom Hnew)) as (sk&t&y&Hsk&Ht&Ey&Esrc&->&He2&Hm2). set (id := Z.of_nat (length (t_yims r1))) in *. set (r2 := with_yim _ _ _ _ _ _) in *.
    cbn [mbind res_bind fst snd]. pose proof (lookup_lt_Some _ _ _ Hz) as Hq. pose proof (lk_data _ _ _ _ Hl1 _ _ Hz) as Hlen. unfold set_PSL_Datum. change (t_dot_psar_object r2) with (t_dot_psar_object r1).
    rewrite (rd_at _ _ _ Hz). cbn [mbind res_bind]. rewrite wr_total by lia. cbn [mbind res_bind]. rewrite (upd_psl_ok _ _ _ _ Hz). cbn [mbind res_bind].
    assert (AHM_of_YIM y = x /\ Origin_of_YIM y = o /\ YS_of_YIM y = k) as (Ea&Eo&Ek) by (unfold key in Ey; by injection Ey as -> -> ->).
    pose proof (lookups_count n _ _ _ _ _ (Z.of_nat (length work) + 1) Hl1 Hsk) as Hl2. pose proof (found_count k _ _ _ _ _ (Z.of_nat (length work) + 1) Hf1 Hsk) as Hf2. set (sets := <[_ := _]> _) in Hl2, Hf2, r2.
    assert (exists s', sets !! Z.to_nat o = Some s' /\ Dot_PSL_of_YS s' = Some (Z.of_nat q)) as (s'&Hs'&Hd').
    { unfold sets. destruct (decide (Z.to_nat k = Z.to_nat o)) as [E|Hne]; [|rewrite list_lookup_insert_ne by done; by exists s]. rewrite E, list_lookup_insert_eq by (by eapply lookup_lt_Some). rewrite E, Hs in Hsk. injection Hsk as <-. by eexists. }
    apply ends_Ok. exists (length (t_yims r1)), (work ++ [id]). cbn [fst snd]. split; [done|].
    match goal with |- building _ _ _ ?r3 /\ _ => assert (extends r2 r3) as He3 by (split; [done|exists []; by rewrite app_nil_r|done|done]); assert (making t0 k base (work ++ [id]) r3) as Hm3 end.
    { destruct Hm2 as [[K1 K2 K3 K4 K5 K6 K7] H2 H3 H4 H5 H6 H7]. split; [split|..]; assumption. }
    split; [split; [done| |]|].
    + pose proof (lookups_new n _ _ _ q z y Hl2 Hz ltac:(lia)) as Hln. rewrite Ea in Hln. exact Hln.
    + pose proof (found_new n k _ _ _ q z y s' Hl2 Hf2 Hz ltac:(lia) ltac:(by rewrite Eo) Hd') as Hfn. rewrite Ea in Hfn. apply Hfn; [| |lia|done].
      * rewrite Ey. intros Hin. apply Hnew. apply Hhas. by apply has_key.
      * intros i w Hw. destruct (st_yims _ _ _ Hst1 _ _ Hw) as [? ? _ _]. lia.
    + split; [by do 2 (etransitivity; [|eassumption])|]. split; [done|]. exists y. split; [unfold r2; cbn; by rewrite lookup_app_r, Nat.sub_diag by lia|]. split; [done|]. right. split; [done|]. split; [|done]. unfold r2. cbn. by rewrite Hy1.
Qed.
End assign.

(** * The postdot items of a finished set

    Which items of a set expect a symbol ([waits]); the postdot items of a set that tell so
    ([settled]), Leo items among them; what keeps them ([kept]); the loop over them. *)

(** The postdot items of a symbol that are not Leo items, and the Earley items they tell;
    they were made in the opposite order. *)
Inductive chain (pims : list PIM) (A : Z) : option Z -> list Z -> Prop :=
| chain_end : chain pims A None []
| chain_yix p next y l : pims !! p = Some (PIM_of_YIX (MkYIX next A (Some y))) -> (forall q, next = Some q -> q < Z.of_nat p) -> chain pims A next l ->
    chain pims A (Some (Z.of_nat p)) (y :: l).

(** The same, with the Leo item before them. *)
Inductive heads (pims : list PIM) (A : Z) : option Z -> list Z -> option LIM -> Prop :=
| heads_yix o l : chain pims A o l -> heads pims A o l None
| heads_lim p lim q b : pims !! p = Some (PIM_of_LIM lim) -> YIX_of_LIM lim = MkYIX (Some q) A None -> q < Z.of_nat p -> chain pims A (Some q) [b] ->
    heads pims A (Some (Z.of_nat p)) [b] (Some lim).

Definition at_pim r (j A : Z) (o : option Z) : Prop := first_pim_of_ys_by_nsyid r j A = Ok o.

(** The Leo item of a set and a symbol: its top item and its origin. *)
Definition leo r (j A top o : Z) : Prop :=
  exists p lim, at_pim r j A (Some (Z.of_nat p)) /\ t_pims r !! p = Some (PIM_of_LIM lim) /\ Origin_of_LIM lim = Some o /\ Top_AHM_of_LIM lim = top.

(** The lists of the Leo items that links lead to. *)
Definition links_ok (t0 : TABLES) r : Prop := forall i y l, t_yims r !! i = Some y -> l ∈ First_Leo_SRCL_of_YIM y ->
  exists p lim c, Predecessor_of_SRCL l = Z.of_nat p /\ t_pims r !! p = Some (PIM_of_LIM lim) /\ CIL_of_LIM lim = Some c /\ ahm_list t0 c.

Section pims.
Context (t0 : TABLES) (allowed : Z -> Prop) (tok : Z -> Z -> Z -> Prop).

(** The item number [id] is in the set [j] and expects [A]. *)
Definition waits r (j A : Z) (id : nat) : Prop := exists y, t_yims r !! id = Some y /\ YS_of_YIM y = j /\ postdot t0 (AHM_of_YIM y) = A.

(** A Leo item of [j] whose base is the item [x] from [ox]. *)
Definition lim_fits r (j A : Z) (lim : LIM) (x ox : Z) : Prop := exists o c,
  Origin_of_LIM lim = Some o /\ CIL_of_LIM lim = Some c /\ ahm_list t0 c /\ LIM_is_Active lim = true /\ leo_completion t0 (x + 1)
  /\ climbs t0 allowed tok j A (Top_AHM_of_LIM lim) o /\ ((Top_AHM_of_LIM lim = x + 1 /\ o = ox) \/ leo r ox (lhs t0 (x + 1)) (Top_AHM_of_LIM lim) o).

Definition settled_at r (j A : Z) : Prop := exists o ids m,
  at_pim r j A o /\ heads (t_pims r) A o ids m /\ (forall i, i ∈ ids <-> exists id, i = Z.of_nat id /\ waits r j A id)
  /\ (forall lim id y, m = Some lim -> ids = [Z.of_nat id] -> t_yims r !! id = Some y -> lim_fits r j A lim (AHM_of_YIM y) (Origin_of_YIM y)).
Definition settled r (j : Z) : Prop := forall A, 0 <= A -> settled_at r j A.

(** What keeps the sets before [k]. *)
Record kept (k : Z) r r' : Prop := {
  kp_pims : exists l, t_pims r' = t_pims r ++ l;
  kp_keys : exists l, key <$> t_yims r' = (key <$> t_yims r) ++ l /\ forall q, q ∈ l -> k <= q.2;
  kp_sets j s : 0 <= j < k -> t_sets r !! Z.to_nat j = Some s -> exists s', t_sets r' !! Z.to_nat j = Some s' /\ t_postdot_ary s' = t_postdot_ary s /\ Postdot_SYM_Count_of_YS s' = Postdot_SYM_Count_of_YS s
}.

#[export] Instance kept_preorder k : PreOrder (kept k).
Proof.
  split.
  - intros r. split; [exists []; by rewrite app_nil_r|exists []; rewrite app_nil_r; split; [done|set_solver]|intros j s _ Hs; by exists s].
  - intros r1 r2 r3 [(l1&H1) (l2&H2&H2') H3] [(l4&H4) (l5&H5&H5') H6]. split.
    + exists (l1 ++ l4). by rewrite H4, H1, app_assoc.
    + exists (l2 ++ l5). rewrite H5, H2, app_assoc. split; [done|]. intros q [?|?]%elem_of_app; auto.
    + intros j s Hj Hs. destruct (H3 _ _ Hj Hs) as (s'&Hs'&E1&E2). destruct (H6 _ _ Hj Hs') as (s''&Hs''&E3&E4). exists s''. split; [done|]. split; congruence.
Qed.

Section kept.
Context (k : Z) (r r' : RECCE) (Hk : kept k r r').

Lemma kept_pim p x : t_pims r !! p = Some x -> t_pims r' !! p = Some x.
Proof using Hk. destruct (kp_pims _ _ _ Hk) as (l&->). intros ?. by apply lookup_app_l_Some. Qed.

Lemma kept_read p x : PIM_by_ID r p = Ok x -> PIM_by_ID r' p = Ok x.
Proof using Hk. unfold PIM_by_ID. rewrite !rd_Ok. intros [? ?%kept_pim]. done. Qed.

Lemma kept_search rounds ary A lo hi o : pim_search rounds r ary A lo hi = Ok o -> pim_search rounds r' ary A lo hi = Ok o.
Proof using Hk.
  revert lo hi. induction rounds as [|rounds IH]; intros lo hi; cbn [pim_search]; [done|]. case_match; [done|]. destruct (rd ary _) as [i| |]; cbn [mbind res_bind]; [|done..].
  destruct (PIM_by_ID r i) as [x| |] eqn:E; cbn [mbind res_bind]; [|done..]. rewrite (kept_read _ _ E). cbn [mbind res_bind]. do 2 (case_match; auto).
Qed.

Lemma kept_at j A o : 0 <= j < k -> at_pim r j A o -> at_pim r' j A o.
Proof using Hk.
  unfold at_pim, first_pim_of_ys_by_nsyid, pim_nsy_p_find, YS_by_ID. intros Hj Ho. apply bind_Ok in Ho as (ix&Hix&Ho). apply bind_Ok in Hix as (s&Hs&Hix). apply rd_Ok in Hs as [Hj0 Hs].
  destruct (kp_sets _ _ _ Hk j s Hj Hs) as (s'&Hs'&Ea&Ec). assert (rd (t_sets r) j = Ok s) as Hs0 by (by apply rd_Ok). assert (rd (t_sets r') j = Ok s') as Hs1 by (by apply rd_Ok).
  rewrite Hs1. cbn [mbind res_bind]. rewrite Ea, Ec. rewrite Hs0 in Ho. destruct (_ <? 0); [injection Hix as <-; done|]. apply bind_Ok in Hix as (ary&Hary&Hix). cbn [mbind res_bind] in Ho. rewrite Hary in Ho |- *. cbn [mbind res_bind]. rewrite (kept_search _ _ _ _ _ _ Hix). exact Ho.
Qed.

Lemma kept_chain A o l : chain (t_pims r) A o l -> chain (t_pims r') A o l.
Proof using Hk. induction 1 as [|p next y l Hp Hn _ IH]; econstructor; eauto using kept_pim. Qed.

Lemma kept_heads A o l m : heads (t_pims r) A o l m -> heads (t_pims r') A o l m.
Proof using Hk. destruct 1 as [o l Hc|p lim q b Hp Hy Hq Hc]; [constructor; by apply kept_chain|econstructor; eauto using kept_pim, kept_chain]. Qed.

Lemma kept_key id y : t_yims r !! id = Some y -> exists y', t_yims r' !! id = Some y' /\ key y' = key y.
Proof using Hk.
  destruct (kp_keys _ _ _ Hk) as (l&Hl&_). intros Hy. assert (key <$> t_yims r' !! id = Some (key y)) as E.
  { rewrite <- list_lookup_fmap, Hl, lookup_app_l by (rewrite length_fmap; by eapply lookup_lt_Some). by rewrite list_lookup_fmap, Hy. }
  apply fmap_Some in E as (y'&Hy'&E). by exists y'.
Qed.

Lemma kept_back id y' : t_yims r' !! id = Some y' -> YS_of_YIM y' < k -> exists y, t_yims r !! id = Some y /\ key y' = key y.
Proof using Hk.
  destruct (kp_keys _ _ _ Hk) as (l&Hl&Hnew). intros Hy Hlt. pose proof (f_equal (lookup id) Hl) as E. rewrite list_lookup_fmap, Hy in E. cbn in E. symmetry in E. apply lookup_app_Some in E as [E|[_ E]].
  - rewrite list_lookup_fmap in E. apply fmap_Some in E as (y&Hy'&E). by exists y.
  - apply list_elem_of_lookup_2, Hnew in E. cbn in E. lia.
Qed.

Lemma kept_waits j A id : j < k -> waits r' j A id <-> waits r j A id.
Proof using Hk.
  intros Hj. split.
  - intros (y'&Hy'&Es&Ep). destruct (kept_back id y' Hy') as (y&Hy&E); [lia|]. apply key_eq in E as (E1&_&E3). exists y. split; [done|]. split; congruence.
  - intros (y&Hy&Es&Ep). destruct (kept_key id y Hy) as (y'&Hy'&E). apply key_eq in E as (E1&_&E3). exists y'. split; [done|]. split; congruence.
Qed.

Lemma kept_has j x o : has r j x o -> has r' j x o.
Proof using Hk. intros (id&y&Hy&E). destruct (kept_key id y Hy) as (y'&Hy'&E'). exists id, y'. split; [done|congruence]. Qed.

Lemma kept_has_back j x o : j < k -> has r' j x o -> has r j x o.
Proof using Hk. intros Hj (id&y&Hy&E). destruct (kept_back id y Hy) as (y'&Hy'&E'); [unfold key in E; injection E; lia|]. exists id, y'. split; [done|congruence]. Qed.

Lemma kept_leo j A top o : 0 <= j < k -> leo r j A top o -> leo r' j A top o.
Proof using Hk. intros Hj (p&lim&Hp&Hl&?). exists p, lim. eauto using kept_at, kept_pim. Qed.

Lemma kept_leo_back j A top o : 0 <= j < k -> settled_at r j A -> leo r' j A top o -> leo r j A top o.
Proof using Hk.
  intros Hj (o1&ids&m&Hat&Hh&_) (p&lim&Hp&Hl&Ho). pose proof (kept_at _ _ _ Hj Hat) as Hat'. unfold at_pim in Hp, Hat'. rewrite Hp in Hat'. injection Hat' as <-. exists p, lim. split; [done|]. split; [|done].
  inversion Hh as [? ? Hc|p' lim' q b Hp' ? ? ? E]; subst.
  - inversion Hc as [|p' next y l Hp' ? ? E]; subst. apply Nat2Z.inj in E as ->. apply kept_pim in Hp'. congruence.
  - apply Nat2Z.inj in E as ->. pose proof (kept_pim _ _ Hp') as Hp2. congruence.
Qed.

Lemma kept_lim_fits j A lim x ox : 0 <= ox < k -> lim_fits r j A lim x ox -> lim_fits r' j A lim x ox.
Proof using Hk. intros Hox (o&c&H1&H2&H3&H4&H5&H6&[?|?]); exists o, c; eauto 10 using kept_leo. Qed.

Lemma kept_settled j : 0 <= j < k -> (forall id y, t_yims r !! id = Some y -> 0 <= Origin_of_YIM y <= YS_of_YIM y) -> settled r j -> settled r' j.
Proof using Hk.
  intros Hj Hord Hs A HA. destruct (Hs A HA) as (o&ids&m&Ho&Hh&Hin&Hlim). exists o, ids, m. split; [by apply kept_at|]. split; [by apply kept_heads|].
  split; [intros i; rewrite Hin; split; intros (id&->&Hw); exists id; (split; [done|]); by apply (kept_waits j A id (proj2 Hj))|].
  intros lim id y' -> Eids Hy'. assert (waits r' j A id) as Hw. { apply (kept_waits j A id (proj2 Hj)). assert (Z.of_nat id ∈ ids) as Hi by (rewrite Eids; set_solver). apply Hin in Hi as (id'&E&Hw). by apply Nat2Z.inj in E as <-. }
  destruct Hw as (y2&Hy2&Es&_). rewrite Hy' in Hy2. injection Hy2 as <-. destruct (kept_back id y' Hy') as (y&Hy&(E1&E2&E3)%key_eq); [lia|]. rewrite E1, E2. apply kept_lim_fits; [pose proof (Hord _ _ Hy); lia|]. by apply (Hlim lim id).
Qed.

End kept.

(** The making of items keeps the sets before. *)
Lemma extends_kept k base work work' r r' : making t0 k base work r -> making t0 k base work' r' -> extends r r' -> kept k r r'.
Proof.
  intros Hm Hm' He. split.
  - exists []. rewrite app_nil_r. exact (f_equal t_pims (ex_rest _ _ He)).
  - destruct (ex_keys _ _ He) as (l&Hl). exists l. split; [done|]. intros q Hq. apply list_elem_of_lookup in Hq as (i&Hi).
    assert ((key <$> t_yims r') !! (length (t_yims r) + i)%nat = Some q) as E by (rewrite Hl, lookup_app_r, length_fmap by (rewrite length_fmap; lia); rewrite <- Hi; f_equal; lia).
    rewrite list_lookup_fmap in E. apply fmap_Some in E as (y&Hy&->). cbn. assert (YS_of_YIM y = k) as ->; [|lia]. apply (mk_set _ _ _ _ _ Hm' _ _ Hy). pose proof (mk_length _ _ _ _ _ Hm). lia.
  - intros j s _ Hs. destruct (view_at _ _ _ _ (ex_sets _ _ He) Hs) as (s'&Hs'&E). exists s'. split; [done|]. split; [exact (f_equal t_postdot_ary E)|exact (f_equal Postdot_SYM_Count_of_YS E)].
Qed.

(** ** The loop over the postdot items *)

Lemma chain_length pims A o l : chain pims A o l -> forall p, o = Some (Z.of_nat p) -> (length l <= S p)%nat /\ (p < length pims)%nat.
Proof.
  induction 1 as [|p next y l Hp Hn Hc IH]; intros p' E; [done|]. injection E as E. apply Nat2Z.inj in E as <-. split; [|by eapply lookup_lt_Some]. cbn [length].
  inversion Hc as [|q next' y' l' Hq Hn' Hc' E]; subst; cbn [length] in *; [lia|]. destruct (IH q eq_refl). specialize (Hn _ eq_refl). lia.
Qed.

Lemma each_pim_chain (I : list Z -> RECCE -> Prop) pims A body : (forall l r, I l r -> t_pims r = pims) ->
  forall o l, chain pims A o l ->
  (forall l0 p next y r, I l0 r -> y ∈ l -> pims !! p = Some (PIM_of_YIX (MkYIX next A (Some y))) -> ends_in (body (PIM_of_YIX (MkYIX next A (Some y))) (Z.of_nat p) r) (fun c => c.1 = true /\ I (l0 ++ [y]) c.2)) ->
  forall rounds l0 r, (length l <= rounds)%nat -> I l0 r -> ends_in (each_pim rounds o body r) (I (l0 ++ l)).
Proof.
  intros Hpims o l. induction 1 as [|p next y l Hp Hn Hc IH]; intros Hbody rounds l0 r Hlen Hi.
  { destruct rounds; apply ends_Ok; by rewrite app_nil_r. }
  destruct rounds as [|rounds]; [cbn in Hlen; lia|]. cbn [each_pim]. unfold PIM_by_ID. rewrite (Hpims _ _ Hi), (rd_at _ _ _ Hp). cbn [mbind res_bind].
  destruct (Hbody l0 p next y r Hi ltac:(by left) Hp) as ([c r']&->&Hc1&Hi'). cbn [mbind res_bind fst snd] in *. subst c. rewrite (Hpims _ _ Hi'), (rd_at _ _ _ Hp). cbn [mbind res_bind Next_PIM_of_PIM YIX_of_PIM Next_PIM_of_YIX].
  apply (ends_mono _ (I ((l0 ++ [y]) ++ l))); [apply IH; [intros l1 p1 n1 y1 r1 Hi1 Hy1; apply Hbody; [done|by right]|cbn in Hlen; lia|done]|]. intros r2. by rewrite <- app_assoc.
Qed.
End pims.

(** * A set in the making, and the items that are added to it

    [stage]: what holds while the set [k] is made - its items and those of the sets before
    are Earley items of the input, the sets before are settled.  An item is assigned, and
    gets a link. *)

(** An item that has been given another source. *)
Definition same_yim (y y' : YIM) : Prop := key y' = key y /\ YIM_is_Active y' = YIM_is_Active y /\ Ord_of_YIM y' = Ord_of_YIM y.

Lemma upd_yim_ok r id y f : t_yims r !! id = Some y -> upd_yim r (Z.of_nat id) f = Ok (set_t_yims (<[id := f y]> (t_yims r)) r).
Proof.
  intros Hy. unfold upd_yim, YIM_by_ID. rewrite (rd_at _ _ _ Hy). cbn [mbind res_bind]. rewrite wr_total by (apply lookup_lt_Some in Hy; lia). by rewrite Nat2Z.id.
Qed.

Lemma keys_insert (yims : list YIM) id y y' : yims !! id = Some y -> key y' = key y -> key <$> <[id := y']> yims = key <$> yims.
Proof. intros Hy E. rewrite list_fmap_insert, E. apply list_insert_id. by rewrite list_lookup_fmap, Hy. Qed.

Section stage.
Context `{HL : Library} (t0 : TABLES) (Hen : engine t0) (allowed : Z -> Prop) (tok : Z -> Z -> Z -> Prop) (Htok : forall j y k, tok j y k -> 0 <= j < k).
#[local] Abbreviation item := (item t0 allowed tok).
#[local] Abbreviation postdot := (postdot t0).
#[local] Abbreviation settled := (settled t0 allowed tok).
Context (k : Z) (Hk0 : 0 <= k) (base : nat).
(** The set has room for its items. *)
Context (Hroom : forall l, NoDup l -> (forall x o, (x, o) ∈ l -> item k x o) -> Z.of_nat (length l) < YIM_FATAL_THRESHOLD).

Record stage (work : list Z) (r : RECCE) : Prop := {
  sg_building : building t0 k base work r;
  sg_sound j x o : has r j x o -> item j x o;
  sg_settled j : 0 <= j < k -> settled r j;
  sg_links : links_ok t0 r
}.

Lemma stage_store work r : stage work r -> store t0 (k + 1) r.
Proof using. intros Hs. apply (sg_building _ _ Hs). Qed.

(** The items of the set, without the set. *)
Definition pairs (r : RECCE) : list (Z * Z) := (fun y => (AHM_of_YIM y, Origin_of_YIM y)) <$> drop base (t_yims r).

Lemma pairs_nodup work r : stage work r -> NoDup (pairs r).
Proof using.
  intros [[Hm _ _] _ _ _]. pose proof (mk_set _ _ _ _ _ Hm) as Hset. apply NoDup_fmap_2_strong.
  - intros y z (i&Hy)%list_elem_of_lookup (j&Hz)%list_elem_of_lookup [= E1 E2]. rewrite lookup_drop in Hy, Hz. pose proof (st_keys _ _ _ (mk_store _ _ _ _ _ Hm)) as Hnd.
    assert ((base + i = base + j)%nat) as E; [|rewrite E in Hy; congruence]. apply (NoDup_lookup (key <$> t_yims r) _ _ (key y) Hnd); rewrite list_lookup_fmap; [by rewrite Hy|rewrite Hz; cbn; f_equal].
    assert (YS_of_YIM y = k) by (apply (Hset _ _ Hy); lia). assert (YS_of_YIM z = k) by (apply (Hset _ _ Hz); lia). unfold key. congruence.
  - apply (sublist_NoDup _ (t_yims r)); [|apply sublist_drop]. apply (NoDup_fmap_1 key). apply (st_keys _ _ _ (mk_store _ _ _ _ _ Hm)).
Qed.

Lemma pairs_has work r x o : stage work r -> (x, o) ∈ pairs r <-> has r k x o.
Proof using.
  intros [[Hm _ _] _ _ _]. pose proof (mk_set _ _ _ _ _ Hm) as Hset. unfold pairs. rewrite list_elem_of_fmap. split.
  - intros (y&[= -> ->]&(i&Hy)%list_elem_of_lookup). rewrite lookup_drop in Hy. exists (base + i)%nat, y. split; [done|]. unfold key. do 2 f_equal. apply (Hset _ _ Hy). lia.
  - intros (id&y&Hy&Hkey). unfold key in Hkey. injection Hkey as <- <- E. exists y. split; [done|]. assert (base <= id)%nat by (by apply (Hset _ _ Hy)). apply list_elem_of_lookup. exists (id - base)%nat. rewrite lookup_drop. by replace (base + (id - base))%nat with id by lia.
Qed.

Lemma stage_length work r : stage work r -> length (pairs r) = length work.
Proof using. intros [[Hm _ _] _ _ _]. unfold pairs. rewrite length_fmap, length_drop, (mk_length _ _ _ _ _ Hm). lia. Qed.

Lemma stage_room work r : stage work r -> Z.of_nat (length work) < YIM_FATAL_THRESHOLD.
Proof using Hroom.
  intros Hs. rewrite <- (stage_length _ _ Hs). apply Hroom; [by eapply pairs_nodup|]. intros x o Hx. apply (sg_sound _ _ Hs). by apply (pairs_has work r).
Qed.

Lemma room_for work r x o : stage work r -> item k x o -> ~ has r k x o -> Z.of_nat (length work) + 1 < YIM_FATAL_THRESHOLD.
Proof using Hroom.
  intros Hs Hi Hn. rewrite <- (stage_length _ _ Hs). replace (Z.of_nat (length (pairs r)) + 1) with (Z.of_nat (length ((x, o) :: pairs r))) by (cbn [length]; lia). apply Hroom.
  - constructor; [by rewrite (pairs_has work r)|by eapply pairs_nodup].
  - intros x' o' [[= -> ->]|Hin]%elem_of_cons; [done|]. apply (sg_sound _ _ Hs). by apply (pairs_has work r).
Qed.

(** Another stage of the same set. *)
Lemma stage_next work work' r r' : stage work r -> building t0 k base work' r' -> extends r r' -> links_ok t0 r' -> (forall x o, has r' k x o -> has r k x o \/ item k x o) -> stage work' r'.
Proof using.
  intros Hs Hb He Hl Hnew. pose proof (extends_kept _ _ _ _ _ _ _ (bd_making _ _ _ _ _ (sg_building _ _ Hs)) (bd_making _ _ _ _ _ Hb) He) as Hk. split; [done| | |done].
  - intros j x o Hj. destruct (decide (j = k)) as [->|Hne]; [destruct (Hnew _ _ Hj); [by apply Hs|done]|]. apply Hs. apply (kept_has_back k r r' Hk); [|done].
    destruct Hj as (id&y&Hy&E). destruct (st_yims _ _ _ (mk_store _ _ _ _ _ (bd_making _ _ _ _ _ Hb)) _ _ Hy) as [_ ? _ _]. unfold key in E. injection E as _ _ E. lia.
  - intros j Hj. apply (kept_settled t0 allowed tok k r r' Hk j Hj); [|by apply Hs]. intros id y Hy. by destruct (st_yims _ _ _ (stage_store _ _ Hs) _ _ Hy) as [_ [? _] _ _].
Qed.

(** ** An item is assigned *)

Lemma links_new r r' y : links_ok t0 r -> t_pims r' = t_pims r -> t_yims r' = t_yims r ++ [y] -> t_container y = NO_SOURCE -> links_ok t0 r'.
Proof using.
  intros Hl Hp Hy Hn i z l Hz Hin. rewrite Hp. rewrite Hy in Hz. apply lookup_app_Some in Hz as [Hz|[_ Hz]]; [by eapply Hl|].
  apply list_lookup_singleton_Some in Hz as [_ <-]. unfold First_Leo_SRCL_of_YIM in Hin. rewrite Hn in Hin. by apply not_elem_of_nil in Hin.
Qed.

Lemma stage_assign work r x o : 0 < k -> stage work r -> item k x o -> ends_in (earley_item_assign r k o x) (fun c => exists id work',
  c.1 = Some (Z.of_nat id) /\ stage work' c.2 /\ extends r c.2 /\ t_completion_stack c.2 = t_completion_stack r /\ assigned k x o r c.2 id).
Proof using HL Hen Htok Hk0 Hroom.
  intros Hkp Hs Hi. destruct (item_bounds _ _ _ Hen Htok _ _ _ Hi) as (Ho&Hx&Hf).
  destruct (assign_ok t0 k base work r x o Hkp (sg_building _ _ Hs) Hx Ho Hf) as (c&->&id&work'&Hc&Hb&He&Hcs&Ha); [intros Hn; by apply (room_for work r x o)|].
  apply ends_Ok. exists id, work'. split; [done|]. split; [|done]. destruct Ha as (y&Hy&Hkey&[[Hsame _]|(_&Hnew&Hsrc)]).
  - apply (stage_next work work' r); [done..| |].
    + intros i z l Hz Hin. rewrite Hsame in Hz. rewrite (f_equal t_pims (ex_rest _ _ He) : t_pims c.2 = t_pims r). exact (sg_links _ _ Hs i z l Hz Hin).
    + intros x' o' (i&z&Hz&E). left. exists i, z. by rewrite <- Hsame.
  - apply (stage_next work work' r); [done..| |].
    + apply (links_new r c.2 y); [by apply (sg_links _ _ Hs)|exact (f_equal t_pims (ex_rest _ _ He))|done|done].
    + intros x' o' (i&z&Hz&E). rewrite Hnew in Hz. apply lookup_app_Some in Hz as [Hz|[_ Hz]]; [left; by exists i, z|right].
      apply list_lookup_singleton_Some in Hz as [_ <-]. rewrite Hkey in E. by injection E as <- <-.
Qed.

(** ** An item gets a source *)

Lemma stage_update work r id y y' : stage work r -> t_yims r !! id = Some y -> same_yim y y' ->
  (forall l, l ∈ First_Leo_SRCL_of_YIM y' -> exists p lim c, Predecessor_of_SRCL l = Z.of_nat p /\ t_pims r !! p = Some (PIM_of_LIM lim) /\ CIL_of_LIM lim = Some c /\ ahm_list t0 c) ->
  let r' := set_t_yims (<[id := y']> (t_yims r)) r in stage work r' /\ extends r r'.
Proof using.
  intros Hs Hy (Ek&Ea&Eo) Hlinks r'. destruct (sg_building _ _ Hs) as [Hm Hl Hf]. pose proof (keys_insert _ _ _ _ Hy Ek) as Hkeys.
  assert (extends r r') as He by (split; [done|exists []; by rewrite app_nil_r|done|done]). split; [|done].
  assert (forall i z, <[id := y']> (t_yims r) !! i = Some z -> exists z0, t_yims r !! i = Some z0 /\ same_yim z0 z) as Hat.
  { intros i z Hz. destruct (decide (i = id)) as [->|Hne]; [|rewrite list_lookup_insert_ne in Hz by done; by exists z]. rewrite list_lookup_insert_eq in Hz by (by eapply lookup_lt_Some). injection Hz as <-. by exists y. }
  assert (building t0 k base work r') as Hb.
  { split; [|by apply (lookups_keys _ _ (t_yims r))|by apply (found_keys k _ (t_yims r))]. destruct Hm as [Hst H2 H3 H4 H5 H6 H7]. split; [|done|done|cbn; by rewrite length_insert| | |done].
    - apply store_extends with r; [done|done| |unfold r'; cbn; rewrite Hkeys; apply Hst]. intros i z (z0&Hz0&(E1&E2&E3)%key_eq&E4&_)%Hat. destruct (st_yims _ _ _ Hst _ _ Hz0). split; rewrite ?E1, ?E2, ?E3, ?E4; done.
    - intros i z (z0&Hz0&(E1&E2&E3)%key_eq&_)%Hat. rewrite E3. by apply H5.
    - intros i z (z0&Hz0&_&_&E)%Hat. rewrite E. by apply H6. }
  apply (stage_next work work r); [done..| |].
  - intros i z l Hz Hin. destruct (decide (i = id)) as [->|Hne]; [|cbn in Hz; rewrite list_lookup_insert_ne in Hz by done; exact (sg_links _ _ Hs i z l Hz Hin)].
    cbn in Hz. rewrite list_lookup_insert_eq in Hz by (by eapply lookup_lt_Some). injection Hz as <-. by apply Hlinks.
  - intros x o (i&z&(z0&Hz0&E&_)%Hat&E'). left. exists i, z0. split; [done|congruence].
Qed.

(** What the stage depends on. *)
Record same_sets (r r' : RECCE) : Prop := {
  ss_tables : strip (t_tables r') = strip (t_tables r);
  ss_count : t_earley_set_count r' = t_earley_set_count r;
  ss_sets : t_sets r' = t_sets r;
  ss_yims : t_yims r' = t_yims r;
  ss_pims : t_pims r' = t_pims r;
  ss_psar : t_dot_psar_object r' = t_dot_psar_object r;
  ss_work : t_yim_work_stack r' = t_yim_work_stack r
}.

Lemma same_kept r r' : same_sets r r' -> kept k r r'.
Proof using.
  intros [_ _ Es Ey Ep _ _]. split; [exists []; by rewrite app_nil_r|exists []; rewrite app_nil_r, Ey; split; [done|by intros q Hq%not_elem_of_nil]|]. intros j s _ Hs. exists s. by rewrite Es.
Qed.

Lemma stage_same work r r' : same_sets r r' -> stage work r -> stage work r'.
Proof using.
  intros Hss Hs. pose proof (same_kept _ _ Hss) as Hk. destruct Hss as [Et Ec Es Ey Ep Ea Ew]. destruct Hs as [[[[K1 K2 K3 K4 K5 K6 K7] M2 M3 M4 M5 M6 M7] Hl Hf] Hso Hse Hli].
  split; [split; [split; [split|..]|..]|..]; rewrite ?Et, ?Ec, ?Es, ?Ey, ?Ea, ?Ew; try assumption; try congruence.
  - intros j x o. unfold has. rewrite Ey. apply Hso.
  - intros j Hj. apply (kept_settled t0 allowed tok k r r' Hk j Hj); [|by apply Hse]. intros id y Hy. by destruct (K6 _ _ Hy) as [_ [? _] _ _].
  - intros i y l. rewrite Ey, Ep. apply Hli.
Qed.

(** The completion stack is no part of it. *)
Lemma stage_completions work r v : stage work r -> stage work (set_t_completion_stack v r) /\ extends r (set_t_completion_stack v r).
Proof using. intros Hs. split; [by apply (stage_same work r)|]. split; [done|exists []; by rewrite app_nil_r|done|done]. Qed.

(** Every item of the set has a source. *)
Definition sourced (r : RECCE) : Prop := forall id y, t_yims r !! id = Some y -> YS_of_YIM y = k -> t_container y <> NO_SOURCE.

Lemma sourced_update r id y' : sourced r -> t_container y' <> NO_SOURCE -> sourced (set_t_yims (<[id := y']> (t_yims r)) r).
Proof using.
  intros Hs Hy i z Hz Hk. cbn in Hz. apply list_lookup_insert_Some in Hz as [(_&E&_)|[_ Hz]]; [congruence|exact (Hs i z Hz Hk)].
Qed.

(** ** An item is made or found, and linked *)

(** The item number [id], which has a source when it was there before. *)
Record effected (x o : Z) (r r' : RECCE) (id : nat) (y : YIM) : Prop := {
  ef_stage : exists work, stage work r';
  ef_extends : extends r r';
  ef_item : t_yims r' !! id = Some y;
  ef_key : key y = (x, o, k);
  ef_others i z : i <> id -> t_yims r' !! i = Some z -> YS_of_YIM z = k -> t_container z <> NO_SOURCE;
  ef_new : t_container y = NO_SOURCE -> id = length (t_yims r) /\ length (t_yims r') = S id;
  ef_old : t_container y <> NO_SOURCE -> length (t_yims r') = length (t_yims r)
}.

Lemma effect_ok work r x o f : 0 < k -> (forall y, same_yim y (f y) /\ t_container (f y) = t_container y) -> stage work r -> sourced r -> item k x o ->
  exists c id y r', earley_item_assign r k o x = Ok c /\ written c.1 = Ok (Z.of_nat id) /\ upd_yim c.2 (Z.of_nat id) f = Ok r' /\ effected x o r r' id y /\ t_completion_stack r' = t_completion_stack r.
Proof using HL Hen Htok Hk0 Hroom.
  intros Hkp Hf Hs Hsrc Hi. destruct (stage_assign work r x o Hkp Hs Hi) as (c&Hc&id&work'&Hid&Hs'&He&Hcs&y&Hy&Hkey&Hcases). destruct (Hf y) as [Hsame Hcont].
  destruct (stage_update work' c.2 id y (f y) Hs' Hy Hsame) as [Hs2 He2].
  { intros l Hl. apply (sg_links _ _ Hs' id y l Hy). unfold First_Leo_SRCL_of_YIM in *. by rewrite Hcont in Hl. }
  exists c, id, (f y). eexists. split; [done|]. split; [by rewrite Hid|]. split; [by apply upd_yim_ok|]. split; [|done]. split.
  - by exists work'.
  - by etransitivity.
  - cbn. apply list_lookup_insert_eq. by eapply lookup_lt_Some.
  - rewrite (proj1 Hsame). done.
  - intros i z Hne Hz Hk. cbn in Hz. rewrite list_lookup_insert_ne in Hz by done. destruct Hcases as [[E _]|(_&E&_)]; rewrite E in Hz; [by eapply Hsrc|].
    apply lookup_app_Some in Hz as [Hz|[Hlen Hz]]; [by eapply Hsrc|]. apply list_lookup_singleton_Some in Hz as [Hi0 <-]. destruct Hne. rewrite E in Hy. apply lookup_app_Some in Hy as [Hy|[Hl2 Hy]]; [|apply list_lookup_singleton_Some in Hy as [? _]; lia].
    exfalso. pose proof (st_keys _ _ _ (stage_store _ _ Hs')) as Hnd. rewrite E, fmap_app in Hnd. apply NoDup_app in Hnd as (_&Hnd&_). apply (Hnd (key y)); [|by left]. apply list_elem_of_fmap. exists y. split; [done|]. by eapply list_elem_of_lookup_2.
  - rewrite Hcont. intros Hn. destruct Hcases as [[E _]|(_&E&_)]; [|cbn; rewrite length_insert, E, length_app; cbn; split; [|]].
    + exfalso. rewrite E in Hy. apply (Hsrc id y Hy); [|done]. unfold key in Hkey. by injection Hkey.
    + rewrite E in Hy. apply lookup_app_Some in Hy as [Hy|[? Hy]]; [|apply list_lookup_singleton_Some in Hy as [? _]; lia].
      exfalso. apply (Hsrc id y Hy); [|done]. unfold key in Hkey. by injection Hkey.
    + rewrite E in Hy. apply lookup_app_Some in Hy as [Hy|[? Hy]]; [|apply list_lookup_singleton_Some in Hy as [? _]; lia].
      exfalso. apply (Hsrc id y Hy); [|done]. unfold key in Hkey. by injection Hkey.
  - rewrite Hcont. intros Hn. destruct Hcases as [[E _]|(_&E&E')]; [cbn; by rewrite length_insert, E|done].
Qed.

Lemma link_ok r r' x o id y g l : effected x o r r' id y -> (forall s, g s <> NO_SOURCE) ->
  (forall s, First_Leo_SRCL_of_YIM (set_t_container (g s) y) = (match l with Some l => [l] | None => [] end) ++ First_Leo_SRCL_of_YIM (set_t_container s y)) ->
  (forall m, l = Some m -> exists p lim c, Predecessor_of_SRCL m = Z.of_nat p /\ t_pims r !! p = Some (PIM_of_LIM lim) /\ CIL_of_LIM lim = Some c /\ ahm_list t0 c) ->
  ends_in (add_link g r' (Z.of_nat id)) (fun r2 => (exists work, stage work r2) /\ sourced r2 /\ extends r r2 /\ extends r' r2 /\ t_completion_stack r2 = t_completion_stack r' /\ length (t_yims r2) = length (t_yims r') /\ has r2 k x o).
Proof using.
  intros [(work&Hs) He Hy Hkey Hoth _ _] Hg Hleo Hl. unfold add_link. rewrite (upd_yim_ok _ _ _ _ Hy). apply ends_Ok.
  destruct (stage_update work r' id y (set_t_container (g (t_container y)) y) Hs Hy) as [Hs2 He2]; [done| |].
  { intros m Hm. rewrite Hleo in Hm. rewrite (f_equal t_pims (ex_rest _ _ He) : t_pims r' = t_pims r). apply elem_of_app in Hm as [Hm|Hm].
    - destruct l as [l|]; [|by apply not_elem_of_nil in Hm]. apply list_elem_of_singleton in Hm as ->. by apply Hl.
    - destruct (sg_links _ _ Hs id y m Hy) as (p&lim&c&Hc); [by destruct y|]. exists p, lim, c. by rewrite (f_equal t_pims (ex_rest _ _ He) : t_pims r' = t_pims r) in Hc. }
  split; [by exists work|]. split; [|split; [by etransitivity|split; [done|split; [done|split; [cbn; by rewrite length_insert|]]]]].
  - intros i z Hz Hk. cbn in Hz. destruct (decide (i = id)) as [->|Hne]; [rewrite list_lookup_insert_eq in Hz by (by eapply lookup_lt_Some); injection Hz as <-; apply Hg|].
    rewrite list_lookup_insert_ne in Hz by done. by apply (Hoth i z).
  - exists id, (set_t_container (g (t_container y)) y). split; [cbn; apply list_lookup_insert_eq; by eapply lookup_lt_Some|done].
Qed.
End stage.

(** The links that are added. *)
Lemma tkn_link_some l s : tkn_link l s <> NO_SOURCE.
Proof. by destruct s. Qed.
Lemma completion_link_some l s : completion_link l s <> NO_SOURCE.
Proof. by destruct s. Qed.
Lemma leo_link_some l s : leo_link l s <> NO_SOURCE.
Proof. by destruct s. Qed.
Lemma tkn_link_leo l s y : First_Leo_SRCL_of_YIM (set_t_container (tkn_link l s) y) = [] ++ First_Leo_SRCL_of_YIM (set_t_container s y).
Proof. by destruct s. Qed.
Lemma completion_link_leo l s y : First_Leo_SRCL_of_YIM (set_t_container (completion_link l s) y) = [] ++ First_Leo_SRCL_of_YIM (set_t_container s y).
Proof. by destruct s. Qed.
Lemma leo_link_leo l s y : First_Leo_SRCL_of_YIM (set_t_container (leo_link l s) y) = [l] ++ First_Leo_SRCL_of_YIM (set_t_container s y).
Proof. by destruct s. Qed.
