(* ===== verification/EarleySteps.v ===== *)
(** * Scanning, completion and prediction

    The loops that fill a set, and that they leave exactly the items of the specification. *)
From stdpp Require Import sets gmap list list_numbers relations.
From S2P Require Import Prelude MarpaH Avl Dstack BitVector Matrix Cil CilTheorems MarpaGrammar Census Rewrite Items Relations ItemsTheorems Recce Earley EarleyStage.

(** * Reading, completion, prediction

    The three loops that make the items of a set ([scan_tokens], [complete_loop],
    [predict]). *)

Section steps.
Context `{HL : Library} (t0 : TABLES) (Hen : engine t0) (allowed : Z -> Prop) (tok : Z -> Z -> Z -> Prop) (Htok : forall j y k, tok j y k -> 0 <= j < k).
#[local] Abbreviation item := (item t0 allowed tok).
#[local] Abbreviation postdot := (postdot t0).
#[local] Abbreviation settled := (settled t0 allowed tok).
Context (k : Z) (Hk0 : 0 < k) (base : nat).
Context (Hroom : forall l, NoDup l -> (forall x o, (x, o) ∈ l -> item k x o) -> Z.of_nat (length l) < YIM_FATAL_THRESHOLD).
#[local] Abbreviation stage := (stage t0 allowed tok k base).
#[local] Abbreviation sourced := (sourced k).
#[local] Abbreviation waits := (waits t0).

(** What a step of a loop keeps. *)
Definition steps (r r' : RECCE) : Prop := (exists work, stage work r') /\ sourced r' /\ extends r r'.

(** Each item of [l] has moved on. *)
Definition moved (l : list Z) (r r' : RECCE) : Prop := forall id y, Z.of_nat id ∈ l -> t_yims r !! id = Some y -> has r' k (AHM_of_YIM y + 1) (Origin_of_YIM y).

Lemma moved_extends l r r1 r2 : moved l r r1 -> extends r1 r2 -> moved l r r2.
Proof using. intros Hm He id y Hin Hy. by apply (has_extends r1), (Hm id y). Qed.

(** The items that wait, as Earley items of the input. *)
Lemma waits_item work r j A id : stage work r -> 0 <= A -> waits r j A id -> exists y, t_yims r !! id = Some y /\ item j (AHM_of_YIM y) (Origin_of_YIM y) /\ postdot (AHM_of_YIM y) = A /\ YIM_is_Active y = true.
Proof using.
  intros Hs HA (y&Hy&Es&Ep). exists y. split; [done|]. split; [|split; [done|apply (st_yims _ _ _ (stage_store _ _ _ _ _ _ _ Hs) _ _ Hy)]].
  apply (sg_sound _ _ _ _ _ _ _ Hs). exists id, y. split; [done|]. unfold key. by rewrite Es.
Qed.

(** ** A token is read *)

Lemma scan_pim_ok alternative work0 r0 j A l id next p : stage work0 r0 -> 0 <= A -> tok j A k -> waits r0 j A id -> forall r, steps r0 r -> moved l r0 r ->
  ends_in (scan_pim k alternative (PIM_of_YIX (MkYIX next A (Some (Z.of_nat id)))) p r) (fun c => c.1 = true /\ steps r0 c.2 /\ t_completion_stack c.2 = t_completion_stack r /\ moved (l ++ [Z.of_nat id]) r0 c.2).
Proof using HL Hen Htok Hk0 Hroom.
  intros Hs0 HA Ht Hw r ((work&Hs)&Hsrc&He) Hmoved. destruct (waits_item _ _ _ _ _ Hs0 HA Hw) as (y0&Hy0&Hi&Hp&_). destruct (key_at _ _ _ _ He Hy0) as (y&Hy&(E1&E2&E3)%key_eq).
  unfold scan_pim. cbn [YIM_of_PIM YIX_of_PIM YIM_of_YIX]. rewrite (yim_read _ _ _ Hy). cbn [mbind res_bind].
  rewrite (yf_active _ _ _ (st_yims _ _ _ (stage_store _ _ _ _ _ _ _ Hs) _ _ Hy)). cbn [negb]. rewrite E1, E2.
  assert (item k (AHM_of_YIM y0 + 1) (Origin_of_YIM y0)) as Hi2 by (eapply item_scan; [exact Hi|lia|by rewrite Hp]).
  destruct (effect_ok t0 Hen allowed tok Htok k ltac:(lia) base Hroom work r _ _ (set_YIM_was_Scanned (Some true)) Hk0 ltac:(done) Hs Hsrc Hi2) as (c&id2&y2&r2&->&Hid&Hupd&Hef&Hcs).
  cbn [mbind res_bind]. rewrite Hid. cbn [mbind res_bind]. rewrite Hupd. cbn [mbind res_bind].
  destruct (link_ok t0 allowed tok k base r r2 _ _ id2 y2 (tkn_link (unique_srcl (Z.of_nat id) (Token (NSYID_of_ALT alternative) (Value_of_ALT alternative)))) None Hef) as (r3&Hr3&Hs3&Hsrc3&He3&_&Hcs3&_&Hhas); [intros s; apply tkn_link_some|intros s; apply tkn_link_leo|done|].
  unfold tkn_link_add. rewrite Hr3. apply ends_Ok. cbn [fst snd]. split; [done|]. split; [split; [done|]; split; [done|by etransitivity]|]. split; [by rewrite Hcs3|].
  intros id' y' [Hin|Heq%list_elem_of_singleton]%elem_of_app Hy'; [apply (has_extends r r3 _ _ _ He3); by apply (Hmoved id')|]. apply Nat2Z.inj in Heq as ->. rewrite Hy0 in Hy'. by injection Hy' as <-.
Qed.

(** The loop over the postdot items of a symbol, the Leo item left out. *)
Lemma scan_symbol_ok alternative work0 r0 j A : stage work0 r0 -> sourced r0 -> 0 <= A -> tok j A k ->
  ends_in (pim ← first_pim_of_ys_by_nsyid r0 j A; each_pim (length (t_pims r0)) pim (scan_pim k alternative) r0)
    (fun r => steps r0 r /\ t_completion_stack r = t_completion_stack r0 /\ forall id y, waits r0 j A id -> t_yims r0 !! id = Some y -> has r k (AHM_of_YIM y + 1) (Origin_of_YIM y)).
Proof using HL Hen Htok Hk0 Hroom.
  intros Hs Hsrc HA Ht. destruct (sg_settled _ _ _ _ _ _ _ Hs j (Htok _ _ _ Ht) A HA) as (o&ids&m&Hat&Hh&Hin&_). unfold at_pim in Hat. rewrite Hat. cbn [mbind res_bind].
  set (I l r := steps r0 r /\ t_completion_stack r = t_completion_stack r0 /\ moved l r0 r).
  assert (I [] r0) as Hi0. { split; [split; [by exists work0|]; done|]. split; [done|]. intros id y Hx. by apply not_elem_of_nil in Hx. }
  assert (forall o rounds, chain (t_pims r0) A o ids -> (length ids <= rounds)%nat -> ends_in (each_pim rounds o (scan_pim k alternative) r0) (I ids)) as Hloop.
  { intros o' rounds Hc Hl. apply (each_pim_chain I (t_pims r0) A _ (fun l r Hi => f_equal t_pims (ex_rest _ _ (proj2 (proj2 (proj1 Hi))))) o' ids Hc) with (l0 := []); [|done|done].
    intros l p next y r (Hst&Hcs&Hm) Hy _. apply Hin in Hy as (id&->&Hw). destruct (scan_pim_ok alternative work0 r0 j A l id next (Z.of_nat p) Hs HA Ht Hw r Hst Hm) as (c&->&?&?&?&?). apply ends_Ok. split; [done|]. split; [done|]. split; [congruence|done]. }
  assert (ends_in (each_pim (length (t_pims r0)) o (scan_pim k alternative) r0) (I ids)) as Hend.
  { destruct Hh as [o ids Hc|p lim q b Hp Hy Hq Hc].
    - apply Hloop; [done|]. destruct o as [p|]; [|inversion Hc; cbn; lia]. inversion Hc as [|p' ? ? ? ? ? ? E]; subst. destruct (chain_length _ _ _ _ Hc p' eq_refl). lia.
    - inversion Hc as [|q' ? ? ? ? ? ? E]; subst. destruct (chain_length _ _ _ _ Hc q' eq_refl) as [Hl Hlt]. pose proof (lookup_lt_Some _ _ _ Hp). destruct (length (t_pims r0)) as [|rounds] eqn:El; [lia|].
      assert (PIM_by_ID r0 (Z.of_nat p) = Ok (PIM_of_LIM lim)) as Hrd by (by apply rd_at). cbn [each_pim]. rewrite Hrd. cbn [mbind res_bind].
      assert (forall p', scan_pim k alternative (PIM_of_LIM lim) p' r0 = Ok (true, r0)) as -> by (intros p'; unfold scan_pim, YIM_of_PIM; cbn [YIX_of_PIM]; by rewrite Hy). cbn [mbind res_bind fst snd]. rewrite Hrd. cbn [mbind res_bind].
      unfold Next_PIM_of_PIM. cbn [YIX_of_PIM]. rewrite Hy. cbn [Next_PIM_of_YIX]. apply Hloop; [done|cbn [length] in *; lia]. }
  destruct Hend as (r&->&Hst&Hcs&Hm). apply ends_Ok. split; [done|]. split; [done|]. intros id y Hw Hy. apply (Hm id y); [|done]. apply Hin. by exists id.
Qed.

(** ** The tokens that end here *)

(** What the making of a set from tokens does not change. *)
Definition rest_of_scan (r : RECCE) : RECCE * list YS * CILAR := (rest (set_t_alternatives [] r), ys_view <$> t_sets r, cilar_of (t_tables r)).

Lemma scan_tokens_ok current now : Forall (fun a => End_Earleme_of_ALT a = current /\ 0 <= NSYID_of_ALT a /\ tok (Start_YS_of_ALT a) (NSYID_of_ALT a) k) now ->
  forall keep r rounds, Forall (fun a => current < End_Earleme_of_ALT a) keep -> t_alternatives r = keep ++ now -> (length now <= rounds)%nat -> (exists work, stage work r) -> sourced r ->
  ends_in (scan_tokens rounds r k current) (fun r' => (exists work, stage work r') /\ sourced r' /\ kept k r r' /\ rest_of_scan r' = rest_of_scan r /\ t_alternatives r' = keep /\ t_completion_stack r' = t_completion_stack r
    /\ forall a id y, a ∈ now -> waits r (Start_YS_of_ALT a) (NSYID_of_ALT a) id -> t_yims r !! id = Some y -> has r' k (AHM_of_YIM y + 1) (Origin_of_YIM y)).
Proof using HL Hen Htok Hk0 Hroom.
  induction now as [|a now IH] using rev_ind; intros Hnow keep r rounds Hkeep Halt Hrounds (work&Hs) Hsrc.
  - rewrite app_nil_r in Halt. assert (alternative_pop r current = (None, r)) as Hpop.
    { unfold alternative_pop. rewrite Halt. destruct (list.last keep) as [a|] eqn:El; [|done]. apply last_Some_elem_of in El. rewrite Forall_forall in Hkeep. apply Hkeep in El. by rewrite (proj2 (Z.ltb_lt _ _) El). }
    destruct rounds; cbn [scan_tokens]; rewrite Hpop; apply ends_Ok; (split; [by exists work|]; split; [done|]; split; [done|]; split; [done|]; split; [done|]; split; [done|]; intros a id y Ha; by apply not_elem_of_nil in Ha).
  - apply Forall_app in Hnow as [Hnow [Ha _]%Forall_cons]. destruct Ha as (Hend&Hnsy&Htk). set (r1 := set_t_alternatives (keep ++ now) r).
    assert (alternative_pop r current = (Some a, r1)) as Hpop.
    { unfold alternative_pop. rewrite Halt, app_assoc, last_snoc, Hend, Z.ltb_irrefl. f_equal. unfold r1. f_equal. rewrite length_app. cbn [length]. rewrite Nat.add_sub. apply take_app_length. }
    destruct rounds as [|rounds]; [rewrite length_app in Hrounds; cbn in Hrounds; lia|]. cbn [scan_tokens]. rewrite Hpop.
    assert (same_sets r r1) as Hss by done. pose proof (stage_same t0 allowed tok k base work _ _ Hss Hs) as Hs1.
    destruct (scan_symbol_ok a work r1 _ _ Hs1 Hsrc Hnsy Htk) as (r2&Hr2&(Hs2&Hsrc2&He2)&Hcs2&Hmoved). apply bind_Ok in Hr2 as (pim&->&Hr2). cbn [mbind res_bind]. rewrite Hr2. cbn [mbind res_bind].
    assert (kept k r r2) as Hk2. { transitivity r1; [by apply same_kept|]. destruct Hs2 as (work2&Hs2). by apply (extends_kept t0 k base work work2); [apply Hs1|apply Hs2|]. }
    destruct (IH Hnow keep r2 rounds Hkeep) as (r3&->&Hs3&Hsrc3&Hk3&Hr3&Ha3&Hcs3&Hm3); [exact (f_equal t_alternatives (ex_rest _ _ He2))|rewrite length_app in Hrounds; cbn in Hrounds; lia|done|done|].
    apply ends_Ok. split; [done|]. split; [done|]. split; [by transitivity r2|]. split; [rewrite Hr3; unfold rest_of_scan; f_equal; [f_equal; [exact (f_equal (set_t_alternatives []) (ex_rest _ _ He2))|exact (ex_sets _ _ He2)]|exact (ex_arena _ _ He2)]|]. split; [done|]. split; [by rewrite Hcs3|].
    intros a' id y Hin Hw Hy. apply elem_of_app in Hin as [Hin|Heq]; [|apply list_elem_of_singleton in Heq as ->; apply (kept_has k r2 r3 Hk3); by apply (Hmoved id y)].
    destruct (kept_key k r r2 Hk2 id y Hy) as (y2&Hy2&(E1&E2&_)%key_eq). rewrite <- E1, <- E2. apply (Hm3 a' id); [done| |done]. rewrite Forall_forall in Hnow. apply (kept_waits t0 k r r2 Hk2); [|done].
    destruct (Hnow _ Hin) as (_&_&Ht). apply Htok in Ht. lia.
Qed.
End steps.

(** * Completion

    The completion stack of a set in the making ([agenda]), what a completed symbol leads to
    ([done]), and the loop that empties the stack: when it ends, every completion of the set
    has been acted on. *)

Section complete.
Context `{HL : Library} (t0 : TABLES) (Hen : engine t0) (allowed : Z -> Prop) (tok : Z -> Z -> Z -> Prop) (Htok : forall j y k, tok j y k -> 0 <= j < k).
#[local] Abbreviation item := (item t0 allowed tok).
#[local] Abbreviation postdot := (postdot t0).
#[local] Abbreviation lhs := (lhs t0).
#[local] Abbreviation settled_at := (settled_at t0 allowed tok).
Context (k : Z) (Hk0 : 0 < k) (base : nat).
Context (Hroom : forall l, NoDup l -> (forall x o, (x, o) ∈ l -> item k x o) -> Z.of_nat (length l) < YIM_FATAL_THRESHOLD).
#[local] Abbreviation stage := (stage t0 allowed tok k base).
#[local] Abbreviation sourced := (sourced k).
#[local] Abbreviation waits := (waits t0).
#[local] Abbreviation steps := (steps t0 allowed tok k base).

(** [D]: the items that have been taken from the stack; [S]: those on it. *)
Record agenda (r : RECCE) (D S : list Z) : Prop := {
  ag_stack : t_completion_stack r = Some S;
  ag_nodup : NoDup (D ++ S);
  ag_ids i : i ∈ D ++ S -> exists id, i = Z.of_nat id /\ (base <= id < length (t_yims r))%nat;
  ag_all id y : t_yims r !! id = Some y -> YS_of_YIM y = k -> postdot (AHM_of_YIM y) < 0 -> Z.of_nat id ∈ D ++ S
}.

(** The completions of [A] from [j] have been acted on: by the Leo item when there is one. *)
Definition done (r : RECCE) (A j : Z) : Prop :=
  (forall top o, leo r j A top o -> has r k top o)
  /\ ((forall top o, ~ leo r j A top o) -> forall id y, waits r j A id -> t_yims r !! id = Some y -> has r k (AHM_of_YIM y + 1) (Origin_of_YIM y)).

Lemma done_kept r r' A j : settled_at r j A -> 0 <= j < k -> kept k r r' -> done r A j -> done r' A j.
Proof using.
  intros Hset Hj Hk [H1 H2]. split.
  - intros top o Hleo. apply (kept_has k r r' Hk), H1. by apply (kept_leo_back t0 allowed tok k r r').
  - intros Hno id y' Hw Hy'. apply (kept_waits t0 k r r' Hk) in Hw; [|lia]. destruct Hw as (y&Hy&Hw). destruct (kept_key k r r' Hk id y Hy) as (y2&Hy2&(E1&E2&_)%key_eq). rewrite Hy' in Hy2. injection Hy2 as <-. rewrite E1, E2.
    apply (kept_has k r r' Hk), (H2 ltac:(intros top o Hl; apply (Hno top o); by apply (kept_leo k r r' Hk)) id y); [by exists y|done].
Qed.

Lemma agenda_same r r' D S : agenda r D S -> t_completion_stack r' = t_completion_stack r -> length (t_yims r') = length (t_yims r) -> extends r r' -> agenda r' D S.
Proof using.
  intros [H1 H2 H3 H4] Hcs Hl He. split; [congruence|done|by rewrite Hl|]. intros id y' Hy'. destruct (lookup_lt_is_Some_2 (t_yims r) id) as [y Hy]; [rewrite <- Hl; by eapply lookup_lt_Some|].
  destruct (key_at _ _ _ _ He Hy) as (y2&Hy2&(E1&_&E3)%key_eq). rewrite Hy' in Hy2. injection Hy2 as <-. rewrite E1, E3. by apply H4.
Qed.

(** An item with no source is the last one. *)
Lemma agenda_new x o r r' id y D S (push : bool) : effected t0 allowed tok k base x o r r' id y -> t_container y = NO_SOURCE -> agenda r D S -> t_completion_stack r' = t_completion_stack r ->
  (push = false -> 0 <= postdot x) -> (base <= length (t_yims r))%nat ->
  agenda (if push then set_t_completion_stack (Some (S ++ [Z.of_nat id])) r' else r') D (if push then S ++ [Z.of_nat id] else S).
Proof using Hk0.
  intros [_ He Hy Hkey _ Hnew _] Hn [H1 H2 H3 H4] Hcs Hpush Hbase. destruct (Hnew Hn) as [Hid Hlen].
  assert (forall i z, t_yims r' !! i = Some z -> YS_of_YIM z = k -> postdot (AHM_of_YIM z) < 0 -> i = id \/ Z.of_nat i ∈ D ++ S) as Hall.
  { intros i z Hz Hk Hp. destruct (decide (i = id)) as [?|Hne]; [by left|right]. destruct (lookup_lt_is_Some_2 (t_yims r) i) as [z0 Hz0]; [apply lookup_lt_Some in Hz; lia|].
    destruct (key_at _ _ _ _ He Hz0) as (z2&Hz2&(E1&_&E3)%key_eq). rewrite Hz in Hz2. injection Hz2 as <-. apply (H4 i z0); [done|congruence|congruence]. }
  assert (forall i, i ∈ D ++ S -> exists id0, i = Z.of_nat id0 /\ (base <= id0 < length (t_yims r'))%nat) as Hids by (intros i Hi; destruct (H3 i Hi) as (i0&->&?); exists i0; split; [done|lia]).
  destruct push; split; cbn [t_completion_stack set_t_completion_stack t_yims].
  - done.
  - rewrite app_assoc. apply NoDup_app. split; [done|]. split; [|apply NoDup_singleton]. intros i Hi ->%list_elem_of_singleton. destruct (H3 _ Hi) as (i0&E&?). apply Nat2Z.inj in E. lia.
  - intros i. rewrite app_assoc, elem_of_app. intros [Hi| ->%list_elem_of_singleton]; [by apply Hids|]. exists id. split; [done|lia].
  - intros i z Hz Hk Hp. rewrite app_assoc, elem_of_app, list_elem_of_singleton. destruct (Hall i z Hz Hk Hp) as [->|?]; [by right|by left].
  - congruence.
  - done.
  - done.
  - intros i z Hz Hk Hp. destruct (Hall i z Hz Hk Hp) as [->|?]; [|done]. assert (z = y) as -> by congruence. unfold key in Hkey. injection Hkey as E _ _. rewrite E in Hp. specialize (Hpush eq_refl). lia.
Qed.

(** ** A postdot item *)

Lemma items_from_base r work : stage work r -> (base <= length (t_yims r))%nat.
Proof using. intros Hs. rewrite (mk_length _ _ _ _ _ (bd_making _ _ _ _ _ (sg_building _ _ _ _ _ _ _ Hs))). lia. Qed.

Lemma completion_read work r id y : stage work r -> t_yims r !! id = Some y -> YIM_is_Completion r y = Ok (postdot (AHM_of_YIM y) <? 0).
Proof using Hen.
  intros Hs Hy. pose proof (stage_store _ _ _ _ _ _ _ Hs) as Hst. destruct (en_ahm _ Hen _ (yf_ahm _ _ _ (st_yims _ _ _ Hst _ _ Hy))) as (a&Ha&_).
  unfold YIM_is_Completion, AHM_of. rewrite (same_ahm t0) by (rewrite (st_tables _ _ _ Hst); done). rewrite (ahm_at_read _ _ _ Ha). cbn [mbind res_bind]. unfold AHM_is_Completion. by rewrite (postdot_read _ _ _ Ha).
Qed.

(** An item is fused: pushed when it is new, then linked; [only] tells whether it must be a
    completion to be pushed. *)
Definition fuse (only : bool) (g : SOURCE -> SOURCE) (o x : Z) r : res RECCE :=
  c ← earley_item_assign r k o x;
  effect ← written c.1;
  r ← upd_yim c.2 effect (set_YIM_was_Fusion (Some true));
  yim ← YIM_by_ID r effect;
  r ← (if Earley_Item_has_No_Source yim then b ← (if only then YIM_is_Completion r yim else Ok true); if b : bool then completion_push r effect else Ok r else Ok r);
  add_link g r effect.

Lemma fuse_ok only g l r0 r D S o x : steps r0 r -> agenda r D S -> item k x o -> (forall s, g s <> NO_SOURCE) ->
  (forall s y, First_Leo_SRCL_of_YIM (set_t_container (g s) y) = (match l with Some l => [l] | None => [] end) ++ First_Leo_SRCL_of_YIM (set_t_container s y)) ->
  (forall m, l = Some m -> exists p lim c, Predecessor_of_SRCL m = Z.of_nat p /\ t_pims r !! p = Some (PIM_of_LIM lim) /\ CIL_of_LIM lim = Some c /\ ahm_list t0 c) ->
  ends_in (fuse only g o x r) (fun r' => steps r0 r' /\ (exists S', agenda r' D S') /\ extends r r' /\ has r' k x o).
Proof using HL Hen Htok Hk0 Hroom.
  intros ((work&Hs)&Hsrc&He) Hag Hi Hg Hleo Hl. unfold fuse.
  destruct (effect_ok t0 Hen allowed tok Htok k ltac:(lia) base Hroom work r _ _ (set_YIM_was_Fusion (Some true)) Hk0 ltac:(done) Hs Hsrc Hi) as (c&id&y&r2&->&Hid&Hupd&Hef&Hcs).
  cbn [mbind res_bind]. rewrite Hid. cbn [mbind res_bind]. rewrite Hupd. cbn [mbind res_bind]. rewrite (yim_read _ _ _ (ef_item _ _ _ _ _ _ _ _ _ _ _ Hef)). cbn [mbind res_bind].
  pose proof (ef_stage _ _ _ _ _ _ _ _ _ _ _ Hef) as (work2&Hs2).
  assert (exists r3 S', (if Earley_Item_has_No_Source y then b ← (if only then YIM_is_Completion r2 y else Ok true); if b : bool then completion_push r2 (Z.of_nat id) else Ok r2 else Ok r2) = Ok r3
    /\ effected t0 allowed tok k base x o r r3 id y /\ agenda r3 D S') as (r3&S'&->&Hef3&Hag3).
  { unfold Earley_Item_has_No_Source. assert (t_container y = NO_SOURCE \/ t_container y <> NO_SOURCE) as [Hn|Hn] by (destruct (t_container y); [by left|by right..]).
    - rewrite Hn. assert (exists push : bool, (if only then YIM_is_Completion r2 y else Ok true) = Ok push /\ (push = false -> 0 <= postdot x)) as (push&->&Hpush).
      { destruct only; [|by exists true]. exists (postdot (AHM_of_YIM y) <? 0). split; [eapply completion_read; [done|apply Hef]|]. pose proof (ef_key _ _ _ _ _ _ _ _ _ _ _ Hef) as Hkey. unfold key in Hkey. injection Hkey as -> _ _. rewrite Z.ltb_ge. done. }
      cbn [mbind res_bind]. pose proof (agenda_new x o r r2 id y D S push Hef Hn Hag Hcs Hpush (items_from_base _ _ Hs)) as Hag2. exists (if push then set_t_completion_stack (Some (S ++ [Z.of_nat id])) r2 else r2), (if push then S ++ [Z.of_nat id] else S).
      destruct push; [|by split]. split; [unfold completion_push; by rewrite Hcs, (ag_stack _ _ _ Hag)|]. split; [|done]. destruct Hef as [_ E1 E2 E3 E4 E5 E6]. destruct (stage_completions t0 allowed tok k base work2 r2 (Some (S ++ [Z.of_nat id])) Hs2) as [Hs3 He3].
      split; [by exists work2|by etransitivity|done|done|done|done|done].
    - exists r2, S. split; [by destruct (t_container y)|]. split; [done|]. apply (agenda_same r); [done|done|by apply (ef_old _ _ _ _ _ _ _ _ _ _ _ Hef)|apply Hef]. }
  cbn [mbind res_bind]. destruct (link_ok t0 allowed tok k base r r3 x o id y g l Hef3 Hg) as (r4&->&Hs4&Hsrc4&He4&He34&Hcs4&Hlen4&Hhas); [by intros s; apply Hleo|done|].
  apply ends_Ok. split; [split; [done|split; [done|by etransitivity]]|]. split; [exists S'; by apply (agenda_same r3)|]. done.
Qed.

Lemma complete_pim_yix cause next A predecessor p r yim : YIM_by_ID r predecessor = Ok yim -> YIM_is_Active yim = true ->
  complete_pim k cause (PIM_of_YIX (MkYIX next A (Some predecessor))) p r =
  (r ← fuse true (completion_link (unique_srcl predecessor (Completion cause))) (Origin_of_YIM yim) (AHM_of_YIM yim + 1) r; Ok (true, r)).
Proof using.
  intros Hy Ha. unfold complete_pim, fuse. cbn [YIM_of_PIM YIX_of_PIM YIM_of_YIX]. rewrite Hy. cbn [mbind res_bind]. rewrite Ha. cbn [negb].
  destruct (earley_item_assign _ _ _ _) as [c| |]; [|done..]. cbn [mbind res_bind]. destruct (written c.1) as [i| |]; [|done..]. cbn [mbind res_bind]. destruct (upd_yim _ _ _) as [r2| |]; [|done..]. cbn [mbind res_bind].
  destruct (YIM_by_ID r2 i) as [y| |]; [|done..]. cbn [mbind res_bind]. unfold completion_link_add. by destruct (if Earley_Item_has_No_Source y then _ else _).
Qed.

Lemma complete_pim_lim cause lim p r o : YIX_of_LIM lim = MkYIX (Next_PIM_of_YIX (YIX_of_LIM lim)) (Postdot_NSYID_of_YIX (YIX_of_LIM lim)) None -> LIM_is_Active lim = true -> Origin_of_LIM lim = Some o ->
  complete_pim k cause (PIM_of_LIM lim) p r = (r ← fuse false (leo_link (unique_srcl p (Completion cause))) o (Top_AHM_of_LIM lim) r; Ok (false, r)).
Proof using.
  intros Hx Ha Ho. unfold complete_pim, fuse, YIM_of_PIM. cbn [YIX_of_PIM]. rewrite Hx. cbn [YIM_of_YIX LIM_of_PIM mbind res_bind]. rewrite Ha, Ho. cbn [negb written mbind res_bind].
  destruct (earley_item_assign _ _ _ _) as [c| |]; [|done..]. cbn [mbind res_bind]. destruct (written c.1) as [i| |]; [|done..]. cbn [mbind res_bind]. destruct (upd_yim _ _ _) as [r2| |]; [|done..]. cbn [mbind res_bind].
  destruct (YIM_by_ID r2 i) as [y| |]; [|done..]. cbn [mbind res_bind]. unfold leo_link_add. by destruct (if Earley_Item_has_No_Source y then _ else _).
Qed.

(** ** A completion *)

Lemma complete_symbol_ok cause c work0 r0 j A D S : stage work0 r0 -> sourced r0 -> agenda r0 D S -> 0 <= j < k -> 0 <= A -> item k c j -> postdot c < 0 -> lhs c = A ->
  ends_in (pim ← first_pim_of_ys_by_nsyid r0 j A; each_pim (length (t_pims r0)) pim (complete_pim k cause) r0) (fun r => steps r0 r /\ (exists S', agenda r D S') /\ done r A j).
Proof using HL Hen Htok Hk0 Hroom.
  intros Hs Hsrc Hag Hj HA Hc Hcd Hcl. pose proof (sg_settled _ _ _ _ _ _ _ Hs j Hj A HA) as Hset. pose proof Hset as (o&ids&m&Hat&Hh&Hin&Hlim). unfold at_pim in Hat. rewrite Hat. cbn [mbind res_bind].
  assert (steps r0 r0) as Hst0 by (split; [by exists work0|done]).
  assert (forall r, steps r0 r -> kept k r0 r) as Hkept by (intros r ((work&Hr)&_&He); apply (extends_kept t0 k base work0 work); [apply Hs|apply Hr|done]).
  destruct Hh as [o ids Hch|p lim q b Hp Hy Hq Hch].
  - set (I l r := steps r0 r /\ (exists S', agenda r D S') /\ moved k l r0 r).
    assert (ends_in (each_pim (length (t_pims r0)) o (complete_pim k cause) r0) (I ids)) as (r&->&Hst&HS&Hm).
    { apply (each_pim_chain I (t_pims r0) A _ (fun l r Hi => f_equal t_pims (ex_rest _ _ (proj2 (proj2 (proj1 Hi))))) o ids Hch) with (l0 := []).
      - intros l p next y r (Hst&(S'&HS)&Hm) Hy _. apply Hin in Hy as (id&->&Hw). destruct (waits_item t0 allowed tok k base _ _ _ _ _ Hs HA Hw) as (y0&Hy0&Hi&Hpd&_).
        pose proof Hst as ((work&Hsr)&_&He). destruct (key_at _ _ _ _ He Hy0) as (y&Hy&(E1&E2&_)%key_eq).
        rewrite (complete_pim_yix cause next A (Z.of_nat id) (Z.of_nat p) r y (yim_read _ _ _ Hy)) by (apply (yf_active _ _ _ (st_yims _ _ _ (stage_store _ _ _ _ _ _ _ Hsr) _ _ Hy))). rewrite E1, E2.
        assert (item k (AHM_of_YIM y0 + 1) (Origin_of_YIM y0)) as Hi2 by (eapply item_complete; [exact Hi|lia|exact Hc|done|congruence]).
        destruct (fuse_ok true (completion_link (unique_srcl (Z.of_nat id) (Completion cause))) None r0 r D S' _ _ Hst HS Hi2) as (r2&->&Hst2&HS2&He2&Hhas); [intros s; apply completion_link_some|intros s z; apply completion_link_leo|done|].
        cbn [mbind res_bind]. apply ends_Ok. split; [done|]. split; [done|]. split; [done|]. intros id' y' [Hx|Heq]%elem_of_app Hy'; [apply (has_extends r r2 _ _ _ He2); by apply (Hm id')|].
        apply list_elem_of_singleton in Heq. apply Nat2Z.inj in Heq as ->. rewrite Hy0 in Hy'. by injection Hy' as <-.
      - destruct o as [p|]; [|inversion Hch; cbn; lia]. inversion Hch as [|p' ? ? ? ? ? ? E]; subst. destruct (chain_length _ _ _ _ Hch p' eq_refl). lia.
      - split; [done|]. split; [by exists S|]. intros id y Hx. by apply not_elem_of_nil in Hx. }
    apply ends_Ok. split; [done|]. split; [done|]. split.
    + intros top o' Hleo. apply (kept_leo_back t0 allowed tok k r0 r (Hkept r Hst) j A top o' Hj Hset) in Hleo as (p&lim&Hp&Hl&_). unfold at_pim in Hp. rewrite Hat in Hp. injection Hp as ->.
      inversion Hch as [|p' ? ? ? Hp' ? ? E]; subst. apply Nat2Z.inj in E as ->. congruence.
    + intros _ id y' Hw Hy'. apply (kept_waits t0 k r0 r (Hkept r Hst)) in Hw; [|lia]. destruct Hw as (y&Hy&Hw). destruct (kept_key k r0 r (Hkept r Hst) id y Hy) as (y2&Hy2&(E1&E2&_)%key_eq).
      rewrite Hy' in Hy2. injection Hy2 as <-. rewrite E1, E2. apply (Hm id y); [|done]. apply Hin. exists id. split; [done|]. by exists y.
  - assert (b ∈ [b]) as Hb by (by left). apply Hin in Hb as (id&->&Hw). pose proof Hw as (y&Hyy&_). destruct (Hlim lim id y eq_refl eq_refl Hyy) as (o'&cil&Ho&Hcil&Hal&Hact&_&Hclimb&_).
    pose proof (lookup_lt_Some _ _ _ Hp). destruct (length (t_pims r0)) as [|rounds] eqn:El; [lia|]. assert (PIM_by_ID r0 (Z.of_nat p) = Ok (PIM_of_LIM lim)) as Hrd by (by apply rd_at). cbn [each_pim]. rewrite Hrd. cbn [mbind res_bind].
    rewrite (complete_pim_lim cause lim (Z.of_nat p) r0 o') by (first [by rewrite Hy|done]). assert (item k (Top_AHM_of_LIM lim) o') as Hi by (eapply climbs_item; eauto).
    destruct (fuse_ok false (leo_link (unique_srcl (Z.of_nat p) (Completion cause))) (Some (unique_srcl (Z.of_nat p) (Completion cause))) r0 r0 D S _ _ Hst0 Hag Hi) as (r2&->&Hst2&HS2&He2&Hhas);
      [intros s; apply leo_link_some|intros s z; apply leo_link_leo|intros m' [= <-]; by exists p, lim, cil|].
    cbn [mbind res_bind fst snd]. apply ends_Ok. split; [done|]. split; [done|]. split.
    + intros top o2 Hleo. apply (kept_leo_back t0 allowed tok k r0 r2 (Hkept r2 Hst2) j A top o2 Hj Hset) in Hleo as (p2&lim2&Hp2&Hl2&Ho2&<-). unfold at_pim in Hp2. rewrite Hat in Hp2. injection Hp2 as E. apply Nat2Z.inj in E as <-. rewrite Hp in Hl2. injection Hl2 as <-. rewrite Ho in Ho2. by injection Ho2 as <-.
    + intros Hno. exfalso. apply (Hno (Top_AHM_of_LIM lim) o'). apply (kept_leo k r0 r2 (Hkept r2 Hst2)); [done|]. by exists p, lim.
Qed.

Lemma complete_yim_ok id c work0 r0 D S : stage work0 r0 -> sourced r0 -> agenda r0 D S -> t_yims r0 !! id = Some c -> YS_of_YIM c = k ->
  ends_in (complete_yim k (Z.of_nat id) r0) (fun r => steps r0 r /\ (exists S', agenda r D S') /\ (postdot (AHM_of_YIM c) < 0 -> done r (lhs (AHM_of_YIM c)) (Origin_of_YIM c))).
Proof using HL Hen Htok Hk0 Hroom.
  intros Hs Hsrc Hag Hc Hck. pose proof (stage_store _ _ _ _ _ _ _ Hs) as Hst. pose proof (st_yims _ _ _ Hst _ _ Hc) as [Ha Ho Hact _]. unfold complete_yim. rewrite (yim_read _ _ _ Hc). cbn [mbind res_bind]. rewrite Hact.
  rewrite (completion_read _ _ _ _ Hs Hc). cbn [mbind res_bind]. destruct (Z.ltb_spec (postdot (AHM_of_YIM c)) 0) as [Hd|Hd]; [|apply ends_Ok; split; [by split; [exists work0|]|]; split; [by exists S|lia]].
  assert (item k (AHM_of_YIM c) (Origin_of_YIM c)) as Hi by (apply (sg_sound _ _ _ _ _ _ _ Hs); exists id, c; unfold key; by rewrite Hck).
  destruct (item_bounds _ _ _ Hen Htok _ _ _ Hi) as (Hob&_&Hfirst). assert (Origin_of_YIM c < k) as Hlt.
  { destruct (decide (Origin_of_YIM c = k)) as [E|]; [|lia]. destruct (Hfirst E) as (i&Hi0&Ei). rewrite Ei in Hd. pose proof (first_item _ Hen i Hi0). lia. }
  destruct (en_ahm _ Hen _ Ha) as (a&Haa&Hfit). destruct (lhs_read_ahm _ _ _ Haa Hfit) as [Hlhs Hlb].
  assert (LHS_NSYID_of_YIM r0 c = Ok (lhs (AHM_of_YIM c))) as ->.
  { unfold LHS_NSYID_of_YIM, AHM_of. rewrite (same_ahm t0) by apply Hst. rewrite (ahm_at_read _ _ _ Haa). cbn [mbind res_bind]. by rewrite (same_lhs t0) by apply Hst. }
  cbn [mbind res_bind]. destruct (complete_symbol_ok (Z.of_nat id) (AHM_of_YIM c) work0 r0 (Origin_of_YIM c) (lhs (AHM_of_YIM c)) D S Hs Hsrc Hag) as (r&->&H1&H2&H3); [lia|lia|done|done|done|]. apply ends_Ok. done.
Qed.

(** ** The loop *)

Lemma agenda_length work r D S : stage work r -> agenda r D S -> (length (D ++ S) <= length work)%nat.
Proof using.
  intros Hs Hag. transitivity (length (seqZ (Z.of_nat base) (Z.of_nat (length work)))); [|rewrite length_seqZ; lia]. apply submseteq_length, NoDup_submseteq; [apply Hag|].
  intros i Hi. destruct (ag_ids _ _ _ Hag i Hi) as (id&->&Hid). apply elem_of_seqZ. rewrite (mk_length _ _ _ _ _ (bd_making _ _ _ _ _ (sg_building _ _ _ _ _ _ _ Hs))) in Hid. lia.
Qed.

(** Every item that was taken from the stack has been acted on. *)
Definition acted (r : RECCE) (D : list Z) : Prop := forall id y, Z.of_nat id ∈ D -> t_yims r !! id = Some y -> postdot (AHM_of_YIM y) < 0 -> done r (lhs (AHM_of_YIM y)) (Origin_of_YIM y).

Lemma origin_before work r id y : stage work r -> t_yims r !! id = Some y -> YS_of_YIM y = k -> postdot (AHM_of_YIM y) < 0 -> 0 <= Origin_of_YIM y < k /\ 0 <= lhs (AHM_of_YIM y).
Proof using Hen.
  intros Hs Hy Hk Hd. pose proof (st_yims _ _ _ (stage_store _ _ _ _ _ _ _ Hs) _ _ Hy) as [Ha Ho _ Hf]. pose proof (lhs_bound _ Hen _ Ha). split; [|lia].
  destruct (decide (Origin_of_YIM y = YS_of_YIM y)) as [E|]; [|lia]. destruct (Hf E) as (i&Hi&Ei). rewrite Ei in Hd. pose proof (first_item _ Hen i Hi). lia.
Qed.

Lemma acted_steps work0 r r' D : stage work0 r -> steps r r' -> (forall i, i ∈ D -> exists id y, i = Z.of_nat id /\ t_yims r !! id = Some y /\ YS_of_YIM y = k) -> acted r D -> acted r' D.
Proof using Hen.
  intros Hs ((work'&Hs')&_&He) HD Hact id y' Hin Hy' Hd. destruct (HD _ Hin) as (id0&y&E&Hy&Hk). apply Nat2Z.inj in E as <-. destruct (key_at _ _ _ _ He Hy) as (y2&Hy2&(E1&E2&E3)%key_eq). rewrite Hy' in Hy2. injection Hy2 as <-.
  rewrite E1, E2 in *. destruct (origin_before _ _ _ _ Hs Hy Hk Hd) as [Ho Hl]. apply (done_kept r); [by apply (sg_settled _ _ _ _ _ _ _ Hs)|done| |by apply (Hact id)].
  apply (extends_kept t0 k base work0 work'); [apply Hs|apply Hs'|done].
Qed.

Lemma agenda_items work r D S : stage work r -> agenda r D S -> forall i, i ∈ D ++ S -> exists id y, i = Z.of_nat id /\ t_yims r !! id = Some y /\ YS_of_YIM y = k.
Proof using.
  intros Hs Hag i Hi. destruct (ag_ids _ _ _ Hag i Hi) as (id&->&Hid&Hlt). destruct (lookup_lt_is_Some_2 (t_yims r) id Hlt) as [y Hy]. exists id, y. split; [done|]. split; [done|].
  by apply (mk_set _ _ _ _ _ (bd_making _ _ _ _ _ (sg_building _ _ _ _ _ _ _ Hs)) _ _ Hy).
Qed.

Theorem complete_loop_ok rounds : forall work0 r0 D S, stage work0 r0 -> sourced r0 -> agenda r0 D S -> acted r0 D -> (Z.to_nat YIM_FATAL_THRESHOLD <= rounds + length D)%nat ->
  ends_in (complete_loop rounds r0 k) (fun r => steps r0 r /\ exists D', agenda r D' [] /\ acted r D').
Proof using HL Hen Htok Hk0 Hroom.
  induction rounds as [|rounds IH]; intros work0 r0 D S Hs Hsrc Hag Hact Hr.
  - pose proof (agenda_length _ _ _ _ Hs Hag) as Hl. pose proof (stage_room t0 allowed tok k base Hroom _ _ Hs) as Hw. rewrite length_app in Hl. exfalso. unfold YIM_FATAL_THRESHOLD in *. cbn in Hr, Hw. lia.
  - cbn [complete_loop]. unfold completion_pop. rewrite (ag_stack _ _ _ Hag). cbn [written mbind res_bind fst snd]. destruct S as [|cause S _] using rev_ind.
    + cbn [list.last]. apply ends_Ok. destruct (stage_completions t0 allowed tok k base work0 r0 (Some []) Hs) as [Hs1 He1]. cbn [length take]. split; [split; [by exists work0|done]|].
      exists D. destruct Hag as [H1 H2 H3 H4]. split; [by split|]. intros id y Hin Hy Hd. destruct (agenda_items _ _ _ _ Hs ltac:(by split) (Z.of_nat id)) as (id'&y'&E&Hy'&Hk); [by rewrite app_nil_r|]. apply Nat2Z.inj in E as <-. assert (y' = y) as -> by (cbn in Hy; congruence).
      destruct (origin_before _ _ _ _ Hs Hy' Hk Hd) as [Ho Hl]. apply (done_kept r0); [by apply (sg_settled _ _ _ _ _ _ _ Hs)|done|by apply (extends_kept t0 k base work0 work0); [apply Hs|apply Hs1|]|by apply (Hact id)].
    + rewrite last_snoc, length_app. cbn [length]. rewrite Nat.add_sub, take_app_length.
      destruct (stage_completions t0 allowed tok k base work0 r0 (Some S) Hs) as [Hs1 He1]. set (r1 := set_t_completion_stack (Some S) r0) in *.
      assert (agenda r1 (D ++ [cause]) S) as Hag1. { destruct Hag as [H1 H2 H3 H4]. assert (D ++ S ++ [cause] ≡ₚ (D ++ [cause]) ++ S) as Hp by (rewrite <- app_assoc; f_equiv; apply Permutation_app_comm).
        split; [done|by rewrite <- Hp|intros i; rewrite <- Hp; apply H3|intros id y; rewrite <- Hp; apply H4]. }
      assert (acted r1 D) as Hact1. { apply (acted_steps work0 r0); [done|by split; [exists work0|]| |done]. intros i Hi. apply (agenda_items _ _ _ _ Hs Hag). apply elem_of_app. by left. }
      destruct (agenda_items _ _ _ _ Hs1 Hag1 cause) as (id&c&->&Hc&Hck); [rewrite !elem_of_app; left; right; by left|].
      destruct (complete_yim_ok id c work0 r1 _ _ Hs1 Hsrc Hag1 Hc Hck) as (r2&->&Hst2&(S'&Hag2)&Hdone). cbn [mbind res_bind]. pose proof Hst2 as ((work2&Hs2)&Hsrc2&He2).
      destruct (IH work2 r2 (D ++ [Z.of_nat id]) S' Hs2 Hsrc2 Hag2) as (r3&->&Hst3&Hfin); [|rewrite length_app; cbn; lia|].
      * intros id' y Hin Hy Hd. apply elem_of_app in Hin as [Hin|E]; [|apply list_elem_of_singleton in E; apply Nat2Z.inj in E as ->].
        { refine (acted_steps work0 r1 r2 D Hs1 Hst2 _ Hact1 id' y Hin Hy Hd). intros i Hi. apply (agenda_items _ _ _ _ Hs1 Hag1). rewrite !elem_of_app. by do 2 left. }
        destruct (key_at _ _ _ _ He2 Hc) as (y2&Hy2&(E1&E2&_)%key_eq). rewrite Hy in Hy2. injection Hy2 as <-. rewrite E1, E2 in *. by apply Hdone.
      * apply ends_Ok. split; [|done]. destruct Hst3 as (H1&H2&H3). split; [done|]. split; [done|]. transitivity r2; [|done]. by transitivity r1.
Qed.

(** The stack at the start: the completions among the items read. *)
Lemma start_completions_ok work r0 : stage work r0 -> t_completion_stack r0 <> None ->
  ends_in (start_completions r0) (fun r => exists S, r = set_t_completion_stack (Some S) r0 /\ agenda r [] S).
Proof using Hen.
  intros Hs Hcs. pose proof (bd_making _ _ _ _ _ (sg_building _ _ _ _ _ _ _ Hs)) as Hm. unfold start_completions. rewrite (mk_work _ _ _ _ _ Hm). cbn [written mbind res_bind].
  destruct (t_completion_stack r0) as [S0|]; [|done]. cbn [written mbind res_bind].
  set (ok (S l : list Z) := NoDup S /\ forall i, i ∈ S <-> i ∈ l /\ exists id y, i = Z.of_nat id /\ t_yims r0 !! id = Some y /\ postdot (AHM_of_YIM y) < 0).
  destruct (each_res_ok (fun l r => exists S, r = set_t_completion_stack (Some S) r0 /\ ok S l) work (fun id r => earley_item ← YIM_by_ID r id; b ← YIM_is_Completion r earley_item; if negb b then Ok r else completion_push r id) (set_t_completion_stack (Some []) r0)) as (r&->&S&->&Hnd&HS).
  - exists []. split; [done|]. split; [apply NoDup_nil_2|]. intros i. split; [by intros ?%not_elem_of_nil|by intros [?%not_elem_of_nil _]].
  - intros l1 i l2 r Hw (S&->&Hnd&HS). pose proof (mk_ids _ _ _ _ _ Hm) as Hids. assert (NoDup work) as Hndw by (rewrite Hids; apply NoDup_seqZ). rewrite Hw in Hndw. apply NoDup_app in Hndw as (_&Hni&_).
    assert (i ∈ work) as Hiw by (rewrite Hw; apply elem_of_app; right; by left). rewrite Hids in Hiw. apply elem_of_seqZ in Hiw. destruct (lookup_lt_is_Some_2 (t_yims r0) (Z.to_nat i)) as [y Hy]; [rewrite (mk_length _ _ _ _ _ Hm); lia|].
    assert (Z.of_nat (Z.to_nat i) = i) as Ei by lia. rewrite <- Ei. destruct (stage_completions t0 allowed tok k base work r0 (Some S) Hs) as [Hs1 _].
    rewrite (yim_read (set_t_completion_stack (Some S) r0) _ _ Hy). cbn [mbind res_bind]. rewrite (completion_read _ _ _ _ Hs1 Hy). cbn [mbind res_bind]. rewrite Ei.
    destruct (Z.ltb_spec (postdot (AHM_of_YIM y)) 0) as [Hd|Hd]; cbn [negb]; (eexists; split; [done|]).
    + exists (S ++ [i]). split; [done|]. split.
      * apply NoDup_app. split; [done|]. split; [|apply NoDup_singleton]. intros j Hj ->%list_elem_of_singleton. apply HS in Hj as [Hj _]. apply (Hni _ Hj). by left.
      * intros j. rewrite !elem_of_app, list_elem_of_singleton, HS. split; [intros [[? ?]| ->]; [by split; [left|]|split; [by right|]; by exists (Z.to_nat i), y]|]. intros [[Hj|Hj] Hex]; [by left|by right].
    + exists S. split; [done|]. split; [done|]. intros j. rewrite HS, elem_of_app, list_elem_of_singleton. split; [intros [? ?]; by split; [left|]|]. intros [[Hj| ->] (id&y'&Hid&Hy'&Hd')]; [split; [done|by exists id, y']|]. rewrite Hid, Nat2Z.id in Hy. rewrite Hy' in Hy. injection Hy as ->. lia.
  - apply ends_Ok. exists S. split; [done|]. pose proof (mk_ids _ _ _ _ _ Hm) as Hids. split; [done|done| |].
    + intros i Hi. apply HS in Hi as (Hw&id&y&->&Hy&_). exists id. split; [done|]. rewrite Hids in Hw. apply elem_of_seqZ in Hw. cbn. rewrite (mk_length _ _ _ _ _ Hm). lia.
    + intros id y Hy Hk Hd. change (t_yims r0 !! id = Some y) in Hy. apply HS. split; [|by exists id, y]. rewrite Hids. apply elem_of_seqZ. pose proof (lookup_lt_Some _ _ _ Hy) as Hlt. rewrite (mk_length _ _ _ _ _ Hm) in Hlt. apply (mk_set _ _ _ _ _ Hm _ _ Hy) in Hk. lia.
Qed.
End complete.

(** * Prediction

    The items that those read and completed predict, all at once: the lists of the tables
    are closed under prediction. *)

Section predict.
Context `{HL : Library} (t0 : TABLES) (Hen : engine t0) (allowed : Z -> Prop) (tok : Z -> Z -> Z -> Prop) (Htok : forall j y k, tok j y k -> 0 <= j < k).
#[local] Abbreviation item := (item t0 allowed tok).
#[local] Abbreviation postdot := (postdot t0).
Context (k : Z) (Hk0 : 0 < k) (base : nat).
Context (Hroom : forall l, NoDup l -> (forall x o, (x, o) ∈ l -> item k x o) -> Z.of_nat (length l) < YIM_FATAL_THRESHOLD).
#[local] Abbreviation stage := (stage t0 allowed tok k base).

(** The rule number [i] is predicted by [x]. *)
Definition predicts (x i : Z) : Prop := exists z, rtc (corner t0) (postdot x) z /\ rule_for t0 z i.

Lemma predicts_waits x i : predicts x i -> 0 <= postdot x.
Proof using Hen.
  intros (z&Hz&Hr). assert (forall z i, rule_for t0 z i -> 0 <= z) as Hpos by (intros z' i' [Hi <-]; apply (lhs_bound t0 Hen); by apply (first_item t0 Hen)).
  inversion Hz as [|? y ? (i0&Hi0&_) _]; subst; by eapply Hpos.
Qed.

Lemma corner_item z z' i : rtc (corner t0) z z' -> rule_for t0 z' i -> (forall i, rule_for t0 z i -> item k (first t0 i) k) -> item k (first t0 i) k.
Proof using Hen Hk0.
  intros Hz. revert i. induction Hz as [z|z y z' (i0&Hi0&Hp) _ IH]; intros i Hi Hall; [by apply Hall|]. apply IH; [done|]. intros i' Hi'. subst y.
  apply item_predict with (first t0 i0) k; [by apply Hall| |done|lia]. apply (first_item t0 Hen), Hi0.
Qed.

Lemma predicts_item x o i : item k x o -> predicts x i -> item k (first t0 i) k.
Proof using Hen Hk0.
  intros Hi Hp. pose proof (predicts_waits _ _ Hp) as Hw. destruct Hp as (z&Hz&Hr). apply (corner_item (postdot x) z); [done|done|]. intros i' Hi'. apply item_predict with x o; [done|done|done|lia].
Qed.

Lemma predicts_trans x i i' : predicts x i -> rule_for t0 (postdot (first t0 i)) i' -> predicts x i'.
Proof using. intros (z&Hz&Hr) Hi'. exists (postdot (first t0 i)). split; [|done]. eapply rtc_r; [exact Hz|]. by exists i. Qed.

Section from.
Context (work0 : list Z) (r0 : RECCE) (Hs0 : stage work0 r0).

(** The predictions of the items of [l]. *)
Definition predicted (l : list Z) (r : RECCE) : Prop := forall id y i, Z.of_nat id ∈ l -> t_yims r0 !! id = Some y -> predicts (AHM_of_YIM y) i -> has r k (first t0 i) k.
Definition only_predicted (r : RECCE) : Prop := forall x o, has r k x o -> has r0 k x o \/ (o = k /\ exists id y i, t_yims r0 !! id = Some y /\ YS_of_YIM y = k /\ predicts (AHM_of_YIM y) i /\ x = first t0 i).

Definition predicting (l : list Z) (r : RECCE) : Prop :=
  (exists l, stage (work0 ++ l) r) /\ extends r0 r /\ t_completion_stack r = t_completion_stack r0 /\ predicted l r /\ only_predicted r.

Lemma predict_item l r id y i : predicting l r -> t_yims r0 !! id = Some y -> YS_of_YIM y = k -> 0 <= i < IRL_Count_of_G (t_internal t0) -> predicts (AHM_of_YIM y) i ->
  ends_in (prediction_ahm ← first_ahm r i; x ← earley_item_assign r k k prediction_ahm; Ok x.2) (fun r' => predicting l r' /\ extends r r' /\ has r' k (first t0 i) k).
Proof using HL Hen Htok Hk0 Hroom Hs0.
  intros ((l'&Hs)&He&Hcs&Hp&Hop) Hy Hk Hi Hpred. destruct (en_first _ Hen i Hi) as (e&He1&Hf&_). unfold first_ahm. rewrite (same_irl_table t0) by apply (stage_store _ _ _ _ _ _ _ Hs). rewrite He1. cbn [mbind res_bind]. rewrite Hf. cbn [written mbind res_bind].
  destruct (key_at _ _ _ _ He Hy) as (y'&Hy'&(E1&E2&E3)%key_eq).
  assert (item k (AHM_of_YIM y) (Origin_of_YIM y)) as Hit by (apply (sg_sound _ _ _ _ _ _ _ Hs0); exists id, y; unfold key; by rewrite Hk).
  destruct (stage_assign t0 Hen allowed tok Htok k ltac:(lia) base Hroom _ r _ _ Hk0 Hs (predicts_item _ _ _ Hit Hpred)) as (c&->&id'&work'&_&Hs'&He'&Hcs'&z&Hz&Hzk&Hcases). cbn [mbind res_bind]. apply ends_Ok.
  assert (has c.2 k (first t0 i) k) as Hhas by (by exists id', z). split; [|done]. split; [|split; [by etransitivity|split; [congruence|split]]].
  - assert (exists l2, work' = (work0 ++ l') ++ l2) as (l2&->); [|exists (l' ++ l2); by rewrite app_assoc].
    pose proof (bd_making _ _ _ _ _ (sg_building _ _ _ _ _ _ _ Hs)) as Hm. pose proof (bd_making _ _ _ _ _ (sg_building _ _ _ _ _ _ _ Hs')) as Hm'. pose proof (mk_ids _ _ _ _ _ Hm) as E. pose proof (mk_ids _ _ _ _ _ Hm') as E'.
    pose proof (mk_length _ _ _ _ _ Hm). pose proof (mk_length _ _ _ _ _ Hm'). assert (length (work0 ++ l') <= length work')%nat by (destruct Hcases as [[Ey _]|(_&Ey&_)]; rewrite Ey, ?length_app in *; lia).
    set (n := Z.of_nat (length (work0 ++ l'))) in *. exists (seqZ (Z.of_nat base + n) (Z.of_nat (length work') - n)). rewrite E' at 1. rewrite E.
    replace (Z.of_nat (length work')) with (n + (Z.of_nat (length work') - n)) at 1 by lia. apply seqZ_app; lia.
  - intros id2 y2 i2 H1 H2 H3. apply (has_extends r); [done|]. by apply (Hp id2 y2).
  - intros x o Hx. assert (has r k x o \/ (x = first t0 i /\ o = k)) as [Hx'|[-> ->]]; [|by apply Hop|right; split; [done|by exists id, y, i]].
    destruct Hx as (i2&z2&Hz2&Ez2). destruct Hcases as [[Ey _]|(_&Ey&_)]; rewrite Ey in Hz2; [left; by exists i2, z2|]. apply lookup_app_Some in Hz2 as [?|[_ Hz2]]; [left; by exists i2, z2|right].
    apply list_lookup_singleton_Some in Hz2 as [_ <-]. rewrite Hzk in Ez2. by injection Ez2 as <- <-.
Qed.

(** The list of one item. *)
Lemma predict_list l r id y : predicting l r -> t_yims r0 !! id = Some y -> YS_of_YIM y = k ->
  ends_in (prediction_cil ← (ahm ← AHM_of r y; written (Predicted_IRL_CIL_of_AHM ahm)); count ← Count_of_CIL prediction_cil;
    for_res (Z.to_nat count) 0 (fun ix r => i ← Item_of_CIL prediction_cil ix; prediction_ahm ← first_ahm r i; x ← earley_item_assign r k k prediction_ahm; Ok x.2) r) (predicting (l ++ [Z.of_nat id])).
Proof using HL Hen Htok Hk0 Hroom Hs0.
  intros Hp Hy Hk. pose proof (stage_store _ _ _ _ _ _ _ Hs0) as Hst. destruct (en_ahm _ Hen _ (yf_ahm _ _ _ (st_yims _ _ _ Hst _ _ Hy))) as (a&Ha&Hfit).
  pose proof Hp as ((l'&Hs)&_). unfold AHM_of. rewrite (same_ahm t0) by apply (stage_store _ _ _ _ _ _ _ Hs). rewrite (ahm_at_read _ _ _ Ha). cbn [mbind res_bind].
  destruct (af_predicted _ _ _ Hfit) as (cil&->&Hcil). cbn [written mbind res_bind].
  apply (each_item (fun done r => predicting l r /\ forall i, i ∈ done -> has r k (first t0 i) k) cil _ _ (fun i r => prediction_ahm ← first_ahm r i; x ← earley_item_assign r k k prediction_ahm; Ok x.2) r _ Hcil).
  - split; [done|]. by intros i ?%not_elem_of_nil.
  - intros done i r1 Hi HP [Hp1 Hd]. assert (predicts (AHM_of_YIM y) i) as Hpr by (destruct HP as (z&Hz&Hr); exists z; by rewrite <- (postdot_read _ _ _ Ha)).
    destruct (predict_item l r1 id y i Hp1 Hy Hk Hi Hpr) as (r2&->&Hp2&He&Hh). apply ends_Ok. split; [done|]. intros i' [Hin| ->%list_elem_of_singleton]%elem_of_app; [|done]. apply (has_extends r1); auto.
  - intros done r1 Hin [(H1&H2&H3&H4&H5) Hd]. split; [done|]. split; [done|]. split; [done|]. split; [|done]. intros id2 y2 i Hid Hy2 Hpr. apply elem_of_app in Hid as [Hid|Hid]; [by apply (H4 id2 y2)|].
    apply list_elem_of_singleton in Hid. apply Nat2Z.inj in Hid as ->. assert (y2 = y) as -> by congruence. apply Hd, Hin. destruct Hpr as (z&Hz&Hr). split; [apply Hr|]. exists z. by rewrite (postdot_read _ _ _ Ha).
Qed.

Theorem predict_ok : ends_in (predict r0 k) (fun r => (exists work, stage work r) /\ extends r0 r /\ t_completion_stack r = t_completion_stack r0 /\ only_predicted r
  /\ forall x o i, has r0 k x o -> predicts x i -> has r k (first t0 i) k).
Proof using HL Hen Htok Hk0 Hroom Hs0.
  unfold predict. pose proof (bd_making _ _ _ _ _ (sg_building _ _ _ _ _ _ _ Hs0)) as Hm. rewrite (mk_work _ _ _ _ _ Hm). cbn [written mbind res_bind].
  eapply (ends_list (fun ix => predicting (take ix work0)) work0); [done| | |].
  - split; [exists []; by rewrite app_nil_r|]. split; [done|]. split; [done|]. split; [by intros id y i ?%not_elem_of_nil|]. intros x o Hx. by left.
  - intros ix i r Hi Hp. pose proof Hp as ((l&Hs)&He&_). rewrite (mk_work _ _ _ _ _ (bd_making _ _ _ _ _ (sg_building _ _ _ _ _ _ _ Hs))). cbn [written mbind res_bind].
    rewrite (rd_at (work0 ++ l) ix i) by (by apply lookup_app_l_Some). cbn [mbind res_bind]. pose proof (mk_ids _ _ _ _ _ Hm) as Hids. pose proof Hi as Hi2. rewrite Hids in Hi2. apply lookup_seqZ in Hi2 as [-> Hlt].
    destruct (lookup_lt_is_Some_2 (t_yims r0) (base + ix)) as [y Hy]; [rewrite (mk_length _ _ _ _ _ Hm); lia|]. replace (Z.of_nat base + Z.of_nat ix) with (Z.of_nat (base + ix)) in * by lia.
    destruct (key_at _ _ _ _ He Hy) as (y'&Hy'&(E1&_&_)%key_eq). rewrite (yim_read _ _ _ Hy'). cbn [mbind res_bind]. assert (YS_of_YIM y = k) as Hk by (apply (mk_set _ _ _ _ _ Hm _ _ Hy); lia).
    destruct (predict_list (take ix work0) r (base + ix) y Hp Hy Hk) as (r2&Hr2&Hp2). assert (AHM_of r y = AHM_of r y') as Ea by (unfold AHM_of; by rewrite E1). rewrite Ea in Hr2.
    rewrite (take_S_r _ _ _ Hi). exists r2. split; [|done]. rewrite <- Hr2. by destruct (AHM_of r y') as [a| |].
  - rewrite firstn_all. intros r ((l&Hs)&He&Hcs&Hp&Hop). split; [by eexists|]. split; [done|]. split; [done|]. split; [done|]. intros x o i (id&y&Hy&Hkey) Hpr. unfold key in Hkey. injection Hkey as E1 E2 E3.
    apply (Hp id y); [|done|by rewrite E1]. rewrite (mk_ids _ _ _ _ _ Hm). apply elem_of_seqZ. pose proof (lookup_lt_Some _ _ _ Hy) as Hlt. rewrite (mk_length _ _ _ _ _ Hm) in Hlt. apply (mk_set _ _ _ _ _ Hm _ _ Hy) in E3. lia.
Qed.
End from.
End predict.

(** * The items of a set

    When a set has been made, its items are the Earley items of the input, except for some
    completions: those that Leo items have skipped. *)

Lemma leo_unique r j A t1 o1 t2 o2 : leo r j A t1 o1 -> leo r j A t2 o2 -> t1 = t2 /\ o1 = o2.
Proof.
  intros (p1&l1&H1&H2&H3&<-) (p2&l2&H4&H5&H6&<-). unfold at_pim in *. rewrite H1 in H4. injection H4 as E. apply Nat2Z.inj in E as <-. rewrite H2 in H5. injection H5 as <-. split; [done|congruence].
Qed.

Section exact.
Context `{HL : Library} (t0 : TABLES) (Hen : engine t0) (allowed : Z -> Prop) (tok : Z -> Z -> Z -> Prop) (Htok : forall j y k, tok j y k -> 0 <= j < k).
#[local] Abbreviation item := (item t0 allowed tok).
#[local] Abbreviation postdot := (postdot t0).
#[local] Abbreviation lhs := (lhs t0).

Lemma leo_completion_end x : leo_completion t0 x -> postdot x < 0.
Proof using.
  intros (a&Ha&Hl). rewrite <- (postdot_read _ _ _ Ha). unfold AHM_is_Leo_Completion, AHM_is_Completion in Hl. by destruct (Z.ltb_spec (Postdot_NSYID_of_AHM a) 0).
Qed.

(** Every item of the set [k] is in it, or it is a completion that a Leo item may skip. *)
Definition complete_at (r : RECCE) (k : Z) : Prop := forall x o, item k x o -> has r k x o \/ leo_completion t0 x.

Lemma complete_waits r k x o : complete_at r k -> item k x o -> 0 <= postdot x -> has r k x o.
Proof using. intros Hc Hi Hp. destruct (Hc _ _ Hi) as [?|?%leo_completion_end]; [done|lia]. Qed.

(** What the three loops give. *)
Section set.
Context (k : Z) (Hk0 : 0 < k) (base : nat) (work : list Z) (r : RECCE) (Hs : stage t0 allowed tok k base work r).
Context (Hbefore : forall j, 0 <= j < k -> complete_at r j).
Context (Hscan : forall j x o, item j x o -> 0 <= postdot x -> tok j (postdot x) k -> has r k (x + 1) o).
Context (Hdone : forall c j, has r k c j -> postdot c < 0 -> done t0 k r (lhs c) j).
Context (Hpredict : forall x o i, has r k x o -> 0 <= postdot x -> rule_for t0 (postdot x) i -> has r k (first t0 i) k).

(** What completes the symbol after the dot of [x] from [j]. *)
Lemma completed_moves j x o : 0 <= j < k -> item j x o -> 0 <= postdot x -> done t0 k r (postdot x) j ->
  (has r k (x + 1) o \/ leo_completion t0 (x + 1)) /\ (postdot (x + 1) < 0 -> done t0 k r (lhs (x + 1)) o).
Proof using Hbefore Hdone Hs.
  intros Hj Hi Hp [Hd1 Hd2]. destruct (complete_waits r j x o (Hbefore j Hj) Hi Hp) as (id&y&Hy&Hkey). unfold key in Hkey. injection Hkey as E1 E2 E3. subst x o.
  destruct (sg_settled _ _ _ _ _ _ _ Hs j Hj _ Hp) as (o1&ids&m&Hat&Hh&Hin&Hlim). assert (Z.of_nat id ∈ ids) as Hid by (apply Hin; exists id; split; [done|]; by exists y). destruct Hh as [o1 ids Hch|p lim q b Hpp Hyx Hq Hch].
  - assert (forall top o, ~ leo r j (postdot (AHM_of_YIM y)) top o) as Hno.
    { intros top o (p&lim&Hp1&Hp2&_). unfold at_pim in Hat, Hp1. rewrite Hat in Hp1. injection Hp1 as ->. inversion Hch as [|p' ? ? ? Hp' ? ? E]; subst. apply Nat2Z.inj in E as ->. congruence. }
    assert (has r k (AHM_of_YIM y + 1) (Origin_of_YIM y)) as Hh by (apply (Hd2 Hno id y); [by exists y|done]). split; [by left|by apply Hdone].
  - apply list_elem_of_singleton in Hid as <-. destruct (Hlim lim id y eq_refl eq_refl Hy) as (o'&cil&Ho&_&_&_&Hleo&_&Hstep). split; [by right|]. intros Hend.
    assert (leo r j (postdot (AHM_of_YIM y)) (Top_AHM_of_LIM lim) o') as Hl by (by exists p, lim). apply Hd1 in Hl. destruct Hstep as [[E1 E2]|Hnext]; [rewrite E1, E2 in Hl; by apply Hdone|].
    split; [|intros Hno; by destruct (Hno _ _ Hnext)]. intros top o2 H2. by destruct (leo_unique _ _ _ _ _ _ _ Hnext H2) as [<- <-].
Qed.

Lemma set_complete : forall k' x o, item k' x o -> k' = k -> (has r k x o \/ leo_completion t0 x) /\ (postdot x < 0 -> done t0 k r (lhs x) o).
Proof using Hen Htok Hk0 Hbefore Hscan Hdone Hpredict Hs.
  induction 1 as [s Hst|k' x o i Hi IH Hp Hr _|j k' x o Hi _ Hp Ht|j k' x o c Hi _ Hp Hc IH Hcd Hcl]; intros Ek; [lia|subst k'..].
  - destruct (IH eq_refl) as [[Hh|?%leo_completion_end] _]; [|lia]. pose proof (first_item t0 Hen i (proj1 Hr)). split; [left; by apply (Hpredict x o)|lia].
  - assert (has r k (x + 1) o) as Hh by (by apply (Hscan j)). split; [by left|by apply Hdone].
  - destruct (IH eq_refl) as [_ Hd]. specialize (Hd Hcd). rewrite Hcl in Hd. apply (completed_moves j); [|done..]. destruct (item_bounds _ _ _ Hen Htok _ _ _ Hc) as (Hb&_&Hf). split; [lia|].
    destruct (decide (j = k)) as [E|]; [|lia]. destruct (Hf E) as (i&Hi0&->). pose proof (first_item t0 Hen i Hi0). lia.
Qed.
End set.
End exact.
