(* ===== verification/EarleyPostdot.v ===== *)
(** * The postdot items of a set

    [postdot_items_create]: the postdot items of each symbol, the Leo items among them, and the
    expected symbols. *)
From stdpp Require Import sets gmap list list_numbers relations.
From S2P Require Import Prelude MarpaH Avl AvlTree Dstack BitVector BitVectorTheorems BitScan Matrix Cil CilTheorems MarpaGrammar Census Rewrite Items Relations ItemsTheorems Recce Earley EarleyStage EarleySteps.

(** * The postdot items of a new set

    The work area of the symbols while the postdot items are made ([area]): one for each
    Earley item that expects a symbol ([start_yixes]), a Leo item on top of those that are
    alone and end a right recursion ([start_lims]). *)

(** What the making of postdot items does not change. *)
Definition rest_of_pims (r : RECCE) : RECCE :=
  set_t_tables (strip (t_tables r)) (set_t_sets [] (set_t_pims [] (set_t_pim_workarea [] (set_t_bv_pim_symbols None (set_t_bv_lim_symbols None (set_t_lim_chain [] r)))))).

(** The postdot item of a symbol in the work area. *)
Definition in_area (r : RECCE) (A : Z) (p : nat) : Prop := t_pim_workarea r !! Z.to_nat A = Some (Some (Z.of_nat p)).
(** The top and the origin of the Leo item of a symbol in the work area. *)
Definition area_leo (r : RECCE) (A top o : Z) : Prop := exists p lim, in_area r A p /\ t_pims r !! p = Some (PIM_of_LIM lim) /\ Origin_of_LIM lim = Some o /\ Top_AHM_of_LIM lim = top.

Lemma chain_app pims l A o ids : chain pims A o ids -> chain (pims ++ l) A o ids.
Proof. induction 1 as [|p next y ids Hp Hn _ IH]; econstructor; eauto using lookup_app_l_Some. Qed.
Lemma heads_app pims l A o ids m : heads pims A o ids m -> heads (pims ++ l) A o ids m.
Proof. destruct 1; econstructor; eauto using chain_app, lookup_app_l_Some. Qed.

Lemma upd_ys_at r k f s : 0 <= k -> t_sets r !! Z.to_nat k = Some s -> upd_ys r k f = Ok (set_t_sets (<[Z.to_nat k := f s]> (t_sets r)) r).
Proof. intros Hk E. unfold upd_ys, YS_by_ID. rewrite (proj2 (rd_Ok _ _ _) (conj Hk E)). cbn [mbind res_bind]. rewrite wr_total; [done|]. apply lookup_lt_Some in E. lia. Qed.

Section postdot.
Context (t0 : TABLES) (Hen : engine t0) (allowed : Z -> Prop) (tok : Z -> Z -> Z -> Prop) (Htok : forall j y k, tok j y k -> 0 <= j < k).
#[local] Abbreviation item := (item t0 allowed tok).
#[local] Abbreviation postdot := (postdot t0).
#[local] Abbreviation lhs := (lhs t0).
#[local] Abbreviation nsys := (NSY_Count_of_G (t_internal t0)).
Context (k : Z) (Hk0 : 0 <= k) (base : nat) (work : list Z) (r0 : RECCE) (Hs : stage t0 allowed tok k base work r0) (s0 : YS) (Hs0 : t_sets r0 !! Z.to_nat k = Some s0).
#[local] Abbreviation waits := (waits t0).

(** A Leo item says what its base leads to. *)
Definition leads (r : RECCE) (j B top o : Z) : Prop := (j < k /\ leo r0 j B top o) \/ (j = k /\ area_leo r B top o).
Definition lim_made (r : RECCE) (A : Z) (lim : LIM) (y : YIM) : Prop := exists o c,
  Origin_of_LIM lim = Some o /\ CIL_of_LIM lim = Some c /\ ahm_list t0 c /\ climbs t0 allowed tok k A (Top_AHM_of_LIM lim) o
  /\ ((Top_AHM_of_LIM lim = AHM_of_YIM y + 1 /\ o = Origin_of_YIM y) \/ leads r (Origin_of_YIM y) (lhs (AHM_of_YIM y + 1)) (Top_AHM_of_LIM lim) o).
Definition lim_state (r : RECCE) (A : Z) (lim : LIM) (id : nat) (y : YIM) : Prop :=
  Trailhead_YIM_of_LIM lim = Z.of_nat id /\ Trailhead_AHM_of_LIM lim = AHM_of_YIM y + 1 /\ leo_completion t0 (AHM_of_YIM y + 1) /\ LIM_is_Active lim = true
  /\ ((Origin_of_LIM lim = None /\ Top_AHM_of_LIM lim = AHM_of_YIM y + 1) \/ lim_made r A lim y).

(** The postdot items of the Earley items of [l], for the symbols of [S]; there is a Leo item
    for those of [L]. *)
Definition symbol_at (l : list Z) (r : RECCE) (A : Z) (is_lim : bool) : Prop := exists p ids m,
  in_area r A p /\ (length (t_pims r0) <= p)%nat /\ heads (t_pims r) A (Some (Z.of_nat p)) ids m
  /\ (forall i, i ∈ ids <-> i ∈ l /\ exists id, i = Z.of_nat id /\ waits r0 k A id) /\ is_lim = bool_decide (is_Some m)
  /\ (forall lim id y, m = Some lim -> ids = [Z.of_nat id] -> t_yims r0 !! id = Some y -> lim_state r A lim id y).

Record area (l : list Z) (S L : gset Z) (r : RECCE) : Prop := {
  ar_rest : rest_of_pims r = rest_of_pims r0;
  ar_pims : exists l, t_pims r = t_pims r0 ++ l;
  ar_length : Z.of_nat (length (t_pim_workarea r)) = nsys;
  ar_symbols : exists v, t_bv_pim_symbols r = Some v /\ bv_rep v nsys S;
  ar_lims : exists v, t_bv_lim_symbols r = Some v /\ bv_rep v nsys L;
  ar_sub : L ⊆ S;
  ar_sets : t_sets r = <[Z.to_nat k := set_Postdot_SYM_Count_of_YS (Z.of_nat (size S)) s0]> (t_sets r0);
  ar_waits id A : Z.of_nat id ∈ l -> waits r0 k A id -> 0 <= A -> A ∈ S;
  ar_at A : A ∈ S -> symbol_at l r A (bool_decide (A ∈ L))
}.

Lemma area_tables l S L r : area l S L r -> strip (t_tables r) = strip t0.
Proof using Hs. intros Ha. rewrite <- (st_tables _ _ _ (stage_store _ _ _ _ _ _ _ Hs)). exact (f_equal t_tables (ar_rest _ _ _ _ Ha)). Qed.

Lemma area_yims l S L r : area l S L r -> t_yims r = t_yims r0.
Proof using. intros Ha. exact (f_equal t_yims (ar_rest _ _ _ _ Ha)). Qed.

Lemma symbols_bound v S A : bv_rep v nsys S -> A ∈ S -> 0 <= A < nsys.
Proof using. intros Hv. apply (br_elems _ _ _ Hv). Qed.

Lemma set_now l S L r : area l S L r -> t_sets r !! Z.to_nat k = Some (set_Postdot_SYM_Count_of_YS (Z.of_nat (size S)) s0).
Proof using Hs0. intros Ha. rewrite (ar_sets _ _ _ _ Ha). apply list_lookup_insert_eq. by eapply lookup_lt_Some. Qed.

(** A symbol's place, when others are added to. *)
Lemma symbol_app l r A b r' x id B : symbol_at l r A b -> b = false -> t_pims r' = t_pims r ++ [x] -> t_pim_workarea r' !! Z.to_nat A = t_pim_workarea r !! Z.to_nat A ->
  (forall C, waits r0 k C id -> C = B) -> A <> B -> symbol_at (l ++ [Z.of_nat id]) r' A b.
Proof using.
  intros (p&ids&m&Hin&Hp&Hh&Hids&Hb&_) -> Hpims Hw Hid HA. exists p, ids, m. split; [unfold in_area; by rewrite Hw|]. split; [done|]. split; [rewrite Hpims; by apply heads_app|].
  split; [|split; [done|]]. 2:{ intros lim id' y ->. by rewrite bool_decide_eq_true_2 in Hb by (by eexists). }
  intros i. rewrite Hids, elem_of_app, list_elem_of_singleton. split; [intros [? ?]; by split; [left|]|]. intros [[Hi| ->] Hex]; [done|]. destruct Hex as (id'&E&Hw'). apply Nat2Z.inj in E as <-. by destruct HA; apply Hid.
Qed.

(** An item that expects no symbol. *)
Lemma area_skip l S r id : area l S ∅ r -> (forall A, waits r0 k A id -> A < 0) -> area (l ++ [Z.of_nat id]) S ∅ r.
Proof using.
  intros [H1 H2 H3 H4 H5 H6 H7 H8 H9] Hneg. split; try done.
  - intros id' A [Hi|E]%elem_of_app Hw HA; [by eapply H8|]. apply list_elem_of_singleton in E. apply Nat2Z.inj in E as ->. specialize (Hneg _ Hw). lia.
  - intros A HA. destruct (H9 A HA) as (p&ids&m&Hin&Hp&Hh&Hids&Hb&Hlim). exists p, ids, m. do 3 (split; [done|]). split; [|done]. intros i. rewrite Hids, elem_of_app, list_elem_of_singleton.
    split; [intros [? ?]; by split; [left|]|]. intros [[Hi| ->] Hex]; [done|]. destruct Hex as (id'&E&Hw'). apply Nat2Z.inj in E as <-. destruct H4 as (v&_&Hv). pose proof (symbols_bound _ _ _ Hv HA). specialize (Hneg _ Hw'). lia.
Qed.

(** One postdot item. *)
Lemma yix_create_ok l S r id y : area l S ∅ r -> t_yims r0 !! id = Some y -> YS_of_YIM y = k -> ends_in (yix_create k (Z.of_nat id) r) (fun r' => exists S', area (l ++ [Z.of_nat id]) S' ∅ r').
Proof using Hen Htok Hs Hs0 Hk0.
  intros Ha Hy Hk. pose proof (st_yims _ _ _ (stage_store _ _ _ _ _ _ _ Hs) _ _ Hy) as [Hx _ _ _]. destruct (en_ahm _ Hen _ Hx) as (a&Haa&Hfit).
  unfold yix_create, AHM_of. rewrite (yim_read r id y) by (by rewrite (area_yims _ _ _ _ Ha)). cbn [mbind res_bind]. rewrite (same_ahm t0) by (by eapply area_tables). rewrite (ahm_at_read _ _ _ Haa). cbn [mbind res_bind].
  rewrite (postdot_read _ _ _ Haa). set (A := postdot (AHM_of_YIM y)). assert (forall C, waits r0 k C id -> C = A) as Hself by (intros C (y'&Hy'&_&<-); rewrite Hy in Hy'; by injection Hy' as <-).
  destruct (Z.ltb_spec A 0) as [Hneg|Hpos]; [apply ends_Ok; exists S; apply area_skip; [done|]; intros C Hw; by rewrite (Hself _ Hw)|].
  destruct (next_item _ Hen _ Hx Hpos) as [_ Hlt]. fold A in Hlt. pose proof Ha as [H1 (l2&H2) H3 (v&Hv&Hrep) (v2&Hv2&Hrep2) H6 H7 H8 H9]. rewrite Hv. cbn [bv_of written mbind res_bind]. rewrite (bv_bit_test_ok _ _ _ _ Hrep) by lia. cbn [mbind res_bind].
  set (p := length (t_pims r)). assert (exists old, (if bool_decide (A ∈ S) then rd (t_pim_workarea r) A else Ok None) = Ok old /\ (old = None -> A ∉ S)
    /\ exists ids, chain (t_pims r) A old ids /\ (forall q, old = Some q -> q < Z.of_nat p /\ A ∈ S) /\ forall i, i ∈ ids <-> i ∈ l /\ exists id, i = Z.of_nat id /\ waits r0 k A id) as (old&->&Hold&ids&Hch&Holdp&Hids).
  { destruct (decide (A ∈ S)) as [HA|HA].
    - rewrite bool_decide_eq_true_2 by done. destruct (H9 A HA) as (p'&ids&m&Hin&Hp&Hh&Hids&Hm&_). exists (Some (Z.of_nat p')). split; [apply rd_Ok; split; [lia|exact Hin]|]. split; [done|]. exists ids. rewrite bool_decide_eq_false_2 in Hm by apply not_elem_of_empty.
      symmetry in Hm. apply bool_decide_eq_false in Hm. inversion Hh as [? ? Hc|]; subst; [|destruct Hm; by eexists]. split; [done|]. split; [|done]. intros q [= <-]. split; [|done]. destruct (chain_length _ _ _ _ Hc p' eq_refl). unfold p. lia.
    - rewrite bool_decide_eq_false_2 by done. exists None. split; [done|]. split; [done|]. exists []. split; [constructor|]. split; [done|]. intros i. split; [by intros ?%not_elem_of_nil|]. intros [Hi (id'&->&Hw)]. destruct HA. by eapply H8. }
  cbn [mbind res_bind]. set (pims := t_pims r ++ [PIM_of_YIX (MkYIX old A (Some (Z.of_nat id)))]). set (S' := {[A]} ∪ S).
  assert (exists r1, (match old with None => upd_ys (set_t_pims pims r) k (fun y => set_Postdot_SYM_Count_of_YS (Postdot_SYM_Count_of_YS y + 1) y) | Some _ => Ok (set_t_pims pims r) end) = Ok r1
    /\ r1 = set_t_sets (<[Z.to_nat k := set_Postdot_SYM_Count_of_YS (Z.of_nat (size S')) s0]> (t_sets r0)) (set_t_pims pims r)) as (r1&->&Hr1).
  { destruct old as [q|].
    - eexists. split; [done|]. assert (S' = S) as -> by (unfold S'; apply subseteq_union_1_L, singleton_subseteq_l; by destruct (Holdp q eq_refl)). rewrite <- H7. by destruct r.
    - eexists. split; [apply upd_ys_at with (s := set_Postdot_SYM_Count_of_YS (Z.of_nat (size S)) s0); [done|exact (set_now l S ∅ r Ha)]|]. cbn [t_sets set_t_pims]. rewrite H7, list_insert_insert_eq. do 2 f_equal. unfold set_Postdot_SYM_Count_of_YS. cbn.
      assert (Z.of_nat (size S) + 1 = Z.of_nat (size S')) as ->; [|done]. unfold S'. rewrite size_union, size_singleton by (apply disjoint_singleton_l; by apply Hold). lia. }
  cbn [mbind res_bind]. assert (Z.to_nat A < length (t_pim_workarea r))%nat as Hwl by lia.
  assert (t_pim_workarea r1 = t_pim_workarea r /\ t_bv_pim_symbols r1 = Some v /\ t_pims r1 = pims /\ t_bv_lim_symbols r1 = Some v2 /\ t_sets r1 = <[Z.to_nat k := set_Postdot_SYM_Count_of_YS (Z.of_nat (size S')) s0]> (t_sets r0) /\ rest_of_pims r1 = rest_of_pims r) as (Ew&Ev&Ep&El&Es&Er) by (subst r1; done). clear Hr1.
  rewrite Ew, wr_total by lia. cbn [mbind res_bind]. unfold add_pim_symbol. cbn [t_bv_pim_symbols set_t_pim_workarea]. rewrite Ev. cbn [bv_of written mbind res_bind].
  destruct (bv_bit_set_ok _ _ _ A Hrep) as (v'&->&Hrep'&_); [lia|]. cbn [mbind res_bind]. apply ends_Ok. exists S'.
  split; cbn [t_pims t_pim_workarea t_bv_pim_symbols t_bv_lim_symbols t_sets set_t_bv_pim_symbols set_t_pim_workarea].
  - by etransitivity; [exact Er|].
  - rewrite Ep. unfold pims. rewrite H2, <- app_assoc. by eexists.
  - by rewrite length_insert.
  - by exists v'.
  - exists v2. by rewrite El.
  - apply empty_subseteq.
  - exact Es.
  - intros id' B [Hi|E]%elem_of_app Hw HB; [unfold S'; apply elem_of_union; right; by eapply H8|]. apply list_elem_of_singleton in E. apply Nat2Z.inj in E as ->. rewrite (Hself _ Hw). apply elem_of_union_l. by apply elem_of_singleton.
  - intros B HB. destruct (decide (B = A)) as [->|Hne].
    + exists p, (Z.of_nat id :: ids), None. split; [unfold in_area; cbn; by apply list_lookup_insert_eq|]. split; [unfold p; rewrite H2, length_app; lia|].
      split; [constructor; cbn; rewrite Ep; apply chain_yix with old; [unfold pims; by rewrite lookup_app_r, Nat.sub_diag by done|intros q Hq; by apply Holdp|by apply chain_app]|].
      split; [|split; [by rewrite bool_decide_eq_false_2 by apply not_elem_of_empty|done]]. intros i. rewrite elem_of_cons, elem_of_app, list_elem_of_singleton, Hids. split.
      * intros [->|[Hi Hex]]; [split; [by right|]; exists id; split; [done|]; by exists y|by split; [left|]].
      * intros [[Hi| ->] Hex]; [by right|by left].
    + assert (B ∈ S) as HBS by (apply elem_of_union in HB as [HB|HB]; [by apply elem_of_singleton in HB|done]). pose proof (symbols_bound _ _ _ Hrep HBS) as HBb. apply (symbol_app l r B (bool_decide (B ∈ (∅ : gset Z))) _ (PIM_of_YIX (MkYIX old A (Some (Z.of_nat id)))) id A); [by apply H9|by rewrite bool_decide_eq_false_2 by apply not_elem_of_empty|exact Ep| |done|done].
      cbn. rewrite list_lookup_insert_ne by lia. done.
Qed.

Lemma start_yixes_ok r : area [] ∅ ∅ r -> ends_in (start_yixes r k) (fun r' => exists S, area work S ∅ r').
Proof using Hen Htok Hs Hs0 Hk0.
  intros Ha. pose proof (bd_making _ _ _ _ _ (sg_building _ _ _ _ _ _ _ Hs)) as Hm. unfold start_yixes. rewrite (f_equal t_yim_work_stack (ar_rest _ _ _ _ Ha) : t_yim_work_stack r = t_yim_work_stack r0), (mk_work _ _ _ _ _ Hm). cbn [written mbind res_bind].
  apply (each_res_ok (fun l r => exists S, area l S ∅ r)); [by exists ∅|]. intros l1 i l2 r1 Hw (S&Ha1).
  assert (i ∈ work) as Hi by (rewrite Hw; apply elem_of_app; right; by left). rewrite (mk_ids _ _ _ _ _ Hm) in Hi. apply elem_of_seqZ in Hi.
  destruct (lookup_lt_is_Some_2 (t_yims r0) (Z.to_nat i)) as [y Hy]; [rewrite (mk_length _ _ _ _ _ Hm); lia|]. rewrite <- (Z2Nat.id i) by lia. apply (yix_create_ok l1 S r1 _ y Ha1 Hy). apply (mk_set _ _ _ _ _ Hm _ _ Hy). lia.
Qed.

(** ** The Leo items *)

Lemma lim_made_mono r r' A lim y : (forall B top o, area_leo r B top o -> area_leo r' B top o) -> lim_made r A lim y -> lim_made r' A lim y.
Proof using. intros Hmono (o&c&H1&H2&H3&H4&[H5|[H5|[H5 H6]]]); exists o, c; (do 4 (split; [done|])); [by left|by right; left|right; right; split; [done|by apply Hmono]]. Qed.

Lemma symbol_mono l r r' A b : symbol_at l r A b -> (exists l2, t_pims r' = t_pims r ++ l2) -> t_pim_workarea r' !! Z.to_nat A = t_pim_workarea r !! Z.to_nat A ->
  (forall B top o, area_leo r B top o -> area_leo r' B top o) -> symbol_at l r' A b.
Proof using.
  intros (p&ids&m&Hin&Hp&Hh&Hids&Hb&Hlim) (l2&Hl2) Hw Hmono. exists p, ids, m. split; [unfold in_area; by rewrite Hw|]. split; [done|]. split; [rewrite Hl2; by apply heads_app|]. split; [done|]. split; [done|].
  intros lim id y Hm Hi Hy. destruct (Hlim lim id y Hm Hi Hy) as (E1&E2&E3&E4&[E5|E5]); (do 4 (split; [done|])); [by left|right; by eapply lim_made_mono].
Qed.

Lemma area_not_leo l S L r A top o : area l S L r -> A ∈ S -> A ∉ L -> ~ area_leo r A top o.
Proof using.
  intros Ha HA HL (p&lim&Hp&Hl&_). destruct (ar_at _ _ _ _ Ha A HA) as (p'&ids&m&Hin&_&Hh&_&Hb&_). rewrite bool_decide_eq_false_2 in Hb by done. symmetry in Hb. apply bool_decide_eq_false in Hb.
  unfold in_area in *. rewrite Hp in Hin. injection Hin as E. apply Nat2Z.inj in E as <-. inversion Hh as [? ? Hc|]; subst; [|destruct Hb; by eexists]. inversion Hc as [|p2 ? ? ? Hp2 ? ? E]; subst. apply Nat2Z.inj in E as ->. congruence.
Qed.

(** The Leo items have not been populated. *)
Definition unmade (L : gset Z) (r : RECCE) : Prop := forall A p lim, A ∈ L -> in_area r A p -> t_pims r !! p = Some (PIM_of_LIM lim) -> Origin_of_LIM lim = None.

Lemma lim_create_ok S L r A : area work S L r -> A ∈ S -> A ∉ L -> unmade L r -> ends_in (lim_create k A r) (fun r' => exists L', area work S L' r' /\ unmade L' r' /\ forall B, B ∈ L' -> B = A \/ B ∈ L).
Proof using Hen Hs Hs0 Hk0.
  intros Ha HA HL Hunmade. pose proof Ha as [H1 (l2&H2) H3 (v&Hv&Hrep) (v2&Hv2&Hrep2) H6 H7 H8 H9]. pose proof (symbols_bound _ _ _ Hrep HA) as HAb.
  assert (forall r', r' = r -> ends_in (Ok r') (fun r' => exists L', area work S L' r' /\ unmade L' r' /\ forall B, B ∈ L' -> B = A \/ B ∈ L)) as Hskip by (intros r' ->; apply ends_Ok; exists L; split; [done|]; split; [done|]; intros B HB; by right).
  destruct (H9 A HA) as (p&ids&m&Hin&Hp&Hh&Hids&Hb&_). rewrite bool_decide_eq_false_2 in Hb by done. symmetry in Hb. apply bool_decide_eq_false in Hb. inversion Hh as [o l Hc|]; subst; [|destruct Hb; by eexists].
  inversion Hc as [|p' next i ids' Hpim Hnext Hc' E]; subst. apply Nat2Z.inj in E as ->.
  unfold lim_create, workarea_read. assert (rd (t_pim_workarea r) A = Ok (Some (Z.of_nat p))) as -> by (apply rd_Ok; split; [lia|exact Hin]). cbn [mbind res_bind written]. unfold PIM_by_ID. rewrite (rd_at _ _ _ Hpim). cbn [mbind res_bind Next_PIM_of_PIM YIX_of_PIM Next_PIM_of_YIX].
  destruct next as [q|]; [by apply Hskip|]. inversion Hc'; subst ids'. cbn [YIM_of_PIM YIX_of_PIM YIM_of_YIX written mbind res_bind].
  assert (i ∈ [i]) as Hi by (by left). apply Hids in Hi as [Hiw (id&->&Hw)]. pose proof Hw as (y&Hy&Hyk&Hyp). pose proof (st_yims _ _ _ (stage_store _ _ _ _ _ _ _ Hs) _ _ Hy) as [Hx _ _ _]. destruct (en_ahm _ Hen _ Hx) as (a&Haa&Hfit).
  rewrite (yim_read r id y) by (by rewrite (area_yims _ _ _ _ Ha)). cbn [mbind res_bind]. pose proof (area_tables _ _ _ _ Ha) as Ht. unfold AHM_of. rewrite (same_ahm t0 (t_tables r) Ht (AHM_of_YIM y)), (ahm_at_read _ _ _ Haa). cbn [mbind res_bind].
  destruct (en_first _ Hen _ (af_rule _ _ _ Hfit)) as (e&He&_). unfold IRL_is_Leo. rewrite (same_irl_table t0) by done. rewrite He. cbn [mbind res_bind]. destruct (IRL_is_Right_Recursive e) eqn:Hrr; cbn [negb]; [|by apply Hskip].
  assert (0 <= Postdot_NSYID_of_AHM a) as Hpd by (rewrite (postdot_read _ _ _ Haa); lia). destruct (af_next _ _ _ Hfit Hpd) as (_&b&Hb1&Hb2). rewrite (same_ahm t0) by done. rewrite (ahm_at_read _ _ _ Hb1). cbn [mbind res_bind].
  rewrite (same_leo t0) by done. destruct (AHM_is_Leo_Completion t0 b) as [leo| |] eqn:Hleo; [|unfold AHM_is_Leo_Completion in Hleo; rewrite Hb2, He in Hleo; by destruct (AHM_is_Completion b)..]. cbn [mbind res_bind]. destruct leo; cbn [negb]; [|by apply Hskip].
  cbn [t_pim_workarea set_t_pims]. rewrite wr_total by lia. cbn [mbind res_bind]. unfold add_lim_symbol. cbn [t_bv_lim_symbols set_t_pim_workarea set_t_pims]. rewrite Hv2. cbn [bv_of written mbind res_bind]. destruct (bv_bit_set_ok _ _ _ A Hrep2 HAb) as (v3&->&Hrep3&_). cbn [mbind res_bind].
  apply ends_Ok. exists ({[A]} ∪ L). set (lim := MkLIM _ _ _ _ _ _ _ _ _ _). set (r' := set_t_bv_lim_symbols _ _).
  split; [|split; [|intros B [->%elem_of_singleton|?]%elem_of_union; [by left|by right]]].
  2:{ intros B p2 lim2 HB Hin2 Hl2. unfold in_area in Hin2. cbn in Hin2, Hl2. apply elem_of_union in HB as [->%elem_of_singleton|HB].
    - rewrite list_lookup_insert_eq in Hin2 by lia. injection Hin2 as E. apply Nat2Z.inj in E as <-. rewrite lookup_app_r, Nat.sub_diag in Hl2 by done. by injection Hl2 as <-.
    - pose proof (symbols_bound _ _ _ Hrep2 HB) as HBb. rewrite list_lookup_insert_ne in Hin2 by (intros E; apply Z2Nat.inj in E; [subst B; done|lia|lia]). apply (Hunmade B p2); [done|done|].
      destruct (H9 B (H6 _ HB)) as (p3&ids3&m3&Hin3&_&Hh3&_). unfold in_area in Hin3. rewrite Hin2 in Hin3. injection Hin3 as E. apply Nat2Z.inj in E as <-. rewrite lookup_app_l in Hl2; [done|].
      inversion Hh3 as [? ? Hc3|? ? ? ? Hp3 ? ? ? E3]; subst; [by destruct (chain_length _ _ _ _ Hc3 p2 eq_refl)|]. apply Nat2Z.inj in E3 as ->. by eapply lookup_lt_Some. }
  assert (forall B top o, area_leo r B top o -> area_leo r' B top o) as Hmono.
  { intros B top o (p2&lim2&Hp2&Hl2&Ho). destruct (decide (B = A)) as [->|Hne]; [destruct (area_not_leo _ _ _ _ A top o Ha HA HL); by exists p2, lim2|]. exists p2, lim2. split; [|split; [by apply lookup_app_l_Some|done]].
    unfold in_area in *. cbn. destruct (decide (Z.to_nat B = Z.to_nat A)) as [E|?]; [|by rewrite list_lookup_insert_ne]. rewrite E, Hin in Hp2. injection Hp2 as E2. apply Nat2Z.inj in E2 as <-. congruence. }
  split; cbn [t_pims t_pim_workarea t_bv_pim_symbols t_bv_lim_symbols t_sets set_t_bv_lim_symbols set_t_pim_workarea set_t_pims r'].
  - done.
  - rewrite H2, <- app_assoc. by eexists.
  - by rewrite length_insert.
  - by exists v.
  - by exists v3.
  - apply union_subseteq. split; [by apply singleton_subseteq_l|done].
  - done.
  - done.
  - intros B HB. destruct (decide (B = A)) as [->|Hne].
    + exists (length (t_pims r)), [Z.of_nat id], (Some lim). split; [unfold in_area; cbn; apply list_lookup_insert_eq; lia|]. split; [rewrite H2, length_app; lia|]. cbn [t_pims set_t_bv_lim_symbols set_t_pim_workarea set_t_pims r'].
      split; [apply heads_lim with (Z.of_nat p); [by rewrite lookup_app_r, Nat.sub_diag by done|done|apply lookup_lt_Some in Hpim; lia|by apply chain_app]|]. split; [done|]. split; [rewrite !bool_decide_eq_true_2; [done|by eexists|apply elem_of_union_l; by apply elem_of_singleton]|].
      intros lim' id' y' [= <-] [= E] Hy'. apply Nat2Z.inj in E as <-. rewrite Hy in Hy'. injection Hy' as <-. split; [done|]. split; [done|]. split; [by exists b|]. split; [done|by left].
    + assert (bool_decide (B ∈ {[A]} ∪ L) = bool_decide (B ∈ L)) as -> by (apply bool_decide_ext; rewrite elem_of_union, elem_of_singleton; tauto). apply (symbol_mono work r); [by apply H9|by exists [PIM_of_LIM lim]| |done].
      cbn. pose proof (symbols_bound _ _ _ Hrep HB). rewrite list_lookup_insert_ne; [done|lia].
Qed.

Lemma start_lims_ok S r : area work S ∅ r -> ends_in (start_lims r k) (fun r' => exists L, area work S L r' /\ unmade L r').
Proof using Hen Hs Hs0 Hk0.
  intros Ha. pose proof (ar_symbols _ _ _ _ Ha) as (v&Hv&Hrep). unfold start_lims. rewrite Hv. cbn [bv_of written mbind res_bind]. rewrite (bv_for_each_ok _ _ _ _ _ _ Hrep); [|rewrite (same_nsys t0) by (by eapply area_tables); unfold nsy_count, NSY_Count_of_G; lia].
  assert (NoDup (elems nsys S)) as Hnd by (apply NoDup_filter, NoDup_seqZ).
  destruct (each_res_ok (fun l r => exists L, area work S L r /\ unmade L r /\ forall B, B ∈ L -> B ∈ l) (elems nsys S) (lim_create k) r) as (r1&->&L&Ha1&Hun&_).
  - exists ∅. split; [done|]. split; [by intros B p lim ?%not_elem_of_empty|]. by intros B ?%not_elem_of_empty.
  - intros l1 A l2 r1 E (L&Ha1&Hun&HL). rewrite E in Hnd. apply NoDup_app in Hnd as (_&Hni&_). assert (A ∈ S) as HA by (assert (A ∈ elems nsys S) as HA by (rewrite E; apply elem_of_app; right; by left); unfold elems in HA; apply elem_of_elems_from in HA; apply HA).
    destruct (lim_create_ok S L r1 A Ha1 HA) as (r2&->&L'&Ha2&Hun2&HL'); [intros Hin; apply (Hni A); [by apply HL|by left]|done|]. eexists. split; [done|]. exists L'. split; [done|]. split; [done|]. intros B HB. apply elem_of_app. destruct (HL' B HB) as [->|?]; [right; by left|left; by apply HL].
  - cbn [mbind res_bind fst snd]. apply ends_Ok. exists L. destruct Ha1 as [H1 H2 H3 (v'&Hv'&Hrep') H5 H6 H7 H8 H9]. split; [|done]. split; try done. by exists v.
Qed.
End postdot.

(** These steps leave the arena of the lists and the chain alone. *)
Definition same_lists (x : list (option Z) * CILAR) (r : RECCE) : Prop := (t_lim_chain r, cilar_of (t_tables r)) = x.

Lemma upd_ys_lists x r k f : same_lists x r -> post (same_lists x) (upd_ys r k f).
Proof. intros Hr. unfold upd_ys. do 2 (apply post_read; intros ? _). by apply post_Ok. Qed.

Lemma yix_create_lists x set id r : same_lists x r -> post (same_lists x) (yix_create set id r).
Proof.
  intros Hr. unfold yix_create. do 2 (apply post_read; intros ? _). case_match; [by apply post_Ok|]. do 2 (apply post_read; intros ? _). apply post_read. intros old _.
  eapply post_bind; [destruct old; [apply (post_Ok (same_lists x)); exact Hr|by apply (upd_ys_lists x)]|]. intros r1 Hr1. apply post_read. intros ? _. unfold add_pim_symbol. do 2 (apply post_read; intros ? _). by apply post_Ok.
Qed.

Lemma post_each {A B} (Q : A -> Prop) (l : list B) body (acc : A) : Q acc -> (forall b a, Q a -> post Q (body b a)) -> post Q (each_res l body acc).
Proof. intros HQ Hb. revert acc HQ. induction l as [|b l IH]; intros acc HQ; cbn [each_res]; [by apply post_Ok|]. eapply post_bind; [by apply Hb|]. intros a Ha. by apply IH. Qed.

Lemma start_yixes_lists x set r : same_lists x r -> post (same_lists x) (start_yixes r set).
Proof. intros Hr. unfold start_yixes. apply post_read. intros ? _. apply post_each; [done|]. intros ? ?. apply yix_create_lists. Qed.

Lemma lim_create_lists x set A r : same_lists x r -> post (same_lists x) (lim_create set A r).
Proof.
  intros Hr. unfold lim_create. do 2 (apply post_read; intros ? _). case_match; [by apply post_Ok|]. do 4 (apply post_read; intros ? _). case_match; [by apply post_Ok|]. do 2 (apply post_read; intros ? _). case_match; [by apply post_Ok|].
  apply post_read. intros ? _. unfold add_lim_symbol. do 2 (apply post_read; intros ? _). by apply post_Ok.
Qed.

Lemma start_lims_lists x set r n (S : gset Z) v : same_lists x r -> t_bv_pim_symbols r = Some v -> bv_rep v n S -> n <= Z.of_nat (nsy_count (t_tables r)) -> post (same_lists x) (start_lims r set).
Proof.
  intros Hr Hv Hrep Hn. unfold start_lims. rewrite Hv. cbn [bv_of written mbind res_bind]. rewrite (bv_for_each_ok _ _ _ _ _ _ Hrep Hn). eapply post_bind; [eapply post_bind; [apply (post_each (same_lists x)); [done|]; intros ? ?; apply lim_create_lists|]|].
  - intros a Ha. apply (post_Ok (fun y : Bit_Vector * RECCE => same_lists x y.2)). exact Ha.
  - intros y Hy. by apply post_Ok.
Qed.

(** * The Leo items are populated

    Each Leo item of a set gets its top item and its origin ([add_predecessors]): those of the
    Leo item that its base waits for, when there is one that has been populated, and otherwise
    those of its base.  Leo items that wait for each other are followed ([lim_chain_loop])
    until one is populated, or has been seen. *)

Lemma upd_lim_ok r p lim f : t_pims r !! p = Some (PIM_of_LIM lim) -> upd_lim r (Z.of_nat p) f = Ok (set_t_pims (<[p := PIM_of_LIM (f lim)]> (t_pims r)) r).
Proof. intros E. unfold upd_lim, PIM_by_ID. rewrite (rd_at _ _ _ E). cbn [mbind res_bind LIM_of_PIM]. rewrite wr_total by (apply lookup_lt_Some in E; lia). by rewrite Nat2Z.id. Qed.

Lemma lim_read r p lim : t_pims r !! p = Some (PIM_of_LIM lim) -> lim_by_id r (Z.of_nat p) = Ok lim.
Proof. intros E. unfold lim_by_id, PIM_by_ID. by rewrite (rd_at _ _ _ E). Qed.

Lemma ascending_length l n : ascending l -> Forall (fun x => 0 <= x < n) l -> 0 <= n -> Z.of_nat (length l) <= n.
Proof.
  intros Ha Hb Hn. assert (NoDup l) as Hnd. { clear Hb. induction Ha as [|x l Hl IH Hx]; constructor; [|done]. rewrite Forall_forall in Hx. intros Hin. specialize (Hx x Hin). lia. }
  assert (l ⊆+ seqZ 0 n) as Hsub. { apply NoDup_submseteq; [done|]. intros x Hx. rewrite Forall_forall in Hb. specialize (Hb x Hx). apply elem_of_seqZ. lia. }
  apply submseteq_length in Hsub. rewrite length_seqZ in Hsub. lia.
Qed.

Section leo.
Context (t0 : TABLES) (Hen : engine t0) (allowed : Z -> Prop) (tok : Z -> Z -> Z -> Prop) (Htok : forall j y k, tok j y k -> 0 <= j < k).
#[local] Abbreviation item := (item t0 allowed tok).
#[local] Abbreviation postdot := (postdot t0).
#[local] Abbreviation lhs := (lhs t0).
#[local] Abbreviation nsys := (NSY_Count_of_G (t_internal t0)).
Context (k : Z) (Hk0 : 0 <= k) (base : nat) (work : list Z) (r0 : RECCE) (Hs : stage t0 allowed tok k base work r0) (s0 : YS) (Hs0 : t_sets r0 !! Z.to_nat k = Some s0).
Context (Hall : forall j, 0 <= j <= k -> complete_at t0 allowed tok r0 j).
Context (c0 : Z) (Hc0 : c0 + nsys < SIZE_MOD - 1) (S L : gset Z) (W : list (option Z)).
#[local] Abbreviation waits := (waits t0).
#[local] Abbreviation area := (area t0 allowed tok k r0 s0).
#[local] Abbreviation lim_state := (lim_state t0 allowed tok k r0).
#[local] Abbreviation lim_made := (lim_made t0 allowed tok k r0).
#[local] Abbreviation leads := (leads k r0).

(** [P]: the symbols whose Leo item is populated; [W]: the work area. *)
Record leos (P : gset Z) (r : RECCE) : Prop := {
  le_area : area work S L r;
  le_work : t_pim_workarea r = W;
  le_chain : Z.of_nat (length (t_lim_chain r)) = 2 * nsys;
  le_arena : held (c0 + Z.of_nat (size P)) (cilar_of (t_tables r));
  le_sub : P ⊆ L;
  le_populated A p lim : A ∈ L -> in_area r A p -> t_pims r !! p = Some (PIM_of_LIM lim) -> A ∈ P <-> (Origin_of_LIM lim <> None)
}.

(** The Leo item of a symbol, and its base. *)
Record lim_of (r : RECCE) (A : Z) (p : nat) (lim : LIM) (id : nat) (y : YIM) : Prop := {
  lo_at : in_area r A p;
  lo_new : (length (t_pims r0) <= p)%nat;
  lo_pim : t_pims r !! p = Some (PIM_of_LIM lim);
  lo_yix : exists q, YIX_of_LIM lim = MkYIX (Some q) A None /\ q < Z.of_nat p /\ chain (t_pims r) A (Some q) [Z.of_nat id];
  lo_base : t_yims r0 !! id = Some y;
  lo_ids i : i ∈ [Z.of_nat id] <-> i ∈ work /\ exists id, i = Z.of_nat id /\ waits r0 k A id;
  lo_state : lim_state r A lim id y
}.

Lemma lim_at P r A : leos P r -> A ∈ L -> exists p lim id y, lim_of r A p lim id y.
Proof using.
  intros Hl HA. pose proof (le_area _ _ Hl) as Ha. destruct (ar_at _ _ _ _ _ _ _ _ _ _ Ha A ltac:(by apply (ar_sub _ _ _ _ _ _ _ _ _ _ Ha))) as (p&ids&m&Hin&Hp&Hh&Hids&Hb&Hlim).
  rewrite bool_decide_eq_true_2 in Hb by done. symmetry in Hb. apply bool_decide_eq_true in Hb as [lim ->]. inversion Hh as [|p' lim' q b Hpp Hy Hq Hc]; subst. apply Nat2Z.inj in H as ->.
  assert (b ∈ [b]) as Hi by (by left). apply Hids in Hi as (_&id&->&y&Hy0&Hyk&Hyp). exists p, lim, id, y. split; [done|done|done|by exists q|done|done|by apply Hlim].
Qed.

Lemma lim_item r A p lim id y : lim_of r A p lim id y -> item k (AHM_of_YIM y) (Origin_of_YIM y) /\ postdot (AHM_of_YIM y) = A /\ yim_fits t0 (k + 1) y.
Proof using Hs.
  intros Hl. assert (Z.of_nat id ∈ [Z.of_nat id]) as Hi by (by left). apply (lo_ids _ _ _ _ _ _ Hl) in Hi as (_&id'&E&y'&Hy'&Hyk&Hyp). apply Nat2Z.inj in E as <-. rewrite (lo_base _ _ _ _ _ _ Hl) in Hy'. injection Hy' as <-.
  split; [|split; [done|by apply (st_yims _ _ _ (stage_store _ _ _ _ _ _ _ Hs) id), (lo_base _ _ _ _ _ _ Hl)]]. apply (sg_sound _ _ _ _ _ _ _ Hs). exists id, y. split; [by apply (lo_base _ _ _ _ _ _ Hl)|]. unfold key. by rewrite Hyk.
Qed.

Lemma lim_symbol P r A p lim id y : leos P r -> lim_of r A p lim id y -> A ∈ L -> 0 <= A < nsys.
Proof using.
  intros Hl _ HA. destruct (ar_lims _ _ _ _ _ _ _ _ _ _ (le_area _ _ Hl)) as (v&_&Hv). by apply (br_elems _ _ _ Hv).
Qed.

Lemma lim_unique r A p lim id y B p2 lim2 id2 y2 : lim_of r A p lim id y -> lim_of r B p2 lim2 id2 y2 -> p = p2 -> A = B.
Proof using.
  intros H1 H2 ->. pose proof (lo_pim _ _ _ _ _ _ H1) as E. rewrite (lo_pim _ _ _ _ _ _ H2) in E. injection E as ->. destruct (lo_yix _ _ _ _ _ _ H1) as (q&E1&_), (lo_yix _ _ _ _ _ _ H2) as (q2&E2&_). rewrite E1 in E2. by injection E2.
Qed.

Lemma chain_insert (pims : list PIM) p lim lim' A o ids : pims !! p = Some (PIM_of_LIM lim) -> chain pims A o ids -> chain (<[p := PIM_of_LIM lim']> pims) A o ids.
Proof using. clear. intros Hp. induction 1 as [|q next y ids Hq Hn _ IH]; econstructor; [|done..]. rewrite list_lookup_insert_ne; [done|]. intros ->. congruence. Qed.

Lemma lim_unpopulated P r A p lim id y : leos P r -> A ∈ L -> A ∉ P -> lim_of r A p lim id y -> Origin_of_LIM lim = None /\ Top_AHM_of_LIM lim = AHM_of_YIM y + 1.
Proof using.
  intros Hl HA HP Hlo. destruct (lo_state _ _ _ _ _ _ Hlo) as (_&_&_&_&[?|(o&c&Ho&_)]); [done|]. destruct HP. apply (le_populated _ _ Hl A p lim); [done|by apply Hlo|by apply Hlo|congruence].
Qed.

Lemma lim_populated P r A p lim id y : leos P r -> A ∈ L -> A ∈ P -> lim_of r A p lim id y -> lim_made r A lim y.
Proof using.
  intros Hl HA HP Hlo. destruct (lo_state _ _ _ _ _ _ Hlo) as (_&_&_&_&[[Ho _]|?]); [|done]. by apply (le_populated _ _ Hl A p lim) in HP; [|done|apply Hlo|apply Hlo].
Qed.

(** ** A Leo item is populated *)

Lemma populate_ok P r A p lim id y ca lim' : leos P r -> A ∈ L -> A ∉ P -> lim_of r A p lim id y -> held (c0 + Z.of_nat (size P) + 1) ca ->
  YIX_of_LIM lim' = YIX_of_LIM lim -> Trailhead_YIM_of_LIM lim' = Trailhead_YIM_of_LIM lim -> Trailhead_AHM_of_LIM lim' = Trailhead_AHM_of_LIM lim -> LIM_is_Active lim' = LIM_is_Active lim -> lim_made r A lim' y ->
  leos ({[A]} ∪ P) (set_t_pims (<[p := PIM_of_LIM lim']> (t_pims r)) (set_t_tables (set_cilar ca (t_tables r)) r)).
Proof using.
  intros Hl HA HP Hlo Hca E1 E2 E3 E4 Hmade. set (r' := set_t_pims _ _). pose proof (le_area _ _ Hl) as Ha. pose proof (lo_pim _ _ _ _ _ _ Hlo) as Hpim. pose proof (lookup_lt_Some _ _ _ Hpim) as Hlt.
  destruct (lim_unpopulated _ _ _ _ _ _ _ Hl HA HP Hlo) as [Hnone _].
  assert (forall B top o, area_leo r B top o -> area_leo r' B top o) as Hmono.
  { intros B top o (p2&lim2&Hp2&Hl2&Ho&Htop). exists p2, lim2. split; [exact Hp2|]. split; [|done]. cbn. rewrite list_lookup_insert_ne; [done|]. intros ->. rewrite Hpim in Hl2. injection Hl2 as ->. congruence. }
  pose proof Ha as [H1 (l2&H2) H3 H4 H5 H6 H7 H8 H9]. split; [|by apply Hl|by apply Hl|cbn; rewrite size_union, size_singleton by (by apply disjoint_singleton_l); by replace (c0 + Z.of_nat (1 + size P)) with (c0 + Z.of_nat (size P) + 1) by lia|apply union_subseteq; split; [by apply singleton_subseteq_l|by apply Hl]|].
  - split; [exact H1| |exact H3|exact H4|exact H5|exact H6|exact H7|exact H8|].
    { cbn. exists (<[(p - length (t_pims r0))%nat := PIM_of_LIM lim']> l2). rewrite H2, insert_app_r_alt; [done|]. apply Hlo. }
    intros B HB. destruct (decide (B = A)) as [->|Hne].
    + destruct (lo_yix _ _ _ _ _ _ Hlo) as (q&Ey&Hq&Hc). exists p, [Z.of_nat id], (Some lim'). split; [apply Hlo|]. split; [apply Hlo|]. split; [apply heads_lim with q; [cbn; by apply list_lookup_insert_eq|congruence|done|by apply (chain_insert _ p lim)]|].
      split; [apply Hlo|]. split; [by rewrite !bool_decide_eq_true_2|]. intros lim2 id2 y2 [= <-] [= E] Hy2. apply Nat2Z.inj in E as <-. rewrite (lo_base _ _ _ _ _ _ Hlo) in Hy2. injection Hy2 as <-.
      destruct (lo_state _ _ _ _ _ _ Hlo) as (K1&K2&K3&K4&_). unfold EarleyPostdot.lim_state. rewrite E2, E3, E4. do 4 (split; [done|]). right. by apply (lim_made_mono t0 allowed tok k r0 r).
    + destruct (H9 B HB) as (p2&ids&m&Hin&Hp2&Hh&Hids&Hb&Hlim). exists p2, ids, m. split; [exact Hin|]. split; [done|]. split; [|split; [done|split; [done|]]].
      * inversion Hh as [o ids' Hc|p3 lim3 q b Hp3 Hy3 Hq Hc]; subst; [constructor; by apply (chain_insert _ p lim)|]. apply heads_lim with q; [|done|done|by apply (chain_insert _ p lim)]. cbn. rewrite list_lookup_insert_ne; [done|]. intros ->. rewrite Hpim in Hp3. injection Hp3 as ->.
        destruct (lo_yix _ _ _ _ _ _ Hlo) as (q'&Ey&_). rewrite Ey in Hy3. by injection Hy3.
      * intros lim2 id2 y2 Em Ei Hy2. destruct (Hlim lim2 id2 y2 Em Ei Hy2) as (K1&K2&K3&K4&[K5|K5]); (do 4 (split; [done|])); [by left|right; by apply (lim_made_mono t0 allowed tok k r0 r)].
  - intros B p2 lim2 HB Hin Hl2. cbn in Hl2. destruct (decide (B = A)) as [->|Hne].
    + assert (p2 = p) as ->. { pose proof (lo_at _ _ _ _ _ _ Hlo) as Hin'. change (in_area r A p2) in Hin. unfold in_area in *. rewrite Hin in Hin'. injection Hin' as E. by apply Nat2Z.inj in E. }
      rewrite list_lookup_insert_eq in Hl2 by done. injection Hl2 as <-. destruct Hmade as (o&?&Ho&_). split; [intros _; by rewrite Ho|]. intros _. apply elem_of_union_l. by apply elem_of_singleton.
    + assert (p <> p2) as Hnp. { intros <-. destruct (lim_at _ _ B Hl HB) as (p3&lim3&id3&y3&Hlo3). assert (p3 = p) as ->; [|destruct Hne; symmetry; by apply (lim_unique r A p lim id y B p lim3 id3 y3)].
        pose proof (lo_at _ _ _ _ _ _ Hlo3) as Hin'. change (in_area r B p) in Hin. unfold in_area in *. rewrite Hin in Hin'. injection Hin' as E. by apply Nat2Z.inj in E. }
      rewrite list_lookup_insert_ne in Hl2 by done. rewrite elem_of_union, elem_of_singleton. rewrite <- (le_populated _ _ Hl B p2 lim2 HB Hin Hl2). tauto.
Qed.

Lemma populate_from_base_ok P r A p lim id y : leos P r -> A ∈ L -> A ∉ P -> lim_of r A p lim id y -> ends_in (populate_from_base r (Z.of_nat p)) (leos ({[A]} ∪ P)).
Proof using Hen Hs.
  intros Hl HA HP Hlo. destruct (lo_state _ _ _ _ _ _ Hlo) as (E1&E2&(b&Hb&Hleo)&Hact&_). destruct (lim_item _ _ _ _ _ _ Hlo) as (Hi&Hp&Hfit). pose proof (lim_symbol _ _ _ _ _ _ _ Hl Hlo HA) as HAb.
  unfold populate_from_base. rewrite (lim_read _ _ _ (lo_pim _ _ _ _ _ _ Hlo)). cbn [mbind res_bind]. rewrite E2. rewrite (same_ahm t0) by (eapply area_tables; [done|by apply Hl]). rewrite (ahm_at_read _ _ _ Hb). cbn [mbind res_bind].
  rewrite E1, (yim_read r id y) by (rewrite (area_yims _ _ _ _ _ _ _ _ _ _ (le_area _ _ Hl)); by apply Hlo). cbn [mbind res_bind]. rewrite (upd_lim_ok _ _ _ _ (lo_pim _ _ _ _ _ _ Hlo)). apply ends_Ok.
  destruct (en_ahm _ Hen _ (ahm_at_bound _ _ _ Hb)) as (b'&Hb'&Hbf). assert (b' = b) as -> by (by eapply ahm_at_inj). destruct (af_events _ _ _ Hbf) as (c&Hc&Hcl&_).
  set (lim' := set_CIL_of_LIM _ _). assert (set_t_pims (<[p := PIM_of_LIM lim']> (t_pims r)) r = set_t_pims (<[p := PIM_of_LIM lim']> (t_pims r)) (set_t_tables (set_cilar (cilar_of (t_tables r)) (t_tables r)) r)) as -> by (by destruct r as [[[[]]]]).
  apply (populate_ok P r A p lim id y); [done..| |done|done|done|done|].
  - apply (held_le (c0 + Z.of_nat (size P))); [apply Hl|lia].
  - exists (Origin_of_YIM y), c. split; [done|]. split; [done|]. split; [done|]. destruct (lim_unpopulated _ _ _ _ _ _ _ Hl HA HP Hlo) as [_ Htop]. unfold lim'. cbn [Top_AHM_of_LIM set_CIL_of_LIM set_Origin_of_LIM]. rewrite Htop, <- Hp. split; [|by left].
    apply climbs_base; [done|lia].
Qed.

(** ** The Leo item that the base waits for *)

Definition predecessor (y : YIM) (q : nat) : Prop :=
  let B := lhs (AHM_of_YIM y + 1) in
  (Origin_of_YIM y < k /\ at_pim r0 (Origin_of_YIM y) B (Some (Z.of_nat q)) /\ exists lim, t_pims r0 !! q = Some (PIM_of_LIM lim)) \/ (Origin_of_YIM y = k /\ B ∈ L /\ W !! Z.to_nat B = Some (Some (Z.of_nat q))).

Lemma area_kept l S' L' r : area l S' L' r -> kept k r0 r.
Proof using Hs0.
  intros Ha. split; [apply Ha|exists []; rewrite (area_yims _ _ _ _ _ _ _ _ _ _ Ha), app_nil_r; split; [done|by intros q ?%not_elem_of_nil]|].
  intros j s Hj Hjs. exists s. rewrite (ar_sets _ _ _ _ _ _ _ _ _ _ Ha), list_lookup_insert_ne by lia. done.
Qed.

Lemma older_pim P r q x : leos P r -> t_pims r0 !! q = Some x -> t_pims r !! q = Some x.
Proof using. intros Hl Hq. destruct (ar_pims _ _ _ _ _ _ _ _ _ _ (le_area _ _ Hl)) as (l&->). by apply lookup_app_l_Some. Qed.

(** What a populated predecessor says. *)
Lemma predecessor_facts P r A p lim id y q : leos P r -> lim_of r A p lim id y -> predecessor y q -> exists plim, t_pims r !! q = Some (PIM_of_LIM plim) /\
  (Origin_of_LIM plim <> None -> exists o c, Origin_of_LIM plim = Some o /\ CIL_of_LIM plim = Some c /\ ahm_list t0 c
     /\ climbs t0 allowed tok (Origin_of_YIM y) (lhs (AHM_of_YIM y + 1)) (Top_AHM_of_LIM plim) o /\ leads r (Origin_of_YIM y) (lhs (AHM_of_YIM y + 1)) (Top_AHM_of_LIM plim) o)
  /\ (Origin_of_YIM y = k -> Origin_of_LIM plim <> None <-> lhs (AHM_of_YIM y + 1) ∈ P) /\ (Origin_of_YIM y < k -> Origin_of_LIM plim <> None).
Proof using Hs Hen.
  intros Hl Hlo [(Hlt&Hat&plim&Hpl)|(Hk&HB&Hin)].
  - destruct (lim_item _ _ _ _ _ _ Hlo) as (_&_&[_ Hb _ _]). destruct (lo_state _ _ _ _ _ _ Hlo) as (_&_&(b&Hbb&_)&_). pose proof (lhs_bound _ Hen _ (ahm_at_bound _ _ _ Hbb)) as Hlb.
    destruct (sg_settled _ _ _ _ _ _ _ Hs (Origin_of_YIM y) ltac:(lia) _ (proj1 Hlb)) as (o&ids&m&Hat'&Hh&Hids&Hlim). unfold at_pim in Hat, Hat'. rewrite Hat in Hat'. injection Hat' as <-.
    exists plim. split; [by apply (older_pim P)|]. inversion Hh as [? ? Hc|p2 plim2 q2 b2 Hp2 _ _ _ Eq]; subst; [inversion Hc as [|p2 ? ? ? Hp2 ? ? E]; subst; apply Nat2Z.inj in E as ->; congruence|].
    apply Nat2Z.inj in Eq as ->. rewrite Hpl in Hp2. injection Hp2 as <-. assert (b2 ∈ [b2]) as Hb2 by (by left). apply Hids in Hb2 as (id2&->&y2&Hy2&_). destruct (Hlim plim id2 y2 eq_refl eq_refl Hy2) as (o&c&Ho&Hc&Hcl&_&_&Hcb&_).
    split; [intros _; exists o, c|split; [intros ?; exfalso; lia|intros _; by rewrite Ho]]. do 4 (split; [done|]). left. split; [done|]. by exists q, plim.
  - assert (in_area r (lhs (AHM_of_YIM y + 1)) q) as Hin' by (unfold in_area; by rewrite (le_work _ _ Hl)). clear Hin. rename Hin' into Hin. destruct (lim_at _ _ _ Hl HB) as (p2&lim2&id2&y2&Hlo2). assert (p2 = q) as -> by (pose proof (lo_at _ _ _ _ _ _ Hlo2) as Hin2; unfold in_area in *; rewrite Hin in Hin2; injection Hin2 as E; by apply Nat2Z.inj in E).
    exists lim2. split; [by apply Hlo2|]. pose proof (le_populated _ _ Hl _ _ _ HB Hin (lo_pim _ _ _ _ _ _ Hlo2)) as Hpop. split; [|split; [intros _; by symmetry|intros ?; exfalso; lia]].
    intros Ho. destruct (lim_populated _ _ _ _ _ _ _ Hl HB (proj2 Hpop Ho) Hlo2) as (o&c&Ho2&Hc&Hcl&Hcb&_). exists o, c. rewrite Hk. do 4 (split; [done|]). right. split; [done|]. exists q, lim2. split; [done|]. by split; [apply Hlo2|].
Qed.

(** An item that waits in a set has a postdot item, in the set or in the work area. *)
Lemma waiting_pim P r j B x o : leos P r -> 0 <= j <= k -> item j x o -> postdot x = B -> 0 <= B ->
  (j < k /\ exists q, at_pim r0 j B (Some (Z.of_nat q)) /\ exists pim, t_pims r0 !! q = Some pim /\ (PIM_is_LIM pim = true -> exists lim, pim = PIM_of_LIM lim))
  \/ (j = k /\ exists q, in_area r B q /\ exists pim, t_pims r !! q = Some pim /\ (PIM_is_LIM pim = true -> B ∈ L)).
Proof using Hs Hall.
  intros Hl Hj Hi Hx HB. destruct (complete_waits t0 allowed tok r0 j x o (Hall j Hj) Hi ltac:(lia)) as (id&y&Hy&Hkey). unfold key in Hkey. injection Hkey as E1 E2 E3.
  assert (waits r0 j B id) as Hw by (exists y; split; [done|]; split; [done|congruence]). destruct (decide (j = k)) as [->|Hne]; [right; split; [done|]|left; split; [lia|]].
  - pose proof (le_area _ _ Hl) as Ha. assert (Z.of_nat id ∈ work) as Hid.
    { pose proof (bd_making _ _ _ _ _ (sg_building _ _ _ _ _ _ _ Hs)) as Hm. rewrite (mk_ids _ _ _ _ _ Hm). apply elem_of_seqZ. pose proof (lookup_lt_Some _ _ _ Hy) as Hlt. rewrite (mk_length _ _ _ _ _ Hm) in Hlt. apply (mk_set _ _ _ _ _ Hm _ _ Hy) in E3. lia. }
    destruct (ar_at _ _ _ _ _ _ _ _ _ _ Ha B (ar_waits _ _ _ _ _ _ _ _ _ _ Ha id B Hid Hw HB)) as (q&ids&m&Hin&_&Hh&_&Hb&_). exists q. split; [done|]. inversion Hh as [? ? Hc|p2 lim q2 b Hp2 _ _ _ Eq]; subst.
    + inversion Hc as [|p2 ? ? ? Hp2 ? ? E]; subst. apply Nat2Z.inj in E as ->. eexists. split; [done|done].
    + apply Nat2Z.inj in Eq as ->. eexists. split; [done|]. intros _. rewrite (bool_decide_eq_true_2 (is_Some (Some lim))) in Hb by (by eexists). by apply bool_decide_eq_true in Hb.
  - destruct (sg_settled _ _ _ _ _ _ _ Hs j ltac:(lia) B HB) as (o1&ids&m&Hat&Hh&Hids&_). assert (Z.of_nat id ∈ ids) as Hid by (apply Hids; by exists id). destruct Hh as [o1 ids Hc|p2 lim q2 b Hp2 _ _ _].
    + inversion Hc as [|p2 ? ? ? Hp2 ? ? E]; subst; [by apply not_elem_of_nil in Hid|]. exists p2. split; [done|]. eexists. split; [done|done].
    + exists p2. split; [done|]. eexists. split; [done|]. by eexists.
Qed.

Lemma find_predecessor_ok P r A p lim id y : leos P r -> lim_of r A p lim id y -> A ∈ L ->
  ends_in (find_predecessor_lim r k (Z.of_nat p)) (fun res => forall p', res = Some p' -> exists q, p' = Z.of_nat q /\ predecessor y q).
Proof using Hs Hs0 Hen Htok Hall Hk0.
  intros Hl Hlo HA. pose proof (le_area _ _ Hl) as Ha. destruct (lo_state _ _ _ _ _ _ Hlo) as (E1&E2&(b&Hb&Hleo)&_&_). destruct (lim_item _ _ _ _ _ _ Hlo) as (Hi&Hp&[_ Hob _ _]). pose proof (lim_symbol _ _ _ _ _ _ _ Hl Hlo HA) as HAb.
  pose proof (stage_store _ _ _ _ _ _ _ Hs) as Hst. assert (YS_of_YIM y = k) as Hyk. { assert (Z.of_nat id ∈ [Z.of_nat id]) as Hid by (by left). apply (lo_ids _ _ _ _ _ _ Hlo) in Hid as (_&id'&E&y'&Hy'&Hyk&_). apply Nat2Z.inj in E as <-. rewrite (lo_base _ _ _ _ _ _ Hlo) in Hy'. by injection Hy' as <-. }
  assert (forall j, 0 <= j <= k -> exists s, YS_by_ID r j = Ok s /\ Ord_of_YS s = j) as Hords.
  { intros j Hj. destruct (set_read _ _ _ j Hst) as (s&Hsj&_); [lia|]. pose proof (st_ords _ _ _ Hst _ _ Hsj) as Ho. rewrite Z2Nat.id in Ho by lia. destruct (decide (j = k)) as [->|Hne].
    - exists (set_Postdot_SYM_Count_of_YS (Z.of_nat (size S)) s0). assert (s0 = s) as -> by congruence. split; [|done]. apply rd_Ok. split; [lia|]. by apply (set_now t0 allowed tok k r0 s Hs0 work S L).
    - exists s. split; [|done]. apply rd_Ok. split; [lia|]. rewrite (ar_sets _ _ _ _ _ _ _ _ _ _ Ha), list_lookup_insert_ne by lia. done. }
  destruct (Hords (Origin_of_YIM y) ltac:(lia)) as (s1&Hs1&Ho1), (Hords k ltac:(lia)) as (s2&Hs2&Ho2). assert (strip (t_tables r) = strip t0) as Ht by (eapply area_tables; [exact Hs|exact Ha]).
  unfold find_predecessor_lim. rewrite (lim_read _ _ _ (lo_pim _ _ _ _ _ _ Hlo)). cbn [mbind res_bind]. rewrite E1, (yim_read r id y) by (rewrite (area_yims _ _ _ _ _ _ _ _ _ _ Ha); by apply Hlo). cbn [mbind res_bind]. rewrite Hs1. cbn [mbind res_bind].
  rewrite E2, (same_ahm t0) by done. rewrite (ahm_at_read _ _ _ Hb). cbn [mbind res_bind]. rewrite (same_lhs t0) by done. destruct (en_ahm _ Hen _ (ahm_at_bound _ _ _ Hb)) as (b'&Hb'&Hbf). assert (b' = b) as -> by (by eapply ahm_at_inj).
  destruct (lhs_read_ahm _ _ _ Hb Hbf) as [-> Hlb]. cbn [mbind res_bind]. rewrite Hs2. cbn [mbind res_bind]. rewrite Ho1, Ho2.
  destruct (leo_expected t0 allowed tok Hen Htok _ _ _ Hi ltac:(lia)) as (x'&o'&Hi'&Hx'); [by exists b|].
  destruct (waiting_pim P r (Origin_of_YIM y) _ x' o' Hl ltac:(lia) Hi' Hx' (proj1 Hlb)) as [(Hlt&q&Hat&pim&Hq&Hlim)|(Hk&q&Hin&pim&Hq&Hlim)].
  - rewrite (proj2 (Z.ltb_lt _ _) Hlt). pose proof (kept_at k r0 r (area_kept _ _ _ _ Ha) (Origin_of_YIM y) _ _ ltac:(lia) Hat) as Hat2. unfold at_pim in Hat2. rewrite Hat2. cbn [mbind res_bind written].
    unfold PIM_by_ID. rewrite (rd_at _ _ _ (older_pim _ _ _ _ Hl Hq)). cbn [mbind res_bind]. apply ends_Ok. intros p' Hp'. destruct (PIM_is_LIM pim); [|done]. injection Hp' as <-. exists q. split; [done|]. left. split; [done|]. split; [done|]. destruct (Hlim eq_refl) as (lim2&->). by exists lim2.
  - rewrite Hk, Z.ltb_irrefl. unfold workarea_read. assert (rd (t_pim_workarea r) (lhs (AHM_of_YIM y + 1)) = Ok (Some (Z.of_nat q))) as -> by (apply rd_Ok; split; [lia|exact Hin]). cbn [mbind res_bind written].
    unfold PIM_by_ID. rewrite (rd_at _ _ _ Hq). cbn [mbind res_bind]. apply ends_Ok. intros p' Hp'. destruct (PIM_is_LIM pim); [|done]. injection Hp' as <-. exists q. split; [done|]. right. split; [done|]. split; [by apply Hlim|]. unfold in_area in Hin. by rewrite (le_work _ _ Hl) in Hin.
Qed.

(** The state with another Leo item, and another arena. *)
Definition with_lim (r : RECCE) (p : nat) (lim : LIM) (ca : CILAR) : RECCE := set_t_pims (<[p := PIM_of_LIM lim]> (t_pims r)) (set_t_tables (set_cilar ca (t_tables r)) r).

Lemma with_lim_same r p lim : set_t_pims (<[p := PIM_of_LIM lim]> (t_pims r)) r = with_lim r p lim (cilar_of (t_tables r)).
Proof using. clear. by destruct r as [[[[]]]]. Qed.

Lemma with_lim_pim r p lim ca : (p < length (t_pims r))%nat -> t_pims (with_lim r p lim ca) !! p = Some (PIM_of_LIM lim).
Proof using. clear. intros Hp. by apply list_lookup_insert_eq. Qed.

Lemma with_lim_again r p lim ca lim' : set_t_pims (<[p := PIM_of_LIM lim']> (t_pims (with_lim r p lim ca))) (with_lim r p lim ca) = with_lim r p lim' ca.
Proof using. clear. unfold with_lim. cbn [t_pims set_t_pims set_t_tables]. by rewrite list_insert_insert_eq. Qed.

(** ** A Leo item is populated from another *)
Context `{HLib : Library} (Hfuel : (MARPA_AVL_MAX_HEIGHT <= tree_rounds)%nat).

(** The list of the events: that of the predecessor, with the event of the trailhead. *)
Lemma predecessor_events P r p lim1 b size0 c lc : leos P r -> (p < length (t_pims r))%nat -> ahm_at t0 (Trailhead_AHM_of_LIM lim1) b -> CIL_of_LIM lim1 = Some c -> cil_ints c = ints_of lc -> ascending lc -> Forall (fun x => 0 <= x < ahms t0) lc ->
  let r1 := with_lim r p lim1 (cilar_of (t_tables r)) in
  exists c2 ca2, (if size0 >? Z.of_nat (length lc) then
         lim ← lim_by_id r1 (Z.of_nat p);
         trailhead_ahm ← AHM_by_ID (t_tables r1) (Trailhead_AHM_of_LIM lim);
         trailhead_ahm_event_ahmids ← written (Event_AHMIDs_of_AHM trailhead_ahm);
         count ← Count_of_CIL trailhead_ahm_event_ahmids;
         if negb (count =? 0) then
           event_ahmid ← Item_of_CIL trailhead_ahm_event_ahmids 0;
           x ← cil_merge_one tree_rounds (cilar_of (t_tables r1)) c event_ahmid;
           let r := set_t_tables (set_cilar x.2 (t_tables r1)) r1 in
           match x.1 with
           | Some new_cil => upd_lim r (Z.of_nat p) (set_CIL_of_LIM (Some new_cil))
           | None => Ok r
           end
         else Ok r1
       else Ok r1) = Ok (with_lim r p (set_CIL_of_LIM (Some c2) lim1) ca2) /\ ahm_list t0 c2 /\ held (c0 + Z.of_nat (size P) + 1) ca2.
Proof using Hs Hen Hfuel Hc0.
  intros Hl Hplt Hb Hc Hlc Hasc Hbnd r1. pose proof (le_area _ _ Hl) as Ha. assert (strip (t_tables r1) = strip t0) as Ht by (change (strip (t_tables r) = strip t0); eapply area_tables; [exact Hs|exact Ha]).
  assert (held (c0 + Z.of_nat (size P) + 1) (cilar_of (t_tables r))) as Hheld by (eapply held_le; [apply Hl|lia]).
  assert (exists c2 ca2, Ok r1 = Ok (with_lim r p (set_CIL_of_LIM (Some c2) lim1) ca2) /\ ahm_list t0 c2 /\ held (c0 + Z.of_nat (size P) + 1) ca2) as Hsame.
  { exists c, (cilar_of (t_tables r)). split; [do 2 f_equal; destruct lim1; cbn in Hc; by subst|]. split; [by exists lc|done]. }
  case_match; [|done]. rewrite (lim_read r1 p lim1) by (by apply with_lim_pim). cbn [mbind res_bind]. rewrite (same_ahm t0) by done. rewrite (ahm_at_read _ _ _ Hb). cbn [mbind res_bind].
  destruct (en_ahm _ Hen _ (ahm_at_bound _ _ _ Hb)) as (b'&Hb'&Hbf). assert (b' = b) as -> by (by eapply ahm_at_inj). destruct (af_events _ _ _ Hbf) as (e&He&_&[Hints|Hints]); rewrite He; cbn [written mbind res_bind]; rewrite (count_ok _ _ Hints); [done|].
  cbn [mbind res_bind length Z.of_nat Z.eqb negb]. change (negb (Z.pos (Pos.of_succ_nat 0) =? 0)) with true. cbn iota. pose proof (item_ok _ _ 0%nat (Trailhead_AHM_of_LIM lim1) Hints eq_refl) as Hit. change (Z.of_nat 0) with 0 in Hit. rewrite Hit. cbn [mbind res_bind].
  destruct (le_arena _ _ Hl) as (cs&Hcs&Hlen). change (cilar_of (t_tables r1)) with (cilar_of (t_tables r)). pose proof (subseteq_size _ _ (le_sub _ _ Hl)). assert (Z.of_nat (size L) <= nsys) as HLn.
  { destruct (ar_lims _ _ _ _ _ _ _ _ _ _ Ha) as (v&_&Hv). rewrite <- (elems_size nsys L) by apply Hv. apply (elems_length tree_rounds Hfuel). apply Hv. }
  pose proof (en_small _ Hen) as Hsmall. pose proof (ascending_length lc (ahms t0) Hasc Hbnd ltac:(unfold ahms; lia)) as Hlcn. pose proof (ahm_at_bound _ _ _ Hb) as Htb.
  destruct (cil_merge_one_ok tree_rounds Hfuel (cilar_of (t_tables r)) cs c lc (Trailhead_AHM_of_LIM lim1) Hcs ltac:(lia) Hlc Hasc ltac:(unfold INT_MAX in *; lia)) as [(_&ca'&->&Hca')|(Hni&c'&ca'&cs'&->&Hca'&Hc'&_&Hle)]; cbn [mbind res_bind fst snd].
  - exists c, ca'. split; [do 2 f_equal; destruct lim1; cbn in Hc; by subst|]. split; [by exists lc|]. exists cs. split; [done|lia].
  - change (set_t_tables (set_cilar ca' (t_tables r1)) r1) with (with_lim r p lim1 ca'). rewrite (upd_lim_ok _ p lim1) by (by apply with_lim_pim). exists c', ca'. split; [by rewrite with_lim_again|]. split; [|exists cs'; split; [done|lia]].
    destruct (zinsert_ok (Trailhead_AHM_of_LIM lim1) lc Hasc Hni) as [Hza Hzi]. exists (zinsert (Trailhead_AHM_of_LIM lim1) lc). split; [done|]. split; [done|]. rewrite Forall_forall in Hbnd |- *. intros x [->|Hx]%Hzi; [done|by apply Hbnd].
Qed.

Lemma populate_from_predecessor_ok P r A p lim id y q plim : leos P r -> A ∈ L -> A ∉ P -> lim_of r A p lim id y -> predecessor y q -> t_pims r !! q = Some (PIM_of_LIM plim) -> Origin_of_LIM plim <> None ->
  ends_in (populate_from_predecessor r (Z.of_nat p) (Z.of_nat q)) (leos ({[A]} ∪ P)).
Proof using Hs Hen Htok Hfuel Hc0.
  intros Hl HA HP Hlo Hpr Hq Ho. destruct (predecessor_facts _ _ _ _ _ _ _ _ Hl Hlo Hpr) as (plim'&Hq'&Hfacts&_). rewrite Hq in Hq'. injection Hq' as <-. destruct (Hfacts Ho) as (o&c&Eo&Ec&(lc&Hlc&Hasc&Hbnd)&Hcb&Hld). clear Hfacts.
  pose proof (le_area _ _ Hl) as Ha. assert (strip (t_tables r) = strip t0) as Ht by (eapply area_tables; [exact Hs|exact Ha]). pose proof (lo_pim _ _ _ _ _ _ Hlo) as Hp. pose proof (lookup_lt_Some _ _ _ Hp) as Hplt.
  destruct (lo_state _ _ _ _ _ _ Hlo) as (E1&E2&(b&Hb&Hleo)&Hact&_). destruct (lim_item _ _ _ _ _ _ Hlo) as (Hi&Hpd&_). pose proof (lim_symbol _ _ _ _ _ _ _ Hl Hlo HA) as HAb.
  assert (postdot (AHM_of_YIM y + 1) < 0) as Hend by (apply leo_completion_end; by exists b).
  assert (climbs t0 allowed tok k A (Top_AHM_of_LIM plim) o) as Hclimb by (rewrite <- Hpd; eapply climbs_step; [exact Hi|lia|done|done]).
  unfold populate_from_predecessor. rewrite (lim_read _ _ _ Hq). cbn [mbind res_bind]. rewrite Ec. cbn [written mbind res_bind].
  rewrite (upd_lim_ok _ _ _ _ Hp), with_lim_same. cbn [mbind res_bind]. set (lim1 := set_Origin_of_LIM _ _). set (r1 := with_lim r p lim1 _). destruct (climbs_bounds t0 allowed tok Hen Htok _ _ _ _ Hclimb) as [Htopb _]. destruct (en_ahm _ Hen _ Htopb) as (ta&Hta&_).
  rewrite (same_ahm t0 (t_tables r1)) by exact Ht. rewrite (ahm_at_read _ _ _ Hta). cbn [mbind res_bind]. rewrite (count_ok _ _ Hlc). cbn [mbind res_bind].
  match goal with |- ends_in (?m ≫= _) _ => assert (exists c2 ca2, m = Ok (with_lim r p (set_CIL_of_LIM (Some c2) lim1) ca2) /\ ahm_list t0 c2 /\ held (c0 + Z.of_nat (size P) + 1) ca2) as (c2&ca2&->&Hc2&Hca2) end.
  { apply (predecessor_events P r p lim1 b (Event_Group_Size_of_AHM ta) c lc); [done|done|change (ahm_at t0 (Trailhead_AHM_of_LIM lim) b); by rewrite E2|done..]. }
  cbn [mbind res_bind]. rewrite (upd_lim_ok _ _ _ _ (with_lim_pim r p _ ca2 Hplt)), with_lim_again. apply ends_Ok. apply (populate_ok P r A p lim id y); [done..|]. exists o, c2. split; [exact Eo|]. split; [done|]. split; [done|]. split; [done|]. by right.
Qed.
End leo.

(** * The chains of Leo items

    Leo items that wait for each other ([lim_chain_loop]), the one after the other, and the
    population of a chain from its end ([populate_chain]); the loop over the Leo items of a
    set ([add_predecessors]). *)

(** Populating a Leo item leaves the chain alone. *)
Definition same_chain (l : list (option Z)) (r : RECCE) : Prop := t_lim_chain r = l.

Lemma upd_lim_chain l r p f : same_chain l r -> post (same_chain l) (upd_lim r p f).
Proof. intros Hr. unfold upd_lim. do 3 (apply post_read; intros ? _). by apply post_Ok. Qed.

Lemma populate_from_base_chain l r p : same_chain l r -> post (same_chain l) (populate_from_base r p).
Proof. intros Hr. unfold populate_from_base. do 3 (apply post_read; intros ? _). by apply upd_lim_chain. Qed.

Lemma populate_from_predecessor_chain `{Library} l r p q : same_chain l r -> post (same_chain l) (populate_from_predecessor r p q).
Proof.
  intros Hr. unfold populate_from_predecessor. do 2 (apply post_read; intros ? _). eapply post_bind; [by apply (upd_lim_chain l)|]. intros r1 Hr1. do 2 (apply post_read; intros ? _).
  eapply post_bind; [|intros r2 Hr2; by apply upd_lim_chain]. case_match; [|by apply post_Ok]. do 4 (apply post_read; intros ? _). case_match; [|by apply post_Ok]. do 2 (apply post_read; intros ? _).
  case_match; [by apply (upd_lim_chain l)|by apply post_Ok].
Qed.

Section chain.
Context `{HLib : Library} (Hfuel : (MARPA_AVL_MAX_HEIGHT <= tree_rounds)%nat).
Context (t0 : TABLES) (Hen : engine t0) (allowed : Z -> Prop) (tok : Z -> Z -> Z -> Prop) (Htok : forall j y k, tok j y k -> 0 <= j < k).
#[local] Abbreviation nsys := (NSY_Count_of_G (t_internal t0)).
Context (k : Z) (Hk0 : 0 <= k) (base : nat) (work : list Z) (r0 : RECCE) (Hs : stage t0 allowed tok k base work r0) (s0 : YS) (Hs0 : t_sets r0 !! Z.to_nat k = Some s0).
Context (Hall : forall j, 0 <= j <= k -> complete_at t0 allowed tok r0 j).
Context (c0 : Z) (Hc0 : c0 + nsys < SIZE_MOD - 1) (S L : gset Z) (W : list (option Z)).
#[local] Abbreviation leos := (leos t0 allowed tok k work r0 s0 c0 S L W).
#[local] Abbreviation lim_of := (lim_of t0 allowed tok k work r0).
#[local] Abbreviation predecessor := (predecessor t0 k r0 L W).

(** The postdot item of a symbol; the one that its Leo item waits for, if it is a Leo item. *)
Definition at_area (A : Z) (p : nat) : Prop := W !! Z.to_nat A = Some (Some (Z.of_nat p)).
Definition base_of (A : Z) (y : YIM) : Prop := exists id, t_yims r0 !! id = Some y /\ forall i, i ∈ [Z.of_nat id] <-> i ∈ work /\ exists id, i = Z.of_nat id /\ waits t0 r0 k A id.
Definition next_lim (A : Z) (q : nat) : Prop := exists y, base_of A y /\ predecessor y q.

Lemma lim_here P r A p : leos P r -> A ∈ L -> at_area A p -> exists lim id y, lim_of r A p lim id y /\ base_of A y.
Proof using.
  intros Hl HA Hp. destruct (lim_at _ _ _ _ _ _ _ _ _ _ _ _ _ _ Hl HA) as (p'&lim&id&y&Hlo). pose proof (lo_at _ _ _ _ _ _ _ _ _ _ _ _ Hlo) as Hin. unfold in_area in Hin. rewrite (le_work _ _ _ _ _ _ _ _ _ _ _ _ _ Hl), Hp in Hin. injection Hin as E. apply Nat2Z.inj in E as <-.
  exists lim, id, y. split; [done|]. exists id. split; [apply Hlo|apply Hlo].
Qed.

Lemma lim_there P r A : leos P r -> A ∈ L -> exists p, at_area A p.
Proof using.
  intros Hl HA. destruct (lim_at _ _ _ _ _ _ _ _ _ _ _ _ _ _ Hl HA) as (p'&lim&id&y&Hlo). exists p'. pose proof (lo_at _ _ _ _ _ _ _ _ _ _ _ _ Hlo) as Hin. unfold in_area in Hin. by rewrite (le_work _ _ _ _ _ _ _ _ _ _ _ _ _ Hl) in Hin.
Qed.

Lemma base_of_unique A y z : base_of A y -> base_of A z -> y = z.
Proof using.
  intros (id&Hy&H1) (id2&Hz&H2). assert (Z.of_nat id ∈ [Z.of_nat id2]) as Hin by (apply H2, H1; by left). apply list_elem_of_singleton in Hin. apply Nat2Z.inj in Hin as ->. congruence.
Qed.

Lemma lim_symbol_read r A p lim id y : lim_of r A p lim id y -> Postdot_NSYID_of_YIX (YIX_of_LIM lim) = A.
Proof using. intros Hlo. destruct (lo_yix _ _ _ _ _ _ _ _ _ _ _ _ Hlo) as (q&->&_). done. Qed.

Lemma populated_read P r A p : leos P r -> A ∈ L -> at_area A p -> lim_is_populated r (Z.of_nat p) = Ok (bool_decide (A ∈ P)).
Proof using.
  intros Hl HA Hp. destruct (lim_here P r A p Hl HA Hp) as (lim&id&y&Hlo&_). pose proof (lo_pim _ _ _ _ _ _ _ _ _ _ _ _ Hlo) as Hpim. unfold lim_is_populated. rewrite (lim_read _ _ _ Hpim). cbn [mbind res_bind]. f_equal.
  pose proof (le_populated _ _ _ _ _ _ _ _ _ _ _ _ _ Hl A p lim HA (lo_at _ _ _ _ _ _ _ _ _ _ _ _ Hlo) Hpim) as Hpop. unfold LIM_is_Populated. symmetry. destruct (Origin_of_LIM lim); [apply bool_decide_eq_true_2; by apply Hpop|apply bool_decide_eq_false_2; intros HP; by apply Hpop in HP].
Qed.

(** A predecessor is populated, or a Leo item of this set. *)
Lemma next_populated P r A p q : leos P r -> A ∈ L -> at_area A p -> next_lim A q ->
  exists b plim, lim_is_populated r (Z.of_nat q) = Ok b /\ t_pims r !! q = Some (PIM_of_LIM plim) /\ (b = true <-> (Origin_of_LIM plim <> None)) /\ (b = false -> exists B, B ∈ L /\ B ∉ P /\ at_area B q).
Proof using Hs Hen.
  intros Hl HA Hp (y&Hy&Hpr). destruct (lim_here P r A p Hl HA Hp) as (lim&id&y'&Hlo&Hy'). rewrite (base_of_unique _ _ _ Hy' Hy) in Hlo. clear y' Hy'.
  destruct (predecessor_facts t0 Hen allowed tok k base work r0 Hs s0 c0 S L W P r A p lim id y q Hl Hlo Hpr) as (plim&Hq&_&Hnow&Hbefore). exists (LIM_is_Populated plim), plim. split; [unfold lim_is_populated; by rewrite (lim_read _ _ _ Hq)|]. split; [done|].
  assert (LIM_is_Populated plim = true <-> (Origin_of_LIM plim <> None)) as Hb by (unfold LIM_is_Populated; by destruct (Origin_of_LIM plim)). split; [done|]. intros E. destruct Hpr as [(Hlt&_)|(Hk&HB&Hat)].
  - apply Hbefore, Hb in Hlt. congruence.
  - exists (lhs t0 (AHM_of_YIM y + 1)). split; [done|]. split; [|done]. intros HP. apply (Hnow Hk), Hb in HP. congruence.
Qed.

(** The step for one Leo item, when its predecessor is known. *)
Definition populate_one r (lim_to_process : Z) (predecessor_lim : option Z) : res RECCE :=
  populated ← populated_predecessor r predecessor_lim;
  match predecessor_lim with
  | Some p => if populated : bool then populate_from_predecessor r lim_to_process p else populate_from_base r lim_to_process
  | None => populate_from_base r lim_to_process
  end.

Lemma populate_one_ok P r A p o : leos P r -> A ∈ L -> A ∉ P -> at_area A p -> (forall q, o = Some q -> exists q', q = Z.of_nat q' /\ next_lim A q') -> ends_in (populate_one r (Z.of_nat p) o) (leos ({[A]} ∪ P)).
Proof using Hs Hen Htok Hfuel Hc0.
  intros Hl HA HP Hp Ho. destruct (lim_here P r A p Hl HA Hp) as (lim&id&y&Hlo&Hy). unfold populate_one, populated_predecessor.
  assert (ends_in (populate_from_base r (Z.of_nat p)) (leos ({[A]} ∪ P))) as Hbase by (by apply (populate_from_base_ok t0 Hen allowed tok k base work r0 Hs s0 c0 S L W P r A p lim id y)).
  destruct o as [q|]; [|exact Hbase]. destruct (Ho q eq_refl) as (q'&->&Hn). destruct (next_populated P r A p q' Hl HA Hp Hn) as (b&plim&->&Hq&Hb&_). cbn [mbind res_bind]. destruct b; [|exact Hbase].
  destruct Hn as (y'&Hy'&Hpr). rewrite (base_of_unique _ _ _ Hy' Hy) in Hpr. by apply (populate_from_predecessor_ok t0 Hen allowed tok Htok k base work r0 Hs s0 c0 Hc0 S L W Hfuel P r A p lim id y q' plim); [..|apply Hb].
Qed.

(** ** The chain *)

Lemma leos_chain P r l : leos P r -> length l = length (t_lim_chain r) -> leos P (set_t_lim_chain l r).
Proof using.
  intros [[H1 H2 H3 H4 H5 H6 H7 H8 H9] Hw Hc Hh Hsub Hpop] Hlen. split; [|exact Hw|cbn; by rewrite Hlen|exact Hh|exact Hsub|exact Hpop]. split; assumption.
Qed.

(** [O]: the symbols that have not been seen; [As]: those of the chain. *)
Record chained (O P : gset Z) (As : list Z) (r : RECCE) : Prop := {
  ch_leos : leos P r;
  ch_sub : O ⊆ L;
  ch_nodup : NoDup As;
  ch_as A : A ∈ As -> A ∈ L /\ A ∉ P /\ A ∉ O;
  ch_cover A : A ∈ L -> A ∈ O \/ A ∈ P \/ A ∈ As;
  ch_array i A : As !! i = Some A -> exists p, at_area A p /\ t_lim_chain r !! i = Some (Some (Z.of_nat p));
  ch_links i A B : As !! i = Some A -> As !! Datatypes.S i = Some B -> exists q, at_area B q /\ next_lim A q
}.

Lemma symbols_size P r : leos P r -> Z.of_nat (size L) <= nsys.
Proof using Hfuel.
  intros Hl. destruct (ar_lims _ _ _ _ _ _ _ _ _ _ (le_area _ _ _ _ _ _ _ _ _ _ _ _ _ Hl)) as (v&_&Hv). rewrite <- (elems_size nsys L) by apply Hv. apply (elems_length tree_rounds Hfuel). apply Hv.
Qed.

Lemma chain_push O P As r A p : chained O P As r -> A ∈ O -> A ∉ P -> at_area A p -> (forall A0, list.last As = Some A0 -> exists q, at_area A q /\ next_lim A0 q) ->
  ends_in (lim_chain_push r (Z.of_nat (length As)) (Z.of_nat p)) (chained (O ∖ {[A]}) P (As ++ [A])).
Proof using Hfuel.
  intros [Hl Hsub Hnd Has Hcov Harr Hlinks] HA HP Hp Hlast. assert (A ∉ As) as Hni by (intros Hin; by destruct (Has A Hin) as (_&_&?)).
  assert (length As < length (t_lim_chain r))%nat as Hlt.
  { pose proof (symbols_size _ _ Hl). pose proof (le_chain _ _ _ _ _ _ _ _ _ _ _ _ _ Hl). assert (size (list_to_set As : gset Z) <= size L)%nat as Hsz by (apply subseteq_size; intros B HB%elem_of_list_to_set; by apply Has). rewrite size_list_to_set in Hsz by done.
    pose proof (Hsub _ HA) as HAL. assert (size L <> 0)%nat by (intros E; apply size_empty_inv in E; rewrite E in HAL; by apply not_elem_of_empty in HAL). lia. }
  unfold lim_chain_push. rewrite wr_total by lia. cbn [mbind res_bind]. rewrite Nat2Z.id. apply ends_Ok. split.
  - apply leos_chain; [done|by rewrite length_insert].
  - intros B HB. apply elem_of_difference in HB as [HB _]. by apply Hsub.
  - apply NoDup_app. split; [done|]. split; [|apply NoDup_singleton]. by intros B HB ->%list_elem_of_singleton.
  - intros B [HB|HB]%elem_of_app; [|apply list_elem_of_singleton in HB as ->]; [destruct (Has B HB) as (?&?&HO); split; [done|]; split; [done|]; intros [? _]%elem_of_difference; done|].
    split; [by apply Hsub|]. split; [done|]. by intros [_ Hne]%elem_of_difference; apply Hne, elem_of_singleton.
  - intros B HB. rewrite elem_of_difference, elem_of_singleton, elem_of_app, list_elem_of_singleton. destruct (decide (B = A)) as [->|Hne]; [by right; right; right|]. destruct (Hcov B HB) as [?|[?|?]]; [by left|by right; left|by right; right; left].
  - intros i B Hi. cbn [t_lim_chain set_t_lim_chain]. apply lookup_app_Some in Hi as [Hi|[Hge Hi]].
    + destruct (Harr i B Hi) as (q&Hq&Hc). exists q. split; [done|]. apply lookup_lt_Some in Hi. by rewrite list_lookup_insert_ne by lia.
    + apply list_lookup_singleton_Some in Hi as [Ei <-]. exists p. split; [done|]. replace i with (length As) by lia. by apply list_lookup_insert_eq.
  - intros i B C Hi Hj. apply lookup_app_Some in Hj as [Hj|[Hge Hj]].
    + rewrite lookup_app_l in Hi by (apply lookup_lt_Some in Hj; lia). by eapply Hlinks.
    + apply list_lookup_singleton_Some in Hj as [Ei <-]. rewrite lookup_app_l in Hi by (apply lookup_lt_Some in Hi; rewrite length_app in Hi; cbn in Hi; lia). apply Hlast. rewrite last_lookup. rewrite <- Hi. f_equal. lia.
Qed.

(** The loop that follows the chain. *)
Definition chain_end (c : RECCE * Bit_Vector * Z * option Z) (P : gset Z) (As0 : list Z) : Prop :=
  let '(r, ok, ix, o) := c in exists O As A, chained O P As r /\ (exists l, As = As0 ++ l) /\ bv_rep ok nsys O /\ ix = Z.of_nat (length As) /\ list.last As = Some A /\ forall q, o = Some q -> exists q', q = Z.of_nat q' /\ next_lim A q'.

Lemma chain_loop_ok P rounds : forall r ok O As A0 A p, chained O P As r -> bv_rep ok nsys O -> list.last As = Some A0 -> A ∈ L -> A ∉ P -> at_area A p -> next_lim A0 p -> (size O <= rounds)%nat ->
  ends_in (lim_chain_loop rounds r k ok (Z.of_nat (length As)) (Z.of_nat p)) (fun c => chain_end c P As).
Proof using Hfuel Hs Hs0 Hen Htok Hall Hk0.
  induction rounds as [|rounds IH]; intros r ok O As A0 A p Hch Hok Hlast HA HP Hp Hnext Hsize; pose proof (ch_leos _ _ _ _ Hch) as Hl; destruct (lim_here P r A p Hl HA Hp) as (lim&id&y&Hlo&Hy);
    pose proof (lim_symbol t0 allowed tok k work r0 s0 c0 S L W P r A p lim id y Hl Hlo HA) as HAb;
    cbn [lim_chain_loop]; rewrite (lim_read _ _ _ (lo_pim _ _ _ _ _ _ _ _ _ _ _ _ Hlo)); cbn [mbind res_bind]; rewrite (lim_symbol_read _ _ _ _ _ _ Hlo), (bv_bit_test_ok _ _ _ _ Hok HAb); cbn [mbind res_bind].
  - assert (A ∉ O) as HO by (assert (O = ∅) as -> by (apply leibniz_equiv, size_empty_inv; lia); apply not_elem_of_empty). rewrite bool_decide_eq_false_2 by done. cbn [negb]. apply ends_Ok. exists O, As, A0. split; [done|]. split; [exists []; by rewrite app_nil_r|]. do 3 (split; [done|]). intros q [= <-]. by exists p.
  - destruct (decide (A ∈ O)) as [HO|HO]; [rewrite bool_decide_eq_true_2 by done|rewrite bool_decide_eq_false_2 by done]; cbn [negb]; [|apply ends_Ok; exists O, As, A0; split; [done|]; split; [exists []; by rewrite app_nil_r|]; do 3 (split; [done|]); intros q [= <-]; by exists p].
    destruct (find_predecessor_ok t0 Hen allowed tok Htok k Hk0 base work r0 Hs s0 Hs0 Hall c0 S L W P r A p lim id y Hl Hlo HA) as (o&->&Ho). cbn [mbind res_bind].
    destruct (chain_push O P As r A p Hch HO HP Hp) as (r1&->&Hch1); [intros A1 E; rewrite Hlast in E; injection E as <-; by exists p|]. cbn [mbind res_bind].
    destruct (bv_bit_clear_ok _ _ _ _ Hok HAb) as (ok'&->&Hok'&_). cbn [mbind res_bind]. assert (Z.of_nat (length As) + 1 = Z.of_nat (length (As ++ [A]))) as -> by (rewrite length_app; cbn; lia).
    assert (forall q, o = Some q -> exists q', q = Z.of_nat q' /\ next_lim A q') as Ho' by (intros q Eq; destruct (Ho q Eq) as (q'&->&Hpr); exists q'; split; [done|]; by exists y).
    assert (forall o', o' = o -> ends_in (Ok (r1, ok', Z.of_nat (length (As ++ [A])), o')) (fun c => chain_end c P As)) as Hret by (intros o' ->; apply ends_Ok; exists (O ∖ {[A]}), (As ++ [A]), A; split; [done|]; split; [by exists [A]|]; do 2 (split; [done|]); split; [by rewrite last_snoc|done]).
    destruct o as [q|]; [|by apply Hret]. destruct (Ho' q eq_refl) as (q'&->&Hn). pose proof (ch_leos _ _ _ _ Hch1) as Hl1. destruct (next_populated P r1 A p q' Hl1 HA Hp Hn) as (b&plim&->&_&_&Hno). cbn [mbind res_bind].
    destruct b; [by apply Hret|]. destruct (Hno eq_refl) as (B&HB&HBP&HBq). apply (ends_mono _ (fun c => chain_end c P (As ++ [A]))); [|intros [[[r2 ok2] ix] o2] (O2&As2&A2&H1&(l&->)&H2); exists O2, ((As ++ [A]) ++ l), A2; split; [done|]; split; [exists ([A] ++ l); by rewrite app_assoc|done]].
    apply (IH r1 ok' (O ∖ {[A]}) (As ++ [A]) A B q' Hch1 Hok'); [by rewrite last_snoc|done|done|done|done|].
    assert (size O = Datatypes.S (size (O ∖ {[A]}))) as E; [|lia]. rewrite size_difference, size_singleton by (by apply singleton_subseteq_l). assert (size O <> 0)%nat; [|lia]. intros E. apply size_empty_inv in E. rewrite E in HO. by apply not_elem_of_empty in HO.
Qed.

(** ** The population of a chain *)

Lemma populate_chain_ok O P As r o A : chained O P As r -> list.last As = Some A -> (forall q, o = Some q -> exists q', q = Z.of_nat q' /\ next_lim A q') ->
  ends_in (populate_chain r (Z.of_nat (length As)) o) (leos (P ∪ list_to_set As)).
Proof using Hs Hen Htok Hfuel Hc0.
  intros Hch Hlast Ho. set (n := length As). set (Q i (c : RECCE * option Z) := leos (P ∪ list_to_set (drop (n - Z.to_nat i) As)) c.1 /\ t_lim_chain c.1 = t_lim_chain r
    /\ forall m B, n = Datatypes.S (m + Z.to_nat i) -> As !! m = Some B -> forall q, c.2 = Some q -> exists q', q = Z.of_nat q' /\ next_lim B q').
  unfold populate_chain. rewrite Nat2Z.id. eapply ends_bind with (P := Q (Z.of_nat n)).
  - apply (ends_for Q); [| |done].
    + unfold Q. cbn [fst snd]. change (Z.to_nat 0) with 0%nat. rewrite Nat.sub_0_r. unfold n. rewrite drop_all. split; [|split; [done|]]. { pose proof (ch_leos _ _ _ _ Hch) as Hl. cbn [list_to_set]. by rewrite union_empty_r_L. }
      intros m B Em HB. rewrite last_lookup in Hlast. replace m with (Init.Nat.pred (length As)) in HB by (unfold n in Em; lia). rewrite Hlast in HB. by injection HB as <-.
    + intros j [r1 o1] Hj (Hl1&Hc1&Ho1). cbn [fst snd] in *. set (m := (n - Z.to_nat j - 1)%nat) in *. destruct (lookup_lt_is_Some_2 As m) as [B HB]; [unfold m, n in *; lia|].
      destruct (ch_array _ _ _ _ Hch m B HB) as (p&Hp&Harr). assert (rd (t_lim_chain r1) (Z.of_nat n - 1 - j) = Ok (Some (Z.of_nat p))) as ->. { rewrite Hc1. apply rd_Ok. split; [lia|]. replace (Z.to_nat (Z.of_nat n - 1 - j)) with m by (unfold m; lia). done. }
      cbn [mbind res_bind written]. destruct (ch_as _ _ _ _ Hch B ltac:(by eapply list_elem_of_lookup_2)) as (HBL&HBP&_). assert (drop m As = B :: drop (n - Z.to_nat j) As) as Hdrop. { rewrite (drop_S As B m HB). do 2 f_equal. unfold m. lia. }
      assert (B ∉ P ∪ list_to_set (drop (n - Z.to_nat j) As)) as HBn.
      { rewrite elem_of_union, elem_of_list_to_set. intros [?|Hin]; [done|]. pose proof (ch_nodup _ _ _ _ Hch) as Hnd. rewrite <- (take_drop m As), Hdrop in Hnd. apply NoDup_app in Hnd as (_&_&Hnd). by apply NoDup_cons in Hnd as [Hnd _]. }
      pose proof (populate_one_ok _ r1 B p o1 Hl1 HBL HBn Hp (Ho1 m B ltac:(unfold m; lia) HB)) as (r2&Hr2&Hl2). unfold populate_one in Hr2. apply bind_Ok in Hr2 as (b&->&Hr2). cbn [mbind res_bind]. rewrite Hr2. cbn [mbind res_bind]. apply ends_Ok.
      replace (n - Z.to_nat (j + 1))%nat with m by (unfold m; lia). unfold Q. cbn [fst snd]. replace (n - Z.to_nat (j + 1))%nat with m by (unfold m; lia). rewrite Hdrop. cbn [list_to_set]. split; [by replace (P ∪ ({[B]} ∪ list_to_set (drop (n - Z.to_nat j) As))) with ({[B]} ∪ (P ∪ list_to_set (drop (n - Z.to_nat j) As))) by (rewrite !(assoc_L (∪)); f_equal; apply (comm_L (∪)))|].
      split.
      * rewrite <- Hc1. assert (post (same_chain (t_lim_chain r1)) (Ok r2)) as Hpost; [|by apply Hpost]. rewrite <- Hr2. destruct o1 as [q|]; [destruct b; [by apply populate_from_predecessor_chain|]|]; by apply populate_from_base_chain.
      * intros m' C Em HC q [= <-]. exists p. split; [done|]. assert (m = Datatypes.S m') as Em' by (unfold m; lia). rewrite Em' in HB. destruct (ch_links _ _ _ _ Hch m' C B HC HB) as (q&Hq&Hnx). unfold at_area in Hp, Hq. rewrite Hp in Hq. injection Hq as E. by apply Nat2Z.inj in E as ->.
  - intros [r1 o1] (Hl1&_). apply ends_Ok. cbn [fst] in *. by rewrite Nat2Z.id, Nat.sub_diag in Hl1.
Qed.

(** ** All the Leo items of the set *)

(** What is not populated has not been seen. *)
Definition populating (P : gset Z) (c : RECCE * Bit_Vector) : Prop := leos P c.1 /\ exists O, bv_rep c.2 nsys O /\ O ⊆ L /\ forall A, A ∈ L -> A ∈ O \/ A ∈ P.

Lemma populate_lim_ok P A c : populating P c -> A ∈ L -> ends_in (populate_lim k A c) (fun c' => exists P', populating P' c' /\ A ∈ P' /\ P ⊆ P').
Proof using Hs Hs0 Hen Htok Hall Hk0 Hfuel Hc0.
  destruct c as [r ok]. intros (Hl&O&Hok&HO&Hcov) HA. cbn [fst snd] in *. destruct (lim_there P r A Hl HA) as (p&Hp). destruct (lim_here P r A p Hl HA Hp) as (lim&id&y&Hlo&Hy). pose proof (lim_symbol t0 allowed tok k work r0 s0 c0 S L W P r A p lim id y Hl Hlo HA) as HAb.
  unfold populate_lim, workarea_read. assert (rd (t_pim_workarea r) A = Ok (Some (Z.of_nat p))) as -> by (apply rd_Ok; rewrite (le_work _ _ _ _ _ _ _ _ _ _ _ _ _ Hl); split; [lia|exact Hp]). cbn [mbind res_bind written].
  rewrite (populated_read P r A p Hl HA Hp). cbn [mbind res_bind]. destruct (decide (A ∈ P)) as [HP|HP]; [rewrite bool_decide_eq_true_2 by done; apply ends_Ok; exists P; split; [split; [done|by exists O]|by split]|rewrite bool_decide_eq_false_2 by done].
  destruct (find_predecessor_ok t0 Hen allowed tok Htok k Hk0 base work r0 Hs s0 Hs0 Hall c0 S L W P r A p lim id y Hl Hlo HA) as (o&->&Ho). cbn [mbind res_bind].
  assert (forall q, o = Some q -> exists q', q = Z.of_nat q' /\ next_lim A q') as Ho' by (intros q Eq; destruct (Ho q Eq) as (q'&->&Hpr); exists q'; split; [done|]; by exists y).
  pose proof (populate_one_ok P r A p o Hl HA HP Hp Ho') as Hone. unfold populate_one, populated_predecessor in Hone.
  assert (forall m, ends_in m (leos ({[A]} ∪ P)) -> ends_in (r ← m; Ok (r, ok)) (fun c' => exists P', populating P' c' /\ A ∈ P' /\ P ⊆ P')) as Hstep.
  { intros m (r1&->&Hl1). apply ends_Ok. exists ({[A]} ∪ P). split; [split; [done|]; exists O; split; [done|]; split; [done|]; intros B HB; destruct (Hcov B HB); [by left|right; by apply elem_of_union_r]|]. split; [by apply elem_of_union_l, elem_of_singleton|apply union_subseteq_r]. }
  destruct o as [q|]; [|by apply Hstep]. destruct (Ho' q eq_refl) as (q'&->&Hn). destruct (next_populated P r A p q' Hl HA Hp Hn) as (b&plim&Hb&_&_&Hno). rewrite Hb in Hone |- *. cbn [mbind res_bind] in Hone |- *. destruct b; [by apply Hstep|].
  destruct (Hno eq_refl) as (B&HB&HBP&HBq). rewrite (lim_read _ _ _ (lo_pim _ _ _ _ _ _ _ _ _ _ _ _ Hlo)). cbn [mbind res_bind].
  assert (A ∈ O) as HAO by (by destruct (Hcov A HA)).
  assert (chained O P [] r) as Hch0.
  { split; [done|done|apply NoDup_nil_2|by intros C ?%not_elem_of_nil| |done|done]. intros C HC. destruct (Hcov C HC); [by left|by right; left]. }
  destruct (chain_push O P [] r A p Hch0 HAO HP Hp ltac:(done)) as (r1&Hr1&Hch1). change (Z.of_nat (length [])) with 0 in Hr1. rewrite Hr1. cbn [mbind res_bind]. rewrite (lim_symbol_read _ _ _ _ _ _ Hlo).
  destruct (bv_bit_clear_ok _ _ _ _ Hok HAb) as (ok'&->&Hok'&_). cbn [mbind res_bind].
  assert (nsy_count (t_tables r1) = Z.to_nat nsys) as ->. { rewrite (same_nsys t0 (t_tables r1)); [unfold nsy_count, NSY_Count_of_G; lia|]. eapply area_tables; [exact Hs|]. apply (le_area _ _ _ _ _ _ _ _ _ _ _ _ _ (ch_leos _ _ _ _ Hch1)). }
  destruct (chain_loop_ok P (Z.to_nat nsys) r1 ok' (O ∖ {[A]}) [A] A B q' Hch1 Hok' eq_refl HB HBP HBq Hn) as ([[[r2 ok2] ix] o2]&Hr2&Hend).
  { pose proof (symbols_size P r Hl). pose proof (subseteq_size _ _ HO). pose proof (subseteq_size (O ∖ {[A]}) O ltac:(intros C [? _]%elem_of_difference; done)). lia. }
  change (Z.of_nat (length [A])) with 1 in Hr2. rewrite Hr2. cbn [mbind res_bind]. destruct Hend as (O2&As&Al&Hch2&(l&Hl2)&Hok2&->&Hlast&Ho2). destruct (populate_chain_ok O2 P As r2 o2 Al Hch2 Hlast Ho2) as (r3&->&Hl3). cbn [mbind res_bind]. apply ends_Ok.
  assert (forall C, C ∈ L -> C ∈ O2 \/ C ∈ P ∪ list_to_set As) as Hcov2 by (intros C HC; rewrite elem_of_union, elem_of_list_to_set; destruct (ch_cover _ _ _ _ Hch2 C HC) as [?|[?|?]]; tauto).
  exists (P ∪ list_to_set As). split; [split; [done|]; exists O2; split; [done|]; split; [by apply (ch_sub _ _ _ _ Hch2)|done]|]. split; [|apply union_subseteq_l].
  apply elem_of_union_r, elem_of_list_to_set. rewrite Hl2. by left.
Qed.

Lemma add_predecessors_ok r ok : leos ∅ r -> bv_rep ok nsys ∅ -> ends_in (add_predecessors r ok k) (leos L).
Proof using Hs Hs0 Hen Htok Hall Hk0 Hfuel Hc0.
  intros Hl Hok. pose proof (le_area _ _ _ _ _ _ _ _ _ _ _ _ _ Hl) as Ha. destruct (ar_lims _ _ _ _ _ _ _ _ _ _ Ha) as (v&Hv&Hrep). unfold add_predecessors. rewrite Hv. cbn [bv_of written mbind res_bind].
  destruct (bv_copy_ok _ _ _ _ _ Hok Hrep) as (ok'&->&Hok'&_). cbn [mbind res_bind]. assert (strip (t_tables r) = strip t0) as Ht by (eapply area_tables; [exact Hs|exact Ha]).
  rewrite (bv_for_each_ok _ _ _ _ _ _ Hrep); [|rewrite (same_nsys t0) by done; unfold nsy_count, NSY_Count_of_G; lia].
  destruct (each_res_ok (fun l c => exists P, populating P c /\ forall A, A ∈ l -> A ∈ P) (elems nsys L) (populate_lim k) (r, ok')) as (c&->&P&(Hl1&_)&HP).
  - exists ∅. split; [split; [done|]; exists L; split; [done|]; split; [done|]; intros A HA; by left|]. by intros A ?%not_elem_of_nil.
  - intros l1 A l2 c E (P&Hp&HP). assert (A ∈ L) as HA by (assert (A ∈ elems nsys L) as HA by (rewrite E; apply elem_of_app; right; by left); unfold elems in HA; apply elem_of_elems_from in HA; apply HA).
    destruct (populate_lim_ok P A c Hp HA) as (c'&->&P'&Hp'&HA'&Hsub). eexists. split; [done|]. exists P'. split; [done|]. intros B HB. apply elem_of_app in HB as [HB|HB]; [by apply Hsub, HP|]. by apply list_elem_of_singleton in HB as ->.
  - cbn [mbind res_bind fst snd]. apply ends_Ok. assert (P = L) as ->. { apply set_eq. intros A. split; [apply Hl1|]. intros HA. apply HP. unfold elems. apply elem_of_elems_from. split; [|done]. by apply (br_elems _ _ _ Hrep). }
    destruct Hl1 as [[H1 H2 H3 H4 H5 H6 H7 H8 H9] Hw Hc Hh Hsub Hpop]. split; [split; try assumption; by exists v|done..].
Qed.
End chain.

(** * Vectors without a header

    The words of a vector of flags ([lbv]), as a set: a test, the setting of a bit, a new
    vector, a clone. *)

Record flags (v : Bit_Vector) (n : Z) (S : gset Z) : Prop := {
  fl_n : 0 <= n <= INT_MAX;
  fl_base : 0 <= bv_base v;
  fl_bound : bv_base v + bv_size n <= Z.of_nat (length (bv_words v));
  fl_words k : 0 <= k < bv_size n -> exists w, rd (bv_words v) (bv_base v + k) = Ok w /\ word_of S k w
}.

Lemma rep_flags v n S : bv_rep v n S -> flags v n S.
Proof. intros []. split; [done|lia|done|done]. Qed.

Lemma chain_flag_read v n S i : flags v n S -> 0 <= i < n ->
  exists w, to_uint i = i /\ rd (bv_words v) (bv_base v + i / 32) = Ok w /\ word_of S (i / 32) w /\ 0 <= i mod 32 < 32 /\ lbw_shl bv_lsb (i mod 32) = 2 ^ (i mod 32) /\ Z.testbit w (i mod 32) = bool_decide (i ∈ S).
Proof.
  intros Hv Hi. destruct (fl_words _ _ _ Hv (i / 32)) as (w&Hr&Hw); [by apply word_index|]. pose proof (Z.mod_pos_bound i 32) as Hm. pose proof (fl_n _ _ _ Hv) as Hn. exists w. split_and!; [|done|done|lia|lia| |].
  - apply uint_of_int. lia.
  - apply (lbw_shl_one (i mod 32)). lia.
  - destruct Hw as [_ Hw]. rewrite Hw by lia. apply bool_decide_ext. by rewrite <- Z.div_mod by done.
Qed.

Lemma lbv_bit_test_ok v n S i : flags v n S -> 0 <= i < n -> lbv_bit_test v i = Ok (bool_decide (i ∈ S)).
Proof.
  intros Hv Hi. destruct (chain_flag_read v n S i Hv Hi) as (w&Hu&Hr&_&Hm&Hsh&Ht). unfold lbv_bit_test, bv_wordbits. rewrite Hu, Hr. cbn [mbind res_bind]. by rewrite Hsh, land_pow2, Ht, negb_involutive by lia.
Qed.

Lemma lbv_bit_set_ok v n S i : flags v n S -> 0 <= i < n -> ends_in (lbv_bit_set v i) (fun v' => flags v' n ({[i]} ∪ S)).
Proof.
  intros Hv Hi. destruct (chain_flag_read v n S i Hv Hi) as (w&Hu&Hr&Hw&Hm&Hsh&_). unfold lbv_bit_set, bv_wordbits. rewrite Hu, Hr. cbn [mbind res_bind]. rewrite Hsh.
  pose proof (rd_bound _ _ _ Hr) as Hb. rewrite wr_total by lia. cbn [mbind res_bind]. apply ends_Ok. destruct Hv as [H1 H2 H3 H4]. split; [done|done|cbn; by rewrite length_insert|]. intros k Hk. cbn [bv_set_words bv_words bv_base]. destruct (decide (k = i / 32)) as [->|Hne].
  - eexists. split; [apply rd_wr_eq; lia|]. by apply word_of_add.
  - destruct (H4 k Hk) as (w'&Hr'&[Hw1 Hw2]). exists w'. split; [rewrite rd_wr_ne by lia; done|]. split; [done|]. intros j Hj. rewrite Hw2 by done. apply bool_decide_ext. rewrite elem_of_union, elem_of_singleton. split; [by right|]. intros [E|?]; [|done]. apply index_eq in E as [E _]; [|done]. congruence.
Qed.

Lemma lbv_size n : 0 <= n <= INT_MAX -> lbv_bits_to_size n = bv_size n.
Proof.
  intros Hn. unfold lbv_bits_to_size, bv_wordbits, bv_size. rewrite (uint_of_int n) by done. change (32 - 1) with 31. rewrite (to_uint_small (n + 31)) by (unfold INT_MAX, UINT_MOD in *; lia).
  apply to_int_small. pose proof (Z.div_pos (n + 31) 32). assert ((n + 31) / 32 <= n + 31) by (apply Z.div_le_upper_bound; lia). assert ((n + 31) / 32 <= INT_MAX) by (apply Z.div_le_upper_bound; unfold INT_MAX in *; lia). unfold is_int, INT_MIN. lia.
Qed.

(** The words that a loop gives to a new vector. *)
Lemma new_flags junk n S body : 0 <= n <= INT_MAX -> (forall k, 0 <= k < bv_size n -> exists w, body k = Ok w /\ word_of S k w) ->
  ends_in (let size := lbv_bits_to_size n in let l := lbv_obs_new junk n in if size >? 0 then word_loop (Z.to_nat size) 0 (fun k _ => body k) 0 l else Ok l) (fun l => flags (BV l 0) n S).
Proof.
  intros Hn Hb. cbn zeta. unfold lbv_obs_new. rewrite (lbv_size n Hn). pose proof (bv_size_bounds n (proj1 Hn)) as Hs. set (l0 := resize _ 0 junk). assert (Z.of_nat (length l0) = bv_size n) as Hl0 by (unfold l0; rewrite length_resize; lia). destruct (Z.gtb_spec (bv_size n) 0) as [Hgt|Hle].
  - set (g k := match body k with Ok w => w | _ => 0 end). destruct (word_loop_ok (Z.to_nat (bv_size n)) (fun k _ => body k) 0 l0 g) as (l&->&Hlen&_&Hin); [done|lia|intros j l' Hj _; destruct (Hb j ltac:(lia)) as (w&Hw&_); unfold g; by rewrite Hw|].
    apply ends_Ok. split; [done|done|cbn; lia|]. intros k Hk. destruct (Hb k Hk) as (w&Hw&Hof). exists w. split; [|done]. cbn [bv_words bv_base]. rewrite (Hin k) by lia. unfold g. by rewrite Hw.
  - apply ends_Ok. split; [done|done|cbn; lia|lia].
Qed.

Lemma lbv_new_ok junk n : 0 <= n <= INT_MAX -> ends_in (lbv_obs_new0 junk n) (fun l => flags (BV l 0) n ∅).
Proof. intros Hn. apply (new_flags junk n ∅ (fun _ => Ok 0) Hn). intros k Hk. exists 0. split; [done|apply word_of_empty]. Qed.

Lemma lbv_clone_ok junk v n S : flags v n S -> ends_in (lbv_clone junk (drop (Z.to_nat (bv_base v)) (bv_words v)) n) (fun l => flags (BV l 0) n S).
Proof.
  intros Hv. apply (new_flags junk n S (rd (drop (Z.to_nat (bv_base v)) (bv_words v))) (fl_n _ _ _ Hv)). intros k Hk. destruct (fl_words _ _ _ Hv k Hk) as (w&Hr&Hw). exists w. split; [|done].
  apply rd_Ok in Hr as [Hp Hr]. apply rd_Ok. split; [lia|]. rewrite lookup_drop, <- Hr. f_equal. pose proof (fl_base _ _ _ Hv). lia.
Qed.

(** * The array of the postdot items of a set

    The binary search finds the postdot item of a symbol ([pim_search]); the postdot items
    are copied in the order of their symbols ([copy_pims]); the set is then settled
    ([postdot_items_create]). *)

(** ** The search *)

(** The array has a postdot item for each symbol of [ids], in the same order. *)
Definition indexed (r : RECCE) (ary ids : list Z) : Prop := length ary = length ids /\ forall i A, ids !! i = Some A -> exists p x, ary !! i = Some p /\ PIM_by_ID r p = Ok x /\ Postdot_NSYID_of_PIM x = A.

Lemma ascending_lookup l i j x y : ascending l -> l !! i = Some x -> l !! j = Some y -> (i < j)%nat -> x < y.
Proof.
  intros Ha. revert i j. induction Ha as [|z l Ha IH Hz]; intros i j Hi Hj Hlt; [done|]. destruct j as [|j]; [lia|]. cbn in Hj. destruct i as [|i].
  - injection Hi as ->. rewrite Forall_forall in Hz. apply Hz. by eapply list_elem_of_lookup_2.
  - cbn in Hi. apply (IH i j); [done|done|lia].
Qed.

Lemma pim_search_ok r ary ids A : ascending ids -> indexed r ary ids -> forall rounds lo hi, 0 <= lo -> hi < Z.of_nat (length ids) -> hi - lo + 1 <= Z.of_nat rounds ->
  ends_in (pim_search rounds r ary A lo hi) (fun o => match o with Some t => 0 <= t /\ ids !! Z.to_nat t = Some A | None => forall i, lo <= i <= hi -> ids !! Z.to_nat i <> Some A end).
Proof.
  intros Hasc [Hlen Hat] rounds. induction rounds as [|rounds IH]; intros lo hi Hlo Hhi Hr; cbn [pim_search].
  { destruct (Z.ltb_spec hi lo); [apply ends_Ok; lia|lia]. }
  destruct (Z.ltb_spec hi lo); [apply ends_Ok; lia|]. rewrite Z.quot_div_nonneg by lia. set (t := lo + (hi - lo) / 2). assert (lo <= t <= hi) as Ht by (unfold t; pose proof (Z.div_pos (hi - lo) 2); pose proof (Z.div_le_upper_bound (hi - lo) 2 (hi - lo)); lia).
  destruct (lookup_lt_is_Some_2 ids (Z.to_nat t)) as [B HB]; [lia|]. destruct (Hat _ _ HB) as (p&x&Hp&Hx&<-). rewrite (proj2 (rd_Ok ary t p)) by (split; [lia|done]). cbn [mbind res_bind]. rewrite Hx. cbn [mbind res_bind].
  destruct (Z.eqb_spec (Postdot_NSYID_of_PIM x) A) as [<-|Hne]; [apply ends_Ok; split; [lia|done]|]. destruct (Z.ltb_spec (Postdot_NSYID_of_PIM x) A) as [Hlt|Hge].
  - eapply ends_mono; [apply IH; lia|]. intros [u|]; [done|]. intros Hno i Hi HiA. destruct (decide (i <= t)); [|apply (Hno i); [lia|done]]. destruct (decide (i = t)) as [->|]; [congruence|]. pose proof (ascending_lookup ids (Z.to_nat i) (Z.to_nat t) _ _ Hasc HiA HB ltac:(lia)). lia.
  - eapply ends_mono; [apply IH; lia|]. intros [u|]; [done|]. intros Hno i Hi HiA. destruct (decide (t <= i)); [|apply (Hno i); [lia|done]]. destruct (decide (i = t)) as [->|]; [congruence|]. pose proof (ascending_lookup ids (Z.to_nat t) (Z.to_nat i) _ _ Hasc HB HiA ltac:(lia)). lia.
Qed.

(** The postdot item of a symbol in a set with such an array. *)
Lemma at_pim_ok r k s ary ids A : 0 <= k -> t_sets r !! Z.to_nat k = Some s -> t_postdot_ary s = Some ary -> Postdot_SYM_Count_of_YS s = Z.of_nat (length ary) -> ascending ids -> indexed r ary ids ->
  (A ∉ ids -> at_pim r k A None) /\ (forall i, ids !! i = Some A -> exists p, ary !! i = Some p /\ at_pim r k A (Some p)).
Proof.
  intros Hk Hs Hary Hcount Hasc Hix. pose proof Hix as [Hlen Hat]. assert (YS_by_ID r k = Ok s) as Hrd by (by apply rd_Ok). unfold at_pim, first_pim_of_ys_by_nsyid, pim_nsy_p_find. rewrite Hrd. cbn [mbind res_bind]. rewrite Hcount, Hary. cbn [written mbind res_bind].
  destruct (Z.ltb_spec (Z.of_nat (length ary) - 1) 0) as [Hneg|Hpos].
  - split; [done|]. intros i Hi. apply lookup_lt_Some in Hi. lia.
  - destruct (pim_search_ok r ary ids A Hasc Hix (length ary) 0 (Z.of_nat (length ary) - 1)) as (o&->&Ho); [lia..|]. cbn [mbind res_bind]. destruct o as [t|].
    + destruct Ho as [Ht HA]. split; [intros Hni; by apply list_elem_of_lookup_2 in HA|]. intros i Hi. assert (i = Z.to_nat t) as ->. { destruct (lt_eq_lt_dec i (Z.to_nat t)) as [[Hl| ->]|Hl]; [|done|]; [pose proof (ascending_lookup _ _ _ _ _ Hasc Hi HA Hl)|pose proof (ascending_lookup _ _ _ _ _ Hasc HA Hi Hl)]; lia. }
      destruct (Hat _ _ HA) as (p&x&Hp&_). exists p. split; [done|]. by rewrite (proj2 (rd_Ok ary t p)).
    + split; [done|]. intros i Hi. exfalso. apply (Ho (Z.of_nat i)); [apply lookup_lt_Some in Hi; lia|by rewrite Nat2Z.id].
Qed.

Section settle.
Context (t0 : TABLES) (Hen : engine t0) (allowed : Z -> Prop) (tok : Z -> Z -> Z -> Prop) (Htok : forall j y k, tok j y k -> 0 <= j < k).
#[local] Abbreviation nsys := (NSY_Count_of_G (t_internal t0)).
#[local] Abbreviation postdot := (postdot t0).

(** The work areas of the recognizer. *)
Record areas (r : RECCE) : Prop := {
  wa_pims : exists v S, t_bv_pim_symbols r = Some v /\ bv_rep v nsys S;
  wa_lims : exists v S, t_bv_lim_symbols r = Some v /\ bv_rep v nsys S;
  wa_area : Z.of_nat (length (t_pim_workarea r)) = nsys;
  wa_chain : Z.of_nat (length (t_lim_chain r)) = 2 * nsys;
  wa_expected : exists S, bv_rep (t_bv_nsyid_is_expected r) nsys S;
  wa_events : exists S, flags (t_nsy_expected_is_event r) nsys S
}.

Context (k : Z) (Hk0 : 0 <= k) (base : nat) (work : list Z) (r0 : RECCE) (Hs : stage t0 allowed tok k base work r0) (s0 : YS) (Hs0 : t_sets r0 !! Z.to_nat k = Some s0).
Context (Hall : forall j, 0 <= j <= k -> complete_at t0 allowed tok r0 j).
#[local] Abbreviation area := (area t0 allowed tok k r0 s0).

(** The Leo items have been populated. *)
Definition all_made (L : gset Z) (r : RECCE) : Prop := forall A p lim, A ∈ L -> in_area r A p -> t_pims r !! p = Some (PIM_of_LIM lim) -> Origin_of_LIM lim <> None.

(** Another grammar, but for events. *)
Definition with_events (r r' : RECCE) : Prop := exists t, r' = set_t_tables t r /\ strip t = strip (t_tables r) /\ cilar_of t = cilar_of (t_tables r).

Lemma with_events_trans r1 r2 r3 : with_events r1 r2 -> with_events r2 r3 -> with_events r1 r3.
Proof using. clear. intros (t&->&E1&E2) (t'&->&E3&E4). exists t'. split; [done|]. cbn in *. split; congruence. Qed.

Lemma copy_pim_ok S L r r1 arr A p E : area work S L r -> with_events r r1 -> flags (t_nsy_expected_is_event r) nsys E -> 0 <= A < nsys -> in_area r A p ->
  ends_in (copy_pim A (r1, arr)) (fun c => with_events r c.1 /\ c.2 = arr ++ [Z.of_nat p]).
Proof using Hen Hs.
  intros Ha He Hf HA Hp. pose proof He as (t&->&Ht1&Ht2). unfold copy_pim. cbn [t_pim_workarea set_t_tables]. assert (rd (t_pim_workarea r) A = Ok (Some (Z.of_nat p))) as -> by (apply rd_Ok; split; [lia|exact Hp]). cbn [mbind res_bind].
  cbn [t_nsy_expected_is_event set_t_tables]. rewrite (lbv_bit_test_ok _ _ _ _ Hf HA). cbn [mbind res_bind]. destruct (bool_decide (A ∈ E)); [|apply ends_Ok; by split].
  destruct (en_sources _ Hen A HA) as (s&z&Hsy&Hz&_). rewrite (same_nsy t0). 2:{ cbn. rewrite Ht1. eapply area_tables; [exact Hs|exact Ha]. }
  rewrite Hsy. cbn [mbind res_bind]. rewrite Hz. cbn [deref mbind res_bind]. apply ends_Ok. cbn [fst snd]. split; [|done]. eexists. split; [reflexivity|]. by split.
Qed.

(** The copy: an array that tells the postdot item of each symbol. *)
Lemma copy_pims_ok S L r E : area work S L r -> flags (t_nsy_expected_is_event r) nsys E ->
  ends_in (copy_pims r k) (fun r' => exists ary t, r' = set_t_sets (<[Z.to_nat k := set_t_postdot_ary (Some ary) (set_Postdot_SYM_Count_of_YS (Z.of_nat (size S)) s0)]> (t_sets r0)) (set_t_tables t r)
    /\ strip t = strip (t_tables r) /\ cilar_of t = cilar_of (t_tables r) /\ length ary = size S /\ forall i A, elems nsys S !! i = Some A -> exists p, ary !! i = Some (Z.of_nat p) /\ in_area r A p).
Proof using Hen Hs Hs0 Hk0.
  intros Ha Hf. pose proof (ar_symbols _ _ _ _ _ _ _ _ _ _ Ha) as (v&Hv&Hrep). assert (strip (t_tables r) = strip t0) as Ht by (eapply area_tables; [exact Hs|exact Ha]). unfold copy_pims. rewrite Hv. cbn [bv_of written mbind res_bind].
  rewrite (bv_for_each_ok _ _ _ _ _ _ Hrep); [|rewrite (same_nsys t0) by done; unfold nsy_count, NSY_Count_of_G; lia].
  destruct (each_res_ok (fun l c => with_events r c.1 /\ length c.2 = length l /\ forall i A, l !! i = Some A -> exists p, c.2 !! i = Some (Z.of_nat p) /\ in_area r A p) (elems nsys S) copy_pim (r, [])) as ([r1 ary]&->&He&Hlen&Hat).
  - split; [exists (t_tables r); split; [by destruct r|done]|]. split; [done|]. by intros i A.
  - intros l1 A l2 [r1 arr] El (He&Hlen&Hat). cbn [fst snd] in *. assert (A ∈ elems nsys S) as HA by (rewrite El; apply elem_of_app; right; by left). unfold elems in HA. apply elem_of_elems_from in HA as [HAb HA].
    destruct (ar_at _ _ _ _ _ _ _ _ _ _ Ha A HA) as (p&ids&m&Hin&_). destruct (copy_pim_ok S L r r1 arr A p E Ha He Hf ltac:(lia) Hin) as ([r2 arr2]&->&He2&Ea). cbn [fst snd] in *. subst arr2. eexists. split; [done|]. cbn [fst snd]. split; [done|]. split; [rewrite !length_app; cbn; lia|].
    intros i B Hi. apply lookup_app_Some in Hi as [Hi|[Hge Hi]]; [destruct (Hat i B Hi) as (q&Hq&?); exists q; split; [by apply lookup_app_l_Some|done]|]. apply list_lookup_singleton_Some in Hi as [Ei <-]. exists p. split; [|done]. rewrite lookup_app_r by lia. by rewrite Hlen, Ei.
  - cbn [mbind res_bind fst snd] in *. destruct He as (t&->&Et&Ec). set (r2 := set_t_bv_pim_symbols _ _).
    assert (t_sets r2 !! Z.to_nat k = Some (set_Postdot_SYM_Count_of_YS (Z.of_nat (size S)) s0)) as Hset by exact (set_now t0 allowed tok k r0 s0 Hs0 work S L r Ha).
    assert (YS_by_ID r2 k = Ok (set_Postdot_SYM_Count_of_YS (Z.of_nat (size S)) s0)) as -> by (by apply rd_Ok). cbn [mbind res_bind Postdot_SYM_Count_of_YS set_Postdot_SYM_Count_of_YS].
    assert (length (elems nsys S) = size S) as Hsz by (apply elems_size; apply Hrep). assert ((Z.of_nat (size S) <? Z.of_nat (length ary)) = false) as -> by (apply Z.ltb_ge; lia).
    rewrite (upd_ys_at _ _ _ _ Hk0 Hset). apply ends_Ok. exists ary, t. split; [|split; [done|split; [done|split; [lia|done]]]]. unfold r2. cbn [t_sets set_t_bv_pim_symbols set_t_tables]. rewrite (ar_sets _ _ _ _ _ _ _ _ _ _ Ha), list_insert_insert_eq. destruct r. cbn in Hv. by subst.
Qed.

(** ** The set is settled *)

Lemma heads_symbol pims A p ids m : heads pims A (Some p) ids m -> exists q x, p = Z.of_nat q /\ pims !! q = Some x /\ Postdot_NSYID_of_PIM x = A /\ ids <> [].
Proof using.
  clear. intros Hh. inversion Hh as [? ? Hc|q lim q2 b Hp Hy]; subst; [|exists q, (PIM_of_LIM lim); split_and!; [done|done| |done]; unfold Postdot_NSYID_of_PIM; cbn [YIX_of_PIM]; by rewrite Hy]. inversion Hc as [|q next y l Hp]; subst. by exists q, (PIM_of_YIX (MkYIX next A (Some y))).
Qed.

(** Who waits for a symbol in the new set. *)
Lemma area_waits S L r A : area work S L r -> 0 <= A -> A ∈ S <-> exists id, waits t0 r0 k A id.
Proof using Hs.
  intros Ha HA. split.
  - intros HS. destruct (ar_at _ _ _ _ _ _ _ _ _ _ Ha A HS) as (p&ids&m&_&_&Hh&Hids&_). destruct (heads_symbol _ _ _ _ _ Hh) as (_&_&_&_&_&Hne). destruct ids as [|i ids]; [done|]. destruct (proj1 (Hids i) ltac:(by left)) as (_&id&_&Hw). by exists id.
  - intros (id&Hw). apply (ar_waits _ _ _ _ _ _ _ _ _ _ Ha id A); [|done|done]. destruct Hw as (y&Hy&Hyk&_). pose proof (bd_making _ _ _ _ _ (sg_building _ _ _ _ _ _ _ Hs)) as Hm. rewrite (mk_ids _ _ _ _ _ Hm). apply elem_of_seqZ.
    pose proof (lookup_lt_Some _ _ _ Hy) as Hlt. rewrite (mk_length _ _ _ _ _ Hm) in Hlt. apply (mk_set _ _ _ _ _ Hm _ _ Hy) in Hyk. lia.
Qed.

Lemma settled_now S L r r' ary : area work S L r -> all_made L r -> t_pims r' = t_pims r -> t_yims r' = t_yims r0 -> kept k r0 r' ->
  t_sets r' !! Z.to_nat k = Some (set_t_postdot_ary (Some ary) (set_Postdot_SYM_Count_of_YS (Z.of_nat (size S)) s0)) -> length ary = size S ->
  (forall i A, elems nsys S !! i = Some A -> exists p, ary !! i = Some (Z.of_nat p) /\ in_area r A p) -> settled t0 allowed tok r' k.
Proof using Hen Hs Htok Hall Hk0.
  intros Ha Hmade Hpims Hyims Hkept Hset Hlen Hat. destruct (ar_symbols _ _ _ _ _ _ _ _ _ _ Ha) as (v&_&Hrep). assert (length (elems nsys S) = size S) as Hsz by (apply elems_size; apply Hrep).
  assert (indexed r' ary (elems nsys S)) as Hix.
  { split; [congruence|]. intros i A Hi. destruct (Hat i A Hi) as (p&Hp&Hin). apply list_elem_of_lookup_2 in Hi. unfold elems in Hi. apply elem_of_elems_from in Hi as [_ HS]. destruct (ar_at _ _ _ _ _ _ _ _ _ _ Ha A HS) as (p'&ids&m&Hin'&_&Hh&_). destruct (heads_symbol _ _ _ _ _ Hh) as (q&x&Eq&Hq&Hx&_).
    unfold in_area in Hin, Hin'. rewrite Hin in Hin'. injection Hin' as E. exists (Z.of_nat p), x. split; [done|]. split; [|done]. unfold PIM_by_ID. rewrite Hpims, E, Eq. by apply rd_at. }
  assert (forall A p, A ∈ S -> in_area r A p -> at_pim r' k A (Some (Z.of_nat p))) as Hfind.
  { intros A p HS Hin. assert (A ∈ elems nsys S) as HA by (unfold elems; apply elem_of_elems_from; split; [by apply (br_elems _ _ _ Hrep)|done]). apply list_elem_of_lookup in HA as [i Hi].
    destruct (at_pim_ok r' k _ ary (elems nsys S) A Hk0 Hset eq_refl ltac:(cbn; by rewrite Hlen) (elems_ascending nsys S) Hix) as [_ Hyes]. destruct (Hyes i Hi) as (q&Hq&Hp). destruct (Hat i A Hi) as (p2&Hp2&Hin2). unfold in_area in Hin, Hin2. rewrite Hin in Hin2. injection Hin2 as E. congruence. }
  intros A HA. destruct (decide (A ∈ S)) as [HS|HS].
  - destruct (ar_at _ _ _ _ _ _ _ _ _ _ Ha A HS) as (p&ids&m&Hin&_&Hh&Hids&Hb&Hlim). exists (Some (Z.of_nat p)), ids, m. split; [by apply Hfind|]. split; [by rewrite Hpims|].
    split; [intros i; rewrite Hids; split; [intros [_ (id&->&Hw)]; exists id; split; [done|]; destruct Hw as (y&Hy&?); exists y; by rewrite Hyims|]|].
    { intros (id&->&y&Hy&Hyk&Hyp). rewrite Hyims in Hy. split; [|exists id; split; [done|]; by exists y]. pose proof (bd_making _ _ _ _ _ (sg_building _ _ _ _ _ _ _ Hs)) as Hm. rewrite (mk_ids _ _ _ _ _ Hm). apply elem_of_seqZ.
      pose proof (lookup_lt_Some _ _ _ Hy) as Hlt. rewrite (mk_length _ _ _ _ _ Hm) in Hlt. apply (mk_set _ _ _ _ _ Hm _ _ Hy) in Hyk. lia. }
    intros lim id y -> Eids Hy. rewrite Hyims in Hy. destruct (Hlim lim id y eq_refl Eids Hy) as (E1&E2&E3&E4&E5). assert (A ∈ L) as HL. { rewrite (bool_decide_eq_true_2 (is_Some (Some lim))) in Hb by (by eexists). by apply bool_decide_eq_true in Hb. }
    assert (t_pims r !! p = Some (PIM_of_LIM lim)) as Hpim. { inversion Hh as [|p2 lim2 q b Hp2 _ _ _ Eq]; subst. by apply Nat2Z.inj in Eq as ->. }
    destruct E5 as [[E5 _]|(o&c&Ho&Hc&Hcl&Hcb&Hst)]; [by destruct (Hmade A p lim HL Hin Hpim)|]. exists o, c. do 6 (split; [done|]). destruct Hst as [?|[[Hlt Hleo]|[Hk (p2&lim2&Hp2&Hl2&Ho2&Ht2)]]]; [by left|right|right].
    + apply (kept_leo k r0 r' Hkept); [|done]. destruct (st_yims _ _ _ (stage_store _ _ _ _ _ _ _ Hs) _ _ Hy) as [_ ? _ _]. lia.
    + rewrite Hk. exists p2, lim2. split; [|by rewrite Hpims]. apply Hfind; [|done]. pose proof (st_yims _ _ _ (stage_store _ _ _ _ _ _ _ Hs) _ _ Hy) as [_ _ _ _].
      assert (waits t0 r0 k A id) as Hw. { assert (Z.of_nat id ∈ ids) as Hi by (rewrite Eids; by left). apply Hids in Hi as (_&id'&E&Hw). by apply Nat2Z.inj in E as <-. }
      destruct (waits_item t0 allowed tok k base work r0 k A id Hs HA Hw) as (y'&Hy'&Hi&Hpd&_). assert (y' = y) as -> by congruence. destruct (leo_expected t0 allowed tok Hen Htok _ _ _ Hi ltac:(lia) E3) as (x'&o'&Hi'&Hx'). rewrite Hk in Hi'.
      destruct E3 as (b&Hb3&_). pose proof (lhs_bound t0 Hen _ (ahm_at_bound _ _ _ Hb3)) as Hlb. destruct (complete_waits t0 allowed tok r0 k x' o' (Hall k ltac:(lia)) Hi' ltac:(lia)) as (id2&y2&Hy2&Hkey). unfold key in Hkey. injection Hkey as K1 K2 K3.
      apply (area_waits S L r _ Ha (proj1 Hlb)). exists id2, y2. split; [done|]. split; [done|congruence].
  - exists None, [], None. destruct (at_pim_ok r' k _ ary (elems nsys S) A Hk0 Hset eq_refl ltac:(cbn; by rewrite Hlen) (elems_ascending nsys S) Hix) as [Hno _]. split; [apply Hno; unfold elems; rewrite elem_of_elems_from; tauto|]. split; [constructor; constructor|]. split; [|done].
    intros i. split; [by intros ?%not_elem_of_nil|]. intros (id&->&y&Hy&Hw). destruct HS. apply (area_waits S L r A Ha HA). exists id, y. by rewrite <- Hyims.
Qed.

(** ** The whole call *)
Context (c0 : Z) (Hc0 : c0 + nsys < SIZE_MOD - 1).

Definition terminal_symbol (A : Z) : Prop := exists v, t_bv_nsyid_is_terminal t0 = Some v /\ bv_bit_test v A = Ok true.

(** The terminals that an item of the set waits for. *)
Definition expects (r : RECCE) : Prop := exists E, bv_rep (t_bv_nsyid_is_expected r) nsys E /\ forall A, A ∈ E <-> 0 <= A < nsys /\ (exists id, waits t0 r k A id) /\ terminal_symbol A.

(** What the call does not change. *)
Definition rest_of_set (r : RECCE) : RECCE := rest_of_pims (set_t_bv_nsyid_is_expected (BV [] 0) r).

Record settled_to (r : RECCE) : Prop := {
  so_rest : rest_of_set r = rest_of_set r0;
  so_kept : kept k r0 r;
  so_yims : t_yims r = t_yims r0;
  so_sets : exists ary n, t_sets r = <[Z.to_nat k := set_t_postdot_ary (Some ary) (set_Postdot_SYM_Count_of_YS n s0)]> (t_sets r0);
  so_settled : settled t0 allowed tok r k;
  so_areas : areas r;
  so_arena : held (c0 + nsys) (cilar_of (t_tables r));
  so_expects : expects r
}.

Lemma finish_ok S L r : area work S L r -> all_made L r -> areas r -> held (c0 + nsys) (cilar_of (t_tables r)) ->
  ends_in (r ← copy_pims r k; v ← bv_of (t_bv_pim_symbols r); terminals ← bv_of (t_bv_nsyid_is_terminal (t_tables r)); v ← bv_and (t_bv_nsyid_is_expected r) v terminals; Ok (set_t_bv_nsyid_is_expected v r)) settled_to.
Proof using Hen Hs Hs0 Htok Hall Hk0.
  intros Ha Hmade Hwa Hheld. destruct (wa_events _ Hwa) as (E&HE). destruct (copy_pims_ok S L r E Ha HE) as (r1&->&ary&t&Er1&Et&Ec&Hlen&Hat). cbn [mbind res_bind].
  destruct (ar_symbols _ _ _ _ _ _ _ _ _ _ Ha) as (v&Hv&Hrep). assert (t_bv_pim_symbols r1 = Some v) as Hv1 by (by rewrite Er1). rewrite Hv1. cbn [bv_of written mbind res_bind].
  assert (strip (t_tables r1) = strip t0) as Hst1. { rewrite Er1. cbn. rewrite Et. eapply area_tables; [exact Hs|exact Ha]. }
  destruct (en_terminal _ Hen) as (tv&TP&Htv&(T&HT&_)). assert (t_bv_nsyid_is_terminal (t_tables r1) = Some tv) as Htv1 by (rewrite <- Htv; exact (f_equal t_bv_nsyid_is_terminal Hst1)). rewrite Htv1. cbn [bv_of written mbind res_bind].
  destruct (wa_expected _ Hwa) as (X&HX). assert (t_bv_nsyid_is_expected r1 = t_bv_nsyid_is_expected r) as Hx1 by (by rewrite Er1). rewrite Hx1. destruct (bv_and_ok _ _ _ _ _ _ _ HX Hrep HT) as (w&->&Hw&_). cbn [mbind res_bind]. apply ends_Ok.
  assert (kept k r0 (set_t_bv_nsyid_is_expected w r1)) as Hkept.
  { rewrite Er1. split; [apply Ha|exists []; rewrite app_nil_r; split; [|by intros q ?%not_elem_of_nil]; change (key <$> t_yims r = key <$> t_yims r0); by rewrite (area_yims _ _ _ _ _ _ _ _ _ _ Ha)|].
    intros j s Hj Hjs. exists s. cbn [t_sets set_t_bv_nsyid_is_expected set_t_sets]. rewrite list_lookup_insert_ne by lia. done. }
  assert (t_yims r = t_yims r0) as Ey by (by apply (area_yims _ _ _ _ _ _ _ _ _ _ Ha)).
  split.
  - rewrite Er1. transitivity (rest_of_set r); [unfold rest_of_set, rest_of_pims; cbn; by rewrite Et|]. exact (f_equal (set_t_bv_nsyid_is_expected (BV [] 0)) (ar_rest _ _ _ _ _ _ _ _ _ _ Ha)).
  - done.
  - by rewrite Er1.
  - exists ary, (Z.of_nat (size S)). by rewrite Er1.
  - apply (settled_now S L r _ ary Ha Hmade); [by rewrite Er1|by rewrite Er1|done| |done|done]. rewrite Er1. apply list_lookup_insert_eq. by eapply lookup_lt_Some.
  - rewrite Er1. destruct Hwa as [K1 K2 K3 K4 K5 K6]. split; try assumption. by exists (S ∩ T).
  - rewrite Er1. cbn. by rewrite Ec.
  - exists (S ∩ T). split; [done|]. intros A. rewrite elem_of_intersection.
    assert (forall B, 0 <= B -> B ∈ S <-> exists id, waits t0 (set_t_bv_nsyid_is_expected w r1) k B id) as HS. { intros B HB. rewrite (area_waits S L r B Ha HB). unfold waits. rewrite Er1. cbn [t_yims set_t_bv_nsyid_is_expected set_t_sets set_t_tables]. by rewrite Ey. }
    split.
    + intros [HA1 HA2]. pose proof (br_elems _ _ _ HT _ HA2) as Hb. split; [done|]. split; [apply HS; [lia|done]|]. exists tv. split; [done|]. rewrite (bv_bit_test_ok _ _ _ _ HT Hb). by rewrite bool_decide_eq_true_2.
    + intros (Hb&Hw2&tv'&Htv'&Htest). split; [apply HS; [lia|done]|]. rewrite Htv in Htv'. injection Htv' as <-. rewrite (bv_bit_test_ok _ _ _ _ HT Hb) in Htest. injection Htest as Htest. by apply bool_decide_eq_true in Htest.
Qed.

Context `{HLib : Library} (Hfuel : (MARPA_AVL_MAX_HEIGHT <= tree_rounds)%nat).

Theorem postdot_items_create_ok ok : bv_rep ok nsys ∅ -> areas r0 -> held c0 (cilar_of (t_tables r0)) -> Postdot_SYM_Count_of_YS s0 = 0 -> ends_in (postdot_items_create r0 ok k) settled_to.
Proof using Hen Hs Hs0 Htok Hall Hk0 Hfuel Hc0.
  intros Hok Hwa Hheld Hcount. pose proof Hwa as [(v1&S1&Hv1&Hr1) (v2&S2&Hv2&Hr2) Hwork Hchain Hexp Hev]. unfold postdot_items_create. rewrite Hv2. cbn [bv_of written mbind res_bind]. destruct (bv_clear_ok _ _ _ Hr2) as (w2&->&Hw2&_). cbn [mbind res_bind].
  cbn [t_bv_pim_symbols set_t_bv_lim_symbols]. rewrite Hv1. cbn [bv_of written mbind res_bind]. destruct (bv_clear_ok _ _ _ Hr1) as (w1&->&Hw1&_). cbn [mbind res_bind]. set (r1 := set_t_bv_pim_symbols _ _).
  assert (area [] ∅ ∅ r1) as Ha1.
  { split; [done|by exists []; rewrite app_nil_r|done|by exists w1|by exists w2|done| | |by intros A ?%not_elem_of_empty].
    - cbn. rewrite size_empty. change (Z.of_nat 0) with 0. rewrite <- Hcount. symmetry. apply list_insert_id. rewrite Hs0. by destruct s0.
    - by intros id A ?%not_elem_of_nil. }
  set (x := (t_lim_chain r0, cilar_of (t_tables r0))). pose proof (start_yixes_lists x k r1 eq_refl) as Hx2.
  destruct (start_yixes_ok t0 Hen allowed tok Htok k Hk0 base work r0 Hs s0 Hs0 r1 Ha1) as (r2&E2&S&Ha2). rewrite E2. specialize (Hx2 r2 E2). cbn [mbind res_bind].
  assert (forall r L, area work S L r -> Z.of_nat (length (t_lim_chain r)) = 2 * nsys -> areas r) as Hareas.
  { intros r L Ha Hc. pose proof (ar_rest _ _ _ _ _ _ _ _ _ _ Ha) as Hrest. destruct (ar_symbols _ _ _ _ _ _ _ _ _ _ Ha) as (a&?&?), (ar_lims _ _ _ _ _ _ _ _ _ _ Ha) as (b&?&?). split; [by exists a, S|by exists b, L|apply Ha|done| |].
    - rewrite (f_equal t_bv_nsyid_is_expected Hrest : t_bv_nsyid_is_expected r = t_bv_nsyid_is_expected r0). done.
    - rewrite (f_equal t_nsy_expected_is_event Hrest : t_nsy_expected_is_event r = t_nsy_expected_is_event r0). done. }
  assert (forall m, ends_in m (fun r => exists L, area work S L r /\ all_made L r /\ areas r /\ held (c0 + nsys) (cilar_of (t_tables r))) ->
    ends_in (r ← m; r ← copy_pims r k; v ← bv_of (t_bv_pim_symbols r); terminals ← bv_of (t_bv_nsyid_is_terminal (t_tables r)); v ← bv_and (t_bv_nsyid_is_expected r) v terminals; Ok (set_t_bv_nsyid_is_expected v r)) settled_to) as Hend.
  { intros m (r&->&L&Ha&Hmade&Hwa'&Hh). cbn [mbind res_bind]. by apply (finish_ok S L). }
  apply Hend. pose proof (en_symbols _ Hen) as [Hn _]. unfold same_lists, x in Hx2. injection Hx2 as Ec2 Eca2. destruct (t_is_using_leo r2).
  - destruct (ar_symbols _ _ _ _ _ _ _ _ _ _ Ha2) as (v&Hv&Hrep). assert (strip (t_tables r2) = strip t0) as Ht2 by (eapply area_tables; [exact Hs|exact Ha2]).
    pose proof (start_lims_lists x k r2 nsys S v) as Hx3. destruct (start_lims_ok t0 Hen allowed tok k Hk0 base work r0 Hs s0 Hs0 S r2 Ha2) as (r3&E3&L&Ha3&Hun). rewrite E3. cbn [mbind res_bind].
    assert (same_lists x r3) as Hx3'. { apply Hx3; [unfold same_lists, x; by rewrite Ec2, Eca2|done|done| |done]. rewrite (same_nsys t0) by done. unfold nsy_count, NSY_Count_of_G. lia. }
    unfold same_lists, x in Hx3'. injection Hx3' as Ec3 Eca3. pose (W := t_pim_workarea r3).
    assert (leos t0 allowed tok k work r0 s0 c0 S L W ∅ r3) as Hl3.
    { split; [done|done|by rewrite Ec3|rewrite size_empty, Eca3; by rewrite Z.add_0_r|apply empty_subseteq|]. intros A p lim HA Hin Hl. rewrite (Hun A p lim HA Hin Hl). split; [by intros ?%not_elem_of_empty|done]. }
    destruct (add_predecessors_ok Hfuel t0 Hen allowed tok Htok k Hk0 base work r0 Hs s0 Hs0 Hall c0 Hc0 S L W r3 ok Hl3 Hok) as (r4&->&Hl4). apply ends_Ok. pose proof (le_area _ _ _ _ _ _ _ _ _ _ _ _ _ Hl4) as Ha4.
    exists L. split; [done|]. split; [intros A p lim HA Hin Hl; by apply (le_populated _ _ _ _ _ _ _ _ _ _ _ _ _ Hl4 A p lim HA Hin Hl)|]. split; [apply (Hareas r4 L Ha4); apply Hl4|]. eapply held_le; [apply Hl4|]. pose proof (symbols_size Hfuel _ _ _ _ _ _ _ _ _ _ _ _ _ Hl4). lia.
  - apply ends_Ok. exists ∅. split; [done|]. split; [by intros A p lim ?%not_elem_of_empty|]. split; [apply (Hareas r2 ∅ Ha2); by rewrite Ec2|]. rewrite Eca2. eapply held_le; [exact Hheld|lia].
Qed.
End settle.
