(* ===== verification/EarleySet.v ===== *)
(** * A whole set

    A set is opened, filled and closed, and its events are told: from a recognizer between two
    calls to the next one. *)
From stdpp Require Import sets gmap list list_numbers relations.
From S2P Require Import Prelude MarpaH Avl Dstack BitVector BitVectorTheorems BitScan Matrix Cil CilTheorems MarpaGrammar Census Rewrite Items Relations ItemsTheorems Recce Earley EarleyStage EarleySteps EarleyPostdot.

(** * The tokens of a parse

    A token is accepted at a set, for an earleme; it leads to the set that is made at that
    earleme, if there is one ([tokens]).  More tokens lead to more items. *)

(** The tokens accepted: the set, the symbol, the earleme where it ends. *)
Definition LOG : Type := list (Z * Z * Z).
Definition earlemes (r : RECCE) : list Z := Earleme_of_YS <$> t_sets r.
Definition tokens (es : list Z) (log : LOG) (j y k : Z) : Prop := exists e, 0 <= k /\ es !! Z.to_nat k = Some e /\ (j, y, e) ∈ log.

Section more.
Context (t : TABLES) (allowed : Z -> Prop) (tok tok' : Z -> Z -> Z -> Prop) (Hmore : forall j y k, tok j y k -> tok' j y k).

Lemma item_more k x o : item t allowed tok k x o -> item t allowed tok' k x o.
Proof using Hmore. induction 1; [by apply item_start|by eapply item_predict|by eapply item_scan; eauto|by eapply item_complete; eauto]. Qed.

Lemma climbs_more j y x o : climbs t allowed tok j y x o -> climbs t allowed tok' j y x o.
Proof using Hmore. induction 1; [by apply climbs_base; [apply item_more|]|by eapply climbs_step; eauto using item_more]. Qed.

Lemma settled_more r j : settled t allowed tok r j -> settled t allowed tok' r j.
Proof using Hmore.
  intros Hs A HA. destruct (Hs A HA) as (o&ids&m&H1&H2&H3&H4). exists o, ids, m. do 3 (split; [done|]). intros lim id y E1 E2 E3. destruct (H4 lim id y E1 E2 E3) as (o'&c&K1&K2&K3&K4&K5&K6&K7).
  exists o', c. do 5 (split; [done|]). split; [by apply climbs_more|done].
Qed.
End more.

(** Tokens that lead to another set do not count for the sets before. *)
Lemma complete_before t allowed tok tok' n r j : engine t -> (forall j y k, tok' j y k -> 0 <= j < k) -> (forall j y k, k < n -> tok' j y k -> tok j y k) -> j < n ->
  complete_at t allowed tok r j -> complete_at t allowed tok' r j.
Proof. intros Hen Hb Hsub Hj Hc x o Hi. apply Hc. by apply (item_tokens t allowed tok' tok n Hb Hsub Hen). Qed.

(** ** The sets of a state *)
Section sets.
Context (t0 : TABLES).

Lemma earleme_at r k e : earlemes r !! k = Some e <-> exists s, t_sets r !! k = Some s /\ Earleme_of_YS s = e.
Proof. unfold earlemes. rewrite list_lookup_fmap, fmap_Some. split; intros (s&?&?); by exists s. Qed.

(** What the sets are depends on their earlemes and their numbers. *)
Lemma store_sets n r r' : store t0 n r -> strip (t_tables r') = strip (t_tables r) -> t_earley_set_count r' = t_earley_set_count r -> Earleme_of_YS <$> t_sets r' = Earleme_of_YS <$> t_sets r -> Ord_of_YS <$> t_sets r' = Ord_of_YS <$> t_sets r ->
  t_yims r' = t_yims r -> store t0 n r'.
Proof.
  intros [H1 H2 H3 H4 H5 H6 H7] Et Ec Ee Eo Ey.
  assert (forall k s', t_sets r' !! k = Some s' -> exists s, t_sets r !! k = Some s /\ Earleme_of_YS s = Earleme_of_YS s' /\ Ord_of_YS s = Ord_of_YS s') as Hat.
  { intros k s' Hs. pose proof (f_equal (lookup k) Ee) as E1. pose proof (f_equal (lookup k) Eo) as E2. rewrite !list_lookup_fmap, Hs in E1, E2. cbn in E1, E2. destruct (t_sets r !! k) as [s|]; [|done]. exists s. injection E1. injection E2. auto. }
  split; rewrite ?Ey; try done; try congruence.
  - rewrite <- H3. pose proof (f_equal length Ee) as El. rewrite !length_fmap in El. lia.
  - intros k s' (s&Hs&_&<-)%Hat. by apply H4.
  - intros j k a b (a'&Ha&<-&_)%Hat (b'&Hb&<-&_)%Hat. by apply (H5 j k).
Qed.

Lemma kept_sets k r r' : t_pims r' = t_pims r -> t_yims r' = t_yims r -> (forall j s, 0 <= j < k -> t_sets r !! Z.to_nat j = Some s -> exists s', t_sets r' !! Z.to_nat j = Some s' /\ t_postdot_ary s' = t_postdot_ary s /\ Postdot_SYM_Count_of_YS s' = Postdot_SYM_Count_of_YS s) -> kept k r r'.
Proof. intros E1 E2 H. split; [exists []; by rewrite app_nil_r|exists []; rewrite app_nil_r, E2; split; [done|by intros q ?%not_elem_of_nil]|done]. Qed.
End sets.

(** ** The arrays are given back ([psar_dealloc]) *)
Section dealloc.
Context (n : Z).

(** The arrays from [p] on have owners, up to the free one. *)
Record owned (p : nat) (sets : list YS) (yims : list YIM) (a : PSAR) : Prop := {
  ow_length : t_psl_length a = n;
  ow_data q x : t_psls a !! q = Some x -> Z.of_nat (length (t_data x)) = n;
  ow_free : exists f, (p <= f < length (t_psls a))%nat /\ forall q x, t_psls a !! q = Some x -> (p <= q < f)%nat <-> is_Some (t_owner x);
  ow_owner q x o : t_psls a !! q = Some x -> t_owner x = Some o -> 0 <= o /\ exists s, sets !! Z.to_nat o = Some s /\ Dot_PSL_of_YS s = Some (Z.of_nat q);
  ow_psl o s q : sets !! o = Some s -> Dot_PSL_of_YS s = Some q -> exists x, 0 <= q /\ t_psls a !! Z.to_nat q = Some x /\ t_owner x = Some (Z.of_nat o);
  ow_items q x j id : t_psls a !! q = Some x -> t_data x !! j = Some (Some id) -> exists i y, id = Z.of_nat i /\ yims !! i = Some y /\ AHM_of_YIM y = Z.of_nat j
}.

Lemma lookups_owned sets yims a : lookups n sets yims a -> owned 0 sets yims a.
Proof. intros [H1 H2 (f&_&Hl&Hf) H4 H5 H6]. split; [done|done| |done|done|done]. exists f. split; [lia|]. intros q x Hq. rewrite <- (Hf _ _ Hq). lia. Qed.

(** The arrays, without owners. *)
Lemma owned_lookups p sets yims a x : owned p sets yims a -> t_psls a !! p = Some x -> t_owner x = None -> lookups n sets yims (MkPSAR (t_psl_length a) (t_psls a) (match t_psls a with [] => None | _ => Some 0 end)).
Proof.
  intros [H1 H2 (f&Hl&Hf) H4 H5 H6] Hp Hx. assert (f = p) as ->.
  { destruct (decide (f = p)); [done|]. assert (is_Some (t_owner x)) as [? ?]; [apply (Hf _ _ Hp); lia|congruence]. }
  split; [done|done| |done|done|done]. cbn [t_psls t_first_free_psl]. exists 0%nat. split; [by destruct (t_psls a)|]. split; [lia|]. intros q z Hq. rewrite <- (Hf _ _ Hq). lia.
Qed.

Lemma owned_step p sets yims a x o s : owned p sets yims a -> t_psls a !! p = Some x -> t_owner x = Some o -> sets !! Z.to_nat o = Some s ->
  owned (S p) (<[Z.to_nat o := set_Dot_PSL_of_YS None s]> sets) yims (MkPSAR (t_psl_length a) (<[p := MkPSL None (t_data x)]> (t_psls a)) (t_first_free_psl a)).
Proof.
  intros [H1 H2 (f&Hl&Hf) H4 H5 H6] Hp Ho Hs. pose proof (lookup_lt_Some _ _ _ Hp) as Hlt. destruct (H4 _ _ _ Hp Ho) as (Ho0&s'&Hs'&Hd). assert (s' = s) as -> by congruence.
  assert (forall q z, <[p := MkPSL None (t_data x)]> (t_psls a) !! q = Some z -> exists z0, t_psls a !! q = Some z0 /\ t_data z = t_data z0 /\ ((q = p /\ t_owner z = None) \/ (q <> p /\ z = z0))) as Hat.
  { intros q z Hz. destruct (decide (q = p)) as [->|Hne]; [rewrite list_lookup_insert_eq in Hz by done; injection Hz as <-; exists x; auto|]. rewrite list_lookup_insert_ne in Hz by done. exists z. auto. }
  split; cbn [t_psl_length t_psls]; [done| | | | |].
  - intros q z (z0&Hz0&->&_)%Hat. by eapply H2.
  - exists f. rewrite length_insert. assert (is_Some (t_owner x)) as Hso by (by eexists). apply (Hf _ _ Hp) in Hso. split; [lia|]. intros q z (z0&Hz0&_&[[-> ->]|[Hne ->]])%Hat; [split; [lia|by intros [? ?]]|]. rewrite <- (Hf _ _ Hz0). lia.
  - intros q z o' (z0&Hz0&_&[[-> ->]|[Hne ->]])%Hat Ho'; [done|]. destruct (H4 _ _ _ Hz0 Ho') as (Hb&s'&Hs2&Hd2). split; [done|]. exists s'. rewrite list_lookup_insert_ne; [done|]. intros E. rewrite <- E, Hs in Hs2. injection Hs2 as <-. rewrite Hd in Hd2. injection Hd2 as Eq. lia.
  - intros o' s' q Hs2 Hq. destruct (decide (o' = Z.to_nat o)) as [->|Hne]; [rewrite list_lookup_insert_eq in Hs2 by (by eapply lookup_lt_Some); by injection Hs2 as <-|]. rewrite list_lookup_insert_ne in Hs2 by done.
    destruct (H5 _ _ _ Hs2 Hq) as (z&Hq0&Hz&Hoz). exists z. split; [done|]. split; [|done]. rewrite list_lookup_insert_ne; [done|]. intros ->. rewrite Hp in Hz. injection Hz as <-. rewrite Ho in Hoz. injection Hoz as ->. apply Hne. lia.
  - intros q z j id (z0&Hz0&->&_)%Hat. by apply H6 with q.
Qed.

(** What the call changes. *)
Record dealloced (r r' : RECCE) : Prop := {
  de_state : exists sets a, r' = set_t_sets sets (set_t_dot_psar_object a r);
  de_view : ys_view <$> t_sets r' = ys_view <$> t_sets r;
  de_count : YIM_Count_of_YS <$> t_sets r' = YIM_Count_of_YS <$> t_sets r
}.

Lemma dealloced_trans r1 r2 r3 : dealloced r1 r2 -> dealloced r2 r3 -> dealloced r1 r3.
Proof. intros [(s&a&->) V1 C1] [(s'&a'&->) V2 C2]. split; [by exists s', a'|congruence|congruence]. Qed.

Lemma dealloced_refl r : dealloced r r.
Proof. split; [exists (t_sets r), (t_dot_psar_object r); by destruct r|done|done]. Qed.

Lemma dealloc_loop_ok rounds : forall p r, owned p (t_sets r) (t_yims r) (t_dot_psar_object r) -> (length (t_psls (t_dot_psar_object r)) <= p + rounds)%nat ->
  ends_in (dealloc_loop rounds (Z.of_nat p) r) (fun r' => dealloced r r' /\ exists q x, owned q (t_sets r') (t_yims r') (t_dot_psar_object r') /\ t_psls (t_dot_psar_object r') !! q = Some x /\ t_owner x = None).
Proof.
  induction rounds as [|rounds IH]; intros p r How Hr; pose proof How as [_ _ (f&Hlf&Hf) H4 _ _]; [lia|]. cbn [dealloc_loop]. rewrite Nat2Z.id.
  destruct (lookup_lt_is_Some_2 (t_psls (t_dot_psar_object r)) p) as [x Hx]; [lia|]. rewrite Hx. destruct (t_owner x) as [o|] eqn:Ho.
  - destruct (H4 _ _ _ Hx Ho) as (Ho0&s&Hs&Hd). unfold upd_ys, YS_by_ID. rewrite (proj2 (rd_Ok _ _ _) (conj Ho0 Hs)). cbn [mbind res_bind]. pose proof (lookup_lt_Some _ _ _ Hs) as Hlt. rewrite wr_total by lia. cbn [mbind res_bind].
    cbn [t_dot_psar_object set_t_sets]. rewrite (upd_psl_ok _ p x _ Hx). cbn [mbind res_bind]. replace (Z.of_nat p + 1) with (Z.of_nat (S p)) by lia.
    pose proof (owned_step p _ _ _ x o s How Hx Ho Hs) as How'. set (r1 := set_t_dot_psar_object _ _). destruct (IH (S p) r1) as (r2&->&Hde&Hq); [exact How'|cbn; rewrite length_insert; lia|].
    apply ends_Ok. split; [|done]. apply (dealloced_trans r r1); [|done]. split.
    + eexists _, _. unfold r1. reflexivity.
    + cbn. by apply insert_view with s.
    + cbn. rewrite list_fmap_insert. apply list_insert_id. by rewrite list_lookup_fmap, Hs.
  - apply ends_Ok. split; [apply dealloced_refl|]. by exists p, x.
Qed.

Lemma psar_dealloc_ok r : lookups n (t_sets r) (t_yims r) (t_dot_psar_object r) -> ends_in (psar_dealloc r) (fun r' => dealloced r r' /\ lookups n (t_sets r') (t_yims r') (t_dot_psar_object r')).
Proof.
  intros Hl. unfold psar_dealloc. destruct (dealloc_loop_ok (length (t_psls (t_dot_psar_object r))) 0 r (lookups_owned _ _ _ Hl)) as (r1&E&Hde&q&x&How&Hq&Hx); [lia|]. change (Z.of_nat 0) with 0 in E. rewrite E. cbn [mbind res_bind]. apply ends_Ok.
  split; [|exact (owned_lookups q _ _ _ x How Hq Hx)]. destruct Hde as [(s&a&->) V C]. split; [|done|done]. eexists _, _. reflexivity.
Qed.
End dealloc.

(** * The items of a finished set, and its events

    The items are put in their order ([earley_set_update_items]).  The events of a set
    ([trigger_events]): the symbols that the items with an event tell, those that Leo items
    have skipped included, when the event is active. *)

(** ** The order of the items *)
Section update.
Context (t0 : TABLES).

Definition updated (r : RECCE) (k : Z) (work : list Z) (s : YS) : RECCE :=
  set_t_yim_work_stack (Some []) (set_t_sets (<[Z.to_nat k := set_YIMs_of_YS (Some (Some <$> work)) s]> (t_sets r)) r).

Lemma update_items_ok k base work r s : making t0 k base work r -> 0 <= k -> t_sets r !! Z.to_nat k = Some s -> earley_set_update_items r k = Ok (updated r k work s).
Proof.
  intros Hm Hk Hs. pose proof (mk_store _ _ _ _ _ Hm) as Hst. pose proof (mk_yims _ _ _ _ _ Hm _ Hs) as Hcount. unfold earley_set_update_items. unfold YS_by_ID. rewrite (proj2 (rd_Ok _ _ _) (conj Hk Hs)). cbn [mbind res_bind].
  rewrite (mk_work _ _ _ _ _ Hm). cbn [written mbind res_bind]. rewrite Hcount, Nat2Z.id. pose proof (mk_ids _ _ _ _ _ Hm) as Hids.
  destruct (each_res_ok (fun l1 l => l = (Some <$> l1) ++ replicate (length work - length l1) None) work (fun id l => yim ← YIM_by_ID r id; wr l (Ord_of_YIM yim) (Some id)) (replicate (length work) None)) as (l&->&->).
  - cbn. by rewrite Nat.sub_0_r.
  - intros l1 i l2 l E ->. assert (work !! length l1 = Some i) as Hi by (rewrite E, lookup_app_r, Nat.sub_diag by lia; done). pose proof (lookup_lt_Some _ _ _ Hi) as Hlt. rewrite Hids in Hi. apply lookup_seqZ in Hi as [Ei _].
    destruct (lookup_lt_is_Some_2 (t_yims r) (base + length l1)) as [y Hy]; [rewrite (mk_length _ _ _ _ _ Hm); lia|]. assert (i = Z.of_nat (base + length l1)) as -> by lia. rewrite (yim_read _ _ _ Hy). cbn [mbind res_bind].
    rewrite (mk_ord _ _ _ _ _ Hm _ _ Hy) by lia. replace (base + length l1 - base)%nat with (length l1) by lia. rewrite wr_total by (rewrite length_app, length_fmap, length_replicate; lia). eexists. split; [done|]. rewrite Nat2Z.id.
    replace (length work - length l1)%nat with (S (length work - length (l1 ++ [Z.of_nat (base + length l1)]))) by (rewrite length_app; cbn; lia). cbn [replicate].
    rewrite insert_app_r_alt by (by rewrite length_fmap). rewrite length_fmap, Nat.sub_diag. cbn. by rewrite fmap_app, <- app_assoc.
  - cbn [mbind res_bind]. rewrite Nat.sub_diag. cbn [replicate]. rewrite app_nil_r. rewrite (upd_ys_ok t0 (k + 1) r k s _ Hst Hk Hs). done.
Qed.
End update.

(** ** Lists of numbers *)

Definition in_cil (o : option CIL) (z : Z) : Prop := exists c l, o = Some c /\ cil_ints c = ints_of l /\ z ∈ l.

Lemma set_bits_ok c l v n P : cil_ints c = ints_of l -> Forall (fun i => 0 <= i < n) l -> bits v n P -> ends_in (set_bits c v) (fun v' => bits v' n (fun i => i ∈ l \/ P i)).
Proof.
  intros Hc Hl Hv. unfold set_bits, cil_each. rewrite (count_ok _ _ Hc). cbn [mbind res_bind].
  apply (ends_list (fun k v => bits v n (fun i => i ∈ take k l \/ P i)) l); [by rewrite Nat2Z.id| | |by rewrite firstn_all].
  - apply (bits_ext _ _ _ Hv). intros i. cbn. rewrite elem_of_nil. tauto.
  - intros k i a Hi Ha. rewrite (item_ok _ _ _ _ Hc Hi). cbn [mbind res_bind]. rewrite Forall_forall in Hl. pose proof (Hl i ltac:(by eapply list_elem_of_lookup_2)) as Hb. destruct (bits_set _ _ _ Ha i Hb) as (a'&->&Ha'). apply ends_Ok.
    apply (bits_ext _ _ _ Ha'). intros j. rewrite (take_S_r _ _ _ Hi), elem_of_app, list_elem_of_singleton. tauto.
Qed.

Lemma set_listed o n P c v Q : listed o n P -> o = Some c -> bits v n Q -> ends_in (set_bits c v) (fun v' => bits v' n (fun i => in_cil o i \/ Q i)).
Proof.
  intros (c'&->&Hl) [= ->] Hv. destruct (lists_members _ _ _ Hl) as (l&Hc&Hin). destruct (set_bits_ok c l v n Q Hc) as (v'&->&Hv'); [|done|].
  - rewrite Forall_forall. intros i Hi. by apply Hin.
  - apply ends_Ok. apply (bits_ext _ _ _ Hv'). intros i. split; (intros [Hi|Hi]; [left|by right]); [by exists c, l|]. destruct Hi as (c'&l'&[= <-]&Hc'&Hi). rewrite Hc in Hc'. apply ints_of_inj in Hc' as <-. done.
Qed.

(** ** The events *)

(** The events that have been added. *)
Definition emitted (r : RECCE) (l : list (Z * Z)) (r' : RECCE) : Prop := r' = upd_G_of_R (fun g => set_t_events (t_events g ++ l) g) r.

Lemma emitted_nil r : emitted r [] r.
Proof.
  unfold emitted, upd_G_of_R, upd_g. assert (set_t_events (t_events (g_of (t_tables r)) ++ []) (g_of (t_tables r)) = g_of (t_tables r)) as -> by (rewrite app_nil_r; by destruct (g_of (t_tables r))).
  destruct r as [t]. cbn. f_equal. by destruct t as [[]].
Qed.

Lemma emitted_trans r1 l1 r2 l2 r3 : emitted r1 l1 r2 -> emitted r2 l2 r3 -> emitted r1 (l1 ++ l2) r3.
Proof. unfold emitted. intros -> ->. unfold upd_G_of_R, upd_g. cbn. by rewrite app_assoc. Qed.

Section events.
Context (t0 : TABLES) (Hen : engine t0).
#[local] Abbreviation xsys := (XSY_Count_of_G (g_of t0)).
Context (junk : nat -> list Z).

(** The item number [x] has an event, and an item of the set [k] tells it: itself, or by the
    list of a Leo item that led to it. *)
Definition has_event (x : Z) : Prop := exists a, ahm_at t0 x a /\ in_cil (Event_AHMIDs_of_AHM a) x.
Definition told_by (r : RECCE) (y : YIM) (x : Z) : Prop :=
  (AHM_of_YIM y = x /\ has_event x) \/ exists l p lim, l ∈ First_Leo_SRCL_of_YIM y /\ Predecessor_of_SRCL l = Z.of_nat p /\ t_pims r !! p = Some (PIM_of_LIM lim) /\ in_cil (CIL_of_LIM lim) x.
Definition told (r : RECCE) (k x : Z) : Prop := exists id y, t_yims r !! id = Some y /\ YS_of_YIM y = k /\ told_by r y x.

(** The external symbols of a kind of event of the item [x]. *)
Definition symbols_of (f : AHM -> option CIL) (x z : Z) : Prop := exists a, ahm_at t0 x a /\ in_cil (f a) z.

Lemma has_event_ok x a : ahm_at t0 x a -> ends_in (AHM_has_Event a) (fun b => b = true <-> has_event x).
Proof using Hen.
  clear junk. intros Ha. destruct (en_ahm _ Hen x (ahm_at_bound _ _ _ Ha)) as (a'&Ha'&Hf). pose proof (ahm_at_inj _ _ _ _ Ha Ha') as <-. destruct (af_events _ _ _ Hf) as (c&Hc&_&Hl). unfold AHM_has_Event, cil_is_occupied. rewrite Hc. cbn [written mbind res_bind].
  destruct Hl as [Hl|Hl]; rewrite (count_ok _ _ Hl); cbn [mbind res_bind]; apply ends_Ok; (split; [|]).
  - done.
  - intros (a'&Hat&c'&l'&Hc'&Hl'&Hin). pose proof (ahm_at_inj _ _ _ _ Ha Hat) as <-. rewrite Hc in Hc'. injection Hc' as <-. rewrite Hl in Hl'. apply ints_of_inj in Hl' as <-. by apply not_elem_of_nil in Hin.
  - intros _. exists a. split; [done|]. exists c, [x]. split; [done|]. split; [done|]. by left.
  - done.
Qed.

Lemma trigger_yim_ok r id y v P : strip (t_tables r) = strip t0 -> links_ok t0 r -> t_yims r !! id = Some y -> 0 <= AHM_of_YIM y < ahms t0 -> bits v (ahms t0) P ->
  ends_in (trigger_yim r (Z.of_nat id) v) (fun v' => bits v' (ahms t0) (fun x => told_by r y x \/ P x)).
Proof using Hen.
  clear junk. intros Ht Hl Hy Hx Hv. destruct (en_ahm _ Hen _ Hx) as (a&Ha&Hf). unfold trigger_yim, AHM_of. rewrite (yim_read _ _ _ Hy). cbn [mbind res_bind]. rewrite (same_ahm t0 _ Ht), (ahm_at_read _ _ _ Ha). cbn [mbind res_bind].
  destruct (has_event_ok _ _ Ha) as (b&->&Hb). cbn [mbind res_bind].
  assert (ends_in (if b : bool then bv_bit_set v (AHM_of_YIM y) else Ok v) (fun v' => bits v' (ahms t0) (fun x => (AHM_of_YIM y = x /\ has_event x) \/ P x))) as (v1&->&Hv1).
  { destruct b.
    - destruct (bits_set _ _ _ Hv _ Hx) as (v1&->&Hv1). apply ends_Ok. apply (bits_ext _ _ _ Hv1). intros x. split; (intros [Hxx|?]; [left|by right]); [subst x; split; [done|by apply Hb]|by destruct Hxx].
    - apply ends_Ok. apply (bits_ext _ _ _ Hv). intros x. split; [by right|]. intros [[<- Hh]|?]; [by apply Hb in Hh|done]. }
  cbn [mbind res_bind].
  destruct (each_res_ok (fun l1 v => bits v (ahms t0) (fun x => (exists l p lim, l ∈ l1 /\ Predecessor_of_SRCL l = Z.of_nat p /\ t_pims r !! p = Some (PIM_of_LIM lim) /\ in_cil (CIL_of_LIM lim) x) \/ (AHM_of_YIM y = x /\ has_event x) \/ P x))
    (First_Leo_SRCL_of_YIM y) (fun setup_source_link v => lim ← lim_by_id r (Predecessor_of_SRCL setup_source_link); event_ahmids ← written (CIL_of_LIM lim); set_bits event_ahmids v) v1) as (v2&->&Hv2).
  - apply (bits_ext _ _ _ Hv1). intros x. split; [by right|]. intros [(l&p&lim&Hin&_)|?]; [by apply not_elem_of_nil in Hin|done].
  - intros l1 l l2 v2 E Hv2. destruct (Hl id y l Hy) as (p&lim&c&Hp&Hlim&Hc&li&Hli&_&Hbound); [rewrite E; apply elem_of_app; right; by left|]. unfold lim_by_id, PIM_by_ID. rewrite Hp, (rd_at _ _ _ Hlim). cbn [mbind res_bind LIM_of_PIM]. rewrite Hc. cbn [written mbind res_bind].
    destruct (set_bits_ok c li v2 _ _ Hli Hbound Hv2) as (v3&->&Hv3). eexists. split; [done|]. apply (bits_ext _ _ _ Hv3). intros x. split.
    + intros [Hin|[(l'&p'&lim'&Hin&Hrest)|?]]; [left|left|by right]. { exists l, p, lim. split; [apply elem_of_app; right; by left|]. do 2 (split; [done|]). by exists c, li. } exists l', p', lim'. split; [apply elem_of_app; by left|done].
    + intros [(l'&p'&lim'&Hin&Hp'&Hlim'&Hcil)|?]; [|by right; right]. apply elem_of_app in Hin as [Hin| ->%list_elem_of_singleton]; [right; left; by exists l', p', lim'|left]. rewrite Hp in Hp'. apply Nat2Z.inj in Hp' as <-. rewrite Hlim in Hlim'. injection Hlim' as <-.
      destruct Hcil as (c'&l'&Hc'&Hl'&Hin). rewrite Hc in Hc'. injection Hc' as <-. rewrite Hli in Hl'. by apply ints_of_inj in Hl' as <-.
  - apply ends_Ok. apply (bits_ext _ _ _ Hv2). intros x. unfold told_by. tauto.
Qed.

Lemma trigger_ahms_ok r k s base work : strip (t_tables r) = strip t0 -> links_ok t0 r -> 0 <= k -> t_sets r !! Z.to_nat k = Some s -> YIMs_of_YS s = Some (Some <$> work) -> YIM_Count_of_YS s = Z.of_nat (length work) ->
  work = seqZ (Z.of_nat base) (Z.of_nat (length work)) -> (forall id y, t_yims r !! id = Some y -> 0 <= AHM_of_YIM y < ahms t0 /\ ((base <= id)%nat <-> YS_of_YIM y = k)) -> length (t_yims r) = (base + length work)%nat ->
  ends_in (trigger_ahms junk r k) (fun v => bits v (ahms t0) (told r k)).
Proof using Hen.
  intros Ht Hl Hk Hs Hyims Hcount Hids Hset Hlen. pose proof (en_small _ Hen) as Hsmall. unfold trigger_ahms. rewrite (same_ahm_count t0 _ Ht). unfold AHM_Count_of_G. rewrite (en_count _ Hen). cbn [written mbind res_bind].
  destruct (bits_new (junk 19%nat) (ahms t0)) as (v&->&Hv); [unfold ahms in *; lia|]. cbn [mbind res_bind]. unfold YS_by_ID. rewrite (proj2 (rd_Ok _ _ _) (conj Hk Hs)). cbn [mbind res_bind]. rewrite Hcount, Nat2Z.id.
  apply (ends_list (fun i v => bits v (ahms t0) (fun x => exists j y, (j < i)%nat /\ t_yims r !! (base + j)%nat = Some y /\ told_by r y x)) work); [done| | |].
  - apply (bits_ext _ _ _ Hv). intros x. split; [done|]. intros (j&y&Hj&_). lia.
  - intros i id v1 Hi Hv1. rewrite Hyims. cbn [written mbind res_bind]. rewrite (rd_at (Some <$> work) i (Some id)) by (by rewrite list_lookup_fmap, Hi). cbn [written mbind res_bind]. pose proof (lookup_lt_Some _ _ _ Hi) as Hlt. rewrite Hids in Hi. apply lookup_seqZ in Hi as [-> _].
    destruct (lookup_lt_is_Some_2 (t_yims r) (base + i)) as [y Hy]; [lia|]. replace (Z.of_nat base + Z.of_nat i) with (Z.of_nat (base + i)) by lia. destruct (trigger_yim_ok r (base + i) y v1 _ Ht Hl Hy (proj1 (Hset _ _ Hy)) Hv1) as (v2&->&Hv2).
    apply ends_Ok. apply (bits_ext _ _ _ Hv2). intros x. split.
    + intros [Hx|(j&z&Hj&Hz&Hx)]; [exists i, y|exists j, z]; (split; [lia|done]).
    + intros (j&z&Hj&Hz&Hx). destruct (decide (j = i)) as [->|]; [left; congruence|right]. exists j, z. split; [lia|done].
  - intros v1 Hv1. apply (bits_ext _ _ _ Hv1). intros x. split.
    + intros (j&y&Hj&Hy&Hx). exists (base + j)%nat, y. split; [done|]. split; [|done]. apply (Hset _ _ Hy). lia.
    + intros (id&y&Hy&Hyk&Hx). apply (Hset _ _ Hy) in Hyk. exists (id - base)%nat, y. pose proof (lookup_lt_Some _ _ _ Hy). split; [lia|]. replace (base + (id - base))%nat with id by lia. done.
Qed.

(** The events of a kind. *)
Lemma trigger_active_ok type active v r P w S : strip (t_tables r) = strip t0 -> bits v xsys P -> active r = Some w -> (forall l r', emitted r l r' -> active r' = active r) -> flags w xsys S ->
  ends_in (trigger_active type active v r) (fun r' => exists l, emitted r (pair type <$> l) r' /\ ascending l /\ forall z, z ∈ l <-> P z /\ z ∈ S).
Proof.
  clear Hen junk. intros Ht (T&HT&HP) Hw Hact Hf. unfold trigger_active. rewrite (bv_for_each_ok _ _ _ _ _ _ HT); [|rewrite (same_xsys t0 _ Ht); unfold xsy_count, XSY_Count_of_G; lia].
  destruct (each_res_ok (fun l r' => emitted r (pair type <$> filter (fun z => z ∈ S) l) r') (elems xsys T) (fun event_xsyid r => is_active ← bv_of (active r); b ← lbv_bit_test is_active event_xsyid; Ok (if b : bool then upd_G_of_R (fun g => int_event_new g type event_xsyid) r else r)) r) as (r1&->&Hr1).
  - apply emitted_nil.
  - intros l1 z l2 r1 E Hr1. rewrite (Hact _ _ Hr1), Hw. cbn [bv_of written mbind res_bind]. assert (z ∈ elems xsys T) as Hz by (rewrite E; apply elem_of_app; right; by left). unfold elems in Hz. apply elem_of_elems_from in Hz as [Hz _].
    rewrite (lbv_bit_test_ok _ _ _ _ Hf Hz). cbn [mbind res_bind]. eexists. split; [done|]. rewrite list.filter_app, fmap_app. eapply emitted_trans; [exact Hr1|]. rewrite filter_cons. destruct (decide (z ∈ S)) as [Hin|Hin].
    + rewrite bool_decide_eq_true_2 by done. done.
    + rewrite bool_decide_eq_false_2 by done. apply emitted_nil.
  - cbn [mbind res_bind snd]. apply ends_Ok. exists (filter (fun z => z ∈ S) (elems xsys T)). split; [done|]. split; [apply StronglySorted_filter', elems_ascending|]. intros z. rewrite list_elem_of_filter. unfold elems. rewrite elem_of_elems_from, <- HP. split; [tauto|]. intros [? ?]. pose proof (br_elems _ _ _ HT z). tauto.
Qed.

(** The vectors of the active events. *)
Record active_events (r : RECCE) (C N P : gset Z) : Prop := {
  ae_completion : exists w, t_completion_event_is_active r = Some w /\ flags w xsys C;
  ae_nulled : exists w, t_nulled_event_is_active r = Some w /\ flags w xsys N;
  ae_prediction : exists w, t_prediction_event_is_active r = Some w /\ flags w xsys P
}.

(** The symbols of the events of the set [k], of a kind. *)
Definition event_symbols (r : RECCE) (k : Z) (f : AHM -> option CIL) (S : gset Z) (l : list Z) : Prop :=
  ascending l /\ forall z, z ∈ l <-> (exists x, told r k x /\ symbols_of f x z) /\ z ∈ S.

Lemma trigger_events_ok r k s base work C N P : strip (t_tables r) = strip t0 -> links_ok t0 r -> 0 <= k -> t_latest_earley_set r = Some k -> t_sets r !! Z.to_nat k = Some s -> YIMs_of_YS s = Some (Some <$> work) -> YIM_Count_of_YS s = Z.of_nat (length work) ->
  work = seqZ (Z.of_nat base) (Z.of_nat (length work)) -> (forall id y, t_yims r !! id = Some y -> 0 <= AHM_of_YIM y < ahms t0 /\ ((base <= id)%nat <-> YS_of_YIM y = k)) -> length (t_yims r) = (base + length work)%nat ->
  active_events r C N P ->
  ends_in (trigger_events junk r) (fun r' => exists l1 l2 l3,
    emitted r ((pair MARPA_EVENT_SYMBOL_COMPLETED <$> l1) ++ (pair MARPA_EVENT_SYMBOL_NULLED <$> l2) ++ (pair MARPA_EVENT_SYMBOL_PREDICTED <$> l3)) r'
    /\ event_symbols r k Completion_XSYIDs_of_AHM C l1 /\ event_symbols r k Nulled_XSYIDs_of_AHM N l2 /\ event_symbols r k Prediction_XSYIDs_of_AHM P l3).
Proof using Hen.
  intros Ht Hl Hk Hlatest Hs Hyims Hcount Hids Hset Hlen [(wc&Ewc&Hwc) (wn&Ewn&Hwn) (wp&Ewp&Hwp)]. unfold trigger_events. rewrite Hlatest. cbn [written mbind res_bind]. pose proof (en_xsys _ Hen) as Hx.
  assert (XSY_Count_of_G (G_of_R r) = xsys) as -> by exact (f_equal (fun t => XSY_Count_of_G (g_of t)) Ht).
  destruct (bits_new (junk 16%nat) xsys Hx) as (v1&->&Hv1). cbn [mbind res_bind]. destruct (bits_new (junk 17%nat) xsys Hx) as (v2&->&Hv2). cbn [mbind res_bind]. destruct (bits_new (junk 18%nat) xsys Hx) as (v3&->&Hv3). cbn [mbind res_bind].
  destruct (trigger_ahms_ok r k s base work Ht Hl Hk Hs Hyims Hcount Hids Hset Hlen) as (va&->&Hva). cbn [mbind res_bind]. rewrite (same_ahm_count t0 _ Ht). unfold AHM_Count_of_G. rewrite (en_count _ Hen). cbn [written mbind res_bind].
  set (over (f : AHM -> option CIL) (l : list Z) (z : Z) := exists x, x ∈ l /\ symbols_of f x z). match goal with |- ends_in (?m ≫= _) _ =>
    assert (ends_in m (fun x => bits x.2.1.1 xsys (fun z => exists x, told r k x /\ symbols_of Completion_XSYIDs_of_AHM x z) /\ bits x.2.1.2 xsys (fun z => exists x, told r k x /\ symbols_of Nulled_XSYIDs_of_AHM x z)
      /\ bits x.2.2 xsys (fun z => exists x, told r k x /\ symbols_of Prediction_XSYIDs_of_AHM x z))) as ([x0 [[vc vn] vp]]&->&Hvc&Hvn&Hvp) end.
  { apply (each_bit (fun l c => bits c.1.1 xsys (over Completion_XSYIDs_of_AHM l) /\ bits c.1.2 xsys (over Nulled_XSYIDs_of_AHM l) /\ bits c.2 xsys (over Prediction_XSYIDs_of_AHM l)) _ _ _ _ _ _ _ Hva); [lia| | |].
    - assert (forall v f, bits v xsys (fun _ => False) -> bits v xsys (over f [])) as Hnil by (intros v f Hv; apply (bits_ext _ _ _ Hv); intros i; split; [done|intros (x&Hx0&_); by apply not_elem_of_nil in Hx0]). cbn [fst snd]. auto.
    - intros l x [[c1 c2] c3] Hxb _ (H1&H2&H3). cbn [fst snd] in *. destruct (en_ahm _ Hen x Hxb) as (a&Ha&Hfit). rewrite (same_ahm t0 _ Ht), (ahm_at_read _ _ _ Ha). cbn [mbind res_bind].
      assert (forall f c, (exists P, listed (f a) xsys P) -> bits c xsys (over f l) -> exists k', f a = Some k' /\ ends_in (set_bits k' c) (fun v => bits v xsys (over f (l ++ [x])))) as Hadd.
      { intros f c (Q&Hf) Hc. pose proof Hf as (k'&Ek&_). exists k'. split; [done|]. destruct (set_listed _ _ _ k' c _ Hf Ek Hc) as (v'&->&Hv'). apply ends_Ok. apply (bits_ext _ _ _ Hv'). intros z. split.
        - intros [Hz|(y&Hy&Hz)]; [exists x; split; [apply elem_of_app; right; by left|by exists a]|exists y; split; [apply elem_of_app; by left|done]].
        - intros (y&[Hy| ->%list_elem_of_singleton]%elem_of_app&Hz); [right; by exists y|left]. destruct Hz as (a'&Ha'&Hz). by rewrite (ahm_at_inj _ _ _ _ Ha Ha'). }
      destruct (Hadd Completion_XSYIDs_of_AHM c1 (af_completions _ _ _ Hfit) H1) as (k1&->&d1&E1&D1). cbn [written mbind res_bind]. rewrite E1. cbn [mbind res_bind].
      destruct (Hadd Nulled_XSYIDs_of_AHM c2 (af_nulled _ _ _ Hfit) H2) as (k2&->&d2&E2&D2). cbn [written mbind res_bind]. rewrite E2. cbn [mbind res_bind].
      destruct (Hadd Prediction_XSYIDs_of_AHM c3 (af_predictions _ _ _ Hfit) H3) as (k3&->&d3&E3&D3). cbn [written mbind res_bind]. rewrite E3. cbn [mbind res_bind]. by apply ends_Ok.
    - intros l c Hin (H1&H2&H3). cbn [snd]. assert (forall v f, bits v xsys (over f l) -> bits v xsys (fun z => exists x, told r k x /\ symbols_of f x z)) as Hall.
      { intros v f Hv. apply (bits_ext _ _ _ Hv). intros z. split; intros (x&Hx0&Hz); exists x; (split; [|done]); [by apply Hin in Hx0 as [_ ?]|]. apply Hin. split; [|done]. destruct Hz as (a&Ha&_). by apply ahm_at_bound in Ha. }
      auto. }
  cbn [mbind res_bind snd fst] in *.
  assert (forall l r', emitted r l r' -> strip (t_tables r') = strip t0) as Hstrip by (intros l r' ->; rewrite <- Ht; done).
  destruct (trigger_active_ok MARPA_EVENT_SYMBOL_COMPLETED t_completion_event_is_active vc r _ wc C Ht Hvc Ewc) as (r1&->&l1&He1&Hl1); [by intros l r' ->|done|]. cbn [mbind res_bind].
  destruct (trigger_active_ok MARPA_EVENT_SYMBOL_NULLED t_nulled_event_is_active vn r1 _ wn N (Hstrip _ _ He1) Hvn) as (r2&->&l2&He2&Hl2); [by rewrite He1|by intros l r' ->|done|]. cbn [mbind res_bind]. pose proof (emitted_trans _ _ _ _ _ He1 He2) as He12.
  destruct (trigger_active_ok MARPA_EVENT_SYMBOL_PREDICTED t_prediction_event_is_active vp r2 _ wp P (Hstrip _ _ He12) Hvp) as (r3&->&l3&He3&Hl3); [by rewrite He12|by intros l r' ->|done|].
  apply ends_Ok. exists l1, l2, l3. split; [|done]. rewrite app_assoc. by eapply emitted_trans.
Qed.
End events.

(** * A recognizer between two calls, and the opening of a set

    [idle]: the sets made so far are those of the tokens accepted so far, the tokens that end
    later are on their stack.  A new set is opened: a stage with no items. *)

(** The order of the tokens that end later: the last one ends first. *)
Definition alt_before (a b : ALT) : Prop :=
  End_Earleme_of_ALT b < End_Earleme_of_ALT a
  \/ (End_Earleme_of_ALT a = End_Earleme_of_ALT b /\ (NSYID_of_ALT a < NSYID_of_ALT b \/ (NSYID_of_ALT a = NSYID_of_ALT b /\ Start_YS_of_ALT a < Start_YS_of_ALT b))).

Definition alt_token (a : ALT) : Z * Z * Z := (Start_YS_of_ALT a, NSYID_of_ALT a, End_Earleme_of_ALT a).

Section idle.
Context (t0 : TABLES) (allowed : Z -> Prop) (c0 : Z).
#[local] Abbreviation nsys := (NSY_Count_of_G (t_internal t0)).
#[local] Abbreviation irls := (IRL_Count_of_G (t_internal t0)).
#[local] Abbreviation xsys := (XSY_Count_of_G (g_of t0)).

(** The tokens of a state. *)
Definition state_tokens (log : LOG) (r : RECCE) : Z -> Z -> Z -> Prop := tokens (earlemes r) log.

(** What the tokens are: each one starts at a set and ends later. *)
Definition log_ok (log : LOG) (r : RECCE) : Prop := forall j y e, (j, y, e) ∈ log -> 0 <= y < nsys /\ 0 <= j /\ exists s, t_sets r !! Z.to_nat j = Some s /\ Earleme_of_YS s < e.

(** The symbols of the grammar that are terminals. *)
Definition may_be_read (x : Z) : Prop := exists xsy, XSY_by_ID (g_of t0) x = Ok xsy /\ XSY_is_Terminal xsy = true.

(** The vectors of the values of tokens. *)
Record valued_ok (r : RECCE) : Prop := {
  vo_valued_terminal : exists w S, t_valued_terminal r = Some w /\ flags w xsys S /\ forall x, x ∈ S -> may_be_read x;
  vo_unvalued_terminal : exists w S, t_unvalued_terminal r = Some w /\ flags w xsys S /\ forall x, x ∈ S -> may_be_read x;
  vo_valued : exists w S, t_valued r = Some w /\ flags w xsys S;
  vo_unvalued : exists w S, t_unvalued r = Some w /\ flags w xsys S;
  vo_locked : exists w S, t_valued_locked r = Some w /\ flags w xsys S
}.

(** [now]: no set is later, and each token left ends later. *)
Record idle_at (now : Z) (log : LOG) (r : RECCE) : Prop := {
  id_store : store t0 (t_earley_set_count r) r;
  id_count : 0 < t_earley_set_count r <= now + 1;
  id_latest : t_latest_earley_set r = Some (t_earley_set_count r - 1);
  id_times k s : t_sets r !! k = Some s -> 0 <= Earleme_of_YS s <= now;
  id_lookups : lookups (ahms t0) (t_sets r) (t_yims r) (t_dot_psar_object r);
  id_sound j x o : has r j x o -> item t0 allowed (state_tokens log r) j x o;
  id_complete j : 0 <= j < t_earley_set_count r -> complete_at t0 allowed (state_tokens log r) r j;
  id_settled j : 0 <= j < t_earley_set_count r -> settled t0 allowed (state_tokens log r) r j;
  id_links : links_ok t0 r;
  id_areas : areas t0 r;
  id_arena : held (c0 + t_earley_set_count r * nsys) (cilar_of (t_tables r));
  id_work : t_yim_work_stack r = Some [];
  id_completions : t_completion_stack r <> None;
  id_seen : exists S, bv_rep (t_bv_irl_seen r) irls S;
  id_log : log_ok log r;
  id_sorted : StronglySorted alt_before (t_alternatives r);
  id_alternatives a : a ∈ t_alternatives r -> alt_token a ∈ log /\ now < End_Earleme_of_ALT a <= t_furthest_earleme r;
  id_waiting j y e : (j, y, e) ∈ log -> now < e -> exists a, a ∈ t_alternatives r /\ alt_token a = (j, y, e);
  id_furthest : t_furthest_earleme r < JEARLEME_THRESHOLD;
  id_events : exists C N P, active_events t0 r C N P;
  id_valued : valued_ok r;
  id_consistent : t_first_inconsistent_ys r < 0
}.

(** Between two calls. *)
Definition idle (log : LOG) (r : RECCE) : Prop := idle_at (t_current_earleme r) log r.

(** Tokens lead to later sets. *)
Lemma tokens_later log r n : store t0 n r -> log_ok log r -> forall j y k, state_tokens log r j y k -> 0 <= j < k.
Proof.
  intros Hst Hlog j y k (e&Hk&(s&Hs&<-)%earleme_at&Hin). destruct (Hlog _ _ _ Hin) as (_&Hj&s'&Hs'&Hlt). split; [done|].
  destruct (decide (j < k)); [done|]. exfalso. destruct (decide (j = k)) as [->|]; [rewrite Hs in Hs'; injection Hs' as <-; lia|].
  pose proof (st_times _ _ _ Hst _ _ _ _ Hs Hs' ltac:(lia)). lia.
Qed.

(** ** The sets, when one is added *)

Lemma lookups_psl n sets sets' yims a : lookups n sets yims a -> (forall k s, sets' !! k = Some s -> (exists s0, sets !! k = Some s0 /\ Dot_PSL_of_YS s = Dot_PSL_of_YS s0) \/ Dot_PSL_of_YS s = None) ->
  (forall k s, sets !! k = Some s -> exists s', sets' !! k = Some s' /\ Dot_PSL_of_YS s' = Dot_PSL_of_YS s) -> lookups n sets' yims a.
Proof.
  intros [H1 H2 H3 H4 H5 H6] Hback Hat. split; [done..| | |done].
  - intros p x o Hp Ho. destruct (H4 _ _ _ Hp Ho) as (Hn&s&Hs&Hd). split; [done|]. destruct (Hat _ _ Hs) as (s'&?&E). exists s'. split; [done|congruence].
  - intros o s q Hs Hq. destruct (Hback _ _ Hs) as [(s0&Hs0&E)|E]; [|congruence]. apply (H5 o s0); [done|congruence].
Qed.

(** The sets before the new one. *)
Definition opened (r : RECCE) (e : Z) (s : YS) : list YS :=
  let n := Z.to_nat (t_earley_set_count r) in
  <[(n - 1)%nat := set_Next_YS_of_YS (Some (Z.of_nat n)) s]> (t_sets r) ++ [MkYS e None None None None 0 0 (t_earley_set_count r) (-1) None].

Definition open_set r (current_earleme : Z) : res (Z * RECCE) :=
  let '(set, r) := earley_set_new r current_earleme in
  latest ← written (t_latest_earley_set r);
  r ← upd_ys r latest (set_Next_YS_of_YS (Some set));
  Ok (set, set_t_latest_earley_set (Some set) r).

Section open.
Context (now e : Z) (log : LOG) (r : RECCE) (Hid : idle_at now log r) (He : now < e).
#[local] Abbreviation n := (t_earley_set_count r).

Lemma open_set_eq : exists s, t_sets r !! Z.to_nat (n - 1) = Some s
  /\ open_set r e = Ok (n, set_t_latest_earley_set (Some n) (set_t_sets (opened r e s) (set_t_earley_set_count (n + 1) r))).
Proof using Hid.
  destruct Hid as [Hst Hn Hlatest _ _ _ _ _ _ _ _ _ _ _ _ _ _ _ _ _ _ _]. pose proof (st_sets _ _ _ Hst) as Hlen. destruct (lookup_lt_is_Some_2 (t_sets r) (Z.to_nat (n - 1))) as [s Hs]; [lia|]. exists s. split; [done|].
  unfold open_set, earley_set_new. cbn [t_latest_earley_set set_t_earley_set_count set_t_sets]. rewrite Hlatest. cbn [written mbind res_bind].
  rewrite (upd_ys_at _ (n - 1) _ s); [|lia|cbn; by apply lookup_app_l_Some]. cbn [mbind res_bind]. rewrite Hlen. f_equal. f_equal. f_equal. unfold opened.
  replace (Z.to_nat n - 1)%nat with (Z.to_nat (n - 1)) by lia. rewrite Z2Nat.id by lia. cbn [t_sets set_t_sets set_t_earley_set_count]. rewrite insert_app_l by lia. by destruct r.
Qed.

Context (s : YS) (Hs : t_sets r !! Z.to_nat (n - 1) = Some s).
#[local] Abbreviation r' := (set_t_latest_earley_set (Some n) (set_t_sets (opened r e s) (set_t_earley_set_count (n + 1) r))).

Lemma opened_at k a : opened r e s !! k = Some a -> (exists a0, t_sets r !! k = Some a0 /\ set_Next_YS_of_YS None a = set_Next_YS_of_YS None a0) \/ (k = Z.to_nat n /\ a = MkYS e None None None None 0 0 n (-1) None).
Proof using Hid Hs.
  pose proof (st_sets _ _ _ (id_store _ _ _ Hid)) as Hlen. pose proof (id_count _ _ _ Hid). unfold opened. replace (Z.to_nat n - 1)%nat with (Z.to_nat (n - 1)) by lia. intros Ha. apply lookup_app_Some in Ha as [Ha|[Hge Ha]].
  - left. apply list_lookup_insert_Some in Ha as [(<-&<-&_)|[_ Ha]]; [by exists s|by exists a].
  - right. rewrite length_insert in *. apply list_lookup_singleton_Some in Ha as [? <-]. split; [lia|done].
Qed.

Lemma opened_keeps k a : t_sets r !! k = Some a -> exists a', opened r e s !! k = Some a' /\ set_Next_YS_of_YS None a' = set_Next_YS_of_YS None a.
Proof using Hid Hs.
  pose proof (st_sets _ _ _ (id_store _ _ _ Hid)) as Hlen. pose proof (id_count _ _ _ Hid). intros Ha. unfold opened. replace (Z.to_nat n - 1)%nat with (Z.to_nat (n - 1)) by lia. pose proof (lookup_lt_Some _ _ _ Ha) as Hlt.
  destruct (decide (k = Z.to_nat (n - 1))) as [->|Hne].
  - eexists. split; [apply lookup_app_l_Some, list_lookup_insert_eq; lia|]. by simplify_eq.
  - exists a. split; [|done]. apply lookup_app_l_Some. by rewrite list_lookup_insert_ne.
Qed.

Lemma opened_new : opened r e s !! Z.to_nat n = Some (MkYS e None None None None 0 0 n (-1) None).
Proof using Hid. pose proof (st_sets _ _ _ (id_store _ _ _ Hid)) as Hlen. unfold opened. rewrite lookup_app_r by (rewrite length_insert; lia). rewrite length_insert. by replace (Z.to_nat n - length (t_sets r))%nat with 0%nat by lia. Qed.

Lemma opened_earlemes : earlemes r' = earlemes r ++ [e].
Proof using Hs. unfold earlemes. cbn. unfold opened. rewrite fmap_app. f_equal. rewrite list_fmap_insert. apply list_insert_id. replace (Z.to_nat n - 1)%nat with (Z.to_nat (n - 1)) by lia. by rewrite list_lookup_fmap, Hs. Qed.

Lemma opened_log : log_ok log r'.
Proof using Hid Hs.
  intros j y e' Hin. destruct (id_log _ _ _ Hid _ _ _ Hin) as (Hy&Hj&a&Ha&Hlt). do 2 (split; [done|]). destruct (opened_keeps _ _ Ha) as (a'&Ha'&E). exists a'. split; [done|]. apply (f_equal Earleme_of_YS) in E. cbn in E. lia.
Qed.

Lemma opened_store : store t0 (n + 1) r'.
Proof using Hid He Hs.
  pose proof (id_store _ _ _ Hid) as [H1 H2 H3 H4 H5 H6 H7]. pose proof (id_count _ _ _ Hid). split; [done|done| | | | |done].
  - cbn. unfold opened. rewrite length_app, length_insert. cbn. lia.
  - intros k a Ha. destruct (opened_at k a Ha) as [(a0&Ha0&E)|[-> ->]]; [|cbn; lia]. apply (f_equal Ord_of_YS) in E. cbn in E. rewrite E. by apply H4.
  - intros j k a b Ha Hb Hjk. destruct (opened_at j a Ha) as [(a0&Ha0&Ea)|[-> ->]]; destruct (opened_at k b Hb) as [(b0&Hb0&Eb)|[-> ->]].
    + apply (f_equal Earleme_of_YS) in Ea, Eb. cbn in Ea, Eb. pose proof (H5 _ _ _ _ Ha0 Hb0 Hjk). lia.
    + apply (f_equal Earleme_of_YS) in Ea. cbn in Ea |- *. pose proof (id_times _ _ _ Hid _ _ Ha0). lia.
    + apply lookup_lt_Some in Hb0. lia.
    + lia.
  - intros id y Hy. destruct (H6 _ _ Hy) as [K1 K2 K3 K4]. split; [done|lia|done|done].
Qed.

Lemma opened_tokens j y k : k < n -> state_tokens log r' j y k <-> state_tokens log r j y k.
Proof using Hid Hs.
  intros Hk. unfold state_tokens. rewrite opened_earlemes. pose proof (st_sets _ _ _ (id_store _ _ _ Hid)) as Hlen. unfold tokens.
  assert (0 <= k -> (earlemes r ++ [e]) !! Z.to_nat k = earlemes r !! Z.to_nat k) as E by (intros Hk0; rewrite lookup_app_l by (unfold earlemes; rewrite length_fmap; lia); done).
  split; intros (e'&Hk0&He'&Hin); exists e'; (split; [done|]); [rewrite E in He' by done|rewrite E by done]; done.
Qed.

Lemma opened_more j y k : state_tokens log r j y k -> state_tokens log r' j y k.
Proof using Hid Hs.
  intros Ht. apply opened_tokens; [|done]. destruct Ht as (e'&Hk&(a&Ha&_)%earleme_at&_). apply lookup_lt_Some in Ha. pose proof (st_sets _ _ _ (id_store _ _ _ Hid)). lia.
Qed.

(** The tokens that end at the new set. *)
Lemma opened_now j y : state_tokens log r' j y n <-> (j, y, e) ∈ log.
Proof using Hid Hs.
  clear He. unfold state_tokens, tokens. rewrite opened_earlemes. pose proof (st_sets _ _ _ (id_store _ _ _ Hid)) as Hlen. pose proof (id_count _ _ _ Hid). rewrite lookup_app_r by (unfold earlemes; rewrite length_fmap; lia).
  unfold earlemes. rewrite length_fmap. replace (Z.to_nat n - length (t_sets r))%nat with 0%nat by lia. cbn. split; [by intros (e'&_&[= ->]&?)|]. intros Hin. exists e. split; [lia|done].
Qed.

Lemma opened_kept : kept n r r'.
Proof using Hid Hs.
  apply kept_sets; [done|done|]. intros j a Hj Ha. destruct (opened_keeps _ _ Ha) as (a'&Ha'&E). exists a'. split; [done|]. split; [exact (f_equal t_postdot_ary E)|exact (f_equal Postdot_SYM_Count_of_YS E)].
Qed.

Lemma opened_stage : stage t0 allowed (state_tokens log r') n (length (t_yims r)) [] r'.
Proof using Hid He Hs.
  pose proof opened_store as Hst. pose proof (id_store _ _ _ Hid) as Hst0. assert (forall id y, t_yims r !! id = Some y -> (id < length (t_yims r))%nat /\ YS_of_YIM y < n) as Hold by (intros id y Hy; split; [by eapply lookup_lt_Some|]; apply (st_yims _ _ _ Hst0 _ _ Hy)).
  split; [split| | |].
  - split; [done|apply (id_work _ _ _ Hid)|done|cbn; lia| | |].
    + intros id y Hy. destruct (Hold id y Hy). lia.
    + intros id y Hy. destruct (Hold id y Hy). lia.
    + intros a Ha. cbn in Ha. rewrite opened_new in Ha. by injection Ha as <-.
  - apply (lookups_psl _ (t_sets r)); [apply (id_lookups _ _ _ Hid)| |].
    + intros k a Ha. destruct (opened_at k a Ha) as [(a0&Ha0&E)|[-> ->]]; [left|by right]. exists a0. split; [done|]. exact (f_equal Dot_PSL_of_YS E).
    + intros k a Ha. destruct (opened_keeps _ _ Ha) as (a'&Ha'&E). exists a'. split; [done|]. exact (f_equal Dot_PSL_of_YS E).
  - intros _ id y Hy Hk. destruct (Hold id y Hy). lia.
  - intros j x o Hh. eapply item_more; [apply opened_more|]. by apply (id_sound _ _ _ Hid).
  - intros j Hj. apply (settled_more t0 allowed (state_tokens log r)); [apply opened_more|]. apply (kept_settled t0 allowed _ n r r' opened_kept j Hj); [|by apply (id_settled _ _ _ Hid)].
    intros id y Hy. by destruct (st_yims _ _ _ Hst0 _ _ Hy) as [_ [? _] _ _].
  - exact (id_links _ _ _ Hid).
Qed.

Lemma opened_complete (Hen : engine t0) j : 0 <= j < n -> complete_at t0 allowed (state_tokens log r') r' j.
Proof using Hid He Hs.
  intros Hj. assert (complete_at t0 allowed (state_tokens log r') r j) as Hc; [|exact Hc]. apply (complete_before t0 allowed (state_tokens log r) _ n); [done|by apply (tokens_later log r' (n + 1) opened_store opened_log)| |lia|by apply (id_complete _ _ _ Hid)].
  intros j' y k' Hk. by apply opened_tokens.
Qed.
End open.
End idle.

(** * The items of a new set are made

    The tokens that end are read, completions are acted on, predictions made: the set has
    then the items of the input. *)

Section fill.
Context `{HL : Library} (t0 : TABLES) (Hen : engine t0) (allowed : Z -> Prop) (tok : Z -> Z -> Z -> Prop) (Htok : forall j y k, tok j y k -> 0 <= j < k).
#[local] Abbreviation item := (item t0 allowed tok).
#[local] Abbreviation postdot := (postdot t0).
#[local] Abbreviation lhs := (lhs t0).
Context (k : Z) (Hk0 : 0 < k) (base : nat).
Context (Hroom : forall l, NoDup l -> (forall x o, (x, o) ∈ l -> item k x o) -> Z.of_nat (length l) < YIM_FATAL_THRESHOLD).
#[local] Abbreviation stage := (stage t0 allowed tok k base).
#[local] Abbreviation complete_at := (complete_at t0 allowed tok).

(** The four loops. *)
Definition fill (rounds : nat) r (current : Z) : res RECCE :=
  r ← scan_tokens rounds r k current;
  r ← start_completions r;
  r ← complete_loop complete_rounds r k;
  predict r k.

(** The predictions of a set close it. *)
Lemma predicted_closed work5 r5 r6 : stage work5 r5 -> extends r5 r6 -> only_predicted t0 k r5 r6 -> (forall x o i, has r5 k x o -> predicts t0 x i -> has r6 k (first t0 i) k) ->
  forall x o i, has r6 k x o -> 0 <= postdot x -> rule_for t0 (postdot x) i -> has r6 k (first t0 i) k.
Proof using.
  intros Hs He Honly Hpred x o i Hx Hp Hr. destruct (Honly _ _ Hx) as [H5|(->&id&y&i0&Hy&Hyk&Hpr&->)].
  - apply (Hpred x o); [done|]. by exists (postdot x).
  - apply (Hpred (AHM_of_YIM y) (Origin_of_YIM y)); [exists id, y; unfold key; by rewrite Hyk|]. by apply predicts_trans with i0.
Qed.

(** Every completion of the set has been acted on. *)
Lemma acted_done work5 r5 work6 r6 D : stage work5 r5 -> stage work6 r6 -> extends r5 r6 -> only_predicted t0 k r5 r6 -> agenda t0 k base r5 D [] -> acted t0 k r5 D ->
  forall c j, has r6 k c j -> postdot c < 0 -> done t0 k r6 (lhs c) j.
Proof using Hen.
  intros Hs5 Hs6 He Honly Hag Hact c j Hc Hd. pose proof (extends_kept t0 k base work5 work6 r5 r6 (bd_making _ _ _ _ _ (sg_building _ _ _ _ _ _ _ Hs5)) (bd_making _ _ _ _ _ (sg_building _ _ _ _ _ _ _ Hs6)) He) as Hkept.
  destruct (Honly _ _ Hc) as [(id&y&Hy&Hkey)|(_&id&y&i&_&_&(z&_&Hr)&->)].
  - unfold key in Hkey. injection Hkey as <- <- Hyk. destruct (origin_before t0 Hen allowed tok k base work5 r5 id y Hs5 Hy Hyk Hd) as [Ho Hlh].
    apply (done_kept t0 allowed tok k r5 r6); [by apply (sg_settled _ _ _ _ _ _ _ Hs5)|done|done|]. apply (Hact id y); [|done|done]. pose proof (ag_all _ _ _ _ _ _ Hag id y Hy Hyk Hd) as Hin. by rewrite app_nil_r in Hin.
  - pose proof (first_item t0 Hen i (proj1 Hr)). lia.
Qed.

Theorem fill_ok rounds current keep now work r : stage work r -> sourced k r -> t_completion_stack r <> None -> t_alternatives r = keep ++ now -> (length now <= rounds)%nat ->
  Forall (fun a => End_Earleme_of_ALT a = current /\ 0 <= NSYID_of_ALT a /\ tok (Start_YS_of_ALT a) (NSYID_of_ALT a) k) now -> Forall (fun a => current < End_Earleme_of_ALT a) keep ->
  (forall j, 0 <= j < k -> complete_at r j) -> (forall j y, tok j y k -> exists a, a ∈ now /\ Start_YS_of_ALT a = j /\ NSYID_of_ALT a = y) ->
  ends_in (fill rounds r current) (fun r' => (exists work, stage work r') /\ (forall j, 0 <= j <= k -> complete_at r' j) /\ kept k r r' /\ rest_of_scan r' = rest_of_scan r /\ t_alternatives r' = keep /\ t_completion_stack r' <> None).
Proof using HL Hen Htok Hk0 Hroom.
  intros Hs Hsrc Hcs Halt Hrounds Hnow Hkeep Hbefore Hall. unfold fill.
  destruct (scan_tokens_ok t0 Hen allowed tok Htok k Hk0 base Hroom current now Hnow keep r rounds Hkeep Halt Hrounds ltac:(by exists work) Hsrc) as (r3&->&(work3&Hs3)&Hsrc3&Hk3&Hrest3&Halt3&Hcs3&Hmoved). cbn [mbind res_bind].
  destruct (start_completions_ok t0 Hen allowed tok k base work3 r3 Hs3) as (r4&->&S&->&Hag4); [by rewrite Hcs3|]. cbn [mbind res_bind]. destruct (stage_completions t0 allowed tok k base work3 r3 (Some S) Hs3) as [Hs4 He4]. set (r4 := set_t_completion_stack (Some S) r3) in *.
  destruct (complete_loop_ok t0 Hen allowed tok Htok k Hk0 base Hroom complete_rounds work3 r4 [] S Hs4 Hsrc3 Hag4) as (r5&->&((work5&Hs5)&Hsrc5&He5)&D&Hag5&Hact5); [by intros id y ?%not_elem_of_nil|unfold complete_rounds; cbn [length]; lia|]. cbn [mbind res_bind].
  destruct (predict_ok t0 Hen allowed tok Htok k Hk0 base Hroom work5 r5 Hs5) as (r6&->&(work6&Hs6)&He6&Hcs6&Honly&Hpred). apply ends_Ok. assert (extends r3 r6) as He36 by (transitivity r4; [done|by transitivity r5]).
  assert (forall r1 r2 w1 w2, stage w1 r1 -> stage w2 r2 -> extends r1 r2 -> kept k r1 r2) as Hext by (intros r1 r2 w1 w2 H1 H2 He; apply (extends_kept t0 k base w1 w2); [apply H1|apply H2|done]).
  assert (kept k r r6) as Hk6 by (transitivity r3; [done|by apply (Hext r3 r6 work3 work6)]).
  assert (forall j, 0 <= j < k -> complete_at r6 j) as Hbefore6. { intros j Hj x o Hi. destruct (Hbefore j Hj x o Hi) as [Hh|?]; [left; by apply (kept_has k r r6)|by right]. }
  split; [by exists work6|]. split; [|split; [done|split; [|split]]].
  - intros j Hj. destruct (decide (j = k)) as [->|]; [|apply Hbefore6; lia]. intros x o Hi. refine (proj1 (set_complete t0 Hen allowed tok Htok k Hk0 base work6 r6 Hs6 Hbefore6 _ _ _ k x o Hi eq_refl)).
    + intros j x' o' Hi' Hp Ht. destruct (Hall j _ Ht) as (a&Ha&<-&Hy). destruct (complete_waits t0 allowed tok r _ x' o' (Hbefore _ (Htok _ _ _ Ht)) Hi' Hp) as (id&y&Hyy&Hkey). unfold key in Hkey. injection Hkey as E1 E2 E3. rewrite <- E1, <- E2.
      apply (has_extends r3 r6 _ _ _ He36), (Hmoved a id y Ha); [|done]. exists y. split; [done|]. split; [done|]. by rewrite E1.
    + by apply (acted_done work5 r5 work6 r6 D).
    + by apply (predicted_closed work5 r5).
  - unfold rest_of_scan in *. rewrite <- Hrest3. f_equal; [f_equal; [exact (f_equal (set_t_alternatives []) (ex_rest _ _ He36))|exact (ex_sets _ _ He36)]|exact (ex_arena _ _ He36)].
  - rewrite <- Halt3. exact (f_equal t_alternatives (ex_rest _ _ He36)).
  - by rewrite Hcs6, (ag_stack _ _ _ _ _ _ Hag5).
Qed.
End fill.

(** * A set is closed

    Its postdot items have been made; the items are put in their order, events are added: the
    set is as the next ones need it. *)

(** What closing a set does not change. *)
Definition shut (r : RECCE) : RECCE :=
  set_t_tables (strip (t_tables r)) (set_t_sets [] (set_t_yim_work_stack None (set_R_is_Exhausted false (set_Input_Phase_of_R 0 r)))).

Record closed (k : Z) (work : list Z) (r r' : RECCE) : Prop := {
  cl_shut : shut r' = shut r;
  cl_arena : cilar_of (t_tables r') = cilar_of (t_tables r);
  cl_sets : exists s, t_sets r !! Z.to_nat k = Some s /\ t_sets r' = <[Z.to_nat k := set_YIMs_of_YS (Some (Some <$> work)) s]> (t_sets r);
  cl_work : t_yim_work_stack r' = Some []
}.

Lemma closed_emitted k work r r1 l r2 : closed k work r r1 -> emitted r1 l r2 -> closed k work r r2.
Proof. intros [H1 H2 H3 H4] ->. by split. Qed.

Section close.
Context (t0 : TABLES) (Hen : engine t0) (allowed : Z -> Prop) (tok : Z -> Z -> Z -> Prop) (Htok : forall j y k, tok j y k -> 0 <= j < k).
#[local] Abbreviation nsys := (NSY_Count_of_G (t_internal t0)).
#[local] Abbreviation postdot := (postdot t0).
Context (k : Z) (Hk0 : 0 <= k) (base : nat) (work : list Z) (r0 : RECCE) (Hs : stage t0 allowed tok k base work r0) (s0 : YS) (Hs0 : t_sets r0 !! Z.to_nat k = Some s0).
Context (Hall : forall j, 0 <= j <= k -> complete_at t0 allowed tok r0 j).
Context (c0 : Z) (r : RECCE) (Hr : settled_to t0 allowed tok k r0 s0 c0 r).

Lemma settled_set : exists s, t_sets r !! Z.to_nat k = Some s /\ ys_view s = ys_view (set_t_postdot_ary (t_postdot_ary s) (set_Postdot_SYM_Count_of_YS (Postdot_SYM_Count_of_YS s) s0)) /\ YIM_Count_of_YS s = YIM_Count_of_YS s0 /\ Dot_PSL_of_YS s = Dot_PSL_of_YS s0.
Proof using Hr Hs0.
  destruct (so_sets _ _ _ _ _ _ _ _ Hr) as (ary&n&E). rewrite E. eexists. split; [apply list_lookup_insert_eq; by eapply lookup_lt_Some|]. done.
Qed.

(** A set after, seen before. *)
Lemma settled_fmap {A} (f : YS -> A) : (forall a n s, f (set_t_postdot_ary a (set_Postdot_SYM_Count_of_YS n s)) = f s) -> f <$> t_sets r = f <$> t_sets r0.
Proof using Hr Hs0.
  intros Hf. destruct (so_sets _ _ _ _ _ _ _ _ Hr) as (ary&n&E). rewrite E, list_fmap_insert, Hf. apply list_insert_id. by rewrite list_lookup_fmap, Hs0.
Qed.

Lemma settled_rest : rest_of_set r = rest_of_set r0.
Proof using Hr. apply Hr. Qed.

Lemma settled_strip : strip (t_tables r) = strip (t_tables r0).
Proof using Hr. exact (f_equal t_tables settled_rest). Qed.

(** The items are still those that were made. *)
Lemma close_making r1 : shut r1 = shut r -> t_sets r1 = t_sets r -> t_yim_work_stack r1 = t_yim_work_stack r -> making t0 k base work r1.
Proof using Hr Hs Hs0.
  intros E1 E2 E3. destruct (bd_making _ _ _ _ _ (sg_building _ _ _ _ _ _ _ Hs)) as [Hst H2 H3 H4 H5 H6 H7].
  assert (t_yims r1 = t_yims r0) as Ey by (transitivity (t_yims r); [exact (f_equal t_yims E1)|apply (so_yims _ _ _ _ _ _ _ _ Hr)]).
  split; rewrite ?Ey; [|rewrite E3; transitivity (t_yim_work_stack r0); [exact (f_equal t_yim_work_stack settled_rest)|done]|done|done|done|done|].
  - apply (store_sets t0 (k + 1) r0); [done| | |rewrite E2; by apply settled_fmap|rewrite E2; by apply settled_fmap|done].
    + transitivity (strip (t_tables r)); [exact (f_equal t_tables E1)|apply settled_strip].
    + transitivity (t_earley_set_count r); [exact (f_equal t_earley_set_count E1)|exact (f_equal t_earley_set_count settled_rest)].
  - intros s E. rewrite E2 in E. destruct settled_set as (s'&E'&_&Hc&_). rewrite E' in E. injection E as ->. rewrite Hc. by apply H7.
Qed.

Context (r' : RECCE) (Hc : closed k work r r').

Lemma close_fmap {A} (f : YS -> A) : (forall a n s, f (set_t_postdot_ary a (set_Postdot_SYM_Count_of_YS n s)) = f s) -> (forall v s, f (set_YIMs_of_YS v s) = f s) -> f <$> t_sets r' = f <$> t_sets r0.
Proof using Hr Hs0 Hc.
  intros Hf Hg. rewrite <- (settled_fmap f Hf). destruct (cl_sets _ _ _ _ Hc) as (s&Es&E). rewrite E, list_fmap_insert, Hg. apply list_insert_id. by rewrite list_lookup_fmap, Es.
Qed.

Lemma close_yims : t_yims r' = t_yims r0.
Proof using Hr Hc. transitivity (t_yims r); [exact (f_equal t_yims (cl_shut _ _ _ _ Hc))|apply (so_yims _ _ _ _ _ _ _ _ Hr)]. Qed.

Lemma close_pims : t_pims r' = t_pims r.
Proof using Hc. exact (f_equal t_pims (cl_shut _ _ _ _ Hc)). Qed.

Lemma close_strip : strip (t_tables r') = strip t0.
Proof using Hr Hc Hs.
  rewrite <- (st_tables _ _ _ (stage_store _ _ _ _ _ _ _ Hs)). transitivity (strip (t_tables r)); [exact (f_equal t_tables (cl_shut _ _ _ _ Hc))|apply settled_strip].
Qed.

Lemma close_store : store t0 (k + 1) r'.
Proof using Hr Hs Hs0 Hc.
  apply (store_sets t0 (k + 1) r0); [by apply (stage_store _ _ _ _ _ _ _ Hs)| | |by apply close_fmap|by apply close_fmap|apply close_yims].
  - rewrite close_strip. symmetry. apply (st_tables _ _ _ (stage_store _ _ _ _ _ _ _ Hs)).
  - transitivity (t_earley_set_count r); [exact (f_equal t_earley_set_count (cl_shut _ _ _ _ Hc))|exact (f_equal t_earley_set_count settled_rest)].
Qed.

Lemma close_earlemes : earlemes r' = earlemes r0.
Proof using Hr Hs0 Hc. by apply close_fmap. Qed.

Lemma close_has j x o : has r' j x o <-> has r0 j x o.
Proof using Hr Hc. unfold has. by rewrite close_yims. Qed.

(** Nothing changes for the sets that are done, the new one among them. *)
Lemma close_kept : kept (k + 1) r r'.
Proof using Hc.
  apply kept_sets; [apply close_pims|exact (f_equal t_yims (cl_shut _ _ _ _ Hc))|]. intros j s Hj Hsj. destruct (cl_sets _ _ _ _ Hc) as (sk&Esk&E). rewrite E. destruct (decide (Z.to_nat j = Z.to_nat k)) as [Ejk|Hne].
  - rewrite Ejk in *. eexists. split; [apply list_lookup_insert_eq; by eapply lookup_lt_Some|]. rewrite Esk in Hsj. by injection Hsj as ->.
  - exists s. by rewrite list_lookup_insert_ne.
Qed.

Lemma close_settled j : 0 <= j <= k -> settled t0 allowed tok r' j.
Proof using Hr Hs Hs0 Hc.
  intros Hj. assert (forall id y, t_yims r0 !! id = Some y -> 0 <= Origin_of_YIM y <= YS_of_YIM y) as Hord by (intros id y Hy; apply (st_yims _ _ _ (stage_store _ _ _ _ _ _ _ Hs) _ _ Hy)).
  apply (kept_settled t0 allowed tok (k + 1) r r' close_kept j ltac:(lia)); [intros id y; rewrite (so_yims _ _ _ _ _ _ _ _ Hr); apply Hord|].
  destruct (decide (j = k)) as [->|]; [apply (so_settled _ _ _ _ _ _ _ _ Hr)|]. apply (kept_settled t0 allowed tok k r0 r (so_kept _ _ _ _ _ _ _ _ Hr) j ltac:(lia) Hord). apply (sg_settled _ _ _ _ _ _ _ Hs). lia.
Qed.

Lemma close_complete j : 0 <= j <= k -> complete_at t0 allowed tok r' j.
Proof using Hr Hc Hall. intros Hj x o Hi. rewrite close_has. by apply Hall. Qed.

Lemma close_sound j x o : has r' j x o -> item t0 allowed tok j x o.
Proof using Hr Hc Hs. rewrite close_has. apply (sg_sound _ _ _ _ _ _ _ Hs). Qed.

Lemma close_links : links_ok t0 r'.
Proof using Hr Hc Hs.
  intros i y l. rewrite close_yims, close_pims. intros Hy Hl. destruct (sg_links _ _ _ _ _ _ _ Hs i y l Hy Hl) as (p&lim&c&H1&H2&H3). exists p, lim, c. split; [done|]. split; [|done]. by apply (kept_pim k r0 r (so_kept _ _ _ _ _ _ _ _ Hr)).
Qed.

Lemma close_lookups : lookups (ahms t0) (t_sets r') (t_yims r') (t_dot_psar_object r').
Proof using Hr Hc Hs Hs0.
  rewrite close_yims. assert (t_dot_psar_object r' = t_dot_psar_object r0) as -> by (transitivity (t_dot_psar_object r); [exact (f_equal t_dot_psar_object (cl_shut _ _ _ _ Hc))|exact (f_equal t_dot_psar_object settled_rest)]).
  pose proof (close_fmap Dot_PSL_of_YS ltac:(done) ltac:(done)) as E. apply (lookups_psl _ (t_sets r0)); [apply (sg_building _ _ _ _ _ _ _ Hs)| |].
  - intros j s Hj. left. pose proof (f_equal (lookup j) E) as Ej. rewrite !list_lookup_fmap, Hj in Ej. symmetry in Ej. apply fmap_Some in Ej as (s'&Hs'&Ej). by exists s'.
  - intros j s Hj. pose proof (f_equal (lookup j) E) as Ej. rewrite !list_lookup_fmap, Hj in Ej. apply fmap_Some in Ej as (s'&Hs'&Ej). by exists s'.
Qed.

Lemma close_areas : areas t0 r'.
Proof using Hr Hc.
  destruct (so_areas _ _ _ _ _ _ _ _ Hr) as [H1 H2 H3 H4 H5 H6]. pose proof (cl_shut _ _ _ _ Hc) as E. split.
  - rewrite (f_equal t_bv_pim_symbols E : t_bv_pim_symbols r' = t_bv_pim_symbols r). done.
  - rewrite (f_equal t_bv_lim_symbols E : t_bv_lim_symbols r' = t_bv_lim_symbols r). done.
  - rewrite (f_equal t_pim_workarea E : t_pim_workarea r' = t_pim_workarea r). done.
  - rewrite (f_equal t_lim_chain E : t_lim_chain r' = t_lim_chain r). done.
  - rewrite (f_equal t_bv_nsyid_is_expected E : t_bv_nsyid_is_expected r' = t_bv_nsyid_is_expected r). done.
  - rewrite (f_equal t_nsy_expected_is_event E : t_nsy_expected_is_event r' = t_nsy_expected_is_event r). done.
Qed.

(** The expected symbols: the terminals that an item of the input waits for. *)
Definition expecting (log_tok : Z -> Z -> Z -> Prop) (j : Z) (v : Bit_Vector) : Prop := exists E, bv_rep v nsys E
  /\ forall A, A ∈ E <-> 0 <= A < nsys /\ (exists x o, item t0 allowed log_tok j x o /\ postdot x = A) /\ terminal_symbol t0 A.

Lemma close_expecting : expecting tok k (t_bv_nsyid_is_expected r').
Proof using Hr Hc Hs Hall Hk0.
  clear Htok Hen Hs0. destruct (so_expects _ _ _ _ _ _ _ _ Hr) as (E&HE&Hin). exists E. assert (t_bv_nsyid_is_expected r' = t_bv_nsyid_is_expected r) as -> by exact (f_equal t_bv_nsyid_is_expected (cl_shut _ _ _ _ Hc)). split; [done|]. intros A. rewrite Hin.
  assert (0 <= A -> (exists id, waits t0 r k A id) <-> exists x o, item t0 allowed tok k x o /\ postdot x = A) as Hw; [|split; intros (HA&Hw'&Ht); (split; [done|]); (split; [apply Hw; [lia|done]|done])].
  intros HA. split.
  - intros (id&y&Hy&Hyk&Hp). rewrite (so_yims _ _ _ _ _ _ _ _ Hr) in Hy. exists (AHM_of_YIM y), (Origin_of_YIM y). split; [|done]. apply (sg_sound _ _ _ _ _ _ _ Hs). exists id, y. split; [done|]. unfold key. by rewrite Hyk.
  - intros (x&o&Hi&Hp). destruct (complete_waits t0 allowed tok r0 k x o (Hall k ltac:(lia)) Hi ltac:(lia)) as (id&y&Hy&Hkey). unfold key in Hkey. injection Hkey as E1 E2 E3. exists id, y. rewrite (so_yims _ _ _ _ _ _ _ _ Hr). split; [done|]. split; congruence.
Qed.

(** The events of the set. *)
Lemma close_trigger `{HL : Library} junk C N P : t_latest_earley_set r' = Some k -> active_events t0 r' C N P ->
  ends_in (trigger_events junk r') (fun r2 => exists l1 l2 l3,
    emitted r' ((pair MARPA_EVENT_SYMBOL_COMPLETED <$> l1) ++ (pair MARPA_EVENT_SYMBOL_NULLED <$> l2) ++ (pair MARPA_EVENT_SYMBOL_PREDICTED <$> l3)) r2
    /\ event_symbols t0 r' k Completion_XSYIDs_of_AHM C l1 /\ event_symbols t0 r' k Nulled_XSYIDs_of_AHM N l2 /\ event_symbols t0 r' k Prediction_XSYIDs_of_AHM P l3).
Proof using Hr Hc Hs Hs0 Hen Hk0.
  intros Hlatest Hact. destruct (bd_making _ _ _ _ _ (sg_building _ _ _ _ _ _ _ Hs)) as [Hst H2 H3 H4 H5 H6 H7]. destruct (cl_sets _ _ _ _ Hc) as (s&Es&E). destruct settled_set as (s'&Es'&_&Hcount&_). rewrite Es in Es'. injection Es' as <-.
  apply (trigger_events_ok t0 Hen junk r' k (set_YIMs_of_YS (Some (Some <$> work)) s) base work C N P); [apply close_strip|apply close_links|done|done| |done| |done| |by rewrite close_yims|done].
  - rewrite E. apply list_lookup_insert_eq. by eapply lookup_lt_Some.
  - cbn. rewrite Hcount. by apply H7.
  - rewrite close_yims. intros id y Hy. split; [apply (st_yims _ _ _ Hst _ _ Hy)|by apply H5].
Qed.
End close.

(** * A set is made ([earleme_set])

    From a recognizer between two calls to the next one: the set of the tokens that end at
    the current earleme is opened, filled and closed. *)

(** What a set does not change. *)
Definition frame (r : RECCE) : RECCE :=
  set_t_tables (strip (t_tables r)) (set_t_sets [] (set_t_yims [] (set_t_pims [] (set_t_dot_psar_object psar_safe (set_t_yim_work_stack None (set_t_completion_stack None (set_t_alternatives []
    (set_t_pim_workarea [] (set_t_bv_pim_symbols None (set_t_bv_lim_symbols None (set_t_lim_chain [] (set_t_bv_nsyid_is_expected (BV [] 0) (set_t_latest_earley_set None (set_t_earley_set_count 0
      (set_R_is_Exhausted false (set_Input_Phase_of_R 0 r)))))))))))))))).

Lemma bv_count_ok fuel v n S : bv_rep v n S -> n <= Z.of_nat fuel -> bv_count fuel v = Ok (Z.of_nat (size S), v).
Proof.
  intros Hv Hf. unfold bv_count. rewrite (bv_count_from fuel v n S 0 0 Hv) by (unfold INT_MAX; lia). do 2 f_equal. fold (elems n S). rewrite elems_size by (apply Hv). lia.
Qed.

Lemma bv_rep_inj v n S T : bv_rep v n S -> bv_rep v n T -> S = T.
Proof.
  intros HS HT. assert (forall i, 0 <= i < n -> i ∈ S <-> i ∈ T) as Hin.
  { intros i Hi. pose proof (bv_bit_test_ok v n S i HS Hi) as E1. rewrite (bv_bit_test_ok v n T i HT Hi) in E1. injection E1 as E1. by apply bool_decide_eq_bool in E1 || (destruct (bool_decide_reflect (i ∈ S)), (bool_decide_reflect (i ∈ T)); done). }
  apply set_eq. intros i. split; intros Hi; apply Hin; eauto using br_elems.
Qed.

(** The tokens that end first. *)
Lemma split_alternatives l e : StronglySorted alt_before l -> Forall (fun a => e <= End_Earleme_of_ALT a) l ->
  exists keep now, l = keep ++ now /\ Forall (fun a => e < End_Earleme_of_ALT a) keep /\ Forall (fun a => End_Earleme_of_ALT a = e) now.
Proof.
  induction 1 as [|a l Hl IH Ha]; intros Hge; [by exists [], []|]. apply Forall_cons in Hge as [Hea Hge]. destruct (decide (e < End_Earleme_of_ALT a)) as [Hlt|Hnlt].
  - destruct (IH Hge) as (keep&now&->&Hk&Hn). exists (a :: keep), now. split; [done|]. split; [by constructor|done].
  - exists [], (a :: l). split; [done|]. split; [done|]. constructor; [lia|]. rewrite Forall_forall in *. intros b Hb. specialize (Ha b Hb). specialize (Hge b Hb). unfold alt_before in Ha. lia.
Qed.

Lemma sorted_prefix {A} (R : A -> A -> Prop) l1 l2 : StronglySorted R (l1 ++ l2) -> StronglySorted R l1.
Proof. induction l1 as [|x l1 IH]; intros Hs; [constructor|]. inversion Hs as [|? ? Hs' Hx]; subst. apply Forall_app in Hx as [Hx _]. constructor; [by apply IH|done]. Qed.

Section set.
Context `{HL : Library} (junk : nat -> list Z).
Context (t0 : TABLES) (Hen : engine t0) (allowed : Z -> Prop) (c0 : Z) (Hc0 : c0 < 2 ^ 62).
#[local] Abbreviation nsys := (NSY_Count_of_G (t_internal t0)).
#[local] Abbreviation xsys := (XSY_Count_of_G (g_of t0)).
#[local] Abbreviation idle_at := (idle_at t0 allowed c0).

(** The items of the set [k] are fewer than the limit. *)
Definition roomy (tok : Z -> Z -> Z -> Prop) (k : Z) : Prop :=
  forall l, NoDup l -> (forall x o, (x, o) ∈ l -> item t0 allowed tok k x o) -> Z.of_nat (length l) < YIM_FATAL_THRESHOLD.

(** The vectors of events and values are those of the frame. *)
Lemma frame_events r r' : frame r' = frame r -> (exists C N P, active_events t0 r C N P) -> exists C N P, active_events t0 r' C N P.
Proof using.
  clear. intros E (C&N&P&[H1 H2 H3]). exists C, N, P. split.
  - rewrite (f_equal t_completion_event_is_active E : t_completion_event_is_active r' = t_completion_event_is_active r). done.
  - rewrite (f_equal t_nulled_event_is_active E : t_nulled_event_is_active r' = t_nulled_event_is_active r). done.
  - rewrite (f_equal t_prediction_event_is_active E : t_prediction_event_is_active r' = t_prediction_event_is_active r). done.
Qed.

Lemma frame_valued r r' : frame r' = frame r -> valued_ok t0 r -> valued_ok t0 r'.
Proof using.
  clear. intros E [H1 H2 H3 H4 H5]. split.
  - rewrite (f_equal t_valued_terminal E : t_valued_terminal r' = t_valued_terminal r). done.
  - rewrite (f_equal t_unvalued_terminal E : t_unvalued_terminal r' = t_unvalued_terminal r). done.
  - rewrite (f_equal t_valued E : t_valued r' = t_valued r). done.
  - rewrite (f_equal t_unvalued E : t_unvalued r' = t_unvalued r). done.
  - rewrite (f_equal t_valued_locked E : t_valued_locked r' = t_valued_locked r). done.
Qed.

(** The number of lists stays in the arena. *)
Lemma arena_room n : n <= JEARLEME_THRESHOLD -> 0 <= n -> c0 + n * nsys + nsys < SIZE_MOD - 1.
Proof using Hen Hc0.
  clear allowed. intros Hn Hn0. pose proof (en_symbols _ Hen) as [? Hs]. change JEARLEME_THRESHOLD with 536870911 in Hn. change INT_MAX with 2147483647 in Hs. change SIZE_MOD with 18446744073709551616.
  assert (n * nsys <= 536870911 * nsys) by (apply Z.mul_le_mono_nonneg_r; lia). lia.
Qed.

(** No token can be read at the set [k], and none that was read ends later. *)
Definition no_more (log : LOG) (r : RECCE) (k : Z) : Prop :=
  t_alternatives r = [] /\ forall A x o, 0 <= A < nsys -> terminal_symbol t0 A -> item t0 allowed (state_tokens log r) k x o -> postdot t0 x <> A.

(** What the making of a set does. *)
Record set_made (e : Z) (log : LOG) (r r' : RECCE) : Prop := {
  sm_idle : idle_at e log r';
  sm_frame : frame r' = frame r;
  sm_count : t_earley_set_count r' = t_earley_set_count r + 1;
  sm_earlemes : earlemes r' = earlemes r ++ [e];
  sm_kept : kept (t_earley_set_count r) r r';
  sm_alternatives : exists now, t_alternatives r = t_alternatives r' ++ now /\ Forall (fun a => End_Earleme_of_ALT a = e) now;
  sm_expecting : expecting t0 allowed (state_tokens log r') (t_earley_set_count r) (t_bv_nsyid_is_expected r');
  sm_phase : (no_more log r' (t_earley_set_count r) /\ Input_Phase_of_R r' = R_AFTER_INPUT /\ R_is_Exhausted r' = true)
    \/ (~ no_more log r' (t_earley_set_count r) /\ Input_Phase_of_R r' = Input_Phase_of_R r /\ R_is_Exhausted r' = R_is_Exhausted r)
}.

(** A set that has been closed gives a recognizer between two calls. *)
Lemma closed_idle e log r r2 r6 r7 r' base work s0 : idle_at (e - 1) log r -> 0 < e -> log_ok t0 log r2 -> t_earley_set_count r2 = t_earley_set_count r + 1 -> earlemes r2 = earlemes r ++ [e] -> 
  (forall j y k, state_tokens log r2 j y k -> 0 <= j < k) -> t_latest_earley_set r2 = Some (t_earley_set_count r) ->
  stage t0 allowed (state_tokens log r2) (t_earley_set_count r) base work r6 -> t_sets r6 !! Z.to_nat (t_earley_set_count r) = Some s0 -> rest_of_scan r6 = rest_of_scan r2 -> frame r2 = frame r -> t_completion_stack r6 <> None ->
  (forall j, 0 <= j <= t_earley_set_count r -> complete_at t0 allowed (state_tokens log r2) r6 j) ->
  (exists now, t_alternatives r = t_alternatives r6 ++ now /\ Forall (fun a => End_Earleme_of_ALT a = e) now) -> Forall (fun a => e < End_Earleme_of_ALT a) (t_alternatives r6) ->
  settled_to t0 allowed (state_tokens log r2) (t_earley_set_count r) r6 s0 (c0 + t_earley_set_count r * nsys) r7 -> closed (t_earley_set_count r) work r7 r' ->
  idle_at e log r' /\ earlemes r' = earlemes r ++ [e] /\ frame r' = frame r.
Proof using Hen.
  intros Hid He Hlog2 Hcount2 Hear2 Htok Hlat2 Hs Hs0 Hrest Hfr2 Hcs Hall (now&Halt&Hnow) Hlater Hset Hcl. set (n := t_earley_set_count r) in *. pose proof (id_count _ _ _ _ _ _ Hid) as Hn. fold n in Hn.
  assert (frame r' = frame r) as Hfr.
  { transitivity (frame r7); [exact (f_equal frame (cl_shut _ _ _ _ Hcl))|]. transitivity (frame r6); [exact (f_equal frame (so_rest _ _ _ _ _ _ _ _ Hset))|]. transitivity (frame r2); [|done]. exact (f_equal frame (f_equal (fun p => p.1.1) Hrest)). }
  assert (earlemes r' = earlemes r2) as Hear. { transitivity (earlemes r6); [by eapply close_earlemes|]. pose proof (f_equal (fun p => Earleme_of_YS <$> p.1.2) Hrest) as E. cbn in E. unfold earlemes. rewrite <- !list_fmap_compose in E. exact E. }
  assert (state_tokens log r' = state_tokens log r2) as Etok by (unfold state_tokens; by rewrite Hear).
  assert (t_alternatives r' = t_alternatives r6) as Ealt by (transitivity (t_alternatives r7); [exact (f_equal t_alternatives (cl_shut _ _ _ _ Hcl))|exact (f_equal t_alternatives (so_rest _ _ _ _ _ _ _ _ Hset))]).
  assert (t_latest_earley_set r' = Some n) as Elat.
  { rewrite <- Hlat2. transitivity (t_latest_earley_set r7); [exact (f_equal t_latest_earley_set (cl_shut _ _ _ _ Hcl))|]. transitivity (t_latest_earley_set r6); [exact (f_equal t_latest_earley_set (so_rest _ _ _ _ _ _ _ _ Hset))|]. exact (f_equal (fun p => t_latest_earley_set p.1.1) Hrest). }
  assert (store t0 (n + 1) r') as Hst by (by eapply close_store). pose proof (st_count _ _ _ Hst) as Ecount.
  split; [|split; [by rewrite Hear|done]].
  split; rewrite ?Ecount, ?Etok; try done.
  - lia.
  - rewrite Elat. f_equal. lia.
  - intros k s Hk. assert (earlemes r' !! k = Some (Earleme_of_YS s)) as Ek by (apply earleme_at; by exists s). rewrite Hear, Hear2 in Ek. apply lookup_app_Some in Ek as [Ek|[_ Ek]].
    + apply earleme_at in Ek as (a&Ha&<-). pose proof (id_times _ _ _ _ _ _ Hid _ _ Ha). lia.
    + apply list_lookup_singleton_Some in Ek as [_ <-]. lia.
  - by eapply close_lookups.
  - intros j x o. by eapply close_sound.
  - intros j Hj. eapply close_complete; [exact Hall|exact Hset|exact Hcl|lia].
  - intros j Hj. eapply close_settled; [exact Hs|exact Hs0|exact Hset|exact Hcl|lia].
  - by eapply close_links.
  - by eapply close_areas.
  - rewrite (cl_arena _ _ _ _ Hcl). eapply held_le; [apply (so_arena _ _ _ _ _ _ _ _ Hset)|]. lia.
  - apply (cl_work _ _ _ _ Hcl).
  - assert (t_completion_stack r' = t_completion_stack r6) as ->; [|done]. transitivity (t_completion_stack r7); [exact (f_equal t_completion_stack (cl_shut _ _ _ _ Hcl))|exact (f_equal t_completion_stack (so_rest _ _ _ _ _ _ _ _ Hset))].
  - rewrite (f_equal t_bv_irl_seen Hfr : t_bv_irl_seen r' = t_bv_irl_seen r). apply Hid.
  - intros j y e' Hin. destruct (Hlog2 _ _ _ Hin) as (Hy&Hj&s&Hsj&Hlt). do 2 (split; [done|]). assert (earlemes r' !! Z.to_nat j = Some (Earleme_of_YS s)) as Ej by (rewrite Hear; apply earleme_at; by exists s). apply earleme_at in Ej as (s'&Hs'&E). exists s'. split; [done|lia].
  - rewrite Ealt. pose proof (id_sorted _ _ _ _ _ _ Hid) as Hsd. rewrite Halt in Hsd. by eapply sorted_prefix.
  - intros a Ha. rewrite Ealt in Ha. destruct (id_alternatives _ _ _ _ _ _ Hid a) as [Hl Hb]; [rewrite Halt; apply elem_of_app; by left|]. rewrite (f_equal t_furthest_earleme Hfr : t_furthest_earleme r' = t_furthest_earleme r). rewrite Forall_forall in Hlater. pose proof (Hlater a Ha). split; [done|lia].
  - intros j y e' Hin He'. destruct (id_waiting _ _ _ _ _ _ Hid j y e' Hin ltac:(lia)) as (a&Ha&Et). exists a. split; [|done]. rewrite Ealt. rewrite Halt in Ha. apply elem_of_app in Ha as [Ha|Ha]; [done|].
    rewrite Forall_forall in Hnow. pose proof (Hnow a Ha). unfold alt_token in Et. injection Et as _ _ Ee. lia.
  - rewrite (f_equal t_furthest_earleme Hfr : t_furthest_earleme r' = t_furthest_earleme r). apply Hid.
  - apply (frame_events r r' Hfr). apply Hid.
  - apply (frame_valued r r' Hfr). apply Hid.
  - rewrite (f_equal t_first_inconsistent_ys Hfr : t_first_inconsistent_ys r' = t_first_inconsistent_ys r). apply Hid.
Qed.

Lemma kept_le k k' r r' : kept k' r r' -> k <= k' -> kept k r r'.
Proof using.
  clear. intros [H1 (l&H2&H3) H4] Hle. split; [done| |intros j s Hj; apply H4; lia]. exists l. split; [done|]. intros q Hq. specialize (H3 q Hq). lia.
Qed.

(** Reading the work areas after the items have been made. *)
Lemma areas_kept r r' : rest_of_scan r' = rest_of_scan r -> areas t0 r -> areas t0 r'.
Proof using.
  clear. intros E [H1 H2 H3 H4 H5 H6]. apply (f_equal (fun p => p.1.1)) in E. cbn [rest_of_scan fst] in E. split.
  - rewrite (f_equal t_bv_pim_symbols E : t_bv_pim_symbols r' = t_bv_pim_symbols r). done.
  - rewrite (f_equal t_bv_lim_symbols E : t_bv_lim_symbols r' = t_bv_lim_symbols r). done.
  - rewrite (f_equal t_pim_workarea E : t_pim_workarea r' = t_pim_workarea r). done.
  - rewrite (f_equal t_lim_chain E : t_lim_chain r' = t_lim_chain r). done.
  - rewrite (f_equal t_bv_nsyid_is_expected E : t_bv_nsyid_is_expected r' = t_bv_nsyid_is_expected r). done.
  - rewrite (f_equal t_nsy_expected_is_event E : t_nsy_expected_is_event r' = t_nsy_expected_is_event r). done.
Qed.

(** The end of the input is told when no symbol is expected. *)
Lemma empty_expecting log r k v S : expecting t0 allowed (state_tokens log r) k v -> bv_rep v nsys S -> (Z.of_nat (size S) <= 0 <-> forall A x o, 0 <= A < nsys -> terminal_symbol t0 A -> item t0 allowed (state_tokens log r) k x o -> postdot t0 x <> A).
Proof using.
  clear. intros (E&HE&Hin) HS. assert (S = E) as -> by (by eapply bv_rep_inj). split.
  - intros Hz A x o HA Ht Hi <-. assert (E = ∅) as Ee by (apply leibniz_equiv, size_empty_inv; lia). assert (postdot t0 x ∈ E) as Hx by (apply Hin; split; [done|]; split; [by exists x, o|done]). rewrite Ee in Hx. by apply not_elem_of_empty in Hx.
  - intros Hno. assert (E = ∅) as ->; [|rewrite size_empty; lia]. apply set_eq. intros A. split; [|by intros ?%not_elem_of_empty]. intros HA. apply Hin in HA as (Hb&(x&o&Hi&Hp)&Ht). by destruct (Hno A x o Hb Ht Hi).
Qed.
Context (Hfuel : (MARPA_AVL_MAX_HEIGHT <= tree_rounds)%nat).

(** The code after the opening of the set. *)
Definition set_rest (set current_earleme : Z) r : res (Z * RECCE) :=
  r ← scan_tokens (length (t_alternatives r)) r set current_earleme;
  r ← start_completions r;
  r ← complete_loop complete_rounds r set;
  r ← predict r set;
  r ← postdot_items_create r (bv_create (NSY_Count_of_G (t_internal (t_tables r)))) set;
  x ← bv_count (nsy_count (t_tables r)) (t_bv_nsyid_is_expected r);
  let r := set_t_bv_nsyid_is_expected x.2 r in
  let r := if (x.1 <=? 0) && (Z.of_nat (length (t_alternatives r)) <=? 0) then exhaust r else r in
  r ← earley_set_update_items r set;
  r ← (if t_active_event_count r >? 0 then trigger_events junk r else Ok r);
  Ok (Z.of_nat (length (t_events (G_of_R r))), r).

Lemma earleme_set_open r e : earleme_set junk r e = (x ← open_set r e; set_rest x.1 e x.2).
Proof using.
  clear. unfold earleme_set, open_set. destruct (earley_set_new r e) as [set1 r1]. destruct (written (t_latest_earley_set r1)) as [l| |]; cbn [mbind res_bind]; [|done..]. by destruct (upd_ys r1 l _).
Qed.

(** The set of the tokens that end at the earleme [e]. *)
Theorem earleme_set_ok e log r a : idle_at (e - 1) log r -> list.last (t_alternatives r) = Some a -> End_Earleme_of_ALT a = e -> roomy (tokens (earlemes r ++ [e]) log) (t_earley_set_count r) ->
  ends_in (earleme_set junk r e) (fun c => set_made e log r c.2 /\ c.1 = Z.of_nat (length (t_events (G_of_R c.2)))).
Proof using HL Hen Hc0 Hfuel.
  intros Hid Hlast Hend Hroom. pose proof (id_count _ _ _ _ _ _ Hid) as Hn. destruct (id_alternatives _ _ _ _ _ _ Hid a) as [_ Hfur]; [by apply last_Some_elem_of|]. pose proof (id_furthest _ _ _ _ _ _ Hid) as Hjm.
  destruct (open_set_eq t0 allowed c0 (e - 1) e log r Hid) as (s&Hs&Hopen). set (n := t_earley_set_count r) in *. set (r2 := set_t_latest_earley_set _ _) in Hopen.
  rewrite earleme_set_open, Hopen. cbn [mbind res_bind fst snd]. unfold set_rest. clear Hopen.
  assert (e - 1 < e) as He1 by lia. pose proof (opened_stage t0 allowed c0 (e - 1) e log r Hid He1 s Hs) as Hs2. pose proof (opened_store t0 allowed c0 (e - 1) e log r Hid He1 s Hs) as Hst2. pose proof (opened_log t0 allowed c0 (e - 1) e log r Hid s Hs) as Hlog2.
  pose proof (opened_earlemes e r s Hs) as Hear2. fold n in Hs2, Hst2, Hlog2, Hear2. fold r2 in Hs2, Hst2, Hlog2, Hear2. set (tok := state_tokens log r2) in *.
  assert (forall j y k, tok j y k -> 0 <= j < k) as Htok by (by apply (tokens_later t0 log r2 (n + 1) Hst2)).
  assert (forall l, NoDup l -> (forall x o, (x, o) ∈ l -> item t0 allowed tok n x o) -> Z.of_nat (length l) < YIM_FATAL_THRESHOLD) as Hroom2 by (unfold tok, state_tokens; rewrite Hear2; exact Hroom).
  destruct (split_alternatives (t_alternatives r) e) as (keep&now&Halt&Hkeep&Hnow); [apply Hid|rewrite Forall_forall; intros b Hb; destruct (id_alternatives _ _ _ _ _ _ Hid b Hb); lia|].
  assert (forall b, b ∈ t_alternatives r -> 0 <= NSYID_of_ALT b /\ (End_Earleme_of_ALT b = e -> tok (Start_YS_of_ALT b) (NSYID_of_ALT b) n)) as Hb.
  { intros b Hb. destruct (id_alternatives _ _ _ _ _ _ Hid b Hb) as [Hl _]. unfold alt_token in Hl. destruct (Hlog2 _ _ _ Hl) as (Hy&_). split; [lia|]. intros E. apply (opened_now t0 allowed c0 (e - 1) e log r Hid s Hs). by rewrite <- E. }
  destruct (fill_ok t0 Hen allowed tok Htok n ltac:(lia) (length (t_yims r)) Hroom2 (length (t_alternatives r2)) e keep now [] r2 Hs2) as (r6&E6&(work&Hs6)&Hall6&Hk6&Hrest6&Halt6&Hcs6).
  { intros id y Hy Hyk. pose proof (st_yims _ _ _ (id_store _ _ _ _ _ _ Hid) id y Hy) as [_ Hyb _ _]. fold n in Hyb. lia. }
  { exact (id_completions _ _ _ _ _ _ Hid). } { exact Halt. } { change (t_alternatives r2) with (t_alternatives r). rewrite Halt, length_app. lia. }
  { rewrite Forall_forall in *. intros b Hbn. specialize (Hb b ltac:(rewrite Halt; apply elem_of_app; by right)). specialize (Hnow b Hbn). tauto. } { done. }
  { intros j Hj. by apply (opened_complete t0 allowed c0 (e - 1) e log r Hid He1 s Hs Hen). }
  { intros j y Hjy. apply (opened_now t0 allowed c0 (e - 1) e log r Hid s Hs) in Hjy. destruct (id_waiting _ _ _ _ _ _ Hid j y e Hjy He1) as (b&Hbin&Ht). exists b. unfold alt_token in Ht. injection Ht as E1 E2 E3. split; [|done].
    rewrite Halt in Hbin. apply elem_of_app in Hbin as [Hbin|]; [|done]. rewrite Forall_forall in Hkeep. specialize (Hkeep b Hbin). lia. }
  unfold fill in E6. apply bind_Ok in E6 as (r3&E3&E6). apply bind_Ok in E6 as (r4&E4&E6). apply bind_Ok in E6 as (r5&E5&E6). rewrite E3. cbn [mbind res_bind]. rewrite E4. cbn [mbind res_bind]. rewrite E5. cbn [mbind res_bind]. rewrite E6. cbn [mbind res_bind]. clear E3 E4 E5 E6 r3 r4 r5.
  pose proof (f_equal (fun p => p.1.1) Hrest6) as HR6. cbn [rest_of_scan fst] in HR6. pose proof (f_equal snd Hrest6) as HC6. cbn [rest_of_scan snd] in HC6. pose proof (f_equal (fun p => p.1.2) Hrest6) as HV6. cbn [rest_of_scan fst snd] in HV6.
  destruct (view_at r2 r6 (Z.to_nat n) _ HV6 (opened_new t0 allowed c0 (e - 1) e log r Hid s)) as (s0&Hs0&Hv0).
  assert (strip (t_tables r6) = strip t0) as Ht6 by apply (stage_store _ _ _ _ _ _ _ Hs6). assert (NSY_Count_of_G (t_internal (t_tables r6)) = nsys) as -> by exact (f_equal (fun t => NSY_Count_of_G (t_internal t)) Ht6).
  assert (0 <= nsys <= INT_MAX) as Hnsys by (pose proof (en_symbols _ Hen); lia).
  destruct (postdot_items_create_ok t0 Hen allowed tok Htok n ltac:(lia) (length (t_yims r)) work r6 Hs6 s0 Hs0 Hall6 (c0 + n * nsys) ltac:(apply arena_room; lia) Hfuel (bv_create nsys) (bv_create_ok nsys Hnsys)) as (r7&->&Hset).
  { apply (areas_kept r2 r6 Hrest6). destruct (id_areas _ _ _ _ _ _ Hid). by split. } { rewrite HC6. exact (id_arena _ _ _ _ _ _ Hid). } { exact (f_equal Postdot_SYM_Count_of_YS Hv0). }
  cbn [mbind res_bind]. destruct (so_expects _ _ _ _ _ _ _ _ Hset) as (S&HS&_). assert (strip (t_tables r7) = strip t0) as Ht7 by (rewrite <- Ht6; exact (f_equal t_tables (so_rest _ _ _ _ _ _ _ _ Hset))).
  rewrite (bv_count_ok _ _ nsys S HS) by (rewrite (same_nsys t0 _ Ht7); unfold nsy_count, NSY_Count_of_G; lia). cbn [mbind res_bind fst snd].
  set (r8 := set_t_bv_nsyid_is_expected (t_bv_nsyid_is_expected r7) r7). assert (r8 = r7) as E8 by (by destruct r7). rewrite E8. clear r8 E8.
  set (none := (Z.of_nat (size S) <=? 0) && (Z.of_nat (length (t_alternatives r7)) <=? 0)). set (r9 := if none then exhaust r7 else r7).
  assert (shut r9 = shut r7 /\ t_sets r9 = t_sets r7 /\ t_yim_work_stack r9 = t_yim_work_stack r7 /\ cilar_of (t_tables r9) = cilar_of (t_tables r7)) as (Hsh9&Hse9&Hwo9&Hci9) by (unfold r9; by destruct none).
  destruct (settled_set t0 allowed tok n r6 s0 Hs0 _ r7 Hset) as (s7&Hs7&_).
  rewrite (update_items_ok t0 n (length (t_yims r)) work r9 s7); [|by eapply close_making|lia|by rewrite Hse9]. cbn [mbind res_bind]. set (r10 := updated r9 n work s7).
  assert (closed n work r7 r10) as Hcl. { split; [exact Hsh9|exact Hci9| |done]. exists s7. split; [done|]. unfold r10. cbn. by rewrite Hse9. }
  assert (frame r2 = frame r) as Hfr2 by reflexivity.
  assert (forall r', closed n work r7 r' -> idle_at e log r' /\ earlemes r' = earlemes r ++ [e] /\ frame r' = frame r) as Hidle.
  { intros r' Hcl'. apply (closed_idle e log r r2 r6 r7 r' (length (t_yims r)) work s0); try done; [lia|by rewrite Halt6; exists now|by rewrite Halt6]. }
  destruct (Hidle r10 Hcl) as (Hid10&Hear10&Hfr10). destruct (id_events _ _ _ _ _ _ Hid10) as (C&N&P&Hact).
  assert (ends_in (if t_active_event_count r10 >? 0 then trigger_events junk r10 else Ok r10) (fun r' => exists l, emitted r10 l r')) as (r11&->&l&Hem).
  { destruct (_ >? 0); [|apply ends_Ok; exists []; apply emitted_nil]. eapply ends_mono; [eapply (close_trigger t0 Hen allowed tok n ltac:(lia) (length (t_yims r)) work r6 Hs6 s0 Hs0 _ r7 Hset r10 Hcl junk C N P); [|done]|]; [|intros r' (l1&l2&l3&Hem&_); by eexists].
    rewrite (id_latest _ _ _ _ _ _ Hid10). f_equal. assert (store t0 (n + 1) r10) as Hst10 by (by eapply close_store). rewrite (st_count _ _ _ Hst10). lia. }
  cbn [mbind res_bind]. apply ends_Ok. cbn [fst snd]. split; [|done]. pose proof (closed_emitted _ _ _ _ _ _ Hcl Hem) as Hcl11. destruct (Hidle r11 Hcl11) as (Hid11&Hear11&Hfr11).
  assert (store t0 (n + 1) r11) as Hst11 by (by eapply close_store). assert (state_tokens log r11 = tok) as Etok by (unfold tok, state_tokens; by rewrite Hear11, Hear2).
  assert (t_alternatives r11 = t_alternatives r7) as Ha11 by exact (f_equal t_alternatives (cl_shut _ _ _ _ Hcl11)).
  assert (t_alternatives r7 = keep) as Ha7 by (rewrite <- Halt6; exact (f_equal t_alternatives (so_rest _ _ _ _ _ _ _ _ Hset))).
  assert (expecting t0 allowed tok n (t_bv_nsyid_is_expected r11)) as Hexp by (eapply close_expecting; [| |exact Hall6| |exact Hcl11]; [lia|exact Hs6|exact Hset]).
  split; [done|done|apply (st_count _ _ _ Hst11)|done| | |by rewrite Etok|].
  - transitivity r2; [exact (opened_kept t0 allowed c0 (e - 1) e log r Hid s Hs)|]. transitivity r6; [done|]. transitivity r7; [apply Hset|]. eapply kept_le; [by eapply close_kept|lia].
  - exists now. split; [by rewrite Ha11, Ha7|done].
  - assert (t_bv_nsyid_is_expected r11 = t_bv_nsyid_is_expected r7) as Ee by exact (f_equal t_bv_nsyid_is_expected (cl_shut _ _ _ _ Hcl11)). rewrite Ee in Hexp. rewrite <- Etok in Hexp. pose proof (empty_expecting log r11 n _ S Hexp HS) as Hempty.
    assert (none = true <-> no_more log r11 n) as Hnone.
    { unfold none, no_more. rewrite andb_true_iff, !Z.leb_le, Ha11, Hempty. split; [intros [H1 H2]; split; [|done]; destruct (t_alternatives r7); [done|cbn in H2; lia]|intros [-> H2]; split; [done|cbn; lia]]. }
    assert (Input_Phase_of_R r11 = Input_Phase_of_R r9 /\ R_is_Exhausted r11 = R_is_Exhausted r9) as [-> ->] by (by rewrite Hem). unfold r9. destruct none.
    + left. split; [by apply Hnone|done].
    + right. split; [by intros ?%Hnone|]. split; [transitivity (Input_Phase_of_R r6); [exact (f_equal Input_Phase_of_R (so_rest _ _ _ _ _ _ _ _ Hset))|exact (f_equal Input_Phase_of_R HR6)]|transitivity (R_is_Exhausted r6); [exact (f_equal R_is_Exhausted (so_rest _ _ _ _ _ _ _ _ Hset))|exact (f_equal R_is_Exhausted HR6)]].
Qed.
End set.
