(* ===== verification/EarleyCalls.v ===== *)
(** * The calls that read input

    [marpa_r_earleme_complete] and [marpa_r_alternative], on every branch. *)
From stdpp Require Import sets gmap list list_numbers relations.
From S2P Require Import Prelude MarpaH Avl Dstack BitVector BitVectorTheorems BitScan Matrix Cil CilTheorems MarpaGrammar Census Rewrite Items Relations ItemsTheorems Recce Earley EarleyStage EarleySteps EarleyPostdot EarleySet.

(** * [marpa_r_earleme_complete]

    On every branch: an error when input is not accepted, or when no token is left; no set
    when none ends at the next earleme; a set otherwise. *)

(** What the opening steps of the calls change. *)
Definition calm (r : RECCE) : RECCE :=
  set_t_tables (strip (t_tables r)) (set_t_sets [] (set_t_dot_psar_object psar_safe (set_t_bv_nsyid_is_expected (BV [] 0) (set_t_bv_irl_seen (BV [] 0) (set_t_current_earleme 0
    (set_R_is_Exhausted false (set_Input_Phase_of_R 0 r))))))).

(** What the calls change. *)
Definition still (r : RECCE) : RECCE :=
  set_t_alternatives [] (set_t_furthest_earleme 0 (set_t_valued_terminal None (set_t_unvalued_terminal None (set_t_valued None (set_t_unvalued None (set_t_valued_locked None (calm r))))))).

Section calls.
Context `{HL : Library} (junk : nat -> list Z).
Context (t0 : TABLES) (Hen : engine t0) (allowed : Z -> Prop) (c0 : Z) (Hc0 : c0 < 2 ^ 62).
#[local] Abbreviation nsys := (NSY_Count_of_G (t_internal t0)).
#[local] Abbreviation irls := (IRL_Count_of_G (t_internal t0)).
#[local] Abbreviation idle_at := (idle_at t0 allowed c0).
#[local] Abbreviation idle := (idle t0 allowed c0).

(** Another state with the same sets, and with tokens that lead to the same sets. *)
Lemma idle_change now log log' r r' : idle_at now log r -> set_t_is_using_leo false (still r') = set_t_is_using_leo false (still r) -> ys_view <$> t_sets r' = ys_view <$> t_sets r -> lookups (ahms t0) (t_sets r') (t_yims r') (t_dot_psar_object r') ->
  cilar_of (t_tables r') = cilar_of (t_tables r) -> (exists S, bv_rep (t_bv_nsyid_is_expected r') nsys S) -> (exists S, bv_rep (t_bv_irl_seen r') irls S) ->
  (forall j y k, state_tokens log' r j y k <-> state_tokens log r j y k) -> log_ok t0 log' r -> StronglySorted alt_before (t_alternatives r') ->
  (forall a, a ∈ t_alternatives r' -> alt_token a ∈ log' /\ now < End_Earleme_of_ALT a <= t_furthest_earleme r') -> (forall j y e, (j, y, e) ∈ log' -> now < e -> exists a, a ∈ t_alternatives r' /\ alt_token a = (j, y, e)) ->
  t_furthest_earleme r' < JEARLEME_THRESHOLD -> valued_ok t0 r' -> idle_at now log' r'.
Proof using.
  clear. intros Hid E Hv Hl Hca Hex Hseen Htk Hlog Hsorted Halt Hwait Hfur Hval.
  assert (t_yims r' = t_yims r) as Ey by exact (f_equal t_yims E). assert (t_pims r' = t_pims r) as Ep by exact (f_equal t_pims E). assert (t_earley_set_count r' = t_earley_set_count r) as Ec by exact (f_equal t_earley_set_count E).
  assert (forall {B} (f : YS -> B), (forall s, f (ys_view s) = f s) -> f <$> t_sets r' = f <$> t_sets r) as Hf.
  { intros B f Hfs. pose proof (f_equal (fmap f) Hv) as E1. rewrite <- !list_fmap_compose in E1. rewrite (list_fmap_ext (f ∘ ys_view) f (t_sets r')), (list_fmap_ext (f ∘ ys_view) f (t_sets r)) in E1 by (intros; apply Hfs). done. }
  assert (state_tokens log' r' = state_tokens log' r) as Etok by (unfold state_tokens; f_equal; by apply Hf).
  assert (kept (t_earley_set_count r) r r') as Hk. { apply kept_sets; [done|done|]. intros j s _ Hs. destruct (view_at r r' _ s Hv Hs) as (s'&Hs'&Es). exists s'. split; [done|]. split; [exact (f_equal t_postdot_ary Es)|exact (f_equal Postdot_SYM_Count_of_YS Es)]. }
  assert (forall j x o, has r' j x o <-> has r j x o) as Hhas by (intros; unfold has; by rewrite Ey).
  split; rewrite ?Ec, ?Etok; try (by apply Hid); try done.
  - apply (store_sets t0 _ r); [apply Hid|exact (f_equal t_tables E)|done|by apply Hf|by apply Hf|done].
  - rewrite (f_equal t_latest_earley_set E : t_latest_earley_set r' = t_latest_earley_set r). apply Hid.
  - intros k s' Hs'. destruct (view_back r r' k s' Hv Hs') as (s&Hs&Es). apply (f_equal Earleme_of_YS) in Es. cbn in Es. rewrite Es. by apply (id_times _ _ _ _ _ _ Hid k).
  - intros j x o. rewrite Hhas. intros Hh. apply (item_more t0 allowed (state_tokens log r)); [by intros ? ? ? ?%Htk|]. by apply Hid.
  - intros j Hj x o Hi. rewrite Hhas. apply (id_complete _ _ _ _ _ _ Hid j Hj). apply (item_more t0 allowed (state_tokens log' r)); [by intros ? ? ? ?%Htk|done].
  - intros j Hj. apply (settled_more t0 allowed (state_tokens log r)); [by intros ? ? ? ?%Htk|]. apply (kept_settled t0 allowed _ (t_earley_set_count r) r r' Hk j Hj); [|by apply (id_settled _ _ _ _ _ _ Hid)].
    intros id y Hy. by destruct (st_yims _ _ _ (id_store _ _ _ _ _ _ Hid) _ _ Hy) as [_ [? _] _ _].
  - intros i y l. rewrite Ey, Ep. apply (id_links _ _ _ _ _ _ Hid).
  - destruct (id_areas _ _ _ _ _ _ Hid) as [H1 H2 H3 H4 _ H6]. split; [| | | |done|].
    + rewrite (f_equal t_bv_pim_symbols E : t_bv_pim_symbols r' = t_bv_pim_symbols r). done.
    + rewrite (f_equal t_bv_lim_symbols E : t_bv_lim_symbols r' = t_bv_lim_symbols r). done.
    + rewrite (f_equal t_pim_workarea E : t_pim_workarea r' = t_pim_workarea r). done.
    + rewrite (f_equal t_lim_chain E : t_lim_chain r' = t_lim_chain r). done.
    + rewrite (f_equal t_nsy_expected_is_event E : t_nsy_expected_is_event r' = t_nsy_expected_is_event r). done.
  - rewrite Hca. apply Hid.
  - rewrite (f_equal t_yim_work_stack E : t_yim_work_stack r' = t_yim_work_stack r). apply Hid.
  - rewrite (f_equal t_completion_stack E : t_completion_stack r' = t_completion_stack r). apply Hid.
  - intros j y e Hin. destruct (Hlog _ _ _ Hin) as (H1&H2&s&Hs&Hlt). do 2 (split; [done|]). destruct (view_at r r' _ s Hv Hs) as (s'&Hs'&Es). exists s'. split; [done|]. apply (f_equal Earleme_of_YS) in Es. cbn in Es. lia.
  - destruct (id_events _ _ _ _ _ _ Hid) as (C&N&P&[H1 H2 H3]). exists C, N, P. split.
    + rewrite (f_equal t_completion_event_is_active E : t_completion_event_is_active r' = t_completion_event_is_active r). done.
    + rewrite (f_equal t_nulled_event_is_active E : t_nulled_event_is_active r' = t_nulled_event_is_active r). done.
    + rewrite (f_equal t_prediction_event_is_active E : t_prediction_event_is_active r' = t_prediction_event_is_active r). done.
  - rewrite (f_equal t_first_inconsistent_ys E : t_first_inconsistent_ys r' = t_first_inconsistent_ys r). apply Hid.
Qed.

(** Another state with the same sets and the same tokens. *)
Lemma idle_same now log r r' : idle_at now log r -> calm r' = calm r -> ys_view <$> t_sets r' = ys_view <$> t_sets r -> lookups (ahms t0) (t_sets r') (t_yims r') (t_dot_psar_object r') ->
  cilar_of (t_tables r') = cilar_of (t_tables r) -> (exists S, bv_rep (t_bv_nsyid_is_expected r') nsys S) -> (exists S, bv_rep (t_bv_irl_seen r') irls S) -> idle_at now log r'.
Proof using.
  clear. intros Hid E Hv Hl Hca Hex Hseen. assert (t_alternatives r' = t_alternatives r) as Ea by exact (f_equal t_alternatives E). assert (t_furthest_earleme r' = t_furthest_earleme r) as Ef by exact (f_equal t_furthest_earleme E).
  assert (still r' = still r) as Est by exact (f_equal (fun c => set_t_alternatives [] (set_t_furthest_earleme 0 (set_t_valued_terminal None (set_t_unvalued_terminal None (set_t_valued None (set_t_unvalued None (set_t_valued_locked None c))))))) E).
  refine (idle_change now log log r r' Hid (f_equal (set_t_is_using_leo false) Est) Hv Hl Hca Hex Hseen (fun j y k => iff_refl _) (id_log _ _ _ _ _ _ Hid) _ _ _ _ _).
  { rewrite Ea. apply (id_sorted _ _ _ _ _ _ Hid). } { rewrite Ea, Ef. apply (id_alternatives _ _ _ _ _ _ Hid). } { rewrite Ea. apply (id_waiting _ _ _ _ _ _ Hid). } { rewrite Ef. apply (id_furthest _ _ _ _ _ _ Hid). }
  destruct (id_valued _ _ _ _ _ _ Hid) as [H1 H2 H3 H4 H5]. split.
  - rewrite (f_equal t_valued_terminal E : t_valued_terminal r' = t_valued_terminal r). done.
  - rewrite (f_equal t_unvalued_terminal E : t_unvalued_terminal r' = t_unvalued_terminal r). done.
  - rewrite (f_equal t_valued E : t_valued r' = t_valued r). done.
  - rewrite (f_equal t_unvalued E : t_unvalued r' = t_unvalued r). done.
  - rewrite (f_equal t_valued_locked E : t_valued_locked r' = t_valued_locked r). done.
Qed.

(** A later earleme, when no token ends before it. *)
Lemma idle_later now now' log r : idle_at now log r -> now <= now' -> (forall a, a ∈ t_alternatives r -> now' < End_Earleme_of_ALT a) -> idle_at now' log r.
Proof using.
  clear. intros Hid Hle Ha. pose proof (id_count _ _ _ _ _ _ Hid). destruct Hid. split; try done; [lia| | |].
  - intros k s Hs. pose proof (id_times k s Hs). lia.
  - intros a Hin. destruct (id_alternatives a Hin). pose proof (Ha a Hin). split; [done|lia].
  - intros j y e Hin He. apply (id_waiting j y e Hin). lia.
Qed.

(** The steps before the set. *)
Definition next_earleme r : res RECCE :=
  r ← psar_dealloc (events_clear r);
  expected ← bv_clear (t_bv_nsyid_is_expected r);
  irl_seen ← bv_clear (t_bv_irl_seen r);
  Ok (set_t_current_earleme (t_current_earleme r + 1) (set_t_bv_irl_seen irl_seen (set_t_bv_nsyid_is_expected expected r))).

Lemma next_earleme_ok now log r : idle_at now log r -> ends_in (next_earleme r) (fun r' => idle_at now log r' /\ calm r' = calm r /\ t_current_earleme r' = t_current_earleme r + 1 /\ earlemes r' = earlemes r
  /\ kept (t_earley_set_count r) r r' /\ bv_rep (t_bv_nsyid_is_expected r') nsys ∅ /\ Input_Phase_of_R r' = Input_Phase_of_R r /\ R_is_Exhausted r' = R_is_Exhausted r).
Proof using.
  intros Hid. unfold next_earleme. destruct (psar_dealloc_ok (ahms t0) (events_clear r)) as (r1&->&[(sets&a&->) Hv _]&Hl); [apply Hid|]. cbn [mbind res_bind].
  destruct (id_areas _ _ _ _ _ _ Hid) as [_ _ _ _ (X&HX) _]. destruct (id_seen _ _ _ _ _ _ Hid) as (S&HS). destruct (bv_clear_ok _ _ _ HX) as (v&Ev&Hvv&_). destruct (bv_clear_ok _ _ _ HS) as (w&Ew&Hw&_).
  cbn [t_bv_nsyid_is_expected set_t_sets set_t_dot_psar_object]. change (t_bv_nsyid_is_expected (events_clear r)) with (t_bv_nsyid_is_expected r). rewrite Ev. cbn [mbind res_bind].
  cbn [t_bv_irl_seen set_t_sets set_t_dot_psar_object]. change (t_bv_irl_seen (events_clear r)) with (t_bv_irl_seen r). rewrite Ew. cbn [mbind res_bind]. apply ends_Ok. set (r' := set_t_current_earleme _ _).
  assert (calm r' = calm r) as Ecalm by reflexivity. assert (ys_view <$> t_sets r' = ys_view <$> t_sets r) as Hv' by exact Hv.
  split; [|split; [done|split; [done|split; [|split; [|done]]]]].
  - apply (idle_same now log r r' Hid); [done|done|exact Hl|done|by exists ∅|by exists ∅].
  - pose proof (f_equal (fmap Earleme_of_YS) Hv') as E. rewrite <- !list_fmap_compose in E. exact E.
  - apply kept_sets; [done|done|]. intros j s _ Hs. destruct (view_at r r' _ s Hv' Hs) as (s'&Hs'&Es). exists s'. split; [done|]. split; [exact (f_equal t_postdot_ary Es)|exact (f_equal Postdot_SYM_Count_of_YS Es)].
Qed.

Lemma complete_eq r : marpa_r_earleme_complete junk r =
  if negb (Input_Phase_of_R r =? R_DURING_INPUT) then Ok (failure_indicator, R_ERROR r MARPA_ERR_RECCE_NOT_ACCEPTING_INPUT)
  else if negb (R_is_Consistent r) then Ok (failure_indicator, R_ERROR r MARPA_ERR_RECCE_IS_INCONSISTENT)
  else r ← next_earleme r;
    if t_current_earleme r >? t_furthest_earleme r then Ok (failure_indicator, R_ERROR (exhaust r) MARPA_ERR_PARSE_EXHAUSTED)
    else match list.last (t_alternatives r) with
         | None => Ok (0, r)
         | Some end_of_stack => if negb (t_current_earleme r =? End_Earleme_of_ALT end_of_stack) then Ok (0, r) else earleme_set junk r (t_current_earleme r)
         end.
Proof using.
  unfold marpa_r_earleme_complete, next_earleme. destruct (negb _); [done|]. destruct (negb _); [done|]. destruct (psar_dealloc (events_clear r)) as [r1| |]; cbn [mbind res_bind]; [|done..].
  destruct (bv_clear (t_bv_nsyid_is_expected r1)) as [v| |]; cbn [mbind res_bind]; [|done..]. by destruct (bv_clear (t_bv_irl_seen r1)).
Qed.

(** The last token ends first. *)
Lemma last_first l a b : StronglySorted alt_before l -> list.last l = Some a -> b ∈ l -> End_Earleme_of_ALT a <= End_Earleme_of_ALT b.
Proof using.
  clear. intros Hs Hl Hb. apply last_Some in Hl as (l'&->). apply elem_of_app in Hb as [Hb| ->%list_elem_of_singleton]; [|lia].
  induction l' as [|c l' IH]; [by apply not_elem_of_nil in Hb|]. inversion Hs as [|? ? Hs' Hc]; subst. apply elem_of_cons in Hb as [->|Hb]; [|by apply IH]. rewrite Forall_forall in Hc. destruct (Hc a) as [?|[? _]]; [apply elem_of_app; right; by left|lia|lia].
Qed.

(** What the call does. *)
Inductive completed (log : LOG) (r : RECCE) : Z -> RECCE -> Prop :=
| completed_refused : Input_Phase_of_R r <> R_DURING_INPUT -> completed log r failure_indicator (R_ERROR r MARPA_ERR_RECCE_NOT_ACCEPTING_INPUT)
| completed_exhausted r' : Input_Phase_of_R r = R_DURING_INPUT -> t_furthest_earleme r < t_current_earleme r + 1 -> idle log r' -> earlemes r' = earlemes r -> t_yims r' = t_yims r ->
    t_current_earleme r' = t_current_earleme r + 1 -> Input_Phase_of_R r' = R_AFTER_INPUT -> R_is_Exhausted r' = true -> t_error (G_of_R r') = MARPA_ERR_PARSE_EXHAUSTED -> completed log r failure_indicator r'
| completed_nothing r' : Input_Phase_of_R r = R_DURING_INPUT -> t_current_earleme r + 1 <= t_furthest_earleme r -> (forall a, a ∈ t_alternatives r -> t_current_earleme r + 1 < End_Earleme_of_ALT a) ->
    idle log r' -> earlemes r' = earlemes r -> t_yims r' = t_yims r -> t_current_earleme r' = t_current_earleme r + 1 -> Input_Phase_of_R r' = Input_Phase_of_R r -> bv_rep (t_bv_nsyid_is_expected r') nsys ∅ -> completed log r 0 r'
| completed_set v r' r1 : Input_Phase_of_R r = R_DURING_INPUT -> (exists a, a ∈ t_alternatives r /\ End_Earleme_of_ALT a = t_current_earleme r + 1) ->
    calm r1 = calm r -> earlemes r1 = earlemes r -> kept (t_earley_set_count r) r r1 -> Input_Phase_of_R r1 = Input_Phase_of_R r -> R_is_Exhausted r1 = R_is_Exhausted r ->
    set_made t0 allowed c0 (t_current_earleme r + 1) log r1 r' -> idle log r' -> t_current_earleme r' = t_current_earleme r + 1 -> v = Z.of_nat (length (t_events (G_of_R r'))) -> completed log r v r'.

Context (Hfuel : (MARPA_AVL_MAX_HEIGHT <= tree_rounds)%nat).

Theorem earleme_complete_ok log r : idle log r -> roomy t0 allowed (tokens (earlemes r ++ [t_current_earleme r + 1]) log) (t_earley_set_count r) ->
  ends_in (marpa_r_earleme_complete junk r) (fun c => completed log r c.1 c.2).
Proof using HL Hen Hc0 Hfuel.
  intros Hid Hroom. rewrite complete_eq. destruct (Z.eqb_spec (Input_Phase_of_R r) R_DURING_INPUT) as [Hph|Hph]; cbn [negb]; [|apply ends_Ok; by constructor].
  assert (R_is_Consistent r = true) as -> by (apply Z.ltb_lt, Hid). cbn [negb]. destruct (next_earleme_ok _ log r Hid) as (r1&->&Hid1&Ecalm&Ecur&Eear&Hk&Hex&Ephase&Eexh). cbn [mbind res_bind].
  assert (t_furthest_earleme r1 = t_furthest_earleme r) as Ef by exact (f_equal t_furthest_earleme Ecalm). assert (t_alternatives r1 = t_alternatives r) as Ea by exact (f_equal t_alternatives Ecalm). assert (t_yims r1 = t_yims r) as Ey by exact (f_equal t_yims Ecalm). rewrite Ecur, Ef, Ea.
  destruct (Z.gtb_spec (t_current_earleme r + 1) (t_furthest_earleme r)) as [Hgt|Hle].
  - assert (idle_at (t_current_earleme r + 1) log r1) as Hid2. { apply (idle_later (t_current_earleme r)); [done|lia|]. intros a Hin. destruct (id_alternatives _ _ _ _ _ _ Hid1 a Hin). lia. }
    apply ends_Ok. cbn [fst snd]. apply completed_exhausted; try done. unfold EarleySet.idle. change (t_current_earleme (R_ERROR (exhaust r1) MARPA_ERR_PARSE_EXHAUSTED)) with (t_current_earleme r1). rewrite Ecur.
    apply (idle_same _ log r1); [done|done|done|apply Hid2|done|by exists ∅|apply (id_seen _ _ _ _ _ _ Hid2)].
  - assert (forall r', r' = r1 -> (forall a, a ∈ t_alternatives r -> t_current_earleme r + 1 < End_Earleme_of_ALT a) -> completed log r 0 r') as Hnothing.
    { intros r' -> Hall. apply completed_nothing; try done. unfold EarleySet.idle. rewrite Ecur. apply (idle_later (t_current_earleme r)); [done|lia|]. by rewrite Ea. }
    destruct (list.last (t_alternatives r)) as [a|] eqn:Elast.
    + destruct (id_alternatives _ _ _ _ _ _ Hid a) as [_ Hend]; [by apply last_Some_elem_of|]. destruct (Z.eqb_spec (t_current_earleme r + 1) (End_Earleme_of_ALT a)) as [Ee|Hne]; cbn [negb].
      * destruct (earleme_set_ok junk t0 Hen allowed c0 Hc0 Hfuel (t_current_earleme r + 1) log r1 a) as ([v r2]&->&Hsm&Hv).
        { by rewrite Z.add_simpl_r. } { by rewrite Ea. } { done. } { rewrite Eear. by rewrite (f_equal t_earley_set_count Ecalm : t_earley_set_count r1 = t_earley_set_count r). }
        apply ends_Ok. cbn [fst snd] in *. assert (t_current_earleme r2 = t_current_earleme r + 1) as Ecur2 by (rewrite <- Ecur; exact (f_equal t_current_earleme (sm_frame _ _ _ _ _ _ _ Hsm))).
        eapply completed_set with (r1 := r1); try done; [exists a; split; [by apply last_Some_elem_of|done]|]. unfold EarleySet.idle. rewrite Ecur2. apply Hsm.
      * apply ends_Ok. apply Hnothing; [done|]. intros b Hb. pose proof (last_first _ a b (id_sorted _ _ _ _ _ _ Hid) Elast Hb). lia.
    + apply ends_Ok. apply Hnothing; [done|]. apply last_None in Elast. rewrite Elast. by intros a ?%not_elem_of_nil.
Qed.
End calls.

(** * [marpa_r_alternative]

    A token is put on the stack of those that end later, in its place ([insertion_loop]);
    the branches of the call. *)

(** ** The order *)

Lemma alt_before_trans a b c : alt_before a b -> alt_before b c -> alt_before a c.
Proof. unfold alt_before. lia. Qed.

Lemma alt_before_irrefl a b : alt_before a b -> alt_token a <> alt_token b.
Proof. unfold alt_before, alt_token. intros H [= E1 E2 E3]. lia. Qed.

Lemma sorted_lookup l i j a b : StronglySorted alt_before l -> l !! i = Some a -> l !! j = Some b -> (i < j)%nat -> alt_before a b.
Proof.
  intros Hs. revert i j. induction Hs as [|z l Hs IH Hz]; intros i j Hi Hj Hlt; [done|]. destruct j as [|j]; [lia|]. cbn in Hj. destruct i as [|i].
  - injection Hi as ->. rewrite Forall_forall in Hz. apply Hz. by eapply list_elem_of_lookup_2.
  - cbn in Hi. apply (IH i j); [done|done|lia].
Qed.

(** A token in its place. *)
Lemma alternatives_insert l n a : StronglySorted alt_before l -> (n <= length l)%nat -> (forall i b, l !! i = Some b -> if decide (i < n)%nat then alt_before b a else alt_before a b) ->
  StronglySorted alt_before (take n l ++ a :: drop n l).
Proof.
  intros Hs. revert n. induction Hs as [|b l Hs IH Hb]; intros n Hn Hat.
  - destruct n; repeat constructor.
  - destruct n as [|n]; cbn [take drop app].
    + constructor; [by constructor|]. rewrite Forall_forall. intros c (i&Hi)%list_elem_of_lookup. pose proof (Hat i c Hi) as Hc. by destruct (decide (i < 0)%nat); [lia|].
    + constructor; [apply IH; [cbn in Hn; lia|]|].
      * intros i c Hi. pose proof (Hat (S i) c Hi) as Hc. destruct (decide (S i < S n)%nat), (decide (i < n)%nat); try done; lia.
      * pose proof (Hat 0%nat b eq_refl) as Hba. destruct (decide (0 < S n)%nat); [|lia]. rewrite Forall_forall in *. intros c. rewrite elem_of_app, elem_of_cons. intros [Hc|[->|Hc]]; [|done|].
        -- apply Hb. by eapply (elem_of_submseteq), sublist_submseteq, sublist_take.
        -- apply Hb. by eapply (elem_of_submseteq), sublist_submseteq, sublist_drop.
Qed.

Section insert.
Context (t0 : TABLES) (n : Z) (r : RECCE) (Hst : store t0 n r).

(** A token starts at a set. *)
Definition starts (a : ALT) : Prop := 0 <= Start_YS_of_ALT a < n.

Lemma start_read a : starts a -> exists s, t_sets r !! Z.to_nat (Start_YS_of_ALT a) = Some s /\ Start_Earleme_of_ALT r a = Ok (Earleme_of_YS s).
Proof using Hst. intros Ha. destruct (set_read t0 n r _ Hst Ha) as (s&Hs&E). exists s. split; [done|]. unfold Start_Earleme_of_ALT. by rewrite E. Qed.

Lemma cmp_ok a b : starts a -> starts b -> ends_in (alternative_cmp r a b) (fun o => (o < 0 -> alt_before a b) /\ (o = 0 -> alt_token a = alt_token b) /\ (0 < o -> alt_before b a)).
Proof using Hst.
  intros Ha Hb. unfold alternative_cmp. destruct (start_read a Ha) as (sa&Hsa&Ea). destruct (start_read b Hb) as (sb&Hsb&Eb). unfold alt_before, alt_token.
  destruct (Z.eqb_spec (End_Earleme_of_ALT b - End_Earleme_of_ALT a) 0) as [E1|E1]; cbn [negb]; [|apply ends_Ok; split; [lia|]; split; [lia|]; lia].
  destruct (Z.eqb_spec (NSYID_of_ALT a - NSYID_of_ALT b) 0) as [E2|E2]; cbn [negb]; [|apply ends_Ok; split; [lia|]; split; [lia|]; lia].
  rewrite Ea. cbn [mbind res_bind]. rewrite Eb. cbn [mbind res_bind]. apply ends_Ok. unfold starts in *.
  assert (Start_YS_of_ALT a < Start_YS_of_ALT b -> Earleme_of_YS sa < Earleme_of_YS sb) as H1 by (intros Hl; apply (st_times _ _ _ Hst _ _ _ _ Hsa Hsb); lia).
  assert (Start_YS_of_ALT b < Start_YS_of_ALT a -> Earleme_of_YS sb < Earleme_of_YS sa) as H2 by (intros Hl; apply (st_times _ _ _ Hst _ _ _ _ Hsb Hsa); lia).
  assert (Start_YS_of_ALT a = Start_YS_of_ALT b -> Earleme_of_YS sa = Earleme_of_YS sb) as H3 by (intros E; rewrite E, Hsb in Hsa; congruence).
  split; [|split].
  - intros Ho. right. split; [lia|]. right. split; [lia|]. destruct (Z.lt_trichotomy (Start_YS_of_ALT a) (Start_YS_of_ALT b)) as [?|[?|?]]; [done|lia|lia].
  - intros Ho. assert (Start_YS_of_ALT a = Start_YS_of_ALT b) as -> by (destruct (Z.lt_trichotomy (Start_YS_of_ALT a) (Start_YS_of_ALT b)) as [?|[?|?]]; [lia|done|lia]). f_equal; [f_equal; lia|lia].
  - intros Ho. right. split; [lia|]. right. split; [lia|]. destruct (Z.lt_trichotomy (Start_YS_of_ALT a) (Start_YS_of_ALT b)) as [?|[?|?]]; [lia|lia|done].
Qed.

Context (a : ALT) (Ha : starts a) (Hsorted : StronglySorted alt_before (t_alternatives r)) (Hstarts : forall b, b ∈ t_alternatives r -> starts b).

(** The place [p]: what is before it comes before the token. *)
Definition place (p : Z) : Prop := 0 <= p <= Z.of_nat (length (t_alternatives r)) /\ forall i b, t_alternatives r !! i = Some b -> if decide (i < Z.to_nat p)%nat then alt_before b a else alt_before a b.

Lemma insertion_loop_ok rounds : forall lo hi, 0 <= lo <= hi -> hi < Z.of_nat (length (t_alternatives r)) -> hi - lo < Z.of_nat rounds ->
  (forall i b, t_alternatives r !! i = Some b -> Z.of_nat i < lo -> alt_before b a) -> (forall i b, t_alternatives r !! i = Some b -> hi < Z.of_nat i -> alt_before a b) ->
  ends_in (insertion_loop rounds r a lo hi) (fun p => (p = -1 /\ exists b, b ∈ t_alternatives r /\ alt_token b = alt_token a) \/ place p).
Proof using Hst Ha Hsorted Hstarts.
  induction rounds as [|rounds IH]; intros lo hi Hlo Hhi Hr Hbefore Hafter; [lia|]. cbn [insertion_loop]. rewrite Z.quot_div_nonneg by lia. set (t := lo + (hi - lo) / 2).
  assert (lo <= t <= hi) as Ht by (unfold t; pose proof (Z.div_pos (hi - lo) 2); pose proof (Z.div_le_upper_bound (hi - lo) 2 (hi - lo)); lia).
  destruct (lookup_lt_is_Some_2 (t_alternatives r) (Z.to_nat t)) as [b Hb]; [lia|]. rewrite (proj2 (rd_Ok (t_alternatives r) t b)) by (split; [lia|done]). cbn [mbind res_bind].
  destruct (cmp_ok a b Ha (Hstarts _ ltac:(by eapply list_elem_of_lookup_2))) as (o&->&Hneg&Hzero&Hpos). cbn [mbind res_bind].
  assert (forall i c, t_alternatives r !! i = Some c -> (Z.of_nat i < t -> c = b \/ alt_before c b) /\ (t < Z.of_nat i -> alt_before b c) /\ (Z.of_nat i = t -> c = b)) as Hrel.
  { intros i c Hi. split; [|split]; intros Hlt; [right; apply (sorted_lookup _ i (Z.to_nat t) _ _ Hsorted Hi Hb); lia|apply (sorted_lookup _ (Z.to_nat t) i _ _ Hsorted Hb Hi); lia|]. replace i with (Z.to_nat t) in Hi by lia. congruence. }
  destruct (Z.eqb_spec o 0) as [->|Hne].
  { apply ends_Ok. left. split; [done|]. exists b. split; [by eapply list_elem_of_lookup_2|]. symmetry. by apply Hzero. }
  destruct (Z.gtb_spec o 0) as [Hgt|Hle].
  - specialize (Hpos ltac:(lia)). assert (forall i c, t_alternatives r !! i = Some c -> Z.of_nat i < t + 1 -> alt_before c a) as Hb2.
    { intros i c Hi Hlt. destruct (Hrel i c Hi) as (H1&_&H3). destruct (decide (Z.of_nat i = t)) as [E|]; [by rewrite (H3 E)|]. destruct (H1 ltac:(lia)) as [->|?]; [done|by apply alt_before_trans with b]. }
    destruct (Z.ltb_spec hi (t + 1)).
    + apply ends_Ok. right. split; [lia|]. intros i c Hi. case_decide; [by apply (Hb2 i); [|lia]|]. apply (Hafter i); [done|lia].
    + apply IH; [lia|lia|lia|done|done].
  - specialize (Hneg ltac:(lia)). assert (forall i c, t_alternatives r !! i = Some c -> t - 1 < Z.of_nat i -> alt_before a c) as Ha2.
    { intros i c Hi Hlt. destruct (Hrel i c Hi) as (_&H2&H3). destruct (decide (Z.of_nat i = t)) as [E|]; [by rewrite (H3 E)|]. apply alt_before_trans with b; [done|apply H2; lia]. }
    destruct (Z.ltb_spec (t - 1) lo).
    + apply ends_Ok. right. split; [lia|]. intros i c Hi. case_decide; [apply (Hbefore i); [done|lia]|]. apply (Ha2 i); [done|lia].
    + apply IH; [lia|lia|lia|done|done].
Qed.

(** The token is put in its place, unless it is there. *)
Lemma alternative_insert_ok : ends_in (alternative_insert r a) (fun c =>
  (c.1 < 0 /\ c.2 = r /\ exists b, b ∈ t_alternatives r /\ alt_token b = alt_token a)
  \/ (0 <= c.1 /\ exists l, c.2 = set_t_alternatives l r /\ StronglySorted alt_before l /\ (forall b, b ∈ l <-> b = a \/ b ∈ t_alternatives r) /\ forall b, b ∈ t_alternatives r -> alt_token b <> alt_token a)).
Proof using Hst Ha Hsorted Hstarts.
  unfold alternative_insert.
  assert (ends_in (alternative_insertion_point r a) (fun p => (p = -1 /\ exists b, b ∈ t_alternatives r /\ alt_token b = alt_token a) \/ place p)) as (p&->&Hp).
  { unfold alternative_insertion_point. destruct (Z.ltb_spec (Z.of_nat (length (t_alternatives r)) - 1) 0).
    - apply ends_Ok. right. split; [lia|]. intros i b Hi. apply lookup_lt_Some in Hi. lia.
    - apply insertion_loop_ok; [lia|lia|lia|lia|]. intros i b Hi Hlt. apply lookup_lt_Some in Hi. lia. }
  cbn [mbind res_bind]. destruct Hp as [[-> Hb]|[Hb Hp]].
  - apply ends_Ok. left. done.
  - destruct (Z.ltb_spec p 0); [lia|]. apply ends_Ok. right. split; [done|]. eexists. split; [done|]. split; [apply alternatives_insert; [done|lia|done]|]. split.
    + intros b. rewrite elem_of_app, elem_of_cons. rewrite <- (take_drop (Z.to_nat p) (t_alternatives r)) at 3. rewrite elem_of_app. tauto.
    + intros b (i&Hi)%list_elem_of_lookup E. pose proof (Hp i b Hi) as Hbi. case_decide; apply alt_before_irrefl in Hbi; congruence.
Qed.
End insert.

(** ** The call *)
Section call.
Context (t0 : TABLES) (Hen : engine t0) (allowed : Z -> Prop) (c0 : Z).
#[local] Abbreviation nsys := (NSY_Count_of_G (t_internal t0)).
#[local] Abbreviation xsys := (XSY_Count_of_G (g_of t0)).
#[local] Abbreviation idle := (idle t0 allowed c0).

(** The bit of a symbol. *)
Definition flag (o : option Bit_Vector) (x : Z) : bool := match o with Some v => match lbv_bit_test v x with Ok b => b | _ => false end | None => false end.

(** Whether the symbol may have tokens with a value, or without. *)
Definition value_verdict r (value : Z) (tkn : XSY) (x : Z) : option Z :=
  if flag (if Boolean value then t_valued_terminal r else t_unvalued_terminal r) x then None
  else if negb (XSY_is_Terminal tkn) then Some MARPA_ERR_TOKEN_IS_NOT_TERMINAL
  else if flag (t_valued_locked r) x then Some MARPA_ERR_SYMBOL_VALUED_CONFLICT else None.

(** An item of the set [j] waits for [y]. *)
Definition awaits (log : LOG) r (j y : Z) : Prop := exists x o, item t0 allowed (state_tokens log r) j x o /\ postdot t0 x = y.
(** The latest set is at the current earleme. *)
Definition at_current r : Prop := list.last (earlemes r) = Some (t_current_earleme r).
Definition latest r : Z := t_earley_set_count r - 1.

(** Why a token is refused, in the order of the checks. *)
Inductive refusal (log : LOG) r (x value length : Z) : Z -> Prop :=
| refused_phase : Input_Phase_of_R r <> R_DURING_INPUT -> refusal log r x value length MARPA_ERR_RECCE_NOT_ACCEPTING_INPUT
| refused_symbol : Input_Phase_of_R r = R_DURING_INPUT -> ~ 0 <= x < xsys -> refusal log r x value length MARPA_ERR_INVALID_SYMBOL_ID
| refused_empty : Input_Phase_of_R r = R_DURING_INPUT -> 0 <= x < xsys -> length <= 0 -> refusal log r x value length MARPA_ERR_TOKEN_LENGTH_LE_ZERO
| refused_long : Input_Phase_of_R r = R_DURING_INPUT -> 0 <= x < xsys -> JEARLEME_THRESHOLD <= length -> refusal log r x value length MARPA_ERR_TOKEN_TOO_LONG
| refused_value tkn code : Input_Phase_of_R r = R_DURING_INPUT -> 0 < length < JEARLEME_THRESHOLD -> XSY_by_ID (G_of_R r) x = Ok tkn -> value_verdict r value tkn x = Some code -> refusal log r x value length code
| refused_inaccessible tkn : Input_Phase_of_R r = R_DURING_INPUT -> 0 < length < JEARLEME_THRESHOLD -> XSY_by_ID (G_of_R r) x = Ok tkn -> value_verdict r value tkn x = None ->
    t_nsy_equivalent (t_internal t0) !! Z.to_nat x = Some None -> refusal log r x value length MARPA_ERR_INACCESSIBLE_TOKEN
| refused_here tkn y : Input_Phase_of_R r = R_DURING_INPUT -> 0 < length < JEARLEME_THRESHOLD -> XSY_by_ID (G_of_R r) x = Ok tkn -> value_verdict r value tkn x = None ->
    t_nsy_equivalent (t_internal t0) !! Z.to_nat x = Some (Some y) -> ~ at_current r -> refusal log r x value length MARPA_ERR_NO_TOKEN_EXPECTED_HERE
| refused_unexpected tkn y : Input_Phase_of_R r = R_DURING_INPUT -> 0 < length < JEARLEME_THRESHOLD -> XSY_by_ID (G_of_R r) x = Ok tkn -> value_verdict r value tkn x = None ->
    t_nsy_equivalent (t_internal t0) !! Z.to_nat x = Some (Some y) -> at_current r -> ~ awaits log r (latest r) y -> refusal log r x value length MARPA_ERR_UNEXPECTED_TOKEN_ID
| refused_far tkn y : Input_Phase_of_R r = R_DURING_INPUT -> 0 < length < JEARLEME_THRESHOLD -> XSY_by_ID (G_of_R r) x = Ok tkn -> value_verdict r value tkn x = None ->
    t_nsy_equivalent (t_internal t0) !! Z.to_nat x = Some (Some y) -> at_current r -> awaits log r (latest r) y -> JEARLEME_THRESHOLD <= t_current_earleme r + length -> refusal log r x value length MARPA_ERR_PARSE_TOO_LONG
| refused_duplicate tkn y : Input_Phase_of_R r = R_DURING_INPUT -> 0 < length < JEARLEME_THRESHOLD -> XSY_by_ID (G_of_R r) x = Ok tkn -> value_verdict r value tkn x = None ->
    t_nsy_equivalent (t_internal t0) !! Z.to_nat x = Some (Some y) -> at_current r -> awaits log r (latest r) y -> t_current_earleme r + length < JEARLEME_THRESHOLD ->
    (latest r, y, t_current_earleme r + length) ∈ log -> refusal log r x value length MARPA_ERR_DUPLICATE_TOKEN.

(** What the call does: an error, or a token more. *)
Inductive judged (log : LOG) r (x value length : Z) : Z -> RECCE -> Prop :=
| judged_refused code r' : refusal log r x value length code -> still r' = still r -> t_alternatives r' = t_alternatives r -> t_furthest_earleme r' = t_furthest_earleme r -> t_current_earleme r' = t_current_earleme r -> Input_Phase_of_R r' = Input_Phase_of_R r ->
    idle log r' -> t_sets r' = t_sets r -> t_error (G_of_R r') = code -> code <> MARPA_ERR_NONE -> judged log r x value length code r'
| judged_accepted tkn y r' : Input_Phase_of_R r = R_DURING_INPUT -> 0 < length < JEARLEME_THRESHOLD -> 0 <= x -> XSY_by_ID (G_of_R r) x = Ok tkn -> XSY_is_Terminal tkn = true -> value_verdict r value tkn x = None -> t_nsy_equivalent (t_internal t0) !! Z.to_nat x = Some (Some y) ->
    at_current r -> awaits log r (latest r) y -> t_current_earleme r + length < JEARLEME_THRESHOLD -> (latest r, y, t_current_earleme r + length) ∉ log -> still r' = still r -> t_current_earleme r' = t_current_earleme r -> Input_Phase_of_R r' = Input_Phase_of_R r ->
    idle ((latest r, y, t_current_earleme r + length) :: log) r' -> t_sets r' = t_sets r -> judged log r x value length MARPA_ERR_NONE r'.

Lemma flag_ok o v S x : o = Some v -> flags v xsys S -> 0 <= x < xsys -> lbv_bit_test v x = Ok (flag o x).
Proof using. clear. intros -> Hf Hx. unfold flag. by rewrite (lbv_bit_test_ok _ _ _ _ Hf Hx). Qed.

(** The vectors of the values are all that changes. *)
Record locked r r1 : Prop := {
  lk_still : still r1 = still r;
  lk_alternatives : t_alternatives r1 = t_alternatives r;
  lk_furthest : t_furthest_earleme r1 = t_furthest_earleme r;
  lk_current : t_current_earleme r1 = t_current_earleme r;
  lk_phase : Input_Phase_of_R r1 = Input_Phase_of_R r;
  lk_sets : t_sets r1 = t_sets r;
  lk_tables : t_tables r1 = t_tables r;
  lk_psar : t_dot_psar_object r1 = t_dot_psar_object r;
  lk_expected : t_bv_nsyid_is_expected r1 = t_bv_nsyid_is_expected r;
  lk_seen : t_bv_irl_seen r1 = t_bv_irl_seen r;
  lk_valued : valued_ok t0 r1
}.

(** A token is put on the stack, or nothing changes there. *)
Lemma locked_idle log log' r r1 r' l f : idle log r -> locked r r1 -> r' = set_t_alternatives l (set_t_furthest_earleme f r1) -> (forall j y k, state_tokens log' r j y k <-> state_tokens log r j y k) -> log_ok t0 log' r ->
  StronglySorted alt_before l -> (forall a, a ∈ l -> alt_token a ∈ log' /\ t_current_earleme r < End_Earleme_of_ALT a <= f) -> (forall j y e, (j, y, e) ∈ log' -> t_current_earleme r < e -> exists a, a ∈ l /\ alt_token a = (j, y, e)) -> f < JEARLEME_THRESHOLD -> idle log' r'.
Proof using.
  clear. intros Hid [H1 H2 H3 H4 H5 H6 H7 H8 H9 H10 H11] -> Htk Hlog Hs Ha Hw Hf. unfold EarleySet.idle. change (t_current_earleme (set_t_alternatives l (set_t_furthest_earleme f r1))) with (t_current_earleme r1). rewrite H4.
  set (r' := set_t_alternatives l (set_t_furthest_earleme f r1)). assert (t_yims r1 = t_yims r) as Ey by exact (f_equal t_yims H1).
  assert (still r' = still r) as Es by exact H1.
  refine (idle_change t0 allowed c0 (t_current_earleme r) log log' r r' Hid (f_equal (set_t_is_using_leo false) Es) _ _ _ _ _ Htk Hlog Hs Ha Hw Hf _).
  - exact (f_equal (fmap ys_view) H6).
  - change (lookups (ahms t0) (t_sets r1) (t_yims r1) (t_dot_psar_object r1)). rewrite H6, H8, Ey. apply (id_lookups _ _ _ _ _ _ Hid).
  - exact (f_equal cilar_of H7).
  - change (exists S, bv_rep (t_bv_nsyid_is_expected r1) nsys S). rewrite H9. apply (id_areas _ _ _ _ _ _ Hid).
  - change (exists S, bv_rep (t_bv_irl_seen r1) (IRL_Count_of_G (t_internal t0)) S). rewrite H10. apply (id_seen _ _ _ _ _ _ Hid).
  - destruct H11 as [K1 K2 K3 K4 K5]. by split.
Qed.

Lemma locked_refl r : valued_ok t0 r -> locked r r.
Proof using. clear. by split. Qed.

Lemma lock_value_ok log r x value tkn : idle log r -> 0 <= x < xsys -> XSY_by_ID (g_of t0) x = Ok tkn ->
  ends_in (if Boolean value then lock_value t_valued_terminal t_valued set_t_valued_terminal set_t_valued r tkn x
           else lock_value t_unvalued_terminal t_unvalued set_t_unvalued_terminal set_t_unvalued r tkn x) (fun c => c.1 = value_verdict r value tkn x /\ locked r c.2).
Proof using.
  clear Hen. intros Hid Hx Htkn. pose proof (id_valued _ _ _ _ _ _ Hid) as Hval. pose proof Hval as [(v1&S1&E1&F1&M1) (v2&S2&E2&F2&M2) (v3&S3&E3&F3) (v4&S4&E4&F4) (v5&S5&E5&F5)]. unfold lock_value, value_verdict. destruct (Boolean value).
  - rewrite E1 at 1. cbn [bv_of written mbind res_bind]. rewrite (flag_ok _ v1 S1 x E1 F1 Hx). cbn [mbind res_bind]. destruct (flag (t_valued_terminal r) x); [apply ends_Ok; split; [done|by apply locked_refl]|].
    destruct (XSY_is_Terminal tkn) eqn:Hterm; cbn [negb]; [|apply ends_Ok; split; [done|by apply locked_refl]]. rewrite E5 at 1. cbn [bv_of written mbind res_bind]. rewrite (flag_ok _ v5 S5 x E5 F5 Hx). cbn [mbind res_bind].
    destruct (flag (t_valued_locked r) x); [apply ends_Ok; split; [done|by apply locked_refl]|]. destruct (lbv_bit_set_ok v5 _ _ x F5 Hx) as (w5&->&W5). cbn [mbind res_bind]. destruct (lbv_bit_set_ok v1 _ _ x F1 Hx) as (w1&->&W1). cbn [mbind res_bind].
    rewrite E3. cbn [bv_of written mbind res_bind]. destruct (lbv_bit_set_ok v3 _ _ x F3 Hx) as (w3&->&W3). cbn [mbind res_bind]. apply ends_Ok. split; [done|]. split; try done. split; cbn; [exists w1, ({[x]} ∪ S1); split_and!; [done..|by intros z [->%elem_of_singleton|?]%elem_of_union; [exists tkn|apply M1]]|by exists v2, S2|by exists w3, ({[x]} ∪ S3)|by exists v4, S4|by exists w5, ({[x]} ∪ S5)].
  - rewrite E2 at 1. cbn [bv_of written mbind res_bind]. rewrite (flag_ok _ v2 S2 x E2 F2 Hx). cbn [mbind res_bind]. destruct (flag (t_unvalued_terminal r) x); [apply ends_Ok; split; [done|by apply locked_refl]|].
    destruct (XSY_is_Terminal tkn) eqn:Hterm; cbn [negb]; [|apply ends_Ok; split; [done|by apply locked_refl]]. rewrite E5 at 1. cbn [bv_of written mbind res_bind]. rewrite (flag_ok _ v5 S5 x E5 F5 Hx). cbn [mbind res_bind].
    destruct (flag (t_valued_locked r) x); [apply ends_Ok; split; [done|by apply locked_refl]|]. destruct (lbv_bit_set_ok v5 _ _ x F5 Hx) as (w5&->&W5). cbn [mbind res_bind]. destruct (lbv_bit_set_ok v2 _ _ x F2 Hx) as (w2&->&W2). cbn [mbind res_bind].
    rewrite E4. cbn [bv_of written mbind res_bind]. destruct (lbv_bit_set_ok v4 _ _ x F4 Hx) as (w4&->&W4). cbn [mbind res_bind]. apply ends_Ok. split; [done|]. split; try done. split; cbn; [by exists v1, S1|exists w2, ({[x]} ∪ S2); split_and!; [done..|by intros z [->%elem_of_singleton|?]%elem_of_union; [exists tkn|apply M2]]|by exists v3, S3|by exists w4, ({[x]} ∪ S4)|by exists w5, ({[x]} ∪ S5)].
Qed.

(** A token that may have its value is one of a terminal. *)
Lemma terminal_accepted log r x value tkn : idle log r -> 0 <= x < xsys -> XSY_by_ID (g_of t0) x = Ok tkn -> value_verdict r value tkn x = None -> XSY_is_Terminal tkn = true.
Proof using.
  clear Hen. intros Hid Hx Htkn. destruct (id_valued _ _ _ _ _ _ Hid) as [(v1&S1&E1&F1&M1) (v2&S2&E2&F2&M2) _ _ _]. unfold value_verdict.
  assert (forall v S o, o = Some v -> flags v xsys S -> (forall z, z ∈ S -> may_be_read t0 z) -> flag o x = true -> XSY_is_Terminal tkn = true) as Hflag.
  { intros v S o -> HS HM Hf. unfold flag in Hf. rewrite (lbv_bit_test_ok _ _ _ _ HS Hx) in Hf. apply bool_decide_eq_true in Hf. destruct (HM _ Hf) as (xsy&Hxsy&Hxt). by assert (xsy = tkn) as <- by congruence. }
  destruct (Boolean value).
  - destruct (flag (t_valued_terminal r) x) eqn:Hf; [intros _; exact (Hflag v1 S1 _ E1 F1 M1 Hf)|]. by destruct (XSY_is_Terminal tkn).
  - destruct (flag (t_unvalued_terminal r) x) eqn:Hf; [intros _; exact (Hflag v2 S2 _ E2 F2 M2 Hf)|]. by destruct (XSY_is_Terminal tkn).
Qed.

(** The set of the current earleme. *)
Lemma latest_set now log r : idle_at t0 allowed c0 now log r -> exists s, t_sets r !! Z.to_nat (latest r) = Some s /\ list.last (earlemes r) = Some (Earleme_of_YS s) /\ 0 <= latest r.
Proof using.
  clear. intros Hid. pose proof (id_store _ _ _ _ _ _ Hid) as Hst. pose proof (id_count _ _ _ _ _ _ Hid) as Hn. unfold latest. destruct (set_read t0 _ r (t_earley_set_count r - 1) Hst) as (s&Hs&_); [lia|]. exists s. split; [done|]. split; [|lia].
  unfold earlemes. rewrite last_lookup, length_fmap. pose proof (st_sets _ _ _ Hst). replace (pred (length (t_sets r))) with (Z.to_nat (t_earley_set_count r - 1)) by lia. by rewrite list_lookup_fmap, Hs.
Qed.

Lemma current_set_ok log r : idle log r -> exists o, ys_at_current_earleme r = Ok o /\ (o = Some (latest r) /\ at_current r \/ o = None /\ ~ at_current r).
Proof using.
  clear. intros Hid. destruct (latest_set _ log r Hid) as (s&Hs&Hlast&Hl). unfold ys_at_current_earleme. rewrite (id_latest _ _ _ _ _ _ Hid). cbn [written mbind res_bind].
  assert (YS_by_ID r (t_earley_set_count r - 1) = Ok s) as -> by (apply rd_Ok; split; [exact Hl|exact Hs]). cbn [mbind res_bind]. eexists. split; [done|]. unfold at_current. rewrite Hlast. destruct (Z.eqb_spec (Earleme_of_YS s) (t_current_earleme r)) as [E|E]; [left; split; [done|by rewrite E]|right; split; [done|by intros [= ?]]].
Qed.

Lemma pim_ok log r y : idle log r -> 0 <= y -> ends_in (first_pim_of_ys_by_nsyid r (latest r) y) (fun o => is_Some o <-> awaits log r (latest r) y).
Proof using.
  clear Hen. intros Hid Hy. destruct (latest_set _ log r Hid) as (_&_&_&Hl). assert (0 <= latest r < t_earley_set_count r) as Hb by (unfold latest in *; lia). destruct (id_settled _ _ _ _ _ _ Hid (latest r) Hb y Hy) as (o&ids&m&Hat&Hh&Hin&_). unfold at_pim in Hat. rewrite Hat. apply ends_Ok.
  assert (is_Some o <-> ids <> []) as ->.
  { destruct Hh as [o ids Hc|p lim q b _ _ _ _]; [|by split]. destruct Hc; [by split; [intros [? ?]|]|]. split; [done|by eexists]. }
  assert ((exists i, i ∈ ids) <-> awaits log r (latest r) y) as <-.
  - split.
    + intros (i&(id&->&z&Hz&Hzl&Hzp)%Hin). exists (AHM_of_YIM z), (Origin_of_YIM z). split; [|done]. apply (id_sound _ _ _ _ _ _ Hid). exists id, z. split; [done|]. unfold key. by rewrite Hzl.
    + intros (x&o'&Hi&Hp). destruct (complete_waits t0 allowed _ r (latest r) x o' (id_complete _ _ _ _ _ _ Hid _ Hb) Hi ltac:(lia)) as (id&z&Hz&Hkey). unfold key in Hkey. injection Hkey as E1 E2 E3. exists (Z.of_nat id). apply Hin. exists id. split; [done|]. exists z. split; [done|]. split; congruence.
  - destruct ids as [|i ids]; split; [done|by intros (i&?%not_elem_of_nil)|intros _; exists i; by left|done].
Qed.

Lemma locked_awaits log r r1 j y : locked r r1 -> awaits log r1 j y <-> awaits log r j y.
Proof using. clear. intros Hl. unfold awaits, state_tokens, earlemes. by rewrite (lk_sets _ _ Hl). Qed.

(** A token that ends later than any set. *)
Lemma tokens_same now log r a : idle_at t0 allowed c0 now log r -> now < a.2 -> forall j y k, state_tokens (a :: log) r j y k <-> state_tokens log r j y k.
Proof using.
  clear. intros Hid Ha j y k. unfold state_tokens, tokens. split; intros (e&Hk&He&Hin); exists e; (split; [done|]); (split; [done|]); [|by right].
  apply elem_of_cons in Hin as [<-|Hin]; [|done]. apply earleme_at in He as (s&Hs&<-). pose proof (id_times _ _ _ _ _ _ Hid _ _ Hs). cbn in Ha. lia.
Qed.

(** The token goes on the stack, when it is not there. *)
Lemma push_ok log r r1 y value e : idle log r -> locked r r1 -> 0 <= y < nsys -> t_current_earleme r < e < JEARLEME_THRESHOLD -> 
  let r2 := if t_furthest_earleme r1 <? e then set_t_furthest_earleme e r1 else r1 in
  ends_in (alternative_insert r2 (MkALT (latest r) e y value (Boolean value))) (fun c =>
    (c.1 < 0 /\ (latest r, y, e) ∈ log /\ c.2 = set_t_alternatives (t_alternatives r) (set_t_furthest_earleme (t_furthest_earleme r) r1))
    \/ (0 <= c.1 /\ ((latest r, y, e) ∉ log) /\ idle ((latest r, y, e) :: log) c.2 /\ exists l f, c.2 = set_t_alternatives l (set_t_furthest_earleme f r1))).
Proof using.
  clear Hen. intros Hid Hlk Hy He r2. destruct (latest_set _ log r Hid) as (s&Hs&_&Hl). pose proof (id_store _ _ _ _ _ _ Hid) as Hst. set (n := t_earley_set_count r) in *. assert (0 <= latest r < n) as Hln by (unfold latest in *; lia).
  assert (Earleme_of_YS s <= t_current_earleme r) as Hs_le by apply (id_times _ _ _ _ _ _ Hid _ _ Hs).
  assert (t_alternatives r2 = t_alternatives r) as Ea by (rewrite <- (lk_alternatives _ _ Hlk); unfold r2; by destruct (_ <? _)). assert (t_sets r2 = t_sets r) as Es2 by (rewrite <- (lk_sets _ _ Hlk); unfold r2; by destruct (_ <? _)).
  assert (store t0 n r2) as Hst2.
  { apply (store_sets t0 n r); [done| | |by rewrite Es2|by rewrite Es2|]; unfold r2; destruct (_ <? _); cbn; first [by rewrite (lk_tables _ _ Hlk)|exact (f_equal t_earley_set_count (lk_still _ _ Hlk))|exact (f_equal t_yims (lk_still _ _ Hlk))]. }
  assert (r2 = set_t_alternatives (t_alternatives r) (set_t_furthest_earleme (Z.max (t_furthest_earleme r) e) r1)) as Er2.
  { unfold r2. pose proof (lk_alternatives _ _ Hlk) as E1. pose proof (lk_furthest _ _ Hlk) as E2. rewrite <- E1, <- E2. destruct (Z.ltb_spec (t_furthest_earleme r1) e); [rewrite Z.max_r by lia|rewrite Z.max_l by lia]; by destruct r1. }
  set (a := MkALT (latest r) e y value (Boolean value)).
  assert (forall b, b ∈ t_alternatives r -> starts n b) as Hstarts.
  { intros b Hb. destruct (id_alternatives _ _ _ _ _ _ Hid b Hb) as [Hin _]. destruct (id_log _ _ _ _ _ _ Hid _ _ _ Hin) as (_&Hj&s'&Hs'&_). apply lookup_lt_Some in Hs'. pose proof (st_sets _ _ _ Hst). unfold starts. lia. }
  destruct (alternative_insert_ok t0 n r2 Hst2 a Hln) as (c&->&Hc); [rewrite Ea; apply (id_sorted _ _ _ _ _ _ Hid)|by rewrite Ea|]. apply ends_Ok. rewrite Ea in Hc. destruct Hc as [(Hneg&->&b&Hb&Et)|(Hpos&l&->&Hsd&Hinl&Hnew)].
  - left. split; [done|]. destruct (id_alternatives _ _ _ _ _ _ Hid b Hb) as [Hin Hend]. rewrite Et in Hin. split; [exact Hin|]. rewrite Er2. do 2 f_equal. unfold alt_token in Et. injection Et as _ _ Ee. cbn in Ee. lia.
  - right. split; [done|]. assert ((latest r, y, e) ∉ log) as Hni. { intros Hin. destruct (id_waiting _ _ _ _ _ _ Hid _ _ _ Hin ltac:(lia)) as (b&Hb&Et). by apply (Hnew b Hb). }
    split; [done|]. split; [|exists l, (Z.max (t_furthest_earleme r) e); by rewrite Er2]. pose proof (id_furthest _ _ _ _ _ _ Hid).
    apply (locked_idle log _ r r1 _ l (Z.max (t_furthest_earleme r) e) Hid Hlk); [by rewrite Er2|apply (tokens_same (t_current_earleme r)); [done|cbn; lia]| |done| | |lia].
    + intros j y' e' [[= -> -> ->]|Hin]%elem_of_cons; [|by apply (id_log _ _ _ _ _ _ Hid)]. split; [done|]. split; [lia|]. exists s. split; [done|lia].
    + intros b [->|Hb]%Hinl; [split; [by left|cbn; lia]|]. destruct (id_alternatives _ _ _ _ _ _ Hid b Hb). split; [by right|lia].
    + intros j y' e' [[= -> -> ->]|Hin]%elem_of_cons He'; [exists a; split; [apply Hinl; by left|done]|]. destruct (id_waiting _ _ _ _ _ _ Hid _ _ _ Hin He') as (b&Hb&Et). exists b. split; [apply Hinl; by right|done].
Qed.

Theorem alternative_ok log r x value length : idle log r -> ends_in (marpa_r_alternative r x value length) (fun c => judged log r x value length c.1 c.2).
Proof using Hen.
  intros Hid. assert (forall r1 code, locked r r1 -> code <> MARPA_ERR_NONE -> refusal log r x value length code -> judged log r x value length code (R_ERROR r1 code)) as Hrefuse.
  { intros r1 code Hlk Hcode Href. assert (idle log (set_t_alternatives (t_alternatives r) (set_t_furthest_earleme (t_furthest_earleme r) r1))) as Hid1.
    { by apply (locked_idle log log r r1 _ (t_alternatives r) (t_furthest_earleme r) Hid Hlk); try done; apply Hid. }
    assert (set_t_alternatives (t_alternatives r) (set_t_furthest_earleme (t_furthest_earleme r) r1) = r1) as E by (rewrite <- (lk_alternatives _ _ Hlk), <- (lk_furthest _ _ Hlk); by destruct r1). rewrite E in Hid1.
    destruct Hlk as [H1 H2 H3 H4 H5 H6 H7 H8 H9 H10 H11]. apply judged_refused; try done. unfold EarleySet.idle. change (t_current_earleme (R_ERROR r1 code)) with (t_current_earleme r1).
    apply (idle_same t0 allowed c0 _ log r1); [exact Hid1|done|done|apply (id_lookups _ _ _ _ _ _ Hid1)|done|apply (id_areas _ _ _ _ _ _ Hid1)|apply (id_seen _ _ _ _ _ _ Hid1)]. }
  pose proof (locked_refl r (id_valued _ _ _ _ _ _ Hid)) as Hrefl. pose proof (st_tables _ _ _ (id_store _ _ _ _ _ _ Hid)) as Ht.
  unfold marpa_r_alternative. assert (R_is_Consistent r = true) as -> by (apply Z.ltb_lt, Hid). cbn [negb].
  destruct (Z.eqb_spec (Input_Phase_of_R r) R_DURING_INPUT) as [Hph|Hph]; cbn [negb]; [|apply ends_Ok; apply Hrefuse; [done|done|by constructor]].
  assert (xsy_id_is_valid (G_of_R r) x = bool_decide (0 <= x < xsys)) as ->.
  { assert (XSY_Count_of_G (G_of_R r) = xsys) as E by exact (f_equal (fun t => XSY_Count_of_G (g_of t)) Ht). unfold xsy_id_is_valid, XSYID_is_Malformed, XSYID_of_G_Exists. rewrite E. destruct (Z.ltb_spec x 0), (Z.ltb_spec x xsys); cbn; symmetry; first [apply bool_decide_eq_true_2; lia|apply bool_decide_eq_false_2; lia]. }
  destruct (bool_decide_reflect (0 <= x < xsys)) as [Hx|Hx]; cbn [negb]; [|apply ends_Ok; apply Hrefuse; [done|done|by constructor]].
  assert (exists tkn, XSY_by_ID (G_of_R r) x = Ok tkn) as (tkn&Htkn).
  { assert (XSY_Count_of_G (G_of_R r) = xsys) as E by exact (f_equal (fun t => XSY_Count_of_G (g_of t)) Ht). unfold XSY_Count_of_G at 1 in E. destruct (lookup_lt_is_Some_2 (t_xsy_stack (G_of_R r)) (Z.to_nat x)) as [tkn Htkn]; [lia|]. exists tkn. apply rd_Ok. split; [lia|done]. }
  rewrite Htkn. cbn [mbind res_bind]. destruct (Z.leb_spec length 0); [apply ends_Ok; apply Hrefuse; [done|done|by constructor]|]. destruct (Z.geb_spec length JEARLEME_THRESHOLD); [apply ends_Ok; apply Hrefuse; [done|done|by constructor]|].
  assert (0 < length < JEARLEME_THRESHOLD) as Hlen by lia. assert (XSY_by_ID (g_of t0) x = Ok tkn) as Htkn0 by (rewrite <- Htkn; exact (f_equal (fun t => XSY_by_ID (g_of t) x) (eq_sym Ht))).
  destruct (lock_value_ok log r x value tkn Hid Hx Htkn0) as ([o r1]&->&Ho&Hlk). cbn [mbind res_bind fst snd] in *. subst o.
  destruct (value_verdict r value tkn x) as [code|] eqn:Ev.
  { apply ends_Ok. apply Hrefuse; [done| |by apply (refused_value log r x value length tkn)]. unfold value_verdict in Ev. repeat case_match; simplify_eq; done. }
  destruct (en_equivalent t0 Hen) as [Hneq Hnb]. destruct (lookup_lt_is_Some_2 (t_nsy_equivalent (t_internal t0)) (Z.to_nat x)) as [oy Hoy]; [lia|].
  assert (rd (t_nsy_equivalent (t_internal (t_tables r1))) x = Ok oy) as ->.
  { rewrite (lk_tables _ _ Hlk). apply rd_Ok. split; [lia|]. rewrite <- Hoy. f_equal. exact (f_equal (fun t => t_nsy_equivalent (t_internal t)) Ht). }
  cbn [mbind res_bind]. destruct oy as [y|]; [|apply ends_Ok; apply Hrefuse; [done|done|by apply (refused_inaccessible log r x value length tkn)]]. pose proof (Hnb _ _ Hoy) as Hy.
  assert (idle log r1) as Hid1. { assert (set_t_alternatives (t_alternatives r) (set_t_furthest_earleme (t_furthest_earleme r) r1) = r1) as E by (rewrite <- (lk_alternatives _ _ Hlk), <- (lk_furthest _ _ Hlk); by destruct r1).
    by apply (locked_idle log log r r1 r1 (t_alternatives r) (t_furthest_earleme r) Hid Hlk (eq_sym E)); try done; apply Hid. }
  assert (latest r1 = latest r) as El by (unfold latest; f_equal; exact (f_equal t_earley_set_count (lk_still _ _ Hlk))). assert (at_current r1 <-> at_current r) as Hcur by (unfold at_current, earlemes; by rewrite (lk_sets _ _ Hlk), (lk_current _ _ Hlk)).
  destruct (current_set_ok log r1 Hid1) as (o&->&[[-> Hat]|[-> Hat]]); cbn [mbind res_bind]; rewrite Hcur in Hat; [|apply ends_Ok; apply Hrefuse; [done|done|by apply (refused_here log r x value length tkn y)]].
  destruct (pim_ok log r1 y Hid1 ltac:(lia)) as (pim&Hpim&Haw). rewrite Hpim. cbn [mbind res_bind]. rewrite El, (locked_awaits log r r1 _ _ Hlk) in Haw.
  destruct pim as [pim|]; [|apply ends_Ok; apply Hrefuse; [done|done|]; apply (refused_unexpected log r x value length tkn y); try done; by intros [? ?]%Haw]. assert (awaits log r (latest r) y) as Ha by (apply Haw; by eexists).
  rewrite (lk_current _ _ Hlk). destruct (Z.geb_spec (t_current_earleme r + length) JEARLEME_THRESHOLD); [apply ends_Ok; apply Hrefuse; [done|done|by apply (refused_far log r x value length tkn y)]|].
  rewrite El. destruct (push_ok log r r1 y value (t_current_earleme r + length) Hid Hlk Hy ltac:(lia)) as (c&->&Hc). cbn [mbind res_bind]. destruct Hc as [(Hneg&Hin&E2)|(Hpos&Hni&Hidl&l&f&E2)].
  - rewrite (proj2 (Z.ltb_lt _ _) Hneg). assert (c.2 = r1) as -> by (rewrite E2, <- (lk_alternatives _ _ Hlk), <- (lk_furthest _ _ Hlk); by destruct r1). apply ends_Ok. apply Hrefuse; [done|done|by apply (refused_duplicate log r x value length tkn y)].
  - rewrite (proj2 (Z.ltb_ge _ _) Hpos). apply ends_Ok. cbn [fst snd]. destruct Hlk as [K1 K2 K3 K4 K5 K6 K7 K8 K9 K10 K11]. apply (judged_accepted log r x value length tkn y); try done; try (by apply (terminal_accepted log r x value tkn)); try lia; rewrite E2; done.
Qed.
End call.
