(* ===== verification/EarleyStart.v ===== *)
(** * The start of the input

    The first set, and [marpa_r_start_input]. *)
From stdpp Require Import sets gmap list list_numbers relations.
From S2P Require Import Prelude MarpaH Avl Dstack BitVector BitVectorTheorems BitScan Matrix Cil CilTheorems MarpaGrammar Census Rewrite Items Relations ItemsTheorems Recce Earley EarleyStage EarleySteps EarleyPostdot EarleySet EarleyCalls.

(** * The first set

    The items of the first set are made from the start rule: the rules that an item expects,
    when their assertions hold ([start_loop]). *)

Section start.
Context `{HL : Library} (t0 : TABLES) (Hen : engine t0) (zw : list ZWA).
#[local] Abbreviation irls := (IRL_Count_of_G (t_internal t0)).
#[local] Abbreviation postdot := (postdot t0).

(** The rules whose assertions hold by default. *)
Definition holds_by_default (z : Z) : Prop := exists x, zw !! Z.to_nat z = Some x /\ Default_Value_of_ZWA x = true.
Definition allowed_rule (i : Z) : Prop := exists a l, ahm_at t0 (first t0 i) a /\ holding (ZWA_CIL_of_AHM a) l /\ Forall holds_by_default l.

(** There are no tokens yet. *)
Definition no_token (_ _ _ : Z) : Prop := False.
#[local] Abbreviation item := (item t0 allowed_rule no_token).
#[local] Abbreviation stage := (stage t0 allowed_rule no_token 0 0).
Context (Hroom : forall l, NoDup l -> (forall x o, (x, o) ∈ l -> item 0 x o) -> Z.of_nat (length l) < YIM_FATAL_THRESHOLD).

Lemma no_token_later j y k : no_token j y k -> 0 <= j < k.
Proof using. done. Qed.

(** ** Assertions *)

(** The values told are the defaults. *)
Record zwas_ok (l : list ZWA) : Prop := {
  zo_length : length l = length zw;
  zo_default j x : l !! j = Some x -> exists x0, zw !! j = Some x0 /\ Default_Value_of_ZWA x = Default_Value_of_ZWA x0;
  zo_memo j x : l !! j = Some x -> Memo_YSID_of_ZWA x = 0 -> Memo_Value_of_ZWA x = Default_Value_of_ZWA x
}.

Lemma evaluate_loop_ok c l : cil_ints c = ints_of l -> Forall (fun z => 0 <= z < Z.of_nat (length zw)) l -> forall m j r, (m + j = length l)%nat -> zwas_ok (t_zwas r) ->
  ends_in (evaluate_zwas_loop m r 0 c (Z.of_nat j)) (fun b => (b.1 = true <-> Forall holds_by_default (drop j l)) /\ exists w, b.2 = set_t_zwas w r /\ zwas_ok w).
Proof using.
  clear. intros Hc Hl m. induction m as [|m IH]; intros j r Hm Hz; cbn [evaluate_zwas_loop].
  { apply ends_Ok. cbn [fst snd]. split; [|exists (t_zwas r); split; [by destruct r|done]]. rewrite drop_ge by lia. by split. }
  destruct (lookup_lt_is_Some_2 l j) as [z Hz0]; [lia|]. rewrite (item_ok _ _ _ _ Hc Hz0). cbn [mbind res_bind]. rewrite Forall_forall in Hl. pose proof (Hl z ltac:(by eapply list_elem_of_lookup_2)) as Hb.
  destruct (lookup_lt_is_Some_2 (t_zwas r) (Z.to_nat z)) as [x Hx]; [rewrite (zo_length _ Hz); lia|]. rewrite (proj2 (rd_Ok (t_zwas r) z x)) by (split; [lia|done]). cbn [mbind res_bind].
  destruct (zo_default _ Hz _ _ Hx) as (x0&Hx0&Ed). assert (Default_Value_of_ZWA x = true <-> holds_by_default z) as Hhold by (rewrite Ed; split; [intros E; by exists x0|intros (x1&Hx1&E); congruence]).
  assert (drop j l = z :: drop (S j) l) as Edrop by (by apply drop_S). replace (Z.of_nat j + 1) with (Z.of_nat (S j)) by lia.
  assert (forall r', (exists w, r' = set_t_zwas w r /\ zwas_ok w) -> forall v : bool, (v = true <-> holds_by_default z) ->
    ends_in (if v then evaluate_zwas_loop m r' 0 c (Z.of_nat (S j)) else Ok (false, r')) (fun b => (b.1 = true <-> Forall holds_by_default (drop j l)) /\ exists w, b.2 = set_t_zwas w r /\ zwas_ok w)) as Hgo.
  { intros r' (w&->&Hw) v Hv. assert (Forall holds_by_default (drop j l) <-> holds_by_default z /\ Forall holds_by_default (drop (S j) l)) as Hfc by (rewrite Edrop; apply Forall_cons). destruct v.
    - destruct (IH (S j) (set_t_zwas w r)) as (b&->&Hb1&w'&Ew'&Hw'); [lia|done|]. apply ends_Ok. split; [rewrite Hb1; tauto|]. exists w'. split; [by rewrite Ew'|done].
    - apply ends_Ok. cbn [fst snd]. split; [split; [done|intros Hh; apply Hfc in Hh as [Hh _]; by apply Hv in Hh]|by exists w]. }
  destruct (Z.eqb_spec (Memo_YSID_of_ZWA x) 0) as [Em|Em].
  - rewrite (zo_memo _ Hz _ _ Hx Em). apply Hgo; [|done]. exists (t_zwas r). split; [by destruct r|done].
  - rewrite wr_total by (apply lookup_lt_Some in Hx; lia). cbn [mbind res_bind]. apply Hgo; [|done]. eexists. split; [done|]. pose proof (lookup_lt_Some _ _ _ Hx) as Hlt. destruct Hz as [H1 H2 H3]. split; [by rewrite length_insert| |].
    + intros i y Hy. apply list_lookup_insert_Some in Hy as [(<-&<-&_)|[_ Hy]]; [by exists x0|by apply H2].
    + intros i y Hy. apply list_lookup_insert_Some in Hy as [(<-&<-&_)|[_ Hy]]; [done|by apply (H3 i)].
Qed.

Lemma evaluate_ok r i : strip (t_tables r) = strip t0 -> 0 <= i < irls -> length zw = length (t_gzwa_stack (g_of t0)) -> zwas_ok (t_zwas r) ->
  ends_in (evaluate_zwas r 0 (first t0 i)) (fun b => (b.1 = true <-> allowed_rule i) /\ exists w, b.2 = set_t_zwas w r /\ zwas_ok w).
Proof using Hen.
  intros Ht Hi Hlen Hz. destruct (en_first _ Hen i Hi) as (e&_&_&a&Ha&_). destruct (en_ahm _ Hen _ (ahm_at_bound _ _ _ Ha)) as (a'&Ha'&Hf). pose proof (ahm_at_inj _ _ _ _ Ha Ha') as <-. destruct (af_assertions _ _ _ Hf) as (l&(c&Hc&Hl)&Hb).
  unfold evaluate_zwas. rewrite (same_ahm t0 _ Ht), (ahm_at_read _ _ _ Ha). cbn [mbind res_bind]. rewrite Hc. cbn [written mbind res_bind]. rewrite (count_ok _ _ Hl). cbn [mbind res_bind]. rewrite Nat2Z.id.
  destruct (evaluate_loop_ok c l Hl) with (m := length l) (j := 0%nat) (r := r) as (b&E&Hb1&Hw); [eapply Forall_impl; [exact Hb|]; intros z; unfold ZWA_Count_of_G; by rewrite Hlen|lia|done|]. change (Z.of_nat 0) with 0 in E. rewrite E. apply ends_Ok. split; [|done]. rewrite Hb1. cbn [drop]. split.
  - intros Hall. exists a, l. split; [done|]. split; [by exists c|done].
  - intros (a2&l2&Ha2&(c2&Hc2&Hl2)&Hall). pose proof (ahm_at_inj _ _ _ _ Ha Ha2) as <-. rewrite Hc in Hc2. injection Hc2 as <-. rewrite Hl in Hl2. by apply ints_of_inj in Hl2 as <-.
Qed.

(** ** An item of the first set *)

(** What the making of the first set does not change. *)
Definition quiet (r : RECCE) : RECCE * list YS * CILAR := (set_t_zwas [] (set_t_bv_irl_seen (BV [] 0) (set_t_irl_cil_stack [] (rest r))), ys_view <$> t_sets r, cilar_of (t_tables r)).

Lemma extends_quiet r r' : extends r r' -> quiet r' = quiet r.
Proof using.
  clear. intros He. unfold quiet. f_equal; [f_equal; [exact (f_equal (fun r => set_t_zwas [] (set_t_bv_irl_seen (BV [] 0) (set_t_irl_cil_stack [] r))) (ex_rest _ _ He))|exact (ex_sets _ _ He)]|exact (ex_arena _ _ He)].
Qed.

Lemma lookups_app n sets yims a y : lookups n sets yims a -> lookups n sets (yims ++ [y]) a.
Proof using.
  clear. intros [H1 H2 H3 H4 H5 H6]. split; [done..|]. intros p x j id Hp Hj. destruct (H6 _ _ _ _ Hp Hj) as (i&z&->&Hz&Ha). exists i, z. split; [done|]. split; [by apply lookup_app_l_Some|done].
Qed.

(** The first item of a rule, that is not in the set. *)
Lemma start_create work r i : stage work r -> 0 <= i < irls -> item 0 (first t0 i) 0 -> ~ has r 0 (first t0 i) 0 ->
  ends_in (earley_item_create r (first t0 i) 0 0) (fun c => (exists work', stage work' c.2) /\ extends r c.2 /\ forall x o, has c.2 0 x o <-> has r 0 x o \/ (x = first t0 i /\ o = 0)).
Proof using HL Hen Hroom.
  intros Hs Hi Hit Hnew. pose proof (sg_building _ _ _ _ _ _ _ Hs) as [Hm Hl Hf]. destruct (first_item t0 Hen i Hi) as [Hx Hp].
  destruct (create_ok t0 0 0 work r (first t0 i) 0 Hm ltac:(lia) Hx ltac:(lia) ltac:(intros _; by exists i) Hnew) as (s&t&y&Hsk&_&Ey&Esrc&->&He&Hm').
  { by apply (room_for t0 allowed_rule no_token 0 0 Hroom work r (first t0 i) 0). }
  apply ends_Ok. cbn [snd]. set (r' := with_yim _ _ _ _ _ _) in *. assert (forall x o, has r' 0 x o <-> has r 0 x o \/ (x = first t0 i /\ o = 0)) as Hhas.
  { intros x o. rewrite !has_key. unfold r'. cbn. rewrite fmap_app, elem_of_app. cbn. rewrite list_elem_of_singleton, Ey. split; (intros [?|Hq]; [by left|right]); [by injection Hq as -> ->|by destruct Hq as [-> ->]]. }
  split; [|done]. eexists. apply (stage_next t0 allowed_rule no_token 0 0 work _ r r' Hs).
  - split; [done| |intros Hpos; lia]. unfold r'. cbn. apply lookups_app. by apply lookups_count.
  - done.
  - apply (links_new t0 r r' y); [apply (sg_links _ _ _ _ _ _ _ Hs)|done|done|done].
  - intros x o Hh. apply Hhas in Hh as [?|[-> ->]]; [by left|by right].
Qed.

(** ** The loop *)
Context (s : Z) (Hstart : t_start_irl (t_internal t0) = Some s).

(** [S]: the rules seen; [ys]: the symbols of the lists on the stack; [Q]: the rules of the
    list at hand that are left. *)
Record starting (S : gset Z) (ys : list Z) (Q : Z -> Prop) (r : RECCE) : Prop := {
  sr_stage : exists work, stage work r;
  sr_seen : bv_rep (t_bv_irl_seen r) irls S;
  sr_start : s ∈ S;
  sr_zwas : zwas_ok (t_zwas r);
  sr_stack : Forall2 (fun c y => lists c irls (rule_for t0 y)) (t_irl_cil_stack r) ys;
  sr_has i : i ∈ S -> has r 0 (first t0 i) 0 \/ (i <> s /\ ~ allowed_rule i);
  sr_only x o : has r 0 x o -> o = 0 /\ exists i, i ∈ S /\ x = first t0 i;
  sr_closed x i : has r 0 x 0 -> rule_for t0 (postdot x) i -> i ∈ S \/ postdot x ∈ ys \/ Q i;
  sr_symbols y : y ∈ ys -> exists x, has r 0 x 0 /\ postdot x = y
}.

(** The first items of rules tell them apart. *)
Lemma first_inj i j : 0 <= i < irls -> 0 <= j < irls -> first t0 i = first t0 j -> i = j.
Proof using Hen.
  intros Hi Hj E. destruct (en_first _ Hen i Hi) as (_&_&_&a&Ha&<-&_). destruct (en_first _ Hen j Hj) as (_&_&_&b&Hb&<-&_). rewrite E in Ha. by rewrite (ahm_at_inj _ _ _ _ Ha Hb).
Qed.

Lemma stage_zwas work r w : stage work r -> stage work (set_t_zwas w r).
Proof using. by apply (stage_same t0 allowed_rule no_token 0 0 work). Qed.
Lemma stage_seen work r v : stage work r -> stage work (set_t_bv_irl_seen v r).
Proof using. by apply (stage_same t0 allowed_rule no_token 0 0 work). Qed.
Lemma stage_stack work r l : stage work r -> stage work (set_t_irl_cil_stack l r).
Proof using. by apply (stage_same t0 allowed_rule no_token 0 0 work). Qed.

Context (Hlen : length zw = length (t_gzwa_stack (g_of t0))).

Lemma seen_size v S : bv_rep v irls S -> Z.of_nat (size S) <= irls.
Proof using Hen.
  clear Hlen Hstart Hroom. intros Hv. rewrite <- (elems_size irls S) by apply Hv. unfold elems, elems_from. etransitivity; [apply Nat2Z.inj_le, length_filter|]. rewrite length_seqZ. pose proof (en_rules _ Hen). lia.
Qed.

(** The body of the loop over a list. *)
Definition start_prediction (set0 prediction_irlid : Z) r : res RECCE :=
  x ← bv_bit_test_then_set (t_bv_irl_seen r) prediction_irlid;
  let r := set_t_bv_irl_seen x.2 r in
  if x.1 : bool then Ok r
  else
    prediction_ahm ← first_ahm r prediction_irlid;
    x ← evaluate_zwas r 0 prediction_ahm;
    if negb x.1 then Ok x.2
    else
      x ← earley_item_create x.2 prediction_ahm set0 set0;
      ahm ← AHM_by_ID (t_tables x.2) prediction_ahm;
      lhs_cil ← written (LHS_CIL_of_AHM ahm);
      Ok (set_t_irl_cil_stack (t_irl_cil_stack x.2 ++ [lhs_cil]) x.2).

(** A rule of the list of the symbol [y]. *)
Lemma start_prediction_ok S ys y (l : list Z) r i : 0 <= i < irls -> rule_for t0 y i -> (exists x, has r 0 x 0 /\ postdot x = y) -> starting S ys (fun i => rule_for t0 y i /\ i ∉ l) r ->
  ends_in (start_prediction 0 i r) (fun r' => quiet r' = quiet r /\ (exists x, has r' 0 x 0 /\ postdot x = y) /\ exists S' ys', starting S' ys' (fun q => rule_for t0 y q /\ q ∉ l ++ [i]) r' /\ (length ys' + size S <= length ys + size S')%nat).
Proof using HL Hen Hroom Hstart Hlen.
  intros Hi Hr (x&Hx&Hxy) [(work&Hs) Hseen Hst Hz Hstack Hhas Honly Hclosed Hsym]. unfold start_prediction.
  assert (exists v, bv_bit_test_then_set (t_bv_irl_seen r) i = Ok (bool_decide (i ∈ S), v) /\ bv_rep v irls ({[i]} ∪ S)) as (v&->&Hv) by (destruct (bv_bit_test_then_set_ok _ _ _ i Hseen Hi) as (v&E&Hv&_); by exists v).
  cbn [mbind res_bind fst snd]. set (r1 := set_t_bv_irl_seen v r). pose proof (stage_seen work r v Hs) as Hs1. assert (strip (t_tables r) = strip t0) as Ht by apply (stage_store _ _ _ _ _ _ _ Hs).
  destruct (bool_decide_reflect (i ∈ S)) as [HiS|HiS].
  { apply ends_Ok. split; [done|]. split; [by exists x|]. exists S, ys. split; [|lia]. assert ({[i]} ∪ S = S) as ES by (apply set_eq; intros j; rewrite elem_of_union, elem_of_singleton; split; [intros [->|?]; done|by right]). rewrite ES in Hv.
    split; [by exists work|done|done|done|done|done|done| |done]. intros z j Hzh Hzj. destruct (Hclosed z j Hzh Hzj) as [?|[?|[? Hl]]]; [by left|by right; left|]. destruct (decide (j = i)) as [->|]; [by left|right; right]. split; [done|]. intros [?|?%list_elem_of_singleton]%elem_of_app; done. }
  destruct (en_first _ Hen i Hi) as (e&He1&He2&a&Ha&Hai&Hpi). unfold first_ahm. rewrite (same_irl_table t0 (t_tables r1) Ht), He1. cbn [mbind res_bind]. rewrite He2. cbn [written mbind res_bind].
  destruct (evaluate_ok r1 i Ht Hi Hlen Hz) as ([b r2']&->&Hb&w&E2&Hw). cbn [mbind res_bind fst snd] in *. subst r2'. set (r2 := set_t_zwas w r1). pose proof (stage_zwas work r1 w Hs1) as Hs2.
  assert (size ({[i]} ∪ S) = Datatypes.S (size S)) as Hsize by (rewrite size_union by set_solver; by rewrite size_singleton).
  destruct b; cbn [negb].
  - assert (allowed_rule i) as Hal by (by apply Hb). assert (item 0 (first t0 i) 0) as Hit.
    { apply item_predict with x 0; [by apply (sg_sound _ _ _ _ _ _ _ Hs)| |by rewrite Hxy|done]. rewrite Hxy. destruct Hr as [_ <-]. apply lhs_bound; [done|]. by apply first_item. }
    assert (~ has r2 0 (first t0 i) 0) as Hni. { intros Hh. destruct (Honly _ _ Hh) as (_&j&Hj&Ej). apply first_inj in Ej as ->; [done|done|]. by apply (br_elems _ _ _ Hseen). }
    destruct (start_create work r2 i Hs2 Hi Hit Hni) as ([o r3]&->&(work3&Hs3)&He&Hh3). cbn [mbind res_bind fst snd] in *. assert (strip (t_tables r3) = strip t0) as Ht3 by apply (stage_store _ _ _ _ _ _ _ Hs3).
    rewrite (same_ahm t0 _ Ht3), (ahm_at_read _ _ _ Ha). cbn [mbind res_bind]. destruct (en_ahm _ Hen _ (ahm_at_bound _ _ _ Ha)) as (a'&Ha'&Hfit). pose proof (ahm_at_inj _ _ _ _ Ha Ha') as <-. destruct (af_lhs_list _ _ _ Hfit) as (c&Hc&Hcl). rewrite Hc. cbn [written mbind res_bind].
    apply ends_Ok. assert (forall z o, has r 0 z o -> has r3 0 z o) as Hmono by (intros z o' Hz0; apply Hh3; by left).
    split; [exact (extends_quiet r2 r3 He)|]. split; [exists x; split; [by apply Hmono|done]|]. exists ({[i]} ∪ S), (ys ++ [postdot (first t0 i)]). split; [|rewrite Hsize, length_app; cbn; lia].
    assert (t_irl_cil_stack r3 = t_irl_cil_stack r) as Estk by exact (f_equal t_irl_cil_stack (ex_rest _ _ He)).
    split.
    + exists work3. by apply stage_stack.
    + change (bv_rep (t_bv_irl_seen r3) irls ({[i]} ∪ S)). by rewrite (f_equal t_bv_irl_seen (ex_rest _ _ He) : t_bv_irl_seen r3 = v).
    + apply elem_of_union. by right.
    + change (zwas_ok (t_zwas r3)). by rewrite (f_equal t_zwas (ex_rest _ _ He) : t_zwas r3 = w).
    + change (t_irl_cil_stack (set_t_irl_cil_stack (t_irl_cil_stack r3 ++ [c]) r3)) with (t_irl_cil_stack r3 ++ [c]). rewrite Estk. apply Forall2_app; [done|]. constructor; [|done]. rewrite <- (postdot_read _ _ _ Ha). exact Hcl.
    + intros j [->%elem_of_singleton|Hj]%elem_of_union; [left; apply Hh3; by right|]. destruct (Hhas j Hj) as [?|?]; [left; by apply Hmono|by right].
    + intros z o' [Hz0|[-> ->]]%Hh3; [destruct (Honly _ _ Hz0) as (->&j&Hj&->); split; [done|]; exists j; split; [apply elem_of_union; by right|done]|]. split; [done|]. exists i. split; [apply elem_of_union; left; by apply elem_of_singleton|done].
    + intros z j [Hz0|[-> _]]%Hh3 Hzj; [|right; left; apply elem_of_app; right; by left]. destruct (decide (j = i)) as [->|]; [left; apply elem_of_union; left; by apply elem_of_singleton|]. destruct (Hclosed z j Hz0 Hzj) as [?|[?|[? Hl]]]; [left; apply elem_of_union; by right|right; left; apply elem_of_app; by left|right; right].
      split; [done|]. intros [?|?%list_elem_of_singleton]%elem_of_app; done.
    + intros y' [Hy'| ->%list_elem_of_singleton]%elem_of_app; [destruct (Hsym y' Hy') as (z&Hz0&?); exists z; split; [by apply Hmono|done]|]. exists (first t0 i). split; [apply Hh3; by right|done].
  - apply ends_Ok. split; [done|]. split; [by exists x|]. exists ({[i]} ∪ S), ys. split; [|lia]. assert (~ allowed_rule i) as Hno by (intros ?%Hb; done). split; [by exists work|done|apply elem_of_union; by right|done|done| | | |done].
    + intros j [->%elem_of_singleton|Hj]%elem_of_union; [|by apply Hhas]. right. split; [|done]. intros ->. done.
    + intros z o Hz0. destruct (Honly z o Hz0) as (->&j&Hj&->). split; [done|]. exists j. split; [apply elem_of_union; by right|done].
    + intros z j Hz0 Hzj. destruct (decide (j = i)) as [->|]; [left; apply elem_of_union; left; by apply elem_of_singleton|]. destruct (Hclosed z j Hz0 Hzj) as [?|[?|[? Hl]]]; [left; apply elem_of_union; by right|by right; left|right; right].
      split; [done|]. intros [?|?%list_elem_of_singleton]%elem_of_app; done.
Qed.

(** A list. *)
Lemma start_predictions_ok S ys y c r : lists c irls (rule_for t0 y) -> (exists x, has r 0 x 0 /\ postdot x = y) -> starting S ys (rule_for t0 y) r ->
  ends_in (start_predictions 0 c r) (fun r' => quiet r' = quiet r /\ exists S' ys', starting S' ys' (fun _ => False) r' /\ (length ys' + size S <= length ys + size S')%nat).
Proof using HL Hen Hroom Hstart Hlen.
  intros Hc Hx Hsr. unfold start_predictions, cil_each.
  apply (each_item (fun l r' => quiet r' = quiet r /\ (exists x, has r' 0 x 0 /\ postdot x = y) /\ exists S' ys', starting S' ys' (fun i => rule_for t0 y i /\ i ∉ l) r' /\ (length ys' + size S <= length ys + size S')%nat) c _ _ (start_prediction 0) r _ Hc).
  - split; [done|]. split; [done|]. exists S, ys. split; [|lia]. destruct Hsr as [H1 H2 H3 H4 H5 H6 H7 H8 H9]. split; try done. intros x i Hh Hr. destruct (H8 x i Hh Hr) as [?|[?|?]]; [by left|by right; left|right; right]. split; [done|apply not_elem_of_nil].
  - intros l i r1 Hi Hr (Hq&Hx1&S1&ys1&Hs1&Hm1). destruct (start_prediction_ok S1 ys1 y l r1 i Hi Hr Hx1 Hs1) as (r2&->&Hq2&Hx2&S2&ys2&Hs2&Hm2). apply ends_Ok. split; [congruence|]. split; [done|]. exists S2, ys2. split; [done|lia].
  - intros l r1 Hin (Hq&_&S1&ys1&Hs1&Hm1). split; [done|]. exists S1, ys1. split; [|done]. destruct Hs1 as [H1 H2 H3 H4 H5 H6 H7 H8 H9]. split; try done. intros x i Hh Hr. destruct (H8 x i Hh Hr) as [?|[?|[Hri Hni]]]; [by left|by right; left|]. destruct Hni. apply Hin. split; [apply Hri|done].
Qed.

Theorem start_loop_ok rounds : forall S ys r, starting S ys (fun _ => False) r -> Z.of_nat (length ys) + irls <= Z.of_nat rounds + Z.of_nat (size S) ->
  ends_in (start_loop rounds 0 r) (fun r' => quiet r' = quiet r /\ exists S', starting S' [] (fun _ => False) r').
Proof using HL Hen Hroom Hstart Hlen.
  induction rounds as [|rounds IH]; intros S ys r Hs Hm; pose proof (seen_size _ _ (sr_seen _ _ _ _ Hs)) as Hsz; cbn [start_loop]; pose proof (sr_stack _ _ _ _ Hs) as Hst.
  - destruct ys; [|cbn in Hm; lia]. apply Forall2_nil_inv_r in Hst. rewrite Hst. cbn [list.last]. apply ends_Ok. split; [done|]. by exists S.
  - destruct ys as [|y ys _] using rev_ind.
    + apply Forall2_nil_inv_r in Hst. rewrite Hst. cbn [list.last]. apply ends_Ok. split; [done|]. by exists S.
    + apply Forall2_app_inv_r in Hst as (l1&l2&Hl1&Hl2&E). apply Forall2_cons_inv_r in Hl2 as (c&l3&Hc&Hl3&->). apply Forall2_nil_inv_r in Hl3 as ->. rewrite E, last_snoc, length_app. cbn [length]. rewrite Nat.add_sub, take_app_length.
      destruct Hs as [(work&H1) H2 H3 H4 H5 H6 H7 H8 H9]. destruct (start_predictions_ok S ys y c (set_t_irl_cil_stack l1 r) Hc) as (r1&->&Hq1&S1&ys1&Hs1&Hm1).
      * apply (H9 y). apply elem_of_app. right. by left.
      * split; [exists work; by apply stage_stack|done|done|done|done|done|done| |intros y' Hy'; apply H9; apply elem_of_app; by left].
        intros x i Hh Hr. destruct (H8 x i Hh Hr) as [?|[Hy|?]]; [by left| |done]. apply elem_of_app in Hy as [?|Hy]; [by right; left|right; right]. apply list_elem_of_singleton in Hy. by rewrite <- Hy.
      * cbn [mbind res_bind]. rewrite length_app in Hm. cbn in Hm. destruct (IH S1 ys1 r1 Hs1 ltac:(lia)) as (r2&->&Hq2&Hs2). apply ends_Ok. split; [|done]. rewrite Hq2. exact Hq1.
Qed.

(** The items of the first set are those of the input. *)
Lemma starting_complete S r : starting S [] (fun _ => False) r -> complete_at t0 allowed_rule no_token r 0.
Proof using Hen Hstart.
  clear Hroom Hlen. intros [_ Hseen Hst _ _ Hhas _ Hclosed _] x o Hi. left. assert (forall k x o, item k x o -> k = 0 -> has r 0 x o) as Hall; [|by apply (Hall 0)]. clear x o Hi.
  induction 1 as [s' Hs'|k x o i Hi IH Hp Hr Hal|j k x o Hi _ Hp Ht|j k x o c Hi _ Hp Hc _ Hd _]; intros Ek; [|subst k|done|subst k].
  - assert (s' = s) as -> by congruence. destruct (Hhas s Hst) as [?|[? _]]; done.
  - destruct (item_bounds _ _ _ Hen no_token_later _ _ _ Hi) as (Ho&_&_). assert (o = 0) as -> by lia. destruct (Hclosed x i (IH eq_refl) Hr) as [HiS|[?%not_elem_of_nil|?]]; [|done|done]. destruct (Hhas i HiS) as [?|[_ Hno]]; [done|]. destruct Hno. by apply Hal.
  - exfalso. destruct (item_bounds _ _ _ Hen no_token_later _ _ _ Hc) as (Hb&_&Hf). destruct Hf as (i&Hi0&->); [lia|]. pose proof (first_item t0 Hen i Hi0). lia.
Qed.
End start.

(** The making of the items of the first set leaves the stack of completions alone. *)
Section completions.
Context `{HL : Library}.

Lemma for_kept {A B} (f : A -> B) (body : Z -> A -> res A) : (forall j a a', body j a = Ok a' -> f a' = f a) -> forall n i a a', for_res n i body a = Ok a' -> f a' = f a.
Proof using. clear. intros Hb n. induction n as [|n IH]; intros i a a' E; [cbn in E; congruence|]. apply bind_Ok in E as (b&E&Er). rewrite (IH _ _ _ Er). by apply Hb in E. Qed.

Lemma create_kept r x o s c : earley_item_create r x o s = Ok c -> t_completion_stack c.2 = t_completion_stack r.
Proof using.
  unfold earley_item_create. intros (ys&_&E)%bind_Ok. apply bind_Ok in E as (r1&E1&E). unfold upd_ys in E1. apply bind_Ok in E1 as (y&_&E1). apply bind_Ok in E1 as (l&_&E1). injection E1 as <-. cbn zeta in E. destruct (_ && _); [by injection E as <-|]. apply bind_Ok in E as (r2&E2&E). injection E as <-. cbn [snd].
  apply bind_Ok in E2 as (l2&_&E2). injection E2 as <-. by destruct (_ >=? _).
Qed.

Lemma evaluate_kept r s x c : evaluate_zwas r s x = Ok c -> t_completion_stack c.2 = t_completion_stack r.
Proof using.
  unfold evaluate_zwas. intros (a&_&E)%bind_Ok. apply bind_Ok in E as (l&_&E). apply bind_Ok in E as (n&_&E). revert E. generalize (Z.to_nat n), 0. clear n. intros n. revert r. induction n as [|n IH]; intros r i E; cbn in E; [by injection E as <-|].
  apply bind_Ok in E as (z&_&E). apply bind_Ok in E as (w&_&E). destruct (_ =? _).
  - destruct (Memo_Value_of_ZWA w); [by apply IH in E|by injection E as <-].
  - apply bind_Ok in E as (v&_&E). destruct (Default_Value_of_ZWA w); [by apply IH in E|by injection E as <-].
Qed.

Lemma loop_kept n s r r' : start_loop n s r = Ok r' -> t_completion_stack r' = t_completion_stack r.
Proof using.
  revert r. induction n as [|n IH]; intros r E; cbn [start_loop] in E; destruct (list.last (t_irl_cil_stack r)) as [c|]; try done; [congruence| |congruence]. apply bind_Ok in E as (r1&E1&E). rewrite (IH _ E). clear IH E.
  unfold start_predictions, cil_each in E1. apply bind_Ok in E1 as (m&_&E1). refine (for_kept t_completion_stack _ _ _ _ _ _ E1). clear. intros j r r' E. apply bind_Ok in E as (i&_&E). apply bind_Ok in E as ([b v]&_&E). cbn [fst snd] in E. destruct b; [by injection E as <-|].
  apply bind_Ok in E as (x&_&E). apply bind_Ok in E as (y&Ey%evaluate_kept&E). destruct (negb y.1); [by injection E as <-|]. apply bind_Ok in E as (z&Ez%create_kept&E). apply bind_Ok in E as (a&_&E). apply bind_Ok in E as (w&_&E). injection E as <-. cbn. by rewrite Ez, Ey.
Qed.

Lemma fill_kept r s r' : fill_set0 r s = Ok r' -> t_completion_stack r' = t_completion_stack r.
Proof using.
  unfold fill_set0. intros (i&_&E)%bind_Ok. apply bind_Ok in E as (x&_&E). apply bind_Ok in E as (y&Ey%create_kept&E). apply bind_Ok in E as (v&_&E). apply bind_Ok in E as (w&_&E). apply bind_Ok in E as (a&_&E). apply bind_Ok in E as (l&_&E). apply loop_kept in E. by rewrite E, <- Ey.
Qed.
End completions.

(** * [marpa_r_new] and [marpa_r_start_input]

    A new recognizer; the vectors and the work areas it gets when its input starts, and its
    first set. *)

Section input.
Context `{HL : Library} (junk : nat -> list Z) (t0 : TABLES) (Hen : engine t0) (zw : list ZWA) (c0 : Z) (Hc0 : c0 < 2 ^ 62).
#[local] Abbreviation nsys := (NSY_Count_of_G (t_internal t0)).
#[local] Abbreviation irls := (IRL_Count_of_G (t_internal t0)).
#[local] Abbreviation xsys := (XSY_Count_of_G (g_of t0)).

(** A recognizer whose input has not started. *)
Record fresh (r : RECCE) : Prop := {
  fr_tables : strip (t_tables r) = strip t0;
  fr_arena : held c0 (cilar_of (t_tables r));
  fr_sets : t_sets r = [] /\ t_yims r = [] /\ t_pims r = [] /\ t_earley_set_count r = 0;
  fr_alternatives : t_alternatives r = [] /\ t_furthest_earleme r = 0;
  fr_phase : Input_Phase_of_R r = R_BEFORE_INPUT;
  fr_consistent : t_first_inconsistent_ys r < 0;
  fr_psar : t_dot_psar_object r = psar_init (ahms t0);
  fr_zwas : t_zwas r = zw /\ length zw = length (t_gzwa_stack (g_of t0)) /\ Forall (fun x => Memo_YSID_of_ZWA x = -1) zw;
  fr_stacks : t_yim_work_stack r = None /\ t_completion_stack r = None;
  fr_expected : exists S, bv_rep (t_bv_nsyid_is_expected r) nsys S;
  fr_events : exists S, flags (t_nsy_expected_is_event r) nsys S;
  fr_seen : exists S, bv_rep (t_bv_irl_seen r) irls S
}.

(** ** The vectors *)

Lemma valued_symbols_ok r : strip (t_tables r) = strip t0 ->
  ends_in (valued_symbols junk r) (fun r' => valued_ok t0 r' /\ exists a b c d e, r' = set_t_valued_terminal a (set_t_unvalued_terminal b (set_t_valued c (set_t_unvalued d (set_t_valued_locked e r))))).
Proof using Hen.
  intros Ht. pose proof (en_xsys _ Hen) as Hx. assert (XSY_Count_of_G (G_of_R r) = xsys) as E by exact (f_equal (fun t => XSY_Count_of_G (g_of t)) Ht). unfold valued_symbols. rewrite E.
  destruct (lbv_new_ok (junk 23%nat) xsys Hx) as (v1&->&F1). cbn [mbind res_bind]. destruct (lbv_new_ok (junk 24%nat) xsys Hx) as (v2&->&F2). cbn [mbind res_bind]. destruct (lbv_new_ok (junk 25%nat) xsys Hx) as (v3&->&F3). cbn [mbind res_bind].
  destruct (lbv_new_ok (junk 26%nat) xsys Hx) as (v4&->&F4). cbn [mbind res_bind]. destruct (lbv_new_ok (junk 27%nat) xsys Hx) as (v5&->&F5). cbn [mbind res_bind].
  set (good (c : Bit_Vector * Bit_Vector * Bit_Vector * Bit_Vector * Bit_Vector) := (exists S, flags c.1.1.1.1 xsys S /\ forall x, x ∈ S -> may_be_read t0 x) /\ (exists S, flags c.1.1.1.2 xsys S /\ forall x, x ∈ S -> may_be_read t0 x) /\ (exists S, flags c.1.1.2 xsys S) /\ (exists S, flags c.1.2 xsys S) /\ (exists S, flags c.2 xsys S)).
  match goal with |- ends_in (?m ≫= _) _ => assert (ends_in m good) as ([[[[w1 w2] w3] w4] w5]&->&(S1&W1&M1)&(S2&W2&M2)&(S3&W3)&(S4&W4)&(S5&W5)) end.
  - apply (ends_for (fun _ => good)); [split_and!; cbn [fst snd]; exists ∅; try (split; [|by intros x ?%not_elem_of_empty]); done| |done]. intros j [[[[c1 c2] c3] c4] c5] Hj ((T1&C1&N1)&(T2&C2&N2)&(T3&C3)&(T4&C4)&(T5&C5)). cbn [fst snd] in *.
    assert (0 <= j < xsys) as Hjx by (split; [lia|]; rewrite <- E; unfold XSY_Count_of_G, G_of_R; unfold xsy_count in Hj; lia).
    destruct (lookup_lt_is_Some_2 (t_xsy_stack (G_of_R r)) (Z.to_nat j)) as [xsy Hxsy]; [unfold xsy_count in Hj; unfold G_of_R; lia|]. assert (XSY_by_ID (G_of_R r) j = Ok xsy) as Hread by (apply rd_Ok; split; [lia|done]). rewrite Hread. cbn [mbind res_bind].
    assert (XSY_by_ID (g_of t0) j = Ok xsy) as Hread0 by (rewrite <- Hread; exact (f_equal (fun t => XSY_by_ID (g_of t) j) (eq_sym Ht))).
    assert (forall c T, flags c xsys T -> (forall x, x ∈ T -> may_be_read t0 x) -> exists c', (if XSY_is_Terminal xsy then lbv_bit_set c j else Ok c) = Ok c' /\ exists T', flags c' xsys T' /\ forall x, x ∈ T' -> may_be_read t0 x) as Hread_set.
    { intros c T HT HN. destruct (XSY_is_Terminal xsy) eqn:Hxt; [|exists c; split; [done|by exists T]]. destruct (lbv_bit_set_ok c _ _ j HT Hjx) as (c'&->&Hc'). exists c'. split; [done|]. eexists. split; [exact Hc'|].
      intros x [->%elem_of_singleton|Hx']%elem_of_union; [by exists xsy|by apply HN]. }
    assert (forall (b : bool) c T, flags c xsys T -> exists c', (if b then lbv_bit_set c j else Ok c) = Ok c' /\ exists T', flags c' xsys T') as Hset.
    { intros [] c T HT; [destruct (lbv_bit_set_ok c _ _ j HT Hjx) as (c'&->&Hc'); exists c'; split; [done|by eexists]|exists c; split; [done|by exists T]]. }
    destruct (Hset (XSY_is_Valued_Locked xsy) c5 T5 C5) as (d5&->&D5). cbn [mbind res_bind]. destruct (XSY_is_Valued xsy).
    + destruct (Hset true c3 T3 C3) as (d3&Ed3&D3). cbn in Ed3. rewrite Ed3. cbn [mbind res_bind]. destruct (Hread_set c1 T1 C1 N1) as (d1&->&D1). cbn [mbind res_bind]. apply ends_Ok. split_and!; cbn [fst snd]; try done; by eexists.
    + destruct (Hset true c4 T4 C4) as (d4&Ed4&D4). cbn in Ed4. rewrite Ed4. cbn [mbind res_bind]. destruct (Hread_set c2 T2 C2 N2) as (d2&->&D2). cbn [mbind res_bind]. apply ends_Ok. split_and!; cbn [fst snd]; try done; by eexists.
  - cbn [mbind res_bind fst snd] in *. apply ends_Ok. split; [|by eexists _, _, _, _, _]. split; cbn; by eexists _, _.
Qed.

Lemma start_events_ok r : strip (t_tables r) = strip t0 ->
  ends_in (start_events junk r) (fun r' => (exists C N P, active_events t0 r' C N P) /\ exists n a b c, r' = set_t_active_event_count n (set_t_completion_event_is_active a (set_t_nulled_event_is_active b (set_t_prediction_event_is_active c r)))).
Proof using Hen.
  intros Ht. assert (XSY_Count_of_G (G_of_R r) = xsys) as E by exact (f_equal (fun t => XSY_Count_of_G (g_of t)) Ht).
  assert (forall k o P, (exists v, o = Some v /\ bits v xsys P) -> exists l n, clone_symbols junk k o xsys = Ok (BV l 0) /\ (exists S, flags (BV l 0) xsys S) /\ count_symbols r o = Ok n) as Hclone.
  { intros k o P (v&->&S&HS&_). unfold clone_symbols, count_symbols. cbn [written mbind res_bind]. destruct (lbv_clone_ok (junk k) v xsys S (rep_flags _ _ _ HS)) as (l&->&Hl). cbn [mbind res_bind].
    rewrite (bv_count_ok _ _ xsys S HS) by (rewrite <- E; unfold XSY_Count_of_G, xsy_count, G_of_R; lia). cbn [mbind res_bind]. exists l. eexists. split; [done|]. split; [by exists S|done]. }
  destruct (en_completion _ Hen) as (v1&P1&E1&B1), (en_nulled _ Hen) as (v2&P2&E2&B2), (en_prediction _ Hen) as (v3&P3&E3&B3).
  assert (t_lbv_xsyid_is_completion_event (t_tables r) = Some v1) as H1 by (rewrite <- E1; exact (f_equal t_lbv_xsyid_is_completion_event Ht)). assert (t_lbv_xsyid_is_nulled_event (t_tables r) = Some v2) as H2 by (rewrite <- E2; exact (f_equal t_lbv_xsyid_is_nulled_event Ht)).
  assert (t_lbv_xsyid_is_prediction_event (t_tables r) = Some v3) as H3 by (rewrite <- E3; exact (f_equal t_lbv_xsyid_is_prediction_event Ht)).
  unfold start_events. rewrite E, H1, H2, H3. destruct (Hclone 28%nat (Some v1) P1 ltac:(by exists v1)) as (l1&n1&->&(S1&F1)&->). cbn [mbind res_bind]. destruct (Hclone 29%nat (Some v2) P2 ltac:(by exists v2)) as (l2&n2&->&(S2&F2)&->). cbn [mbind res_bind].
  destruct (Hclone 30%nat (Some v3) P3 ltac:(by exists v3)) as (l3&n3&->&(S3&F3)&->). cbn [mbind res_bind]. apply ends_Ok. split; [|by eexists _, _, _, _]. exists S1, S2, S3. split; by eexists.
Qed.

Lemma psar_reset_ok r n : t_dot_psar_object r = psar_init n -> psar_reset r = Ok r.
Proof using. clear. intros E. unfold psar_reset, psar_dealloc. rewrite E. cbn. destruct r. cbn in *. by subst. Qed.

(** The state before the first set. *)
Record ready (r : RECCE) : Prop := {
  rd_tables : strip (t_tables r) = strip t0;
  rd_arena : held c0 (cilar_of (t_tables r));
  rd_sets : t_sets r = [] /\ t_yims r = [] /\ t_pims r = [] /\ t_earley_set_count r = 0;
  rd_psar : t_dot_psar_object r = psar_init (ahms t0);
  rd_zwas : t_zwas r = zw /\ length zw = length (t_gzwa_stack (g_of t0)) /\ Forall (fun x => Memo_YSID_of_ZWA x = -1) zw;
  rd_stacks : t_yim_work_stack r = Some [] /\ t_completion_stack r <> None;
  rd_areas : areas t0 r;
  rd_seen : exists S, bv_rep (t_bv_irl_seen r) irls S
}.

Lemma start_workareas_ok r : strip (t_tables r) = strip t0 -> (exists S, bv_rep (t_bv_nsyid_is_expected r) nsys S) -> (exists S, flags (t_nsy_expected_is_event r) nsys S) -> t_yim_work_stack r = None -> t_completion_stack r = None ->
  ends_in (start_workareas junk r) (fun r' => areas t0 r' /\ exists a b c d, r' = set_t_completion_stack (Some []) (set_t_yim_work_stack (Some []) (set_t_pim_workarea a (set_t_lim_chain b (set_t_bv_lim_symbols c (set_t_bv_pim_symbols d r)))))).
Proof using Hen.
  intros Ht Hex Hev Hw Hc. pose proof (en_symbols _ Hen) as Hn. assert (NSY_Count_of_G (t_internal (t_tables r)) = nsys) as E by exact (f_equal (fun t => NSY_Count_of_G (t_internal t)) Ht). unfold start_workareas. rewrite E.
  destruct (bv_obs_create_ok (junk 31%nat) nsys) as (v1&->&H1); [lia|]. cbn [mbind res_bind]. destruct (bv_obs_create_ok (junk 32%nat) nsys) as (v2&->&H2); [lia|]. cbn [mbind res_bind]. cbn [t_yim_work_stack set_t_pim_workarea set_t_lim_chain set_t_bv_lim_symbols set_t_bv_pim_symbols]. rewrite Hw. cbn [t_completion_stack set_t_yim_work_stack set_t_pim_workarea set_t_lim_chain set_t_bv_lim_symbols set_t_bv_pim_symbols]. rewrite Hc.
  apply ends_Ok. split; [|by eexists _, _, _, _]. split; cbn; [by exists v2, ∅|by exists v1, ∅|rewrite length_replicate; lia|rewrite length_replicate; lia|done|done].
Qed.

(** ** The first set *)
#[local] Abbreviation allowed := (allowed_rule t0 zw).
#[local] Abbreviation stage0 := (stage t0 allowed no_token 0 0).
Context (Hroom : forall l, NoDup l -> (forall x o, (x, o) ∈ l -> item t0 allowed no_token 0 x o) -> Z.of_nat (length l) < YIM_FATAL_THRESHOLD).

Definition set0 : YS := MkYS 0 None None None None 0 0 0 (-1) None.
Definition opened0 (r : RECCE) : RECCE := set_t_latest_earley_set (Some 0) (set_t_first_earley_set (Some 0) (set_t_earley_set_count 1 (set_t_sets [set0] r))).

Lemma opened0_stage r : ready r -> stage0 [] (opened0 r).
Proof using.
  clear Hroom Hc0. intros [H1 H2 (Es&Ey&Ep&Ec) H4 H5 (Ew&_) H7 H8].
  assert (store t0 (0 + 1) (opened0 r)) as Hst.
  { split; cbn; try done.
    - intros k s Hs. destruct k as [|[]]; cbn in Hs; [by injection Hs as <-|done|done].
    - intros j k a b Ha Hb Hjk. destruct k as [|[]]; [lia|done|done].
    - by rewrite Ey.
    - rewrite Ey. apply NoDup_nil_2. }
  split; [split| | |].
  - split; cbn; try done; rewrite ?Ey; try done. intros s Hs. by injection Hs as <-.
  - cbn. rewrite Ey, H4. split; cbn; try done.
    + intros p x Hp. destruct p as [|[]]; cbn in Hp; [injection Hp as <-; cbn; rewrite length_replicate; unfold ahms; lia|done|done].
    + exists 0%nat. split; [done|]. split; [lia|]. intros p x Hp. destruct p as [|[]]; cbn in Hp; [injection Hp as <-; split; [lia|by intros [? ?]]|done|done].
    + intros p x o Hp. destruct p as [|[]]; cbn in Hp; [by injection Hp as <-|done|done].
    + intros o s q Hs. destruct o as [|[]]; cbn in Hs; [by injection Hs as <-|done|done].
    + intros p x j id Hp Hj. destruct p as [|[]]; cbn in Hp; [injection Hp as <-; cbn in Hj; by apply lookup_replicate in Hj as [? _]|done|done].
  - intros Hpos. lia.
  - intros j x o (id&y&Hy&_). cbn in Hy. by rewrite Ey in Hy.
  - intros j Hj. lia.
  - intros i y l Hy. cbn in Hy. by rewrite Ey in Hy.
Qed.

(** The first item, of the start rule. *)
Lemma start_item r : ready r -> exists s a c, t_start_irl (t_internal t0) = Some s /\ 0 <= s < irls /\ ahm_at t0 (first t0 s) a /\ LHS_CIL_of_AHM a = Some c /\ lists c irls (rule_for t0 (postdot t0 (first t0 s)))
  /\ ends_in (x ← earley_item_create (opened0 r) (first t0 s) 0 0; v ← bv_clear (t_bv_irl_seen x.2); v ← bv_bit_set v s; Ok (set_t_irl_cil_stack [c] (set_t_bv_irl_seen v x.2)))
    (fun r' => quiet r' = quiet (opened0 r) /\ starting t0 zw s {[s]} [postdot t0 (first t0 s)] (fun _ => False) r').
Proof using HL Hen Hroom.
  intros Hr. destruct (en_start _ Hen) as (s&Es&Hs&_). destruct (en_first _ Hen s Hs) as (e&_&_&a&Ha&_&Hp). destruct (en_ahm _ Hen _ (ahm_at_bound _ _ _ Ha)) as (a'&Ha'&Hfit). pose proof (ahm_at_inj _ _ _ _ Ha Ha') as <-. destruct (af_lhs_list _ _ _ Hfit) as (c&Hc&Hcl). rewrite (postdot_read _ _ _ Ha) in Hcl.
  exists s, a, c. do 5 (split; [done|]). pose proof (opened0_stage r Hr) as Hst. destruct (rd_sets _ Hr) as (_&Ey&_).
  assert (forall x o, ~ has (opened0 r) 0 x o) as Hno by (intros x o (id&y&Hy&_); cbn in Hy; by rewrite Ey in Hy).
  destruct (start_create t0 Hen zw Hroom [] (opened0 r) s Hst Hs (item_start _ _ _ _ Es) (Hno _ _)) as ([o r1]&->&(work&Hs1)&He&Hh). cbn [mbind res_bind snd] in *.
  assert (t_bv_irl_seen r1 = t_bv_irl_seen r) as Eseen by exact (f_equal t_bv_irl_seen (ex_rest _ _ He)). destruct (rd_seen _ Hr) as (S0&HS0). rewrite Eseen. destruct (bv_clear_ok _ _ _ HS0) as (v&->&Hv&_). cbn [mbind res_bind]. destruct (bv_bit_set_ok v irls ∅ s Hv Hs) as (w&->&Hw&_). cbn [mbind res_bind]. apply ends_Ok.
  split; [exact (extends_quiet _ _ He)|]. assert ({[s]} ∪ ∅ = ({[s]} : gset Z)) as Eu by (apply set_eq; intros i; rewrite elem_of_union; split; [intros [?|?%not_elem_of_empty]; done|by left]). rewrite Eu in Hw.
  assert (forall x o, has r1 0 x o <-> x = first t0 s /\ o = 0) as Hh1 by (intros x o'; rewrite Hh; split; [intros [?%Hno|?]; done|by right]).
  split.
  - exists work. apply stage_stack. by apply stage_seen.
  - exact Hw.
  - by apply elem_of_singleton.
  - change (zwas_ok zw (t_zwas r1)). rewrite (f_equal t_zwas (ex_rest _ _ He) : t_zwas r1 = t_zwas r). destruct (rd_zwas _ Hr) as (->&_&Hm). split; [done|intros j x Hj; by exists x|]. intros j x Hj E. rewrite Forall_forall in Hm. specialize (Hm x ltac:(by eapply list_elem_of_lookup_2)). lia.
  - constructor; [exact Hcl|done].
  - intros i ->%elem_of_singleton. left. by apply Hh1.
  - intros x o' [-> ->]%Hh1. split; [done|]. exists s. split; [by apply elem_of_singleton|done].
  - intros x i [-> _]%Hh1 _. right. left. by left.
  - intros y ->%list_elem_of_singleton. exists (first t0 s). split; [by apply Hh1|done].
Qed.

(** What the making of the first set gives. *)
Record first_set (r r' : RECCE) : Prop := {
  fs_made : exists work r6 r7 s0, stage0 work r6 /\ t_sets r6 !! 0%nat = Some s0 /\ complete_at t0 allowed no_token r6 0 /\ quiet r6 = quiet (opened0 r)
    /\ settled_to t0 allowed no_token 0 r6 s0 c0 r7 /\ closed 0 work r7 r' /\ (exists S, bv_rep (t_bv_irl_seen r6) irls S) /\ t_completion_stack r6 <> None;
  fs_phase : Input_Phase_of_R r' = Input_Phase_of_R r /\ R_is_Exhausted r' = R_is_Exhausted r
}.

(** The items of the first set. *)
Lemma start_set0_eq r : t_sets r = [] -> t_earley_set_count r = 0 ->
  start_set0 r = (r ← fill_set0 (opened0 r) 0; r ← postdot_items_create r (bv_create (NSY_Count_of_G (t_internal (t_tables r)))) 0; earley_set_update_items r 0).
Proof using.
  clear. intros Es Ec. unfold start_set0. assert (earley_set_new r 0 = (0, set_t_earley_set_count 1 (set_t_sets [set0] r))) as -> by (unfold earley_set_new; by rewrite Es, Ec). reflexivity.
Qed.

Lemma quiet_tables r r' : quiet r' = quiet r -> strip (t_tables r') = strip (t_tables r).
Proof using. clear. intros E. exact (f_equal (fun p => t_tables p.1.1) E). Qed.

Lemma ends_at {A B} (m : res A) (a : A) (k : A -> res B) Q : m = Ok a -> ends_in (k a) Q -> ends_in (m ≫= k) Q.
Proof using. clear. by intros ->. Qed.

Lemma fill_set0_ok r : ready r -> ends_in (fill_set0 (opened0 r) 0) (fun r6 => quiet r6 = quiet (opened0 r) /\ (exists work, stage0 work r6) /\ complete_at t0 allowed no_token r6 0 /\ exists S, bv_rep (t_bv_irl_seen r6) irls S).
Proof using HL Hen Hroom.
  intros Hr. pose proof (rd_tables _ Hr) as Ht. destruct (rd_zwas _ Hr) as (_&Hlz&_). destruct (start_item r Hr) as (s&a&c&Hst&Hs&Ha&Hc&Hcl&r2&E2&Hq2&Hsr2). unfold fill_set0.
  assert (deref (t_start_irl (t_internal (t_tables (opened0 r)))) = Ok s) as E by (change (deref (t_start_irl (t_internal (strip (t_tables r)))) = Ok s); rewrite Ht; exact (f_equal deref Hst)).
  apply (ends_at _ s _ _ E). clear E. assert (first_ahm (opened0 r) s = Ok (first t0 s)) as E.
  { destruct (en_first _ Hen s Hs) as (e&He1&He2&_). unfold first_ahm. rewrite (same_irl_table t0 (t_tables (opened0 r)) Ht), He1. cbn [mbind res_bind]. by rewrite He2. }
  apply (ends_at _ _ _ _ E). clear E.
  pose proof (quiet_tables _ _ Hq2) as Ht2. change (strip (t_tables (opened0 r))) with (strip (t_tables r)) in Ht2. rewrite Ht in Ht2.
  apply bind_Ok in E2 as ([o r1]&E1&E2). apply (ends_at _ _ _ _ E1). cbn [snd] in *. apply bind_Ok in E2 as (v&Ev&E2). apply (ends_at _ _ _ _ Ev). apply bind_Ok in E2 as (w&Ew2&E2). apply (ends_at _ _ _ _ Ew2).
  assert (set_t_irl_cil_stack [c] (set_t_bv_irl_seen w r1) = r2) as E3 by congruence. clear E2.
  assert (strip (t_tables r1) = strip t0) as Ht1 by (rewrite <- Ht2, <- E3; reflexivity).
  assert (AHM_by_ID (t_tables r1) (first t0 s) = Ok a) as E by (rewrite (same_ahm t0 _ Ht1); exact (ahm_at_read _ _ _ Ha)). apply (ends_at _ _ _ _ E). clear E.
  assert (written (LHS_CIL_of_AHM a) = Ok c) as E by (by rewrite Hc). apply (ends_at _ _ _ _ E). clear E. rewrite E3.
  destruct (start_loop_ok t0 Hen zw Hroom s Hst Hlz (Datatypes.S (irl_count (t_tables r2))) {[s]} _ r2 Hsr2) as (r6&->&Hq6&S&Hsr6).
  { assert (IRL_Count_of_G (t_internal (t_tables r2)) = irls) as E by exact (f_equal (fun t => IRL_Count_of_G (t_internal t)) Ht2). rewrite size_singleton. cbn [length]. rewrite <- E. unfold IRL_Count_of_G, irl_count. lia. }
  apply ends_Ok. split; [congruence|]. split; [apply Hsr6|]. split; [by apply (starting_complete t0 Hen zw s Hst S r6)|]. exists S. apply Hsr6.
Qed.

Lemma quiet_areas r r' : quiet r' = quiet r -> areas t0 r -> areas t0 r'.
Proof using.
  clear. intros E [K1 K2 K3 K4 K5 K6]. split.
  - rewrite (f_equal (fun p => t_bv_pim_symbols p.1.1) E : t_bv_pim_symbols r' = t_bv_pim_symbols r). done.
  - rewrite (f_equal (fun p => t_bv_lim_symbols p.1.1) E : t_bv_lim_symbols r' = t_bv_lim_symbols r). done.
  - rewrite (f_equal (fun p => t_pim_workarea p.1.1) E : t_pim_workarea r' = t_pim_workarea r). done.
  - rewrite (f_equal (fun p => t_lim_chain p.1.1) E : t_lim_chain r' = t_lim_chain r). done.
  - rewrite (f_equal (fun p => t_bv_nsyid_is_expected p.1.1) E : t_bv_nsyid_is_expected r' = t_bv_nsyid_is_expected r). done.
  - rewrite (f_equal (fun p => t_nsy_expected_is_event p.1.1) E : t_nsy_expected_is_event r' = t_nsy_expected_is_event r). done.
Qed.

Context (Hfuel : (MARPA_AVL_MAX_HEIGHT <= tree_rounds)%nat).

Lemma start_set0_ok r : ready r -> ends_in (start_set0 r) (first_set r).
Proof using HL Hen Hroom Hc0 Hfuel.
  intros Hr. destruct (rd_sets _ Hr) as (Es&_&_&Ec). rewrite (start_set0_eq r Es Ec). destruct (fill_set0_ok r Hr) as (r6&E6&Hq&(work&Hs6)&Hall6&Hseen). pose proof (fill_kept _ _ _ E6) as Ecs. rewrite E6. cbn [mbind res_bind].
  pose proof (f_equal (fun p => p.1.2) Hq : ys_view <$> t_sets r6 = ys_view <$> t_sets (opened0 r)) as HV6. pose proof (f_equal snd Hq : cilar_of (t_tables r6) = cilar_of (t_tables (opened0 r))) as HC6.
  destruct (view_at (opened0 r) r6 0 set0 HV6 eq_refl) as (s0&Hs0&Hv0).
  assert (strip (t_tables r6) = strip t0) as Ht6 by apply (stage_store _ _ _ _ _ _ _ Hs6). assert (NSY_Count_of_G (t_internal (t_tables r6)) = nsys) as -> by exact (f_equal (fun t => NSY_Count_of_G (t_internal t)) Ht6).
  assert (0 <= nsys <= INT_MAX) as Hnsys by (pose proof (en_symbols _ Hen); lia).
  assert (forall j, 0 <= j <= 0 -> complete_at t0 allowed no_token r6 j) as Hall by (intros j Hj; by replace j with 0 by lia).
  assert (c0 + nsys < SIZE_MOD - 1) as Hroom0. { pose proof (en_symbols _ Hen) as [_ Hn]. change INT_MAX with 2147483647 in Hn. change SIZE_MOD with 18446744073709551616. lia. }
  destruct (postdot_items_create_ok t0 Hen allowed no_token no_token_later 0 ltac:(lia) 0 work r6 Hs6 s0 Hs0 Hall c0 Hroom0 Hfuel (bv_create nsys) (bv_create_ok nsys Hnsys)) as (r7&->&Hset).
  { apply (quiet_areas (opened0 r) r6 Hq). destruct (rd_areas _ Hr). by split. } { rewrite HC6. exact (rd_arena _ Hr). } { exact (f_equal Postdot_SYM_Count_of_YS Hv0). }
  cbn [mbind res_bind]. destruct (settled_set t0 allowed no_token 0 r6 s0 Hs0 _ r7 Hset) as (s7&Hs7&_).
  rewrite (update_items_ok t0 0 0 work r7 s7); [|by eapply close_making|lia|done]. apply ends_Ok. split.
  - exists work, r6, r7, s0. do 5 (split; [done|]). split; [|split; [done|rewrite Ecs; exact (proj2 (rd_stacks _ Hr))]]. split; [done|done| |done]. by exists s7.
  - split.
    + transitivity (Input_Phase_of_R r7); [done|]. transitivity (Input_Phase_of_R r6); [exact (f_equal Input_Phase_of_R (so_rest _ _ _ _ _ _ _ _ Hset))|exact (f_equal (fun p => Input_Phase_of_R p.1.1) Hq)].
    + transitivity (R_is_Exhausted r7); [done|]. transitivity (R_is_Exhausted r6); [exact (f_equal R_is_Exhausted (so_rest _ _ _ _ _ _ _ _ Hset))|exact (f_equal (fun p => R_is_Exhausted p.1.1) Hq)].
Qed.
End input.

(** ** The start of the input

    A fresh recognizer whose input is started is between two calls: its first set is made, no
    token has been read. *)

(** What the making of the first set does not change. *)
Definition outline (r : RECCE) : RECCE := set_t_zwas [] (set_t_bv_irl_seen (BV [] 0) (set_t_irl_cil_stack [] (set_t_first_earley_set None (frame r)))).

Section begin.
Context `{HL : Library} (junk : nat -> list Z) (t0 : TABLES) (Hen : engine t0) (zw : list ZWA) (c0 : Z) (Hc0 : c0 < 2 ^ 62).
#[local] Abbreviation nsys := (NSY_Count_of_G (t_internal t0)).
#[local] Abbreviation irls := (IRL_Count_of_G (t_internal t0)).
#[local] Abbreviation allowed := (allowed_rule t0 zw).

(** Nothing has been read. *)
Lemma nothing_read r j y k : state_tokens [] r j y k <-> no_token j y k.
Proof using. clear. split; [|done]. intros (e&_&_&Hin). by apply not_elem_of_nil in Hin. Qed.

Lemma outline_events r r' : outline r' = outline r -> (exists C N P, active_events t0 r C N P) -> exists C N P, active_events t0 r' C N P.
Proof using.
  clear. intros E (C&N&P&[H1 H2 H3]). exists C, N, P. split.
  - rewrite (f_equal t_completion_event_is_active E : t_completion_event_is_active r' = t_completion_event_is_active r). done.
  - rewrite (f_equal t_nulled_event_is_active E : t_nulled_event_is_active r' = t_nulled_event_is_active r). done.
  - rewrite (f_equal t_prediction_event_is_active E : t_prediction_event_is_active r' = t_prediction_event_is_active r). done.
Qed.

Lemma outline_valued r r' : outline r' = outline r -> valued_ok t0 r -> valued_ok t0 r'.
Proof using.
  clear. intros E [H1 H2 H3 H4 H5]. split.
  - rewrite (f_equal t_valued_terminal E : t_valued_terminal r' = t_valued_terminal r). done.
  - rewrite (f_equal t_unvalued_terminal E : t_unvalued_terminal r' = t_unvalued_terminal r). done.
  - rewrite (f_equal t_valued E : t_valued r' = t_valued r). done.
  - rewrite (f_equal t_unvalued E : t_unvalued r' = t_unvalued r). done.
  - rewrite (f_equal t_valued_locked E : t_valued_locked r' = t_valued_locked r). done.
Qed.

(** What the first set leaves of the state before it. *)
Lemma first_outline r r' : first_set t0 zw c0 r r' -> outline r' = outline r.
Proof using.
  clear. intros [(work&r6&r7&s0&_&_&_&Hq&Hset&Hcl&_&_) _]. transitivity (outline r7); [exact (f_equal outline (cl_shut _ _ _ _ Hcl))|]. transitivity (outline r6); [exact (f_equal outline (so_rest _ _ _ _ _ _ _ _ Hset))|].
  transitivity (outline (opened0 r)); [|done]. exact (f_equal (fun p => outline p.1.1) Hq).
Qed.

(** The first set is as [idle] says. *)
Lemma first_idle r r' : ready t0 zw c0 r -> t_alternatives r = [] -> t_furthest_earleme r = 0 -> (exists C N P, active_events t0 r C N P) -> valued_ok t0 r -> t_first_inconsistent_ys r < 0 ->
  first_set t0 zw c0 r r' -> idle_at t0 allowed c0 0 [] r' /\ earlemes r' = [0].
Proof using Hen.
  intros Hr Halt Hfur Hev Hval Hcons Hf. pose proof (first_outline _ _ Hf) as Eo. destruct Hf as [(work&r6&r7&s0&Hs&Hs0&Hall0&Hq&Hset&Hcl&Hseen&Hcs) _].
  assert (forall j, 0 <= j <= 0 -> complete_at t0 allowed no_token r6 j) as Hall by (intros j Hj; by replace j with 0 by lia).
  pose proof (f_equal (fun p => p.1.2) Hq) as HV6. cbn [quiet fst snd] in HV6.
  assert (earlemes r' = [0]) as Hear.
  { transitivity (earlemes r6); [exact (close_earlemes t0 _ _ 0 work r6 s0 Hs0 _ r7 Hset r' Hcl)|]. pose proof (f_equal (fmap Earleme_of_YS) HV6) as E. rewrite <- !list_fmap_compose in E. exact E. }
  pose proof (close_store t0 _ _ 0 _ work r6 Hs s0 Hs0 _ r7 Hset r' Hcl) as Hst. pose proof (st_count _ _ _ Hst) as Ecount. change (0 + 1) with 1 in *.
  assert (forall j y k, state_tokens [] r' j y k <-> no_token j y k) as Htok by apply nothing_read.
  assert (t_alternatives r' = []) as Ea.
  { rewrite <- Halt. transitivity (t_alternatives r7); [exact (f_equal t_alternatives (cl_shut _ _ _ _ Hcl))|]. transitivity (t_alternatives r6); [exact (f_equal t_alternatives (so_rest _ _ _ _ _ _ _ _ Hset))|]. exact (f_equal (fun p => t_alternatives p.1.1) Hq). }
  split; [|done]. split; rewrite ?Ecount.
  - exact Hst.
  - lia.
  - transitivity (t_latest_earley_set r7); [exact (f_equal t_latest_earley_set (cl_shut _ _ _ _ Hcl))|]. transitivity (t_latest_earley_set r6); [exact (f_equal t_latest_earley_set (so_rest _ _ _ _ _ _ _ _ Hset))|]. exact (f_equal (fun p => t_latest_earley_set p.1.1) Hq).
  - intros k s Hk. assert (earlemes r' !! k = Some (Earleme_of_YS s)) as Ek by (apply earleme_at; by exists s). rewrite Hear in Ek. apply list_lookup_singleton_Some in Ek as [_ <-]. lia.
  - exact (close_lookups t0 _ _ 0 _ work r6 Hs s0 Hs0 _ r7 Hset r' Hcl).
  - intros j x o Hh. apply (item_more t0 allowed no_token); [by intros ? ? ? ?%Htok|]. exact (close_sound t0 _ _ 0 _ work r6 Hs s0 _ r7 Hset r' Hcl j x o Hh).
  - intros j Hj x o Hi. refine (close_complete t0 _ _ 0 work r6 s0 Hall _ r7 Hset r' Hcl j ltac:(lia) x o _). apply (item_more t0 allowed (state_tokens [] r')); [by intros ? ? ? ?%Htok|done].
  - intros j Hj. apply (settled_more t0 allowed no_token); [by intros ? ? ? ?%Htok|]. refine (close_settled t0 _ _ 0 _ work r6 Hs s0 Hs0 _ r7 Hset r' Hcl j ltac:(lia)).
  - exact (close_links t0 _ _ 0 _ work r6 Hs s0 _ r7 Hset r' Hcl).
  - exact (close_areas t0 _ _ 0 work r6 s0 _ r7 Hset r' Hcl).
  - rewrite (cl_arena _ _ _ _ Hcl). rewrite Z.mul_1_l. apply (so_arena _ _ _ _ _ _ _ _ Hset).
  - apply (cl_work _ _ _ _ Hcl).
  - assert (t_completion_stack r' = t_completion_stack r6) as ->; [|done]. transitivity (t_completion_stack r7); [exact (f_equal t_completion_stack (cl_shut _ _ _ _ Hcl))|exact (f_equal t_completion_stack (so_rest _ _ _ _ _ _ _ _ Hset))].
  - assert (t_bv_irl_seen r' = t_bv_irl_seen r6) as ->; [transitivity (t_bv_irl_seen r7); [exact (f_equal t_bv_irl_seen (cl_shut _ _ _ _ Hcl))|exact (f_equal t_bv_irl_seen (so_rest _ _ _ _ _ _ _ _ Hset))]|done].
  - intros j y e Hin. by apply not_elem_of_nil in Hin.
  - rewrite Ea. constructor.
  - rewrite Ea. by intros a ?%not_elem_of_nil.
  - by intros j y e ?%not_elem_of_nil.
  - rewrite (f_equal t_furthest_earleme Eo : t_furthest_earleme r' = t_furthest_earleme r), Hfur. done.
  - exact (outline_events _ _ Eo Hev).
  - exact (outline_valued _ _ Eo Hval).
  - rewrite (f_equal t_first_inconsistent_ys Eo : t_first_inconsistent_ys r' = t_first_inconsistent_ys r). done.
Qed.

Lemma idle_leo now log r b : idle_at t0 allowed c0 now log r -> idle_at t0 allowed c0 now log (set_t_is_using_leo b r).
Proof using.
  clear. intros Hid. refine (idle_change t0 allowed c0 now log log r (set_t_is_using_leo b r) Hid eq_refl eq_refl _ eq_refl _ _ (fun j y k => iff_refl _) (id_log _ _ _ _ _ _ Hid) (id_sorted _ _ _ _ _ _ Hid) (id_alternatives _ _ _ _ _ _ Hid) (id_waiting _ _ _ _ _ _ Hid) (id_furthest _ _ _ _ _ _ Hid) _).
  - apply (id_lookups _ _ _ _ _ _ Hid).
  - apply (wa_expected _ _ (id_areas _ _ _ _ _ _ Hid)).
  - apply (id_seen _ _ _ _ _ _ Hid).
  - by destruct (id_valued _ _ _ _ _ _ Hid).
Qed.

(** The symbols expected at the first set. *)
Lemma first_expecting r r' rr : first_set t0 zw c0 r r' -> expecting t0 allowed (state_tokens [] rr) 0 (t_bv_nsyid_is_expected r').
Proof using.
  clear. intros [(work&r6&r7&s0&Hs&Hs0&Hall0&_&Hset&Hcl&_&_) _]. assert (forall j, 0 <= j <= 0 -> complete_at t0 allowed no_token r6 j) as Hall by (intros j Hj; by replace j with 0 by lia).
  destruct (close_expecting t0 allowed no_token 0 ltac:(lia) 0 work r6 Hs s0 Hall _ r7 Hset r' Hcl) as (E&HE&Hin). exists E. split; [done|]. intros A. rewrite Hin.
  assert (forall x o, item t0 allowed no_token 0 x o <-> item t0 allowed (state_tokens [] rr) 0 x o) as Hi by (intros x o; split; apply item_more; by intros ? ? ? ?%(nothing_read rr)).
  split; intros (HA&(x&o&Hx&Hp)&Ht); (split; [done|]); (split; [exists x, o; split; [by apply Hi|done]|done]).
Qed.

(** The events of the first set. *)
Lemma first_events r r' b C N P : ready t0 zw c0 r -> first_set t0 zw c0 r r' -> active_events t0 r' C N P ->
  ends_in (trigger_events junk (set_t_is_using_leo b r')) (fun r2 => exists l1 l2 l3,
    emitted (set_t_is_using_leo b r') ((pair MARPA_EVENT_SYMBOL_COMPLETED <$> l1) ++ (pair MARPA_EVENT_SYMBOL_NULLED <$> l2) ++ (pair MARPA_EVENT_SYMBOL_PREDICTED <$> l3)) r2
    /\ event_symbols t0 r' 0 Completion_XSYIDs_of_AHM C l1 /\ event_symbols t0 r' 0 Nulled_XSYIDs_of_AHM N l2 /\ event_symbols t0 r' 0 Prediction_XSYIDs_of_AHM P l3).
Proof using Hen.
  intros Hr [(work&r6&r7&s0&Hs&Hs0&_&Hq&Hset&Hcl&_&_)] Hact. destruct (bd_making _ _ _ _ _ (sg_building _ _ _ _ _ _ _ Hs)) as [Hst H2 H3 H4 H5 H6 H7]. destruct (cl_sets _ _ _ _ Hcl) as (s&Es&E).
  destruct (settled_set t0 _ _ 0 r6 s0 Hs0 _ r7 Hset) as (s'&Es'&_&Hcount&_). rewrite Es in Es'. injection Es' as <-. pose proof (close_yims t0 _ _ 0 work r6 s0 _ r7 Hset r' Hcl) as Ey.
  refine (trigger_events_ok t0 Hen junk (set_t_is_using_leo b r') 0 (set_YIMs_of_YS (Some (Some <$> work)) s) 0 work C N P _ _ ltac:(lia) _ _ eq_refl _ H3 _ _ _).
  - exact (close_strip t0 _ _ 0 _ work r6 Hs s0 _ r7 Hset r' Hcl).
  - exact (close_links t0 _ _ 0 _ work r6 Hs s0 _ r7 Hset r' Hcl).
  - transitivity (t_latest_earley_set r7); [exact (f_equal t_latest_earley_set (cl_shut _ _ _ _ Hcl))|]. transitivity (t_latest_earley_set r6); [exact (f_equal t_latest_earley_set (so_rest _ _ _ _ _ _ _ _ Hset))|]. exact (f_equal (fun p => t_latest_earley_set p.1.1) Hq).
  - change (t_sets r' !! 0%nat = Some (set_YIMs_of_YS (Some (Some <$> work)) s)). rewrite E. apply list_lookup_insert_eq. by eapply lookup_lt_Some.
  - transitivity (YIM_Count_of_YS s0); [exact Hcount|by apply H7].
  - change (t_yims (set_t_is_using_leo b r')) with (t_yims r'). rewrite Ey. intros id y Hy. split; [apply (st_yims _ _ _ Hst _ _ Hy)|by apply H5].
  - change (t_yims (set_t_is_using_leo b r')) with (t_yims r'). by rewrite Ey.
  - destruct Hact as [K1 K2 K3]. by split.
Qed.

(** ** The call *)
Context (Hfuel : (MARPA_AVL_MAX_HEIGHT <= tree_rounds)%nat).

(** What the call does. *)
Inductive started (r : RECCE) : Z -> RECCE -> Prop :=
| started_refused : Input_Phase_of_R r <> R_BEFORE_INPUT -> started r failure_indicator (R_ERROR r MARPA_ERR_RECCE_STARTED)
| started_set r' C N P l1 l2 l3 : Input_Phase_of_R r = R_BEFORE_INPUT -> idle t0 allowed c0 [] r' -> t_current_earleme r' = 0 -> earlemes r' = [0] -> Input_Phase_of_R r' = R_DURING_INPUT -> R_is_Exhausted r' = R_is_Exhausted r ->
    expecting t0 allowed (state_tokens [] r') 0 (t_bv_nsyid_is_expected r') ->
    active_events t0 r' C N P -> (exists told, t_events (G_of_R r') = told ++ (pair MARPA_EVENT_SYMBOL_COMPLETED <$> l1) ++ (pair MARPA_EVENT_SYMBOL_NULLED <$> l2) ++ (pair MARPA_EVENT_SYMBOL_PREDICTED <$> l3)) ->
    event_symbols t0 r' 0 Completion_XSYIDs_of_AHM C l1 -> event_symbols t0 r' 0 Nulled_XSYIDs_of_AHM N l2 -> event_symbols t0 r' 0 Prediction_XSYIDs_of_AHM P l3 -> started r 1 r'.

(** The vectors of values, and the work areas. *)
Lemma valued_fresh r : fresh t0 zw c0 r -> ends_in (valued_symbols junk (set_t_current_earleme 0 r)) (fun r' => fresh t0 zw c0 r' /\ valued_ok t0 r' /\ t_current_earleme r' = 0 /\ R_is_Exhausted r' = R_is_Exhausted r).
Proof using Hen.
  intros [F1 F2 F3 F4 F5 F6 F7 F8 F9 F10 F11 F12]. destruct (valued_symbols_ok junk t0 Hen (set_t_current_earleme 0 r) F1) as (r1&E1&Hv1&v1&v2&v3&v4&v5&->). rewrite E1. apply ends_Ok. split; [by split|]. split; [exact Hv1|done].
Qed.

Lemma events_fresh r : fresh t0 zw c0 r -> ends_in (start_events junk (events_clear r)) (fun r' => fresh t0 zw c0 r' /\ (exists C N P, active_events t0 r' C N P) /\ (valued_ok t0 r -> valued_ok t0 r') /\ t_current_earleme r' = t_current_earleme r /\ R_is_Exhausted r' = R_is_Exhausted r).
Proof using Hen.
  intros [F1 F2 F3 F4 F5 F6 F7 F8 F9 F10 F11 F12]. destruct (start_events_ok junk t0 Hen (events_clear r) F1) as (r1&E1&Hev&n&w1&w2&w3&->). rewrite E1. apply ends_Ok. split; [by split|]. split; [exact Hev|]. split; [|done]. intros []. by split.
Qed.

Lemma areas_ready r : fresh t0 zw c0 r -> (exists C N P, active_events t0 r C N P) -> valued_ok t0 r -> ends_in (start_workareas junk (set_Input_Phase_of_R R_DURING_INPUT r)) (fun r' => ready t0 zw c0 r' /\ t_alternatives r' = [] /\ t_furthest_earleme r' = 0
  /\ (exists C N P, active_events t0 r' C N P) /\ valued_ok t0 r' /\ t_first_inconsistent_ys r' < 0 /\ t_current_earleme r' = t_current_earleme r /\ Input_Phase_of_R r' = R_DURING_INPUT /\ R_is_Exhausted r' = R_is_Exhausted r).
Proof using Hen.
  intros [F1 F2 F3 F4 F5 F6 F7 F8 [F9 F9'] F10 F11 F12] Hev Hval. destruct (start_workareas_ok junk t0 Hen (set_Input_Phase_of_R R_DURING_INPUT r) F1 F10 F11 F9 F9') as (r3&E3&Har&a&b&c&d&->). rewrite E3. apply ends_Ok. clear E3.
  split; [by split|]. split; [exact (proj1 F4)|]. split; [exact (proj2 F4)|]. split; [destruct Hev as (C&N&P&[K1 K2 K3]); by exists C, N, P|]. split; [by destruct Hval|]. split; [exact F6|]. done.
Qed.

Lemma not_trivial r : fresh t0 zw c0 r -> G_is_Trivial (t_internal (t_tables (events_clear r))) = false.
Proof using Hen.
  intros Hf. destruct (en_start _ Hen) as (s&Hs&_). assert (t_start_irl (t_internal (t_tables (events_clear r))) = Some s) as E by (rewrite <- Hs; exact (f_equal (fun t => t_start_irl (t_internal t)) (fr_tables _ _ _ _ Hf))). unfold G_is_Trivial. by rewrite E.
Qed.

Theorem start_input_ok r : (Input_Phase_of_R r = R_BEFORE_INPUT -> fresh t0 zw c0 r) -> roomy t0 allowed no_token 0 -> ends_in (marpa_r_start_input junk r) (fun c => started r c.1 c.2).
Proof using HL Hen Hc0 Hfuel.
  intros Hf Hroom. unfold marpa_r_start_input. destruct (Z.eqb_spec (Input_Phase_of_R r) R_BEFORE_INPUT) as [Hp|Hp]; cbn [negb]; [|apply ends_Ok; by constructor].
  specialize (Hf Hp). destruct (valued_fresh r Hf) as (r1&E1&Hf1&Hv1&Hc1&Hx1). apply (ends_at _ _ _ _ E1). clear E1. cbn zeta. rewrite (not_trivial r1 Hf1).
  destruct (events_fresh r1 Hf1) as (r2&E2&Hf2&Hev2&Hv2&Hc2&Hx2). apply (ends_at _ _ _ _ E2). clear E2. apply (ends_at _ _ _ _ (psar_reset_ok (set_Input_Phase_of_R R_DURING_INPUT r2) (ahms t0) (fr_psar _ _ _ _ Hf2))).
  destruct (areas_ready r2 Hf2 Hev2 (Hv2 Hv1)) as (r3&E3&Hr&Ha&Hfu&Hev&Hva&Hco&Hcur&Hph&Hexh). apply (ends_at _ _ _ _ E3). clear E3.
  destruct (start_set0_ok t0 Hen zw c0 Hc0 Hroom Hfuel r3 Hr) as (r4&E4&Hfs). apply (ends_at _ _ _ _ E4). clear E4.
  destruct (first_idle r3 r4 Hr Ha Hfu Hev Hva Hco Hfs) as [Hid Hear]. destruct (id_events _ _ _ _ _ _ Hid) as (C&N&P&Hact).
  destruct (first_events r3 r4 (t_use_leo_flag r4) C N P Hr Hfs Hact) as (r5&E5&l1&l2&l3&Hem&Hl1&Hl2&Hl3). apply (ends_at _ _ _ _ E5). clear E5. apply ends_Ok. cbn [fst snd].
  pose proof (first_outline _ _ Hfs) as Eo. destruct (fs_phase _ _ _ _ _ Hfs) as [Ep4 Ex4].
  assert (calm r5 = calm (set_t_is_using_leo (t_use_leo_flag r4) r4)) as Ecalm by (by rewrite Hem). pose proof (idle_leo 0 [] r4 (t_use_leo_flag r4) Hid) as Hid4.
  assert (t_current_earleme r5 = 0) as Ecur. { transitivity (t_current_earleme r4); [by rewrite Hem|]. transitivity (t_current_earleme r3); [exact (f_equal t_current_earleme Eo)|congruence]. }
  assert (idle t0 allowed c0 [] r5) as Hid5.
  { unfold idle. rewrite Ecur. apply (idle_same t0 allowed c0 0 [] (set_t_is_using_leo (t_use_leo_flag r4) r4) r5 Hid4 Ecalm); rewrite Hem; [done|apply (id_lookups _ _ _ _ _ _ Hid4)|done|apply (wa_expected _ _ (id_areas _ _ _ _ _ _ Hid4))|apply (id_seen _ _ _ _ _ _ Hid4)]. }
  apply (started_set r r5 C N P l1 l2 l3 Hp Hid5 Ecur); rewrite Hem.
  - exact Hear.
  - transitivity (Input_Phase_of_R r4); [done|congruence].
  - transitivity (R_is_Exhausted r4); [done|congruence].
  - exact (first_expecting r3 r4 _ Hfs).
  - destruct Hact as [K1 K2 K3]. by split.
  - by eexists.
  - exact Hl1.
  - exact Hl2.
  - exact Hl3.
Qed.
End begin.
