(* ===== verification/EarleyEngine.v ===== *)
(** * The tables of a precomputed grammar, as a recognizer uses them

    What [marpa_g_precompute] leaves satisfies [engine] ([EarleyStage]), and its items are
    those of the rules of the internal grammar: [prepared]. *)
From stdpp Require Import sets gmap list relations.
From S2P Require Import Prelude Avl AvlTree AvlProbe AvlTheorems BitVector BitVectorTheorems Matrix Dstack Cil CilTheorems MarpaGrammar MarpaRules MarpaGrammarTheorems MarpaCalls Census CensusSpec CensusMarks CensusRules CensusBody CensusTheorems Rewrite RewriteSpec RewriteLanguage RewriteShape Relations Items ItemsSpec ItemsCreate ItemsTables ItemsLists ItemsTheorems ItemsProperties Recce Earley EarleyStage.

(** ** The tables *)
Section tables.
Context (g1 : GRAMMAR) (rs : list (Z * list Z)) (p : INTERNAL) (Hs : shape g1 rs p) (Hfit : tables_fit p) (start : Z) (Hstart : t_start_irl p = Some start).
Context (nulls : Z -> Z -> Prop) (zwps : list ZWP) (t : TABLES) (Hd : tables_done rs p nulls zwps t).
#[local] Abbreviation n := (length (all_items p rs)).
#[local] Abbreviation irls := (IRL_Count_of_G p).
#[local] Abbreviation nsys := (NSY_Count_of_G p).
#[local] Abbreviation xsys := (XSY_Count_of_G (t_g p)).
#[local] Abbreviation null := (null_in p).

Lemma proper_cons y rhs : proper_symbols p (y :: rhs) = if null y then proper_symbols p rhs else y :: proper_symbols p rhs.
Proof using. clear. unfold proper_symbols. rewrite filter_cons. destruct (null y); [by rewrite decide_False|by rewrite decide_True]. Qed.

(** A dot is before a symbol that is not null, or at the end. *)
Lemma dots_symbol_at position nulls0 number last rhs k d : dots null position nulls0 number last rhs !! k = Some d ->
  ((k < propers null rhs)%nat /\ proper_symbols p rhs !! k = Some (dot_symbol d)) \/ (k = propers null rhs /\ dot_symbol d = -1).
Proof using.
  clear. revert position nulls0 number last k. induction rhs as [|y rhs IH]; intros position nulls0 number last k; cbn [dots propers].
  - intros [-> <-]%list_lookup_singleton_Some. by right.
  - rewrite proper_cons. destruct (null y) eqn:Hn; [by apply IH|]. destruct k as [|k]; [intros [= <-]; left; cbn; split; [lia|done]|].
    intros [[? ?]|[-> ?]]%IH; [left; split; [lia|done]|by right].
Qed.

Lemma proper_length rhs : length (proper_symbols p rhs) = propers null rhs.
Proof using.
  clear. induction rhs as [|y rhs IH]; [done|]. rewrite proper_cons. cbn [propers]. destruct (null y); [done|]. cbn [length]. by rewrite IH.
Qed.

Lemma internal_over : exists ca k, t_internal t = over p ca /\ held k ca /\ k < 2 ^ 62.
Proof using Hd. apply (td_grammar _ _ _ _ _ Hd). Qed.

Lemma ahms_number : ahms t = Z.of_nat n.
Proof using Hd. unfold ahms. by rewrite (proj1 (td_items _ _ _ _ _ Hd)). Qed.

(** An item, with its rule and its dot. *)
Lemma ahm_found m x : ahm_at t (Z.of_nat m) x -> exists i irl r k d, t_irl_stack p !! i = Some irl /\ rs !! i = Some r /\ dots null 0 0 0 None r.2 !! k = Some d /\ bare x = item_of p i irl (base_of rs i) d
  /\ m = (ItemsSpec.first_item p rs i + k)%nat /\ item_done rs p nulls zwps m (bare x) x.
Proof using Hd.
  intros [_ Hx]. rewrite Nat2Z.id in Hx. destruct (items_back _ _ _ _ _ _ (td_items _ _ _ _ _ Hd) Hx) as (y&Hy&HI). pose proof (it_bare _ _ _ _ _ _ _ HI) as <-.
  destruct (all_items_lookup _ _ _ _ Hy) as (i&irl&r&k&d&?&?&?&?&?&_). exists i, irl, r, k, d. by split_and!.
Qed.

Lemma ahm_there i r k d : rs !! i = Some r -> dots null 0 0 0 None r.2 !! k = Some d -> exists irl x, t_irl_stack p !! i = Some irl /\ ahm_at t (Z.of_nat (ItemsSpec.first_item p rs i + k)) x
  /\ bare x = item_of p i irl (base_of rs i) d.
Proof using Hs Hd.
  intros Hr Hk. destruct (lookup_lt_is_Some_2 (t_irl_stack p) i) as [irl Hi]; [rewrite (irls_length g1 rs p Hs); by eapply lookup_lt_Some|].
  destruct (proj2 (td_items _ _ _ _ _ Hd) _ _ (all_items_at p rs i irl r k d Hi Hr Hk)) as (x&Hx&HI). exists irl, x. split; [done|]. split; [split; [lia|by rewrite Nat2Z.id]|]. apply (it_bare _ _ _ _ _ _ _ HI).
Qed.

Lemma bare_fields x i irl base d : bare x = item_of p i irl base d -> IRL_of_AHM x = Z.of_nat i /\ Postdot_NSYID_of_AHM x = dot_symbol d.
Proof using. clear. intros [= H1 H2 H3]. by split. Qed.

Lemma rule_dot i r k : rs !! i = Some r -> (k <= propers null r.2)%nat -> exists d, dots null 0 0 0 None r.2 !! k = Some d.
Proof using. clear. intros Hr Hk. apply lookup_lt_is_Some_2. rewrite dots_length. lia. Qed.

(** The symbols after the dots of a rule. *)
Lemma postdot_at i r k : rs !! i = Some r -> (k <= propers null r.2)%nat -> postdot t (Z.of_nat (ItemsSpec.first_item p rs i + k)) = default (-1) (proper_symbols p r.2 !! k).
Proof using Hs Hd.
  intros Hr Hk. destruct (rule_dot i r k Hr Hk) as (d&Hdk). destruct (ahm_there i r k d Hr Hdk) as (irl&x&_&Hx&Hb). unfold postdot. rewrite (ahm_at_of t _ _ _ _ Hx), (proj2 (bare_fields _ _ _ _ _ Hb)).
  destruct (dots_symbol_at _ _ _ _ _ _ _ Hdk) as [[_ ->]|[-> ->]]; [done|]. rewrite lookup_ge_None_2; [done|]. fold (proper_symbols p r.2). by rewrite proper_length.
Qed.

#[local] Abbreviation base i := (Z.of_nat (ItemsSpec.first_item p rs i)).

Lemma irls_number : IRL_Count_of_G (t_internal t) = irls /\ NSY_Count_of_G (t_internal t) = nsys /\ XSY_Count_of_G (g_of t) = xsys /\ irls = Z.of_nat (length rs).
Proof using Hs Hd. destruct internal_over as (ca&k&E&_). unfold g_of. rewrite E. split_and!; [done..|]. by apply (rules_number g1 rs p Hs). Qed.

Lemma internal_rule_at i : 0 <= i < irls -> exists r, rs !! Z.to_nat i = Some r /\ rule_shape p r.
Proof using Hs Hd.
  intros Hi. destruct irls_number as (_&_&_&E). destruct (lookup_lt_is_Some_2 rs (Z.to_nat i)) as [r Hr]; [lia|]. exists r. split; [done|]. eapply (sh_rule _ _ _ Hs), list_elem_of_lookup_2, Hr.
Qed.

Lemma first_at i : 0 <= i < irls -> first t i = base (Z.to_nat i) /\ exists e, irl_table t i = Ok e /\ First_AHM_of_IRL e = Some (first t i).
Proof using Hs Hd.
  intros Hi. destruct (internal_rule_at i Hi) as (r&Hr&_). destruct (proj2 (td_rules _ _ _ _ _ Hd) _ _ Hr) as (b&Hb&_). unfold first, irl_table. rewrite Hb. split; [done|].
  eexists. split; [apply rd_Ok; split; [apply Hi|exact Hb]|done].
Qed.

Lemma lhs_at i r k : rs !! i = Some r -> (k <= propers null r.2)%nat -> lhs t (Z.of_nat (ItemsSpec.first_item p rs i + k)) = r.1.
Proof using Hs Hd.
  intros Hr Hk. destruct (rule_dot i r k Hr Hk) as (d&Hdk). destruct (ahm_there i r k d Hr Hdk) as (irl&x&Hi&Hx&Hb). unfold lhs. rewrite (ahm_at_of t _ _ _ _ Hx), (proj1 (bare_fields _ _ _ _ _ Hb)).
  destruct internal_over as (ca&k'&E&_). unfold lhs_of_irl. rewrite E, Nat2Z.id. change (t_irl_stack (over p ca)) with (t_irl_stack p). rewrite Hi.
  destruct (irl_at g1 rs p Hs _ _ Hi) as (r'&Hr'&_&_&Ha&_). assert (r' = r) as -> by congruence. unfold LHSID_of_IRL. by rewrite Ha.
Qed.

Lemma proper_some r : rule_shape p r -> exists y, proper_symbols p r.2 !! 0%nat = Some y /\ 0 <= y < nsys /\ (0 < propers null r.2)%nat.
Proof using.
  clear. intros Hr. destruct (rs_proper _ _ Hr) as (y&Hy&Hn). pose proof (propers_some null _ _ Hy Hn) as Hlt. rewrite <- proper_length in Hlt. destruct (lookup_lt_is_Some_2 _ _ Hlt) as [z Hz]. exists z. split; [done|].
  split; [|by rewrite <- proper_length]. apply (rs_rhs _ _ Hr). apply list_elem_of_lookup_2 in Hz. unfold proper_symbols in Hz. by apply list_elem_of_filter in Hz as [_ Hz].
Qed.

Lemma first_postdot i r : rs !! i = Some r -> postdot t (base i) = default (-1) (list.head (proper_symbols p r.2)) /\ lhs t (base i) = r.1.
Proof using Hs Hd.
  intros Hr. pose proof (postdot_at i r 0 Hr ltac:(lia)) as E1. pose proof (lhs_at i r 0 Hr ltac:(lia)) as E2. rewrite Nat.add_0_r in E1, E2. rewrite E1, E2. by rewrite head_lookup.
Qed.

Lemma rule_for_iff y i : rule_for t y i <-> rule_lhs rs y i.
Proof using Hs Hd.
  unfold rule_for, rule_lhs. destruct irls_number as (->&_&_&En). split.
  - intros [Hi Hl]. destruct (internal_rule_at i Hi) as (r&Hr&_). exists (Z.to_nat i), r. split; [lia|]. split; [done|]. rewrite (proj1 (first_at i Hi)) in Hl. by rewrite (proj2 (first_postdot _ _ Hr)) in Hl.
  - intros (k&r&->&Hr&<-). assert (0 <= Z.of_nat k < irls) as Hi by (apply lookup_lt_Some in Hr; lia). split; [done|]. rewrite (proj1 (first_at _ Hi)), Nat2Z.id. apply (first_postdot _ _ Hr).
Qed.

Lemma corner_iff y z : corner t y z <-> left_corner rs p y z.
Proof using Hs Hd.
  unfold corner, left_corner. split.
  - intros (i&Hr%rule_for_iff&Hp). destruct Hr as (k&r&->&Hr&<-). destruct irls_number as (_&_&_&En). assert (0 <= Z.of_nat k < irls) as Hi by (apply lookup_lt_Some in Hr; lia). rewrite (proj1 (first_at _ Hi)), Nat2Z.id, (proj1 (first_postdot _ _ Hr)) in Hp.
    exists r. split; [by eapply list_elem_of_lookup_2|]. split; [done|]. destruct (proper_some r) as (y'&Hy'&_); [eapply (sh_rule _ _ _ Hs), list_elem_of_lookup_2, Hr|]. rewrite head_lookup, Hy' in Hp |- *. by rewrite <- Hp.
  - intros (r&[k Hr]%list_elem_of_lookup&<-&Hh). exists (Z.of_nat k). split; [apply rule_for_iff; by exists k, r|]. destruct irls_number as (_&_&_&En). assert (0 <= Z.of_nat k < irls) as Hi by (apply lookup_lt_Some in Hr; lia).
    by rewrite (proj1 (first_at _ Hi)), Nat2Z.id, (proj1 (first_postdot _ _ Hr)), Hh.
Qed.

Lemma predicts_iff y i : (exists a, rtc (corner t) y a /\ rule_for t a i) <-> predicts rs p y i.
Proof using Hs Hd.
  unfold predicts. split; intros (a&Ha&Hr%rule_for_iff); exists a; (split; [|done]); (eapply rtc_subrel; [|exact Ha]); intros b c; by rewrite corner_iff.
Qed.

(** What one item has. *)
Lemma ahm_fits_at m x : (forall z, z ∈ zwps -> 0 <= ZWAID_of_ZWP z < ZWA_Count_of_G (g_of t)) -> ahm_at t (Z.of_nat m) x -> ahm_fits t (Z.of_nat m) x.
Proof using Hs Hd.
  intros Hz Hx. destruct (ahm_found m x Hx) as (i&irl&r&k&d&Hi&Hr&Hk&Hb&->&HI). destruct (bare_fields _ _ _ _ _ Hb) as [Eir Epd]. destruct irls_number as (E1&E2&E3&E4).
  pose proof (lookup_lt_Some _ _ _ Hr) as Hir. pose proof (lookup_lt_Some _ _ _ Hk) as Hkn. rewrite dots_length in Hkn. pose proof (list_elem_of_lookup_2 _ _ _ Hr) as Hin. pose proof (sh_rule _ _ _ Hs _ Hin) as Hsh.
  destruct HI as [_ H2 H3 H4 H5 H6 H7 _ H9 _]. split; rewrite ?E1, ?E2, ?E3.
  - intros Hp. rewrite Epd in Hp |- *. destruct (dots_symbol_at _ _ _ _ _ _ _ Hk) as [[Hlt Hsy]|[_ E]]; [|lia]. split.
    + apply (rs_rhs _ _ Hsh). apply list_elem_of_lookup_2 in Hsy. unfold proper_symbols in Hsy. by apply list_elem_of_filter in Hsy as [_ ?].
    + destruct (rule_dot i r (S k) Hr Hlt) as (d'&Hd'). destruct (ahm_there i r (S k) d' Hr Hd') as (irl'&x'&_&Hx'&Hb'). exists x'. split; [|by rewrite Eir, (proj1 (bare_fields _ _ _ _ _ Hb'))]. by replace (Z.of_nat (ItemsSpec.first_item p rs i + k) + 1) with (Z.of_nat (ItemsSpec.first_item p rs i + S k)) by lia.
  - exists r.1. split; [|apply (rs_lhs _ _ Hsh)]. unfold LHSID_of_AHM, IRL_by_AHM. rewrite Eir. destruct internal_over as (ca&k'&E&_). rewrite E. change (IRL_by_ID (over p ca) (Z.of_nat i)) with (IRL_by_ID p (Z.of_nat i)).
    unfold IRL_by_ID. rewrite (rd_at _ _ _ Hi). cbn [mbind res_bind]. destruct (irl_at g1 rs p Hs _ _ Hi) as (r'&Hr'&_&_&Ha&_). assert (r' = r) as -> by congruence. unfold LHSID_of_IRL. by rewrite Ha.
  - rewrite Eir. lia.
  - destruct H2 as (c&Hc&S&Hl&HS). exists c. split; [done|]. exists S. split; [done|]. intros j Hj. rewrite (HS j Hj). symmetry. apply predicts_iff.
  - destruct H3 as (c&Hc&S&Hl&HS). exists c. split; [done|]. exists S. split; [done|]. intros j Hj. rewrite (HS j Hj). symmetry. apply rule_for_iff.
  - assert (0 <= Z.of_nat (ItemsSpec.first_item p rs i + k) < ahms t) as Hm by (by apply (ahm_at_bound t _ x)). destruct H7 as [[_ (c&Hc&Hl)]|[_ (c&Hc&Hl)]]; exists c; (split; [done|]); (split; [|by (left + right)]).
    + exists [Z.of_nat (ItemsSpec.first_item p rs i + k)]. split; [done|]. split; [apply SSorted_cons; [apply SSorted_nil|by apply Forall_nil]|by apply Forall_singleton].
    + exists []. split; [done|]. split; [apply SSorted_nil|by apply Forall_nil].
  - by eexists.
  - by eexists.
  - by eexists.
  - exists (ZWAID_of_ZWP <$> assertions_of p zwps (bare x)). split; [done|]. apply Forall_fmap, Forall_forall. intros z Hin'. apply Hz. unfold assertions_of in Hin'. destruct (XRL_of_AHM (bare x)); [|by apply not_elem_of_nil in Hin']. destruct (t_xrl_stack (t_g p) !! _); [|by apply not_elem_of_nil in Hin']. by apply list_elem_of_filter in Hin' as [_ ?].
Qed.

(** The left-hand side of the start rule is on no right-hand side. *)
Lemma corners_inside a b : tc (right_corner rs p) a b -> exists r, r ∈ rs /\ b ∈ r.2.
Proof using.
  clear. induction 1 as [a b (r&Hr&_&Hl)|]; [|done]. exists r. split; [done|]. apply last_Some_elem_of in Hl. unfold proper_symbols in Hl. by apply list_elem_of_filter in Hl as [_ ?].
Qed.

Lemma start_not_recursive e : irl_table t start = Ok e -> IRL_is_Right_Recursive e = false.
Proof using Hs Hd Hstart.
  intros He. apply rd_Ok in He as [Hp He]. destruct (internal_rule_at start (sh_start _ _ _ Hs _ Hstart)) as (r&Hr&_). destruct (proj2 (td_rules _ _ _ _ _ Hd) _ _ Hr) as (b&Hb&Hbr).
  assert (e = set_IRL_is_Right_Recursive b (irl_with_items p rs (Z.to_nat start) r)) as -> by congruence. cbn. destruct b; [|done]. destruct (proj1 Hbr eq_refl) as [_ (c&_&Htc)].
  destruct (corners_inside _ _ Htc) as (r'&[i Hi]%list_elem_of_lookup&Hin). by destruct (proj2 (sh_start_only _ _ _ Hs start r Hstart Hr) i r' Hi) as [? _].
Qed.

Context (Hzw : forall z, z ∈ zwps -> 0 <= ZWAID_of_ZWP z < ZWA_Count_of_G (g_of t)) (Hsmall : 3 * ahms t <= INT_MAX) (Hxs : 0 <= xsys <= INT_MAX).

Lemma engine_done : engine t.
Proof using Hs Hd Hfit Hstart Hzw Hsmall Hxs.
  destruct irls_number as (E1&E2&E3&E4). destruct internal_over as (ca&k&E&_). destruct Hfit as [F1 F2 _ _ _]. destruct (td_vectors _ _ _ _ _ Hd) as [V1 V2 V3 V4].
  split; rewrite ?E1, ?E2, ?E3; try done.
  - rewrite (td_count _ _ _ _ _ Hd). by rewrite ahms_number.
  - split; [|done]. destruct (internal_rule_at start (sh_start _ _ _ Hs _ Hstart)) as (r&_&Hsh). pose proof (rs_lhs _ _ Hsh) as [? ?]. lia.
  - lia.
  - intros x Hx. destruct (lookup_lt_is_Some_2 (t_ahms t) (Z.to_nat x)) as [o Ho]; [unfold ahms in Hx; lia|]. destruct (td_items _ _ _ _ _ Hd) as [Hn HI].
    destruct (lookup_lt_is_Some_2 (all_items p rs) (Z.to_nat x)) as [y Hy]; [rewrite <- Hn; by eapply lookup_lt_Some|]. destruct (HI _ _ Hy) as (a&Ha&_). exists a. assert (ahm_at t (Z.of_nat (Z.to_nat x)) a) as Hat by (split; [lia|by rewrite Nat2Z.id]).
    pose proof (ahm_fits_at _ _ Hzw Hat) as Hf. rewrite Z2Nat.id in Hat, Hf by lia. done.
  - rewrite (proj1 (td_rules _ _ _ _ _ Hd)). lia.
  - intros i Hi. destruct (first_at i Hi) as (Ef&e&He&Hfe). exists e. split; [done|]. split; [done|]. destruct (internal_rule_at i Hi) as (r&Hr&Hsh). destruct (proper_some r Hsh) as (y&Hy&Hyb&_).
    destruct (rule_dot _ r 0 Hr ltac:(lia)) as (d&Hdk). destruct (ahm_there _ r 0 d Hr Hdk) as (irl&x&_&Hx&Hb). rewrite Nat.add_0_r in Hx. exists x. rewrite Ef. destruct (bare_fields _ _ _ _ _ Hb) as [-> Epd]. split; [done|]. split; [lia|].
    pose proof (proj1 (first_postdot _ r Hr)) as Ep. rewrite head_lookup, Hy in Ep. cbn in Ep. rewrite (postdot_read t _ _ Hx), Ep. lia.
  - exists start. rewrite E. split; [exact Hstart|]. split; [exact (sh_start _ _ _ Hs _ Hstart)|]. exact start_not_recursive.
  - intros y Hy. destruct (lookup_lt_is_Some_2 (t_nsy_stack p) (Z.to_nat y)) as [s Hsy]; [unfold NSY_Count_of_G in Hy; lia|]. destruct (sh_symbols _ _ _ Hs _ _ Hsy) as (z&Hz&Hzb). exists s, z. split; [|split; [done|]].
    + rewrite E. change (NSY_by_ID (over p ca) y) with (NSY_by_ID p y). unfold NSY_by_ID. apply rd_Ok. split; [lia|done].
    + unfold XSY_Count_of_G. rewrite (xsys_same g1 rs p Hs). exact Hzb.
  - rewrite E. change (t_nsy_equivalent (over p ca)) with (t_nsy_equivalent p). split; [unfold XSY_Count_of_G; by rewrite (xsys_same g1 rs p Hs), (sh_table _ _ _ Hs)|]. intros z y. apply (sh_equivalent _ _ _ Hs).
  - destruct V1 as (v&Hv&Hb). by exists v, (terminal_nsy p).
  - destruct V2 as (v&Hv&Hb). by eexists v, _.
  - destruct V3 as (v&Hv&Hb). by eexists v, _.
  - destruct V4 as (v&Hv&Hb). by eexists v, _.
Qed.
End tables.

(** ** The rules behind the items *)

(** The items of [t] are those of the rules of [p]; [s] is the start rule. *)
Record itemized (p : INTERNAL) (s : Z) (t : TABLES) : Prop := {
  iz_equivalent : t_nsy_equivalent (t_internal t) = t_nsy_equivalent p;
  iz_rules : IRL_Count_of_G (t_internal t) = Z.of_nat (length (irules p));
  iz_shape r : r ∈ irules p -> rule_shape p r;
  iz_array i r : irules p !! i = Some r -> exists irl, t_irl_stack p !! i = Some irl /\ t_nsyid_array irl = Some <$> (r.1 :: r.2);
  iz_dot i r k : irules p !! i = Some r -> (k <= length (proper_symbols p r.2))%nat -> 0 <= first t (Z.of_nat i) + Z.of_nat k < ahms t
    /\ postdot t (first t (Z.of_nat i) + Z.of_nat k) = default (-1) (proper_symbols p r.2 !! k) /\ lhs t (first t (Z.of_nat i) + Z.of_nat k) = r.1
    /\ exists a, ahm_at t (first t (Z.of_nat i) + Z.of_nat k) a /\ IRL_of_AHM a = Z.of_nat i;
  iz_all x : 0 <= x < ahms t -> exists i r k, irules p !! i = Some r /\ (k <= length (proper_symbols p r.2))%nat /\ x = first t (Z.of_nat i) + Z.of_nat k;
  iz_start : t_start_irl (t_internal t) = Some s /\ 0 <= s /\ exists r, irules p !! Z.to_nat s = Some r /\ (forall z, t_nsy_equivalent p !! z <> Some (Some r.1)) /\ forall i r', irules p !! i = Some r' -> r.1 ∉ r'.2 /\ (r'.1 = r.1 -> i = Z.to_nat s)
}.

Lemma itemized_done g1 p s nulls zwps t : shape g1 (irules p) p -> t_start_irl p = Some s -> tables_done (irules p) p nulls zwps t -> itemized p s t.
Proof.
  intros Hs Hst Hd. destruct (irls_number g1 (irules p) p Hs nulls zwps t Hd) as (E1&_&_&E4). destruct (internal_over (irules p) p nulls zwps t Hd) as (ca&k&E&_).
  assert (forall i r, (irules p) !! i = Some r -> first t (Z.of_nat i) = Z.of_nat (ItemsSpec.first_item p (irules p) i)) as Hfirst.
  { intros i r Hr. rewrite (proj1 (first_at g1 (irules p) p Hs nulls zwps t Hd (Z.of_nat i) ltac:(apply lookup_lt_Some in Hr; lia))). by rewrite Nat2Z.id. }
  split.
  - by rewrite E.
  - by rewrite E1, E4.
  - apply (sh_rule _ _ _ Hs).
  - intros i r Hr. destruct (lookup_lt_is_Some_2 (t_irl_stack p) i) as [irl Hi]; [rewrite (irls_length g1 (irules p) p Hs); by eapply lookup_lt_Some|]. exists irl. split; [done|].
    destruct (irl_at g1 (irules p) p Hs _ _ Hi) as (r'&Hr'&_&_&Ha&_). by assert (r' = r) as -> by congruence.
  - intros i r m Hr Hm. rewrite proper_length in Hm. rewrite (Hfirst i r Hr), <- Nat2Z.inj_add. destruct (rule_dot (irules p) p i r m Hr Hm) as (d&Hdk). destruct (ahm_there g1 (irules p) p Hs nulls zwps t Hd i r m d Hr Hdk) as (irl&x&_&Hx&Hb).
    split; [by apply (ahm_at_bound t _ x)|]. split; [by apply (postdot_at g1 (irules p) p Hs nulls zwps t Hd)|]. split; [by apply (lhs_at g1 (irules p) p Hs nulls zwps t Hd)|]. exists x. split; [done|]. by apply (bare_fields p _ _ _ _ _ Hb).
  - intros x Hx. destruct (td_items _ _ _ _ _ Hd) as [Hn HI]. destruct (lookup_lt_is_Some_2 (all_items p (irules p)) (Z.to_nat x)) as [y Hy]; [rewrite <- Hn; unfold ahms in Hx; lia|].
    destruct (all_items_lookup _ _ _ _ Hy) as (i&irl&r&m&d&_&Hr&Hdk&_&Em&_). exists i, r, m. split; [done|]. pose proof (lookup_lt_Some _ _ _ Hdk) as Hlt. rewrite dots_length in Hlt. rewrite proper_length. split; [lia|]. rewrite (Hfirst i r Hr). lia.
  - rewrite E. split; [exact Hst|]. pose proof (sh_start _ _ _ Hs _ Hst) as Hb. split; [apply Hb|]. destruct (internal_rule_at g1 (irules p) p Hs nulls zwps t Hd s Hb) as (r&Hr&_). exists r. split; [done|]. by apply (sh_start_only _ _ _ Hs).
Qed.

(** ** The tables of a grammar that calls have built *)

Lemma engine_upd t f : t_xsy_stack (f (g_of t)) = t_xsy_stack (g_of t) -> t_gzwa_stack (f (g_of t)) = t_gzwa_stack (g_of t) -> engine t -> engine (upd_g f t).
Proof.
  intros Ex Ez [H1 H2 H3 H4 H5 H6 H7 H8 H9 H10 H11 H12 H13 H14 H15]. assert (XSY_Count_of_G (g_of (upd_g f t)) = XSY_Count_of_G (g_of t)) as E by (change (XSY_Count_of_G (f (g_of t)) = XSY_Count_of_G (g_of t)); unfold XSY_Count_of_G; by rewrite Ex).
  split; try done; rewrite ?E; try done. intros x Hx. destruct (H6 x Hx) as (a&Ha&[F1 F2 F3 F4 F5 F6 F7 F8 F9 F10]). exists a. split; [exact Ha|]. split; rewrite ?E; try done.
  change (g_of (upd_g f t)) with (f (g_of t)). unfold ZWA_Count_of_G. rewrite Ez. exact F10.
Qed.

Lemma itemized_upd p s t f : itemized p s t -> itemized p s (upd_g f t).
Proof. intros [H1 H2 H3 H4 H5 H6 H7]. by split. Qed.

(** What a recognizer is made from. *)
Record prepared (g : GRAMMAR) (p : INTERNAL) (s : Z) (t : TABLES) : Prop := {
  pp_engine : engine t;
  pp_items : itemized p s t;
  pp_start : t_start_irl p = Some s;
  pp_precomputed : G_is_Precomputed (g_of t) = true;
  pp_arena : exists c, held c (cilar_of t) /\ c < 2 ^ 62;
  pp_assertions : t_gzwa_stack (g_of t) = t_gzwa_stack g;
  pp_symbols : XSY_Count_of_G (g_of t) = XSY_Count_of_G g;
  pp_terminals x xsy : XSY_by_ID (g_of t) x = Ok xsy -> XSY_is_Terminal xsy = true <-> terminal g x
}.

Lemma recognizer_tables `{Library} (Hfuel : (MARPA_AVL_MAX_HEIGHT <= tree_rounds)%nat) (Hversion : lib_version = marpa_h_version) junk g p s ret t :
  precomputing junk g p -> t_start_irl p = Some s -> marpa_g_precompute junk g = Ok (ret, inr t) -> 3 * ahms t <= INT_MAX -> prepared g p s t.
Proof.
  intros Hpc Hst Hrun Hsmall. destruct (go_assertions _ (rd_open _ (pc_ready _ _ _ Hpc))) as (tree&zwps&Htree&Hrep&Hids). destruct (tables_of Hfuel Hversion junk g p s tree zwps Hpc Hst Htree Hrep) as (Ex&(g1&Hc&Hs)&t'&Ht'&Hd).
  assert (exists f, t = upd_g f t' /\ G_is_Precomputed (f (g_of t')) = true /\ t_xsy_stack (f (g_of t')) = t_xsy_stack (g_of t') /\ t_gzwa_stack (f (g_of t')) = t_gzwa_stack (g_of t') /\ forall c, held c (cilar_of t') -> held c (t_cilar (f (g_of t')))) as (f&->&Hpre&Exs&Ezw&Hheld).
  { unfold marpa_g_precompute in Hrun. rewrite (pc_internal _ _ _ Hpc) in Hrun. cbn [mbind res_bind] in Hrun. unfold G_is_Trivial in Hrun. rewrite Hst in Hrun. cbn [negb] in Hrun. rewrite Ht' in Hrun. cbn [mbind res_bind] in Hrun.
    destruct (t_has_cycle _); [injection Hrun as _ <-; by exists (fun g => MARPA_ERROR (set_G_is_Precomputed true g) MARPA_ERR_GRAMMAR_HAS_CYCLE)|].
    apply bind_Ok in Hrun as (ca&Hca&Hrun). injection Hrun as _ <-. exists (fun g => set_t_cilar ca (set_G_is_Precomputed true g)). split_and!; try done. intros c (cs&Hcs&Hn).
    unfold cilar_buffer_reinit in Hca. apply bind_Ok in Hca as (b&Hb&[= <-]). exists cs. split; [|done]. apply cilar_rep_buffer; [exact Hcs|]. vm_compute in Hb. injection Hb as <-. unfold t_capacity. cbn. unfold INT_MAX. lia. }
  destruct (internal_over _ _ _ _ _ Hd) as (ca&k&E&Hca&Hk). assert (t_gzwa_stack (g_of t') = t_gzwa_stack g) as Ez.
  { unfold g_of. rewrite E. injection (cd_assertions _ _ Hc) as _ E2. cbn. by destruct (sh_grammar _ _ _ Hs) as [->| ->]. }
  assert (XSY_Count_of_G (g_of t') = XSY_Count_of_G g) as Ex2 by (rewrite <- Ex; unfold g_of; by rewrite E).
  pose proof (ft_symbols _ (rd_fits _ (pc_ready _ _ _ Hpc))) as Hfx. split.
  - apply engine_upd; [done..|]. eapply (engine_done g1 (irules p) p Hs (pc_fit _ _ _ Hpc) s Hst _ _ t' Hd); [|exact Hsmall|rewrite Ex; unfold XSY_Count_of_G in *; lia].
    intros z Hz. unfold ZWA_Count_of_G. rewrite Ez. rewrite Forall_forall in Hids. by apply Hids.
  - apply itemized_upd. by eapply itemized_done.
  - exact Hst.
  - exact Hpre.
  - exists k. split; [apply Hheld|exact Hk]. unfold cilar_of, g_of. rewrite E. exact Hca.
  - change (t_gzwa_stack (f (g_of t')) = t_gzwa_stack g). congruence.
  - rewrite <- Ex2. change (XSY_Count_of_G (f (g_of t')) = XSY_Count_of_G (g_of t')). unfold XSY_Count_of_G. by rewrite Exs.
  - intros x xsy Hx. apply rd_Ok in Hx as [Hx0 Hx]. change (t_xsy_stack (f (g_of t')) !! Z.to_nat x = Some xsy) in Hx. rewrite Exs in Hx. unfold g_of in Hx. rewrite E in Hx. change (t_xsy_stack (t_g p) !! Z.to_nat x = Some xsy) in Hx.
    assert (0 <= x < XSY_Count_of_G g) as Hb by (rewrite <- Ex; apply lookup_lt_Some in Hx; unfold XSY_Count_of_G; lia). rewrite <- (cd_terminal _ _ Hc x Hb). unfold symbol_flag.
    destruct (sh_grammar _ _ _ Hs) as [Eg|Eg]; rewrite Eg in Hx; [by rewrite Hx|]. unfold unstarted in Hx. cbn [t_xsy_stack set_t_xsy_stack] in Hx. rewrite list_lookup_alter in Hx.
    case_decide as Ei; [|by rewrite Hx]. rewrite ?Ei in Hx. destruct (t_xsy_stack g1 !! Z.to_nat x) as [xsy1|]; [|done]. by injection Hx as <-.
Qed.
