(* ===== verification/EarleyLanguage.v ===== *)
(** * The items of an input and the language of the grammar

    Each Earley item stands for a derivation of the string between its origin and its set, by
    the part of its rule before the dot; and each derivation has its items.  The item at the
    end of the start rule, from the set 0, is in a set exactly when the tokens from the set 0 to
    it spell a string that the start rule derives. *)
From stdpp Require Import sets gmap list relations.
From S2P Require Import Prelude MarpaH Cil MarpaGrammar Census Rewrite RewriteTheorems RewriteShape Items Relations ItemsTables ItemsTheorems ItemsProperties Recce Earley EarleyStage EarleyEngine.

(** ** Proper symbols *)
Section proper.
Context (p : INTERNAL).
#[local] Abbreviation proper := (proper_symbols p).

Lemma proper_app l1 l2 : proper (l1 ++ l2) = proper l1 ++ proper l2.
Proof. induction l1 as [|y l1 IH]; [done|]. rewrite <- app_comm_cons, !proper_cons, IH. by destruct (null_in p y). Qed.

Lemma proper_one y : proper [y] = if null_in p y then [] else [y].
Proof. by rewrite proper_cons. Qed.

Lemma proper_nil l : proper l = [] -> forall y, y ∈ l -> null_in p y = true.
Proof.
  induction l as [|z l IH]; [by intros _ y ?%not_elem_of_nil|]. rewrite proper_cons. destruct (null_in p z) eqn:Hz; [|done]. intros Hl y [->|Hy]%elem_of_cons; [done|by apply IH].
Qed.

(** Up to the next symbol that is not null. *)
Lemma proper_next l y ys : proper l = y :: ys -> exists ns l', l = ns ++ y :: l' /\ (forall z, z ∈ ns -> null_in p z = true) /\ null_in p y = false /\ proper l' = ys.
Proof.
  induction l as [|z l IH]; [done|]. rewrite proper_cons. destruct (null_in p z) eqn:Hz.
  - intros Hl. destruct (IH Hl) as (ns&l'&->&Hn&Hy&Hp). exists (z :: ns), l'. split; [done|]. split; [|done]. intros a [->|Ha]%elem_of_cons; [done|by apply Hn].
  - intros [= -> Hl]. exists [], l. split_and!; [done|by intros a ?%not_elem_of_nil|done|done].
Qed.
End proper.

Section language.
Context (p : INTERNAL) (s : Z) (t : TABLES) (Hen : engine t) (Hit : itemized p s t).
Context (T : Z -> Prop) (Hnull : forall y w, null_in p y = true -> 0 <= y -> iderives p T y w -> w = []).
Context (allowed : Z -> Prop) (tok tokz : Z -> Z -> Z -> Prop).
Context (Hlater : forall j y k, tok j y k -> 0 <= j < k).
Context (Htok : forall j y k, tok j y k <-> exists z, 0 <= z /\ t_nsy_equivalent p !! Z.to_nat z = Some (Some y) /\ tokz j z k).
Context (Hterm : forall j z k, tokz j z k -> T z).
#[local] Abbreviation item := (item t allowed tok).
#[local] Abbreviation proper := (proper_symbols p).
#[local] Abbreviation postdot := (postdot t).
#[local] Abbreviation lhs := (lhs t).

(** The tokens from the set [j] to the set [k] spell [w]. *)
Inductive spells : Z -> list Z -> Z -> Prop :=
| spells_nil j : spells j [] j
| spells_cons j z k w m : tokz j z k -> spells k w m -> spells j (z :: w) m.

Lemma spells_app j w1 w2 m : spells j (w1 ++ w2) m <-> exists k, spells j w1 k /\ spells k w2 m.
Proof using.
  clear. revert j. induction w1 as [|z w1 IH]; intros j; cbn.
  - split; [intros Hw; exists j; split; [constructor|done]|]. intros (k&H1&H2). by inversion H1; subst.
  - split.
    + intros Hw. inversion Hw as [|? ? k ? ? Hz Hw']; subst. apply IH in Hw' as (k'&H1&H2). exists k'. split; [|done]. by econstructor.
    + intros (k'&H1&H2). inversion H1 as [|? ? k ? ? Hz Hw']; subst. econstructor; [exact Hz|]. apply IH. by exists k'.
Qed.

Lemma spells_one j z k : tokz j z k -> spells j [z] k.
Proof using. clear. intros Hz. econstructor; [exact Hz|constructor]. Qed.

(** ** Each item stands for a derivation *)

(** The item [x], whose dot is after [l] in the rule [r], and the string from [o] to [k]. *)
Record derived (k x o : Z) (i : nat) (r : Z * list Z) (l l' : list Z) (w : list Z) : Prop := {
  dv_rule : irules p !! i = Some r;
  dv_split : r.2 = l ++ l';
  dv_item : x = first t (Z.of_nat i) + Z.of_nat (length (proper l));
  dv_spells : spells o w k;
  dv_derives : iderives_all p T l w
}.

Lemma derived_dot k x o i r l l' w : derived k x o i r l l' w -> postdot x = default (-1) (list.head (proper l')) /\ lhs x = r.1 /\ rule_shape p r.
Proof using Hit.
  intros [Hr Hl -> _ _]. destruct (iz_dot _ _ _ Hit i r (length (proper l)) Hr) as (_&Hp&Hlhs&_); [rewrite Hl, proper_app, length_app; lia|]. split; [|split; [done|]].
  - rewrite Hp, Hl, proper_app, lookup_app_r by lia. by rewrite Nat.sub_diag, head_lookup.
  - eapply (iz_shape _ _ _ Hit), list_elem_of_lookup_2, Hr.
Qed.

Lemma iderives_all_app l1 l2 w1 w2 : iderives_all p T l1 w1 -> iderives_all p T l2 w2 -> iderives_all p T (l1 ++ l2) (w1 ++ w2).
Proof using. clear. induction 1 as [|y ys v1 v2 Hy _ IH]; intros H2; cbn; [done|]. rewrite <- app_assoc. constructor; [done|by apply IH]. Qed.

Lemma all_split l1 l2 w : iderives_all p T (l1 ++ l2) w -> exists w1 w2, w = w1 ++ w2 /\ iderives_all p T l1 w1 /\ iderives_all p T l2 w2.
Proof using.
  clear. revert w. induction l1 as [|y l1 IH]; intros w; cbn; [intros Hw; exists [], w; split_and!; [done|constructor|done]|].
  intros Hw. inversion Hw as [|? ? v1 v2 Hy Hr]; subst. destruct (IH _ Hr) as (w1&w2&->&H1&H2). exists (v1 ++ w1), w2. split_and!; [by rewrite app_assoc|by constructor|done].
Qed.

(** Null symbols derive the empty string. *)
Lemma nulls_derive l : (forall y, y ∈ l -> null_in p y = true) -> (forall y, y ∈ l -> valid_nsy p y) -> iderives_all p T l [].
Proof using.
  clear. induction l as [|y l IH]; intros Hn Hv; [constructor|]. change (@nil Z) with (@nil Z ++ []). constructor.
  - pose proof (Hn y ltac:(left)) as Hy. pose proof (Hv y ltac:(left)) as [Hy0 _]. unfold null_in, nsy_flag in Hy. destruct (t_nsy_stack p !! Z.to_nat y) as [x|] eqn:Hx; [|done]. rewrite <- (Z2Nat.id y) by done. by eapply iderives_null.
  - apply IH; intros z Hz; [apply Hn|apply Hv]; by right.
Qed.

(** The dot passes a symbol that is not null. *)
Lemma derived_next j k x o i r l l' w y w' : derived j x o i r l l' w -> postdot x = y -> 0 <= y -> spells j w' k -> iderives p T y w' -> exists l2 l2', derived k (x + 1) o i r l2 l2' (w ++ w').
Proof using Hit.
  intros Hdv Hp Hy Hsp Hyw. destruct (derived_dot _ _ _ _ _ _ _ _ Hdv) as (Hpd&_&Hsh). destruct Hdv as [Hr Hl -> Hw Hd]. rewrite Hpd in Hp. destruct (proper l') as [|a ys] eqn:Hpr; cbn in Hp; [lia|]. subst a.
  destruct (proper_next p l' y ys Hpr) as (ns&l2'&->&Hns&Hny&_). exists (l ++ ns ++ [y]), l2'. split.
  - done.
  - rewrite Hl. by rewrite <- !app_assoc.
  - rewrite !proper_app, !length_app, proper_one, Hny. assert (proper ns = []) as ->; [|cbn; lia]. clear -Hns. induction ns as [|z ns IH]; [done|]. rewrite proper_cons, (Hns z) by left. apply IH. intros a Ha. apply Hns. by right.
  - apply spells_app. by exists j.
  - apply iderives_all_app; [done|]. change w' with ([] ++ w'). apply iderives_all_app.
    + apply nulls_derive; [done|]. intros z Hz. apply (rs_rhs _ _ Hsh). rewrite Hl. rewrite !elem_of_app. right. by left.
    + rewrite <- (app_nil_r w'). constructor; [done|constructor].
Qed.

(** The dot is at the end. *)
Lemma derived_end k c j i r l l' w : derived k c j i r l l' w -> postdot c < 0 -> iderives p T r.1 w.
Proof using Hit.
  intros Hdv Hc. destruct (derived_dot _ _ _ _ _ _ _ _ Hdv) as (Hpd&_&Hsh). destruct Hdv as [Hr Hl _ _ Hd]. rewrite Hpd in Hc.
  destruct (iz_array _ _ _ Hit i r Hr) as (irl&Hi&Ha). eapply iderives_rule; [by eapply list_elem_of_lookup_2|exact Ha|]. rewrite Hl, <- (app_nil_r w). apply iderives_all_app; [done|].
  destruct (proper l') as [|a ys] eqn:Hpr.
  - apply nulls_derive; [by apply proper_nil|]. intros y Hy. apply (rs_rhs _ _ Hsh). rewrite Hl. apply elem_of_app. by right.
  - cbn in Hc. destruct (proper_next p l' a ys Hpr) as (ns&l2&->&_&_&_). assert (valid_nsy p a) as [? _]; [|lia]. apply (rs_rhs _ _ Hsh). rewrite Hl. apply elem_of_app. right. apply elem_of_app. right. by left.
Qed.

Theorem item_derives k x o : item k x o -> exists i r l l' w, derived k x o i r l l' w.
Proof using Hen Hit Htok Hterm.
  induction 1 as [s' Hs|k x o i _ _ Hp [Hi _] _|j k x o _ (i&r&l&l'&w&Hdv) Hp Ht|j k x o c _ (i&r&l&l'&w&Hdv) Hp _ (i2&r2&l2&l2'&w2&Hdv2) Hd Hl].
  - destruct (iz_start _ _ _ Hit) as (Es&Hs0&r&Hr&_). assert (s' = s) as -> by congruence. exists (Z.to_nat s), r, [], r.2, []. split; [done|done| |constructor|constructor]. rewrite Z2Nat.id by lia. cbn. lia.
  - rewrite (iz_rules _ _ _ Hit) in Hi. destruct (lookup_lt_is_Some_2 (irules p) (Z.to_nat i)) as [r Hr]; [lia|]. exists (Z.to_nat i), r, [], r.2, []. split; [done|done| |constructor|constructor]. rewrite Z2Nat.id by lia. cbn. lia.
  - apply Htok in Ht as (z&Hz&Heq&Htz). destruct (derived_next j k x o i r l l' w _ [z] Hdv eq_refl Hp (spells_one _ _ _ Htz)) as (l2&l2'&H2); [by eapply iderives_token; [..|eapply Hterm]|]. by exists i, r, l2, l2', (w ++ [z]).
  - destruct (derived_dot _ _ _ _ _ _ _ _ Hdv2) as (_&El&_). pose proof (derived_end _ _ _ _ _ _ _ _ Hdv2 Hd) as Hder. rewrite <- El, Hl in Hder.
    destruct (derived_next j k x o i r l l' w _ w2 Hdv eq_refl Hp (dv_spells _ _ _ _ _ _ _ _ Hdv2) Hder) as (l3&l3'&H3). by exists i, r, l3, l3', (w ++ w2).
Qed.

(** ** Each derivation has its items *)
Context (Hallowed : forall i, 0 <= i < IRL_Count_of_G (t_internal t) -> allowed i).

(** An item that waits for a symbol predicts its rules. *)
Lemma rule_predicted i r j x o : irules p !! i = Some r -> item j x o -> postdot x = r.1 -> item j (first t (Z.of_nat i)) j.
Proof using Hit Hallowed.
  intros Hr Hx Hp. pose proof (iz_shape _ _ _ Hit _ (list_elem_of_lookup_2 _ _ _ Hr)) as Hsh. pose proof (rs_lhs _ _ Hsh) as [Hl _]. destruct (iz_dot _ _ _ Hit i r 0 Hr ltac:(lia)) as (_&_&Hlhs&_). rewrite Z.add_0_r in Hlhs.
  assert (0 <= Z.of_nat i < IRL_Count_of_G (t_internal t)) as Hi by (rewrite (iz_rules _ _ _ Hit); apply lookup_lt_Some in Hr; lia). eapply item_predict; [exact Hx|lia|split; [done|by rewrite Hp]|]. intros _. by apply Hallowed.
Qed.

Lemma derivations_have_items :
  (forall y w, iderives p T y w -> null_in p y = false -> forall j k x o, item j x o -> postdot x = y -> spells j w k -> item k (x + 1) o)
  /\ (forall ys w, iderives_all p T ys w -> forall i r l l', irules p !! i = Some r -> r.2 = l ++ ys ++ l' ->
        forall j k o, item j (first t (Z.of_nat i) + Z.of_nat (length (proper l))) o -> spells j w k -> item k (first t (Z.of_nat i) + Z.of_nat (length (proper (l ++ ys)))) o).
Proof using Hen Hit Htok Hnull Hallowed.
  apply iderives_mutual.
  - intros i x Hx Hn Hny. exfalso. unfold null_in, nsy_flag in Hny. rewrite Nat2Z.id, Hx in Hny. congruence.
  - intros z i Hz Heq _ _ j k x o Hx Hp Hsp. inversion Hsp as [|? ? k' ? ? Hzt Hrest]; subst. inversion Hrest; subst. destruct (en_equivalent t Hen) as [_ Hb]. rewrite (iz_equivalent _ _ _ Hit) in Hb. pose proof (Hb _ _ Heq) as Hpb.
    eapply item_scan; [exact Hx|lia|]. apply Htok. by exists z.
  - intros irl l rhs w Hin Ha _ IH Hny j k x o Hx Hp Hsp. apply list_elem_of_lookup in Hin as [i Hi]. pose proof (irule_at p i irl l rhs Hi Ha) as Hr. pose proof (iz_shape _ _ _ Hit _ (list_elem_of_lookup_2 _ _ _ Hr)) as Hsh. pose proof (rs_lhs _ _ Hsh) as [Hl _]. cbn in Hl.
    assert (item j (first t (Z.of_nat i)) j) as Hfirst by (by apply (rule_predicted i (l, rhs) j x o)).
    assert (item k (first t (Z.of_nat i) + Z.of_nat (length (proper rhs))) j) as Hend.
    { refine (IH i (l, rhs) [] [] Hr _ j k j _ Hsp); [cbn; by rewrite app_nil_r|]. cbn. by rewrite Z.add_0_r. }
    destruct (iz_dot _ _ _ Hit i (l, rhs) (length (proper rhs)) Hr ltac:(done)) as (_&Hpe&Hle&_). cbn [fst snd] in *. rewrite lookup_ge_None_2 in Hpe by done. cbn in Hpe.
    eapply item_complete; [exact Hx|lia|exact Hend|rewrite Hpe; lia|by rewrite Hle].
  - intros i r l l' Hr Hl j k o Hx Hsp. inversion Hsp; subst. by rewrite app_nil_r.
  - intros y ys w1 w2 Hy IHy Hys IHys i r l l' Hr Hl j k o Hx Hsp. apply spells_app in Hsp as (k'&Hsp1&Hsp2).
    assert (item k' (first t (Z.of_nat i) + Z.of_nat (length (proper (l ++ [y])))) o) as Hx'.
    { rewrite proper_app, length_app, proper_one. destruct (null_in p y) eqn:Hny.
      - assert (0 <= y) as Hy0 by (apply (rs_rhs _ _ (iz_shape _ _ _ Hit _ (list_elem_of_lookup_2 _ _ _ Hr))); rewrite Hl; apply elem_of_app; right; by left). pose proof (Hnull y w1 Hny Hy0 Hy) as ->. inversion Hsp1; subst. cbn. by rewrite Nat.add_0_r.
      - cbn [length]. replace (Z.of_nat (length (proper l) + 1)) with (Z.of_nat (length (proper l)) + 1) by lia. rewrite Z.add_assoc. apply (IHy eq_refl j); [done| |done].
        destruct (iz_dot _ _ _ Hit i r (length (proper l)) Hr) as (_&Hp&_); [rewrite Hl, proper_app, length_app; lia|]. rewrite Hp, Hl, proper_app, lookup_app_r, Nat.sub_diag by lia. cbn [app]. by rewrite proper_cons, Hny. }
    assert (l ++ y :: ys = (l ++ [y]) ++ ys) as -> by by rewrite <- app_assoc. apply (IHys i r (l ++ [y]) l' Hr) with (j := k'); [by rewrite Hl, <- !app_assoc|done|done].
Qed.

(** The dot of a rule passes a symbol that derives the string up to the set [k]. *)
Lemma item_moves i r l y ys l' w j k o : irules p !! i = Some r -> r.2 = l ++ (y :: ys) ++ l' -> iderives p T y w ->
  item j (first t (Z.of_nat i) + Z.of_nat (length (proper l))) o -> spells j w k -> item k (first t (Z.of_nat i) + Z.of_nat (length (proper (l ++ [y])))) o.
Proof using Hen Hit Htok Hnull Hallowed.
  intros Hr Hl Hy Hx Hsp. apply (proj2 derivations_have_items [y] w) with (r := r) (l' := ys ++ l') (j := j); try done. rewrite <- (app_nil_r w). constructor; [done|constructor].
Qed.

(** When the string up to the set [k] can go on with the token [z], an item of the set waits for
    its symbol. *)
Lemma derivations_await z k :
  (forall y w, iderives p T y w -> forall u v, w = u ++ z :: v -> null_in p y = false -> forall j x o, item j x o -> postdot x = y -> spells j u k ->
     exists x' o' y', item k x' o' /\ postdot x' = y' /\ t_nsy_equivalent p !! Z.to_nat z = Some (Some y'))
  /\ (forall ys w, iderives_all p T ys w -> forall u v, w = u ++ z :: v -> forall i r l l', irules p !! i = Some r -> r.2 = l ++ ys ++ l' ->
     forall j o, item j (first t (Z.of_nat i) + Z.of_nat (length (proper l))) o -> spells j u k ->
     exists x' o' y', item k x' o' /\ postdot x' = y' /\ t_nsy_equivalent p !! Z.to_nat z = Some (Some y')).
Proof using Hen Hit Htok Hnull Hallowed.
  apply iderives_mutual.
  - intros i x _ _ u v Hw. by destruct u.
  - intros z' i Hz Heq _ u v Hw _ j x o Hx Hp Hsp. destruct u as [|? u]; [|by destruct u]. injection Hw as -> <-. inversion Hsp; subst. by exists x, o, (postdot x).
  - intros irl l rhs w Hin Ha _ IH u v Hw Hny j x o Hx Hp Hsp. apply list_elem_of_lookup in Hin as [i Hi]. pose proof (irule_at p i irl l rhs Hi Ha) as Hr.
    apply (IH u v Hw i (l, rhs) [] [] Hr) with (j := j) (o := j); [cbn; by rewrite app_nil_r| |done]. cbn. rewrite Z.add_0_r. by apply (rule_predicted i (l, rhs) j x o).
  - intros u v Hw. by destruct u.
  - intros y ys w1 w2 Hy IHy Hys IHys u v Hw i r l l' Hr Hl j o Hx Hsp. assert (forall m, u = w1 ++ m -> w2 = m ++ z :: v -> exists x' o' y', item k x' o' /\ postdot x' = y' /\ t_nsy_equivalent p !! Z.to_nat z = Some (Some y')) as Hlater_in.
    { intros m -> Hw2. apply spells_app in Hsp as (k'&Hsp1&Hsp2). apply (IHys m v Hw2 i r (l ++ [y]) l' Hr) with (j := k') (o := o); [by rewrite Hl, <- !app_assoc| |done]. by apply (item_moves i r l y ys l' w1 j). }
    destruct (app_eq_inv _ _ _ _ Hw) as [(m&E1&E2)|(m&E1&E2)]; [|by apply (Hlater_in m)]. destruct m as [|z' m]; cbn in E2; [apply (Hlater_in []); [by rewrite app_nil_r, E1, app_nil_r|done]|]. injection E2 as <- E2.
    assert (0 <= y) as Hy0 by (apply (rs_rhs _ _ (iz_shape _ _ _ Hit _ (list_elem_of_lookup_2 _ _ _ Hr))); rewrite Hl; apply elem_of_app; right; by left).
    destruct (null_in p y) eqn:Hny; [rewrite (Hnull y w1 Hny Hy0 Hy) in E1; by destruct u|]. apply (IHy u m E1 eq_refl j _ o Hx); [|done].
    destruct (iz_dot _ _ _ Hit i r (length (proper l)) Hr) as (_&Hp&_); [rewrite Hl, proper_app, length_app; lia|]. rewrite Hp, Hl, proper_app, lookup_app_r, Nat.sub_diag by lia. cbn [app]. by rewrite proper_cons, Hny.
Qed.

(** ** The start rule *)
Context (r0 : Z * list Z) (Hr0 : irules p !! Z.to_nat s = Some r0) (Hsome : ~ iderives p T r0.1 []).

(** The item at the end of the start rule. *)
Definition end_item : Z := first t s + Z.of_nat (length (proper r0.2)).

Lemma end_item_end : postdot end_item < 0 /\ lhs end_item = r0.1 /\ ~ leo_completion t end_item.
Proof using Hen Hit Hr0.
  destruct (iz_start _ _ _ Hit) as (Es&Hs0&_). destruct (iz_dot _ _ _ Hit _ r0 (length (proper r0.2)) Hr0 ltac:(done)) as (_&Hp&Hl&a&Ha&Hia). rewrite Z2Nat.id in * by done. unfold end_item. rewrite lookup_ge_None_2 in Hp by done.
  split; [rewrite Hp; cbn; lia|]. split; [done|]. intros (b&Hb&Hleo). rewrite (ahm_at_inj _ _ _ _ Hb Ha) in Hleo. destruct (en_start t Hen) as (s'&Es'&Hsb&Hno). assert (s' = s) as -> by congruence.
  unfold AHM_is_Leo_Completion in Hleo. destruct (AHM_is_Completion a); [|done]. rewrite Hia in Hleo. destruct (irl_table t s) as [e| |] eqn:He; [|done..]. cbn [mbind res_bind] in Hleo. rewrite (Hno e eq_refl) in Hleo. done.
Qed.

Theorem recognized k : item k end_item 0 <-> exists w, spells 0 w k /\ iderives p T r0.1 w.
Proof using Hen Hit Htok Hterm Hnull Hallowed Hr0 Hsome.
  destruct end_item_end as (Hpe&Hle&_). destruct (iz_start _ _ _ Hit) as (Es&Hs0&r&Hr&Hnt&Honly). assert (r = r0) as -> by congruence. split.
  - intros Hi. destruct (item_derives _ _ _ Hi) as (i&r&l&l'&w&Hdv). exists w. split; [apply (dv_spells _ _ _ _ _ _ _ _ Hdv)|]. destruct (derived_dot _ _ _ _ _ _ _ _ Hdv) as (_&El&_). rewrite <- Hle, El. by eapply derived_end.
  - intros (w&Hsp&Hd). assert (forall w, iderives p T r0.1 w -> spells 0 w k -> item k end_item 0) as Hgo; [|by eapply Hgo]. clear w Hsp Hd. intros w Hd Hsp.
    inversion Hd as [i x Hx Hn E1 E2|z i Hz Heq HT E1 E2|irl l rhs w' Hin Ha Hall E1 E2]; subst.
    + by destruct Hsome.
    + by destruct (Hnt (Z.to_nat z)).
    + apply list_elem_of_lookup in Hin as [i Hi]. pose proof (irule_at p i irl _ rhs Hi Ha) as Hr'. destruct (Honly i _ Hr') as [_ Hi0]. specialize (Hi0 eq_refl). subst i. assert (r0 = (r0.1, rhs)) as E0 by congruence.
      destruct derivations_have_items as [_ HQ]. unfold end_item. specialize (HQ rhs w Hall (Z.to_nat s) _ [] [] Hr' ltac:(cbn; by rewrite app_nil_r) 0 k 0). rewrite Z2Nat.id in HQ by done. rewrite E0. cbn [snd]. apply HQ; [|done]. cbn. rewrite Z.add_0_r. by apply item_start.
Qed.

(** The string up to the set [k] can go on with [z]. *)
Theorem awaited u z v k : 0 <= z -> spells 0 u k -> iderives p T r0.1 (u ++ z :: v) -> exists x o y, item k x o /\ postdot x = y /\ t_nsy_equivalent p !! Z.to_nat z = Some (Some y).
Proof using Hen Hit Htok Hnull Hallowed Hr0.
  intros Hz Hsp Hd. destruct (iz_start _ _ _ Hit) as (Es&Hs0&r&Hr&Hnt&Honly). assert (r = r0) as -> by congruence. remember (u ++ z :: v) as w eqn:Ew. inversion Hd as [i x Hx Hn E1 E2|z' i Hz' Heq HT E1 E2|irl l rhs w' Hin Ha Hall E1 E2]; subst.
  - by destruct u.
  - by destruct (Hnt (Z.to_nat z')).
  - apply list_elem_of_lookup in Hin as [i Hi]. pose proof (irule_at p i irl _ rhs Hi Ha) as Hr'. destruct (Honly i _ Hr') as [_ Hi0]. specialize (Hi0 eq_refl). subst i.
    destruct (derivations_await z k) as [_ HQ]. apply (HQ rhs _ Hall u v eq_refl (Z.to_nat s) _ [] [] Hr' ltac:(cbn; by rewrite app_nil_r) 0 0); [|done]. rewrite Z2Nat.id by done. cbn. rewrite Z.add_0_r. by apply item_start.
Qed.
End language.
