(* ===== verification/EarleyRun.v ===== *)
(** * Sessions of a recognizer

    A recognizer from [marpa_r_new] on, by any sequence of the calls that read input
    ([session]): every state is between two calls ([EarleySet.idle]), a set accepts exactly the
    strings of the grammar that its tokens spell ([recognition]), and a token that goes on to a
    string of the grammar is expected ([continuation]). *)
From stdpp Require Import sets gmap list list_numbers relations.
From S2P Require Import Prelude MarpaH Avl BitVector BitVectorTheorems BitScan Matrix Cil CilTheorems MarpaGrammar MarpaGrammarTheorems Census CensusSpec CensusMarks CensusRules CensusBody CensusTheorems Rewrite RewriteSpec RewriteSteps RewriteLanguage RewriteTheorems RewriteShape RewriteProperties Relations Items ItemsTables ItemsTheorems ItemsProperties Recce Earley EarleyStage EarleySteps EarleyPostdot EarleySet EarleyCalls EarleyStart EarleyEngine EarleyLanguage.

(** ** A new recognizer *)

(** The assertions of a new recognizer: those of the grammar, with their defaults. *)
Definition new_zwas (t : TABLES) : list ZWA := imap (fun zwaid default_value => MkZWA (Z.of_nat zwaid) (-1) (Boolean default_value) (Boolean default_value)) (t_gzwa_stack (g_of t)).

Section new.
Context `{HL : Library} (junk : nat -> list Z) (g : GRAMMAR) (p : INTERNAL) (s : Z) (t : TABLES) (Hpp : prepared g p s t) (c0 : Z) (Hc : held c0 (cilar_of t)).

Lemma recce_new_ok : exists r t', marpa_r_new junk t = Ok (Some r, t') /\ fresh t (new_zwas t) c0 r.
Proof using Hpp Hc.
  pose proof (pp_engine _ _ _ _ Hpp) as Hen. pose proof (en_symbols t Hen) as Hn. pose proof (en_rules t Hen) as Hi. destruct (en_start t Hen) as (s'&Hs&_).
  unfold marpa_r_new. rewrite (pp_precomputed _ _ _ _ Hpp). cbn [negb]. unfold AHM_Count_of_G. rewrite (en_count t Hen). cbn [written mbind res_bind].
  destruct (bv_obs_create_ok (junk 20%nat) (NSY_Count_of_G (t_internal t))) as (v1&->&H1); [lia|]. cbn [mbind res_bind].
  destruct (lbv_new_ok (junk 21%nat) (NSY_Count_of_G (t_internal t))) as (v2&->&H2); [lia|]. cbn [mbind res_bind].
  destruct (bv_obs_create_ok (junk 22%nat) (IRL_Count_of_G (t_internal t))) as (v3&->&H3); [lia|]. cbn [mbind res_bind].
  eexists _, _. split; [reflexivity|]. assert (G_is_Trivial (t_internal t) = false) as -> by (unfold G_is_Trivial; by rewrite Hs). split; cbn; try done.
  - split; [done|]. unfold new_zwas. split; [by rewrite length_imap|]. apply Forall_forall. intros x (i&d&->&_)%elem_of_lookup_imap_1. done.
  - by exists ∅.
  - by exists ∅.
  - by exists ∅.
Qed.
End new.

(** ** Room *)
Lemma roomy_small t allowed tok k : engine t -> (forall j y k, tok j y k -> 0 <= j < k) -> 0 <= k -> ahms t * (k + 1) < YIM_FATAL_THRESHOLD -> roomy t allowed tok k.
Proof.
  intros Hen Htok Hk Hlt l Hnd Hl. set (f := fun q : Z * Z => q.1 * (k + 1) + q.2).
  assert (forall x o, (x, o) ∈ l -> 0 <= o <= k /\ 0 <= x < ahms t) as Hb by (intros x o Hin; destruct (item_bounds t allowed tok Hen Htok _ _ _ (Hl x o Hin)) as (?&?&_); done).
  assert (NoDup (f <$> l)) as Hnf.
  { apply NoDup_fmap_2_strong; [|done]. intros [x1 o1] [x2 o2] H1 H2 E. destruct (Hb _ _ H1), (Hb _ _ H2). unfold f in E. cbn in E. assert (x1 = x2) by nia. subst. f_equal. lia. }
  pose proof (submseteq_length _ _ (NoDup_submseteq _ (seqZ 0 (ahms t * (k + 1))) Hnf ltac:(intros z ((x&o)&->&Hin)%list_elem_of_fmap; destruct (Hb _ _ Hin); unfold f; cbn; apply elem_of_seqZ; nia))) as Hlen.
  rewrite length_fmap, length_seqZ in Hlen. pose proof (Zle_0_nat (length (t_ahms t))). unfold ahms in *. lia.
Qed.

(** ** Sessions *)

(** The tokens accepted so far: the set where each one starts, its symbol, the earleme where it
    ends. *)
Definition TLOG : Type := list (Z * Z * Z).

Section session.
Context `{HL : Library} (junk : nat -> list Z) (g : GRAMMAR) (p : INTERNAL) (s : Z) (t : TABLES) (Hpp : prepared g p s t).
#[local] Abbreviation allowed := (allowed_rule t (new_zwas t)).

Definition nsy_of (x : Z) : Z := match t_nsy_equivalent (t_internal t) !! Z.to_nat x with Some (Some y) => y | _ => -1 end.
Definition as_log (zs : TLOG) : LOG := (fun a => (a.1.1, nsy_of a.1.2, a.2)) <$> zs.

(** The states of a recognizer, from its creation on, by any sequence of the calls that read
    input, whatever they answer; a set has fewer items than the limit. *)
Inductive session : TLOG -> RECCE -> Prop :=
| session_start r t' code r' : marpa_r_new junk t = Ok (Some r, t') -> roomy t allowed no_token 0 -> marpa_r_start_input junk r = Ok (code, r') -> session [] r'
| session_alternative zs r x value length code r' : session zs r -> marpa_r_alternative r x value length = Ok (code, r') ->
    session (if code =? MARPA_ERR_NONE then (t_earley_set_count r - 1, x, t_current_earleme r + length) :: zs else zs) r'
| session_complete zs r v r' : session zs r -> roomy t allowed (tokens (earlemes r ++ [t_current_earleme r + 1]) (as_log zs)) (t_earley_set_count r) -> marpa_r_earleme_complete junk r = Ok (v, r') -> session zs r'.

(** A token: its symbol is a terminal, with a symbol of the internal grammar. *)
Definition token_ok (a : Z * Z * Z) : Prop := 0 <= a.1.2 /\ (exists y, t_nsy_equivalent (t_internal t) !! Z.to_nat a.1.2 = Some (Some y)) /\ terminal g a.1.2.

Context (c0 : Z) (Hc0 : c0 < 2 ^ 62) (Hheld : held c0 (cilar_of t)) (Hfuel : (MARPA_AVL_MAX_HEIGHT <= tree_rounds)%nat).
#[local] Abbreviation idle := (idle t allowed c0).

Lemma idle_error log r code : idle log r -> idle log (R_ERROR r code).
Proof using.
  clear. intros Hid. apply (idle_same t allowed c0 _ log r); [exact Hid|done|done|apply (id_lookups _ _ _ _ _ _ Hid)|done|apply (wa_expected _ _ (id_areas _ _ _ _ _ _ Hid))|apply (id_seen _ _ _ _ _ _ Hid)].
Qed.

Lemma completed_idle log r v r' : idle log r -> completed t allowed c0 log r v r' -> idle log r'.
Proof using. intros Hid []; [by apply idle_error|done..]. Qed.

(** The tokens that have ended have their sets. *)
Definition all_read (zs : TLOG) (r : RECCE) : Prop := forall a, a ∈ zs -> a.2 <= t_current_earleme r -> exists k, earlemes r !! k = Some a.2.

Lemma completed_read zs r v r' : idle (as_log zs) r -> all_read zs r -> completed t allowed c0 (as_log zs) r v r' -> all_read zs r'.
Proof using.
  clear. intros Hid Hall Hc. assert (forall a, a ∈ zs -> t_current_earleme r < a.2 -> exists b, b ∈ t_alternatives r /\ End_Earleme_of_ALT b = a.2) as Hwait.
  { intros [[j x] e] Ha Hlt. cbn in *. destruct (id_waiting _ _ _ _ _ _ Hid j (nsy_of x) e) as (b&Hb&Et); [|done|exists b; split; [done|by injection Et]]. apply list_elem_of_fmap. by exists (j, x, e). }
  assert (earlemes r' = earlemes r -> t_current_earleme r' = t_current_earleme r + 1 -> (forall b, b ∈ t_alternatives r -> End_Earleme_of_ALT b <> t_current_earleme r + 1) -> all_read zs r') as Hsame.
  { intros Ee Ec Hno a Ha Hle. rewrite Ee. destruct (decide (a.2 <= t_current_earleme r)); [by apply Hall|]. destruct (Hwait a Ha ltac:(lia)) as (b&Hb&Eb). destruct (Hno b Hb). lia. }
  destruct Hc as [_|r' _ Hfur _ Ee _ Ec _ _ _|r' _ _ Hlater _ Ee _ Ec _ _|v r' r1 _ _ _ Ee1 _ _ _ Hsm _ Ec _].
  - exact Hall.
  - apply Hsame; [done..|]. intros b Hb. destruct (id_alternatives _ _ _ _ _ _ Hid b Hb). lia.
  - apply Hsame; [done..|]. intros b Hb. pose proof (Hlater b Hb). lia.
  - intros a Ha Hle. rewrite (sm_earlemes _ _ _ _ _ _ _ Hsm), Ee1. destruct (decide (a.2 <= t_current_earleme r)) as [Hle'|].
    + destruct (Hall a Ha Hle') as (k&Hk). exists k. by apply lookup_app_l_Some.
    + exists (length (earlemes r)). rewrite lookup_app_r, Nat.sub_diag by lia. cbn. f_equal. lia.
Qed.

(** Every state of a session is between two calls. *)
Lemma session_idle zs r : session zs r -> idle (as_log zs) r /\ Forall token_ok zs /\ all_read zs r.
Proof using Hpp Hc0 Hheld Hfuel.
  pose proof (pp_engine _ _ _ _ Hpp) as Hen. induction 1 as [r t' code r' Hnew Hroom Hrun|zs r x value length code r' _ (Hid&Hzs&Har) Hrun|zs r v r' _ (Hid&Hzs&Har) Hroom Hrun].
  - destruct (recce_new_ok junk g p s t Hpp c0 Hheld) as (r1&t1&Hnew1&Hfr). assert (r1 = r) as -> by congruence. split; [|split; [by apply Forall_nil|by intros a ?%not_elem_of_nil]].
    destruct (start_input_ok junk t Hen (new_zwas t) c0 Hc0 Hfuel r (fun _ => Hfr) Hroom) as (c&E&Hs). assert (c = (code, r')) as -> by congruence. cbn [fst snd] in Hs.
    inversion Hs as [Hno|? ? ? ? ? ? ? ? Hid]; [by destruct (Hno (fr_phase _ _ _ _ Hfr))|done].
  - destruct (alternative_ok t Hen allowed c0 (as_log zs) r x value length Hid) as (c&E&Hj). assert (c = (code, r')) as -> by congruence. cbn [fst snd] in Hj.
    inversion Hj as [? ? Href _ _ _ Ec _ Hid' Es _ Hne|tkn y ? Hph Hlen Hx0 Htkn Hterm Hv Heq _ Haw Hfar Hni _ Ec _ Hid' Es]; subst.
    + rewrite (proj2 (Z.eqb_neq _ _) Hne). split; [done|]. split; [done|]. unfold all_read, earlemes. by rewrite Ec, Es.
    + rewrite Z.eqb_refl. split_and!.
      * unfold as_log, nsy_of. cbn. rewrite Heq. exact Hid'.
      * apply Forall_cons. split; [|done]. split; [done|]. split; [by exists y|]. apply (pp_terminals _ _ _ _ Hpp _ tkn); [|done].
        rewrite <- Htkn. symmetry. exact (f_equal (fun t => XSY_by_ID (g_of t) x) (st_tables _ _ _ (id_store _ _ _ _ _ _ Hid))).
      * intros a [->|Ha]%elem_of_cons; [cbn; lia|]. unfold earlemes. rewrite Ec, Es. by apply Har.
  - destruct (earleme_complete_ok junk t Hen allowed c0 Hc0 Hfuel (as_log zs) r Hid Hroom) as (c&E&Hcm). assert (c = (v, r')) as -> by congruence. split; [by eapply completed_idle|]. split; [done|by eapply completed_read].
Qed.

(** ** The strings of the input *)

(** A token from the set [j] to the set [k]. *)
Definition token_at (zs : TLOG) (r : RECCE) (j x k : Z) : Prop := exists e, 0 <= k /\ earlemes r !! Z.to_nat k = Some e /\ (j, x, e) ∈ zs.

Lemma tokens_named zs r j y k : Forall token_ok zs -> state_tokens (as_log zs) r j y k <-> exists x, 0 <= x /\ t_nsy_equivalent (t_internal t) !! Z.to_nat x = Some (Some y) /\ token_at zs r j x k.
Proof using.
  clear. intros Hzs. rewrite Forall_forall in Hzs. unfold state_tokens, tokens, token_at. split.
  - intros (e&Hk&He&Hlog). apply list_elem_of_fmap in Hlog as ([[j' x] e']&E&Hin). injection E as -> -> ->. destruct (Hzs _ Hin) as (Hx&(y&Hy)&_). cbn in Hx, Hy. exists x. split; [done|]. unfold nsy_of. cbn. rewrite Hy. split; [done|]. by exists e'.
  - intros (x&Hx&Hy&e&Hk&He&Hin). exists e. split; [done|]. split; [done|]. apply list_elem_of_fmap. exists (j, x, e). split; [|done]. unfold nsy_of. cbn. by rewrite Hy.
Qed.

Lemma tokens_terminal zs r j x k : Forall token_ok zs -> token_at zs r j x k -> terminal g x.
Proof using. clear. intros Hzs (e&_&_&Hin). rewrite Forall_forall in Hzs. by destruct (Hzs _ Hin) as (_&_&?). Qed.

(** A set has room when the grammar is small enough for the number of sets. *)
Lemma roomy_session zs r : session zs r -> ahms t * (t_earley_set_count r + 1) < YIM_FATAL_THRESHOLD -> roomy t allowed (tokens (earlemes r ++ [t_current_earleme r + 1]) (as_log zs)) (t_earley_set_count r).
Proof using Hpp Hc0 Hheld Hfuel.
  intros Hses Hlt. destruct (session_idle zs r Hses) as (Hid&_&_). pose proof (id_count _ _ _ _ _ _ Hid) as Hn. pose proof (st_sets _ _ _ (id_store _ _ _ _ _ _ Hid)) as Hlen.
  apply roomy_small; [apply (pp_engine _ _ _ _ Hpp)| |lia|done]. intros j y k (e&Hk&He&Hin). apply lookup_app_Some in He as [He|[Hge _]].
  - apply (tokens_later t (as_log zs) r _ (id_store _ _ _ _ _ _ Hid) (id_log _ _ _ _ _ _ Hid) j y k). by exists e.
  - destruct (id_log _ _ _ _ _ _ Hid _ _ _ Hin) as (_&Hj&s'&Hs'&_). apply lookup_lt_Some in Hs'. unfold earlemes in Hge. rewrite length_fmap in Hge. lia.
Qed.

(** *** One token at each earleme *)

Definition word_tokens (w : list Z) : TLOG := reverse (imap (fun i x => (Z.of_nat i, x, Z.of_nat i + 1)) w).

Lemma word_tokens_elem w j x e : (j, x, e) ∈ word_tokens w <-> 0 <= j /\ w !! Z.to_nat j = Some x /\ e = j + 1.
Proof using.
  clear. unfold word_tokens. rewrite elem_of_reverse, elem_of_lookup_imap. split.
  - intros (i&y&[= -> -> ->]&Hi). rewrite Nat2Z.id. split; [lia|done].
  - intros (Hj&Hx&->). exists (Z.to_nat j), x. rewrite Z2Nat.id by done. done.
Qed.

(** The sets of a word are at its earlemes. *)
Lemma word_sets w r k e : session (word_tokens w) r -> t_current_earleme r = Z.of_nat (length w) -> earlemes r !! k = Some e <-> (k <= length w)%nat /\ e = Z.of_nat k.
Proof using Hpp Hc0 Hheld Hfuel.
  intros Hses Hcur. destruct (session_idle _ r Hses) as (Hid&_&Har). pose proof (id_store _ _ _ _ _ _ Hid) as Hst. pose proof (id_count _ _ _ _ _ _ Hid) as Hn. pose proof (st_sets _ _ _ Hst) as Hlen.
  assert (forall k e, earlemes r !! k = Some e -> Z.of_nat k <= e <= Z.of_nat (length w)) as Hlow.
  { clear k e. induction k as [|k IH]; intros e (s'&Hs'&<-)%earleme_at; pose proof (id_times _ _ _ _ _ _ Hid _ _ Hs'); [lia|]. destruct (lookup_lt_is_Some_2 (t_sets r) k) as [s0 Hs0]; [apply lookup_lt_Some in Hs'; lia|].
    pose proof (IH (Earleme_of_YS s0) ltac:(apply earleme_at; by exists s0)). pose proof (st_times _ _ _ Hst _ _ _ _ Hs0 Hs' ltac:(lia)). lia. }
  assert (forall i, (i < length w)%nat -> earlemes r !! i = Some (Z.of_nat i)) as Hat.
  { intros i Hi. destruct (lookup_lt_is_Some_2 w i Hi) as [x Hx]. destruct (id_log _ _ _ _ _ _ Hid (Z.of_nat i) (nsy_of x) (Z.of_nat i + 1)) as (_&_&s'&Hs'&Hlt).
    - apply list_elem_of_fmap. exists (Z.of_nat i, x, Z.of_nat i + 1). split; [done|]. apply word_tokens_elem. rewrite Nat2Z.id. split; [lia|done].
    - rewrite Nat2Z.id in Hs'. assert (earlemes r !! i = Some (Earleme_of_YS s')) as E by (apply earleme_at; by exists s'). rewrite E. f_equal. pose proof (Hlow _ _ E). lia. }
  assert (earlemes r !! length w = Some (Z.of_nat (length w))) as Hlast.
  { destruct (lookup_lt_is_Some_2 (earlemes r) 0) as [e0 He0]; [unfold earlemes; rewrite length_fmap; lia|]. destruct (decide (length w = 0%nat)) as [E0|Hne]; [pose proof (Hlow _ _ He0); rewrite E0 in *; rewrite He0; f_equal; lia|].
    destruct (lookup_lt_is_Some_2 w (length w - 1)) as [x Hx]; [lia|]. destruct (Har (Z.of_nat (length w - 1), x, Z.of_nat (length w - 1) + 1)) as (k'&Hk').
    - apply word_tokens_elem. rewrite Nat2Z.id. split; [lia|done].
    - cbn. lia.
    - cbn in Hk'. pose proof (Hlow _ _ Hk'). destruct (decide (k' < length w)%nat) as [Hlt|]; [rewrite (Hat k' Hlt) in Hk'; injection Hk' as Hk'; lia|]. assert (k' = length w) as -> by lia. rewrite Hk'. f_equal. lia. }
  split.
  - intros He. pose proof (Hlow _ _ He). split; [lia|]. destruct (decide (k = length w)) as [->|]; [congruence|]. rewrite (Hat k) in He by lia. congruence.
  - intros [Hk ->]. destruct (decide (k = length w)) as [->|]; [done|]. apply Hat. lia.
Qed.

Lemma word_count w r : session (word_tokens w) r -> t_current_earleme r = Z.of_nat (length w) -> t_earley_set_count r = Z.of_nat (length w) + 1.
Proof using Hpp Hc0 Hheld Hfuel.
  intros Hses Hcur. destruct (session_idle _ r Hses) as (Hid&_). pose proof (st_sets _ _ _ (id_store _ _ _ _ _ _ Hid)) as Hlen. assert (length (t_sets r) = length (earlemes r)) as El by (unfold earlemes; by rewrite length_fmap).
  assert (length w < length (earlemes r))%nat by (eapply lookup_lt_Some, (word_sets w r _ _ Hses Hcur); done).
  destruct (decide (S (length w) < length (earlemes r))%nat) as [Hlt|]; [|lia]. destruct (lookup_lt_is_Some_2 _ _ Hlt) as [e He]. apply (word_sets w r _ _ Hses Hcur) in He. lia.
Qed.

(** The only string from the set 0 to the last set is the word. *)
Lemma spells_word w r v : session (word_tokens w) r -> t_current_earleme r = Z.of_nat (length w) -> spells (token_at (word_tokens w) r) 0 v (Z.of_nat (length w)) <-> v = w.
Proof using Hpp Hc0 Hheld Hfuel.
  intros Hses Hcur. assert (forall j x k, token_at (word_tokens w) r j x k <-> 0 <= j /\ k = j + 1 /\ w !! Z.to_nat j = Some x) as Htok.
  { intros j x k. unfold token_at. split.
    - intros (e&Hk&[_ He]%(word_sets w r _ _ Hses Hcur)&(Hj&Hx&->)%word_tokens_elem). split; [done|]. split; [lia|done].
    - intros (Hj&->&Hx). exists (j + 1). split; [lia|]. split; [|by apply word_tokens_elem]. apply (word_sets w r _ _ Hses Hcur). apply lookup_lt_Some in Hx. lia. }
  split.
  - assert (forall j v k, spells (token_at (word_tokens w) r) j v k -> 0 <= j -> k = j + Z.of_nat (length v) /\ v `prefix_of` drop (Z.to_nat j) w) as Hgo.
    { clear v. induction 1 as [j|j x k v m Hx _ IH]; intros Hj; [split; [cbn; lia|apply prefix_nil]|]. apply Htok in Hx as (_&->&Hx). destruct (IH ltac:(lia)) as [-> Hp]. split; [cbn; lia|]. rewrite (drop_S _ _ _ Hx). apply prefix_cons. by replace (S (Z.to_nat j)) with (Z.to_nat (j + 1)) by lia. }
    intros Hsp. destruct (Hgo 0 v _ Hsp ltac:(lia)) as [El [v' E]]. cbn in E. rewrite drop_0 in E. assert (v' = []) as ->; [|by rewrite app_nil_r in E]. apply nil_length_inv. apply (f_equal length) in E. rewrite length_app in E. lia.
  - intros ->. assert (forall n i, (i + n = length w)%nat -> spells (token_at (word_tokens w) r) (Z.of_nat i) (drop i w) (Z.of_nat (length w))) as Hgo.
    { induction n as [|n IH]; intros i Hi; [replace i with (length w) by lia; rewrite drop_all; constructor|]. destruct (lookup_lt_is_Some_2 w i) as [x Hx]; [lia|]. rewrite (drop_S _ _ _ Hx). econstructor; [|apply (IH (S i)); lia]. apply Htok. rewrite Nat2Z.id. split; [lia|]. split; [lia|done]. }
    apply (Hgo (length w) 0%nat). lia.
Qed.

(** An item at the end of the start rule, from the set 0. *)
Definition ends_start (y : YIM) : bool :=
  match AHM_by_ID t (AHM_of_YIM y) with Ok a => AHM_is_Completion a && bool_decide (t_start_irl (t_internal t) = Some (IRL_of_AHM a)) | _ => false end.
(** The set [k] has one. *)
Definition accepts (r : RECCE) (k : Z) : bool := existsb (fun y => (YS_of_YIM y =? k) && (Origin_of_YIM y =? 0) && ends_start y) (t_yims r).

Lemma end_item_unique r0 x a : irules p !! Z.to_nat s = Some r0 -> ahm_at t x a -> AHM_is_Completion a = true /\ t_start_irl (t_internal t) = Some (IRL_of_AHM a) <-> x = end_item p s t r0.
Proof using Hpp.
  clear Hheld Hc0 Hfuel. intros Hr0 Ha. pose proof (pp_items _ _ _ _ Hpp) as Hit. destruct (iz_start _ _ _ Hit) as (Es&Hs0&_). unfold AHM_is_Completion. split.
  - intros [Hp Hst]. apply Z.ltb_lt in Hp. assert (IRL_of_AHM a = s) as Ei by congruence. destruct (iz_all _ _ _ Hit x (ahm_at_bound t x a Ha)) as (i&r&k&Hr&Hk&->). destruct (iz_dot _ _ _ Hit i r k Hr Hk) as (_&Hpd&_&b&Hb&Hbi).
    rewrite (ahm_at_inj t _ _ _ Ha Hb), Hbi in Ei. assert (i = Z.to_nat s) as -> by lia. assert (r = r0) as -> by congruence. unfold end_item. rewrite Z2Nat.id by done. do 2 f_equal.
    rewrite <- (postdot_read t _ _ Ha) in Hpd. destruct (proper_symbols p r0.2 !! k) as [y|] eqn:Hy; [|apply lookup_ge_None in Hy; lia]. cbn in Hpd.
    assert (0 <= y); [|lia]. pose proof (iz_shape _ _ _ Hit _ (list_elem_of_lookup_2 _ _ _ Hr0)) as Hsh. apply list_elem_of_lookup_2 in Hy. unfold proper_symbols in Hy. apply list_elem_of_filter in Hy as [_ Hy]. apply (rs_rhs _ _ Hsh _ Hy).
  - intros ->. unfold end_item in Ha. destruct (iz_dot _ _ _ Hit _ r0 (length (proper_symbols p r0.2)) Hr0 ltac:(done)) as (_&Hpd&_&b&Hb&Hbi). rewrite Z2Nat.id in * by done. rewrite (ahm_at_inj t _ _ _ Ha Hb), Hbi.
    rewrite lookup_ge_None_2 in Hpd by done. rewrite <- (postdot_read t _ _ Hb) in Hpd. split; [apply Z.ltb_lt; rewrite Hpd; cbn; lia|done].
Qed.

Lemma accepts_iff n r k r0 : store t n r -> irules p !! Z.to_nat s = Some r0 -> accepts r k = true <-> has r k (end_item p s t r0) 0.
Proof using Hpp.
  clear Hheld Hc0 Hfuel. intros Hst Hr0. unfold accepts, has. rewrite existsb_exists. split.
  - intros (y&Hin&Hy). apply andb_true_iff in Hy as [[H1%Z.eqb_eq H2%Z.eqb_eq]%andb_true_iff H3]. apply list_elem_of_In, list_elem_of_lookup in Hin as [id Hid]. exists id, y. split; [done|]. unfold key. rewrite H1, H2. do 2 f_equal.
    unfold ends_start in H3. destruct (AHM_by_ID t (AHM_of_YIM y)) as [a| |] eqn:Ha; [|done..]. apply andb_true_iff in H3 as [H3 H4%bool_decide_eq_true]. apply (end_item_unique r0 _ a Hr0); [|done]. unfold AHM_by_ID in Ha. apply bind_Ok in Ha as (o&[Hb Ho]%rd_Ok&Ha). destruct o as [a'|]; [|done]. injection Ha as ->. by split.
  - intros (id&y&Hid&Hk). unfold key in Hk. injection Hk as E1 E2 E3. exists y. split; [by eapply list_elem_of_In, list_elem_of_lookup_2|]. rewrite E2, E3, !Z.eqb_refl. cbn. unfold ends_start. rewrite E1.
    pose proof (pp_items _ _ _ _ Hpp) as Hit. destruct (iz_start _ _ _ Hit) as (Es&Hs0&_). destruct (iz_dot _ _ _ Hit _ r0 (length (proper_symbols p r0.2)) Hr0 ltac:(done)) as (_&_&_&a&Ha&_). rewrite Z2Nat.id in Ha by done.
    change (ahm_at t (end_item p s t r0) a) in Ha. rewrite (ahm_at_read t _ _ Ha). destruct (proj2 (end_item_unique r0 _ a Hr0 Ha) eq_refl) as [-> Hsa]. by apply bool_decide_eq_true.
Qed.

(** ** Recognition *)
Context (junk' : nat -> list Z) (Hready : CensusTheorems.ready g) (Hplain : plain_sequences g) (Hinternal : precompute_internal junk' g = Ok (inr p)) (Hversion : lib_version = marpa_h_version).
Context (Hallowed : forall i, 0 <= i < IRL_Count_of_G p -> allowed i).

#[local] Abbreviation T := (terminal g).

Lemma null_empty y w : null_in p y = true -> 0 <= y -> iderives p T y w -> w = [].
Proof using Hready Hplain Hinternal Hversion Hfuel.
  intros Hn Hy Hd. unfold null_in, nsy_flag in Hn. destruct (t_nsy_stack p !! Z.to_nat y) as [x|] eqn:Hx; [|done]. rewrite <- (Z2Nat.id y) in Hd by done.
  apply (symbol_exact Hfuel Hversion junk' g p _ x w Hready Hplain Hinternal Hx) in Hd. unfold nsy_language, sense_of in Hd. rewrite Hn in Hd. cbn in Hd. destruct (Source_XSY_of_NSY x); [apply Hd|done].
Qed.

(** The start rule derives the strings of the grammar, but the empty one. *)
Lemma start_rule_exact : exists r0, irules p !! Z.to_nat s = Some r0 /\ forall w, iderives p T r0.1 w <-> w <> [] /\ derives (forms_of g) T (t_start_xsy_id g) w.
Proof using Hpp Hready Hplain Hinternal Hversion Hfuel.
  pose proof (pp_items _ _ _ _ Hpp) as Hit. pose proof (start_symbol_exact Hfuel Hversion junk' g p Hready Hplain Hinternal) as He. destruct (iz_start _ _ _ Hit) as (Es&Hs0&r0&Hr0&_). exists r0. split; [done|].
  destruct (iz_array _ _ _ Hit _ r0 Hr0) as (irl0&Hi0&Ha0). rewrite (pp_start _ _ _ _ Hpp) in He. destruct He as (irl&l&Hirl&Hl&Hw). apply rd_Ok in Hirl as [_ Hirl]. assert (irl = irl0) as -> by congruence.
  unfold LHSID_of_IRL in Hl. rewrite Ha0 in Hl. by injection Hl as <-.
Qed.

(** The facts of the state, as [EarleyLanguage] uses them. *)
Lemma tokens_here zs r : Forall token_ok zs -> forall j y k, state_tokens (as_log zs) r j y k <-> exists x, 0 <= x /\ t_nsy_equivalent p !! Z.to_nat x = Some (Some y) /\ token_at zs r j x k.
Proof using Hpp. clear -Hpp. intros Hzs j y k. rewrite (tokens_named zs r j y k Hzs), (iz_equivalent _ _ _ (pp_items _ _ _ _ Hpp)). done. Qed.

Lemma all_allowed i : 0 <= i < IRL_Count_of_G (t_internal t) -> allowed i.
Proof using Hpp Hallowed. clear -Hpp Hallowed. rewrite (iz_rules _ _ _ (pp_items _ _ _ _ Hpp)). intros Hi. apply Hallowed. unfold irules in Hi. rewrite length_fmap in Hi. exact Hi. Qed.

Lemma recognition zs r k : session zs r -> 0 <= k < t_earley_set_count r ->
  accepts r k = true <-> exists w, spells (token_at zs r) 0 w k /\ w <> [] /\ derives (forms_of g) T (t_start_xsy_id g) w.
Proof using Hpp Hc0 Hheld Hready Hplain Hinternal Hversion Hfuel Hallowed.
  intros Hses Hk. destruct (session_idle zs r Hses) as (Hid&Hzs&_). pose proof (pp_engine _ _ _ _ Hpp) as Hen. pose proof (pp_items _ _ _ _ Hpp) as Hit. destruct start_rule_exact as (r0&Hr0&Hlang).
  rewrite (accepts_iff _ r k r0 (id_store _ _ _ _ _ _ Hid) Hr0). destruct (end_item_end p s t Hen Hit r0 Hr0) as (_&_&Hnl).
  assert (has r k (end_item p s t r0) 0 <-> item t allowed (state_tokens (as_log zs) r) k (end_item p s t r0) 0) as ->.
  { split; [apply (id_sound _ _ _ _ _ _ Hid)|]. intros Hi. by destruct (id_complete _ _ _ _ _ _ Hid k Hk _ _ Hi) as [?|Hleo]. }
  rewrite (recognized p s t Hen Hit T null_empty allowed (state_tokens (as_log zs) r) (token_at zs r) (tokens_here zs r Hzs) (fun j z k => tokens_terminal zs r j z k Hzs) all_allowed r0 Hr0).
  - split; intros (w&Hsp&Hw); exists w; (split; [done|]); by apply Hlang.
  - intros [Hne _]%Hlang. done.
Qed.

(** A token that goes on to a string of the grammar is expected. *)
Lemma continuation zs r u x v : session zs r -> 0 <= x -> spells (token_at zs r) 0 u (t_earley_set_count r - 1) -> derives (forms_of g) T (t_start_xsy_id g) (u ++ x :: v) ->
  exists y, t_nsy_equivalent (t_internal t) !! Z.to_nat x = Some (Some y) /\ awaits t allowed (as_log zs) r (t_earley_set_count r - 1) y.
Proof using Hpp Hc0 Hheld Hready Hplain Hinternal Hversion Hfuel Hallowed.
  intros Hses Hx Hsp Hd. destruct (session_idle zs r Hses) as (Hid&Hzs&_). pose proof (pp_engine _ _ _ _ Hpp) as Hen. pose proof (pp_items _ _ _ _ Hpp) as Hit. destruct start_rule_exact as (r0&Hr0&Hlang).
  destruct (awaited p s t Hen Hit T null_empty allowed (state_tokens (as_log zs) r) (token_at zs r) (tokens_here zs r Hzs) all_allowed r0 Hr0 u x v (t_earley_set_count r - 1) Hx Hsp) as (x'&o&y&Hi&Hp&He).
  - apply Hlang. split; [by destruct u|done].
  - exists y. rewrite (iz_equivalent _ _ _ Hit). split; [done|]. by exists x', o.
Qed.
End session.
