(* ===== verification/EarleyProperties.v ===== *)
(** * What a recognizer does: the theorems

    A recognizer made from a grammar that the calls of the construction have built and
    [marpa_g_precompute] has accepted: what it recognizes, its Earley sets, the branches of
    each call, and a grammar on which it is run. *)
From stdpp Require Import sets gmap list list_numbers relations.
From S2P Require Import Prelude MarpaH Avl AvlTree AvlProbe AvlTheorems BitVector BitVectorTheorems Matrix Cil CilTheorems MarpaGrammar MarpaRules MarpaGrammarTheorems MarpaCalls Census CensusSpec CensusMarks CensusRules CensusBody CensusTheorems CensusProperties Rewrite RewriteSpec RewriteSteps RewriteLanguage RewriteTheorems RewriteProperties RewriteShape Relations Items ItemsTables ItemsTheorems ItemsProperties Recce Earley EarleyStage EarleySteps EarleyPostdot EarleySet EarleyCalls EarleyStart EarleyEngine EarleyLanguage EarleyRun.

(** The grammar [g], its internal grammar [p] and its start rule [s], and the tables [t] that the
    precomputation leaves; the code multiplies the number of items by 3. *)
Record recognizable `{Library} (junk : nat -> list Z) (g : GRAMMAR) (p : INTERNAL) (s : Z) (t : TABLES) : Prop := {
  rg_precomputing : precomputing junk g p;
  rg_start : t_start_irl p = Some s;
  rg_tables : exists ret, marpa_g_precompute junk g = Ok (ret, inr t);
  rg_small : 3 * ahms t <= INT_MAX
}.

(** Every rule may be predicted at the start: its assertions hold there. *)
Definition unguarded (p : INTERNAL) (t : TABLES) : Prop := forall i, 0 <= i < IRL_Count_of_G p -> allowed_rule t (new_zwas t) i.

(** The strings of a grammar. *)
Definition language (g : GRAMMAR) (w : list Z) : Prop := derives (forms_of g) (terminal g) (t_start_xsy_id g) w.

(** The latest set. *)
Definition last_set (r : RECCE) : Z := t_earley_set_count r - 1.

Section properties.
Context `{HL : Library} (Hfuel : (MARPA_AVL_MAX_HEIGHT <= tree_rounds)%nat) (Hversion : lib_version = marpa_h_version).

Lemma recognizable_prepared junk g p s t : recognizable junk g p s t -> prepared g p s t.
Proof using Hfuel Hversion. intros [H1 H2 (ret&H3) H4]. by apply (recognizer_tables Hfuel Hversion junk g p s ret t). Qed.

Lemma recognizable_held junk g p s t : recognizable junk g p s t -> exists c, c < 2 ^ 62 /\ held c (cilar_of t).
Proof using Hfuel Hversion. intros Hr. destruct (pp_arena _ _ _ _ (recognizable_prepared _ _ _ _ _ Hr)) as (c&Hc&Hb). by exists c. Qed.

(** C1. The recognizer recognizes the language of the grammar, but for the empty word: the case of
    a grammar whose sequence rules have a minimum of 0 or 1 and productive separators
    ([plain_sequences]: a minimum of 2 is lost, [minimum_of_two_lost]), and whose assertions
    all hold by default ([unguarded]).  When the tokens of the word [w] have been read, each at
    its earleme ([marpa_r_alternative] accepted each with a length of 1 and
    [marpa_r_earleme_complete] came after it), the last Earley set has an item at the end of
    the start rule, that comes from the set 0, exactly when [w] is not empty and is a string of
    the grammar.  Not all the items are made: what is skipped, because of a Leo item, is never
    this one. *)
Theorem word_recognition junk junk' g p s t w r : recognizable junk g p s t -> plain_sequences g -> unguarded p t ->
  session junk' t (word_tokens w) r -> t_current_earleme r = Z.of_nat (length w) ->
  accepts t r (last_set r) = true <-> w <> [] /\ language g w.
Proof using Hfuel Hversion.
  intros Hr Hplain Hun Hses Hcur. pose proof (recognizable_prepared _ _ _ _ _ Hr) as Hpp. destruct (recognizable_held _ _ _ _ _ Hr) as (c&Hc&Hheld). pose proof (rg_precomputing _ _ _ _ _ Hr) as Hpc.
  pose proof (word_count junk' g p s t Hpp c Hc Hheld Hfuel w r Hses Hcur) as Ecount.
  unfold last_set. rewrite (recognition junk' g p s t Hpp c Hc Hheld Hfuel junk (pc_ready _ _ _ Hpc) Hplain (pc_internal _ _ _ Hpc) Hversion Hun _ r _ Hses) by lia.
  rewrite Ecount, Z.add_simpl_r. split.
  - intros (v&->%(spells_word junk' g p s t Hpp c Hc Hheld Hfuel w r v Hses Hcur)&Hw). done.
  - intros Hw. exists w. split; [|done]. by apply (spells_word junk' g p s t Hpp c Hc Hheld Hfuel w r w Hses Hcur).
Qed.

(** C4. Ambiguous input: tokens of any length, that may overlap, several from a place; for a grammar
    whose sequence rules have a minimum of 0 or 1 and productive separators
    ([plain_sequences]) and whose assertions all hold by default ([unguarded]).  The set [k] has
    an item at the end of the start rule, from the set 0, exactly when the tokens that were
    accepted spell, on some path from the set 0 to the set [k], a string of the grammar that is
    not empty. *)
Theorem recognition_exact junk junk' g p s t zs r k : recognizable junk g p s t -> plain_sequences g -> unguarded p t ->
  session junk' t zs r -> 0 <= k <= last_set r ->
  accepts t r k = true <-> exists w, spells (token_at zs r) 0 w k /\ w <> [] /\ language g w.
Proof using Hfuel Hversion.
  intros Hr Hplain Hun Hses Hk. unfold last_set in Hk. pose proof (recognizable_prepared _ _ _ _ _ Hr) as Hpp. destruct (recognizable_held _ _ _ _ _ Hr) as (c&Hc&Hheld). pose proof (rg_precomputing _ _ _ _ _ Hr) as Hpc.
  apply (recognition junk' g p s t Hpp c Hc Hheld Hfuel junk (pc_ready _ _ _ Hpc) Hplain (pc_internal _ _ _ Hpc) Hversion Hun zs r k Hses). lia.
Qed.

(** C5. A token that is refused as unexpected, or as one of a symbol that is not accessible, has no
    place: no string of the grammar starts with the tokens up to the last set and goes on
    with it.  The grammar is one whose sequence rules have a minimum of 0 or 1 and productive
    separators ([plain_sequences]) and whose assertions all hold by default ([unguarded]): an
    assertion that fails, or a rule left out for its separator, may refuse a token that such a
    string goes on with. *)
Theorem unexpected_token_hopeless junk junk' g p s t zs r x value length code r' u v : recognizable junk g p s t -> plain_sequences g -> unguarded p t ->
  session junk' t zs r -> marpa_r_alternative r x value length = Ok (code, r') -> code = MARPA_ERR_UNEXPECTED_TOKEN_ID \/ code = MARPA_ERR_INACCESSIBLE_TOKEN ->
  spells (token_at zs r) 0 u (last_set r) -> ~ language g (u ++ x :: v).
Proof using Hfuel Hversion.
  intros Hr Hplain Hun Hses Hrun Hcode Hsp Hw. pose proof (recognizable_prepared _ _ _ _ _ Hr) as Hpp. destruct (recognizable_held _ _ _ _ _ Hr) as (c&Hc&Hheld). pose proof (rg_precomputing _ _ _ _ _ Hr) as Hpc.
  destruct (session_idle junk' g p s t Hpp c Hc Hheld Hfuel zs r Hses) as (Hid&_). destruct (alternative_ok t (pp_engine _ _ _ _ Hpp) _ c _ r x value length Hid) as (a&E&Hj). assert (a = (code, r')) as -> by congruence. cbn [fst snd] in Hj.
  assert (refusal t (allowed_rule t (new_zwas t)) (as_log t zs) r x value length code) as Href by (destruct Hj; [done|by destruct Hcode]).
  assert (0 <= x) as Hx by (destruct Hcode as [-> | ->]; inversion Href as [| | | |? ? ? ? Htk Hv|? ? ? Htk|? ? ? ? Htk|? ? ? ? Htk|? ? ? ? Htk|? ? ? ? Htk]; subst; by apply rd_Ok in Htk as [? _]).
  destruct (continuation junk' g p s t Hpp c Hc Hheld Hfuel junk (pc_ready _ _ _ Hpc) Hplain (pc_internal _ _ _ Hpc) Hversion Hun zs r u x v Hses Hx Hsp Hw) as (y&Hy&Haw).
  assert (forall tkn, value_verdict r value tkn x <> Some code) as Hno by (intros tkn; unfold value_verdict; destruct Hcode as [-> | ->]; repeat case_match; done).
  destruct Hcode as [-> | ->]; inversion Href; subst; try (by eapply Hno; eassumption); try congruence. replace y0 with y in * by congruence. done.
Qed.

(** C3. The Earley sets.  What is in a set is an item of the input, by the four rules alone (start,
    prediction, reading of a token, completion); every item of the input is in its set, but
    for the ends of right recursive rules, that the Leo items stand for. *)
Theorem earley_sets_exact junk junk' g p s t zs r k x o : recognizable junk g p s t -> session junk' t zs r -> 0 <= k <= last_set r ->
  let item := item t (allowed_rule t (new_zwas t)) (state_tokens (as_log t zs) r) in
  (has r k x o -> item k x o) /\ (item k x o -> has r k x o \/ leo_completion t x).
Proof using Hfuel Hversion.
  intros Hr Hses Hk item. unfold last_set in Hk. pose proof (recognizable_prepared _ _ _ _ _ Hr) as Hpp. destruct (recognizable_held _ _ _ _ _ Hr) as (c&Hc&Hheld).
  destruct (session_idle junk' g p s t Hpp c Hc Hheld Hfuel zs r Hses) as (Hid&_). split; [apply (id_sound _ _ _ _ _ _ Hid)|]. apply (id_complete _ _ _ _ _ _ Hid). lia.
Qed.

(** C10. A recognizer is made and its input started ([marpa_r_new], [marpa_r_start_input]), for tables
    whose first set has fewer items than the limit ([roomy]: at
    [YIM_FATAL_THRESHOLD] no more items are made): both calls end, without an access outside an array, through a null
    pointer or to a field that was not written, nor a failed assertion.  The first set is at the
    earleme 0, the symbols expected are the terminals that an item waits for, and the events
    told are those of its items, the predicted and the nulled ones included: the code tells
    them at the earleme 0 also, where the documentation says that it does not. *)
Theorem recognizer_starts junk junk' g p s t : recognizable junk g p s t -> roomy t (allowed_rule t (new_zwas t)) no_token 0 ->
  exists c r t' code r', marpa_r_new junk' t = Ok (Some r, t') /\ marpa_r_start_input junk' r = Ok (code, r') /\ started t (new_zwas t) c r code r'.
Proof using Hfuel Hversion.
  intros Hr Hroom. pose proof (recognizable_prepared _ _ _ _ _ Hr) as Hpp. destruct (recognizable_held _ _ _ _ _ Hr) as (c&Hc&Hheld). destruct (recce_new_ok junk' g p s t Hpp c Hheld) as (r&t'&Hnew&Hfr).
  destruct (start_input_ok junk' t (pp_engine _ _ _ _ Hpp) (new_zwas t) c Hc Hfuel r (fun _ => Hfr) Hroom) as ([code r']&E&Hs). by exists c, r, t', code, r'.
Qed.


(** C6. [marpa_r_earleme_complete], in any state of a session whose next set has fewer items than
    the limit ([roomy]): it ends, without a fault.  It is refused when input is not accepted.
    What it makes depends on where the tokens accepted so far end, not on where they were
    accepted as the documentation has it: it fails, the parse exhausted, when the furthest
    earleme that one reaches is behind the next earleme; no set is made when one ends later but none at the next earleme; otherwise
    the set of the tokens that end there is made, those of more than one earleme accepted
    before included, and what is returned is the number of events. *)
Theorem marpa_r_earleme_complete_completes junk junk' g p s t zs r : recognizable junk g p s t -> session junk' t zs r ->
  roomy t (allowed_rule t (new_zwas t)) (tokens (earlemes r ++ [t_current_earleme r + 1]) (as_log t zs)) (t_earley_set_count r) ->
  exists c v r', marpa_r_earleme_complete junk' r = Ok (v, r') /\ completed t (allowed_rule t (new_zwas t)) c (as_log t zs) r v r'.
Proof using Hfuel Hversion.
  intros Hr Hses Hroom. pose proof (recognizable_prepared _ _ _ _ _ Hr) as Hpp. destruct (recognizable_held _ _ _ _ _ Hr) as (c&Hc&Hheld).
  destruct (session_idle junk' g p s t Hpp c Hc Hheld Hfuel zs r Hses) as (Hid&_). destruct (earleme_complete_ok junk' t (pp_engine _ _ _ _ Hpp) _ c Hc Hfuel _ r Hid Hroom) as ([v r']&E&Hcm). by exists c, v, r'.
Qed.

(** C11. The symbols expected after [marpa_r_earleme_complete] has made a set: the terminals that an
    item of the set waits for. *)
Theorem expected_terminals_exact junk junk' g p s t zs r v r' : recognizable junk g p s t -> session junk' t zs r ->
  roomy t (allowed_rule t (new_zwas t)) (tokens (earlemes r ++ [t_current_earleme r + 1]) (as_log t zs)) (t_earley_set_count r) ->
  marpa_r_earleme_complete junk' r = Ok (v, r') -> earlemes r' <> earlemes r ->
  expecting t (allowed_rule t (new_zwas t)) (state_tokens (as_log t zs) r') (last_set r') (t_bv_nsyid_is_expected r').
Proof using Hfuel Hversion.
  intros Hr Hses Hroom Hrun Hne. pose proof (recognizable_prepared _ _ _ _ _ Hr) as Hpp. destruct (recognizable_held _ _ _ _ _ Hr) as (c&Hc&Hheld).
  destruct (session_idle junk' g p s t Hpp c Hc Hheld Hfuel zs r Hses) as (Hid&_). destruct (earleme_complete_ok junk' t (pp_engine _ _ _ _ Hpp) _ c Hc Hfuel _ r Hid Hroom) as (a&E&Hcm). assert (a = (v, r')) as -> by congruence. cbn [fst snd] in Hcm.
  destruct Hcm as [_|? _ _ _ Ee _ _ _ _ _|? _ _ _ _ Ee _ _ _ _|? ? r1 _ _ _ _ _ _ _ Hsm _ _ _]; [by destruct Hne|by destruct Hne|by destruct Hne|].
  pose proof (sm_expecting _ _ _ _ _ _ _ Hsm) as Hex. unfold last_set. rewrite (sm_count _ _ _ _ _ _ _ Hsm), Z.add_simpl_r. exact Hex.
Qed.
End properties.

(** ** A concrete input

    The grammar [items_demo], and the input b a. *)
#[local] Abbreviation demo_tables := (tables_result items_demo).

Definition no_recce : RECCE :=
  MkRECCE (tables_init (internal_result items_demo)) None None 0 None None None (BV [] 0) (BV [] 0) (BV [] 0) [] [] [] None None None None None None None None None None [] []
    psar_safe 0 0 0 0 0 0 0 false false false [] [] [].
Definition state_after {A} (m : res (A * RECCE)) : RECCE := match m with Ok (_, r) => r | _ => no_recce end.

Lemma call_ran (m : res (Z * RECCE)) a : match m with Ok (b, _) => b =? a | _ => false end = true -> m = Ok (a, state_after m).
Proof. destruct m as [[b r]| |]; [|done..]. intros ->%Z.eqb_eq. done. Qed.

Definition demo_new : RECCE := match marpa_r_new no_junk demo_tables with Ok (Some r, _) => r | _ => no_recce end.
Definition demo_started : RECCE := state_after (marpa_r_start_input no_junk demo_new).
Definition demo_b_read : RECCE := state_after (marpa_r_alternative demo_started 3 1 1).
Definition demo_b : RECCE := state_after (marpa_r_earleme_complete no_junk demo_b_read).
Definition demo_a_read : RECCE := state_after (marpa_r_alternative demo_b 2 1 1).
Definition demo_ba : RECCE := state_after (marpa_r_earleme_complete no_junk demo_a_read).

Lemma demo_recognizable : recognizable no_junk items_demo (internal_result items_demo) 4 demo_tables.
Proof. split; [exact items_demo_precomputing|exact items_demo_start|by exists 0; exact items_demo_run|vm_compute; discriminate]. Qed.

(** The assertions of the first items, on their defaults. *)
Definition allowed_by (t : TABLES) (zw : list ZWA) (i : Z) : bool :=
  match t_ahms t !! Z.to_nat (first t i) with
  | Some (Some a) => (0 <=? first t i) && match ZWA_CIL_of_AHM a with
      | Some c => match cil_ints c with
          | n :: l => (n =? Z.of_nat (length l)) && forallb (fun z => match zw !! Z.to_nat z with Some x => Default_Value_of_ZWA x | None => false end) l
          | [] => false
          end
      | None => false
      end
  | _ => false
  end.

Lemma allowed_by_rule t zw i : allowed_by t zw i = true -> allowed_rule t zw i.
Proof.
  unfold allowed_by, allowed_rule. destruct (t_ahms t !! Z.to_nat (first t i)) as [[a|]|] eqn:Ha; [|done..]. intros [H0%Z.leb_le H1]%andb_true_iff. destruct (ZWA_CIL_of_AHM a) as [c|] eqn:Hc; [|done].
  destruct (cil_ints c) as [|n l] eqn:Hl; [done|]. apply andb_true_iff in H1 as [Hn%Z.eqb_eq Hall]. exists a, l. split; [by split|]. split; [exists c; split; [done|by rewrite Hl, Hn]|].
  apply Forall_forall. intros z Hz. rewrite forallb_forall in Hall. specialize (Hall z ltac:(by apply list_elem_of_In)). unfold holds_by_default. destruct (zw !! Z.to_nat z) as [x|]; [|done]. by exists x.
Qed.

Lemma demo_unguarded : unguarded (internal_result items_demo) demo_tables.
Proof.
  intros i Hi. apply allowed_by_rule. assert (IRL_Count_of_G (internal_result items_demo) = 5) as E by (vm_compute; reflexivity). rewrite E in Hi. clear E.
  assert (forallb (allowed_by demo_tables (new_zwas demo_tables)) [0; 1; 2; 3; 4] = true) as Hall by (vm_compute; reflexivity). rewrite forallb_forall in Hall. apply Hall. clear Hall. cbn. lia.
Qed.

Lemma demo_plain : plain_sequences items_demo.
Proof.
  intros f Hf Hq. exfalso. assert (forallb (fun f => negb (rf_seq f)) (forms_of items_demo) = true) as Hall by (vm_compute; reflexivity). rewrite forallb_forall in Hall. apply list_elem_of_In in Hf. specialize (Hall f Hf). rewrite Hq in Hall. clear -Hall. discriminate Hall.
Qed.

(** ** The input b a *)
Lemma demo_roomy0 : roomy demo_tables (allowed_rule demo_tables (new_zwas demo_tables)) no_token 0.
Proof. apply roomy_small; [apply (pp_engine _ _ _ _ (recognizable_prepared demo_fuel demo_version _ _ _ _ _ demo_recognizable))|by intros j y k []|done|vm_compute; reflexivity]. Qed.

Lemma demo_roomy zs r : session no_junk demo_tables zs r -> (t_earley_set_count r <? 100) = true -> roomy demo_tables (allowed_rule demo_tables (new_zwas demo_tables)) (tokens (earlemes r ++ [t_current_earleme r + 1]) (as_log demo_tables zs)) (t_earley_set_count r).
Proof.
  intros Hses Hn%Z.ltb_lt. destruct (recognizable_held demo_fuel demo_version _ _ _ _ _ demo_recognizable) as (c&Hc&Hheld).
  apply (roomy_session no_junk items_demo (internal_result items_demo) 4 demo_tables (recognizable_prepared demo_fuel demo_version _ _ _ _ _ demo_recognizable) c Hc Hheld demo_fuel zs r Hses).
  assert (ahms demo_tables = 13) as -> by (vm_compute; reflexivity). change YIM_FATAL_THRESHOLD with 65534. lia.
Qed.

Lemma demo_started_session : session no_junk demo_tables [] demo_started.
Proof.
  assert (exists t', marpa_r_new no_junk demo_tables = Ok (Some demo_new, t')) as (t'&Hnew).
  { unfold demo_new. assert (match marpa_r_new no_junk demo_tables with Ok (Some _, _) => true | _ => false end = true) as E by (vm_compute; reflexivity). destruct (marpa_r_new no_junk demo_tables) as [[[r|] t']| |]; [|done..]. by exists t'. }
  apply (session_start no_junk demo_tables demo_new t' 1 demo_started Hnew demo_roomy0). apply call_ran. vm_compute. reflexivity.
Qed.

Lemma demo_b_read_session : session no_junk demo_tables [(0, 3, 1)] demo_b_read.
Proof.
  refine (session_alternative no_junk demo_tables [] demo_started 3 1 1 MARPA_ERR_NONE demo_b_read demo_started_session _). apply call_ran. vm_compute. reflexivity.
Qed.

Lemma demo_b_session : session no_junk demo_tables [(0, 3, 1)] demo_b.
Proof.
  apply (session_complete no_junk demo_tables _ demo_b_read 1 demo_b demo_b_read_session); [apply demo_roomy; [exact demo_b_read_session|vm_compute; reflexivity]|]. apply call_ran. vm_compute. reflexivity.
Qed.

Lemma demo_a_read_session : session no_junk demo_tables (word_tokens [3; 2]) demo_a_read.
Proof.
  refine (session_alternative no_junk demo_tables _ demo_b 2 1 1 MARPA_ERR_NONE demo_a_read demo_b_session _). apply call_ran. vm_compute. reflexivity.
Qed.

Lemma demo_ba_run : marpa_r_earleme_complete no_junk demo_a_read = Ok (1, demo_ba).
Proof. apply call_ran. vm_compute. reflexivity. Qed.

Lemma demo_ba_session : session no_junk demo_tables (word_tokens [3; 2]) demo_ba.
Proof.
  apply (session_complete no_junk demo_tables _ demo_a_read 1 demo_ba demo_a_read_session); [apply demo_roomy; [exact demo_a_read_session|vm_compute; reflexivity]|]. exact demo_ba_run.
Qed.

(** *** What the theorems say of it *)
Lemma word_recognition_witness : language items_demo [3; 2].
Proof.
  apply (word_recognition demo_fuel demo_version no_junk no_junk items_demo _ 4 demo_tables [3; 2] demo_ba demo_recognizable demo_plain demo_unguarded demo_ba_session); vm_compute; reflexivity.
Defined.

(** No string of the grammar ends after b. *)
Lemma recognition_exact_witness : ~ exists w, spells (token_at [(0, 3, 1)] demo_b) 0 w 1 /\ w <> [] /\ language items_demo w.
Proof.
  assert (accepts demo_tables demo_b 1 = false) as E by (vm_compute; reflexivity). intros Hw.
  apply (recognition_exact demo_fuel demo_version no_junk no_junk items_demo _ 4 demo_tables [(0, 3, 1)] demo_b 1 demo_recognizable demo_plain demo_unguarded demo_b_session) in Hw; [rewrite E in Hw; discriminate Hw|vm_compute; split; discriminate].
Defined.

(** After b a, no string goes on with a. *)
Lemma unexpected_token_hopeless_witness : ~ exists v, language items_demo ([3; 2] ++ 2 :: v).
Proof.
  intros [v Hv]. revert Hv. pose proof (recognizable_prepared demo_fuel demo_version _ _ _ _ _ demo_recognizable) as Hpp. destruct (recognizable_held demo_fuel demo_version _ _ _ _ _ demo_recognizable) as (c&Hc&Hheld).
  refine (unexpected_token_hopeless demo_fuel demo_version no_junk no_junk items_demo _ 4 demo_tables (word_tokens [3; 2]) demo_ba 2 1 1 MARPA_ERR_UNEXPECTED_TOKEN_ID _ [3; 2] v demo_recognizable demo_plain demo_unguarded demo_ba_session _ _ _);
    [apply (call_ran (marpa_r_alternative demo_ba 2 1 1)); vm_compute; reflexivity|left; reflexivity|].
  assert (last_set demo_ba = 2) as -> by (vm_compute; reflexivity). apply (spells_word no_junk items_demo _ 4 demo_tables Hpp c Hc Hheld demo_fuel [3; 2] demo_ba [3; 2] demo_ba_session); vm_compute; reflexivity.
Defined.

(** The item of b a that ends the start rule is one of the four rules. *)
Lemma earley_sets_exact_witness : item demo_tables (allowed_rule demo_tables (new_zwas demo_tables)) (state_tokens (as_log demo_tables (word_tokens [3; 2])) demo_ba) 2 12 0.
Proof.
  apply (earley_sets_exact demo_fuel demo_version no_junk no_junk items_demo _ 4 demo_tables (word_tokens [3; 2]) demo_ba 2 12 0 demo_recognizable demo_ba_session); [vm_compute; split; discriminate|].
  apply has_key, list_elem_of_lookup. exists 13%nat. vm_compute. reflexivity.
Defined.

Lemma recognizer_starts_witness : exists c r t' code r', marpa_r_new no_junk demo_tables = Ok (Some r, t') /\ marpa_r_start_input no_junk r = Ok (code, r') /\ started demo_tables (new_zwas demo_tables) c r code r'.
Proof. apply (recognizer_starts demo_fuel demo_version no_junk no_junk items_demo _ 4 demo_tables demo_recognizable). exact demo_roomy0. Defined.


Lemma marpa_r_earleme_complete_completes_witness : exists c r', completed demo_tables (allowed_rule demo_tables (new_zwas demo_tables)) c (as_log demo_tables (word_tokens [3; 2])) demo_a_read 1 r'.
Proof.
  destruct (marpa_r_earleme_complete_completes demo_fuel demo_version no_junk no_junk items_demo _ 4 demo_tables (word_tokens [3; 2]) demo_a_read demo_recognizable demo_a_read_session (demo_roomy _ _ demo_a_read_session ltac:(vm_compute; reflexivity))) as (c&v&r'&E&Hcm). exists c, r'.
  assert (v = 1) as <-; [|exact Hcm]. pose proof demo_ba_run as E2. congruence.
Defined.

(** Only b is expected after b a. *)
Lemma expected_terminals_exact_witness : expecting demo_tables (allowed_rule demo_tables (new_zwas demo_tables)) (state_tokens (as_log demo_tables (word_tokens [3; 2])) demo_ba) 2 (t_bv_nsyid_is_expected demo_ba).
Proof.
  apply (expected_terminals_exact demo_fuel demo_version no_junk no_junk items_demo _ 4 demo_tables (word_tokens [3; 2]) demo_a_read 1 demo_ba demo_recognizable demo_a_read_session (demo_roomy _ _ demo_a_read_session ltac:(vm_compute; reflexivity))).
  - exact demo_ba_run.
  - intros E. assert (length (earlemes demo_ba) = 3%nat) as E1 by (vm_compute; reflexivity). assert (length (earlemes demo_a_read) = 2%nat) as E2 by (vm_compute; reflexivity). rewrite E, E2 in E1. discriminate E1.
Defined.
