(* ===== verification/Types.v ===== *)
(** * Data types of the program

    The enumerations and structures of [include/*.h] and of the [.c] files under [src/],
    together with the objects that can live in the C heap, the functions of libmarpa the
    wrapper calls and the user functions it calls back.  Field names are the C names,
    prefixed by a tag of their structure.  *)
From S2P Require Import Prelude.

(** ** Pointers *)

(** The static strings a [char *] of the program can point to.  The named ones are
    compared by address in the code; [Str] is any other string literal. *)
Inductive literal : Type :=
| Str (s : string)
| MessageBuilderInternalErrors   (** [_messageBuilder_internalErrors] *)
| DateBuilderInternalErrors      (** [_dateBuilder_internalErrors] *)
| LoggerEmptyMessages            (** [emptyMessages] of [genericLogger_log] *)
| WrapperEmptyMessages           (** [emptyMessages] of [_marpaWrapper_log] *)
| LoggerNoMessage.               (** [GENERICLOGGER_LOG_NO_MESSAGE] *)

Definition literal_string (l : literal) : string :=
  match l with
  | Str s => s
  | MessageBuilderInternalErrors | DateBuilderInternalErrors => "Internal error"
  | LoggerEmptyMessages | WrapperEmptyMessages => "Empty message"
  | LoggerNoMessage => "No message"
  end.

(** A pointer: [NULL], a static string, or the start of a heap block. *)
Inductive ptr : Type :=
| Null
| Lit (s : literal)
| Loc (l : positive).

#[export] Instance literal_eq_dec : EqDecision literal.
Proof. solve_decision. Defined.
#[export] Instance ptr_eq_dec : EqDecision ptr.
Proof. solve_decision. Defined.

(** A libmarpa object handle: an opaque pointer, 0 being [NULL]. *)
Definition mhandle := Z.

(** A function pointer: one of the static functions the wrapper installs itself, or a
    function of the user.  [NULL] is [None] of [option fn]. *)
Inductive fn : Type :=
| FnUser (id : positive)
| FnStackFailure     (** [&_marpaWrapperStackFailureCallback] *)
| FnStackFree        (** [&_marpaWrapperStackFreeCallback] *)
| FnStackCopy        (** [&_marpaWrapperStackCopyCallback] *)
| FnDefaultLog.      (** [&_genericLogger_defaultCallback] *)

#[export] Instance fn_eq_dec : EqDecision fn.
Proof. solve_decision. Defined.

(** ** Enumerations *)

(** [marpaWrapperBool_t] *)
Inductive marpaWrapperBool_t : Type :=
| MARPAWRAPPER_BOOL_FALSE
| MARPAWRAPPER_BOOL_TRUE.

#[export] Instance marpaWrapperBool_eq_dec : EqDecision marpaWrapperBool_t.
Proof. solve_decision. Defined.

(** [marpaWrapperValueBool_t] *)
Inductive marpaWrapperValueBool_t : Type :=
| MARPAWRAPPER_VALUECALLBACKBOOL_STOP
| MARPAWRAPPER_VALUECALLBACKBOOL_FALSE
| MARPAWRAPPER_VALUECALLBACKBOOL_TRUE.

#[export] Instance marpaWrapperValueBool_eq_dec : EqDecision marpaWrapperValueBool_t.
Proof. solve_decision. Defined.

(** [marpaWrapperEventType_t] *)
Definition MARPAWRAPPER_EVENTTYPE_COMPLETED : Z := 1.
Definition MARPAWRAPPER_EVENTTYPE_NULLED : Z := 2.
Definition MARPAWRAPPER_EVENTTYPE_PREDICTED : Z := 4.

(** [genericLoggerLevel_t] *)
Inductive genericLoggerLevel_t : Type :=
| GENERICLOGGER_LOGLEVEL_TRACE
| GENERICLOGGER_LOGLEVEL_DEBUG
| GENERICLOGGER_LOGLEVEL_INFO
| GENERICLOGGER_LOGLEVEL_NOTICE
| GENERICLOGGER_LOGLEVEL_WARNING
| GENERICLOGGER_LOGLEVEL_ERROR
| GENERICLOGGER_LOGLEVEL_CRITICAL
| GENERICLOGGER_LOGLEVEL_ALERT
| GENERICLOGGER_LOGLEVEL_EMERGENCY.

#[export] Instance genericLoggerLevel_eq_dec : EqDecision genericLoggerLevel_t.
Proof. solve_decision. Defined.

(** The enumeration's numbering, which the code compares with [>=]. *)
Definition level_rank (l : genericLoggerLevel_t) : Z :=
  match l with
  | GENERICLOGGER_LOGLEVEL_TRACE => 0
  | GENERICLOGGER_LOGLEVEL_DEBUG => 1
  | GENERICLOGGER_LOGLEVEL_INFO => 2
  | GENERICLOGGER_LOGLEVEL_NOTICE => 3
  | GENERICLOGGER_LOGLEVEL_WARNING => 4
  | GENERICLOGGER_LOGLEVEL_ERROR => 5
  | GENERICLOGGER_LOGLEVEL_CRITICAL => 6
  | GENERICLOGGER_LOGLEVEL_ALERT => 7
  | GENERICLOGGER_LOGLEVEL_EMERGENCY => 8
  end.

(** [genericStack_error_t] *)
Inductive genericStack_error_t : Type :=
| GENERICSTACK_ERROR_SYSTEM
| GENERICSTACK_ERROR_PARAMETER
| GENERICSTACK_ERROR_RUNTIME
| GENERICSTACK_ERROR_CALLBACK.

(** [genericStack_error_parameter_t] and [genericStack_error_runtime_t] *)
Definition GENERICSTACK_ERROR_PARAMETER_ELEMENTSIZE : Z := 0.
Definition GENERICSTACK_ERROR_RUNTIME_STACK_EMPTY : Z := 0.
Definition GENERICSTACK_ERROR_RUNTIME_STACK_TOO_SMALL_GET : Z := 1.
Definition GENERICSTACK_ERROR_RUNTIME_STACK_TOO_SMALL_SET : Z := 2.
Definition GENERICSTACK_OPTION_GROW_ON_GET : Z := 1.
Definition GENERICSTACK_OPTION_GROW_ON_SET : Z := 2.
Definition GENERICSTACK_OPTION_GROW_DEFAULT : Z :=
  Z.lor GENERICSTACK_OPTION_GROW_ON_GET GENERICSTACK_OPTION_GROW_ON_SET.

(** [marpaWrapperErrorOrigin_t] *)
Inductive marpaWrapperErrorOrigin_t : Type :=
| MARPAWRAPPERERRORORIGIN_SYSTEM
| MARPAWRAPPERERRORORIGIN_MARPA
| MARPAWRAPPERERRORORIGIN_NA.

(** ** The generic stack *)

(** [genericStack_option_t] *)
Record genericStack_option_t : Type := GenericStackOption {
  gso_growFlags : Z;
  gso_failureCallbackp : option fn;
  gso_failureCallbackUserDatap : ptr;
  gso_freeCallbackp : option fn;
  gso_freeCallbackUserDatap : ptr;
  gso_copyCallbackp : option fn;
  gso_copyCallbackUserDatap : ptr
}.

(** [struct genericStack] *)
Record genericStack : Type := GenericStack {
  gs_bufpp : ptr;
  gs_allocSizei : Z;
  gs_stackSizei : Z;
  gs_elementSizei : Z;
  gs_failureCallbackp : option fn;
  gs_failureCallbackUserDatap : ptr;
  gs_freeCallbackp : option fn;
  gs_freeCallbackUserDatap : ptr;
  gs_copyCallbackp : option fn;
  gs_copyCallbackUserDatap : ptr;
  gs_optionGrowOnSeti : Z;
  gs_optionGrowOnGeti : Z
}.

Definition gs_set_buf (s : genericStack) (b : ptr) (alloc : Z) : genericStack :=
  GenericStack b alloc (gs_stackSizei s) (gs_elementSizei s)
    (gs_failureCallbackp s) (gs_failureCallbackUserDatap s)
    (gs_freeCallbackp s) (gs_freeCallbackUserDatap s)
    (gs_copyCallbackp s) (gs_copyCallbackUserDatap s)
    (gs_optionGrowOnSeti s) (gs_optionGrowOnGeti s).

Definition gs_set_size (s : genericStack) (n : Z) : genericStack :=
  GenericStack (gs_bufpp s) (gs_allocSizei s) n (gs_elementSizei s)
    (gs_failureCallbackp s) (gs_failureCallbackUserDatap s)
    (gs_freeCallbackp s) (gs_freeCallbackUserDatap s)
    (gs_copyCallbackp s) (gs_copyCallbackUserDatap s)
    (gs_optionGrowOnSeti s) (gs_optionGrowOnGeti s).

(** ** The logger *)

(** [struct genericLogger] *)
Record genericLogger : Type := GenericLogger {
  gl_logCallbackp : option fn;
  gl_userDatavp : ptr;
  gl_genericLoggerLeveli : genericLoggerLevel_t
}.

(** ** The wrapper *)

(** [marpaWrapperOption_t] *)
Record marpaWrapperOption_t : Type := MarpaWrapperOption {
  wo_versionip : option (Z * Z * Z);
  wo_genericLoggerp : ptr;
  wo_eventCallbackp : option fn;
  wo_eventCallbackDatavp : ptr;
  wo_warningIsErrorb : marpaWrapperBool_t;
  wo_warningIsIgnoredb : marpaWrapperBool_t;
  wo_unsortedEventsb : marpaWrapperBool_t
}.

(** [struct marpaWrapper].  [marpaConfig] is a libmarpa structure the wrapper only passes
    by address: it belongs to the libmarpa state. *)
Record marpaWrapper : Type := MarpaWrapper {
  mw_marpaGrammarp : mhandle;
  mw_marpaRecognizerp : mhandle;
  mw_genericLoggerp : ptr;
  mw_sizeMarpaWrapperSymboli : Z;
  mw_nMarpaWrapperSymboli : Z;
  mw_marpaWrapperSymbolpp : ptr;
  mw_sizeMarpaWrapperRulei : Z;
  mw_nMarpaWrapperRulei : Z;
  mw_marpaWrapperRulepp : ptr;
  mw_expectedMarpaSymbolIdArrayp : ptr;
  mw_expectedMarpaWrapperSymbolArraypp : ptr;
  mw_sizeMarpaWrapperProgressi : Z;
  mw_nMarpaWrapperProgressi : Z;
  mw_marpaWrapperProgresspp : ptr;
  mw_marpaWrapperOption : marpaWrapperOption_t
}.

(** [marpaWrapperSymbolOption_t].  [firstChari] may be left indeterminate by the code. *)
Record marpaWrapperSymbolOption_t : Type := MarpaWrapperSymbolOption {
  so_datavp : ptr;
  so_terminalb : marpaWrapperBool_t;
  so_startb : marpaWrapperBool_t;
  so_eventSeti : Z;
  so_sizel : Z;
  so_firstChari : init Z
}.

(** [struct marpaWrapperSymbol]; the work area is indeterminate until first written. *)
Record marpaWrapperSymbol : Type := MarpaWrapperSymbol {
  ms_marpaSymbolIdi : Z;
  ms_marpaWrapperp : ptr;
  ms_marpaWrapperSymbolOption : marpaWrapperSymbolOption_t;
  ms_isLexemeb : init marpaWrapperBool_t;
  ms_lengthl : init Z
}.

(** [marpaWrapperRuleOption_t] *)
Record marpaWrapperRuleOption_t : Type := MarpaWrapperRuleOption {
  ro_datavp : ptr;
  ro_lhsSymbolp : ptr;
  ro_nRhsSymboli : Z;
  ro_rhsSymbolpp : ptr;
  ro_ranki : Z;
  ro_nullRanksHighb : marpaWrapperBool_t;
  ro_sequenceb : marpaWrapperBool_t;
  ro_separatorSymbolp : ptr;
  ro_properb : marpaWrapperBool_t;
  ro_minimumi : Z
}.

(** [struct marpaWrapperRule] *)
Record marpaWrapperRule : Type := MarpaWrapperRule {
  mr_marpaRuleIdi : Z;
  mr_marpaWrapperp : ptr;
  mr_marpaWrapperRuleOption : marpaWrapperRuleOption_t
}.

(** [marpaWrapperProgress_t] *)
Record marpaWrapperProgress_t : Type := MarpaWrapperProgress {
  mp_marpaEarleySetIdi : Z;
  mp_marpaEarleySetIdOrigini : Z;
  mp_marpaWrapperRulep : ptr;
  mp_positioni : Z
}.

(** [marpaWrapperEvent_t] *)
Record marpaWrapperEvent_t : Type := MarpaWrapperEvent {
  me_eventType : Z;
  me_marpaWrapperSymbolp : ptr
}.

(** [marpaWrapperRecognizerOption_t] (the two trace-only callbacks are not used in the
    modelled build) *)
Record marpaWrapperRecognizerOption_t : Type := MarpaWrapperRecognizerOption {
  rc_remainingDataIsOkb : marpaWrapperBool_t;
  rc_longestAcceptableTokenMatchb : marpaWrapperBool_t;
  rc_longestAcceptableTokensShareTheSameValueAndLengthb : marpaWrapperBool_t;
  rc_readerCallbackp : option fn;
  rc_readerDatavp : ptr;
  rc_isLexemebCallbackp : option fn;
  rc_lexemeValuebCallbackp : option fn
}.

(** [marpaWrapperValueOption_t] *)
Record marpaWrapperValueOption_t : Type := MarpaWrapperValueOption {
  vo_highRankOnlyb : marpaWrapperBool_t;
  vo_orderByRankb : marpaWrapperBool_t;
  vo_ambiguityb : marpaWrapperBool_t;
  vo_nullb : marpaWrapperBool_t;
  vo_valueRuleCallbackp : option fn;
  vo_valueRuleCallbackDatavp : ptr;
  vo_valueSymbolCallbackp : option fn;
  vo_valueSymbolCallbackDatavp : ptr;
  vo_valueNullingCallbackp : option fn;
  vo_valueNullingCallbackDatavp : ptr;
  vo_valueResultCallbackp : option fn;
  vo_valueResultCallbackDatavp : ptr
}.

(** [marpaWrapperStackOption_t] *)
Record marpaWrapperStackOption_t : Type := MarpaWrapperStackOption {
  ko_stackElementSizei : Z;
  ko_stackElementFreeCallbackp : option fn;
  ko_stackElementFreeCallbackUserDatap : ptr;
  ko_stackElementCopyCallbackp : option fn;
  ko_stackElementCopyCallbackUserDatap : ptr
}.

(** [marpaWrapperStackElementFreeData_t] and [marpaWrapperStackElementCopyData_t] have
    the same fields. *)
Record marpaWrapperStackElementData_t : Type := MarpaWrapperStackElementData {
  sd_marpaWrapperp : ptr;
  sd_stackElementCallbackp : option fn;
  sd_stackElementCallbackUserDatap : ptr
}.

(** ** Heap blocks *)
Inductive obj : Type :=
| OPtrs (cells : list (init ptr))         (** array of [void *] *)
| OBytes (bs : list (init Byte.byte))     (** a user element *)
| OInts (cells : list (init Z))           (** array of [int] ids *)
| OChars (cap : Z) (s : init string)      (** [char] buffer: capacity, NUL-terminated text *)
| OEvents (cells : list (init marpaWrapperEvent_t))
| OStack (s : genericStack)
| OLogger (g : genericLogger)
| OWrapper (w : marpaWrapper)
| OSymbol (s : marpaWrapperSymbol)
| ORule (r : marpaWrapperRule)
| OProgress (p : marpaWrapperProgress_t)
| OStackData (d : marpaWrapperStackElementData_t).

(** How a structure is stored in a block: the effective type of the block. *)
Class Storable (A : Type) : Type := {
  to_obj : A -> obj;
  of_obj : obj -> option A;
  of_to_obj : forall a, of_obj (to_obj a) = Some a
}.

#[export] Instance storable_ptrs : Storable (list (init ptr)) :=
  {| to_obj := OPtrs; of_obj := fun o => match o with OPtrs a => Some a | _ => None end; of_to_obj _ := eq_refl |}.
#[export] Instance storable_bytes : Storable (list (init Byte.byte)) :=
  {| to_obj := OBytes; of_obj := fun o => match o with OBytes a => Some a | _ => None end; of_to_obj _ := eq_refl |}.
#[export] Instance storable_ints : Storable (list (init Z)) :=
  {| to_obj := OInts; of_obj := fun o => match o with OInts a => Some a | _ => None end; of_to_obj _ := eq_refl |}.
#[export] Instance storable_chars : Storable (Z * init string) :=
  {| to_obj := fun a => OChars a.1 a.2;
     of_obj := fun o => match o with OChars n s => Some (n, s) | _ => None end;
     of_to_obj a := match a with (n, s) => eq_refl end |}.
#[export] Instance storable_events : Storable (list (init marpaWrapperEvent_t)) :=
  {| to_obj := OEvents; of_obj := fun o => match o with OEvents a => Some a | _ => None end; of_to_obj _ := eq_refl |}.
#[export] Instance storable_stack : Storable genericStack :=
  {| to_obj := OStack; of_obj := fun o => match o with OStack a => Some a | _ => None end; of_to_obj _ := eq_refl |}.
#[export] Instance storable_logger : Storable genericLogger :=
  {| to_obj := OLogger; of_obj := fun o => match o with OLogger a => Some a | _ => None end; of_to_obj _ := eq_refl |}.
#[export] Instance storable_wrapper : Storable marpaWrapper :=
  {| to_obj := OWrapper; of_obj := fun o => match o with OWrapper a => Some a | _ => None end; of_to_obj _ := eq_refl |}.
#[export] Instance storable_symbol : Storable marpaWrapperSymbol :=
  {| to_obj := OSymbol; of_obj := fun o => match o with OSymbol a => Some a | _ => None end; of_to_obj _ := eq_refl |}.
#[export] Instance storable_rule : Storable marpaWrapperRule :=
  {| to_obj := ORule; of_obj := fun o => match o with ORule a => Some a | _ => None end; of_to_obj _ := eq_refl |}.
#[export] Instance storable_progress : Storable marpaWrapperProgress_t :=
  {| to_obj := OProgress; of_obj := fun o => match o with OProgress a => Some a | _ => None end; of_to_obj _ := eq_refl |}.
#[export] Instance storable_stackdata : Storable marpaWrapperStackElementData_t :=
  {| to_obj := OStackData; of_obj := fun o => match o with OStackData a => Some a | _ => None end; of_to_obj _ := eq_refl |}.
