(* ===== verification/External.v ===== *)
(** * The code around the wrapper: libmarpa, the user's callbacks, the C library

    Each external function the wrapper calls is a constructor of a type of calls indexed
    by the result the call hands back.  Output parameters of libmarpa are part of the
    result.  The functions themselves are parameters of the model (class [Env] of
    [Runtime.v]); the constants are those of [MarpaH]. *)
From S2P Require Export MarpaH.
From S2P Require Import Prelude Types.

(** ** libmarpa *)
Inductive mcall : Type -> Type :=
(* library and configuration *)
| marpa_version : mcall (Z * (Z * Z * Z))
| marpa_check_version (major minor micro : Z) : mcall Z
| marpa_c_init : mcall unit
| marpa_c_error : mcall Z
(* grammar *)
| marpa_g_new : mcall mhandle
| marpa_g_force_valued (g : mhandle) : mcall Z
| marpa_g_error (g : mhandle) : mcall Z
| marpa_g_unref (g : mhandle) : mcall unit
| marpa_g_symbol_new (g : mhandle) : mcall Z
| marpa_g_symbol_is_terminal_set (g : mhandle) (sym value : Z) : mcall Z
| marpa_g_start_symbol_set (g : mhandle) (sym : Z) : mcall Z
| marpa_g_symbol_is_completion_event_set (g : mhandle) (sym value : Z) : mcall Z
| marpa_g_symbol_is_nulled_event_set (g : mhandle) (sym value : Z) : mcall Z
| marpa_g_symbol_is_prediction_event_set (g : mhandle) (sym value : Z) : mcall Z
| marpa_g_rule_new (g : mhandle) (lhs : Z) (rhs : list Z) (n : Z) : mcall Z
| marpa_g_sequence_new (g : mhandle) (lhs rhs sep min flags : Z) : mcall Z
| marpa_g_rule_rank_set (g : mhandle) (rule rank : Z) : mcall Z
| marpa_g_rule_null_high_set (g : mhandle) (rule flag : Z) : mcall Z
| marpa_g_precompute (g : mhandle) : mcall Z
| marpa_g_highest_symbol_id (g : mhandle) : mcall Z
| marpa_g_event_count (g : mhandle) : mcall Z
| marpa_g_event (g : mhandle) (ix : Z) : mcall (Z * Z)   (** type and [t_value] *)
(* recognizer *)
| marpa_r_new (g : mhandle) : mcall mhandle
| marpa_r_unref (r : mhandle) : mcall unit
| marpa_r_start_input (r : mhandle) : mcall Z
| marpa_r_alternative (r : mhandle) (sym value length : Z) : mcall Z
| marpa_r_earleme_complete (r : mhandle) : mcall Z
| marpa_r_terminals_expected (r : mhandle) : mcall (Z * list Z)
| marpa_r_terminal_is_expected (r : mhandle) (sym : Z) : mcall Z
| marpa_r_completion_symbol_activate (r : mhandle) (sym on : Z) : mcall Z
| marpa_r_nulled_symbol_activate (r : mhandle) (sym on : Z) : mcall Z
| marpa_r_prediction_symbol_activate (r : mhandle) (sym on : Z) : mcall Z
| marpa_r_latest_earley_set (r : mhandle) : mcall Z
| marpa_r_earleme (r : mhandle) (set : Z) : mcall Z
| marpa_r_progress_report_start (r : mhandle) (set : Z) : mcall Z
| marpa_r_progress_item (r : mhandle) : mcall (Z * (Z * Z)) (** rule, position, origin *)
| marpa_r_progress_report_finish (r : mhandle) : mcall Z
(* bocage, order, tree, valuator *)
| marpa_b_new (r : mhandle) (set : Z) : mcall mhandle
| marpa_b_unref (b : mhandle) : mcall unit
| marpa_o_new (b : mhandle) : mcall mhandle
| marpa_o_unref (o : mhandle) : mcall unit
| marpa_o_high_rank_only_set (o : mhandle) (flag : Z) : mcall Z
| marpa_o_rank (o : mhandle) : mcall Z
| marpa_o_ambiguity_metric (o : mhandle) : mcall Z
| marpa_o_is_null (o : mhandle) : mcall Z
| marpa_t_new (o : mhandle) : mcall mhandle
| marpa_t_unref (t : mhandle) : mcall unit
| marpa_t_next (t : mhandle) : mcall Z
| marpa_v_new (t : mhandle) : mcall mhandle
| marpa_v_unref (v : mhandle) : mcall unit
| marpa_v_valued_force (v : mhandle) : mcall Z
| marpa_v_step (v : mhandle) : mcall Z
| marpa_v_rule (v : mhandle) : mcall Z
| marpa_v_arg_0 (v : mhandle) : mcall Z
| marpa_v_arg_n (v : mhandle) : mcall Z
| marpa_v_result (v : mhandle) : mcall Z
| marpa_v_token (v : mhandle) : mcall Z
| marpa_v_token_value (v : mhandle) : mcall Z
| marpa_v_symbol (v : mhandle) : mcall Z.

(** ** Functions of the user, called through a pointer

    The result of a callback with output parameters carries what it stored in them:
    [None] when it left the caller's variable untouched. *)
Inductive ucall : Type -> Type :=
(* generic stack *)
| UFailure (f : fn) (e : genericStack_error_t) (errnum : Z) (userDatap : ptr) : ucall unit
| UFree (f : fn) (elementp userDatap : ptr) : ucall Z
| UCopy (f : fn) (elementDstp elementSrcp userDatap : ptr) : ucall Z
(* logger *)
| ULog (f : fn) (userDatavp : ptr) (level : genericLoggerLevel_t) (msgs : ptr) : ucall unit
(* wrapper *)
| UEvent (f : fn) (datavp wrapperp : ptr) (nEventi : Z) (eventp : ptr) : ucall marpaWrapperBool_t
| UReader (f : fn) (datavp : ptr) : ucall (marpaWrapperBool_t * option marpaWrapperBool_t)
| UIsLexeme (f : fn) (symbolDatavp : ptr) : ucall (marpaWrapperBool_t * option Z)
| ULexemeValue (f : fn) (symbolDatavp : ptr) : ucall (marpaWrapperBool_t * option Z * option Z)
| UValueRule (f : fn) (datavp wrapperp rulep : ptr) (nValueInputi : Z) (valueInputArraypp : ptr)
    : ucall (marpaWrapperBool_t * option ptr)
| UValueSymbol (f : fn) (datavp wrapperp symbolp : ptr) (value : Z)
    : ucall (marpaWrapperBool_t * option ptr)
| UValueNulling (f : fn) (datavp wrapperp symbolp : ptr)
    : ucall (marpaWrapperBool_t * option ptr)
| UValueResult (f : fn) (datavp wrapperp valuep : ptr) : ucall marpaWrapperValueBool_t
| UElementFree (f : fn) (datavp wrapperp elementp : ptr) : ucall marpaWrapperBool_t
| UElementCopy (f : fn) (datavp wrapperp elementDstp elementSrcp : ptr) : ucall marpaWrapperBool_t.

(** ** What the program does that an outside observer sees, in order *)
Inductive event : Type :=
| EvMarpa {R : Type} (c : mcall R) (r : R)
| EvUser {R : Type} (c : ucall R)
| EvWrite (s : string).           (** bytes passed to [write(2)] on [stderr] *)

(** ** The reference-counted libmarpa objects a trace leaves alive

    Every constructor that returned a non-null handle is a reference taken, every [unref]
    a reference given back. *)
Inductive hkind : Type := KGrammar | KRecognizer | KBocage | KOrder | KTree | KValue.

#[export] Instance hkind_eq_dec : EqDecision hkind.
Proof. solve_decision. Defined.

Definition take_ref (k : hkind) (h : mhandle) (l : list (hkind * mhandle)) : list (hkind * mhandle) :=
  if h =? 0 then l else (k, h) :: l.

Fixpoint drop_ref (r : hkind * mhandle) (l : list (hkind * mhandle)) : list (hkind * mhandle) :=
  match l with
  | [] => []
  | r' :: l' => if decide (r = r') then l' else r' :: drop_ref r l'
  end.

Definition call_refs {R} (c : mcall R) : R -> list (hkind * mhandle) -> list (hkind * mhandle) :=
  match c with
  | marpa_g_new => take_ref KGrammar
  | marpa_r_new _ => take_ref KRecognizer
  | marpa_b_new _ _ => take_ref KBocage
  | marpa_o_new _ => take_ref KOrder
  | marpa_t_new _ => take_ref KTree
  | marpa_v_new _ => take_ref KValue
  | marpa_g_unref h => fun _ => drop_ref (KGrammar, h)
  | marpa_r_unref h => fun _ => drop_ref (KRecognizer, h)
  | marpa_b_unref h => fun _ => drop_ref (KBocage, h)
  | marpa_o_unref h => fun _ => drop_ref (KOrder, h)
  | marpa_t_unref h => fun _ => drop_ref (KTree, h)
  | marpa_v_unref h => fun _ => drop_ref (KValue, h)
  | _ => fun _ l => l
  end.

Definition live_step (l : list (hkind * mhandle)) (ev : event) : list (hkind * mhandle) :=
  match ev with EvMarpa c r => call_refs c r l | _ => l end.

Definition live (t : list event) : list (hkind * mhandle) := foldl live_step [] t.

Lemma live_snoc t ev : live (t ++ [ev]) = live_step (live t) ev.
Proof. unfold live. by rewrite foldl_app. Qed.

(** ** Variable arguments of the format strings *)
Inductive fmtarg : Type :=
| FStr (p : ptr)
| FInt (z : Z)
| FPtr (p : ptr).
