(* ===== verification/Runtime.v ===== *)
(** * The C runtime: heap, allocation, undefined behaviour, external calls

    Programs are actions of a state monad over a [world].  An action ends normally
    ([Done]), runs into undefined behaviour ([Undef]: a null or dangling dereference, an
    out-of-bounds access, an invalid [free], a read of an indeterminate object), or
    exhausts the fuel of a loop ([OutOfFuel]). *)
From S2P Require Import Prelude Types External.

(** The types of the libmarpa state and of the user's state. *)
Class Platform : Type := { MS : Type; US : Type }.

Record world `{Platform} : Type := World {
  heap : gmap positive obj;
  next : positive;             (** the next address the allocator tries *)
  alloc_ok : nat -> bool;      (** whether the n-th next allocation request succeeds *)
  errno : Z;
  marpa : MS;
  user : US;
  trace : list event           (** external calls so far, latest last *)
}.

Inductive outcome `{Platform} (A : Type) : Type :=
| Done (a : A) (w : world)
| Undef (why : string)
| OutOfFuel.
Arguments Done {_ _} a w.
Arguments Undef {_ _} why.
Arguments OutOfFuel {_ _}.

Definition M `{Platform} (A : Type) : Type := world -> outcome A.

#[export] Instance M_ret `{Platform} : MRet M := fun A a w => Done a w.
#[export] Instance M_bind `{Platform} : MBind M := fun A B f m w =>
  match m w with
  | Done a w' => f a w'
  | Undef why => Undef why
  | OutOfFuel => OutOfFuel
  end.

Definition ENOMEM : Z := 12.
Definition ERANGE : Z := 34.

Section runtime.
Context `{Platform}.

Definition undef {A} (why : string) : M A := fun _ => Undef why.
Definition out_of_fuel {A} : M A := fun _ => OutOfFuel.

(** ** World updates *)
Definition set_heap (h : gmap positive obj) (w : world) : world :=
  World _ h (next w) (alloc_ok w) (errno w) (marpa w) (user w) (trace w).
Definition set_errno (e : Z) (w : world) : world :=
  World _ (heap w) (next w) (alloc_ok w) e (marpa w) (user w) (trace w).
Definition emit (ev : event) (w : world) : world :=
  World _ (heap w) (next w) (alloc_ok w) (errno w) (marpa w) (user w) (trace w ++ [ev]).

Definition get_errno : M Z := fun w => Done (errno w) w.
Definition put_errno (e : Z) : M unit := fun w => Done tt (set_errno e w).

(** ** Allocation

    A request is granted or refused by [alloc_ok]; a block gets the address [next], which
    is never given out twice (the second branch of [pick] only makes freshness hold in
    every world, reachable or not). *)
Definition pick (w : world) : positive :=
  match heap w !! next w with
  | None => next w
  | Some _ => fresh (dom (heap w) : gset positive)
  end.

Definition tick (w : world) : nat -> bool := fun n => alloc_ok w (S n).

Definition alloc_fail (w : world) : world :=
  World _ (heap w) (next w) (tick w) ENOMEM (marpa w) (user w) (trace w).
Definition alloc_at (l : positive) (o : obj) (w : world) : world :=
  World _ (<[l := o]> (heap w)) (Pos.succ (Pos.max l (next w))) (tick w) (errno w)
    (marpa w) (user w) (trace w).

(** [malloc()] of a block of the given contents. *)
Definition malloc (o : obj) : M ptr := fun w =>
  if alloc_ok w 0%nat then Done (Loc (pick w)) (alloc_at (pick w) o w)
  else Done Null (alloc_fail w).

(** An automatic variable whose address is taken: it always exists. *)
Definition alloca (o : obj) : M ptr := fun w =>
  Done (Loc (pick w))
    (World _ (<[pick w := o]> (heap w)) (Pos.succ (Pos.max (pick w) (next w)))
       (alloc_ok w) (errno w) (marpa w) (user w) (trace w)).

Definition free (p : ptr) : M unit := fun w =>
  match p with
  | Null => Done tt w
  | Lit _ => Undef "free() of a static string"
  | Loc l => match heap w !! l with
             | Some _ => Done tt (set_heap (delete l (heap w)) w)
             | None => Undef "free() of a block that is not allocated"
             end
  end.

(** ** Typed access to a whole block *)
Definition load {A} `{Storable A} (p : ptr) : M A := fun w =>
  match p with
  | Loc l => match heap w !! l ≫= of_obj with
             | Some a => Done a w
             | None => Undef "read of a dangling pointer"
             end
  | _ => Undef "read through an invalid pointer"
  end.

Definition store {A} `{Storable A} (p : ptr) (a : A) : M unit := fun w =>
  match p with
  | Loc l => match heap w !! l ≫= of_obj (A := A) with
             | Some _ => Done tt (set_heap (<[l := to_obj a]> (heap w)) w)
             | None => Undef "write to a dangling pointer"
             end
  | _ => Undef "write through an invalid pointer"
  end.

(** Reads an object that must be determinate. *)
Definition read_init {A} (x : init A) : M A :=
  match x with
  | Init a => mret a
  | Uninit => undef "read of an indeterminate object"
  end.

(** Array cells, by index. *)
Definition load_cell {A} `{Storable (list (init A))} (p : ptr) (i : Z) : M A :=
  cells ← load p;
  if decide (0 <= i) then
    match (cells : list (init A)) !! Z.to_nat i with
    | Some c => read_init c
    | None => undef "array read out of bounds"
    end
  else undef "array read out of bounds".

Definition store_cell {A} `{Storable (list (init A))} (p : ptr) (i : Z) (a : A) : M unit :=
  cells ← load p;
  if decide (0 <= i < Z.of_nat (length (cells : list (init A)))) then
    store p (<[Z.to_nat i := Init a]> (cells : list (init A)))
  else undef "array write out of bounds".

(** [malloc(nbytes)] and [realloc(p, nbytes)] used for an array of [void *]. *)
Definition malloc_ptrs (nbytes : Z) : M ptr :=
  malloc (OPtrs (replicate (Z.to_nat (nbytes / sizeof_ptr)) Uninit)).

Definition resize {A} (n : nat) (l : list (init A)) : list (init A) :=
  take n l ++ replicate (n - length l) Uninit.

Definition realloc_ptrs (p : ptr) (nbytes : Z) : M ptr := fun w =>
  match p with
  | Null => malloc_ptrs nbytes w
  | Lit _ => Undef "realloc() of a static string"
  | Loc l =>
    match heap w !! l with
    | Some (OPtrs cells) =>
      if alloc_ok w 0%nat then
        let o := OPtrs (resize (Z.to_nat (nbytes / sizeof_ptr)) cells) in
        let w1 := alloc_at (pick w) o w in
        Done (Loc (pick w)) (set_heap (delete l (heap w1)) w1)
      else Done Null (alloc_fail w)
    | _ => Undef "realloc() of a block that is not an allocated array"
    end
  end.

(** ** Loops over [0 <= i < n] *)
Fixpoint for_loop {S} (n : nat) (i : Z) (body : Z -> S -> M S) (s : S) : M S :=
  match n with
  | O => mret s
  | S n' => s' ← body i s; for_loop n' (i + 1) body s'
  end.
End runtime.

(** ** External code *)

(** The code outside the program: libmarpa, the user's functions and the parts of the C
    library whose result is not determined by the program. *)
Class Env `{Platform} : Type := {
  marpa_run : forall {R}, mcall R -> MS -> R * MS;
  user_run : forall {R}, ucall R -> M R;
  strerror : Z -> string;
  vsnprintf_fails : string -> bool;             (** an encoding error on this output *)
  ptr_string : ptr -> string;                   (** [%p] *)
  time_now : US -> Z;
  localtime : Z -> option Z;                    (** broken-down time, or [NULL] *)
  strftime_out : string -> Z -> string;         (** the formatted date *)
  write_result : US -> string -> Z * US;        (** [write(2)]: bytes accepted, or -1 *)
  loop_fuel : nat       (** rounds granted to the loops whose length the outside decides *)
}.

Section external.
Context `{Env}.

Definition set_marpa (m : MS) (w : world) : world :=
  World _ (heap w) (next w) (alloc_ok w) (errno w) m (user w) (trace w).
Definition set_user (u : US) (w : world) : world :=
  World _ (heap w) (next w) (alloc_ok w) (errno w) (marpa w) u (trace w).

Definition marpa_ {R} (c : mcall R) : M R := fun w =>
  let '(r, m) := marpa_run c (marpa w) in
  Done r (emit (EvMarpa c r) (set_marpa m w)).

Definition user_ {R} (c : ucall R) : M R := fun w =>
  user_run c (emit (EvUser c) w).
End external.

(** Reads a structure and stores it back modified. *)
Definition update `{Platform} {A} `{Storable A} (p : ptr) (f : A -> A) : M unit :=
  a ← load p; store p (f a).

(** ** Weakest preconditions (total: no undefined behaviour, no exhausted loop) *)
Definition wp `{Platform} {A} (m : M A) (Q : A -> world -> Prop) (w : world) : Prop :=
  match m w with
  | Done a w' => Q a w'
  | _ => False
  end.

(** The partial variant, for properties of every run that ends normally. *)
Definition wlp `{Platform} {A} (m : M A) (Q : A -> world -> Prop) (w : world) : Prop :=
  match m w with
  | Done a w' => Q a w'
  | _ => True
  end.

Definition no_oom `{Platform} (w : world) : Prop := forall n, alloc_ok w n = true.

(** Nothing outside the heap and the allocator has changed. *)
Record ext_eq `{Platform} (w w' : world) : Prop := {
  ext_marpa : marpa w' = marpa w;
  ext_user : user w' = user w;
  ext_trace : trace w' = trace w
}.

#[export] Instance ext_eq_preorder `{Platform} : PreOrder ext_eq.
Proof. split; [by intros w | intros w1 w2 w3 [] []; split; congruence]. Qed.

(** The heap addresses among some pointers, and their removal from a heap. *)
Definition ptr_loc (p : ptr) : option positive :=
  match p with Loc l => Some l | _ => None end.
Definition locs_of (ps : list ptr) : list positive := omap ptr_loc ps.
Definition delete_locs (ls : list positive) (h : gmap positive obj) : gmap positive obj :=
  foldr delete h ls.

Section locs_props.
Implicit Types (h : gmap positive obj) (ls : list positive).

Lemma locs_of_app ps qs : locs_of (ps ++ qs) = locs_of ps ++ locs_of qs.
Proof. apply omap_app. Qed.

Lemma elem_of_locs_of l ps : l ∈ locs_of ps <-> Loc l ∈ ps.
Proof.
  unfold locs_of. rewrite list_elem_of_omap. split; [|eauto].
  intros ([]&?&?); naive_solver.
Qed.

Lemma delete_locs_lookup ls h l : delete_locs ls h !! l = if decide (l ∈ ls) then None else h !! l.
Proof.
  induction ls as [|k ls IH]; [by rewrite decide_False by set_solver|].
  change (delete k (delete_locs ls h) !! l = if decide (l ∈ k :: ls) then None else h !! l).
  destruct (decide (k = l)) as [->|].
  - by rewrite lookup_delete_eq, decide_True by set_solver.
  - rewrite lookup_delete_ne, IH by done.
    apply decide_ext; rewrite elem_of_cons; naive_solver.
Qed.

Lemma delete_locs_lookup_ne ls h l : l ∉ ls -> delete_locs ls h !! l = h !! l.
Proof. intros. by rewrite delete_locs_lookup, decide_False. Qed.

Lemma delete_locs_snoc ls h l : delete_locs (ls ++ [l]) h = delete l (delete_locs ls h).
Proof.
  apply map_eq. intros k. rewrite delete_locs_lookup, lookup_delete, delete_locs_lookup.
  destruct (decide (l = k)) as [->|]; [by rewrite decide_True by set_solver|].
  apply decide_ext; rewrite elem_of_app, list_elem_of_singleton; naive_solver.
Qed.

(** Overwriting a cell exchanges one address for another. *)
Lemma locs_of_insert cells i c c' :
  cells !! i = Some c -> locs_of (<[i := c']> cells) ++ locs_of [c] ≡ₚ locs_of cells ++ locs_of [c'].
Proof.
  intros Hi. pose proof (lookup_lt_Some _ _ _ Hi).
  rewrite insert_take_drop by done.
  rewrite <- (take_drop_middle cells i c) at 3 by done.
  rewrite (cons_middle c'), (cons_middle c), !locs_of_app.
  rewrite <- !(assoc_L (++)). apply Permutation_app_head. solve_Permutation.
Qed.

Lemma delete_locs_app ls1 ls2 h : delete_locs (ls1 ++ ls2) h = delete_locs ls1 (delete_locs ls2 h).
Proof. unfold delete_locs. by rewrite foldr_app. Qed.

(** ** Dynamic frames

    [reframe h foot h' foot']: a computation that owned the blocks [foot] in [h] owns the
    blocks [foot'] in [h']; the latter come from the former or are fresh, whatever left
    the footprint was released, and no other block has changed. *)
Record reframe h (foot : list positive) h' (foot' : list positive) : Prop := {
  reframe_out : forall l, l ∉ foot' -> h' !! l = delete_locs foot h !! l;
  reframe_new : forall l, l ∈ foot' -> l ∈ foot \/ h !! l = None
}.

Lemma reframe_refl h foot : reframe h foot h foot.
Proof. split; [|tauto]. intros l Hl. by rewrite delete_locs_lookup_ne. Qed.

Lemma reframe_trans h f h1 f1 h2 f2 :
  reframe h f h1 f1 -> reframe h1 f1 h2 f2 -> reframe h f h2 f2.
Proof.
  intros [O1 N1] [O2 N2].
  assert (forall l, l ∉ f1 -> h1 !! l = None -> l ∈ f \/ h !! l = None) as Hno.
  { intros l Hl Hn. rewrite O1 in Hn by done. rewrite delete_locs_lookup in Hn.
    case_decide; auto. }
  split.
  - intros l Hl. rewrite O2 by done. rewrite delete_locs_lookup.
    destruct (decide (l ∈ f1)) as [Hin|]; [|by apply O1].
    rewrite delete_locs_lookup. case_decide; [done|].
    destruct (N1 l Hin); [done|by symmetry].
  - intros l Hl. destruct (N2 l Hl) as [Hin|Hn]; [by apply N1|].
    destruct (decide (l ∈ f1)); [by apply N1|by apply Hno].
Qed.

(** A block outside the footprint is left alone. *)
Lemma reframe_lookup h f h' f' l o :
  reframe h f h' f' -> h !! l = Some o -> l ∉ f -> h' !! l = Some o.
Proof.
  intros [O N] Hl Hf. rewrite O, delete_locs_lookup_ne; [done|done|].
  intros Hin. destruct (N l Hin); [done|congruence].
Qed.

(** Footprints are compared up to the order in which they are listed. *)
#[export] Instance reframe_proper : Proper (eq ==> Permutation ==> eq ==> Permutation ==> iff) reframe.
Proof.
  assert (forall h h' f1 f2 g1 g2, f1 ≡ₚ f2 -> g1 ≡ₚ g2 -> reframe h f1 h' g1 -> reframe h f2 h' g2) as Hp.
  { intros h h' f1 f2 g1 g2 Hf Hg [Ho Hn]. split.
    - intros l Hl. rewrite <- Hg in Hl. rewrite Ho, !delete_locs_lookup by done. apply decide_ext. by rewrite Hf.
    - intros l. rewrite <- Hf, <- Hg. apply Hn. }
  intros h h2 <- f1 f2 Hf h' h2' <- g1 g2 Hg. split; by apply Hp.
Qed.
End locs_props.

(** ** Quiet actions

    [quiet w w']: libmarpa has not been called, and memory is still available if it was.
    A [neutral] action is one that moreover leaves every block of the heap as it is (the
    user's own state, the trace and [errno] may change). *)
Definition quiet `{Platform} (w w' : world) : Prop :=
  (marpa w' = marpa w /\ live (trace w') = live (trace w)) /\ (no_oom w -> no_oom w').

#[export] Instance quiet_preorder `{Platform} : PreOrder quiet.
Proof. split; [by intros w | intros w1 w2 w3 [[] ?] [[] ?]; split; [split; congruence|auto]]. Qed.

Definition neutral `{Platform} {A} (m : M A) : Prop :=
  forall w, wp m (fun _ w' => heap w' = heap w /\ quiet w w') w.

(** [calm]: as [quiet], but libmarpa may have been called. *)
Definition calm `{Platform} (w w' : world) : Prop :=
  live (trace w') = live (trace w) /\ (no_oom w -> no_oom w').

#[export] Instance calm_preorder `{Platform} : PreOrder calm.
Proof. split; [by intros w | intros w1 w2 w3 [] []; split; [congruence|auto]]. Qed.

Lemma quiet_calm `{Platform} w w' : quiet w w' -> calm w w'.
Proof. intros [[_ ?] ?]. by split. Qed.

(** A call of libmarpa, by what it does to the references it hands out. *)
Lemma wp_marpa `{Env} {R} (c : mcall R) Q w :
  (forall r w', heap w' = heap w -> (r, marpa w') = marpa_run c (marpa w) ->
     live (trace w') = call_refs c r (live (trace w)) -> (no_oom w -> no_oom w') -> user w' = user w ->
     alloc_ok w' = alloc_ok w -> Q r w') ->
  wp (marpa_ c) Q w.
Proof.
  intros HQ. unfold wp, marpa_. destruct (marpa_run c (marpa w)) as [r m] eqn:E.
  apply HQ; [done|done|apply live_snoc|done|done|done].
Qed.

Section wp_rules.
Context `{Platform}.

Lemma wp_ret {A} (a : A) Q w : Q a w -> wp (mret a) Q w.
Proof. done. Qed.

Lemma wp_bind {A B} (m : M A) (f : A -> M B) Q w :
  wp m (fun a w' => wp (f a) Q w') w -> wp (m ≫= f) Q w.
Proof. unfold wp, mbind, M_bind. by destruct (m w). Qed.

(** The first two actions of a sequence, taken together. *)
Lemma wp_bind_assoc {A B C} (m : M A) (f : A -> M B) (g : B -> M C) Q w :
  wp (m ≫= f) (fun b w' => wp (g b) Q w') w -> wp (a ← m; b ← f a; g b) Q w.
Proof. unfold wp, mbind, M_bind. destruct (m w) as [a w'| |]; [|done|done]. by destruct (f a w'). Qed.

Lemma wp_mono {A} (m : M A) (P Q : A -> world -> Prop) w :
  wp m P w -> (forall a w', P a w' -> Q a w') -> wp m Q w.
Proof. unfold wp. destruct (m w); auto. Qed.

Lemma wlp_bind {A B} (m : M A) (f : A -> M B) Q w :
  wlp m (fun a w' => wlp (f a) Q w') w -> wlp (m ≫= f) Q w.
Proof. unfold wlp, mbind, M_bind. by destruct (m w). Qed.

Lemma wlp_mono {A} (m : M A) (P Q : A -> world -> Prop) w :
  wlp m P w -> (forall a w', P a w' -> Q a w') -> wlp m Q w.
Proof. unfold wlp. destruct (m w); auto. Qed.

Lemma wp_wlp {A} (m : M A) Q w : wp m Q w -> wlp m Q w.
Proof. unfold wp, wlp. by destruct (m w). Qed.

Lemma wp_run {A} (m : M A) Q w : wp m Q w -> exists a w', m w = Done a w' /\ Q a w'.
Proof. unfold wp. destruct (m w); naive_solver. Qed.

#[export] Instance wp_proper {A} (m : M A) :
  Proper (pointwise_relation A (pointwise_relation world impl) ==> pointwise_relation world impl) (wp m).
Proof. intros P Q HPQ w Hw. eapply wp_mono; [done|]. intros a w'. apply HPQ. Qed.

Lemma neutral_ret {A} (a : A) : neutral (mret a).
Proof. intros w. by apply wp_ret. Qed.

Lemma neutral_bind {A B} (m : M A) (f : A -> M B) :
  neutral m -> (forall a, neutral (f a)) -> neutral (m ≫= f).
Proof.
  intros Hm Hf w. apply wp_bind. eapply wp_mono; [apply Hm|]. intros a w' [Hh Hq].
  eapply wp_mono; [apply Hf|]. intros b w'' [Hh' Hq']. split; [congruence|by etrans].
Qed.

Lemma wp_neutral {A} (m : M A) Q w :
  neutral m -> (forall a w', heap w' = heap w -> quiet w w' -> Q a w') -> wp m Q w.
Proof. intros Hm HQ. eapply wp_mono; [apply Hm|]. intros a w' [??]. auto. Qed.

Lemma quiet_set_heap h w : quiet w (set_heap h w).
Proof. by split. Qed.

Lemma quiet_alloc_at l o w : quiet w (alloc_at l o w).
Proof. split; [done|]. intros Hn n. apply Hn. Qed.

Lemma pick_fresh w : heap w !! pick w = None.
Proof.
  unfold pick. destruct (heap w !! next w) eqn:E; [|done].
  apply not_elem_of_dom, is_fresh.
Qed.

Lemma wp_malloc o Q w :
  Q Null (alloc_fail w) ->
  (forall l, heap w !! l = None -> Q (Loc l) (alloc_at l o w)) ->
  wp (malloc o) Q w.
Proof.
  intros H1 H2. unfold wp, malloc.
  destruct (alloc_ok w 0%nat); [apply H2, pick_fresh | apply H1].
Qed.

(** The same with what each answer says of the memory left. *)
Lemma wp_malloc_cases o Q w :
  (~ no_oom w -> quiet w (alloc_fail w) -> Q Null (alloc_fail w)) ->
  (forall l, heap w !! l = None -> quiet w (alloc_at l o w) -> Q (Loc l) (alloc_at l o w)) ->
  wp (malloc o) Q w.
Proof.
  intros H1 H2. unfold wp, malloc. destruct (alloc_ok w 0%nat) eqn:E.
  - apply H2; [apply pick_fresh|apply quiet_alloc_at].
  - assert (~ no_oom w) by (intros Hn; specialize (Hn 0%nat); congruence).
    apply H1; [done|]. by split.
Qed.

Lemma wp_malloc_ok o Q w :
  no_oom w ->
  (forall l, heap w !! l = None -> no_oom (alloc_at l o w) -> Q (Loc l) (alloc_at l o w)) ->
  wp (malloc o) Q w.
Proof.
  intros Hn HQ. unfold wp, malloc. rewrite Hn. apply HQ; [apply pick_fresh|].
  intros n. apply Hn.
Qed.

Lemma wp_free_null Q w : Q tt w -> wp (free Null) Q w.
Proof. done. Qed.

Lemma wp_free l o Q w :
  heap w !! l = Some o -> Q tt (set_heap (delete l (heap w)) w) -> wp (free (Loc l)) Q w.
Proof. intros Hl. unfold wp, free. by rewrite Hl. Qed.

Lemma wp_load {A} `{Storable A} l (a : A) Q w :
  heap w !! l = Some (to_obj a) -> Q a w -> wp (load (Loc l)) Q w.
Proof. intros Hl. unfold wp, load. rewrite Hl. simpl. by rewrite of_to_obj. Qed.

Lemma wp_store {A} `{Storable A} l (a b : A) Q w :
  heap w !! l = Some (to_obj a) -> Q tt (set_heap (<[l := to_obj b]> (heap w)) w) ->
  wp (store (Loc l) b) Q w.
Proof. intros Hl. unfold wp, store. rewrite Hl. simpl. by rewrite of_to_obj. Qed.

Lemma wp_load_cell {A} `{Storable (list (init A))} l (cells : list (init A)) i a Q w :
  heap w !! l = Some (to_obj cells) -> 0 <= i -> cells !! Z.to_nat i = Some (Init a) ->
  Q a w -> wp (load_cell (Loc l) i) Q w.
Proof.
  intros Hl Hi Hc HQ. unfold load_cell. apply wp_bind. eapply wp_load; [done|].
  rewrite decide_True by lia. by rewrite Hc.
Qed.

Lemma wp_store_cell {A} `{Storable (list (init A))} l (cells : list (init A)) i a Q w :
  heap w !! l = Some (to_obj cells) -> 0 <= i < Z.of_nat (length cells) ->
  Q tt (set_heap (<[l := to_obj (<[Z.to_nat i := Init a]> cells)]> (heap w)) w) ->
  wp (store_cell (Loc l) i a) Q w.
Proof.
  intros Hl Hi HQ. unfold store_cell. apply wp_bind. eapply wp_load; [done|].
  rewrite decide_True by lia. by eapply wp_store.
Qed.

Lemma wp_realloc_ptrs l cells nbytes Q w :
  heap w !! l = Some (OPtrs cells) ->
  Q Null (alloc_fail w) ->
  (forall l', heap w !! l' = None ->
     let o := OPtrs (resize (Z.to_nat (nbytes / sizeof_ptr)) cells) in
     Q (Loc l') (set_heap (delete l (<[l' := o]> (heap w))) (alloc_at l' o w))) ->
  wp (realloc_ptrs (Loc l) nbytes) Q w.
Proof.
  intros Hl H1 H2. unfold wp, realloc_ptrs. rewrite Hl.
  destruct (alloc_ok w 0%nat); [apply H2, pick_fresh | apply H1].
Qed.

Lemma wp_realloc_ptrs_ok l cells nbytes Q w :
  no_oom w ->
  heap w !! l = Some (OPtrs cells) ->
  (forall l', heap w !! l' = None ->
     let o := OPtrs (resize (Z.to_nat (nbytes / sizeof_ptr)) cells) in
     let w' := set_heap (delete l (<[l' := o]> (heap w))) (alloc_at l' o w) in
     no_oom w' -> Q (Loc l') w') ->
  wp (realloc_ptrs (Loc l) nbytes) Q w.
Proof.
  intros Hn Hl HQ. unfold wp, realloc_ptrs. rewrite Hl, Hn.
  apply HQ; [apply pick_fresh|]. intros n. apply Hn.
Qed.

Lemma resize_length {A} n (l : list (init A)) : length (resize n l) = n.
Proof. unfold resize. rewrite length_app, length_take, length_replicate. lia. Qed.

Lemma resize_lookup_lt {A} n (l : list (init A)) i :
  (i < n)%nat -> (i < length l)%nat -> resize n l !! i = l !! i.
Proof.
  intros. unfold resize. rewrite lookup_app_l by (rewrite length_take; lia).
  by rewrite lookup_take_lt by lia.
Qed.

Lemma for_loop_app {S} n m i (body : Z -> S -> M S) s w :
  for_loop (n + m) i body s w =
  (s' ← for_loop n i body s; for_loop m (i + Z.of_nat n) body s') w.
Proof.
  revert i s w. induction n as [|n IH]; intros i s w.
  { simpl. unfold mbind, M_bind, mret, M_ret. by rewrite Z.add_0_r. }
  cbn [for_loop Nat.add]. unfold mbind, M_bind in *. destruct (body i s w); [|done|done].
  rewrite IH. by replace (i + 1 + Z.of_nat n) with (i + Z.of_nat (Datatypes.S n)) by lia.
Qed.

(** A [for] loop with an invariant indexed by the loop variable. *)
Lemma wp_for_loop {S} n i (body : Z -> S -> M S) (I : Z -> S -> world -> Prop) s w :
  I i s w ->
  (forall j s w, i <= j < i + Z.of_nat n -> I j s w -> wp (body j s) (I (j + 1)) w) ->
  wp (for_loop n i body s) (I (i + Z.of_nat n)) w.
Proof.
  revert i s w. induction n as [|n IH]; intros i s w HI Hb.
  { apply wp_ret. by rewrite Z.add_0_r. }
  simpl. apply wp_bind. eapply wp_mono; [apply Hb; [lia|done]|].
  intros s' w' HI'. replace (i + Z.of_nat (Datatypes.S n)) with (i + 1 + Z.of_nat n) by lia.
  apply IH; [done|]. intros. apply Hb; [lia|done].
Qed.

(** The loops that store null pointers in consecutive cells of an array. *)
Lemma wp_fill_null w l (cells : list (init ptr)) i k :
  heap w !! l = Some (OPtrs cells) -> (i + k <= length cells)%nat ->
  wp (for_loop k (Z.of_nat i) (fun j _ => store_cell (Loc l) j Null) tt)
     (fun _ w' => w' = set_heap (<[l := OPtrs (take i cells ++ replicate k (Init Null)
                                              ++ drop (i + k) cells)]> (heap w)) w) w.
Proof.
  revert i w cells. induction k as [|k IH]; intros i w cells Hl Hk; simpl.
  { apply wp_ret. rewrite Nat.add_0_r, take_drop, insert_id by done. by destruct w. }
  apply wp_bind. eapply wp_store_cell; [done|lia|]. rewrite Nat2Z.id.
  replace (Z.of_nat i + 1) with (Z.of_nat (S i)) by lia.
  eapply wp_mono; [apply IH|].
  - simpl. by rewrite lookup_insert_eq.
  - rewrite length_insert. lia.
  - intros [] w' ->. unfold set_heap. simpl. rewrite insert_insert_eq. do 3 f_equal.
    rewrite (take_S_r _ i (Init Null)), <- (assoc_L (++)) by (apply list_lookup_insert_eq; lia).
    rewrite take_insert_ge, drop_insert_lt by lia. do 2 f_equal. by rewrite Nat.add_succ_r.
Qed.
End wp_rules.

(** ** Runs that end in undefined behaviour, and runs that never end *)
Definition goes_undef `{Platform} {A} (m : M A) (w : world) : Prop :=
  exists why, m w = Undef why.

Section undef_rules.
Context `{Platform}.

Lemma goes_undef_now {A B} (m : M A) (f : A -> M B) w : goes_undef m w -> goes_undef (m ≫= f) w.
Proof. intros [why Hm]. exists why. unfold mbind, M_bind. by rewrite Hm. Qed.

Lemma goes_undef_later {A B} (m : M A) (f : A -> M B) w :
  wp m (fun a w' => goes_undef (f a) w') w -> goes_undef (m ≫= f) w.
Proof. unfold wp, goes_undef, mbind, M_bind. by destruct (m w). Qed.

Lemma goes_undef_for_loop {S} n k i (body : Z -> S -> M S) s w :
  wp (for_loop n i body s) (fun s' w' => goes_undef (body (i + Z.of_nat n) s') w') w ->
  goes_undef (for_loop (n + Datatypes.S k) i body s) w.
Proof.
  intros Hw. unfold goes_undef. setoid_rewrite for_loop_app.
  apply goes_undef_later. eapply wp_mono; [done|]. intros s' w' Hb.
  simpl. by apply goes_undef_now.
Qed.
End undef_rules.

(** ** Actions that never exhaust the fuel of a loop *)
Definition fueled `{Platform} {A} (m : M A) : Prop := forall w, m w <> OutOfFuel.

Section fueled_rules.
Context `{Platform}.

Lemma fueled_ret {A} (a : A) : fueled (mret a).
Proof. done. Qed.

Lemma fueled_undef {A} s : fueled (undef s : M A).
Proof. done. Qed.

Lemma fueled_bind {A B} (m : M A) (f : A -> M B) :
  fueled m -> (forall a, fueled (f a)) -> fueled (m ≫= f).
Proof.
  intros Hm Hf w. unfold mbind, M_bind. specialize (Hm w).
  destruct (m w); [apply Hf | done | done].
Qed.

Lemma fueled_malloc o : fueled (malloc o).
Proof. intros w. unfold malloc. by case_match. Qed.

Lemma fueled_free p : fueled (free p).
Proof. intros w. unfold free. by repeat case_match. Qed.

Lemma fueled_load {A} `{Storable A} p : fueled (load p).
Proof. intros w. unfold load. by repeat case_match. Qed.

Lemma fueled_store {A} `{Storable A} p a : fueled (store p a).
Proof. intros w. unfold store. by repeat case_match. Qed.

Lemma fueled_read_init {A} (x : init A) : fueled (read_init x).
Proof. by destruct x. Qed.

Lemma fueled_realloc_ptrs p n : fueled (realloc_ptrs p n).
Proof. intros w. unfold realloc_ptrs, malloc_ptrs, malloc. by repeat case_match. Qed.

Lemma fueled_load_cell {A} `{Storable (list (init A))} p i : fueled (load_cell p i).
Proof.
  apply fueled_bind; [apply fueled_load|]. intros cells.
  case_decide; [|done]. case_match; [apply fueled_read_init | done].
Qed.

Lemma fueled_store_cell {A} `{Storable (list (init A))} p i a : fueled (store_cell p i a).
Proof.
  apply fueled_bind; [apply fueled_load|]. intros cells.
  case_decide; [apply fueled_store | done].
Qed.

Lemma fueled_for_loop {S} n i (body : Z -> S -> M S) s :
  (forall i s, fueled (body i s)) -> fueled (for_loop n i body s).
Proof.
  intros Hb. revert i s. induction n as [|n IH]; intros i s; [apply fueled_ret|].
  apply fueled_bind; auto.
Qed.
End fueled_rules.

#[export] Hint Resolve neutral_ret quiet_set_heap quiet_alloc_at : marpa.
#[export] Hint Resolve fueled_ret fueled_undef fueled_malloc fueled_free fueled_load
  fueled_store fueled_read_init fueled_realloc_ptrs fueled_load_cell fueled_store_cell
  fueled_for_loop : marpa.

(** ** What an action leaves unchanged of the trace

    [keeps obs m]: however [m] ends normally, the observation [obs] of the trace is what it
    was before, whatever the allocator, libmarpa and the user's functions answer. *)
Definition keeps `{Platform} {X A} (obs : list event -> X) (m : M A) : Prop :=
  forall w, wlp m (fun _ w' => obs (trace w') = obs (trace w)) w.

Create HintDb keeps discriminated.

Section keeps_rules.
Context `{Platform} {X} (obs : list event -> X).

Lemma keeps_same {A} (m : M A) : (forall w, wlp m (fun _ w' => trace w' = trace w) w) -> keeps obs m.
Proof. intros Hm w. eapply wlp_mono; [apply Hm|]. by intros a w' ->. Qed.

(** What is kept may be used along a total run. *)
Lemma wp_keeps {A} (m : M A) Q w :
  keeps obs m -> wp m (fun a w' => obs (trace w') = obs (trace w) -> Q a w') w -> wp m Q w.
Proof. intros Hk. specialize (Hk w). unfold wp, wlp in *. destruct (m w); auto. Qed.

Lemma keeps_ret {A} (a : A) : keeps obs (mret a).
Proof. done. Qed.

Lemma keeps_bind {A B} (m : M A) (f : A -> M B) :
  keeps obs m -> (forall a, keeps obs (f a)) -> keeps obs (m ≫= f).
Proof.
  intros Hm Hf w. apply wlp_bind. eapply wlp_mono; [apply Hm|]. intros a w' Hw'.
  eapply wlp_mono; [apply Hf|]. intros b w'' Hw''. congruence.
Qed.

Lemma keeps_undef {A} s : keeps obs (undef s : M A).
Proof. done. Qed.

Lemma keeps_out_of_fuel {A} : keeps obs (out_of_fuel : M A).
Proof. done. Qed.

Lemma keeps_for_loop {S} n i (body : Z -> S -> M S) s :
  (forall i s, keeps obs (body i s)) -> keeps obs (for_loop n i body s).
Proof.
  intros Hb. revert i s. induction n as [|n IH]; intros i s; [apply keeps_ret|]. by apply keeps_bind.
Qed.

Lemma keeps_malloc o : keeps obs (malloc o).
Proof. apply keeps_same. intros w. unfold wlp, malloc. by destruct (alloc_ok w 0%nat). Qed.
Lemma keeps_alloca o : keeps obs (alloca o).
Proof. done. Qed.
Lemma keeps_free p : keeps obs (free p).
Proof. apply keeps_same. intros w. unfold wlp, free. destruct p as [| |l]; [done..|]. by destruct (heap w !! l). Qed.
Lemma keeps_load {A} `{Storable A} p : keeps obs (load p).
Proof. apply keeps_same. intros w. unfold wlp, load. destruct p as [| |l]; [done..|]. by destruct (heap w !! l ≫= of_obj). Qed.
Lemma keeps_store {A} `{Storable A} p (a : A) : keeps obs (store p a).
Proof. apply keeps_same. intros w. unfold wlp, store. destruct p as [| |l]; [done..|]. by destruct (heap w !! l ≫= of_obj). Qed.
Lemma keeps_read_init {A} (x : init A) : keeps obs (read_init x).
Proof. by destruct x. Qed.
Lemma keeps_realloc_ptrs p n : keeps obs (realloc_ptrs p n).
Proof. apply keeps_same. intros w. unfold wlp, realloc_ptrs, malloc_ptrs, malloc.
  destruct p as [| |l]; [by destruct (alloc_ok w 0%nat)|done|].
  destruct (heap w !! l) as [[]|]; [by destruct (alloc_ok w 0%nat)|done..].
Qed.
Lemma keeps_get_errno : keeps obs get_errno.
Proof. done. Qed.
Lemma keeps_put_errno e : keeps obs (put_errno e).
Proof. done. Qed.
End keeps_rules.

#[export] Hint Resolve keeps_ret keeps_undef keeps_out_of_fuel keeps_malloc keeps_alloca keeps_free keeps_load keeps_store
  keeps_read_init keeps_realloc_ptrs keeps_get_errno keeps_put_errno : keeps.

(** Structural decomposition of an action; the leaves are in the hint database. *)
Ltac keeps :=
  repeat (cbv beta zeta;
    first
    [ solve [auto 2 with keeps]
    | match goal with
      | |- keeps _ (_ ≫= _) => apply keeps_bind; [|intros ?]
      | |- keeps _ (for_loop _ _ _ _) => apply keeps_for_loop; intros ? ?
      | |- keeps _ (if decide ?P then _ else _) => destruct (decide P)
      | |- keeps _ (if ?b then _ else _) => destruct b
      | |- keeps _ (match ?x with _ => _ end) => destruct x
      end ]).

Section keeps_cells.
Context `{Env} {X} (obs : list event -> X).

Lemma keeps_marpa {R} (c : mcall R) : (forall t r, obs (t ++ [EvMarpa c r]) = obs t) -> keeps obs (marpa_ c).
Proof. intros Hc w. unfold wlp, marpa_. destruct (marpa_run c (marpa w)) as [r m]. apply Hc. Qed.

Lemma keeps_load_cell {A} `{Storable (list (init A))} p i : keeps obs (load_cell p i).
Proof. unfold load_cell. keeps. Qed.
Lemma keeps_store_cell {A} `{Storable (list (init A))} p i (a : A) : keeps obs (store_cell p i a).
Proof. unfold store_cell. keeps. Qed.
Lemma keeps_update {A} `{Storable A} p f : keeps obs (update p f).
Proof. unfold update. keeps. Qed.
Lemma keeps_malloc_ptrs n : keeps obs (malloc_ptrs n).
Proof. unfold malloc_ptrs. keeps. Qed.
End keeps_cells.
#[export] Hint Resolve keeps_load_cell keeps_store_cell keeps_update keeps_malloc_ptrs : keeps.

(** Symbolic execution: one step of a monadic program under [wp]. *)
Ltac wp_step :=
  cbv beta zeta;
  match goal with
  | |- wp (mbind _ _) _ _ => apply wp_bind
  | |- wp (mret _) _ _ => apply wp_ret
  | |- wp (free Null) _ _ => apply wp_free_null
  | |- wp (if decide ?P then _ else _) _ _ => destruct (decide P)
  | |- wp (if ?b then _ else _) _ _ => destruct b eqn:?
  | |- wp (load (Loc _)) _ _ => eapply wp_load; [solve [simplify_map_eq; eauto] |]
  | |- wp (store (Loc _) _) _ _ => eapply wp_store; [solve [simplify_map_eq; eauto] |]
  end.
