(* ===== verification/Demo.v ===== *)
(** * A concrete environment

    A libmarpa that answers from a script of integers and a user whose callbacks accept
    everything: the instances at which the properties with hypotheses are applied. *)
From S2P Require Import Prelude Types External Runtime.

#[export] Instance demo_platform : Platform := {| MS := list Z; US := unit |}.

(** The next answer of the script, 0 when it is exhausted. *)
Definition demo_pop (m : list Z) : Z * list Z :=
  match m with [] => (0, []) | z :: m => (z, m) end.

Definition demo_pop2 (m : list Z) : (Z * Z) * list Z :=
  let '(a, m) := demo_pop m in let '(b, m) := demo_pop m in ((a, b), m).

Definition demo_pop3 (m : list Z) : (Z * (Z * Z)) * list Z :=
  let '(a, m) := demo_pop m in let '(bc, m) := demo_pop2 m in ((a, bc), m).

(** Calls that return [void] take nothing from the script; a list of [n] ids is a count
    and its elements. *)
Definition demo_marpa {R} (c : mcall R) : list Z -> R * list Z :=
  match c in mcall R return list Z -> R * list Z with
  | marpa_version => fun m => ((0, (7, 5, 0)), m)
  | marpa_c_init => fun m => (tt, m)
  | marpa_g_unref _ => fun m => (tt, m)
  | marpa_r_unref _ => fun m => (tt, m)
  | marpa_b_unref _ => fun m => (tt, m)
  | marpa_o_unref _ => fun m => (tt, m)
  | marpa_t_unref _ => fun m => (tt, m)
  | marpa_v_unref _ => fun m => (tt, m)
  | marpa_g_event _ _ => demo_pop2
  | marpa_r_progress_item _ => demo_pop3
  | marpa_r_terminals_expected _ => fun m =>
    let '(n, m) := demo_pop m in ((n, take (Z.to_nat n) m), drop (Z.to_nat n) m)
  | marpa_check_version _ _ _ | marpa_c_error | marpa_g_new | marpa_g_force_valued _
  | marpa_g_error _ | marpa_g_symbol_new _ | marpa_g_symbol_is_terminal_set _ _ _
  | marpa_g_start_symbol_set _ _ | marpa_g_symbol_is_completion_event_set _ _ _
  | marpa_g_symbol_is_nulled_event_set _ _ _ | marpa_g_symbol_is_prediction_event_set _ _ _
  | marpa_g_rule_new _ _ _ _ | marpa_g_sequence_new _ _ _ _ _ _ | marpa_g_rule_rank_set _ _ _
  | marpa_g_rule_null_high_set _ _ _ | marpa_g_precompute _ | marpa_g_highest_symbol_id _
  | marpa_g_event_count _ | marpa_r_new _ | marpa_r_start_input _ | marpa_r_alternative _ _ _ _
  | marpa_r_earleme_complete _ | marpa_r_terminal_is_expected _ _
  | marpa_r_completion_symbol_activate _ _ _ | marpa_r_nulled_symbol_activate _ _ _
  | marpa_r_prediction_symbol_activate _ _ _ | marpa_r_latest_earley_set _
  | marpa_r_earleme _ _ | marpa_r_progress_report_start _ _ | marpa_r_progress_report_finish _
  | marpa_b_new _ _ | marpa_o_new _ | marpa_o_high_rank_only_set _ _ | marpa_o_rank _
  | marpa_o_ambiguity_metric _ | marpa_o_is_null _ | marpa_t_new _ | marpa_t_next _
  | marpa_v_new _ | marpa_v_valued_force _ | marpa_v_step _ | marpa_v_rule _ | marpa_v_arg_0 _
  | marpa_v_arg_n _ | marpa_v_result _ | marpa_v_token _ | marpa_v_token_value _
  | marpa_v_symbol _ => demo_pop
  end.

(** Every callback succeeds and stores nothing. *)
Definition demo_user {R} (c : ucall R) : M R :=
  match c in ucall R return M R with
  | UFailure _ _ _ _ => mret tt
  | UFree _ _ _ => mret 0
  | UCopy _ _ _ _ => mret 0
  | ULog _ _ _ _ => mret tt
  | UEvent _ _ _ _ _ => mret MARPAWRAPPER_BOOL_TRUE
  | UReader _ _ => mret (MARPAWRAPPER_BOOL_FALSE, Some MARPAWRAPPER_BOOL_TRUE)
  | UIsLexeme _ _ => mret (MARPAWRAPPER_BOOL_FALSE, None)
  | ULexemeValue _ _ => mret (MARPAWRAPPER_BOOL_TRUE, Some 1, Some 1)
  | UValueRule _ _ _ _ _ _ => mret (MARPAWRAPPER_BOOL_TRUE, None)
  | UValueSymbol _ _ _ _ _ => mret (MARPAWRAPPER_BOOL_TRUE, None)
  | UValueNulling _ _ _ _ => mret (MARPAWRAPPER_BOOL_TRUE, None)
  | UValueResult _ _ _ _ => mret MARPAWRAPPER_VALUECALLBACKBOOL_TRUE
  | UElementFree _ _ _ _ => mret MARPAWRAPPER_BOOL_TRUE
  | UElementCopy _ _ _ _ _ => mret MARPAWRAPPER_BOOL_TRUE
  end.

#[export] Instance demo_env : Env := {|
  marpa_run R c m := demo_marpa c m;
  user_run R c := demo_user c;
  strerror _ := "error"%string;
  vsnprintf_fails _ := false;
  ptr_string _ := "p"%string;
  time_now _ := 0;
  localtime t := Some t;
  strftime_out _ _ := "01/01/1970 00:00:00"%string;
  write_result u s := (Z.of_nat (String.length s), u);
  loop_fuel := 100%nat
|}.

(** A world with memory for every request, and one without any. *)
Definition demo_world (h : gmap positive obj) (script : list Z) : world :=
  World _ h 1%positive (fun _ => true) 0 script tt [].
Definition demo_world_oom (h : gmap positive obj) (script : list Z) : world :=
  World _ h 1%positive (fun _ => false) 0 script tt [].

Lemma demo_no_oom h script : no_oom (demo_world h script).
Proof. done. Qed.
