(* ===== verification/ManageBuf.v ===== *)
(** * Growing arrays of pointers: [src/manageBuf.c]

    [manageBuf_createp] and [manageBuf_freev] take the caller's buffer variables by
    reference; the model takes their values and returns the values they have afterwards.
    The [#else] branch of the NULL pre-filling is modelled (the [memset] branch stores the
    same null pointers). *)
From S2P Require Import Prelude Types External Runtime Demo.

Section manageBuf.
Context `{Platform}.

(** The [while (sizei < wantedNumberi)] loop.  [None] is one of its [return NULL]. *)
Fixpoint manageBuf_grow (fuel : nat) (pp : ptr) (sizei prevSizei wantedNumberi elementSizei : Z)
    : M (option (ptr * Z)) :=
  if sizei <? wantedNumberi then
    match fuel with
    | O => out_of_fuel
    | S fuel =>
      if sizei <=? 0 then
        let sizei := 100 in
        pp ← malloc_ptrs (to_size_t (sizei * elementSizei));
        if decide (pp = Null) then mret None
        else manageBuf_grow fuel pp sizei sizei wantedNumberi elementSizei
      else
        let sizei := to_size_t (sizei * 2) in
        if sizei <? prevSizei then
          put_errno ERANGE;; mret None
        else
          pp ← realloc_ptrs pp (to_size_t (sizei * elementSizei));
          if decide (pp = Null) then mret None
          else manageBuf_grow fuel pp sizei sizei wantedNumberi elementSizei
    end
  else mret (Some (pp, sizei)).

(** Doublings before the size wraps around: one more than the 64 bits of a [size_t]. *)
Definition manageBuf_fuel : nat := 66.

(** [for (i = origSizei; i < sizei; i++) pp[i] = NULL], [i] being an [int]. *)
Definition manageBuf_fill (pp : ptr) (origSizei sizei : Z) : M unit :=
  for_loop (Z.to_nat (sizei - origSizei)) (to_int origSizei)
    (fun i _ => if decide (i <= INT_MAX) then store_cell pp i Null
                else undef "signed integer overflow") tt.

(** The result, and the new [*ppp] and [*sizeip]. *)
Definition manageBuf_createp (pp : ptr) (sizei wantedNumberi elementSizei : Z)
    : M (ptr * (ptr * Z)) :=
  r ← manageBuf_grow manageBuf_fuel pp sizei sizei wantedNumberi elementSizei;
  match r with
  | None => mret (Null, (pp, sizei))
  | Some (pp', sizei') =>
    manageBuf_fill pp' sizei sizei';;
    mret (pp', (pp', sizei'))
  end.

(** The new [*ppp], [*sizeip] and [*usedNumberip]. *)
Definition manageBuf_freev (pp : ptr) (sizei usedNumberi : Z) : M (ptr * Z * Z) :=
  (if decide (pp = Null) then mret tt
   else
     for_loop (Z.to_nat usedNumberi) 0
       (fun i _ =>
          p ← load_cell pp i;
          if decide (p = Null) then mret tt
          else free p;; store_cell pp i Null) tt;;
     free pp);;
  mret (Null, 0, 0).

(** ** The buffer a pair [*ppp], [*sizeip] denotes *)
Definition buf_at (h : gmap positive obj) (pp : ptr) (sizei : Z) (cells : list ptr) : Prop :=
  match pp with
  | Null => sizei = 0 /\ cells = []
  | Loc l => h !! l = Some (OPtrs (Init <$> cells)) /\ sizei = Z.of_nat (length cells) /\ 0 < sizei
  | Lit _ => False
  end.

(** A block part of which is still indeterminate. *)
Definition partial_cells (cells : list ptr) (sizei : Z) : list (init ptr) :=
  (Init <$> cells) ++ replicate (Z.to_nat sizei - length cells) Uninit.

(** The pointers that [manageBuf_freev] may free: live blocks, each met once. *)
Record owned_ptrs (h : gmap positive obj) (ps : list ptr) : Prop := {
  owned_live : forall p, p ∈ ps -> p = Null \/ exists l o, p = Loc l /\ h !! l = Some o;
  owned_nodup : NoDup (locs_of ps)
}.

End manageBuf.

(** ** Lemmas *)
Section manageBuf_props.
Context `{Platform}.
Implicit Types (w : world) (h : gmap positive obj).

Lemma partial_cells_full cells : partial_cells cells (Z.of_nat (length cells)) = Init <$> cells.
Proof. unfold partial_cells. by rewrite Nat2Z.id, Nat.sub_diag, app_nil_r. Qed.

Lemma resize_partial cells s s' :
  Z.of_nat (length cells) <= s <= s' ->
  resize (Z.to_nat s') (partial_cells cells s) = partial_cells cells s'.
Proof.
  intros. unfold resize, partial_cells.
  rewrite length_app, length_fmap, length_replicate.
  rewrite take_ge by (rewrite length_app, length_fmap, length_replicate; lia).
  rewrite <- (assoc_L (++)), <- replicate_add. do 2 f_equal. lia.
Qed.

Lemma bytes_of_ptrs s : 0 <= s <= INT_MAX -> to_size_t (s * sizeof_ptr) / sizeof_ptr = s.
Proof.
  unfold INT_MAX, sizeof_ptr. intros. rewrite to_size_t_small by (unfold is_size_t, SIZE_MOD; lia).
  by rewrite Z.div_mul.
Qed.

(** The loop's state: a buffer that holds [cells] and has room for [sizei] pointers. *)
Definition grow_at h (pp : ptr) (sizei : Z) (cells : list ptr) : Prop :=
  match pp with
  | Null => sizei = 0 /\ cells = []
  | Loc l => h !! l = Some (OPtrs (partial_cells cells sizei))
             /\ Z.of_nat (length cells) <= sizei /\ 0 < sizei
  | Lit _ => False
  end.

Lemma buf_grow_at h pp sizei cells : buf_at h pp sizei cells -> grow_at h pp sizei cells.
Proof.
  destruct pp; simpl; try done. intros (?&->&?). by rewrite partial_cells_full.
Qed.

(** What growing the buffer does to the world: nothing, or the block moves. *)
Definition grown w (pp : ptr) (cells : list ptr) (pp' : ptr) (sizei' : Z) w' : Prop :=
  exists l', pp' = Loc l'
    /\ delete_locs (locs_of [pp]) (heap w) !! l' = None
    /\ heap w' = <[l' := OPtrs (partial_cells cells sizei')]> (delete_locs (locs_of [pp]) (heap w))
    /\ ext_eq w w' /\ no_oom w'.

Lemma grown_trans w pp cells l1 s1 w1 pp' s' w' :
  grown w pp cells (Loc l1) s1 w1 ->
  (pp' = Loc l1 /\ s' = s1 /\ w' = w1 \/ grown w1 (Loc l1) cells pp' s' w') ->
  grown w pp cells pp' s' w'.
Proof.
  intros (?&[= <-]&Hf&Hh&He&Hn) [(->&->&->)|(l'&->&Hf'&Hh'&He'&Hn')]; [by exists l1|].
  exists l'. unfold locs_of in *. simpl in *. rewrite Hh in *.
  rewrite delete_insert_id in Hf', Hh' by done.
  split_and!; [done|done|done|by etrans|done].
Qed.

(** One step of the loop: a first block of 100, or a doubling. *)
Lemma grow_step w pp sizei cells wanted fuel Q :
  no_oom w -> grow_at (heap w) pp sizei cells -> 0 <= sizei -> sizei < wanted <= 2 ^ 30 ->
  let sizei1 := if decide (sizei = 0) then 100 else 2 * sizei in
  (forall l1 w1, grown w pp cells (Loc l1) sizei1 w1 ->
     wp (manageBuf_grow fuel (Loc l1) sizei1 sizei1 wanted sizeof_ptr) Q w1) ->
  wp (manageBuf_grow (S fuel) pp sizei sizei wanted sizeof_ptr) Q w.
Proof.
  intros Hn Hat Hs Hw sizei1 HQ. simpl.
  rewrite (proj2 (Z.ltb_lt _ _)) by lia. subst sizei1.
  destruct pp as [| |l]; [|done|].
  - destruct Hat as [-> ->]. simpl. apply wp_bind, wp_malloc_ok; [done|].
    intros l1 Hf Hn1. rewrite decide_False by done. apply HQ.
    exists l1. split_and!; done.
  - destruct Hat as (Hl&Hlen&Hpos). rewrite decide_False in HQ by lia.
    rewrite (proj2 (Z.leb_gt _ _)) by lia.
    assert (to_size_t (sizei * 2) = 2 * sizei) as ->.
    { rewrite to_size_t_small; [lia | unfold is_size_t, SIZE_MOD; lia]. }
    rewrite (proj2 (Z.ltb_ge _ _)) by lia.
    apply wp_bind. eapply wp_realloc_ptrs_ok; [done|done|]. intros l1 Hf o w1 Hn1.
    rewrite decide_False by done. apply HQ. exists l1. subst w1 o. simpl.
    rewrite bytes_of_ptrs by (unfold INT_MAX; lia).
    rewrite resize_partial by lia.
    assert (l <> l1) by congruence.
    rewrite lookup_delete_ne, delete_insert_ne by done.
    split_and!; try done.
Qed.

Lemma wp_manageBuf_grow fuel w pp sizei cells wanted :
  no_oom w -> grow_at (heap w) pp sizei cells -> 0 <= sizei -> wanted <= 2 ^ 30 ->
  wanted <= (if decide (sizei = 0) then 2 ^ Z.of_nat fuel - 1 else sizei * 2 ^ Z.of_nat fuel) ->
  wp (manageBuf_grow fuel pp sizei sizei wanted sizeof_ptr)
     (fun r w' => exists pp' sizei', r = Some (pp', sizei') /\ wanted <= sizei'
        /\ sizei <= sizei' /\ (sizei' <= Z.max sizei 100 \/ sizei' < 2 * wanted)
        /\ ((pp' = pp /\ sizei' = sizei /\ w' = w) \/ grown w pp cells pp' sizei' w')) w.
Proof.
  revert w pp sizei. induction fuel as [|fuel IH]; intros w pp sizei Hn Hat Hs Hw Hf.
  all: destruct (decide (sizei < wanted)) as [Hlt|Hge].
  - case_decide; simpl in Hf; lia.
  - simpl. rewrite (proj2 (Z.ltb_ge _ _)) by lia. apply wp_ret.
    exists pp, sizei. split_and!; try done; [lia..|tauto].
  - apply (grow_step w pp sizei cells); [done..|lia|].
    intros l1 w1 Hg. rewrite Nat2Z.inj_succ, Z.pow_succ_r in Hf by lia.
    set (sizei1 := if decide (sizei = 0) then 100 else 2 * sizei) in *.
    assert (sizei < sizei1 /\ sizei1 <> 0) as [Hs1 Hs0] by (subst sizei1; case_decide; lia).
    eapply wp_mono; [apply IH|].
    + destruct Hg as (?&?&?&?&?&?); done.
    + destruct Hg as (?&[= <-]&?&Hh&?&?). simpl. rewrite Hh, lookup_insert_eq.
      destruct pp as [| |l]; simpl in Hat; [|done|].
      * destruct Hat as [_ ->]. split_and!; [done|simpl; lia|lia].
      * split_and!; [done|lia|lia].
    + lia.
    + lia.
    + subst sizei1. case_decide; case_decide; lia.
    + intros r w' (pp'&s'&->&?&?&Hb&Hor). exists pp', s'. split_and!; [done|lia|lia| |].
      * subst sizei1. case_decide; lia.
      * right. by eapply grown_trans.
  - simpl. rewrite (proj2 (Z.ltb_ge _ _)) by lia. apply wp_ret.
    exists pp, sizei. split_and!; try done; [lia..|tauto].
Qed.

(** The pre-filling loop turns every indeterminate cell into a null pointer. *)
Lemma wp_manageBuf_fill w l cells sizei' :
  heap w !! l = Some (OPtrs (partial_cells cells sizei')) ->
  Z.of_nat (length cells) <= sizei' <= INT_MAX ->
  wp (manageBuf_fill (Loc l) (Z.of_nat (length cells)) sizei')
     (fun _ w' => w' = set_heap (<[l := OPtrs (Init <$> cells ++ replicate (Z.to_nat sizei' - length cells) Null)]> (heap w)) w) w.
Proof.
  intros Hl Hs. unfold manageBuf_fill.
  rewrite to_int_small by (unfold is_int, INT_MIN; lia).
  set (sz := Z.of_nat (length cells)).
  pose (img j := (Init <$> cells ++ replicate (Z.to_nat (j - sz)) Null)
                   ++ replicate (Z.to_nat (sizei' - j)) Uninit : list (init ptr)).
  eapply wp_mono; [apply (wp_for_loop _ _ _
    (fun j _ w' => w' = set_heap (<[l := OPtrs (img j)]> (heap w)) w))|].
  - destruct w; unfold set_heap, img; simpl. f_equal. symmetry. apply insert_id.
    rewrite Z.sub_diag, app_nil_r. simpl in Hl. rewrite Hl. unfold partial_cells.
    do 4 f_equal. lia.
  - intros j [] w' Hj ->. rewrite decide_True by lia.
    eapply wp_store_cell; simpl; [by rewrite lookup_insert_eq|..].
    { unfold img. rewrite !length_app, length_fmap, length_app, !length_replicate. lia. }
    unfold set_heap. simpl. rewrite insert_insert_eq. do 3 f_equal. unfold img.
    rewrite insert_app_r_alt by (rewrite length_fmap, length_app, length_replicate; lia).
    rewrite length_fmap, length_app, length_replicate.
    replace (Z.to_nat j - _)%nat with 0%nat by lia.
    replace (Z.to_nat (sizei' - j)) with (S (Z.to_nat (sizei' - (j + 1)))) by lia.
    replace (Z.to_nat (j + 1 - sz)) with (Z.to_nat (j - sz) + 1)%nat by lia.
    by rewrite replicate_add, (assoc_L (++) cells), (fmap_app _ (cells ++ _)), <- (assoc_L (++)).
  - intros [] w' ->. unfold img.
    replace (Z.to_nat (sizei' - (sz + Z.of_nat (Z.to_nat (sizei' - sz))))) with 0%nat by lia.
    rewrite app_nil_r. do 6 f_equal. lia.
Qed.

Lemma fueled_manageBuf_grow fuel pp sizei wanted elementSizei :
  is_size_t sizei -> wanted <= SIZE_MOD ->
  SIZE_MOD <= (if decide (sizei = 0) then 2 ^ (Z.of_nat fuel - 1) else sizei * 2 ^ Z.of_nat fuel) ->
  fueled (manageBuf_grow fuel pp sizei sizei wanted elementSizei).
Proof.
  revert pp sizei. induction fuel as [|fuel IH]; intros pp sizei Hs Hw Hf; simpl.
  { destruct (sizei <? wanted) eqn:E; Zbool; [|apply fueled_ret].
    unfold is_size_t, SIZE_MOD in *. case_decide; simpl in Hf; lia. }
  destruct (sizei <? wanted) eqn:E; Zbool; [|apply fueled_ret].
  rewrite Nat2Z.inj_succ, Z.pow_succ_r in Hf by lia. unfold is_size_t in Hs.
  destruct (sizei <=? 0) eqn:E0; Zbool.
  - apply fueled_bind; [apply fueled_malloc|]. intros p.
    destruct (decide (p = Null)); [apply fueled_ret|]. apply IH; [unfold is_size_t, SIZE_MOD; lia|done|].
    rewrite decide_True in Hf by lia. rewrite decide_False by lia.
    replace (Z.succ _ - 1) with (Z.of_nat fuel) in Hf by lia. lia.
  - rewrite decide_False in Hf by lia. destruct (to_size_t _ <? sizei) eqn:E1; Zbool.
    { apply fueled_bind; [done|]. intros; apply fueled_ret. }
    assert (to_size_t (sizei * 2) = sizei * 2) as Hd.
    { destruct (decide (sizei * 2 < SIZE_MOD)); [by apply to_size_t_small; unfold is_size_t; lia|].
      exfalso. unfold to_size_t in *.
      rewrite <- (Z.mod_unique (sizei * 2) SIZE_MOD 1 (sizei * 2 - SIZE_MOD)) in *; lia. }
    apply fueled_bind; [apply fueled_realloc_ptrs|]. intros p.
    destruct (decide (p = Null)); [apply fueled_ret|]. apply IH; [apply to_size_t_range|done|].
    rewrite Hd. rewrite decide_False by lia. lia.
Qed.

(** One round of the loop on a non-empty buffer that is too small. *)
Lemma manageBuf_grow_doubles fuel l sizei wanted :
  0 < sizei < wanted -> sizei <= INT_MAX * 2 ->
  manageBuf_grow (S fuel) (Loc l) sizei sizei wanted sizeof_ptr =
  (pp ← realloc_ptrs (Loc l) (to_size_t (sizei * 2 * sizeof_ptr));
   if decide (pp = Null) then mret None
   else manageBuf_grow fuel pp (sizei * 2) (sizei * 2) wanted sizeof_ptr).
Proof.
  intros Hw Hs. simpl.
  rewrite (proj2 (Z.ltb_lt _ _)), (proj2 (Z.leb_gt _ _)) by lia.
  rewrite (to_size_t_small (sizei * 2)) by (unfold is_size_t, SIZE_MOD, INT_MAX in *; lia).
  by rewrite (proj2 (Z.ltb_ge _ _)) by lia.
Qed.

Lemma wp_grow_oom fuel w pp sizei cells wanted :
  alloc_ok w 0%nat = false -> buf_at (heap w) pp sizei cells ->
  sizei < wanted -> sizei <= INT_MAX ->
  wp (manageBuf_grow (S fuel) pp sizei sizei wanted sizeof_ptr)
     (fun r w' => r = None /\ heap w' = heap w /\ errno w' = ENOMEM /\ ext_eq w w') w.
Proof.
  intros Ho Hb Hw Hs. destruct pp as [| |l]; simpl in Hb; [|done|].
  - destruct Hb as [-> ->]. simpl. rewrite (proj2 (Z.ltb_lt _ _)) by lia.
    unfold wp, mbind, M_bind, malloc_ptrs, malloc. rewrite Ho. by split_and!.
  - destruct Hb as (Hl&->&Hpos). rewrite manageBuf_grow_doubles by (unfold INT_MAX in *; lia).
    unfold wp, mbind, M_bind, realloc_ptrs. rewrite Hl, Ho. by split_and!.
Qed.

Lemma wp_grow_dangling fuel w l sizei cells wanted :
  alloc_ok w 0%nat = true -> alloc_ok w 1%nat = false -> buf_at (heap w) (Loc l) sizei cells ->
  2 * sizei < wanted -> sizei <= INT_MAX ->
  wp (manageBuf_grow (S (S fuel)) (Loc l) sizei sizei wanted sizeof_ptr)
     (fun r w' => r = None /\ heap w' !! l = None
        /\ exists l', l' <> l /\ heap w !! l' = None /\ is_Some (heap w' !! l')) w.
Proof.
  intros Ho1 Ho2 (Hl&Hsz&Hpos) Hw Hs. pose proof (pick_fresh w) as Hf.
  assert (pick w <> l) by congruence.
  rewrite manageBuf_grow_doubles by (unfold INT_MAX in *; lia).
  unfold wp, mbind at 1, M_bind at 1. unfold realloc_ptrs at 1. rewrite Hl, Ho1.
  rewrite decide_False by done. rewrite manageBuf_grow_doubles by lia.
  unfold mbind, M_bind, realloc_ptrs. simpl.
  rewrite lookup_delete_ne, lookup_insert_eq by done. unfold tick. rewrite Ho2.
  rewrite decide_True by done. simpl. rewrite lookup_delete_eq. split_and!; [done..|].
  exists (pick w). rewrite lookup_delete_ne, lookup_insert_eq by done. eauto.
Qed.

Lemma locs_of_take_fresh cells n j l :
  NoDup (locs_of (take n cells)) -> cells !! j = Some (Loc l) -> (j < n)%nat ->
  l ∉ locs_of (take j cells).
Proof.
  intros Hnd Hl Hj. rewrite <- (take_drop j (take n cells)) in Hnd.
  rewrite take_take, Nat.min_l in Hnd by lia.
  rewrite (drop_S (take n cells) (Loc l) j) in Hnd by (rewrite lookup_take_lt by lia; done).
  rewrite locs_of_app in Hnd. apply NoDup_app in Hnd as (_&Hd&_).
  intros Hin. apply (Hd l Hin). rewrite elem_of_locs_of. constructor.
Qed.

(** The freeing loop: after [i] rounds the first [i] cells are null and what they pointed
    to is gone. *)
Lemma wp_manageBuf_free_loop w l cells used :
  heap w !! l = Some (OPtrs (Init <$> cells)) ->
  0 <= used <= Z.of_nat (length cells) ->
  owned_ptrs (heap w) (take (Z.to_nat used) cells) ->
  Loc l ∉ take (Z.to_nat used) cells ->
  wp (for_loop (Z.to_nat used) 0
       (fun i _ => p ← load_cell (Loc l) i;
          if decide (p = Null) then mret tt else free p;; store_cell (Loc l) i Null) tt)
     (fun _ w' => exists cells', w' = set_heap (<[l := OPtrs cells']>
        (delete_locs (locs_of (take (Z.to_nat used) cells)) (heap w))) w) w.
Proof.
  intros Hl Hu [Hlive Hnd] Hself.
  pose (img j := replicate (Z.to_nat j) (Init Null) ++ (Init <$> drop (Z.to_nat j) cells)).
  pose (hp j := delete_locs (locs_of (take (Z.to_nat j) cells)) (heap w)).
  eapply wp_mono; [apply (wp_for_loop _ _ _
    (fun j _ w' => w' = set_heap (<[l := OPtrs (img j)]> (hp j)) w))|].
  - destruct w; unfold set_heap, img, hp; simpl. f_equal. symmetry. by apply insert_id.
  - intros j [] w' Hj ->. assert (exists p, cells !! Z.to_nat j = Some p) as [p Hp].
    { apply lookup_lt_is_Some_2. lia. }
    assert (img j !! Z.to_nat j = Some (Init p)) as Hi.
    { unfold img. rewrite lookup_app_r by (rewrite length_replicate; lia).
      rewrite length_replicate, Nat.sub_diag, list_lookup_fmap, lookup_drop, Nat.add_0_r.
      by rewrite Hp. }
    assert (img (j + 1) = <[Z.to_nat j := Init Null]> (img j)) as Hi'.
    { unfold img. replace (Z.to_nat (j + 1)) with (S (Z.to_nat j)) by lia.
      rewrite (drop_S cells p (Z.to_nat j)), replicate_S_end by done. rewrite insert_app_r_alt by (rewrite length_replicate; lia).
      rewrite length_replicate, Nat.sub_diag. simpl.
      by rewrite <- (assoc_L (++)). }
    assert (hp (j + 1) = delete_locs (locs_of [p]) (hp j)) as Hh'.
    { unfold hp. replace (Z.to_nat (j + 1)) with (S (Z.to_nat j)) by lia.
      rewrite (take_S_r _ _ p), locs_of_app by done.
      destruct p; unfold locs_of; simpl; rewrite ?app_nil_r; [done..|apply delete_locs_snoc]. }
    assert (p ∈ take (Z.to_nat used) cells) as Hin.
    { apply list_elem_of_lookup. exists (Z.to_nat j). rewrite lookup_take_lt by lia. done. }
    apply wp_bind. eapply wp_load_cell; simpl; [by rewrite lookup_insert_eq|lia|done|].
    case_decide as Hnull.
    + apply wp_ret. rewrite Hh', Hi', Hnull. unfold locs_of. simpl.
      by rewrite list_insert_id by (by rewrite Hi, Hnull).
    + destruct (Hlive _ Hin) as [?|(lp&o&->&Ho)]; [done|].
      assert (lp <> l) by congruence.
      assert (hp j !! lp = Some o).
      { unfold hp. rewrite delete_locs_lookup_ne; [done|].
        eapply locs_of_take_fresh; [done..|lia]. }
      apply wp_bind. eapply wp_free; simpl; [by rewrite lookup_insert_ne by done|].
      eapply wp_store_cell; simpl; [by rewrite lookup_delete_ne, lookup_insert_eq by done|..].
      { apply lookup_lt_Some in Hi. lia. }
      unfold set_heap. simpl. rewrite Hh', Hi'. f_equal.
      unfold locs_of. simpl. rewrite delete_insert_ne, insert_insert_eq by done. done.
  - intros [] w' ->. rewrite Z.add_0_l, Z2Nat.id by lia. by eexists.
Qed.
Lemma wp_manageBuf_createp w pp sizei cells wanted :
  no_oom w -> buf_at (heap w) pp sizei cells ->
  0 < wanted <= 2 ^ 30 -> sizei <= INT_MAX ->
  wp (manageBuf_createp pp sizei wanted sizeof_ptr)
     (fun r w' => exists l' sizei', r = (Loc l', (Loc l', sizei'))
        /\ wanted <= sizei' /\ sizei <= sizei'
        /\ (sizei' <= Z.max sizei 100 \/ sizei' < 2 * wanted)
        /\ buf_at (heap w') (Loc l') sizei' (cells ++ replicate (Z.to_nat (sizei' - sizei)) Null)
        /\ delete_locs (locs_of [pp]) (heap w) !! l' = None
        /\ heap w' = <[l' := OPtrs (Init <$> cells ++ replicate (Z.to_nat (sizei' - sizei)) Null)]>
                       (delete_locs (locs_of [pp]) (heap w))
        /\ ext_eq w w' /\ no_oom w') w.
Proof.
  intros Hn Hb Hw Hs. unfold manageBuf_createp. apply wp_bind.
  assert (Hsz : sizei = Z.of_nat (length cells)).
  { destruct pp; simpl in Hb; [naive_solver|done|naive_solver]. }
  eapply wp_mono; [apply (wp_manageBuf_grow _ _ _ _ cells)|]; eauto using buf_grow_at with lia.
  { unfold manageBuf_fuel. case_decide; simpl; lia. }
  intros r w1 (pp'&s'&->&Hws&Hss&Hbd&Hor). apply wp_bind.
  set (img := OPtrs (partial_cells cells s')).
  assert (exists l', pp' = Loc l' /\ delete_locs (locs_of [pp]) (heap w) !! l' = None
    /\ heap w1 = <[l' := img]> (delete_locs (locs_of [pp]) (heap w))
    /\ ext_eq w w1 /\ no_oom w1) as (l'&->&Hf&Hh&He&Hn1).
  { destruct Hor as [(->&->&->)|Hg]; [|done]. destruct pp as [| |l]; simpl in Hb; [lia|done|].
    exists l. unfold locs_of, img. simpl. rewrite lookup_delete_eq, Hsz, partial_cells_full.
    rewrite insert_delete_id by naive_solver. split_and!; done. }
  rewrite Hsz. eapply wp_mono; [apply wp_manageBuf_fill|].
  { by rewrite Hh, lookup_insert_eq. }
  { unfold INT_MAX in *. lia. }
  intros _ w2 ->. apply wp_ret. exists l', s'. simpl. rewrite Hh, lookup_insert_eq, insert_insert_eq.
  replace (Z.to_nat s' - length cells)%nat with (Z.to_nat (s' - Z.of_nat (length cells))) by lia.
  split_and!; try done; try lia.
  - rewrite length_app, length_replicate. lia.
  - destruct He. by split.
Qed.

Lemma wp_manageBuf_freev w pp sizei cells used :
  buf_at (heap w) pp sizei cells ->
  0 <= used <= Z.of_nat (length cells) ->
  owned_ptrs (heap w) (take (Z.to_nat used) cells) ->
  (forall l, pp = Loc l -> Loc l ∉ take (Z.to_nat used) cells) ->
  wp (manageBuf_freev pp sizei used)
     (fun r w' => r = (Null, 0, 0)
        /\ w' = set_heap (delete_locs (locs_of (pp :: take (Z.to_nat used) cells)) (heap w)) w) w.
Proof.
  intros Hb Hu Hown Hself. unfold manageBuf_freev. apply wp_bind.
  destruct pp as [| |l]; simpl in Hb; [|done|].
  { destruct Hb as [-> ->]. rewrite take_nil. apply wp_ret, wp_ret. by destruct w. }
  rewrite decide_False by done. destruct Hb as (Hl&->&Hpos).
  apply wp_bind. eapply wp_mono; [apply (wp_manageBuf_free_loop w l cells); auto|].
  intros _ w' (cells'&->). eapply wp_free; simpl; [by rewrite lookup_insert_eq|].
  apply wp_ret. split; [done|]. unfold set_heap. simpl. f_equal.
  by rewrite delete_insert_eq.
Qed.
End manageBuf_props.

(** ** Properties *)
Section manageBuf_theorems.
Context `{Platform}.

(** Growing a buffer: with memory available, [manageBuf_createp] returns a non-null
    array of at least the wanted number of pointers (less than twice that number, or 100),
    which holds the old pointers followed by null ones; the old array is gone and no other
    block of the heap is touched. *)
Theorem manageBuf_createp_grows (w : world) pp sizei cells wanted :
  no_oom w -> buf_at (heap w) pp sizei cells ->
  0 < wanted <= 2 ^ 30 -> sizei <= INT_MAX ->
  wp (manageBuf_createp pp sizei wanted sizeof_ptr)
     (fun r w' => exists l' sizei', r = (Loc l', (Loc l', sizei'))
        /\ wanted <= sizei' /\ sizei <= sizei'
        /\ (sizei' <= Z.max sizei 100 \/ sizei' < 2 * wanted)
        /\ buf_at (heap w') (Loc l') sizei' (cells ++ replicate (Z.to_nat (sizei' - sizei)) Null)
        /\ delete_locs (locs_of [pp]) (heap w) !! l' = None
        /\ heap w' = <[l' := OPtrs (Init <$> cells ++ replicate (Z.to_nat (sizei' - sizei)) Null)]>
                       (delete_locs (locs_of [pp]) (heap w))
        /\ ext_eq w w' /\ no_oom w') w.
Proof. apply wp_manageBuf_createp. Qed.

(** Termination: whatever the buffer, the request and the element size, the growth
    loop ends (the [size_t] turn-around check stops it after at most 66 rounds). *)
Theorem manageBuf_createp_terminates pp sizei wanted elementSizei :
  is_size_t sizei -> wanted <= SIZE_MOD ->
  fueled (manageBuf_createp pp sizei wanted elementSizei).
Proof.
  intros Hs Hw. unfold manageBuf_createp. apply fueled_bind.
  - apply fueled_manageBuf_grow; [done|done|]. unfold manageBuf_fuel, is_size_t, SIZE_MOD in *.
    case_decide; simpl; lia.
  - intros [[pp' s']|]; [|apply fueled_ret]. apply fueled_bind; [|auto with marpa].
    apply fueled_for_loop. intros i ?. case_decide; auto with marpa.
Qed.

(** A refused allocation during a one-step growth (the way every caller grows its
    arrays, one element at a time) is reported by a null result, and the caller's buffer
    variables and the heap are left as they were. *)
Theorem manageBuf_createp_oom (w : world) pp sizei cells wanted :
  alloc_ok w 0%nat = false -> buf_at (heap w) pp sizei cells ->
  sizei < wanted <= sizei + 1 -> sizei <= INT_MAX ->
  wp (manageBuf_createp pp sizei wanted sizeof_ptr)
     (fun r w' => r = (Null, (pp, sizei)) /\ heap w' = heap w /\ errno w' = ENOMEM
        /\ ext_eq w w') w.
Proof.
  intros Ho Hb Hw Hs. unfold manageBuf_createp. apply wp_bind.
  eapply wp_mono; [apply (wp_grow_oom 65 w pp sizei cells); auto; lia|].
  intros r w' (->&?&?&?). by apply wp_ret.
Qed.

(** A defect: when a request needs two doublings and the second [realloc()] fails,
    the null result leaves the caller's [*ppp] pointing to the array the first [realloc()]
    already released (and the array it returned is lost). *)
Theorem manageBuf_createp_dangling (w : world) l sizei cells wanted :
  alloc_ok w 0%nat = true -> alloc_ok w 1%nat = false -> buf_at (heap w) (Loc l) sizei cells ->
  2 * sizei < wanted -> sizei <= INT_MAX ->
  wp (manageBuf_createp (Loc l) sizei wanted sizeof_ptr)
     (fun r w' => r = (Null, (Loc l, sizei)) /\ heap w' !! l = None
        /\ exists l', l' <> l /\ heap w !! l' = None /\ is_Some (heap w' !! l')) w.
Proof.
  intros Ho1 Ho2 Hb Hw Hs. unfold manageBuf_createp. apply wp_bind.
  eapply wp_mono; [apply (wp_grow_dangling 64 w l sizei cells); auto; lia|].
  intros r w' (->&?&?). by apply wp_ret.
Qed.

(** [manageBuf_freev] releases the array and every non-null pointer among its first
    [usedNumberi] cells, each exactly once and nothing else, and resets the caller's
    variables. *)
Theorem manageBuf_freev_frees (w : world) pp sizei cells used :
  buf_at (heap w) pp sizei cells ->
  0 <= used <= Z.of_nat (length cells) ->
  owned_ptrs (heap w) (take (Z.to_nat used) cells) ->
  (forall l, pp = Loc l -> Loc l ∉ take (Z.to_nat used) cells) ->
  wp (manageBuf_freev pp sizei used)
     (fun r w' => r = (Null, 0, 0)
        /\ w' = set_heap (delete_locs (locs_of (pp :: take (Z.to_nat used) cells)) (heap w)) w) w.
Proof. apply wp_manageBuf_freev. Qed.
End manageBuf_theorems.

(** ** Witnesses *)

(** An array of two pointers at address 1, the first to a live block at 2. *)
Definition demo_array : gmap positive obj :=
  list_to_map [(1%positive, OPtrs (Init <$> [Loc 2; Null])); (2%positive, OInts [])].

Lemma demo_array_at : buf_at demo_array (Loc 1) 2 [Loc 2; Null].
Proof. done. Qed.

(** One request is granted, the next ones are not. *)
Definition demo_world_one (h : gmap positive obj) : world :=
  World _ h 3%positive (fun n => match n with O => true | _ => false end) 0 [] tt [].

Lemma manageBuf_createp_grows_witness :
  exists l sizei w', manageBuf_createp (Loc 1) 2 3 8 (demo_world demo_array []) = Done (Loc l, (Loc l, sizei)) w'
    /\ 3 <= sizei.
Proof.
  destruct (wp_run _ _ _ (manageBuf_createp_grows (demo_world demo_array []) (Loc 1) 2 _ 3 (demo_no_oom _ _)
    demo_array_at ltac:(lia) ltac:(done))) as (r&w'&Hrun&l&sizei&->&H3&_).
  by exists l, sizei, w'.
Defined.

Lemma manageBuf_createp_terminates_witness :
  manageBuf_createp Null 0 1000 8 (demo_world ∅ []) <> OutOfFuel.
Proof. apply (manageBuf_createp_terminates Null 0 1000 8); [by unfold is_size_t, SIZE_MOD|done]. Defined.

Lemma manageBuf_createp_oom_witness :
  exists w', manageBuf_createp (Loc 1) 2 3 8 (demo_world_oom demo_array []) = Done (Null, (Loc 1, 2)) w'.
Proof.
  destruct (wp_run _ _ _ (manageBuf_createp_oom (demo_world_oom demo_array []) (Loc 1) 2 _ 3 eq_refl
    demo_array_at ltac:(lia) ltac:(done))) as (r&w'&Hrun&->&_).
  by exists w'.
Defined.

Lemma manageBuf_createp_dangling_witness :
  exists w', manageBuf_createp (Loc 1) 2 5 8 (demo_world_one demo_array) = Done (Null, (Loc 1, 2)) w'
    /\ heap w' !! 1%positive = None.
Proof.
  destruct (wp_run _ _ _ (manageBuf_createp_dangling (demo_world_one demo_array) 1 2 _ 5 eq_refl eq_refl
    demo_array_at ltac:(lia) ltac:(done))) as (r&w'&Hrun&->&Hl&_).
  by exists w'.
Defined.

Lemma manageBuf_freev_frees_witness :
  exists w', manageBuf_freev (Loc 1) 2 1 (demo_world demo_array []) = Done (Null, 0, 0) w' /\ heap w' = ∅.
Proof.
  assert (owned_ptrs demo_array (take (Z.to_nat 1) [Loc 2; Null])) as Hown.
  { split; [|repeat constructor; set_solver]. intros p Hp. apply list_elem_of_singleton in Hp as ->.
    right. by exists 2%positive, (OInts []). }
  destruct (wp_run _ _ _ (manageBuf_freev_frees (demo_world demo_array []) (Loc 1) 2 _ 1 demo_array_at
    ltac:(simpl; lia) Hown ltac:(intros l [= <-]; simpl; set_solver))) as (r&w'&Hrun&->&->).
  exists (set_heap ∅ (demo_world demo_array [])). split; [|done]. rewrite Hrun. reflexivity.
Defined.
