(* ===== verification/GenericStack.v ===== *)
(** * The generic stack: [src/genericStack.c]

    A [genericStack_t] owns an array of pointers to private copies of the elements.  The
    structure, the array and the elements all live in the heap; the user callbacks are an
    interface ([StackCallbacks]) the client of the stack implements. *)
From S2P Require Import Prelude Types External Runtime.

Definition STACK_INIT_SIZE : Z := 4.

(** What the functions behind [failureCallbackp], [freeCallbackp] and [copyCallbackp] do. *)
Class StackCallbacks `{Platform} : Type := {
  call_failure : fn -> genericStack_error_t -> Z -> ptr -> M unit;
  call_free : fn -> ptr -> ptr -> M Z;
  call_copy : fn -> ptr -> ptr -> ptr -> M Z
}.

Section genericStack.
Context `{StackCallbacks}.

(** Calls the failure callback when there is one. *)
Definition report (f : option fn) (e : genericStack_error_t) (errnum : Z) (userDatap : ptr) : M unit :=
  match f with
  | None => mret tt
  | Some f => call_failure f e errnum userDatap
  end.

Definition report_option (optionp : option genericStack_option_t) (e : genericStack_error_t) (errnum : Z) : M unit :=
  match optionp with
  | None => mret tt
  | Some o => report (gso_failureCallbackp o) e errnum (gso_failureCallbackUserDatap o)
  end.

Definition report_stack (s : genericStack) (e : genericStack_error_t) (errnum : Z) : M unit :=
  report (gs_failureCallbackp s) e errnum (gs_failureCallbackUserDatap s).

(** The freshly allocated structure: every field is assigned before it is read. *)
Definition genericStack_blank : genericStack :=
  GenericStack Null 0 0 0 None Null None Null None Null 0 0.

Definition grow_flag (optionp : option genericStack_option_t) (flag : Z) : Z :=
  match optionp with
  | None => 0
  | Some o => if Z.land (gso_growFlags o) flag =? flag then 1 else 0
  end.

Definition genericStack_init (bufpp : ptr) (elementSizei : Z) (optionp : option genericStack_option_t) : genericStack :=
  {| gs_bufpp := bufpp;
     gs_allocSizei := STACK_INIT_SIZE;
     gs_stackSizei := 0;
     gs_elementSizei := elementSizei;
     gs_failureCallbackp := optionp ≫= gso_failureCallbackp;
     gs_failureCallbackUserDatap := from_option gso_failureCallbackUserDatap Null optionp;
     gs_freeCallbackp := optionp ≫= gso_freeCallbackp;
     gs_freeCallbackUserDatap := from_option gso_freeCallbackUserDatap Null optionp;
     gs_copyCallbackp := optionp ≫= gso_copyCallbackp;
     gs_copyCallbackUserDatap := from_option gso_copyCallbackUserDatap Null optionp;
     gs_optionGrowOnSeti := grow_flag optionp GENERICSTACK_OPTION_GROW_ON_SET;
     gs_optionGrowOnGeti := grow_flag optionp GENERICSTACK_OPTION_GROW_ON_GET |}.

Definition genericStack_newp (elementSizei : Z) (optionp : option genericStack_option_t) : M ptr :=
  if elementSizei <=? 0 then
    report_option optionp GENERICSTACK_ERROR_PARAMETER GENERICSTACK_ERROR_PARAMETER_ELEMENTSIZE;;
    mret Null
  else
    genericStackp ← malloc (OStack genericStack_blank);
    if decide (genericStackp = Null) then
      e ← get_errno;
      report_option optionp GENERICSTACK_ERROR_SYSTEM e;;
      mret Null
    else
      bufpp ← malloc_ptrs (to_size_t (elementSizei * STACK_INIT_SIZE));
      if decide (bufpp = Null) then
        e ← get_errno;
        report_option optionp GENERICSTACK_ERROR_SYSTEM e;;
        free genericStackp;;
        mret Null
      else
        for_loop (Z.to_nat STACK_INIT_SIZE) 0 (fun i _ => store_cell bufpp i Null) tt;;
        store genericStackp (genericStack_init bufpp elementSizei optionp);;
        mret genericStackp.

(** Calls the free callback on an element and releases it. *)
Definition genericStack_freeElement (genericStackp elementp : ptr) : M unit :=
  s ← load genericStackp;
  match gs_freeCallbackp s with
  | None => mret tt
  | Some f =>
    errnum ← call_free f elementp (gs_freeCallbackUserDatap s);
    if errnum =? 0 then mret tt
    else s ← load genericStackp; report_stack s GENERICSTACK_ERROR_CALLBACK errnum
  end;;
  free elementp.

(** [void genericStack_destroyv(genericStack_t **genericStackpp)]: the argument is
    [None] for a [NULL] pointer to pointer, else the stack; the result is the new
    [*genericStackpp]. *)
Definition genericStack_destroyv (genericStackpp : option ptr) : M (option ptr) :=
  match genericStackpp with
  | None => mret None
  | Some genericStackp =>
    if decide (genericStackp = Null) then mret (Some Null)
    else
      s ← load genericStackp;
      for_loop (Z.to_nat (gs_allocSizei s)) 0
        (fun i _ =>
           s ← load genericStackp;
           p ← load_cell (gs_bufpp s) i;
           if decide (p = Null) then mret tt
           else
             genericStack_freeElement genericStackp p;;
             s ← load genericStackp;
             store_cell (gs_bufpp s) i Null) tt;;
      s ← load genericStackp;
      free (gs_bufpp s);;
      free genericStackp;;
      mret (Some Null)
  end.

(** The doubling of the array when the stack is full; [false] is [return 0]. *)
Definition genericStack_grow (genericStackp : ptr) : M bool :=
  s ← load genericStackp;
  let allocSizei := to_size_t (gs_allocSizei s * 2) in
  bufpp ← realloc_ptrs (gs_bufpp s) (to_size_t (allocSizei * sizeof_ptr));
  if decide (bufpp = Null) then
    e ← get_errno;
    report_stack s GENERICSTACK_ERROR_SYSTEM e;;
    mret false
  else
    for_loop (Z.to_nat (allocSizei - gs_allocSizei s)) (gs_allocSizei s)
      (fun i _ => store_cell bufpp i Null) tt;;
    store genericStackp (gs_set_buf s bufpp allocSizei);;
    mret true.

(** [memcpy(dstp, srcp, n)] between two element blocks. *)
Definition memcpy (dstp srcp : ptr) (n : Z) : M unit :=
  src ← load srcp;
  dst ← load dstp;
  let n := Z.to_nat n in
  if decide (n <= length (src : list (init Byte.byte)) /\ n <= length (dst : list (init Byte.byte)))%nat
  then store dstp (take n src ++ drop n dst)
  else undef "memcpy() out of bounds".

(** The private copy of an element; [None] when [malloc()] refuses it ([return 0]). *)
Definition genericStack_copyElement (genericStackp elementp : ptr) : M (option ptr) :=
  s ← load genericStackp;
  newElementp ← malloc (OBytes (replicate (Z.to_nat (gs_elementSizei s)) Uninit));
  if decide (newElementp = Null) then
    e ← get_errno;
    report_stack s GENERICSTACK_ERROR_SYSTEM e;;
    mret None
  else
    memcpy newElementp elementp (gs_elementSizei s);;
    match gs_copyCallbackp s with
    | None => mret tt
    | Some f =>
      errnum ← call_copy f newElementp elementp (gs_copyCallbackUserDatap s);
      if errnum =? 0 then mret tt
      else s ← load genericStackp; report_stack s GENERICSTACK_ERROR_CALLBACK errnum
    end;;
    mret (Some newElementp).

Definition genericStack_pushi (genericStackp elementp : ptr) : M Z :=
  if decide (genericStackp = Null) then mret 0
  else
    s ← load genericStackp;
    ok ← (if gs_stackSizei s >=? gs_allocSizei s then genericStack_grow genericStackp else mret true);
    if ok : bool then
      e ← (if decide (elementp = Null) then mret (Some Null)
           else genericStack_copyElement genericStackp elementp);
      match e with
      | None => mret 0
      | Some newElementp =>
        s ← load genericStackp;
        store_cell (gs_bufpp s) (gs_stackSizei s) newElementp;;
        store genericStackp (gs_set_size s (to_size_t (gs_stackSizei s + 1)));;
        mret 1
      end
    else mret 0.

Definition genericStack_popp (genericStackp : ptr) : M ptr :=
  if decide (genericStackp = Null) then mret Null
  else
    s ← load genericStackp;
    if gs_stackSizei s <=? 0 then
      report_stack s GENERICSTACK_ERROR_RUNTIME GENERICSTACK_ERROR_RUNTIME_STACK_EMPTY;;
      mret Null
    else
      value ← load_cell (gs_bufpp s) (gs_stackSizei s - 1);
      let s := gs_set_size s (gs_stackSizei s - 1) in
      store genericStackp s;;
      (if (to_size_t (gs_stackSizei s * 2) <=? gs_allocSizei s) && (gs_allocSizei s >=? 8) then
         let allocSizei := gs_allocSizei s / 2 in
         bufpp ← realloc_ptrs (gs_bufpp s) (to_size_t (allocSizei * sizeof_ptr));
         if decide (bufpp = Null) then mret tt
         else store genericStackp (gs_set_buf s bufpp allocSizei)
       else mret tt);;
      mret value.

(** [while (index >= allocSizei) genericStack_pushi(genericStackp, NULL)] *)
Fixpoint genericStack_growTo (fuel : nat) (genericStackp : ptr) (index : Z) : M unit :=
  s ← load genericStackp;
  if index >=? gs_allocSizei s then
    match fuel with
    | O => out_of_fuel
    | S fuel =>
      genericStack_pushi genericStackp Null;;
      genericStack_growTo fuel genericStackp index
    end
  else mret tt.

Definition genericStack_getp (fuel : nat) (genericStackp : ptr) (index : Z) : M ptr :=
  if decide (genericStackp = Null) then mret Null
  else
    s ← load genericStackp;
    (if (index >=? gs_allocSizei s) && (gs_optionGrowOnGeti s =? 1)
     then genericStack_growTo fuel genericStackp index else mret tt);;
    s ← load genericStackp;
    if (index >=? gs_stackSizei s) && negb (gs_optionGrowOnGeti s =? 1) then
      report_stack s GENERICSTACK_ERROR_RUNTIME GENERICSTACK_ERROR_RUNTIME_STACK_TOO_SMALL_GET;;
      mret Null
    else load_cell (gs_bufpp s) index.

Definition genericStack_seti (fuel : nat) (genericStackp : ptr) (index : Z) (elementp : ptr) : M Z :=
  let minStackSize := to_uint (index + 1) in
  if decide (genericStackp = Null) then mret 0
  else
    s ← load genericStackp;
    (if (index >=? gs_allocSizei s) && (gs_optionGrowOnSeti s =? 1)
     then genericStack_growTo fuel genericStackp index else mret tt);;
    s ← load genericStackp;
    if (index >=? gs_stackSizei s) && negb (gs_optionGrowOnSeti s =? 1) then
      report_stack s GENERICSTACK_ERROR_RUNTIME GENERICSTACK_ERROR_RUNTIME_STACK_TOO_SMALL_SET;;
      mret 0
    else
      old ← load_cell (gs_bufpp s) index;
      (if decide (old = Null) then mret tt
       else
         genericStack_freeElement genericStackp old;;
         s ← load genericStackp;
         store_cell (gs_bufpp s) index Null);;
      e ← (if decide (elementp = Null) then mret (Some Null)
           else genericStack_copyElement genericStackp elementp);
      match e with
      | None => mret 0
      | Some newElementp =>
        s ← load genericStackp;
        (if decide (elementp = Null) then mret tt
         else store_cell (gs_bufpp s) index newElementp);;
        (if gs_stackSizei s <? minStackSize
         then store genericStackp (gs_set_size s minStackSize) else mret tt);;
        mret 1
      end.

Definition genericStack_sizei (genericStackp : ptr) : M Z :=
  if decide (genericStackp = Null) then mret 0
  else s ← load genericStackp; mret (gs_stackSizei s).
End genericStack.
