(* ===== verification/StackSpec.v ===== *)
(** * What a generic stack denotes, and what its operations do to it

    [stack_rep] relates the blocks of a stack to the list of its cells' contents; the
    lemmas give the effect of each internal step of [GenericStack.v] on that list and on
    the footprint of the stack in the heap. *)
From S2P Require Import Prelude Types External Runtime GenericStack.

(** The content of a cell: a null pointer, or a copy of an element. *)
Abbreviation content := (option (list (init Byte.byte))).

Definition cell_holds (h : gmap positive obj) (c : ptr) (v : content) : Prop :=
  match v with
  | None => c = Null
  | Some bs => exists l, c = Loc l /\ h !! l = Some (OBytes bs)
  end.

(** The blocks a stack owns. *)
Definition footprint (lp lb : positive) (cells : list ptr) : list positive :=
  lp :: lb :: locs_of cells.

(** [cells] are the [allocSizei] pointers of the array and [vals] what they hold; [extra]
    are the cells the first array has in excess when elements are larger than a pointer. *)
Record stack_rep (h : gmap positive obj) (lp lb : positive) (s : genericStack)
    (cells : list ptr) (extra : list (init ptr)) (vals : list content) : Prop := {
  sr_struct : h !! lp = Some (OStack s);
  sr_buf : gs_bufpp s = Loc lb;
  sr_array : h !! lb = Some (OPtrs ((Init <$> cells) ++ extra));
  sr_alloc : gs_allocSizei s = Z.of_nat (length cells);
  sr_elems : Forall2 (cell_holds h) cells vals;
  sr_nodup : NoDup (footprint lp lb cells);
  sr_size : 0 <= gs_stackSizei s <= Z.of_nat (length cells);
  sr_spare : forall i, gs_stackSizei s <= Z.of_nat i -> vals !! i ≫= id = None;
  sr_some : (4 <= length cells)%nat
}.

(** Two structures with the same options. *)
Record same_options (s s' : genericStack) : Prop := {
  so_elementSizei : gs_elementSizei s' = gs_elementSizei s;
  so_grow_set : gs_optionGrowOnSeti s' = gs_optionGrowOnSeti s;
  so_grow_get : gs_optionGrowOnGeti s' = gs_optionGrowOnGeti s;
  so_free : gs_freeCallbackp s' = gs_freeCallbackp s;
  so_copy : gs_copyCallbackp s' = gs_copyCallbackp s;
  so_failure : gs_failureCallbackp s' = gs_failureCallbackp s
}.

#[export] Instance same_options_preorder : PreOrder same_options.
Proof. split; [by intros s | intros s1 s2 s3 [] []; split; congruence]. Qed.

(** Callbacks that leave the heap and libmarpa alone: elements without inner pointers,
    and failure reports that only log. *)
Class StackCallbacksNeutral `{StackCallbacks} : Prop := {
  call_failure_neutral : forall f e n ud, neutral (call_failure f e n ud);
  call_free_neutral : forall f p ud, neutral (call_free f p ud);
  call_copy_neutral : forall f d s ud, neutral (call_copy f d s ud)
}.

(** A pointer to an element, as the caller passes it. *)
Definition holds_element (h : gmap positive obj) (elementSizei : Z) (p : ptr) (v : content) : Prop :=
  match v with
  | None => p = Null
  | Some bs => exists l bs0, p = Loc l /\ h !! l = Some (OBytes bs0)
                 /\ (Z.to_nat elementSizei <= length bs0)%nat
                 /\ bs = take (Z.to_nat elementSizei) bs0
  end.

(** The allocation of the private copy of an element. *)
Definition fresh_content (h : gmap positive obj) (c : ptr) (v : content) (h1 : gmap positive obj) : Prop :=
  match v with
  | None => c = Null /\ h1 = h
  | Some bs => exists ln, c = Loc ln /\ h !! ln = None /\ h1 = <[ln := OBytes bs]> h
  end.

Section rep_lemmas.
Implicit Types (h : gmap positive obj).

Lemma cells_holds_frame h h' cells vals :
  Forall2 (cell_holds h) cells vals ->
  (forall l, l ∈ locs_of cells -> h' !! l = h !! l) ->
  Forall2 (cell_holds h') cells vals.
Proof.
  intros Hf Hl. eapply Forall2_impl with (P := fun c v => cell_holds h c v /\ c ∈ cells).
  - apply Forall2_same_length_lookup. apply Forall2_same_length_lookup in Hf as [Hlen Hf].
    split; [done|]. intros i c v Hc Hv. split; [by eapply Hf|by eapply list_elem_of_lookup_2].
  - intros c [bs|] [Hh Hc]; [|done]. destruct Hh as (l&->&Hl'). exists l. split; [done|].
    rewrite Hl; [done|]. by apply elem_of_locs_of.
Qed.

Lemma stack_rep_lookup h lp lb s cells extra vals i :
  stack_rep h lp lb s cells extra vals -> (i < length cells)%nat ->
  exists c v, cells !! i = Some c /\ vals !! i = Some v /\ cell_holds h c v
    /\ ((Init <$> cells) ++ extra) !! i = Some (Init c).
Proof.
  intros [] Hi. apply lookup_lt_is_Some in Hi as [c Hc].
  destruct (Forall2_lookup_l _ _ _ _ _ sr_elems0 Hc) as (v&Hv&Hh).
  exists c, v. split_and!; [done..|].
  rewrite lookup_app_l, list_lookup_fmap, Hc; [done|].
  rewrite length_fmap. by eapply lookup_lt_Some.
Qed.

Lemma stack_rep_length h lp lb s cells extra vals :
  stack_rep h lp lb s cells extra vals -> length vals = length cells.
Proof. intros []. symmetry. by eapply Forall2_length. Qed.

Lemma stack_rep_live h lp lb s cells extra vals l :
  stack_rep h lp lb s cells extra vals -> l ∈ footprint lp lb cells -> is_Some (h !! l).
Proof.
  intros [] Hl. unfold footprint in Hl. rewrite !elem_of_cons, elem_of_locs_of in Hl.
  destruct Hl as [->|[->|Hl]]; [eauto..|].
  apply list_elem_of_lookup in Hl as [i Hi].
  destruct (Forall2_lookup_l _ _ _ _ _ sr_elems0 Hi) as ([bs|]&_&Hh); [|done].
  destruct Hh as (?&[= <-]&?). eauto.
Qed.

Lemma footprint_insert lp lb cells i c c' :
  cells !! i = Some c ->
  footprint lp lb (<[i := c']> cells) ++ locs_of [c] ≡ₚ footprint lp lb cells ++ locs_of [c'].
Proof. intros Hi. unfold footprint. simpl. by rewrite (locs_of_insert _ _ c c') by done. Qed.

(** Storing a new element (or nothing) in an empty cell and extending the stack to it. *)
Lemma stack_rep_put h lp lb s cells extra vals i c v h1 n :
  stack_rep h lp lb s cells extra vals ->
  cells !! i = Some Null -> fresh_content h c v h1 ->
  Z.max (gs_stackSizei s) (Z.of_nat i + 1) = n ->
  let h' := <[lp := OStack (gs_set_size s n)]>
              (<[lb := OPtrs ((Init <$> <[i := c]> cells) ++ extra)]> h1) in
  stack_rep h' lp lb (gs_set_size s n) (<[i := c]> cells) extra (<[i := v]> vals)
  /\ reframe h (footprint lp lb cells) h' (footprint lp lb (<[i := c]> cells)).
Proof.
  intros Hr Hi Hf Hn h'. pose proof (stack_rep_length _ _ _ _ _ _ _ Hr) as Hlen.
  pose proof (footprint_insert lp lb cells i Null c Hi) as Hp.
  change (locs_of [Null]) with (@nil positive) in Hp. rewrite app_nil_r in Hp.
  pose proof (lookup_lt_Some _ _ _ Hi) as Hlt.
  assert (forall l, l ∈ footprint lp lb cells -> h1 !! l = h !! l) as Hold.
  { intros l Hl. destruct v as [bs|]; [|by destruct Hf as [_ ->]].
    destruct Hf as (ln&->&Hln&->). rewrite lookup_insert_ne; [done|]. intros ->.
    destruct (stack_rep_live _ _ _ _ _ _ _ _ Hr Hl). congruence. }
  assert (forall l, Loc l = c -> h !! l = None) as Hnew.
  { intros l <-. destruct v as [bs|]; [|by destruct Hf].
    by destruct Hf as (ln&[= ->]&?&_). }
  assert (lp <> lb) as Hne. { destruct Hr as [? ? ? ? ? Hnd]. inversion Hnd; set_solver. }
  assert (NoDup (footprint lp lb (<[i := c]> cells))) as Hnd.
  { rewrite Hp. apply NoDup_app. destruct Hr as [? ? ? ? ? Hnd ? ? ?]. split_and!; [done| |].
    - intros l Hl Hl'. apply elem_of_locs_of, list_elem_of_singleton in Hl'.
      destruct (stack_rep_live _ _ _ _ _ _ _ _ ltac:(split; eassumption) Hl).
      rewrite (Hnew l) in * by done. done.
    - destruct c; repeat constructor; set_solver. }
  destruct Hr as [Hs Hb Ha Hal He _ Hsz Hsp Hso]. split; [split|].
  - apply lookup_insert_eq.
  - done.
  - unfold h'. rewrite lookup_insert_ne by done. apply lookup_insert_eq.
  - simpl. by rewrite length_insert.
  - apply (cells_holds_frame h1).
    + apply Forall2_insert.
      * apply (cells_holds_frame h); [done|]. intros l Hl. apply Hold. unfold footprint. set_solver.
      * destruct v as [bs|]; [|by destruct Hf]. destruct Hf as (ln&->&Hln&->).
        exists ln. by rewrite lookup_insert_eq.
    + intros l Hl. unfold h', footprint in *. apply NoDup_cons in Hnd as [? Hnd].
      apply NoDup_cons in Hnd as [? _]. rewrite !lookup_insert_ne; set_solver.
  - done.
  - simpl. rewrite length_insert. lia.
  - intros j Hj. simpl in Hj. rewrite list_lookup_insert_ne by lia. apply Hsp. lia.
  - by rewrite length_insert.
  - split.
    + intros l Hl. rewrite Hp in Hl. apply not_elem_of_app in Hl as [Hl Hl'].
      rewrite delete_locs_lookup_ne by done. unfold footprint in Hl.
      apply not_elem_of_cons in Hl as [? Hl]. apply not_elem_of_cons in Hl as [? Hl].
      unfold h'. rewrite !lookup_insert_ne by done.
      destruct v as [bs|]; [|by destruct Hf as [_ ->]]. destruct Hf as (ln&->&Hln&->).
      rewrite lookup_insert_ne; [done|]. intros ->. apply Hl'. by apply elem_of_locs_of, list_elem_of_singleton.
    + intros l. rewrite Hp, elem_of_app, elem_of_locs_of, list_elem_of_singleton. naive_solver.
Qed.

(** Emptying a cell and releasing its element. *)
Lemma stack_rep_clear h lp lb s cells extra vals i le :
  stack_rep h lp lb s cells extra vals -> cells !! i = Some (Loc le) ->
  let h' := <[lb := OPtrs ((Init <$> <[i := Null]> cells) ++ extra)]> (delete le h) in
  stack_rep h' lp lb s (<[i := Null]> cells) extra (<[i := None]> vals)
  /\ reframe h (footprint lp lb cells) h' (footprint lp lb (<[i := Null]> cells))
  /\ le ∉ footprint lp lb (<[i := Null]> cells).
Proof.
  intros Hr Hi h'. pose proof (footprint_insert lp lb cells i (Loc le) Null Hi) as Hp.
  change (locs_of [Null]) with (@nil positive) in Hp. rewrite app_nil_r in Hp.
  change (locs_of [Loc le]) with [le] in Hp. pose proof (lookup_lt_Some _ _ _ Hi) as Hlt.
  pose proof (stack_rep_length _ _ _ _ _ _ _ Hr) as Hlen.
  destruct Hr as [Hs Hb Ha Hal He Hnd Hsz Hsp Hso].
  rewrite <- Hp in Hnd. apply NoDup_app in Hnd as (Hnd&Hdisj&_).
  assert (le ∉ footprint lp lb (<[i := Null]> cells)) as Hle by (intros ?; eapply Hdisj; set_solver).
  assert (lp <> lb /\ le <> lp /\ le <> lb /\ lb ∉ locs_of (<[i := Null]> cells)) as (?&?&?&Hlb).
  { unfold footprint in *. inversion Hnd as [|?? ? Hnd']; inversion Hnd'; subst. set_solver. }
  split_and!; [split|split|done].
  - unfold h'. by rewrite lookup_insert_ne, lookup_delete_ne by done.
  - done.
  - apply lookup_insert_eq.
  - by rewrite length_insert.
  - apply (cells_holds_frame h).
    + destruct (Forall2_lookup_l _ _ _ _ _ He Hi) as (v&Hv&_).
      apply Forall2_same_length_lookup. apply Forall2_same_length_lookup in He as [_ He].
      split; [by rewrite !length_insert|]. intros j c u Hc Hu.
      apply list_lookup_insert_Some in Hc. apply list_lookup_insert_Some in Hu. naive_solver.
    + intros l Hl. unfold h', footprint in *. rewrite lookup_insert_ne, lookup_delete_ne; set_solver.
  - done.
  - by rewrite length_insert.
  - intros j Hj. destruct (decide (i = j)) as [<-|].
    { rewrite list_lookup_insert_eq by lia. done. }
    rewrite list_lookup_insert_ne by done. by apply Hsp.
  - by rewrite length_insert.
  - intros l Hl. rewrite delete_locs_lookup. unfold h'.
    rewrite lookup_insert_ne by (unfold footprint in Hl; set_solver).
    destruct (decide (le = l)) as [->|].
    + rewrite lookup_delete_eq, decide_True; [done|]. rewrite <- Hp. set_solver.
    + rewrite lookup_delete_ne by done. rewrite decide_False; [done|]. rewrite <- Hp. set_solver.
  - intros l Hl. left. rewrite <- Hp. set_solver.
Qed.

(** Doubling the array. *)
Lemma stack_rep_double h lp lb s cells extra vals lb' :
  stack_rep h lp lb s cells extra vals -> h !! lb' = None ->
  let n := length cells in
  let s' := gs_set_buf s (Loc lb') (Z.of_nat (2 * n)) in
  let cells' := cells ++ replicate n Null in
  let h' := <[lp := OStack s']> (<[lb' := OPtrs (Init <$> cells')]> (delete lb h)) in
  stack_rep h' lp lb' s' cells' [] (vals ++ replicate n None)
  /\ reframe h (footprint lp lb cells) h' (footprint lp lb' cells').
Proof.
  intros Hr Hf n s' cells' h'.
  pose proof (stack_rep_length _ _ _ _ _ _ _ Hr) as Hlen.
  assert (locs_of cells' = locs_of cells) as Hlocs.
  { unfold cells'. rewrite locs_of_app.
    replace (locs_of (replicate n Null)) with (@nil positive); [by rewrite app_nil_r|].
    clear. by induction n. }
  assert (forall l, l ∈ footprint lp lb cells -> l <> lb') as Hfresh.
  { intros l Hl ->. destruct (stack_rep_live _ _ _ _ _ _ _ _ Hr Hl). congruence. }
  destruct Hr as [Hs Hb Ha Hal He Hnd Hsz Hsp Hso].
  assert (lp <> lb' /\ lb <> lb' /\ lb' ∉ locs_of cells) as (?&?&?).
  { unfold footprint in Hfresh. split_and!; [apply Hfresh; set_solver..|]. intros ?. eapply Hfresh; set_solver. }
  unfold footprint in *. apply NoDup_cons in Hnd as [Hlp Hnd]. apply NoDup_cons in Hnd as [Hlb Hnd].
  apply not_elem_of_cons in Hlp as [Hne Hlp].
  split; [split|split].
  - apply lookup_insert_eq.
  - done.
  - unfold h'. rewrite lookup_insert_ne, lookup_insert_eq by done. by rewrite app_nil_r.
  - simpl. unfold cells'. rewrite length_app, length_replicate. f_equal. lia.
  - apply Forall2_app.
    + apply (cells_holds_frame h); [done|]. intros l Hl. unfold h'.
      rewrite !lookup_insert_ne, lookup_delete_ne; [done|set_solver..].
    + apply Forall2_replicate. done.
  - unfold footprint. rewrite Hlocs. repeat constructor; set_solver.
  - simpl. unfold cells'. rewrite length_app. lia.
  - intros i Hi. simpl in Hi. destruct (decide (i < length vals)%nat).
    + rewrite lookup_app_l by done. by apply Hsp.
    + rewrite lookup_app_r by lia. destruct (replicate n None !! _) as [x|] eqn:E; [|done].
      apply lookup_replicate in E as [-> _]. done.
  - unfold cells'. rewrite length_app. lia.
  - intros l. rewrite Hlocs. intros Hl. apply not_elem_of_cons in Hl as [? Hl].
    apply not_elem_of_cons in Hl as [? Hl]. unfold h'. rewrite !lookup_insert_ne by done.
    rewrite delete_locs_lookup, lookup_delete.
    apply decide_ext. set_solver.
  - intros l. rewrite Hlocs. set_solver.
Qed.
End rep_lemmas.

(** ** The operations, under callbacks that leave the heap alone *)

(** The stack at [lp] holds [vals] (one per allocated cell) and owns the blocks [foot]. *)
Definition stack_at (h : gmap positive obj) (lp : positive) (s : genericStack)
    (vals : list content) (foot : list positive) : Prop :=
  exists lb cells extra, stack_rep h lp lb s cells extra vals /\ foot = footprint lp lb cells.

(** What is visible of a stack: its first [stackSizei] elements; any cell, by index. *)
Definition contents (s : genericStack) (vals : list content) : list content :=
  take (Z.to_nat (gs_stackSizei s)) vals.
Definition cell_at (vals : list content) (i : nat) : content := vals !! i ≫= id.

(** A step from [w] to [w'] that turned the stack [s], [vals] into [s'], [vals']. *)
Record stack_step `{Platform} (w : world) (lp : positive) (s : genericStack) (foot : list positive)
    (w' : world) (s' : genericStack) (vals' : list content) (foot' : list positive) : Prop := {
  ss_at : stack_at (heap w') lp s' vals' foot';
  ss_frame : reframe (heap w) foot (heap w') foot';
  ss_options : same_options s s';
  ss_quiet : quiet w w'
}.

Lemma stack_step_trans `{Platform} w lp s foot w1 s1 vals1 foot1 w2 s2 vals2 foot2 :
  stack_step w lp s foot w1 s1 vals1 foot1 -> stack_step w1 lp s1 foot1 w2 s2 vals2 foot2 ->
  stack_step w lp s foot w2 s2 vals2 foot2.
Proof. intros [] []. split; [done|by eapply reframe_trans|by etrans|by etrans]. Qed.

Lemma stack_at_alloc h lp s vals foot :
  stack_at h lp s vals foot ->
  gs_allocSizei s = Z.of_nat (length vals) /\ 0 <= gs_stackSizei s <= Z.of_nat (length vals)
  /\ (4 <= length vals)%nat /\ h !! lp = Some (OStack s)
  /\ forall i, gs_stackSizei s <= Z.of_nat i -> cell_at vals i = None.
Proof.
  intros (lb&cells&extra&Hr&->). rewrite (stack_rep_length _ _ _ _ _ _ _ Hr).
  destruct Hr. do 4 (split; [assumption|]). assumption.
Qed.

(** A stack's footprint has no block of bytes except its own copies. *)
Lemma stack_at_bytes h lp s vals foot l bs :
  stack_at h lp s vals foot -> h !! l = Some (OBytes bs) -> l <> lp.
Proof. intros (?&?&?&[]&_) ? ->. congruence. Qed.

Section ops.
Context `{StackCallbacksNeutral}.
Implicit Types (w : world).

Lemma neutral_report f e n ud : neutral (report f e n ud).
Proof. destruct f; [apply call_failure_neutral | apply neutral_ret]. Qed.

Lemma neutral_report_stack s e n : neutral (report_stack s e n).
Proof. apply neutral_report. Qed.

Lemma neutral_get_errno : neutral get_errno.
Proof. intros w. unfold wp, get_errno. split; [done|reflexivity]. Qed.

(** A callback whose non-zero status is reported. *)
Lemma wp_callback_status w lp s (m : M Z) e Q :
  heap w !! lp = Some (OStack s) -> neutral m ->
  (forall w', heap w' = heap w -> quiet w w' -> Q tt w') ->
  wp (errnum ← m; if errnum =? 0 then mret tt
      else s ← load (Loc lp); report_stack s e errnum) Q w.
Proof.
  intros Hl Hm HQ. apply wp_bind, wp_neutral; [done|]. intros n w1 Hh Hq.
  case_match; [apply wp_ret; auto|]. apply wp_bind. eapply wp_load; [by rewrite Hh|].
  apply wp_neutral; [apply neutral_report_stack|]. intros [] w2 Hh2 Hq2.
  apply HQ; [congruence|by etrans].
Qed.

Lemma wp_freeElement w lp s le o Q :
  heap w !! lp = Some (OStack s) -> heap w !! le = Some o ->
  (forall w', heap w' = delete le (heap w) -> quiet w w' -> Q tt w') ->
  wp (genericStack_freeElement (Loc lp) (Loc le)) Q w.
Proof.
  intros Hl Ho HQ. unfold genericStack_freeElement.
  apply wp_bind. eapply wp_load; [done|]. apply wp_bind.
  assert (forall w', heap w' = heap w -> quiet w w' -> wp (free (Loc le)) Q w') as Hfin.
  { intros w' Hh Hq. eapply wp_free; [by rewrite Hh|]. apply HQ; [simpl; by rewrite Hh|].
    etrans; [done|apply quiet_set_heap]. }
  destruct (gs_freeCallbackp s); [|apply wp_ret, Hfin; done].
  eapply wp_callback_status; [done|apply call_free_neutral|done].
Qed.

Lemma wp_copyElement w lp s le bs Q :
  no_oom w -> heap w !! lp = Some (OStack s) -> heap w !! le = Some (OBytes bs) ->
  (Z.to_nat (gs_elementSizei s) <= length bs)%nat ->
  (forall ln w', heap w !! ln = None ->
     heap w' = <[ln := OBytes (take (Z.to_nat (gs_elementSizei s)) bs)]> (heap w) ->
     quiet w w' -> Q (Some (Loc ln)) w') ->
  wp (genericStack_copyElement (Loc lp) (Loc le)) Q w.
Proof.
  intros Hn Hl Ho Hlen HQ. unfold genericStack_copyElement.
  apply wp_bind. eapply wp_load; [done|].
  apply wp_bind, wp_malloc_ok; [done|]. intros ln Hf Hn1.
  rewrite decide_False by done. set (w1 := alloc_at _ _ _) in *.
  assert (ln <> le /\ ln <> lp) as [??] by (split; congruence).
  apply wp_bind. unfold memcpy. apply wp_bind.
  eapply wp_load; [simpl; by rewrite lookup_insert_ne|]. apply wp_bind.
  eapply wp_load; [simpl; by rewrite lookup_insert_eq|].
  rewrite decide_True by (rewrite length_replicate; lia).
  eapply wp_store; [simpl; by rewrite lookup_insert_eq|].
  rewrite drop_replicate, Nat.sub_diag, app_nil_r.
  apply wp_bind. set (w2 := set_heap _ _).
  assert (heap w2 = <[ln := OBytes (take (Z.to_nat (gs_elementSizei s)) bs)]> (heap w)) as Hw2.
  { simpl. by rewrite insert_insert_eq. }
  assert (quiet w w2) as Hq2. { etrans; [apply quiet_alloc_at|apply quiet_set_heap]. }
  assert (forall w', heap w' = heap w2 -> quiet w2 w' -> wp (mret (Some (Loc ln))) Q w') as Hfin.
  { intros w' Hh Hq. apply wp_ret. apply HQ; [done|congruence|by etrans]. }
  destruct (gs_copyCallbackp s); [|apply wp_ret, Hfin; done].
  eapply (wp_callback_status _ lp s); [|apply call_copy_neutral|done].
  by rewrite Hw2, lookup_insert_ne.
Qed.

Lemma wp_grow w lp s vals foot Q :
  no_oom w -> stack_at (heap w) lp s vals foot -> Z.of_nat (length vals) <= 2 ^ 30 ->
  (forall w' s' foot', stack_step w lp s foot w' s' (vals ++ replicate (length vals) None) foot' ->
     gs_stackSizei s' = gs_stackSizei s ->
     (forall l bs, heap w !! l = Some (OBytes bs) -> heap w' !! l = Some (OBytes bs)) ->
     Q true w') ->
  wp (genericStack_grow (Loc lp)) Q w.
Proof.
  intros Hn (lb&cells&extra&Hr&->) Hlen HQ. pose proof (stack_rep_length _ _ _ _ _ _ _ Hr) as Hl.
  pose proof Hr as [Hs Hb Ha Hal He Hnd Hsz Hsp Hso].
  unfold genericStack_grow. apply wp_bind. eapply wp_load; [done|]. cbv zeta.
  assert (to_size_t (gs_allocSizei s * 2) = Z.of_nat (2 * length cells)) as Hdbl.
  { rewrite to_size_t_small; [lia|]. unfold is_size_t, SIZE_MOD. lia. }
  rewrite Hdbl, Hb. apply wp_bind. eapply wp_realloc_ptrs_ok; [done..|].
  intros lb' Hf o w1 Hn1. rewrite decide_False by done.
  assert (o = OPtrs ((Init <$> cells) ++ drop (length cells) (resize (2 * length cells) ((Init <$> cells) ++ extra)))) as Ho.
  { subst o. rewrite to_size_t_small by (unfold is_size_t, SIZE_MOD, sizeof_ptr; lia).
    rewrite Z.div_mul, Nat2Z.id by done. f_equal.
    rewrite <- (take_drop (length cells) (resize _ _)) at 1. f_equal.
    apply list_eq. intros i. destruct (decide (i < length cells)%nat).
    - rewrite lookup_take_lt, resize_lookup_lt by (rewrite ?length_app, ?length_fmap; lia).
      rewrite lookup_app_l; [done|]. by rewrite length_fmap.
    - rewrite !lookup_ge_None_2; [done|rewrite length_fmap; lia|rewrite length_take; lia]. }
  assert (lb <> lb' /\ lp <> lb' /\ lp <> lb) as (?&?&?).
  { split_and!; [congruence..|]. apply NoDup_cons in Hnd. set_solver. }
  apply wp_bind. rewrite Hal.
  replace (Z.to_nat _) with (length cells) by lia.
  eapply wp_mono; [eapply wp_fill_null|].
  { simpl. rewrite lookup_delete_ne, lookup_insert_eq by done. by rewrite Ho. }
  { rewrite length_app, length_fmap, length_drop, resize_length. lia. }
  intros _ w2 ->. apply wp_bind. eapply wp_store.
  { simpl. by rewrite lookup_insert_ne, lookup_delete_ne, lookup_insert_ne by done. }
  destruct (stack_rep_double _ _ _ _ _ _ _ lb' Hr Hf) as [Hr' Hfr].
  set (s' := gs_set_buf s (Loc lb') (Z.of_nat (2 * length cells))) in *.
  apply wp_ret. match goal with |- Q true ?w' => set (w3 := w') end.
  assert (heap w3 = <[lp := OStack s']> (<[lb' := OPtrs (Init <$> (cells ++ replicate (length cells) Null))]> (delete lb (heap w)))) as Hw3.
  { simpl. f_equal. rewrite delete_insert_ne, insert_insert_eq by done. do 2 f_equal.
    rewrite take_app_le by (rewrite length_fmap; lia).
    rewrite take_ge by (rewrite length_fmap; lia). rewrite fmap_app, fmap_replicate.
    rewrite (drop_ge _ (length cells + length cells)), app_nil_r; [done|].
    rewrite length_app, length_fmap, length_drop, resize_length. lia. }
  apply (HQ w3 s' (footprint lp lb' (cells ++ replicate (length cells) Null))).
  - split; [exists lb', (cells ++ replicate (length cells) Null), []|..].
    + split; [|done]. by rewrite Hw3, Hl.
    + by rewrite Hw3.
    + by split.
    + split; [done|]. by intros _.
  - done.
  - intros l bs Hlk. rewrite Hw3. rewrite !lookup_insert_ne, lookup_delete_ne; [done|..]; congruence.
Qed.

(** A caller's element that is not the structure itself survives the doubling. *)
Lemma holds_element_mono h h' n e v :
  (forall l bs, h !! l = Some (OBytes bs) -> h' !! l = Some (OBytes bs)) ->
  holds_element h n e v -> holds_element h' n e v.
Proof. destruct v as [bs|]; [|done]. intros Hm (l&bs0&->&?&?&?). exists l, bs0. eauto. Qed.

(** The private copy of the element, or nothing for [NULL]. *)
Lemma wp_newElement w lp s e v Q :
  no_oom w -> heap w !! lp = Some (OStack s) -> holds_element (heap w) (gs_elementSizei s) e v ->
  (forall c w', fresh_content (heap w) c v (heap w') -> (e = Null -> c = Null) -> quiet w w' ->
     Q (Some c) w') ->
  wp (if decide (e = Null) then mret (Some Null) else genericStack_copyElement (Loc lp) e) Q w.
Proof.
  intros Hn Hl He HQ. destruct v as [bs|].
  - destruct He as (l&bs0&->&Hlk&Hlen&->). rewrite decide_False by done.
    eapply wp_copyElement; [done..|]. intros ln w' Hf Hh Hq. apply HQ; [|done|done].
    exists ln. done.
  - simpl in He. subst e. rewrite decide_True by done. apply wp_ret, HQ; [by split|done|done].
Qed.

Lemma fresh_content_lookup h c v h1 l o :
  fresh_content h c v h1 -> h !! l = Some o -> h1 !! l = Some o.
Proof.
  destruct v as [bs|]; [|intros [_ ->]; done]. intros (ln&_&Hf&->) Hl.
  rewrite lookup_insert_ne; [done|congruence].
Qed.

(** Writing [c] (which holds [v]) in the empty cell [i] and extending the stack to [n]
    elements, as [pushi] and [seti] end. *)
Lemma stack_at_put h lp s vals foot i n c v h1 :
  stack_at h lp s vals foot -> (i < length vals)%nat -> cell_at vals i = None ->
  fresh_content h c v h1 -> Z.max (gs_stackSizei s) (Z.of_nat i + 1) = n ->
  exists lb arr, gs_bufpp s = Loc lb /\ lp <> lb /\ h1 !! lp = Some (OStack s)
    /\ h1 !! lb = Some (OPtrs arr) /\ arr !! i = Some (Init Null)
    /\ exists foot',
        let h' := <[lp := OStack (gs_set_size s n)]> (<[lb := OPtrs (<[i := Init c]> arr)]> h1) in
        stack_at h' lp (gs_set_size s n) (<[i := v]> vals) foot' /\ reframe h foot h' foot'.
Proof.
  intros (lb&cells&extra&Hr&->) Hi Hc Hf Hn.
  pose proof (stack_rep_length _ _ _ _ _ _ _ Hr) as Hlen.
  destruct (stack_rep_lookup _ _ _ _ _ _ _ i Hr) as (c0&v0&Hc0&Hv0&Hh0&Ha0); [lia|].
  unfold cell_at in Hc. rewrite Hv0 in Hc. simpl in Hc. unfold id in Hc. subst v0.
  simpl in Hh0. subst c0.
  destruct (stack_rep_put _ _ _ _ _ _ _ i c v h1 n Hr Hc0 Hf Hn) as [Hr' Hfr].
  pose proof Hr as [Hs Hb Ha Hal He Hnd Hsz Hsp Hso].
  exists lb, ((Init <$> cells) ++ extra).
  split_and!; [done| | | |done|].
  - apply NoDup_cons in Hnd. set_solver.
  - by eapply fresh_content_lookup.
  - by eapply fresh_content_lookup.
  - exists (footprint lp lb (<[i := c]> cells)). cbv zeta.
    rewrite insert_app_l by (rewrite length_fmap; lia). rewrite <- list_fmap_insert.
    split; [|done]. exists lb, (<[i := c]> cells), extra. done.
Qed.

Lemma wp_pushi w lp s vals foot e v Q :
  no_oom w -> stack_at (heap w) lp s vals foot ->
  Z.of_nat (length vals) <= 2 ^ 31 -> gs_stackSizei s <= 2 ^ 30 ->
  holds_element (heap w) (gs_elementSizei s) e v ->
  (forall w' s' foot' k,
     let n := Z.to_nat (gs_stackSizei s) in
     stack_step w lp s foot w' s' (<[n := v]> (vals ++ replicate k None)) foot' ->
     gs_stackSizei s' = gs_stackSizei s + 1 ->
     k = 0%nat /\ (n < length vals)%nat \/ k = length vals /\ n = length vals ->
     Q 1 w') ->
  wp (genericStack_pushi (Loc lp) e) Q w.
Proof.
  intros Hn Hat Hlen Hsz30 He HQ. pose proof (stack_at_alloc _ _ _ _ _ Hat) as (Hal&Hsz&Hso&Hs&Hsp).
  unfold genericStack_pushi. rewrite decide_False by done.
  apply wp_bind. eapply wp_load; [done|]. apply wp_bind.
  assert (forall w1 s1 foot1 k, stack_step w lp s foot w1 s1 (vals ++ replicate k None) foot1 ->
    gs_stackSizei s1 = gs_stackSizei s -> holds_element (heap w1) (gs_elementSizei s1) e v ->
    k = 0%nat /\ gs_stackSizei s < Z.of_nat (length vals) \/ k = length vals /\ gs_stackSizei s = Z.of_nat (length vals) ->
    wp (e ← (if decide (e = Null) then mret (Some Null)
           else genericStack_copyElement (Loc lp) e);
      match e with
      | None => mret 0
      | Some newElementp =>
        s ← load (Loc lp);
        store_cell (gs_bufpp s) (gs_stackSizei s) newElementp;;
        store (Loc lp) (gs_set_size s (to_size_t (gs_stackSizei s + 1)));;
        mret 1
      end) Q w1) as Hrest.
  { intros w1 s1 foot1 k Hst Hsz1 He1 Hk. pose proof Hst as [Hat1 Hfr1 Hop1 [_ Hq1]].
    pose proof (stack_at_alloc _ _ _ _ _ Hat1) as (Hal1&Hsz1'&_&Hs1&Hsp1).
    apply wp_bind. eapply (wp_newElement _ _ s1 _ v); [auto|done|done|].
    intros c w2 Hf _ Hq2. set (n := Z.to_nat (gs_stackSizei s)).
    rewrite length_app, length_replicate in *.
    destruct (stack_at_put _ _ _ _ _ n (gs_stackSizei s + 1) c v _ Hat1 ltac:(rewrite length_app, length_replicate; lia)
      (Hsp1 n ltac:(lia)) Hf ltac:(lia)) as (lb&arr&Hb&Hne&Hl&Ha&Hai&foot'&Hat'&Hfr').
    apply wp_bind. eapply wp_load; [done|]. rewrite Hb, Hsz1. apply wp_bind.
    eapply wp_store_cell; [done|..]. { apply lookup_lt_Some in Hai. lia. }
    apply wp_bind. eapply wp_store; [simpl; by rewrite lookup_insert_ne by done|].
    apply wp_ret. rewrite to_size_t_small by (unfold is_size_t, SIZE_MOD; lia).
    eapply (HQ _ (gs_set_size s1 (gs_stackSizei s + 1)) foot' k); [|done|lia].
    eapply stack_step_trans; [done|]. split; [exact Hat'|exact Hfr'|by split|].
    by etrans. }
  destruct (gs_stackSizei s >=? gs_allocSizei s) eqn:E; rewrite Z.geb_leb in E; Zbool.
  - eapply wp_grow; [done|done|lia|]. intros w1 s1 foot1 Hst Hsz1 Hm.
    eapply (Hrest _ _ _ (length vals)); [done|done| |lia].
    rewrite (so_elementSizei _ _ (ss_options _ _ _ _ _ _ _ _ Hst)). by eapply holds_element_mono.
  - apply wp_ret. apply (Hrest w s foot 0%nat); [|done|done|lia].
    simpl. rewrite app_nil_r. split; [done|apply reframe_refl|done|done].
Qed.

Lemma cell_at_insert vals i v j :
  (i < length vals)%nat -> cell_at (<[i := v]> vals) j = if decide (i = j) then v else cell_at vals j.
Proof.
  intros Hi. unfold cell_at. case_decide; [subst; by rewrite list_lookup_insert_eq|].
  by rewrite list_lookup_insert_ne.
Qed.

Lemma cell_at_pad vals k j : cell_at (vals ++ replicate k None) j = cell_at vals j.
Proof.
  unfold cell_at. destruct (decide (j < length vals)%nat); [by rewrite lookup_app_l|].
  rewrite lookup_app_r, (lookup_ge_None_2 vals) by lia.
  destruct (replicate k None !! _) as [x|] eqn:E; [|done]. by apply lookup_replicate in E as [-> _].
Qed.

Lemma stack_step_refl w lp s vals foot :
  stack_at (heap w) lp s vals foot -> stack_step w lp s foot w s vals foot.
Proof. split; [done|apply reframe_refl|done|done]. Qed.

(** The growth loop of [getp] and [seti]: it pushes null elements until the cell exists,
    which changes no content. *)
Lemma wp_growTo fuel w lp s vals foot index Q :
  no_oom w -> stack_at (heap w) lp s vals foot -> Z.of_nat (length vals) <= 2 ^ 31 ->
  0 <= index < 2 ^ 30 -> (Z.to_nat (index + 1 - gs_stackSizei s) <= fuel)%nat ->
  (forall w' s' vals' foot', stack_step w lp s foot w' s' vals' foot' ->
     (forall i, cell_at vals' i = cell_at vals i) ->
     gs_stackSizei s <= gs_stackSizei s' <= Z.max (gs_stackSizei s) (index + 1) ->
     index < Z.of_nat (length vals') <= 2 ^ 31 -> Q tt w') ->
  wp (genericStack_growTo fuel (Loc lp) index) Q w.
Proof.
  revert w s vals foot. induction fuel as [|fuel IH]; intros w s vals foot Hn Hat Hlen Hi Hfu HQ.
  all: pose proof (stack_at_alloc _ _ _ _ _ Hat) as (Hal&Hsz&Hso&Hs&Hsp).
  all: simpl; apply wp_bind; eapply wp_load; [done|].
  all: destruct (index >=? gs_allocSizei s) eqn:E; rewrite Z.geb_leb in E; Zbool.
  1: lia.
  1, 3: apply wp_ret; eapply HQ; [by apply stack_step_refl|done|lia|lia].
  apply wp_bind. eapply (wp_pushi _ _ s vals foot Null None); [done|done|lia|lia|done|].
  intros w1 s1 foot1 k n Hst Hsz1 Hk.
  assert (n < length (vals ++ replicate k None))%nat as Hnl.
  { rewrite length_app, length_replicate. lia. }
  pose proof Hst as [Hat1 _ _ [_ Hq1]]. eapply IH; [auto|done| |done|lia|].
  { rewrite length_insert, length_app, length_replicate. lia. }
  intros w2 s2 vals2 foot2 Hst2 Hc2 Hs2 Hl2. eapply HQ; [by eapply stack_step_trans| |lia|done].
  intros i. rewrite Hc2, cell_at_insert, cell_at_pad by done.
  case_decide; [|done]. subst i. symmetry. apply Hsp. lia.
Qed.

(** [if (index >= allocSizei && optionGrow == 1) while (...) pushi(NULL)] *)
Lemma wp_maybe_growTo fuel w lp s vals foot index (flag : Z) Q :
  no_oom w -> stack_at (heap w) lp s vals foot -> Z.of_nat (length vals) <= 2 ^ 31 ->
  0 <= index < 2 ^ 30 -> (Z.to_nat (index + 1) <= fuel)%nat ->
  flag = 1 \/ index < gs_stackSizei s ->
  (forall w' s' vals' foot', stack_step w lp s foot w' s' vals' foot' ->
     (forall i, cell_at vals' i = cell_at vals i) ->
     gs_stackSizei s <= gs_stackSizei s' <= Z.max (gs_stackSizei s) (index + 1) ->
     index < Z.of_nat (length vals') <= 2 ^ 31 -> Q tt w') ->
  wp (if (index >=? gs_allocSizei s) && (flag =? 1)
      then genericStack_growTo fuel (Loc lp) index else mret tt) Q w.
Proof.
  intros Hn Hat Hlen Hi Hfu Hfl HQ. pose proof (stack_at_alloc _ _ _ _ _ Hat) as (Hal&Hsz&_).
  destruct (_ && _) eqn:E.
  - eapply wp_growTo; [done..|lia|done].
  - apply wp_ret. eapply HQ; [by apply stack_step_refl|done|lia|].
    apply andb_false_iff in E as [E|E]; [rewrite Z.geb_leb in E|]; Zbool; lia.
Qed.

(** The index check that follows: it lets the access through. *)
Lemma index_allowed (index size flag : Z) :
  flag = 1 \/ index < size -> (index >=? size) && negb (flag =? 1) = false.
Proof.
  intros [->|?]; [by rewrite andb_false_r|]. apply andb_false_iff. left.
  rewrite Z.geb_leb. apply Z.leb_gt. done.
Qed.

Lemma wp_getp fuel w lp s vals foot index Q :
  no_oom w -> stack_at (heap w) lp s vals foot -> Z.of_nat (length vals) <= 2 ^ 31 ->
  0 <= index < 2 ^ 30 -> (Z.to_nat (index + 1) <= fuel)%nat ->
  gs_optionGrowOnGeti s = 1 \/ index < gs_stackSizei s ->
  (forall c w' s' vals' foot', stack_step w lp s foot w' s' vals' foot' ->
     (forall i, cell_at vals' i = cell_at vals i) ->
     gs_stackSizei s <= gs_stackSizei s' <= Z.max (gs_stackSizei s) (index + 1) ->
     index < Z.of_nat (length vals') <= 2 ^ 31 ->
     cell_holds (heap w') c (cell_at vals (Z.to_nat index)) ->
     (forall l, c = Loc l -> l ∈ foot') -> Q c w') ->
  wp (genericStack_getp fuel (Loc lp) index) Q w.
Proof.
  intros Hn Hat Hlen Hi Hfu Hfl HQ. pose proof (stack_at_alloc _ _ _ _ _ Hat) as (_&_&_&Hs&_).
  unfold genericStack_getp. rewrite decide_False by done.
  apply wp_bind. eapply wp_load; [done|]. apply wp_bind.
  eapply wp_maybe_growTo; [done..|]. intros w1 s1 vals1 foot1 Hst Hc Hs1 Hl1.
  pose proof Hst as [Hat1 _ Hop _]. pose proof (stack_at_alloc _ _ _ _ _ Hat1) as (_&_&_&Hls1&_).
  apply wp_bind. eapply wp_load; [done|].
  rewrite index_allowed by (rewrite (so_grow_get _ _ Hop); lia).
  destruct Hat1 as (lb&cells&extra&Hr&->).
  destruct (stack_rep_lookup _ _ _ _ _ _ _ (Z.to_nat index) Hr) as (c&v&Hcc&Hv&Hh&Ha).
  { rewrite <- (stack_rep_length _ _ _ _ _ _ _ Hr). lia. }
  rewrite (sr_buf _ _ _ _ _ _ _ Hr). eapply wp_load_cell; [by eapply sr_array|lia|done|].
  eapply HQ; [done|done|done|done| |].
  - rewrite <- Hc. unfold cell_at. by rewrite Hv.
  - intros l ->. unfold footprint. rewrite !elem_of_cons, elem_of_locs_of. right; right.
    by eapply list_elem_of_lookup_2.
Qed.

(** The first part of [seti]: the old element of the cell, if any, is released. *)
Lemma wp_clearCell w lp s vals foot i Q :
  stack_at (heap w) lp s vals foot -> (i < length vals)%nat ->
  (forall w' foot', stack_step w lp s foot w' s (<[i := None]> vals) foot' ->
     (forall l bs, heap w !! l = Some (OBytes bs) -> l ∉ foot -> heap w' !! l = Some (OBytes bs)) -> Q tt w') ->
  wp (old ← load_cell (gs_bufpp s) (Z.of_nat i);
      if decide (old = Null) then mret tt
      else genericStack_freeElement (Loc lp) old;;
           s ← load (Loc lp); store_cell (gs_bufpp s) (Z.of_nat i) Null) Q w.
Proof.
  intros Hat Hi HQ. pose proof Hat as (lb&cells&extra&Hr&Hfoot).
  pose proof (stack_rep_length _ _ _ _ _ _ _ Hr) as Hlen.
  destruct (stack_rep_lookup _ _ _ _ _ _ _ i Hr) as (c&v&Hc&Hv&Hh&Ha); [lia|].
  pose proof Hr as [Hs Hb Harr _ _ Hnd _ _ _]. rewrite Hb.
  apply wp_bind. eapply wp_load_cell; [done|lia|by rewrite Nat2Z.id|].
  destruct (decide (c = Null)) as [->|Hcn].
  { apply wp_ret. destruct v as [bs|]; [by destruct Hh as (?&?&?)|].
    apply (HQ w foot); [|by intros]. rewrite list_insert_id by done. by apply stack_step_refl. }
  destruct v as [bs|]; [|done]. destruct Hh as (le&->&Hle).
  destruct (stack_rep_clear _ _ _ _ _ _ _ _ _ Hr Hc) as (Hr'&Hfr&Hnot).
  apply wp_bind. eapply wp_freeElement; [done..|]. intros w1 Hw1 Hq1.
  assert (le <> lp /\ le <> lb) as [??].
  { unfold footprint in Hnot. set_solver. }
  apply wp_bind. eapply wp_load; [by rewrite Hw1, lookup_delete_ne|]. rewrite Hb.
  eapply wp_store_cell; [by rewrite Hw1, lookup_delete_ne|..].
  { apply lookup_lt_Some in Ha. lia. }
  rewrite Nat2Z.id, Hw1, insert_app_l by (rewrite length_fmap; lia).
  rewrite <- list_fmap_insert. eapply HQ.
  - rewrite Hfoot. split; [by exists lb, (<[i := Null]> cells), extra|done|done|].
    etrans; [done|apply quiet_set_heap].
  - intros l bs' Hl Hlf. simpl. eapply reframe_lookup; [done|done|]. by rewrite <- Hfoot.
Qed.

Lemma gs_set_size_id s : gs_set_size s (gs_stackSizei s) = s.
Proof. by destruct s. Qed.

(** The last part of [seti], on an empty cell. *)
Lemma wp_seti_store w lp s vals foot i e v Q :
  no_oom w -> stack_at (heap w) lp s vals foot -> (i < length vals)%nat -> Z.of_nat i < 2 ^ 30 ->
  cell_at vals i = None -> holds_element (heap w) (gs_elementSizei s) e v ->
  (forall w' s' foot', stack_step w lp s foot w' s' (<[i := v]> vals) foot' ->
     gs_stackSizei s' = Z.max (gs_stackSizei s) (Z.of_nat i + 1) -> Q 1 w') ->
  wp (e' ← (if decide (e = Null) then mret (Some Null) else genericStack_copyElement (Loc lp) e);
      match e' with
      | None => mret 0
      | Some newElementp =>
        s ← load (Loc lp);
        (if decide (e = Null) then mret tt else store_cell (gs_bufpp s) (Z.of_nat i) newElementp);;
        (if gs_stackSizei s <? to_uint (Z.of_nat i + 1)
         then store (Loc lp) (gs_set_size s (to_uint (Z.of_nat i + 1))) else mret tt);;
        mret 1
      end) Q w.
Proof.
  intros Hn Hat Hi Hi30 Hc He HQ. pose proof (stack_at_alloc _ _ _ _ _ Hat) as (_&_&_&Hs&_).
  rewrite to_uint_small by (unfold UINT_MOD; lia).
  apply wp_bind. eapply wp_newElement; [done..|]. intros c w1 Hf Hnull Hq1.
  set (n := Z.max (gs_stackSizei s) (Z.of_nat i + 1)) in *.
  destruct (stack_at_put _ _ _ _ _ i n c v _ Hat Hi Hc Hf eq_refl)
    as (lb&arr&Hb&Hne&Hls&Hlb&Hai&foot'&Hat'&Hfr').
  apply wp_bind. eapply wp_load; [done|]. apply wp_bind. rewrite Hb.
  assert (forall w2, heap w2 = <[lb := OPtrs (<[i := Init c]> arr)]> (heap w1) -> quiet w1 w2 ->
    wp ((if gs_stackSizei s <? Z.of_nat i + 1
         then store (Loc lp) (gs_set_size s (Z.of_nat i + 1)) else mret tt);; mret 1) Q w2) as Hend.
  { intros w2 Hw2 Hq2. apply wp_bind.
    assert (forall w3, heap w3 = <[lp := OStack (gs_set_size s n)]> (heap w2) -> quiet w2 w3 -> Q 1 w3) as HQ3.
    { intros w3 Hw3 Hq3. eapply (HQ w3 (gs_set_size s n) foot'); [|done].
      split; [by rewrite Hw3, Hw2|by rewrite Hw3, Hw2|by split|].
      etrans; [done|]. by etrans. }
    destruct (_ <? _) eqn:E; Zbool.
    - replace (Z.of_nat i + 1) with n by lia. eapply wp_store.
      { rewrite Hw2, lookup_insert_ne by done. done. }
      apply wp_ret, HQ3; [done|apply quiet_set_heap].
    - apply wp_ret, wp_ret, HQ3; [|done]. replace n with (gs_stackSizei s) by lia.
      rewrite gs_set_size_id, insert_id; [done|]. by rewrite Hw2, lookup_insert_ne. }
  destruct (decide (e = Null)) as [Hen|].
  - apply wp_ret, Hend; [|done]. rewrite (Hnull Hen), list_insert_id by done.
    by rewrite insert_id.
  - eapply wp_store_cell; [done|..]. { apply lookup_lt_Some in Hai. lia. }
    rewrite Nat2Z.id. apply Hend; [done|apply quiet_set_heap].
Qed.

Lemma wp_seti fuel w lp s vals foot index e v Q :
  no_oom w -> stack_at (heap w) lp s vals foot -> Z.of_nat (length vals) <= 2 ^ 31 ->
  0 <= index < 2 ^ 30 -> (Z.to_nat (index + 1) <= fuel)%nat ->
  gs_optionGrowOnSeti s = 1 \/ index < gs_stackSizei s ->
  holds_element (heap w) (gs_elementSizei s) e v -> (forall l, e = Loc l -> l ∉ foot) ->
  (forall w' s' vals' foot', stack_step w lp s foot w' s' vals' foot' ->
     (forall i, cell_at vals' i = if decide (i = Z.to_nat index) then v else cell_at vals i) ->
     gs_stackSizei s' = Z.max (gs_stackSizei s) (index + 1) ->
     Z.of_nat (length vals') <= 2 ^ 31 -> Q 1 w') ->
  wp (genericStack_seti fuel (Loc lp) index e) Q w.
Proof.
  intros Hn Hat Hlen Hi Hfu Hfl He Hel HQ. pose proof (stack_at_alloc _ _ _ _ _ Hat) as (_&_&_&Hs&_).
  unfold genericStack_seti. rewrite decide_False by done.
  apply wp_bind. eapply wp_load; [done|]. apply wp_bind.
  eapply wp_maybe_growTo; [done..|]. intros w1 s1 vals1 foot1 Hst Hc Hs1 Hl1.
  pose proof Hst as [Hat1 Hfr1 Hop [_ Hq1]]. pose proof (stack_at_alloc _ _ _ _ _ Hat1) as (_&_&_&Hls1&_).
  assert (holds_element (heap w1) (gs_elementSizei s1) e v /\ forall l, e = Loc l -> l ∉ foot1) as [He1 Hel1].
  { rewrite (so_elementSizei _ _ Hop). destruct v as [bs|]; [|by simpl in He; subst e].
    destruct He as (l&bs0&->&Hlk&?&?). split.
    - exists l, bs0. split_and!; [done| |done|done]. eapply reframe_lookup; [done..|by apply Hel].
    - intros ? [= <-] Hin. destruct (reframe_new _ _ _ _ Hfr1 _ Hin); [by eapply Hel|congruence]. }
  apply wp_bind. eapply wp_load; [done|].
  rewrite index_allowed by (rewrite (so_grow_set _ _ Hop); lia).
  set (i := Z.to_nat index). replace index with (Z.of_nat i) by lia.
  apply wp_bind_assoc. eapply (wp_clearCell _ _ _ _ _ i); [done|lia|].
  intros w2 foot2 Hst2 Hb2. pose proof Hst2 as [Hat2 Hfr2 _ [_ Hq2]].
  eapply (wp_seti_store _ _ _ _ _ _ e v); [auto|done|rewrite length_insert; lia|lia| | |].
  { rewrite cell_at_insert, decide_True by (done || lia). done. }
  { destruct v as [bs|]; [|exact He1]. destruct He1 as (l&bs0&->&Hlk&?&?).
    exists l, bs0. split_and!; [done| |done|done]. apply Hb2; [done|by apply Hel1]. }
  intros w3 s3 foot3 Hst3 Hsz3. eapply HQ.
  - eapply stack_step_trans; [done|]. by eapply stack_step_trans.
  - intros j. rewrite !cell_at_insert, Hc by (rewrite ?length_insert; lia).
    subst i. repeat case_decide; congruence.
  - lia.
  - rewrite !length_insert. lia.
Qed.
End ops.
