(* ===== verification/StackTheorems.v ===== *)
(** * Properties of the generic stack

    Stated on the contents a stack denotes ([StackSpec.v]); [StackCallbacksNeutral] is the
    interface the callbacks promise. *)
From S2P Require Import Prelude Types External Runtime GenericStack StackSpec Demo.

(** ** The abstract stack: an unbounded array of contents and a size *)

Inductive stack_op : Type :=
| OpPush (e : ptr) (v : content)
| OpGet (index : Z)
| OpSet (index : Z) (e : ptr) (v : content)
| OpSize.

(** What a call hands back: a status, or the content behind the returned pointer. *)
Inductive op_result : Type :=
| RStatus (n : Z)
| RContent (v : content).

Record astack : Type := AStack { as_cells : nat -> content; as_size : Z }.

Definition acells_set (f : nat -> content) (i : nat) (v : content) : nat -> content :=
  fun j => if decide (j = i) then v else f j.

(** With both growth options on.  A [get] beyond the array may raise the size. *)
Inductive astep : stack_op -> astack -> op_result -> astack -> Prop :=
| astep_push e v f n :
    astep (OpPush e v) (AStack f n) (RStatus 1) (AStack (acells_set f (Z.to_nat n) v) (n + 1))
| astep_get i f n n' :
    n <= n' <= Z.max n (i + 1) ->
    astep (OpGet i) (AStack f n) (RContent (f (Z.to_nat i))) (AStack f n')
| astep_set i e v f n :
    astep (OpSet i e v) (AStack f n) (RStatus 1)
      (AStack (acells_set f (Z.to_nat i) v) (Z.max n (i + 1)))
| astep_size f n :
    astep OpSize (AStack f n) (RStatus n) (AStack f n).

Inductive asteps : list stack_op -> astack -> list op_result -> astack -> Prop :=
| asteps_nil a : asteps [] a [] a
| asteps_cons op ops a r b rs c :
    astep op a r b -> asteps ops b rs c -> asteps (op :: ops) a (r :: rs) c.

Section run.
Context `{StackCallbacks}.

(** The calls, with the content behind a returned pointer read off the heap. *)
Definition content_of (p : ptr) : M content :=
  match p with
  | Null => mret None
  | _ => bs ← load (A := list (init Byte.byte)) p; mret (Some bs)
  end.

Definition run_op (fuel : nat) (stackp : ptr) (op : stack_op) : M op_result :=
  match op with
  | OpPush e _ => n ← genericStack_pushi stackp e; mret (RStatus n)
  | OpGet i => p ← genericStack_getp fuel stackp i; c ← content_of p; mret (RContent c)
  | OpSet i e _ => n ← genericStack_seti fuel stackp i e; mret (RStatus n)
  | OpSize => n ← genericStack_sizei stackp; mret (RStatus n)
  end.

Fixpoint run_ops (fuel : nat) (stackp : ptr) (ops : list stack_op) : M (list op_result) :=
  match ops with
  | [] => mret []
  | op :: ops => r ← run_op fuel stackp op; rs ← run_ops fuel stackp ops; mret (r :: rs)
  end.
End run.

(** The arguments of a sequence of calls: elements of the caller, indices in range. *)
Definition op_ok (h : gmap positive obj) (elementSizei : Z) (foot : list positive) (op : stack_op) : Prop :=
  match op with
  | OpPush e v => holds_element h elementSizei e v /\ forall l, e = Loc l -> l ∉ foot
  | OpGet i => 0 <= i < 2 ^ 29
  | OpSet i e v => 0 <= i < 2 ^ 29 /\ holds_element h elementSizei e v /\ forall l, e = Loc l -> l ∉ foot
  | OpSize => True
  end.

(** The concrete stack at [lp] stands for the abstract one. *)
Record abstracts (h : gmap positive obj) (lp : positive) (foot : list positive) (s : genericStack) (a : astack) : Prop := {
  ab_vals : exists vals, stack_at h lp s vals foot /\ Z.of_nat (length vals) <= 2 ^ 31
              /\ forall i, cell_at vals i = as_cells a i;
  ab_size : gs_stackSizei s = as_size a
}.

(** The visible part of a stack some of whose spare cells are not empty. *)
Definition stack_view (h : gmap positive obj) (lp : positive) (s : genericStack) (vals : list content) : Prop :=
  h !! lp = Some (OStack s) /\ gs_stackSizei s = Z.of_nat (length vals)
  /\ exists lb arr, gs_bufpp s = Loc lb /\ h !! lb = Some (OPtrs arr)
       /\ forall i v, vals !! i = Some v -> exists c, arr !! i = Some (Init c) /\ cell_holds h c v.

Lemma grow_flag_spec optionp k :
  0 <= k ->
  grow_flag optionp (2 ^ k) = 1 <-> exists o, optionp = Some o /\ Z.testbit (gso_growFlags o) k = true.
Proof.
  intros Hk. unfold grow_flag. destruct optionp as [o|]; [|split; [done|by intros (?&?&_)]].
  rewrite land_pow2_eqb by done. destruct (Z.testbit (gso_growFlags o) k) eqn:E.
  - split; [|done]. intros _. by exists o.
  - split; [done|]. intros (?&[= <-]&?). congruence.
Qed.

Section lemmas.
Context `{StackCallbacksNeutral}.
Implicit Types (w : world).

Lemma stack_at_view h lp s vals foot :
  stack_at h lp s vals foot -> stack_view h lp s (contents s vals).
Proof.
  intros Hat. pose proof (stack_at_alloc _ _ _ _ _ Hat) as (_&Hsz&_&Hs&_).
  destruct Hat as (lb&cells&extra&Hr&->). split_and!; [done| |].
  { unfold contents. rewrite length_take. lia. }
  exists lb, ((Init <$> cells) ++ extra). split_and!; [by apply Hr..|].
  intros i v Hi. unfold contents in Hi. apply lookup_take_Some in Hi as [Hi ?].
  pose proof (stack_rep_length _ _ _ _ _ _ _ Hr).
  destruct (stack_rep_lookup _ _ _ _ _ _ _ i Hr) as (c&v'&?&Hv&?&?).
  { apply lookup_lt_Some in Hi. lia. }
  assert (v' = v) as -> by congruence. eauto.
Qed.

(** The first [n] rounds of the loop of [genericStack_destroyv]. *)
Lemma wp_destroy_prefix n w lp lb s cells extra :
  heap w !! lp = Some (OStack s) -> gs_bufpp s = Loc lb ->
  heap w !! lb = Some (OPtrs ((Init <$> cells) ++ extra)) -> (n <= length cells)%nat ->
  NoDup (footprint lp lb (take n cells)) ->
  (forall l, l ∈ locs_of (take n cells) -> is_Some (heap w !! l)) ->
  (forall p, p ∈ cells -> p = Null \/ exists l, p = Loc l) ->
  wp (for_loop n 0
        (fun i _ =>
           s ← load (Loc lp);
           p ← load_cell (gs_bufpp s) i;
           if decide (p = Null) then mret tt
           else
             genericStack_freeElement (Loc lp) p;;
             s ← load (Loc lp);
             store_cell (gs_bufpp s) i Null) tt)
     (fun _ w' => heap w' = <[lb := OPtrs ((replicate n (Init Null) ++ (Init <$> drop n cells)) ++ extra)]>
                              (delete_locs (locs_of (take n cells)) (heap w)) /\ quiet w w') w.
Proof.
  intros Hs Hb Ha Hn Hnd Hlive Hptr.
  pose (img j := (replicate (Z.to_nat j) (Init Null) ++ (Init <$> drop (Z.to_nat j) cells)) ++ extra).
  pose (hp j := delete_locs (locs_of (take (Z.to_nat j) cells)) (heap w)).
  eapply wp_mono; [apply (wp_for_loop _ _ _
    (fun j _ w' => heap w' = <[lb := OPtrs (img j)]> (hp j) /\ quiet w w'))|].
  - split; [|done]. unfold img, hp. simpl. symmetry. by apply insert_id.
  - intros j [] w' Hj [Hh Hq]. unfold footprint in Hnd.
    apply NoDup_cons in Hnd as [Hlp Hnd]. apply NoDup_cons in Hnd as [Hlb Hnd].
    apply not_elem_of_cons in Hlp as [Hne Hlp].
    assert (exists p, cells !! Z.to_nat j = Some p) as [p Hp] by (apply lookup_lt_is_Some_2; lia).
    assert (forall l, l ∈ locs_of (take (Z.to_nat j) cells) -> l ∈ locs_of (take n cells)) as Hsub.
    { intros l. rewrite !elem_of_locs_of. intros Hl. apply list_elem_of_lookup in Hl as [k Hk].
      apply lookup_take_Some in Hk as [Hk ?]. apply list_elem_of_lookup. exists k.
      rewrite lookup_take_lt by lia. done. }
    assert (heap w' !! lp = Some (OStack s)) as Hs'.
    { rewrite Hh, lookup_insert_ne by done. unfold hp. rewrite delete_locs_lookup_ne; [done|].
      intros Hin. by apply Hlp, Hsub. }
    assert (img j !! Z.to_nat j = Some (Init p)) as Hi.
    { unfold img. rewrite lookup_app_l, lookup_app_r; rewrite ?length_app, ?length_replicate, ?length_fmap, ?length_drop; [|lia..].
      rewrite Nat.sub_diag, list_lookup_fmap, lookup_drop, Nat.add_0_r. by rewrite Hp. }
    assert (img (j + 1) = <[Z.to_nat j := Init Null]> (img j)) as Hi'.
    { unfold img. replace (Z.to_nat (j + 1)) with (S (Z.to_nat j)) by lia.
      rewrite insert_app_l by (rewrite length_app, length_replicate, length_fmap, length_drop; lia).
      f_equal. rewrite (drop_S cells p (Z.to_nat j)), replicate_S_end by done.
      rewrite insert_app_r_alt by (rewrite length_replicate; lia).
      rewrite length_replicate, Nat.sub_diag. simpl. by rewrite <- (assoc_L (++)). }
    assert (hp (j + 1) = delete_locs (locs_of [p]) (hp j)) as Hh'.
    { unfold hp. replace (Z.to_nat (j + 1)) with (S (Z.to_nat j)) by lia.
      rewrite (take_S_r _ _ p), locs_of_app by done.
      destruct p; unfold locs_of; simpl; rewrite ?app_nil_r; [done..|apply delete_locs_snoc]. }
    assert (p ∈ take n cells) as Hin.
    { apply list_elem_of_lookup. exists (Z.to_nat j). rewrite lookup_take_lt by lia. done. }
    apply wp_bind. eapply wp_load; [done|]. rewrite Hb.
    apply wp_bind. eapply wp_load_cell; [by rewrite Hh, lookup_insert_eq|lia|done|].
    case_decide as Hnull.
    { apply wp_ret. split; [|done]. rewrite Hh, Hh', Hi', Hnull. unfold locs_of. simpl.
      by rewrite list_insert_id by (by rewrite Hi, Hnull). }
    destruct (Hptr p) as [?|[l ->]]; [by eapply list_elem_of_lookup_2|done|].
    apply elem_of_locs_of in Hin. destruct (Hlive l Hin) as [o Ho].
    assert (l ∉ locs_of (take (Z.to_nat j) cells)) as Hlj.
    { rewrite <- (take_drop (Z.to_nat j) (take n cells)) in Hnd.
      rewrite take_take, Nat.min_l in Hnd by lia.
      rewrite (drop_S (take n cells) (Loc l) (Z.to_nat j)) in Hnd by (rewrite lookup_take_lt by lia; done).
      rewrite locs_of_app in Hnd. apply NoDup_app in Hnd as (_&Hd&_).
      intros ?. apply (Hd l); [done|]. rewrite elem_of_locs_of. constructor. }
    assert (l <> lp /\ l <> lb) as [??] by (split; intros ->; done).
    apply wp_bind. eapply wp_freeElement; [done| |].
    { rewrite Hh, lookup_insert_ne by done. unfold hp. by rewrite delete_locs_lookup_ne. }
    intros w2 Hw2 Hq2. apply wp_bind. eapply wp_load; [by rewrite Hw2, lookup_delete_ne|].
    rewrite Hb. eapply wp_store_cell.
    { rewrite Hw2, lookup_delete_ne, Hh by done. apply lookup_insert_eq. }
    { apply lookup_lt_Some in Hi. lia. }
    simpl. split; [|etrans; [done|]; etrans; [done|apply quiet_set_heap]].
    rewrite Hw2, Hh, Hh', Hi'. unfold locs_of. simpl.
    by rewrite delete_insert_ne, insert_insert_eq by done.
  - intros [] w' [Hh Hq]. split; [|done]. rewrite Hh. unfold img, hp.
    by rewrite Z.add_0_l, Nat2Z.id.
Qed.

Lemma holds_ptr h cells vals p :
  Forall2 (cell_holds h) cells vals -> p ∈ cells -> p = Null \/ exists l, p = Loc l.
Proof.
  intros Hf Hp. apply list_elem_of_lookup in Hp as [i Hi].
  destruct (Forall2_lookup_l _ _ _ _ _ Hf Hi) as ([bs|]&_&Hh); simpl in Hh; [|auto].
  destruct Hh as (l&->&_). eauto.
Qed.

Lemma astep_grows op a r b h n foot :
  astep op a r b -> op_ok h n foot op -> Z.max (as_size b) (2 ^ 29) <= Z.max (as_size a) (2 ^ 29) + 1.
Proof. intros [] Hok; simpl in *; lia. Qed.

(** One call implements one abstract step. *)
Lemma wp_run_op w lp foot s a op fuel :
  no_oom w -> abstracts (heap w) lp foot s a -> op_ok (heap w) (gs_elementSizei s) foot op ->
  as_size a <= 2 ^ 30 -> (Z.to_nat (2 ^ 29) <= fuel)%nat ->
  gs_optionGrowOnGeti s = 1 -> gs_optionGrowOnSeti s = 1 ->
  wp (run_op fuel (Loc lp) op)
     (fun r w' => exists b s' foot', astep op a r b /\ abstracts (heap w') lp foot' s' b
        /\ reframe (heap w) foot (heap w') foot' /\ same_options s s' /\ quiet w w') w.
Proof.
  intros Hn [(vals&Hat&Hlen&Hc) Hsz] Hok H30 Hf Hg Hs.
  pose proof (stack_at_alloc _ _ _ _ _ Hat) as (_&Hsz0&H4&Hl&_).
  destruct a as [f n]. simpl in *. subst n. destruct op as [e v|i|i e v|]; simpl in *.
  - apply wp_bind. eapply wp_pushi; [done..|apply Hok|]. intros w' s' foot' k n0 [Hat' Hfr Hop Hq] Hs' Hk.
    apply wp_ret. eexists (AStack _ _), s', foot'. split_and!; [constructor| |done..].
    split; [|done]. eexists. split_and!; [done| |].
    + rewrite length_insert, length_app, length_replicate. lia.
    + intros i. simpl. subst n0. rewrite cell_at_insert by (rewrite length_app, length_replicate; lia).
      rewrite cell_at_pad, Hc. unfold acells_set. repeat case_decide; congruence.
  - apply wp_bind. eapply wp_getp; [done|done|done|lia|lia|auto|].
    intros c w' s' vals' foot' [Hat' Hfr Hop Hq] Hc' Hs' Hl' Hh _. apply wp_bind.
    assert (wp (content_of c) (fun x w2 => x = f (Z.to_nat i) /\ w2 = w') w') as Hco.
    { rewrite Hc in Hh. destruct (f (Z.to_nat i)) as [bs|]; simpl in Hh.
      - destruct Hh as (l&->&Hll). apply wp_bind. eapply wp_load; [done|]. by apply wp_ret.
      - rewrite Hh. by apply wp_ret. }
    eapply wp_mono; [done|]. intros x w2 [-> ->]. apply wp_ret.
    eexists (AStack _ _), s', foot'. split_and!; [by constructor| |done..].
    split; [|done]. exists vals'. split_and!; [done|lia|]. intros j. by rewrite Hc'.
  - destruct Hok as (Hi&He&Hel). apply wp_bind.
    eapply (wp_seti _ _ _ _ _ _ _ _ v); [done|done|done|lia|lia|auto|done|done|].
    intros w' s' vals' foot' [Hat' Hfr Hop Hq] Hc' Hs' Hl'. apply wp_ret.
    eexists (AStack _ _), s', foot'. split_and!; [constructor| |done..].
    split; [|done]. exists vals'. split_and!; [done|done|]. intros j. rewrite Hc', Hc. done.
  - apply wp_bind. unfold genericStack_sizei. rewrite decide_False by done.
    apply wp_bind. eapply wp_load; [done|]. apply wp_ret, wp_ret.
    exists (AStack f (gs_stackSizei s)), s, foot. split_and!; [constructor| |apply reframe_refl|done..].
    split; [|done]. eauto.
Qed.

Lemma op_ok_reframe h foot h' foot' n op :
  reframe h foot h' foot' -> op_ok h n foot op -> op_ok h' n foot' op.
Proof.
  intros Hfr. assert (forall e v, holds_element h n e v /\ (forall l, e = Loc l -> l ∉ foot) ->
    holds_element h' n e v /\ (forall l, e = Loc l -> l ∉ foot')) as He.
  { intros e [bs|] [He Hf]; simpl in *; [|subst; by split].
    destruct He as (l&bs0&->&Hl&?&?). split.
    - exists l, bs0. split_and!; try done. eapply reframe_lookup; [done..|by apply Hf].
    - intros ? [= <-] Hin. destruct (reframe_new _ _ _ _ Hfr _ Hin); [by eapply Hf|congruence]. }
  destruct op; simpl; [apply He|done| |done]. intros [? ?]. split; [done|by apply He].
Qed.
End lemmas.

Section theorems.
Context `{StackCallbacksNeutral}.
Implicit Types (w : world).

(** C8. Refinement: on a stack with both growth options, any sequence of pushes, reads,
    writes and size queries on in-range indices (up to [2 ^ 29], with fewer than [2 ^ 30] items
    in all) runs without undefined behaviour and
    returns what some execution of the abstract array of contents returns; the stack still
    stands for the abstract state, and blocks outside it are untouched.  Memory is assumed to
    be granted, and the callbacks to leave the heap alone (elements without inner pointers). *)
Theorem genericStack_refines w lp foot s a ops fuel :
  no_oom w -> abstracts (heap w) lp foot s a ->
  gs_optionGrowOnGeti s = 1 -> gs_optionGrowOnSeti s = 1 ->
  Forall (op_ok (heap w) (gs_elementSizei s) foot) ops ->
  Z.max (as_size a) (2 ^ 29) + Z.of_nat (length ops) <= 2 ^ 30 ->
  (Z.to_nat (2 ^ 29) <= fuel)%nat ->
  wp (run_ops fuel (Loc lp) ops)
     (fun rs w' => exists b s' foot', asteps ops a rs b /\ abstracts (heap w') lp foot' s' b
        /\ reframe (heap w) foot (heap w') foot' /\ no_oom w') w.
Proof.
  revert w foot s a. induction ops as [|op ops IH]; intros w foot s a Hn Ha Hg Hs Hok Hsz Hf.
  { apply wp_ret. exists a, s, foot. split_and!; [constructor|done|apply reframe_refl|done]. }
  apply Forall_cons_1 in Hok as [Hop Hok]. simpl in Hsz. apply wp_bind.
  eapply wp_mono; [eapply wp_run_op; [done|done|done|lia|done|done|done]|].
  intros r w1 (b&s1&foot1&Hst&Ha1&Hfr&Hso&[_ Hq]).
  pose proof (astep_grows _ _ _ _ _ _ _ Hst Hop). apply wp_bind.
  eapply wp_mono; [apply (IH w1 foot1 s1 b)|].
  - auto.
  - done.
  - by rewrite (so_grow_get _ _ Hso).
  - by rewrite (so_grow_set _ _ Hso).
  - rewrite (so_elementSizei _ _ Hso). eapply Forall_impl; [done|]. intros o. by apply op_ok_reframe.
  - lia.
  - done.
  - intros rs w2 (b2&s2&foot2&Hst2&Ha2&Hfr2&Hn2). apply wp_ret. exists b2, s2, foot2.
    split_and!; [by econstructor|done|by eapply reframe_trans|done].
Qed.

(** [genericStack_pushi] appends a private copy of the element (the first
    [elementSizei] bytes of the caller's block, or nothing for [NULL]) to the contents,
    doubling the array when it is full, and answers 1. *)
Theorem genericStack_pushi_appends w lp s vals foot e v :
  no_oom w -> stack_at (heap w) lp s vals foot ->
  Z.of_nat (length vals) <= 2 ^ 31 -> gs_stackSizei s <= 2 ^ 30 ->
  holds_element (heap w) (gs_elementSizei s) e v ->
  wp (genericStack_pushi (Loc lp) e)
     (fun r w' => r = 1 /\ exists s' vals' foot', stack_step w lp s foot w' s' vals' foot'
        /\ contents s' vals' = contents s vals ++ [v]
        /\ Z.of_nat (length vals') <= 2 ^ 31) w.
Proof.
  intros Hn Hat Hlen H30 He. pose proof (stack_at_alloc _ _ _ _ _ Hat) as (_&Hsz&H4&_).
  eapply wp_pushi; [done..|]. intros w' s' foot' k n Hst Hs' Hk. split; [done|].
  eexists s', _, foot'. split_and!; [exact Hst| |].
  - assert (n < length (vals ++ replicate k None))%nat by (rewrite length_app, length_replicate; lia).
    unfold contents. rewrite Hs'. replace (Z.to_nat (gs_stackSizei s + 1)) with (S n) by lia.
    rewrite (take_S_r _ n v) by (by apply list_lookup_insert_eq).
    rewrite take_insert_ge by lia. f_equal. fold n. apply take_app_le. lia.
  - rewrite length_insert, length_app, length_replicate. lia.
Qed.

(** Without memory for the doubling, a push on a full stack answers 0 and leaves the
    heap, hence the stack, as it was. *)
Theorem genericStack_pushi_oom w lp s vals foot e :
  alloc_ok w 0%nat = false -> stack_at (heap w) lp s vals foot ->
  gs_stackSizei s = gs_allocSizei s ->
  wp (genericStack_pushi (Loc lp) e) (fun r w' => r = 0 /\ heap w' = heap w) w.
Proof.
  intros Ho (lb&cells&extra&Hr&->) Hfull. pose proof Hr as [Hs Hb Ha _ _ _ _ _ _].
  unfold genericStack_pushi. rewrite decide_False by done. apply wp_bind.
  eapply wp_load; [done|]. rewrite Hfull, Z.geb_leb, Z.leb_refl. apply wp_bind.
  unfold genericStack_grow. apply wp_bind. eapply wp_load; [done|]. cbv zeta.
  rewrite Hb. apply wp_bind. unfold wp, realloc_ptrs. rewrite Ha, Ho. rewrite decide_True by done.
  apply wp_bind. unfold wp, get_errno. apply wp_bind.
  apply wp_neutral; [apply neutral_report_stack|]. intros [] w' Hh Hq. by apply wp_ret, wp_ret.
Qed.

(** [genericStack_popp] on a non-empty stack takes the last element: the pointer it
    returns holds the last content, and the stack then holds the others (whether or not
    the array is shrunk, and whether or not shrinking it succeeds). *)
Theorem genericStack_popp_last w lp s vals foot :
  stack_at (heap w) lp s vals foot -> 0 < gs_stackSizei s -> Z.of_nat (length vals) <= 2 ^ 31 ->
  wp (genericStack_popp (Loc lp))
     (fun r w' => exists s', stack_view (heap w') lp s' (take (Z.to_nat (gs_stackSizei s) - 1) vals)
        /\ cell_holds (heap w') r (cell_at vals (Z.to_nat (gs_stackSizei s) - 1))) w.
Proof.
  intros Hat Hpos Hlen. pose proof (stack_at_alloc _ _ _ _ _ Hat) as (Hal&Hsz&H4&_&_).
  destruct Hat as (lb&cells&extra&Hr&->). pose proof (stack_rep_length _ _ _ _ _ _ _ Hr) as Hl.
  pose proof Hr as [Hs Hb Ha _ _ Hnd _ _ _].
  assert (lp <> lb) as Hne by (apply NoDup_cons in Hnd; set_solver).
  set (n := (Z.to_nat (gs_stackSizei s) - 1)%nat).
  unfold genericStack_popp. rewrite decide_False by done. apply wp_bind. eapply wp_load; [done|].
  rewrite (proj2 (Z.leb_gt _ _)) by lia.
  destruct (stack_rep_lookup _ _ _ _ _ _ _ n Hr) as (c&v&Hc&Hv&Hh&Hac); [lia|].
  rewrite Hb. apply wp_bind. eapply wp_load_cell; [done|lia| |].
  { replace (Z.to_nat (gs_stackSizei s - 1)) with n by lia. done. }
  cbv zeta. apply wp_bind. eapply wp_store; [done|].
  set (s1 := gs_set_size s (gs_stackSizei s - 1)). set (w1 := set_heap _ w).
  assert (forall w2 s2 lb2 arr, heap w2 !! lp = Some (OStack s2) -> gs_stackSizei s2 = gs_stackSizei s1 ->
    gs_bufpp s2 = Loc lb2 -> heap w2 !! lb2 = Some (OPtrs arr) ->
    (forall i, (i < n)%nat -> arr !! i = ((Init <$> cells) ++ extra) !! i) ->
    (forall l bs, heap w !! l = Some (OBytes bs) -> heap w2 !! l = Some (OBytes bs)) ->
    exists s', stack_view (heap w2) lp s' (take n vals) /\ cell_holds (heap w2) c (cell_at vals n)) as Hend.
  { intros w2 s2 lb2 arr Hs2 Hsz2 Hb2 Ha2 Hi Hby.
    assert (forall c v, cell_holds (heap w) c v -> cell_holds (heap w2) c v) as Hm.
    { intros c' [bs|]; [|done]. intros (l&->&Hll). exists l. auto. }
    exists s2. split.
    - split_and!; [done| |].
      { rewrite Hsz2, length_take. simpl. lia. }
      exists lb2, arr. split_and!; [done..|]. intros i u Hu. apply lookup_take_Some in Hu as [Hu ?].
      destruct (stack_rep_lookup _ _ _ _ _ _ _ i Hr) as (c'&v'&?&?&?&?); [lia|].
      assert (v' = u) as -> by congruence. exists c'. rewrite Hi by lia. auto.
    - unfold cell_at. rewrite Hv. by apply Hm. }
  assert (heap w1 !! lb = Some (OPtrs ((Init <$> cells) ++ extra))) as Ha1.
  { simpl. by rewrite lookup_insert_ne. }
  assert (heap w1 !! lp = Some (OStack s1)) as Hs1 by (simpl; apply lookup_insert_eq).
  assert (forall l bs, heap w !! l = Some (OBytes bs) -> heap w1 !! l = Some (OBytes bs)) as Hby1.
  { intros l bs Hll. simpl. rewrite lookup_insert_ne; congruence. }
  change (wp ((if (to_size_t ((gs_stackSizei s - 1) * 2) <=? gs_allocSizei s) && (gs_allocSizei s >=? 8) then
      bufpp ← realloc_ptrs (gs_bufpp s) (to_size_t (gs_allocSizei s / 2 * sizeof_ptr));
      if decide (bufpp = Null) then mret tt else store (Loc lp) (gs_set_buf s1 bufpp (gs_allocSizei s / 2))
     else mret tt);; mret c)
    (fun r w' => exists s', stack_view (heap w') lp s' (take n vals) /\ cell_holds (heap w') r (cell_at vals n)) w1).
  apply wp_bind. destruct (_ && _) eqn:Eshrink.
  2:{ apply wp_ret, wp_ret. by eapply Hend. }
  apply andb_prop in Eshrink as [E1 E2]. rewrite Z.geb_leb in E2. Zbool.
  rewrite to_size_t_small in E1 by (unfold is_size_t, SIZE_MOD; lia).
  assert (to_size_t (gs_allocSizei s / 2 * sizeof_ptr) / sizeof_ptr = gs_allocSizei s / 2) as Hby.
  { rewrite to_size_t_small; [by rewrite Z.div_mul|]. unfold is_size_t, SIZE_MOD, sizeof_ptr.
    pose proof (Z.div_pos (gs_allocSizei s) 2). pose proof (Z.mul_div_le (gs_allocSizei s) 2). lia. }
  rewrite Hb. apply wp_bind. eapply wp_realloc_ptrs; [exact Ha1| |].
  { rewrite decide_True by done. apply wp_ret, wp_ret. by eapply Hend. }
  intros lb' Hf o. subst o. rewrite Hby. assert (lb' <> lp /\ lb' <> lb) as [??] by (split; congruence).
  rewrite decide_False by done. eapply wp_store.
  { simpl. by rewrite lookup_delete_ne, lookup_insert_ne, lookup_insert_eq by done. }
  apply wp_ret. eapply Hend.
  - simpl. by rewrite lookup_insert_eq.
  - done.
  - done.
  - simpl. by rewrite lookup_insert_ne, lookup_delete_ne, lookup_insert_eq by done.
  - intros i Hi. apply resize_lookup_lt.
    + assert (gs_stackSizei s - 1 <= gs_allocSizei s / 2) by (apply Z.div_le_lower_bound; lia). lia.
    + rewrite length_app, length_fmap. lia.
  - intros l bs Hll. assert (lp <> l /\ lb <> l /\ lb' <> l) as (?&?&?).
    { split_and!; intros <-; simpl in Hf; rewrite ?lookup_insert_ne in Hf by done; congruence. }
    simpl. by rewrite lookup_insert_ne, lookup_delete_ne, !lookup_insert_ne by done.
Qed.

(** [genericStack_getp] returns a pointer to the content of the cell [index] ([NULL]
    for an empty one), growing the array to it when the option asks for it; no content
    changes.  The returned block belongs to the stack. *)
Theorem genericStack_getp_content fuel w lp s vals foot index :
  no_oom w -> stack_at (heap w) lp s vals foot -> Z.of_nat (length vals) <= 2 ^ 31 ->
  0 <= index < 2 ^ 30 -> (Z.to_nat (index + 1) <= fuel)%nat ->
  gs_optionGrowOnGeti s = 1 \/ index < gs_stackSizei s ->
  wp (genericStack_getp fuel (Loc lp) index)
     (fun c w' => exists s' vals' foot', stack_step w lp s foot w' s' vals' foot'
        /\ (forall i, cell_at vals' i = cell_at vals i)
        /\ gs_stackSizei s <= gs_stackSizei s' <= Z.max (gs_stackSizei s) (index + 1)
        /\ index < gs_allocSizei s'
        /\ cell_holds (heap w') c (cell_at vals (Z.to_nat index))
        /\ forall l, c = Loc l -> l ∈ foot') w.
Proof.
  intros Hn Hat Hlen Hi Hf Hg. eapply wp_getp; [done..|].
  intros c w' s' vals' foot' Hst Hc Hs' Hl Hh Hown. exists s', vals', foot'.
  pose proof (stack_at_alloc _ _ _ _ _ (ss_at _ _ _ _ _ _ _ _ Hst)) as (->&_).
  split_and!; try done; lia.
Qed.

(** [genericStack_seti] replaces exactly one content: the old element of the cell is
    released, a private copy of the new one takes its place, and the size becomes at least
    [index + 1]. *)
Theorem genericStack_seti_replaces fuel w lp s vals foot index e v :
  no_oom w -> stack_at (heap w) lp s vals foot -> Z.of_nat (length vals) <= 2 ^ 31 ->
  0 <= index < 2 ^ 30 -> (Z.to_nat (index + 1) <= fuel)%nat ->
  gs_optionGrowOnSeti s = 1 \/ index < gs_stackSizei s ->
  holds_element (heap w) (gs_elementSizei s) e v -> (forall l, e = Loc l -> l ∉ foot) ->
  wp (genericStack_seti fuel (Loc lp) index e)
     (fun r w' => r = 1 /\ exists s' vals' foot', stack_step w lp s foot w' s' vals' foot'
        /\ (forall i, cell_at vals' i = if decide (i = Z.to_nat index) then v else cell_at vals i)
        /\ gs_stackSizei s' = Z.max (gs_stackSizei s) (index + 1)) w.
Proof.
  intros. eapply wp_seti; [done..|]. intros w' s' vals' foot' Hst Hc Hs' Hl.
  split; [done|]. by exists s', vals', foot'.
Qed.

(** Without the growth option, an access beyond the size is refused: [getp] answers
    [NULL] and [seti] 0, and the heap is as it was. *)
Theorem genericStack_bounds fuel w lp s vals foot index e :
  stack_at (heap w) lp s vals foot ->
  gs_optionGrowOnGeti s = 0 -> gs_optionGrowOnSeti s = 0 -> gs_stackSizei s <= index ->
  wp (genericStack_getp fuel (Loc lp) index) (fun c w' => c = Null /\ heap w' = heap w) w
  /\ wp (genericStack_seti fuel (Loc lp) index e) (fun r w' => r = 0 /\ heap w' = heap w) w.
Proof.
  intros Hat Hg Hs Hi. pose proof (stack_at_alloc _ _ _ _ _ Hat) as (_&_&_&Hl&_).
  split; [unfold genericStack_getp|unfold genericStack_seti; cbv zeta].
  all: rewrite decide_False by done; apply wp_bind; eapply wp_load; [done|].
  all: rewrite ?Hg, ?Hs, andb_false_r; apply wp_bind, wp_ret, wp_bind; eapply wp_load; [done|].
  all: rewrite ?Hg, ?Hs, Z.geb_leb, (proj2 (Z.leb_le _ _)) by done; simpl; apply wp_bind.
  all: apply wp_neutral; [apply neutral_report_stack|]; intros; by apply wp_ret.
Qed.

(** [genericStack_destroyv] releases exactly the blocks the stack owns (its
    structure, its array and every private copy, each once), and resets the caller's
    pointer. *)
Theorem genericStack_destroyv_frees w lp s vals foot :
  stack_at (heap w) lp s vals foot ->
  wp (genericStack_destroyv (Some (Loc lp)))
     (fun r w' => r = Some Null /\ heap w' = delete_locs foot (heap w) /\ quiet w w') w.
Proof.
  intros Hat. pose proof (stack_at_alloc _ _ _ _ _ Hat) as (Hal&_&_&Hl&_).
  destruct Hat as (lb&cells&extra&Hr&->). pose proof (stack_rep_length _ _ _ _ _ _ _ Hr) as Hlen.
  pose proof Hr as [_ Hb Ha _ He Hnd _ _ _].
  unfold genericStack_destroyv. rewrite decide_False by done.
  apply wp_bind. eapply wp_load; [done|].
  replace (Z.to_nat (gs_allocSizei s)) with (length cells) by lia.
  apply wp_bind. eapply wp_mono; [apply (wp_destroy_prefix _ _ _ lb s cells extra); [done..| | |]|].
  - by rewrite take_ge.
  - rewrite take_ge by done. intros l Hin. eapply (stack_rep_live _ _ _ _ _ _ _ _ Hr).
    unfold footprint. set_solver.
  - intros p. by eapply holds_ptr.
  - rewrite take_ge by done. intros [] w1 [Hh Hq].
    unfold footprint in Hnd. apply NoDup_cons in Hnd as [Hlp Hnd]. apply NoDup_cons in Hnd as [Hlb Hnd].
    assert (heap w1 !! lp = Some (OStack s)) as Hs1.
    { rewrite Hh, lookup_insert_ne, delete_locs_lookup_ne; set_solver. }
    apply wp_bind. eapply wp_load; [done|]. rewrite Hb.
    apply wp_bind. eapply wp_free; [by rewrite Hh, lookup_insert_eq|].
    apply wp_bind. eapply wp_free; [simpl; rewrite lookup_delete_ne by set_solver; done|].
    apply wp_ret. split_and!; [done| |].
    + simpl. rewrite Hh, delete_insert_eq. done.
    + etrans; [done|]. etrans; [|apply quiet_set_heap]. apply quiet_set_heap.
Qed.

Lemma goes_undef_freeElement w lp s le :
  heap w !! lp = Some (OStack s) -> heap w !! le = None ->
  goes_undef (genericStack_freeElement (Loc lp) (Loc le)) w.
Proof.
  intros Hs Hle. unfold genericStack_freeElement. apply goes_undef_later.
  eapply wp_load; [done|]. apply goes_undef_later.
  assert (forall w', heap w' = heap w -> goes_undef (free (Loc le)) w') as Hfree.
  { intros w' Hh. unfold goes_undef, free. rewrite Hh, Hle. eauto. }
  destruct (gs_freeCallbackp s); [|by apply wp_ret, Hfree].
  eapply wp_callback_status; [done|apply call_free_neutral|]. intros w' Hh _. by apply Hfree.
Qed.

(** [genericStack_newp] with elements at least as large as a pointer: either memory
    was refused and the answer is [NULL] with nothing left allocated, or it is a fresh
    empty stack of four cells with the requested element size and growth options. *)
Theorem genericStack_newp_empty w elementSizei optionp :
  sizeof_ptr <= elementSizei -> elementSizei * 4 < SIZE_MOD ->
  wp (genericStack_newp elementSizei optionp)
     (fun r w' => r = Null /\ heap w' = heap w /\ ~ no_oom w \/
        exists lp s foot, r = Loc lp /\ stack_at (heap w') lp s (replicate 4 None) foot
          /\ gs_stackSizei s = 0 /\ gs_elementSizei s = elementSizei
          /\ (gs_optionGrowOnGeti s = 1 <-> exists o, optionp = Some o /\ Z.testbit (gso_growFlags o) 0 = true)
          /\ (gs_optionGrowOnSeti s = 1 <-> exists o, optionp = Some o /\ Z.testbit (gso_growFlags o) 1 = true)
          /\ reframe (heap w) [] (heap w') foot) w.
Proof.
  unfold sizeof_ptr, SIZE_MOD. intros Hlo Hhi. unfold genericStack_newp.
  rewrite (proj2 (Z.leb_gt _ _)) by lia.
  assert (forall w', heap w' = heap w -> ~ no_oom w ->
    wp (e ← get_errno; report_option optionp GENERICSTACK_ERROR_SYSTEM e;; mret Null)
      (fun r w2 => r = Null /\ heap w2 = heap w /\ ~ no_oom w) w') as Hfail.
  { intros w' Hh Ho. apply wp_bind. unfold wp at 1, get_errno. apply wp_bind.
    assert (forall e n, neutral (report_option optionp e n)) as Hr.
    { intros e n. unfold report_option. destruct optionp; [apply neutral_report|apply neutral_ret]. }
    apply wp_neutral; [apply Hr|]. intros [] w2 Hh2 _. apply wp_ret. split_and!; [done|congruence|done]. }
  apply wp_bind. unfold wp at 1, malloc at 1. destruct (alloc_ok w 0%nat) eqn:E0.
  2:{ rewrite decide_True by done. eapply wp_mono; [apply Hfail; [done|]|].
      - intros Hn. specialize (Hn 0%nat). congruence.
      - intros r w2 ?. by left. }
  set (lp := pick w). pose proof (pick_fresh w : heap w !! lp = None) as Hlp.
  rewrite decide_False by done. apply wp_bind. unfold malloc_ptrs, wp at 1, malloc at 1.
  replace (alloc_ok (alloc_at lp _ w) 0%nat) with (alloc_ok w 1%nat) by done.
  destruct (alloc_ok w 1%nat) eqn:E1.
  2:{ rewrite decide_True by done. apply wp_bind. unfold wp at 1, get_errno. apply wp_bind.
      assert (forall e n, neutral (report_option optionp e n)) as Hr.
      { intros e n. unfold report_option. destruct optionp; [apply neutral_report|apply neutral_ret]. }
      apply wp_neutral; [apply Hr|]. intros [] w2 Hh2 _. apply wp_bind. eapply wp_free.
      { rewrite Hh2. simpl. apply lookup_insert_eq. }
      apply wp_ret. left. split_and!; [done| |].
      - simpl. rewrite Hh2. simpl. by rewrite delete_insert_id.
      - intros Hn. specialize (Hn 1%nat). congruence. }
  set (w1 := alloc_at lp _ w). set (lb := pick w1). pose proof (pick_fresh w1 : heap w1 !! lb = None) as Hlb.
  assert (lp <> lb) as Hne. { intros Heq. rewrite <- Heq in Hlb. simpl in Hlb. by rewrite lookup_insert_eq in Hlb. }
  rewrite decide_False by done. apply wp_bind.
  rewrite to_size_t_small by (unfold is_size_t, SIZE_MOD, STACK_INIT_SIZE; lia).
  assert (4 <= Z.to_nat (elementSizei * STACK_INIT_SIZE / sizeof_ptr))%nat as H4.
  { unfold STACK_INIT_SIZE, sizeof_ptr. assert (4 <= elementSizei * 4 / 8); [|lia].
    apply Z.div_le_lower_bound; lia. }
  set (k := Z.to_nat (elementSizei * STACK_INIT_SIZE / sizeof_ptr)) in *.
  eapply wp_mono; [eapply (wp_fill_null _ lb _ 0 4); [simpl; apply lookup_insert_eq|]|].
  { rewrite length_replicate. lia. }
  intros _ w2 ->. simpl take. simpl app. apply wp_bind. eapply wp_store.
  { simpl. rewrite !lookup_insert_ne by done. apply lookup_insert_eq. }
  apply wp_ret. right. exists lp, (genericStack_init (Loc lb) elementSizei optionp), [lp; lb].
  split_and!; [done| |done|done| | |].
  - exists lb, (replicate 4 Null), (drop 4 (replicate k Uninit)). split; [|done]. split; try done.
    + simpl. apply lookup_insert_eq.
    + simpl. rewrite lookup_insert_ne, insert_insert_eq, lookup_insert_eq by done.
      by rewrite !drop_replicate.
    + by repeat constructor.
    + repeat constructor; set_solver.
    + intros i Hi. do 4 (destruct i; [done|]). done.
  - by apply (grow_flag_spec _ 0).
  - by apply (grow_flag_spec _ 1).
  - split.
    + intros l Hl. simpl. rewrite !lookup_insert_ne by set_solver. done.
    + intros l Hl. right. apply elem_of_cons in Hl as [->|Hl]; [done|].
      apply list_elem_of_singleton in Hl as ->. simpl in Hlb. by rewrite lookup_insert_ne in Hlb.
Qed.

(** A defect: elements smaller than a pointer overflow the first array, which is
    allocated for [STACK_INIT_SIZE] elements and filled with as many pointers. *)
Theorem genericStack_newp_overflow w elementSizei optionp :
  0 < elementSizei < sizeof_ptr -> alloc_ok w 0%nat = true -> alloc_ok w 1%nat = true ->
  goes_undef (genericStack_newp elementSizei optionp) w.
Proof.
  unfold sizeof_ptr. intros He Ho0 Ho1. unfold genericStack_newp. rewrite (proj2 (Z.leb_gt _ _)) by lia.
  apply goes_undef_later. unfold wp, malloc at 1. rewrite Ho0. rewrite decide_False by done.
  apply goes_undef_later. unfold wp, malloc_ptrs, malloc. simpl alloc_ok. unfold tick. rewrite Ho1.
  rewrite decide_False by done. apply goes_undef_now.
  set (w1 := alloc_at _ _ _). set (lb := pick w1).
  rewrite to_size_t_small by (unfold is_size_t, SIZE_MOD, STACK_INIT_SIZE; lia).
  set (k := Z.to_nat (elementSizei * STACK_INIT_SIZE / sizeof_ptr)).
  assert (k < 4)%nat as Hk.
  { unfold k, STACK_INIT_SIZE, sizeof_ptr. assert (elementSizei * 4 / 8 < 4); [|lia].
    apply Z.div_lt_upper_bound; lia. }
  replace (Z.to_nat STACK_INIT_SIZE) with (k + S (3 - k))%nat by (unfold STACK_INIT_SIZE; lia).
  apply goes_undef_for_loop.
  eapply wp_mono; [eapply (wp_fill_null _ lb _ 0 k); [simpl; apply lookup_insert_eq|]|].
  { rewrite length_replicate. lia. }
  intros _ w2 ->. unfold store_cell. apply goes_undef_later. eapply wp_load; [simpl; apply lookup_insert_eq|].
  rewrite decide_False; [by eexists|]. simpl. rewrite length_app, length_drop, !length_replicate. lia.
Qed.

(** A defect: the pointer [genericStack_popp] hands over stays in the array.  When the
    array is not shrunk, releasing the popped element, as its receiver must, and then
    destroying the stack releases it twice. *)
Theorem genericStack_popp_double_free w lp s vals foot :
  stack_at (heap w) lp s vals foot -> 0 < gs_stackSizei s -> gs_allocSizei s < 8 ->
  cell_at vals (Z.to_nat (gs_stackSizei s) - 1) <> None ->
  goes_undef (p ← genericStack_popp (Loc lp); free p;; genericStack_destroyv (Some (Loc lp))) w.
Proof.
  intros Hat Hpos Hal8 Hlast. pose proof (stack_at_alloc _ _ _ _ _ Hat) as (Hal&Hsz&H4&_&_).
  destruct Hat as (lb&cells&extra&Hr&->). pose proof (stack_rep_length _ _ _ _ _ _ _ Hr) as Hl.
  pose proof Hr as [Hs Hb Ha _ He Hnd _ _ _].
  set (n := (Z.to_nat (gs_stackSizei s) - 1)%nat) in *.
  destruct (stack_rep_lookup _ _ _ _ _ _ _ n Hr) as (c&v&Hc&Hv&Hh&Hac); [lia|].
  unfold cell_at in Hlast. rewrite Hv in Hlast. destruct v as [bs|]; [|done].
  destruct Hh as (le&->&Hle). set (s1 := gs_set_size s (gs_stackSizei s - 1)).
  assert (lp <> lb /\ (lp ∉ locs_of cells) /\ (lb ∉ locs_of cells) /\ NoDup (locs_of cells)) as (Hne&Hlp&Hlb&Hndl).
  { unfold footprint in Hnd. apply NoDup_cons in Hnd as [? Hnd]. apply NoDup_cons in Hnd as [? Hnd]. set_solver. }
  assert (Loc le ∈ cells) as Hin by (by eapply list_elem_of_lookup_2).
  assert (le <> lp /\ le <> lb) as [??] by (split; intros ->; rewrite elem_of_locs_of in *; done).
  apply goes_undef_later. unfold genericStack_popp. rewrite decide_False by done.
  apply wp_bind. eapply wp_load; [done|]. rewrite (proj2 (Z.leb_gt _ _)) by lia.
  rewrite Hb. apply wp_bind. eapply wp_load_cell; [done|lia| |].
  { replace (Z.to_nat (gs_stackSizei s - 1)) with n by lia. done. }
  cbv zeta. apply wp_bind. eapply wp_store; [done|]. apply wp_bind.
  rewrite (proj2 (andb_false_iff _ _)).
  2:{ right. simpl. rewrite Z.geb_leb. apply Z.leb_gt. done. }
  apply wp_ret, wp_ret. apply goes_undef_later. eapply wp_free.
  { simpl. rewrite lookup_insert_ne; done. }
  set (w1 := set_heap _ _).
  assert (heap w1 = delete le (<[lp := OStack s1]> (heap w))) as Hw1 by done.
  assert (heap w1 !! lp = Some (OStack s1)) as Hs1 by (rewrite Hw1, lookup_delete_ne, lookup_insert_eq; done).
  assert (locs_of (take n cells) ++ le :: locs_of (drop (S n) cells) = locs_of cells) as Hsplit.
  { rewrite <- (take_drop_middle cells n (Loc le)) at 3 by done. by rewrite locs_of_app. }
  assert (forall l, l ∈ locs_of (take n cells) -> (l ∈ locs_of cells) /\ l <> le) as Hsub.
  { intros l Hin'. split; [rewrite <- Hsplit; set_solver|]. intros ->.
    rewrite <- Hsplit in Hndl. apply NoDup_app in Hndl as (_&Hd&_). apply (Hd le); set_solver. }
  unfold genericStack_destroyv. rewrite decide_False by done. apply goes_undef_later.
  eapply wp_load; [done|]. apply goes_undef_now.
  replace (Z.to_nat (gs_allocSizei s1)) with (n + S (length vals - n - 1))%nat by (simpl; lia).
  apply goes_undef_for_loop. eapply wp_mono; [eapply (wp_destroy_prefix n w1 lp lb s1 cells extra)|].
  - done.
  - done.
  - rewrite Hw1, lookup_delete_ne, lookup_insert_ne by done. done.
  - lia.
  - unfold footprint. rewrite <- Hsplit in Hndl. apply NoDup_app in Hndl as (Hnd1&_&_).
    constructor; [|constructor; [|done]].
    + apply not_elem_of_cons. split; [done|]. intros Hx. by apply Hsub in Hx as [? _].
    + intros Hx. by apply Hsub in Hx as [? _].
  - intros l Hx. apply Hsub in Hx as [Hx ?]. rewrite Hw1, lookup_delete_ne by done.
    rewrite lookup_insert_ne by (intros ->; done). eapply (stack_rep_live _ _ _ _ _ _ _ _ Hr).
    unfold footprint. set_solver.
  - intros p. by eapply holds_ptr.
  - intros [] w2 [Hw2 _]. assert (heap w2 !! lp = Some (OStack s1)) as Hs2.
    { rewrite Hw2, lookup_insert_ne, delete_locs_lookup_ne; [done| |done].
      intros Hx. by apply Hsub in Hx as [? _]. }
    apply goes_undef_later. eapply wp_load; [done|]. apply goes_undef_later.
    change (gs_bufpp s1) with (gs_bufpp s). rewrite Hb.
    eapply (wp_load_cell _ _ _ (Loc le)); [by rewrite Hw2, lookup_insert_eq|lia| |].
    { rewrite Z.add_0_l, Nat2Z.id. rewrite lookup_app_l, lookup_app_r, length_replicate, Nat.sub_diag, list_lookup_fmap, lookup_drop, Nat.add_0_r, Hc; [done|..];
        rewrite ?length_app, ?length_replicate, ?length_fmap, ?length_drop; lia. }
    rewrite decide_False by done. apply goes_undef_now, (goes_undef_freeElement _ _ s1); [done|].
    rewrite Hw2, lookup_insert_ne by done. rewrite delete_locs_lookup. case_decide; [done|].
    rewrite Hw1. apply lookup_delete_eq.
Qed.

(** A defect: the loop that grows the array up to an index ignores the failure of
    [genericStack_pushi].  On a full stack and without memory it never ends. *)
Theorem genericStack_growTo_diverges fuel w lp s vals foot index :
  (forall n, alloc_ok w n = false) -> stack_at (heap w) lp s vals foot ->
  gs_stackSizei s = gs_allocSizei s -> gs_failureCallbackp s = None -> gs_allocSizei s <= index ->
  genericStack_growTo fuel (Loc lp) index w = OutOfFuel.
Proof.
  intros Hn Hat Hfull Hcb Hi. revert w Hn Hat. induction fuel as [|fuel IH]; intros w Hn Hat.
  all: pose proof (stack_at_alloc _ _ _ _ _ Hat) as (_&_&_&Hs&_).
  all: destruct Hat as (lb&cells&extra&Hr&Hfoot).
  all: simpl; unfold mbind at 1, M_bind at 1; unfold load at 1; rewrite Hs; simpl.
  all: rewrite Z.geb_leb, (proj2 (Z.leb_le _ _)) by done.
  1: done.
  assert (genericStack_pushi (Loc lp) Null w = Done 0 (alloc_fail w)) as Hpush.
  { assert (load (A := genericStack) (Loc lp) w = Done s w) as Hload by (unfold load; by rewrite Hs).
    unfold genericStack_pushi, genericStack_grow. rewrite decide_False by done.
    unfold mbind, M_bind. rewrite Hload, Hfull, Z.geb_leb, Z.leb_refl, Hload.
    unfold realloc_ptrs. rewrite (sr_buf _ _ _ _ _ _ _ Hr), (sr_array _ _ _ _ _ _ _ Hr), Hn.
    rewrite decide_True by done. unfold get_errno, report_stack, report. by rewrite Hcb. }
  unfold mbind, M_bind. rewrite Hpush.
  apply IH; [|by exists lb, cells, extra]. intros m. simpl. apply Hn.
Qed.
End theorems.

(** ** Witnesses

    A stack of 8-byte elements at address 1 with its array at 2; [demo_full] holds four
    elements, and the caller's element is at 9. *)

(** Callbacks for a stack of plain elements. *)
#[export] Instance demo_callbacks : StackCallbacks := {|
  call_failure _ _ _ _ := mret tt;
  call_free _ _ _ := mret 0;
  call_copy _ _ _ _ := mret 0
|}.

#[export] Instance demo_callbacks_neutral : StackCallbacksNeutral.
Proof. split; intros; apply neutral_ret. Qed.

Definition demo_stack (size grow : Z) : genericStack :=
  GenericStack (Loc 2) 4 size 8 None Null None Null None Null grow grow.
Definition demo_bytes : list (init Byte.byte) := replicate 8 (Init Byte.x2a).
Definition demo_empty (grow : Z) : gmap positive obj :=
  list_to_map [(1%positive, OStack (demo_stack 0 grow)); (2%positive, OPtrs (replicate 4 (Init Null)));
               (9%positive, OBytes demo_bytes)].
Definition demo_cells : list ptr := [Loc 3; Loc 4; Loc 5; Loc 6].
Definition demo_full : gmap positive obj :=
  list_to_map [(1%positive, OStack (demo_stack 4 1)); (2%positive, OPtrs (Init <$> demo_cells));
               (3%positive, OBytes demo_bytes); (4%positive, OBytes demo_bytes);
               (5%positive, OBytes demo_bytes); (6%positive, OBytes demo_bytes);
               (9%positive, OBytes demo_bytes)].
Definition demo_foot : list positive := [1%positive; 2%positive].
Definition demo_full_foot : list positive := footprint 1 2 demo_cells.

Lemma demo_empty_at grow : stack_at (demo_empty grow) 1 (demo_stack 0 grow) (replicate 4 None) demo_foot.
Proof.
  exists 2%positive, (replicate 4 Null), []. split; [|done]. split; try done.
  - by repeat constructor.
  - repeat constructor; set_solver.
  - intros i _. do 4 (destruct i; [done|]). done.
Qed.

Lemma demo_full_at : stack_at demo_full 1 (demo_stack 4 1) (replicate 4 (Some demo_bytes)) demo_full_foot.
Proof.
  exists 2%positive, demo_cells, []. split; [|done]. split; try done.
  - repeat constructor; by eexists.
  - refine (bool_decide_unpack _ _). vm_compute. done.
  - intros i Hi. simpl in Hi. do 4 (destruct i; [lia|]). done.
Qed.

Lemma demo_element h : h !! 9%positive = Some (OBytes demo_bytes) -> holds_element h 8 (Loc 9) (Some demo_bytes).
Proof. intros Hh. exists 9%positive, demo_bytes. by split_and!. Qed.

Lemma demo_abstracts : abstracts (demo_empty 1) 1 demo_foot (demo_stack 0 1) (AStack (fun _ => None) 0).
Proof.
  split; [|done]. eexists. split_and!; [apply demo_empty_at|done|].
  intros i. do 4 (destruct i; [done|]). done.
Qed.

Lemma genericStack_refines_witness :
  exists rs w', run_ops (Z.to_nat (2 ^ 29)) (Loc 1)
      [OpPush (Loc 9) (Some demo_bytes); OpGet 5; OpSet 2 (Loc 9) (Some demo_bytes); OpSize]
      (demo_world (demo_empty 1) []) = Done rs w' /\ no_oom w'.
Proof.
  destruct (wp_run _ _ _ (genericStack_refines (demo_world (demo_empty 1) []) 1 demo_foot (demo_stack 0 1)
    (AStack (fun _ => None) 0)
    [OpPush (Loc 9) (Some demo_bytes); OpGet 5; OpSet 2 (Loc 9) (Some demo_bytes); OpSize]
    (Z.to_nat (2 ^ 29)) (demo_no_oom _ _) demo_abstracts eq_refl eq_refl
    ltac:(repeat constructor; simpl; try lia; try (by apply demo_element); intros ? [= <-]; set_solver)
    ltac:(simpl; lia) ltac:(lia))) as (rs&w'&Hrun&b&s'&foot'&_&_&_&Hn).
  exact (ex_intro _ rs (ex_intro _ w' (conj Hrun Hn))).
Defined.

Lemma genericStack_pushi_appends_witness :
  exists w', genericStack_pushi (Loc 1) (Loc 9) (demo_world demo_full []) = Done 1 w'.
Proof.
  destruct (wp_run _ _ _ (genericStack_pushi_appends (demo_world demo_full []) 1 (demo_stack 4 1) _ demo_full_foot
    (Loc 9) (Some demo_bytes) (demo_no_oom _ _) demo_full_at ltac:(done) ltac:(simpl; lia)
    ltac:(by apply demo_element))) as (r&w'&Hrun&->&_).
  by exists w'.
Defined.

Lemma genericStack_pushi_oom_witness :
  exists w', genericStack_pushi (Loc 1) (Loc 9) (demo_world_oom demo_full []) = Done 0 w' /\ heap w' = demo_full.
Proof.
  destruct (wp_run _ _ _ (genericStack_pushi_oom (demo_world_oom demo_full []) 1 (demo_stack 4 1) _ demo_full_foot
    (Loc 9) eq_refl demo_full_at eq_refl)) as (r&w'&Hrun&->&Hh).
  by exists w'.
Defined.

Lemma genericStack_popp_last_witness :
  exists r w', genericStack_popp (Loc 1) (demo_world demo_full []) = Done r w'
    /\ cell_holds (heap w') r (Some demo_bytes).
Proof.
  destruct (wp_run _ _ _ (genericStack_popp_last (demo_world demo_full []) 1 (demo_stack 4 1) _ demo_full_foot
    demo_full_at ltac:(simpl; lia) ltac:(done))) as (r&w'&Hrun&s'&_&Hc).
  by exists r, w'.
Defined.

Lemma genericStack_getp_content_witness :
  exists c w', genericStack_getp 100 (Loc 1) 2 (demo_world demo_full []) = Done c w'
    /\ cell_holds (heap w') c (Some demo_bytes).
Proof.
  destruct (wp_run _ _ _ (genericStack_getp_content 100 (demo_world demo_full []) 1 (demo_stack 4 1) _ demo_full_foot 2
    (demo_no_oom _ _) demo_full_at ltac:(done) ltac:(lia) ltac:(lia) ltac:(by left)))
    as (c&w'&Hrun&s'&vals'&foot'&_&_&_&_&Hh&_).
  by exists c, w'.
Defined.

Lemma genericStack_seti_replaces_witness :
  exists w', genericStack_seti 100 (Loc 1) 6 (Loc 9) (demo_world demo_full []) = Done 1 w'.
Proof.
  destruct (wp_run _ _ _ (genericStack_seti_replaces 100 (demo_world demo_full []) 1 (demo_stack 4 1) _ demo_full_foot 6
    (Loc 9) (Some demo_bytes) (demo_no_oom _ _) demo_full_at ltac:(done) ltac:(lia) ltac:(lia) ltac:(by left)
    ltac:(by apply demo_element) ltac:(intros ? [= <-]; refine (bool_decide_unpack _ _); vm_compute; done)))
    as (r&w'&Hrun&->&_).
  by exists w'.
Defined.

Lemma genericStack_bounds_witness :
  exists w', genericStack_getp 0 (Loc 1) 3 (demo_world (demo_empty 0) []) = Done Null w'.
Proof.
  destruct (genericStack_bounds 0 (demo_world (demo_empty 0) []) 1 (demo_stack 0 0) _ demo_foot 3 (Loc 9)
    (demo_empty_at 0) eq_refl eq_refl ltac:(simpl; lia)) as [Hg _].
  destruct (wp_run _ _ _ Hg) as (c&w'&Hrun&->&_). by exists w'.
Defined.

Lemma genericStack_destroyv_frees_witness :
  exists w', genericStack_destroyv (Some (Loc 1)) (demo_world demo_full []) = Done (Some Null) w'
    /\ heap w' = {[9%positive := OBytes demo_bytes]}.
Proof.
  destruct (wp_run _ _ _ (genericStack_destroyv_frees (demo_world demo_full []) 1 (demo_stack 4 1) _ demo_full_foot
    demo_full_at)) as (r&w'&Hrun&->&Hh&_).
  exists w'. split; [done|]. rewrite Hh. reflexivity.
Defined.

Lemma genericStack_newp_empty_witness :
  exists r w', genericStack_newp 8 None (demo_world ∅ []) = Done r w'.
Proof.
  destruct (wp_run _ _ _ (genericStack_newp_empty (demo_world ∅ []) 8 None ltac:(done) ltac:(done)))
    as (r&w'&Hrun&_).
  by exists r, w'.
Defined.

Lemma genericStack_newp_overflow_witness :
  genericStack_newp 4 None (demo_world ∅ []) = Undef "array write out of bounds".
Proof.
  destruct (genericStack_newp_overflow (demo_world ∅ []) 4 None ltac:(done) eq_refl eq_refl) as [why Hw].
  rewrite Hw. vm_compute in Hw. by injection Hw as <-.
Defined.

Lemma genericStack_popp_double_free_witness :
  exists why, (p ← genericStack_popp (Loc 1); free p;; genericStack_destroyv (Some (Loc 1)))
    (demo_world demo_full []) = Undef why.
Proof.
  exact (genericStack_popp_double_free (demo_world demo_full []) 1 (demo_stack 4 1) _ demo_full_foot
    demo_full_at ltac:(done) ltac:(done) ltac:(done)).
Defined.

Lemma genericStack_growTo_diverges_witness :
  genericStack_growTo 1000 (Loc 1) 7 (demo_world_oom demo_full []) = OutOfFuel.
Proof.
  apply (genericStack_growTo_diverges 1000 (demo_world_oom demo_full []) 1 (demo_stack 4 1) _ demo_full_foot 7
    (fun _ => eq_refl) demo_full_at eq_refl eq_refl ltac:(done)).
Defined.
