(* ===== verification/MessageBuilder.v ===== *)
(** * Formatted messages and dates: [src/messageBuilder.c], [src/dateBuilder.c]

    [messageBuilder_ap] grows its buffer until [vsnprintf()] fits (the non-Windows
    branches).  A [char *] points to a static string or to an [OChars] block. *)
From S2P Require Import Prelude Types External Runtime Demo.
From Stdlib Require Import Ascii.
From stdpp Require Import pretty.
#[local] Open Scope Z_scope.

(** ** [printf]-style formatting: the directives the program uses

    [%s], [%9s], [%d], [%p] and [%%]; [None] is a format the standard leaves undefined. *)
Inductive fmtval : Type :=
| VStr (s : string)
| VInt (z : Z)
| VPtr (s : string).

Definition pad_left (n : nat) (s : string) : string :=
  (String.concat "" (replicate (n - String.length s) " ") +:+ s)%string.

Fixpoint format (fmts : string) (args : list fmtval) : option string :=
  match fmts with
  | EmptyString => Some EmptyString
  | String "%" (String "%" rest) => String "%"%char <$> format rest args
  | String "%" (String "s" rest) =>
    match args with VStr s :: args => (fun o => s +:+ o)%string <$> format rest args | _ => None end
  | String "%" (String "9" (String "s" rest)) =>
    match args with VStr s :: args => (fun o => pad_left 9 s +:+ o)%string <$> format rest args | _ => None end
  | String "%" (String "d" rest) =>
    match args with VInt z :: args => (fun o => pretty z +:+ o)%string <$> format rest args | _ => None end
  | String "%" (String "p" rest) =>
    match args with VPtr s :: args => (fun o => s +:+ o)%string <$> format rest args | _ => None end
  | String "%" _ => None
  | String c rest => String c <$> format rest args
  end.

Definition slength (s : string) : Z := Z.of_nat (String.length s).

Section messageBuilder.
Context `{Env}.

(** The NUL-terminated string a [char *] points to. *)
Definition read_cstring (p : ptr) : M string :=
  match p with
  | Null => undef "null string"
  | Lit l => mret (literal_string l)
  | Loc _ =>
    b ← load (A := Z * init string) p;
    read_init b.2
  end.

Fixpoint read_args (args : list fmtarg) : M (list fmtval) :=
  match args with
  | [] => mret []
  | a :: args =>
    v ← match a with
        | FStr p => s ← read_cstring p; mret (VStr s)
        | FInt z => mret (VInt z)
        | FPtr p => mret (VPtr (ptr_string p))
        end;
    vs ← read_args args;
    mret (v :: vs)
  end.

(** [vsnprintf(p, size, fmts, ap)]: the length of the whole output, or -1 (an encoding
    error, or an output longer than [INT_MAX]); what fits is stored with its NUL. *)
Definition vsnprintf (p : ptr) (size : Z) (fmts : string) (args : list fmtarg) : M Z :=
  vals ← read_args args;
  match format fmts vals with
  | None => undef "vsnprintf(): bad format"
  | Some out =>
    b ← load (A := Z * init string) p;
    if decide (size <= b.1) then
      if vsnprintf_fails out || (INT_MAX <? slength out) then mret (-1)%Z
      else
        store p (b.1, Init (String.substring 0 (Z.to_nat (size - 1)) out));;
        mret (slength out)
    else undef "vsnprintf(): buffer overflow"
  end.

Definition malloc_chars (size : Z) : M ptr := malloc (OChars size Uninit).

(** [realloc(p, size)] of a [char] buffer: the text is written anew afterwards. *)
Definition realloc_chars (p : ptr) (size : Z) : M ptr := fun w =>
  match p with
  | Loc l =>
    match heap w !! l with
    | Some (OChars _ _) =>
      if alloc_ok w 0%nat then
        let w1 := alloc_at (pick w) (OChars size Uninit) w in
        Done (Loc (pick w)) (set_heap (delete l (heap w1)) w1)
      else Done Null (alloc_fail w)
    | _ => Undef "realloc() of a block that is not an allocated buffer"
    end
  | _ => Undef "realloc() of an invalid pointer"
  end.

Definition messageBuilder_internalErrors : ptr := Lit MessageBuilderInternalErrors.

(** The [while (1)] loop of [messageBuilder_ap]. *)
Fixpoint messageBuilder_loop (fuel : nat) (p : ptr) (size : Z) (fmts : string) (args : list fmtarg) : M ptr :=
  match fuel with
  | O => out_of_fuel
  | S fuel =>
    n ← vsnprintf p size fmts args;
    if n <? 0 then free p;; mret messageBuilder_internalErrors
    else if n <? size then mret p
    else if INT_MAX <? n + 1 then undef "signed integer overflow"
    else
      let size := n + 1 in
      np ← realloc_chars p size;
      if decide (np = Null) then free p;; mret messageBuilder_internalErrors
      else messageBuilder_loop fuel np size fmts args
  end.

(** The second round always has room: two rounds are enough. *)
Definition messageBuilder_fuel : nat := 2.

Definition messageBuilder_ap (fmts : string) (args : list fmtarg) : M ptr :=
  p ← malloc_chars 4096;
  if decide (p = Null) then mret messageBuilder_internalErrors
  else messageBuilder_loop messageBuilder_fuel p 4096 fmts args.

Definition messageBuilder (fmts : string) (args : list fmtarg) : M ptr :=
  messageBuilder_ap fmts args.

(** ** Dates *)
Definition DATEBUILDER_MAX_SIZE : Z := 1025.

Definition dateBuilder_internalErrors : ptr := Lit DateBuilderInternalErrors.

Definition get_time : M Z := fun w => Done (time_now (user w)) w.

(** [strftime(dates, max, fmts, tmp)]: 0, and an indeterminate buffer, when the result
    does not fit. *)
Definition strftime (dates : ptr) (max : Z) (fmts : string) (tmp : Z) : M Z :=
  let out := strftime_out fmts tmp in
  if slength out <? max then store dates (max, Init out);; mret (slength out)
  else mret 0.

Definition dateBuilder (fmts : string) : M ptr :=
  dates ← malloc_chars DATEBUILDER_MAX_SIZE;
  if decide (dates = Null) then mret dateBuilder_internalErrors
  else
    t ← get_time;
    match localtime t with
    | None => mret dateBuilder_internalErrors
    | Some tmp =>
      n ← strftime dates DATEBUILDER_MAX_SIZE fmts tmp;
      if n =? 0 then mret dateBuilder_internalErrors else mret dates
    end.
End messageBuilder.

(** ** Strings and arguments in memory *)
Definition cstring_at (h : gmap positive obj) (p : ptr) (s : string) : Prop :=
  match p with
  | Null => False
  | Lit l => s = literal_string l
  | Loc l => exists cap, h !! l = Some (OChars cap (Init s))
  end.

Definition arg_holds `{Env} (h : gmap positive obj) (a : fmtarg) (v : fmtval) : Prop :=
  match a, v with
  | FStr p, VStr s => cstring_at h p s
  | FInt z, VInt z' => z = z'
  | FPtr p, VPtr s => s = ptr_string p
  | _, _ => False
  end.

(** ** Lemmas *)
Lemma substring_whole s n : (String.length s <= n)%nat -> String.substring 0 n s = s.
Proof.
  revert n. induction s as [|c s IH]; intros n Hn; simpl in *; [by destruct n|].
  destruct n as [|n]; [lia|]. f_equal. apply IH. lia.
Qed.

Section messageBuilder_props.
Context `{Env}.
Implicit Types (w : world) (h : gmap positive obj).

Lemma cstring_at_mono h h' p s :
  (forall l o, h !! l = Some o -> h' !! l = Some o) -> cstring_at h p s -> cstring_at h' p s.
Proof. destruct p; simpl; [done..|]. intros Hm (cap&?). eauto. Qed.

Lemma args_mono h h' args vals :
  (forall l o, h !! l = Some o -> h' !! l = Some o) ->
  Forall2 (arg_holds h) args vals -> Forall2 (arg_holds h') args vals.
Proof.
  intros Hm Ha. eapply Forall2_impl; [done|]. intros [] [] Hv; simpl in *; try done. by eapply cstring_at_mono.
Qed.

Lemma wp_read_cstring w p s Q : cstring_at (heap w) p s -> Q s w -> wp (read_cstring p) Q w.
Proof.
  destruct p; simpl; [done|by intros ->|]. intros (cap&Hl) HQ. apply wp_bind.
  eapply (wp_load _ (cap, Init s)); [exact Hl|]. by apply wp_ret.
Qed.

Lemma wp_read_args w args vals Q :
  Forall2 (arg_holds (heap w)) args vals -> Q vals w -> wp (read_args args) Q w.
Proof.
  intros Ha. revert Q. induction Ha as [|a v args vals Hv Ha IH]; intros Q HQ; [by apply wp_ret|].
  simpl. apply wp_bind. destruct a, v; simpl in Hv; try done; subst.
  - apply wp_bind. eapply wp_read_cstring; [done|]. apply wp_ret, wp_bind, IH. by apply wp_ret.
  - apply wp_ret, wp_bind, IH. by apply wp_ret.
  - apply wp_ret, wp_bind, IH. by apply wp_ret.
Qed.

Lemma wp_realloc_chars l cap c size Q w :
  heap w !! l = Some (OChars cap c) ->
  (~ no_oom w -> quiet w (alloc_fail w) -> Q Null (alloc_fail w)) ->
  (forall l' w', heap w !! l' = None -> quiet w w' ->
     heap w' = <[l' := OChars size Uninit]> (delete l (heap w)) -> Q (Loc l') w') ->
  wp (realloc_chars (Loc l) size) Q w.
Proof.
  intros Hl H1 H2. unfold wp, realloc_chars. rewrite Hl. destruct (alloc_ok w 0%nat) eqn:E.
  - pose proof (pick_fresh w). assert (l <> pick w) by congruence. apply H2; [done| |].
    + split; [done|]. intros Hn n. apply Hn.
    + simpl. by rewrite delete_insert_ne.
  - assert (~ no_oom w) by (intros Hn; specialize (Hn 0%nat); congruence).
    apply H1; [done|]. by split.
Qed.

(** One call of [vsnprintf] on a buffer of exactly [size] characters. *)
Lemma wp_vsnprintf w l size c0 fmts args vals out Q :
  Forall2 (arg_holds (heap w)) args vals -> format fmts vals = Some out ->
  heap w !! l = Some (OChars size c0) -> slength out <= INT_MAX ->
  (vsnprintf_fails out = true -> Q (-1) w) ->
  (forall s, (slength out < size -> s = out) ->
     Q (slength out) (set_heap (<[l := OChars size (Init s)]> (heap w)) w)) ->
  wp (vsnprintf (Loc l) size fmts args) Q w.
Proof.
  intros Ha Hf Hl Hmax HQ1 HQ2. unfold vsnprintf. apply wp_bind. eapply wp_read_args; [done|].
  rewrite Hf. apply wp_bind. eapply (wp_load _ (size, c0)); [exact Hl|]. simpl.
  rewrite decide_True by lia. destruct (vsnprintf_fails out) eqn:E; simpl; [by apply wp_ret, HQ1|].
  rewrite (proj2 (Z.ltb_ge _ _)) by done. apply wp_bind.
  eapply (wp_store _ (size, c0)); [exact Hl|]. apply wp_ret, HQ2.
  intros Hs. unfold slength in *. rewrite substring_whole; [done|lia].
Qed.

(** What [messageBuilder_ap] hands back. *)
Definition built h (out : string) (r : ptr) h' : Prop :=
  exists l cap, r = Loc l /\ h !! l = None /\ h' = <[l := OChars cap (Init out)]> h /\ slength out < cap.

Lemma wp_messageBuilder_loop fuel w h0 l size c0 fmts args vals out Q :
  heap w = <[l := OChars size c0]> h0 -> h0 !! l = None ->
  Forall2 (arg_holds h0) args vals -> format fmts vals = Some out -> slength out < INT_MAX ->
  0 <= size -> (1 + (if decide (slength out < size)%Z then 0 else 1) <= fuel)%nat ->
  (forall w', heap w' = h0 -> quiet w w' -> ~ no_oom w \/ vsnprintf_fails out = true ->
     Q messageBuilder_internalErrors w') ->
  (forall r w', built h0 out r (heap w') -> quiet w w' -> Q r w') ->
  wp (messageBuilder_loop fuel (Loc l) size fmts args) Q w.
Proof.
  revert w l size c0. induction fuel as [|fuel IH]; intros w l size c0 Hw Hl Ha Hf Hmax Hs0 Hfuel HQ1 HQ2; [lia|].
  simpl. apply wp_bind. assert (0 <= slength out) by (unfold slength; lia).
  eapply wp_vsnprintf; [|done|rewrite Hw; apply lookup_insert_eq|lia| |].
  { eapply args_mono; [|done]. intros l' o ?. rewrite Hw, lookup_insert_ne; congruence. }
  { intros Hfail. apply wp_bind. eapply wp_free; [by rewrite Hw, lookup_insert_eq|].
    apply wp_ret, HQ1; [simpl; by rewrite Hw, delete_insert_id|apply quiet_set_heap|by right]. }
  intros s Hs. rewrite (proj2 (Z.ltb_ge _ _)) by lia. rewrite Hw, insert_insert_eq.
  destruct (slength out <? size) eqn:E; Zbool.
  { apply wp_ret, HQ2; [|apply quiet_set_heap]. exists l, size. rewrite Hs by done. done. }
  rewrite (proj2 (Z.ltb_ge _ _)) by lia. apply wp_bind.
  eapply wp_realloc_chars; [simpl; apply lookup_insert_eq| |].
  - intros Hno Hq. rewrite decide_True by done. apply wp_bind.
    eapply wp_free; [simpl; apply lookup_insert_eq|].
    apply wp_ret, HQ1; [simpl; by rewrite delete_insert_id| |by left].
    etrans; [apply quiet_set_heap|]. etrans; [exact Hq|apply quiet_set_heap].
  - intros l' w2 Hl' Hq Hw2. simpl in Hl', Hw2. rewrite delete_insert_id in Hw2 by done.
    rewrite decide_False by done. rewrite decide_False in Hfuel by lia.
    assert (quiet w w2) as Hq2 by (etrans; [apply quiet_set_heap|exact Hq]).
    eapply (IH w2 l' (slength out + 1) Uninit); [done| |done|done|done|lia| | |].
    + apply lookup_insert_None in Hl' as [? _]. done.
    + rewrite decide_True by lia. lia.
    + intros w' Hh Hq' Hor. apply HQ1; [done|by etrans|]. destruct Hor as [Hno|]; [|by right].
      left. intros Hn. by apply Hno, Hq2.
    + intros r w' Hb Hq'. apply HQ2; [done|by etrans].
Qed.

Lemma wp_messageBuilder_ap w fmts args vals out Q :
  Forall2 (arg_holds (heap w)) args vals -> format fmts vals = Some out -> slength out < INT_MAX ->
  (forall w', heap w' = heap w -> quiet w w' -> ~ no_oom w \/ vsnprintf_fails out = true ->
     Q messageBuilder_internalErrors w') ->
  (forall r w', built (heap w) out r (heap w') -> quiet w w' -> Q r w') ->
  wp (messageBuilder_ap fmts args) Q w.
Proof.
  intros Ha Hf Hmax HQ1 HQ2. unfold messageBuilder_ap. apply wp_bind.
  apply wp_malloc_cases.
  - intros Hno Hq. rewrite decide_True by done. apply wp_ret, HQ1; [done|done|by left].
  - intros l Hl Hq. rewrite decide_False by done. set (w1 := alloc_at _ _ _) in *.
    eapply (wp_messageBuilder_loop _ w1 (heap w) l 4096 Uninit); [done..| | |].
    + unfold messageBuilder_fuel. case_decide; lia.
    + intros w' Hh Hq' Hor. apply HQ1; [done|by etrans|].
      destruct Hor as [Hno|]; [|by right]. left. intros Hn. by apply Hno, Hq.
    + intros r w' Hb Hq'. apply HQ2; [done|by etrans].
Qed.

Lemma fueled_read_cstring p : fueled (read_cstring p).
Proof. destruct p; [done..|]. apply fueled_bind; auto with marpa. Qed.

Lemma fueled_read_args args : fueled (read_args args).
Proof.
  induction args as [|a args IH]; [apply fueled_ret|]. simpl. apply fueled_bind.
  - destruct a; auto with marpa. apply fueled_bind; [apply fueled_read_cstring|auto with marpa].
  - intros v. apply fueled_bind; auto with marpa.
Qed.
End messageBuilder_props.

(** ** Properties *)
Section messageBuilder_theorems.
Context `{Env}.

(** [messageBuilder_ap] with well-formed arguments ends within its two rounds, never
    returns [NULL], and either returns a fresh block that holds exactly the formatted
    text, or the static error string with nothing left allocated; the latter only when
    memory was refused or [vsnprintf()] failed. *)
Theorem messageBuilder_ap_result (w : world) fmts args vals out :
  Forall2 (arg_holds (heap w)) args vals -> format fmts vals = Some out -> slength out < INT_MAX ->
  wp (messageBuilder_ap fmts args)
     (fun r w' => r <> Null /\ quiet w w' /\
        (built (heap w) out r (heap w') \/
         r = messageBuilder_internalErrors /\ heap w' = heap w
           /\ (~ no_oom w \/ vsnprintf_fails out = true))) w.
Proof.
  intros. eapply wp_messageBuilder_ap; [done..| |].
  - intros w' Hh Hq Hor. split_and!; [done|done|]. by right.
  - intros r w' Hb Hq. split_and!; [|done|by left]. by destruct Hb as (l&cap&->&_).
Qed.

(** A defect: when [localtime()] or [strftime()] fails, [dateBuilder] returns the
    static error string and the buffer it allocated is lost. *)
Theorem dateBuilder_leak (w : world) fmts :
  alloc_ok w 0%nat = true ->
  (localtime (time_now (user w)) = None \/
   exists tmp, localtime (time_now (user w)) = Some tmp /\ DATEBUILDER_MAX_SIZE <= slength (strftime_out fmts tmp)) ->
  wp (dateBuilder fmts)
     (fun r w' => r = dateBuilder_internalErrors /\ exists l, heap w !! l = None
        /\ heap w' = <[l := OChars DATEBUILDER_MAX_SIZE Uninit]> (heap w)) w.
Proof.
  intros Ho Hfail. unfold dateBuilder. apply wp_bind.
  unfold wp at 1, malloc_chars, malloc. rewrite Ho, decide_False by done.
  apply wp_bind. unfold wp at 1, get_time. simpl user.
  pose proof (pick_fresh w). destruct Hfail as [->|(tmp&->&Hlen)].
  - apply wp_ret. split; [done|]. by exists (pick w).
  - apply wp_bind. unfold strftime. rewrite (proj2 (Z.ltb_ge _ _)) by done.
    apply wp_ret, wp_ret. split; [done|]. by exists (pick w).
Qed.
End messageBuilder_theorems.

(** ** Witnesses *)
Lemma messageBuilder_ap_result_witness :
  exists r w', messageBuilder_ap "%s: %d" [FStr (Lit (Str "x")); FInt 7] (demo_world ∅ []) = Done r w'
    /\ r <> Null.
Proof.
  destruct (wp_run _ _ _ (messageBuilder_ap_result (demo_world ∅ []) "%s: %d" [FStr (Lit (Str "x")); FInt 7]
    [VStr "x"; VInt 7] "x: 7" ltac:(by repeat constructor) eq_refl eq_refl)) as (r&w'&Hrun&Hr&_).
  by exists r, w'.
Defined.

(** A system without local time. *)
Definition demo_env_notime : Env := {|
  marpa_run R c m := demo_marpa c m;
  user_run R c := demo_user c;
  strerror _ := "error"%string;
  vsnprintf_fails _ := false;
  ptr_string _ := "p"%string;
  time_now _ := 0;
  localtime _ := None;
  strftime_out _ _ := ""%string;
  write_result u s := (Z.of_nat (String.length s), u);
  loop_fuel := 100%nat
|}.

Lemma dateBuilder_leak_witness :
  exists w', dateBuilder (H0 := demo_env_notime) "%d" (demo_world ∅ []) = Done dateBuilder_internalErrors w'
    /\ heap w' <> ∅.
Proof.
  destruct (wp_run _ _ _ (dateBuilder_leak (H0 := demo_env_notime) (demo_world ∅ []) "%d" eq_refl
    ltac:(by left))) as (r&w'&Hrun&->&l&Hl&Hh).
  exists w'. split; [done|]. rewrite Hh. apply insert_non_empty.
Defined.
