(* ===== verification/Logger.v ===== *)
(** * The logger: [src/genericLogger.c] *)
From S2P Require Import Prelude Types External Runtime Demo MessageBuilder.

Definition newline : string := String (Ascii.ascii_of_nat 10) EmptyString.

Section genericLogger.
Context `{Env}.

Definition genericLogger_logLevel_seti (genericLoggerp : ptr) (logLeveli : genericLoggerLevel_t) : M genericLoggerLevel_t :=
  update genericLoggerp (fun g => GenericLogger (gl_logCallbackp g) (gl_userDatavp g) logLeveli);;
  g ← load genericLoggerp;
  mret (gl_genericLoggerLeveli g).

Definition genericLogger_logLevel_geti (genericLoggerp : ptr) : M genericLoggerLevel_t :=
  g ← load genericLoggerp;
  mret (gl_genericLoggerLeveli g).

Definition genericLogger_defaultLogCallback : fn := FnDefaultLog.

Definition log_prefix (logLeveli : genericLoggerLevel_t) : string :=
  match logLeveli with
  | GENERICLOGGER_LOGLEVEL_TRACE => "TRACE"
  | GENERICLOGGER_LOGLEVEL_DEBUG => "DEBUG"
  | GENERICLOGGER_LOGLEVEL_INFO => "INFO"
  | GENERICLOGGER_LOGLEVEL_NOTICE => "NOTICE"
  | GENERICLOGGER_LOGLEVEL_WARNING => "WARNING"
  | GENERICLOGGER_LOGLEVEL_ERROR => "ERROR"
  | GENERICLOGGER_LOGLEVEL_CRITICAL => "CRITICAL"
  | GENERICLOGGER_LOGLEVEL_ALERT => "ALERT"
  | GENERICLOGGER_LOGLEVEL_EMERGENCY => "EMERGENCY"
  end.

(** [write(fileno(stderr), bytes, strlen(bytes))]: the bytes the system takes are an
    observable event. *)
Definition write_stderr (bytes : string) : M Z := fun w =>
  let '(n, u) := write_result (user w) bytes in
  Done n (emit (EvWrite (String.substring 0 (Z.to_nat n) bytes)) (set_user u w)).

Definition string_drop (n : Z) (s : string) : string :=
  String.substring (Z.to_nat n) (String.length s) s.

(** [while (bytesWriten < count)]: the signed [bytesWriten] is converted to [size_t] by
    the comparison, so that an error on the first call ends the loop. *)
Fixpoint write_loop (fuel : nat) (s : string) (bytesWriten : Z) : M unit :=
  if to_size_t bytesWriten <? slength s then
    match fuel with
    | O => out_of_fuel
    | S fuel =>
      n ← write_stderr (string_drop bytesWriten s);
      write_loop fuel s (bytesWriten + n)
    end
  else mret tt.

Definition genericLogger_defaultCallback (userDatavp : ptr) (logLeveli : genericLoggerLevel_t) (msgs : ptr) : M unit :=
  dates ← dateBuilder "%d/%m/%Y %H:%M:%S";
  localMsgs ← messageBuilder ("%s %9s %s" +:+ newline)
    [FStr dates; FStr (Lit (Str (log_prefix logLeveli)));
     FStr (if decide (msgs = Null) then Lit LoggerNoMessage else msgs)];
  s ← read_cstring localMsgs;
  write_loop loop_fuel s 0;;
  (if decide (dates = dateBuilder_internalErrors) then mret tt else free dates);;
  (if decide (localMsgs = messageBuilder_internalErrors) then mret tt else free localMsgs).

(** The call through [logCallbackp]. *)
Definition call_log (f : fn) (userDatavp : ptr) (logLeveli : genericLoggerLevel_t) (msgs : ptr) : M unit :=
  match f with
  | FnDefaultLog => genericLogger_defaultCallback userDatavp logLeveli msgs
  | FnUser _ => user_ (ULog f userDatavp logLeveli msgs)
  | _ => undef "call of a function of another type"
  end.

Definition genericLogger_newp (logCallbackp : option fn) (userDatavp : ptr) (genericLoggerLeveli : genericLoggerLevel_t) : M ptr :=
  malloc (OLogger (GenericLogger logCallbackp userDatavp genericLoggerLeveli)).

(** [genericLoggerpp] is [None] for [NULL]; the result is the new [*genericLoggerpp]. *)
Definition genericLogger_freev (genericLoggerpp : option ptr) : M (option ptr) :=
  match genericLoggerpp with
  | None => mret None
  | Some genericLoggerp =>
    if decide (genericLoggerp = Null) then mret (Some Null)
    else free genericLoggerp;; mret (Some Null)
  end.

Definition genericLogger_log (genericLoggerp : ptr) (genericLoggerLeveli : genericLoggerLevel_t)
    (fmts : option string) (args : list fmtarg) : M unit :=
  g ← (if decide (genericLoggerp = Null)
       then mret (GenericLogger (Some FnDefaultLog) Null GENERICLOGGER_LOGLEVEL_WARNING)
       else load genericLoggerp);
  let logCallbackp := from_option id FnDefaultLog (gl_logCallbackp g) in
  if level_rank (gl_genericLoggerLeveli g) <=? level_rank genericLoggerLeveli then
    msgs ← match fmts with
           | Some fmts => messageBuilder_ap fmts args
           | None => mret (Lit LoggerEmptyMessages)
           end;
    (if decide (msgs = messageBuilder_internalErrors)
     then call_log logCallbackp (gl_userDatavp g) GENERICLOGGER_LOGLEVEL_ERROR msgs
     else call_log logCallbackp (gl_userDatavp g) genericLoggerLeveli msgs);;
    (if decide (msgs = Lit LoggerEmptyMessages \/ msgs = messageBuilder_internalErrors) then mret tt
     else free msgs)
  else mret tt.
End genericLogger.

(** ** What logging needs of its surroundings

    A log call leaves the heap as it found it when the user's log callbacks do, when the
    date can be formatted, and when [write(2)] takes what it is given. *)
Class LogNeutral `{Env} : Prop := {
  log_user_neutral : forall id ud level msgs, neutral (user_ (ULog (FnUser id) ud level msgs));
  log_date : forall t, exists tmp, localtime t = Some tmp
    /\ 0 < slength (strftime_out "%d/%m/%Y %H:%M:%S" tmp) < DATEBUILDER_MAX_SIZE;
  log_write : forall u s, (write_result u s).1 = slength s;
  log_fuel : (2 <= loop_fuel)%nat;
  log_strerror : forall e, slength (strerror e) <= 2 ^ 20
}.

(** A function the logger may call. *)
Definition log_callable (f : option fn) : Prop :=
  match f with
  | None | Some (FnUser _) | Some FnDefaultLog => True
  | _ => False
  end.

(** A logger argument: [NULL], or a logger block. *)
Definition logger_at (h : gmap positive obj) (p : ptr) : Prop :=
  p = Null \/ exists l g, p = Loc l /\ h !! l = Some (OLogger g) /\ log_callable (gl_logCallbackp g).

(** The texts the program logs are far from [INT_MAX]. *)
Definition short (s : string) : Prop := slength s <= 2 ^ 22.

Section logger_props.
Context `{LogNeutral}.
Implicit Types (w : world) (h : gmap positive obj).

Lemma slength_app s t : slength (s +:+ t) = slength s + slength t.
Proof.
  unfold slength. induction s as [|c s IH]; [done|].
  change (String.length (String c s +:+ t)) with (S (String.length (s +:+ t))).
  simpl String.length. lia.
Qed.

Lemma slength_nonneg s : 0 <= slength s.
Proof. unfold slength. lia. Qed.

Lemma string_drop_0 s : string_drop 0 s = s.
Proof. unfold string_drop. apply substring_whole. done. Qed.

Lemma neutral_write_loop s : slength s <= 2 ^ 30 -> neutral (write_loop loop_fuel s 0).
Proof.
  intros Hs w. destruct loop_fuel as [|[|fuel]] eqn:E; [pose proof log_fuel; lia..|].
  pose proof (slength_nonneg s). simpl. rewrite !to_size_t_small by (unfold is_size_t, SIZE_MOD; lia).
  destruct (0 <? slength s) eqn:E0; [|by apply wp_ret]. apply wp_bind.
  unfold wp, write_stderr. rewrite string_drop_0.
  destruct (write_result (user w) s) as [n u] eqn:Ew.
  assert (n = slength s) as ->. { rewrite <- (log_write (user w) s), Ew. done. }
  rewrite Z.add_0_l, to_size_t_small, Z.ltb_irrefl by (unfold is_size_t, SIZE_MOD; lia).
  split; [done|]. split; [|by intros Hn n; apply (Hn n)]. split; [done|]. simpl. by rewrite live_snoc.
Qed.

Lemma log_prefix_length lev : slength (log_prefix lev) <= 9.
Proof. by destruct lev. Qed.

Lemma pad_left_length n s : slength (pad_left n s) <= Z.max (Z.of_nat n) (slength s).
Proof.
  unfold pad_left. rewrite slength_app.
  assert (forall k, slength (String.concat "" (replicate k " "%string)) = Z.of_nat k) as ->.
  { induction k as [|k IH]; [done|]. destruct k as [|k]; [done|].
    change (slength (" " +:+ "" +:+ String.concat "" (replicate (S k) " "%string)) = Z.of_nat (S (S k))).
    rewrite !slength_app, IH. unfold slength. simpl. lia. }
  unfold slength. lia.
Qed.

(** The format of the default callback. *)
Lemma format_default a b c :
  format ("%s %9s %s" +:+ newline) [VStr a; VStr b; VStr c]
  = Some (a +:+ " " +:+ pad_left 9 b +:+ " " +:+ c +:+ newline)%string.
Proof. done. Qed.

Lemma built_cstring h out r h' : built h out r h' -> cstring_at h' r out.
Proof. intros (l&cap&->&_&->&_). simpl. rewrite lookup_insert_eq. by eexists. Qed.

Lemma built_mono h out r h' l o : built h out r h' -> h !! l = Some o -> h' !! l = Some o.
Proof. intros (l'&cap&_&?&->&_) ?. rewrite lookup_insert_ne; congruence. Qed.

(** A text that is either one of the static strings or a fresh block. *)
Definition text_in h (static r : ptr) (t : string) h' : Prop :=
  cstring_at h' r t /\ (r = static /\ h' = h \/
    exists l cap, r = Loc l /\ h !! l = None /\ h' = <[l := OChars cap (Init t)]> h).

Lemma built_text h out r h' static : built h out r h' -> text_in h static r out h'.
Proof.
  intros Hb. split; [by eapply built_cstring|]. right. destruct Hb as (l&cap&->&?&->&_). by exists l, cap.
Qed.

Lemma text_in_mono h static r t h' l o : text_in h static r t h' -> h !! l = Some o -> h' !! l = Some o.
Proof.
  intros [_ [[_ ->]|(l'&cap&_&?&->)]] ?; [done|]. rewrite lookup_insert_ne; congruence.
Qed.

(** Releasing it, possibly after other blocks have been allocated or released. *)
Lemma wp_free_text w h static r t h' hw Q :
  static <> Null -> (forall l, static <> Loc l) -> text_in h static r t h' ->
  heap w = hw -> (forall l, r = Loc l -> is_Some (hw !! l)) ->
  (forall w', heap w' = delete_locs (locs_of [r]) hw -> quiet w w' -> Q tt w') ->
  wp (if decide (r = static) then mret tt else free r) Q w.
Proof.
  intros Hn Hs [_ Ht] Hw Hl HQ. destruct Ht as [[-> _]|(l&cap&->&_)].
  - rewrite decide_True by done. apply wp_ret, HQ; [|done].
    destruct static as [| |l]; [done|exact Hw|]. by destruct (Hs l).
  - rewrite decide_False by (intros Heq; by apply (Hs l)). destruct (Hl l eq_refl) as [o Ho].
    eapply wp_free; [by rewrite Hw|]. apply HQ; [simpl; by rewrite Hw|apply quiet_set_heap].
Qed.

Lemma text_in_delete h static r t h' :
  (forall l, static <> Loc l) -> text_in h static r t h' -> delete_locs (locs_of [r]) h' = h.
Proof.
  intros Hs [_ [[-> ->]|(l&cap&->&?&->)]].
  - destruct static as [| |l]; [done|done|]. by destruct (Hs l).
  - unfold locs_of. simpl. by apply delete_insert_id.
Qed.

Lemma text_in_live h static r t h' l : (forall l, static <> Loc l) -> text_in h static r t h' -> r = Loc l -> is_Some (h' !! l).
Proof.
  intros Hs [_ [[-> _]|(l'&cap&->&_&->)]] Heq; [by destruct (Hs l)|].
  injection Heq as ->. rewrite lookup_insert_eq. eauto.
Qed.

Lemma delete_locs_comm ls1 ls2 h : delete_locs ls1 (delete_locs ls2 h) = delete_locs ls2 (delete_locs ls1 h).
Proof.
  apply map_eq. intros l. rewrite !delete_locs_lookup. repeat case_decide; done.
Qed.

Lemma wp_messageBuilder w fmts args vals out Q :
  Forall2 (arg_holds (heap w)) args vals -> format fmts vals = Some out -> slength out < INT_MAX ->
  (forall r t w', text_in (heap w) messageBuilder_internalErrors r t (heap w') ->
     t = out \/ t = "Internal error"%string -> quiet w w' -> Q r w') ->
  wp (messageBuilder_ap fmts args) Q w.
Proof.
  intros Ha Hf Hmax HQ. eapply wp_messageBuilder_ap; [done..| |].
  - intros w' Hh Hq _. eapply (HQ _ "Internal error"%string); [|by right|done].
    split; [done|by left].
  - intros r w' Hb Hq. eapply (HQ _ out); [by apply built_text|by left|done].
Qed.

Lemma wp_dateBuilder w Q :
  (forall r w' s, text_in (heap w) dateBuilder_internalErrors r s (heap w') ->
     slength s < DATEBUILDER_MAX_SIZE -> quiet w w' -> Q r w') ->
  wp (dateBuilder "%d/%m/%Y %H:%M:%S") Q w.
Proof.
  intros HQ. unfold dateBuilder, malloc_chars. apply wp_bind, wp_malloc_cases.
  - intros _ Hq. rewrite decide_True by done. apply wp_ret. eapply (HQ _ _ "Internal error"%string); [|done|done]. split; [done|by left].
  - intros l Hl Hq. rewrite decide_False by done. apply wp_bind. unfold wp at 1, get_time.
    destruct (log_date (time_now (user (alloc_at l (OChars DATEBUILDER_MAX_SIZE Uninit) w)))) as (tmp&->&Hlo&Hhi).
    apply wp_bind. unfold strftime. rewrite (proj2 (Z.ltb_lt _ _)) by done. apply wp_bind.
    eapply (wp_store _ (DATEBUILDER_MAX_SIZE, Uninit)); [simpl; apply lookup_insert_eq|].
    apply wp_ret. rewrite (proj2 (Z.eqb_neq _ _)) by lia. apply wp_ret. simpl. rewrite insert_insert_eq.
    eapply (HQ _ _ (strftime_out "%d/%m/%Y %H:%M:%S" tmp)).
    + split; [simpl; rewrite lookup_insert_eq; by eexists|]. right. by exists l, DATEBUILDER_MAX_SIZE.
    + done.
    + etrans; [exact Hq|apply quiet_set_heap].
Qed.

Lemma wp_defaultCallback w ud lev msgs s Q :
  (msgs = Null \/ cstring_at (heap w) msgs s /\ short s) ->
  (forall w', heap w' = heap w -> quiet w w' -> Q tt w') ->
  wp (genericLogger_defaultCallback ud lev msgs) Q w.
Proof.
  intros Hmsgs HQ. unfold genericLogger_defaultCallback. apply wp_bind, wp_dateBuilder.
  intros dates w1 ds Hd Hlen Hq1.
  set (m := if decide (msgs = Null) then Lit LoggerNoMessage else msgs).
  set (ms := if decide (msgs = Null) then "No message"%string else s).
  assert (cstring_at (heap w1) m ms /\ short ms) as [Hm Hms].
  { unfold m, ms. destruct (decide (msgs = Null)); [done|]. destruct Hmsgs as [|[Hc Hs]]; [done|].
    split; [|done]. eapply cstring_at_mono; [|done]. intros l o. by eapply text_in_mono. }
  pose proof (pad_left_length 9 (log_prefix lev)) as Hpad. pose proof (log_prefix_length lev) as Hpre.
  unfold short, DATEBUILDER_MAX_SIZE in *.
  assert (slength (ds +:+ " " +:+ pad_left 9 (log_prefix lev) +:+ " " +:+ ms +:+ newline) <= 2 ^ 23) as Hout.
  { rewrite !slength_app. change (slength " ") with 1. change (slength newline) with 1. lia. }
  apply wp_bind. unfold messageBuilder.
  eapply (wp_messageBuilder _ _ _ [VStr ds; VStr (log_prefix lev); VStr ms]).
  { constructor; [apply Hd|]. constructor; [done|]. by constructor. }
  { apply format_default. }
  { unfold INT_MAX. lia. }
  intros r t w2 Hr Ht Hq2. apply wp_bind. eapply wp_read_cstring; [apply Hr|]. apply wp_bind, wp_neutral.
  { apply neutral_write_loop. destruct Ht as [->| ->]; [|done]. lia. }
  intros [] w3 Hh3 Hq3. apply wp_bind. eapply (wp_free_text _ _ dateBuilder_internalErrors _ _ _ _ _ ltac:(discriminate) ltac:(discriminate) Hd Hh3).
  { intros l Hl. destruct (text_in_live _ dateBuilder_internalErrors _ _ _ l ltac:(discriminate) Hd Hl) as [o Ho].
    exists o. by eapply text_in_mono. }
  intros w4 Hh4 Hq4. eapply (wp_free_text _ _ messageBuilder_internalErrors _ _ _ _ _ ltac:(discriminate) ltac:(discriminate) Hr Hh4).
  { intros l Hl. rewrite delete_locs_lookup_ne; [by eapply (text_in_live _ messageBuilder_internalErrors _ _ _ l ltac:(discriminate) Hr)|].
    intros Hin. apply elem_of_locs_of, list_elem_of_singleton in Hin. subst dates r.
    destruct (text_in_live _ dateBuilder_internalErrors _ _ _ l ltac:(discriminate) Hd eq_refl) as [o Ho].
    destruct Hr as [_ [[? _]|(l'&cap&[= ->]&Hf&_)]]; [done|congruence]. }
  intros w5 Hh5 Hq5. apply HQ.
  - rewrite Hh5, delete_locs_comm. rewrite (text_in_delete _ messageBuilder_internalErrors _ _ _ ltac:(discriminate) Hr).
    apply (text_in_delete _ dateBuilder_internalErrors _ _ _ ltac:(discriminate) Hd).
  - etrans; [done|]. etrans; [done|]. etrans; [done|]. by etrans.
Qed.

Lemma wp_call_log w f ud lev msgs s Q :
  log_callable (Some f) -> msgs = Null \/ cstring_at (heap w) msgs s /\ short s ->
  (forall w', heap w' = heap w -> quiet w w' -> Q tt w') ->
  wp (call_log f ud lev msgs) Q w.
Proof.
  intros Hf Hs HQ. destruct f; simpl in Hf; try done; unfold call_log.
  - apply wp_neutral; [apply log_user_neutral|]. intros []; auto.
  - by eapply wp_defaultCallback.
Qed.

Lemma wp_genericLogger_log w p lev fmts args vals out Q :
  logger_at (heap w) p -> Forall2 (arg_holds (heap w)) args vals ->
  format fmts vals = Some out -> short out ->
  (forall w', heap w' = heap w -> quiet w w' -> Q tt w') ->
  wp (genericLogger_log p lev (Some fmts) args) Q w.
Proof.
  intros Hp Ha Hf Hs HQ. unfold genericLogger_log. apply wp_bind.
  assert (forall g, log_callable (gl_logCallbackp g) ->
    wp (let logCallbackp := from_option id FnDefaultLog (gl_logCallbackp g) in
        if level_rank (gl_genericLoggerLeveli g) <=? level_rank lev then
          msgs ← messageBuilder_ap fmts args;
          (if decide (msgs = messageBuilder_internalErrors)
           then call_log logCallbackp (gl_userDatavp g) GENERICLOGGER_LOGLEVEL_ERROR msgs
           else call_log logCallbackp (gl_userDatavp g) lev msgs);;
          (if decide (msgs = Lit LoggerEmptyMessages \/ msgs = messageBuilder_internalErrors) then mret tt
           else free msgs)
        else mret tt) Q w) as Hbody.
  { intros g Hg. cbv zeta. destruct (_ <=? _); [|apply wp_ret, HQ; done]. apply wp_bind.
    eapply wp_messageBuilder; [done..| |].
    { unfold short, INT_MAX in *. lia. }
    intros r t w1 Hr Ht Hq1. apply wp_bind.
    set (lev' := if decide (r = messageBuilder_internalErrors) then GENERICLOGGER_LOGLEVEL_ERROR else lev).
    replace (if decide (r = messageBuilder_internalErrors) then _ else _)
      with (call_log (from_option id FnDefaultLog (gl_logCallbackp g)) (gl_userDatavp g) lev' r)
      by (unfold lev'; by case_decide).
    eapply (wp_call_log _ _ _ _ _ t).
    { destruct (gl_logCallbackp g); done. }
    { right. split; [apply Hr|]. destruct Ht as [->| ->]; done. }
    intros w2 Hh2 Hq2.
    assert (wp (if decide (r = messageBuilder_internalErrors) then mret tt else free r) Q w2) as Hfree.
    { eapply (wp_free_text _ _ messageBuilder_internalErrors _ _ _ _ _ ltac:(discriminate) ltac:(discriminate) Hr Hh2).
      - intros l. apply (text_in_live _ messageBuilder_internalErrors _ _ _ l ltac:(discriminate) Hr).
      - intros w3 Hh3 Hq3. apply HQ; [|by etrans; [done|etrans]].
        rewrite Hh3. by apply (text_in_delete _ messageBuilder_internalErrors _ _ _ ltac:(discriminate) Hr). }
    destruct (decide (_ \/ _)) as [Hor|Hor].
    - rewrite decide_True in Hfree; [done|]. destruct Hor as [Hr0|]; [|done].
      subst r. by destruct Hr as [_ [[[=] _]|(?&?&[=]&_)]].
    - rewrite decide_False in Hfree by tauto. done. }
  destruct Hp as [->|(l&g&->&Hl&Hg)].
  - rewrite decide_True by done. apply wp_ret. by apply Hbody.
  - rewrite decide_False by done. eapply wp_load; [done|]. by apply Hbody.
Qed.
End logger_props.

(** The demonstration environment logs without touching the heap. *)
#[export] Instance demo_logNeutral : LogNeutral (H0 := demo_env).
Proof.
  split.
  - intros id ud level msgs w. apply wp_ret. split; [done|]. split; [|done]. split; [done|]. simpl. by rewrite live_snoc.
  - intros t. by exists t.
  - done.
  - simpl. lia.
  - done.
Qed.
