(* ===== verification/WrapperLog.v ===== *)
(** * The wrapper's log helpers: [_marpaWrapper_log*] and [_marpaWrapper_strerror] of
    [src/marpaWrapper.c]

    The modelled build defines [MARPAWRAPPER_NTRACE]: the trace macros expand to nothing. *)
From S2P Require Import Prelude Types External Runtime MessageBuilder Logger.

(** The inner switch: the texts of the [MARPA_ERR_*] codes of [marpa.h]. *)
Definition marpa_strerror (errorNumberi : Z) : string :=
  match errorNumberi with
  | 0 => "MARPA_ERR_NONE: No error"
  | 1 => "MARPA_ERR_AHFA_IX_NEGATIVE"
  | 2 => "MARPA_ERR_AHFA_IX_OOB"
  | 3 => "MARPA_ERR_ANDID_NEGATIVE"
  | 4 => "MARPA_ERR_ANDID_NOT_IN_OR"
  | 5 => "MARPA_ERR_ANDIX_NEGATIVE"
  | 6 => "MARPA_ERR_BAD_SEPARATOR: Separator has invalid symbol ID"
  | 7 => "MARPA_ERR_BOCAGE_ITERATION_EXHAUSTED"
  | 8 => "MARPA_ERR_COUNTED_NULLABLE: Nullable symbol on RHS of a sequence rule"
  | 9 => "MARPA_ERR_DEVELOPMENT: Development error, see string"
  | 10 => "MARPA_ERR_DUPLICATE_AND_NODE"
  | 11 => "MARPA_ERR_DUPLICATE_RULE: Duplicate rule"
  | 12 => "MARPA_ERR_DUPLICATE_TOKEN: Duplicate token"
  | 13 => "MARPA_ERR_YIM_COUNT: Maximum number of Earley items exceeded"
  | 14 => "MARPA_ERR_YIM_ID_INVALID"
  | 15 => "MARPA_ERR_EVENT_IX_NEGATIVE: Negative event index"
  | 16 => "MARPA_ERR_EVENT_IX_OOB: No event at that index"
  | 17 => "MARPA_ERR_GRAMMAR_HAS_CYCLE: Grammar has cycle"
  | 18 => "MARPA_ERR_INACCESSIBLE_TOKEN: Token symbol is inaccessible"
  | 19 => "MARPA_ERR_INTERNAL"
  | 20 => "MARPA_ERR_INVALID_AHFA_ID"
  | 21 => "MARPA_ERR_INVALID_AIMID"
  | 22 => "MARPA_ERR_INVALID_BOOLEAN: Argument is not boolean"
  | 23 => "MARPA_ERR_INVALID_IRLID"
  | 24 => "MARPA_ERR_INVALID_NSYID"
  | 25 => "MARPA_ERR_INVALID_LOCATION: Location is not valid"
  | 26 => "MARPA_ERR_INVALID_RULE_ID: Rule ID is malformed"
  | 27 => "MARPA_ERR_INVALID_START_SYMBOL: Specified start symbol is not valid"
  | 28 => "MARPA_ERR_INVALID_SYMBOL_ID: Symbol ID is malformed"
  | 29 => "MARPA_ERR_I_AM_NOT_OK: Marpa is in a not OK state"
  | 30 => "MARPA_ERR_MAJOR_VERSION_MISMATCH: Libmarpa major version number is a mismatch"
  | 31 => "MARPA_ERR_MICRO_VERSION_MISMATCH: Libmarpa micro version number is a mismatch"
  | 32 => "MARPA_ERR_MINOR_VERSION_MISMATCH: Libmarpa minor version number is a mismatch"
  | 33 => "MARPA_ERR_NOOKID_NEGATIVE"
  | 34 => "MARPA_ERR_NOT_PRECOMPUTED: This grammar is not precomputed"
  | 35 => "MARPA_ERR_NOT_TRACING_COMPLETION_LINKS"
  | 36 => "MARPA_ERR_NOT_TRACING_LEO_LINKS"
  | 37 => "MARPA_ERR_NOT_TRACING_TOKEN_LINKS"
  | 38 => "MARPA_ERR_NO_AND_NODES"
  | 39 => "MARPA_ERR_NO_EARLEY_SET_AT_LOCATION: Earley set ID is after latest Earley set"
  | 40 => "MARPA_ERR_NO_OR_NODES"
  | 41 => "MARPA_ERR_NO_PARSE: No parse"
  | 42 => "MARPA_ERR_NO_RULES: This grammar does not have any rules"
  | 43 => "MARPA_ERR_NO_START_SYMBOL: This grammar has no start symbol"
  | 44 => "MARPA_ERR_NO_TOKEN_EXPECTED_HERE: No token is expected at this earleme location"
  | 45 => "MARPA_ERR_NO_TRACE_YIM"
  | 46 => "MARPA_ERR_NO_TRACE_YS"
  | 47 => "MARPA_ERR_NO_TRACE_PIM"
  | 48 => "MARPA_ERR_NO_TRACE_SRCL"
  | 49 => "MARPA_ERR_NULLING_TERMINAL: A symbol is both terminal and nulling"
  | 50 => "MARPA_ERR_ORDER_FROZEN: The ordering is frozen"
  | 51 => "MARPA_ERR_ORID_NEGATIVE"
  | 52 => "MARPA_ERR_OR_ALREADY_ORDERED"
  | 53 => "MARPA_ERR_PARSE_EXHAUSTED: The parse is exhausted"
  | 54 => "MARPA_ERR_PARSE_TOO_LONG: This input would make the parse too long"
  | 55 => "MARPA_ERR_PIM_IS_NOT_LIM"
  | 56 => "MARPA_ERR_POINTER_ARG_NULL: An argument is null when it should not be"
  | 57 => "MARPA_ERR_PRECOMPUTED: This grammar is precomputed"
  | 58 => "MARPA_ERR_PROGRESS_REPORT_EXHAUSTED: The progress report is exhausted"
  | 59 => "MARPA_ERR_PROGRESS_REPORT_NOT_STARTED: No progress report has been started"
  | 60 => "MARPA_ERR_RECCE_NOT_ACCEPTING_INPUT: The recognizer is not accepting input"
  | 61 => "MARPA_ERR_RECCE_NOT_STARTED: The recognizer has not been started"
  | 62 => "MARPA_ERR_RECCE_STARTED: The recognizer has been started"
  | 63 => "MARPA_ERR_RHS_IX_NEGATIVE: RHS index cannot be negative"
  | 64 => "MARPA_ERR_RHS_IX_OOB: RHS index must be less than rule length"
  | 65 => "MARPA_ERR_RHS_TOO_LONG: The RHS is too long"
  | 66 => "MARPA_ERR_SEQUENCE_LHS_NOT_UNIQUE: LHS of sequence rule would not be unique"
  | 67 => "MARPA_ERR_SOURCE_TYPE_IS_AMBIGUOUS"
  | 68 => "MARPA_ERR_SOURCE_TYPE_IS_COMPLETION"
  | 69 => "MARPA_ERR_SOURCE_TYPE_IS_LEO"
  | 70 => "MARPA_ERR_SOURCE_TYPE_IS_NONE"
  | 71 => "MARPA_ERR_SOURCE_TYPE_IS_TOKEN"
  | 72 => "MARPA_ERR_SOURCE_TYPE_IS_UNKNOWN"
  | 73 => "MARPA_ERR_START_NOT_LHS: Start symbol not on LHS of any rule"
  | 74 => "MARPA_ERR_SYMBOL_VALUED_CONFLICT: Symbol is treated both as valued and unvalued"
  | 75 => "MARPA_ERR_TERMINAL_IS_LOCKED: The terminal status of the symbol is locked"
  | 76 => "MARPA_ERR_TOKEN_IS_NOT_TERMINAL: Token symbol must be a terminal"
  | 77 => "MARPA_ERR_TOKEN_LENGTH_LE_ZERO: Token length must greater than zero"
  | 78 => "MARPA_ERR_TOKEN_TOO_LONG: Token is too long"
  | 79 => "MARPA_ERR_TREE_EXHAUSTED: Tree iterator is exhausted"
  | 80 => "MARPA_ERR_TREE_PAUSED: Tree iterator is paused"
  | 81 => "MARPA_ERR_UNEXPECTED_TOKEN_ID: Unexpected token"
  | 82 => "MARPA_ERR_UNPRODUCTIVE_START: Unproductive start symbol"
  | 83 => "MARPA_ERR_VALUATOR_INACTIVE: Valuator inactive"
  | 84 => "MARPA_ERR_VALUED_IS_LOCKED: The valued status of the symbol is locked"
  | 85 => "MARPA_ERR_RANK_TOO_LOW: Rule or symbol rank too low"
  | 86 => "MARPA_ERR_RANK_TOO_HIGH: Rule or symbol rank too high"
  | 87 => "MARPA_ERR_SYMBOL_IS_NULLING: Symbol is nulling"
  | 88 => "MARPA_ERR_SYMBOL_IS_UNUSED: Symbol is not used"
  | 89 => "MARPA_ERR_NO_SUCH_RULE_ID: No rule with this ID exists"
  | 90 => "MARPA_ERR_NO_SUCH_SYMBOL_ID: No symbol with this ID exists"
  | 91 => "MARPA_ERR_BEFORE_FIRST_TREE: Tree iterator is before first tree"
  | 92 => "MARPA_ERR_SYMBOL_IS_NOT_COMPLETION_EVENT: Symbol is not set up for completion events"
  | 93 => "MARPA_ERR_SYMBOL_IS_NOT_NULLED_EVENT: Symbol is not set up for nulled events"
  | 94 => "MARPA_ERR_SYMBOL_IS_NOT_PREDICTION_EVENT: Symbol is not set up for prediction events"
  | 95 => "MARPA_ERR_RECCE_IS_INCONSISTENT"
  | 96 => "MARPA_ERR_INVALID_ASSERTION_ID: Assertion ID is malformed"
  | 97 => "MARPA_ERR_NO_SUCH_ASSERTION_ID: No assertion with this ID exists"
  | _ => "Unknown Marpa error"
  end.

Section wrapperLog.
Context `{Env}.

(** [const char *_marpaWrapper_strerror(...)]; [strerror()] returns a static string. *)
Definition marpaWrapper_strerror (errorOrigini : marpaWrapperErrorOrigin_t) (errorNumberi : Z) : string :=
  match errorOrigini with
  | MARPAWRAPPERERRORORIGIN_SYSTEM => strerror errorNumberi
  | MARPAWRAPPERERRORORIGIN_NA => ""
  | MARPAWRAPPERERRORORIGIN_MARPA => marpa_strerror errorNumberi
  end.

Definition marpaWrapper_logExt (marpaWrapperp : ptr) (errorOrigini : marpaWrapperErrorOrigin_t)
    (errorNumberi : Z) (calls : ptr) (genericLoggerLeveli : genericLoggerLevel_t) : M unit :=
  if decide (marpaWrapperp = Null) then mret tt
  else
    let strerrors := marpaWrapper_strerror errorOrigini errorNumberi in
    msgs ← (if slength strerrors >? 0 then
              if decide (calls = Null) then messageBuilder "%s" [FStr (Lit (Str strerrors))]
              else messageBuilder "%s: %s" [FStr calls; FStr (Lit (Str strerrors))]
            else messageBuilder "%s" [FStr (if decide (calls = Null) then Lit (Str "Unknown call") else calls)]);
    mw ← load (A := marpaWrapper) marpaWrapperp;
    if decide (msgs = messageBuilder_internalErrors) then
      genericLogger_log (mw_genericLoggerp mw) GENERICLOGGER_LOGLEVEL_ERROR (Some "%s") [FStr msgs]
    else
      genericLogger_log (mw_genericLoggerp mw) genericLoggerLeveli (Some "%s") [FStr msgs];;
      free msgs.

Definition marpaWrapper_logWrapper (marpaWrapperp : ptr) (errorOrigini : marpaWrapperErrorOrigin_t)
    (errorNumberi : Z) (calls : ptr) (genericLoggerLeveli : genericLoggerLevel_t) : M unit :=
  if decide (marpaWrapperp = Null) then mret tt
  else marpaWrapper_logExt marpaWrapperp errorOrigini errorNumberi calls genericLoggerLeveli.

Definition marpaWrapper_log (marpaWrapperp : ptr) (genericLoggerLeveli : genericLoggerLevel_t)
    (marpaWrapperErrorOrigini : marpaWrapperErrorOrigin_t) (errorCodei : Z)
    (fmts : option string) (args : list fmtarg) : M unit :=
  msgs ← match fmts with
         | Some fmts => messageBuilder_ap fmts args
         | None => mret (Lit WrapperEmptyMessages)
         end;
  marpaWrapper_logWrapper marpaWrapperp marpaWrapperErrorOrigini errorCodei msgs genericLoggerLeveli;;
  if decide (msgs = Lit WrapperEmptyMessages \/ msgs = messageBuilder_internalErrors) then mret tt
  else free msgs.

(** ** The log macros *)
Definition LOG_INFO0 (p : ptr) (s : string) : M unit :=
  marpaWrapper_log p GENERICLOGGER_LOGLEVEL_INFO MARPAWRAPPERERRORORIGIN_NA 0 (Some s) [].
Definition LOG_WARNING0 (p : ptr) (s : string) : M unit :=
  marpaWrapper_log p GENERICLOGGER_LOGLEVEL_WARNING MARPAWRAPPERERRORORIGIN_NA 0 (Some s) [].
Definition LOG_ERROR0 (p : ptr) (s : string) : M unit :=
  marpaWrapper_log p GENERICLOGGER_LOGLEVEL_ERROR MARPAWRAPPERERRORORIGIN_NA 0 (Some s) [].
Definition LOG_ERRORX (p : ptr) (s : string) (args : list fmtarg) : M unit :=
  marpaWrapper_log p GENERICLOGGER_LOGLEVEL_ERROR MARPAWRAPPERERRORORIGIN_NA 0 (Some s) args.
Definition LOG_NOTICEX (p : ptr) (s : string) (args : list fmtarg) : M unit :=
  marpaWrapper_log p GENERICLOGGER_LOGLEVEL_NOTICE MARPAWRAPPERERRORORIGIN_NA 0 (Some s) args.
Definition LOG_MARPA_ERROR (p : ptr) (errorCode : Z) : M unit :=
  marpaWrapper_log p GENERICLOGGER_LOGLEVEL_ERROR MARPAWRAPPERERRORORIGIN_MARPA errorCode (Some "Marpa") [].
Definition LOG_MARPA_G_ERROR (p : ptr) : M unit :=
  mw ← load (A := marpaWrapper) p;
  e ← marpa_ (marpa_g_error (mw_marpaGrammarp mw));
  LOG_MARPA_ERROR p e.
Definition LOG_MARPA_C_ERROR (p : ptr) : M unit :=
  e ← marpa_ marpa_c_error;
  LOG_MARPA_ERROR p e.
Definition LOG_SYS_ERROR (p : ptr) (calls : string) : M unit :=
  e ← get_errno;
  marpaWrapper_log p GENERICLOGGER_LOGLEVEL_ERROR MARPAWRAPPERERRORORIGIN_SYSTEM e (Some calls) [].
End wrapperLog.

(** ** The log helpers leave the heap alone *)

(** A wrapper block with a usable logger. *)
Definition wrapper_at (h : gmap positive obj) (l : positive) (mw : marpaWrapper) : Prop :=
  h !! l = Some (OWrapper mw) /\ logger_at h (mw_genericLoggerp mw).

Lemma marpa_strerror_short e : slength (marpa_strerror e) <= 100.
Proof. destruct e as [|p|p]; [done| |done]. do 7 (destruct p as [p|p|]; try done). Qed.

Section wrapperLog_props.
Context `{LogNeutral}.
Implicit Types (w : world).

Lemma wrapper_strerror_short o e : slength (marpaWrapper_strerror o e) <= 2 ^ 20.
Proof.
  destruct o; simpl; [apply log_strerror| |done].
  pose proof (marpa_strerror_short e). lia.
Qed.

Lemma format_s s : format "%s" [VStr s] = Some s.
Proof. simpl. f_equal. induction s as [|c s IH]; [done|]. change (String c (s +:+ "") = String c s). by f_equal. Qed.

Lemma format_s_s s t : format "%s: %s" [VStr s; VStr t] = Some (s +:+ ": " +:+ t)%string.
Proof.
  pose proof (format_s t) as Ht. injection Ht as Ht. simpl. by rewrite Ht.
Qed.

Lemma wp_marpaWrapper_logExt w l mw o e calls s lev Q :
  wrapper_at (heap w) l mw -> (calls = Null \/ cstring_at (heap w) calls s /\ slength s <= 2 ^ 20) ->
  (forall w', heap w' = heap w -> quiet w w' -> Q tt w') ->
  wp (marpaWrapper_logExt (Loc l) o e calls lev) Q w.
Proof.
  intros [Hl Hlog] Hc HQ. unfold marpaWrapper_logExt. rewrite decide_False by done.
  pose proof (wrapper_strerror_short o e) as Herr. set (err := marpaWrapper_strerror o e) in *.
  apply wp_bind.
  assert (forall r t w1, text_in (heap w) messageBuilder_internalErrors r t (heap w1) ->
    short t -> quiet w w1 ->
    wp (mw ← load (A := marpaWrapper) (Loc l);
        if decide (r = messageBuilder_internalErrors) then
          genericLogger_log (mw_genericLoggerp mw) GENERICLOGGER_LOGLEVEL_ERROR (Some "%s"%string) [FStr r]
        else
          genericLogger_log (mw_genericLoggerp mw) lev (Some "%s"%string) [FStr r];;
          free r) Q w1) as Hrest.
  { intros r t w1 Hr Ht Hq1. apply wp_bind. eapply wp_load; [by eapply text_in_mono|].
    assert (logger_at (heap w1) (mw_genericLoggerp mw)) as Hlog1.
    { destruct Hlog as [->|(lg&g&->&Hg&?)]; [by left|]. right. exists lg, g. split_and!; [done| |done].
      by eapply text_in_mono. }
    assert (forall lev' Q', (forall w', heap w' = heap w1 -> quiet w1 w' -> Q' tt w') ->
      wp (genericLogger_log (mw_genericLoggerp mw) lev' (Some "%s"%string) [FStr r]) Q' w1) as Hgl.
    { intros lev' Q' HQ'. eapply (wp_genericLogger_log _ _ _ _ _ [VStr t]); [done| |apply format_s|done|done].
      constructor; [apply Hr|constructor]. }
    destruct (decide (r = messageBuilder_internalErrors)) as [Hrs|Hrs].
    - apply Hgl. intros w2 Hh2 Hq2. apply HQ; [|by etrans]. rewrite Hh2.
      destruct Hr as [_ [[_ Hr]|(lr&cap&Hlr&_)]]; [done|]. subst. discriminate.
    - apply wp_bind, Hgl. intros w2 Hh2 Hq2. destruct Hr as [_ [[? _]|(lr&cap&->&Hf&Hr)]]; [done|].
      eapply wp_free; [by rewrite Hh2, Hr, lookup_insert_eq|]. apply HQ.
      + simpl. by rewrite Hh2, Hr, delete_insert_id.
      + etrans; [done|]. etrans; [done|apply quiet_set_heap]. }
  assert (forall fmts args vals out, Forall2 (arg_holds (heap w)) args vals -> format fmts vals = Some out ->
    short out ->
    wp (messageBuilder fmts args) (fun r w1 => wp (mw ← load (A := marpaWrapper) (Loc l);
        if decide (r = messageBuilder_internalErrors) then
          genericLogger_log (mw_genericLoggerp mw) GENERICLOGGER_LOGLEVEL_ERROR (Some "%s"%string) [FStr r]
        else
          genericLogger_log (mw_genericLoggerp mw) lev (Some "%s"%string) [FStr r];;
          free r) Q w1) w) as Hmb.
  { intros fmts args vals out Ha Hf Hs. eapply wp_messageBuilder; [done..| |].
    { unfold short, INT_MAX in *. lia. }
    intros r t w1 Hr Ht Hq. eapply Hrest; [done| |done]. by destruct Ht as [->| ->]. }
  destruct (_ >? 0); destruct (decide (calls = Null)) as [Hn|Hn].
  - eapply (Hmb _ _ [VStr err] err); [by repeat constructor|apply format_s|unfold short; lia].
  - destruct Hc as [|[Hc Hs]]; [done|].
    eapply (Hmb _ _ [VStr s; VStr err]); [by repeat constructor|apply format_s_s|].
    unfold short. rewrite !slength_app. change (slength ": ") with 2. lia.
  - eapply (Hmb _ _ [VStr "Unknown call"] "Unknown call"%string); [by repeat constructor|done|done].
  - destruct Hc as [|[Hc Hs]]; [done|].
    eapply (Hmb _ _ [VStr s] s); [by repeat constructor|apply format_s|unfold short; lia].
Qed.

Lemma wp_marpaWrapper_log w l mw lev o e fmts args vals out Q :
  wrapper_at (heap w) l mw -> Forall2 (arg_holds (heap w)) args vals -> format fmts vals = Some out ->
  slength out <= 2 ^ 20 -> (forall w', heap w' = heap w -> quiet w w' -> Q tt w') ->
  wp (marpaWrapper_log (Loc l) lev o e (Some fmts) args) Q w.
Proof.
  intros [Hl Hlog] Ha Hf Hs HQ. unfold marpaWrapper_log. apply wp_bind.
  eapply wp_messageBuilder; [done..| |]. { unfold INT_MAX. lia. }
  intros r t w1 Hr Ht Hq1. apply wp_bind. unfold marpaWrapper_logWrapper. rewrite decide_False by done.
  eapply (wp_marpaWrapper_logExt _ _ mw _ _ _ t).
  { split; [by eapply text_in_mono|]. destruct Hlog as [->|(lg&g&->&Hg&?)]; [by left|].
    right. exists lg, g. split_and!; [done| |done]. by eapply text_in_mono. }
  { right. split; [apply Hr|]. by destruct Ht as [->| ->]. }
  intros w2 Hh2 Hq2.
  destruct (decide (_ \/ _)) as [Hor|Hor].
  - apply wp_ret, HQ; [|by etrans]. rewrite Hh2.
    destruct Hr as [_ [[-> Hr]|(lr&cap&->&_)]]; [done|]. by destruct Hor as [[=]|[=]].
  - destruct Hr as [_ [[-> _]|(lr&cap&->&Hfr&Hr)]]; [tauto|].
    eapply wp_free; [by rewrite Hh2, Hr, lookup_insert_eq|]. apply HQ.
    + simpl. by rewrite Hh2, Hr, delete_insert_id.
    + etrans; [done|]. etrans; [done|apply quiet_set_heap].
Qed.

(** A message without directives is its own output. *)
Lemma wp_log0 w l mw lev o e s Q :
  wrapper_at (heap w) l mw -> format s [] = Some s -> slength s <= 2 ^ 20 ->
  (forall w', heap w' = heap w -> quiet w w' -> Q tt w') ->
  wp (marpaWrapper_log (Loc l) lev o e (Some s) []) Q w.
Proof. intros. eapply (wp_marpaWrapper_log _ _ _ _ _ _ _ _ []); [done|constructor|done..]. Qed.

Lemma wp_LOG_ERROR0 w l mw s Q :
  wrapper_at (heap w) l mw -> format s [] = Some s -> slength s <= 2 ^ 20 ->
  (forall w', heap w' = heap w -> quiet w w' -> Q tt w') -> wp (LOG_ERROR0 (Loc l) s) Q w.
Proof. apply wp_log0. Qed.

Lemma wp_LOG_SYS_ERROR w l mw s Q :
  wrapper_at (heap w) l mw -> format s [] = Some s -> slength s <= 2 ^ 20 ->
  (forall w', heap w' = heap w -> quiet w w' -> Q tt w') -> wp (LOG_SYS_ERROR (Loc l) s) Q w.
Proof.
  intros. unfold LOG_SYS_ERROR. apply wp_bind. unfold wp at 1, get_errno. by eapply wp_log0.
Qed.

Lemma wp_LOG_MARPA_ERROR w l mw e Q :
  wrapper_at (heap w) l mw -> (forall w', heap w' = heap w -> quiet w w' -> Q tt w') ->
  wp (LOG_MARPA_ERROR (Loc l) e) Q w.
Proof. intros. by eapply wp_log0. Qed.

Lemma wp_LOG_MARPA_G_ERROR w l mw Q :
  wrapper_at (heap w) l mw -> (forall w', heap w' = heap w -> calm w w' -> Q tt w') ->
  wp (LOG_MARPA_G_ERROR (Loc l)) Q w.
Proof.
  intros Hl HQ. unfold LOG_MARPA_G_ERROR. apply wp_bind. eapply wp_load; [apply Hl|].
  apply wp_bind, wp_marpa. intros e w1 Hh1 _ Hlive Hn1 _ _. simpl in Hlive.
  eapply wp_LOG_MARPA_ERROR; [by rewrite Hh1|]. intros w2 Hh2 Hq2. apply HQ; [congruence|].
  etrans; [by split|by apply quiet_calm].
Qed.

Lemma wp_LOG_MARPA_C_ERROR w l mw Q :
  wrapper_at (heap w) l mw -> (forall w', heap w' = heap w -> calm w w' -> Q tt w') ->
  wp (LOG_MARPA_C_ERROR (Loc l)) Q w.
Proof.
  intros Hl HQ. unfold LOG_MARPA_C_ERROR. apply wp_bind, wp_marpa.
  intros e w1 Hh1 _ Hlive Hn1 _ _. simpl in Hlive.
  eapply wp_LOG_MARPA_ERROR; [by rewrite Hh1|]. intros w2 Hh2 Hq2. apply HQ; [congruence|].
  etrans; [by split|by apply quiet_calm].
Qed.
End wrapperLog_props.

(** ** What the log helpers leave unchanged of the trace

    An observation that logging does not touch: it sees neither what is written to the
    terminal nor libmarpa's error codes, and the user's log callbacks keep it. *)
Class Unwatched `{Env} {X} (obs : list event -> X) : Prop := {
  unwatched_write : forall t s, obs (t ++ [EvWrite s]) = obs t;
  unwatched_g_error : forall t g r, obs (t ++ [EvMarpa (marpa_g_error g) r]) = obs t;
  unwatched_c_error : forall t r, obs (t ++ [EvMarpa marpa_c_error r]) = obs t;
  unwatched_log : forall id ud level msgs, keeps obs (user_ (ULog (FnUser id) ud level msgs))
}.

Section keeps_logging.
Context `{Unwatched}.
Hint Resolve unwatched_log : keeps.

Lemma keeps_read_cstring p : keeps obs (read_cstring p).
Proof. unfold read_cstring. keeps. Qed.
Hint Resolve keeps_read_cstring : keeps.
Lemma keeps_read_args args : keeps obs (read_args args).
Proof. induction args as [|a args IH]; simpl; keeps. Qed.
Hint Resolve keeps_read_args : keeps.
Lemma keeps_vsnprintf p n f a : keeps obs (vsnprintf p n f a).
Proof. unfold vsnprintf. keeps. Qed.
Lemma keeps_realloc_chars p n : keeps obs (realloc_chars p n).
Proof. apply keeps_same. intros w. unfold wlp, realloc_chars.
  destruct p as [| |l]; [done..|]. destruct (heap w !! l) as [[]|]; try done. by destruct (alloc_ok w 0%nat). Qed.
Hint Resolve keeps_vsnprintf keeps_realloc_chars : keeps.
Lemma keeps_messageBuilder_ap f a : keeps obs (messageBuilder_ap f a).
Proof.
  assert (forall fuel p size, keeps obs (messageBuilder_loop fuel p size f a)) as Hloop.
  { intros fuel. induction fuel as [|fuel IH]; intros p size; simpl; keeps. }
  unfold messageBuilder_ap, malloc_chars. keeps.
Qed.
Hint Resolve keeps_messageBuilder_ap : keeps.
Lemma keeps_messageBuilder f a : keeps obs (messageBuilder f a).
Proof. unfold messageBuilder. keeps. Qed.
Lemma keeps_get_time : keeps obs get_time.
Proof. done. Qed.
Hint Resolve keeps_get_time : keeps.
Lemma keeps_dateBuilder f : keeps obs (dateBuilder f).
Proof. unfold dateBuilder, malloc_chars, strftime. keeps. Qed.
Hint Resolve keeps_messageBuilder keeps_dateBuilder : keeps.
Lemma keeps_write_stderr s : keeps obs (write_stderr s).
Proof. intros w. unfold wlp, write_stderr. destruct (write_result _ _). apply unwatched_write. Qed.
Hint Resolve keeps_write_stderr : keeps.
Lemma keeps_write_loop fuel s i : keeps obs (write_loop fuel s i).
Proof. revert i. induction fuel as [|fuel IH]; intros i; simpl; keeps. Qed.
Hint Resolve keeps_write_loop : keeps.
Lemma keeps_call_log f ud l m : keeps obs (call_log f ud l m).
Proof. unfold call_log, genericLogger_defaultCallback. keeps. Qed.
Hint Resolve keeps_call_log : keeps.
Lemma keeps_genericLogger_log p l f a : keeps obs (genericLogger_log p l f a).
Proof. unfold genericLogger_log. keeps. Qed.
Hint Resolve keeps_genericLogger_log : keeps.
Lemma keeps_logWrapper p o e c l : keeps obs (marpaWrapper_logWrapper p o e c l).
Proof. unfold marpaWrapper_logWrapper, marpaWrapper_logExt. keeps. Qed.
Hint Resolve keeps_logWrapper : keeps.
Lemma keeps_log p l o e f a : keeps obs (marpaWrapper_log p l o e f a).
Proof. unfold marpaWrapper_log. keeps. Qed.
Hint Resolve keeps_log : keeps.
Lemma keeps_LOG_MARPA_G_ERROR p : keeps obs (LOG_MARPA_G_ERROR p).
Proof. unfold LOG_MARPA_G_ERROR, LOG_MARPA_ERROR. keeps. apply keeps_marpa. intros. apply unwatched_g_error. Qed.
Lemma keeps_LOG_SYS_ERROR p s : keeps obs (LOG_SYS_ERROR p s).
Proof. unfold LOG_SYS_ERROR. keeps. Qed.
Lemma keeps_LOG_ERROR0 p s : keeps obs (LOG_ERROR0 p s).
Proof. unfold LOG_ERROR0. keeps. Qed.
Lemma keeps_LOG_MARPA_C_ERROR p : keeps obs (LOG_MARPA_C_ERROR p).
Proof. unfold LOG_MARPA_C_ERROR, LOG_MARPA_ERROR. keeps. apply keeps_marpa, unwatched_c_error. Qed.
End keeps_logging.
#[export] Hint Extern 0 (Unwatched _) => typeclasses eauto : keeps.
#[export] Hint Resolve keeps_read_cstring keeps_messageBuilder keeps_logWrapper keeps_log keeps_LOG_MARPA_G_ERROR keeps_LOG_MARPA_C_ERROR
  keeps_LOG_SYS_ERROR keeps_LOG_ERROR0 : keeps.
