(* ===== verification/LoggerTheorems.v ===== *)
(** * Properties of the logger and of the wrapper's log helpers *)
From S2P Require Import Prelude Types External Runtime Demo MessageBuilder Logger WrapperLog.

(** The bytes a trace has put on [stderr]. *)
Fixpoint written (t : list event) : string :=
  match t with
  | [] => ""
  | EvWrite s :: t => s +:+ written t
  | _ :: t => written t
  end.

(** ** Strings as lists of characters *)
Abbreviation chars := String.list_ascii_of_string.

Section strings.
Implicit Types (s : string).

Lemma chars_inj s1 s2 : chars s1 = chars s2 -> s1 = s2.
Proof. intros Hs. by rewrite <- (String.string_of_list_ascii_of_string s1), Hs, String.string_of_list_ascii_of_string. Qed.

Lemma chars_app s1 s2 : chars (s1 +:+ s2) = chars s1 ++ chars s2.
Proof. induction s1 as [|c s1 IH]; [done|]. change (c :: chars (s1 +:+ s2) = c :: chars s1 ++ chars s2). by rewrite IH. Qed.

Lemma chars_substring n m s : chars (String.substring n m s) = take m (drop n (chars s)).
Proof.
  revert n m. induction s as [|c s IH]; intros n m; [by destruct n, m|].
  destruct n as [|n], m as [|m]; simpl; [done| |by rewrite IH|by rewrite IH]. by rewrite IH, drop_0.
Qed.

Lemma chars_length s : length (chars s) = String.length s.
Proof. induction s as [|c s IH]; [done|]. simpl. by rewrite IH. Qed.

Lemma chars_drop n s : chars (string_drop n s) = drop (Z.to_nat n) (chars s).
Proof. unfold string_drop. rewrite chars_substring, take_ge; [done|]. rewrite length_drop, chars_length. lia. Qed.

Lemma slength_drop n s : 0 <= n <= slength s -> slength (string_drop n s) = slength s - n.
Proof. unfold slength. rewrite <- !chars_length, chars_drop, length_drop. lia. Qed.

Lemma written_snoc l s : chars (written (l ++ [EvWrite s])) = chars (written l) ++ chars s.
Proof.
  induction l as [|[] l IH]; simpl; [|done|done|].
  - rewrite chars_app. by rewrite app_nil_r.
  - by rewrite !chars_app, IH, (assoc_L (++)).
Qed.
End strings.

Section theorems.
Context `{Env}.
Implicit Types (w : world).

(** A message below the level of its logger is dropped: nothing at all happens. *)
Theorem genericLogger_log_filtered w l g lev fmts args :
  heap w !! l = Some (OLogger g) -> level_rank lev < level_rank (gl_genericLoggerLeveli g) ->
  genericLogger_log (Loc l) lev fmts args w = Done tt w.
Proof.
  intros Hl Hlt. unfold genericLogger_log. rewrite decide_False by done.
  unfold mbind, M_bind, load. rewrite Hl. simpl. by rewrite (proj2 (Z.leb_gt _ _)).
Qed.

(** The loop over [write(2)] puts out the whole message, whatever the sizes of the
    partial writes, in at most as many rounds as the message has bytes. *)
Theorem write_loop_complete fuel s w :
  slength s < 2 ^ 63 -> (String.length s <= fuel)%nat ->
  (forall u b, 0 < slength b -> 0 < (write_result u b).1 <= slength b) ->
  wp (write_loop fuel s 0) (fun _ w' => written (trace w') = written (trace w) +:+ s /\ heap w' = heap w) w.
Proof.
  intros Hs Hfuel Hw.
  assert (forall fuel i w1, 0 <= i <= slength s -> slength s - i <= Z.of_nat fuel ->
    chars (written (trace w1)) = chars (written (trace w)) ++ take (Z.to_nat i) (chars s) -> heap w1 = heap w ->
    wp (write_loop fuel s i) (fun _ w' => written (trace w') = written (trace w) +:+ s /\ heap w' = heap w) w1) as Hloop.
  2:{ apply Hloop; [unfold slength; lia|unfold slength; lia| |done]. by rewrite app_nil_r. }
  clear fuel Hfuel. induction fuel as [|fuel IH]; intros i w1 Hi Hf Ht Hh; simpl;
    rewrite to_size_t_small by (unfold is_size_t, SIZE_MOD; lia).
  - rewrite (proj2 (Z.ltb_ge _ _)) by lia. apply wp_ret. split; [|done]. apply chars_inj.
    rewrite Ht, chars_app, take_ge; [done|]. unfold slength in *. rewrite chars_length. lia.
  - destruct (i <? slength s) eqn:E; Zbool.
    + apply wp_bind. unfold wp, write_stderr. pose proof (slength_drop i s Hi) as Hd.
      specialize (Hw (user w1) (string_drop i s)). destruct (write_result _ _) as [n u]. simpl in Hw.
      apply (IH (i + n)); [lia|lia| |done]. simpl. rewrite written_snoc, Ht, chars_substring, drop_0, chars_drop.
      rewrite <- (assoc_L (++)). f_equal. rewrite Z2Nat.inj_add by lia. apply take_take_drop.
    + apply wp_ret. split; [|done]. apply chars_inj.
      rewrite Ht, chars_app, take_ge; [done|]. unfold slength in *. rewrite chars_length. lia.
Qed.

(** A defect: an error of [write(2)] after a partial write is subtracted from the
    count of bytes written, and the last byte goes out twice. *)
Theorem write_loop_resends fuel s k w u1 u2 u3 :
  1 < k < slength s -> slength s < 2 ^ 63 -> (3 <= fuel)%nat ->
  write_result (user w) (string_drop 0 s) = (k, u1) ->
  write_result u1 (string_drop k s) = (-1, u2) ->
  write_result u2 (string_drop (k - 1) s) = (slength s - (k - 1), u3) ->
  wp (write_loop fuel s 0) (fun _ w' => String.length (written (trace w')) = S (String.length (written (trace w) +:+ s))) w.
Proof.
  intros Hk Hs Hfuel H1 H2 H3. destruct fuel as [|[|[|fuel]]]; [lia..|]. simpl.
  rewrite to_size_t_small by (unfold is_size_t, SIZE_MOD; lia). rewrite (proj2 (Z.ltb_lt _ _)) by lia.
  apply wp_bind. unfold wp at 1, write_stderr. rewrite H1. rewrite Z.add_0_l.
  rewrite to_size_t_small by (unfold is_size_t, SIZE_MOD; lia). rewrite (proj2 (Z.ltb_lt _ _)) by lia.
  apply wp_bind. unfold wp at 1, write_stderr. simpl user. rewrite H2. change (k + -1) with (k - 1).
  rewrite to_size_t_small by (unfold is_size_t, SIZE_MOD; lia). rewrite (proj2 (Z.ltb_lt _ _)) by lia.
  apply wp_bind. unfold wp at 1, write_stderr. simpl user. rewrite H3.
  assert (forall fuel w1, write_loop fuel s (k - 1 + (slength s - (k - 1))) w1 = Done tt w1) as Hend.
  { intros f w1. replace (k - 1 + (slength s - (k - 1))) with (slength s) by lia.
    destruct f; simpl; rewrite to_size_t_small, Z.ltb_irrefl by (unfold is_size_t, SIZE_MOD; lia); done. }
  unfold wp. rewrite Hend. rewrite <- !chars_length, chars_app. simpl trace. rewrite !written_snoc.
  rewrite !length_app, !chars_substring, !drop_0, !length_take, !chars_drop, !length_drop, !chars_length.
  unfold slength in *. lia.
Qed.
End theorems.

Section wrapper_theorems.
Context `{LogNeutral}.
Implicit Types (w : world).

(** Logging through a wrapper is transparent: whatever the level, the origin and the
    error code, and whether or not memory can be had for the text, a log call ends,
    releases all it allocated, and leaves the heap and libmarpa as they were. *)
Theorem marpaWrapper_log_transparent w l mw lev o e fmts args vals out :
  wrapper_at (heap w) l mw -> Forall2 (arg_holds (heap w)) args vals -> format fmts vals = Some out ->
  slength out <= 2 ^ 20 ->
  wp (marpaWrapper_log (Loc l) lev o e (Some fmts) args) (fun _ w' => heap w' = heap w /\ quiet w w') w.
Proof. intros. by eapply wp_marpaWrapper_log. Qed.
End wrapper_theorems.

(** ** Witnesses *)
Definition demo_logger : gmap positive obj :=
  {[ 1%positive := OLogger (GenericLogger None Null GENERICLOGGER_LOGLEVEL_ERROR) ]}.

Lemma genericLogger_log_filtered_witness :
  genericLogger_log (Loc 1) GENERICLOGGER_LOGLEVEL_WARNING (Some "x"%string) [] (demo_world demo_logger [])
  = Done tt (demo_world demo_logger []).
Proof.
  exact (genericLogger_log_filtered (demo_world demo_logger []) 1 (GenericLogger None Null GENERICLOGGER_LOGLEVEL_ERROR)
    GENERICLOGGER_LOGLEVEL_WARNING (Some "x"%string) [] eq_refl eq_refl).
Defined.

(** A system that takes one byte at a time, and one that follows a script of results. *)
Definition demo_env_bytewise : Env := {|
  marpa_run R c m := demo_marpa c m;
  user_run R c := demo_user c;
  strerror _ := "error"%string;
  vsnprintf_fails _ := false;
  ptr_string _ := "p"%string;
  time_now _ := 0;
  localtime t := Some t;
  strftime_out _ _ := ""%string;
  write_result u _ := (1, u);
  loop_fuel := 100%nat
|}.

Lemma write_loop_complete_witness :
  exists w', write_loop (H0 := demo_env_bytewise) 3 "abc" 0 (demo_world ∅ []) = Done tt w'
    /\ written (trace w') = "abc"%string.
Proof.
  destruct (wp_run _ _ _ (write_loop_complete (H0 := demo_env_bytewise) 3 "abc" (demo_world ∅ []) eq_refl
    (le_n 3) ltac:(intros u b Hb; simpl; lia))) as ([]&w'&Hrun&Hw&_).
  by exists w'.
Defined.

Definition demo_writes_platform : Platform := {| MS := list Z; US := list Z |}.

Definition demo_env_writes : @Env demo_writes_platform :=
  @Build_Env demo_writes_platform (fun R c m => demo_marpa c m) (fun R c => @undef demo_writes_platform R "no user")
    (fun _ => "error"%string) (fun _ => false) (fun _ => "p"%string) (fun _ => 0) (fun t => Some t)
    (fun _ _ => ""%string)
    (fun u s => match u with n :: u => (n, u) | [] => (Z.of_nat (String.length s), []) end) 100%nat.

Lemma write_loop_resends_witness :
  exists w', @write_loop demo_writes_platform demo_env_writes 3 "abc" 0
    (World demo_writes_platform ∅ 1%positive (fun _ => true) 0 [] [2; -1; 2] []) = Done tt w'
    /\ String.length (written (trace w')) = 4%nat.
Proof.
  destruct (wp_run _ _ _ (@write_loop_resends demo_writes_platform demo_env_writes 3 "abc" 2
    (World demo_writes_platform ∅ 1%positive (fun _ => true) 0 [] [2; -1; 2] []) [-1; 2] [2] []
    (conj eq_refl eq_refl) eq_refl (le_n 3) eq_refl eq_refl eq_refl)) as ([]&w'&Hrun&Hw).
  by exists w'.
Defined.

(** A wrapper with the default logger. *)
Definition demo_wrapper_heap : gmap positive obj :=
  {[ 1%positive := OWrapper (MarpaWrapper 7 0 Null 0 0 Null 0 0 Null Null Null 0 0 Null
       (MarpaWrapperOption None Null None Null MARPAWRAPPER_BOOL_FALSE MARPAWRAPPER_BOOL_FALSE MARPAWRAPPER_BOOL_FALSE)) ]}.

Lemma marpaWrapper_log_transparent_witness :
  exists w', marpaWrapper_log (Loc 1) GENERICLOGGER_LOGLEVEL_ERROR MARPAWRAPPERERRORORIGIN_MARPA 41 (Some "Marpa"%string) []
    (demo_world demo_wrapper_heap []) = Done tt w' /\ heap w' = demo_wrapper_heap.
Proof.
  destruct (wp_run _ _ _ (marpaWrapper_log_transparent (demo_world demo_wrapper_heap []) 1 _ GENERICLOGGER_LOGLEVEL_ERROR
    MARPAWRAPPERERRORORIGIN_MARPA 41 "Marpa" [] [] "Marpa" (conj eq_refl (or_introl eq_refl)) ltac:(constructor) eq_refl
    ltac:(by vm_compute))) as ([]&w'&Hrun&Hh&_).
  exact (ex_intro _ w' (conj Hrun Hh)).
Defined.
