(* ===== verification/Wrapper.v ===== *)
(** * The wrapper structure: field assignment, options and accessors

    Assignments to the fields of [struct marpaWrapper], the [*OptionDefaultb] helpers and
    the accessors of [src/marpaWrapper.c]. *)
From S2P Require Import Prelude Types External Runtime.

(** ** [marpaWrapperp->field = v] *)
Definition mw_set_marpaGrammarp (v : mhandle) (w : marpaWrapper) : marpaWrapper :=
  MarpaWrapper
    v (mw_marpaRecognizerp w) (mw_genericLoggerp w) (mw_sizeMarpaWrapperSymboli w)
    (mw_nMarpaWrapperSymboli w) (mw_marpaWrapperSymbolpp w) (mw_sizeMarpaWrapperRulei w)
    (mw_nMarpaWrapperRulei w) (mw_marpaWrapperRulepp w) (mw_expectedMarpaSymbolIdArrayp w)
    (mw_expectedMarpaWrapperSymbolArraypp w) (mw_sizeMarpaWrapperProgressi w)
    (mw_nMarpaWrapperProgressi w) (mw_marpaWrapperProgresspp w) (mw_marpaWrapperOption w).
Definition mw_set_marpaRecognizerp (v : mhandle) (w : marpaWrapper) : marpaWrapper :=
  MarpaWrapper
    (mw_marpaGrammarp w) v (mw_genericLoggerp w) (mw_sizeMarpaWrapperSymboli w)
    (mw_nMarpaWrapperSymboli w) (mw_marpaWrapperSymbolpp w) (mw_sizeMarpaWrapperRulei w)
    (mw_nMarpaWrapperRulei w) (mw_marpaWrapperRulepp w) (mw_expectedMarpaSymbolIdArrayp w)
    (mw_expectedMarpaWrapperSymbolArraypp w) (mw_sizeMarpaWrapperProgressi w)
    (mw_nMarpaWrapperProgressi w) (mw_marpaWrapperProgresspp w) (mw_marpaWrapperOption w).
Definition mw_set_symbolbuf (pp : ptr) (size : Z) (w : marpaWrapper) : marpaWrapper :=
  MarpaWrapper
    (mw_marpaGrammarp w) (mw_marpaRecognizerp w) (mw_genericLoggerp w) size
    (mw_nMarpaWrapperSymboli w) pp (mw_sizeMarpaWrapperRulei w) (mw_nMarpaWrapperRulei w)
    (mw_marpaWrapperRulepp w) (mw_expectedMarpaSymbolIdArrayp w)
    (mw_expectedMarpaWrapperSymbolArraypp w) (mw_sizeMarpaWrapperProgressi w)
    (mw_nMarpaWrapperProgressi w) (mw_marpaWrapperProgresspp w) (mw_marpaWrapperOption w).
Definition mw_set_nMarpaWrapperSymboli (v : Z) (w : marpaWrapper) : marpaWrapper :=
  MarpaWrapper
    (mw_marpaGrammarp w) (mw_marpaRecognizerp w) (mw_genericLoggerp w)
    (mw_sizeMarpaWrapperSymboli w) v (mw_marpaWrapperSymbolpp w)
    (mw_sizeMarpaWrapperRulei w) (mw_nMarpaWrapperRulei w) (mw_marpaWrapperRulepp w)
    (mw_expectedMarpaSymbolIdArrayp w) (mw_expectedMarpaWrapperSymbolArraypp w)
    (mw_sizeMarpaWrapperProgressi w) (mw_nMarpaWrapperProgressi w)
    (mw_marpaWrapperProgresspp w) (mw_marpaWrapperOption w).
Definition mw_set_rulebuf (pp : ptr) (size : Z) (w : marpaWrapper) : marpaWrapper :=
  MarpaWrapper
    (mw_marpaGrammarp w) (mw_marpaRecognizerp w) (mw_genericLoggerp w)
    (mw_sizeMarpaWrapperSymboli w) (mw_nMarpaWrapperSymboli w) (mw_marpaWrapperSymbolpp w)
    size (mw_nMarpaWrapperRulei w) pp (mw_expectedMarpaSymbolIdArrayp w)
    (mw_expectedMarpaWrapperSymbolArraypp w) (mw_sizeMarpaWrapperProgressi w)
    (mw_nMarpaWrapperProgressi w) (mw_marpaWrapperProgresspp w) (mw_marpaWrapperOption w).
Definition mw_set_nMarpaWrapperRulei (v : Z) (w : marpaWrapper) : marpaWrapper :=
  MarpaWrapper
    (mw_marpaGrammarp w) (mw_marpaRecognizerp w) (mw_genericLoggerp w)
    (mw_sizeMarpaWrapperSymboli w) (mw_nMarpaWrapperSymboli w) (mw_marpaWrapperSymbolpp w)
    (mw_sizeMarpaWrapperRulei w) v (mw_marpaWrapperRulepp w)
    (mw_expectedMarpaSymbolIdArrayp w) (mw_expectedMarpaWrapperSymbolArraypp w)
    (mw_sizeMarpaWrapperProgressi w) (mw_nMarpaWrapperProgressi w)
    (mw_marpaWrapperProgresspp w) (mw_marpaWrapperOption w).
Definition mw_set_expectedMarpaSymbolIdArrayp (v : ptr) (w : marpaWrapper) : marpaWrapper :=
  MarpaWrapper
    (mw_marpaGrammarp w) (mw_marpaRecognizerp w) (mw_genericLoggerp w)
    (mw_sizeMarpaWrapperSymboli w) (mw_nMarpaWrapperSymboli w) (mw_marpaWrapperSymbolpp w)
    (mw_sizeMarpaWrapperRulei w) (mw_nMarpaWrapperRulei w) (mw_marpaWrapperRulepp w) v
    (mw_expectedMarpaWrapperSymbolArraypp w) (mw_sizeMarpaWrapperProgressi w)
    (mw_nMarpaWrapperProgressi w) (mw_marpaWrapperProgresspp w) (mw_marpaWrapperOption w).
Definition mw_set_expectedMarpaWrapperSymbolArraypp (v : ptr) (w : marpaWrapper) : marpaWrapper :=
  MarpaWrapper
    (mw_marpaGrammarp w) (mw_marpaRecognizerp w) (mw_genericLoggerp w)
    (mw_sizeMarpaWrapperSymboli w) (mw_nMarpaWrapperSymboli w) (mw_marpaWrapperSymbolpp w)
    (mw_sizeMarpaWrapperRulei w) (mw_nMarpaWrapperRulei w) (mw_marpaWrapperRulepp w)
    (mw_expectedMarpaSymbolIdArrayp w) v (mw_sizeMarpaWrapperProgressi w)
    (mw_nMarpaWrapperProgressi w) (mw_marpaWrapperProgresspp w) (mw_marpaWrapperOption w).
Definition mw_set_progressbuf (pp : ptr) (size : Z) (w : marpaWrapper) : marpaWrapper :=
  MarpaWrapper
    (mw_marpaGrammarp w) (mw_marpaRecognizerp w) (mw_genericLoggerp w)
    (mw_sizeMarpaWrapperSymboli w) (mw_nMarpaWrapperSymboli w) (mw_marpaWrapperSymbolpp w)
    (mw_sizeMarpaWrapperRulei w) (mw_nMarpaWrapperRulei w) (mw_marpaWrapperRulepp w)
    (mw_expectedMarpaSymbolIdArrayp w) (mw_expectedMarpaWrapperSymbolArraypp w) size
    (mw_nMarpaWrapperProgressi w) pp (mw_marpaWrapperOption w).
Definition mw_set_nMarpaWrapperProgressi (v : Z) (w : marpaWrapper) : marpaWrapper :=
  MarpaWrapper
    (mw_marpaGrammarp w) (mw_marpaRecognizerp w) (mw_genericLoggerp w)
    (mw_sizeMarpaWrapperSymboli w) (mw_nMarpaWrapperSymboli w) (mw_marpaWrapperSymbolpp w)
    (mw_sizeMarpaWrapperRulei w) (mw_nMarpaWrapperRulei w) (mw_marpaWrapperRulepp w)
    (mw_expectedMarpaSymbolIdArrayp w) (mw_expectedMarpaWrapperSymbolArraypp w)
    (mw_sizeMarpaWrapperProgressi w) v (mw_marpaWrapperProgresspp w)
    (mw_marpaWrapperOption w).

(** ** C idioms of the file *)

(** Signed addition. *)
Definition int_add `{Platform} (a b : Z) : M Z :=
  if decide (is_int (a + b)) then mret (a + b) else undef "signed integer overflow".

(** [(eventSeti & flag) == flag] *)
Definition has_flag (eventSeti flag : Z) : bool := Z.land eventSeti flag =? flag.

Definition bool_of (b : bool) : marpaWrapperBool_t :=
  if b then MARPAWRAPPER_BOOL_TRUE else MARPAWRAPPER_BOOL_FALSE.

(** The values of the first [n] cells of an array. *)
Definition read_cells `{Platform} {A} `{Storable (list (init A))} (p : ptr) (n : nat) : M (list A) :=
  for_loop n 0 (fun i acc => v ← load_cell p i; mret (acc ++ [v])) [].

(** [qsort(p, n, ...)] of an array of pointers whose comparator reads a key through each
    of them: the keys are read when there is something to compare. *)
Definition qsort_ptrs `{Platform} {K} (p : ptr) (n : nat) (key : ptr -> M K) (cmp : K -> K -> Z) : M unit :=
  ps ← read_cells (A := ptr) p n;
  if decide (n <= 1)%nat then mret tt
  else
    keyed ← for_loop n 0 (fun i acc =>
              match ps !! Z.to_nat i with
              | Some q => k ← key q; mret (acc ++ [(k, q)])
              | None => mret acc
              end) [];
    cells ← load (A := list (init ptr)) p;
    store p ((Init <$> (qsort (fun x y => cmp x.1 y.1) keyed).*2) ++ drop n cells).

(** ** Option defaults

    The argument is [None] for a null pointer, else the structure pointed to; the result
    holds the structure afterwards. *)
Definition marpaWrapperOption_default : marpaWrapperOption_t := {|
  wo_versionip := None;
  wo_genericLoggerp := Null;
  wo_eventCallbackp := None;
  wo_eventCallbackDatavp := Null;
  wo_warningIsErrorb := MARPAWRAPPER_BOOL_FALSE;
  wo_warningIsIgnoredb := MARPAWRAPPER_BOOL_FALSE;
  wo_unsortedEventsb := MARPAWRAPPER_BOOL_FALSE
|}.

Definition marpaWrapper_optionDefaultb (p : option marpaWrapperOption_t) : marpaWrapperBool_t * option marpaWrapperOption_t :=
  match p with
  | None => (MARPAWRAPPER_BOOL_FALSE, None)
  | Some _ => (MARPAWRAPPER_BOOL_TRUE, Some marpaWrapperOption_default)
  end.

(** [firstChari] is not assigned. *)
Definition marpaWrapper_symbolOptionDefaultb (p : option marpaWrapperSymbolOption_t) : marpaWrapperBool_t * option marpaWrapperSymbolOption_t :=
  match p with
  | None => (MARPAWRAPPER_BOOL_FALSE, None)
  | Some o => (MARPAWRAPPER_BOOL_TRUE, Some {|
      so_datavp := Null;
      so_terminalb := MARPAWRAPPER_BOOL_FALSE;
      so_startb := MARPAWRAPPER_BOOL_FALSE;
      so_eventSeti := 0;
      so_sizel := 0;
      so_firstChari := so_firstChari o |})
  end.

Definition marpaWrapperValueOption_default : marpaWrapperValueOption_t := {|
  vo_highRankOnlyb := MARPAWRAPPER_BOOL_TRUE;
  vo_orderByRankb := MARPAWRAPPER_BOOL_TRUE;
  vo_ambiguityb := MARPAWRAPPER_BOOL_TRUE;
  vo_nullb := MARPAWRAPPER_BOOL_TRUE;
  vo_valueRuleCallbackp := None;
  vo_valueRuleCallbackDatavp := Null;
  vo_valueSymbolCallbackp := None;
  vo_valueSymbolCallbackDatavp := Null;
  vo_valueNullingCallbackp := None;
  vo_valueNullingCallbackDatavp := Null;
  vo_valueResultCallbackp := None;
  vo_valueResultCallbackDatavp := Null
|}.

Definition marpaWrapper_valueOptionDefaultb (p : option marpaWrapperValueOption_t) : marpaWrapperBool_t * option marpaWrapperValueOption_t :=
  match p with
  | None => (MARPAWRAPPER_BOOL_FALSE, None)
  | Some _ => (MARPAWRAPPER_BOOL_TRUE, Some marpaWrapperValueOption_default)
  end.

Definition marpaWrapper_ruleOptionDefaultb (p : option marpaWrapperRuleOption_t) : marpaWrapperBool_t * option marpaWrapperRuleOption_t :=
  match p with
  | None => (MARPAWRAPPER_BOOL_FALSE, None)
  | Some _ => (MARPAWRAPPER_BOOL_TRUE, Some {|
      ro_datavp := Null;
      ro_lhsSymbolp := Null;
      ro_nRhsSymboli := 0;
      ro_rhsSymbolpp := Null;
      ro_ranki := 0;
      ro_nullRanksHighb := MARPAWRAPPER_BOOL_FALSE;
      ro_sequenceb := MARPAWRAPPER_BOOL_FALSE;
      ro_separatorSymbolp := Null;
      ro_properb := MARPAWRAPPER_BOOL_FALSE;
      ro_minimumi := 0 |})
  end.

Definition marpaWrapper_stackOptionDefaultb (p : option marpaWrapperStackOption_t) : marpaWrapperBool_t * option marpaWrapperStackOption_t :=
  match p with
  | None => (MARPAWRAPPER_BOOL_FALSE, None)
  | Some _ => (MARPAWRAPPER_BOOL_TRUE, Some {|
      ko_stackElementSizei := 0;
      ko_stackElementFreeCallbackp := None;
      ko_stackElementFreeCallbackUserDatap := Null;
      ko_stackElementCopyCallbackp := None;
      ko_stackElementCopyCallbackUserDatap := Null |})
  end.

(** ** Accessors

    [MARPAWRAPPER_GENERATE_GETTER_DEFINITION]: the result, and what is stored through the
    output pointer ([None] when it is left untouched). *)
Section accessors.
Context `{Platform}.

Definition getter {A B} `{Storable A} (field : A -> B) (p : ptr) : M (marpaWrapperBool_t * option B) :=
  if decide (p = Null) then mret (MARPAWRAPPER_BOOL_FALSE, None)
  else a ← load p; mret (MARPAWRAPPER_BOOL_TRUE, Some (field a)).

Definition marpaWrapper_sizeMarpaWrapperSymboli_getb := getter mw_sizeMarpaWrapperSymboli.
Definition marpaWrapper_marpaWrapperSymbolpp_getb := getter mw_marpaWrapperSymbolpp.
Definition marpaWrapper_sizeMarpaWrapperRulei_getb := getter mw_sizeMarpaWrapperRulei.
Definition marpaWrapper_marpaWrapperRulepp_getb := getter mw_marpaWrapperRulepp.
(** The configuration is the first member: its address is that of the structure. *)
Definition marpaWrapper_Marpa_Config_getb (p : ptr) := getter (A := marpaWrapper) (fun _ => p) p.
Definition marpaWrapper_Marpa_Grammar_getb := getter mw_marpaGrammarp.
Definition marpaWrapper_Marpa_Recognizer_getb := getter mw_marpaRecognizerp.
Definition marpaWrapperSymbol_datavp_getb := getter (fun s => so_datavp (ms_marpaWrapperSymbolOption s)).
Definition marpaWrapperSymbol_Marpa_Symbol_ID_getb := getter (fun s => to_uint (ms_marpaSymbolIdi s)).
Definition marpaWrapperRule_datavp_getb := getter (fun r => ro_datavp (mr_marpaWrapperRuleOption r)).
Definition marpaWrapperRule_Marpa_Rule_ID_getb := getter (fun r => to_uint (mr_marpaRuleIdi r)).

Definition marpaWrapper_genericLoggerp (p : ptr) : M ptr :=
  if decide (p = Null) then mret Null
  else mw ← load p; mret (mw_genericLoggerp mw).
End accessors.
