(* ===== verification/WrapperSpec.v ===== *)
(** * What a wrapper denotes

    A wrapper owns three registries (symbols, rules and progress items: an array of
    pointers, the first [n] of which point to live structures that know their index) and
    two work arrays.  [wrapper_rep] is the invariant the operations of the grammar phase
    preserve, [wrapper_foot] the blocks a wrapper owns. *)
From S2P Require Import Prelude Types External Runtime ManageBuf MessageBuilder Logger WrapperLog Wrapper.

(** ** Registries *)
Record registry (h : gmap positive obj) (P : nat -> obj -> Prop) (pp : ptr) (size n : Z) (cells : list ptr) : Prop := {
  rg_buf : buf_at h pp size cells;
  rg_used : 0 <= n <= Z.of_nat (length cells);
  rg_elem : forall i, (i < Z.to_nat n)%nat ->
              exists lo o, cells !! i = Some (Loc lo) /\ h !! lo = Some o /\ P i o
}.

Definition registry_foot (pp : ptr) (n : Z) (cells : list ptr) : list positive :=
  locs_of (pp :: take (Z.to_nat n) cells).

(** What the elements of a wrapper's registries are; [l] is the wrapper. *)
Definition is_symbol (l : positive) (i : nat) (o : obj) : Prop :=
  exists s, o = OSymbol s /\ ms_marpaSymbolIdi s = Z.of_nat i /\ ms_marpaWrapperp s = Loc l.
Definition is_rule (l : positive) (i : nat) (o : obj) : Prop :=
  exists r, o = ORule r /\ mr_marpaRuleIdi r = Z.of_nat i /\ mr_marpaWrapperp r = Loc l.
Definition is_progress (i : nat) (o : obj) : Prop := exists p, o = OProgress p.

Definition opt_block (h : gmap positive obj) (p : ptr) : Prop :=
  p = Null \/ exists l o, p = Loc l /\ h !! l = Some o.

Definition wrapper_foot (l : positive) (mw : marpaWrapper) (sc rc pc : list ptr) : list positive :=
  l :: locs_of [mw_expectedMarpaSymbolIdArrayp mw; mw_expectedMarpaWrapperSymbolArraypp mw]
    ++ registry_foot (mw_marpaWrapperSymbolpp mw) (mw_nMarpaWrapperSymboli mw) sc
    ++ registry_foot (mw_marpaWrapperRulepp mw) (mw_nMarpaWrapperRulei mw) rc
    ++ registry_foot (mw_marpaWrapperProgresspp mw) (mw_nMarpaWrapperProgressi mw) pc.

Record wrapper_rep (h : gmap positive obj) (l : positive) (mw : marpaWrapper) (sc rc pc : list ptr) : Prop := {
  wr_at : wrapper_at h l mw;
  wr_symbols : registry h (is_symbol l) (mw_marpaWrapperSymbolpp mw) (mw_sizeMarpaWrapperSymboli mw) (mw_nMarpaWrapperSymboli mw) sc;
  wr_rules : registry h (is_rule l) (mw_marpaWrapperRulepp mw) (mw_sizeMarpaWrapperRulei mw) (mw_nMarpaWrapperRulei mw) rc;
  wr_progress : registry h is_progress (mw_marpaWrapperProgresspp mw) (mw_sizeMarpaWrapperProgressi mw) (mw_nMarpaWrapperProgressi mw) pc;
  wr_ids : opt_block h (mw_expectedMarpaSymbolIdArrayp mw);
  wr_exps : opt_block h (mw_expectedMarpaWrapperSymbolArraypp mw);
  wr_nodup : NoDup (wrapper_foot l mw sc rc pc)
}.

Section registry_lemmas.
Implicit Types (h : gmap positive obj).

Lemma registry_live h P pp size n cells l :
  registry h P pp size n cells -> l ∈ registry_foot pp n cells -> is_Some (h !! l).
Proof.
  intros [Hb Hu He] Hl. unfold registry_foot in Hl. apply elem_of_locs_of in Hl.
  apply elem_of_cons in Hl as [<-|Hl]; [destruct Hb as (?&_&_); eauto|].
  apply list_elem_of_lookup in Hl as [i Hi]. apply lookup_take_Some in Hi as [Hi ?].
  destruct (He i) as (lo&o&Hc&Ho&_); [done|]. rewrite Hi in Hc. injection Hc as ->. eauto.
Qed.

Lemma registry_frame h h' P pp size n cells :
  registry h P pp size n cells -> (forall l, l ∈ registry_foot pp n cells -> h' !! l = h !! l) ->
  registry h' P pp size n cells.
Proof.
  intros [Hb Hu He] Hf. unfold registry_foot in Hf. split; [|done|].
  - destruct pp; simpl in *; [done..|]. rewrite Hf; [done|]. unfold locs_of. simpl. constructor.
  - intros i Hi. destruct (He i Hi) as (lo&o&Hc&Ho&HP). exists lo, o. split_and!; [done| |done].
    rewrite Hf; [done|]. apply elem_of_locs_of, list_elem_of_further, list_elem_of_lookup.
    exists i. by rewrite lookup_take_lt.
Qed.

(** What [manageBuf_freev] needs. *)
Lemma registry_owned h P pp size n cells :
  registry h P pp size n cells -> NoDup (registry_foot pp n cells) ->
  owned_ptrs h (take (Z.to_nat n) cells) /\ (forall l, pp = Loc l -> Loc l ∉ take (Z.to_nat n) cells).
Proof.
  intros [Hb Hu He] Hnd. unfold registry_foot in Hnd.
  change (NoDup (locs_of ([pp] ++ take (Z.to_nat n) cells))) in Hnd. rewrite locs_of_app in Hnd.
  apply NoDup_app in Hnd as (_&Hdis&Hnd). split; [split; [|done]|].
  - intros p Hp. right. apply list_elem_of_lookup in Hp as [i Hi]. apply lookup_take_Some in Hi as [Hi ?].
    destruct (He i) as (lo&o&Hc&Ho&_); [done|]. rewrite Hi in Hc. injection Hc as ->. eauto.
  - intros l -> Hin. apply (Hdis l); [|by apply elem_of_locs_of]. apply elem_of_locs_of. constructor.
Qed.

(** The array replaced by a larger copy. *)
Lemma registry_grow h P pp size n cells k l' :
  registry h P pp size n cells -> NoDup (registry_foot pp n cells) ->
  delete_locs (locs_of [pp]) h !! l' = None -> (forall l, l ∈ locs_of (take (Z.to_nat n) cells) -> l <> l') ->
  0 < size + Z.of_nat k ->
  registry (<[l' := OPtrs (Init <$> cells ++ replicate k Null)]> (delete_locs (locs_of [pp]) h)) P
    (Loc l') (size + Z.of_nat k) n (cells ++ replicate k Null).
Proof.
  intros Hr Hnd Hf Hne Hpos. pose proof (registry_owned _ _ _ _ _ _ Hr Hnd) as [_ Hpp].
  destruct Hr as [Hb Hu He].
  assert (size = Z.of_nat (length cells)) as Hsz. { destruct pp; simpl in Hb; naive_solver. }
  split.
  - simpl. rewrite lookup_insert_eq, length_app, length_replicate. split_and!; [done|lia|done].
  - rewrite length_app. lia.
  - intros i Hi. destruct (He i Hi) as (lo&o&Hc&Ho&HP). exists lo, o.
    assert (Loc lo ∈ take (Z.to_nat n) cells) as Hin.
    { apply list_elem_of_lookup. exists i. by rewrite lookup_take_lt. }
    split_and!; [|rewrite lookup_insert_ne, delete_locs_lookup_ne; [done| |]|done].
    + rewrite lookup_app_l; [done|]. by eapply lookup_lt_Some.
    + intros Hd. apply elem_of_locs_of, list_elem_of_singleton in Hd. by eapply Hpp.
    + apply not_eq_sym, Hne. by apply elem_of_locs_of.
Qed.

(** A new element in the first free slot. *)
Lemma registry_add h P lb size n cells lo o :
  registry h P (Loc lb) size n cells -> NoDup (registry_foot (Loc lb) n cells) ->
  n < Z.of_nat (length cells) -> h !! lo = None -> P (Z.to_nat n) o ->
  registry (<[lo := o]> (<[lb := OPtrs (Init <$> <[Z.to_nat n := Loc lo]> cells)]> h)) P
    (Loc lb) size (n + 1) (<[Z.to_nat n := Loc lo]> cells)
  /\ registry_foot (Loc lb) (n + 1) (<[Z.to_nat n := Loc lo]> cells)
     = registry_foot (Loc lb) n cells ++ [lo].
Proof.
  intros Hr Hnd Hn Hf HP. pose proof (registry_owned _ _ _ _ _ _ Hr Hnd) as [_ Hpp].
  destruct Hr as [Hb Hu He]. simpl in Hb. destruct Hb as (Hb&Hsz&Hpos).
  assert (lo <> lb) by congruence. split; [split|].
  - simpl. rewrite lookup_insert_ne, lookup_insert_eq, length_insert by done. done.
  - rewrite length_insert. lia.
  - intros i Hi. destruct (decide (i = Z.to_nat n)) as [->|].
    + exists lo, o. rewrite list_lookup_insert_eq, lookup_insert_eq by lia. done.
    + destruct (He i) as (lo'&o'&Hc&Ho&HP'); [lia|]. exists lo', o'.
      rewrite list_lookup_insert_ne by done. split_and!; [done| |done].
      rewrite !lookup_insert_ne; [done| |congruence]. intros <-. apply (Hpp lb eq_refl).
      apply list_elem_of_lookup. exists i. rewrite lookup_take_lt by lia. done.
  - unfold registry_foot. replace (Z.to_nat (n + 1)) with (S (Z.to_nat n)) by lia.
    rewrite (take_S_r _ _ (Loc lo)) by (apply list_lookup_insert_eq; lia).
    rewrite take_insert_ge by lia.
    change (locs_of (([Loc lb] ++ take (Z.to_nat n) cells) ++ [Loc lo])
      = locs_of ([Loc lb] ++ take (Z.to_nat n) cells) ++ [lo]).
    by rewrite locs_of_app.
Qed.
End registry_lemmas.

Section wrapper_lemmas.
Implicit Types (h : gmap positive obj).

Lemma opt_block_live h p l : opt_block h p -> Loc l = p -> is_Some (h !! l).
Proof. intros [->|(l'&o&->&?)]; [done|]. intros [= ->]. eauto. Qed.

Lemma opt_block_frame h h' p :
  opt_block h p -> (forall l, l ∈ locs_of [p] -> h' !! l = h !! l) -> opt_block h' p.
Proof.
  intros [->|(l'&o&->&?)] Hf; [by left|]. right. exists l', o. rewrite Hf; [done|]. constructor.
Qed.

Lemma wrapper_foot_live h l mw sc rc pc k :
  wrapper_rep h l mw sc rc pc -> k ∈ wrapper_foot l mw sc rc pc -> is_Some (h !! k).
Proof.
  intros [[Hat _] Hs Hr Hp Hi He _] Hk. unfold wrapper_foot in Hk. apply elem_of_cons in Hk as [->|Hk]; [eauto|].
  rewrite !elem_of_app in Hk. destruct Hk as [Hk|[Hk|[Hk|Hk]]].
  - apply elem_of_locs_of in Hk. rewrite !elem_of_cons in Hk. destruct Hk as [Hk|[Hk|Hk]].
    + by apply (opt_block_live _ _ _ Hi).
    + by apply (opt_block_live _ _ _ He).
    + by apply elem_of_nil in Hk.
  - by apply (registry_live _ _ _ _ _ _ _ Hs).
  - by apply (registry_live _ _ _ _ _ _ _ Hr).
  - by apply (registry_live _ _ _ _ _ _ _ Hp).
Qed.

Lemma logger_at_frame h h' p :
  logger_at h p -> (forall k g, h !! k = Some (OLogger g) -> h' !! k = Some (OLogger g)) -> logger_at h' p.
Proof. intros [->|(lg&g&->&Hg&?)] Hf; [by left|]. right. exists lg, g. auto. Qed.

(** The blocks of a wrapper that are not its structure or its logger do not matter to it. *)
Lemma wrapper_rep_frame h h' l mw sc rc pc :
  wrapper_rep h l mw sc rc pc ->
  (forall k, k ∈ wrapper_foot l mw sc rc pc -> h' !! k = h !! k) ->
  (forall k g, h !! k = Some (OLogger g) -> h' !! k = Some (OLogger g)) ->
  wrapper_rep h' l mw sc rc pc.
Proof.
  intros [[Hat Hlog] Hs Hr Hp Hi He Hnd] Hf Hlg. unfold wrapper_foot in Hf.
  assert (locs_of [mw_expectedMarpaSymbolIdArrayp mw; mw_expectedMarpaWrapperSymbolArraypp mw]
    = locs_of [mw_expectedMarpaSymbolIdArrayp mw] ++ locs_of [mw_expectedMarpaWrapperSymbolArraypp mw]) as Hsplit.
  { by rewrite <- locs_of_app. }
  rewrite Hsplit in Hf. split.
  - split; [rewrite Hf; [done|constructor]|]. by eapply logger_at_frame.
  - eapply registry_frame; [done|]. intros k Hk. apply Hf. set_solver.
  - eapply registry_frame; [done|]. intros k Hk. apply Hf. set_solver.
  - eapply registry_frame; [done|]. intros k Hk. apply Hf. set_solver.
  - eapply opt_block_frame; [done|]. intros k Hk. apply Hf. set_solver.
  - eapply opt_block_frame; [done|]. intros k Hk. apply Hf. set_solver.
  - done.
Qed.
End wrapper_lemmas.

(** ** Replacing one registry of a wrapper *)
Section replace.
Implicit Types (h : gmap positive obj).

(** The blocks of a wrapper outside its symbols, resp. outside its rules. *)
Definition rest_of_symbols (mw : marpaWrapper) (rc pc : list ptr) : list positive :=
  locs_of [mw_expectedMarpaSymbolIdArrayp mw; mw_expectedMarpaWrapperSymbolArraypp mw]
    ++ registry_foot (mw_marpaWrapperRulepp mw) (mw_nMarpaWrapperRulei mw) rc
    ++ registry_foot (mw_marpaWrapperProgresspp mw) (mw_nMarpaWrapperProgressi mw) pc.
Definition rest_of_rules (mw : marpaWrapper) (sc pc : list ptr) : list positive :=
  locs_of [mw_expectedMarpaSymbolIdArrayp mw; mw_expectedMarpaWrapperSymbolArraypp mw]
    ++ registry_foot (mw_marpaWrapperSymbolpp mw) (mw_nMarpaWrapperSymboli mw) sc
    ++ registry_foot (mw_marpaWrapperProgresspp mw) (mw_nMarpaWrapperProgressi mw) pc.

Lemma foot_symbols l mw sc rc pc :
  wrapper_foot l mw sc rc pc
  ≡ₚ registry_foot (mw_marpaWrapperSymbolpp mw) (mw_nMarpaWrapperSymboli mw) sc ++ l :: rest_of_symbols mw rc pc.
Proof. unfold wrapper_foot, rest_of_symbols. solve_Permutation. Qed.

Lemma foot_rules l mw sc rc pc :
  wrapper_foot l mw sc rc pc
  ≡ₚ registry_foot (mw_marpaWrapperRulepp mw) (mw_nMarpaWrapperRulei mw) rc ++ l :: rest_of_rules mw sc pc.
Proof. unfold wrapper_foot, rest_of_rules. solve_Permutation. Qed.

Definition with_symbols (pp : ptr) (size n : Z) (mw : marpaWrapper) : marpaWrapper :=
  mw_set_nMarpaWrapperSymboli n (mw_set_symbolbuf pp size mw).
Definition with_rules (pp : ptr) (size n : Z) (mw : marpaWrapper) : marpaWrapper :=
  mw_set_nMarpaWrapperRulei n (mw_set_rulebuf pp size mw).

Lemma locs_of_pair p q k : k ∈ locs_of [p; q] <-> k ∈ locs_of [p] \/ k ∈ locs_of [q].
Proof. rewrite !elem_of_locs_of. set_solver. Qed.

Lemma rep_with_symbols h h' l mw sc rc pc pp size n sc' :
  wrapper_rep h l mw sc rc pc -> registry h' (is_symbol l) pp size n sc' ->
  h' !! l = Some (OWrapper (with_symbols pp size n mw)) ->
  (forall k, k ∈ rest_of_symbols mw rc pc -> h' !! k = h !! k) ->
  (forall k g, h !! k = Some (OLogger g) -> h' !! k = Some (OLogger g)) ->
  NoDup (registry_foot pp n sc' ++ l :: rest_of_symbols mw rc pc) ->
  wrapper_rep h' l (with_symbols pp size n mw) sc' rc pc.
Proof.
  intros [[Hl Hlog] Hs Hr Hp Hi He Hnd] Hs' Hl' Hrest Hlg Hnd'. unfold rest_of_symbols in Hrest. split; simpl.
  - split; [done|]. by eapply logger_at_frame.
  - done.
  - eapply registry_frame; [done|]. intros k Hk. apply Hrest. set_solver.
  - eapply registry_frame; [done|]. intros k Hk. apply Hrest. set_solver.
  - eapply opt_block_frame; [done|]. intros k Hk. apply Hrest. rewrite elem_of_app, locs_of_pair. auto.
  - eapply opt_block_frame; [done|]. intros k Hk. apply Hrest. rewrite elem_of_app, locs_of_pair. auto.
  - by rewrite foot_symbols.
Qed.

Lemma rep_with_rules h h' l mw sc rc pc pp size n rc' :
  wrapper_rep h l mw sc rc pc -> registry h' (is_rule l) pp size n rc' ->
  h' !! l = Some (OWrapper (with_rules pp size n mw)) ->
  (forall k, k ∈ rest_of_rules mw sc pc -> h' !! k = h !! k) ->
  (forall k g, h !! k = Some (OLogger g) -> h' !! k = Some (OLogger g)) ->
  NoDup (registry_foot pp n rc' ++ l :: rest_of_rules mw sc pc) ->
  wrapper_rep h' l (with_rules pp size n mw) sc rc' pc.
Proof.
  intros [[Hl Hlog] Hs Hr Hp Hi He Hnd] Hs' Hl' Hrest Hlg Hnd'. unfold rest_of_rules in Hrest. split; simpl.
  - split; [done|]. by eapply logger_at_frame.
  - eapply registry_frame; [done|]. intros k Hk. apply Hrest. set_solver.
  - done.
  - eapply registry_frame; [done|]. intros k Hk. apply Hrest. set_solver.
  - eapply opt_block_frame; [done|]. intros k Hk. apply Hrest. rewrite elem_of_app, locs_of_pair. auto.
  - eapply opt_block_frame; [done|]. intros k Hk. apply Hrest. rewrite elem_of_app, locs_of_pair. auto.
  - by rewrite foot_rules.
Qed.

(** [manageBuf_createp] on a registry whose owner also owns [rest], then the owner's
    structure at [l] rewritten: the registry in the new heap, its new footprint, and what
    is left alone. *)
Lemma registry_grown h h1 P pp size n cells k l' l o rest :
  registry h P pp size n cells -> NoDup (registry_foot pp n cells ++ l :: rest) ->
  (forall j, j ∈ l :: rest -> is_Some (h !! j)) ->
  delete_locs (locs_of [pp]) h !! l' = None -> 0 < size + Z.of_nat k ->
  h1 = <[l := o]> (<[l' := OPtrs (Init <$> cells ++ replicate k Null)]> (delete_locs (locs_of [pp]) h)) ->
  registry h1 P (Loc l') (size + Z.of_nat k) n (cells ++ replicate k Null)
  /\ NoDup (registry_foot (Loc l') n (cells ++ replicate k Null) ++ l :: rest)
  /\ (forall j, j ∈ rest -> h1 !! j = h !! j)
  /\ reframe h (registry_foot pp n cells ++ l :: rest) h1
       (registry_foot (Loc l') n (cells ++ replicate k Null) ++ l :: rest).
Proof.
  intros Hr Hnd Hlive Hf Hpos ->. pose proof Hnd as Hnd0.
  apply NoDup_app in Hnd as (Hnr&Hd&Hnl).
  assert (forall j, j ∈ locs_of [pp] -> j ∈ registry_foot pp n cells) as Hpp.
  { intros j. unfold registry_foot. rewrite !elem_of_locs_of. set_solver. }
  assert (forall j, j ∈ locs_of (take (Z.to_nat n) cells) -> j ∈ registry_foot pp n cells) as Hel.
  { intros j. unfold registry_foot. rewrite !elem_of_locs_of. set_solver. }
  assert (forall j, j ∈ locs_of (take (Z.to_nat n) cells) -> j ∉ locs_of [pp]) as Hnp.
  { intros j Hj Hj'. pose proof (registry_owned _ _ _ _ _ _ Hr Hnr) as [_ Ho].
    apply elem_of_locs_of, list_elem_of_singleton in Hj'. apply (Ho j); [done|]. by apply elem_of_locs_of. }
  assert (forall j, is_Some (h !! j) -> j ∉ locs_of [pp] -> j <> l') as Hne.
  { intros j [x Hx] Hj ->. rewrite delete_locs_lookup_ne in Hf by done. congruence. }
  assert (forall j, j ∈ l :: rest -> j <> l') as Hne'.
  { intros j Hj. apply Hne; [by apply Hlive|]. intros Hj'. by apply (Hd j); [apply Hpp|]. }
  assert (forall j, j ∈ locs_of (take (Z.to_nat n) cells) -> j <> l') as Hne_el.
  { intros j Hj. apply Hne; [|by apply Hnp]. apply (registry_live _ _ _ _ _ _ _ Hr). by apply Hel. }
  assert (take (Z.to_nat n) (cells ++ replicate k Null) = take (Z.to_nat n) cells) as Htake.
  { destruct Hr as [_ Hu _]. rewrite take_app_le; [done|lia]. }
  assert (registry_foot (Loc l') n (cells ++ replicate k Null) = l' :: locs_of (take (Z.to_nat n) cells)) as Hfoot.
  { unfold registry_foot. rewrite Htake. done. }
  split_and!.
  - eapply registry_frame; [by eapply registry_grow|]. rewrite Hfoot. intros j Hj.
    rewrite lookup_insert_ne; [done|]. intros <-. apply elem_of_cons in Hj as [->|Hj].
    + apply (Hne' l'); [constructor|done].
    + apply (Hd l); [by apply Hel|constructor].
  - rewrite Hfoot. simpl. constructor.
    + rewrite elem_of_app. intros [Hj|Hj]; [by eapply Hne_el|by eapply Hne'].
    + apply NoDup_app. split_and!; [|intros j Hj; apply Hd; by apply Hel|done].
      unfold registry_foot in Hnr. change (locs_of (pp :: ?x)) with (locs_of ([pp] ++ x)) in Hnr.
      rewrite locs_of_app in Hnr. by apply NoDup_app in Hnr as (_&_&?).
  - intros j Hj. apply NoDup_cons in Hnl as [Hnl _].
    rewrite lookup_insert_ne by (intros ->; done).
    rewrite lookup_insert_ne by (apply not_eq_sym, Hne'; by constructor).
    rewrite delete_locs_lookup_ne; [done|]. intros Hj'. apply (Hd j); [by apply Hpp|by constructor].
  - rewrite Hfoot. split.
    + intros j Hj. simpl in Hj. apply not_elem_of_cons in Hj as [Hj1 Hj]. apply not_elem_of_app in Hj as [Hj2 Hj3].
      assert (j <> l) by (intros ->; apply Hj3; constructor).
      rewrite !lookup_insert_ne by done. rewrite !delete_locs_lookup.
      apply decide_ext. unfold registry_foot. change (locs_of (pp :: take ?x cells)) with (locs_of ([pp] ++ take x cells)).
      rewrite (locs_of_app [pp]), !elem_of_app.
      split; [by intros ?; left; left|]. intros [[?|?]|?]; [done|by destruct Hj2|by destruct Hj3].
    + intros j Hj. simpl in Hj. apply elem_of_cons in Hj as [->|Hj].
      * rewrite delete_locs_lookup in Hf. case_decide; [left|by right].
        rewrite elem_of_app. left. by apply Hpp.
      * left. rewrite elem_of_app in *. destruct Hj as [Hj|Hj]; [left; by apply Hel|by right].
Qed.

(** A fresh element registered, then the owner's structure rewritten. *)
Lemma registry_added h h1 P lb size n cells lo e l o rest :
  registry h P (Loc lb) size n cells -> NoDup (registry_foot (Loc lb) n cells ++ l :: rest) ->
  (forall j, j ∈ l :: rest -> is_Some (h !! j)) -> n < Z.of_nat (length cells) ->
  h !! lo = None -> P (Z.to_nat n) e ->
  (forall j, h1 !! j = (<[l := o]> (<[lo := e]> (<[lb := OPtrs (Init <$> <[Z.to_nat n := Loc lo]> cells)]> h))) !! j) ->
  registry h1 P (Loc lb) size (n + 1) (<[Z.to_nat n := Loc lo]> cells)
  /\ NoDup (registry_foot (Loc lb) (n + 1) (<[Z.to_nat n := Loc lo]> cells) ++ l :: rest)
  /\ (forall j, j ∈ rest -> h1 !! j = h !! j)
  /\ reframe h (registry_foot (Loc lb) n cells ++ l :: rest) h1
       (registry_foot (Loc lb) (n + 1) (<[Z.to_nat n := Loc lo]> cells) ++ l :: rest).
Proof.
  intros Hr Hnd Hlive Hn Hf HP Hh1. pose proof Hnd as Hnd0. apply NoDup_app in Hnd as (Hnr&Hd&Hnl).
  destruct (registry_add _ _ _ _ _ _ _ e Hr Hnr Hn Hf HP) as [Hr' Hfoot].
  assert (lb ∈ registry_foot (Loc lb) n cells) as Hlb.
  { unfold registry_foot. apply elem_of_locs_of. constructor. }
  assert (lo ∉ registry_foot (Loc lb) n cells) as Hlo.
  { intros Hin. destruct (registry_live _ _ _ _ _ _ _ Hr Hin). congruence. }
  assert (lo ∉ l :: rest) as Hlo'. { intros Hin. destruct (Hlive _ Hin). congruence. }
  assert (lb ∉ l :: rest) as Hlb' by (by apply Hd).
  split_and!.
  - eapply registry_frame; [exact Hr'|]. rewrite Hfoot. intros j Hj. rewrite Hh1, lookup_insert_ne; [done|].
    intros ->. apply elem_of_app in Hj as [Hj|Hj]; [apply (Hd j); [done|constructor]|].
    apply list_elem_of_singleton in Hj as ->. apply Hlo'. constructor.
  - rewrite Hfoot, <- (assoc_L (++)). apply NoDup_app. split_and!; [done| |].
    + intros j Hj Hj'. apply elem_of_cons in Hj' as [->|Hj']; [done|by apply (Hd j)].
    + by constructor.
  - intros j Hj. apply NoDup_cons in Hnl as [Hnl _]. rewrite Hh1.
    rewrite !lookup_insert_ne; [done|..]; intros ->; set_solver.
  - rewrite Hfoot. split.
    + intros j Hj. rewrite !elem_of_app, list_elem_of_singleton in Hj.
      rewrite Hh1, !lookup_insert_ne; [|intros ->; set_solver..].
      rewrite delete_locs_lookup_ne; [done|]. set_solver.
    + intros j Hj. rewrite !elem_of_app, list_elem_of_singleton in *. destruct Hj as [[?| ->]|?]; auto.
Qed.
(** A fresh symbol in the first free slot of the registry. *)
Lemma rep_symbol_added h h' l mw sc rc pc lb lo o :
  let n := mw_nMarpaWrapperSymboli mw in
  let mw' := with_symbols (Loc lb) (mw_sizeMarpaWrapperSymboli mw) (n + 1) mw in
  let sc' := <[Z.to_nat n := Loc lo]> sc in
  wrapper_rep h l mw sc rc pc -> mw_marpaWrapperSymbolpp mw = Loc lb -> n < Z.of_nat (length sc) ->
  h !! lo = None -> is_symbol l (Z.to_nat n) o ->
  (forall j, h' !! j = (<[l := OWrapper mw']> (<[lo := o]> (<[lb := OPtrs (Init <$> sc')]> h))) !! j) ->
  wrapper_rep h' l mw' sc' rc pc
  /\ reframe h (wrapper_foot l mw sc rc pc) h' (wrapper_foot l mw' sc' rc pc).
Proof.
  intros n mw' sc' Hrep Hpp Hlt Hlo Ho Hh'. pose proof (wr_symbols _ _ _ _ _ _ Hrep) as Hr. rewrite Hpp in Hr.
  pose proof (wr_nodup _ _ _ _ _ _ Hrep) as Hnd. rewrite foot_symbols, Hpp in Hnd.
  assert (h !! l = Some (OWrapper mw)) as Hl by apply Hrep. destruct (rg_buf _ _ _ _ _ _ Hr) as (Hlb&_&_).
  destruct (registry_added h h' _ lb _ n sc lo o l (OWrapper mw') (rest_of_symbols mw rc pc)
    Hr Hnd) as (Hr'&Hnd'&Hrest'&Hre'); [ |done|done|done|done|].
  { intros j Hj. eapply wrapper_foot_live; [exact Hrep|]. rewrite foot_symbols. set_solver. }
  split; [|by rewrite !foot_symbols, Hpp].
  eapply rep_with_symbols; [exact Hrep|exact Hr'| |exact Hrest'| |exact Hnd'].
  - by rewrite Hh', lookup_insert_eq.
  - intros j g Hj. rewrite Hh', !lookup_insert_ne by congruence. done.
Qed.

(** A fresh rule in the first free slot of the registry. *)
Lemma rep_rule_added h h' l mw sc rc pc lb lo o :
  let n := mw_nMarpaWrapperRulei mw in
  let mw' := with_rules (Loc lb) (mw_sizeMarpaWrapperRulei mw) (n + 1) mw in
  let rc' := <[Z.to_nat n := Loc lo]> rc in
  wrapper_rep h l mw sc rc pc -> mw_marpaWrapperRulepp mw = Loc lb -> n < Z.of_nat (length rc) ->
  h !! lo = None -> is_rule l (Z.to_nat n) o ->
  (forall j, h' !! j = (<[l := OWrapper mw']> (<[lo := o]> (<[lb := OPtrs (Init <$> rc')]> h))) !! j) ->
  wrapper_rep h' l mw' sc rc' pc
  /\ reframe h (wrapper_foot l mw sc rc pc) h' (wrapper_foot l mw' sc rc' pc).
Proof.
  intros n mw' rc' Hrep Hpp Hlt Hlo Ho Hh'. pose proof (wr_rules _ _ _ _ _ _ Hrep) as Hr. rewrite Hpp in Hr.
  pose proof (wr_nodup _ _ _ _ _ _ Hrep) as Hnd. rewrite foot_rules, Hpp in Hnd.
  assert (h !! l = Some (OWrapper mw)) as Hl by apply Hrep. destruct (rg_buf _ _ _ _ _ _ Hr) as (Hlb&_&_).
  destruct (registry_added h h' _ lb _ n rc lo o l (OWrapper mw') (rest_of_rules mw sc pc)
    Hr Hnd) as (Hr'&Hnd'&Hrest'&Hre'); [ |done|done|done|done|].
  { intros j Hj. eapply wrapper_foot_live; [exact Hrep|]. rewrite foot_rules. set_solver. }
  split; [|by rewrite !foot_rules, Hpp].
  eapply rep_with_rules; [exact Hrep|exact Hr'| |exact Hrest'| |exact Hnd'].
  - by rewrite Hh', lookup_insert_eq.
  - intros j g Hj. rewrite Hh', !lookup_insert_ne by congruence. done.
Qed.
End replace.
