(* ===== verification/Events.v ===== *)
(** * Event collection: [_marpaWrapper_event] and its comparator *)
From S2P Require Import Prelude Types External Runtime Demo MessageBuilder Logger WrapperLog Wrapper.

(** [_marpaWrapper_event_weight] *)
Definition marpaWrapper_event_weight (eventType : Z) : Z :=
  if eventType =? MARPA_EVENT_SYMBOL_COMPLETED then -1
  else if eventType =? MARPA_EVENT_SYMBOL_NULLED then 0
  else if (eventType =? MARPA_EVENT_SYMBOL_EXPECTED) || (eventType =? MARPA_EVENT_SYMBOL_PREDICTED) then 1
  else 0.

(** [_marpaWrapper_event_cmp] *)
Definition marpaWrapper_event_cmp (event1 event2 : marpaWrapperEvent_t) : Z :=
  let rc1 := marpaWrapper_event_weight (me_eventType event1) in
  let rc2 := marpaWrapper_event_weight (me_eventType event2) in
  if rc1 <? rc2 then -1 else if rc1 >? rc2 then 1 else 0.

(** What the switch of [_marpaWrapper_event] does of a libmarpa event type. *)
Inductive event_class : Type :=
| EvNone
| EvWarning (msgs : string)
| EvFatal (msgs : string)
| EvInfo (msgs : string)
| EvSubscribed (eventType : Z)
| EvUnsupported.

Definition classify_event (eventType : Z) : event_class :=
  if eventType =? MARPA_EVENT_NONE then EvNone
  else if eventType =? MARPA_EVENT_COUNTED_NULLABLE then EvFatal "This symbol is a counted nullable"
  else if eventType =? MARPA_EVENT_EARLEY_ITEM_THRESHOLD then EvWarning "Too many Earley items"
  else if eventType =? MARPA_EVENT_EXHAUSTED then EvInfo "Recognizer is exhausted"
  else if eventType =? MARPA_EVENT_LOOP_RULES then EvWarning "Grammar contains a infinite loop"
  else if eventType =? MARPA_EVENT_NULLING_TERMINAL then EvFatal "This symbol is a nulling terminal"
  else if eventType =? MARPA_EVENT_SYMBOL_COMPLETED then EvSubscribed MARPAWRAPPER_EVENTTYPE_COMPLETED
  else if eventType =? MARPA_EVENT_SYMBOL_NULLED then EvSubscribed MARPAWRAPPER_EVENTTYPE_NULLED
  else if eventType =? MARPA_EVENT_SYMBOL_EXPECTED then EvSubscribed MARPAWRAPPER_EVENTTYPE_PREDICTED
  else if eventType =? MARPA_EVENT_SYMBOL_PREDICTED then EvSubscribed MARPAWRAPPER_EVENTTYPE_PREDICTED
  else EvUnsupported.

Section events.
Context `{Env}.

(** [free(marpaWrapperEventp); return MARPAWRAPPER_BOOL_FALSE] of the loop. *)
Definition event_fail (marpaWrapperEventp : ptr) : M (option Z) :=
  free marpaWrapperEventp;; mret None.

(** One round of the loop: the new [subscribedEventi], or [None] when it returned. *)
Definition event_body (marpaWrapperp marpaWrapperEventp : ptr) (i subscribedEventi : Z) : M (option Z) :=
  mw ← load (A := marpaWrapper) marpaWrapperp;
  event ← marpa_ (marpa_g_event (mw_marpaGrammarp mw) i);
  let '(eventType, eventValuei) := event in
  if eventType <? 0 then
    LOG_MARPA_G_ERROR marpaWrapperp;; event_fail marpaWrapperEventp
  else
    match classify_event eventType with
    | EvNone => mret (Some subscribedEventi)
    | EvSubscribed t =>
      mw ← load (A := marpaWrapper) marpaWrapperp;
      symbolp ← load_cell (mw_marpaWrapperSymbolpp mw) eventValuei;
      store_cell marpaWrapperEventp subscribedEventi (MarpaWrapperEvent t symbolp);;
      mret (Some (subscribedEventi + 1))
    | EvUnsupported =>
      (* the address of the automatic variable [event] stands for itself *)
      LOG_NOTICEX marpaWrapperp "marpa_g_event_value(%p) returns unsupported event type %d"
        [FPtr (Lit (Str "&event")); FInt eventType];;
      mret (Some subscribedEventi)
    | EvWarning msgs =>
      mw ← load (A := marpaWrapper) marpaWrapperp;
      if decide (wo_warningIsErrorb (mw_marpaWrapperOption mw) = MARPAWRAPPER_BOOL_TRUE) then
        LOG_ERROR0 marpaWrapperp msgs;; event_fail marpaWrapperEventp
      else
        LOG_WARNING0 marpaWrapperp msgs;; mret (Some subscribedEventi)
    | EvFatal msgs => LOG_ERROR0 marpaWrapperp msgs;; event_fail marpaWrapperEventp
    | EvInfo msgs => LOG_INFO0 marpaWrapperp msgs;; event_fail marpaWrapperEventp
    end.

Fixpoint event_loop (n : nat) (marpaWrapperp marpaWrapperEventp : ptr) (i subscribedEventi : Z) : M (option Z) :=
  match n with
  | O => mret (Some subscribedEventi)
  | S n =>
    r ← event_body marpaWrapperp marpaWrapperEventp i subscribedEventi;
    match r with
    | None => mret None
    | Some subscribedEventi => event_loop n marpaWrapperp marpaWrapperEventp (i + 1) subscribedEventi
    end
  end.

(** The sort and the call of the user's callback. *)
Definition event_deliver (marpaWrapperp marpaWrapperEventp : ptr) (subscribedEventi : Z) : M unit :=
  if subscribedEventi >? 0 then
    mw ← load (A := marpaWrapper) marpaWrapperp;
    (if subscribedEventi >? 1 then
       if decide (wo_unsortedEventsb (mw_marpaWrapperOption mw) = MARPAWRAPPER_BOOL_FALSE) then
         es ← read_cells (A := marpaWrapperEvent_t) marpaWrapperEventp (Z.to_nat subscribedEventi);
         cells ← load (A := list (init marpaWrapperEvent_t)) marpaWrapperEventp;
         store marpaWrapperEventp
           ((Init <$> qsort marpaWrapper_event_cmp es) ++ drop (Z.to_nat subscribedEventi) cells)
       else mret tt
     else mret tt);;
    match wo_eventCallbackp (mw_marpaWrapperOption mw) with
    | None => mret tt
    | Some f =>
      user_ (UEvent f (wo_eventCallbackDatavp (mw_marpaWrapperOption mw)) marpaWrapperp
               subscribedEventi marpaWrapperEventp);;
      mret tt
    end
  else mret tt.

Definition marpaWrapper_event (marpaWrapperp : ptr) : M marpaWrapperBool_t :=
  mw ← load (A := marpaWrapper) marpaWrapperp;
  nbEventi ← marpa_ (marpa_g_event_count (mw_marpaGrammarp mw));
  if nbEventi <? 0 then mret MARPAWRAPPER_BOOL_TRUE
  else
    marpaWrapperEventp ← malloc (OEvents (replicate (Z.to_nat nbEventi) Uninit));
    if decide (marpaWrapperEventp = Null) then
      LOG_SYS_ERROR marpaWrapperp "malloc()";;
      mret MARPAWRAPPER_BOOL_FALSE
    else
      r ← event_loop (Z.to_nat nbEventi) marpaWrapperp marpaWrapperEventp 0 0;
      match r with
      | None => mret MARPAWRAPPER_BOOL_FALSE
      | Some subscribedEventi =>
        event_deliver marpaWrapperp marpaWrapperEventp subscribedEventi;;
        free marpaWrapperEventp;;
        mret MARPAWRAPPER_BOOL_TRUE
      end.
End events.

(** ** What a list of libmarpa events amounts to

    [None] when the call fails, else the subscribed events, as pairs of an event type of
    the wrapper and a symbol id, in libmarpa's order.  [strict] is [warningIsErrorb]. *)
Fixpoint event_spec (strict : bool) (evs : list (Z * Z)) : option (list (Z * Z)) :=
  match evs with
  | [] => Some []
  | (t, v) :: evs =>
    if t <? 0 then None
    else
      match classify_event t with
      | EvSubscribed t' => cons (t', v) <$> event_spec strict evs
      | EvWarning _ => if strict then None else event_spec strict evs
      | EvFatal _ | EvInfo _ => None
      | EvNone | EvUnsupported => event_spec strict evs
      end
  end.

(** libmarpa reports the events [evs] of the grammar [g]. *)
Record reports_events `{Env} (g : mhandle) (evs : list (Z * Z)) : Prop := {
  re_count : forall m, (marpa_run (marpa_g_event_count g) m).1 = Z.of_nat (length evs);
  re_event : forall m i ev, evs !! i = Some ev -> (marpa_run (marpa_g_event g (Z.of_nat i)) m).1 = ev;
  re_known : Forall (fun ev => ev.1 <= MARPA_EVENT_SYMBOL_PREDICTED) evs
}.

(** Every symbol id among the events indexes the wrapper's array of symbols [arr]. *)
Definition events_valid (arr : list (init ptr)) (sym : Z -> ptr) (evs : list (Z * Z)) : Prop :=
  Forall (fun ev => forall t, classify_event ev.1 = EvSubscribed t ->
            0 <= ev.2 /\ arr !! Z.to_nat ev.2 = Some (Init (sym ev.2))) evs.

Definition to_event (sym : Z -> ptr) (tv : Z * Z) : marpaWrapperEvent_t :=
  MarpaWrapperEvent tv.1 (sym tv.2).

(** The calls of the user's event callback that a trace shows: the function, its data, the
    wrapper, the number of events and the array. *)
Record delivery : Type := Delivery {
  dl_callback : fn;
  dl_data : ptr;
  dl_wrapper : ptr;
  dl_count : Z;
  dl_events : ptr
}.

Definition event_delivery (ev : event) : option delivery :=
  match ev with
  | EvUser c =>
    match c with
    | UEvent f datavp wrapperp nEventi eventp => Some (Delivery f datavp wrapperp nEventi eventp)
    | _ => None
    end
  | _ => None
  end.

Definition deliveries (t : list event) : list delivery := omap event_delivery t.

(** The one call for the events [subs], if there are any and the user wants them. *)
Definition told (o : marpaWrapperOption_t) (l : positive) (subs : list (Z * Z)) (le : positive) : list delivery :=
  match wo_eventCallbackp o, subs with
  | Some f, _ :: _ => [Delivery f (wo_eventCallbackDatavp o) (Loc l) (Z.of_nat (length subs)) (Loc le)]
  | _, _ => []
  end.

Lemma deliveries_snoc t ev : deliveries (t ++ [ev]) = deliveries t ++ option_list (event_delivery ev).
Proof. unfold deliveries. rewrite omap_app. simpl. by destruct (event_delivery ev). Qed.

Lemma classify_subscribed t t' :
  classify_event t = EvSubscribed t' -> t' = 1 \/ t' = 2 \/ t' = 4.
Proof.
  unfold classify_event. repeat case_match; intros Hc; try discriminate; injection Hc as <-; auto.
Qed.

Lemma event_spec_types strict evs subs :
  event_spec strict evs = Some subs -> Forall (fun tv => tv.1 = 1 \/ tv.1 = 2 \/ tv.1 = 4) subs.
Proof.
  revert subs. induction evs as [|[t v] evs IH]; intros subs; simpl; [intros [= <-]; constructor|].
  destruct (t <? 0); [done|]. destruct (classify_event t) eqn:E; try done.
  - apply IH.
  - destruct strict; [done|apply IH].
  - intros Hf. apply fmap_Some in Hf as (subs'&Hs&->). constructor; [by eapply classify_subscribed|by apply IH].
  - apply IH.
Qed.

(** The comparator sees no difference between the wrapper's event types. *)
Lemma weight_zero t : t = 1 \/ t = 2 \/ t = 4 -> marpaWrapper_event_weight t = 0.
Proof. intros [->|[->| ->]]; done. Qed.

Lemma events_unsorted es :
  Forall (fun e => me_eventType e = 1 \/ me_eventType e = 2 \/ me_eventType e = 4) es ->
  qsort marpaWrapper_event_cmp es = es.
Proof.
  intros Hes. apply qsort_id. induction Hes as [|e es He Hes IH]; constructor; [done|].
  eapply Forall_impl; [exact Hes|]. intros e' He'. unfold marpaWrapper_event_cmp.
  rewrite !weight_zero by done. done.
Qed.

Lemma event_spec_cons strict ev evs :
  event_spec strict (ev :: evs) = a ← event_spec strict [ev]; b ← event_spec strict evs; Some (a ++ b).
Proof.
  destruct ev as [t v]. simpl. destruct (event_spec strict evs) as [b|];
    destruct (t <? 0), (classify_event t), strict; done.
Qed.

(** Collecting the events calls no event callback, if the user's log callbacks do not. *)
Section deliveries_kept.
Context `{Env}.
Hypothesis Hlog : forall id ud level msgs, keeps deliveries (user_ (ULog (FnUser id) ud level msgs)).

Lemma deliveries_unwatched : Unwatched deliveries.
Proof using Hlog. split; [intros; by rewrite deliveries_snoc, app_nil_r..|exact Hlog]. Qed.

Lemma keeps_event_loop n p pe i j : keeps deliveries (event_loop n p pe i j).
Proof using Hlog.
  pose proof deliveries_unwatched. revert i j. induction n as [|n IH]; intros i j; simpl; [keeps|].
  apply keeps_bind; [|intros []; [done|keeps]]. unfold event_body, event_fail, LOG_NOTICEX, LOG_WARNING0, LOG_INFO0.
  keeps. all: apply keeps_marpa; intros; by rewrite deliveries_snoc, app_nil_r.
Qed.
End deliveries_kept.

Section events_props.
Context `{LogNeutral}.
Implicit Types (w : world).

Lemma wrapper_at_insert h l mw le o :
  wrapper_at h l mw -> h !! le = None -> wrapper_at (<[le := o]> h) l mw.
Proof.
  intros [Hl Hlog] Hf. split; [by rewrite lookup_insert_ne by congruence|].
  destruct Hlog as [->|(lg&g&->&Hg&?)]; [by left|]. right. exists lg, g.
  rewrite lookup_insert_ne by congruence. done.
Qed.

(** [n] cells of the event array hold [es], the rest is as it was allocated. *)
Definition event_image (es : list marpaWrapperEvent_t) (n : nat) : obj :=
  OEvents ((Init <$> es) ++ replicate (n - length es) Uninit).

Definition event_state (w0 w : world) (le : positive) (es : list marpaWrapperEvent_t) (n : nat) : Prop :=
  heap w = <[le := event_image es n]> (heap w0) /\ calm w0 w.

Section round.
Variables (w0 : world) (l : positive) (mw : marpaWrapper) (le ls : positive)
  (arr : list (init ptr)) (sym : Z -> ptr) (n : nat).
Hypothesis Hmw : wrapper_at (heap w0) l mw.
Hypothesis Hle : heap w0 !! le = None.
Hypothesis Hsyms : mw_marpaWrapperSymbolpp mw = Loc ls.
Hypothesis Harr : heap w0 !! ls = Some (OPtrs arr).

Lemma event_state_wrapper w es : event_state w0 w le es n -> wrapper_at (heap w) l mw.
Proof. intros [-> _]. by apply wrapper_at_insert. Qed.

Lemma event_state_calm w w' es :
  event_state w0 w le es n -> heap w' = heap w -> calm w w' -> event_state w0 w' le es n.
Proof. intros [Hh Hc] Hh' Hc'. split; [congruence|by etrans]. Qed.

(** The failing exit of a round: the array is released. *)
Lemma wp_event_fail w es Q :
  event_state w0 w le es n -> (forall w', heap w' = heap w0 -> calm w0 w' -> Q None w') ->
  wp (event_fail (Loc le)) Q w.
Proof.
  intros [Hh Hc] HQ. unfold event_fail. apply wp_bind. eapply wp_free; [by rewrite Hh, lookup_insert_eq|].
  apply wp_ret, HQ; [simpl; by rewrite Hh, delete_insert_id|]. etrans; [done|]. apply quiet_calm, quiet_set_heap.
Qed.

(** A log call, then the failing exit. *)
Lemma wp_log_fail w es (m : M unit) Q :
  (forall Q', (forall w', heap w' = heap w -> calm w w' -> Q' tt w') -> wp m Q' w) ->
  event_state w0 w le es n -> (forall w', heap w' = heap w0 -> calm w0 w' -> Q None w') ->
  wp (m;; event_fail (Loc le)) Q w.
Proof.
  intros Hm Hst HQ. apply wp_bind, Hm. intros w' Hh Hc. eapply wp_event_fail; [|done].
  by eapply event_state_calm.
Qed.

Lemma event_image_push es e :
  (length es < n)%nat ->
  OEvents (<[length es := Init e]> ((Init <$> es) ++ replicate (n - length es) Uninit)) = event_image (es ++ [e]) n.
Proof.
  intros Hlt. unfold event_image. f_equal. rewrite insert_app_r_alt by (by rewrite length_fmap).
  rewrite length_fmap, Nat.sub_diag, length_app. simpl.
  replace (n - length es)%nat with (S (n - (length es + 1))) by lia. simpl.
  by rewrite fmap_app, <- (assoc_L (++)).
Qed.

Lemma wp_event_body w i es t v Q :
  event_state w0 w le es n -> (length es < n)%nat ->
  (forall m, (marpa_run (marpa_g_event (mw_marpaGrammarp mw) i) m).1 = (t, v)) -> t <= 9 ->
  (forall t', classify_event t = EvSubscribed t' -> 0 <= v /\ arr !! Z.to_nat v = Some (Init (sym v))) ->
  (forall subs w', event_spec (bool_decide (wo_warningIsErrorb (mw_marpaWrapperOption mw) = MARPAWRAPPER_BOOL_TRUE)) [(t, v)] = Some subs ->
     event_state w0 w' le (es ++ (to_event sym <$> subs)) n ->
     Q (Some (Z.of_nat (length es + length subs))) w') ->
  (forall w', event_spec (bool_decide (wo_warningIsErrorb (mw_marpaWrapperOption mw) = MARPAWRAPPER_BOOL_TRUE)) [(t, v)] = None ->
     heap w' = heap w0 -> calm w0 w' -> Q None w') ->
  wp (event_body (Loc l) (Loc le) i (Z.of_nat (length es))) Q w.
Proof.
  intros Hst Hlt Hev Ht9 Hval Hsome Hnone. unfold event_body.
  apply wp_bind. eapply wp_load; [by apply (event_state_wrapper _ _ Hst)|].
  apply wp_bind, wp_marpa. intros r w1 Hh1 Hr Hlive Hn1 _ _. simpl in Hlive.
  specialize (Hev (marpa w)). rewrite <- Hr in Hev. simpl in Hev. subst r.
  assert (event_state w0 w1 le es n) as Hst1 by (eapply event_state_calm; [done|done|by split]).
  pose proof (event_state_wrapper _ _ Hst1) as Hmw1.
  simpl in Hsome, Hnone. destruct (t <? 0) eqn:Et.
  { eapply wp_log_fail; [|done|auto]. intros Q' HQ'. by eapply wp_LOG_MARPA_G_ERROR. }
  assert (forall w', heap w' = heap w1 -> calm w1 w' -> event_state w0 w' le (es ++ (to_event sym <$> [])) n) as Hsame.
  { intros w' Hh Hc. rewrite app_nil_r. by eapply event_state_calm. }
  assert (Z.of_nat (length es) = Z.of_nat (length es + length (@nil (Z * Z)))) as Hlen0 by (simpl; lia).
  destruct (classify_event t) as [|msgs|msgs|msgs|t'|] eqn:Ecl.
  - apply wp_ret. rewrite Hlen0. apply Hsome; [done|by apply Hsame].
  - apply wp_bind. eapply wp_load; [apply Hmw1|].
    assert (format msgs [] = Some msgs /\ slength msgs <= 2 ^ 20) as [Hf Hs].
    { clear -Ecl. unfold classify_event in Ecl. repeat case_match; try discriminate; injection Ecl as <-; done. }
    destruct (decide _) as [Hw|Hw]; [rewrite bool_decide_true in * by done|rewrite bool_decide_false in * by done].
    + eapply wp_log_fail; [|done|auto]. intros Q' HQ'. eapply wp_LOG_ERROR0; [done..|].
      intros w' Hh Hq. apply HQ'; [done|by apply quiet_calm].
    + apply wp_bind. eapply wp_log0; [done..|]. intros w' Hh Hq. apply wp_ret.
      rewrite Hlen0. apply Hsome; [done|]. apply Hsame; [done|by apply quiet_calm].
  - assert (format msgs [] = Some msgs /\ slength msgs <= 2 ^ 20) as [Hf Hs].
    { clear -Ecl. unfold classify_event in Ecl. repeat case_match; try discriminate; injection Ecl as <-; done. }
    eapply wp_log_fail; [|done|auto]. intros Q' HQ'. eapply wp_LOG_ERROR0; [done..|].
    intros w' Hh Hq. apply HQ'; [done|by apply quiet_calm].
  - assert (format msgs [] = Some msgs /\ slength msgs <= 2 ^ 20) as [Hf Hs].
    { clear -Ecl. unfold classify_event in Ecl. repeat case_match; try discriminate; injection Ecl as <-; done. }
    eapply wp_log_fail; [|done|auto]. intros Q' HQ'. eapply wp_log0; [done..|].
    intros w' Hh Hq. apply HQ'; [done|by apply quiet_calm].
  - destruct (Hval t' eq_refl) as [Hv0 Hv]. destruct Hst1 as [Hst1 Hc1].
    apply wp_bind. eapply wp_load; [apply Hmw1|]. rewrite Hsyms. apply wp_bind.
    eapply wp_load_cell; [rewrite Hst1, lookup_insert_ne by congruence; done|done|done|].
    apply wp_bind. eapply wp_store_cell; [by rewrite Hst1, lookup_insert_eq| |].
    { rewrite length_app, length_fmap, length_replicate. lia. }
    apply wp_ret. replace (Z.of_nat (length es) + 1) with (Z.of_nat (length es + length [(t', v)])) by (simpl; lia).
    apply Hsome; [done|]. rewrite Nat2Z.id. split.
    + simpl. rewrite Hst1, insert_insert_eq. by rewrite <- event_image_push.
    + etrans; [done|]. apply quiet_calm, quiet_set_heap.
  - exfalso. clear -Ecl Et Ht9. unfold classify_event, MARPA_EVENT_NONE, MARPA_EVENT_COUNTED_NULLABLE,
      MARPA_EVENT_EARLEY_ITEM_THRESHOLD, MARPA_EVENT_EXHAUSTED, MARPA_EVENT_LOOP_RULES, MARPA_EVENT_NULLING_TERMINAL,
      MARPA_EVENT_SYMBOL_COMPLETED, MARPA_EVENT_SYMBOL_EXPECTED, MARPA_EVENT_SYMBOL_NULLED, MARPA_EVENT_SYMBOL_PREDICTED in Ecl.
    repeat case_match; try discriminate. Zbool. lia.
Qed.

Let strict := bool_decide (wo_warningIsErrorb (mw_marpaWrapperOption mw) = MARPAWRAPPER_BOOL_TRUE).

(** The loop over the last events [evs], the first [i] having given [es]. *)
Lemma wp_event_loop evs w i es Q :
  event_state w0 w le es n -> (length es + length evs <= n)%nat ->
  (forall k ev m, evs !! k = Some ev ->
     (marpa_run (marpa_g_event (mw_marpaGrammarp mw) (i + Z.of_nat k)) m).1 = ev) ->
  Forall (fun ev => ev.1 <= MARPA_EVENT_SYMBOL_PREDICTED) evs -> events_valid arr sym evs ->
  (forall subs w', event_spec strict evs = Some subs ->
     event_state w0 w' le (es ++ (to_event sym <$> subs)) n ->
     Q (Some (Z.of_nat (length es + length subs))) w') ->
  (forall w', event_spec strict evs = None -> heap w' = heap w0 -> calm w0 w' -> Q None w') ->
  wp (event_loop (length evs) (Loc l) (Loc le) i (Z.of_nat (length es))) Q w.
Proof.
  revert w i es. induction evs as [|[t v] evs IH]; intros w i es Hst Hlen Hev Hk Hval Hsome Hnone.
  { apply wp_ret. replace (length es) with (length es + length (@nil (Z * Z)))%nat by (simpl; lia).
    apply Hsome; [done|]. by rewrite app_nil_r. }
  apply Forall_cons_1 in Hk as [Hk1 Hk]. apply Forall_cons_1 in Hval as [Hv1 Hval]. simpl in Hlen.
  cbn [event_loop length]. apply wp_bind. eapply (wp_event_body _ _ _ t v); [done|lia| |exact Hk1|exact Hv1| |].
  - intros m. specialize (Hev 0%nat (t, v) m eq_refl). by rewrite Z.add_0_r in Hev.
  - intros subs1 w1 Hs1 Hst1. fold strict in Hs1.
    assert (length subs1 <= 1)%nat as Hl1.
    { clear -Hs1. simpl in Hs1. repeat case_match; try discriminate; injection Hs1 as <-; simpl; lia. }
    rewrite <- (length_fmap (to_event sym) subs1), <- length_app.
    eapply IH; [done| | |done|done| |].
    + rewrite length_app, length_fmap. lia.
    + intros k ev m Hk'. replace (i + 1 + Z.of_nat k) with (i + Z.of_nat (S k)) by lia. by apply Hev.
    + intros subs2 w2 Hs2 Hst2. rewrite length_app, length_fmap, <- Nat.add_assoc, <- length_app.
      apply Hsome; [rewrite event_spec_cons, Hs1; simpl; by rewrite Hs2|].
      by rewrite fmap_app, (assoc_L (++)).
    + intros w2 Hs2 Hh Hc. apply Hnone; [|done|done]. rewrite event_spec_cons, Hs1. simpl. by rewrite Hs2.
  - intros w1 Hs1 Hh Hc. fold strict in Hs1. apply wp_ret, Hnone; [|done|done].
    by rewrite event_spec_cons, Hs1.
Qed.
End round.

Lemma wp_read_cells {A} `{Storable (list (init A))} w p (xs : list A) rest Q :
  heap w !! p = Some (to_obj ((Init <$> xs) ++ rest)) -> Q xs w ->
  wp (read_cells (Loc p) (length xs)) Q w.
Proof.
  intros Hp HQ. unfold read_cells.
  eapply wp_mono; [apply (wp_for_loop _ _ _ (fun j acc w' => w' = w /\ acc = take (Z.to_nat j) xs))|].
  - done.
  - intros j acc w' Hj [-> ->]. apply wp_bind.
    destruct (lookup_lt_is_Some_2 xs (Z.to_nat j)) as [x Hx]; [lia|].
    eapply wp_load_cell; [exact Hp|lia| |].
    { rewrite lookup_app_l, list_lookup_fmap, Hx by (rewrite length_fmap; lia). done. }
    apply wp_ret. split; [done|]. replace (Z.to_nat (j + 1)) with (S (Z.to_nat j)) by lia.
    by rewrite (take_S_r _ _ x).
  - intros acc w' [-> ->]. by rewrite Z.add_0_l, Nat2Z.id, take_ge by done.
Qed.
(** The sort and the callback, on the events collected: the array comes out as it was. *)
Lemma wp_event_deliver w w3 l mw le subs strict evs sym n :
  let o := mw_marpaWrapperOption mw in
  let es := to_event sym <$> subs in
  wrapper_at (heap w) l mw -> heap w !! le = None -> event_spec strict evs = Some subs ->
  heap w3 = <[le := event_image es n]> (heap w) -> calm w w3 ->
  (forall f w4, wo_eventCallbackp o = Some f -> heap w4 = heap w3 -> calm w w4 ->
     wp (user_ (UEvent f (wo_eventCallbackDatavp o) (Loc l) (Z.of_nat (length subs)) (Loc le)))
        (fun _ w5 => heap w5 = heap w4 /\ calm w4 w5
           /\ deliveries (trace w5) = deliveries (trace w4) ++ [Delivery f (wo_eventCallbackDatavp o) (Loc l) (Z.of_nat (length subs)) (Loc le)]) w4) ->
  wp (event_deliver (Loc l) (Loc le) (Z.of_nat (length subs)))
     (fun _ w5 => heap w5 = heap w3 /\ calm w w5 /\ deliveries (trace w5) = deliveries (trace w3) ++ told o l subs le) w3.
Proof.
  intros o es Hmw Hle Hs Hh3 Hc3 Hcb. unfold event_deliver, told. destruct (_ >? 0) eqn:E0.
  2:{ apply wp_ret. split_and!; [done|done|]. rewrite Z.gtb_ltb in E0. Zbool. destruct subs; [|simpl in E0; lia].
      fold o. destruct (wo_eventCallbackp o); by rewrite app_nil_r. }
  apply wp_bind. eapply wp_load; [rewrite Hh3; by apply wrapper_at_insert|]. fold o.
  set (m := Z.of_nat (length subs)) in *.
  assert (heap w3 !! le = Some (event_image es n)) as Hle3 by (rewrite Hh3; apply lookup_insert_eq).
  assert (wp (if m >? 1 then
     if decide (wo_unsortedEventsb o = MARPAWRAPPER_BOOL_FALSE) then
       es ← read_cells (A := marpaWrapperEvent_t) (Loc le) (Z.to_nat m);
       cells ← load (A := list (init marpaWrapperEvent_t)) (Loc le);
       store (Loc le) ((Init <$> qsort marpaWrapper_event_cmp es) ++ drop (Z.to_nat m) cells)
     else mret tt
   else mret tt) (fun _ w4 => heap w4 = heap w3 /\ quiet w3 w4 /\ deliveries (trace w4) = deliveries (trace w3)) w3) as Hsort.
  { destruct (_ >? 1); [|by apply wp_ret]. destruct (decide _); [|by apply wp_ret].
    unfold m. rewrite Nat2Z.id. rewrite <- (length_fmap (to_event sym) subs). fold es.
    apply wp_bind. eapply wp_read_cells; [exact Hle3|]. apply wp_bind. eapply wp_load; [exact Hle3|].
    eapply wp_store; [exact Hle3|]. simpl. split; [|split; [apply quiet_set_heap|done]].
    assert (qsort marpaWrapper_event_cmp es = es) as ->.
    { apply events_unsorted, Forall_fmap. eapply Forall_impl; [by eapply event_spec_types|]. by intros []. }
    rewrite drop_app_length' by (by rewrite length_fmap). apply insert_id. exact Hle3. }
  apply wp_bind. eapply wp_mono; [exact Hsort|]. intros [] w4 (Hh4&Hq4&Hd4).
  assert (calm w w4) as Hc4 by (etrans; [done|by apply quiet_calm]).
  destruct (wo_eventCallbackp o) as [f|] eqn:Ef; [|by apply wp_ret; rewrite app_nil_r].
  apply wp_bind. eapply wp_mono; [by apply (Hcb f w4)|].
  intros b w5 (Hh5&Hc5&Hd5). apply wp_ret. split_and!; [congruence|by etrans|].
  rewrite Hd5, Hd4. destruct subs; [done|by unfold m].
Qed.
End events_props.

(** ** Properties *)
Section events_theorems.
Context `{LogNeutral}.

(** A defect: the sort by kind ("Completed, then nulled, then predicted") never
    changes anything.  The comparator weighs libmarpa's [MARPA_EVENT_SYMBOL_*] codes but
    is given the wrapper's [MARPAWRAPPER_EVENTTYPE_*], which all weigh the same. *)
Theorem event_sort_is_identity evs strict subs sym :
  event_spec strict evs = Some subs ->
  qsort marpaWrapper_event_cmp (to_event sym <$> subs) = to_event sym <$> subs.
Proof.
  intros Hs. apply events_unsorted, Forall_fmap. eapply Forall_impl; [by eapply event_spec_types|].
  by intros [t v].
Qed.

(** C38. [_marpaWrapper_event] collects the events libmarpa reports (the types of [marpa.h] and
    valid symbols) and hands exactly the subscribed ones, with the symbols of their ids, to the
    user's callback: one call for all of them, if there is one to tell and the user gave a
    callback, and no call otherwise.  It fails on a fatal or informational event, on a
    warning when warnings are errors, and when memory for the events is refused, and then the
    callback is not called.  The events come in libmarpa's order whatever the option says,
    because the sort by kind never changes anything ([event_sort_is_identity]).  On every branch
    the event array is released and no other block changes.  The user's callbacks are
    assumed to leave the heap and the references alone (that of events when the array it is
    given holds just those events) and not to call an event callback themselves; logging works
    ([LogNeutral]). *)
Theorem marpaWrapper_event_delivers (w : world) l mw evs arr ls sym :
  wrapper_at (heap w) l mw ->
  mw_marpaWrapperSymbolpp mw = Loc ls -> heap w !! ls = Some (OPtrs arr) ->
  reports_events (mw_marpaGrammarp mw) evs -> events_valid arr sym evs ->
  let o := mw_marpaWrapperOption mw in
  let spec := event_spec (bool_decide (wo_warningIsErrorb o = MARPAWRAPPER_BOOL_TRUE)) evs in
  (forall id ud level msgs, keeps deliveries (user_ (ULog (FnUser id) ud level msgs))) ->
  (forall f le subs rest w1, wo_eventCallbackp o = Some f -> spec = Some subs ->
     heap w1 = <[le := OEvents ((Init <$> (to_event sym <$> subs)) ++ rest)]> (heap w) -> calm w w1 ->
     wp (user_ (UEvent f (wo_eventCallbackDatavp o) (Loc l) (Z.of_nat (length subs)) (Loc le)))
        (fun _ w2 => heap w2 = heap w1 /\ calm w1 w2
           /\ deliveries (trace w2) = deliveries (trace w1) ++ [Delivery f (wo_eventCallbackDatavp o) (Loc l) (Z.of_nat (length subs)) (Loc le)]) w1) ->
  wp (marpaWrapper_event (Loc l))
     (fun r w' => heap w' = heap w /\ calm w w' /\
        match (if alloc_ok w 0%nat then spec else None) with
        | None => r = MARPAWRAPPER_BOOL_FALSE /\ deliveries (trace w') = deliveries (trace w)
        | Some subs => r = MARPAWRAPPER_BOOL_TRUE /\
            exists le, heap w !! le = None /\ deliveries (trace w') = deliveries (trace w) ++ told o l subs le
        end) w.
Proof.
  intros Hmw Hsyms Harr [Hcount Hevent Hknown] Hval o spec Hlog Hcb. unfold marpaWrapper_event.
  apply wp_bind. eapply wp_load; [apply Hmw|]. apply wp_bind, (wp_keeps deliveries).
  { apply keeps_marpa. intros. by rewrite deliveries_snoc, app_nil_r. }
  apply wp_marpa. intros cnt w1 Hh1 Hr Hlive Hn1 _ Hal Hd1. specialize (Hcount (marpa w)). rewrite <- Hr in Hcount.
  simpl in Hcount, Hlive. subst cnt. rewrite (proj2 (Z.ltb_ge _ _)) by lia.
  pose proof (deliveries_unwatched Hlog) as Hun. assert (calm w w1) as Hc1 by by split.
  apply wp_bind. unfold wp at 1, malloc. rewrite Hal. destruct (alloc_ok w 0%nat).
  2:{ rewrite decide_True by done. apply wp_bind, (wp_keeps deliveries); [apply keeps_LOG_SYS_ERROR|].
      eapply wp_LOG_SYS_ERROR; [by rewrite <- Hh1 in Hmw|done|done|]. intros w3 Hh3 Hq3 Hd3. apply wp_ret.
      split_and!; [by rewrite Hh3| |done|by rewrite Hd3].
      etrans; [exact Hc1|]. etrans; [|by apply quiet_calm]. split; [done|]. intros Hn m. apply (Hn (S m)). }
  pose proof (pick_fresh w1) as Hle. set (le := pick w1) in *. rewrite Hh1 in Hle. rewrite decide_False by done.
  set (w2 := alloc_at _ _ w1) in *. rewrite Nat2Z.id. set (n := length evs) in *.
  assert (event_state w w2 le [] n) as Hst.
  { split; [|by etrans; [|apply quiet_calm, quiet_alloc_at]]. simpl. rewrite Hh1. unfold event_image.
    by rewrite Nat2Z.id, Nat.sub_0_r. }
  apply wp_bind, (wp_keeps deliveries); [by apply keeps_event_loop|]. change 0 with (Z.of_nat (length (@nil marpaWrapperEvent_t))) at 2.
  eapply (wp_event_loop w l mw le ls arr sym n Hmw Hle Hsyms Harr evs); [done|simpl; lia| |done|done| |].
  { intros k ev m Hk. by apply Hevent. }
  - intros subs w3 Hs [Hh3 Hc3] Hd3. fold o in Hs. fold spec in Hs. simpl length. simpl app in Hh3.
    apply wp_bind. simpl Nat.add. eapply wp_mono; [eapply (wp_event_deliver w w3 l mw le subs _ evs sym n); [done..|]|].
    { intros f w4 Hf Hh4 Hc4. eapply (Hcb f le subs); [done|done| |done]. by rewrite Hh4, Hh3. }
    intros [] w4 (Hh4&Hc4&Hd4). apply wp_bind. eapply wp_free; [by rewrite Hh4, Hh3, lookup_insert_eq|].
    apply wp_ret. rewrite Hs. split_and!; [simpl; by rewrite Hh4, Hh3, delete_insert_id| |done|].
    + etrans; [done|]. apply quiet_calm, quiet_set_heap.
    + exists le. split; [done|]. simpl. rewrite Hd4, Hd3. simpl. by rewrite Hd1.
  - intros w3 Hs Hh3 Hc3 Hd3. fold o in Hs. fold spec in Hs. apply wp_ret. rewrite Hs. split_and!; [done..|].
    rewrite Hd3. exact Hd1.
Qed.

(** An exhausted parse is only logged as information, yet it makes the call fail and
    drops every event reported with it, whatever they are. *)
Theorem event_exhausted_fails strict evs evs' v :
  event_spec strict (evs ++ (MARPA_EVENT_EXHAUSTED, v) :: evs') = None.
Proof.
  induction evs as [|[t u] evs IH]; [done|]. simpl. rewrite IH.
  repeat case_match; done.
Qed.
End events_theorems.

(** ** Witnesses *)

(** A libmarpa that always reports the events [evs]. *)
Definition demo_env_events (evs : list (Z * Z)) : Env := {|
  marpa_run R c m :=
    match c in mcall R return R * list Z with
    | marpa_g_event_count _ => (Z.of_nat (length evs), m)
    | marpa_g_event _ i => (default (0, 0) (evs !! Z.to_nat i), m)
    | c => demo_marpa c m
    end;
  user_run R c := demo_user c;
  strerror _ := "error"%string;
  vsnprintf_fails _ := false;
  ptr_string _ := "p"%string;
  time_now _ := 0;
  localtime t := Some t;
  strftime_out _ _ := "01/01/1970 00:00:00"%string;
  write_result u s := (Z.of_nat (String.length s), u);
  loop_fuel := 100%nat
|}.

Lemma demo_events_logNeutral evs : LogNeutral (H0 := demo_env_events evs).
Proof.
  split.
  - intros id ud level msgs w. apply wp_ret. split; [done|]. split; [|done]. split; [done|]. simpl. by rewrite live_snoc.
  - intros t. by exists t.
  - done.
  - simpl. lia.
  - done.
Qed.

Lemma demo_reports_events g evs :
  Forall (fun ev => ev.1 <= MARPA_EVENT_SYMBOL_PREDICTED) evs -> reports_events (H0 := demo_env_events evs) g evs.
Proof. intros Hk. split; [done| |done]. intros m i ev Hi. simpl. by rewrite Nat2Z.id, Hi. Qed.

(** A grammar with two symbols, and a user who wants to know of its events: the second symbol
    is predicted, there is a warning, and the first symbol is completed. *)
Definition demo_events_option : marpaWrapperOption_t :=
  MarpaWrapperOption None Null (Some (FnUser 1)) Null MARPAWRAPPER_BOOL_FALSE MARPAWRAPPER_BOOL_FALSE MARPAWRAPPER_BOOL_FALSE.
Definition demo_events_mw : marpaWrapper :=
  MarpaWrapper 7 0 Null 2 2 (Loc 2) 0 0 Null Null Null 0 0 Null demo_events_option.
Definition demo_events_heap : gmap positive obj :=
  {[ 1%positive := OWrapper demo_events_mw; 2%positive := OPtrs [Init (Loc 3); Init (Loc 4)] ]}.
Definition demo_events : list (Z * Z) := [(9, 1); (2, 0); (6, 0)].

Lemma event_sort_is_identity_witness :
  qsort marpaWrapper_event_cmp [MarpaWrapperEvent 4 (Loc 4); MarpaWrapperEvent 1 (Loc 3)]
  = [MarpaWrapperEvent 4 (Loc 4); MarpaWrapperEvent 1 (Loc 3)].
Proof.
  exact (event_sort_is_identity demo_events false [(4, 1); (1, 0)] (fun i => if i =? 0 then Loc 3 else Loc 4) eq_refl).
Defined.

Lemma demo_log_keeps evs id ud level msgs :
  keeps (H := demo_platform) deliveries (user_ (H0 := demo_env_events evs) (ULog (FnUser id) ud level msgs)).
Proof. intros w. unfold wlp, user_. simpl. by rewrite deliveries_snoc, app_nil_r. Qed.

(** Two events are told in one call. *)
Lemma marpaWrapper_event_delivers_witness :
  exists r w' le, marpaWrapper_event (H0 := demo_env_events demo_events) (Loc 1) (demo_world demo_events_heap []) = Done r w'
    /\ heap w' = demo_events_heap /\ r = MARPAWRAPPER_BOOL_TRUE
    /\ deliveries (trace w') = [Delivery (FnUser 1) Null (Loc 1) 2 (Loc le)].
Proof.
  destruct (wp_run _ _ _ (marpaWrapper_event_delivers (H0 := demo_env_events demo_events) (H1 := demo_events_logNeutral demo_events)
    (demo_world demo_events_heap []) 1 demo_events_mw demo_events [Init (Loc 3); Init (Loc 4)] 2
    (fun i => if i =? 0 then Loc 3 else Loc 4)
    (conj eq_refl (or_introl eq_refl)) eq_refl eq_refl
    (demo_reports_events _ demo_events ltac:(by repeat constructor))
    ltac:(repeat (apply Forall_cons; split; [by intros t _|]); by apply Forall_nil)
    (demo_log_keeps demo_events)
    ltac:(intros f le subs rest w1 _ _ _ _; apply wp_ret; split; [done|]; split; [split; [by simpl; rewrite live_snoc|done]|];
          simpl; by rewrite deliveries_snoc)))
    as (r&w'&Hrun&Hh&_&Hr&le&_&Hd).
  exact (ex_intro _ r (ex_intro _ w' (ex_intro _ le (conj Hrun (conj Hh (conj Hr Hd)))))).
Defined.
