(* ===== verification/Codes.v ===== *)
(** * The descriptions of [libmarpa-dist/marpa_codes.c]

    The constant tables libmarpa exports for its error, event and step codes, and how the
    texts of the wrapper relate to them. *)
From S2P Require Import Prelude Types External WrapperLog Events.

(** [struct marpa_error_description_s] and [struct marpa_event_description_s] *)
Record description : Type := Description {
  d_code : Z;
  d_name : string;
  d_suggested : string
}.

Definition marpa_error_description : list description := [
  Description 0 "MARPA_ERR_NONE" "No error";
  Description 1 "MARPA_ERR_AHFA_IX_NEGATIVE" "MARPA_ERR_AHFA_IX_NEGATIVE";
  Description 2 "MARPA_ERR_AHFA_IX_OOB" "MARPA_ERR_AHFA_IX_OOB";
  Description 3 "MARPA_ERR_ANDID_NEGATIVE" "MARPA_ERR_ANDID_NEGATIVE";
  Description 4 "MARPA_ERR_ANDID_NOT_IN_OR" "MARPA_ERR_ANDID_NOT_IN_OR";
  Description 5 "MARPA_ERR_ANDIX_NEGATIVE" "MARPA_ERR_ANDIX_NEGATIVE";
  Description 6 "MARPA_ERR_BAD_SEPARATOR" "Separator has invalid symbol ID";
  Description 7 "MARPA_ERR_BOCAGE_ITERATION_EXHAUSTED" "MARPA_ERR_BOCAGE_ITERATION_EXHAUSTED";
  Description 8 "MARPA_ERR_COUNTED_NULLABLE" "Nullable symbol on RHS of a sequence rule";
  Description 9 "MARPA_ERR_DEVELOPMENT" "Development error, see string";
  Description 10 "MARPA_ERR_DUPLICATE_AND_NODE" "MARPA_ERR_DUPLICATE_AND_NODE";
  Description 11 "MARPA_ERR_DUPLICATE_RULE" "Duplicate rule";
  Description 12 "MARPA_ERR_DUPLICATE_TOKEN" "Duplicate token";
  Description 13 "MARPA_ERR_YIM_COUNT" "Maximum number of Earley items exceeded";
  Description 14 "MARPA_ERR_YIM_ID_INVALID" "MARPA_ERR_YIM_ID_INVALID";
  Description 15 "MARPA_ERR_EVENT_IX_NEGATIVE" "Negative event index";
  Description 16 "MARPA_ERR_EVENT_IX_OOB" "No event at that index";
  Description 17 "MARPA_ERR_GRAMMAR_HAS_CYCLE" "Grammar has cycle";
  Description 18 "MARPA_ERR_INACCESSIBLE_TOKEN" "Token symbol is inaccessible";
  Description 19 "MARPA_ERR_INTERNAL" "MARPA_ERR_INTERNAL";
  Description 20 "MARPA_ERR_INVALID_AHFA_ID" "MARPA_ERR_INVALID_AHFA_ID";
  Description 21 "MARPA_ERR_INVALID_AIMID" "MARPA_ERR_INVALID_AIMID";
  Description 22 "MARPA_ERR_INVALID_BOOLEAN" "Argument is not boolean";
  Description 23 "MARPA_ERR_INVALID_IRLID" "MARPA_ERR_INVALID_IRLID";
  Description 24 "MARPA_ERR_INVALID_NSYID" "MARPA_ERR_INVALID_NSYID";
  Description 25 "MARPA_ERR_INVALID_LOCATION" "Location is not valid";
  Description 26 "MARPA_ERR_INVALID_RULE_ID" "Rule ID is malformed";
  Description 27 "MARPA_ERR_INVALID_START_SYMBOL" "Specified start symbol is not valid";
  Description 28 "MARPA_ERR_INVALID_SYMBOL_ID" "Symbol ID is malformed";
  Description 29 "MARPA_ERR_I_AM_NOT_OK" "Marpa is in a not OK state";
  Description 30 "MARPA_ERR_MAJOR_VERSION_MISMATCH" "Libmarpa major version number is a mismatch";
  Description 31 "MARPA_ERR_MICRO_VERSION_MISMATCH" "Libmarpa micro version number is a mismatch";
  Description 32 "MARPA_ERR_MINOR_VERSION_MISMATCH" "Libmarpa minor version number is a mismatch";
  Description 33 "MARPA_ERR_NOOKID_NEGATIVE" "MARPA_ERR_NOOKID_NEGATIVE";
  Description 34 "MARPA_ERR_NOT_PRECOMPUTED" "This grammar is not precomputed";
  Description 35 "MARPA_ERR_NOT_TRACING_COMPLETION_LINKS" "MARPA_ERR_NOT_TRACING_COMPLETION_LINKS";
  Description 36 "MARPA_ERR_NOT_TRACING_LEO_LINKS" "MARPA_ERR_NOT_TRACING_LEO_LINKS";
  Description 37 "MARPA_ERR_NOT_TRACING_TOKEN_LINKS" "MARPA_ERR_NOT_TRACING_TOKEN_LINKS";
  Description 38 "MARPA_ERR_NO_AND_NODES" "MARPA_ERR_NO_AND_NODES";
  Description 39 "MARPA_ERR_NO_EARLEY_SET_AT_LOCATION" "Earley set ID is after latest Earley set";
  Description 40 "MARPA_ERR_NO_OR_NODES" "MARPA_ERR_NO_OR_NODES";
  Description 41 "MARPA_ERR_NO_PARSE" "No parse";
  Description 42 "MARPA_ERR_NO_RULES" "This grammar does not have any rules";
  Description 43 "MARPA_ERR_NO_START_SYMBOL" "This grammar has no start symbol";
  Description 44 "MARPA_ERR_NO_TOKEN_EXPECTED_HERE" "No token is expected at this earleme location";
  Description 45 "MARPA_ERR_NO_TRACE_YIM" "MARPA_ERR_NO_TRACE_YIM";
  Description 46 "MARPA_ERR_NO_TRACE_YS" "MARPA_ERR_NO_TRACE_YS";
  Description 47 "MARPA_ERR_NO_TRACE_PIM" "MARPA_ERR_NO_TRACE_PIM";
  Description 48 "MARPA_ERR_NO_TRACE_SRCL" "MARPA_ERR_NO_TRACE_SRCL";
  Description 49 "MARPA_ERR_NULLING_TERMINAL" "A symbol is both terminal and nulling";
  Description 50 "MARPA_ERR_ORDER_FROZEN" "The ordering is frozen";
  Description 51 "MARPA_ERR_ORID_NEGATIVE" "MARPA_ERR_ORID_NEGATIVE";
  Description 52 "MARPA_ERR_OR_ALREADY_ORDERED" "MARPA_ERR_OR_ALREADY_ORDERED";
  Description 53 "MARPA_ERR_PARSE_EXHAUSTED" "The parse is exhausted";
  Description 54 "MARPA_ERR_PARSE_TOO_LONG" "This input would make the parse too long";
  Description 55 "MARPA_ERR_PIM_IS_NOT_LIM" "MARPA_ERR_PIM_IS_NOT_LIM";
  Description 56 "MARPA_ERR_POINTER_ARG_NULL" "An argument is null when it should not be";
  Description 57 "MARPA_ERR_PRECOMPUTED" "This grammar is precomputed";
  Description 58 "MARPA_ERR_PROGRESS_REPORT_EXHAUSTED" "The progress report is exhausted";
  Description 59 "MARPA_ERR_PROGRESS_REPORT_NOT_STARTED" "No progress report has been started";
  Description 60 "MARPA_ERR_RECCE_NOT_ACCEPTING_INPUT" "The recognizer is not accepting input";
  Description 61 "MARPA_ERR_RECCE_NOT_STARTED" "The recognizer has not been started";
  Description 62 "MARPA_ERR_RECCE_STARTED" "The recognizer has been started";
  Description 63 "MARPA_ERR_RHS_IX_NEGATIVE" "RHS index cannot be negative";
  Description 64 "MARPA_ERR_RHS_IX_OOB" "RHS index must be less than rule length";
  Description 65 "MARPA_ERR_RHS_TOO_LONG" "The RHS is too long";
  Description 66 "MARPA_ERR_SEQUENCE_LHS_NOT_UNIQUE" "LHS of sequence rule would not be unique";
  Description 67 "MARPA_ERR_SOURCE_TYPE_IS_AMBIGUOUS" "MARPA_ERR_SOURCE_TYPE_IS_AMBIGUOUS";
  Description 68 "MARPA_ERR_SOURCE_TYPE_IS_COMPLETION" "MARPA_ERR_SOURCE_TYPE_IS_COMPLETION";
  Description 69 "MARPA_ERR_SOURCE_TYPE_IS_LEO" "MARPA_ERR_SOURCE_TYPE_IS_LEO";
  Description 70 "MARPA_ERR_SOURCE_TYPE_IS_NONE" "MARPA_ERR_SOURCE_TYPE_IS_NONE";
  Description 71 "MARPA_ERR_SOURCE_TYPE_IS_TOKEN" "MARPA_ERR_SOURCE_TYPE_IS_TOKEN";
  Description 72 "MARPA_ERR_SOURCE_TYPE_IS_UNKNOWN" "MARPA_ERR_SOURCE_TYPE_IS_UNKNOWN";
  Description 73 "MARPA_ERR_START_NOT_LHS" "Start symbol not on LHS of any rule";
  Description 74 "MARPA_ERR_SYMBOL_VALUED_CONFLICT" "Symbol is treated both as valued and unvalued";
  Description 75 "MARPA_ERR_TERMINAL_IS_LOCKED" "The terminal status of the symbol is locked";
  Description 76 "MARPA_ERR_TOKEN_IS_NOT_TERMINAL" "Token symbol must be a terminal";
  Description 77 "MARPA_ERR_TOKEN_LENGTH_LE_ZERO" "Token length must greater than zero";
  Description 78 "MARPA_ERR_TOKEN_TOO_LONG" "Token is too long";
  Description 79 "MARPA_ERR_TREE_EXHAUSTED" "Tree iterator is exhausted";
  Description 80 "MARPA_ERR_TREE_PAUSED" "Tree iterator is paused";
  Description 81 "MARPA_ERR_UNEXPECTED_TOKEN_ID" "Unexpected token";
  Description 82 "MARPA_ERR_UNPRODUCTIVE_START" "Unproductive start symbol";
  Description 83 "MARPA_ERR_VALUATOR_INACTIVE" "Valuator inactive";
  Description 84 "MARPA_ERR_VALUED_IS_LOCKED" "The valued status of the symbol is locked";
  Description 85 "MARPA_ERR_RANK_TOO_LOW" "Rule or symbol rank too low";
  Description 86 "MARPA_ERR_RANK_TOO_HIGH" "Rule or symbol rank too high";
  Description 87 "MARPA_ERR_SYMBOL_IS_NULLING" "Symbol is nulling";
  Description 88 "MARPA_ERR_SYMBOL_IS_UNUSED" "Symbol is not used";
  Description 89 "MARPA_ERR_NO_SUCH_RULE_ID" "No rule with this ID exists";
  Description 90 "MARPA_ERR_NO_SUCH_SYMBOL_ID" "No symbol with this ID exists";
  Description 91 "MARPA_ERR_BEFORE_FIRST_TREE" "Tree iterator is before first tree";
  Description 92 "MARPA_ERR_SYMBOL_IS_NOT_COMPLETION_EVENT" "Symbol is not set up for completion events";
  Description 93 "MARPA_ERR_SYMBOL_IS_NOT_NULLED_EVENT" "Symbol is not set up for nulled events";
  Description 94 "MARPA_ERR_SYMBOL_IS_NOT_PREDICTION_EVENT" "Symbol is not set up for prediction events";
  Description 95 "MARPA_ERR_RECCE_IS_INCONSISTENT" "MARPA_ERR_RECCE_IS_INCONSISTENT";
  Description 96 "MARPA_ERR_INVALID_ASSERTION_ID" "Assertion ID is malformed";
  Description 97 "MARPA_ERR_NO_SUCH_ASSERTION_ID" "No assertion with this ID exists";
  Description 98 "MARPA_ERR_HEADERS_DO_NOT_MATCH" "Internal error: Libmarpa was built incorrectly"
].

Definition marpa_event_description : list description := [
  Description 0 "MARPA_EVENT_NONE" "No event";
  Description 1 "MARPA_EVENT_COUNTED_NULLABLE" "This symbol is a counted nullable";
  Description 2 "MARPA_EVENT_EARLEY_ITEM_THRESHOLD" "Too many Earley items";
  Description 3 "MARPA_EVENT_EXHAUSTED" "Recognizer is exhausted";
  Description 4 "MARPA_EVENT_LOOP_RULES" "Grammar contains a infinite loop";
  Description 5 "MARPA_EVENT_NULLING_TERMINAL" "This symbol is a nulling terminal";
  Description 6 "MARPA_EVENT_SYMBOL_COMPLETED" "Completed symbol";
  Description 7 "MARPA_EVENT_SYMBOL_EXPECTED" "Expecting symbol";
  Description 8 "MARPA_EVENT_SYMBOL_NULLED" "Symbol was nulled";
  Description 9 "MARPA_EVENT_SYMBOL_PREDICTED" "Symbol was predicted"
].

Definition marpa_step_type_description : list (Z * string) := [
  (0, "MARPA_STEP_INTERNAL1"%string);
  (1, "MARPA_STEP_RULE"%string);
  (2, "MARPA_STEP_TOKEN"%string);
  (3, "MARPA_STEP_NULLING_SYMBOL"%string);
  (4, "MARPA_STEP_TRACE"%string);
  (5, "MARPA_STEP_INACTIVE"%string);
  (6, "MARPA_STEP_INTERNAL2"%string);
  (7, "MARPA_STEP_INITIAL"%string)
].

(** The text the wrapper uses for an entry: the name, then the suggested description
    where there is one. *)
Definition strerror_text (d : description) : string :=
  if decide (d_suggested d = d_name d) then d_name d else d_name d +:+ ": " +:+ d_suggested d.

(** ** Properties *)

(** Each table is indexed by its codes: entry [i] describes code [i], and names are
    not repeated. *)
Theorem codes_indexed :
  d_code <$> marpa_error_description = seqZ 0 99 /\ NoDup (d_name <$> marpa_error_description)
  /\ d_code <$> marpa_event_description = seqZ 0 10 /\ NoDup (d_name <$> marpa_event_description)
  /\ (marpa_step_type_description).*1 = seqZ 0 8 /\ NoDup (marpa_step_type_description).*2.
Proof. split_and!; try (by vm_compute); apply (bool_decide_unpack _); by vm_compute. Qed.

(** The wrapper's error text for a code of libmarpa is libmarpa's own name and
    description of that code, for every code but the last; the last one
    ([MARPA_ERR_HEADERS_DO_NOT_MATCH]) and everything outside the table are unknown. *)
Theorem marpa_strerror_agrees e :
  marpa_strerror e =
    (if decide (0 <= e < 98) then from_option strerror_text "" (marpa_error_description !! Z.to_nat e)
     else "Unknown Marpa error")%string.
Proof.
  destruct (decide (0 <= e < 98)) as [He|He].
  - assert (Forall (fun e => marpa_strerror e = from_option strerror_text ""%string (marpa_error_description !! Z.to_nat e)) (seqZ 0 98)) as Hall.
    { apply (bool_decide_unpack _). by vm_compute. }
    rewrite Forall_forall in Hall. apply Hall, elem_of_seqZ. lia.
  - destruct e as [|p|p]; [lia| |done]. do 7 (destruct p as [p|p|]; try done; try lia).
Qed.

(** Every event type the wrapper reports as a message is reported with libmarpa's own
    description of it. *)
Theorem classify_event_described t msgs :
  classify_event t = EvWarning msgs \/ classify_event t = EvFatal msgs \/ classify_event t = EvInfo msgs ->
  exists d, d ∈ marpa_event_description /\ d_code d = t /\ d_suggested d = msgs.
Proof.
  intros Hc. assert (t = 1 \/ t = 2 \/ t = 3 \/ t = 4 \/ t = 5) as Ht.
  { unfold classify_event in Hc. repeat case_match; Zbool; naive_solver. }
  exists (Description t (d_name (default (Description 0 "" "") (marpa_event_description !! Z.to_nat t))) msgs).
  destruct Ht as [->|[->|[->|[->| ->]]]]; simpl in *; destruct Hc as [Hc|[Hc|Hc]]; try discriminate; injection Hc as <-;
    (split_and!; [|done|done]; apply list_elem_of_lookup); [exists 1%nat|exists 2%nat|exists 3%nat|exists 4%nat|exists 5%nat]; done.
Qed.

Lemma classify_event_described_witness :
  exists d, d ∈ marpa_event_description /\ d_code d = 3 /\ d_suggested d = "Recognizer is exhausted"%string.
Proof. apply (classify_event_described 3 "Recognizer is exhausted"). right. right. reflexivity. Defined.
