(* ===== verification/Grammar.v ===== *)
(** * Construction, destruction and the grammar phase of [src/marpaWrapper.c] *)
From S2P Require Import Prelude Types External Runtime ManageBuf MessageBuilder Logger WrapperLog Wrapper Events.

Section grammar.
Context `{Env}.

(** [manageBuf_createp()] and [manageBuf_freev()] on the arrays of the structure. *)
Definition symbols_createp (marpaWrapperp : ptr) (wanted : Z) : M ptr :=
  mw ← load marpaWrapperp;
  r ← manageBuf_createp (mw_marpaWrapperSymbolpp mw) (mw_sizeMarpaWrapperSymboli mw) wanted sizeof_ptr;
  store marpaWrapperp (mw_set_symbolbuf r.2.1 r.2.2 mw);;
  mret r.1.

Definition rules_createp (marpaWrapperp : ptr) (wanted : Z) : M ptr :=
  mw ← load marpaWrapperp;
  r ← manageBuf_createp (mw_marpaWrapperRulepp mw) (mw_sizeMarpaWrapperRulei mw) wanted sizeof_ptr;
  store marpaWrapperp (mw_set_rulebuf r.2.1 r.2.2 mw);;
  mret r.1.

Definition symbols_freev (marpaWrapperp : ptr) : M unit :=
  mw ← load marpaWrapperp;
  r ← manageBuf_freev (mw_marpaWrapperSymbolpp mw) (mw_sizeMarpaWrapperSymboli mw) (mw_nMarpaWrapperSymboli mw);
  store marpaWrapperp (mw_set_nMarpaWrapperSymboli r.2 (mw_set_symbolbuf r.1.1 r.1.2 mw)).

Definition rules_freev (marpaWrapperp : ptr) : M unit :=
  mw ← load marpaWrapperp;
  r ← manageBuf_freev (mw_marpaWrapperRulepp mw) (mw_sizeMarpaWrapperRulei mw) (mw_nMarpaWrapperRulei mw);
  store marpaWrapperp (mw_set_nMarpaWrapperRulei r.2 (mw_set_rulebuf r.1.1 r.1.2 mw)).

Definition progress_freev (marpaWrapperp : ptr) : M unit :=
  mw ← load marpaWrapperp;
  r ← manageBuf_freev (mw_marpaWrapperProgresspp mw) (mw_sizeMarpaWrapperProgressi mw) (mw_nMarpaWrapperProgressi mw);
  store marpaWrapperp (mw_set_nMarpaWrapperProgressi r.2 (mw_set_progressbuf r.1.1 r.1.2 mw)).

(** The argument is [None] for a null [marpaWrapperpp]; the result is the new
    [*marpaWrapperpp]. *)
Definition marpaWrapper_destroyv (marpaWrapperpp : option ptr) : M (option ptr) :=
  match marpaWrapperpp with
  | None => mret None
  | Some marpaWrapperp =>
    (if decide (marpaWrapperp = Null) then mret tt
     else
       mw ← load (A := marpaWrapper) marpaWrapperp;
       (if mw_marpaRecognizerp mw =? 0 then mret tt
        else marpa_ (marpa_r_unref (mw_marpaRecognizerp mw)));;
       (if mw_marpaGrammarp mw =? 0 then mret tt
        else marpa_ (marpa_g_unref (mw_marpaGrammarp mw)));;
       symbols_freev marpaWrapperp;;
       rules_freev marpaWrapperp;;
       progress_freev marpaWrapperp;;
       mw ← load (A := marpaWrapper) marpaWrapperp;
       (if decide (mw_expectedMarpaSymbolIdArrayp mw = Null) then mret tt
        else free (mw_expectedMarpaSymbolIdArrayp mw));;
       (if decide (mw_expectedMarpaWrapperSymbolArraypp mw = Null) then mret tt
        else free (mw_expectedMarpaWrapperSymbolArraypp mw));;
       free marpaWrapperp);;
    mret (Some Null)
  end.

(** The structure after the block of assignments that follows [malloc()]. *)
Definition marpaWrapper_initial (o : marpaWrapperOption_t) : marpaWrapper :=
  MarpaWrapper 0 0 (wo_genericLoggerp o) 0 0 Null 0 0 Null Null Null 0 0 Null o.

Definition marpaWrapper_newp (marpaWrapperOptionp : option marpaWrapperOption_t) : M ptr :=
  let marpaWrapperOption := default marpaWrapperOption_default marpaWrapperOptionp in
  marpaWrapperp ← malloc (OWrapper (marpaWrapper_initial marpaWrapperOption));
  if decide (marpaWrapperp = Null) then
    e ← get_errno;
    marpaWrapper_logExt Null MARPAWRAPPERERRORORIGIN_SYSTEM e (Lit (Str "malloc()")) GENERICLOGGER_LOGLEVEL_ERROR;;
    mret Null
  else
    let fail : M ptr := marpaWrapper_destroyv (Some marpaWrapperp);; mret Null in
    v ← marpa_ marpa_version;
    if v.1 <? 0 then LOG_MARPA_ERROR marpaWrapperp v.1;; fail
    else
      checked ← match wo_versionip marpaWrapperOption with
                | None => mret MARPA_ERR_NONE
                | Some (major, minor, micro) => marpa_ (marpa_check_version major minor micro)
                end;
      if negb (checked =? MARPA_ERR_NONE) then LOG_MARPA_ERROR marpaWrapperp checked;; fail
      else
        marpa_ marpa_c_init;;
        g ← marpa_ marpa_g_new;
        update marpaWrapperp (mw_set_marpaGrammarp g);;
        if g =? 0 then LOG_MARPA_C_ERROR marpaWrapperp;; fail
        else
          f ← marpa_ (marpa_g_force_valued g);
          if f <? 0 then LOG_MARPA_G_ERROR marpaWrapperp;; fail
          else mret marpaWrapperp.

(** The first contents of a symbol: indeterminate where the code assigns nothing. *)
Definition marpaWrapperSymbol_blank : marpaWrapperSymbol :=
  MarpaWrapperSymbol 0 Null
    (MarpaWrapperSymbolOption Null MARPAWRAPPER_BOOL_FALSE MARPAWRAPPER_BOOL_FALSE 0 0 Uninit) Uninit Uninit.

(** [MARPAWRAPPER_LOG_MARPA_G_ERROR; return NULL] unless [ok]. *)
Definition or_null (marpaWrapperp : ptr) (ok : bool) (k : M ptr) : M ptr :=
  if ok then k else LOG_MARPA_G_ERROR marpaWrapperp;; mret Null.

(** The options of a new symbol, applied to libmarpa one by one. *)
Definition symbol_applyOptions (marpaWrapperp marpaWrapperSymbolp : ptr) : M ptr :=
  s ← load (A := marpaWrapperSymbol) marpaWrapperSymbolp;
  mw ← load (A := marpaWrapper) marpaWrapperp;
  let g := mw_marpaGrammarp mw in
  let id := ms_marpaSymbolIdi s in
  let o := ms_marpaWrapperSymbolOption s in
  ok ← (if decide (so_terminalb o = MARPAWRAPPER_BOOL_TRUE)
        then r ← marpa_ (marpa_g_symbol_is_terminal_set g id 1); mret (r =? 1) else mret true);
  or_null marpaWrapperp ok (
  ok ← (if decide (so_startb o = MARPAWRAPPER_BOOL_TRUE)
        then r ← marpa_ (marpa_g_start_symbol_set g id); mret (negb (r <? 0)) else mret true);
  or_null marpaWrapperp ok (
  ok ← (if has_flag (so_eventSeti o) MARPAWRAPPER_EVENTTYPE_COMPLETED
        then r ← marpa_ (marpa_g_symbol_is_completion_event_set g id 1); mret (r =? 1) else mret true);
  or_null marpaWrapperp ok (
  ok ← (if has_flag (so_eventSeti o) MARPAWRAPPER_EVENTTYPE_NULLED
        then r ← marpa_ (marpa_g_symbol_is_nulled_event_set g id 1); mret (r =? 1) else mret true);
  or_null marpaWrapperp ok (
  ok ← (if has_flag (so_eventSeti o) MARPAWRAPPER_EVENTTYPE_PREDICTED
        then r ← marpa_ (marpa_g_symbol_is_prediction_event_set g id 1); mret (r =? 1) else mret true);
  or_null marpaWrapperp ok (mret marpaWrapperSymbolp))))).

(** [_marpaWrapper_g_addSymbolp] *)
Definition marpaWrapper_g_addSymbolp_id (marpaWrapperp : ptr) (marpaSymbolIdi : Z)
    (marpaWrapperSymbolOptionp : option marpaWrapperSymbolOption_t) : M ptr :=
  n ← int_add marpaSymbolIdi 1;
  let nMarpaWrapperSymboli := to_size_t n in
  p ← symbols_createp marpaWrapperp nMarpaWrapperSymboli;
  if decide (p = Null) then
    LOG_SYS_ERROR marpaWrapperp "manageBuf_createp()";; mret Null
  else
    marpaWrapperSymbolp ← malloc (OSymbol marpaWrapperSymbol_blank);
    if decide (marpaWrapperSymbolp = Null) then
      LOG_SYS_ERROR marpaWrapperp "malloc()";; mret Null
    else
      update marpaWrapperp (mw_set_nMarpaWrapperSymboli nMarpaWrapperSymboli);;
      mw ← load (A := marpaWrapper) marpaWrapperp;
      store_cell (mw_marpaWrapperSymbolpp mw) marpaSymbolIdi marpaWrapperSymbolp;;
      s ← load (A := marpaWrapperSymbol) marpaWrapperSymbolp;
      let o := match marpaWrapperSymbolOptionp with
               | None => default (ms_marpaWrapperSymbolOption s)
                           (marpaWrapper_symbolOptionDefaultb (Some (ms_marpaWrapperSymbolOption s))).2
               | Some o => o
               end in
      store marpaWrapperSymbolp
        (MarpaWrapperSymbol marpaSymbolIdi marpaWrapperp o (ms_isLexemeb s) (ms_lengthl s));;
      symbol_applyOptions marpaWrapperp marpaWrapperSymbolp.

Definition marpaWrapper_g_addSymbolp (marpaWrapperp : ptr)
    (marpaWrapperSymbolOptionp : option marpaWrapperSymbolOption_t) : M ptr :=
  if decide (marpaWrapperp = Null) then mret Null
  else
    mw ← load (A := marpaWrapper) marpaWrapperp;
    marpaSymbolIdi ← marpa_ (marpa_g_symbol_new (mw_marpaGrammarp mw));
    if marpaSymbolIdi =? -2 then LOG_MARPA_G_ERROR marpaWrapperp;; mret Null
    else marpaWrapper_g_addSymbolp_id marpaWrapperp marpaSymbolIdi marpaWrapperSymbolOptionp.

(** The options of a new rule, applied to libmarpa. *)
Definition rule_applyOptions (marpaWrapperp marpaWrapperRulep : ptr) (marpaRuleIdi : Z)
    (o : marpaWrapperRuleOption_t) : M ptr :=
  mw ← load (A := marpaWrapper) marpaWrapperp;
  let g := mw_marpaGrammarp mw in
  ok ← (if negb (ro_ranki o =? 0) then
          marpa_ (marpa_g_rule_rank_set g marpaRuleIdi (ro_ranki o));;
          e ← marpa_ (marpa_g_error g);
          mret (e =? MARPA_ERR_NONE)
        else mret true);
  or_null marpaWrapperp ok (
  ok ← (if decide (ro_nullRanksHighb o = MARPAWRAPPER_BOOL_TRUE)
        then r ← marpa_ (marpa_g_rule_null_high_set g marpaRuleIdi 1); mret (negb (r =? -2)) else mret true);
  or_null marpaWrapperp ok (mret marpaWrapperRulep)).

(** [_marpaWrapper_g_addRulep] *)
Definition marpaWrapper_g_addRulep_id (marpaWrapperp : ptr) (marpaRuleIdi : Z) (o : marpaWrapperRuleOption_t) : M ptr :=
  n ← int_add marpaRuleIdi 1;
  let nMarpaWrapperRulei := to_size_t n in
  p ← rules_createp marpaWrapperp nMarpaWrapperRulei;
  if decide (p = Null) then
    LOG_SYS_ERROR marpaWrapperp "manageBuf_createp()";; mret Null
  else
    marpaWrapperRulep ← malloc (ORule (MarpaWrapperRule marpaRuleIdi marpaWrapperp o));
    if decide (marpaWrapperRulep = Null) then
      LOG_SYS_ERROR marpaWrapperp "malloc()";; mret Null
    else
      update marpaWrapperp (mw_set_nMarpaWrapperRulei nMarpaWrapperRulei);;
      mw ← load (A := marpaWrapper) marpaWrapperp;
      store_cell (mw_marpaWrapperRulepp mw) marpaRuleIdi marpaWrapperRulep;;
      rule_applyOptions marpaWrapperp marpaWrapperRulep marpaRuleIdi o.

(** The argument checks: the message of the error logged, if any. *)
Definition rule_option_error (o : marpaWrapperRuleOption_t) : option string :=
  if decide (ro_lhsSymbolp o = Null) then Some "marpaWrapperRuleOptionp->lhsSymbolp is NULL"%string
  else if decide (ro_sequenceb o = MARPAWRAPPER_BOOL_TRUE) then
    if negb (ro_nRhsSymboli o =? 1) then Some "A sequence must have exactly one RHS"%string
    else if negb (ro_minimumi o =? 0) && negb (ro_minimumi o =? 1)
    then Some "A sequence must have a minimum of exactly 0 or 1"%string
    else None
  else None.

Definition sizeof_int : Z := 4.

Definition symbol_id (symbolp : ptr) : M Z :=
  s ← load (A := marpaWrapperSymbol) symbolp; mret (ms_marpaSymbolIdi s).

(** Creates the rule in libmarpa, from the array of right-hand side ids. *)
Definition rule_create (marpaWrapperp : ptr) (o : marpaWrapperRuleOption_t) (rhsIdp : ptr) : M Z :=
  mw ← load (A := marpaWrapper) marpaWrapperp;
  if decide (ro_sequenceb o = MARPAWRAPPER_BOOL_TRUE) then
    separatorSymbolIdi ← (if decide (ro_separatorSymbolp o = Null) then mret (-1)
                          else symbol_id (ro_separatorSymbolp o));
    let sequenceFlagsi :=
      if decide (ro_properb o = MARPAWRAPPER_BOOL_TRUE) then Z.lor 0 MARPA_PROPER_SEPARATION else 0 in
    lhs ← symbol_id (ro_lhsSymbolp o);
    rhs ← load_cell rhsIdp 0;
    marpa_ (marpa_g_sequence_new (mw_marpaGrammarp mw) lhs rhs separatorSymbolIdi (ro_minimumi o) sequenceFlagsi)
  else
    lhs ← symbol_id (ro_lhsSymbolp o);
    rhs ← (if decide (rhsIdp = Null) then mret []
           else read_cells (A := Z) rhsIdp (Z.to_nat (ro_nRhsSymboli o)));
    marpa_ (marpa_g_rule_new (mw_marpaGrammarp mw) lhs rhs (to_int (ro_nRhsSymboli o))).

(** The array of right-hand side ids ([None]: no memory). *)
Definition rule_rhs (o : marpaWrapperRuleOption_t) : M (option ptr) :=
  if ro_nRhsSymboli o >? 0 then
    rhsIdp ← malloc (OInts (replicate (Z.to_nat (to_size_t (ro_nRhsSymboli o * sizeof_int) / sizeof_int)) Uninit));
    if decide (rhsIdp = Null) then mret None
    else
      for_loop (Z.to_nat (ro_nRhsSymboli o)) 0
        (fun i _ =>
           symbolp ← load_cell (ro_rhsSymbolpp o) i;
           id ← symbol_id symbolp;
           store_cell rhsIdp i id) tt;;
      mret (Some rhsIdp)
  else mret (Some Null).

Definition marpaWrapper_g_addRulep (marpaWrapperp : ptr) (marpaWrapperRuleOptionp : option marpaWrapperRuleOption_t) : M ptr :=
  if decide (marpaWrapperp = Null) then mret Null
  else
    match marpaWrapperRuleOptionp with
    | None => LOG_ERROR0 marpaWrapperp "marpaWrapperRuleOptionp is NULL";; mret Null
    | Some o =>
      match rule_option_error o with
      | Some msgs => LOG_ERROR0 marpaWrapperp msgs;; mret Null
      | None =>
        r ← rule_rhs o;
        match r with
        | None => LOG_SYS_ERROR marpaWrapperp "malloc()";; mret Null
        | Some rhsIdp =>
          marpaRuleIdi ← rule_create marpaWrapperp o rhsIdp;
          (if decide (rhsIdp = Null) then mret tt else free rhsIdp);;
          if marpaRuleIdi =? -2 then LOG_MARPA_G_ERROR marpaWrapperp;; mret Null
          else marpaWrapper_g_addRulep_id marpaWrapperp marpaRuleIdi o
        end
      end
    end.

Definition marpaWrapper_g_precomputeb (marpaWrapperp : ptr) : M marpaWrapperBool_t :=
  if decide (marpaWrapperp = Null) then mret MARPAWRAPPER_BOOL_FALSE
  else
    mw ← load (A := marpaWrapper) marpaWrapperp;
    r ← marpa_ (marpa_g_precompute (mw_marpaGrammarp mw));
    if r <? 0 then LOG_MARPA_G_ERROR marpaWrapperp;; mret MARPAWRAPPER_BOOL_FALSE
    else marpaWrapper_event marpaWrapperp.
End grammar.
