(* ===== verification/GrammarTheorems.v ===== *)
(** * Properties of construction, destruction and the grammar phase *)
From S2P Require Import Prelude Types External Runtime Demo ManageBuf MessageBuilder Logger WrapperLog Wrapper WrapperSpec Events Grammar.

(** The references left after the release of a handle, null handles excepted. *)
Definition release_ref (k : hkind) (h : mhandle) (l : list (hkind * mhandle)) : list (hkind * mhandle) :=
  if h =? 0 then l else drop_ref (k, h) l.

Lemma release_take k h l : release_ref k h (take_ref k h l) = l.
Proof.
  unfold release_ref, take_ref. destruct (h =? 0); [done|]. simpl. by rewrite decide_True.
Qed.

Lemma locs_of_two p q : locs_of [p; q] = locs_of [p] ++ locs_of [q].
Proof. by rewrite <- locs_of_app. Qed.

Section lemmas.
Context `{LogNeutral}.
Implicit Types (w : world) (h : gmap positive obj).

Lemma wp_update {A} `{Storable A} w l (a : A) (f : A -> A) Q :
  heap w !! l = Some (to_obj a) -> Q tt (set_heap (<[l := to_obj (f a)]> (heap w)) w) ->
  wp (update (Loc l) f) Q w.
Proof. intros Hl HQ. unfold update. apply wp_bind. eapply wp_load; [done|]. by eapply wp_store. Qed.

(** [manageBuf_freev] on one of the arrays of the structure. *)
Lemma wp_freev_field w l mw P pp size n cells (upd : ptr -> Z -> Z -> marpaWrapper) :
  heap w !! l = Some (OWrapper mw) -> registry (heap w) P pp size n cells ->
  NoDup (registry_foot pp n cells) -> l ∉ registry_foot pp n cells ->
  wp (r ← manageBuf_freev pp size n; store (Loc l) (upd r.1.1 r.1.2 r.2))
     (fun _ w' => heap w' = <[l := OWrapper (upd Null 0 0)]> (delete_locs (registry_foot pp n cells) (heap w))
                  /\ quiet w w') w.
Proof.
  intros Hl Hr Hnd Hnl. destruct (registry_owned _ _ _ _ _ _ Hr Hnd) as [Hown Hpp].
  destruct Hr as [Hb Hu _]. apply wp_bind.
  eapply wp_mono; [by eapply wp_manageBuf_freev|]. intros r w1 [-> ->].
  eapply wp_store; [simpl; by rewrite delete_locs_lookup_ne|]. split; [done|].
  etrans; apply quiet_set_heap.
Qed.

(** A handle released when it is not null. *)
Lemma wp_unref (c : mcall unit) (h : mhandle) (k : hkind) w Q :
  call_refs c = (fun _ => drop_ref (k, h)) ->
  (forall w', heap w' = heap w -> live (trace w') = release_ref k h (live (trace w)) ->
     (no_oom w -> no_oom w') -> Q tt w') ->
  wp (if h =? 0 then mret tt else marpa_ c) Q w.
Proof.
  unfold release_ref. intros Hc HQ. destruct (h =? 0); [by apply wp_ret, HQ|].
  apply wp_marpa. intros [] w' Hh _ Hlive Hn _ _. apply HQ; [done| |done]. by rewrite Hlive, Hc.
Qed.

Lemma wp_free_opt w p Q :
  opt_block (heap w) p ->
  (forall w', heap w' = delete_locs (locs_of [p]) (heap w) -> quiet w w' -> Q tt w') ->
  wp (if decide (p = Null) then mret tt else free p) Q w.
Proof.
  intros [->|(l&o&->&Hl)] HQ; [by apply wp_ret, HQ|].
  rewrite decide_False by done. eapply wp_free; [done|]. apply HQ; [done|apply quiet_set_heap].
Qed.

Lemma wp_destroyv w l mw sc rc pc :
  wrapper_rep (heap w) l mw sc rc pc ->
  wp (marpaWrapper_destroyv (Some (Loc l)))
     (fun r w' => r = Some Null /\ heap w' = delete_locs (wrapper_foot l mw sc rc pc) (heap w)
        /\ live (trace w') = release_ref KGrammar (mw_marpaGrammarp mw)
             (release_ref KRecognizer (mw_marpaRecognizerp mw) (live (trace w)))
        /\ (no_oom w -> no_oom w')) w.
Proof.
  intros [[Hl _] Hs Hr Hp Hi He Hnd]. unfold marpaWrapper_destroyv. apply wp_bind.
  rewrite decide_False by done. apply wp_bind. eapply wp_load; [done|].
  apply wp_bind. eapply wp_unref; [done|]. intros w1 Hh1 Hlive1 Hn1.
  apply wp_bind. eapply wp_unref; [done|]. intros w2 Hh2 Hlive2 Hn2. rewrite Hh1 in Hh2.
  rewrite Hlive1 in Hlive2. clear Hlive1.
  unfold wrapper_foot in Hnd. rewrite locs_of_two in Hnd. apply NoDup_cons in Hnd as [Hnl Hnd].
  apply NoDup_app in Hnd as (Hie&Hd1&Hnd). apply NoDup_app in Hnd as (Hns&Hd2&Hnd).
  apply NoDup_app in Hnd as (Hnr&Hd3&Hnp).
  set (fs := registry_foot (mw_marpaWrapperSymbolpp mw) _ sc) in *.
  set (fr := registry_foot (mw_marpaWrapperRulepp mw) _ rc) in *.
  set (fp := registry_foot (mw_marpaWrapperProgresspp mw) _ pc) in *.
  rewrite !not_elem_of_app in Hnl. destruct Hnl as [[Hn_i Hn_e] (Hn_s&Hn_r&Hn_p)].
  apply wp_bind. unfold symbols_freev. apply wp_bind. eapply wp_load; [by rewrite Hh2|].
  eapply wp_mono; [eapply wp_freev_field with
    (upd := fun a b c => mw_set_nMarpaWrapperSymboli c (mw_set_symbolbuf a b mw)); rewrite ?Hh2; eassumption|].
  intros _ w3 [Hh3 [[_ Hlive3] Hn3]]. rewrite Hh2 in Hh3.
  set (mw3 := mw_set_nMarpaWrapperSymboli _ _) in Hh3.
  apply wp_bind. unfold rules_freev. apply wp_bind. eapply wp_load; [by rewrite Hh3, lookup_insert_eq|].
  eapply wp_mono; [eapply wp_freev_field with
    (upd := fun a b c => mw_set_nMarpaWrapperRulei c (mw_set_rulebuf a b mw3)) (P := is_rule l); simpl|].
  { by rewrite Hh3, lookup_insert_eq. }
  { eapply registry_frame; [exact Hr|]. intros k Hk. rewrite Hh3, lookup_insert_ne by set_solver.
    apply delete_locs_lookup_ne. set_solver. }
  { exact Hnr. } { exact Hn_r. }
  intros _ w4 [Hh4 [[_ Hlive4] Hn4]]. set (mw4 := mw_set_nMarpaWrapperRulei _ _) in Hh4. change (registry_foot _ _ rc) with fr in Hh4.
  apply wp_bind. unfold progress_freev. apply wp_bind. eapply wp_load; [by rewrite Hh4, lookup_insert_eq|].
  eapply wp_mono; [eapply wp_freev_field with
    (upd := fun a b c => mw_set_nMarpaWrapperProgressi c (mw_set_progressbuf a b mw4)) (P := is_progress); simpl|].
  { by rewrite Hh4, lookup_insert_eq. }
  { eapply registry_frame; [exact Hp|]. intros k Hk. rewrite Hh4, lookup_insert_ne by set_solver.
    rewrite delete_locs_lookup_ne by set_solver. rewrite Hh3, lookup_insert_ne by set_solver.
    apply delete_locs_lookup_ne. set_solver. }
  { exact Hnp. } { exact Hn_p. }
  intros _ w5 [Hh5 [[_ Hlive5] Hn5]]. set (mw5 := mw_set_nMarpaWrapperProgressi _ _) in Hh5. change (registry_foot _ _ pc) with fp in Hh5.
  apply wp_bind. eapply wp_load; [by rewrite Hh5, lookup_insert_eq|]. apply wp_bind.
  assert (forall k, k <> l -> k ∉ fs -> k ∉ fr -> k ∉ fp -> heap w5 !! k = heap w !! k) as Hold.
  { intros k ????. rewrite Hh5, lookup_insert_ne, delete_locs_lookup_ne by done.
    rewrite Hh4, lookup_insert_ne, delete_locs_lookup_ne by done.
    by rewrite Hh3, lookup_insert_ne, delete_locs_lookup_ne by done. }
  eapply wp_free_opt; simpl.
  { eapply opt_block_frame; [exact Hi|]. intros k Hk. apply Hold; set_solver. }
  intros w6 Hh6 [[_ Hlive6] Hn6]. apply wp_bind. eapply wp_free_opt; simpl.
  { eapply opt_block_frame; [exact He|]. intros k Hk. rewrite Hh6, delete_locs_lookup_ne.
    - apply Hold; set_solver.
    - apply NoDup_app in Hie as (_&Hie&_). intros Hk'. by eapply Hie. }
  intros w7 Hh7 [[_ Hlive7] Hn7]. eapply wp_free.
  { rewrite Hh7, delete_locs_lookup_ne, Hh6, delete_locs_lookup_ne by done. by rewrite Hh5, lookup_insert_eq. }
  apply wp_ret. split_and!; [done| | |auto 10].
  - change (delete l (heap w7) = delete_locs (wrapper_foot l mw sc rc pc) (heap w)).
    rewrite Hh7, Hh6, Hh5. apply map_eq. intros k. unfold wrapper_foot. fold fs fr fp.
    rewrite locs_of_two. change (l :: ?x) with ([l] ++ x). rewrite !delete_locs_app.
    cbn [delete_locs foldr].
    destruct (decide (k = l)) as [->|]; [by rewrite !lookup_delete_eq|].
    rewrite !lookup_delete_ne by done. rewrite !delete_locs_lookup. rewrite lookup_insert_ne by done.
    rewrite delete_locs_lookup, Hh4, lookup_insert_ne, delete_locs_lookup by done.
    rewrite Hh3, lookup_insert_ne, delete_locs_lookup by done. repeat case_decide; done.
  - simpl. congruence.
Qed.

(** ** Construction *)

Definition initial_with (g : mhandle) (o : marpaWrapperOption_t) : marpaWrapper :=
  mw_set_marpaGrammarp g (marpaWrapper_initial o).

(** What [marpaWrapper_newp] leaves: nothing, or a wrapper that owns one grammar. *)
Definition newp_post (w : world) (o : marpaWrapperOption_t) (r : ptr) (w' : world) : Prop :=
  (no_oom w -> no_oom w') /\
  (r = Null /\ heap w' = heap w /\ live (trace w') = live (trace w) \/
   exists l g, r = Loc l /\ heap w !! l = None /\ g <> 0
     /\ heap w' = <[l := OWrapper (initial_with g o)]> (heap w)
     /\ live (trace w') = (KGrammar, g) :: live (trace w)).

Lemma initial_rep h l g o :
  h !! l = None -> logger_at h (wo_genericLoggerp o) ->
  wrapper_rep (<[l := OWrapper (initial_with g o)]> h) l (initial_with g o) [] [] [].
Proof.
  intros Hl Hlog. split; simpl.
  - split; [apply lookup_insert_eq|]. eapply logger_at_frame; [done|]. intros k x Hk.
    rewrite lookup_insert_ne by congruence. done.
  - split; simpl; [done|done|]. intros i Hi. lia.
  - split; simpl; [done|done|]. intros i Hi. lia.
  - split; simpl; [done|done|]. intros i Hi. lia.
  - by left.
  - by left.
  - apply (NoDup_singleton l).
Qed.

Lemma wp_newp_fail w w' l g o :
  heap w !! l = None -> logger_at (heap w) (wo_genericLoggerp o) ->
  heap w' = <[l := OWrapper (initial_with g o)]> (heap w) -> (no_oom w -> no_oom w') ->
  release_ref KGrammar g (live (trace w')) = live (trace w) ->
  wp (marpaWrapper_destroyv (Some (Loc l));; mret Null) (newp_post w o) w'.
Proof.
  intros Hl Hlog Hh Hn Hlive. apply wp_bind. eapply wp_mono; [eapply (wp_destroyv _ l (initial_with g o) [] [] [])|].
  { rewrite Hh. by apply initial_rep. }
  intros _ w2 (_&Hh2&Hlive2&Hn2). apply wp_ret. split; [auto|]. left. split_and!; [done| |].
  - rewrite Hh2, Hh. by apply delete_insert_id.
  - rewrite Hlive2. exact Hlive.
Qed.

Lemma wp_newp w oo :
  let o := default marpaWrapperOption_default oo in
  logger_at (heap w) (wo_genericLoggerp o) -> wp (marpaWrapper_newp oo) (newp_post w o) w.
Proof.
  intros o Hlog. unfold marpaWrapper_newp. fold o. apply wp_bind, wp_malloc_cases.
  { intros _ [[_ Hlive] Hq]. rewrite decide_True by done. apply wp_bind. unfold wp at 1, get_errno.
    apply wp_bind. unfold marpaWrapper_logExt. rewrite decide_True by done. apply wp_ret, wp_ret.
    split; [done|]. by left. }
  intros l Hl [[_ Hlive0] Hn0]. rewrite decide_False by done. cbv zeta. set (w1 := alloc_at _ _ _) in *.
  assert (heap w1 = <[l := OWrapper (initial_with 0 o)]> (heap w)) as Hh1 by done.
  assert (forall g, wrapper_at (<[l := OWrapper (initial_with g o)]> (heap w)) l (initial_with g o)) as Hat.
  { intros g. apply (initial_rep _ _ g _ Hl Hlog). }
  apply wp_bind, wp_marpa. intros v w2 Hh2 _ Hlive2 Hn2 _ _. simpl in Hlive2. rewrite Hh1 in Hh2.
  destruct (v.1 <? 0).
  { apply wp_bind. eapply wp_LOG_MARPA_ERROR; [rewrite Hh2; apply Hat|].
    intros w3 Hh3 [[_ Hlive3] Hn3]. eapply (wp_newp_fail _ _ _ 0); [done|done|by rewrite Hh3|auto|].
    unfold release_ref. simpl. congruence. }
  apply wp_bind.
  assert (wp (match wo_versionip o with
              | None => mret MARPA_ERR_NONE
              | Some (major, minor, micro) => marpa_ (marpa_check_version major minor micro)
              end) (fun _ w3 => heap w3 = heap w2 /\ live (trace w3) = live (trace w2) /\ (no_oom w2 -> no_oom w3)) w2) as Hver.
  { destruct (wo_versionip o) as [[[a b] c]|]; [|by apply wp_ret].
    apply wp_marpa. by intros. }
  eapply wp_mono; [exact Hver|]. intros checked w3 (Hh3&Hlive3&Hn3). rewrite Hh2 in Hh3.
  destruct (negb _).
  { apply wp_bind. eapply wp_LOG_MARPA_ERROR; [rewrite Hh3; apply Hat|].
    intros w4 Hh4 [[_ Hlive4] Hn4]. eapply (wp_newp_fail _ _ _ 0); [done|done|by rewrite Hh4|auto|].
    unfold release_ref. simpl. congruence. }
  apply wp_bind, wp_marpa. intros [] w4 Hh4 _ Hlive4 Hn4 _ _. simpl in Hlive4. rewrite Hh3 in Hh4.
  apply wp_bind, wp_marpa. intros g w5 Hh5 _ Hlive5 Hn5 _ _. simpl in Hlive5. rewrite Hh4 in Hh5.
  apply wp_bind. eapply wp_update; [by rewrite Hh5, lookup_insert_eq|].
  set (w6 := set_heap _ _). assert (heap w6 = <[l := OWrapper (initial_with g o)]> (heap w)) as Hh6.
  { simpl. by rewrite Hh5, insert_insert_eq. }
  assert (live (trace w6) = take_ref KGrammar g (live (trace w))) as Hlive6.
  { change (live (trace w6)) with (live (trace w5)). rewrite Hlive5. congruence. }
  assert (no_oom w -> no_oom w6) as Hn6 by (change (no_oom w6) with (no_oom w5); auto 10).
  destruct (g =? 0) eqn:Eg; Zbool.
  { apply wp_bind. eapply wp_LOG_MARPA_C_ERROR; [rewrite Hh6; apply Hat|].
    intros w7 Hh7 [Hlive7 Hn7]. eapply (wp_newp_fail _ _ _ g); [done|done|by rewrite Hh7|auto|].
    etrans; [|apply (release_take KGrammar g)]. f_equal. by etrans. }
  apply wp_bind, wp_marpa. intros f w7 Hh7 _ Hlive7 Hn7 _ _. simpl in Hlive7. rewrite Hh6 in Hh7.
  destruct (f <? 0).
  { apply wp_bind. eapply wp_LOG_MARPA_G_ERROR; [rewrite Hh7; apply Hat|].
    intros w8 Hh8 [Hlive8 Hn8]. eapply (wp_newp_fail _ _ _ g); [done|done|by rewrite Hh8|auto|].
    etrans; [|apply (release_take KGrammar g)]. f_equal. etrans; [done|]. by etrans. }
  apply wp_ret. split; [auto|]. right. exists l, g. split_and!; [done..|].
  etrans; [exact Hlive7|]. etrans; [exact Hlive6|]. unfold take_ref. by rewrite (proj2 (Z.eqb_neq _ _)).
Qed.
End lemmas.

(** ** Properties of construction and destruction *)
Section theorems.
Context `{LogNeutral}.
Implicit Types (w : world).

(** [marpaWrapper_newp], whatever libmarpa and the allocator answer, either returns
    [NULL] with no block and no libmarpa object left behind, or a wrapper in its initial
    state that holds exactly one reference, to a non-null grammar. *)
Theorem marpaWrapper_newp_balanced w oo :
  logger_at (heap w) (wo_genericLoggerp (default marpaWrapperOption_default oo)) ->
  wp (marpaWrapper_newp oo) (newp_post w (default marpaWrapperOption_default oo)) w.
Proof. apply wp_newp. Qed.

(** [marpaWrapper_destroyv] releases exactly the blocks a wrapper owns, each once, and
    gives back its references to the recognizer and the grammar. *)
Theorem marpaWrapper_destroyv_frees w l mw sc rc pc :
  wrapper_rep (heap w) l mw sc rc pc ->
  wp (marpaWrapper_destroyv (Some (Loc l)))
     (fun r w' => r = Some Null /\ heap w' = delete_locs (wrapper_foot l mw sc rc pc) (heap w)
        /\ live (trace w') = release_ref KGrammar (mw_marpaGrammarp mw)
             (release_ref KRecognizer (mw_marpaRecognizerp mw) (live (trace w)))) w.
Proof.
  intros Hr. eapply wp_mono; [by eapply wp_destroyv|]. intros r w' (?&?&?&_). by split_and!.
Qed.

(** C37. Creating a wrapper and destroying it gives the heap and the libmarpa references
    back as they were, on every branch of the construction. *)
Theorem marpaWrapper_newp_destroyv w oo :
  logger_at (heap w) (wo_genericLoggerp (default marpaWrapperOption_default oo)) ->
  wp (p ← marpaWrapper_newp oo; marpaWrapper_destroyv (Some p))
     (fun r w' => r = Some Null /\ heap w' = heap w /\ live (trace w') = live (trace w)) w.
Proof.
  intros Hlog. apply wp_bind. eapply wp_mono; [by apply wp_newp|].
  intros p w1 [_ [(->&Hh&Hl)|(l&g&->&Hf&Hg&Hh&Hl)]].
  - unfold marpaWrapper_destroyv. apply wp_bind. rewrite decide_True by done. by apply wp_ret, wp_ret.
  - eapply wp_mono; [eapply (wp_destroyv _ l _ [] [] [])|].
    { rewrite Hh. by apply initial_rep. }
    intros r w2 (->&Hh2&Hl2&_). split_and!; [done| |].
    + rewrite Hh2, Hh. by apply delete_insert_id.
    + rewrite Hl2, Hl. unfold release_ref. simpl. rewrite (proj2 (Z.eqb_neq _ _)) by done.
      by rewrite decide_True.
Qed.
End theorems.

(** ** Witnesses *)

(** A wrapper with grammar 7, recognizer 8, one symbol, one rule and two work arrays. *)
Definition demo_option : marpaWrapperOption_t := marpaWrapperOption_default.
Definition demo_mw : marpaWrapper :=
  MarpaWrapper 7 8 Null 1 1 (Loc 2) 1 1 (Loc 4) (Loc 6) (Loc 7) 0 0 Null demo_option.
Definition demo_symbol : marpaWrapperSymbol :=
  MarpaWrapperSymbol 0 (Loc 1) (MarpaWrapperSymbolOption Null MARPAWRAPPER_BOOL_FALSE MARPAWRAPPER_BOOL_FALSE 0 0 (Init (-1))) Uninit Uninit.
Definition demo_rule_option : marpaWrapperRuleOption_t :=
  MarpaWrapperRuleOption Null (Loc 3) 1 (Loc 2) 0 MARPAWRAPPER_BOOL_FALSE MARPAWRAPPER_BOOL_FALSE Null MARPAWRAPPER_BOOL_FALSE 0.
Definition demo_heap : gmap positive obj :=
  {[ 1%positive := OWrapper demo_mw; 2%positive := OPtrs [Init (Loc 3)]; 3%positive := OSymbol demo_symbol;
     4%positive := OPtrs [Init (Loc 5)]; 5%positive := ORule (MarpaWrapperRule 0 (Loc 1) demo_rule_option);
     6%positive := OInts [Uninit]; 7%positive := OPtrs [Uninit] ]}.

Lemma demo_rep : wrapper_rep demo_heap 1 demo_mw [Loc 3] [Loc 5] [].
Proof.
  split.
  - split; [done|by left].
  - split; simpl; [done|lia|]. intros [|i] Hi; [|lia]. exists 3%positive, (OSymbol demo_symbol).
    split_and!; [done|done|]. by exists demo_symbol.
  - split; simpl; [done|lia|]. intros [|i] Hi; [|lia]. eexists 5%positive, _.
    split_and!; [done|done|]. by eexists.
  - split; simpl; [done|lia|]. intros i Hi. lia.
  - right. by eexists 6%positive, _.
  - right. by eexists 7%positive, _.
  - apply (bool_decide_unpack _). by vm_compute.
Qed.

Lemma marpaWrapper_newp_balanced_witness :
  exists r w', marpaWrapper_newp None (demo_world ∅ [7; 0]) = Done r w'
    /\ newp_post (demo_world ∅ [7; 0]) demo_option r w'.
Proof.
  destruct (wp_run _ _ _ (marpaWrapper_newp_balanced (demo_world ∅ [7; 0]) None (or_introl eq_refl))) as (r&w'&Hrun&Hp).
  exact (ex_intro _ r (ex_intro _ w' (conj Hrun Hp))).
Defined.

Lemma marpaWrapper_destroyv_frees_witness :
  exists w', marpaWrapper_destroyv (Some (Loc 1)) (demo_world demo_heap []) = Done (Some Null) w' /\ heap w' = ∅.
Proof.
  destruct (wp_run _ _ _ (marpaWrapper_destroyv_frees (demo_world demo_heap []) 1 demo_mw [Loc 3] [Loc 5] [] demo_rep))
    as (r&w'&Hrun&->&Hh&_).
  exists w'. split; [exact Hrun|]. rewrite Hh. by vm_compute.
Defined.

Lemma marpaWrapper_newp_destroyv_witness :
  exists w', (p ← marpaWrapper_newp None; marpaWrapper_destroyv (Some p)) (demo_world ∅ [7; -1]) = Done (Some Null) w'
    /\ heap w' = ∅.
Proof.
  destruct (wp_run _ _ _ (marpaWrapper_newp_destroyv (demo_world ∅ [7; -1]) None (or_introl eq_refl)))
    as (r&w'&Hrun&->&Hh&_).
  exact (ex_intro _ w' (conj Hrun Hh)).
Defined.
