(* ===== verification/RegistryTheorems.v ===== *)
(** * Adding symbols and rules to a grammar

    [marpaWrapper_g_addSymbolp] and [marpaWrapper_g_addRulep] keep the invariant of a
    wrapper: the new object is in the slot libmarpa's id names, the objects registered
    before stay where they were, and no block outside the wrapper is touched. *)
From S2P Require Import Prelude Types External Runtime Demo ManageBuf MessageBuilder Logger WrapperLog Wrapper WrapperSpec Events Grammar GrammarTheorems.

(** ** What libmarpa is asked about a new object

    A list of calls, each with the answers the code accepts; the verdict on the list. *)
Section checks.
Context `{Env}.

Definition check : Type := mcall Z * (Z -> bool).

Fixpoint checks_ok (cs : list check) (m : MS) : bool :=
  match cs with
  | [] => true
  | (c, ok) :: cs => let '(r, m) := marpa_run c m in if ok r then checks_ok cs m else false
  end.

Definition when (b : bool) (c : check) : list check := if b then [c] else [].

(** The calls the options of a symbol ask for, in the order of the code. *)
Definition symbol_checks (g : mhandle) (id : Z) (o : marpaWrapperSymbolOption_t) : list check :=
  when (bool_decide (so_terminalb o = MARPAWRAPPER_BOOL_TRUE)) (marpa_g_symbol_is_terminal_set g id 1, fun r => r =? 1)
  ++ when (bool_decide (so_startb o = MARPAWRAPPER_BOOL_TRUE)) (marpa_g_start_symbol_set g id, fun r => negb (r <? 0))
  ++ when (Z.testbit (so_eventSeti o) 0) (marpa_g_symbol_is_completion_event_set g id 1, fun r => r =? 1)
  ++ when (Z.testbit (so_eventSeti o) 1) (marpa_g_symbol_is_nulled_event_set g id 1, fun r => r =? 1)
  ++ when (Z.testbit (so_eventSeti o) 2) (marpa_g_symbol_is_prediction_event_set g id 1, fun r => r =? 1).

(** The options of a rule: the rank is judged by the error code libmarpa reports next. *)
Definition rule_checks (g : mhandle) (id : Z) (o : marpaWrapperRuleOption_t) : list check :=
  (if ro_ranki o =? 0 then []
   else [(marpa_g_rule_rank_set g id (ro_ranki o), fun _ => true); (marpa_g_error g, fun e => e =? MARPA_ERR_NONE)])
  ++ when (bool_decide (ro_nullRanksHighb o = MARPAWRAPPER_BOOL_TRUE)) (marpa_g_rule_null_high_set g id 1, fun r => negb (r =? -2)).

(** The option record a symbol ends up with, and the symbol. *)
Definition symbol_option (oo : option marpaWrapperSymbolOption_t) : marpaWrapperSymbolOption_t :=
  default (MarpaWrapperSymbolOption Null MARPAWRAPPER_BOOL_FALSE MARPAWRAPPER_BOOL_FALSE 0 0 Uninit) oo.
Definition new_symbol (l : positive) (id : Z) (oo : option marpaWrapperSymbolOption_t) : marpaWrapperSymbol :=
  MarpaWrapperSymbol id (Loc l) (symbol_option oo) Uninit Uninit.
End checks.

Section lemmas.
Context `{LogNeutral}.
Implicit Types (w : world) (h : gmap positive obj).

Lemma ext_eq_quiet w w' : ext_eq w w' -> (no_oom w -> no_oom w') -> quiet w w'.
Proof. intros [Hm _ Ht] Hn. split; [by rewrite Hm, Ht|done]. Qed.

(** One option: asked for when [b], and the rest of the list when it is accepted. *)
Lemma wp_check w l mw b (c : mcall Z) ok cs p (k : M ptr) :
  wrapper_at (heap w) l mw -> (forall r, call_refs c r = id) ->
  (forall w1, heap w1 = heap w -> calm w w1 ->
     wp k (fun r w' => heap w' = heap w1 /\ calm w1 w' /\ r = if checks_ok cs (marpa w1) then p else Null) w1) ->
  wp (v ← (if b : bool then r ← marpa_ c; mret (ok r) else mret true); or_null (Loc l) v k)
     (fun r w' => heap w' = heap w /\ calm w w'
        /\ r = if checks_ok (when b (c, ok) ++ cs) (marpa w) then p else Null) w.
Proof.
  intros Hl Hc Hk. apply wp_bind. destruct b; simpl; [|by apply wp_ret, Hk].
  apply wp_bind, wp_marpa. intros r w1 Hh1 Hm Hlive Hn _ _. rewrite Hc in Hlive. apply wp_ret.
  assert (calm w w1) as Hq1 by by split. rewrite <- Hm. unfold or_null. destruct (ok r).
  - eapply wp_mono; [by apply Hk|]. intros r' w' (Hh&Hq&Hr). rewrite Hh, Hh1. split; [done|].
    split; [exact (transitivity Hq1 Hq)|done].
  - apply wp_bind. eapply wp_LOG_MARPA_G_ERROR; [by rewrite Hh1|]. intros w2 Hh2 Hq2.
    apply wp_ret. rewrite Hh2, Hh1. split; [done|]. split; [exact (transitivity Hq1 Hq2)|done].
Qed.

Lemma wp_symbol_applyOptions w l mw ls s :
  wrapper_at (heap w) l mw -> heap w !! ls = Some (OSymbol s) ->
  wp (symbol_applyOptions (Loc l) (Loc ls))
     (fun r w' => heap w' = heap w /\ calm w w'
        /\ r = if checks_ok (symbol_checks (mw_marpaGrammarp mw) (ms_marpaSymbolIdi s) (ms_marpaWrapperSymbolOption s)) (marpa w)
               then Loc ls else Null) w.
Proof.
  intros Hl Hs. unfold symbol_applyOptions. apply wp_bind. eapply wp_load; [done|].
  apply wp_bind. eapply wp_load; [apply Hl|]. cbv zeta. unfold has_flag.
  change MARPAWRAPPER_EVENTTYPE_COMPLETED with (2 ^ 0). change MARPAWRAPPER_EVENTTYPE_NULLED with (2 ^ 1).
  change MARPAWRAPPER_EVENTTYPE_PREDICTED with (2 ^ 2). rewrite !land_pow2_eqb by done.
  rewrite !decide_bool_decide. unfold symbol_checks.
  apply (wp_check _ _ mw); [done|done|]. intros w1 Hh1 _. rewrite <- Hh1 in Hl.
  apply (wp_check _ _ mw); [done|done|]. intros w2 Hh2 _. rewrite <- Hh2 in Hl.
  apply (wp_check _ _ mw); [done|done|]. intros w3 Hh3 _. rewrite <- Hh3 in Hl.
  apply (wp_check _ _ mw); [done|done|]. intros w4 Hh4 _. rewrite <- Hh4 in Hl.
  rewrite <- (app_nil_r (when (Z.testbit _ 2) _)). apply (wp_check _ _ mw); [done|done|].
  intros w5 _ _. by apply wp_ret.
Qed.

Lemma wp_rule_applyOptions w l mw lr id o :
  wrapper_at (heap w) l mw ->
  wp (rule_applyOptions (Loc l) (Loc lr) id o)
     (fun r w' => heap w' = heap w /\ calm w w'
        /\ r = if checks_ok (rule_checks (mw_marpaGrammarp mw) id o) (marpa w) then Loc lr else Null) w.
Proof.
  intros Hl. unfold rule_applyOptions. apply wp_bind. eapply wp_load; [apply Hl|]. cbv zeta.
  rewrite decide_bool_decide. unfold rule_checks. rewrite <- (app_nil_r (when (bool_decide _) _)).
  assert (forall w1, heap w1 = heap w -> wp
    (ok ← (if bool_decide (ro_nullRanksHighb o = MARPAWRAPPER_BOOL_TRUE)
           then r ← marpa_ (marpa_g_rule_null_high_set (mw_marpaGrammarp mw) id 1); mret (negb (r =? -2)) else mret true);
     or_null (Loc l) ok (mret (Loc lr)))
    (fun r w' => heap w' = heap w1 /\ calm w1 w'
       /\ r = if checks_ok (when (bool_decide (ro_nullRanksHighb o = MARPAWRAPPER_BOOL_TRUE))
                (marpa_g_rule_null_high_set (mw_marpaGrammarp mw) id 1, fun r => negb (r =? -2)) ++ []) (marpa w1)
              then Loc lr else Null) w1) as Hnext.
  { intros w1 Hh1. apply (wp_check _ _ mw); [by rewrite Hh1|done|]. intros. by apply wp_ret. }
  apply wp_bind. destruct (ro_ranki o =? 0); simpl.
  { apply wp_ret. by apply Hnext. }
  apply wp_bind, wp_marpa. intros r1 w1 Hh1 Hm1 Hlive1 Hn1 _ _. apply wp_bind, wp_marpa.
  intros r2 w2 Hh2 Hm2 Hlive2 Hn2 _ _. rewrite Hh1 in Hh2. apply wp_ret.
  assert (calm w w2) as Hq2. { split; [by rewrite Hlive2|auto]. }
  rewrite <- Hm1. simpl. rewrite <- Hm2. unfold or_null. destruct (r2 =? MARPA_ERR_NONE).
  - eapply wp_mono; [by apply Hnext|]. intros r w3 (Hh3&Hq3&Hr). rewrite Hh3, Hh2. split; [done|].
    split; [exact (transitivity Hq2 Hq3)|done].
  - apply wp_bind. eapply wp_LOG_MARPA_G_ERROR; [by rewrite Hh2|]. intros w3 Hh3 Hq3.
    apply wp_ret. rewrite Hh3, Hh2. split; [done|]. split; [exact (transitivity Hq2 Hq3)|done].
Qed.

(** ** Making room *)

(** [manageBuf_createp] on one of the arrays of the structure; [rest] is what else the
    wrapper owns. *)
Lemma wp_createp_field w l mw P pp size n cells rest wanted (upd : ptr -> Z -> marpaWrapper) :
  no_oom w -> heap w !! l = Some (OWrapper mw) -> registry (heap w) P pp size n cells ->
  NoDup (registry_foot pp n cells ++ l :: rest) -> (forall j, j ∈ l :: rest -> is_Some (heap w !! j)) ->
  0 < wanted <= 2 ^ 30 -> size <= INT_MAX ->
  wp (r ← manageBuf_createp pp size wanted sizeof_ptr; store (Loc l) (upd r.2.1 r.2.2);; mret r.1)
     (fun r w' => exists l' k, r = Loc l'
        /\ let size' := size + Z.of_nat k in
           let cells' := cells ++ replicate k Null in
           wanted <= size' /\ (size' <= Z.max size 100 \/ size' < 2 * wanted)
           /\ heap w' !! l = Some (OWrapper (upd (Loc l') size'))
           /\ registry (heap w') P (Loc l') size' n cells'
           /\ NoDup (registry_foot (Loc l') n cells' ++ l :: rest)
           /\ (forall j, j ∈ rest -> heap w' !! j = heap w !! j)
           /\ (forall j g, heap w !! j = Some (OLogger g) -> heap w' !! j = Some (OLogger g))
           /\ reframe (heap w) (registry_foot pp n cells ++ l :: rest) (heap w') (registry_foot (Loc l') n cells' ++ l :: rest)
           /\ quiet w w' /\ marpa w' = marpa w) w.
Proof.
  intros Hn Hl Hreg Hnd Hlive Hw Hs. apply wp_bind.
  eapply wp_mono; [apply (wp_manageBuf_createp _ _ _ cells); [done|apply Hreg|done|done]|].
  intros r w1 (l'&s'&->&Hws&Hss&Hbd&_&Hf&Hh&He&Hn1). simpl.
  set (k := Z.to_nat (s' - size)) in *. replace s' with (size + Z.of_nat k) in * by lia.
  destruct (registry_grown (heap w) _ _ _ _ _ _ k l' l (OWrapper (upd (Loc l') (size + Z.of_nat k)))
    rest Hreg Hnd Hlive Hf ltac:(lia) eq_refl) as (Hr'&Hnd'&Hrest&Hre). rewrite <- Hh in Hr', Hrest, Hre.
  assert (forall j, j ∈ locs_of [pp] -> exists cells, heap w !! j = Some (OPtrs cells)) as Hpp.
  { intros j Hj. apply elem_of_locs_of, list_elem_of_singleton in Hj.
    pose proof (rg_buf _ _ _ _ _ _ Hreg) as Hb. rewrite <- Hj in Hb. destruct Hb as [Hb _]. eauto. }
  assert (forall j x, heap w !! j = Some x -> (forall cells, x <> OPtrs cells) -> heap w1 !! j = Some x) as Hkeep.
  { intros j x Hj Hx. assert (j ∉ locs_of [pp]) as Hnp.
    { intros Hin. destruct (Hpp _ Hin) as [c ?]. apply (Hx c). congruence. }
    assert (j <> l') as Hne by (intros ->; rewrite delete_locs_lookup_ne in Hf by done; congruence).
    by rewrite Hh, lookup_insert_ne, delete_locs_lookup_ne. }
  apply wp_bind. eapply wp_store; [by apply Hkeep|]. apply wp_ret. exists l', k. split; [done|]. cbv zeta.
  split_and!; [lia|lia|apply lookup_insert_eq|done|done|done| |done| |apply He].
  - intros j g Hj. simpl. rewrite lookup_insert_ne by congruence. by apply Hkeep.
  - etrans; [by apply ext_eq_quiet|apply quiet_set_heap].
Qed.

Lemma wp_symbols_createp w l mw sc rc pc wanted :
  no_oom w -> wrapper_rep (heap w) l mw sc rc pc ->
  0 < wanted <= 2 ^ 30 -> mw_sizeMarpaWrapperSymboli mw <= INT_MAX ->
  wp (symbols_createp (Loc l) wanted)
     (fun r w' => exists l' k, r = Loc l'
        /\ let size := mw_sizeMarpaWrapperSymboli mw + Z.of_nat k in
           let mw' := with_symbols (Loc l') size (mw_nMarpaWrapperSymboli mw) mw in
           let sc' := sc ++ replicate k Null in
           wanted <= size /\ (size <= Z.max (mw_sizeMarpaWrapperSymboli mw) 100 \/ size < 2 * wanted)
           /\ wrapper_rep (heap w') l mw' sc' rc pc
           /\ reframe (heap w) (wrapper_foot l mw sc rc pc) (heap w') (wrapper_foot l mw' sc' rc pc)
           /\ quiet w w' /\ marpa w' = marpa w) w.
Proof.
  intros Hn Hrep Hw Hs. unfold symbols_createp. apply wp_bind. eapply wp_load; [apply Hrep|].
  pose proof (wr_nodup _ _ _ _ _ _ Hrep) as Hnd. rewrite foot_symbols in Hnd.
  eapply wp_mono; [apply (wp_createp_field _ _ mw (is_symbol l) _ _ (mw_nMarpaWrapperSymboli mw) sc
    (rest_of_symbols mw rc pc) _ (fun a b => mw_set_symbolbuf a b mw)); [done|apply Hrep|apply Hrep|done| |done|done]|].
  { intros j Hj. eapply wrapper_foot_live; [done|]. rewrite foot_symbols. set_solver. }
  intros r w' (l'&k&->&Hws&Hbd&Hl&Hr&Hnd'&Hrest&Hlg&Hre&Hq&Hm). exists l', k. split; [done|]. cbv zeta.
  split_and!; [done|done| | |done|done].
  - eapply rep_with_symbols; [done|exact Hr|done..].
  - by rewrite !foot_symbols.
Qed.

Lemma wp_rules_createp w l mw sc rc pc wanted :
  no_oom w -> wrapper_rep (heap w) l mw sc rc pc ->
  0 < wanted <= 2 ^ 30 -> mw_sizeMarpaWrapperRulei mw <= INT_MAX ->
  wp (rules_createp (Loc l) wanted)
     (fun r w' => exists l' k, r = Loc l'
        /\ let size := mw_sizeMarpaWrapperRulei mw + Z.of_nat k in
           let mw' := with_rules (Loc l') size (mw_nMarpaWrapperRulei mw) mw in
           let rc' := rc ++ replicate k Null in
           wanted <= size /\ (size <= Z.max (mw_sizeMarpaWrapperRulei mw) 100 \/ size < 2 * wanted)
           /\ wrapper_rep (heap w') l mw' sc rc' pc
           /\ reframe (heap w) (wrapper_foot l mw sc rc pc) (heap w') (wrapper_foot l mw' sc rc' pc)
           /\ quiet w w' /\ marpa w' = marpa w) w.
Proof.
  intros Hn Hrep Hw Hs. unfold rules_createp. apply wp_bind. eapply wp_load; [apply Hrep|].
  pose proof (wr_nodup _ _ _ _ _ _ Hrep) as Hnd. rewrite foot_rules in Hnd.
  eapply wp_mono; [apply (wp_createp_field _ _ mw (is_rule l) _ _ (mw_nMarpaWrapperRulei mw) rc
    (rest_of_rules mw sc pc) _ (fun a b => mw_set_rulebuf a b mw)); [done|apply Hrep|apply Hrep|done| |done|done]|].
  { intros j Hj. eapply wrapper_foot_live; [done|]. rewrite foot_rules. set_solver. }
  intros r w' (l'&k&->&Hws&Hbd&Hl&Hr&Hnd'&Hrest&Hlg&Hre&Hq&Hm). exists l', k. split; [done|]. cbv zeta.
  split_and!; [done|done| | |done|done].
  - eapply rep_with_rules; [done|exact Hr|done..].
  - by rewrite !foot_rules.
Qed.

(** ** A new symbol in its slot *)

(** What is left when the symbol is registered: its number is the old count, and
    it knows its number, its wrapper and its options. *)
Definition symbol_added w l mw (sc rc pc : list ptr) oo (lo : positive) w' : Prop :=
  exists lb size sc0,
    let n := mw_nMarpaWrapperSymboli mw in
    let mw' := with_symbols (Loc lb) size (n + 1) mw in
    let sc' := <[Z.to_nat n := Loc lo]> sc0 in
    wrapper_rep (heap w') l mw' sc' rc pc /\ take (Z.to_nat n) sc0 = take (Z.to_nat n) sc
    /\ (size <= Z.max (mw_sizeMarpaWrapperSymboli mw) 100 \/ size < 2 * (n + 1))
    /\ heap w' !! lo = Some (OSymbol (new_symbol l n oo))
    /\ reframe (heap w) (wrapper_foot l mw sc rc pc) (heap w') (wrapper_foot l mw' sc' rc pc)
    /\ calm w w'.

Lemma wp_addSymbol_id w l mw sc rc pc oo :
  let n := mw_nMarpaWrapperSymboli mw in
  no_oom w -> wrapper_rep (heap w) l mw sc rc pc -> n < 2 ^ 30 -> mw_sizeMarpaWrapperSymboli mw <= INT_MAX ->
  wp (marpaWrapper_g_addSymbolp_id (Loc l) n oo)
     (fun r w' => exists lo, symbol_added w l mw sc rc pc oo lo w'
        /\ r = if checks_ok (symbol_checks (mw_marpaGrammarp mw) n (symbol_option oo)) (marpa w) then Loc lo else Null) w.
Proof.
  intros n Hn Hrep Hlt Hs. pose proof (rg_used _ _ _ _ _ _ (wr_symbols _ _ _ _ _ _ Hrep)) as Hused. fold n in Hused.
  unfold marpaWrapper_g_addSymbolp_id. apply wp_bind. unfold int_add.
  rewrite decide_True by (unfold is_int, INT_MIN, INT_MAX; lia). apply wp_ret. cbv zeta.
  rewrite to_size_t_small by (unfold is_size_t, SIZE_MOD; lia).
  apply wp_bind. eapply wp_mono; [apply wp_symbols_createp; [done|done|lia|done]|].
  intros r w1 (lb&k&->&Hws&Hbd&Hrep1&Hre1&[[_ Hlive1] Hq1]&Hm1). rewrite decide_False by done.
  set (size := mw_sizeMarpaWrapperSymboli mw + Z.of_nat k) in *. fold n in Hrep1, Hre1.
  set (mw1 := with_symbols (Loc lb) size n mw) in *. set (sc1 := sc ++ replicate k Null) in *.
  apply wp_bind, wp_malloc_cases; [intros Hno; by destruct Hno; apply Hq1|].
  intros lo Hlo [[_ Hlive2] Hq2]. rewrite decide_False by done.
  pose proof (wr_symbols _ _ _ _ _ _ Hrep1) as Hr1. simpl in Hr1.
  destruct (rg_buf _ _ _ _ _ _ Hr1) as (Hlb&Hsz&_). pose proof (wr_at _ _ _ _ _ _ Hrep1) as [Hl1 Hlog1].
  assert (lo <> l) by congruence. assert (lo <> lb) by congruence. assert (lb <> l) by congruence.
  apply wp_bind. eapply wp_update; [by simpl; rewrite lookup_insert_ne|].
  apply wp_bind. eapply wp_load; [by simpl; rewrite lookup_insert_eq|].
  apply wp_bind. eapply (wp_store_cell _ (Init <$> sc1)).
  { simpl. rewrite !lookup_insert_ne by done. done. }
  { rewrite length_fmap. fold n. lia. }
  apply wp_bind. eapply wp_load. { simpl. rewrite !lookup_insert_ne by done. by rewrite lookup_insert_eq. }
  cbv zeta. apply wp_bind. eapply wp_store.
  { simpl. rewrite !lookup_insert_ne by done. by rewrite lookup_insert_eq. }
  set (w5 := set_heap _ _). set (s := MarpaWrapperSymbol _ _ _ _ _) in w5.
  assert (s = new_symbol l n oo) as Hsym by (by destruct oo).
  set (mw2 := with_symbols (Loc lb) size (n + 1) mw).
  assert (forall j, heap w5 !! j = (<[l := OWrapper mw2]> (<[lo := OSymbol s]> (<[lb := OPtrs (Init <$> <[Z.to_nat n := Loc lo]> sc1)]> (heap w1)))) !! j) as Hh5.
  { intros j. simpl. rewrite list_fmap_insert. unfold n, mw2.
    destruct (decide (j = l)) as [->|]; [by simplify_map_eq|]. destruct (decide (j = lo)) as [->|]; [by simplify_map_eq|].
    destruct (decide (j = lb)) as [->|]; [by simplify_map_eq|]. by simplify_map_eq. }
  destruct (rep_symbol_added (heap w1) (heap w5) l mw1 sc1 rc pc lb lo (OSymbol s)) as [Hrep5 Hre5];
    [done|done|simpl; lia|done| |exact Hh5|].
  { exists s. rewrite Hsym. split_and!; [done| |done]. simpl. lia. }
  eapply wp_mono; [eapply (wp_symbol_applyOptions _ _ mw2); [apply (wr_at _ _ _ _ _ _ Hrep5)|]|].
  { rewrite Hh5, lookup_insert_ne, lookup_insert_eq by done. done. }
  intros r w6 (Hh6&Hq6&->). exists lo. rewrite Hsym. simpl.
  change (marpa w5) with (marpa w1). rewrite Hm1. split; [|done].
  exists lb, size, sc1. fold n mw2. rewrite Hh6. split_and!; [done| |lia| | |].
  - unfold sc1. rewrite take_app_le; [done|lia].
  - by rewrite Hh5, lookup_insert_ne, lookup_insert_eq, Hsym by done.
  - eapply reframe_trans; [exact Hre1|exact Hre5].
  - etrans; [|exact Hq6]. split; [by transitivity (live (trace w1))|]. intros ?. apply Hq2, Hq1, Hn.
Qed.

(** ** A new rule in its slot *)

Definition rule_added w l mw (sc rc pc : list ptr) o (lo : positive) w' : Prop :=
  exists lb size rc0,
    let n := mw_nMarpaWrapperRulei mw in
    let mw' := with_rules (Loc lb) size (n + 1) mw in
    let rc' := <[Z.to_nat n := Loc lo]> rc0 in
    wrapper_rep (heap w') l mw' sc rc' pc /\ take (Z.to_nat n) rc0 = take (Z.to_nat n) rc
    /\ (size <= Z.max (mw_sizeMarpaWrapperRulei mw) 100 \/ size < 2 * (n + 1))
    /\ heap w' !! lo = Some (ORule (MarpaWrapperRule n (Loc l) o))
    /\ reframe (heap w) (wrapper_foot l mw sc rc pc) (heap w') (wrapper_foot l mw' sc rc' pc)
    /\ calm w w'.

Lemma wp_addRule_id w l mw sc rc pc o :
  let n := mw_nMarpaWrapperRulei mw in
  no_oom w -> wrapper_rep (heap w) l mw sc rc pc -> n < 2 ^ 30 -> mw_sizeMarpaWrapperRulei mw <= INT_MAX ->
  wp (marpaWrapper_g_addRulep_id (Loc l) n o)
     (fun r w' => exists lo, rule_added w l mw sc rc pc o lo w'
        /\ r = if checks_ok (rule_checks (mw_marpaGrammarp mw) n o) (marpa w) then Loc lo else Null) w.
Proof.
  intros n Hn Hrep Hlt Hs. pose proof (rg_used _ _ _ _ _ _ (wr_rules _ _ _ _ _ _ Hrep)) as Hused. fold n in Hused.
  unfold marpaWrapper_g_addRulep_id. apply wp_bind. unfold int_add.
  rewrite decide_True by (unfold is_int, INT_MIN, INT_MAX; lia). apply wp_ret. cbv zeta.
  rewrite to_size_t_small by (unfold is_size_t, SIZE_MOD; lia).
  apply wp_bind. eapply wp_mono; [apply wp_rules_createp; [done|done|lia|done]|].
  intros r w1 (lb&k&->&Hws&Hbd&Hrep1&Hre1&[[_ Hlive1] Hq1]&Hm1). rewrite decide_False by done.
  set (size := mw_sizeMarpaWrapperRulei mw + Z.of_nat k) in *. fold n in Hrep1, Hre1.
  set (mw1 := with_rules (Loc lb) size n mw) in *. set (rc1 := rc ++ replicate k Null) in *.
  apply wp_bind, wp_malloc_cases; [intros Hno; by destruct Hno; apply Hq1|].
  intros lo Hlo [[_ Hlive2] Hq2]. rewrite decide_False by done.
  destruct (rg_buf _ _ _ _ _ _ (wr_rules _ _ _ _ _ _ Hrep1)) as (Hlb&Hsz&_). simpl in Hlb, Hsz.
  pose proof (wr_at _ _ _ _ _ _ Hrep1) as [Hl1 Hlog1].
  assert (lo <> l) by congruence. assert (lo <> lb) by congruence. assert (lb <> l) by congruence.
  apply wp_bind. eapply wp_update; [by simpl; rewrite lookup_insert_ne|].
  apply wp_bind. eapply wp_load; [by simpl; rewrite lookup_insert_eq|].
  apply wp_bind. eapply (wp_store_cell _ (Init <$> rc1)).
  { simpl. rewrite !lookup_insert_ne by done. done. }
  { rewrite length_fmap. fold n. lia. }
  set (w5 := set_heap _ _). set (mw2 := with_rules (Loc lb) size (n + 1) mw).
  set (ob := ORule (MarpaWrapperRule n (Loc l) o)).
  assert (forall j, heap w5 !! j = (<[l := OWrapper mw2]> (<[lo := ob]> (<[lb := OPtrs (Init <$> <[Z.to_nat n := Loc lo]> rc1)]> (heap w1)))) !! j) as Hh5.
  { intros j. simpl. rewrite list_fmap_insert. unfold n, mw2.
    destruct (decide (j = l)) as [->|]; [by simplify_map_eq|]. destruct (decide (j = lo)) as [->|]; [by simplify_map_eq|].
    destruct (decide (j = lb)) as [->|]; [by simplify_map_eq|]. by simplify_map_eq. }
  destruct (rep_rule_added (heap w1) (heap w5) l mw1 sc rc1 pc lb lo ob) as [Hrep5 Hre5];
    [done|done|simpl; lia|done| |exact Hh5|].
  { exists (MarpaWrapperRule n (Loc l) o). split_and!; [done| |done]. simpl. lia. }
  eapply wp_mono; [eapply (wp_rule_applyOptions _ _ mw2); apply (wr_at _ _ _ _ _ _ Hrep5)|].
  intros r w6 (Hh6&Hq6&->). exists lo. change (marpa w5) with (marpa w1). rewrite Hm1. split; [|done].
  exists lb, size, rc1. fold n mw2. rewrite Hh6. split_and!; [done| |lia| | |].
  - unfold rc1. rewrite take_app_le; [done|lia].
  - by rewrite Hh5, lookup_insert_ne, lookup_insert_eq by done.
  - eapply reframe_trans; [exact Hre1|exact Hre5].
  - etrans; [|exact Hq6]. split; [by transitivity (live (trace w1))|]. intros ?. apply Hq2, Hq1, Hn.
Qed.

(** ** The ids of a rule's symbols *)

Definition has_id h (p : ptr) (id : Z) : Prop :=
  exists ls s, p = Loc ls /\ h !! ls = Some (OSymbol s) /\ ms_marpaSymbolIdi s = id.

(** The symbols an option record names: left-hand side, right-hand side, separator. *)
Record rule_symbols h (o : marpaWrapperRuleOption_t) (lhs : Z) (rhs : list Z) (sep : Z) : Prop := {
  rs_lhs : has_id h (ro_lhsSymbolp o) lhs;
  rs_n : ro_nRhsSymboli o = Z.of_nat (length rhs);
  rs_rhs : rhs <> [] -> exists la ps, ro_rhsSymbolpp o = Loc la /\ h !! la = Some (OPtrs (Init <$> ps)) /\ Forall2 (has_id h) ps rhs;
  rs_sep : if decide (ro_separatorSymbolp o = Null) then sep = -1 else has_id h (ro_separatorSymbolp o) sep
}.

(** The call that creates the rule. *)
Definition rule_call (g : mhandle) (o : marpaWrapperRuleOption_t) (lhs : Z) (rhs : list Z) (sep : Z) : mcall Z :=
  if decide (ro_sequenceb o = MARPAWRAPPER_BOOL_TRUE)
  then marpa_g_sequence_new g lhs (hd 0 rhs) sep (ro_minimumi o)
         (if decide (ro_properb o = MARPAWRAPPER_BOOL_TRUE) then MARPA_PROPER_SEPARATION else 0)
  else marpa_g_rule_new g lhs rhs (Z.of_nat (length rhs)).

Lemma has_id_mono h h' p id : has_id h p id -> (forall l o, h !! l = Some o -> h' !! l = Some o) -> has_id h' p id.
Proof. intros (ls&s&->&?&?) Hm. exists ls, s. auto. Qed.

Lemma wp_symbol_id w p id Q : has_id (heap w) p id -> Q id w -> wp (symbol_id p) Q w.
Proof. intros (ls&s&->&Hs&<-) HQ. unfold symbol_id. apply wp_bind. eapply wp_load; [done|]. by apply wp_ret. Qed.

Lemma wp_rule_rhs w o lhs rhs sep :
  no_oom w -> rule_symbols (heap w) o lhs rhs sep -> Z.of_nat (length rhs) <= 2 ^ 30 ->
  wp (rule_rhs o)
     (fun r w' => quiet w w' /\ marpa w' = marpa w /\
        ((rhs = [] /\ r = Some Null /\ heap w' = heap w) \/
         exists l, r = Some (Loc l) /\ rhs <> [] /\ heap w !! l = None /\ heap w' = <[l := OInts (Init <$> rhs)]> (heap w))) w.
Proof.
  intros Hn [_ Hlen Hrhs _] Hmax. unfold rule_rhs. rewrite Hlen.
  destruct rhs as [|id0 rhs0]; [by apply wp_ret; split_and!; [done|done|left]|].
  destruct Hrhs as (la&ps&Hla&Hps&Hids); [done|]. set (rhs := id0 :: rhs0) in *.
  assert (0 < Z.of_nat (length rhs)) as Hpos by (simpl; lia). assert (rhs <> []) as Hne by done. clearbody rhs.
  replace (Z.of_nat (length rhs) >? 0) with true by (symmetry; apply Z.gtb_lt; lia).
  unfold sizeof_int. rewrite to_size_t_small, Z.div_mul, Nat2Z.id by (unfold is_size_t, SIZE_MOD; lia).
  apply wp_bind, wp_malloc_cases; [done|]. intros l Hl Hq1. rewrite decide_False by done.
  apply wp_bind. eapply wp_mono; [eapply (wp_for_loop _ 0 _
    (fun i _ w' => heap w' = <[l := OInts ((Init <$> take (Z.to_nat i) rhs) ++ replicate (length rhs - Z.to_nat i) Uninit)]> (heap w)
       /\ quiet w w' /\ marpa w' = marpa w))|].
  - split_and!; [|done|done]. by rewrite Nat.sub_0_r.
  - intros i [] w1 Hi (Hh1&Hq&Hm). set (k := Z.to_nat i) in *.
    assert (exists p id, ps !! k = Some p /\ rhs !! k = Some id /\ has_id (heap w) p id) as (p&id&Hp&Hid&Hpid).
    { destruct (lookup_lt_is_Some_2 rhs k) as [id Hid]; [lia|].
      destruct (Forall2_lookup_r _ _ _ _ _ Hids Hid) as (p&?&?). eauto. }
    assert (la <> l) by congruence. rewrite Hla. apply wp_bind. eapply (wp_load_cell _ (Init <$> ps)).
    { rewrite Hh1, lookup_insert_ne by done. exact Hps. } { lia. }
    { fold k. rewrite list_lookup_fmap, Hp. done. }
    apply wp_bind. eapply wp_symbol_id.
    { eapply has_id_mono; [done|]. intros j x Hj. rewrite Hh1, lookup_insert_ne by congruence. done. }
    eapply (wp_store_cell _ ((Init <$> take k rhs) ++ replicate (length rhs - k) Uninit)).
    { by rewrite Hh1, lookup_insert_eq. }
    { rewrite length_app, length_fmap, length_take, length_replicate. lia. }
    simpl. rewrite Hh1, insert_insert_eq. split_and!; [|by etrans; [|apply quiet_set_heap]|done].
    fold k. replace (Z.to_nat (i + 1)) with (S k) by lia. do 2 f_equal.
    rewrite insert_app_r_alt, length_fmap, length_take by (rewrite length_fmap, length_take; lia).
    replace (length rhs - k)%nat with (S (length rhs - S k)) by lia. rewrite Nat.min_l, Nat.sub_diag by lia. simpl.
    rewrite (take_S_r _ _ id) by done. by rewrite fmap_app, <- (assoc_L (++)).
  - intros [] w1 (Hh1&Hq&Hm). apply wp_ret. split_and!; [done|done|]. right. exists l. split_and!; [done|done|done|].
    rewrite Hh1, Z.add_0_l, Nat2Z.id, Nat.sub_diag, take_ge by lia. by rewrite app_nil_r.
Qed.

Lemma wp_read_ints w l (zs : list Z) Q :
  heap w !! l = Some (OInts (Init <$> zs)) -> Q zs w -> wp (read_cells (A := Z) (Loc l) (length zs)) Q w.
Proof.
  intros Hl HQ. eapply (wp_read_cells _ l zs []); [|exact HQ]. by rewrite app_nil_r.
Qed.

Lemma wp_rule_create w l mw o lhs rhs sep rhsIdp Q :
  rule_option_error o = None -> heap w !! l = Some (OWrapper mw) -> rule_symbols (heap w) o lhs rhs sep ->
  Z.of_nat (length rhs) <= 2 ^ 30 ->
  (rhs = [] /\ rhsIdp = Null \/ exists la, rhsIdp = Loc la /\ heap w !! la = Some (OInts (Init <$> rhs))) ->
  wp (marpa_ (rule_call (mw_marpaGrammarp mw) o lhs rhs sep)) Q w ->
  wp (rule_create (Loc l) o rhsIdp) Q w.
Proof.
  intros Herr Hl [Hlhs Hlen _ Hsep] Hmax Hp HQ. unfold rule_create. apply wp_bind. eapply wp_load; [done|].
  unfold rule_call in HQ. destruct (decide (ro_sequenceb o = MARPAWRAPPER_BOOL_TRUE)) as [Hs|].
  - assert (length rhs = 1%nat) as Hone.
    { unfold rule_option_error in Herr. rewrite (decide_True (P := ro_sequenceb o = _)) in Herr by done.
      destruct (decide (ro_lhsSymbolp o = Null)); [done|]. destruct (ro_nRhsSymboli o =? 1) eqn:E; Zbool; [lia|done]. }
    destruct rhs as [|id [|]]; [done| |done]. destruct Hp as [[? _]|(la&->&Hla)]; [done|].
    apply wp_bind.
    assert (wp (if decide (ro_separatorSymbolp o = Null) then mret (-1) else symbol_id (ro_separatorSymbolp o))
      (fun v w' => v = sep /\ w' = w) w) as Hsepid.
    { destruct (decide (ro_separatorSymbolp o = Null)); [subst sep; by apply wp_ret|by eapply wp_symbol_id]. }
    eapply wp_mono; [exact Hsepid|]. intros ? ? [-> ->]. cbv zeta. apply wp_bind. eapply wp_symbol_id; [done|].
    apply wp_bind. by eapply (wp_load_cell _ [Init id]).
  - apply wp_bind. eapply wp_symbol_id; [done|]. apply wp_bind. rewrite Hlen.
    rewrite to_int_small by (unfold is_int, INT_MIN, INT_MAX; lia).
    destruct Hp as [[-> ->]|(la&->&Hla)]; [by apply wp_ret|].
    rewrite decide_False by done. rewrite Nat2Z.id. by eapply wp_read_ints.
Qed.

Lemma rule_call_refs g o lhs rhs sep r : call_refs (rule_call g o lhs rhs sep) r = id.
Proof. unfold rule_call. by case_decide. Qed.

(** The added rule, seen from an earlier world with the same heap. *)
Lemma rule_added_from w w1 l mw sc rc pc o lo w' :
  heap w1 = heap w -> calm w w1 -> rule_added w1 l mw sc rc pc o lo w' -> rule_added w l mw sc rc pc o lo w'.
Proof.
  intros Hh Hq (lb&size&rc0&Hrep&Ht&Hs&Ho&Hre&Hq'). exists lb, size, rc0. rewrite <- Hh.
  split_and!; [done|done|done|done|done|exact (transitivity Hq Hq')].
Qed.

Lemma symbol_added_from w w1 l mw sc rc pc o lo w' :
  heap w1 = heap w -> calm w w1 -> symbol_added w1 l mw sc rc pc o lo w' -> symbol_added w l mw sc rc pc o lo w'.
Proof.
  intros Hh Hq (lb&size&sc0&Hrep&Ht&Hs&Ho&Hre&Hq'). exists lb, size, sc0. rewrite <- Hh.
  split_and!; [done|done|done|done|done|exact (transitivity Hq Hq')].
Qed.
End lemmas.

(** ** Properties *)
Section theorems.
Context `{LogNeutral}.
Implicit Types (w : world).

(** C40. [marpaWrapper_g_addSymbolp], memory permitting and libmarpa numbering symbols in
    order: a refusal of [marpa_g_symbol_new] gives [NULL] and changes no block; otherwise
    the symbol is registered in the slot of its id, the wrapper's invariant holds again,
    and the result is the symbol exactly when libmarpa accepts every option asked for (a
    refused option gives [NULL], the symbol staying registered). *)
Theorem marpaWrapper_g_addSymbolp_registers w l mw sc rc pc oo :
  no_oom w -> wrapper_rep (heap w) l mw sc rc pc ->
  mw_nMarpaWrapperSymboli mw < 2 ^ 30 -> mw_sizeMarpaWrapperSymboli mw <= INT_MAX ->
  let '(id, m) := marpa_run (marpa_g_symbol_new (mw_marpaGrammarp mw)) (marpa w) in
  id = -2 \/ id = mw_nMarpaWrapperSymboli mw ->
  wp (marpaWrapper_g_addSymbolp (Loc l) oo)
     (fun r w' => (id = -2 /\ r = Null /\ heap w' = heap w /\ calm w w') \/
        (id <> -2 /\ exists lo, symbol_added w l mw sc rc pc oo lo w'
         /\ r = if checks_ok (symbol_checks (mw_marpaGrammarp mw) id (symbol_option oo)) m then Loc lo else Null)) w.
Proof.
  intros Hn Hrep Hlt Hs. destruct (marpa_run _ _) as [id m] eqn:E. intros Hid.
  pose proof (rg_used _ _ _ _ _ _ (wr_symbols _ _ _ _ _ _ Hrep)) as Hused.
  unfold marpaWrapper_g_addSymbolp. rewrite decide_False by done. apply wp_bind. eapply wp_load; [apply Hrep|].
  apply wp_bind, wp_marpa. intros id' w1 Hh1 Hm1 Hlive1 Hn1 _ _. rewrite E in Hm1. injection Hm1 as -> Hm1.
  assert (calm w w1) as Hq1 by by split. destruct (id =? -2) eqn:E2; Zbool.
  - apply wp_bind. eapply wp_LOG_MARPA_G_ERROR; [rewrite Hh1; apply Hrep|]. intros w2 Hh2 Hq2. apply wp_ret.
    left. split_and!; [done|done|congruence|exact (transitivity Hq1 Hq2)].
  - destruct Hid as [?| ->]; [done|]. eapply wp_mono; [eapply wp_addSymbol_id; [auto|by rewrite Hh1|done|done]|].
    intros r w2 (lo&Ha&->). right. split; [done|]. exists lo. rewrite Hm1. split; [|done].
    by eapply symbol_added_from.
Qed.

(** C34. [marpaWrapper_g_addRulep] on a well-formed option record, when memory is granted and
    libmarpa numbers the rules in order (what [marpa_g_rule_new_registers] shows of it): the
    call libmarpa gets
    ([marpa_g_rule_new] or [marpa_g_sequence_new]) carries exactly the ids of the symbols
    the record names; a refusal gives [NULL] and changes no block; otherwise the rule is
    registered in the slot of its id and the invariant holds again. *)
Theorem marpaWrapper_g_addRulep_registers w l mw sc rc pc o lhs rhs sep :
  no_oom w -> wrapper_rep (heap w) l mw sc rc pc ->
  mw_nMarpaWrapperRulei mw < 2 ^ 30 -> mw_sizeMarpaWrapperRulei mw <= INT_MAX ->
  rule_option_error o = None -> rule_symbols (heap w) o lhs rhs sep -> Z.of_nat (length rhs) <= 2 ^ 30 ->
  let '(id, m) := marpa_run (rule_call (mw_marpaGrammarp mw) o lhs rhs sep) (marpa w) in
  id = -2 \/ id = mw_nMarpaWrapperRulei mw ->
  wp (marpaWrapper_g_addRulep (Loc l) (Some o))
     (fun r w' => (id = -2 /\ r = Null /\ heap w' = heap w /\ calm w w') \/
        (id <> -2 /\ exists lo, rule_added w l mw sc rc pc o lo w'
         /\ r = if checks_ok (rule_checks (mw_marpaGrammarp mw) id o) m then Loc lo else Null)) w.
Proof.
  intros Hn Hrep Hlt Hs Herr Hsym Hmax. destruct (marpa_run _ _) as [id m] eqn:E. intros Hid.
  unfold marpaWrapper_g_addRulep. rewrite decide_False by done. rewrite Herr.
  apply wp_bind. eapply wp_mono; [by eapply wp_rule_rhs|]. intros r w1 (Hq1&Hm1&Hr).
  assert (exists p, r = Some p /\ (heap w1 = heap w /\ p = Null /\ rhs = [] \/ exists li, p = Loc li
    /\ heap w !! li = None /\ heap w1 = <[li := OInts (Init <$> rhs)]> (heap w))) as (p&->&Hp).
  { destruct Hr as [(->&->&?)|(li&->&_&?&?)]; [exists Null|exists (Loc li)]; eauto 10. }
  assert (forall j x, heap w !! j = Some x -> heap w1 !! j = Some x) as Hmono.
  { intros j x Hj. destruct Hp as [(->&_)|(li&_&?&->)]; [done|]. rewrite lookup_insert_ne by congruence. done. }
  apply wp_bind. eapply (wp_rule_create _ _ mw _ lhs rhs sep); [done|apply Hmono, Hrep| |done| |].
  { destruct Hsym as [Hlhs Hlen Hrhs Hsep]. split; [by eapply has_id_mono|done| |].
    - intros Hne. destruct (Hrhs Hne) as (la&ps&?&?&?). exists la, ps. split_and!; [done|auto|].
      eapply Forall2_impl; [done|]. intros. by eapply has_id_mono.
    - case_decide; [done|]. by eapply has_id_mono. }
  { destruct Hp as [(_&->&->)|(li&->&_&->)]; [by left|right]. exists li. by rewrite lookup_insert_eq. }
  apply wp_marpa. intros id' w2 Hh2 Hm2 Hlive2 Hn2 _ _. rewrite Hm1, E in Hm2. injection Hm2 as -> Hm2.
  rewrite rule_call_refs in Hlive2. apply wp_bind.
  assert (wp (if decide (p = Null) then mret tt else free p)
    (fun _ w3 => heap w3 = heap w /\ calm w w3 /\ marpa w3 = m) w2) as Hfree.
  { assert (calm w w2) as Hq2. { etrans; [by apply quiet_calm|by split]. }
    destruct Hp as [(Hh1&->&->)|(li&->&Hli&Hh1)].
    - apply wp_ret. split_and!; [congruence|done|done].
    - eapply wp_free; [by rewrite Hh2, Hh1, lookup_insert_eq|]. split_and!; [|done|done].
      simpl. by rewrite Hh2, Hh1, delete_insert_id. }
  eapply wp_mono; [exact Hfree|]. intros [] w3 (Hh3&Hq3&Hm3).
  destruct (id =? -2) eqn:E2; Zbool.
  - apply wp_bind. eapply wp_LOG_MARPA_G_ERROR; [rewrite Hh3; apply Hrep|]. intros w4 Hh4 Hq4. apply wp_ret.
    left. split_and!; [done|done|congruence|exact (transitivity Hq3 Hq4)].
  - destruct Hid as [?| ->]; [done|].
    eapply wp_mono; [eapply wp_addRule_id; [by apply Hq3|by rewrite Hh3|done|done]|].
    intros r w4 (lo&Ha&->). right. split; [done|]. exists lo. rewrite Hm3. split; [|done].
    by eapply rule_added_from.
Qed.

(** Every malformed option record is refused before libmarpa hears of it: [NULL] is
    returned, and no block of the heap and nothing of libmarpa's state changes. *)
Theorem marpaWrapper_g_addRulep_refuses w l mw oo :
  wrapper_at (heap w) l mw -> from_option (fun o => rule_option_error o <> None) True oo ->
  wp (marpaWrapper_g_addRulep (Loc l) oo) (fun r w' => r = Null /\ heap w' = heap w /\ quiet w w') w.
Proof.
  intros Hl Herr. unfold marpaWrapper_g_addRulep. rewrite decide_False by done. destruct oo as [o|]; simpl in Herr.
  - destruct (rule_option_error o) as [msgs|] eqn:E; [|done]. apply wp_bind. eapply wp_LOG_ERROR0; [done|..].
    1,2: unfold rule_option_error in E; repeat case_decide; repeat case_match; by simplify_eq.
    intros w1 Hh1 Hq1. by apply wp_ret.
  - apply wp_bind. eapply wp_LOG_ERROR0; [done..|]. intros w1 Hh1 Hq1. by apply wp_ret.
Qed.
End theorems.

(** ** Witnesses *)
Lemma marpaWrapper_g_addSymbolp_registers_witness :
  exists r w' lo, marpaWrapper_g_addSymbolp (Loc 1) None (demo_world demo_heap [1]) = Done r w'
    /\ symbol_added (demo_world demo_heap [1]) 1 demo_mw [Loc 3] [Loc 5] [] None lo w'.
Proof.
  destruct (wp_run _ _ _ (marpaWrapper_g_addSymbolp_registers (demo_world demo_heap [1]) 1 demo_mw [Loc 3] [Loc 5] [] None
    (demo_no_oom _ _) demo_rep eq_refl ltac:(by vm_compute) (or_intror eq_refl))) as (r&w'&Hrun&Hp).
  destruct Hp as [[Hid _]|[_ (lo&Ha&_)]]; [discriminate Hid|].
  exact (ex_intro _ r (ex_intro _ w' (ex_intro _ lo (conj Hrun Ha)))).
Defined.

Lemma demo_rule_symbols : rule_symbols demo_heap demo_rule_option 0 [0] (-1).
Proof.
  assert (has_id demo_heap (Loc 3) 0) as Hid by by exists 3%positive, demo_symbol.
  split; [exact Hid|done| |done]. intros _. exists 2%positive, [Loc 3]. split_and!; [done|done|]. by constructor.
Qed.

Lemma marpaWrapper_g_addRulep_registers_witness :
  exists r w' lo, marpaWrapper_g_addRulep (Loc 1) (Some demo_rule_option) (demo_world demo_heap [1]) = Done r w'
    /\ rule_added (demo_world demo_heap [1]) 1 demo_mw [Loc 3] [Loc 5] [] demo_rule_option lo w'.
Proof.
  destruct (wp_run _ _ _ (marpaWrapper_g_addRulep_registers (demo_world demo_heap [1]) 1 demo_mw [Loc 3] [Loc 5] []
    demo_rule_option 0 [0] (-1) (demo_no_oom _ _) demo_rep eq_refl ltac:(by vm_compute) eq_refl demo_rule_symbols
    ltac:(by vm_compute) (or_intror eq_refl))) as (r&w'&Hrun&Hp).
  destruct Hp as [[Hid _]|[_ (lo&Ha&_)]]; [discriminate Hid|].
  exact (ex_intro _ r (ex_intro _ w' (ex_intro _ lo (conj Hrun Ha)))).
Defined.

Lemma marpaWrapper_g_addRulep_refuses_witness :
  exists w', marpaWrapper_g_addRulep (Loc 1) None (demo_world demo_heap []) = Done Null w' /\ heap w' = demo_heap.
Proof.
  destruct (wp_run _ _ _ (marpaWrapper_g_addRulep_refuses (demo_world demo_heap []) 1 demo_mw None
    (conj eq_refl (or_introl eq_refl)) I)) as (r&w'&Hrun&->&Hh&_).
  exact (ex_intro _ w' (conj Hrun Hh)).
Defined.
