(* ===== verification/Recognizer.v ===== *)
(** * The recognizer phase of [src/marpaWrapper.c] *)
From S2P Require Import Prelude Types External Runtime ManageBuf MessageBuilder Logger WrapperLog Wrapper Events Grammar.

(** [_marpaWrapper_symbol_cmp_by_sizelDesc_firstCharDesc], on the keys
    [(sizel, firstChari)] of the two symbols. *)
Definition marpaWrapper_symbol_cmp_by_sizelDesc_firstCharDesc (symbol1 symbol2 : Z * Z) : Z :=
  let '(size1l, c1i) := symbol1 in
  let '(size2l, c2i) := symbol2 in
  if size1l <? size2l then 1
  else if size1l =? size2l then
    if c1i <? 0 then 1
    else if c2i <? 0 then -1
    else if c1i <? c2i then 1
    else if c1i >? c2i then -1
    else 0
  else -1.

(** [_marpaWrapper_progress_cmp], on the keys [(marpaRuleIdi, positioni)]. *)
Definition marpaWrapper_progress_cmp (p1 p2 : Z * Z) : Z :=
  if p1.1 <? p2.1 then -1
  else if p1.1 >? p2.1 then 1
  else if p1.2 <? p2.2 then -1
  else if p1.2 >? p2.2 then 1
  else 0.

(** How a loop body ends. *)
Inductive flow : Type := Next | Break | Return.

Section recognizer.
Context `{Env}.

Definition marpaWrapper_r_startb (marpaWrapperp : ptr) : M marpaWrapperBool_t :=
  if decide (marpaWrapperp = Null) then mret MARPAWRAPPER_BOOL_FALSE
  else
    mw ← load (A := marpaWrapper) marpaWrapperp;
    (if mw_marpaRecognizerp mw =? 0 then mret tt
     else
       marpa_ (marpa_r_unref (mw_marpaRecognizerp mw));;
       (if decide (mw_expectedMarpaSymbolIdArrayp mw = Null) then mret tt
        else
          free (mw_expectedMarpaSymbolIdArrayp mw);;
          update marpaWrapperp (mw_set_expectedMarpaSymbolIdArrayp Null));;
       (if decide (mw_expectedMarpaWrapperSymbolArraypp mw = Null) then mret tt
        else
          free (mw_expectedMarpaWrapperSymbolArraypp mw);;
          update marpaWrapperp (mw_set_expectedMarpaWrapperSymbolArraypp Null)));;
    r ← marpa_ (marpa_r_new (mw_marpaGrammarp mw));
    update marpaWrapperp (mw_set_marpaRecognizerp r);;
    if r =? 0 then LOG_MARPA_G_ERROR marpaWrapperp;; mret MARPAWRAPPER_BOOL_FALSE
    else
      rc ← marpa_ (marpa_r_start_input r);
      if rc <? 0 then LOG_MARPA_G_ERROR marpaWrapperp;; mret MARPAWRAPPER_BOOL_FALSE
      else marpaWrapper_event marpaWrapperp.

(** The guard shared by the recognizer's operations: [k] runs on a started recognizer. *)
Definition with_recognizer {A} (marpaWrapperp : ptr) (failure : A) (k : marpaWrapper -> M A) : M A :=
  mw ← load (A := marpaWrapper) marpaWrapperp;
  if mw_marpaRecognizerp mw =? 0 then
    LOG_ERROR0 marpaWrapperp "Read phase not started";; mret failure
  else k mw.

Definition marpaWrapper_r_alternativeb (marpaWrapperp marpaWrapperSymbolp : ptr) (value length : Z) : M marpaWrapperBool_t :=
  if decide (marpaWrapperp = Null \/ marpaWrapperSymbolp = Null) then mret MARPAWRAPPER_BOOL_FALSE
  else
    with_recognizer marpaWrapperp MARPAWRAPPER_BOOL_FALSE (fun mw =>
      id ← symbol_id marpaWrapperSymbolp;
      rc ← marpa_ (marpa_r_alternative (mw_marpaRecognizerp mw) id value length);
      if negb (rc =? MARPA_ERR_NONE) then
        LOG_MARPA_G_ERROR marpaWrapperp;; mret MARPAWRAPPER_BOOL_FALSE
      else mret MARPAWRAPPER_BOOL_TRUE).

Definition marpaWrapper_r_completeb (marpaWrapperp : ptr) : M marpaWrapperBool_t :=
  if decide (marpaWrapperp = Null) then mret MARPAWRAPPER_BOOL_FALSE
  else
    with_recognizer marpaWrapperp MARPAWRAPPER_BOOL_FALSE (fun mw =>
      rc ← marpa_ (marpa_r_earleme_complete (mw_marpaRecognizerp mw));
      if rc =? -2 then LOG_MARPA_G_ERROR marpaWrapperp;; mret MARPAWRAPPER_BOOL_FALSE
      else marpaWrapper_event marpaWrapperp).

Definition marpaWrapper_r_readb (marpaWrapperp marpaWrapperSymbolp : ptr) (value length : Z) : M marpaWrapperBool_t :=
  rc ← marpaWrapper_r_alternativeb marpaWrapperp marpaWrapperSymbolp value length;
  if decide (rc = MARPAWRAPPER_BOOL_TRUE) then marpaWrapper_r_completeb marpaWrapperp
  else mret MARPAWRAPPER_BOOL_FALSE.

(** The two blocks allocated at the first call; [false] is [return FALSE]. *)
Definition terminals_allocate (marpaWrapperp : ptr) : M bool :=
  mw ← load (A := marpaWrapper) marpaWrapperp;
  if decide (mw_expectedMarpaSymbolIdArrayp mw = Null) then
    highestSymbolIdi ← marpa_ (marpa_g_highest_symbol_id (mw_marpaGrammarp mw));
    if highestSymbolIdi =? -2 then LOG_MARPA_G_ERROR marpaWrapperp;; mret false
    else
      n ← int_add highestSymbolIdi 1;
      ids ← malloc (OInts (replicate (Z.to_nat (to_size_t (n * sizeof_int) / sizeof_int)) Uninit));
      update marpaWrapperp (mw_set_expectedMarpaSymbolIdArrayp ids);;
      if decide (ids = Null) then LOG_SYS_ERROR marpaWrapperp "malloc()";; mret false
      else
        symbols ← malloc_ptrs (to_size_t (n * sizeof_ptr));
        update marpaWrapperp (mw_set_expectedMarpaWrapperSymbolArraypp symbols);;
        if decide (symbols = Null) then
          LOG_SYS_ERROR marpaWrapperp "malloc()";;
          free ids;;
          update marpaWrapperp (mw_set_expectedMarpaSymbolIdArrayp Null);;
          mret false
        else mret true
  else mret true.

(** [marpa_r_terminals_expected(r, buffer)]: libmarpa fills the caller's buffer. *)
Definition terminals_fetch (r : mhandle) (buffer : ptr) : M Z :=
  res ← marpa_ (marpa_r_terminals_expected r);
  for_loop (length res.2) 0
    (fun i _ => match res.2 !! Z.to_nat i with Some id => store_cell buffer i id | None => mret tt end) tt;;
  mret res.1.

(** The result and what is stored through the two output pointers. *)
Definition marpaWrapper_r_terminals_expectedb (marpaWrapperp : ptr) : M (marpaWrapperBool_t * option (Z * ptr)) :=
  if decide (marpaWrapperp = Null) then mret (MARPAWRAPPER_BOOL_FALSE, None)
  else
    with_recognizer marpaWrapperp (MARPAWRAPPER_BOOL_FALSE, None) (fun _ =>
      ok ← terminals_allocate marpaWrapperp;
      if ok : bool then
        mw ← load (A := marpaWrapper) marpaWrapperp;
        nSymbolIdi ← terminals_fetch (mw_marpaRecognizerp mw) (mw_expectedMarpaSymbolIdArrayp mw);
        if nSymbolIdi =? -2 then
          LOG_MARPA_G_ERROR marpaWrapperp;; mret (MARPAWRAPPER_BOOL_FALSE, None)
        else
          for_loop (Z.to_nat nSymbolIdi) 0
            (fun i _ =>
               id ← load_cell (A := Z) (mw_expectedMarpaSymbolIdArrayp mw) i;
               symbolp ← load_cell (A := ptr) (mw_marpaWrapperSymbolpp mw) id;
               store_cell (mw_expectedMarpaWrapperSymbolArraypp mw) i symbolp) tt;;
          mret (MARPAWRAPPER_BOOL_TRUE,
                Some (to_size_t nSymbolIdi, mw_expectedMarpaWrapperSymbolArraypp mw))
      else mret (MARPAWRAPPER_BOOL_FALSE, None)).

Definition marpaWrapper_r_terminal_is_expectedb (marpaWrapperp marpaWrapperSymbolp : ptr)
    : M (marpaWrapperBool_t * option marpaWrapperBool_t) :=
  if decide (marpaWrapperp = Null \/ marpaWrapperSymbolp = Null) then mret (MARPAWRAPPER_BOOL_FALSE, None)
  else
    with_recognizer marpaWrapperp (MARPAWRAPPER_BOOL_FALSE, None) (fun mw =>
      id ← symbol_id marpaWrapperSymbolp;
      isExpectedi ← marpa_ (marpa_r_terminal_is_expected (mw_marpaRecognizerp mw) id);
      if isExpectedi =? -2 then
        LOG_MARPA_G_ERROR marpaWrapperp;; mret (MARPAWRAPPER_BOOL_FALSE, None)
      else mret (MARPAWRAPPER_BOOL_TRUE, Some (bool_of (isExpectedi >? 0)))).

(** [marpa_r_*_symbol_activate() != booleani]: log and [return FALSE]. *)
Definition activate (marpaWrapperp : ptr) (wanted : bool) (c : mcall Z) (booleani : Z)
    (k : M marpaWrapperBool_t) : M marpaWrapperBool_t :=
  ok ← (if wanted then r ← marpa_ c; mret (r =? booleani) else mret true);
  if ok : bool then k else LOG_MARPA_G_ERROR marpaWrapperp;; mret MARPAWRAPPER_BOOL_FALSE.

Definition marpaWrapper_r_event_activateb (marpaWrapperp marpaWrapperSymbolp : ptr) (eventSeti : Z)
    (onb : marpaWrapperBool_t) : M marpaWrapperBool_t :=
  let booleani := if decide (onb = MARPAWRAPPER_BOOL_TRUE) then 1 else 0 in
  if decide (marpaWrapperp = Null \/ marpaWrapperSymbolp = Null) then mret MARPAWRAPPER_BOOL_FALSE
  else
    with_recognizer marpaWrapperp MARPAWRAPPER_BOOL_FALSE (fun mw =>
      let r := mw_marpaRecognizerp mw in
      id ← symbol_id marpaWrapperSymbolp;
      activate marpaWrapperp (has_flag eventSeti MARPAWRAPPER_EVENTTYPE_COMPLETED)
        (marpa_r_completion_symbol_activate r id booleani) booleani (
      activate marpaWrapperp (has_flag eventSeti MARPAWRAPPER_EVENTTYPE_NULLED)
        (marpa_r_nulled_symbol_activate r id booleani) booleani (
      activate marpaWrapperp (has_flag eventSeti MARPAWRAPPER_EVENTTYPE_PREDICTED)
        (marpa_r_prediction_symbol_activate r id booleani) booleani (
      mret MARPAWRAPPER_BOOL_TRUE)))).

(** ** Progress report *)

Definition progress_createp (marpaWrapperp : ptr) (wanted : Z) : M ptr :=
  mw ← load marpaWrapperp;
  r ← manageBuf_createp (mw_marpaWrapperProgresspp mw) (mw_sizeMarpaWrapperProgressi mw) wanted sizeof_ptr;
  store marpaWrapperp (mw_set_progressbuf r.2.1 r.2.2 mw);;
  mret r.1.

(** One item of the report of an Earley set; the second result is the local
    [nMarpaWrapperProgressi]. *)
Definition progress_item (marpaWrapperp : ptr) (setId itemi nProgressi : Z) : M (flow * Z) :=
  mw ← load (A := marpaWrapper) marpaWrapperp;
  item ← marpa_ (marpa_r_progress_item (mw_marpaRecognizerp mw));
  let '(marpaRuleIdi, (positioni, origini)) := item in
  if marpaRuleIdi =? -2 then LOG_MARPA_G_ERROR marpaWrapperp;; mret (Break, nProgressi)
  else if marpaRuleIdi =? -1 then
    LOG_ERRORX marpaWrapperp "Progress report No %d at Earley Set Id %d failure" [FInt itemi; FInt setId];;
    mret (Break, nProgressi)
  else
    p ← progress_createp marpaWrapperp (to_size_t (nProgressi + 1));
    if decide (p = Null) then
      LOG_SYS_ERROR marpaWrapperp "manageBuf_createp()";; mret (Break, nProgressi)
    else
      progressp ← malloc (OProgress (MarpaWrapperProgress 0 0 Null 0));
      if decide (progressp = Null) then
        LOG_SYS_ERROR marpaWrapperp "malloc()";; mret (Return, nProgressi)
      else
        mw ← load (A := marpaWrapper) marpaWrapperp;
        rulep ← load_cell (mw_marpaWrapperRulepp mw) marpaRuleIdi;
        store progressp (MarpaWrapperProgress setId origini rulep positioni);;
        store_cell (mw_marpaWrapperProgresspp mw) nProgressi progressp;;
        update marpaWrapperp (mw_set_nMarpaWrapperProgressi (to_size_t (nProgressi + 1)));;
        mret (Next, to_size_t (nProgressi + 1)).

Fixpoint progress_items (n : nat) (marpaWrapperp : ptr) (setId itemi nProgressi : Z) : M (flow * Z) :=
  match n with
  | O => mret (Next, nProgressi)
  | S n =>
    r ← progress_item marpaWrapperp setId itemi nProgressi;
    match r.1 with
    | Next => progress_items n marpaWrapperp setId (itemi + 1) r.2
    | f => mret (f, r.2)
    end
  end.

(** The loop over [n] Earley sets from [setId] on. *)
Fixpoint progress_sets (n : nat) (marpaWrapperp : ptr) (setId nProgressi : Z) : M flow :=
  match n with
  | O => mret Next
  | S n =>
    mw ← load (A := marpaWrapper) marpaWrapperp;
    earleme ← marpa_ (marpa_r_earleme (mw_marpaRecognizerp mw) setId);
    if earleme =? -2 then LOG_MARPA_G_ERROR marpaWrapperp;; mret Break
    else
      nbItemsi ← marpa_ (marpa_r_progress_report_start (mw_marpaRecognizerp mw) setId);
      if nbItemsi =? -2 then LOG_MARPA_G_ERROR marpaWrapperp;; mret Break
      else if nbItemsi <? 0 then
        LOG_ERRORX marpaWrapperp "Number of items for progress report at Earley Set Id %d is %d"
          [FInt setId; FInt nbItemsi];;
        mret Break
      else
        r ← progress_items (Z.to_nat nbItemsi) marpaWrapperp setId 0 nProgressi;
        match r.1 with
        | Next => next ← int_add setId 1; progress_sets n marpaWrapperp next r.2
        | f => mret f
        end
  end.

Definition progress_key (progressp : ptr) : M (Z * Z) :=
  p ← load (A := marpaWrapperProgress_t) progressp;
  r ← load (A := marpaWrapperRule) (mp_marpaWrapperRulep p);
  mret (mr_marpaRuleIdi r, mp_positioni p).

(** The range check of [starti] or [endi], negative values counting from the end. *)
Definition progress_index (i latest : Z) : M Z :=
  if i <? 0 then n ← int_add latest 1; int_add i n else mret i.

(** The end of the function, after the loops. *)
Definition progress_finish (marpaWrapperp : ptr) (rcb : bool) : M (marpaWrapperBool_t * option (Z * ptr)) :=
  mw ← load (A := marpaWrapper) marpaWrapperp;
  rc ← marpa_ (marpa_r_progress_report_finish (mw_marpaRecognizerp mw));
  rcb ← (if rc <? 0 then LOG_MARPA_G_ERROR marpaWrapperp;; mret false else mret rcb);
  if rcb : bool then
    mw ← load (A := marpaWrapper) marpaWrapperp;
    (if mw_nMarpaWrapperProgressi mw >? 0 then
       qsort_ptrs (mw_marpaWrapperProgresspp mw) (Z.to_nat (mw_nMarpaWrapperProgressi mw))
         progress_key marpaWrapper_progress_cmp
     else mret tt);;
    mret (MARPAWRAPPER_BOOL_TRUE, Some (mw_nMarpaWrapperProgressi mw, mw_marpaWrapperProgresspp mw))
  else mret (MARPAWRAPPER_BOOL_FALSE, None).

Definition progress_range_error (marpaWrapperp : ptr) (fmts : string) (a b : Z) : M (marpaWrapperBool_t * option (Z * ptr)) :=
  LOG_ERRORX marpaWrapperp fmts [FInt a; FInt b];; mret (MARPAWRAPPER_BOOL_FALSE, None).

Definition marpaWrapper_r_progressb (marpaWrapperp : ptr) (starti endi : Z) : M (marpaWrapperBool_t * option (Z * ptr)) :=
  if decide (marpaWrapperp = Null) then mret (MARPAWRAPPER_BOOL_FALSE, None)
  else
    with_recognizer marpaWrapperp (MARPAWRAPPER_BOOL_FALSE, None) (fun mw =>
      progress_freev marpaWrapperp;;
      latest ← marpa_ (marpa_r_latest_earley_set (mw_marpaRecognizerp mw));
      starti ← progress_index starti latest;
      if (starti <? 0) || (starti >? latest) then
        n ← int_add latest 1;
        progress_range_error marpaWrapperp "starti must be in range [%d-%d]" (- n) latest
      else
        endi ← progress_index endi latest;
        if (endi <? 0) || (endi >? latest) then
          n ← int_add latest 1;
          progress_range_error marpaWrapperp "endi must be in range [%d-%d]" (- n) latest
        else if starti >? endi then
          progress_range_error marpaWrapperp "[starti,endi] range evaluated to [%d-%d]" starti endi
        else
          f ← progress_sets (Z.to_nat (endi - starti + 1)) marpaWrapperp starti 0;
          match f with
          | Return => mret (MARPAWRAPPER_BOOL_FALSE, None)
          | Break => progress_finish marpaWrapperp false
          | Next => progress_finish marpaWrapperp true
          end).

(** ** [marpaWrapper_r_recognizeb] *)

Definition symbol_key (symbolp : ptr) : M (Z * Z) :=
  s ← load (A := marpaWrapperSymbol) symbolp;
  c ← read_init (so_firstChari (ms_marpaWrapperSymbolOption s));
  mret (so_sizel (ms_marpaWrapperSymbolOption s), c).

Definition set_lengthl (symbolp : ptr) (v : Z) : M unit :=
  update symbolp (fun s => MarpaWrapperSymbol (ms_marpaSymbolIdi s) (ms_marpaWrapperp s)
                             (ms_marpaWrapperSymbolOption s) (ms_isLexemeb s) (Init v)).

Definition set_isLexemeb (symbolp : ptr) (v : marpaWrapperBool_t) : M unit :=
  update symbolp (fun s => MarpaWrapperSymbol (ms_marpaSymbolIdi s) (ms_marpaWrapperp s)
                             (ms_marpaWrapperSymbolOption s) (Init v) (ms_lengthl s)).

(** The automatic variables that outlive a round of the reader loop. *)
Record recognize_vars : Type := RecognizeVars {
  rv_endOfInputb : init marpaWrapperBool_t;
  rv_lengthl : init Z;
  rv_lexemelengthi : init Z
}.

(** One expected terminal of "Check expected terminals"; the state is
    [(maxLengthl, lengthl)].  The counter [nbIsLexemebCallbackTruei] is never read. *)
Definition recognize_check (latm : marpaWrapperBool_t) (isLexemeb : fn) (symbolpp : ptr) (i : Z)
    (st : Z * init Z) : M (Z * init Z) :=
  let '(maxLengthl, lengthl) := st in
  symbolp ← load_cell symbolpp i;
  s ← load (A := marpaWrapperSymbol) symbolp;
  let o := ms_marpaWrapperSymbolOption s in
  if bool_decide (latm = MARPAWRAPPER_BOOL_TRUE) && (so_sizel o >? 0) && (so_sizel o <? maxLengthl) then
    set_lengthl symbolp 0;; mret (maxLengthl, lengthl)
  else
    r ← user_ (UIsLexeme isLexemeb (so_datavp o));
    let lengthl := from_option Init lengthl r.2 in
    set_isLexemeb symbolp r.1;;
    if decide (r.1 = MARPAWRAPPER_BOOL_TRUE) then
      len ← read_init lengthl;
      set_lengthl symbolp len;;
      mret (Z.max maxLengthl len, lengthl)
    else set_lengthl symbolp 0;; mret (maxLengthl, lengthl).

(** One expected terminal of "Push terminals"; the state is
    [(lexemeValuei, lexemelengthi)], [None] is [return FALSE]. *)
Definition recognize_push (marpaWrapperp : ptr) (o : marpaWrapperRecognizerOption_t) (lexemeValueb : fn)
    (symbolpp : ptr) (maxLengthl i : Z) (st : Z * init Z) : M (option (Z * init Z)) :=
  let '(lexemeValuei, lexemelengthi) := st in
  symbolp ← load_cell symbolpp i;
  s ← load (A := marpaWrapperSymbol) symbolp;
  len ← read_init (ms_lengthl s);
  if (if decide (rc_longestAcceptableTokenMatchb o = MARPAWRAPPER_BOOL_TRUE) then len =? maxLengthl else len >? 0) then
    r ← (if bool_decide (rc_longestAcceptableTokensShareTheSameValueAndLengthb o = MARPAWRAPPER_BOOL_FALSE)
            || (lexemeValuei =? 0) then
           r ← user_ (ULexemeValue lexemeValueb (so_datavp (ms_marpaWrapperSymbolOption s)));
           let '(rc, v, l) := r in
           mret (rc, default lexemeValuei v, from_option Init lexemelengthi l)
         else mret (MARPAWRAPPER_BOOL_TRUE, lexemeValuei, lexemelengthi));
    let '(rc, lexemeValuei, lexemelengthi) := r in
    if decide (rc = MARPAWRAPPER_BOOL_FALSE) then mret None
    else
      l ← read_init lexemelengthi;
      rc ← marpaWrapper_r_alternativeb marpaWrapperp symbolp lexemeValuei l;
      if decide (rc = MARPAWRAPPER_BOOL_FALSE) then mret None
      else mret (Some (lexemeValuei, lexemelengthi))
  else mret (Some (lexemeValuei, lexemelengthi)).

Fixpoint recognize_push_loop (n : nat) (marpaWrapperp : ptr) (o : marpaWrapperRecognizerOption_t) (lexemeValueb : fn)
    (symbolpp : ptr) (maxLengthl i : Z) (st : Z * init Z) : M (option (Z * init Z)) :=
  match n with
  | O => mret (Some st)
  | S n =>
    r ← recognize_push marpaWrapperp o lexemeValueb symbolpp maxLengthl i st;
    match r with
    | None => mret None
    | Some st => recognize_push_loop n marpaWrapperp o lexemeValueb symbolpp maxLengthl (i + 1) st
    end
  end.

(** The body of the reader loop; [None] is [rcb = FALSE; goto recognizebEnd]. *)
Definition recognize_round (marpaWrapperp : ptr) (o : marpaWrapperRecognizerOption_t) (isLexemeb lexemeValueb : fn)
    (v : recognize_vars) : M (option recognize_vars) :=
  let latm := rc_longestAcceptableTokenMatchb o in
  r ← marpaWrapper_r_terminals_expectedb marpaWrapperp;
  match r.2 with
  | None => mret None
  | Some (nMarpaWrapperSymboli, symbolpp) =>
    (if bool_decide (latm = MARPAWRAPPER_BOOL_TRUE) && (nMarpaWrapperSymboli >? 1) then
       qsort_ptrs symbolpp (Z.to_nat nMarpaWrapperSymboli) symbol_key
         marpaWrapper_symbol_cmp_by_sizelDesc_firstCharDesc
     else mret tt);;
    st ← for_loop (Z.to_nat nMarpaWrapperSymboli) 0 (recognize_check latm isLexemeb symbolpp) (0, rv_lengthl v);
    let '(maxLengthl, lengthl) := st in
    pushed ← (if maxLengthl >? 0 then
                recognize_push_loop (Z.to_nat nMarpaWrapperSymboli) marpaWrapperp o lexemeValueb symbolpp
                  maxLengthl 0 (0, rv_lexemelengthi v)
              else mret (Some (0, rv_lexemelengthi v)));
    match pushed with
    | None => mret None
    | Some (_, lexemelengthi) =>
      rc ← marpaWrapper_r_completeb marpaWrapperp;
      if decide (rc = MARPAWRAPPER_BOOL_FALSE) then mret None
      else mret (Some (RecognizeVars (rv_endOfInputb v) lengthl lexemelengthi))
    end
  end.

(** [while (readerCallbackp(...) == TRUE)]; the result is [endOfInputb] when it ends. *)
Fixpoint recognize_loop (fuel : nat) (marpaWrapperp : ptr) (o : marpaWrapperRecognizerOption_t)
    (readerb isLexemeb lexemeValueb : fn) (v : recognize_vars) : M (option (init marpaWrapperBool_t)) :=
  match fuel with
  | O => out_of_fuel
  | S fuel =>
    r ← user_ (UReader readerb (rc_readerDatavp o));
    let endb := from_option Init (rv_endOfInputb v) r.2 in
    if decide (r.1 = MARPAWRAPPER_BOOL_TRUE) then
      v ← recognize_round marpaWrapperp o isLexemeb lexemeValueb
            (RecognizeVars endb (rv_lengthl v) (rv_lexemelengthi v));
      match v with
      | None => mret None
      | Some v => recognize_loop fuel marpaWrapperp o readerb isLexemeb lexemeValueb v
      end
    else mret (Some endb)
  end.

Definition marpaWrapper_r_recognizeb (marpaWrapperp : ptr) (marpaWrapperRecognizerOptionp : option marpaWrapperRecognizerOption_t)
    : M marpaWrapperBool_t :=
  if decide (marpaWrapperp = Null) then mret MARPAWRAPPER_BOOL_FALSE
  else
    match marpaWrapperRecognizerOptionp with
    | None => mret MARPAWRAPPER_BOOL_FALSE
    | Some o =>
      match rc_readerCallbackp o, rc_isLexemebCallbackp o, rc_lexemeValuebCallbackp o with
      | Some readerb, Some isLexemeb, Some lexemeValueb =>
        rc ← marpaWrapper_r_startb marpaWrapperp;
        if decide (rc = MARPAWRAPPER_BOOL_FALSE) then mret MARPAWRAPPER_BOOL_FALSE
        else
          r ← recognize_loop loop_fuel marpaWrapperp o readerb isLexemeb lexemeValueb
                (RecognizeVars Uninit Uninit Uninit);
          match r with
          | None => mret MARPAWRAPPER_BOOL_FALSE
          | Some endb =>
            endOfInputb ← read_init endb;
            if bool_decide (endOfInputb = MARPAWRAPPER_BOOL_FALSE)
               && bool_decide (rc_remainingDataIsOkb o = MARPAWRAPPER_BOOL_FALSE)
            then mret MARPAWRAPPER_BOOL_FALSE
            else mret MARPAWRAPPER_BOOL_TRUE
          end
      | _, _, _ => mret MARPAWRAPPER_BOOL_FALSE
      end
    end.
End recognizer.
