(* ===== verification/Value.v ===== *)
(** * The value phase: [marpaWrapper_vb] and the callbacks it installs on its stack

    The function's [goto marpaWrapper_v_end_label] is modelled by a result: each part
    returns the automatic variables the end label looks at and, when it jumped there, the
    value of [rcb]. *)
From S2P Require Import Prelude Types External Runtime ManageBuf GenericStack MessageBuilder Logger WrapperLog Wrapper.

Section stackCallbacks.
Context `{Env}.

(** [_marpaWrapperStackFailureCallback] *)
Definition marpaWrapperStackFailureCallback (errorType : genericStack_error_t) (errorNumber : Z)
    (failureCallbackUserDatap : ptr) : M unit :=
  let '(origin, msgs) :=
    match errorType with
    | GENERICSTACK_ERROR_SYSTEM => (MARPAWRAPPERERRORORIGIN_SYSTEM, "Generic Stack system error"%string)
    | GENERICSTACK_ERROR_PARAMETER => (MARPAWRAPPERERRORORIGIN_NA, "Generic Stack parameter validation error"%string)
    | GENERICSTACK_ERROR_RUNTIME => (MARPAWRAPPERERRORORIGIN_NA, "Generic Stack runtime error"%string)
    | GENERICSTACK_ERROR_CALLBACK => (MARPAWRAPPERERRORORIGIN_NA, "Generic Stack callback error"%string)
    end in
  marpaWrapper_logWrapper failureCallbackUserDatap origin errorNumber (Lit (Str msgs)) GENERICLOGGER_LOGLEVEL_ERROR.

Definition status_of (rcb : marpaWrapperBool_t) : Z :=
  if decide (rcb = MARPAWRAPPER_BOOL_TRUE) then 0 else -1.

(** [_marpaWrapperStackFreeCallback]: the user's function pointer is not tested. *)
Definition marpaWrapperStackFreeCallback (elementp freeCallbackUserDatap : ptr) : M Z :=
  d ← load (A := marpaWrapperStackElementData_t) freeCallbackUserDatap;
  match sd_stackElementCallbackp d with
  | None => undef "call through a null pointer"
  | Some f =>
    rcb ← user_ (UElementFree f (sd_stackElementCallbackUserDatap d) (sd_marpaWrapperp d) elementp);
    mret (status_of rcb)
  end.

(** [_marpaWrapperStackCopyCallback] *)
Definition marpaWrapperStackCopyCallback (elementDstp elementSrcp copyCallbackUserDatap : ptr) : M Z :=
  d ← load (A := marpaWrapperStackElementData_t) copyCallbackUserDatap;
  match sd_stackElementCallbackp d with
  | None => undef "call through a null pointer"
  | Some f =>
    rcb ← user_ (UElementCopy f (sd_stackElementCallbackUserDatap d) (sd_marpaWrapperp d) elementDstp elementSrcp);
    mret (status_of rcb)
  end.

(** The functions behind the pointers a generic stack holds: the wrapper's own, or the
    user's. *)
#[export] Instance wrapper_stackCallbacks : StackCallbacks := {
  call_failure f e n ud :=
    match f with
    | FnStackFailure => marpaWrapperStackFailureCallback e n ud
    | FnUser _ => user_ (UFailure f e n ud)
    | _ => undef "call of a function of another type"
    end;
  call_free f p ud :=
    match f with
    | FnStackFree => marpaWrapperStackFreeCallback p ud
    | FnUser _ => user_ (UFree f p ud)
    | _ => undef "call of a function of another type"
    end;
  call_copy f d s ud :=
    match f with
    | FnStackCopy => marpaWrapperStackCopyCallback d s ud
    | FnUser _ => user_ (UCopy f d s ud)
    | _ => undef "call of a function of another type"
    end
}.
End stackCallbacks.

(** The automatic variables the end label looks at. *)
Record vb_vars : Type := VbVars {
  vv_marpaBocagep : mhandle;
  vv_marpaOrderp : mhandle;
  vv_marpaTreep : mhandle;
  vv_marpaValuep : mhandle;
  vv_genericStackp : ptr;
  vv_valueInputArraypp : ptr;
  vv_valueOutputp : init ptr
}.

(** Their initialisers: [valueOutputp] has none. *)
Definition vb_initial : vb_vars := VbVars 0 0 0 0 Null Null Uninit.

Definition vv_set_b (h : mhandle) (v : vb_vars) : vb_vars :=
  VbVars h (vv_marpaOrderp v) (vv_marpaTreep v) (vv_marpaValuep v) (vv_genericStackp v) (vv_valueInputArraypp v) (vv_valueOutputp v).
Definition vv_set_o (h : mhandle) (v : vb_vars) : vb_vars :=
  VbVars (vv_marpaBocagep v) h (vv_marpaTreep v) (vv_marpaValuep v) (vv_genericStackp v) (vv_valueInputArraypp v) (vv_valueOutputp v).
Definition vv_set_t (h : mhandle) (v : vb_vars) : vb_vars :=
  VbVars (vv_marpaBocagep v) (vv_marpaOrderp v) h (vv_marpaValuep v) (vv_genericStackp v) (vv_valueInputArraypp v) (vv_valueOutputp v).
Definition vv_set_v (h : mhandle) (v : vb_vars) : vb_vars :=
  VbVars (vv_marpaBocagep v) (vv_marpaOrderp v) (vv_marpaTreep v) h (vv_genericStackp v) (vv_valueInputArraypp v) (vv_valueOutputp v).
Definition vv_set_stack (p : ptr) (v : vb_vars) : vb_vars :=
  VbVars (vv_marpaBocagep v) (vv_marpaOrderp v) (vv_marpaTreep v) (vv_marpaValuep v) p (vv_valueInputArraypp v) (vv_valueOutputp v).
Definition vv_set_input (p : ptr) (v : vb_vars) : vb_vars :=
  VbVars (vv_marpaBocagep v) (vv_marpaOrderp v) (vv_marpaTreep v) (vv_marpaValuep v) (vv_genericStackp v) p (vv_valueOutputp v).
Definition vv_set_output (p : ptr) (v : vb_vars) : vb_vars :=
  VbVars (vv_marpaBocagep v) (vv_marpaOrderp v) (vv_marpaTreep v) (vv_marpaValuep v) (vv_genericStackp v) (vv_valueInputArraypp v) (Init p).

(** [Some rcb]: [goto marpaWrapper_v_end_label]. *)
Definition vb_result : Type := vb_vars * option marpaWrapperBool_t.

Section vb.
Context `{Env}.

Definition vb_fail (v : vb_vars) : M vb_result := mret (v, Some MARPAWRAPPER_BOOL_FALSE).

Definition vb_fail_marpa (marpaWrapperp : ptr) (v : vb_vars) : M vb_result :=
  LOG_MARPA_G_ERROR marpaWrapperp;; vb_fail v.

Definition vb_fail_msg (marpaWrapperp : ptr) (msgs : string) (v : vb_vars) : M vb_result :=
  LOG_ERROR0 marpaWrapperp msgs;; vb_fail v.

(** The checks of the order, according to the value options: [None] when it passes them,
    else the message to log ([None]: libmarpa's error). *)
Definition vb_check_order (o : marpaWrapperValueOption_t) (order : mhandle) : M (option (option string)) :=
  let flag := if decide (vo_highRankOnlyb o = MARPAWRAPPER_BOOL_TRUE) then 1 else 0 in
  r ← marpa_ (marpa_o_high_rank_only_set order flag);
  if negb (r =? flag) then mret (Some None)
  else
    r ← (if decide (vo_orderByRankb o = MARPAWRAPPER_BOOL_TRUE) then marpa_ (marpa_o_rank order) else mret 0);
    if r =? -2 then mret (Some None)
    else
      r ← (if decide (vo_ambiguityb o = MARPAWRAPPER_BOOL_FALSE)
           then marpa_ (marpa_o_ambiguity_metric order) else mret 0);
      if r >? 1 then mret (Some (Some "Ambiguous parse detected after bocage"%string))
      else
        r ← (if decide (vo_nullb o = MARPAWRAPPER_BOOL_FALSE)
             then marpa_ (marpa_o_is_null order) else mret 0);
        if r >=? 1 then mret (Some (Some "Null parse detected after bocage"%string))
        else mret None.

(** From the latest Earley set to the tree iterator. *)
Definition vb_open (marpaWrapperp : ptr) (o : marpaWrapperValueOption_t) (v : vb_vars) : M vb_result :=
  mw ← load (A := marpaWrapper) marpaWrapperp;
  let r := mw_marpaRecognizerp mw in
  set ← marpa_ (marpa_r_latest_earley_set r);
  b ← marpa_ (marpa_b_new r set);
  let v := vv_set_b b v in
  if b =? 0 then vb_fail_marpa marpaWrapperp v
  else
    order ← marpa_ (marpa_o_new b);
    let v := vv_set_o order v in
    if order =? 0 then vb_fail_marpa marpaWrapperp v
    else
      checked ← vb_check_order o order;
      match checked with
      | Some None => vb_fail_marpa marpaWrapperp v
      | Some (Some msgs) => vb_fail_msg marpaWrapperp msgs v
      | None =>
        t ← marpa_ (marpa_t_new order);
        let v := vv_set_t t v in
        if t =? 0 then vb_fail_marpa marpaWrapperp v else mret (v, None)
      end.

(** [genericStack_seti(genericStackp, argResulti, valueOutputp) <= 0] ends a step. *)
Definition vb_set_result (argResulti : Z) (v : vb_vars) : M vb_result :=
  out ← read_init (vv_valueOutputp v);
  n ← genericStack_seti loop_fuel (vv_genericStackp v) (to_uint argResulti) out;
  if n <=? 0 then vb_fail v else mret (v, None).

Definition vb_step_rule (marpaWrapperp : ptr) (o : marpaWrapperValueOption_t) (v : vb_vars) : M vb_result :=
  marpaRuleIdi ← marpa_ (marpa_v_rule (vv_marpaValuep v));
  argFirsti ← marpa_ (marpa_v_arg_0 (vv_marpaValuep v));
  argLasti ← marpa_ (marpa_v_arg_n (vv_marpaValuep v));
  argResulti ← marpa_ (marpa_v_result (vv_marpaValuep v));
  d ← int_add argLasti (- argFirsti);
  d ← int_add d 1;
  let nValueInputi := to_size_t d in
  let v := vv_set_output Null v in
  input ← malloc_ptrs (to_size_t (nValueInputi * sizeof_ptr));
  let v := vv_set_input input v in
  if decide (input = Null) then
    LOG_SYS_ERROR marpaWrapperp "malloc()";; vb_fail v
  else
    for_loop (Z.to_nat nValueInputi) 0
      (fun i _ =>
         p ← genericStack_getp loop_fuel (vv_genericStackp v) (to_uint (argFirsti + i));
         store_cell input i p) tt;;
    r ← match vo_valueRuleCallbackp o with
        | None => mret (MARPAWRAPPER_BOOL_TRUE, None)
        | Some f =>
          mw ← load (A := marpaWrapper) marpaWrapperp;
          rulep ← load_cell (mw_marpaWrapperRulepp mw) marpaRuleIdi;
          user_ (UValueRule f (vo_valueRuleCallbackDatavp o) marpaWrapperp rulep nValueInputi input)
        end;
    let v := from_option (fun p => vv_set_output p v) v r.2 in
    if decide (r.1 = MARPAWRAPPER_BOOL_FALSE) then vb_fail_msg marpaWrapperp "valueRuleCallbackp() failure" v
    else
      free input;;
      vb_set_result argResulti (vv_set_input Null v).

Definition vb_step_token (marpaWrapperp : ptr) (o : marpaWrapperValueOption_t) (v : vb_vars) : M vb_result :=
  marpaSymbolIdi ← marpa_ (marpa_v_token (vv_marpaValuep v));
  tokenValuei ← marpa_ (marpa_v_token_value (vv_marpaValuep v));
  argResulti ← marpa_ (marpa_v_result (vv_marpaValuep v));
  let v := vv_set_output Null v in
  r ← match vo_valueSymbolCallbackp o with
      | None => mret (MARPAWRAPPER_BOOL_TRUE, None)
      | Some f =>
        mw ← load (A := marpaWrapper) marpaWrapperp;
        symbolp ← load_cell (mw_marpaWrapperSymbolpp mw) marpaSymbolIdi;
        user_ (UValueSymbol f (vo_valueSymbolCallbackDatavp o) marpaWrapperp symbolp tokenValuei)
      end;
  let v := from_option (fun p => vv_set_output p v) v r.2 in
  if decide (r.1 = MARPAWRAPPER_BOOL_FALSE) then vb_fail_msg marpaWrapperp "valueSymbolCallbackp() failure" v
  else vb_set_result argResulti v.

Definition vb_step_nulling (marpaWrapperp : ptr) (o : marpaWrapperValueOption_t) (v : vb_vars) : M vb_result :=
  marpaSymbolIdi ← marpa_ (marpa_v_symbol (vv_marpaValuep v));
  argResulti ← marpa_ (marpa_v_result (vv_marpaValuep v));
  let v := vv_set_output Null v in
  r ← match vo_valueNullingCallbackp o with
      | None => mret (MARPAWRAPPER_BOOL_TRUE, None)
      | Some f =>
        mw ← load (A := marpaWrapper) marpaWrapperp;
        symbolp ← load_cell (mw_marpaWrapperSymbolpp mw) marpaSymbolIdi;
        user_ (UValueNulling f (vo_valueNullingCallbackDatavp o) marpaWrapperp symbolp)
      end;
  let v := from_option (fun p => vv_set_output p v) v r.2 in
  if decide (r.1 = MARPAWRAPPER_BOOL_FALSE) then vb_fail_msg marpaWrapperp "valueNullingCallbackp() failure" v
  else vb_set_result argResulti v.

(** The release of the caller's copy of the value, after the switch. *)
Definition vb_release_output (freeDatap : ptr) (v : vb_vars) : M vb_result :=
  out ← read_init (vv_valueOutputp v);
  if decide (out = Null) then mret (v, None)
  else
    status ← marpaWrapperStackFreeCallback out freeDatap;
    if negb (status =? 0) then vb_fail v
    else free out;; mret (vv_set_output Null v, None).

(** The loop over the valuator's steps. *)
Fixpoint vb_steps (fuel : nat) (marpaWrapperp freeDatap : ptr) (o : marpaWrapperValueOption_t) (v : vb_vars) : M vb_result :=
  match fuel with
  | O => out_of_fuel
  | S fuel =>
    step ← marpa_ (marpa_v_step (vv_marpaValuep v));
    let v := vv_set_output Null v in
    r ← (if step =? MARPA_STEP_RULE then vb_step_rule marpaWrapperp o v
         else if step =? MARPA_STEP_TOKEN then vb_step_token marpaWrapperp o v
         else if step =? MARPA_STEP_NULLING_SYMBOL then vb_step_nulling marpaWrapperp o v
         else mret (v, None));
    match r with
    | (v, Some rcb) => mret (v, Some rcb)
    | (v, None) =>
      r ← vb_release_output freeDatap v;
      match r with
      | (v, Some rcb) => mret (v, Some rcb)
      | (v, None) =>
        if step =? MARPA_STEP_INACTIVE then mret (v, None)
        else vb_steps fuel marpaWrapperp freeDatap o v
      end
    end
  end.

(** The result callback on the bottom of the stack. *)
Definition vb_result_callback (marpaWrapperp : ptr) (o : marpaWrapperValueOption_t) (v : vb_vars) : M vb_result :=
  match vo_valueResultCallbackp o with
  | None => mret (v, None)
  | Some f =>
    p ← genericStack_getp loop_fuel (vv_genericStackp v) 0;
    rc ← user_ (UValueResult f (vo_valueResultCallbackDatavp o) marpaWrapperp p);
    match rc with
    | MARPAWRAPPER_VALUECALLBACKBOOL_FALSE => vb_fail_msg marpaWrapperp "valueResultCallbackp() failure" v
    | MARPAWRAPPER_VALUECALLBACKBOOL_STOP => mret (v, Some MARPAWRAPPER_BOOL_TRUE)
    | MARPAWRAPPER_VALUECALLBACKBOOL_TRUE => mret (v, None)
    end
  end.

(** One value: from [marpa_v_new] to [marpa_v_unref]. *)
Definition vb_value (marpaWrapperp freeDatap : ptr) (stackElementSizei : Z) (stackOption : genericStack_option_t)
    (o : marpaWrapperValueOption_t) (v : vb_vars) : M vb_result :=
  val ← marpa_ (marpa_v_new (vv_marpaTreep v));
  let v := vv_set_v val v in
  if val =? 0 then vb_fail_marpa marpaWrapperp v
  else
    rc ← marpa_ (marpa_v_valued_force val);
    if rc <? 0 then vb_fail_marpa marpaWrapperp v
    else
      stackp ← genericStack_newp stackElementSizei (Some stackOption);
      let v := vv_set_stack stackp v in
      if decide (stackp = Null) then vb_fail v
      else
        r ← vb_steps loop_fuel marpaWrapperp freeDatap o v;
        match r with
        | (v, Some rcb) => mret (v, Some rcb)
        | (v, None) =>
          r ← vb_result_callback marpaWrapperp o v;
          match r with
          | (v, Some rcb) => mret (v, Some rcb)
          | (v, None) =>
            s ← genericStack_destroyv (Some (vv_genericStackp v));
            marpa_ (marpa_v_unref (vv_marpaValuep v));;
            mret (vv_set_v 0 (vv_set_stack (default Null s) v), None)
          end
        end.

(** [while (1)] over the trees. *)
Fixpoint vb_trees (fuel : nat) (marpaWrapperp freeDatap : ptr) (stackElementSizei : Z)
    (stackOption : genericStack_option_t) (o : marpaWrapperValueOption_t) (v : vb_vars) : M vb_result :=
  match fuel with
  | O => out_of_fuel
  | S fuel =>
    treeNexti ← marpa_ (marpa_t_next (vv_marpaTreep v));
    if treeNexti <? 0 then mret (v, None)
    else
      r ← vb_value marpaWrapperp freeDatap stackElementSizei stackOption o v;
      match r with
      | (v, Some rcb) => mret (v, Some rcb)
      | (v, None) => vb_trees fuel marpaWrapperp freeDatap stackElementSizei stackOption o v
      end
  end.

(** [marpaWrapper_v_end_label] *)
Definition vb_end (v : vb_vars) : M unit :=
  out ← read_init (vv_valueOutputp v);
  (if decide (out = Null) then mret tt else free out);;
  (if decide (vv_valueInputArraypp v = Null) then mret tt else free (vv_valueInputArraypp v));;
  (if decide (vv_genericStackp v = Null) then mret tt
   else genericStack_destroyv (Some (vv_genericStackp v));; mret tt);;
  (if vv_marpaValuep v =? 0 then mret tt else marpa_ (marpa_v_unref (vv_marpaValuep v)));;
  (if vv_marpaTreep v =? 0 then mret tt else marpa_ (marpa_t_unref (vv_marpaTreep v)));;
  (if vv_marpaOrderp v =? 0 then mret tt else marpa_ (marpa_o_unref (vv_marpaOrderp v)));;
  (if vv_marpaBocagep v =? 0 then mret tt else marpa_ (marpa_b_unref (vv_marpaBocagep v))).

(** The stack options the function fills: they point to its automatic variables. *)
Definition vb_stackOption (marpaWrapperp freeDatap copyDatap : ptr) : genericStack_option_t := {|
  gso_growFlags := GENERICSTACK_OPTION_GROW_DEFAULT;
  gso_failureCallbackp := Some FnStackFailure;
  gso_failureCallbackUserDatap := marpaWrapperp;
  gso_freeCallbackp := Some FnStackFree;
  gso_freeCallbackUserDatap := freeDatap;
  gso_copyCallbackp := Some FnStackCopy;
  gso_copyCallbackUserDatap := copyDatap
|}.

(** Everything between the guards and the end label. *)
Definition vb_body (marpaWrapperp freeDatap copyDatap : ptr) (o : marpaWrapperValueOption_t)
    (so : marpaWrapperStackOption_t) : M vb_result :=
  r ← vb_open marpaWrapperp o vb_initial;
  match r with
  | (v, Some rcb) => mret (v, Some rcb)
  | (v, None) =>
    vb_trees loop_fuel marpaWrapperp freeDatap (ko_stackElementSizei so)
      (vb_stackOption marpaWrapperp freeDatap copyDatap) o v
  end.

(** The guards: [None] when they let the call through. *)
Definition vb_guards (marpaWrapperp : ptr) (marpaWrapperStackOptionp : option marpaWrapperStackOption_t) : M (option marpaWrapperStackOption_t) :=
  if decide (marpaWrapperp = Null) then mret None
  else
    match marpaWrapperStackOptionp with
    | None => LOG_ERROR0 marpaWrapperp "marpaWrapperStackOptionp is NULL";; mret None
    | Some so =>
      mw ← load (A := marpaWrapper) marpaWrapperp;
      if mw_marpaRecognizerp mw =? 0 then
        LOG_ERROR0 marpaWrapperp "Read phase not started";; mret None
      else mret (Some so)
    end.

Definition marpaWrapper_vb (marpaWrapperp : ptr) (marpaWrapperValueOptionp : option marpaWrapperValueOption_t)
    (marpaWrapperStackOptionp : option marpaWrapperStackOption_t) : M marpaWrapperBool_t :=
  guarded ← vb_guards marpaWrapperp marpaWrapperStackOptionp;
  match guarded with
  | None => vb_end vb_initial;; mret MARPAWRAPPER_BOOL_FALSE
  | Some so =>
    let o := default marpaWrapperValueOption_default marpaWrapperValueOptionp in
    (* marpaWrapperStackElementFreeData and marpaWrapperStackElementCopyData *)
    freeDatap ← alloca (OStackData (MarpaWrapperStackElementData marpaWrapperp
                  (ko_stackElementFreeCallbackp so) (ko_stackElementFreeCallbackUserDatap so)));
    copyDatap ← alloca (OStackData (MarpaWrapperStackElementData marpaWrapperp
                  (ko_stackElementCopyCallbackp so) (ko_stackElementCopyCallbackUserDatap so)));
    r ← vb_body marpaWrapperp freeDatap copyDatap o so;
    vb_end r.1;;
    (* the automatic variables disappear *)
    free copyDatap;;
    free freeDatap;;
    mret (default MARPAWRAPPER_BOOL_TRUE r.2)
  end.
End vb.
