(* ===== verification/RecognizerTheorems.v ===== *)
(** * Properties of the recognizer phase *)
From S2P Require Import Prelude Types External Runtime Demo ManageBuf MessageBuilder Logger WrapperLog Wrapper WrapperSpec Events Grammar GrammarTheorems RegistryTheorems Recognizer.

(** ** The comparators *)

Lemma progress_cmp_spec p1 p2 :
  marpaWrapper_progress_cmp p1 p2 <= 0 <-> p1.1 < p2.1 \/ p1.1 = p2.1 /\ p1.2 <= p2.2.
Proof. unfold marpaWrapper_progress_cmp. rewrite !Z.gtb_ltb. repeat case_match; Zbool; lia. Qed.

Lemma progress_cmp_consistent : cmp_consistent marpaWrapper_progress_cmp (fun _ => True).
Proof. split; intros; rewrite !progress_cmp_spec in *; lia. Qed.

Lemma symbol_cmp_spec s1 s2 :
  0 <= s1.2 -> 0 <= s2.2 ->
  marpaWrapper_symbol_cmp_by_sizelDesc_firstCharDesc s1 s2 <= 0 <-> s2.1 < s1.1 \/ s1.1 = s2.1 /\ s2.2 <= s1.2.
Proof.
  destruct s1 as [a1 b1], s2 as [a2 b2]. unfold marpaWrapper_symbol_cmp_by_sizelDesc_firstCharDesc. simpl. intros.
  rewrite !Z.gtb_ltb. repeat case_match; Zbool; lia.
Qed.

Lemma symbol_cmp_consistent : cmp_consistent marpaWrapper_symbol_cmp_by_sizelDesc_firstCharDesc (fun s => 0 <= s.2).
Proof. split; intros *; intros; rewrite !symbol_cmp_spec in * by done; lia. Qed.

(** ** Sorting an array of pointers by what they point to *)

Lemma qsort_insert_keyed {A K} (key : A -> K) (cmp : K -> K -> Z) x l :
  (qsort_insert (fun a b => cmp a.1 b.1) (key x, x) ((fun a => (key a, a)) <$> l))
  = (fun a => (key a, a)) <$> qsort_insert (fun a b => cmp (key a) (key b)) x l.
Proof.
  induction l as [|y l IH]; [done|]. cbn [qsort_insert fmap list_fmap fst].
  destruct (Z.leb (cmp (key x) (key y)) 0); [done|]. simpl. by rewrite IH.
Qed.

Lemma qsort_keyed {A K} (key : A -> K) (cmp : K -> K -> Z) l :
  qsort (fun a b => cmp a.1 b.1) ((fun a => (key a, a)) <$> l)
  = (fun a => (key a, a)) <$> qsort (fun a b => cmp (key a) (key b)) l.
Proof. induction l as [|x l IH]; [done|]. rewrite fmap_cons. cbn [qsort]. by rewrite IH, qsort_insert_keyed. Qed.

Section sorting.
Context `{LogNeutral}.
Implicit Types (w : world).

(** [qsort_ptrs], when every pointer has a determinate key. *)
Lemma wp_qsort_ptrs {K} w l ps rest (key : ptr -> M K) (val : ptr -> K) cmp Q :
  heap w !! l = Some (OPtrs ((Init <$> ps) ++ rest)) ->
  (forall p, p ∈ ps -> wp (key p) (fun k w' => k = val p /\ w' = w) w) ->
  Q tt (set_heap (<[l := OPtrs ((Init <$> qsort (fun a b => cmp (val a) (val b)) ps) ++ rest)]> (heap w)) w) ->
  wp (qsort_ptrs (Loc l) (length ps) key cmp) Q w.
Proof.
  intros Hl Hkey HQ. unfold qsort_ptrs. apply wp_bind. eapply wp_read_cells; [exact Hl|].
  destruct (decide _) as [Hle|Hgt].
  { apply wp_ret. assert (qsort (fun a b => cmp (val a) (val b)) ps = ps) as Hid.
    { destruct ps as [|a [|b ps]]; [done|done|simpl in Hle; lia]. }
    rewrite Hid, insert_id in HQ by done. by destruct w. }
  apply wp_bind. eapply wp_mono; [apply (wp_for_loop _ 0 _
    (fun i acc w' => acc = (fun p => (val p, p)) <$> take (Z.to_nat i) ps /\ w' = w))|].
  - done.
  - intros i acc w' Hi [-> ->]. destruct (lookup_lt_is_Some_2 ps (Z.to_nat i)) as [p Hp]; [lia|].
    rewrite Hp. apply wp_bind. eapply wp_mono; [apply Hkey; by eapply list_elem_of_lookup_2|].
    intros k ? [-> ->]. apply wp_ret. split; [|done]. replace (Z.to_nat (i + 1)) with (S (Z.to_nat i)) by lia.
    by rewrite (take_S_r _ _ p), fmap_app.
  - intros acc w' [-> ->]. apply wp_bind. eapply wp_load; [exact Hl|]. eapply wp_store; [exact Hl|]. simpl.
    rewrite Z.add_0_l, Nat2Z.id, take_ge by done.
    rewrite (qsort_keyed val cmp). set (qs := qsort _ ps) in *.
    assert (((fun a => (val a, a)) <$> qs).*2 = qs) as Hsnd by (rewrite <- list_fmap_compose; apply list_fmap_id).
    by rewrite Hsnd, drop_app_length' by (by rewrite length_fmap).
Qed.
End sorting.

(** ** Longest acceptable token match *)

(** The cell a loop is at, and the cells left. *)
Lemma take_drop_cons {A} (cells : list A) i n x xs :
  take (S n) (drop i cells) = x :: xs -> cells !! i = Some x /\ take n (drop (S i) cells) = xs.
Proof.
  intros Ht. replace (S i) with (i + 1)%nat by lia. rewrite <- drop_drop, <- (Nat.add_0_r i) at 1.
  rewrite <- lookup_drop. destruct (drop i cells) as [|y ys]; [done|]. simpl in Ht. injection Ht as -> Ht. done.
Qed.

Section latm.
Context `{Env}.
Implicit Types (w : world) (s : marpaWrapperSymbol).

(** What the user's [isLexemebCallbackp] answers, as a function of the symbol's data: the
    length of the lexeme, if there is one. *)
Variables (f : fn) (lex : ptr -> option Z).

Definition answers_lexemes : Prop :=
  forall d w, wp (user_ (UIsLexeme f d))
    (fun r w' => heap w' = heap w /\ calm w w'
       /\ r = match lex d with Some n => (MARPAWRAPPER_BOOL_TRUE, Some n) | None => (MARPAWRAPPER_BOOL_FALSE, None) end) w.

Definition symbol_lex s : option Z := lex (so_datavp (ms_marpaWrapperSymbolOption s)).
Definition symbol_sizel s : Z := so_sizel (ms_marpaWrapperSymbolOption s).

Definition with_length s (b : option marpaWrapperBool_t) (n : Z) : marpaWrapperSymbol :=
  MarpaWrapperSymbol (ms_marpaSymbolIdi s) (ms_marpaWrapperp s) (ms_marpaWrapperSymbolOption s)
    (from_option Init (ms_isLexemeb s) b) (Init n).

(** One expected terminal, and all of them: the symbols afterwards, and the longest
    length. *)
Definition check_one (latm : bool) s (max : Z) : marpaWrapperSymbol * Z :=
  if latm && (symbol_sizel s >? 0) && (symbol_sizel s <? max) then (with_length s None 0, max)
  else
    match symbol_lex s with
    | Some n => (with_length s (Some MARPAWRAPPER_BOOL_TRUE) n, Z.max max n)
    | None => (with_length s (Some MARPAWRAPPER_BOOL_FALSE) 0, max)
    end.

Fixpoint check_all (latm : bool) (ss : list marpaWrapperSymbol) (max : Z) : list marpaWrapperSymbol * Z :=
  match ss with
  | [] => ([], max)
  | s :: ss =>
    let '(s', max) := check_one latm s max in
    let '(ss', max) := check_all latm ss max in
    (s' :: ss', max)
  end.

Definition symbols_at (h : gmap positive obj) (ls : list positive) (ss : list marpaWrapperSymbol) : Prop :=
  Forall2 (fun lo s => h !! lo = Some (OSymbol s)) ls ss.

Lemma symbols_at_frame h h' ls ss :
  symbols_at h ls ss -> (forall k, k ∈ ls -> h' !! k = h !! k) -> symbols_at h' ls ss.
Proof.
  intros Hs Hf. induction Hs as [|lo s ls ss Hlo Hs IH]; constructor.
  - rewrite Hf; [done|constructor].
  - apply IH. intros k Hk. apply Hf. by constructor.
Qed.

Lemma wp_update_symbol w lo s g Q :
  heap w !! lo = Some (OSymbol s) ->
  (forall w', heap w' = <[lo := OSymbol (g s)]> (heap w) -> quiet w w' -> Q tt w') ->
  wp (update (Loc lo) g) Q w.
Proof. intros Hl HQ. eapply wp_update; [done|]. apply HQ; [done|apply quiet_set_heap]. Qed.

(** The loop body is [check_one]. *)
Lemma wp_recognize_check latm w la cells i lo s max len Q :
  answers_lexemes ->
  heap w !! la = Some (OPtrs cells) -> 0 <= i -> cells !! Z.to_nat i = Some (Init (Loc lo)) ->
  heap w !! lo = Some (OSymbol s) ->
  (forall w' len', heap w' = <[lo := OSymbol (check_one (bool_decide (latm = MARPAWRAPPER_BOOL_TRUE)) s max).1]> (heap w) ->
     calm w w' -> Q ((check_one (bool_decide (latm = MARPAWRAPPER_BOOL_TRUE)) s max).2, len') w') ->
  wp (recognize_check latm f (Loc la) i (max, len)) Q w.
Proof.
  intros Hans Hla Hi Hc Hlo HQ. unfold recognize_check. apply wp_bind. eapply wp_load_cell; [done|done|done|].
  apply wp_bind. eapply wp_load; [done|]. cbv zeta. unfold check_one in HQ. fold (symbol_sizel s).
  destruct (_ && _ && _); simpl in HQ.
  { apply wp_bind. eapply wp_update_symbol; [done|]. intros w1 Hh1 Hq1. apply wp_ret, HQ; [done|by apply quiet_calm]. }
  apply wp_bind. eapply wp_mono; [apply Hans|]. intros r w1 (Hh1&Hq1&->). fold (symbol_lex s).
  apply wp_bind. eapply wp_update_symbol; [by rewrite Hh1|]. intros w2 Hh2 Hq2. rewrite Hh1 in Hh2.
  assert (calm w w2) as Hq12 by (etrans; [done|by apply quiet_calm]).
  destruct (symbol_lex s) as [n|]; simpl in HQ |- *.
  - apply wp_bind, wp_ret. apply wp_bind. eapply wp_update_symbol; [by rewrite Hh2, lookup_insert_eq|].
    intros w3 Hh3 Hq3. apply wp_ret, HQ; [|by etrans; [exact Hq12|apply quiet_calm]].
    by rewrite Hh3, Hh2, insert_insert_eq.
  - apply wp_bind. eapply wp_update_symbol; [by rewrite Hh2, lookup_insert_eq|].
    intros w3 Hh3 Hq3. apply wp_ret, HQ; [|by etrans; [exact Hq12|apply quiet_calm]].
    by rewrite Hh3, Hh2, insert_insert_eq.
Qed.

(** The loop is [check_all]. *)
Lemma wp_check_loop latm w la cells ls ss i max len Q :
  answers_lexemes ->
  heap w !! la = Some (OPtrs cells) -> take (length ls) (drop i cells) = Init <$> (Loc <$> ls) -> symbols_at (heap w) ls ss ->
  NoDup (la :: ls) ->
  (forall w' len', symbols_at (heap w') ls (check_all (bool_decide (latm = MARPAWRAPPER_BOOL_TRUE)) ss max).1 ->
     (forall k, k ∉ ls -> heap w' !! k = heap w !! k) -> calm w w' ->
     Q ((check_all (bool_decide (latm = MARPAWRAPPER_BOOL_TRUE)) ss max).2, len') w') ->
  wp (for_loop (length ls) (Z.of_nat i) (recognize_check latm f (Loc la)) (max, len)) Q w.
Proof.
  intros Hans. revert w ss i max len Q.
  induction ls as [|lo ls IH]; intros w ss i max len Q Hla Hd Hss Hnd HQ; inversion Hss as [|? s ? ss' Hlo Hss']; subst.
  { apply wp_ret. apply HQ; [constructor|done|done]. }
  cbn [for_loop length]. apply NoDup_cons in Hnd as [Hnla Hnd]. apply NoDup_cons in Hnd as [Hnlo Hnd].
  apply not_elem_of_cons in Hnla as [Hne Hnla].
  apply take_drop_cons in Hd as [Hc Hd].
  apply wp_bind. eapply wp_recognize_check; [done|done|lia|by rewrite Nat2Z.id|done|].
  intros w1 len1 Hh1 Hq1. simpl in HQ. destruct (check_one _ s max) as [s' max'] eqn:E1. simpl.
  replace (Z.of_nat i + 1) with (Z.of_nat (S i)) by lia.
  eapply (IH w1 ss').
  - rewrite Hh1, lookup_insert_ne by done. done.
  - done.
  - eapply symbols_at_frame; [done|]. intros k Hk. rewrite Hh1, lookup_insert_ne; [done|]. by intros ->.
  - apply NoDup_cons. done.
  - intros w2 len2 Hs2 Hf2 Hq2. destruct (check_all _ ss' max') as [ss2 max2]. simpl in *. apply HQ.
    + constructor; [|done]. rewrite Hf2, Hh1 by done. apply lookup_insert_eq.
    + intros k Hk. apply not_elem_of_cons in Hk as [??]. rewrite Hf2, Hh1, lookup_insert_ne by done. done.
    + by etrans.
Qed.

(** ** What the check amounts to *)

(** The longest lexeme among the expected terminals (0: none). *)
Definition longest (ss : list marpaWrapperSymbol) : Z :=
  foldr (fun s m => Z.max (default 0 (symbol_lex s)) m) 0 ss.

(** Fixed sizes are upper bounds of the lengths. *)
Definition sizes_honest (ss : list marpaWrapperSymbol) : Prop :=
  Forall (fun s => forall n, symbol_lex s = Some n -> 0 <= n /\ (0 < symbol_sizel s -> n <= symbol_sizel s)) ss.

Lemma check_all_longest latm ss max :
  sizes_honest ss -> 0 <= max ->
  (check_all latm ss max).2 = Z.max max (longest ss)
  /\ Forall2 (fun s s' => forall m, (check_all latm ss max).2 <= m -> 0 < m -> (ms_lengthl s' = Init m <-> symbol_lex s = Some m))
       ss (check_all latm ss max).1.
Proof.
  intros Hs. revert max. induction Hs as [|s ss Hs Hss IH]; intros max Hmax; simpl.
  { split; [unfold longest; simpl; lia|constructor]. }
  unfold check_one, longest. simpl. fold (longest ss).
  destruct (latm && (symbol_sizel s >? 0) && (symbol_sizel s <? max)) eqn:Eskip.
  - rewrite Z.gtb_ltb in Eskip. Zbool. destruct (check_all latm ss max) as [ss' max'] eqn:E.
    destruct (IH max Hmax) as [Hm Hf]. rewrite E in Hm, Hf. simpl in *. split.
    + rewrite Hm. destruct (symbol_lex s) as [n|] eqn:El; simpl; [destruct (Hs n eq_refl) as [? Hle]; lia|lia].
    + constructor; [|done]. intros m Hle Hpos. split; [intros [= <-]; lia|]. intros El. destruct (Hs m El) as [? Hb]. lia.
  - destruct (symbol_lex s) as [n|] eqn:El; simpl.
    + destruct (Hs n eq_refl) as [Hn _]. destruct (check_all latm ss (Z.max max n)) as [ss' max'] eqn:E.
      destruct (IH (Z.max max n)) as [Hm Hf]; [lia|]. rewrite E in Hm, Hf. simpl in *. split; [lia|].
      constructor; [|done]. intros m Hle Hpos. rewrite El. split; intros [= ->]; done.
    + destruct (check_all latm ss max) as [ss' max'] eqn:E. destruct (IH max Hmax) as [Hm Hf]. rewrite E in Hm, Hf. simpl in *.
      split; [lia|]. constructor; [|done]. intros m Hle Hpos. rewrite El. split; [intros [= <-]; lia|done].
Qed.
End latm.

(** ** The proposals of a trace: the calls of the user's value callback, with the data of a
    symbol, and the alternatives offered to libmarpa, with its answer *)
Inductive proposal : Type :=
| Asked (f : fn) (datavp : ptr)
| Offered (r : mhandle) (id value length rc : Z).

Definition proposal_of (ev : event) : option proposal :=
  match ev with
  | EvMarpa c rc =>
    match c in mcall R return R -> option proposal with
    | marpa_r_alternative r id v n => fun rc => Some (Offered r id v n rc)
    | _ => fun _ => None
    end rc
  | EvUser c => match c with ULexemeValue f d => Some (Asked f d) | _ => None end
  | EvWrite _ => None
  end.
Definition proposals (t : list event) : list proposal := omap proposal_of t.

Lemma proposals_snoc t ev : proposals (t ++ [ev]) = proposals t ++ option_list (proposal_of ev).
Proof. unfold proposals. rewrite omap_app. simpl. by destruct (proposal_of ev). Qed.

(** ** What a round should propose *)
Section offers.
Implicit Types (s : marpaWrapperSymbol).

(** The user's value callback, as a function of the symbol's data: the value and the length,
    or a failure; and whether the symbols share them. *)
Variables (g : fn) (valof : ptr -> option (Z * Z)) (r : mhandle) (share : bool).

Definition symbol_data s : ptr := so_datavp (ms_marpaWrapperSymbolOption s).

(** Whether the push loop takes a symbol. *)
Definition chosen (latm : bool) (max : Z) s : bool :=
  match ms_lengthl s with Init n => if latm then n =? max else n >? 0 | Uninit => false end.

(** A symbol whose value can be shared: 0 stands for no value yet. *)
Definition gives_value s : bool := match valof (symbol_data s) with Some (v, _) => negb (v =? 0) | None => false end.

(** The symbol of [ss] that gives the [i]-th one its value and length: itself, or the first
    before it whose value is not 0 when they are shared. *)
Definition giver (ss : list marpaWrapperSymbol) (i : nat) : nat :=
  if share then from_option fst i (list_find (fun s => Is_true (gives_value s)) (take i ss)) else i.

(** The callback is called with the symbols that are their own givers. *)
Definition asks (ss : list marpaWrapperSymbol) (i : nat) s : list proposal :=
  if decide (giver ss i = i) then [Asked g (symbol_data s)] else [].

(** [offers ss i ps ok]: from the [i]-th on, the symbols [ss] are proposed by [ps], all of them
    when [ok]; the last proposal is otherwise a failure of the callback or a refusal. *)
Inductive offers (ss : list marpaWrapperSymbol) : nat -> list proposal -> bool -> Prop :=
| offers_all i : ss !! i = None -> offers ss i [] true
| offers_failed i s :
    ss !! i = Some s -> giver ss i = i -> valof (symbol_data s) = None ->
    offers ss i [Asked g (symbol_data s)] false
| offers_refused i s t v n rc :
    ss !! i = Some s -> ss !! giver ss i = Some t -> valof (symbol_data t) = Some (v, n) -> rc <> MARPA_ERR_NONE ->
    offers ss i (asks ss i s ++ [Offered r (ms_marpaSymbolIdi s) v n rc]) false
| offers_next i s t v n ps ok :
    ss !! i = Some s -> ss !! giver ss i = Some t -> valof (symbol_data t) = Some (v, n) ->
    offers ss (S i) ps ok ->
    offers ss i (asks ss i s ++ Offered r (ms_marpaSymbolIdi s) v n MARPA_ERR_NONE :: ps) ok.

(** The last value and length, after the symbols [pre] have been proposed. *)
Definition shared_state (pre : list marpaWrapperSymbol) (v : Z) (n : init Z) : Prop :=
  share = true ->
  match list_find (fun s => Is_true (gives_value s)) pre with
  | Some (_, t) => exists k, n = Init k /\ valof (symbol_data t) = Some (v, k)
  | None => v = 0
  end.

Lemma giver_at pre ss :
  giver (pre ++ ss) (length pre) = if share then from_option fst (length pre) (list_find (fun s => Is_true (gives_value s)) pre) else length pre.
Proof. unfold giver. by rewrite take_app_length. Qed.

(** The loop asks exactly when the next symbol is its own giver; otherwise its state is what
    the giver has answered. *)
Lemma shared_asks pre s ss v n :
  shared_state pre v n -> negb share || (v =? 0) = true -> giver (pre ++ s :: ss) (length pre) = length pre.
Proof.
  unfold shared_state. rewrite giver_at. intros Hst Hask. destruct share; [|done]. specialize (Hst eq_refl).
  destruct (list_find _ pre) as [[j t]|] eqn:E; [|done]. apply list_find_Some in E as (_&Ht&_).
  destruct Hst as (k&_&Hv). unfold gives_value in Ht. rewrite Hv in Ht. simpl in Hask. by rewrite Hask in Ht.
Qed.

Lemma shared_given pre s ss v n :
  shared_state pre v n -> negb share || (v =? 0) = false ->
  giver (pre ++ s :: ss) (length pre) <> length pre /\
  exists t k, (pre ++ s :: ss) !! giver (pre ++ s :: ss) (length pre) = Some t /\ n = Init k /\ valof (symbol_data t) = Some (v, k).
Proof.
  unfold shared_state. rewrite giver_at. intros Hst Hask. destruct share; [|done]. specialize (Hst eq_refl). simpl in Hask.
  destruct (list_find _ pre) as [[j t]|] eqn:E; [|by subst]. apply list_find_Some in E as (Hj&_&_). simpl.
  pose proof (lookup_lt_Some _ _ _ Hj). split; [lia|]. destruct Hst as (k&Hn&Hv). exists t, k. by rewrite lookup_app_l.
Qed.

Lemma shared_step pre s t v n v' n' ss :
  shared_state pre v n -> (pre ++ s :: ss) !! giver (pre ++ s :: ss) (length pre) = Some t -> valof (symbol_data t) = Some (v', n') ->
  shared_state (pre ++ [s]) v' (Init n').
Proof.
  unfold shared_state. rewrite giver_at. intros Hst Ht Hv Hs. specialize (Hst Hs). rewrite Hs in Ht.
  destruct (list_find _ pre) as [[j t']|] eqn:E.
  - erewrite list_find_app_l by done. simpl in Ht. apply list_find_Some in E as (Hj&_&_).
    rewrite lookup_app_l in Ht by (by eapply lookup_lt_Some). assert (t' = t) as -> by congruence. eauto.
  - rewrite list_find_app_r by done. simpl in Ht. rewrite lookup_app_r, Nat.sub_diag in Ht by lia. injection Ht as ->.
    simpl. destruct (decide _) as [Hg|Hg]; simpl; [eauto|]. unfold gives_value in Hg. rewrite Hv in Hg.
    destruct (v' =? 0) eqn:E0; [by apply Z.eqb_eq in E0|by destruct Hg].
Qed.
End offers.

Section push.
Context `{LogNeutral}.
Implicit Types (w : world) (s : marpaWrapperSymbol).
Variables (g : fn) (valof : ptr -> option (Z * Z)).

(** What the value callback does: it stores both the value and the length when it succeeds,
    leaves the heap alone and proposes nothing itself. *)
Definition answers_values : Prop :=
  forall d w, wp (user_ (ULexemeValue g d))
    (fun r w' => heap w' = heap w /\ proposals (trace w') = proposals (trace w) ++ [Asked g d]
       /\ match valof d with
          | Some (v, n) => r = (MARPAWRAPPER_BOOL_TRUE, Some v, Some n)
          | None => r.1.1 = MARPAWRAPPER_BOOL_FALSE
          end) w.

Hypothesis Hval : answers_values.
Hypothesis Hlog : forall id ud level msgs, keeps proposals (user_ (ULog (FnUser id) ud level msgs)).

Lemma proposals_unwatched : Unwatched proposals.
Proof using Hlog. split; [intros; by rewrite proposals_snoc, app_nil_r..|exact Hlog]. Qed.

Lemma wp_alternativeb w l mw lo s v n Q :
  wrapper_at (heap w) l mw -> mw_marpaRecognizerp mw <> 0 -> heap w !! lo = Some (OSymbol s) ->
  (forall rc w', heap w' = heap w ->
     proposals (trace w') = proposals (trace w) ++ [Offered (mw_marpaRecognizerp mw) (ms_marpaSymbolIdi s) v n rc] ->
     Q (if rc =? MARPA_ERR_NONE then MARPAWRAPPER_BOOL_TRUE else MARPAWRAPPER_BOOL_FALSE) w') ->
  wp (marpaWrapper_r_alternativeb (Loc l) (Loc lo) v n) Q w.
Proof using H1 Hlog.
  intros Hl Hr Hlo HQ. unfold marpaWrapper_r_alternativeb, with_recognizer.
  rewrite decide_False by (by intros [|]). apply wp_bind. eapply wp_load; [apply Hl|].
  rewrite (proj2 (Z.eqb_neq _ _)) by done. apply wp_bind. eapply wp_symbol_id; [by exists lo, s|].
  apply wp_bind. unfold wp at 1, marpa_. destruct (marpa_run _ (marpa w)) as [rc m].
  set (w1 := emit _ _). specialize (HQ rc).
  assert (proposals (trace w1) = proposals (trace w) ++ [Offered (mw_marpaRecognizerp mw) (ms_marpaSymbolIdi s) v n rc]) as Hp1
    by apply proposals_snoc.
  destruct (rc =? MARPA_ERR_NONE); cbn [negb].
  - by apply wp_ret, HQ.
  - pose proof proposals_unwatched. apply wp_bind, (wp_keeps proposals); [apply keeps_LOG_MARPA_G_ERROR|].
    eapply wp_LOG_MARPA_G_ERROR; [done|]. intros w2 Hh2 _ Hp2. apply wp_ret, HQ; [done|congruence].
Qed.

Section loop.
Variables (l : positive) (mw : marpaWrapper) (o : marpaWrapperRecognizerOption_t) (la : positive) (cells : list (init ptr)) (max : Z).
Hypothesis Hr : mw_marpaRecognizerp mw <> 0.
Let latm := bool_decide (rc_longestAcceptableTokenMatchb o = MARPAWRAPPER_BOOL_TRUE).
Let share := bool_decide (rc_longestAcceptableTokensShareTheSameValueAndLengthb o <> MARPAWRAPPER_BOOL_FALSE).
Let offered := offers g valof (mw_marpaRecognizerp mw) share.

(** One symbol taken, with those of [pre] taken before it. *)
Lemma wp_push_taken w pre lo s ss i v n Q :
  wrapper_at (heap w) l mw -> heap w !! la = Some (OPtrs cells) -> cells !! i = Some (Init (Loc lo)) ->
  heap w !! lo = Some (OSymbol s) -> (exists len, ms_lengthl s = Init len) -> chosen latm max s = true -> shared_state valof share pre v n ->
  (forall ps w', heap w' = heap w -> proposals (trace w') = proposals (trace w) ++ ps -> offered (pre ++ s :: ss) (length pre) ps false -> Q None w') ->
  (forall v' n' ps w', heap w' = heap w -> proposals (trace w') = proposals (trace w) ++ ps -> shared_state valof share (pre ++ [s]) v' (Init n') ->
     (forall ps' ok, offered (pre ++ s :: ss) (S (length pre)) ps' ok -> offered (pre ++ s :: ss) (length pre) (ps ++ ps') ok) ->
     Q (Some (v', Init n')) w') ->
  wp (recognize_push (Loc l) o g (Loc la) max (Z.of_nat i) (v, n)) Q w.
Proof using H1 Hval Hlog Hr.
  intros Hl Hla Hc Hlo [len Hlen] Hch Hst HQ0 HQ1. unfold recognize_push.
  apply wp_bind. eapply wp_load_cell; [done|lia|by rewrite Nat2Z.id|].
  apply wp_bind. eapply wp_load; [done|]. apply wp_bind. rewrite Hlen. apply wp_ret.
  unfold chosen in Hch. rewrite Hlen in Hch. rewrite (decide_bool_decide (rc_longestAcceptableTokenMatchb o = MARPAWRAPPER_BOOL_TRUE)).
  fold latm. rewrite Hch.
  assert (bool_decide (rc_longestAcceptableTokensShareTheSameValueAndLengthb o = MARPAWRAPPER_BOOL_FALSE) = negb share) as ->.
  { unfold share. by rewrite bool_decide_not, negb_involutive. }
  set (all := pre ++ s :: ss) in *. assert (all !! length pre = Some s) as Hs by (unfold all; by rewrite lookup_app_r, Nat.sub_diag by lia).
  (* the offer, once the value and length are known *)
  assert (forall t v' n' w1, heap w1 = heap w -> proposals (trace w1) = proposals (trace w) ++ asks g valof share all (length pre) s ->
    all !! giver valof share all (length pre) = Some t -> valof (symbol_data t) = Some (v', n') ->
    wp (l0 ← read_init (Init n');
        rc ← marpaWrapper_r_alternativeb (Loc l) (Loc lo) v' l0;
        if decide (rc = MARPAWRAPPER_BOOL_FALSE) then mret None else mret (Some (v', Init n'))) Q w1) as Hoffer.
  { intros t v' n' w1 Hh1 Hp1 Ht Hv. apply wp_bind, wp_ret. apply wp_bind. eapply wp_alternativeb; [by rewrite Hh1|done|by rewrite Hh1|].
    intros rc w2 Hh2 Hp2. rewrite Hp1, <- (assoc_L (++)) in Hp2. rewrite Hh1 in Hh2. destruct (rc =? MARPA_ERR_NONE) eqn:Erc.
    - rewrite decide_False by done. apply wp_ret. apply Z.eqb_eq in Erc as ->. eapply HQ1; [done|done|by eapply shared_step|].
      intros ps' ok Hps. rewrite <- (assoc_L (++)). by eapply offers_next.
    - rewrite decide_True by done. apply wp_ret. eapply HQ0; [done|done|]. eapply offers_refused; [done..|]. by apply Z.eqb_neq. }
  apply wp_bind. destruct (negb share || (v =? 0)) eqn:Eask.
  - pose proof (shared_asks _ _ _ s ss _ _ Hst Eask) as Hg. fold all in Hg.
    apply wp_bind. eapply wp_mono; [apply Hval|]. intros r w1 (Hh1&Hp1&Hres). fold (symbol_data s) in *.
    destruct (valof (symbol_data s)) as [[v' n']|] eqn:Ev.
    + subst r. apply wp_ret. rewrite decide_False by done. eapply (Hoffer s); [done| |by rewrite Hg|done].
      unfold asks. by rewrite decide_True.
    + destruct r as [[rc v'] n']. simpl in Hres. subst rc. apply wp_ret. rewrite decide_True by done. apply wp_ret.
      eapply HQ0; [done|done|]. by apply offers_failed.
  - destruct (shared_given _ _ _ s ss _ _ Hst Eask) as (Hg&t&k&Ht&->&Hv). fold all in Hg, Ht.
    apply wp_ret. rewrite decide_False by done. apply (Hoffer t); [done| |done|done]. unfold asks. by rewrite decide_False, app_nil_r.
Qed.

Lemma wp_push_loop w pre ls ss i v n :
  wrapper_at (heap w) l mw -> heap w !! la = Some (OPtrs cells) ->
  take (length ls) (drop i cells) = Init <$> (Loc <$> ls) -> symbols_at (heap w) ls ss ->
  Forall (fun s => exists n, ms_lengthl s = Init n) ss -> shared_state valof share pre v n ->
  wp (recognize_push_loop (length ls) (Loc l) o g (Loc la) max (Z.of_nat i) (v, n))
     (fun r w' => heap w' = heap w /\ exists ps, proposals (trace w') = proposals (trace w) ++ ps
        /\ offered (pre ++ filter (fun s => Is_true (chosen latm max s)) ss) (length pre) ps (bool_decide (r <> None))) w.
Proof using H1 Hval Hlog Hr.
  revert w pre ss i v n.
  induction ls as [|lo ls IH]; intros w pre ss i v n Hl Hla Hd Hss Hlen Hst; inversion Hss as [|? s ? ss' Hlo Hss']; subst.
  { apply wp_ret. split; [done|]. exists []. split; [by rewrite app_nil_r|]. apply offers_all. simpl. rewrite app_nil_r. by apply lookup_ge_None_2. }
  cbn [recognize_push_loop length]. apply Forall_cons_1 in Hlen as [Hs Hlen]. apply take_drop_cons in Hd as [Hc Hd].
  replace (Z.of_nat i + 1) with (Z.of_nat (S i)) by lia. rewrite filter_cons. destruct (decide (Is_true (chosen latm max s))) as [Hch|Hch].
  - apply wp_bind. eapply wp_push_taken; [done|done|done|done|done|by apply Is_true_true|done| |].
    + intros ps w1 Hh1 Hp1 Hps. apply wp_ret. split; [done|]. by exists ps.
    + intros v' n' ps w1 Hh1 Hp1 Hst1 Hnext. eapply wp_mono; [apply (IH w1 (pre ++ [s]) ss'); [by rewrite Hh1|by rewrite Hh1|done|by rewrite Hh1|done|done]|].
      intros r w2 (Hh2&ps'&Hp2&Hps'). split; [congruence|]. exists (ps ++ ps'). rewrite Hp2, Hp1, (assoc_L (++)). split; [done|].
      apply Hnext. rewrite length_app, Nat.add_1_r, <- (assoc_L (++)) in Hps'. exact Hps'.
  - unfold recognize_push. apply wp_bind. destruct Hs as [len Hs].
    apply wp_bind. eapply wp_load_cell; [done|lia|by rewrite Nat2Z.id|]. apply wp_bind. eapply wp_load; [done|]. apply wp_bind. rewrite Hs. apply wp_ret.
    unfold chosen in Hch. rewrite Hs in Hch. rewrite (decide_bool_decide (rc_longestAcceptableTokenMatchb o = MARPAWRAPPER_BOOL_TRUE)). fold latm.
    destruct (if latm then _ else _); [by destruct Hch|]. apply wp_ret. by apply (IH w pre ss').
Qed.
End loop.
End push.

(** ** Properties *)

(** The comparator of progress items is a total preorder whose only ties are items
    with the same rule and position: what [qsort()] needs, and more. *)
Theorem marpaWrapper_progress_cmp_orders :
  cmp_consistent marpaWrapper_progress_cmp (fun _ => True)
  /\ forall p1 p2, marpaWrapper_progress_cmp p1 p2 = 0 <-> p1 = p2.
Proof.
  split; [apply progress_cmp_consistent|]. intros [r1 p1] [r2 p2]. unfold marpaWrapper_progress_cmp. simpl.
  rewrite !Z.gtb_ltb. split; [|intros [= -> ->]; by rewrite !Z.ltb_irrefl].
  repeat case_match; try discriminate; Zbool. intros _. f_equal; lia.
Qed.

(** Between symbols whose first character is known, the comparator of expected
    terminals is a total preorder, and the sorted array has the largest fixed sizes first
    (what the longest-match loop relies on to skip the short ones). *)
Theorem marpaWrapper_symbol_cmp_orders (keys : list (Z * Z)) :
  Forall (fun k => 0 <= k.2) keys ->
  cmp_consistent marpaWrapper_symbol_cmp_by_sizelDesc_firstCharDesc (fun s => 0 <= s.2)
  /\ qsort marpaWrapper_symbol_cmp_by_sizelDesc_firstCharDesc keys ≡ₚ keys
  /\ StronglySorted (fun a b => b.1 <= a.1) (qsort marpaWrapper_symbol_cmp_by_sizelDesc_firstCharDesc keys).
Proof.
  intros Hk. split; [apply symbol_cmp_consistent|]. split; [apply qsort_perm|].
  pose proof (qsort_sorted _ _ keys symbol_cmp_consistent Hk) as Hs.
  pose proof (qsort_Forall marpaWrapper_symbol_cmp_by_sizelDesc_firstCharDesc _ keys Hk) as Hk'.
  induction Hs as [|a l Hs IH Ha]; [constructor|]. apply Forall_cons_1 in Hk' as [Hka Hkl].
  constructor; [by apply IH|]. apply Forall_forall. intros b Hb. rewrite Forall_forall in Ha, Hkl.
  specialize (Ha b Hb). apply symbol_cmp_spec in Ha; [lia|done|by apply Hkl].
Qed.

(** A defect: two symbols of the same size whose first character is unknown (the
    documented default) are each greater than the other, so that the comparator handed to
    [qsort()] is not an order. *)
Theorem marpaWrapper_symbol_cmp_inconsistent n c1 c2 P :
  c1 < 0 -> c2 < 0 -> P (n, c1) -> P (n, c2) ->
  ~ cmp_consistent marpaWrapper_symbol_cmp_by_sizelDesc_firstCharDesc P.
Proof.
  intros Hc1 Hc2 P1 P2 [Htot _]. destruct (Htot _ _ P1 P2) as [Hc|Hc];
    unfold marpaWrapper_symbol_cmp_by_sizelDesc_firstCharDesc in Hc;
    rewrite Z.ltb_irrefl, Z.eqb_refl, (proj2 (Z.ltb_lt _ _)) in Hc by done; lia.
Qed.

Section theorems.
Context `{LogNeutral}.
Implicit Types (w : world).

(** A defect: the default options leave [firstChari] indeterminate, and the sort of
    two or more expected terminals reads it. *)
Theorem default_symbol_sort_undef w la l1 l2 s1 ps rest :
  heap w !! la = Some (OPtrs ((Init <$> (Loc l1 :: Loc l2 :: ps)) ++ rest)) ->
  heap w !! l1 = Some (OSymbol s1) -> ms_marpaWrapperSymbolOption s1 = symbol_option None ->
  goes_undef (qsort_ptrs (Loc la) (length (Loc l1 :: Loc l2 :: ps)) symbol_key
    marpaWrapper_symbol_cmp_by_sizelDesc_firstCharDesc) w.
Proof.
  intros Hla Hl1 Ho. unfold qsort_ptrs. apply goes_undef_later. eapply wp_read_cells; [exact Hla|].
  rewrite decide_False by (simpl; lia). apply goes_undef_now. cbn [length for_loop].
  apply goes_undef_now. simpl lookup. apply goes_undef_now. unfold symbol_key. apply goes_undef_later.
  eapply wp_load; [done|]. apply goes_undef_now. rewrite Ho. by eexists.
Qed.

(** The array of the progress report, once sorted, holds the same items, by ascending
    rule and position. *)
Theorem progress_report_sorted w l (ps : list ptr) rest (key : ptr -> Z * Z) :
  heap w !! l = Some (OPtrs ((Init <$> ps) ++ rest)) ->
  (forall p, p ∈ ps -> exists lp lr pr r, p = Loc lp /\ heap w !! lp = Some (OProgress pr)
     /\ mp_marpaWrapperRulep pr = Loc lr /\ heap w !! lr = Some (ORule r) /\ key p = (mr_marpaRuleIdi r, mp_positioni pr)) ->
  wp (qsort_ptrs (Loc l) (length ps) progress_key marpaWrapper_progress_cmp)
     (fun _ w' => exists ps', ps' ≡ₚ ps /\ heap w' = <[l := OPtrs ((Init <$> ps') ++ rest)]> (heap w)
        /\ StronglySorted (fun p q => (key p).1 < (key q).1 \/ (key p).1 = (key q).1 /\ (key p).2 <= (key q).2) ps') w.
Proof.
  intros Hl Hk. eapply (wp_qsort_ptrs _ _ _ _ _ key); [done| |].
  - intros p Hp. destruct (Hk p Hp) as (lp&lr&pr&r&->&Hlp&Hpr&Hlr&Hkey). unfold progress_key.
    apply wp_bind. eapply wp_load; [done|]. rewrite Hpr. apply wp_bind. eapply wp_load; [done|]. by apply wp_ret.
  - eexists. split; [apply qsort_perm|]. split; [done|].
    assert (cmp_consistent (fun a b => marpaWrapper_progress_cmp (key a) (key b)) (fun _ => True)) as Hc.
    { split; intros; rewrite !progress_cmp_spec in *; lia. }
    pose proof (qsort_sorted _ _ ps Hc ltac:(by apply Forall_true)) as Hs.
    induction Hs as [|a q Hs IH Ha]; [constructor|]. constructor; [done|].
    eapply Forall_impl; [done|]. intros b. apply progress_cmp_spec.
Qed.
End theorems.

Section latm_theorems.
Context `{Env}.
Implicit Types (w : world).

(** C35. The check of the expected terminals, in both modes: the length found is the
    longest lexeme among them all (the terminals skipped for their fixed size included), 0 when
    there is none, and when it is positive the symbols marked with that length are exactly
    those whose lexeme has it.  The callback is assumed to answer by the data of the symbol, and
    the fixed sizes to be honest: a lexeme is never longer than the fixed size, if any, of its
    symbol ([sizes_honest]). *)
Theorem recognize_check_longest w f lex latm la cells ls ss len :
  answers_lexemes f lex -> sizes_honest lex ss ->
  heap w !! la = Some (OPtrs cells) -> take (length ls) cells = Init <$> (Loc <$> ls) ->
  symbols_at (heap w) ls ss -> NoDup (la :: ls) ->
  wp (for_loop (length ls) 0 (recognize_check latm f (Loc la)) (0, len))
     (fun r w' => r.1 = longest lex ss /\ calm w w' /\ (forall k, k ∉ ls -> heap w' !! k = heap w !! k)
        /\ exists ss', symbols_at (heap w') ls ss'
        /\ Forall2 (fun s s' => 0 < longest lex ss ->
             (ms_lengthl s' = Init (longest lex ss) <-> symbol_lex lex s = Some (longest lex ss))) ss ss') w.
Proof.
  intros Hans Hs Hla Ht Hss Hnd.
  destruct (check_all_longest lex (bool_decide (latm = MARPAWRAPPER_BOOL_TRUE)) ss 0 Hs ltac:(lia)) as [Hm Hf].
  assert (0 <= longest lex ss) as Hpos.
  { clear. induction ss as [|s ss IH]; unfold longest in *; simpl; lia. }
  rewrite Z.max_r in Hm by done.
  eapply (wp_check_loop f lex latm w la cells ls ss 0 0 len); [done|done|done|done|done|].
  intros w' len' Hs' Hfr Hq. simpl. rewrite Hm. split_and!; [done|done|done|]. eexists. split; [exact Hs'|].
  eapply Forall2_impl; [exact Hf|]. intros s s' Hss' Hlong. apply Hss'; [by rewrite Hm|done].
Qed.

End latm_theorems.

Section push_theorems.
Context `{LogNeutral}.
Implicit Types (w : world).

(** C36. The proposals of a round.  The expected terminals taken are those whose lexeme has the
    length retained (in longest-match mode) or a positive length (otherwise), in order.  Each
    is offered to libmarpa with the value and length of the user's callback: those of its own
    symbol, unless the options say that they are shared and an earlier one taken has given a
    value other than 0, in which case they are those of the first such and the callback is not
    called again; a value of 0 counts as none, and the callback is called for the next
    symbol.  The loop ends with success when everything was offered and accepted, and at the
    first failure of the callback or refusal of libmarpa otherwise, whatever libmarpa answers;
    the heap is unchanged.  The callback is assumed to answer by the data of the symbol and to
    store both numbers when it succeeds, and neither it nor the log callbacks to change the heap or
    to propose anything themselves; logging works ([LogNeutral]). *)
Theorem recognize_push_alternatives w l mw o g valof la cells ls ss max n :
  answers_values g valof -> (forall id ud level msgs, keeps proposals (user_ (ULog (FnUser id) ud level msgs))) ->
  wrapper_at (heap w) l mw -> mw_marpaRecognizerp mw <> 0 ->
  heap w !! la = Some (OPtrs cells) -> take (length ls) cells = Init <$> (Loc <$> ls) -> symbols_at (heap w) ls ss ->
  Forall (fun s => exists n, ms_lengthl s = Init n) ss ->
  let latm := bool_decide (rc_longestAcceptableTokenMatchb o = MARPAWRAPPER_BOOL_TRUE) in
  let share := bool_decide (rc_longestAcceptableTokensShareTheSameValueAndLengthb o <> MARPAWRAPPER_BOOL_FALSE) in
  let taken := filter (fun s => Is_true (chosen latm max s)) ss in
  wp (recognize_push_loop (length ls) (Loc l) o g (Loc la) max 0 (0, n))
     (fun r w' => heap w' = heap w /\ exists ps, proposals (trace w') = proposals (trace w) ++ ps
        /\ offers g valof (mw_marpaRecognizerp mw) share taken 0 ps (bool_decide (r <> None))) w.
Proof.
  intros Hval Hlog Hl Hr Hla Ht Hss Hlen latm share taken.
  by apply (wp_push_loop g valof Hval Hlog l mw o la cells max Hr w [] ls ss 0 0 n).
Qed.
End push_theorems.

(** ** Witnesses *)
Lemma marpaWrapper_symbol_cmp_orders_witness :
  qsort marpaWrapper_symbol_cmp_by_sizelDesc_firstCharDesc [(1, 97); (3, 98); (1, 99)] ≡ₚ [(1, 97); (3, 98); (1, 99)].
Proof. apply (marpaWrapper_symbol_cmp_orders [(1, 97); (3, 98); (1, 99)]). repeat constructor; simpl; lia. Defined.

Lemma marpaWrapper_symbol_cmp_inconsistent_witness :
  ~ cmp_consistent marpaWrapper_symbol_cmp_by_sizelDesc_firstCharDesc (fun _ => True).
Proof. apply (marpaWrapper_symbol_cmp_inconsistent 0 (-1) (-1)); [reflexivity|reflexivity|exact I|exact I]. Defined.

Definition demo_terminal (id : Z) (d : ptr) (sizel : Z) (c : init Z) : marpaWrapperSymbol :=
  MarpaWrapperSymbol id (Loc 1) (MarpaWrapperSymbolOption d MARPAWRAPPER_BOOL_TRUE MARPAWRAPPER_BOOL_FALSE 0 sizel c) Uninit Uninit.

Definition demo_default_heap : gmap positive obj :=
  {[ 9%positive := OPtrs [Init (Loc 2); Init (Loc 3)]; 2%positive := OSymbol (new_symbol 1 0 None) ]}.

Lemma default_symbol_sort_undef_witness :
  goes_undef (qsort_ptrs (Loc 9) 2 symbol_key marpaWrapper_symbol_cmp_by_sizelDesc_firstCharDesc)
    (demo_world demo_default_heap []).
Proof.
  exact (default_symbol_sort_undef (demo_world demo_default_heap []) 9 2 3 (new_symbol 1 0 None) [] [] eq_refl eq_refl eq_refl).
Defined.

Definition demo_progress_heap : gmap positive obj :=
  {[ 9%positive := OPtrs [Init (Loc 2); Init (Loc 3); Init Null];
     2%positive := OProgress (MarpaWrapperProgress 0 0 (Loc 5) 1); 3%positive := OProgress (MarpaWrapperProgress 0 0 (Loc 5) 0);
     5%positive := ORule (MarpaWrapperRule 0 (Loc 1) demo_rule_option) ]}.
Definition demo_progress_key (p : ptr) : Z * Z := if decide (p = Loc 2) then (0, 1) else (0, 0).

Lemma progress_report_sorted_witness :
  exists w', qsort_ptrs (Loc 9) 2 progress_key marpaWrapper_progress_cmp (demo_world demo_progress_heap []) = Done tt w'.
Proof.
  destruct (wp_run _ _ _ (progress_report_sorted (demo_world demo_progress_heap []) 9 [Loc 2; Loc 3] [Init Null] demo_progress_key
    eq_refl ltac:(intros p Hp; apply elem_of_cons in Hp as [->|Hp];
      [by eexists 2%positive, 5%positive, _, _|];
      apply elem_of_cons in Hp as [->|Hp%elem_of_nil]; [by eexists 3%positive, 5%positive, _, _|done]))) as ([]&w'&Hrun&_).
  exists w'. exact Hrun.
Defined.

(** Lexemes are as long as the text their symbol points to, and libmarpa takes them all. *)
Definition demo_lex (d : ptr) : option Z :=
  match d with Lit (Str s) => Some (Z.of_nat (String.length s)) | _ => None end.

(** Their value is that length too, and they are one earleme long. *)
Definition demo_value (d : ptr) : option (Z * Z) :=
  match d with Lit (Str s) => Some (Z.of_nat (String.length s), 1) | _ => None end.

Definition demo_env_lex : Env := {|
  marpa_run R c m := match c in mcall R return R * list Z with
                     | marpa_r_alternative _ _ _ _ => (0, m)
                     | c => demo_marpa c m
                     end;
  user_run R c := match c in ucall R return M R with
                  | UIsLexeme _ d => mret (match demo_lex d with
                                           | Some n => (MARPAWRAPPER_BOOL_TRUE, Some n)
                                           | None => (MARPAWRAPPER_BOOL_FALSE, None)
                                           end)
                  | ULexemeValue _ d => mret (match demo_value d with
                                              | Some (v, n) => (MARPAWRAPPER_BOOL_TRUE, Some v, Some n)
                                              | None => (MARPAWRAPPER_BOOL_FALSE, None, None)
                                              end)
                  | c => demo_user c
                  end;
  strerror _ := "error"%string;
  vsnprintf_fails _ := false;
  ptr_string _ := "p"%string;
  time_now _ := 0;
  localtime t := Some t;
  strftime_out _ _ := "01/01/1970 00:00:00"%string;
  write_result u s := (Z.of_nat (String.length s), u);
  loop_fuel := 100%nat
|}.

Lemma demo_answers_lexemes : answers_lexemes (H0 := demo_env_lex) (FnUser 1) demo_lex.
Proof.
  intros d w. apply wp_ret. split; [done|]. split; [|done]. split; [|done]. simpl. by rewrite live_snoc.
Qed.

Lemma demo_answers_values : answers_values (H0 := demo_env_lex) (FnUser 2) demo_value.
Proof.
  intros d w. apply wp_ret. split; [done|]. split; [simpl; by rewrite proposals_snoc|]. destruct d as [|[]|]; done.
Qed.

Lemma demo_lex_logNeutral : LogNeutral (H0 := demo_env_lex).
Proof.
  split.
  - intros id ud level msgs w. apply wp_ret. split; [done|]. split; [|done]. split; [done|]. simpl. by rewrite live_snoc.
  - intros t. by exists t.
  - done.
  - simpl. lia.
  - done.
Qed.

Lemma demo_log_proposes id ud level msgs :
  keeps (H := demo_platform) proposals (user_ (H0 := demo_env_lex) (ULog (FnUser id) ud level msgs)).
Proof. intros w. unfold wlp, user_. simpl. by rewrite proposals_snoc, app_nil_r. Qed.

Definition demo_terminals : list marpaWrapperSymbol :=
  [demo_terminal 0 (Lit (Str "while")) 5 (Init 119); demo_terminal 1 (Lit (Str "whiles")) 0 (Init 119); demo_terminal 2 Null 0 (Init 0)].
Definition demo_terminals_heap : gmap positive obj :=
  {[ 1%positive := OWrapper demo_mw; 9%positive := OPtrs [Init (Loc 2); Init (Loc 3); Init (Loc 4); Uninit];
     2%positive := OSymbol (demo_terminal 0 (Lit (Str "while")) 5 (Init 119));
     3%positive := OSymbol (demo_terminal 1 (Lit (Str "whiles")) 0 (Init 119));
     4%positive := OSymbol (demo_terminal 2 Null 0 (Init 0)) ]}.

Lemma recognize_check_longest_witness :
  exists r w', for_loop 3 0 (recognize_check (H0 := demo_env_lex) MARPAWRAPPER_BOOL_TRUE (FnUser 1) (Loc 9)) (0, Uninit)
    (demo_world demo_terminals_heap []) = Done r w' /\ r.1 = 6.
Proof.
  destruct (wp_run _ _ _ (recognize_check_longest (H0 := demo_env_lex) (demo_world demo_terminals_heap []) (FnUser 1) demo_lex
    MARPAWRAPPER_BOOL_TRUE 9 _ [2%positive; 3%positive; 4%positive] demo_terminals Uninit demo_answers_lexemes
    ltac:(repeat (apply Forall_cons; split; [by intros n [= <-]|]); by apply Forall_nil)
    eq_refl eq_refl ltac:(repeat constructor) ltac:(apply (bool_decide_unpack _); by vm_compute))) as (r&w'&Hrun&Hr&_).
  exists r, w'. split; [exact Hrun|exact Hr].
Defined.

Definition demo_latm_option : marpaWrapperRecognizerOption_t :=
  MarpaWrapperRecognizerOption MARPAWRAPPER_BOOL_TRUE MARPAWRAPPER_BOOL_TRUE MARPAWRAPPER_BOOL_TRUE None Null None None.

Definition demo_checked (s : marpaWrapperSymbol) (n : Z) : marpaWrapperSymbol := with_length s (Some MARPAWRAPPER_BOOL_TRUE) n.
Definition demo_checked_symbols : list marpaWrapperSymbol :=
  [demo_checked (demo_terminal 0 (Lit (Str "whiles")) 0 (Init 119)) 6;
   demo_checked (demo_terminal 1 (Lit (Str "while")) 5 (Init 119)) 5;
   demo_checked (demo_terminal 2 (Lit (Str "while8")) 0 (Init 119)) 6].
Definition demo_checked_heap : gmap positive obj :=
  {[ 1%positive := OWrapper demo_mw; 9%positive := OPtrs [Init (Loc 2); Init (Loc 3); Init (Loc 4)];
     2%positive := OSymbol (demo_checked (demo_terminal 0 (Lit (Str "whiles")) 0 (Init 119)) 6);
     3%positive := OSymbol (demo_checked (demo_terminal 1 (Lit (Str "while")) 5 (Init 119)) 5);
     4%positive := OSymbol (demo_checked (demo_terminal 2 (Lit (Str "while8")) 0 (Init 119)) 6) ]}.

(** Two of three symbols have the longest lexeme: the callback is called once, for the first. *)
Lemma recognize_push_alternatives_witness :
  exists r w', recognize_push_loop (H0 := demo_env_lex) 3 (Loc 1) demo_latm_option (FnUser 2) (Loc 9) 6 0 (0, Uninit)
    (demo_world demo_checked_heap []) = Done r w'
    /\ proposals (trace w') = [Asked (FnUser 2) (Lit (Str "whiles")); Offered (mw_marpaRecognizerp demo_mw) 0 6 1 0; Offered (mw_marpaRecognizerp demo_mw) 2 6 1 0]
    /\ offers (FnUser 2) demo_value (mw_marpaRecognizerp demo_mw) true
         [demo_checked (demo_terminal 0 (Lit (Str "whiles")) 0 (Init 119)) 6; demo_checked (demo_terminal 2 (Lit (Str "while8")) 0 (Init 119)) 6]
         0 (proposals (trace w')) true.
Proof.
  destruct (wp_run _ _ _ (recognize_push_alternatives (H0 := demo_env_lex) (H1 := demo_lex_logNeutral) (demo_world demo_checked_heap []) 1 demo_mw
    demo_latm_option (FnUser 2) demo_value 9 _ [2%positive; 3%positive; 4%positive] demo_checked_symbols 6 Uninit demo_answers_values demo_log_proposes
    (conj eq_refl (or_introl eq_refl)) ltac:(done) eq_refl eq_refl ltac:(repeat constructor) ltac:(repeat constructor; by eexists))) as (r&w'&Hrun&_&ps&Hp&Ho).
  exists r, w'. split; [exact Hrun|]. simpl in Hp. rewrite Hp. vm_compute in Hrun. injection Hrun as <- <-. vm_compute in Hp. subst ps.
  split; [reflexivity|exact Ho].
Defined.
