(* ===== verification/Refs.v ===== *)
(** * The libmarpa references the program takes and gives back

    [refs_kept m] is [keeps live m]: however the action [m] ends normally, the references to
    libmarpa objects that are alive after it are those that were alive before.  Everything but
    construction, destruction, [marpaWrapper_r_startb] and the parts of [marpaWrapper_vb]
    has this property, whatever libmarpa, the allocator and the user's functions answer. *)
From S2P Require Import Prelude Types External Runtime Demo ManageBuf GenericStack MessageBuilder Logger WrapperLog Wrapper Events Grammar Recognizer Value.

Abbreviation refs_kept := (keeps live).

(** The user's functions do not themselves take or release libmarpa references. *)
Class UserKeepsRefs `{Env} : Prop := user_keeps : forall R (c : ucall R), refs_kept (user_ c).

Section components.
Context `{UserKeepsRefs}.

Lemma refs_marpa {R} (c : mcall R) : (forall r, call_refs c r = id) -> refs_kept (marpa_ c).
Proof. intros Hc. apply keeps_marpa. intros t r. rewrite live_snoc. cbn [live_step]. by rewrite Hc. Qed.

Lemma refs_user {R} (c : ucall R) : refs_kept (user_ c).
Proof. apply user_keeps. Qed.

Lemma refs_int_add a b : refs_kept (int_add a b).
Proof. unfold int_add. by case_decide. Qed.

#[export] Instance refs_unwatched : Unwatched live.
Proof. split; [intros; apply live_snoc..|]. intros. apply user_keeps. Qed.
End components.
#[export] Hint Resolve refs_user refs_int_add : keeps.
#[export] Hint Extern 2 (keeps live (marpa_ _)) => apply refs_marpa; reflexivity : keeps.

(** ** Buffers *)
Section buffers.
Context `{UserKeepsRefs}.

Lemma refs_manageBuf_createp pp s n e : refs_kept (manageBuf_createp pp s n e).
Proof.
  unfold manageBuf_createp, manageBuf_fill. apply keeps_bind; [|intros ?; keeps].
  generalize manageBuf_fuel. intros fuel. generalize s at 2 as prev. intros prev. revert pp s prev.
  induction fuel as [|fuel IH]; intros pp s prev; simpl; keeps.
Qed.
Lemma refs_manageBuf_freev pp s n : refs_kept (manageBuf_freev pp s n).
Proof. unfold manageBuf_freev. keeps. Qed.

End buffers.
#[export] Hint Resolve refs_manageBuf_createp refs_manageBuf_freev : keeps.

(** ** The stack of values *)
Section stack.
Context `{UserKeepsRefs}.

Lemma refs_call_failure f e n ud : refs_kept (call_failure f e n ud).
Proof. simpl. unfold marpaWrapperStackFailureCallback. keeps. Qed.
Lemma refs_freeCallback p ud : refs_kept (marpaWrapperStackFreeCallback p ud).
Proof. unfold marpaWrapperStackFreeCallback. keeps. Qed.
Lemma refs_call_free f p ud : refs_kept (call_free f p ud).
Proof. simpl. unfold marpaWrapperStackFreeCallback. keeps. Qed.
Lemma refs_call_copy f d s ud : refs_kept (call_copy f d s ud).
Proof. simpl. unfold marpaWrapperStackCopyCallback. keeps. Qed.
Hint Resolve refs_call_failure refs_call_free refs_call_copy : keeps.
Lemma refs_report f e n ud : refs_kept (report f e n ud).
Proof. unfold report. keeps. Qed.
Hint Resolve refs_report : keeps.
Lemma refs_report_option o e n : refs_kept (report_option o e n).
Proof. unfold report_option. keeps. Qed.
Lemma refs_report_stack s e n : refs_kept (report_stack s e n).
Proof. unfold report_stack. keeps. Qed.
Hint Resolve refs_report_option refs_report_stack : keeps.
Lemma refs_stack_newp n o : refs_kept (genericStack_newp n o).
Proof. unfold genericStack_newp. keeps. Qed.
Lemma refs_freeElement s p : refs_kept (genericStack_freeElement s p).
Proof. unfold genericStack_freeElement. keeps. Qed.
Hint Resolve refs_freeElement : keeps.
Lemma refs_stack_destroyv p : refs_kept (genericStack_destroyv p).
Proof. unfold genericStack_destroyv. keeps. Qed.
Lemma refs_memcpy d s n : refs_kept (memcpy d s n).
Proof. unfold memcpy. keeps. Qed.
Hint Resolve refs_memcpy : keeps.
Lemma refs_stack_grow s : refs_kept (genericStack_grow s).
Proof. unfold genericStack_grow. keeps. Qed.
Lemma refs_copyElement s p : refs_kept (genericStack_copyElement s p).
Proof. unfold genericStack_copyElement. keeps. Qed.
Hint Resolve refs_stack_grow refs_copyElement : keeps.
Lemma refs_stack_pushi s p : refs_kept (genericStack_pushi s p).
Proof. unfold genericStack_pushi. keeps. Qed.
Hint Resolve refs_stack_pushi : keeps.
Lemma refs_growTo fuel s i : refs_kept (genericStack_growTo fuel s i).
Proof. induction fuel as [|fuel IH]; simpl; keeps. Qed.
Hint Resolve refs_growTo : keeps.
Lemma refs_stack_getp fuel s i : refs_kept (genericStack_getp fuel s i).
Proof. unfold genericStack_getp. keeps. Qed.
Lemma refs_stack_seti fuel s i p : refs_kept (genericStack_seti fuel s i p).
Proof. unfold genericStack_seti. keeps. Qed.
End stack.
#[export] Hint Resolve refs_freeCallback refs_stack_newp refs_stack_destroyv refs_stack_getp refs_stack_seti : keeps.
