(* ===== verification/ValueTheorems.v ===== *)
(** * Properties of the value phase *)
From S2P Require Import Prelude Types External Runtime Demo ManageBuf GenericStack MessageBuilder Logger WrapperLog Wrapper WrapperSpec Events Grammar GrammarTheorems Recognizer Value Refs.

(** ** The handles of the automatic variables *)

(** The references alive when the variables [v] hold their handles, over [base]. *)
Definition handles (v : vb_vars) (base : list (hkind * mhandle)) : list (hkind * mhandle) :=
  take_ref KValue (vv_marpaValuep v) (take_ref KTree (vv_marpaTreep v)
    (take_ref KOrder (vv_marpaOrderp v) (take_ref KBocage (vv_marpaBocagep v) base))).

(** Two sets of variables that hold the same handles. *)
Definition same_handles (v v' : vb_vars) : Prop :=
  vv_marpaBocagep v = vv_marpaBocagep v' /\ vv_marpaOrderp v = vv_marpaOrderp v'
  /\ vv_marpaTreep v = vv_marpaTreep v' /\ vv_marpaValuep v = vv_marpaValuep v'.

#[export] Instance same_handles_equiv : Equivalence same_handles.
Proof. split; unfold same_handles; [intros v|intros v1 v2|intros v1 v2 v3]; naive_solver congruence. Qed.

#[export] Instance handles_proper : Proper (same_handles ==> eq ==> eq) handles.
Proof. intros v v' (Hb&Ho&Ht&Hv) base ? <-. unfold handles. by rewrite Hb, Ho, Ht, Hv. Qed.

(** An action that takes and releases nothing and leaves the handles of [v] alone. *)
Definition vb_kept `{Platform} (v : vb_vars) (m : M vb_result) : Prop :=
  forall w, wlp m (fun r w' => live (trace w') = live (trace w) /\ same_handles r.1 v) w.

Section rules.
Context `{UserKeepsRefs}.
Implicit Types (w : world) (v : vb_vars).

Lemma wlp_marpa {R} (c : mcall R) (Q : R -> world -> Prop) w :
  (forall r w', live (trace w') = call_refs c r (live (trace w)) -> Q r w') -> wlp (marpa_ c) Q w.
Proof.
  intros HQ. unfold wlp, marpa_. destruct (marpa_run c (marpa w)) as [r m]. apply HQ.
  simpl. by rewrite live_snoc.
Qed.

Lemma wlp_refs {A} (m : M A) (Q : A -> world -> Prop) w :
  refs_kept m -> (forall a w', live (trace w') = live (trace w) -> Q a w') -> wlp m Q w.
Proof. intros Hm HQ. eapply wlp_mono; [apply Hm|]. auto. Qed.

Lemma vb_kept_ret v v' o : same_handles v' v -> vb_kept v (mret (v', o)).
Proof. by intros Hs w. Qed.

Lemma vb_kept_bind {A} v (m : M A) f : refs_kept m -> (forall a, vb_kept v (f a)) -> vb_kept v (m ≫= f).
Proof.
  intros Hm Hf w. apply wlp_bind, wlp_refs; [done|]. intros a w' Hw'.
  eapply wlp_mono; [apply Hf|]. intros r w'' [Hl Hs]. split; [congruence|done].
Qed.

Lemma vb_kept_then v (m : M vb_result) f :
  vb_kept v m -> (forall v' o, same_handles v' v -> vb_kept v' (f (v', o))) -> vb_kept v (m ≫= f).
Proof.
  intros Hm Hf w. apply wlp_bind. eapply wlp_mono; [apply Hm|]. intros [v' o] w' [Hw' Hs]. simpl in Hs.
  eapply wlp_mono; [by apply Hf|]. intros r w'' [Hl Hs']. split; [congruence|by etrans].
Qed.

Lemma vb_kept_undef v s : vb_kept v (undef s).
Proof. done. Qed.
Lemma vb_kept_fail v v' : same_handles v' v -> vb_kept v (vb_fail v').
Proof. apply vb_kept_ret. Qed.
Lemma vb_kept_fail_marpa p v v' : same_handles v' v -> vb_kept v (vb_fail_marpa p v').
Proof. intros. unfold vb_fail_marpa. apply vb_kept_bind; [auto with keeps|]. intros _. by apply vb_kept_fail. Qed.
Lemma vb_kept_fail_msg p s v v' : same_handles v' v -> vb_kept v (vb_fail_msg p s v').
Proof. intros. unfold vb_fail_msg. apply vb_kept_bind; [auto with keeps|]. intros _. by apply vb_kept_fail. Qed.

Ltac same := repeat (match goal with |- context [from_option _ _ ?x] => destruct x end; cbn [from_option]); done.

(** Structural decomposition, as [keeps]. *)
Ltac vb_kept :=
  repeat (cbv beta zeta;
    first
    [ apply vb_kept_fail_marpa; same | apply vb_kept_fail_msg; same | apply vb_kept_fail; same
    | apply vb_kept_ret; same | apply vb_kept_undef
    | match goal with
      | |- vb_kept _ (_ ≫= _) => apply vb_kept_bind; [solve [keeps]|intros ?]
      | |- vb_kept _ (if decide ?P then _ else _) => destruct (decide P)
      | |- vb_kept _ (if ?b then _ else _) => destruct b
      | |- vb_kept _ (match ?x with _ => _ end) => destruct x
      end ]).

Lemma vb_kept_set_result i v v' : same_handles v' v -> vb_kept v (vb_set_result i v').
Proof. intros Hs. unfold vb_set_result. vb_kept. Qed.

Lemma vb_kept_step_rule p o v v' : same_handles v' v -> vb_kept v (vb_step_rule p o v').
Proof. intros Hs. unfold vb_step_rule. vb_kept. apply vb_kept_set_result. same. Qed.

Lemma vb_kept_step_token p o v v' : same_handles v' v -> vb_kept v (vb_step_token p o v').
Proof. intros Hs. unfold vb_step_token. vb_kept. apply vb_kept_set_result. same. Qed.

Lemma vb_kept_step_nulling p o v v' : same_handles v' v -> vb_kept v (vb_step_nulling p o v').
Proof. intros Hs. unfold vb_step_nulling. vb_kept. apply vb_kept_set_result. same. Qed.

Lemma vb_kept_release_output p v v' : same_handles v' v -> vb_kept v (vb_release_output p v').
Proof. intros Hs. unfold vb_release_output. vb_kept. Qed.

Lemma vb_kept_result_callback p o v v' : same_handles v' v -> vb_kept v (vb_result_callback p o v').
Proof. intros Hs. unfold vb_result_callback. vb_kept. Qed.

Lemma vb_kept_mono v v' m : same_handles v v' -> vb_kept v m -> vb_kept v' m.
Proof. intros Hs Hm w. eapply wlp_mono; [apply Hm|]. intros r w' [? ?]. split; [done|by etrans]. Qed.

Lemma vb_kept_steps fuel p fd o v : vb_kept v (vb_steps fuel p fd o v).
Proof.
  revert v. induction fuel as [|fuel IH]; intros v; [done|]. cbn [vb_steps].
  apply vb_kept_bind; [keeps|]. intros step. cbv zeta. apply vb_kept_then.
  { repeat case_match; [by apply vb_kept_step_rule|by apply vb_kept_step_token|by apply vb_kept_step_nulling|by apply vb_kept_ret]. }
  intros v1 [rcb|] _; [by apply vb_kept_ret|]. apply vb_kept_then; [by apply vb_kept_release_output|].
  intros v2 [rcb|] _; [by apply vb_kept_ret|]. destruct (step =? MARPA_STEP_INACTIVE); [by apply vb_kept_ret|apply IH].
Qed.

(** ** One tree *)
Definition vb_owned (base : list (hkind * mhandle)) (r : vb_result) w : Prop :=
  live (trace w) = handles r.1 base.

(** The same for a part that holds no valuator when it ends without a jump. *)
Definition vb_owned_tree base (r : vb_result) w : Prop :=
  vb_owned base r w /\ (r.2 = None -> vv_marpaValuep r.1 = 0).

Lemma wlp_kept base v m Q w :
  vb_kept v m -> live (trace w) = handles v base ->
  (forall r w', vb_owned base r w' -> same_handles r.1 v -> Q r w') -> wlp m Q w.
Proof.
  intros Hm Hl HQ. eapply wlp_mono; [apply Hm|]. intros r w' [Hl' Hs]. apply HQ; [|done].
  unfold vb_owned. by rewrite Hl', Hl, Hs.
Qed.

Lemma wlp_fail_marpa p v w base Q :
  live (trace w) = handles v base ->
  (forall w', live (trace w') = handles v base -> Q (v, Some MARPAWRAPPER_BOOL_FALSE) w') ->
  wlp (vb_fail_marpa p v) Q w.
Proof.
  intros Hl HQ. unfold vb_fail_marpa. apply wlp_bind, wlp_refs; [auto with keeps|].
  intros _ w' Hw'. apply HQ. congruence.
Qed.

Lemma wlp_fail_msg p s v w base Q :
  live (trace w) = handles v base ->
  (forall w', live (trace w') = handles v base -> Q (v, Some MARPAWRAPPER_BOOL_FALSE) w') ->
  wlp (vb_fail_msg p s v) Q w.
Proof.
  intros Hl HQ. unfold vb_fail_msg. apply wlp_bind, wlp_refs; [auto with keeps|].
  intros _ w' Hw'. apply HQ. congruence.
Qed.

Lemma drop_take k h l : h <> 0 -> drop_ref (k, h) (take_ref k h l) = l.
Proof. intros Hh. unfold take_ref. rewrite (proj2 (Z.eqb_neq _ _)) by done. simpl. by rewrite decide_True. Qed.

Lemma wlp_value p fd n so o v w base :
  vv_marpaValuep v = 0 -> live (trace w) = handles v base ->
  wlp (vb_value p fd n so o v) (vb_owned_tree base) w.
Proof.
  intros Hv Hl. unfold vb_value. apply wlp_bind, wlp_marpa. intros val w1 Hl1. cbv zeta.
  set (v1 := vv_set_v val v).
  assert (live (trace w1) = handles v1 base) as Hl1'.
  { rewrite Hl1. simpl. rewrite Hl. unfold handles. by rewrite Hv. }
  clear Hl1. destruct (val =? 0) eqn:Eval; Zbool; [by eapply wlp_fail_marpa|].
  apply wlp_bind, wlp_marpa. intros rc w2 Hl2. simpl in Hl2. rewrite Hl1' in Hl2.
  destruct (rc <? 0); [by eapply wlp_fail_marpa|].
  apply wlp_bind, wlp_refs; [auto with keeps|]. intros stackp w3 Hl3. rewrite Hl2 in Hl3.
  set (v3 := vv_set_stack stackp v1). change (handles v1 base) with (handles v3 base) in Hl3.
  destruct (decide (stackp = Null)); [done|].
  apply wlp_bind. eapply wlp_kept; [apply vb_kept_steps|done|]. intros [v4 [rcb|]] w4 Hl4 Hs4; [done|].
  simpl in Hs4. unfold vb_owned in Hl4. simpl in Hl4.
  apply wlp_bind. eapply (wlp_kept _ v4); [by apply vb_kept_result_callback|done|].
  intros [v5 [rcb|]] w5 Hl5 Hs5; [done|]. simpl in Hs5. unfold vb_owned in Hl5. simpl in Hl5.
  apply wlp_bind, wlp_refs; [auto with keeps|]. intros s w6 Hl6. rewrite Hl5 in Hl6.
  apply wlp_bind, wlp_marpa. intros [] w7 Hl7. simpl in Hl7. split; [|done]. unfold vb_owned. simpl.
  rewrite Hl7, Hl6. unfold handles. simpl.
  assert (vv_marpaValuep v5 = val) as -> by (by destruct Hs5 as (_&_&_&->), Hs4 as (_&_&_&->)).
  by rewrite drop_take.
Qed.

Lemma wlp_trees fuel p fd n so o v w base :
  vv_marpaValuep v = 0 -> live (trace w) = handles v base ->
  wlp (vb_trees fuel p fd n so o v) (vb_owned base) w.
Proof.
  revert v w. induction fuel as [|fuel IH]; intros v w Hv Hl; [done|]. cbn [vb_trees].
  apply wlp_bind, wlp_marpa. intros t w1 Hl1. simpl in Hl1. rewrite Hl in Hl1.
  destruct (t <? 0); [done|]. apply wlp_bind. eapply wlp_mono; [by apply wlp_value|].
  intros [v2 [rcb|]] w2 [Hl2 Hv2]; [done|]. by apply IH; [apply Hv2|].
Qed.

(** ** The bocage, the order and the tree iterator *)
Lemma refs_check_order o order : refs_kept (vb_check_order o order).
Proof. unfold vb_check_order. keeps. Qed.

Lemma wlp_open p o w :
  wlp (vb_open p o vb_initial)
    (fun r w' => vb_owned (live (trace w)) r w' /\ vv_marpaValuep r.1 = 0) w.
Proof.
  unfold vb_open. apply wlp_bind, wlp_refs; [auto with keeps|]. intros mw w0 Hl0. cbv zeta.
  apply wlp_bind, wlp_marpa. intros set w1 Hl1. simpl in Hl1.
  apply wlp_bind, wlp_marpa. intros b w2 Hl2. simpl in Hl2. set (v2 := vv_set_b b vb_initial).
  assert (live (trace w2) = handles v2 (live (trace w))) as Hl2' by (rewrite Hl2, Hl1, Hl0; done).
  destruct (b =? 0); [by eapply wlp_fail_marpa|].
  apply wlp_bind, wlp_marpa. intros od w3 Hl3. simpl in Hl3. set (v3 := vv_set_o od v2).
  assert (live (trace w3) = handles v3 (live (trace w))) as Hl3' by (rewrite Hl3, Hl2'; done).
  destruct (od =? 0); [by eapply wlp_fail_marpa|].
  apply wlp_bind, wlp_refs; [apply refs_check_order|]. intros c w4 Hl4. rewrite Hl3' in Hl4.
  destruct c as [[msgs|]|]; [by eapply wlp_fail_msg|by eapply wlp_fail_marpa|].
  apply wlp_bind, wlp_marpa. intros t w5 Hl5. simpl in Hl5. set (v5 := vv_set_t t v3).
  assert (live (trace w5) = handles v5 (live (trace w))) as Hl5' by (rewrite Hl5, Hl4; done).
  destruct (t =? 0); [by eapply wlp_fail_marpa|]. done.
Qed.

(** ** The end label *)
Lemma wlp_unref_opt (c : mcall unit) k h l w Q :
  call_refs c = (fun _ => drop_ref (k, h)) -> live (trace w) = take_ref k h l ->
  (forall w', live (trace w') = l -> Q tt w') -> wlp (if h =? 0 then mret tt else marpa_ c) Q w.
Proof.
  intros Hc Hl HQ. unfold take_ref in Hl. destruct (h =? 0); [by apply HQ|].
  apply wlp_marpa. intros [] w' Hw'. apply HQ. rewrite Hw', Hc, Hl. simpl. by rewrite decide_True.
Qed.

Lemma wlp_end v w base :
  live (trace w) = handles v base -> wlp (vb_end v) (fun _ w' => live (trace w') = base) w.
Proof.
  intros Hl. unfold vb_end. apply wlp_bind, wlp_refs; [auto with keeps|]. intros out w1 Hl1.
  apply wlp_bind, wlp_refs; [keeps|]. intros _ w2 Hl2. apply wlp_bind, wlp_refs; [keeps|]. intros _ w3 Hl3.
  apply wlp_bind, wlp_refs; [keeps|]. intros _ w4 Hl4. rewrite Hl3, Hl2, Hl1, Hl in Hl4.
  apply wlp_bind. eapply wlp_unref_opt; [done|exact Hl4|]. intros w5 Hl5.
  apply wlp_bind. eapply wlp_unref_opt; [done|exact Hl5|]. intros w6 Hl6.
  apply wlp_bind. eapply wlp_unref_opt; [done|exact Hl6|]. intros w7 Hl7.
  by eapply wlp_unref_opt.
Qed.

Lemma refs_guards p so : refs_kept (vb_guards p so).
Proof. unfold vb_guards. keeps. Qed.

Lemma refs_vb p oo so : refs_kept (marpaWrapper_vb p oo so).
Proof.
  intros w. unfold marpaWrapper_vb. apply wlp_bind, wlp_refs; [apply refs_guards|]. intros [so'|] w1 Hl1.
  2:{ apply wlp_bind. eapply wlp_mono; [by apply (wlp_end _ _ (live (trace w1)))|]. intros [] w2 Hl2.
      unfold wlp, mret, M_ret. congruence. }
  apply wlp_bind, wlp_refs; [auto with keeps|]. intros fd w2 Hl2.
  apply wlp_bind, wlp_refs; [auto with keeps|]. intros cd w3 Hl3.
  assert (live (trace w3) = live (trace w)) as Hl by congruence.
  apply wlp_bind. eapply (wlp_mono _ (vb_owned (live (trace w)))).
  { unfold vb_body. apply wlp_bind. eapply wlp_mono; [apply wlp_open|]. rewrite Hl.
    intros [v4 [rcb|]] w4 [Ho Hv]; [done|]. by apply wlp_trees. }
  intros r w4 Ho. apply wlp_bind. eapply wlp_mono; [by apply wlp_end|]. intros [] w5 Hl5.
  apply wlp_bind, wlp_refs; [auto with keeps|]. intros [] w6 Hl6.
  apply wlp_bind, wlp_refs; [auto with keeps|]. intros [] w7 Hl7. unfold wlp, mret, M_ret. congruence.
Qed.
End rules.

(** ** Properties *)
Section theorems.
Context `{Env}.
Implicit Types (w : world).

(** C32. Resource safety: whatever libmarpa, the allocator and the user's callbacks answer,
    a call of [marpaWrapper_vb] that comes back has released every bocage, order, tree
    iterator and valuator it created, each exactly once, and nothing else. *)
Theorem marpaWrapper_vb_balanced `{!UserKeepsRefs} w p oo so rc w' :
  marpaWrapper_vb p oo so w = Done rc w' -> live (trace w') = live (trace w).
Proof. intros Hrun. pose proof (refs_vb p oo so w) as Hw. unfold wlp in Hw. by rewrite Hrun in Hw. Qed.

(** A defect: [valueOutputp] is not initialised, and the end label tests it.  The
    guards of the function jump there: a null wrapper, a missing stack option or a read
    phase that was not started is met with the use of an indeterminate pointer. *)
Theorem marpaWrapper_vb_guards_undef `{!LogNeutral} w p oo so :
  (p = Null \/ exists l mw, p = Loc l /\ wrapper_at (heap w) l mw
     /\ (so = None \/ mw_marpaRecognizerp mw = 0)) ->
  goes_undef (marpaWrapper_vb p oo so) w.
Proof.
  intros Hp. unfold marpaWrapper_vb. apply goes_undef_later.
  eapply (wp_mono _ (fun r _ => r = None)).
  - unfold vb_guards. destruct Hp as [->|(l&mw&->&Hmw&Hor)]; [by apply wp_ret|].
    rewrite decide_False by done. destruct so as [so|].
    + destruct Hor as [?|Hr]; [done|]. apply wp_bind. eapply wp_load; [apply Hmw|]. rewrite Hr.
      apply wp_bind. eapply wp_LOG_ERROR0; [done..|]. intros. by apply wp_ret.
    + apply wp_bind. eapply wp_LOG_ERROR0; [done..|]. intros. by apply wp_ret.
  - intros r w1 ->. apply goes_undef_now. unfold vb_end. apply goes_undef_now. by eexists.
Qed.

(** A defect: a failure of [marpa_v_step] is not recognised, and the valuator is asked
    for its next step for ever: no number of rounds is enough. *)
Theorem vb_steps_error_diverges w p fd o v fuel :
  (forall m, (marpa_run (marpa_v_step (vv_marpaValuep v)) m).1 = -2) ->
  vb_steps fuel p fd o v w = OutOfFuel.
Proof.
  intros Hstep. revert v w Hstep. induction fuel as [|fuel IH]; intros v w Hstep; [done|].
  cbn [vb_steps]. unfold mbind, M_bind, marpa_. specialize (Hstep (marpa w)) as Hw.
  destruct (marpa_run _ (marpa w)) as [r m] eqn:E. simpl in Hw. subst r. by apply IH.
Qed.

(** A defect: the element callbacks are called without a test, although their
    documented default is [NULL]: with it, the first value a rule, symbol or nulling
    callback hands over is the end of the program. *)
Theorem vb_release_default_undef w l d v out :
  heap w !! l = Some (OStackData d) -> sd_stackElementCallbackp d = None ->
  vv_valueOutputp v = Init out -> out <> Null ->
  goes_undef (vb_release_output (Loc l) v) w.
Proof.
  intros Hl Hd Hv Hout. unfold vb_release_output. rewrite Hv. apply goes_undef_later, wp_ret.
  rewrite decide_False by done. apply goes_undef_now. unfold marpaWrapperStackFreeCallback.
  apply goes_undef_later. eapply wp_load; [done|]. rewrite Hd. by eexists.
Qed.
End theorems.

(** ** Witnesses *)
#[export] Instance demo_userKeepsRefs : UserKeepsRefs (H0 := demo_env).
Proof.
  intros R c w. unfold wlp, user_. destruct c; simpl; unfold mret, M_ret; simpl; by rewrite live_snoc.
Qed.

(** A parse with one tree, whose valuator has nothing to do. *)
Definition demo_value_world : world := demo_world demo_heap [0; 11; 12; 1; 0; 13; 0; 14; 0; 5; -1].
Definition demo_stackOption : marpaWrapperStackOption_t := MarpaWrapperStackOption 8 None Null None Null.

Lemma marpaWrapper_vb_balanced_witness :
  exists w', marpaWrapper_vb (Loc 1) None (Some demo_stackOption) demo_value_world = Done MARPAWRAPPER_BOOL_TRUE w'
    /\ live (trace w') = [].
Proof.
  destruct (marpaWrapper_vb (Loc 1) None (Some demo_stackOption) demo_value_world) as [rc w'|why|] eqn:E.
  - exists w'. split.
    + assert (rc = MARPAWRAPPER_BOOL_TRUE) as Hrc; [|rewrite Hrc; reflexivity].
      apply (f_equal (fun o => match o with Done rc _ => rc | _ => MARPAWRAPPER_BOOL_TRUE end)) in E. rewrite <- E.
      vm_compute. reflexivity.
    + exact (marpaWrapper_vb_balanced demo_value_world (Loc 1) None (Some demo_stackOption) rc w' E).
  - exfalso. apply (f_equal (fun o => match o with Undef _ => true | _ => false end)) in E. vm_compute in E. discriminate E.
  - exfalso. apply (f_equal (fun o => match o with OutOfFuel => true | _ => false end)) in E. vm_compute in E. discriminate E.
Defined.

Lemma marpaWrapper_vb_guards_undef_witness :
  goes_undef (marpaWrapper_vb Null None None) (demo_world ∅ []).
Proof. apply marpaWrapper_vb_guards_undef. left. reflexivity. Defined.

(** A libmarpa whose valuators are broken. *)
Definition demo_env_broken : Env := {|
  marpa_run R c m := match c in mcall R return R * list Z with
                     | marpa_v_step _ => (-2, m)
                     | c => demo_marpa c m
                     end;
  user_run R c := demo_user c;
  strerror _ := "error"%string;
  vsnprintf_fails _ := false;
  ptr_string _ := "p"%string;
  time_now _ := 0;
  localtime t := Some t;
  strftime_out _ _ := ""%string;
  write_result u s := (Z.of_nat (String.length s), u);
  loop_fuel := 100%nat
|}.

Lemma vb_steps_error_diverges_witness :
  vb_steps (H0 := demo_env_broken) 1000 Null Null marpaWrapperValueOption_default (vv_set_v 14 vb_initial) (demo_world ∅ []) = OutOfFuel.
Proof. apply vb_steps_error_diverges. intros m. reflexivity. Defined.

Lemma vb_release_default_undef_witness :
  goes_undef (vb_release_output (Loc 1) (vv_set_output (Loc 2) vb_initial))
    (demo_world {[ 1%positive := OStackData (MarpaWrapperStackElementData Null None Null) ]} []).
Proof.
  eapply vb_release_default_undef; [reflexivity|reflexivity|reflexivity|discriminate].
Defined.
